(* ===== verification/_CoqProject ===== *)
-Q . S2P
Prelude.v
Errors.v
WorkflowState.v
Cost.v
Decision.v
Dag.v
Rollback.v
StageRunner.v
Checkpoint.v
Engine.v
EngineFacts.v
EngineSuccess.v
WorkflowOrch.v
Intent.v
IssueRegistry.v
RegistryFacts.v
IssueCache.v
Kernel.v
RetryQueue.v
PeerFrame.v
PeerAuth.v
PeerDispatch.v
PeerGroup.v
Regex.v
ClarQueue.v
ClarResolver.v
ClarModel.v
ClarService.v
ClarGate.v
ClarCli.v
Scheduler.v
Approval.v
ModeRouting.v
TaskPlan.v
TaskPlanFacts.v
TaskExec.v
Swarm.v
LocalTracker.v
LocalTrackerFacts.v
Modes.v
ModesFacts.v
Interpret.v
ImBinding.v
ImStore.v
ImOutbound.v
ImOutboundFacts.v
ImInbound.v
ImInboundFacts.v
IssueProvider.v
IssueProviderFacts.v
Control.v
ControlFacts.v
Launch.v
LaunchFacts.v
PrMaintenance.v
PrMaintenanceFacts.v
ReviewFeedback.v
ReviewFeedbackFacts.v
Workspace.v
WorkspaceFacts.v
GitSync.v
GitSyncFacts.v
ConfigSchema.v
ConfigFacts.v
Premise.v
IssueRun.v
IssueRunFacts.v
PeerTrust.v
PeerTrustFacts.v
BackendRun.v
BackendRunFacts.v
Validators.v
IssueCli.v
IssueCliFacts.v
EventTailer.v
Startup.v
RulesLearner.v
WorkspaceLocator.v
ControlSocket.v
RunReadModel.v
