(* ===== verification/Prelude.v ===== *)
(** * orchestratord: a verification library

    orchestratord is a daemon that turns tracker issues into pull requests by
    running coding agents.  Its core is (1) a declarative workflow engine that
    runs the stages of a workflow (agent, gate, decision, action) in dependency
    order under a cost budget, with retries, rollback and checkpoints; (2) a
    persistent registry of issues with their lifecycle, feedback and operator
    intent; (3) a dispatch kernel and a retry queue that decide what runs when;
    (4) a peer protocol between daemons; (5) a clarification gate that asks the
    author of an unclear issue before anything is dispatched; (6) the modes in
    which an issue is run (one agent, a pipeline of stages, a debate, a swarm of
    planned tasks) and the choice between them; (7) a scheduler, tool approval
    and a tracker kept in local files; (8) a message gateway that takes slash
    commands from chat channels to the daemon and reports back to them; (9) the
    issue-to-pull-request application, which polls the tracker, launches a run
    in a workspace of its own, watches the agent's events, checks, commits and
    publishes the result and keeps the pull request up to date.
    Paths below are under the repository's [src/orchestratord/].

    ** How the parts fit together

    A [WorkflowOrchestrator] prepares an engine for a task, resumes it from a
    checkpoint, executes it and cleans up.  The engine walks the order computed
    from the schema; for each stage it calls the stage runner, charges the cost
    tracker, asks the decision handler, saves a checkpoint and emits events; on
    failure it consults the rollback manager.  The kernel launches work items
    under a concurrency limit; a failed issue goes to the retry queue, whose
    plan is persisted on the issue's registry record.  Daemons federate as
    peers: signed frames with one-time nonces carry messages, which a
    dispatcher deduplicates, and groups of peers agree by broadcast.
    A daemon knows its peers by a registry of token hashes, which the API
    consults on each request and rotates.  Before a
    launch the clarification gate analyses the issue, asks through the resolver
    and its queue, and records the verdict in the registry.  A poll registers
    the tracker's issues, applies the operator's intents and launches what is
    eligible; control files and chat commands retry, stop or
    redirect what runs.  A launch prepares the workspace and the session, the
    mode selector picks a runner, and the runners call the agent, whose event
    stream the agent loop turns into a status under stall, turn and time limits.
    A finished run passes the reproduction gate, the tests and the regression
    guard before the git sync commits, pushes and opens the pull request; its
    end is interpreted into the registry, the retry queue and the tracker.
    Later polls look after merge conflicts and review feedback of the pull
    request, and what a review taught is merged into the rules file.  A daemon
    starts by recovering what a crash left behind and then polls until it is shut
    down; operators reach it by the issue commands and follow a run by the tailed
    event files.  The gateway deduplicates an inbound message in its
    store, classifies it, routes it by the bindings and gates it by allow-lists;
    an outbound message is recorded in the store's outbox chunk by chunk, sent
    with retries to authorized recipients and replayed after a crash.

    ** Files

    - [Prelude]: automation, Python values, exceptions and state, dictionaries
      with insertion order, list and rational facts.  Root of the development.
    - [Errors], [WorkflowState]: [workflow_engine/errors.py],
      [workflow_engine/workflow_state.py] (exception hierarchy; stage nodes,
      results, the state and each of its operations).
    - [Cost]: [workflow_engine/cost.py].
    - [Decision]: [workflow_engine/decision_handler.py].
    - [Dag]: [WorkflowSchema] and [_parse_stage_node] of
      [workflow_engine/engine.py]; Kahn's algorithm as the code runs it.
    - [Rollback]: [workflow_engine/rollback.py], [gate_rollback.py], over an
      explicit file tree.
    - [StageRunner]: [workflow_engine/stage_runner.py] with [validate] of
      [validators/__init__.py] and the action call of [actions.py].
    - [Checkpoint]: [workflow_engine/checkpoint.py], the JSON encoding included.
    - [Engine]: [DeclarativeWorkflowEngine] of [workflow_engine/engine.py] and
      [event_bus.py]; [EngineFacts] and [EngineSuccess] prove it.  The engine
      calls its runner through [StageRunnerOps]; [RunnerLaws] is what it relies
      on, and [services_laws] discharges it for the runner of [StageRunner].
    - [WorkflowOrch]: [workflow_orchestrator.py] and [WorkflowResumer].
    - [Intent]: [intent.py].
    - [IssueRegistry], [RegistryFacts]: [issue_registry/], one definition per
      method, [exec_call] as the step of a history of calls.
    - [IssueCache]: [issue_registry/cache.py].
    - [Kernel]: [kernel/kernel.py] (the generic kernel), [kernel/dispatch.py],
      [kernel/application.py], [kernel/work_provider.py], [RetryItem] of
      [session_state.py]; a transition system whose steps are the stretches of
      code between two awaits.
    - [RetryQueue]: the retry procedures of [orchestrator.py]; [LaunchLaws] is
      what a sweep relies on from launching an issue, which may raise, and
      [launching_laws] of [LaunchFacts] discharges it for the modelled launch.
    - [PeerFrame], [PeerAuth], [PeerDispatch], [PeerGroup]: [peer/protocol.py],
      [peer/hmac_sig.py] with [peer/nonce_store.py], [peer/dispatcher.py] (a
      transition system) and [peer/group.py].
    - [Regex]: what the sources use of [re] and of [str.splitlines].
    - [ClarQueue], [ClarResolver], [ClarModel], [ClarService], [ClarGate],
      [ClarCli]: [issue_clarifier/] ([queue.py], [resolver.py]; [models.py],
      [parser.py], [prompt.py]; [service.py], [cache.py]; [gate.py] with its
      caller in [applications/issue_pr/provider.py]) and [_run_clarify] of
      [commands/issue.py].
    - [Scheduler]: [scheduler/autopilot.py] over the rows it keeps.
    - [Approval]: [kernel/approval.py].
    - [ModeRouting]: [mode_router.py], [mode_selector.py] and the lookup of the
      runner ([kernel/mode_dispatcher.py], [orchestrator.py]).
    - [TaskPlan], [TaskPlanFacts], [TaskExec]: [task_decomposition/].
    - [Swarm]: [modes/swarm.py]; [Modes], [ModesFacts]: [modes/debate.py],
      [modes/pipeline.py], [modes/coordinator.py].
    - [LocalTracker], [LocalTrackerFacts]: [local_tracker/].
    - [Interpret]: [interpret] and [interpret_sync_result] of
      [applications/issue_pr/lifecycle.py].
    - [ImBinding]: [im_gateway/binding.py], [router.py]; [ImStore]:
      [im_gateway/store.py]; [ImOutbound], [ImOutboundFacts]:
      [im_gateway/outbound.py], [text.py], the replay of [gateway.py] and the
      results, retry policy and authorization of [channels/]; [ImInbound],
      [ImInboundFacts]: [im_gateway/dispatcher.py], [repl_command_gate.py],
      [processing_status.py] and [semantics/].
    - [IssueProvider], [IssueProviderFacts]: the poll,
      [applications/issue_pr/provider.py] with what it calls of
      [interpret.py], [issue_registry/issue.py] and [tracker.py].
    - [Control], [ControlFacts]: control files and operator commands
      ([orchestrator.py], [applications/issue_pr/commands.py]).
    - [Launch], [LaunchFacts]: [_launch_issue] of [orchestrator.py] and the
      preparation in [applications/issue_pr/lifecycle.py].
    - [PrMaintenance], [PrMaintenanceFacts]: conflict scan, resolution runs and
      the closing of merged issues ([applications/issue_pr/interpret.py]).
    - [ReviewFeedback], [ReviewFeedbackFacts]: [review_feedback.py] and the
      launch of its follow-ups.
    - [Workspace], [WorkspaceFacts]: [workspace.py], [workspace_verify.py].
    - [GitSync], [GitSyncFacts]: [git/sync.py], [git/utils.py],
      [kernel/git_probe.py].
    - [ConfigSchema], [ConfigFacts]: [config/schema.py], [tracker_kinds.py].
    - [Premise]: [premise_check.py], [repro_gate.py]; [IssueRun],
      [IssueRunFacts]: [applications/issue_pr/runner.py] and [repro.py].
    - [PeerTrust], [PeerTrustFacts]: [peer/registry.py], the authentication of
      [api/deps.py], the endpoints of [api/routers/peer.py],
      [peer/topic_registry.py].
    - [BackendRun], [BackendRunFacts]: the run of an agent, [backend_runner.py]
      with [runner_utils.py], [spi/backend.py], [cost/estimator.py].
    - [Validators]: [workflow_engine/validators/], [gate_handler.py].
    - [IssueCli], [IssueCliFacts]: stop, pause, resume, inject, review, feedback,
      rebase and retry of [commands/issue.py], with [commands/service.py] and
      [models.py].
    - [EventTailer]: [event_tailer.py], [transcript_compat.py].
    - [Startup]: [_kernel_start] and the reload of the title filter of
      [orchestrator.py], the poll cycle and the loop of [kernel/kernel.py].
    - [WorkspaceLocator]: [workspace_locator.py]; [ControlSocket]:
      [control_socket.py], a transition system.
    - [RulesLearner]: [rules_learner.py] and [_apply_review_rules] of
      [applications/issue_pr/interpret.py].
    - [RunReadModel]: [run_read_model.py].

    ** What the theorems show

    - Engine, for fresh runs: every stage starts after its dependencies completed,
      in every mode and whatever fails; a successful run completed every stage,
      and the cost recorded for it is within the budget; runs with bounded loops
      that nobody pauses terminate; the stage order is topological and is refused
      exactly when none exists.
    - Persistence: a checkpoint gives back what [restored] says and is replaced
      atomically; the
      registry file lags memory only in throttled diagnostics; a scheduled retry
      survives a crash.
    - Stage runner, cost, decisions, rollback: the behaviour of each operation
      on every branch; gates are approved only on evidence; decision budgets
      bound loops.
    - Kernel and retries: the concurrency limit and key uniqueness in every
      interleaving; disposed work never runs again; due retries are taken along;
      a sweep that returns loses no retry, and one that raises says where it
      stopped; attempts and requeues are bounded.
    - Peers: frames round-trip; signatures bind what they cover; a nonce is
      accepted once in its life; redelivered messages are not executed again in
      the dedup window; scheduled turns stay under their ceiling; groups whose
      changes are published converge.
    - Registry and cache: invariants of the feedback lists and pull request
      time over all histories of calls; the trimmed cache answers like an
      untrimmed one.
    - Clarification: only the author's comments answer a question; every question
      ends; an issue passes the gate only with a verdict on its present text, or
      when the gate raises and fails open;
      analyses and rounds are bounded; parsed answers are well formed.
    - Task plans: the waves are a schedule and exist exactly when there is one;
      validation accepts exactly the schedules; accepted execution evidence
      respects dependencies and the parallelism limit.
    - Modes: the judge runs exactly when all proposers succeeded, isolated runs
      see only the committed workspace, a pipeline stops at its first failure;
      sessions and configuration are restored.
    - Scheduler, tracker, end of a run: a slot fires once and none is passed over
      while passes are close enough; front matter and comments round-trip; an
      issue is not closed on the tracker while a retry of it is queued, and the
      tracker is told when one ends in failure.
    - Message gateway: one binding covers an origin; a message is let through
      once per window, over restarts; only admitted commands reach a host; a
      send that returns settles every key it wrote, an interrupted one is replayable,
      and only authorized recipients are sent to; allow-lists round-trip.
    - Issue application: only eligible issues are launched; a stopped issue is
      not retried; a run always gives its slot back, and its claim unless its end
      is cancelled, and records its end once; a
      silent agent is ended, and a run is called completed only for a cause; a
      closed reproduction gate or failing tests keep a run unpublished; the sync
      reports what git did and the regression guard blocks what it should; a
      workspace kept for its work survives restarts; an issue is offered each
      piece of feedback once.
    - Configuration: what loads is within its bounds, and sections moved to the
      places of the second layout mean the same there.  Peer trust: a rotated token overlaps its successor
      for the grace period, and callers are held to their rate.
    - Validators: an automatic gate looks at files, scores stay in the unit
      interval, the two gate paths agree.
    - Operators: a command is carried out in the daemon or left in a file the
      daemon's next poll reads; a stop asks for consent; hints round-trip.
      Tailing in steps reads what one reading would, the queue of events is
      bounded and no tool call is counted twice.  A control socket takes commands
      from authorized clients, in order and without loss, and a broadcast that is
      not disturbed reaches every client.  The dashboard's totals add up and
      whoever waits for a person is shown.
    - Start and loop: after a start no record is running and every planned retry
      is queued once; a poll cycle keeps its order and is always marked as over;
      the end of the loop is reported once; a reload keeps the configuration in
      bounds.  A daemon that crashed is found by its successor.
    - Rules: merging conserves support whatever a judge answers, the judge's
      answers can always be carried out, pruning keeps the best, a review is
      counted once.
    - Behaviour that differs from its intent is stated as a theorem as well
      (kind "error"): a rejected gate forgiven by a retry, decision budgets
      forgotten, stage costs always zero under the injected provider, snapshots
      that lose files, a kernel slot leaked when preparation raises, hand-offs
      lost to interleaving, failure counts dropped by re-registration, a nonce
      outside the signature, deduplication that concurrent deliveries pass, a
      cached question that opens the gate, answers lost, swarms that never
      resume, a parallelism limit that evidence files escape, outbox records that
      no replay settles, commands lost when their handler fails, runs that end
      without a verdict when their journal is missing, declined issues that are
      retried, nested configuration sections that are dropped, revoked tokens
      that revive, stopped runs reported as successes, task limits that are
      ignored, a zero stall timeout that ends a run at once, a threshold gate
      that rejects successes, attempts that a crash forgets, edits that are not
      seen, rows that stop a reader, rules lost to an unreadable file,
      workspaces that share a name, broadcasts broken by a new client, a log
      broken by a line separator.  Where an example is enough there is one: a
      launch that raises empties the queue of due retries, a cancelled clean-up
      leaves a session open or a claim taken.

    ** Modelling choices and bounds

    - A Python float is an exact rational [Q]; the model does not round.  An
      int is [Z].  Strings are byte strings; [lower] and [strip] act on ASCII.
    - A call that may raise returns an [outcome]; stateful code is the monad
      [M], which keeps what was mutated before an exception.
    - A dict is an association list in insertion order; [dict_wf] says its keys
      are distinct.
    - The world outside the engine (agents, actions, files, clock, control) is
      an abstract type [W] with operations in [Env] and [Services]; theorems
      quantify over it.  Clock readings and I/O faults of the registry come in
      a [Tick].
    - Loops that are not structural take fuel: [kahn] runs with one unit per
      stage ([kahn_fuel] shows that this suffices), the
      engine's loops with any fuel, and [execute_terminates] gives an amount
      that suffices; [wait_for_control] polls as long as the run is paused.
    - Retry loops ([run], [run_gate], [run_decision]) are structural in the
      number of attempts left.
    - The issue application runs over records of its collaborators (tracker,
      git, agent, clock) whose calls are kept as a log in the order they are
      made; the file system is a map from paths to contents; the outcome or the
      fault of each outside call is a parameter.  The agent loop consumes a list
      of beats (an event, a timeout, the end of the stream), so its theorems
      range over every stream and its termination over the beats it needs.
    - A cancellation is an outcome of its own where the code lets it through: the
      calls of the tracker in [Interpret] and [IssueRun] ([Interrupted]), the
      clean-up of [BackendRun] ([Cleanup]) and of the workspace, the fetch and the
      launch of a retry.  The git calls of the sync and the handlers of the
      message gateway are not cancelled half way.
    - A log of JSON lines is the list of the records appended to it; a query
      reads the text of its file again ([ImStore.read_ndjson]), with what
      [json.dumps] and [json.loads] do as parameters.
    - Log messages, telemetry and notifications, which feed nothing back, are
      left out.

    ** Not modelled

    Input and output with little logic of its own: HTTP and WebSocket servers,
    the ORM, argument parsing and printing of the command line, dashboards,
    channel adapters, the IPC server, the clients of remote trackers, the
    subprocess and SDK drivers of the agents, telemetry and status output.  Text:
    prompts, templates, pull request bodies, and the parsing of an LLM judge that
    nothing calls.  Of the peer protocol, the transport, the request handlers, the
    outgoing client and the Redis stores.  [ArtifactResolver] and the
    observability wiring.  Code outside the repository is a parameter where a
    component calls it: croniter, YAML, [json], hashes, HMAC, gzip, the language
    model's answers, git and [asyncio.gather]. *)

From Stdlib Require Export QArith.
From Stdlib Require Export Lqa.
From stdpp Require Export strings gmap list.

Open Scope Z_scope.

(** ** Automation shared by the development *)

Create HintDb py discriminated.

(** Case analysis on every test of the goal or of the hypotheses. *)
Ltac break_step :=
  match goal with
  | |- context [ match ?x with _ => _ end ] => destruct x eqn:?
  | H : context [ match ?x with _ => _ end ] |- _ => destruct x eqn:?
  end.
Ltac break := repeat (break_step; simplify_eq/=).

(** Finish a goal by the standard closing tactics of the library. *)
Ltac finish := simplify_eq/=; try done; eauto with py; try lia; try congruence.

(** ** Python values *)

(** A Python [float] is an exact rational: every finite double is one, and the
    model does not round. *)
Definition qle (x y : Q) : bool := Qle_bool x y.
Definition qlt (x y : Q) : bool := negb (Qle_bool y x).
Definition qmax (x y : Q) : Q := if Qle_bool x y then y else x.
Definition qmin (x y : Q) : Q := if Qle_bool x y then x else y.

(** An f-string: its literal parts and the values it formats.  Two texts are
    never compared by the program; it only asks whether one is empty. *)
Inductive frag :=
| Lit (s : string)
| FInt (z : Z)
| FUsd (q : Q)
| FPct (q : Q)
| FNum (q : Q)
| FRepr (l : list (list frag)).

Abbreviation text := (list frag).

Definition frag_nonempty (f : frag) : bool :=
  match f with
  | Lit s => negb (String.eqb s EmptyString)
  | _ => true
  end.

(** [bool(text)] *)
Definition text_truthy (t : text) : bool := existsb frag_nonempty t.

(** Dynamically typed values, where the source has [Any]: JSON-like data, and
    live objects ([PObj]) that [json.dumps] refuses.  [PText] is a formatted
    string kept as its parts. *)
Inductive pyval :=
| PNone
| PBool (b : bool)
| PInt (z : Z)
| PFloat (q : Q)
| PStr (s : string)
| PText (t : text)
| PList (l : list pyval)
| PDict (d : list (string * pyval))
| PObj (id : positive).

(** [bool(v)] *)
Definition truthy (v : pyval) : bool :=
  match v with
  | PNone => false
  | PBool b => b
  | PInt z => negb (z =? 0)
  | PFloat q => negb (Qeq_bool q 0)
  | PStr s => negb (String.eqb s EmptyString)
  | PText t => text_truthy t
  | PList l => negb (Nat.eqb (length l) 0)
  | PDict d => negb (Nat.eqb (length d) 0)
  | PObj _ => true
  end.

(** Induction through the lists and dictionaries of a value. *)
Section pyval_ind.
Variable P : pyval -> Prop.
Hypothesis HNone : P PNone.
Hypothesis HBool : forall b, P (PBool b).
Hypothesis HInt : forall z, P (PInt z).
Hypothesis HFloat : forall q, P (PFloat q).
Hypothesis HStr : forall s, P (PStr s).
Hypothesis HText : forall t, P (PText t).
Hypothesis HList : forall l, Forall P l -> P (PList l).
Hypothesis HDict : forall d, Forall (fun kv => P (snd kv)) d -> P (PDict d).
Hypothesis HObj : forall i, P (PObj i).

Fixpoint pyval_nested_ind (v : pyval) : P v :=
  match v with
  | PNone => HNone
  | PBool b => HBool b
  | PInt z => HInt z
  | PFloat q => HFloat q
  | PStr s => HStr s
  | PText t => HText t
  | PList l =>
      HList l ((fix go l : Forall P l :=
                  match l with
                  | [] => Forall_nil_2 _
                  | x :: l' => Forall_cons_2 _ _ _ (pyval_nested_ind x) (go l')
                  end) l)
  | PDict d =>
      HDict d ((fix go d : Forall (fun kv => P (snd kv)) d :=
                  match d with
                  | [] => Forall_nil_2 _
                  | kv :: d' => Forall_cons_2 _ _ _ (pyval_nested_ind (snd kv)) (go d')
                  end) d)
  | PObj i => HObj i
  end.
End pyval_ind.

(** [json.dumps] succeeds: no live object anywhere inside. *)
Fixpoint jsonable (v : pyval) : bool :=
  match v with
  | PObj _ => false
  | PList l => forallb jsonable l
  | PDict d => forallb (fun kv => jsonable (snd kv)) d
  | _ => true
  end.

Definition is_some {A} (o : option A) : bool :=
  match o with Some _ => true | None => false end.

(** [a or b] on optional values whose present values are all truthy. *)
Definition or_else {A} (a b : option A) : option A :=
  match a with Some _ => a | None => b end.

(** [s or t] on optional strings: the empty string is falsy. *)
Definition str_or (a : option string) (b : option string) : option string :=
  match a with
  | Some s => if String.eqb s EmptyString then b else a
  | None => b
  end.

(** ** Exceptions and state *)

(** A call returns or raises. *)
Inductive outcome (E A : Type) :=
| Ret (a : A)
| Raise (e : E).
Arguments Ret {E A} a.
Arguments Raise {E A} e.

#[export] Instance outcome_ret {E} : MRet (outcome E) := fun A a => Ret a.
#[export] Instance outcome_bind {E} : MBind (outcome E) :=
  fun A B f m => match m with Ret a => f a | Raise e => Raise e end.

(** [[f(x) for x in l]] when [f] may raise. *)
Fixpoint map_outcome {E A B} (f : A -> outcome E B) (l : list A) : outcome E (list B) :=
  match l with
  | [] => Ret []
  | x :: l' => y ← f x; ys ← map_outcome f l'; Ret (y :: ys)
  end.

(** Stateful code: what it mutated before raising stays mutated. *)
Definition M (S E A : Type) : Type := S -> outcome E A * S.

#[export] Instance M_ret {S E} : MRet (M S E) := fun A a s => (Ret a, s).
#[export] Instance M_bind {S E} : MBind (M S E) :=
  fun A B f m s =>
    match m s with
    | (Ret a, s') => f a s'
    | (Raise e, s') => (Raise e, s')
    end.

Definition raise {S E A} (e : E) : M S E A := fun s => (Raise e, s).
Definition get {S E} : M S E S := fun s => (Ret s, s).
Definition put {S E} (s : S) : M S E unit := fun _ => (Ret tt, s).
Definition modify {S E} (f : S -> S) : M S E unit := fun s => (Ret tt, f s).
Definition gets {S E A} (f : S -> A) : M S E A := fun s => (Ret (f s), s).

(** [try: m except e: h(e)] *)
Definition try_except {S E A} (m : M S E A) (h : E -> M S E A) : M S E A :=
  fun s =>
    match m s with
    | (Ret a, s') => (Ret a, s')
    | (Raise e, s') => h e s'
    end.

(** ** Insertion-ordered dictionaries *)

Section dict.
Context {K V : Type} `{EqDecision K}.

Fixpoint dget (k : K) (d : list (K * V)) : option V :=
  match d with
  | [] => None
  | (k', v) :: d' => if decide (k = k') then Some v else dget k d'
  end.

(** [d[k] = v]: in place for a known key, at the end for a new one. *)
Fixpoint dset (k : K) (v : V) (d : list (K * V)) : list (K * V) :=
  match d with
  | [] => [(k, v)]
  | (k', v') :: d' =>
      if decide (k = k') then (k', v) :: d' else (k', v') :: dset k v d'
  end.

(** [d.pop(k, None)] *)
Fixpoint ddel (k : K) (d : list (K * V)) : list (K * V) :=
  match d with
  | [] => []
  | (k', v') :: d' => if decide (k = k') then ddel k d' else (k', v') :: ddel k d'
  end.

Definition dmem (k : K) (d : list (K * V)) : bool := is_some (dget k d).
Definition dkeys (d : list (K * V)) : list K := map fst d.
Definition dvals (d : list (K * V)) : list V := map snd d.

(** What a Python dictionary guarantees: one entry per key. *)
Definition dict_wf (d : list (K * V)) : Prop := NoDup (dkeys d).
End dict.

Abbreviation dict K V := (list (K * V)) (only parsing).

(** [s.split(c)] for one character [c]. *)
Fixpoint split_char (c : Ascii.ascii) (s : string) : list string :=
  match s with
  | EmptyString => [""]
  | String x s' =>
      if Ascii.eqb x c then "" :: split_char c s'
      else match split_char c s' with
           | w :: ws => String x w :: ws
           | [] => [String x ""]
           end
  end.

(** The order of strings, which [sorted] uses on names. *)
Definition name_le (a b : string) : Prop := String.leb a b = true.
#[export] Instance name_le_dec a b : Decision (name_le a b).
Proof. unfold name_le. apply _. Defined.

(** ** Lists *)

Section lists.
Context {A : Type} `{EqDecision A}.

(** [x in l] *)
Definition mem (x : A) (l : list A) : bool := bool_decide (x ∈ l).

(** [l.index(x)]; [None] is the [ValueError]. *)
Fixpoint index_of (x : A) (l : list A) : option nat :=
  match l with
  | [] => None
  | y :: l' => if decide (x = y) then Some 0%nat else S <$> index_of x l'
  end.

(** [l.remove(x)] for a present [x]: the first occurrence goes. *)
Fixpoint remove_first (x : A) (l : list A) : list A :=
  match l with
  | [] => []
  | y :: l' => if decide (x = y) then l' else y :: remove_first x l'
  end.
End lists.

(** [l[-n:]] *)
Definition last_n {A} (n : nat) (l : list A) : list A :=
  if Nat.eqb n 0 then l else drop (length l - n) l.


(** * Facts *)

(** ** Rationals *)

Lemma qle_true x y : qle x y = true <-> (x <= y)%Q.
Proof. apply Qle_bool_iff. Qed.

Lemma qle_false x y : qle x y = false <-> (y < x)%Q.
Proof.
  unfold qle. rewrite <- not_true_iff_false, Qle_bool_iff.
  split; [apply Qnot_le_lt | apply Qlt_not_le].
Qed.

Lemma qlt_true x y : qlt x y = true <-> (x < y)%Q.
Proof. unfold qlt. rewrite negb_true_iff. apply qle_false. Qed.

Lemma qlt_false x y : qlt x y = false <-> (y <= x)%Q.
Proof. unfold qlt. rewrite negb_false_iff. apply qle_true. Qed.

(** Turn boolean comparisons of rationals into inequalities. *)
Ltac qsimp :=
  repeat match goal with
  | H : qle _ _ = true |- _ => apply qle_true in H
  | H : qle _ _ = false |- _ => apply qle_false in H
  | H : qlt _ _ = true |- _ => apply qlt_true in H
  | H : qlt _ _ = false |- _ => apply qlt_false in H
  | |- qle _ _ = true => apply qle_true
  | |- qle _ _ = false => apply qle_false
  | |- qlt _ _ = true => apply qlt_true
  | |- qlt _ _ = false => apply qlt_false
  end.

#[export] Instance qle_proper : Proper (Qeq ==> Qeq ==> eq) qle.
Proof. intros x x' Hx y y' Hy. unfold qle. by rewrite Hx, Hy. Qed.

#[export] Instance qlt_proper : Proper (Qeq ==> Qeq ==> eq) qlt.
Proof. intros x x' Hx y y' Hy. unfold qlt. by rewrite Hx, Hy. Qed.

Lemma qmin_le_l x y : (qmin x y <= x)%Q.
Proof. unfold qmin. destruct (Qle_bool x y) eqn:E; [lra|]. apply qle_false in E. lra. Qed.

Lemma qmin_le_r x y : (qmin x y <= y)%Q.
Proof. unfold qmin. destruct (Qle_bool x y) eqn:E; [by apply Qle_bool_iff|lra]. Qed.

Lemma qmax_le_l x y : (x <= qmax x y)%Q.
Proof. unfold qmax. destruct (Qle_bool x y) eqn:E; [by apply Qle_bool_iff|lra]. Qed.

Lemma qmax_le_r x y : (y <= qmax x y)%Q.
Proof. unfold qmax. destruct (Qle_bool x y) eqn:E; [lra|]. apply qle_false in E. lra. Qed.

(** ** Dictionaries *)

Section dict_facts.
Context {K V : Type} `{EqDecision K}.
Implicit Types (d : list (K * V)) (k : K) (v : V).

Lemma dget_dset_eq k v d : dget k (dset k v d) = Some v.
Proof.
  induction d as [|[k' v'] d IH]; simpl; [by rewrite decide_True|].
  destruct (decide (k = k')); simpl; [by rewrite decide_True|].
  by rewrite decide_False.
Qed.

Lemma dget_dset_ne k k' v d : k <> k' -> dget k' (dset k v d) = dget k' d.
Proof.
  intros Hne. induction d as [|[k0 v0] d IH]; simpl; [by rewrite decide_False|].
  destruct (decide (k = k0)) as [->|]; simpl; [by destruct (decide (k' = k0))|].
  by rewrite IH.
Qed.

Lemma dget_dset k k' v d :
  dget k' (dset k v d) = if decide (k = k') then Some v else dget k' d.
Proof.
  destruct (decide (k = k')) as [->|]; [apply dget_dset_eq | by apply dget_dset_ne].
Qed.

Lemma dget_ddel_eq k d : dget k (ddel k d) = None.
Proof.
  induction d as [|[k0 v0] d IH]; simpl; [done|].
  destruct (decide (k = k0)); simpl; [done|]. by rewrite decide_False.
Qed.

Lemma dget_ddel_ne k k' d : k <> k' -> dget k' (ddel k d) = dget k' d.
Proof.
  intros Hne. induction d as [|[k0 v0] d IH]; simpl; [done|].
  destruct (decide (k = k0)) as [->|]; simpl; [by rewrite decide_False|].
  by rewrite IH.
Qed.

Lemma dget_In k v d : dget k d = Some v -> (k, v) ∈ d.
Proof.
  induction d as [|[k0 v0] d IH]; simpl; [done|].
  destruct (decide (k = k0)) as [->|]; intros; simplify_eq;
    rewrite elem_of_cons; auto.
Qed.

Lemma dget_None_keys k d : dget k d = None <-> k ∉ dkeys d.
Proof.
  induction d as [|[k0 v0] d IH]; simpl; [set_solver|].
  destruct (decide (k = k0)) as [->|]; [split; [done|set_solver]|].
  rewrite IH. set_solver.
Qed.

Lemma dget_Some_keys k d : is_Some (dget k d) <-> k ∈ dkeys d.
Proof.
  rewrite <- not_eq_None_Some, dget_None_keys.
  destruct (decide (k ∈ dkeys d)); tauto.
Qed.

Lemma dmem_keys k d : dmem k d = true <-> k ∈ dkeys d.
Proof.
  rewrite <- dget_Some_keys. unfold dmem.
  destruct (dget k d); simpl; split; intros; eauto; [done|by destruct H].
Qed.

Lemma dict_wf_In k v d : dict_wf d -> (k, v) ∈ d -> dget k d = Some v.
Proof.
  unfold dict_wf. induction d as [|[k0 v0] d IH]; simpl; [set_solver|].
  intros [Hni Hnd]%NoDup_cons [[= -> ->]|Hin]%elem_of_cons; [by rewrite decide_True|].
  rewrite decide_False; [by apply IH|].
  intros ->. apply Hni. unfold dkeys. apply list_elem_of_fmap. by exists (k0, v).
Qed.

Lemma dkeys_dset k v d :
  dkeys (dset k v d) = if dmem k d then dkeys d else dkeys d ++ [k].
Proof.
  unfold dmem. induction d as [|[k0 v0] d IH]; simpl; [done|].
  destruct (decide (k = k0)); simpl; [done|]. rewrite IH.
  by destruct (is_some (dget k d)).
Qed.

Lemma dkeys_dset_in k v d x : x ∈ dkeys (dset k v d) <-> x = k \/ x ∈ dkeys d.
Proof.
  rewrite dkeys_dset. destruct (dmem k d) eqn:E.
  - apply dmem_keys in E. set_solver.
  - set_solver.
Qed.

Lemma dset_wf k v d : dict_wf d -> dict_wf (dset k v d).
Proof.
  unfold dict_wf. rewrite dkeys_dset. destruct (dmem k d) eqn:E; [done|].
  intros Hnd. apply NoDup_app. split; [done|]. split; [|apply NoDup_singleton].
  intros x Hx ->%list_elem_of_singleton. apply dmem_keys in Hx. congruence.
Qed.

Lemma dkeys_ddel k d : dkeys (ddel k d) = filter (fun x => k <> x) (dkeys d).
Proof.
  induction d as [|[k0 v0] d IH]; simpl; [done|].
  rewrite filter_cons.
  destruct (decide (k = k0)) as [->|Hne].
  - rewrite decide_False by (by intros []). done.
  - rewrite decide_True by done. simpl. by rewrite IH.
Qed.

Lemma ddel_wf k d : dict_wf d -> dict_wf (ddel k d).
Proof. unfold dict_wf. rewrite dkeys_ddel. apply NoDup_filter. Qed.

Lemma ddel_length k d : (length (ddel k d) <= length d)%nat.
Proof.
  induction d as [|[k0 v0] d IH]; simpl; [lia|].
  destruct (decide (k = k0)); simpl; lia.
Qed.

Lemma ddel_length_lt k d : is_Some (dget k d) -> (length (ddel k d) < length d)%nat.
Proof.
  intros [v Hv]. induction d as [|[k0 v0] d IH]; simpl in *; [done|].
  destruct (decide (k = k0)); simpl.
  - pose proof (ddel_length k d). lia.
  - specialize (IH Hv). lia.
Qed.

Lemma dset_length_le k v d : (length (dset k v d) <= S (length d))%nat.
Proof.
  induction d as [|[k0 v0] d IH]; simpl; [lia|].
  destruct (decide (k = k0)); simpl; lia.
Qed.

Lemma ddel_id k d : dget k d = None -> ddel k d = d.
Proof.
  induction d as [|[k0 v0] d IH]; simpl; [done|].
  destruct (decide (k = k0)); simpl; [done|]. intros. by rewrite IH.
Qed.

Lemma dset_fresh k v d : dget k d = None -> dset k v d = d ++ [(k, v)].
Proof.
  induction d as [|[k0 v0] d IH]; simpl; [done|].
  destruct (decide (k = k0)); [done|]. intros. by rewrite IH.
Qed.

Lemma ddel_dset k v d : ddel k (dset k v d) = ddel k d.
Proof.
  induction d as [|[k0 v0] d IH]; simpl; [by rewrite decide_True|].
  destruct (decide (k = k0)) as [->|]; simpl; [by rewrite decide_True|].
  by rewrite decide_False, IH.
Qed.

(** A dictionary comprehension over distinct keys is the list of its items. *)
Lemma fold_dset_fresh {B} (f : B -> K) (g : B -> V) (l : list B) d :
  NoDup (dkeys d ++ map f l) ->
  fold_left (fun d b => dset (f b) (g b) d) l d = d ++ map (fun b => (f b, g b)) l.
Proof.
  revert d. induction l as [|b l IH]; intros d; simpl; [by rewrite !app_nil_r|].
  intros Hnd. pose proof Hnd as (_ & Hdis & _)%NoDup_app.
  rewrite dset_fresh.
  - rewrite IH; [by rewrite <- app_assoc|].
    unfold dkeys in *. rewrite map_app, <- app_assoc. exact Hnd.
  - apply dget_None_keys. intros Hin. apply (Hdis _ Hin). set_solver.
Qed.
End dict_facts.

#[export] Hint Resolve dset_wf ddel_wf dget_dset_eq dget_ddel_eq : py.
#[export] Hint Rewrite @dget_dset_eq @dget_ddel_eq : py.

(** ** Lists *)

Section list_facts.
Context {A : Type} `{EqDecision A}.
Implicit Types (x : A) (l : list A).

Lemma mem_true x l : mem x l = true <-> x ∈ l.
Proof. apply bool_decide_eq_true. Qed.

Lemma mem_false x l : mem x l = false <-> x ∉ l.
Proof. apply bool_decide_eq_false. Qed.

Lemma index_of_lookup x l n : index_of x l = Some n -> l !! n = Some x.
Proof.
  revert n. induction l as [|y l IH]; intros n; simpl; [done|].
  destruct (decide (x = y)) as [->|]; intros; simplify_eq/=; [done|].
  destruct (index_of x l) as [m|]; simplify_eq/=. by apply IH.
Qed.

Lemma index_of_lt x l n : index_of x l = Some n -> (n < length l)%nat.
Proof. intros H%index_of_lookup. by apply lookup_lt_Some in H. Qed.

Lemma index_of_None x l : index_of x l = None <-> x ∉ l.
Proof.
  induction l as [|y l IH]; simpl; [set_solver|].
  destruct (decide (x = y)) as [->|]; [set_solver|].
  rewrite fmap_None, IH. set_solver.
Qed.

Lemma index_of_Some x l : x ∈ l -> exists n, index_of x l = Some n.
Proof.
  intros Hin. destruct (index_of x l) eqn:E; [eauto|].
  by apply index_of_None in E.
Qed.

Lemma remove_first_subset x y l : y ∈ remove_first x l -> y ∈ l.
Proof.
  induction l as [|z l IH]; simpl; [done|].
  destruct (decide (x = z)); set_solver.
Qed.

Lemma remove_first_ne x y l : y <> x -> y ∈ remove_first x l <-> y ∈ l.
Proof.
  intros Hne. induction l as [|z l IH]; simpl; [done|].
  destruct (decide (x = z)); set_solver.
Qed.

Lemma remove_first_Permutation x l : x ∈ l -> l ≡ₚ x :: remove_first x l.
Proof.
  induction l as [|z l IH]; simpl; [set_solver|].
  destruct (decide (x = z)) as [->|]; [done|].
  intros [->|Hin]%elem_of_cons; [done|].
  rewrite (IH Hin) at 1. constructor.
Qed.
End list_facts.

#[export] Hint Resolve index_of_lookup index_of_lt remove_first_subset : py.

Lemma last_n_length {A} n (l : list A) :
  (0 < n)%nat -> length (last_n n l) = Nat.min n (length l).
Proof.
  intros Hn. unfold last_n. destruct (Nat.eqb_spec n 0); [lia|].
  rewrite length_drop. lia.
Qed.

Lemma last_n_suffix {A} n (l : list A) : exists p, l = p ++ last_n n l.
Proof.
  unfold last_n. destruct (Nat.eqb n 0); [by exists []|].
  exists (take (length l - n) l). by rewrite take_drop.
Qed.

Lemma last_n_app {A} n (l : list A) x :
  (0 < n)%nat -> (n <= length l + 1)%nat ->
  last_n n (l ++ [x]) = drop (length l + 1 - n) l ++ [x].
Proof.
  intros Hn Hle. unfold last_n. destruct (Nat.eqb_spec n 0); [lia|].
  rewrite length_app; simpl. by rewrite drop_app_le by lia.
Qed.

Lemma filter_length_all {A} (f : A -> bool) (l : list A) :
  (length l <= length (List.filter f l))%nat <-> forall x, x ∈ l -> f x = true.
Proof.
  induction l as [|a l IH]; simpl; [split; [set_solver|lia]|].
  pose proof (List.filter_length_le f l) as Hle.
  destruct (f a) eqn:E; simpl.
  - rewrite <- Nat.succ_le_mono, IH. set_solver.
  - split; [lia|]. intros H. specialize (H a). rewrite E in H. set_solver.
Qed.

Lemma filter_all_id {A} (f : A -> bool) (l : list A) :
  (forall x, x ∈ l -> f x = true) -> List.filter f l = l.
Proof.
  induction l as [|a l IH]; simpl; [done|]. intros H.
  rewrite (H a) by set_solver. rewrite IH; [done|set_solver].
Qed.

Lemma forallb_spec {A} (f : A -> bool) (l : list A) :
  forallb f l = true <-> forall x, x ∈ l -> f x = true.
Proof.
  rewrite forallb_forall. split; intros H x Hx; apply H; by apply list_elem_of_In.
Qed.

(** ** Strings *)

Lemma append_assoc (a b c : string) : (a +:+ b) +:+ c = a +:+ (b +:+ c).
Proof. induction a as [|x a IH]; [done|]. by change (String x ((a +:+ b) +:+ c) = String x (a +:+ b +:+ c)); rewrite IH. Qed.

Lemma append_nil_r s : s +:+ EmptyString = s.
Proof. induction s as [|c s IH]; [done|]. by change (String c (s +:+ EmptyString) = String c s); rewrite IH. Qed.

(** ** Sequences of stateful steps *)

(** A sequence that returns: its first part returned. *)
Lemma bind_returns {S E A B} (m : M S E A) (f : A -> M S E B) s b s' :
  (m ≫= f) s = (Ret b, s') -> exists a s1, m s = (Ret a, s1) /\ f a s1 = (Ret b, s').
Proof. unfold mbind, M_bind. destruct (m s) as [[a|e] s1]; [by eauto|done]. Qed.
