(* ===== verification/Errors.v ===== *)
(** * Engine exceptions ([src/orchestratord/workflow_engine/errors.py])

    The exception classes the engine raises and the subclass test its [except]
    clauses perform.  Any exception that is not a [WorkflowEngineError] is
    [OtherException]. *)

From S2P Require Import Prelude.

Inductive exn_class :=
| WorkflowEngineError
| StageTimeoutError
| StageFailureError
| CostExceededError
| ValidationError
| GateRejectedError
| DecisionExhaustedError
| ConvergenceError
| CheckpointError
| WorkflowSchemaError
| ResumeError
| RollbackError
| OtherException.

#[export] Instance exn_class_eq_dec : EqDecision exn_class.
Proof. solve_decision. Defined.

Record exn := mkExn {
  exn_cls : exn_class;
  exn_msg : text;
  exn_stage : option Z;
}.

(** [isinstance(e, base)]: every class but [OtherException] derives directly
    from [WorkflowEngineError]. *)
Definition isinstance (e : exn) (base : exn_class) : bool :=
  bool_decide (exn_cls e = base)
  || (bool_decide (base = WorkflowEngineError) && bool_decide (exn_cls e <> OtherException)).
