(* ===== verification/WorkflowState.v ===== *)
(** * Workflow state ([src/orchestratord/workflow_engine/workflow_state.py])

    The data the engine owns and passes between stages: stage nodes of the
    DAG, stage results, and the mutable [WorkflowState] with its marking
    operations.  [time.strftime] is read through the argument [ts]; floats are
    rationals.  The facts below say what each marking operation does to the
    fields the engine reads back. *)

From S2P Require Import Prelude.

(** ** Data *)

Inductive StageStatus :=
| PENDING
| RUNNING
| COMPLETED
| FAILED
| TIMED_OUT
| SKIPPED
| GATE_PENDING
| GATE_APPROVED
| GATE_REJECTED
| ROLLED_BACK.

#[export] Instance StageStatus_eq_dec : EqDecision StageStatus.
Proof. solve_decision. Defined.

(** The [value] of the string enum, as checkpoints store it. *)
Definition status_value (s : StageStatus) : string :=
  match s with
  | PENDING => "pending"
  | RUNNING => "running"
  | COMPLETED => "completed"
  | FAILED => "failed"
  | TIMED_OUT => "timed_out"
  | SKIPPED => "skipped"
  | GATE_PENDING => "gate_pending"
  | GATE_APPROVED => "gate_approved"
  | GATE_REJECTED => "gate_rejected"
  | ROLLED_BACK => "rolled_back"
  end.

Definition all_statuses : list StageStatus :=
  [PENDING; RUNNING; COMPLETED; FAILED; TIMED_OUT; SKIPPED; GATE_PENDING;
   GATE_APPROVED; GATE_REJECTED; ROLLED_BACK].

(** [StageStatus(value)]; [None] is the [ValueError]. *)
Definition status_of_value (v : string) : option StageStatus :=
  find (fun s => String.eqb (status_value s) v) all_statuses.

Inductive StageKind := AGENT | GATE | DECISION | ACTION.

#[export] Instance StageKind_eq_dec : EqDecision StageKind.
Proof. solve_decision. Defined.

(** One entry of [decision_outcomes]: the keys the decision handler and the
    stage runner read.  [ds_rollback_to] distinguishes an absent key ([None])
    from an explicit null ([Some None]). *)
Record DecisionSpec := mkDecisionSpec {
  ds_max_times : option Z;
  ds_on_exhaust : option string;
  ds_rollback_to : option (option Z);
  ds_convergence_check : bool;
  ds_next : option Z;
}.

Definition empty_spec : DecisionSpec := mkDecisionSpec None None None false None.

Record StageNode := mkStageNode {
  sn_id : Z;
  sn_name : string;
  sn_kind : StageKind;
  sn_phase : string;
  sn_prompt : string;
  sn_depends_on : list Z;
  sn_agent_config : dict string pyval;
  sn_uses : string;
  sn_action_config : dict string pyval;
  sn_validators : list (dict string pyval);
  sn_gate_mode : string;
  sn_gate_threshold : Q;
  sn_gate_rollback_to : option Z;
  sn_decision_outcomes : dict string DecisionSpec;
  sn_timeout_seconds : Z;
  sn_max_retries : Z;
  sn_on_error : string;
}.

Definition is_agent_stage (s : StageNode) : bool := bool_decide (sn_kind s = AGENT).
Definition is_gate_stage (s : StageNode) : bool := bool_decide (sn_kind s = GATE).
Definition is_decision_stage (s : StageNode) : bool := bool_decide (sn_kind s = DECISION).
Definition is_action_stage (s : StageNode) : bool := bool_decide (sn_kind s = ACTION).

Record StageResult := mkStageResult {
  r_stage_id : Z;
  r_status : StageStatus;
  r_outputs : list string;
  r_artifacts : dict string string;
  r_error : option text;
  r_cost_usd : Q;
  r_duration_seconds : Q;
  r_decision_outcome : option string;
  r_decision_next_stage : option Z;
  r_run_id : option string;
  r_conversation_id : option string;
  r_timestamp : string;
}.

(** [StageResult(stage_id=sid, status=st)] with every default. *)
Definition new_result (sid : Z) (st : StageStatus) (ts : string) : StageResult :=
  mkStageResult sid st [] [] None 0 0 None None None None ts.

Definition with_status (st : StageStatus) (r : StageResult) : StageResult :=
  mkStageResult (r_stage_id r) st (r_outputs r) (r_artifacts r) (r_error r)
    (r_cost_usd r) (r_duration_seconds r) (r_decision_outcome r)
    (r_decision_next_stage r) (r_run_id r) (r_conversation_id r) (r_timestamp r).

Definition with_error (e : option text) (r : StageResult) : StageResult :=
  mkStageResult (r_stage_id r) (r_status r) (r_outputs r) (r_artifacts r) e
    (r_cost_usd r) (r_duration_seconds r) (r_decision_outcome r)
    (r_decision_next_stage r) (r_run_id r) (r_conversation_id r) (r_timestamp r).

Definition with_duration (q : Q) (r : StageResult) : StageResult :=
  mkStageResult (r_stage_id r) (r_status r) (r_outputs r) (r_artifacts r) (r_error r)
    (r_cost_usd r) q (r_decision_outcome r)
    (r_decision_next_stage r) (r_run_id r) (r_conversation_id r) (r_timestamp r).

(** One line of the decision history ([decision_handler.py]). *)
Record DecisionRecord := mkDecisionRecord {
  dr_stage_id : Z;
  dr_outcome : string;
  dr_timestamp : string;
  dr_next_stage : option Z;
}.

Record RollbackEvent := mkRollbackEvent {
  rb_from_stage : Z;
  rb_to_stage : Z;
  rb_reason : string;
  rb_timestamp : string;
}.

Record WorkflowState := mkWorkflowState {
  workflow_name : string;
  conversation_id : option string;
  workflow_version : string;
  current_stage : Z;
  completed_stages : list Z;
  stage_results : dict Z StageResult;
  stage_statuses : dict Z StageStatus;
  cost_accumulated_usd : Q;
  started_at : string;
  finished_at : option string;
  metadata : dict string pyval;
  rollback_events : list RollbackEvent;
  run_context : option (dict string pyval);
  issue_context : option (dict string pyval);
  decision_history : option (list DecisionRecord);
}.

Definition new_state (name version ts : string) : WorkflowState :=
  mkWorkflowState name None version 0 [] [] [] 0 ts None [] [] None None None.

(** ** Field updates *)

Definition set_current (z : Z) (s : WorkflowState) : WorkflowState :=
  mkWorkflowState (workflow_name s) (conversation_id s) (workflow_version s) z
    (completed_stages s) (stage_results s) (stage_statuses s) (cost_accumulated_usd s)
    (started_at s) (finished_at s) (metadata s) (rollback_events s) (run_context s)
    (issue_context s) (decision_history s).

Definition set_completed (l : list Z) (s : WorkflowState) : WorkflowState :=
  mkWorkflowState (workflow_name s) (conversation_id s) (workflow_version s)
    (current_stage s) l (stage_results s) (stage_statuses s) (cost_accumulated_usd s)
    (started_at s) (finished_at s) (metadata s) (rollback_events s) (run_context s)
    (issue_context s) (decision_history s).

Definition set_results (d : dict Z StageResult) (s : WorkflowState) : WorkflowState :=
  mkWorkflowState (workflow_name s) (conversation_id s) (workflow_version s)
    (current_stage s) (completed_stages s) d (stage_statuses s) (cost_accumulated_usd s)
    (started_at s) (finished_at s) (metadata s) (rollback_events s) (run_context s)
    (issue_context s) (decision_history s).

Definition set_statuses (d : dict Z StageStatus) (s : WorkflowState) : WorkflowState :=
  mkWorkflowState (workflow_name s) (conversation_id s) (workflow_version s)
    (current_stage s) (completed_stages s) (stage_results s) d (cost_accumulated_usd s)
    (started_at s) (finished_at s) (metadata s) (rollback_events s) (run_context s)
    (issue_context s) (decision_history s).

Definition set_cost (q : Q) (s : WorkflowState) : WorkflowState :=
  mkWorkflowState (workflow_name s) (conversation_id s) (workflow_version s)
    (current_stage s) (completed_stages s) (stage_results s) (stage_statuses s) q
    (started_at s) (finished_at s) (metadata s) (rollback_events s) (run_context s)
    (issue_context s) (decision_history s).

Definition set_finished (f : option string) (s : WorkflowState) : WorkflowState :=
  mkWorkflowState (workflow_name s) (conversation_id s) (workflow_version s)
    (current_stage s) (completed_stages s) (stage_results s) (stage_statuses s)
    (cost_accumulated_usd s) (started_at s) f (metadata s) (rollback_events s)
    (run_context s) (issue_context s) (decision_history s).

Definition set_rollbacks (l : list RollbackEvent) (s : WorkflowState) : WorkflowState :=
  mkWorkflowState (workflow_name s) (conversation_id s) (workflow_version s)
    (current_stage s) (completed_stages s) (stage_results s) (stage_statuses s)
    (cost_accumulated_usd s) (started_at s) (finished_at s) (metadata s) l
    (run_context s) (issue_context s) (decision_history s).

(** [self.stage_statuses[sid] = st] *)
Definition set_stage_status (sid : Z) (st : StageStatus) (s : WorkflowState) : WorkflowState :=
  set_statuses (dset sid st (stage_statuses s)) s.

(** ** Operations *)

Definition is_stage_completed (s : WorkflowState) (sid : Z) : bool :=
  mem sid (completed_stages s).

Definition get_stage_result (s : WorkflowState) (sid : Z) : option StageResult :=
  dget sid (stage_results s).

Definition mark_stage_running (sid : Z) (s : WorkflowState) : WorkflowState :=
  set_stage_status sid RUNNING (set_current sid s).

Definition mark_stage_completed (sid : Z) (r : StageResult) (s : WorkflowState)
    : WorkflowState :=
  let s := set_completed (completed_stages s ++ [sid]) s in
  let s := set_results (dset sid r (stage_results s)) s in
  let s := set_stage_status sid (r_status r) s in
  set_cost (cost_accumulated_usd s + r_cost_usd r)%Q s.

Definition mark_stage_failed (sid : Z) (error : text) (ts : string) (s : WorkflowState)
    : WorkflowState :=
  let s := set_stage_status sid FAILED s in
  if dmem sid (stage_results s) then s
  else set_results
         (dset sid (with_error (Some error) (new_result sid FAILED ts)) (stage_results s)) s.

Definition add_rollback_event (from_stage to_stage : Z) (reason ts : string)
    (s : WorkflowState) : WorkflowState :=
  set_rollbacks (rollback_events s ++ [mkRollbackEvent from_stage to_stage reason ts]) s.

Definition mark_workflow_finished (ts : string) (s : WorkflowState) : WorkflowState :=
  set_finished (Some ts) s.

Definition total_stages (s : WorkflowState) : nat := length (stage_statuses s).
Definition completed_count (s : WorkflowState) : nat := length (completed_stages s).

Definition progress_pct (s : WorkflowState) : Q :=
  if Nat.eqb (total_stages s) 0 then 0
  else (inject_Z (Z.of_nat (completed_count s))
          / inject_Z (Z.of_nat (total_stages s)) * 100)%Q.

(** ** Facts *)

Lemma status_value_inj a b : status_value a = status_value b -> a = b.
Proof. destruct a, b; done. Qed.

Lemma status_of_value_of_status s : status_of_value (status_value s) = Some s.
Proof. by destruct s. Qed.

Lemma mark_stage_completed_result sid r s :
  get_stage_result (mark_stage_completed sid r s) sid = Some r.
Proof. apply dget_dset_eq. Qed.

Lemma mark_stage_completed_other sid sid' r s :
  sid <> sid' ->
  get_stage_result (mark_stage_completed sid r s) sid' = get_stage_result s sid'.
Proof. apply dget_dset_ne. Qed.

Lemma mark_stage_failed_keeps_result sid e ts s r :
  get_stage_result s sid = Some r ->
  get_stage_result (mark_stage_failed sid e ts s) sid = Some r.
Proof.
  intros H. unfold mark_stage_failed, get_stage_result, dmem in *. simpl. by rewrite H.
Qed.

Lemma mark_stage_failed_other sid sid' e ts s :
  sid <> sid' ->
  get_stage_result (mark_stage_failed sid e ts s) sid' = get_stage_result s sid'.
Proof.
  intros Hne. unfold mark_stage_failed, get_stage_result.
  destruct (dmem sid (stage_results (set_stage_status sid FAILED s))); simpl; [done|].
  by apply dget_dset_ne.
Qed.

Lemma mark_stage_failed_completed sid e ts s :
  completed_stages (mark_stage_failed sid e ts s) = completed_stages s.
Proof. unfold mark_stage_failed. by destruct (dmem _ _). Qed.

#[export] Hint Rewrite mark_stage_completed_result mark_stage_failed_completed : py.
