(* ===== verification/Cost.v ===== *)
(** * Cost tracking ([src/orchestratord/workflow_engine/cost.py])

    Stage and total budgets with one-shot warnings.  [check_budget] mutates the
    warning flags before it may raise, so it is a stateful computation.  The
    theorems: a check that returns leaves both budgets respected, a check that
    raises reports a budget that is really exceeded, and over any run of the
    tracker the total warning is issued at most once. *)

From S2P Require Import Prelude Errors.

Open Scope string_scope.
Open Scope list_scope.

(** ** Data *)

Record CostBudget := mkCostBudget {
  max_total_usd : Q;
  max_per_stage_usd : Q;
  warn_threshold_pct : Q;
}.

Definition default_budget : CostBudget := mkCostBudget 50 10 (4 # 5).

Definition warn_threshold_usd (b : CostBudget) : Q :=
  (max_total_usd b * warn_threshold_pct b)%Q.

Record CostTracker := mkCostTracker {
  budget : CostBudget;
  total_usd : Q;
  stage_usd : Q;
  warned_total : bool;
  warned_stage : bool;
}.

Definition new_tracker (b : CostBudget) : CostTracker := mkCostTracker b 0 0 false false.

(** ** Operations *)

Definition reset_stage (t : CostTracker) : CostTracker :=
  mkCostTracker (budget t) (total_usd t) 0 (warned_total t) false.

Definition add_cost (usd : Q) (t : CostTracker) : CostTracker :=
  mkCostTracker (budget t) (total_usd t + usd)%Q (stage_usd t + usd)%Q
    (warned_total t) (warned_stage t).

Definition set_warned_total (t : CostTracker) : CostTracker :=
  mkCostTracker (budget t) (total_usd t) (stage_usd t) true (warned_stage t).

Definition set_warned_stage (t : CostTracker) : CostTracker :=
  mkCostTracker (budget t) (total_usd t) (stage_usd t) (warned_total t) true.

Definition total_exceeded_msg (t : CostTracker) : text :=
  [Lit "Total cost $"; FUsd (total_usd t); Lit " exceeds budget $";
   FUsd (max_total_usd (budget t))].

Definition stage_exceeded_msg (t : CostTracker) : text :=
  [Lit "Stage cost $"; FUsd (stage_usd t); Lit " exceeds per-stage budget $";
   FUsd (max_per_stage_usd (budget t))].

Definition total_warning (t : CostTracker) : text :=
  [Lit "Cost warning: $"; FUsd (total_usd t); Lit " / $"; FUsd (max_total_usd (budget t));
   Lit " ("; FPct (warn_threshold_pct (budget t)); Lit " threshold reached)"].

Definition stage_warning (t : CostTracker) : text :=
  [Lit "Stage cost warning: $"; FUsd (stage_usd t); Lit " / $";
   FUsd (max_per_stage_usd (budget t))].

(** The two warning tests. *)
Definition total_warning_due (t : CostTracker) : bool :=
  negb (warned_total t) && qle (warn_threshold_usd (budget t)) (total_usd t).

Definition stage_warning_due (t : CostTracker) : bool :=
  negb (warned_stage t)
  && qle (max_per_stage_usd (budget t) * warn_threshold_pct (budget t))%Q (stage_usd t).

Definition check_budget : M CostTracker exn (list text) :=
  t ← get;
  if qlt (max_total_usd (budget t)) (total_usd t)
  then raise (mkExn CostExceededError (total_exceeded_msg t) None)
  else
    w1 ← (if total_warning_due t
          then (modify set_warned_total ;; mret [total_warning t])
          else mret []);
    w2 ← (if stage_warning_due t
          then (modify set_warned_stage ;; mret [stage_warning t])
          else mret []);
    if qlt (max_per_stage_usd (budget t)) (stage_usd t)
    then raise (mkExn CostExceededError (stage_exceeded_msg t) None)
    else mret (w1 ++ w2).

Definition load_state (total stage : Q) (wt ws : bool) (t : CostTracker) : CostTracker :=
  mkCostTracker (budget t) total stage wt ws.

(** ** Runs of the tracker *)

(** What a client may do between two checks. *)
Inductive cost_op := OpReset | OpAdd (usd : Q) | OpCheck.

(** One operation, with the total warnings it issues. *)
Definition cost_step (op : cost_op) (t : CostTracker) : nat * CostTracker :=
  match op with
  | OpReset => (0%nat, reset_stage t)
  | OpAdd usd => (0%nat, add_cost usd t)
  | OpCheck =>
      let issued := if total_warning_due t then 1%nat else 0%nat in
      match check_budget t with
      | (Ret _, t') => (issued, t')
      | (Raise _, t') => (0%nat, t')
      end
  end.

Fixpoint cost_run (ops : list cost_op) (t : CostTracker) : nat * CostTracker :=
  match ops with
  | [] => (0%nat, t)
  | op :: ops' =>
      let (n, t') := cost_step op t in
      let (m, t'') := cost_run ops' t' in
      ((n + m)%nat, t'')
  end.

(** ** Facts *)

(** The four exits of [check_budget]. *)
Lemma check_budget_cases t :
  (exists e, check_budget t = (Raise e, t) /\ (max_total_usd (budget t) < total_usd t)%Q) \/
  (exists e t', check_budget t = (Raise e, t') /\
     (max_per_stage_usd (budget t) < stage_usd t)%Q /\
     (warned_total t = true -> warned_total t' = true)) \/
  (exists ws t', check_budget t = (Ret ws, t') /\
     (total_usd t <= max_total_usd (budget t))%Q /\
     (stage_usd t <= max_per_stage_usd (budget t))%Q /\
     budget t' = budget t /\ total_usd t' = total_usd t /\ stage_usd t' = stage_usd t /\
     warned_total t' = warned_total t || total_warning_due t /\
     warned_stage t' = warned_stage t || stage_warning_due t /\
     ws = (if total_warning_due t then [total_warning t] else [])
          ++ (if stage_warning_due t then [stage_warning t] else [])).
Proof.
  unfold check_budget, mbind, M_bind, get, raise. simpl.
  destruct (qlt (max_total_usd (budget t)) (total_usd t)) eqn:Etot; qsimp;
    [left; eauto|right].
  destruct (total_warning_due t) eqn:Ew1, (stage_warning_due t) eqn:Ew2;
    simpl; destruct (qlt (max_per_stage_usd (budget t)) (stage_usd t)) eqn:Est; qsimp;
    (left; by eauto 6) ||
    (right; do 2 eexists; simpl; rewrite ?orb_true_r, ?orb_false_r; by repeat split).
Qed.

Lemma check_budget_raise_class t e t' :
  check_budget t = (Raise e, t') -> exn_cls e = CostExceededError.
Proof.
  unfold check_budget, mbind, M_bind, get, raise. simpl.
  destruct (qlt (max_total_usd _) _), (total_warning_due t), (stage_warning_due t);
    simpl; try destruct (qlt (max_per_stage_usd _) _); intros; by simplify_eq.
Qed.

Lemma check_budget_budget t : budget (snd (check_budget t)) = budget t.
Proof.
  unfold check_budget, mbind, M_bind, get, raise. simpl.
  destruct (qlt (max_total_usd _) _), (total_warning_due t), (stage_warning_due t);
    simpl; try destruct (qlt (max_per_stage_usd _) _); done.
Qed.

Lemma check_budget_warned_mono t :
  warned_total t = true -> warned_total (snd (check_budget t)) = true.
Proof.
  intros Hw. destruct (check_budget_cases t)
    as [(e & -> & _)|[(e & t' & -> & _ & Hm)|(ws & t' & -> & _ & _ & _ & _ & _ & Ht & _)]];
    simpl; auto. by rewrite Ht, Hw.
Qed.

Lemma cost_step_warned op t :
  (warned_total t = true ->
     fst (cost_step op t) = 0%nat /\ warned_total (snd (cost_step op t)) = true) /\
  (fst (cost_step op t) <= 1)%nat /\
  (fst (cost_step op t) = 1%nat -> warned_total (snd (cost_step op t)) = true).
Proof.
  destruct op as [|usd|]; simpl; [by repeat split; intros; auto; lia..|].
  assert (Hdue : warned_total t = true -> total_warning_due t = false)
    by (unfold total_warning_due; by intros ->).
  pose proof (check_budget_warned_mono t) as Hmono.
  destruct (check_budget_cases t)
    as [(e & E & _)|[(e & t' & E & _)|(ws & t' & E & _ & _ & _ & _ & _ & Hw & _)]];
    rewrite E in *; simpl in *; [by repeat split; intros; auto; lia..|].
  destruct (total_warning_due t) eqn:D; simpl.
  - split; [intros H; by specialize (Hdue H)|]. split; [lia|].
    intros _. rewrite Hw. apply orb_true_r.
  - split; [auto|]. split; lia.
Qed.

Lemma cost_run_warned ops t :
  (warned_total t = true -> fst (cost_run ops t) = 0%nat) /\
  (fst (cost_run ops t) <= 1)%nat.
Proof.
  revert t. induction ops as [|op ops IH]; intros t; simpl; [auto|].
  pose proof (cost_step_warned op t) as (Hw & Hle & H1).
  destruct (cost_step op t) as [n t']. simpl in *.
  specialize (IH t') as [IHw IHle].
  destruct (cost_run ops t') as [m t'']. simpl in *.
  split.
  - intros H. destruct (Hw H) as [-> Ht']. by rewrite IHw.
  - destruct n as [|[|n]]; [lia| |lia]. rewrite IHw by auto. lia.
Qed.

(** ** Theorems *)

(** C1: [check_budget] returns exactly when neither budget is exceeded; a
    return reports precisely the warnings due and leaves the amounts alone, and
    a raise is a [CostExceededError] for a budget that really is exceeded. *)
Theorem check_budget_spec (t : CostTracker) :
  match check_budget t with
  | (Ret ws, t') =>
      (total_usd t <= max_total_usd (budget t))%Q /\
      (stage_usd t <= max_per_stage_usd (budget t))%Q /\
      total_usd t' = total_usd t /\ stage_usd t' = stage_usd t /\
      ws = (if total_warning_due t then [total_warning t] else [])
           ++ (if stage_warning_due t then [stage_warning t] else [])
  | (Raise e, _) =>
      exn_cls e = CostExceededError /\
      ((max_total_usd (budget t) < total_usd t)%Q \/
       (max_per_stage_usd (budget t) < stage_usd t)%Q)
  end.
Proof.
  destruct (check_budget_cases t)
    as [(e & E & H)|[(e & t' & E & H & _)|(ws & t' & E & H1 & H2 & _ & H3 & H4 & _ & _ & H5)]];
    pose proof (check_budget_raise_class t) as Hc; rewrite E in *; eauto.
Qed.

(** Over any sequence of resets, additions and checks starting from a
    fresh tracker, the total-budget warning is issued at most once. *)
Theorem cost_warning_once (b : CostBudget) (ops : list cost_op) :
  (fst (cost_run ops (new_tracker b)) <= 1)%nat.
Proof. apply cost_run_warned. Qed.
