(* ===== verification/Decision.v ===== *)
(** * Decisions ([src/orchestratord/workflow_engine/decision_handler.py])

    The decision history and the handler that resolves a DECISION stage:
    loop budgets ([max_times]), convergence detection and the next stage.  The
    theorems bound how often an outcome can be taken and say what a degenerate
    window is. *)

From S2P Require Import Prelude WorkflowState.

Open Scope string_scope.
Open Scope list_scope.
Open Scope Z_scope.

(** ** History *)

Abbreviation DecisionHistory := (list DecisionRecord).

Definition record (stage_id : Z) (outcome : string) (next_stage : option Z) (ts : string)
    (h : DecisionHistory) : DecisionHistory :=
  h ++ [mkDecisionRecord stage_id outcome ts next_stage].

Definition matches (outcome : string) (stage_id : Z) (r : DecisionRecord) : bool :=
  bool_decide (dr_stage_id r = stage_id) && String.eqb (dr_outcome r) outcome.

Definition count (outcome : string) (stage_id : Z) (h : DecisionHistory) : nat :=
  length (List.filter (matches outcome stage_id) h).

Definition is_degenerate (outcome : string) (stage_id : Z) (window : nat)
    (h : DecisionHistory) : bool :=
  let recent := List.filter (fun r => bool_decide (dr_stage_id r = stage_id)) (last_n window h) in
  if (length recent <? window)%nat then false
  else forallb (fun r => String.eqb (dr_outcome r) outcome) recent.

Definition count_by_stage (stage_id : Z) (h : DecisionHistory) : nat :=
  length (List.filter (fun r => bool_decide (dr_stage_id r = stage_id)) h).

Definition counts (h : DecisionHistory) : dict Z nat :=
  fold_left
    (fun c r =>
       dset (dr_stage_id r) (default 0%nat (dget (dr_stage_id r) c) + 1)%nat c)
    h [].

(** One record as a checkpoint stores it. *)
Definition record_to_dict (r : DecisionRecord) : dict string pyval :=
  [("stage", PInt (dr_stage_id r)); ("outcome", PStr (dr_outcome r));
   ("timestamp", PStr (dr_timestamp r));
   ("next_stage", match dr_next_stage r with Some z => PInt z | None => PNone end)].

Definition to_dict (h : DecisionHistory) : list (dict string pyval) := map record_to_dict h.

(** Typed reads of [r.get(key, default)]; a value of another type is read as
    the default. *)
Definition get_int (k : string) (d : dict string pyval) : Z :=
  match dget k d with Some (PInt z) => z | _ => 0 end.
Definition get_str (k : string) (d : dict string pyval) : string :=
  match dget k d with Some (PStr s) => s | _ => "" end.
Definition get_opt_int (k : string) (d : dict string pyval) : option Z :=
  match dget k d with Some (PInt z) => Some z | _ => None end.

Definition from_dict_list (l : list (dict string pyval)) : DecisionHistory :=
  map (fun r => mkDecisionRecord (get_int "stage" r) (get_str "outcome" r)
                  (get_str "timestamp" r) (get_opt_int "next_stage" r)) l.

(** ** Handler *)

Record DecisionResult := mkDecisionResult {
  d_outcome : string;
  d_next_stage : option Z;
  d_rollback_to : option Z;
  d_exhausted : bool;
  d_converged : bool;
  d_reason : text;
}.

Definition first_dep (node : StageNode) : option Z := head (sn_depends_on node).

(** [result.decision_outcome or "proceed"] *)
Definition outcome_of (result : StageResult) : string :=
  default "proceed" (str_or (r_decision_outcome result) None).

Definition spec_of (node : StageNode) (outcome : string) : DecisionSpec :=
  default empty_spec (dget outcome (sn_decision_outcomes node)).

Definition budget_spent (node : StageNode) (outcome : string) (h : DecisionHistory) : bool :=
  match ds_max_times (spec_of node outcome) with
  | Some m => m <=? Z.of_nat (count outcome (sn_id node) h)
  | None => false
  end.

Definition degenerate_window : nat := 5.

Definition resolve (node : StageNode) (result : StageResult) (ts : string)
    (h : DecisionHistory) : DecisionResult * DecisionHistory :=
  let outcome := outcome_of result in
  let spec := spec_of node outcome in
  if budget_spent node outcome h then
    (mkDecisionResult outcome None (default (first_dep node) (ds_rollback_to spec)) true false
       [Lit "Max retries ("; FInt (default 0 (ds_max_times spec));
        Lit ") exceeded for outcome '"; Lit outcome; Lit "'"],
     record (sn_id node) outcome None ts h)
  else if ds_convergence_check spec && is_degenerate outcome (sn_id node) degenerate_window h then
    (mkDecisionResult outcome None None false true
       [Lit "Convergence detected: degenerate loop for outcome '"; Lit outcome; Lit "'"],
     record (sn_id node) outcome None ts h)
  else
    (mkDecisionResult outcome (ds_next spec) (default None (ds_rollback_to spec)) false false
       ([Lit "Decision resolved: "; Lit outcome; Lit " -> next_stage="]
        ++ match ds_next spec with Some z => [FInt z] | None => [Lit "None"] end),
     record (sn_id node) outcome (ds_next spec) ts h).

Definition reset : DecisionHistory := [].

(** A whole sequence of decisions at one node, oldest first. *)
Fixpoint resolve_all (node : StageNode) (results : list (StageResult * string))
    (h : DecisionHistory) : list DecisionResult * DecisionHistory :=
  match results with
  | [] => ([], h)
  | (r, ts) :: rest =>
      let (d, h') := resolve node r ts h in
      let (ds, h'') := resolve_all node rest h' in
      (d :: ds, h'')
  end.

(** The decisions that really took [outcome]. *)
Definition taken (outcome : string) (d : DecisionResult) : bool :=
  String.eqb (d_outcome d) outcome && negb (d_exhausted d) && negb (d_converged d).

(** ** Facts *)

Lemma count_record outcome sid sid' o' n ts h :
  count outcome sid (record sid' o' n ts h)
  = (count outcome sid h
     + if matches outcome sid (mkDecisionRecord sid' o' ts n) then 1 else 0)%nat.
Proof.
  unfold count, record. rewrite List.filter_app, length_app. simpl.
  by destruct (matches _ _ _).
Qed.

Lemma matches_same outcome sid ts n :
  matches outcome sid (mkDecisionRecord sid outcome ts n) = true.
Proof. unfold matches; simpl. by rewrite bool_decide_true, String.eqb_refl. Qed.

(** Every decision at a node records its own outcome once. *)
Lemma resolve_records node r ts h :
  exists n, snd (resolve node r ts h) = record (sn_id node) (outcome_of r) n ts h.
Proof. unfold resolve. repeat case_match; simpl; eauto. Qed.

Lemma resolve_outcome node r ts h : d_outcome (fst (resolve node r ts h)) = outcome_of r.
Proof. unfold resolve. repeat case_match; done. Qed.

Lemma resolve_taken_within node r ts h m :
  ds_max_times (spec_of node (outcome_of r)) = Some m ->
  d_exhausted (fst (resolve node r ts h)) = false ->
  Z.of_nat (count (outcome_of r) (sn_id node) h) < m.
Proof.
  unfold resolve, budget_spent. intros ->.
  destruct (Z.leb_spec m (Z.of_nat (count (outcome_of r) (sn_id node) h))); [done|lia].
Qed.

Lemma resolve_all_bound node o m results h :
  ds_max_times (spec_of node o) = Some m ->
  Z.of_nat (length (List.filter (taken o) (fst (resolve_all node results h))))
  <= Z.max 0 (m - Z.of_nat (count o (sn_id node) h)).
Proof.
  intros Hm. revert h. induction results as [|[r ts] results IH]; intros h; simpl; [lia|].
  pose proof (resolve_outcome node r ts h) as Ho.
  pose proof (resolve_records node r ts h) as [n Hr].
  pose proof (resolve_taken_within node r ts h m) as Hw.
  destruct (resolve node r ts h) as [d h']. simpl in *. subst h'.
  specialize (IH (record (sn_id node) (outcome_of r) n ts h)).
  rewrite count_record in IH.
  destruct (resolve_all node results _) as [ds h'']. simpl in *.
  destruct (taken o d) eqn:Ht; simpl.
  - unfold taken in Ht. apply andb_true_iff in Ht as [[Heq Hex]%andb_true_iff _].
    apply String.eqb_eq in Heq. assert (outcome_of r = o) as Hro by congruence. clear Ho.
    rewrite Hro in *. rewrite matches_same in IH.
    specialize (Hw Hm (proj1 (negb_true_iff _) Hex)). lia.
  - destruct (matches o (sn_id node) _); lia.
Qed.

Lemma history_roundtrip h : from_dict_list (to_dict h) = h.
Proof.
  unfold from_dict_list, to_dict. rewrite map_map.
  induction h as [|r h IH]; simpl; [done|].
  rewrite IH. destruct r as [sid o ts [n|]]; done.
Qed.

(** ** Theorems *)

(** A decision outcome with [max_times = m] is taken at most [m] times at
    its node, whatever the stages answer and however often the node runs. *)
Theorem decision_loop_bounded (node : StageNode) (o : string) (m : Z)
    (results : list (StageResult * string)) :
  ds_max_times (spec_of node o) = Some m ->
  Z.of_nat (length (List.filter (taken o) (fst (resolve_all node results reset))))
  <= Z.max 0 m.
Proof. intros Hm. pose proof (resolve_all_bound node o m results reset Hm). simpl in *. lia. Qed.

(** A decision node whose outcome "retry" may be taken twice. *)
Definition retry_node : StageNode :=
  mkStageNode 3 "review" DECISION "" "" [1; 2] [] "" [] [] "auto" 0 None
    [("retry", mkDecisionSpec (Some 2) None None true (Some 1))] 0 0 "fail".

Definition retry_answer : StageResult :=
  mkStageResult 3 COMPLETED [] [] None 0 0 (Some "retry") None None None "t".

Lemma decision_loop_bounded_witness :
  length (List.filter (taken "retry")
    (fst (resolve_all retry_node (repeat (retry_answer, "t") 4) reset))) = 2%nat /\
  Z.of_nat (length (List.filter (taken "retry")
    (fst (resolve_all retry_node (repeat (retry_answer, "t") 4) reset)))) <= 2.
Proof.
  split; [reflexivity|].
  apply (decision_loop_bounded retry_node "retry" 2 (repeat (retry_answer, "t") 4)).
  reflexivity.
Defined.

(** The degenerate test is exactly "the last [window] decisions of the
    whole workflow exist and are all this outcome at this stage". *)
Theorem is_degenerate_iff (outcome : string) (stage_id : Z) (w : nat) (h : DecisionHistory) :
  (0 < w)%nat ->
  is_degenerate outcome stage_id w h = true <->
  (w <= length h)%nat /\
  forall r, r ∈ last_n w h -> dr_stage_id r = stage_id /\ dr_outcome r = outcome.
Proof.
  intros Hw. unfold is_degenerate.
  pose proof (last_n_length w h Hw) as Hlen.
  set (f := fun r => bool_decide (dr_stage_id r = stage_id)).
  pose proof (List.filter_length_le f (last_n w h)) as Hle.
  destruct (Nat.ltb_spec (length (List.filter f (last_n w h))) w) as [Hlt|Hge].
  - split; [done|]. intros [Hh Hall].
    assert (w <= length (List.filter f (last_n w h)))%nat; [|lia].
    replace w with (length (last_n w h)) at 1 by lia.
    apply filter_length_all. intros r [? _]%Hall. by apply bool_decide_true.
  - assert (forall r, r ∈ last_n w h -> f r = true) as Hf by (apply filter_length_all; lia).
    rewrite filter_all_id, forallb_spec by done. split.
    + intros Ho. split; [lia|]. intros r Hr. split.
      * by apply (bool_decide_eq_true _), Hf.
      * by apply String.eqb_eq, Ho.
    + intros [_ Hall] r [_ ?]%Hall. by apply String.eqb_eq.
Qed.

Lemma is_degenerate_iff_witness :
  is_degenerate "retry" 3 2 (record 3 "retry" None "t" (record 3 "retry" None "t" [])) = true.
Proof.
  apply (is_degenerate_iff "retry" 3 2); [lia|]. split; [simpl; lia|].
  intros r Hr. vm_compute in Hr.
  repeat (apply elem_of_cons in Hr as [-> |Hr]; [done|]). by apply elem_of_nil in Hr.
Defined.

