(* ===== verification/Dag.v ===== *)
(** * Workflow schema and DAG order
    ([src/orchestratord/workflow_engine/engine.py], [WorkflowSchema])

    Parsing of the stage list with its defaults and duplicate check, and Kahn's
    algorithm over insertion-ordered dictionaries as the source runs it.  The
    theorems: the order returned is a permutation of the stages in which every
    dependency comes first, the algorithm always finishes, and it succeeds on
    every workflow that has such an order at all. *)

From S2P Require Import Prelude Errors WorkflowState.

Open Scope string_scope.
Open Scope list_scope.
Open Scope Z_scope.

(** ** Parsing a stage *)

(** A stage mapping of the YAML document, its values typed as the schema
    expects them; [None] is an absent key. *)
Record RawStage := mkRawStage {
  raw_id : option Z;
  raw_name : option string;
  raw_kind : option string;
  raw_phase : option string;
  raw_prompt : option string;
  raw_depends_on : option (list Z);
  raw_agent_config : option (dict string pyval);
  raw_uses : option string;
  raw_with : option (dict string pyval);
  raw_validators : option (list (dict string pyval));
  raw_gate_mode : option string;
  raw_gate_threshold : option Q;
  raw_gate_rollback_to : option Z;
  raw_decision_outcomes : option (dict string DecisionSpec);
  raw_timeout_seconds : option Z;
  raw_max_retries : option Z;
  raw_on_error : option string;
}.

(** [str.lower] on ASCII letters. *)
Definition lower_ascii (c : Ascii.ascii) : Ascii.ascii :=
  let n := Ascii.N_of_ascii c in
  if (65 <=? n)%N && (n <=? 90)%N then Ascii.ascii_of_N (n + 32) else c.

Fixpoint lower (s : string) : string :=
  match s with
  | EmptyString => EmptyString
  | String c s' => String (lower_ascii c) (lower s')
  end.

Definition kind_of_value (v : string) : option StageKind :=
  if String.eqb v "agent" then Some AGENT
  else if String.eqb v "gate" then Some GATE
  else if String.eqb v "decision" then Some DECISION
  else if String.eqb v "action" then Some ACTION
  else None.

Definition parse_stage_node (index : nat) (raw : RawStage) : outcome exn StageNode :=
  let uses_truthy := is_some (str_or (raw_uses raw) None) in
  let kind_str := lower (default (if uses_truthy then "action" else "agent") (raw_kind raw)) in
  match kind_of_value kind_str with
  | None =>
      Raise (mkExn WorkflowSchemaError
               [Lit "Stage["; FInt (Z.of_nat index); Lit "]: unknown kind '"; Lit kind_str; Lit "'"]
               None)
  | Some kind =>
      Ret (mkStageNode
             (default (Z.of_nat index + 1) (raw_id raw))
             (default ("stage-" +:+ pretty.pretty (Z.of_nat index + 1)) (raw_name raw))
             kind
             (default "" (raw_phase raw))
             (default "" (raw_prompt raw))
             (default [] (raw_depends_on raw))
             (default [] (raw_agent_config raw))
             (default "" (raw_uses raw))
             (default [] (raw_with raw))
             (default [] (raw_validators raw))
             (default "manual" (raw_gate_mode raw))
             (default (4 # 5)%Q (raw_gate_threshold raw))
             (raw_gate_rollback_to raw)
             (default [] (raw_decision_outcomes raw))
             (default 0 (raw_timeout_seconds raw))
             (default 0 (raw_max_retries raw))
             (default "fail" (raw_on_error raw)))
  end.

(** ** Schema *)

Record WorkflowSchema := mkWorkflowSchema {
  ws_name : string;
  ws_version : string;
  ws_description : string;
  ws_stages : list StageNode;
  ws_config : dict string pyval;
}.

(** The parsed document: [stages] is [None] when it is not a list. *)
Record RawWorkflow := mkRawWorkflow {
  rw_name : option string;
  rw_version : option string;
  rw_description : option string;
  rw_stages : option (list RawStage);
  rw_config : option (dict string pyval);
}.

(** [[_parse_stage_node(i, s) for i, s in enumerate(stages_raw)]] *)
Fixpoint parse_stages (index : nat) (raws : list RawStage) : outcome exn (list StageNode) :=
  match raws with
  | [] => Ret []
  | raw :: raws' =>
      match parse_stage_node index raw with
      | Raise e => Raise e
      | Ret s =>
          match parse_stages (S index) raws' with
          | Raise e => Raise e
          | Ret ss => Ret (s :: ss)
          end
      end
  end.

(** The [seen_ids] loop: the first id seen twice. *)
Fixpoint first_duplicate (seen : list Z) (stages : list StageNode) : option Z :=
  match stages with
  | [] => None
  | s :: stages' =>
      if mem (sn_id s) seen then Some (sn_id s)
      else first_duplicate (seen ++ [sn_id s]) stages'
  end.

Definition schema_from_dict (data : RawWorkflow) : outcome exn WorkflowSchema :=
  match rw_stages data with
  | None => Raise (mkExn WorkflowSchemaError [Lit "workflow.yaml: 'stages' must be a list"] None)
  | Some stages_raw =>
      match parse_stages 0 stages_raw with
      | Raise e => Raise e
      | Ret stages =>
          match first_duplicate [] stages with
          | Some sid =>
              Raise (mkExn WorkflowSchemaError
                       [Lit "workflow.yaml: duplicate stage id '"; FInt sid; Lit "'"] None)
          | None =>
              Ret (mkWorkflowSchema (default "unnamed" (rw_name data))
                     (default "1.0" (rw_version data)) (default "" (rw_description data))
                     stages (default [] (rw_config data)))
          end
      end
  end.

Fixpoint get_stage_in (stages : list StageNode) (stage_id : Z) : option StageNode :=
  match stages with
  | [] => None
  | s :: stages' => if sn_id s =? stage_id then Some s else get_stage_in stages' stage_id
  end.

Definition get_stage (w : WorkflowSchema) (stage_id : Z) : option StageNode :=
  get_stage_in (ws_stages w) stage_id.

(** ** Kahn's algorithm *)

(** [{s.id: len(s.depends_on) for s in self.stages}] *)
Definition init_in_degree (stages : list StageNode) : dict Z Z :=
  fold_left (fun d s => dset (sn_id s) (Z.of_nat (length (sn_depends_on s))) d) stages [].

Definition init_adj (stages : list StageNode) : dict Z (list Z) :=
  fold_left (fun d s => dset (sn_id s) [] d) stages [].

(** [for dep in s.depends_on: if dep in adj: adj[dep].append(s.id)] *)
Definition add_edges (s : StageNode) (adj : dict Z (list Z)) : dict Z (list Z) :=
  fold_left
    (fun adj dep =>
       match dget dep adj with
       | Some l => dset dep (l ++ [sn_id s]) adj
       | None => adj
       end) (sn_depends_on s) adj.

Definition build_adj (stages : list StageNode) : dict Z (list Z) :=
  fold_left (fun adj s => add_edges s adj) stages (init_adj stages).

(** The inner [for neighbor in adj.get(node, [])] loop.  Neighbours are stage
    ids, so the key is always present. *)
Fixpoint relax (ns : list Z) (in_degree : dict Z Z) (queue : list Z)
    : dict Z Z * list Z :=
  match ns with
  | [] => (in_degree, queue)
  | n :: ns' =>
      match dget n in_degree with
      | None => relax ns' in_degree queue
      | Some v =>
          relax ns' (dset n (v - 1) in_degree)
            (if v - 1 =? 0 then queue ++ [n] else queue)
      end
  end.

(** The [while queue] loop; [None] is fuel exhaustion. *)
Fixpoint kahn (fuel : nat) (adj : dict Z (list Z)) (in_degree : dict Z Z)
    (queue order : list Z) : option (list Z) :=
  match queue with
  | [] => Some order
  | node :: queue' =>
      match fuel with
      | O => None
      | S fuel' =>
          let (in_degree', queue'') := relax (default [] (dget node adj)) in_degree queue' in
          kahn fuel' adj in_degree' queue'' (order ++ [node])
      end
  end.

Definition init_queue (stages : list StageNode) : list Z :=
  map fst (List.filter (fun p => snd p =? 0) (init_in_degree stages)).

(** Each id enters the queue at most once, so one unit of fuel per stage is
    enough ([kahn_fuel]). *)
Definition kahn_order (stages : list StageNode) : option (list Z) :=
  kahn (length stages) (build_adj stages) (init_in_degree stages) (init_queue stages) [].

(** [len({s.id for s in self.stages})] *)
Definition n_stage_ids (stages : list StageNode) : nat :=
  size (list_to_set (map sn_id stages) : gset Z).

Definition build_dag_order (w : WorkflowSchema) : outcome exn (list Z) :=
  match kahn_order (ws_stages w) with
  | Some order =>
      if Nat.eqb (length order) (n_stage_ids (ws_stages w)) then Ret order
      else Raise (mkExn WorkflowSchemaError [Lit "Workflow DAG contains a cycle"] None)
  | None => Raise (mkExn OtherException [Lit "out of fuel"] None)
  end.

(** ** Facts *)

Abbreviation occ := (fun (x : Z) (l : list Z) => count_occ Z.eq_dec l x).

Definition stage_ids (stages : list StageNode) : list Z := map sn_id stages.

Lemma occ_In x l : (0 < occ x l)%nat <-> x ∈ l.
Proof. rewrite list_elem_of_In. symmetry. apply count_occ_In. Qed.

Lemma occ_replicate x y n : occ x (replicate n y) = if Z.eq_dec y x then n else 0%nat.
Proof. induction n; simpl; destruct (Z.eq_dec y x); lia. Qed.

Lemma first_duplicate_None seen stages :
  first_duplicate seen stages = None ->
  NoDup seen -> NoDup (seen ++ stage_ids stages).
Proof.
  revert seen. induction stages as [|s stages IH]; intros seen; simpl; [by rewrite app_nil_r|].
  destruct (mem (sn_id s) seen) eqn:E; [done|]. apply mem_false in E.
  intros H Hnd. replace (seen ++ sn_id s :: stage_ids stages)
    with ((seen ++ [sn_id s]) ++ stage_ids stages) by (by rewrite <- app_assoc).
  apply IH; [done|]. apply NoDup_app. split; [done|]. split; [set_solver|apply NoDup_singleton].
Qed.

(** *** The inner loop *)

Lemma relax_degree ns d q x v :
  dget x d = Some v -> dget x (fst (relax ns d q)) = Some (v - Z.of_nat (occ x ns)).
Proof.
  revert d q v. induction ns as [|n ns IH]; intros d q v Hx; simpl; [by rewrite Z.sub_0_r|].
  destruct (Z.eq_dec n x) as [->|Hne].
  - rewrite Hx. erewrite IH by apply dget_dset_eq. f_equal. lia.
  - destruct (dget n d) as [w|]; [|by apply IH].
    apply IH. by rewrite dget_dset_ne.
Qed.

Lemma relax_queue ns d q :
  exists new, snd (relax ns d q) = q ++ new /\ NoDup new /\
    forall x, x ∈ new <-> exists v, dget x d = Some v /\ 0 < v <= Z.of_nat (occ x ns).
Proof.
  revert d q. induction ns as [|n ns IH]; intros d q; simpl.
  - exists []. rewrite app_nil_r. split; [done|]. split; [constructor|].
    intros x. split; [set_solver|]. intros (v & _ & ?). lia.
  - destruct (dget n d) as [w|] eqn:En; cycle 1.
    { destruct (IH d q) as (new & -> & Hnd & Hnew). exists new. split; [done|]. split; [done|].
      intros x. rewrite Hnew. destruct (Z.eq_dec n x) as [->|]; [|done].
      split; intros (v & ? & ?); congruence. }
    destruct (IH (dset n (w - 1) d) (if w - 1 =? 0 then q ++ [n] else q))
      as (new & -> & Hnd & Hnew).
    assert (Hch : forall x, (exists v, dget x (dset n (w - 1) d) = Some v /\ 0 < v <= Z.of_nat (occ x ns))
      <-> (n = x /\ 0 < w - 1 <= Z.of_nat (occ x ns)) \/
          (n <> x /\ exists v, dget x d = Some v /\ 0 < v <= Z.of_nat (occ x ns))).
    { intros x. rewrite dget_dset. destruct (decide (n = x)) as [->|].
      - split; [intros (v & [= <-] & ?); auto|]. intros [[_ ?]|[Hxx _]]; [eauto|done].
      - split; [auto|]. intros [[? _]|[_ ?]]; [done|auto]. }
    setoid_rewrite Hch in Hnew. clear Hch.
    destruct (Z.eqb_spec (w - 1) 0) as [Hw|Hw].
    + exists (n :: new). rewrite <- app_assoc. split; [done|]. split.
      * apply NoDup_cons_2; [|done]. rewrite Hnew. intros [[_ ?]|[? _]]; [lia|done].
      * intros x. rewrite elem_of_cons, Hnew. destruct (Z.eq_dec n x) as [->|Hne].
        -- split; [intros _; exists w; split; [done|]; lia|]. auto.
        -- split; [intros [->|[[-> _]|[_ ?]]]; done || auto|]. intros ?. right; right. auto.
    + exists new. split; [done|]. split; [done|].
      intros x. rewrite Hnew. destruct (Z.eq_dec n x) as [->|Hne].
      * split; [intros [[_ ?]|[Hxx _]]; [exists w; split; [done|lia]|done]|].
        intros (v & Hv & ?). left. simplify_eq. split; [done|]. lia.
      * split; [intros [[? _]|[_ ?]]; [done|auto]|]. auto.
Qed.

(** *** The tables *)

Lemma init_in_degree_eq stages :
  NoDup (stage_ids stages) ->
  init_in_degree stages
  = map (fun s => (sn_id s, Z.of_nat (length (sn_depends_on s)))) stages.
Proof. intros. unfold init_in_degree. by rewrite fold_dset_fresh. Qed.

Lemma init_adj_eq stages :
  NoDup (stage_ids stages) -> init_adj stages = map (fun s => (sn_id s, [])) stages.
Proof. intros. unfold init_adj. by rewrite fold_dset_fresh. Qed.

Lemma add_edges_get s adj x :
  dget x (add_edges s adj)
  = (fun l => l ++ replicate (occ x (sn_depends_on s)) (sn_id s)) <$> dget x adj.
Proof.
  unfold add_edges. generalize (sn_depends_on s) as deps. intros deps.
  revert adj. induction deps as [|dep deps IH]; intros adj; simpl.
  - destruct (dget x adj); simpl; by rewrite ?app_nil_r.
  - rewrite IH. destruct (Z.eq_dec dep x) as [->|Hne].
    + destruct (dget x adj) as [l|] eqn:E; simpl; [|by rewrite E].
      rewrite dget_dset_eq. simpl. by rewrite <- app_assoc.
    + destruct (dget dep adj); [|done]. by rewrite dget_dset_ne.
Qed.

Lemma fold_edges_get stages adj x :
  dget x (fold_left (fun adj s => add_edges s adj) stages adj)
  = (fun l => l ++ concat (map (fun s => replicate (occ x (sn_depends_on s)) (sn_id s)) stages))
      <$> dget x adj.
Proof.
  revert adj. induction stages as [|s stages IH]; intros adj; simpl.
  - destruct (dget x adj); simpl; by rewrite ?app_nil_r.
  - rewrite IH, add_edges_get. destruct (dget x adj); simpl; [|done]. by rewrite <- app_assoc.
Qed.

Lemma occ_edges stages s x :
  NoDup (stage_ids stages) -> s ∈ stages ->
  occ (sn_id s) (concat (map (fun s => replicate (occ x (sn_depends_on s)) (sn_id s)) stages))
  = occ x (sn_depends_on s).
Proof.
  assert (Hout : forall l id, id ∉ stage_ids l ->
    occ id (concat (map (fun s => replicate (occ x (sn_depends_on s)) (sn_id s)) l)) = 0%nat).
  { induction l as [|s' l IH]; simpl; intros id Hid; [done|].
    rewrite count_occ_app, occ_replicate, IH by set_solver.
    destruct (Z.eq_dec (sn_id s') id); set_solver. }
  induction stages as [|s' stages IH]; simpl; [set_solver|].
  intros [Hni Hnd]%NoDup_cons [->|Hin]%elem_of_cons; rewrite count_occ_app, occ_replicate.
  - rewrite Hout by done. destruct (Z.eq_dec (sn_id s') (sn_id s')); [lia|done].
  - rewrite IH by done. destruct (Z.eq_dec (sn_id s') (sn_id s)) as [E|]; [|done].
    exfalso. apply Hni. rewrite E. unfold stage_ids. apply list_elem_of_fmap. eauto.
Qed.

Lemma build_adj_get stages x :
  NoDup (stage_ids stages) -> x ∈ stage_ids stages ->
  dget x (build_adj stages)
  = Some (concat (map (fun s => replicate (occ x (sn_depends_on s)) (sn_id s)) stages)).
Proof.
  intros Hnd Hx. unfold build_adj. rewrite fold_edges_get, init_adj_eq by done.
  assert (dget x (map (fun s => (sn_id s, [])) stages) = Some ([] : list Z)) as ->; [|done].
  apply dict_wf_In.
  - unfold dict_wf, dkeys. by rewrite map_map.
  - unfold stage_ids in Hx. apply list_elem_of_fmap in Hx as (s & -> & Hs).
    apply list_elem_of_fmap. by exists s.
Qed.

Lemma init_degree_get stages s :
  NoDup (stage_ids stages) -> s ∈ stages ->
  dget (sn_id s) (init_in_degree stages) = Some (Z.of_nat (length (sn_depends_on s))).
Proof.
  intros Hnd Hs. rewrite init_in_degree_eq by done. apply dict_wf_In.
  - unfold dict_wf, dkeys. by rewrite map_map.
  - apply list_elem_of_fmap. by exists s.
Qed.

(** *** The loop invariant *)

(** Dependencies of [s] already emitted, with multiplicity. *)
Definition done_deps (s : StageNode) (o : list Z) : nat :=
  length (List.filter (fun dep => mem dep o) (sn_depends_on s)).

(** Every dependency of an emitted stage was emitted before it. *)
Definition deps_first (stages : list StageNode) (o : list Z) : Prop :=
  forall s o1 o2, s ∈ stages -> o = o1 ++ sn_id s :: o2 ->
  forall dep, dep ∈ sn_depends_on s -> dep ∈ o1.

Record kahn_inv (stages : list StageNode) (d : dict Z Z) (q o : list Z) : Prop := {
  ki_nodup : NoDup (o ++ q);
  ki_keys : forall x, is_Some (dget x d) -> x ∈ stage_ids stages;
  ki_ids : forall x, x ∈ o ++ q -> x ∈ stage_ids stages;
  ki_deg : forall s, s ∈ stages ->
    dget (sn_id s) d
    = Some (Z.of_nat (length (sn_depends_on s)) - Z.of_nat (done_deps s o));
  ki_ready : forall s, s ∈ stages ->
    sn_id s ∈ o ++ q <-> done_deps s o = length (sn_depends_on s);
  ki_topo : deps_first stages o;
}.

Lemma stage_ids_In stages x : x ∈ stage_ids stages <-> exists s, s ∈ stages /\ sn_id s = x.
Proof. unfold stage_ids. rewrite list_elem_of_fmap. naive_solver. Qed.

Lemma done_deps_le s o : (done_deps s o <= length (sn_depends_on s))%nat.
Proof. apply List.filter_length_le. Qed.

Lemma done_deps_full s o :
  done_deps s o = length (sn_depends_on s) -> forall dep, dep ∈ sn_depends_on s -> dep ∈ o.
Proof.
  unfold done_deps. induction (sn_depends_on s) as [|a l IH]; simpl; [set_solver|].
  pose proof (List.filter_length_le (fun dep => mem dep o) l).
  destruct (mem a o) eqn:E; simpl; [|lia]. apply mem_true in E. set_solver.
Qed.

Lemma done_deps_snoc s o x :
  x ∉ o -> done_deps s (o ++ [x]) = (done_deps s o + occ x (sn_depends_on s))%nat.
Proof.
  intros Hx. unfold done_deps. induction (sn_depends_on s) as [|a l IH]; simpl; [done|].
  destruct (Z.eq_dec a x) as [->|Hne].
  - rewrite (proj2 (mem_true x (o ++ [x]))) by set_solver.
    rewrite (proj2 (mem_false x o)) by done. simpl. lia.
  - assert (mem a (o ++ [x]) = mem a o) as ->.
    { apply bool_decide_ext. set_solver. }
    destruct (mem a o); simpl; lia.
Qed.

Lemma relax_keys ns d q x : is_Some (dget x (fst (relax ns d q))) -> is_Some (dget x d).
Proof.
  revert d q. induction ns as [|n ns IH]; intros d q; simpl; [done|].
  destruct (dget n d) as [w|] eqn:E; [|apply IH].
  intros H%IH. rewrite dget_dset in H. destruct (decide (n = x)); [subst; eauto|done].
Qed.

Lemma deps_first_snoc stages o x :
  deps_first stages o ->
  (forall s dep, s ∈ stages -> sn_id s = x -> dep ∈ sn_depends_on s -> dep ∈ o) ->
  deps_first stages (o ++ [x]).
Proof.
  intros Ht Hx s o1 o2 Hs Heq dep Hdep.
  destruct o2 as [|y o2' _] using rev_ind.
  - apply app_inj_tail in Heq as [-> ->]. by eapply Hx.
  - rewrite app_comm_cons, app_assoc in Heq. apply app_inj_tail in Heq as [-> _].
    by eapply Ht.
Qed.

Section kahn_correct.
Context (stages : list StageNode) (Hnd : NoDup (stage_ids stages)).

Lemma kahn_inv_step d node q o d' q' :
  kahn_inv stages d (node :: q) o ->
  relax (default [] (dget node (build_adj stages))) d q = (d', q') ->
  kahn_inv stages d' q' (o ++ [node]).
Proof.
  intros [Hnodup Hkeys Hids Hdeg Hready Htopo] Hrel.
  assert (Hnode : node ∈ stage_ids stages) by (apply Hids; rewrite elem_of_app, elem_of_cons; auto).
  rewrite build_adj_get in Hrel by done. simpl in Hrel.
  set (ns := concat _) in Hrel.
  assert (Hocc : forall s, s ∈ stages -> occ (sn_id s) ns = occ node (sn_depends_on s))
    by (intros; by apply occ_edges).
  assert (Hno : node ∉ o).
  { apply NoDup_app in Hnodup as (_ & Hdis & _). intros Hin. apply (Hdis _ Hin). apply elem_of_cons. auto. }
  assert (Hdone : forall s, done_deps s (o ++ [node])
                            = (done_deps s o + occ node (sn_depends_on s))%nat)
    by (intros; by apply done_deps_snoc).
  pose proof (relax_degree ns d q) as Hd. pose proof (relax_keys ns d q) as Hk.
  destruct (relax_queue ns d q) as (new & Hq & Hnewnd & Hnew).
  rewrite Hrel in Hd, Hk, Hq. simpl in Hd, Hk, Hq. subst q'.
  assert (Hnew' : forall s, s ∈ stages -> sn_id s ∈ new <->
      (done_deps s o < length (sn_depends_on s) /\
       length (sn_depends_on s) <= done_deps s (o ++ [node]))%nat).
  { intros s Hs. rewrite Hnew, Hocc, Hdone by done.
    rewrite Hdeg by done. split; [intros (v & [= <-] & ?); lia|].
    intros ?. eexists. split; [done|]. lia. }
  assert (Hnewid : forall x, x ∈ new -> exists s, s ∈ stages /\ sn_id s = x).
  { intros x (v & Hv & _)%Hnew. apply stage_ids_In, Hkeys. eauto. }
  constructor.
  - replace ((o ++ [node]) ++ q ++ new) with ((o ++ node :: q) ++ new)
      by (by rewrite <- !app_assoc).
    apply NoDup_app. split; [done|]. split; [|done].
    intros x Hold Hin. destruct (Hnewid x Hin) as (s & Hs & <-).
    apply Hready in Hold; [|done]. apply Hnew' in Hin; [lia|done].
  - intros x Hx. by apply Hkeys, Hk.
  - intros x. rewrite !elem_of_app.
    intros [[?|Hx%list_elem_of_singleton]|[?|Hx]]; [|by subst x| |by apply stage_ids_In, Hnewid];
      apply Hids; rewrite elem_of_app, elem_of_cons; auto.
  - intros s Hs. rewrite (Hd _ _ (Hdeg s Hs)), Hocc, Hdone by done. f_equal. lia.
  - intros s Hs. pose proof (done_deps_le s (o ++ [node])). pose proof (done_deps_le s o).
    transitivity (sn_id s ∈ o ++ node :: q \/ sn_id s ∈ new).
    { rewrite !elem_of_app, !elem_of_cons, elem_of_nil. tauto. }
    rewrite Hready, Hnew' by done. rewrite Hdone in *. lia.
  - apply deps_first_snoc; [done|]. intros s dep Hs <- Hdep.
    apply (done_deps_full s); [|done]. apply Hready; [done|].
    rewrite elem_of_app, elem_of_cons. auto.
Qed.

Lemma kahn_inv_init : kahn_inv stages (init_in_degree stages) (init_queue stages) [].
Proof.
  assert (Hq : forall s, s ∈ stages ->
            sn_id s ∈ init_queue stages <-> length (sn_depends_on s) = 0%nat).
  { intros s Hs. unfold init_queue. rewrite list_elem_of_In, in_map_iff. split.
    - intros ([x v] & Hx & [Hin Hv]%filter_In). simpl in *. subst x.
      apply list_elem_of_In, dict_wf_In in Hin.
      + rewrite init_degree_get in Hin by done. simplify_eq. apply Z.eqb_eq in Hv. lia.
      + rewrite init_in_degree_eq by done. unfold dict_wf, dkeys. by rewrite map_map.
    - intros Hl. exists (sn_id s, 0). split; [done|]. apply filter_In. split; [|done].
      apply list_elem_of_In, dget_In. rewrite init_degree_get by done. by rewrite Hl. }
  assert (Hdd : forall s, done_deps s [] = 0%nat).
  { intros s. unfold done_deps. induction (sn_depends_on s); simpl; auto. }
  assert (Hkeys : forall x, is_Some (dget x (init_in_degree stages)) -> x ∈ stage_ids stages).
  { intros x Hx. apply dget_Some_keys in Hx. rewrite init_in_degree_eq in Hx by done.
    unfold dkeys in Hx. by rewrite map_map in Hx. }
  constructor; simpl.
  - unfold init_queue. rewrite init_in_degree_eq by done.
    assert (Hsub : sublist (map fst (List.filter (fun p => snd p =? 0)
              (map (fun s => (sn_id s, Z.of_nat (length (sn_depends_on s)))) stages)))
              (stage_ids stages)).
    { clear Hnd Hq Hdd Hkeys. induction stages as [|s l IH]; simpl; [constructor|].
      destruct (_ =? 0); simpl; by constructor. }
    by eapply sublist_NoDup.
  - done.
  - intros x Hx. unfold init_queue in Hx.
    apply list_elem_of_In, in_map_iff in Hx as ([y v] & <- & [Hin _]%filter_In).
    apply Hkeys, dget_Some_keys, list_elem_of_In, in_map_iff. by exists (y, v).
  - intros s Hs. rewrite init_degree_get by done. rewrite Hdd. f_equal. lia.
  - intros s Hs. rewrite Hq, Hdd by done. lia.
  - intros s o1 o2 _ Heq. by destruct o1.
Qed.

(** One unit of fuel per stage that is not yet emitted is enough. *)
Lemma kahn_fuel fuel d q o :
  kahn_inv stages d q o ->
  (length stages <= fuel + length o)%nat ->
  exists d' o', kahn fuel (build_adj stages) d q o = Some o' /\ kahn_inv stages d' [] o'.
Proof.
  revert d q o. induction fuel as [|fuel IH]; intros d q o Hinv Hle;
    (destruct q as [|node q]; simpl; [by eauto|]).
  - exfalso. pose proof (ki_nodup _ _ _ _ Hinv) as Hndo.
    assert (length (o ++ node :: q) <= length (stage_ids stages))%nat as Hlen.
    { apply submseteq_length, NoDup_submseteq; [done|]. apply (ki_ids _ _ _ _ Hinv). }
    rewrite length_app in Hlen. unfold stage_ids in Hlen. rewrite length_map in Hlen.
    simpl in *. lia.
  - destruct (relax _ d q) as [d' q'] eqn:Er.
    apply IH; [by eapply kahn_inv_step|]. rewrite length_app. simpl. lia.
Qed.

Lemma kahn_order_inv : exists d o, kahn_order stages = Some o /\ kahn_inv stages d [] o.
Proof. apply kahn_fuel; [apply kahn_inv_init|lia]. Qed.

Lemma n_stage_ids_nodup : n_stage_ids stages = length stages.
Proof.
  unfold n_stage_ids. rewrite size_list_to_set by done. apply length_map.
Qed.
End kahn_correct.

(** ** Specification and theorems *)

(** What [build_dag_order] promises: all stages, each after its dependencies. *)
Definition topological (stages : list StageNode) (o : list Z) : Prop :=
  o ≡ₚ stage_ids stages /\ deps_first stages o.

Lemma final_order_topological stages d o :
  NoDup (stage_ids stages) ->
  kahn_inv stages d [] o -> length o = length stages -> topological stages o.
Proof.
  intros Hnd Hinv Hlen. split; [|apply Hinv].
  pose proof (ki_nodup _ _ _ _ Hinv) as Hndo. rewrite app_nil_r in Hndo.
  apply submseteq_length_Permutation.
  - apply NoDup_submseteq; [done|]. intros x Hx.
    apply (ki_ids _ _ _ _ Hinv). by rewrite app_nil_r.
  - unfold stage_ids. rewrite length_map. lia.
Qed.

Lemma schema_from_dict_nodup data w :
  schema_from_dict data = Ret w -> NoDup (stage_ids (ws_stages w)).
Proof.
  unfold schema_from_dict. destruct (rw_stages data) as [raws|]; [|done].
  destruct (parse_stages 0 raws) as [stages|e]; [|done].
  destruct (first_duplicate [] stages) eqn:E; intros; simplify_eq/=.
  apply (first_duplicate_None [] stages E). constructor.
Qed.

Lemma build_dag_order_topological w o :
  NoDup (stage_ids (ws_stages w)) -> build_dag_order w = Ret o -> topological (ws_stages w) o.
Proof.
  intros Hnd. destruct (kahn_order_inv (ws_stages w) Hnd) as (d & o' & Ho & Hinv).
  unfold build_dag_order. rewrite Ho, n_stage_ids_nodup by done.
  destruct (Nat.eqb_spec (length o') (length (ws_stages w))) as [Hlen|]; [|done].
  intros [= <-]. by eapply final_order_topological.
Qed.

Lemma emitted_all_length stages d o :
  NoDup (stage_ids stages) -> kahn_inv stages d [] o ->
  (forall x, x ∈ stage_ids stages -> x ∈ o) -> length o = length stages.
Proof.
  intros Hnd Hinv Hall. pose proof (ki_nodup _ _ _ _ Hinv) as Hndo. rewrite app_nil_r in Hndo.
  transitivity (length (stage_ids stages)); [|apply length_map].
  apply Permutation_length, NoDup_Permutation; [done..|]. intros x. split; [|apply Hall].
  intros Hx. apply (ki_ids _ _ _ _ Hinv). by rewrite app_nil_r.
Qed.

(** A topological order forces every stage through the algorithm. *)
Lemma topological_all_emitted stages d o o' :
  NoDup (stage_ids stages) ->
  kahn_inv stages d [] o -> topological stages o' ->
  forall o1 o2, o' = o1 ++ o2 -> forall x, x ∈ o1 -> x ∈ o.
Proof.
  intros Hnd Hinv [Hperm Hfirst] o1.
  induction o1 as [|y o1 IH] using rev_ind; intros o2 Heq x; [set_solver|].
  rewrite <- app_assoc in Heq. specialize (IH _ Heq).
  rewrite elem_of_app, list_elem_of_singleton. intros [Hx| ->]; [by apply IH|].
  assert (y ∈ stage_ids stages) as Hy.
  { rewrite <- Hperm, Heq, !elem_of_app, list_elem_of_singleton. auto. }
  apply stage_ids_In in Hy as (s & Hs & <-).
  assert (sn_id s ∈ o ++ []) as H; [|by rewrite app_nil_r in H].
  apply (ki_ready _ _ _ _ Hinv); [done|].
  apply Nat.le_antisymm; [apply done_deps_le|].
  unfold done_deps. apply filter_length_all. intros dep Hdep.
  apply mem_true, IH. by eapply Hfirst.
Qed.

(** C5: a workflow that was parsed has distinct stage ids, and on it
    [build_dag_order] either returns an order of all its stages in which every
    dependency precedes its dependents, or reports a schema error, and then no
    such order exists. *)
Theorem build_dag_order_correct (data : RawWorkflow) (w : WorkflowSchema) :
  schema_from_dict data = Ret w ->
  match build_dag_order w with
  | Ret o => topological (ws_stages w) o
  | Raise e => exn_cls e = WorkflowSchemaError /\ forall o, ~ topological (ws_stages w) o
  end.
Proof.
  intros Hnd%schema_from_dict_nodup.
  destruct (kahn_order_inv (ws_stages w) Hnd) as (d & o & Ho & Hinv).
  unfold build_dag_order. rewrite Ho, n_stage_ids_nodup by done.
  destruct (Nat.eqb_spec (length o) (length (ws_stages w))) as [Hlen|Hlen].
  - by eapply final_order_topological.
  - split; [done|]. intros o' Htopo. apply Hlen.
    eapply emitted_all_length; [done..|]. intros x Hx.
    eapply (topological_all_emitted _ _ _ _ Hnd Hinv Htopo o' []); [by rewrite app_nil_r|].
    by rewrite (proj1 Htopo).
Qed.

(** Three stages, the middle one depending on the other two. *)
Definition diamond : RawWorkflow :=
  let stage i deps :=
    mkRawStage (Some i) None None None None (Some deps) None None None None None None None
      None None None None in
  mkRawWorkflow (Some "w") None None (Some [stage 2 [1; 3]; stage 1 []; stage 3 [1]]) None.

Lemma build_dag_order_correct_witness :
  exists w, schema_from_dict diamond = Ret w /\
    build_dag_order w = Ret [1; 3; 2] /\ topological (ws_stages w) [1; 3; 2].
Proof.
  eexists. split; [reflexivity|]. split; [vm_compute; reflexivity|].
  exact (build_dag_order_correct diamond _ eq_refl).
Defined.
