(* ===== verification/Rollback.v ===== *)
(** * Snapshots and rollback
    ([src/orchestratord/workflow_engine/rollback.py], [gate_rollback.py])

    The workspace is a tree of named entries; [.workflow_snapshots] is kept
    apart as one directory per stage id ([stage_NNN] determines the id).  The
    model has regular files, directories and special files, no symbolic links;
    [io_ok] says whether the copies of a call succeed.  The theorems: what a
    save followed by a restore gives back, what it loses, which snapshots the
    pruning keeps, and the effect of a rollback on the workflow state. *)

From stdpp Require Import sorting.
From S2P Require Import Prelude Errors WorkflowState.

Open Scope string_scope.
Open Scope list_scope.
Open Scope Z_scope.

(** ** The file system *)

Inductive fnode :=
| FFile (content : string)
| FSpecial
| FDir (children : dict string fnode).

Definition is_dir (n : fnode) : bool := match n with FDir _ => true | _ => false end.
Definition is_regular_file (n : fnode) : bool := match n with FFile _ => true | _ => false end.
Definition file_size (n : fnode) : Z :=
  match n with FFile c => Z.of_nat (String.length c) | _ => 0 end.

(** [name.startswith(".")] *)
Definition hidden (name : string) : bool :=
  String.prefix "." name.

Record Fs := mkFs {
  fs_exists : bool;
  fs_items : dict string fnode;
  fs_snap_dirs : dict Z (dict string fnode);
}.

Definition set_items (items : dict string fnode) (fs : Fs) : Fs :=
  mkFs (fs_exists fs) items (fs_snap_dirs fs).
Definition set_snap_dirs (d : dict Z (dict string fnode)) (fs : Fs) : Fs :=
  mkFs (fs_exists fs) (fs_items fs) d.

(** [_snapshot_ignore]: what [copytree] leaves out of a directory. *)
Definition snapshot_ignored (entry : string * fnode) : bool :=
  hidden (fst entry) || negb (is_regular_file (snd entry)).

(** [shutil.copytree(item, dest, ignore=_snapshot_ignore)] *)
Definition copytree (children : dict string fnode) : fnode :=
  FDir (List.filter (fun e => negb (snapshot_ignored e)) children).

(** [shutil.copy2(item, dest)]: into [dest] when that is a directory. *)
Definition copy2 (name : string) (file : fnode) (dest : dict string fnode) : dict string fnode :=
  match dget name dest with
  | Some (FDir ch) => dset name (FDir (dset name file ch)) dest
  | _ => dset name file dest
  end.

(** ** The manager *)

Record StageSnapshot := mkStageSnapshot {
  ss_stage_id : Z;
  ss_stage_name : string;
  ss_timestamp : string;
  ss_files : list string;
  ss_size_bytes : Z;
}.

Record RollbackTarget := mkRollbackTarget {
  rt_stage_id : Z;
  rt_stage_name : string;
  rt_reason : text;
  rt_snapshot : option StageSnapshot;
}.

Record RollbackManager := mkRollbackManager {
  rm_max_snapshots : nat;
  rm_snapshots : dict Z StageSnapshot;
  rm_fs : Fs;
}.

Definition set_rm_snapshots (d : dict Z StageSnapshot) (m : RollbackManager) : RollbackManager :=
  mkRollbackManager (rm_max_snapshots m) d (rm_fs m).
Definition set_rm_fs (fs : Fs) (m : RollbackManager) : RollbackManager :=
  mkRollbackManager (rm_max_snapshots m) (rm_snapshots m) fs.

Definition new_manager (fs : Fs) : RollbackManager := mkRollbackManager 10 [] fs.

(** The copy loop of [save_snapshot]: the destination, the names copied, the
    bytes, and whether every copy went through.  A directory cannot replace a
    file left there by an earlier snapshot ([rmtree] ignores the error,
    [copytree] raises); with [io_ok = false] the first copy raises. *)
Fixpoint copy_items (io_ok : bool) (items : dict string fnode) (dest : dict string fnode)
    (files : list string) (size : Z) : bool * dict string fnode * list string * Z :=
  match items with
  | [] => (true, dest, files, size)
  | (name, item) :: items' =>
      if hidden name then copy_items io_ok items' dest files size
      else match item with
           | FSpecial => copy_items io_ok items' dest files size
           | FDir ch =>
               if negb io_ok
                  || match dget name dest with Some (FFile _) => true | _ => false end
               then (false, dest, files, size)
               else copy_items io_ok items' (dset name (copytree ch) dest) (files ++ [name]) size
           | FFile _ =>
               if negb io_ok then (false, dest, files, size)
               else copy_items io_ok items' (copy2 name item dest) (files ++ [name])
                      (size + file_size item)
           end
  end.

Definition prune_old_snapshots (m : RollbackManager) : RollbackManager :=
  if (length (rm_snapshots m) <=? rm_max_snapshots m)%nat then m
  else
    let sorted_ids := merge_sort Z.le (dkeys (rm_snapshots m)) in
    let to_remove := take (length sorted_ids - rm_max_snapshots m) sorted_ids in
    fold_left
      (fun m sid =>
         set_rm_snapshots (ddel sid (rm_snapshots m))
           (set_rm_fs (set_snap_dirs (ddel sid (fs_snap_dirs (rm_fs m))) (rm_fs m)) m))
      to_remove m.

Definition save_snapshot (stage : StageNode) (ts : string) (io_ok : bool) (m : RollbackManager)
    : option StageSnapshot * RollbackManager :=
  let fs := rm_fs m in
  if negb (fs_exists fs) then (None, m)
  else
    let dest0 := default [] (dget (sn_id stage) (fs_snap_dirs fs)) in
    let '(ok, dest, files, size) := copy_items io_ok (fs_items fs) dest0 [] 0 in
    let m := set_rm_fs (set_snap_dirs (dset (sn_id stage) dest (fs_snap_dirs fs)) fs) m in
    if negb ok then (None, m)
    else
      let snapshot := mkStageSnapshot (sn_id stage) (sn_name stage) ts files size in
      let m := set_rm_snapshots (dset (sn_id stage) snapshot (rm_snapshots m)) m in
      (Some snapshot, prune_old_snapshots m).

Definition load_snapshot_from_disk (sid : Z) (m : RollbackManager) : option StageSnapshot :=
  match dget sid (fs_snap_dirs (rm_fs m)) with
  | None => None
  | Some items =>
      Some (mkStageSnapshot sid ("stage-" +:+ pretty.pretty sid) "" (dkeys items)
              (fold_left (fun z e => z + file_size (snd e)) items 0))
  end.

Definition get_snapshot (sid : Z) (m : RollbackManager) : option StageSnapshot :=
  or_else (dget sid (rm_snapshots m)) (load_snapshot_from_disk sid m).

Definition has_snapshot (sid : Z) (m : RollbackManager) : bool := is_some (get_snapshot sid m).

(** [restore_snapshot]: a failed copy happens after the workspace was cleared. *)
Definition restore_snapshot (sid : Z) (io_ok : bool) (m : RollbackManager)
    : outcome exn bool * RollbackManager :=
  match get_snapshot sid m with
  | None => (Ret false, m)
  | Some snapshot =>
      match dget (ss_stage_id snapshot) (fs_snap_dirs (rm_fs m)) with
      | None => (Ret false, m)
      | Some items =>
          if negb io_ok && negb (Nat.eqb (length items) 0) then
            (Raise (mkExn RollbackError
                      [Lit "Failed to restore snapshot for stage "; FInt sid] (Some sid)),
             set_rm_fs (set_items [] (rm_fs m)) m)
          else (Ret true, set_rm_fs (set_items items (rm_fs m)) m)
      end
  end.

(** [a or b] on optional integers: zero is falsy. *)
Definition int_or (a b : option Z) : option Z :=
  match a with Some z => if z =? 0 then b else a | None => b end.

Definition resolve_rollback_target (stage : StageNode) (gate_rollback_to decision_rollback_to : option Z)
    (m : RollbackManager) : outcome exn RollbackTarget :=
  match int_or gate_rollback_to decision_rollback_to with
  | Some target_id =>
      Ret (mkRollbackTarget target_id ("stage-" +:+ pretty.pretty target_id)
             [Lit "Explicit rollback target"] (get_snapshot target_id m))
  | None =>
      match sn_depends_on stage with
      | target_id :: _ =>
          Ret (mkRollbackTarget target_id ("stage-" +:+ pretty.pretty target_id)
                 [Lit "Rollback to first dependency"] (get_snapshot target_id m))
      | [] =>
          Raise (mkExn RollbackError
                   [Lit "No rollback target found for stage "; FInt (sn_id stage)]
                   (Some (sn_id stage)))
      end
  end.

(** The removal loop over a copy of [completed_stages]. *)
Fixpoint remove_after (target_id : Z) (copy completed removed : list Z) : list Z * list Z :=
  match copy with
  | [] => (completed, removed)
  | sid :: copy' =>
      if target_id <? sid
      then remove_after target_id copy' (remove_first sid completed) (removed ++ [sid])
      else remove_after target_id copy' completed removed
  end.

Definition reset_stage_entry (s : WorkflowState) (sid : Z) : WorkflowState :=
  let s := set_stage_status sid PENDING s in
  set_results (ddel sid (stage_results s)) s.

Definition update_state_on_rollback (target_id failed_stage_id : Z) (ts : string)
    (s : WorkflowState) : WorkflowState :=
  let '(completed, removed) :=
    remove_after target_id (completed_stages s) (completed_stages s) [] in
  let s := set_completed completed s in
  let s := fold_left reset_stage_entry removed s in
  add_rollback_event failed_stage_id target_id "" ts s.

Definition cleanup (m : RollbackManager) : RollbackManager :=
  set_rm_snapshots [] (set_rm_fs (set_snap_dirs [] (rm_fs m)) m).

(** ** GATE rollback *)

Record GateRollbackResult := mkGateRollbackResult {
  gr_success : bool;
  gr_target_stage_id : Z;
  gr_target_stage_name : string;
  gr_reason : text;
  gr_snapshot_restored : bool;
}.

Definition resolve_gate_rollback (stage : StageNode) (rejection_reason : text) (m : RollbackManager)
    : outcome exn RollbackTarget :=
  match sn_gate_rollback_to stage with
  | Some target_id =>
      Ret (mkRollbackTarget target_id ("stage-" +:+ pretty.pretty target_id)
             ([Lit "GATE rejected: "] ++ rejection_reason
              ++ [Lit " (explicit rollback_to="; FInt target_id; Lit ")"])
             (get_snapshot target_id m))
  | None =>
      match sn_depends_on stage with
      | target_id :: _ =>
          Ret (mkRollbackTarget target_id ("stage-" +:+ pretty.pretty target_id)
                 ([Lit "GATE rejected: "] ++ rejection_reason ++ [Lit " (rollback to dependency)"])
                 (get_snapshot target_id m))
      | [] =>
          Raise (mkExn RollbackError
                   [Lit "No rollback target for GATE stage "; FInt (sn_id stage)]
                   (Some (sn_id stage)))
      end
  end.

Definition execute_rollback (target : RollbackTarget) (failed_stage_id : Z) (ts : string)
    (io_ok : bool) (s : WorkflowState) (m : RollbackManager)
    : GateRollbackResult * WorkflowState * RollbackManager :=
  let '(restored, m) :=
    match rt_snapshot target with
    | None => (false, m)
    | Some _ =>
        match restore_snapshot (rt_stage_id target) io_ok m with
        | (Ret b, m') => (b, m')
        | (Raise _, m') => (false, m')
        end
    end in
  let s := update_state_on_rollback (rt_stage_id target) failed_stage_id ts s in
  let s := if dmem failed_stage_id (stage_statuses s)
           then set_stage_status failed_stage_id GATE_REJECTED s else s in
  (mkGateRollbackResult true (rt_stage_id target) (rt_stage_name target) (rt_reason target) restored,
   s, m).

Definition determine_dag_index (target : RollbackTarget) (dag_order : list Z) : nat :=
  default 0%nat (index_of (rt_stage_id target) dag_order).

Definition handle_gate_rejection (stage : StageNode) (dag_order : list Z) (rejection_reason : text)
    (ts : string) (io_ok : bool) (s : WorkflowState) (m : RollbackManager)
    : outcome exn (nat * GateRollbackResult) * WorkflowState * RollbackManager :=
  match resolve_gate_rollback stage rejection_reason m with
  | Raise e => (Raise e, s, m)
  | Ret target =>
      let '(result, s, m) := execute_rollback target (sn_id stage) ts io_ok s m in
      (Ret (determine_dag_index target dag_order, result), s, m)
  end.

(** ** Facts *)

(** *** State rollback *)

Lemma remove_first_app_skip (x : Z) l1 l2 :
  x ∉ l1 -> remove_first x (l1 ++ x :: l2) = l1 ++ l2.
Proof.
  induction l1 as [|y l1 IH]; simpl; intros Hx; [by rewrite decide_True|].
  rewrite decide_False by set_solver. f_equal. apply IH. set_solver.
Qed.

Lemma remove_after_spec t copy kept removed :
  (forall x, x ∈ kept -> x <= t) ->
  remove_after t copy (kept ++ copy) removed
  = (kept ++ List.filter (fun x => x <=? t) copy,
     removed ++ List.filter (fun x => t <? x) copy).
Proof.
  revert kept removed. induction copy as [|x copy IH]; intros kept removed Hk; simpl.
  - by rewrite !app_nil_r.
  - destruct (Z.ltb_spec t x) as [Hlt|Hge].
    + rewrite remove_first_app_skip by (intros H%Hk; lia).
      rewrite IH by done. destruct (Z.leb_spec x t); [lia|]. by rewrite <- app_assoc.
    + destruct (Z.leb_spec x t); [|lia].
      replace (kept ++ x :: copy) with ((kept ++ [x]) ++ copy) by (by rewrite <- app_assoc).
      rewrite IH; [by rewrite <- app_assoc|].
      intros y [Hy| ->%list_elem_of_singleton]%elem_of_app; [by apply Hk|done].
Qed.

Lemma fold_reset_results removed s sid :
  dget sid (stage_results (fold_left reset_stage_entry removed s))
  = if mem sid removed then None else dget sid (stage_results s).
Proof.
  revert s. induction removed as [|x removed IH]; intros s; simpl; [done|].
  rewrite IH. simpl. destruct (mem sid removed) eqn:E.
  - assert (mem sid (x :: removed) = true) as ->; [|done].
    apply mem_true in E. apply mem_true. set_solver.
  - destruct (decide (x = sid)) as [->|Hne].
    + rewrite dget_ddel_eq. assert (mem sid (sid :: removed) = true) as ->; [|done].
      apply mem_true. set_solver.
    + rewrite dget_ddel_ne by done. assert (mem sid (x :: removed) = false) as ->; [|done].
      apply mem_false in E. apply mem_false. set_solver.
Qed.

Lemma fold_reset_statuses removed s sid :
  dget sid (stage_statuses (fold_left reset_stage_entry removed s))
  = if mem sid removed then Some PENDING else dget sid (stage_statuses s).
Proof.
  revert s. induction removed as [|x removed IH]; intros s; simpl; [done|].
  rewrite IH. simpl. rewrite dget_dset. destruct (mem sid removed) eqn:E.
  - assert (mem sid (x :: removed) = true) as ->; [|done].
    apply mem_true in E. apply mem_true. set_solver.
  - destruct (decide (x = sid)) as [->|Hne].
    + assert (mem sid (sid :: removed) = true) as ->; [|done]. apply mem_true. set_solver.
    + assert (mem sid (x :: removed) = false) as ->; [|done].
      apply mem_false in E. apply mem_false. set_solver.
Qed.

Lemma fold_reset_completed removed s :
  completed_stages (fold_left reset_stage_entry removed s) = completed_stages s.
Proof. revert s. induction removed as [|x l IH]; intros s; simpl; [done|]. by rewrite IH. Qed.

Lemma mem_filter_gt t sid l :
  mem sid (List.filter (fun x => t <? x) l) = mem sid l && (t <? sid).
Proof.
  unfold mem. apply eq_true_iff_eq. rewrite andb_true_iff, !bool_decide_eq_true, Z.ltb_lt.
  rewrite !list_elem_of_In, filter_In, Z.ltb_lt. tauto.
Qed.

(** *** Snapshots *)

(** What a snapshot records of a workspace. *)
Definition visible_part (items : dict string fnode) : dict string fnode :=
  omap (fun e : string * fnode =>
          if hidden (fst e) then None
          else match snd e with
               | FSpecial => None
               | FDir ch => Some (fst e, copytree ch)
               | FFile c => Some (fst e, FFile c)
               end) items.

Lemma copy_items_fresh items dest files size :
  NoDup (dkeys dest ++ dkeys items) ->
  exists files' size',
    copy_items true items dest files size = (true, dest ++ visible_part items, files', size').
Proof.
  revert dest files size. induction items as [|[name item] items IH];
    intros dest files size Hnd; simpl.
  - rewrite app_nil_r. eauto.
  - assert (Hfresh : dget name dest = None).
    { apply dget_None_keys. intros Hin. apply NoDup_app in Hnd as (_ & Hdis & _).
      apply (Hdis _ Hin). simpl. apply elem_of_cons. auto. }
    assert (Hskip : NoDup (dkeys dest ++ dkeys items)).
    { simpl in Hnd. apply NoDup_app in Hnd as (H1 & H2 & [_ H3]%NoDup_cons).
      apply NoDup_app. split; [done|]. split; [|done].
      intros x Hx Hx'. apply (H2 x Hx). apply elem_of_cons. auto. }
    assert (Hmore : forall n, NoDup (dkeys (dest ++ [(name, n)]) ++ dkeys items)).
    { intros n. unfold dkeys in *. rewrite map_app, <- app_assoc. exact Hnd. }
    destruct (hidden name) eqn:Eh; [by apply IH|].
    destruct item as [c| |ch]; simpl; [| by apply IH |].
    + unfold copy2. rewrite Hfresh, dset_fresh by done.
      edestruct IH as (f' & z' & ->); [apply Hmore|]. rewrite <- app_assoc. eauto.
    + rewrite Hfresh, dset_fresh by done.
      edestruct IH as (f' & z' & ->); [apply Hmore|]. rewrite <- app_assoc. eauto.
Qed.

Lemma visible_part_visible name n items :
  dget name (visible_part items) = Some n -> hidden name = false /\ n <> FSpecial.
Proof.
  intros [[k item] (_ & Hf)]%dget_In%list_elem_of_omap. simpl in Hf.
  destruct (hidden k) eqn:E; [done|]. destruct item; by simplify_eq.
Qed.

(** *** Pruning *)

Definition delete_all (ids : list Z) (d : dict Z StageSnapshot) : dict Z StageSnapshot :=
  fold_left (fun d sid => ddel sid d) ids d.

Lemma delete_all_keys ids d :
  dkeys (delete_all ids d) = filter (fun x => x ∉ ids) (dkeys d).
Proof.
  revert d. induction ids as [|x ids IH]; intros d; simpl.
  - induction (dkeys d) as [|k l IHl]; [done|].
    rewrite filter_cons_True by set_solver. by f_equal.
  - rewrite IH, dkeys_ddel, list_filter_filter. apply list_filter_iff. set_solver.
Qed.

Lemma prune_snapshots_eq m :
  (rm_max_snapshots m < length (rm_snapshots m))%nat ->
  rm_snapshots (prune_old_snapshots m)
  = delete_all (take (length (rm_snapshots m) - rm_max_snapshots m)
                  (merge_sort Z.le (dkeys (rm_snapshots m)))) (rm_snapshots m).
Proof.
  intros Hlt. unfold prune_old_snapshots.
  destruct (Nat.leb_spec (length (rm_snapshots m)) (rm_max_snapshots m)); [lia|].
  rewrite (Permutation_length (merge_sort_Permutation _ _)).
  unfold dkeys at 1. rewrite length_map.
  generalize (take (length (rm_snapshots m) - rm_max_snapshots m)
                (merge_sort Z.le (dkeys (rm_snapshots m)))) as ids.
  intros ids. clear. revert m. induction ids as [|x ids IH]; intros m; simpl; [done|].
  by rewrite IH.
Qed.

(** The ids removed by a pruning are below every id it keeps. *)
Lemma prune_split m :
  dict_wf (rm_snapshots m) ->
  (rm_max_snapshots m < length (rm_snapshots m))%nat ->
  exists low high,
    merge_sort Z.le (dkeys (rm_snapshots m)) = low ++ high /\
    length high = rm_max_snapshots m /\
    (forall x y, x ∈ low -> y ∈ high -> x < y) /\
    dkeys (rm_snapshots (prune_old_snapshots m)) ≡ₚ high.
Proof.
  intros Hwf Hlt. set (ids := merge_sort Z.le (dkeys (rm_snapshots m))).
  assert (Hperm : ids ≡ₚ dkeys (rm_snapshots m)) by apply merge_sort_Permutation.
  assert (Hlen : length ids = length (rm_snapshots m)).
  { rewrite Hperm. unfold dkeys. apply length_map. }
  assert (Hndids : NoDup ids) by (by rewrite Hperm).
  assert (Hsort : StronglySorted Z.le ids).
  { apply Sorted_StronglySorted; [intros ???; lia|].
    apply Sorted_merge_sort. intros x y. lia. }
  exists (take (length (rm_snapshots m) - rm_max_snapshots m) ids),
         (drop (length (rm_snapshots m) - rm_max_snapshots m) ids).
  set (k := (length (rm_snapshots m) - rm_max_snapshots m)%nat).
  rewrite <- (take_drop k ids) in Hsort, Hndids.
  pose proof Hndids as (Hnd1 & Hdis & Hnd2)%NoDup_app.
  split; [by rewrite take_drop|]. split; [rewrite length_drop; lia|]. split.
  - intros x y Hx Hy. assert (x <= y).
    { by eapply StronglySorted_app_1_elem_of. }
    destruct (decide (x = y)) as [->|]; [by destruct (Hdis y)|lia].
  - rewrite prune_snapshots_eq by done. rewrite delete_all_keys. fold ids k.
    apply NoDup_Permutation; [by apply NoDup_filter|done|].
    intros x. rewrite list_elem_of_filter.
    assert (x ∈ dkeys (rm_snapshots m) <-> x ∈ take k ids \/ x ∈ drop k ids) as ->.
    { by rewrite <- elem_of_app, take_drop, Hperm. }
    split; [tauto|]. intros Hx. split; [|auto].
    intros Hx'. by destruct (Hdis x).
Qed.

Lemma prune_keeps_largest_keys m :
  dict_wf (rm_snapshots m) ->
  let kept := dkeys (rm_snapshots (prune_old_snapshots m)) in
  length kept = Nat.min (length (rm_snapshots m)) (rm_max_snapshots m) /\
  (forall x, x ∈ kept -> x ∈ dkeys (rm_snapshots m)) /\
  (forall x y, x ∈ dkeys (rm_snapshots m) -> x ∉ kept -> y ∈ kept -> x < y).
Proof.
  intros Hwf kept. unfold kept.
  destruct (decide (length (rm_snapshots m) <= rm_max_snapshots m)%nat) as [Hle|Hgt].
  - assert (prune_old_snapshots m = m) as ->.
    { unfold prune_old_snapshots. by rewrite (proj2 (Nat.leb_le _ _) Hle). }
    unfold dkeys at 1. rewrite length_map. split; [lia|]. split; [done|].
    intros x y ? []; done.
  - destruct (prune_split m Hwf ltac:(lia)) as (low & high & Hs & Hlen & Hord & Hk).
    pose proof (merge_sort_Permutation Z.le (dkeys (rm_snapshots m))) as Hp. rewrite Hs in Hp.
    split; [rewrite Hk; lia|]. setoid_rewrite Hk. setoid_rewrite <- Hp.
    setoid_rewrite elem_of_app. split; [auto|].
    intros x y [Hx|Hx] Hnx Hy; [by apply Hord|done].
Qed.

Lemma not_subset_exists (l k : list Z) :
  NoDup l -> (length k < length l)%nat -> exists x, x ∈ l /\ x ∉ k.
Proof.
  intros Hnd Hlt. destruct (decide (Exists (fun x => x ∉ k) l)) as [H|H].
  - apply Exists_exists in H. naive_solver.
  - exfalso. assert (length l <= length k)%nat; [|lia].
    apply submseteq_length, NoDup_submseteq; [done|]. intros x Hx.
    destruct (decide (x ∈ k)); [done|]. destruct H. apply Exists_exists. eauto.
Qed.

(** A pruning deletes the directories of the snapshots it drops. *)
Lemma prune_dirs m sid :
  dmem sid (rm_snapshots m) = true ->
  sid ∉ dkeys (rm_snapshots (prune_old_snapshots m)) ->
  dget sid (fs_snap_dirs (rm_fs (prune_old_snapshots m))) = None.
Proof.
  unfold prune_old_snapshots. destruct (_ <=? _)%nat.
  { intros Hin%dmem_keys. done. }
  generalize (take (length (merge_sort Z.le (dkeys (rm_snapshots m))) - rm_max_snapshots m)
                (merge_sort Z.le (dkeys (rm_snapshots m)))) as ids.
  intros ids Hin%dmem_keys.
  assert (Hgone : forall l m0, dget sid (fs_snap_dirs (rm_fs m0)) = None ->
    dget sid (fs_snap_dirs (rm_fs (fold_left (fun m sid =>
         set_rm_snapshots (ddel sid (rm_snapshots m))
           (set_rm_fs (set_snap_dirs (ddel sid (fs_snap_dirs (rm_fs m))) (rm_fs m)) m)) l m0))) = None).
  { induction l as [|x l IH]; intros m0 H0; simpl; [done|]. apply IH. simpl.
    destruct (decide (x = sid)) as [->|]; [apply dget_ddel_eq|by rewrite dget_ddel_ne]. }
  revert m Hin. induction ids as [|x ids IH]; intros m Hin; simpl; [done|].
  destruct (decide (x = sid)) as [->|Hne].
  - intros _. apply Hgone. apply dget_ddel_eq.
  - apply IH. simpl. rewrite dkeys_ddel, list_elem_of_filter. done.
Qed.

(** ** Theorems *)

(** A state rollback to [target] keeps exactly the completed stages with an
    id up to [target], in order; every other completed stage loses its result
    and is pending again; nothing else changes, and the event is recorded. *)
Theorem update_state_on_rollback_spec (target failed : Z) (ts : string) (s : WorkflowState) :
  let s' := update_state_on_rollback target failed ts s in
  let redo sid := mem sid (completed_stages s) && (target <? sid) in
  completed_stages s' = List.filter (fun x => x <=? target) (completed_stages s) /\
  (forall sid, get_stage_result s' sid = if redo sid then None else get_stage_result s sid) /\
  (forall sid, dget sid (stage_statuses s')
               = if redo sid then Some PENDING else dget sid (stage_statuses s)) /\
  cost_accumulated_usd s' = cost_accumulated_usd s /\
  rollback_events s' = rollback_events s ++ [mkRollbackEvent failed target "" ts].
Proof.
  intros s' redo. unfold s', update_state_on_rollback.
  pose proof (remove_after_spec target (completed_stages s) [] [] ltac:(set_solver)) as Heq.
  simpl in Heq. rewrite Heq. simpl.
  set (rm := List.filter _ _).
  split; [by rewrite fold_reset_completed|].
  split; [|split].
  - intros sid. unfold get_stage_result. simpl. rewrite fold_reset_results. simpl.
    unfold rm, redo. by rewrite mem_filter_gt.
  - intros sid. rewrite fold_reset_statuses. simpl. unfold rm, redo. by rewrite mem_filter_gt.
  - assert (forall l s0, cost_accumulated_usd (fold_left reset_stage_entry l s0)
                         = cost_accumulated_usd s0 /\
                         rollback_events (fold_left reset_stage_entry l s0)
                         = rollback_events s0) as Hother.
    { induction l as [|x l IH]; intros s0; simpl; [done|]. by rewrite (proj1 (IH _)), (proj2 (IH _)). }
    by rewrite (proj1 (Hother _ _)), (proj2 (Hother _ _)).
Qed.

(** A snapshot of a stage saved for the first time, restored after any
    change of the workspace, gives back the non-hidden files of the workspace
    and its non-hidden directories flattened to their non-hidden regular files. *)
Theorem save_restore_exact (stage : StageNode) (ts : string) (m : RollbackManager)
    (later : dict string fnode) :
  fs_exists (rm_fs m) = true ->
  dict_wf (fs_items (rm_fs m)) ->
  dget (sn_id stage) (fs_snap_dirs (rm_fs m)) = None ->
  (length (rm_snapshots m) < rm_max_snapshots m)%nat ->
  let m1 := snd (save_snapshot stage ts true m) in
  let m2 := set_rm_fs (set_items later (rm_fs m1)) m1 in
  let r := restore_snapshot (sn_id stage) true m2 in
  fst r = Ret true /\ fs_items (rm_fs (snd r)) = visible_part (fs_items (rm_fs m)).
Proof.
  intros Hex Hwf Hfresh Hroom. unfold save_snapshot. rewrite Hex, Hfresh. simpl.
  destruct (copy_items_fresh (fs_items (rm_fs m)) [] [] 0 Hwf) as (files & size & ->). simpl.
  unfold prune_old_snapshots. simpl.
  pose proof (dset_length_le (sn_id stage)
    (mkStageSnapshot (sn_id stage) (sn_name stage) ts files size) (rm_snapshots m)) as Hlen.
  destruct (Nat.leb_spec (length (dset (sn_id stage)
    (mkStageSnapshot (sn_id stage) (sn_name stage) ts files size) (rm_snapshots m)))
    (rm_max_snapshots m)); [|lia].
  unfold restore_snapshot, get_snapshot. simpl. rewrite dget_dset_eq. simpl.
  by rewrite dget_dset_eq.
Qed.

(** A repository with history, a package directory and a visible file. *)
Definition repo_workspace : dict string fnode :=
  [(".git", FDir [("HEAD", FFile "ref: refs/heads/main")]);
   ("README.md", FFile "hello");
   ("src", FDir [("main.py", FFile "import pkg"); ("pkg", FDir [("mod.py", FFile "x = 1")])])].

Definition plain_stage (i : Z) (deps : list Z) : StageNode :=
  mkStageNode i "s" AGENT "" "" deps [] "" [] [] "manual" (4 # 5)%Q None [] 0 0 "fail".

Definition repo_manager : RollbackManager := new_manager (mkFs true repo_workspace []).

Lemma save_restore_exact_witness :
  fst (restore_snapshot 1 true
         (set_rm_fs (set_items [] (rm_fs (snd (save_snapshot (plain_stage 1 []) "t" true repo_manager))))
            (snd (save_snapshot (plain_stage 1 []) "t" true repo_manager)))) = Ret true.
Proof.
  refine (proj1 (save_restore_exact (plain_stage 1 []) "t" repo_manager [] _ _ _ _)).
  - reflexivity.
  - unfold dict_wf. apply (bool_decide_unpack _). vm_compute. exact I.
  - reflexivity.
  - vm_compute. lia.
Defined.

(** Restoring the snapshot taken just before a stage destroys what the
    snapshot skipped: the repository's [.git] and every nested directory are
    gone after the rollback. *)
Theorem restore_loses_git_and_subdirs :
  let m1 := snd (save_snapshot (plain_stage 1 []) "t" true repo_manager) in
  let m2 := snd (restore_snapshot 1 true m1) in
  is_some (dget ".git" (fs_items (rm_fs m1))) = true /\
  dget ".git" (fs_items (rm_fs m2)) = None /\
  dget "src" (fs_items (rm_fs m2)) = Some (FDir [("main.py", FFile "import pkg")]).
Proof. vm_compute. done. Qed.

(** A pruning keeps exactly [max_snapshots] snapshots, those of the largest
    stage ids, and leaves a store that fits untouched. *)
Theorem prune_keeps_largest (m : RollbackManager) :
  dict_wf (rm_snapshots m) ->
  let kept := dkeys (rm_snapshots (prune_old_snapshots m)) in
  length kept = Nat.min (length (rm_snapshots m)) (rm_max_snapshots m) /\
  (forall x, x ∈ kept -> x ∈ dkeys (rm_snapshots m)) /\
  (forall x y, x ∈ dkeys (rm_snapshots m) -> x ∉ kept -> y ∈ kept -> x < y).
Proof. apply prune_keeps_largest_keys. Qed.

Definition full_manager : RollbackManager :=
  mkRollbackManager 2 [(4, mkStageSnapshot 4 "d" "t" [] 0); (2, mkStageSnapshot 2 "b" "t" [] 0);
                       (3, mkStageSnapshot 3 "c" "t" [] 0)]
    (mkFs true [] [(4, []); (2, []); (3, [])]).

Lemma prune_keeps_largest_witness :
  dkeys (rm_snapshots (prune_old_snapshots full_manager)) = [4; 3] /\
  length (dkeys (rm_snapshots (prune_old_snapshots full_manager))) = 2%nat.
Proof.
  split; [vm_compute; reflexivity|].
  refine (eq_trans (proj1 (prune_keeps_largest full_manager _)) eq_refl).
  unfold dict_wf. apply (bool_decide_unpack _). vm_compute. exact I.
Defined.

(** When the store is full and the stage about to run has the lowest id,
    the snapshot it has just saved is the one that is pruned: neither memory
    nor disk can restore it. *)
Theorem lowest_snapshot_lost (stage : StageNode) (ts : string) (io_ok : bool) (m : RollbackManager) :
  dict_wf (rm_snapshots m) ->
  length (rm_snapshots m) = rm_max_snapshots m ->
  (forall x, x ∈ dkeys (rm_snapshots m) -> sn_id stage < x) ->
  is_some (fst (save_snapshot stage ts io_ok m)) = true ->
  get_snapshot (sn_id stage) (snd (save_snapshot stage ts io_ok m)) = None.
Proof.
  intros Hwf Hfull Hlow. unfold save_snapshot.
  destruct (fs_exists (rm_fs m)); [simpl|done].
  destruct (copy_items _ _ _ _ _) as [[[ok dest] files] size].
  destruct ok; [simpl|done]. intros _.
  set (m1 := set_rm_snapshots _ _).
  assert (Hnew : dget (sn_id stage) (rm_snapshots m) = None).
  { apply dget_None_keys. intros H%Hlow. lia. }
  assert (Hk : dkeys (rm_snapshots m1) = dkeys (rm_snapshots m) ++ [sn_id stage]).
  { simpl. rewrite dkeys_dset. unfold dmem. by rewrite Hnew. }
  assert (Hwf1 : dict_wf (rm_snapshots m1)) by (by apply dset_wf).
  assert (Hlen1 : length (rm_snapshots m1) = S (rm_max_snapshots m)).
  { simpl. rewrite dset_fresh, length_app by done. simpl. lia. }
  destruct (prune_keeps_largest_keys m1 Hwf1) as (Hlen & Hsub & Hord).
  assert (Hgone : sn_id stage ∉ dkeys (rm_snapshots (prune_old_snapshots m1))).
  { intros Hin.
    assert (exists x, x ∈ dkeys (rm_snapshots m1) /\ x ∉ dkeys (rm_snapshots (prune_old_snapshots m1)))
      as (x & Hx & Hnx).
    { apply not_subset_exists; [done|]. 
      assert (length (dkeys (rm_snapshots m1)) = S (rm_max_snapshots m)) as Hl
        by (unfold dkeys; rewrite length_map; exact Hlen1).
      rewrite Hlen, Hl, Hlen1. change (rm_max_snapshots m1) with (rm_max_snapshots m). lia. }
    pose proof (Hord x (sn_id stage) Hx Hnx Hin) as Hlt.
    rewrite Hk, elem_of_app, list_elem_of_singleton in Hx.
    destruct Hx as [Hx%Hlow| ->]; lia. }
  unfold get_snapshot, load_snapshot_from_disk.
  rewrite (proj2 (dget_None_keys _ _) Hgone). simpl.
  rewrite prune_dirs; [done| |done].
  apply dmem_keys. rewrite Hk, elem_of_app, list_elem_of_singleton. auto.
Qed.

Lemma lowest_snapshot_lost_witness :
  get_snapshot 1 (snd (save_snapshot (plain_stage 1 []) "t" true
    (mkRollbackManager 1 [(2, mkStageSnapshot 2 "b" "t" [] 0)] (mkFs true [] [(2, [])])))) = None.
Proof.
  apply (lowest_snapshot_lost (plain_stage 1 [])).
  - unfold dict_wf. apply (bool_decide_unpack _). vm_compute. exact I.
  - reflexivity.
  - simpl. intros x Hx. apply list_elem_of_singleton in Hx. subst x. lia.
  - reflexivity.
Defined.
