(* ===== verification/StageRunner.v ===== *)
(** * Stage execution adapters
    ([src/orchestratord/workflow_engine/stage_runner.py], [validators/__init__.py])

    [StageRunner] turns a stage into agent tasks, with its retry loops, its two
    automatic gate modes and the decision parser; [ContractValidator] dispatches
    validator specs.  The agent task runner, the cost provider, the prompt
    renderer, the individual validators and [asyncio.sleep] act on an abstract
    world [W] and are parameters ([Services]).  Strings are byte strings and
    [lower], [strip] and [\s] are their ASCII versions. *)

From S2P Require Import Prelude Errors WorkflowState Dag Decision.

Open Scope string_scope.
Open Scope list_scope.
Open Scope Z_scope.

(** ** Results *)

Record StageRunResult := mkStageRunResult {
  sr_stage_id : Z;
  sr_success : bool;
  sr_outputs : list string;
  sr_artifacts : dict string string;
  sr_cost_usd : Q;
  sr_error : option text;
  sr_message : string;
  sr_run_id : option string;
}.

Record GateRunResult := mkGateRunResult {
  g_stage_id : Z;
  g_approved : bool;
  g_reason : text;
}.

Record DecisionRunResult := mkDecisionRunResult {
  dn_stage_id : Z;
  dn_outcome : string;
  dn_next_stage : option Z;
}.

(** What [AgentTaskRunner.run_task] hands back. *)
Record TaskSession := mkTaskSession {
  ts_output_text : string;
  ts_status : string;
  ts_run_id : option string;
}.

Record ValidationResult := mkValidationResult {
  v_passed : bool;
  v_type : string;
  v_message : text;
}.

(** [ActionResult] of [actions.py]. *)
Record ActionResult := mkActionResult {
  a_success : bool;
  a_outputs : list string;
  a_artifacts : dict string string;
  a_cost_usd : Q;
  a_error : option text;
}.

(** ** Text *)

Definition is_space (c : Ascii.ascii) : bool :=
  let n := Ascii.N_of_ascii c in
  ((9 <=? n)%N && (n <=? 13)%N) || ((28 <=? n)%N && (n <=? 32)%N).

Definition is_digit (c : Ascii.ascii) : bool :=
  let n := Ascii.N_of_ascii c in (48 <=? n)%N && (n <=? 57)%N.

Definition digit_value (c : Ascii.ascii) : Z := Z.of_N (Ascii.N_of_ascii c) - 48.

Fixpoint lstrip (s : string) : string :=
  match s with
  | EmptyString => EmptyString
  | String c s' => if is_space c then lstrip s' else s
  end.

Fixpoint rstrip (s : string) : string :=
  match s with
  | EmptyString => EmptyString
  | String c s' =>
      match rstrip s' with
      | EmptyString => if is_space c then EmptyString else String c EmptyString
      | t => String c t
      end
  end.

Definition strip (s : string) : string := rstrip (lstrip s).

Lemma rstrip_idemp s : rstrip (rstrip s) = rstrip s.
Proof.
  induction s as [|c s IH]; simpl; [done|].
  destruct (rstrip s) as [|d t] eqn:E.
  - destruct (is_space c) eqn:Ec; [done|]. simpl. by rewrite Ec.
  - cbn [rstrip] in *. by rewrite IH.
Qed.

Lemma lstrip_head s : lstrip s = EmptyString \/ exists c t, lstrip s = String c t /\ is_space c = false.
Proof.
  induction s as [|c s IH]; simpl; [by left|]. destruct (is_space c) eqn:E; [done|].
  right. by exists c, s.
Qed.

Lemma strip_idemp s : strip (strip s) = strip s.
Proof.
  unfold strip. destruct (lstrip_head s) as [-> | (c & t & -> & Hc)]; [done|].
  rewrite <- (rstrip_idemp (String c t)) at 2. f_equal. simpl.
  destruct (rstrip t); rewrite ?Hc; simpl; by rewrite Hc.
Qed.

(** [needle in hay] *)
Fixpoint contains (needle hay : string) : bool :=
  String.prefix needle hay
  || match hay with EmptyString => false | String _ hay' => contains needle hay' end.

(** [[:\s]*] *)
Fixpoint skip_sep (s : string) : string :=
  match s with
  | String c s' => if is_space c || Ascii.eqb c (Ascii.ascii_of_N 58) then skip_sep s' else s
  | EmptyString => s
  end.

(** The longest run of digits: its value, its length and what follows. *)
Fixpoint take_digits (s : string) (acc : Z) (n : nat) : Z * nat * string :=
  match s with
  | String c s' =>
      if is_digit c then take_digits s' (acc * 10 + digit_value c) (S n) else (acc, n, s)
  | EmptyString => (acc, n, s)
  end.

(** [([0-9]*\.?[0-9]+)] at the head of [s], greedy with backtracking, and
    [float] of the group. *)
Definition match_number (s : string) : option Q :=
  let '(ip, n, rest) := take_digits s 0 0 in
  let whole := if Nat.eqb n 0 then None else Some (inject_Z ip) in
  match rest with
  | String c rest' =>
      if Ascii.eqb c (Ascii.ascii_of_N 46) then
        let '(fp, m, _) := take_digits rest' 0 0 in
        if Nat.eqb m 0 then whole
        else Some (inject_Z ip + (fp # Z.to_pos (10 ^ Z.of_nat m)%Z))%Q
      else whole
  | EmptyString => whole
  end.

(** The alternatives [score] (any case) and [评分] at the head of [s]. *)
Definition after_keyword (s : string) : option string :=
  if String.prefix "score" (lower s) then Some (String.substring 5 (String.length s - 5) s)
  else if String.prefix "评分" s then Some (String.substring 6 (String.length s - 6) s)
  else None.

(** [re.search]: the first position where the pattern matches. *)
Fixpoint search_score (s : string) : option Q :=
  match (match after_keyword s with Some t => match_number (skip_sep t) | None => None end) with
  | Some q => Some q
  | None => match s with EmptyString => None | String _ s' => search_score s' end
  end.

Definition extract_score (s : string) : Q := default 0%Q (search_score s).

(** ** Decisions *)

Definition parse_decision_outcome (output_text : string) (stage : StageNode) : string :=
  let text_lower := lower (strip output_text) in
  default "proceed"
    (find (fun o => contains (lower o) text_lower) (dkeys (sn_decision_outcomes stage))).

Definition resolve_next_stage (outcome : string) (stage : StageNode) : option Z :=
  ds_next (spec_of stage outcome).

(** ** Validators and services *)

Abbreviation validator_spec := (list (string * pyval)).

(** What one registered validator does when called with its keyword
    arguments. *)
Abbreviation validator_fn W := (validator_spec -> W -> outcome exn ValidationResult * W).

Record ContractValidator (W : Type) := mkContractValidator {
  cv_validators : list (string * validator_fn W);
  cv_custom : validator_fn W;
  cv_llm_judge : validator_fn W;
}.
Arguments mkContractValidator {W}.
Arguments cv_validators {W}.
Arguments cv_custom {W}.
Arguments cv_llm_judge {W}.

Record Services (W : Type) := mkServices {
  task_runner : option (StageNode -> text -> WorkflowState -> W -> outcome exn (option TaskSession) * W);
  cost_provider : option (W -> option Q);
  stage_prompt : StageNode -> WorkflowState -> text;
  validator : ContractValidator W;
  resolve_action : string -> option (dict string pyval -> WorkflowState -> W -> outcome exn ActionResult * W);
  sleep : Z -> W -> W;
}.
Arguments mkServices {W}.
Arguments task_runner {W}.
Arguments cost_provider {W}.
Arguments stage_prompt {W}.
Arguments validator {W}.
Arguments resolve_action {W}.
Arguments sleep {W}.

Section runner.
Context {W : Type} (sv : Services W).

Definition validate (cv : ContractValidator W) (spec : validator_spec) : M W exn ValidationResult :=
  let validator_type := get_str "type" spec in
  if String.eqb validator_type "custom" then cv_custom cv spec
  else if String.eqb validator_type "llm_judge" then cv_llm_judge cv spec
  else match dget validator_type (cv_validators cv) with
       | None =>
           mret (mkValidationResult false validator_type
                   [Lit "Unknown validator type: "; Lit validator_type])
       | Some fn =>
           try_except (fn (ddel "type" spec))
             (fun e => mret (mkValidationResult false validator_type
                               ([Lit "Validator error: "] ++ exn_msg e)))
       end.

Fixpoint validate_all (cv : ContractValidator W) (specs : list validator_spec)
    : M W exn (list ValidationResult) :=
  match specs with
  | [] => mret []
  | spec :: specs' =>
      r ← validate cv spec;
      rs ← validate_all cv specs';
      mret (r :: rs)
  end.

Definition failure_messages (rs : list ValidationResult) : list text :=
  map v_message (List.filter (fun r => negb (v_passed r)) rs).

(** ** The runner *)

Definition MAX_RETRIES : nat := 2.

Definition get_total_cost_usd (w : W) : Q :=
  match cost_provider sv with
  | None => 0
  | Some f => default 0%Q (f w)
  end.

Definition run_agent_task (prompt : text) (stage : StageNode) (state : WorkflowState)
    : M W exn (option TaskSession) :=
  match task_runner sv with
  | Some run_task => run_task stage prompt state
  | None => raise (mkExn OtherException [Lit "StageRunner requires an AgentTaskRunner"] None)
  end.

Definition execute_agent_stage (stage : StageNode) (state : WorkflowState) : M W exn StageRunResult :=
  cost_before ← gets get_total_cost_usd;
  session ← run_agent_task (stage_prompt sv stage state) stage state;
  match session with
  | None =>
      mret (mkStageRunResult (sn_id stage) false [] [] 0
              (Some [Lit "AgentRunner returned no session"]) "" None)
  | Some s =>
      cost_after ← gets get_total_cost_usd;
      let completed := String.eqb (ts_status s) "completed" in
      mret (mkStageRunResult (sn_id stage) completed
              (if String.eqb (ts_output_text s) "" then [] else [ts_output_text s]) []
              (qmax (cost_after - cost_before)%Q 0)
              (if completed then None else Some [Lit "Session status: "; Lit (ts_status s)])
              (ts_output_text s) (ts_run_id s))
  end.

(** The retry loop with [left] attempts to go after this one. *)
Fixpoint run_from (left : nat) (attempt : Z) (stage : StageNode) (state : WorkflowState) (w : W)
    : StageRunResult * W :=
  match execute_agent_stage stage state w with
  | (Ret r, w') => (r, w')
  | (Raise e, w') =>
      match left with
      | O => (mkStageRunResult (sn_id stage) false [] [] 0 (Some (exn_msg e)) "" None, w')
      | S left' => run_from left' (attempt + 1) stage state (sleep sv (2 ^ attempt) w')
      end
  end.

Definition run (stage : StageNode) (state : WorkflowState) : W -> StageRunResult * W :=
  run_from MAX_RETRIES 0 stage state.

Definition run_auto_gate (stage : StageNode) : M W exn GateRunResult :=
  match sn_validators stage with
  | [] => mret (mkGateRunResult (sn_id stage) true [Lit "no validators, auto-approved"])
  | _ =>
      results ← validate_all (validator sv) (sn_validators stage);
      let all_passed := forallb v_passed results in
      mret (mkGateRunResult (sn_id stage) all_passed
              (if all_passed then [Lit "All validators passed"]
               else [Lit "Validators failed: "; FRepr (failure_messages results)]))
  end.

Definition threshold_prompt (stage : StageNode) : text :=
  [Lit "Evaluate the following work output and assign a score from 0.0 to 1.0.";
   Lit "Respond with ONLY: score: <number>"; Lit "Stage: "; Lit (sn_name stage);
   Lit "Prompt: "; Lit (sn_prompt stage)].

(** [session.output_text if session else ""] *)
Definition session_text (session : option TaskSession) : string :=
  match session with Some s => ts_output_text s | None => "" end.

Definition run_threshold_gate (stage : StageNode) (state : WorkflowState) (w : W)
    : GateRunResult * W :=
  match run_agent_task (threshold_prompt stage) stage state w with
  | (Ret session, w') =>
      let score := extract_score (session_text session) in
      let approved := qle (sn_gate_threshold stage) score in
      (mkGateRunResult (sn_id stage) approved
         [Lit "Score "; FNum score; Lit (if approved then " >= threshold " else " < threshold ");
          FNum (sn_gate_threshold stage)], w')
  | (Raise e, w') =>
      (mkGateRunResult (sn_id stage) false ([Lit "Threshold gate error: "] ++ exn_msg e), w')
  end.

(** [range(max_retries + 1)] *)
Definition attempts (stage : StageNode) : nat := Z.to_nat (sn_max_retries stage + 1).

Definition gate_attempt (stage : StageNode) (state : WorkflowState) : M W exn GateRunResult :=
  if String.eqb (sn_gate_mode stage) "auto" then run_auto_gate stage
  else fun w => let (r, w') := run_threshold_gate stage state w in (Ret r, w').

Fixpoint run_gate_from (left : nat) (attempt : Z) (stage : StageNode) (state : WorkflowState)
    : M W exn GateRunResult :=
  match left with
  | O =>
      mret (mkGateRunResult (sn_id stage) false
              [Lit "GATE stage "; FInt (sn_id stage); Lit " failed after ";
               FInt (sn_max_retries stage + 1); Lit " attempts"])
  | S left' =>
      if String.eqb (sn_gate_mode stage) "auto" || String.eqb (sn_gate_mode stage) "threshold" then
        result ← gate_attempt stage state;
        if g_approved result || (sn_max_retries stage <=? attempt) then mret result
        else
          modify (sleep sv (2 ^ attempt)) ;;
          run_gate_from left' (attempt + 1) stage state
      else
        mret (mkGateRunResult (sn_id stage) false
                [Lit "GATE stage "; FInt (sn_id stage); Lit " requires manual approval"])
  end.

Definition run_gate (stage : StageNode) (state : WorkflowState) : M W exn GateRunResult :=
  run_gate_from (attempts stage) 0 stage state.

Definition decision_prompt (stage : StageNode) : text :=
  [Lit "Based on the completed stages, decide the next action."; Lit "Available outcomes: ";
   Lit (String.concat ", " (dkeys (sn_decision_outcomes stage)));
   Lit "Respond with ONE word: the chosen outcome."; Lit "Stage: "; Lit (sn_name stage);
   Lit "Context: "; Lit (sn_prompt stage)].

(** A [proceed] answer before the last attempt is asked again, with no sleep. *)
Fixpoint run_decision_from (left : nat) (attempt : Z) (stage : StageNode) (state : WorkflowState)
    (w : W) : DecisionRunResult * W :=
  match left with
  | O => (mkDecisionRunResult (sn_id stage) "proceed" None, w)
  | S left' =>
      match run_agent_task (decision_prompt stage) stage state w with
      | (Ret session, w') =>
          let outcome := parse_decision_outcome (session_text session) stage in
          if negb (String.eqb outcome "proceed") || (sn_max_retries stage <=? attempt)
          then (mkDecisionRunResult (sn_id stage) outcome (resolve_next_stage outcome stage), w')
          else run_decision_from left' (attempt + 1) stage state w'
      | (Raise e, w') =>
          if attempt <? sn_max_retries stage
          then run_decision_from left' (attempt + 1) stage state (sleep sv (2 ^ attempt) w')
          else (mkDecisionRunResult (sn_id stage) "proceed" None, w')
      end
  end.

Definition run_decision (stage : StageNode) (state : WorkflowState) : W -> DecisionRunResult * W :=
  run_decision_from (attempts stage) 0 stage state.

(** [execute_action] of [actions.py]: an unregistered name is a [LookupError]. *)
Definition run_action (stage : StageNode) (state : WorkflowState) : M W exn ActionResult :=
  match resolve_action sv (sn_uses stage) with
  | None =>
      raise (mkExn OtherException
               [Lit "workflow action "; Lit (sn_uses stage); Lit " is not registered"] None)
  | Some action => action (sn_action_config stage) state
  end.
End runner.

(** ** Facts *)

Lemma parse_decision_outcome_declared output stage :
  parse_decision_outcome output stage = "proceed" \/
  parse_decision_outcome output stage ∈ dkeys (sn_decision_outcomes stage).
Proof.
  unfold parse_decision_outcome. destruct (find _ _) eqn:E; simpl; [|auto].
  apply find_some in E as [Hin _]. right. by apply list_elem_of_In.
Qed.

Lemma take_digits_nonneg s acc n :
  0 <= acc -> let '(z, _, _) := take_digits s acc n in 0 <= z.
Proof.
  revert acc n. induction s as [|c s IH]; intros acc n Hacc; simpl; [done|].
  destruct (is_digit c) eqn:E; [|done]. apply IH.
  unfold is_digit in E. apply andb_true_iff in E as [E _]. apply N.leb_le in E.
  unfold digit_value. lia.
Qed.

Lemma match_number_nonneg s q : match_number s = Some q -> (0 <= q)%Q.
Proof.
  unfold match_number. pose proof (take_digits_nonneg s 0 0) as Hip.
  destruct (take_digits s 0 0) as [[ip n] rest]. specialize (Hip ltac:(lia)).
  assert (Hw : forall q, (if Nat.eqb n 0 then None else Some (inject_Z ip)) = Some q -> (0 <= q)%Q).
  { intros q'. destruct (Nat.eqb n 0); intros; simplify_eq. unfold Qle. simpl. lia. }
  destruct rest as [|c rest]; [apply Hw|]. destruct (Ascii.eqb c _); [|apply Hw].
  pose proof (take_digits_nonneg rest 0 0) as Hfp.
  destruct (take_digits rest 0 0) as [[fp m] r]. specialize (Hfp ltac:(lia)).
  destruct (Nat.eqb m 0); [apply Hw|]. intros; simplify_eq.
  unfold Qle, inject_Z, Qplus. simpl. nia.
Qed.

Lemma search_score_nonneg s q : search_score s = Some q -> (0 <= q)%Q.
Proof.
  induction s as [|c s IH]; cbn [search_score].
  - done.
  - destruct (after_keyword (String c s)) as [t|]; [|done].
    destruct (match_number (skip_sep t)) eqn:E; [|done].
    intros; simplify_eq. by apply match_number_nonneg in E.
Qed.

Lemma extract_score_nonneg s : (0 <= extract_score s)%Q.
Proof.
  unfold extract_score. destruct (search_score s) eqn:E; simpl; [|lra].
  by apply search_score_nonneg in E.
Qed.

Section runner_facts.
Context {W : Type} (sv : Services W).

(** The world before attempt [k] when every earlier attempt raised. *)
Fixpoint before_attempt (k : nat) (stage : StageNode) (state : WorkflowState) (w : W) : W :=
  match k with
  | O => w
  | S k' =>
      sleep sv (2 ^ Z.of_nat k')
        (snd (execute_agent_stage sv stage state (before_attempt k' stage state w)))
  end.

(** Attempt [k] raised. *)
Definition attempt_raises (stage : StageNode) (state : WorkflowState) (w : W) (k : nat) : Prop :=
  exists e, fst (execute_agent_stage sv stage state (before_attempt k stage state w)) = Raise e.

Lemma run_from_first k left stage state w :
  (forall j, (j < k)%nat -> attempt_raises stage state w j) ->
  (k <= left)%nat ->
  run_from sv left 0 stage state w
  = run_from sv (left - k) (Z.of_nat k) stage state (before_attempt k stage state w).
Proof.
  intros Hraise Hle. induction k as [|k IH]; [by rewrite Nat.sub_0_r|].
  rewrite IH by (auto with lia).
  destruct (left - k)%nat as [|m] eqn:E; [lia|]. replace (left - S k)%nat with m by lia.
  cbn [run_from]. destruct (Hraise k ltac:(lia)) as [e He].
  change (before_attempt (S k) stage state w) with
    (sleep sv (2 ^ Z.of_nat k)
       (snd (execute_agent_stage sv stage state (before_attempt k stage state w)))).
  destruct (execute_agent_stage sv stage state _) as [o w']. simpl in He |- *. subst o.
  by replace (Z.of_nat (S k)) with (Z.of_nat k + 1) by lia.
Qed.

(** The worlds in which a gate's attempts start: each follows a rejection. *)
Inductive gate_reaches (stage : StageNode) (state : WorkflowState) (w : W) : W -> Prop :=
| gate_reaches_first : gate_reaches stage state w w
| gate_reaches_retry w0 r w1 attempt :
    gate_reaches stage state w w0 ->
    gate_attempt sv stage state w0 = (Ret r, w1) -> g_approved r = false ->
    gate_reaches stage state w (sleep sv (2 ^ attempt) w1).

(** Why a gate attempt that went from [w] to [w'] approved. *)
Inductive approval_evidence (stage : StageNode) (state : WorkflowState) (w w' : W) : Prop :=
| ApprovedNoValidators :
    sn_gate_mode stage = "auto" -> sn_validators stage = [] -> w' = w ->
    approval_evidence stage state w w'
| ApprovedValidators results :
    sn_gate_mode stage = "auto" ->
    validate_all (validator sv) (sn_validators stage) w = (Ret results, w') ->
    Forall (fun r => v_passed r = true) results -> approval_evidence stage state w w'
| ApprovedScore session :
    sn_gate_mode stage = "threshold" ->
    run_agent_task sv (threshold_prompt stage) stage state w = (Ret session, w') ->
    (sn_gate_threshold stage <= extract_score (session_text session))%Q ->
    approval_evidence stage state w w'.

Lemma run_auto_gate_evidence stage state w r w' :
  sn_gate_mode stage = "auto" ->
  run_auto_gate sv stage w = (Ret r, w') -> g_approved r = true ->
  approval_evidence stage state w w'.
Proof.
  intros Hm. unfold run_auto_gate. destruct (sn_validators stage) as [|v vs] eqn:Ev.
  - intros [= <- <-] _. by apply ApprovedNoValidators.
  - rewrite <- Ev. unfold mbind, M_bind.
    destruct (validate_all _ _ w) as [[rs|e] w1] eqn:E; [|done].
    intros [= <- <-] Hall. eapply ApprovedValidators; [done|exact E|].
    apply Forall_forall. by apply forallb_spec.
Qed.

Lemma run_threshold_gate_evidence stage state w r w' :
  sn_gate_mode stage = "threshold" ->
  run_threshold_gate sv stage state w = (r, w') -> g_approved r = true ->
  approval_evidence stage state w w'.
Proof.
  intros Hm. unfold run_threshold_gate.
  destruct (run_agent_task _ _ _ _ w) as [[s|e] w1] eqn:E; intros [= <- <-]; simpl; [|done].
  intros Hle. qsimp. by eapply ApprovedScore.
Qed.

Lemma gate_attempt_evidence stage state w r w' :
  (String.eqb (sn_gate_mode stage) "auto" || String.eqb (sn_gate_mode stage) "threshold") = true ->
  gate_attempt sv stage state w = (Ret r, w') -> g_approved r = true ->
  approval_evidence stage state w w'.
Proof.
  unfold gate_attempt. destruct (String.eqb_spec (sn_gate_mode stage) "auto"); simpl.
  - intros _. by apply run_auto_gate_evidence.
  - intros Ht%String.eqb_eq. destruct (run_threshold_gate sv stage state w) as [r0 w0] eqn:E.
    intros [= -> ->] Hg. by eapply run_threshold_gate_evidence.
Qed.

Lemma run_gate_from_evidence left attempt stage state w w1 r w' :
  gate_reaches stage state w w1 ->
  run_gate_from sv left attempt stage state w1 = (Ret r, w') -> g_approved r = true ->
  exists w0, gate_reaches stage state w w0 /\ approval_evidence stage state w0 w'.
Proof.
  revert attempt w1. induction left as [|left IH]; intros attempt w1 Hreach; simpl;
    [by intros [= <- <-]|].
  destruct (String.eqb _ _ || _) eqn:Em; [|by intros [= <- <-]].
  unfold mbind, M_bind.
  destruct (gate_attempt sv stage state w1) as [[r0|e] w2] eqn:E; [|done].
  destruct (g_approved r0) eqn:Eg; simpl.
  - intros [= <- <-] _. eauto using gate_attempt_evidence.
  - destruct (sn_max_retries stage <=? attempt); [intros [= <- <-]; congruence|].
    apply IH. by eapply gate_reaches_retry.
Qed.

Lemma run_decision_from_declared left attempt stage state w :
  let r := fst (run_decision_from sv left attempt stage state w) in
  (dn_outcome r = "proceed" \/ dn_outcome r ∈ dkeys (sn_decision_outcomes stage)) /\
  (dn_next_stage r = None \/ dn_next_stage r = ds_next (spec_of stage (dn_outcome r))).
Proof.
  revert attempt w. induction left as [|left IH]; intros attempt w; simpl; [auto|].
  destruct (run_agent_task _ _ _ _ w) as [[s|e] w'].
  - destruct (negb _ || _); [|apply IH]. simpl. split; [|by right].
    apply parse_decision_outcome_declared.
  - destruct (attempt <? sn_max_retries stage); [apply IH|]. simpl. auto.
Qed.
End runner_facts.

(** ** Theorems *)

(** A stage, and services whose task runner raises on the first call and then
    answers with a score. *)
Definition sample_stage (kind : StageKind) (mode : string) : StageNode :=
  mkStageNode 7 "review" kind "" "" [1] [] "" [] [] mode (4 # 5) None
    [("refine", mkDecisionSpec None None None false (Some 1))] 0 1 "fail".

Definition sample_services : Services nat :=
  mkServices
    (Some (fun _ _ _ w =>
       (if Nat.eqb w 0 then Raise (mkExn OtherException [Lit "boom"] None)
        else Ret (Some (mkTaskSession "Score: 0.85, refine" "completed" None)), S w)))
    None (fun _ _ => []) (mkContractValidator [] (fun _ w => (Raise (mkExn OtherException [] None), w))
                            (fun _ w => (Raise (mkExn OtherException [] None), w)))
    (fun _ => None) (fun _ w => w).

Definition sample_state : WorkflowState := new_state "wf" "1.0" "t".

(** C12: [StageRunner.run] always returns.  With [k] the first attempt that
    does not raise, [k <= 2], its answer is returned as it is; when all three
    attempts raise, the result is a failure carrying the last message. *)
Theorem stage_run_spec {W : Type} (sv : Services W) (stage : StageNode) (state : WorkflowState)
    (w : W) (k : nat) :
  (k <= MAX_RETRIES)%nat ->
  (forall j, (j < k)%nat -> attempt_raises sv stage state w j) ->
  match execute_agent_stage sv stage state (before_attempt sv k stage state w) with
  | (Ret r, w') => run sv stage state w = (r, w')
  | (Raise e, w') =>
      k = MAX_RETRIES ->
      run sv stage state w
      = (mkStageRunResult (sn_id stage) false [] [] 0 (Some (exn_msg e)) "" None, w')
  end.
Proof.
  intros Hk Hraise. unfold run. rewrite (run_from_first sv k) by done.
  destruct (execute_agent_stage _ _ _ _) as [[r|e] w'] eqn:E.
  - destruct (MAX_RETRIES - k)%nat; cbn [run_from]; by rewrite E.
  - intros ->. rewrite Nat.sub_diag. cbn [run_from]. by rewrite E.
Qed.

Lemma stage_run_spec_witness :
  run sample_services (sample_stage AGENT "") sample_state 0%nat
  = (mkStageRunResult 7 true ["Score: 0.85, refine"] [] 0 None "Score: 0.85, refine" None, 2%nat).
Proof.
  apply (stage_run_spec sample_services (sample_stage AGENT "") sample_state 0%nat 1);
    [unfold MAX_RETRIES; lia|].
  intros j Hj. destruct j; [|lia]. eexists. reflexivity.
Defined.

(** A gate is approved only on evidence: in auto mode there are no
    validators or a run of all of them passed, in threshold mode an agent
    answer scored at least the threshold.  A manual gate is never approved. *)
Theorem gate_approved_sound {W : Type} (sv : Services W) (stage : StageNode)
    (state : WorkflowState) (w w' : W) (r : GateRunResult) :
  run_gate sv stage state w = (Ret r, w') -> g_approved r = true ->
  exists w0, gate_reaches sv stage state w w0 /\ approval_evidence sv stage state w0 w'.
Proof. apply run_gate_from_evidence, gate_reaches_first. Qed.

Lemma gate_approved_sound_witness :
  exists w0, gate_reaches sample_services (sample_stage GATE "threshold") sample_state 0%nat w0 /\
             approval_evidence sample_services (sample_stage GATE "threshold") sample_state w0 2%nat.
Proof.
  eapply (gate_approved_sound sample_services (sample_stage GATE "threshold") sample_state
            0%nat 2%nat); [vm_compute; reflexivity|reflexivity].
Defined.

(** A decision stage always answers: the outcome is one the stage declares
    or [proceed], and a next stage is the one declared for that outcome. *)
Theorem run_decision_declared {W : Type} (sv : Services W) (stage : StageNode)
    (state : WorkflowState) (w : W) :
  let r := fst (run_decision sv stage state w) in
  (dn_outcome r = "proceed" \/ dn_outcome r ∈ dkeys (sn_decision_outcomes stage)) /\
  (dn_next_stage r = None \/ dn_next_stage r = ds_next (spec_of stage (dn_outcome r))).
Proof. apply run_decision_from_declared. Qed.
