(* ===== verification/Checkpoint.v ===== *)
(** * Checkpoints ([src/orchestratord/workflow_engine/checkpoint.py])

    The checkpoint record, its JSON form and back, the atomic save (temporary
    file, then rename) with a fault at any point, loading, and the restored
    workflow state.  A JSON document is a [pyval]; [json.dumps(default=str)]
    followed by [json.loads] is [jsonify], where [str] of a live object is the
    parameter [str_obj].  A field of the wrong JSON type is read as its
    default, except where the source converts with [int] or iterates, which
    raises. *)

From Stdlib Require Import Decimal DecimalString DecimalZ.
From S2P Require Import Prelude Errors WorkflowState Decision.

Open Scope string_scope.
Open Scope list_scope.
Open Scope Z_scope.

(** ** Integers as JSON keys *)

(** [str(k)] and [int(s)] on decimal integers. *)
Definition str_int (z : Z) : string := NilZero.string_of_int (Z.to_int z).
Definition int_of_str (s : string) : option Z := Z.of_int <$> NilZero.int_of_string s.

(** ** JSON *)

Section json.
Variable str_obj : positive -> string.

(** [json.loads(json.dumps(v, default=str))] *)
Fixpoint jsonify (v : pyval) : pyval :=
  match v with
  | PObj i => PStr (str_obj i)
  | PList l => PList (map jsonify l)
  | PDict d => PDict (map (fun kv => (fst kv, jsonify (snd kv))) d)
  | _ => v
  end.

Definition jsonify_dict (d : dict string pyval) : dict string pyval :=
  map (fun kv => (fst kv, jsonify (snd kv))) d.
End json.

(** [int(v)] *)
Definition as_int (v : pyval) : outcome exn Z :=
  match v with
  | PInt z => Ret z
  | PBool b => Ret (if b then 1 else 0)
  | PFloat q => Ret (Z.quot (Qnum q) (Zpos (Qden q)))
  | PStr s => match int_of_str s with
              | Some z => Ret z
              | None => Raise (mkExn OtherException [Lit "invalid literal for int()"] None)
              end
  | _ => Raise (mkExn OtherException [Lit "int() argument"] None)
  end.

Definition as_list (v : pyval) : outcome exn (list pyval) :=
  match v with
  | PList l => Ret l
  | _ => Raise (mkExn OtherException [Lit "not iterable"] None)
  end.

Definition as_dict (v : pyval) : outcome exn (dict string pyval) :=
  match v with
  | PDict d => Ret d
  | _ => Raise (mkExn OtherException [Lit "object has no attribute"] None)
  end.

Definition opt_str (o : option string) : pyval :=
  match o with Some s => PStr s | None => PNone end.
Definition opt_text (o : option text) : pyval :=
  match o with Some t => PText t | None => PNone end.
Definition opt_dict (o : option (dict string pyval)) : pyval :=
  match o with Some d => PDict d | None => PNone end.

Definition str_items (v : option pyval) : list string :=
  match v with
  | Some (PList l) => omap (fun x => match x with PStr s => Some s | _ => None end) l
  | _ => []
  end.

Definition str_entries (v : option pyval) : dict string string :=
  match v with
  | Some (PDict d) =>
      omap (fun kv => match snd kv with PStr s => Some (fst kv, s) | _ => None end) d
  | _ => []
  end.

Definition get_opt_str (k : string) (d : dict string pyval) : option string :=
  match dget k d with Some (PStr s) => Some s | _ => None end.
Definition get_text (k : string) (d : dict string pyval) : option text :=
  match dget k d with
  | Some (PText t) => Some t
  | Some (PStr s) => Some [Lit s]
  | _ => None
  end.
Definition get_float (k : string) (d : dict string pyval) : Q :=
  match dget k d with
  | Some (PFloat q) => q
  | Some (PInt z) => inject_Z z
  | _ => 0
  end.
Definition get_dict (k : string) (d : dict string pyval) : dict string pyval :=
  match dget k d with Some (PDict x) => x | _ => [] end.
Definition get_list (k : string) (d : dict string pyval) : list pyval :=
  match dget k d with Some (PList x) => x | _ => [] end.

(** [a or b] on optional dictionaries: an empty one is falsy. *)
Definition dict_or (a b : option (dict string pyval)) : option (dict string pyval) :=
  match a with Some (_ :: _) => a | _ => b end.

(** ** The checkpoint *)

Definition CHECKPOINT_SCHEMA_VERSION : Z := 1.

Record Checkpoint := mkCheckpoint {
  ck_workflow_name : string;
  ck_workflow_version : string;
  ck_current_stage : Z;
  ck_completed_stages : list Z;
  ck_stage_results : dict Z pyval;
  ck_decision_history : list pyval;
  ck_cost_accumulated_usd : Q;
  ck_started_at : string;
  ck_last_checkpoint : string;
  ck_metadata : dict string pyval;
  ck_schema_version : Z;
  ck_workflow_state_metadata : dict string pyval;
  ck_rollback_events : list pyval;
  ck_run_context : option (dict string pyval);
  ck_issue_context : option (dict string pyval);
  ck_finished_at : option string;
  ck_conversation_id : option string;
}.

(** One stage entry of [Checkpoint.to_dict]. *)
Definition entry_to_dict (v : dict string pyval) : pyval :=
  PDict [("status", default (PStr "unknown") (dget "status" v));
         ("outputs", default (PList []) (dget "outputs" v));
         ("artifacts", default (PDict []) (dget "artifacts" v));
         ("error", default PNone (dget "error" v));
         ("cost_usd", default (PFloat 0) (dget "cost_usd" v));
         ("duration_seconds", default (PFloat 0) (dget "duration_seconds" v));
         ("timestamp", default (PStr "") (dget "timestamp" v))].

Definition as_entry (v : pyval) : dict string pyval :=
  match v with PDict d => d | _ => [] end.

Definition ckpt_to_dict (c : Checkpoint) : dict string pyval :=
  [("workflow_name", PStr (ck_workflow_name c));
   ("workflow_version", PStr (ck_workflow_version c));
   ("current_stage", PInt (ck_current_stage c));
   ("completed_stages", PList (map PInt (ck_completed_stages c)));
   ("stage_results",
    PDict (map (fun kv => (str_int (fst kv), entry_to_dict (as_entry (snd kv)))) (ck_stage_results c)));
   ("decision_history", PList (ck_decision_history c));
   ("cost_accumulated_usd", PFloat (ck_cost_accumulated_usd c));
   ("started_at", PStr (ck_started_at c));
   ("last_checkpoint", PStr (ck_last_checkpoint c));
   ("metadata", PDict (ck_metadata c));
   ("schema_version", PInt (ck_schema_version c));
   ("workflow_state_metadata", PDict (ck_workflow_state_metadata c));
   ("rollback_events", PList (ck_rollback_events c));
   ("run_context", opt_dict (ck_run_context c));
   ("issue_context", opt_dict (ck_issue_context c));
   ("finished_at", opt_str (ck_finished_at c));
   ("conversation_id", opt_str (ck_conversation_id c))].

(** A context of the JSON document, made dictionary-shaped. *)
Definition norm_context (v : pyval) : option (dict string pyval) :=
  match v with
  | PNone => None
  | PDict d => Some d
  | v => Some [("_raw", v)]
  end.

Definition int_key (kv : string * pyval) : outcome exn (Z * pyval) :=
  match int_of_str (fst kv) with
  | Some z => Ret (z, snd kv)
  | None => Raise (mkExn OtherException [Lit "invalid literal for int()"] None)
  end.

Definition ckpt_from_dict (data : dict string pyval) : outcome exn Checkpoint :=
  schema_version ← as_int (default (PInt 1) (dget "schema_version" data));
  if CHECKPOINT_SCHEMA_VERSION <? schema_version then
    Raise (mkExn CheckpointError
             [Lit "Unsupported checkpoint schema version: "; FInt schema_version] None)
  else
    raw_results ← as_dict (default (PDict []) (dget "stage_results" data));
    entries ← map_outcome int_key raw_results;
    let stage_results := fold_left (fun d kv => dset (fst kv) (snd kv) d) entries [] in
    let run_context := default (default PNone (dget "issue_context" data)) (dget "run_context" data) in
    let issue_context := default run_context (dget "issue_context" data) in
    current ← as_int (default (PInt 0) (dget "current_stage" data));
    raw_completed ← as_list (default (PList []) (dget "completed_stages" data));
    completed ← map_outcome as_int raw_completed;
    Ret (mkCheckpoint (get_str "workflow_name" data)
           (default "1.0" (get_opt_str "workflow_version" data))
           current completed stage_results (get_list "decision_history" data)
           (get_float "cost_accumulated_usd" data) (get_str "started_at" data)
           (get_str "last_checkpoint" data) (get_dict "metadata" data) schema_version
           (get_dict "workflow_state_metadata" data) (get_list "rollback_events" data)
           (norm_context run_context) (norm_context issue_context)
           (get_opt_str "finished_at" data) (get_opt_str "conversation_id" data)).

(** ** Saving *)

(** [_serialize_run_context] *)
Definition keep_context_item (kv : string * pyval) : bool :=
  negb (String.prefix "_" (fst kv)) && negb (String.eqb (fst kv) "task") && jsonable (snd kv).

Definition serialize_run_context (ctx : option (dict string pyval)) : option (dict string pyval) :=
  List.filter keep_context_item <$> ctx.

Definition result_to_dict (r : StageResult) : dict string pyval :=
  [("status", PStr (status_value (r_status r)));
   ("outputs", PList (map PStr (r_outputs r)));
   ("artifacts", PDict (map (fun kv => (fst kv, PStr (snd kv))) (r_artifacts r)));
   ("error", opt_text (r_error r));
   ("cost_usd", PFloat (r_cost_usd r));
   ("duration_seconds", PFloat (r_duration_seconds r));
   ("timestamp", PStr (r_timestamp r))].

Definition event_to_dict (e : RollbackEvent) : pyval :=
  PDict [("from_stage", PInt (rb_from_stage e)); ("to_stage", PInt (rb_to_stage e));
         ("reason", PStr (rb_reason e)); ("timestamp", PStr (rb_timestamp e))].

(** The [Checkpoint] that [CheckpointManager.save] builds. *)
Definition checkpoint_of (s : WorkflowState) (history : option (list (dict string pyval)))
    (ts : string) : Checkpoint :=
  let ctx := serialize_run_context (dict_or (run_context s) (issue_context s)) in
  mkCheckpoint (workflow_name s) (workflow_version s) (current_stage s) (completed_stages s)
    (map (fun kv => (fst kv, PDict (result_to_dict (snd kv)))) (stage_results s))
    (map PDict (default [] history)) (cost_accumulated_usd s) (started_at s) ts (metadata s)
    CHECKPOINT_SCHEMA_VERSION (metadata s) (map event_to_dict (rollback_events s))
    ctx ctx (finished_at s) (conversation_id s).

(** A file holds a JSON document or bytes that are not one. *)
Inductive file_content := Json (v : pyval) | Garbage.

(** The run directory: [checkpoint.json] and [checkpoint.tmp]. *)
Record CkptDir := mkCkptDir {
  ck_file : option file_content;
  ck_tmp : option file_content;
}.

(** Where a save may fail: encoding, in the middle of the write, or at the
    rename. *)
Inductive io_fault := NoFault | FailEncode | FailWrite | FailReplace.

Section manager.
Variable str_obj : positive -> string.

Definition save (fault : io_fault) (s : WorkflowState) (history : option (list (dict string pyval)))
    (ts : string) (d : CkptDir) : outcome exn Checkpoint * CkptDir :=
  let checkpoint := checkpoint_of s history ts in
  let json_text := Json (jsonify str_obj (PDict (ckpt_to_dict checkpoint))) in
  let failed := Raise (mkExn CheckpointError [Lit "Failed to save checkpoint"] None) in
  match fault with
  | FailEncode => (failed, d)
  | FailWrite => (failed, mkCkptDir (ck_file d) (Some Garbage))
  | FailReplace => (failed, mkCkptDir (ck_file d) (Some json_text))
  | NoFault => (Ret checkpoint, mkCkptDir (Some json_text) None)
  end.

Definition load (d : CkptDir) : outcome exn Checkpoint :=
  match ck_file d with
  | None => Raise (mkExn CheckpointError [Lit "Checkpoint file not found"] None)
  | Some Garbage => Raise (mkExn CheckpointError [Lit "Invalid checkpoint JSON"] None)
  | Some (Json v) =>
      match data ← as_dict v; ckpt_from_dict data with
      | Ret c => Ret c
      | Raise e => Raise (mkExn CheckpointError ([Lit "Failed to load checkpoint: "] ++ exn_msg e) None)
      end
  end.
End manager.

Definition ckpt_exists (d : CkptDir) : bool := is_some (ck_file d).

Definition ckpt_delete (d : CkptDir) : CkptDir := mkCkptDir None (ck_tmp d).

(** ** Restoring *)

Definition restore_result (sid : Z) (sr : dict string pyval) : StageResult :=
  let status :=
    default COMPLETED (status_of_value (default "completed" (get_opt_str "status" sr))) in
  mkStageResult sid status (str_items (dget "outputs" sr)) (str_entries (dget "artifacts" sr))
    (get_text "error" sr) (get_float "cost_usd" sr) (get_float "duration_seconds" sr)
    None None None None (get_str "timestamp" sr).

Definition event_from_dict (v : pyval) : RollbackEvent :=
  let d := as_entry v in
  mkRollbackEvent (get_int "from_stage" d) (get_int "to_stage" d) (get_str "reason" d)
    (get_str "timestamp" d).

Definition restore_entry (s : WorkflowState) (kv : Z * dict string pyval) : WorkflowState :=
  let r := restore_result (fst kv) (snd kv) in
  set_stage_status (fst kv) (r_status r) (set_results (dset (fst kv) r (stage_results s)) s).

Definition entry_dict (kv : Z * pyval) : outcome exn (Z * dict string pyval) :=
  d ← as_dict (snd kv); Ret (fst kv, d).

Definition restore_state (c : Checkpoint) : outcome exn WorkflowState :=
  entries ← map_outcome entry_dict (ck_stage_results c);
  let ctx := dict_or (ck_run_context c) (ck_issue_context c) in
  let s0 :=
    mkWorkflowState (ck_workflow_name c)
      (str_or (ck_conversation_id c) (get_opt_str "conversation_id" (default [] ctx)))
      (ck_workflow_version c) (ck_current_stage c) (ck_completed_stages c) [] []
      (ck_cost_accumulated_usd c) (ck_started_at c) (ck_finished_at c)
      (ck_workflow_state_metadata c) (map event_from_dict (ck_rollback_events c)) ctx ctx
      (Some (from_dict_list (map as_entry (ck_decision_history c)))) in
  Ret (fold_left restore_entry entries s0).

(** ** Facts *)

Lemma int_of_str_int z : int_of_str (str_int z) = Some z.
Proof.
  unfold int_of_str, str_int. rewrite NilZero.isi.
  - simpl. by rewrite DecimalZ.of_to.
  - destruct z as [|p|p]; simpl; [done| |done].
    intros H. injection H as H. by apply (DecimalPos.Unsigned.to_uint_nonnil p).
  - destruct z as [|p|p]; simpl; [done|done|].
    intros H. injection H as H. by apply (DecimalPos.Unsigned.to_uint_nonnil p).
Qed.

Section json_facts.
Variable str_obj : positive -> string.

Lemma jsonify_id v : jsonable v = true -> jsonify str_obj v = v.
Proof.
  induction v as [| | | | | |l IH|d IH|] using pyval_nested_ind; simpl; try done.
  - intros Hl. f_equal. induction IH as [|x l Hx _ IHl]; simpl in *; [done|].
    apply andb_true_iff in Hl as [? ?]. f_equal; auto.
  - intros Hd. f_equal. induction IH as [|[k x] d Hx _ IHd]; simpl in *; [done|].
    apply andb_true_iff in Hd as [? ?]. f_equal; [f_equal|]; auto.
Qed.

Lemma jsonify_dict_id d :
  forallb (fun kv => jsonable (snd kv)) d = true -> jsonify_dict str_obj d = d.
Proof.
  intros H. pose proof (jsonify_id (PDict d) H) as E. simpl in E. by injection E.
Qed.

Lemma jsonify_all_id l : forallb jsonable l = true -> map (jsonify str_obj) l = l.
Proof.
  intros H. pose proof (jsonify_id (PList l) H) as E. simpl in E. by injection E.
Qed.
End json_facts.

Lemma forallb_map_true {A B} (f : B -> bool) (g : A -> B) l :
  (forall x, f (g x) = true) -> forallb f (map g l) = true.
Proof. intros H. induction l as [|x l IH]; simpl; [done|]. by rewrite H, IH. Qed.

Lemma map_outcome_ret {E A B C} (f : B -> outcome E C) (g : A -> B) (h : A -> C) l :
  (forall x, f (g x) = Ret (h x)) -> map_outcome f (map g l) = Ret (map h l).
Proof.
  intros H. induction l as [|x l IH]; simpl; [done|].
  unfold mbind, outcome_bind in *. by rewrite H, IH.
Qed.

Lemma omap_map_some {A B C} (f : B -> option C) (g : A -> B) (h : A -> C) l :
  (forall x, f (g x) = Some (h x)) -> omap f (map g l) = map h l.
Proof.
  intros H. induction l as [|x l IH]; simpl; [done|]. rewrite H. f_equal. exact IH.
Qed.

Lemma result_to_dict_jsonable r : jsonable (PDict (result_to_dict r)) = true.
Proof.
  simpl. rewrite !forallb_map_true by done. destruct (r_error r); done.
Qed.

Lemma entry_to_dict_result r : entry_to_dict (result_to_dict r) = PDict (result_to_dict r).
Proof. done. Qed.

Lemma serialize_run_context_jsonable ctx d :
  serialize_run_context ctx = Some d -> forallb (fun kv => jsonable (snd kv)) d = true.
Proof.
  destruct ctx as [c|]; simpl; [|done]. intros [= <-]. apply forallb_forall.
  intros kv [_ Hk]%filter_In. unfold keep_context_item in Hk.
  by apply andb_true_iff in Hk as [_ ?].
Qed.

Lemma jsonify_opt_dict str_obj ctx :
  jsonify str_obj (opt_dict (serialize_run_context ctx)) = opt_dict (serialize_run_context ctx).
Proof.
  apply jsonify_id. destruct (serialize_run_context ctx) as [d|] eqn:E; [|done]. simpl.
  by apply serialize_run_context_jsonable with ctx.
Qed.

Lemma norm_opt_dict o : norm_context (opt_dict o) = o.
Proof. by destruct o. Qed.

(** The checkpoint as it comes back from the file: live objects of the
    metadata have become strings. *)
Definition reloaded (str_obj : positive -> string) (c : Checkpoint) : Checkpoint :=
  mkCheckpoint (ck_workflow_name c) (ck_workflow_version c) (ck_current_stage c)
    (ck_completed_stages c) (ck_stage_results c) (ck_decision_history c)
    (ck_cost_accumulated_usd c) (ck_started_at c) (ck_last_checkpoint c)
    (jsonify_dict str_obj (ck_metadata c)) (ck_schema_version c)
    (jsonify_dict str_obj (ck_workflow_state_metadata c)) (ck_rollback_events c)
    (ck_run_context c) (ck_issue_context c) (ck_finished_at c) (ck_conversation_id c).

(** A decision history in checkpoint form. *)
Lemma history_jsonable h : forallb jsonable (map PDict (to_dict h)) = true.
Proof.
  unfold to_dict. rewrite map_map. apply forallb_map_true. intros r. simpl.
  by destruct (dr_next_stage r).
Qed.

Lemma entries_fold (l : dict Z StageResult) :
  NoDup (map fst l) ->
  fold_left (fun d kv => dset (fst kv) (snd kv) d)
    (map (fun kv : Z * StageResult => (fst kv, PDict (result_to_dict (snd kv)))) l) []
  = map (fun kv => (fst kv, PDict (result_to_dict (snd kv)))) l.
Proof.
  intros Hnd.
  rewrite (fold_dset_fresh fst snd).
  - simpl. rewrite map_map. by apply map_ext.
  - simpl. by rewrite map_map.
Qed.

(** Reading a document that has every field. *)
Lemma ckpt_from_dict_full name ver cur comp results hist cost started last meta smeta events
    (ctx ictx : option (dict string pyval)) fin conv :
  ckpt_from_dict
    [("workflow_name", PStr name); ("workflow_version", PStr ver); ("current_stage", PInt cur);
     ("completed_stages", PList comp); ("stage_results", PDict results);
     ("decision_history", PList hist); ("cost_accumulated_usd", PFloat cost);
     ("started_at", PStr started); ("last_checkpoint", PStr last); ("metadata", PDict meta);
     ("schema_version", PInt 1); ("workflow_state_metadata", PDict smeta);
     ("rollback_events", PList events); ("run_context", opt_dict ctx);
     ("issue_context", opt_dict ictx); ("finished_at", opt_str fin);
     ("conversation_id", opt_str conv)]
  = (entries ← map_outcome int_key results;
     completed ← map_outcome as_int comp;
     Ret (mkCheckpoint name ver cur completed
            (fold_left (fun d kv => dset (fst kv) (snd kv) d) entries []) hist cost started last
            meta 1 smeta events ctx ictx fin conv)).
Proof.
  unfold mbind, outcome_bind.
  transitivity
    (match map_outcome int_key results with
     | Ret entries =>
         match map_outcome as_int comp with
         | Ret completed =>
             Ret (mkCheckpoint name ver cur completed
                    (fold_left (fun d kv => dset (fst kv) (snd kv) d) entries []) hist cost started
                    last meta 1 smeta events (norm_context (opt_dict ctx))
                    (norm_context (opt_dict ictx))
                    (match opt_str fin with PStr x => Some x | _ => None end)
                    (match opt_str conv with PStr x => Some x | _ => None end))
         | Raise e => Raise e
         end
     | Raise e => Raise e
     end).
  - reflexivity.
  - rewrite !norm_opt_dict. by destruct fin, conv.
Qed.

Lemma from_dict_to_dict str_obj s h ts :
  dict_wf (stage_results s) ->
  ckpt_from_dict (jsonify_dict str_obj (ckpt_to_dict (checkpoint_of s (Some (to_dict h)) ts)))
  = Ret (reloaded str_obj (checkpoint_of s (Some (to_dict h)) ts)).
Proof.
  intros Hwf. unfold ckpt_to_dict, jsonify_dict.
  set (c := checkpoint_of s (Some (to_dict h)) ts). cbn [map fst snd].
  assert (forall o, jsonify str_obj (opt_str o) = opt_str o) as Hopt by (by intros []).
  assert (Hres : jsonify str_obj (PDict (map (fun kv => (str_int (fst kv), entry_to_dict (as_entry (snd kv))))
            (ck_stage_results c)))
          = PDict (map (fun kv => (str_int (fst kv), PDict (result_to_dict (snd kv))))
                     (stage_results s))).
  { simpl. rewrite !map_map. f_equal. apply map_ext. intros kv. simpl fst. f_equal.
    apply jsonify_id, result_to_dict_jsonable. }
  rewrite Hres, !Hopt.
  assert (Hctx : jsonify str_obj (opt_dict (ck_run_context c)) = opt_dict (ck_run_context c))
    by apply jsonify_opt_dict.
  assert (Hictx : jsonify str_obj (opt_dict (ck_issue_context c)) = opt_dict (ck_issue_context c))
    by apply jsonify_opt_dict.
  rewrite Hctx, Hictx.
  rewrite (jsonify_id str_obj (PList (ck_decision_history c))) by apply history_jsonable.
  rewrite (jsonify_id str_obj (PList (ck_rollback_events c))) by (simpl; by apply forallb_map_true).
  rewrite (jsonify_id str_obj (PList (map PInt (ck_completed_stages c))))
    by (simpl; by apply forallb_map_true).
  cbn [jsonify]. rewrite ckpt_from_dict_full.
  rewrite (map_outcome_ret int_key _ (fun kv => (fst kv, PDict (result_to_dict (snd kv)))))
    by (intros kv; unfold int_key; simpl; by rewrite int_of_str_int).
  rewrite (map_outcome_ret as_int PInt (fun z => z)) by done.
  unfold mbind, outcome_bind. by rewrite entries_fold, map_id.
Qed.

(** *** Restoring *)

Lemma restore_result_to_dict sid r :
  restore_result sid (result_to_dict r)
  = mkStageResult sid (r_status r) (r_outputs r) (r_artifacts r) (r_error r) (r_cost_usd r)
      (r_duration_seconds r) None None None None (r_timestamp r).
Proof.
  unfold restore_result.
  transitivity
    (mkStageResult sid (default COMPLETED (status_of_value (status_value (r_status r))))
       (str_items (Some (PList (map PStr (r_outputs r)))))
       (str_entries (Some (PDict (map (fun kv => (fst kv, PStr (snd kv))) (r_artifacts r)))))
       (match opt_text (r_error r) with PText t => Some t | PStr x => Some [Lit x] | _ => None end)
       (r_cost_usd r) (r_duration_seconds r) None None None None (r_timestamp r)).
  - reflexivity.
  - rewrite status_of_value_of_status. unfold str_items, str_entries.
    rewrite (omap_map_some _ PStr (fun x => x)) by done.
    rewrite (omap_map_some _ _ (fun kv => kv)) by (by intros []).
    rewrite !map_id. by destruct (r_error r).
Qed.

(** What a restored result keeps: no decision, no run or conversation id. *)
Definition restored_result (kv : Z * StageResult) : Z * StageResult :=
  let (sid, r) := kv in
  (sid, mkStageResult sid (r_status r) (r_outputs r) (r_artifacts r) (r_error r) (r_cost_usd r)
          (r_duration_seconds r) None None None None (r_timestamp r)).

(** The state a save, a load and a restore give back. *)
Definition restored (str_obj : positive -> string) (h : DecisionHistory) (s : WorkflowState)
    : WorkflowState :=
  let ctx := serialize_run_context (dict_or (run_context s) (issue_context s)) in
  mkWorkflowState (workflow_name s)
    (str_or (conversation_id s) (get_opt_str "conversation_id" (default [] ctx)))
    (workflow_version s) (current_stage s) (completed_stages s)
    (map restored_result (stage_results s))
    (map (fun kv => (fst kv, r_status (snd kv))) (stage_results s))
    (cost_accumulated_usd s) (started_at s) (finished_at s) (jsonify_dict str_obj (metadata s))
    (rollback_events s) ctx ctx (Some h).

Lemma dict_or_same o : dict_or o o = o.
Proof. by destruct o as [[|]|]. Qed.

Lemma fold_restore_entry (l : dict Z StageResult) s :
  NoDup (dkeys (stage_results s) ++ map fst l) ->
  dkeys (stage_statuses s) = dkeys (stage_results s) ->
  fold_left restore_entry (map (fun kv => (fst kv, result_to_dict (snd kv))) l) s
  = set_statuses (stage_statuses s ++ map (fun kv => (fst kv, r_status (snd kv))) l)
      (set_results (stage_results s ++ map restored_result l) s).
Proof.
  revert s. induction l as [|[sid r] l IH]; intros s Hnd Hk; simpl.
  - rewrite !app_nil_r. by destruct s.
  - assert (Hfresh : sid ∉ dkeys (stage_results s)).
    { simpl in Hnd. apply NoDup_app in Hnd as (_ & Hd & _). intros Hin. apply (Hd sid Hin).
      apply elem_of_cons. auto. }
    unfold restore_entry at 2. cbn [fst snd]. rewrite restore_result_to_dict. cbn [r_status].
    unfold set_stage_status. cbn [stage_statuses set_results].
    rewrite !dset_fresh by (apply dget_None_keys; by rewrite ?Hk).
    rewrite IH; cbn [stage_results stage_statuses set_statuses set_results].
    + by rewrite <- !app_assoc.
    + unfold dkeys in *. rewrite map_app, <- app_assoc. exact Hnd.
    + unfold dkeys in *. rewrite !map_app, Hk. done.
Qed.

Lemma restore_reloaded str_obj s h ts :
  dict_wf (stage_results s) ->
  restore_state (reloaded str_obj (checkpoint_of s (Some (to_dict h)) ts))
  = Ret (restored str_obj h s).
Proof.
  intros Hwf. unfold restore_state. cbn -[dict_or serialize_run_context to_dict from_dict_list].
  rewrite (map_outcome_ret entry_dict _ (fun kv => (fst kv, result_to_dict (snd kv)))) by done.
  unfold mbind, outcome_bind. rewrite dict_or_same, fold_restore_entry; [|done..].
  assert (Hev : map event_from_dict (map event_to_dict (rollback_events s)) = rollback_events s).
  { rewrite map_map. rewrite <- (map_id (rollback_events s)) at 2. apply map_ext. by intros []. }
  assert (Hh : from_dict_list (map as_entry (map PDict (to_dict h))) = h).
  { rewrite map_map, map_id. apply history_roundtrip. }
  rewrite Hev, Hh. done.
Qed.

(** ** Theorems *)

(** C7: what a save leaves on disk.  A save that returns makes [load] return
    the saved checkpoint (live metadata objects as strings); a save that fails
    anywhere, even in the middle of a write, raises a [CheckpointError] and
    leaves what [load] returns unchanged. *)
Theorem save_atomic (str_obj : positive -> string) (fault : io_fault) (s : WorkflowState)
    (h : DecisionHistory) (ts : string) (d : CkptDir) :
  dict_wf (stage_results s) ->
  match save str_obj fault s (Some (to_dict h)) ts d with
  | (Ret c, d') => load d' = Ret (reloaded str_obj c)
  | (Raise e, d') => exn_cls e = CheckpointError /\ load d' = load d
  end.
Proof.
  intros Hwf. destruct fault; try done.
  unfold save, load. cbn [ck_file]. unfold mbind at 1, outcome_bind at 1.
  change (jsonify str_obj (PDict ?d)) with (PDict (jsonify_dict str_obj d)).
  cbn [as_dict]. by rewrite from_dict_to_dict.
Qed.

(** A run interrupted after its first stage. *)
Definition saved_state : WorkflowState :=
  mark_stage_completed 1 (mkStageResult 1 COMPLETED ["ok"] [("plan", "plan.md")] None (1 # 2) 3
                            None None (Some "run-1") None "t1")
    (mkWorkflowState "wf" None "1.0" 1 [] [] [] 0 "t0" None [("n", PInt 1)] []
       (Some [("task", PObj 1); ("conversation_id", PStr "c"); ("_x", PInt 1)]) None None).

Lemma saved_state_wf : dict_wf (stage_results saved_state).
Proof. apply (bool_decide_unpack _). vm_compute. exact I. Qed.

Lemma save_atomic_witness :
  load (snd (save (fun _ => "<obj>") FailWrite saved_state (Some (to_dict [])) "t2"
               (mkCkptDir None None))) = load (mkCkptDir None None).
Proof.
  exact (proj2 (save_atomic (fun _ => "<obj>") FailWrite saved_state [] "t2"
                  (mkCkptDir None None) saved_state_wf)).
Defined.

(** C6: saving a state with its decision history to a healthy disk, loading and
    restoring it gives exactly the state [restored], for a state whose results
    have distinct stage ids. Name, version, current and completed stages, cost,
    times, rollback events and history come back as they were, and of each result
    the stage, status, outputs, artifacts, error, cost, duration and timestamp.
    The rest changes as [restored] says: results lose their decision, next stage,
    run id and conversation; the statuses are those of the results, so that the
    status of a stage without a result is dropped; issue context and run context
    both become the serialized one of the two; an empty conversation id is filled
    from it; and the metadata is what JSON makes of it. *)
Theorem checkpoint_roundtrip (str_obj : positive -> string) (s : WorkflowState)
    (h : DecisionHistory) (ts : string) (d : CkptDir) :
  dict_wf (stage_results s) ->
  (c ← load (snd (save str_obj NoFault s (Some (to_dict h)) ts d)); restore_state c)
  = Ret (restored str_obj h s).
Proof.
  intros Hwf. unfold save, load. cbn [ck_file snd].
  unfold mbind, outcome_bind.
  change (jsonify str_obj (PDict ?d)) with (PDict (jsonify_dict str_obj d)).
  cbn [as_dict]. rewrite from_dict_to_dict by done. by apply restore_reloaded.
Qed.

Lemma checkpoint_roundtrip_witness :
  (c ← load (snd (save (fun _ => "<obj>") NoFault saved_state
                    (Some (to_dict [mkDecisionRecord 2 "refine" "t" (Some 1)])) "t2"
                    (mkCkptDir None None))); restore_state c)
  = Ret (restored (fun _ => "<obj>") [mkDecisionRecord 2 "refine" "t" (Some 1)] saved_state).
Proof. apply checkpoint_roundtrip. exact saved_state_wf. Defined.
