(* ===== verification/Engine.v ===== *)
(** * The workflow engine ([src/orchestratord/workflow_engine/engine.py])

    [DeclarativeWorkflowEngine]: the stage handlers, error handling, rollback,
    the sequential loop and the bounded parallel loop.  The engine's mutable
    attributes are the record [Engine]; everything outside (agents, actions,
    files, clock, control callback) is the abstract world [W] and the operations
    of [Env].  [asyncio.wait_for] either times out, leaving the world [cut]
    says, or hands the result on.  The actions of a parallel batch touch the
    world one after another in batch order; the engine state they share is only
    written before their first suspension, in that same order. *)

From S2P Require Import Prelude Errors WorkflowState Cost Decision Dag Rollback StageRunner Checkpoint.

Open Scope string_scope.
Open Scope list_scope.
Open Scope Z_scope.

(** ** Events ([event_bus.py]) *)

Inductive event :=
| WorkflowStart (name : string) (total : nat)
| WorkflowComplete (total_cost total_duration : Q)
| WorkflowErrorEv (error : text) (stage_id : option Z)
| StageStart (stage_id : Z) (name phase : string)
| StageComplete (stage_id : Z) (name : string) (cost duration : Q)
| StageFailed (stage_id : Z) (name : string) (error : text)
| StageSkipped (stage_id : Z) (name : string) (reason : text)
| GateRequest (stage_id : Z) (name mode : string)
| GateApproved (stage_id : Z) (name : string)
| GateRejected (stage_id : Z) (name : string) (reason : text)
| DecisionEvaluated (stage_id : Z) (outcome : string) (next : option Z)
| CostWarning (message : text).

(** ** State *)

Record Engine (W : Type) := mkEngine {
  e_state : WorkflowState;
  e_cost : CostTracker;
  e_log : list event;
  e_rollback : option RollbackManager;
  e_ckpt : option CkptDir;
  e_history : DecisionHistory;
  e_world : W;
}.
Arguments mkEngine {W}.
Arguments e_state {W}.
Arguments e_cost {W}.
Arguments e_log {W}.
Arguments e_rollback {W}.
Arguments e_ckpt {W}.
Arguments e_history {W}.
Arguments e_world {W}.

Section setters.
Context {W : Type}.
Implicit Types e : Engine W.

Definition set_state (s : WorkflowState) e : Engine W :=
  mkEngine s (e_cost e) (e_log e) (e_rollback e) (e_ckpt e) (e_history e) (e_world e).
Definition set_tracker (t : CostTracker) e : Engine W :=
  mkEngine (e_state e) t (e_log e) (e_rollback e) (e_ckpt e) (e_history e) (e_world e).
Definition set_log (l : list event) e : Engine W :=
  mkEngine (e_state e) (e_cost e) l (e_rollback e) (e_ckpt e) (e_history e) (e_world e).
Definition set_rollback (m : option RollbackManager) e : Engine W :=
  mkEngine (e_state e) (e_cost e) (e_log e) m (e_ckpt e) (e_history e) (e_world e).
Definition set_ckpt (d : option CkptDir) e : Engine W :=
  mkEngine (e_state e) (e_cost e) (e_log e) (e_rollback e) d (e_history e) (e_world e).
Definition set_history (h : DecisionHistory) e : Engine W :=
  mkEngine (e_state e) (e_cost e) (e_log e) (e_rollback e) (e_ckpt e) h (e_world e).
Definition set_world (w : W) e : Engine W :=
  mkEngine (e_state e) (e_cost e) (e_log e) (e_rollback e) (e_ckpt e) (e_history e) w.

Definition on_state (f : WorkflowState -> WorkflowState) e : Engine W :=
  set_state (f (e_state e)) e.
(** [EventBus.emit]: handlers and journal cannot raise into the engine. *)
Definition emit (ev : event) e : Engine W := set_log (e_log e ++ [ev]) e.
End setters.

(** ** The environment *)

(** [await asyncio.wait_for(...)] *)
Inductive awaited (A : Type) :=
| Done (o : outcome exn A)
| TimedOut.
Arguments Done {A} o.
Arguments TimedOut {A}.

(** The stage runner as the engine sees it: one operation per stage kind,
    awaited with a timeout. *)
Record StageRunnerOps (W : Type) := mkStageRunnerOps {
  op_run : StageNode -> WorkflowState -> Z -> W -> awaited StageRunResult * W;
  op_run_gate : StageNode -> WorkflowState -> Z -> W -> awaited GateRunResult * W;
  op_run_decision : StageNode -> WorkflowState -> Z -> W -> awaited DecisionRunResult * W;
  op_run_action : StageNode -> WorkflowState -> Z -> W -> awaited ActionResult * W;
}.
Arguments mkStageRunnerOps {W}.
Arguments op_run {W}.
Arguments op_run_gate {W}.
Arguments op_run_decision {W}.
Arguments op_run_action {W}.

(** What the engine's loop relies on of its runner: a decision's next stage is
    one the stage declares for that outcome, and its outcome is declared or
    [proceed]. *)
Class RunnerLaws {W : Type} (ops : StageRunnerOps W) : Prop := {
  run_decision_law stage state timeout w r :
    fst (op_run_decision ops stage state timeout w) = Done (Ret r) ->
    (dn_outcome r = "proceed" \/ dn_outcome r ∈ dkeys (sn_decision_outcomes stage)) /\
    (dn_next_stage r = None \/ dn_next_stage r = ds_next (spec_of stage (dn_outcome r)))
}.

(** [StageRunner] behind [wait_for]; [cut stage timeout w] is the world a
    timer that fires leaves behind. *)
Definition wait_for {W A : Type} (cut : option W) (m : W -> outcome exn A * W) (w : W)
    : awaited A * W :=
  match cut with
  | Some w' => (TimedOut, w')
  | None => let (o, w') := m w in (Done o, w')
  end.

Definition returns {W A : Type} (m : W -> A * W) (w : W) : outcome exn A * W :=
  let (a, w') := m w in (Ret a, w').

Definition services_ops {W : Type} (sv : Services W) (cut : StageNode -> Z -> W -> option W)
    : StageRunnerOps W :=
  mkStageRunnerOps
    (fun stage state t w => wait_for (cut stage t w) (returns (run sv stage state)) w)
    (fun stage state t w => wait_for (cut stage t w) (run_gate sv stage state) w)
    (fun stage state t w => wait_for (cut stage t w) (returns (run_decision sv stage state)) w)
    (fun stage state t w => wait_for (cut stage t w) (run_action sv stage state) w).

Record Env (W : Type) := mkEnv {
  env_runner : option (StageRunnerOps W);
  env_validator : ContractValidator W;
  env_clock : W -> Q;
  env_stamp : W -> string;
  env_copy_ok : W -> bool;
  env_ckpt_fault : W -> io_fault;
  env_str_obj : positive -> string;
  env_control : option (W -> option string * W);
  env_pause : W -> W;
}.
Arguments mkEnv {W}.
Arguments env_runner {W}.
Arguments env_validator {W}.
Arguments env_clock {W}.
Arguments env_stamp {W}.
Arguments env_copy_ok {W}.
Arguments env_ckpt_fault {W}.
Arguments env_str_obj {W}.
Arguments env_control {W}.
Arguments env_pause {W}.

Record EngineConfig := mkEngineConfig {
  cfg_budget : CostBudget;
  cfg_max_concurrent_stages : Z;
  cfg_default_timeout_seconds : Z;
}.

Record WorkflowResult := mkWorkflowResult {
  wr_success : bool;
  wr_workflow_name : string;
  wr_completed_stages : nat;
  wr_total_stages : nat;
  wr_total_cost_usd : Q;
  wr_total_duration_seconds : Q;
  wr_conversation_id : option string;
  wr_error : option text;
  wr_stage_results : dict Z StageResult;
  wr_stage_run_ids : dict Z (option string);
}.

(** ** Operations *)

Section engine.
Context {W : Type} (env : Env W) (workflow : WorkflowSchema) (config : EngineConfig).
Implicit Types (e : Engine W) (stage : StageNode).

Abbreviation EM := (M (Engine W) exn).

Definition new_engine (rm : option RollbackManager) (ckpt : option CkptDir) (w : W) : Engine W :=
  mkEngine (new_state (ws_name workflow) (ws_version workflow) (env_stamp env w))
    (new_tracker (cfg_budget config)) [] rm ckpt [] w.

Definition stamp e : string := env_stamp env (e_world e).

(** Run a computation on one attribute of the engine. *)
Definition with_world {A} (m : M W exn A) : EM A :=
  fun e => let (o, w) := m (e_world e) in (o, set_world w e).
Definition with_tracker {A} (m : M CostTracker exn A) : EM A :=
  fun e => let (o, t) := m (e_cost e) in (o, set_tracker t e).

(** [stage.timeout_seconds or default]: zero means unset. *)
Definition effective_timeout stage : Z :=
  if sn_timeout_seconds stage =? 0 then cfg_default_timeout_seconds config
  else sn_timeout_seconds stage.

Definition save_checkpoint (sid : Z) e : Engine W :=
  match e_ckpt e with
  | None => e
  | Some d =>
      let e := on_state (set_current sid) e in
      let '(_, d') :=
        save (env_str_obj env) (env_ckpt_fault env (e_world e)) (e_state e)
          (Some (to_dict (e_history e))) (stamp e) d in
      set_ckpt (Some d') e
  end.

Definition save_stage_snapshot stage e : Engine W :=
  match e_rollback e with
  | None => e
  | Some m =>
      let '(_, m') := save_snapshot stage (stamp e) (env_copy_ok env (e_world e)) m in
      set_rollback (Some m') e
  end.

(** *** Stage handlers *)

(** Await a runner operation; the timeout becomes a [StageTimeoutError]. *)
Definition await_op {A} (op : W -> awaited A * W) (timeout_msg : text) (sid : Z) : EM A :=
  fun e =>
    match op (e_world e) with
    | (TimedOut, w) => (Raise (mkExn StageTimeoutError timeout_msg (Some sid)), set_world w e)
    | (Done o, w) => (o, set_world w e)
    end.

Definition need_runner stage (msg : text) : EM (StageRunnerOps W) :=
  match env_runner env with
  | Some ops => mret ops
  | None => raise (mkExn WorkflowEngineError msg (Some (sn_id stage)))
  end.

Definition stage_failure stage (msg : text) {A} : EM A :=
  raise (mkExn StageFailureError msg (Some (sn_id stage))).

Definition error_text (o : option text) : text := default [Lit "None"] o.

Definition run_action_stage stage : EM StageResult :=
  ops ← need_runner stage [Lit "StageRunner not injected"];
  if String.eqb (sn_uses stage) "" then
    stage_failure stage [Lit "Action stage requires 'uses'"]
  else
    state ← gets e_state;
    r ← await_op (op_run_action ops stage state (effective_timeout stage))
          [Lit "Action stage "; FInt (sn_id stage); Lit " ("; Lit (sn_name stage);
           Lit ") timed out after "; FInt (effective_timeout stage); Lit "s"] (sn_id stage);
    if negb (a_success r) then
      stage_failure stage
        ([Lit "Action stage "; FInt (sn_id stage); Lit " ("; Lit (sn_name stage); Lit ") failed: "]
         ++ error_text (a_error r))
    else
      ts ← gets stamp;
      mret (mkStageResult (sn_id stage) COMPLETED (a_outputs r) (a_artifacts r) None
              (a_cost_usd r) 0 None None None None ts).

Definition emit_warnings (ws : list text) e : Engine W :=
  fold_left (fun e w => emit (CostWarning w) e) ws e.

Definition validate_stage_output stage : EM (list text) :=
  results ← with_world (validate_all (env_validator env) (sn_validators stage));
  mret (failure_messages results).

Definition run_agent_stage stage : EM StageResult :=
  modify (fun e => set_tracker (reset_stage (e_cost e)) e) ;;
  ops ← need_runner stage
          [Lit "StageRunner not injected. Call set_stage_runner() before execute()."];
  state ← gets e_state;
  r ← await_op (op_run ops stage state (effective_timeout stage))
        [Lit "Stage "; FInt (sn_id stage); Lit " ("; Lit (sn_name stage);
         Lit ") timed out after "; FInt (effective_timeout stage); Lit "s"] (sn_id stage);
  modify (fun e => set_tracker (add_cost (sr_cost_usd r) (e_cost e)) e) ;;
  warnings ← with_tracker check_budget;
  modify (emit_warnings warnings) ;;
  if negb (sr_success r) then
    stage_failure stage
      ([Lit "Stage "; FInt (sn_id stage); Lit " ("; Lit (sn_name stage); Lit ") failed: "]
       ++ error_text (sr_error r))
  else
    errors ← (match sn_validators stage with
              | [] => mret []
              | _ => validate_stage_output stage
              end);
    match errors with
    | _ :: _ =>
        stage_failure stage
          [Lit "Stage "; FInt (sn_id stage); Lit " validation failed: "; FRepr errors]
    | [] =>
        conv ← gets (fun e => conversation_id (e_state e));
        ts ← gets stamp;
        mret (mkStageResult (sn_id stage) COMPLETED (sr_outputs r) (sr_artifacts r) None
                (sr_cost_usd r) 0 None None (sr_run_id r) conv ts)
    end.

Definition run_gate_stage stage : EM StageResult :=
  ops ← need_runner stage [Lit "StageRunner not injected"];
  modify (emit (GateRequest (sn_id stage) (sn_name stage) (sn_gate_mode stage))) ;;
  state ← gets e_state;
  r ← await_op (op_run_gate ops stage state (effective_timeout stage))
        [Lit "GATE stage "; FInt (sn_id stage); Lit " timed out"] (sn_id stage);
  ts ← gets stamp;
  if g_approved r then
    modify (emit (GateApproved (sn_id stage) (sn_name stage))) ;;
    mret (new_result (sn_id stage) GATE_APPROVED ts)
  else
    modify (emit (GateRejected (sn_id stage) (sn_name stage) (g_reason r))) ;;
    mret (with_error (Some (g_reason r)) (new_result (sn_id stage) GATE_REJECTED ts)).

Definition decision_stage_result (sid : Z) (outcome : string) (next : option Z) (ts : string)
    : StageResult :=
  mkStageResult sid COMPLETED [] [] None 0 0 (Some outcome) next None None ts.

Definition run_decision_stage stage : EM StageResult :=
  ops ← need_runner stage [Lit "StageRunner not injected"];
  state ← gets e_state;
  r ← await_op (op_run_decision ops stage state (effective_timeout stage))
        [Lit "DECISION stage "; FInt (sn_id stage); Lit " timed out"] (sn_id stage);
  ts ← gets stamp;
  h ← gets e_history;
  let '(d, h') :=
    resolve stage (decision_stage_result (sn_id stage) (dn_outcome r) (dn_next_stage r) ts) ts h in
  modify (set_history h') ;;
  if d_exhausted d then
    modify (emit (DecisionEvaluated (sn_id stage) (dn_outcome r) None)) ;;
    raise (mkExn DecisionExhaustedError (d_reason d) (Some (sn_id stage)))
  else if d_converged d then
    modify (emit (DecisionEvaluated (sn_id stage) (dn_outcome r) None)) ;;
    raise (mkExn ConvergenceError (d_reason d) (Some (sn_id stage)))
  else
    let next := int_or (d_next_stage d) (dn_next_stage r) in
    modify (emit (DecisionEvaluated (sn_id stage) (d_outcome d) next)) ;;
    mret (decision_stage_result (sn_id stage) (d_outcome d) next ts).

(** The part of [_execute_stage] before the handler runs. *)
Definition begin_stage stage e : Engine W :=
  save_stage_snapshot stage
    (emit (StageStart (sn_id stage) (sn_name stage) (sn_phase stage))
       (on_state (mark_stage_running (sn_id stage)) e)).

(** The dispatch on the stage kind. *)
Definition run_by_kind stage : EM StageResult :=
  match sn_kind stage with
  | AGENT => run_agent_stage stage
  | GATE => run_gate_stage stage
  | DECISION => run_decision_stage stage
  | ACTION => run_action_stage stage
  end.

(** The handler, timed. *)
Definition run_stage_body stage : EM StageResult :=
  start ← gets (fun e => env_clock env (e_world e));
  result ← run_by_kind stage;
  stop ← gets (fun e => env_clock env (e_world e));
  mret (with_duration (stop - start)%Q result).

Definition execute_stage stage : EM StageResult :=
  modify (begin_stage stage) ;; run_stage_body stage.

(** *** Errors, rollback, dependencies *)

Definition handle_stage_error stage (x : exn) e : Engine W :=
  emit (StageFailed (sn_id stage) (sn_name stage) (exn_msg x)) e.

Definition simple_rollback stage (dag : list Z) : nat :=
  let target := match sn_depends_on stage with
                | t :: _ => t
                | [] => default 0 (head dag)
                end in
  default 0%nat (index_of target dag).

Definition rollback_to_stage stage (dag : list Z) e : nat * Engine W :=
  match e_rollback e with
  | None => (simple_rollback stage dag, e)
  | Some m =>
      match resolve_rollback_target stage None None m with
      | Raise _ => (simple_rollback stage dag, e)
      | Ret target =>
          match restore_snapshot (rt_stage_id target) (env_copy_ok env (e_world e)) m with
          | (Raise _, m') => (simple_rollback stage dag, set_rollback (Some m') e)
          | (Ret _, m') =>
              let e := set_rollback (Some m') e in
              let e := on_state (update_state_on_rollback (rt_stage_id target) (sn_id stage) (stamp e)) e in
              match index_of (rt_stage_id target) dag with
              | Some i => (i, e)
              | None => (simple_rollback stage dag, e)
              end
          end
      end
  end.

(** [a or b] on texts *)
Definition text_or (a : option text) (b : text) : text :=
  match a with Some t => if text_truthy t then t else b | None => b end.

Definition reject_gate stage (result : StageResult) (dag : list Z) e : nat * Engine W :=
  match e_rollback e with
  | None => rollback_to_stage stage dag e
  | Some m =>
      let reason := text_or (r_error result) [Lit "GATE rejected"] in
      match handle_gate_rejection stage dag reason (stamp e) (env_copy_ok env (e_world e)) (e_state e) m with
      | (Raise _, s, m') => rollback_to_stage stage dag (set_rollback (Some m') (set_state s e))
      | (Ret (i, g), s, m') =>
          (i, emit (GateRejected (sn_id stage) (sn_name stage) (gr_reason g))
                (set_rollback (Some m') (set_state s e)))
      end
  end.

Definition result_ok (r : StageResult) : bool :=
  match r_status r with COMPLETED | GATE_APPROVED => true | _ => false end.

Definition dependency_ok (s : WorkflowState) (dep : Z) : bool :=
  mem dep (completed_stages s)
  && match get_stage_result s dep with Some r => result_ok r | None => false end.

Definition dependencies_satisfied stage e : bool :=
  forallb (dependency_ok (e_state e)) (sn_depends_on stage).

(** *** Control *)

(** Poll the control callback; [None] when it still says [paused] after
    [fuel] polls. *)
Fixpoint wait_for_control (fuel : nat) e : option (bool * Engine W) :=
  match env_control env with
  | None => Some (true, e)
  | Some callback =>
      let (st, w) := callback (e_world e) in
      let e := set_world w e in
      match st with
      | Some st =>
          if String.eqb st "cancel_requested" || String.eqb st "cancelled" then Some (false, e)
          else if String.eqb st "paused" then
            match fuel with
            | O => None
            | S fuel' => wait_for_control fuel' (set_world (env_pause env (e_world e)) e)
            end
          else Some (true, e)
      | None => Some (true, e)
      end
  end.

(** *** The sequential loop *)

Inductive step_result :=
| Next (idx : nat) (err : option text) (e : Engine W)
| Stop (err : option text) (e : Engine W)
| Escaped (x : exn) (e : Engine W)
| Paused.

Definition gate_error stage (result : StageResult) : text :=
  text_or (r_error result) [Lit "GATE stage "; FInt (sn_id stage); Lit " rejected"].

(** After [_execute_stage] returned [result]. *)
Definition stage_returned stage (result : StageResult) (dag : list Z) (idx : nat)
    (err : option text) e : step_result :=
  let e := on_state (mark_stage_completed (sn_id stage) result) e in
  let e := save_checkpoint (sn_id stage) e in
  let e := emit (StageComplete (sn_id stage) (sn_name stage) (r_cost_usd result)
                   (r_duration_seconds result)) e in
  if is_gate_stage stage && bool_decide (r_status result = GATE_REJECTED) then
    if String.eqb (sn_on_error stage) "rollback" || is_some (sn_gate_rollback_to stage) then
      let (i, e) := reject_gate stage result dag e in
      Next i (Some (gate_error stage result)) e
    else if String.eqb (sn_on_error stage) "skip" then
      (* [result] is the object stored in [stage_results] *)
      Next (S idx) err
        (on_state (fun s => set_results (dset (sn_id stage) (with_status COMPLETED result)
                                           (stage_results s)) s) e)
    else Stop (Some (gate_error stage result)) e
  else
    match (if is_decision_stage stage then r_decision_next_stage result else None) with
    | Some next =>
        match index_of next dag with
        | Some i => Next i err e
        | None => Next (S idx) err e
        end
    | None => Next (S idx) err e
    end.

(** After [_execute_stage] raised [x]. *)
Definition stage_raised stage (x : exn) (dag : list Z) (idx : nat) e : step_result :=
  let failed := on_state (mark_stage_failed (sn_id stage) (exn_msg x) (stamp e))
                  (handle_stage_error stage x e) in
  if isinstance x StageTimeoutError then
    if String.eqb (sn_on_error stage) "fail" then Stop (Some (exn_msg x)) failed
    else Next (S idx) (Some (exn_msg x)) failed
  else if isinstance x StageFailureError then
    if String.eqb (sn_on_error stage) "fail" then Stop (Some (exn_msg x)) failed
    else if String.eqb (sn_on_error stage) "rollback" then
      let (i, e) := rollback_to_stage stage dag failed in Next i (Some (exn_msg x)) e
    else Next (S idx) (Some (exn_msg x)) failed
  else if isinstance x CostExceededError || isinstance x WorkflowEngineError then
    Stop (Some (exn_msg x)) (emit (WorkflowErrorEv (exn_msg x) (Some (sn_id stage))) e)
  else Escaped x e.

Definition skip_stage stage e : Engine W :=
  on_state (set_stage_status (sn_id stage) SKIPPED)
    (emit (StageSkipped (sn_id stage) (sn_name stage) [Lit "dependencies not satisfied"]) e).

(** One iteration of the [while] loop, at an index inside the order. *)
Definition exec_step (ctl_fuel : nat) (dag : list Z) (idx : nat) (sid : Z) (err : option text) e
    : step_result :=
  match wait_for_control ctl_fuel e with
  | None => Paused
  | Some (false, e) => Stop (Some [Lit "workflow run cancelled"]) e
  | Some (true, e) =>
      match get_stage workflow sid with
      | None => Next (S idx) err e
      | Some stage =>
          if negb (dependencies_satisfied stage e) then Next (S idx) err (skip_stage stage e)
          else match execute_stage stage e with
               | (Ret result, e) => stage_returned stage result dag idx err e
               | (Raise x, e) => stage_raised stage x dag idx e
               end
      end
  end.

(** The loop: [None] when [fuel] iterations (or polls of a pause) were not
    enough, [Raise] when an exception leaves [execute]. *)
Fixpoint exec_loop (fuel : nat) (dag : list Z) (idx : nat) (err : option text) e
    : option (outcome exn (option text) * Engine W) :=
  match dag !! idx with
  | None => Some (Ret err, e)
  | Some sid =>
      match fuel with
      | O => None
      | S fuel' =>
          match exec_step fuel' dag idx sid err e with
          | Next idx err e => exec_loop fuel' dag idx err e
          | Stop err e => Some (Ret err, e)
          | Escaped x e => Some (Raise x, e)
          | Paused => None
          end
      end
  end.

(** *** Finishing *)

(** [{sid: res.run_id ... if res.run_id}] *)
Definition stage_run_ids (results : dict Z StageResult) : dict Z (option string) :=
  omap (fun kv => if is_some (str_or (r_run_id (snd kv)) None)
                  then Some (fst kv, r_run_id (snd kv)) else None) results.

Definition finish_workflow (start : Q) (err : option text) (conv : option string) e
    : WorkflowResult * Engine W :=
  let e := on_state (mark_workflow_finished (stamp e)) e in
  let duration := (env_clock env (e_world e) - start)%Q in
  let e := match err with
           | Some t => if text_truthy t then emit (WorkflowErrorEv t None) e
                       else emit (WorkflowComplete (total_usd (e_cost e)) duration) e
           | None => emit (WorkflowComplete (total_usd (e_cost e)) duration) e
           end in
  (mkWorkflowResult (negb (is_some err)) (ws_name workflow) (completed_count (e_state e))
     (total_stages (e_state e)) (total_usd (e_cost e)) duration conv err
     (stage_results (e_state e)) (stage_run_ids (stage_results (e_state e))), e).

(** *** The parallel loop *)

Definition stage_ready stage e : bool :=
  forallb (fun dep => mem dep (completed_stages (e_state e))) (sn_depends_on stage).

(** [asyncio.gather(..., return_exceptions=True)] over a batch. *)
Fixpoint gather_bodies (batch : list StageNode) e : list (outcome exn StageResult) * Engine W :=
  match batch with
  | [] => ([], e)
  | stage :: batch' =>
      let (o, e) := run_stage_body stage e in
      let (os, e) := gather_bodies batch' e in
      (o :: os, e)
  end.

Definition gather (batch : list StageNode) e : list (outcome exn StageResult) * Engine W :=
  gather_bodies batch (fold_left (fun e stage => begin_stage stage e) batch e).

(** The bookkeeping for one settled stage of a batch. *)
Definition settle_stage stage (o : outcome exn StageResult) (err : option text) (stop : bool) e
    : option text * bool * Engine W :=
  match o with
  | Raise x =>
      let e := on_state (mark_stage_failed (sn_id stage) (exn_msg x) (stamp e))
                 (handle_stage_error stage x e) in
      (or_else err (Some (exn_msg x)), stop || String.eqb (sn_on_error stage) "fail", e)
  | Ret result =>
      let t := add_cost (r_cost_usd result) (reset_stage (e_cost e)) in
      match check_budget t with
      | (Raise x, t) =>
          let e := set_tracker t e in
          let e := on_state (mark_stage_failed (sn_id stage) (exn_msg x) (stamp e))
                     (handle_stage_error stage x e) in
          (or_else err (Some (exn_msg x)), true, e)
      | (Ret warnings, t) =>
          let e := emit_warnings warnings (set_tracker t e) in
          let e := on_state (mark_stage_completed (sn_id stage) result) e in
          let e := save_checkpoint (sn_id stage) e in
          (err, stop, emit (StageComplete (sn_id stage) (sn_name stage) (r_cost_usd result)
                              (r_duration_seconds result)) e)
      end
  end.

Fixpoint settle_all (settled : list (StageNode * outcome exn StageResult))
    (pending : dict Z StageNode) (err : option text) (stop : bool) e
    : dict Z StageNode * option text * bool * Engine W :=
  match settled with
  | [] => (pending, err, stop, e)
  | (stage, o) :: rest =>
      let '(err, stop, e) := settle_stage stage o err stop e in
      settle_all rest (ddel (sn_id stage) pending) err stop e
  end.

Definition parallel_limit : nat := Z.to_nat (Z.max 1 (cfg_max_concurrent_stages config)).

Fixpoint parallel_loop (fuel : nat) (pending : dict Z StageNode) (err : option text) e
    : option (option text * Engine W) :=
  match pending with
  | [] => Some (err, e)
  | _ =>
      match fuel with
      | O => None
      | S fuel' =>
          match wait_for_control fuel' e with
          | None => None
          | Some (false, e) => Some (Some [Lit "workflow run cancelled"], e)
          | Some (true, e) =>
              match List.filter (fun stage => stage_ready stage e) (dvals pending) with
              | [] => Some (err, fold_left
                                   (fun e stage =>
                                      emit (StageSkipped (sn_id stage) (sn_name stage)
                                              [Lit "dependencies not satisfied"])
                                        (on_state (set_stage_status (sn_id stage) SKIPPED) e))
                                   (dvals pending) e)
              | ready =>
                  let batch := take parallel_limit ready in
                  let (outcomes, e) := gather batch e in
                  let '(pending, err, stop, e) :=
                    settle_all (zip batch outcomes) pending err false e in
                  if stop then Some (err, e) else parallel_loop fuel' pending err e
              end
          end
      end
  end.

Definition initial_pending e : dict Z StageNode :=
  fold_left (fun d stage => dset (sn_id stage) stage d)
    (List.filter (fun stage => negb (mem (sn_id stage) (completed_stages (e_state e))))
       (ws_stages workflow)) [].

Definition execute_parallel_actions (fuel : nat) (start : Q) e
    : option (outcome exn WorkflowResult * Engine W) :=
  match parallel_loop fuel (initial_pending e) None e with
  | None => None
  | Some (err, e) => let (r, e) := finish_workflow start err None e in Some (Ret r, e)
  end.

(** *** [execute] *)

Definition init_statuses e : Engine W :=
  on_state (fun s => fold_left (fun s stage => set_stage_status (sn_id stage) PENDING s)
                       (ws_stages workflow) s) e.

Definition mark_previous (s : WorkflowState) (sid : Z) : WorkflowState :=
  if mem sid (completed_stages s) then s
  else set_stage_status sid COMPLETED (set_completed (completed_stages s ++ [sid]) s).

Definition execute (fuel : nat) (from_stage : option Z) e
    : option (outcome exn WorkflowResult * Engine W) :=
  let start := env_clock env (e_world e) in
  match build_dag_order workflow with
  | Raise x =>
      Some (Ret (mkWorkflowResult false (ws_name workflow) 0 (length (ws_stages workflow)) 0 0
                   (conversation_id (e_state e)) (Some (exn_msg x)) [] []), e)
  | Ret dag =>
      let e := emit (WorkflowStart (ws_name workflow) (length (ws_stages workflow)))
                 (init_statuses e) in
      let start_index :=
        match from_stage with
        | Some f => default 0%nat (index_of f dag)
        | None => 0%nat
        end in
      let e := match from_stage with
               | Some _ => on_state (fun s => fold_left mark_previous (take start_index dag) s) e
               | None => e
               end in
      let remaining :=
        map (get_stage workflow)
          (List.filter (fun sid => negb (mem sid (completed_stages (e_state e))))
             (drop start_index dag)) in
      if (1 <? cfg_max_concurrent_stages config)
         && negb (Nat.eqb (length remaining) 0)
         && forallb (fun o => match o with Some s => is_action_stage s | None => false end) remaining
      then execute_parallel_actions fuel start e
      else
        match exec_loop fuel dag start_index None e with
        | None => None
        | Some (Raise x, e) => Some (Raise x, e)
        | Some (Ret err, e) =>
            let (r, e) := finish_workflow start err (conversation_id (e_state e)) e in
            Some (Ret r, e)
        end
  end.
End engine.
