(* ===== verification/EngineFacts.v ===== *)
(** * Properties of the workflow engine

    Facts about the loops of [Engine.v]: what each operation may append to the
    event log, the order of starts and completions, the cost budget, the
    termination of loops with bounded decisions, and what a successful run has
    completed. *)

From S2P Require Import Prelude Errors WorkflowState Cost Decision Dag Rollback StageRunner Checkpoint Engine.

Open Scope string_scope.
Open Scope list_scope.
Open Scope Z_scope.

(** Expose the plumbing of the state monad. *)
Ltac unfold_m :=
  unfold mbind, M_bind, mret, M_ret, gets, modify, raise, get, put in *.

(** ** The runner keeps its promise *)

#[export] Instance services_laws {W} (sv : Services W) cut : RunnerLaws (services_ops sv cut).
Proof.
  constructor. intros stage state timeout w r. simpl. unfold wait_for, returns.
  destruct (cut stage timeout w); [done|].
  pose proof (run_decision_from_declared sv (attempts stage) 0 stage state w) as H.
  unfold run_decision. destruct (run_decision_from _ _ _ _ _ w) as [r' w']. simpl in *.
  intros [= <-]. exact H.
Qed.

Section engine_facts.
Context {W : Type} (env : Env W) (workflow : WorkflowSchema) (config : EngineConfig).
Implicit Types (e : Engine W) (stage : StageNode).

(** ** Quiet operations *)

Definition is_start (ev : event) : bool :=
  match ev with StageStart _ _ _ => true | _ => false end.

(** From [e] to [e'] no stage started and none was added to the completed. *)
Definition quiet e e' : Prop :=
  (exists evs, e_log e' = e_log e ++ evs /\ forallb (fun ev => negb (is_start ev)) evs = true) /\
  (forall d, d ∈ completed_stages (e_state e') -> d ∈ completed_stages (e_state e)).

Lemma quiet_refl e : quiet e e.
Proof. split; [exists []; by rewrite app_nil_r|done]. Qed.

Lemma quiet_trans e1 e2 e3 : quiet e1 e2 -> quiet e2 e3 -> quiet e1 e3.
Proof.
  intros [(l1 & E1 & N1) C1] [(l2 & E2 & N2) C2]. split; [|auto].
  exists (l1 ++ l2). rewrite E2, E1, <- app_assoc, forallb_app, N1, N2. done.
Qed.

#[local] Instance quiet_preorder : PreOrder quiet.
Proof. split; [exact quiet_refl|exact quiet_trans]. Qed.

Lemma quiet_emit ev e : is_start ev = false -> quiet e (emit ev e).
Proof. intros H. split; [|done]. exists [ev]. simpl. by rewrite H. Qed.

(** An operation that touches neither the log nor the completed stages. *)
Lemma quiet_same e e' :
  e_log e' = e_log e -> completed_stages (e_state e') = completed_stages (e_state e) -> quiet e e'.
Proof. intros Hl Hc. split; [exists []; by rewrite app_nil_r|by rewrite Hc]. Qed.

Lemma quiet_save_checkpoint sid e : quiet e (save_checkpoint env sid e).
Proof.
  unfold save_checkpoint. destruct (e_ckpt e) as [d|]; [|done].
  destruct (save _ _ _ _ _ d). by apply quiet_same.
Qed.

Lemma quiet_save_snapshot stage e : quiet e (save_stage_snapshot env stage e).
Proof.
  unfold save_stage_snapshot. destruct (e_rollback e) as [m|]; [|done].
  destruct (save_snapshot _ _ _ m). by apply quiet_same.
Qed.

Lemma update_on_rollback_completed t f ts s d :
  d ∈ completed_stages (update_state_on_rollback t f ts s) -> d ∈ completed_stages s.
Proof.
  unfold update_state_on_rollback.
  pose proof (remove_after_spec t (completed_stages s) [] []) as E. simpl in E.
  rewrite E by (intros x Hx; by apply elem_of_nil in Hx).
  simpl. rewrite fold_reset_completed. simpl.
  rewrite list_elem_of_In, filter_In. intros [H _]. by apply list_elem_of_In.
Qed.

Lemma quiet_rollback_to stage dag e : quiet e (snd (rollback_to_stage env stage dag e)).
Proof.
  unfold rollback_to_stage. destruct (e_rollback e) as [m|]; [|done].
  destruct (resolve_rollback_target _ _ _ m) as [t|x]; [|done].
  destruct (restore_snapshot _ _ m) as [[b|x] m']; [|by apply quiet_same].
  destruct (index_of _ dag); (split; [exists []; by rewrite app_nil_r|]); simpl;
    intros d; apply update_on_rollback_completed.
Qed.

Lemma execute_rollback_completed t f ts ok s m d :
  d ∈ completed_stages (snd (fst (execute_rollback t f ts ok s m))) -> d ∈ completed_stages s.
Proof.
  unfold execute_rollback.
  destruct (rt_snapshot t); [destruct (restore_snapshot _ _ m) as [[b|x] m']|]; simpl;
    destruct (dmem _ _); simpl; apply update_on_rollback_completed.
Qed.

Lemma quiet_reject_gate stage r dag e : quiet e (snd (reject_gate env stage r dag e)).
Proof.
  unfold reject_gate. destruct (e_rollback e) as [m|]; [|apply quiet_rollback_to].
  unfold handle_gate_rejection.
  destruct (resolve_gate_rollback _ _ m) as [t|x].
  - pose proof (execute_rollback_completed t (sn_id stage) (stamp env e)
                  (env_copy_ok env (e_world e)) (e_state e) m) as H.
    destruct (execute_rollback _ _ _ _ _ m) as [[g s] m']. simpl in *.
    split; [exists [GateRejected (sn_id stage) (sn_name stage) (gr_reason g)]; done|]. exact H.
  - etrans; [|apply quiet_rollback_to]. by apply quiet_same.
Qed.

(** *** Walking through a handler *)

(** A computation whose every run stays in the relation [R]. *)
Definition keeps (R : Engine W -> Engine W -> Prop) {A} (m : M (Engine W) exn A) : Prop :=
  forall e, R e (snd (m e)).

(** What the handlers do to the engine besides the decision history. *)
Class HandlerRel (R : Engine W -> Engine W -> Prop) : Prop := {
  hr_preorder :: PreOrder R;
  hr_world w e : R e (set_world w e);
  hr_tracker t e : R e (set_tracker t e);
  hr_emit ev e : is_start ev = false -> R e (emit ev e);
}.

Section keeps.
Context (R : Engine W -> Engine W -> Prop) `{HR : !HandlerRel R}.

Lemma keeps_bind {A B} (m : M (Engine W) exn A) (k : A -> M (Engine W) exn B) :
  keeps R m -> (forall a, keeps R (k a)) -> keeps R (x ← m; k x).
Proof.
  intros Hm Hk e. unfold mbind, M_bind. specialize (Hm e).
  destruct (m e) as [[a|x] e']; simpl in *; [|done]. etrans; [exact Hm|apply Hk].
Qed.

Lemma keeps_ret {A} (a : A) : keeps R (mret a).
Proof. intros e. simpl. reflexivity. Qed.
Lemma keeps_raise {A} (x : exn) : keeps R (A := A) (raise x).
Proof. intros e. simpl. reflexivity. Qed.
Lemma keeps_gets {A} (f : Engine W -> A) : keeps R (gets f).
Proof. intros e. simpl. reflexivity. Qed.
Lemma keeps_modify f : (forall e, R e (f e)) -> keeps R (modify f).
Proof. intros H e. apply H. Qed.
Lemma keeps_await {A} (op : W -> awaited A * W) msg sid : keeps R (await_op op msg sid).
Proof. intros e. unfold await_op. destruct (op (e_world e)) as [[o|] w]; apply hr_world. Qed.
Lemma keeps_with_world {A} (m : M W exn A) : keeps R (with_world m).
Proof. intros e. unfold with_world. destruct (m (e_world e)). apply hr_world. Qed.
Lemma keeps_with_tracker {A} (m : M CostTracker exn A) : keeps R (with_tracker m).
Proof. intros e. unfold with_tracker. destruct (m (e_cost e)). apply hr_tracker. Qed.
Lemma keeps_need_runner stage msg : keeps R (need_runner env stage msg).
Proof. unfold need_runner. destruct (env_runner env); [apply keeps_ret|apply keeps_raise]. Qed.
Lemma keeps_warnings ws e : R e (emit_warnings ws e).
Proof.
  unfold emit_warnings. revert e. induction ws as [|x ws IH]; intros e; simpl; [reflexivity|].
  etrans; [by apply (hr_emit (CostWarning x))|apply IH].
Qed.
End keeps.

#[local] Hint Resolve keeps_ret keeps_raise keeps_gets keeps_await keeps_with_world
  keeps_with_tracker keeps_need_runner : keeps.

Ltac keeps_solve :=
  repeat
    (first [ solve [auto with keeps typeclass_instances]
           | solve [apply hr_emit; reflexivity]
           | solve [apply hr_tracker]
           | solve [apply keeps_warnings; typeclasses eauto]
           | idtac ];
     lazymatch goal with
     | |- keeps _ (mbind _ _) => apply keeps_bind; [typeclasses eauto| |intros ?]
     | |- keeps _ (modify _) => apply keeps_modify; intros ?
     | |- keeps _ (match ?x with _ => _ end) => destruct x eqn:?
     end).

Lemma keeps_body R `{!HandlerRel R} stage :
  sn_kind stage <> DECISION \/ (forall h e, R e (set_history h e)) ->
  keeps R (run_stage_body env config stage).
Proof.
  intros Hd.
  unfold run_stage_body, run_by_kind, run_agent_stage, run_gate_stage, run_decision_stage, run_action_stage,
    validate_stage_output, stage_failure.
  keeps_solve; destruct Hd as [Hd|Hd]; [congruence|apply Hd].
Qed.

#[local] Instance quiet_handler : HandlerRel quiet.
Proof.
  split; [apply _|intros; by apply quiet_same..|].
  intros ev e H. by apply quiet_emit.
Qed.

Lemma quiet_run_stage_body stage : keeps quiet (run_stage_body env config stage).
Proof. apply keeps_body; [apply _|]. right. intros h e. by apply quiet_same. Qed.

Lemma quiet_wait_for_control fuel e b e' :
  wait_for_control env fuel e = Some (b, e') -> quiet e e'.
Proof.
  revert e. induction fuel as [|fuel IH]; intros e; simpl;
    (destruct (env_control env) as [callback|]; [|by intros [= <- <-]]);
    destruct (callback (e_world e)) as [[st|] w];
    repeat (case_match; try done); try (intros [= <- <-]; by apply quiet_same).
  intros Hw. etrans; [|by apply IH]. by apply quiet_same.
Qed.

(** ** Starts follow completions *)

Definition logged_complete (d : Z) (log : list event) : Prop :=
  exists name cost duration, StageComplete d name cost duration ∈ log.

(** Every start in the log comes after the completion of each dependency. *)
Definition starts_ordered (log : list event) : Prop :=
  forall pre sid name phase post stage d,
    log = pre ++ StageStart sid name phase :: post ->
    get_stage workflow sid = Some stage -> d ∈ sn_depends_on stage -> logged_complete d pre.

Definition log_inv e : Prop :=
  (forall d, d ∈ completed_stages (e_state e) -> logged_complete d (e_log e)) /\
  starts_ordered (e_log e).

Lemma logged_complete_app d l1 l2 : logged_complete d l1 -> logged_complete d (l1 ++ l2).
Proof. intros (n & c & t & H). exists n, c, t. apply elem_of_app. auto. Qed.

Lemma starts_ordered_snoc log ev :
  starts_ordered log ->
  (forall sid n ph stage d, ev = StageStart sid n ph -> get_stage workflow sid = Some stage ->
     d ∈ sn_depends_on stage -> logged_complete d log) ->
  starts_ordered (log ++ [ev]).
Proof.
  intros Hlog Hev pre sid n ph post stage d E.
  destruct post as [|x post _] using rev_ind.
  - apply app_inj_tail in E as [-> ->]. by eapply Hev.
  - rewrite app_comm_cons, app_assoc in E. apply app_inj_tail in E as [-> _]. by eapply (Hlog pre).
Qed.

Lemma starts_ordered_quiet log evs :
  starts_ordered log -> forallb (fun ev => negb (is_start ev)) evs = true ->
  starts_ordered (log ++ evs).
Proof.
  revert log. induction evs as [|ev evs IH]; intros log Hlog; simpl; [by rewrite app_nil_r|].
  intros [Hev Hevs]%andb_true_iff.
  replace (log ++ ev :: evs) with ((log ++ [ev]) ++ evs) by (by rewrite <- app_assoc).
  apply IH; [|done]. apply starts_ordered_snoc; [done|]. intros; subst; done.
Qed.

Lemma log_inv_quiet e e' : quiet e e' -> log_inv e -> log_inv e'.
Proof.
  intros [(evs & E & Hevs) Hc] [Hd Ho]. split.
  - intros d H. rewrite E. by apply logged_complete_app, Hd, Hc.
  - rewrite E. by apply starts_ordered_quiet.
Qed.

Lemma log_inv_begin stage e :
  get_stage workflow (sn_id stage) = Some stage ->
  (forall d, d ∈ sn_depends_on stage -> d ∈ completed_stages (e_state e)) ->
  log_inv e -> log_inv (begin_stage env stage e).
Proof.
  intros Hg Hdeps [Hc Ho]. unfold begin_stage.
  eapply log_inv_quiet; [apply quiet_save_snapshot|]. split; simpl.
  - intros d Hd. by apply logged_complete_app, Hc.
  - apply starts_ordered_snoc; [done|]. intros ? ? ? stage' d [= <- <- <-] Hg' Hd.
    rewrite Hg in Hg'. injection Hg' as <-. by apply Hc, Hdeps.
Qed.

Lemma log_inv_complete stage r e c t :
  log_inv e ->
  log_inv (emit (StageComplete (sn_id stage) (sn_name stage) c t)
             (save_checkpoint env (sn_id stage)
                (on_state (mark_stage_completed (sn_id stage) r) e))).
Proof.
  intros [Hc Ho].
  pose proof (quiet_save_checkpoint (sn_id stage)
                (on_state (mark_stage_completed (sn_id stage) r) e)) as [(evs & E & N) Hq].
  set (e1 := save_checkpoint _ _ _) in *. split.
  - intros d Hd%Hq. simpl in *. rewrite E. apply elem_of_app in Hd as [Hd|Hd].
    + by apply logged_complete_app, logged_complete_app, Hc.
    + apply list_elem_of_singleton in Hd as ->. exists (sn_name stage), c, t.
      rewrite !elem_of_app, list_elem_of_singleton. auto.
  - simpl. apply starts_ordered_snoc; [|done]. rewrite E. by apply starts_ordered_quiet.
Qed.

(** The engine a step hands on. *)
Definition step_engine (r : step_result) : option (Engine W) :=
  match r with
  | Next _ _ e | Stop _ e | Escaped _ e => Some e
  | Paused => None
  end.

Lemma get_stage_in_id stages sid stage :
  get_stage_in stages sid = Some stage -> sn_id stage = sid /\ stage ∈ stages.
Proof.
  induction stages as [|s stages IH]; simpl; [done|].
  rewrite elem_of_cons. destruct (Z.eqb_spec (sn_id s) sid) as [<-|].
  - intros [= <-]. auto.
  - intros H. destruct (IH H). auto.
Qed.

Lemma get_stage_id sid stage : get_stage workflow sid = Some stage -> sn_id stage = sid.
Proof. intros H. by apply get_stage_in_id in H as [? _]. Qed.

Lemma log_inv_returned stage r dag idx err e e' :
  log_inv e -> step_engine (stage_returned env stage r dag idx err e) = Some e' -> log_inv e'.
Proof.
  intros Hinv. unfold stage_returned.
  pose proof (log_inv_complete stage r e (r_cost_usd r) (r_duration_seconds r) Hinv) as H.
  set (e1 := emit _ _) in *. clearbody e1.
  pose proof (quiet_reject_gate stage r dag e1) as Hq.
  destruct (reject_gate env stage r dag e1) as [i e2]. simpl in Hq.
  repeat case_match; simpl; intros [= <-]; try exact H.
  by apply (log_inv_quiet e1).
Qed.

Lemma log_inv_raised stage x dag idx e e' :
  log_inv e -> step_engine (stage_raised env stage x dag idx e) = Some e' -> log_inv e'.
Proof.
  intros Hinv. unfold stage_raised.
  assert (Hf : log_inv (on_state (mark_stage_failed (sn_id stage) (exn_msg x) (stamp env e))
                          (handle_stage_error stage x e))).
  { eapply log_inv_quiet; [|exact Hinv].
    apply (quiet_trans _ (handle_stage_error stage x e)); [by apply quiet_emit|].
    apply quiet_same; [done|]. apply mark_stage_failed_completed. }
  set (e1 := on_state _ _) in *. clearbody e1.
  pose proof (quiet_rollback_to stage dag e1) as Hq.
  destruct (rollback_to_stage env stage dag e1) as [i e2]. simpl in Hq.
  repeat case_match; simpl; intros [= <-]; try done.
  - by apply (log_inv_quiet e1).
  - by eapply log_inv_quiet; [apply quiet_emit|].
Qed.

Lemma log_inv_step fuel dag idx sid err e e' :
  log_inv e -> step_engine (exec_step env workflow config fuel dag idx sid err e) = Some e' ->
  log_inv e'.
Proof.
  intros Hinv. unfold exec_step.
  destruct (wait_for_control env fuel e) as [[b e1]|] eqn:Ew; [|done].
  apply quiet_wait_for_control in Ew. pose proof (log_inv_quiet _ _ Ew Hinv) as H1.
  destruct b; [|by intros [= <-]].
  destruct (get_stage workflow sid) as [stage|] eqn:Eg; [|by intros [= <-]].
  destruct (dependencies_satisfied stage e1) eqn:Ed; simpl.
  - assert (H2 : log_inv (begin_stage env stage e1)).
    { apply log_inv_begin; [by rewrite (get_stage_id sid)| |done].
      intros d Hd. unfold dependencies_satisfied in Ed. rewrite forallb_spec in Ed.
      specialize (Ed d Hd). unfold dependency_ok in Ed.
      apply andb_true_iff in Ed as [Ed _]. by apply mem_true in Ed. }
    unfold execute_stage. unfold mbind, M_bind, modify.
    pose proof (quiet_run_stage_body stage (begin_stage env stage e1)) as Hq.
    destruct (run_stage_body env config stage _) as [[r|x] e2]; simpl in Hq;
      pose proof (log_inv_quiet _ _ Hq H2) as H3;
      [by apply log_inv_returned|by apply log_inv_raised].
  - intros [= <-]. eapply log_inv_quiet; [|exact H1]. unfold skip_stage.
    apply (quiet_trans _ (emit (StageSkipped (sn_id stage) (sn_name stage)
                                  [Lit "dependencies not satisfied"]) e1));
      [by apply quiet_emit|by apply quiet_same].
Qed.

Lemma log_inv_loop fuel dag idx err e o e' :
  log_inv e -> exec_loop env workflow config fuel dag idx err e = Some (o, e') -> log_inv e'.
Proof.
  revert idx err e. induction fuel as [|fuel IH]; intros idx err e Hinv; simpl.
  - destruct (dag !! idx); [done|]. by intros [= <- <-].
  - destruct (dag !! idx) as [sid|]; [|by intros [= <- <-]].
    pose proof (log_inv_step fuel dag idx sid err e) as Hs.
    destruct (exec_step _ _ _ _ _ _ _ _ _) as [i err' e1|err' e1|x e1|]; simpl in Hs;
      [|by intros [= <- <-]; auto..|done].
    apply IH. auto.
Qed.

(** *** The parallel loop *)

Definition pending_ok (pending : dict Z StageNode) : Prop :=
  forall k stage, (k, stage) ∈ pending -> get_stage workflow (sn_id stage) = Some stage.

Lemma ddel_In {K V} `{EqDecision K} k (d : dict K V) kv : kv ∈ ddel k d -> kv ∈ d.
Proof.
  induction d as [|[k' v'] d IH]; simpl; [done|].
  destruct (decide (k = k')); rewrite ?elem_of_cons; intuition.
Qed.

Lemma dset_In {K V} `{EqDecision K} k v (d : dict K V) kv :
  kv ∈ dset k v d -> kv ∈ d \/ kv = (k, v).
Proof.
  induction d as [|[k' v'] d IH]; simpl; [intros ?%list_elem_of_singleton; auto|].
  destruct (decide (k = k')) as [->|]; rewrite !elem_of_cons; intuition.
Qed.

Lemma pending_ok_ddel k pending : pending_ok pending -> pending_ok (ddel k pending).
Proof. intros H k' stage Hin%ddel_In. by apply (H k'). Qed.

Lemma get_stage_in_nodup stages stage :
  NoDup (stage_ids stages) -> stage ∈ stages -> get_stage_in stages (sn_id stage) = Some stage.
Proof.
  induction stages as [|s stages IH]; simpl; [by intros _ ?%elem_of_nil|].
  intros [Hni Hnd]%NoDup_cons [->|Hin]%elem_of_cons; [by rewrite Z.eqb_refl|].
  destruct (Z.eqb_spec (sn_id s) (sn_id stage)) as [E|]; [|by apply IH].
  destruct Hni. rewrite E. apply list_elem_of_fmap. eauto.
Qed.

Lemma initial_pending_ok e :
  NoDup (stage_ids (ws_stages workflow)) -> pending_ok (initial_pending workflow e).
Proof.
  intros Hnd. unfold initial_pending.
  set (l := List.filter _ _).
  assert (Hl : forall s, s ∈ l -> s ∈ ws_stages workflow).
  { intros s. unfold l. rewrite !list_elem_of_In, filter_In. tauto. }
  assert (Hd : pending_ok []) by (intros k s H; by apply elem_of_nil in H).
  revert Hd Hl. generalize (@nil (Z * StageNode)). clearbody l.
  induction l as [|s l IH]; intros d Hd Hl; simpl; [done|]. apply IH.
  - intros k stage [Hin|[= -> ->]]%dset_In; [by apply (Hd k)|].
    apply get_stage_in_nodup; [done|]. apply Hl, elem_of_cons. auto.
  - intros s' Hs'. apply Hl, elem_of_cons. auto.
Qed.

Lemma begin_stage_completed stage e :
  completed_stages (e_state (begin_stage env stage e)) = completed_stages (e_state e).
Proof.
  unfold begin_stage, save_stage_snapshot. simpl.
  destruct (e_rollback e) as [m|]; [|done]. by destruct (save_snapshot _ _ _ m).
Qed.

Lemma log_inv_begin_all batch e :
  (forall stage, stage ∈ batch -> get_stage workflow (sn_id stage) = Some stage) ->
  (forall stage, stage ∈ batch -> stage_ready stage e = true) ->
  log_inv e -> log_inv (fold_left (fun e stage => begin_stage env stage e) batch e).
Proof.
  revert e. induction batch as [|stage batch IH]; intros e Hg Hr Hinv; simpl; [done|].
  apply IH.
  - intros s Hs. apply Hg, elem_of_cons. auto.
  - intros s Hs. unfold stage_ready. rewrite begin_stage_completed.
    apply Hr, elem_of_cons. auto.
  - apply log_inv_begin; [apply Hg, elem_of_cons; auto| |done].
    assert (Hs : stage_ready stage e = true) by (apply Hr, elem_of_cons; auto).
    unfold stage_ready in Hs. rewrite forallb_spec in Hs. intros d Hd. by apply mem_true, Hs.
Qed.

Lemma quiet_gather_bodies batch e : quiet e (snd (gather_bodies env config batch e)).
Proof.
  revert e. induction batch as [|stage batch IH]; intros e; simpl; [done|].
  pose proof (quiet_run_stage_body stage e) as Hq.
  destruct (run_stage_body env config stage e) as [o e1]. simpl in Hq.
  specialize (IH e1). destruct (gather_bodies env config batch e1) as [os e2]. simpl in *.
  by etrans.
Qed.

Lemma quiet_failed stage x e :
  quiet e (on_state (mark_stage_failed (sn_id stage) (exn_msg x) (stamp env e))
             (handle_stage_error stage x e)).
Proof.
  apply (quiet_trans _ (handle_stage_error stage x e)); [by apply quiet_emit|].
  apply quiet_same; [done|]. apply mark_stage_failed_completed.
Qed.

Lemma log_inv_settle stage o err stop e :
  log_inv e -> log_inv (snd (settle_stage env stage o err stop e)).
Proof.
  intros Hinv. unfold settle_stage. destruct o as [r|x].
  - destruct (check_budget _) as [[ws|x] t]; simpl.
    + apply log_inv_complete. eapply log_inv_quiet; [|exact Hinv].
      apply (quiet_trans _ (set_tracker t e)); [by apply quiet_same|apply (keeps_warnings quiet)].
    + eapply log_inv_quiet; [|exact Hinv].
      apply (quiet_trans _ (set_tracker t e)); [by apply quiet_same|apply quiet_failed].
  - simpl. eapply log_inv_quiet; [apply quiet_failed|done].
Qed.

Lemma log_inv_settle_all settled pending err stop e :
  log_inv e -> log_inv (snd (settle_all env settled pending err stop e)).
Proof.
  revert pending err stop e. induction settled as [|[stage o] settled IH];
    intros pending err stop e Hinv; simpl; [done|].
  pose proof (log_inv_settle stage o err stop e Hinv) as H.
  destruct (settle_stage env stage o err stop e) as [[err' stop'] e1]. by apply IH.
Qed.

Lemma settle_all_pending settled pending err stop e k stage :
  (k, stage) ∈ fst (fst (fst (settle_all env settled pending err stop e))) -> (k, stage) ∈ pending.
Proof.
  revert pending err stop e. induction settled as [|[s o] settled IH];
    intros pending err stop e; simpl; [done|].
  destruct (settle_stage env s o err stop e) as [[err' stop'] e1].
  intros H%IH. by apply ddel_In in H.
Qed.

Lemma log_inv_skip_all (l : list StageNode) e :
  log_inv e ->
  log_inv (fold_left (fun e stage => emit (StageSkipped (sn_id stage) (sn_name stage)
                                             [Lit "dependencies not satisfied"])
                                       (on_state (set_stage_status (sn_id stage) SKIPPED) e)) l e).
Proof.
  revert e. induction l as [|s l IH]; intros e Hinv; simpl; [done|]. apply IH.
  eapply log_inv_quiet; [|exact Hinv].
  apply (quiet_trans _ (on_state (set_stage_status (sn_id s) SKIPPED) e));
    [by apply quiet_same|by apply quiet_emit].
Qed.

Lemma dvals_In {K V} (d : dict K V) v : v ∈ dvals d -> exists k, (k, v) ∈ d.
Proof.
  intros [[k v'] [-> Hin]]%list_elem_of_fmap. by exists k.
Qed.

Lemma ready_batch_spec (pending : dict Z StageNode) e stage (n : nat) :
  stage ∈ take n (List.filter (fun stage => stage_ready stage e) (dvals pending)) ->
  stage_ready stage e = true /\ exists k, (k, stage) ∈ pending.
Proof.
  intros Hin%elem_of_take. destruct Hin as (i & Hi & _). apply list_elem_of_lookup_2 in Hi.
  apply list_elem_of_In, filter_In in Hi as [Hin Hr]. split; [done|].
  apply dvals_In. by apply list_elem_of_In.
Qed.

Lemma log_inv_parallel fuel pending err e err' e' :
  pending_ok pending -> log_inv e ->
  parallel_loop env config fuel pending err e = Some (err', e') -> log_inv e'.
Proof.
  revert pending err e. induction fuel as [|fuel IH]; intros pending err e Hp Hinv;
    (destruct pending as [|kv pending0] eqn:Epend; [by intros [= <- <-]|]); [done|].
  rewrite <- Epend in *. clear kv pending0 Epend.
  simpl. destruct pending as [|kv0 rest] eqn:Epend; [by intros [= <- <-]|]. rewrite <- Epend in *.
  destruct (wait_for_control env fuel e) as [[b e1]|] eqn:Ew; [|done].
  apply quiet_wait_for_control in Ew. pose proof (log_inv_quiet _ _ Ew Hinv) as H1.
  destruct b; [|by intros [= <- <-]].
  pose proof (fun stage => ready_batch_spec pending e1 stage (parallel_limit config)) as Hready.
  destruct (List.filter (fun stage => stage_ready stage e1) (dvals pending)) as [|r0 rs].
  - intros [= <- <-]. by apply log_inv_skip_all.
  - set (batch := take (parallel_limit config) (r0 :: rs)) in *. unfold gather.
    assert (H2 : log_inv (fold_left (fun e stage => begin_stage env stage e) batch e1)).
    { apply log_inv_begin_all; [|by intros s [? _]%Hready|done].
      intros s (_ & k & Hk)%Hready. by apply (Hp k). }
    pose proof (quiet_gather_bodies batch
                  (fold_left (fun e stage => begin_stage env stage e) batch e1)) as Hq.
    destruct (gather_bodies _ _ _ _) as [os e2]. simpl in Hq.
    pose proof (log_inv_settle_all (zip batch os) pending err false e2
                  (log_inv_quiet _ _ Hq H2)) as H3.
    pose proof (settle_all_pending (zip batch os) pending err false e2) as Hsub.
    destruct (settle_all _ _ _ _ _ _) as [[[p' err1] stop] e3]. simpl in *.
    destruct stop; [by intros [= <- <-]|]. apply IH; [|done].
    intros k s Hk%Hsub. by apply (Hp k).
Qed.

Lemma log_inv_finish start err conv e :
  log_inv e -> log_inv (snd (finish_workflow env workflow start err conv e)).
Proof.
  intros Hinv. unfold finish_workflow. cbn [snd].
  eapply log_inv_quiet; [|exact Hinv].
  apply (quiet_trans _ (on_state (mark_workflow_finished (stamp env e)) e)); [by apply quiet_same|].
  repeat case_match; by apply quiet_emit.
Qed.

(** ** The cost budget *)

Definition has_budget e : Prop := budget (e_cost e) = cfg_budget config.

Definition within_budget e : Prop :=
  (total_usd (e_cost e) <= max_total_usd (cfg_budget config))%Q.

(** A computation that ends within the budget or raises [CostExceededError]. *)
Definition cost_safe {A} (m : M (Engine W) exn A) : Prop :=
  forall e, has_budget e ->
    has_budget (snd (m e)) /\
    (within_budget e ->
     within_budget (snd (m e)) \/ exists x, fst (m e) = Raise x /\ exn_cls x = CostExceededError).

Lemma cost_safe_bind {A B} (m : M (Engine W) exn A) (k : A -> M (Engine W) exn B) :
  cost_safe m -> (forall a, cost_safe (k a)) -> cost_safe (x ← m; k x).
Proof.
  intros Hm Hk e Hb. specialize (Hm e Hb) as [Hb1 Hw1]. unfold mbind, M_bind.
  destruct (m e) as [[a|x] e1]; simpl in *.
  - specialize (Hk a e1 Hb1) as [Hb2 Hw2]. split; [done|].
    intros [H|(x & H & _)]%Hw1; [auto|done].
  - split; [done|]. intros [H|(x' & H & Hc)]%Hw1; [auto|]. right. simplify_eq. eauto.
Qed.

(** An operation that leaves the tracker alone. *)
Lemma cost_safe_same {A} (m : M (Engine W) exn A) :
  (forall e, e_cost (snd (m e)) = e_cost e) -> cost_safe m.
Proof.
  intros H e. unfold has_budget, within_budget. rewrite H. auto.
Qed.

Lemma cost_safe_modify f : (forall e, e_cost (f e) = e_cost e) -> cost_safe (modify f).
Proof. intros H. by apply cost_safe_same. Qed.

Lemma cost_safe_await {A} (op : W -> awaited A * W) msg sid : cost_safe (await_op op msg sid).
Proof. apply cost_safe_same. intros e. unfold await_op. by destruct (op _) as [[]]. Qed.

Lemma cost_safe_with_world {A} (m : M W exn A) : cost_safe (with_world m).
Proof. apply cost_safe_same. intros e. unfold with_world. by destruct (m _). Qed.

Lemma cost_safe_need_runner stage msg : cost_safe (need_runner env stage msg).
Proof. apply cost_safe_same. intros e. unfold need_runner. by destruct (env_runner env). Qed.

Lemma cost_safe_ret {A} (a : A) : cost_safe (mret a).
Proof. by apply cost_safe_same. Qed.
Lemma cost_safe_raise {A} x : cost_safe (A := A) (raise x).
Proof. by apply cost_safe_same. Qed.
Lemma cost_safe_gets {A} (f : Engine W -> A) : cost_safe (gets f).
Proof. by apply cost_safe_same. Qed.

Lemma cost_safe_reset : cost_safe (modify (fun e => set_tracker (reset_stage (e_cost e)) e)).
Proof. intros e Hb. split; [exact Hb|]. by left. Qed.

Lemma warnings_cost ws e : e_cost (emit_warnings ws e) = e_cost e.
Proof.
  unfold emit_warnings. revert e. induction ws as [|x ws IH]; intros e; simpl; [done|].
  by rewrite IH.
Qed.

(** Checking the budget after any change of the amounts. *)
Lemma check_budget_within t :
  budget t = cfg_budget config ->
  budget (snd (check_budget t)) = cfg_budget config /\
  match check_budget t with
  | (Ret _, t') => (total_usd t' <= max_total_usd (cfg_budget config))%Q
  | (Raise x, _) => exn_cls x = CostExceededError
  end.
Proof.
  intros Hb. split; [by rewrite check_budget_budget|].
  pose proof (check_budget_raise_class t) as Hc.
  destruct (check_budget_cases t)
    as [(x & E & _)|[(x & t' & E & _)|(ws & t' & E & Hle & _ & _ & Ht & _)]];
    rewrite E in *; [by eapply Hc..|]. rewrite Ht, <- Hb. exact Hle.
Qed.

Lemma cost_safe_charge {A} (q : Q) (k : list text -> M (Engine W) exn A) :
  (forall ws, cost_safe (k ws)) ->
  cost_safe (modify (fun e => set_tracker (add_cost q (e_cost e)) e) ;;
             ws ← with_tracker check_budget; k ws).
Proof.
  intros Hk e Hb. unfold mbind, M_bind, modify, with_tracker. cbn [e_cost set_tracker].
  pose proof (check_budget_within (add_cost q (e_cost e)) Hb) as [Hb' Hc].
  destruct (check_budget (add_cost q (e_cost e))) as [[ws|x] t]; simpl in *.
  - specialize (Hk ws (set_tracker t (set_tracker (add_cost q (e_cost e)) e)) Hb') as [Hb2 Hw2].
    split; [done|]. intros _. by apply Hw2.
  - split; [done|]. intros _. right. eauto.
Qed.

Hint Resolve cost_safe_ret cost_safe_raise cost_safe_gets cost_safe_await cost_safe_with_world
  cost_safe_need_runner cost_safe_reset : cost.

(** Walk through a handler. *)
Ltac cost_solve :=
  repeat
    (first [ solve [auto with cost] | idtac ];
     lazymatch goal with
     | |- cost_safe (_ ≫= fun _ => with_tracker check_budget ≫= _) =>
         apply cost_safe_charge; intros ?
     | |- cost_safe (mbind _ _) => apply cost_safe_bind; [|intros ?]
     | |- cost_safe (modify _) => apply cost_safe_modify; intros ?; rewrite ?warnings_cost; reflexivity
     | |- cost_safe (match ?x with _ => _ end) => destruct x
     end).

Lemma cost_safe_body stage : cost_safe (run_stage_body env config stage).
Proof.
  unfold run_stage_body, run_by_kind, run_agent_stage, run_gate_stage, run_decision_stage, run_action_stage,
    validate_stage_output, stage_failure.
  cost_solve.
Qed.

Lemma begin_stage_cost stage e : e_cost (begin_stage env stage e) = e_cost e.
Proof.
  unfold begin_stage, save_stage_snapshot. simpl.
  destruct (e_rollback e) as [m|]; [|done]. by destruct (save_snapshot _ _ _ m).
Qed.

Lemma cost_safe_execute_stage stage : cost_safe (execute_stage env config stage).
Proof.
  unfold execute_stage. apply cost_safe_bind; [|intros; apply cost_safe_body].
  apply cost_safe_modify. intros e. apply begin_stage_cost.
Qed.

Lemma save_checkpoint_cost sid e : e_cost (save_checkpoint env sid e) = e_cost e.
Proof.
  unfold save_checkpoint. destruct (e_ckpt e) as [d|]; [|done]. by destruct (save _ _ _ _ _ d).
Qed.

Lemma rollback_to_stage_cost stage dag e :
  e_cost (snd (rollback_to_stage env stage dag e)) = e_cost e.
Proof.
  unfold rollback_to_stage. destruct (e_rollback e) as [m|]; [|done].
  destruct (resolve_rollback_target _ _ _ m); [|done].
  destruct (restore_snapshot _ _ m) as [[|] m']; [|done]. by destruct (index_of _ dag).
Qed.

Lemma reject_gate_cost stage r dag e : e_cost (snd (reject_gate env stage r dag e)) = e_cost e.
Proof.
  unfold reject_gate. destruct (e_rollback e) as [m|]; [|apply rollback_to_stage_cost].
  destruct (handle_gate_rejection _ _ _ _ _ _ m) as [[[[i g]|x] s] m']; [done|].
  by rewrite rollback_to_stage_cost.
Qed.

Lemma wait_for_control_cost fuel e b e' :
  wait_for_control env fuel e = Some (b, e') -> e_cost e' = e_cost e.
Proof.
  revert e. induction fuel as [|fuel IH]; intros e; simpl;
    (destruct (env_control env) as [callback|]; [|by intros [= <- <-]]);
    destruct (callback (e_world e)) as [[st|] w];
    repeat (case_match; try done); try (by intros [= <- <-]).
  intros Hw. by rewrite (IH _ Hw).
Qed.

(** What one iteration keeps: a next iteration starts within the budget, and a
    stop carries an error. *)
Definition cost_step_ok (r : step_result) : Prop :=
  match r with
  | Next _ _ e => has_budget e /\ within_budget e
  | Stop err e => has_budget e /\ is_Some err
  | Escaped _ _ | Paused => True
  end.

Lemma cost_returned stage r dag idx err e :
  has_budget e -> within_budget e -> cost_step_ok (stage_returned env stage r dag idx err e).
Proof.
  intros Hb Hw. unfold stage_returned.
  set (e1 := emit _ _).
  assert (E1 : e_cost e1 = e_cost e) by (subst e1; simpl; by rewrite save_checkpoint_cost).
  clearbody e1. unfold has_budget, within_budget in *. rewrite <- E1 in *.
  pose proof (reject_gate_cost stage r dag e1) as E2.
  destruct (reject_gate env stage r dag e1) as [i e2]. simpl in E2.
  repeat case_match; simpl; unfold has_budget, within_budget; simpl; rewrite ?E2; eauto.
Qed.

Lemma cost_raised stage x dag idx e :
  has_budget e -> (within_budget e \/ exn_cls x = CostExceededError) ->
  cost_step_ok (stage_raised env stage x dag idx e).
Proof.
  intros Hb Hw. unfold stage_raised.
  set (e1 := on_state _ _). assert (E1 : e_cost e1 = e_cost e) by done. clearbody e1.
  pose proof (rollback_to_stage_cost stage dag e1) as E2.
  destruct (rollback_to_stage env stage dag e1) as [i e2]. simpl in E2.
  unfold has_budget, within_budget in *.
  destruct Hw as [Hw|Hc].
  - repeat case_match; simpl; unfold has_budget, within_budget; simpl; rewrite ?E2, ?E1; eauto.
  - unfold isinstance. rewrite Hc. simpl. split; [done|eauto].
Qed.

Lemma cost_exec_step fuel dag idx sid err e :
  has_budget e -> within_budget e ->
  cost_step_ok (exec_step env workflow config fuel dag idx sid err e).
Proof.
  intros Hb Hw. unfold exec_step.
  destruct (wait_for_control env fuel e) as [[b e1]|] eqn:Ew; [|done].
  apply wait_for_control_cost in Ew. unfold has_budget, within_budget in Hb, Hw.
  rewrite <- Ew in Hb, Hw. destruct b; [|by split; [|eauto]].
  destruct (get_stage workflow sid) as [stage|]; [|done].
  destruct (dependencies_satisfied stage e1); [|done]. simpl.
  destruct (cost_safe_execute_stage stage e1 Hb) as [Hb2 Hw2]. specialize (Hw2 Hw).
  destruct (execute_stage env config stage e1) as [[r|x] e2]; simpl in *.
  - apply cost_returned; [done|]. destruct Hw2 as [?|(x & ? & _)]; done.
  - apply cost_raised; [done|]. destruct Hw2 as [?|(x' & Hx & ?)]; [auto|]. simplify_eq. auto.
Qed.

Lemma cost_exec_loop fuel dag idx err e err' e' :
  has_budget e -> within_budget e ->
  exec_loop env workflow config fuel dag idx err e = Some (Ret err', e') ->
  has_budget e' /\ (err' = None -> within_budget e').
Proof.
  revert idx err e. induction fuel as [|fuel IH]; intros idx err e Hb Hw; simpl.
  - destruct (dag !! idx); [done|]. by intros [= <- <-].
  - destruct (dag !! idx) as [sid|]; [|by intros [= <- <-]].
    pose proof (cost_exec_step fuel dag idx sid err e Hb Hw) as Hs.
    destruct (exec_step _ _ _ _ _ _ _ _ _) as [i err1 e1|err1 e1|x e1|]; simpl in Hs;
      [destruct Hs; by apply IH| |done..].
    intros [= <- <-]. destruct Hs as [? [t ->]]. done.
Qed.

Lemma cost_settle stage o err stop e :
  has_budget e ->
  let '(err', _, e') := settle_stage env stage o err stop e in
  has_budget e' /\ (err' = None -> err = None /\ within_budget e').
Proof.
  intros Hb. unfold settle_stage. destruct o as [r|x].
  - pose proof (check_budget_within (add_cost (r_cost_usd r) (reset_stage (e_cost e))) Hb) as [Hb' Hc].
    destruct (check_budget _) as [[ws|x] t]; simpl in *.
    + unfold has_budget, within_budget. simpl.
      rewrite save_checkpoint_cost. simpl. rewrite warnings_cost. auto.
    + split; [done|]. by destruct err.
  - simpl. split; [done|]. by destruct err.
Qed.

Lemma cost_settle_all settled pending err stop e :
  has_budget e -> (err = None -> settled = [] -> within_budget e) ->
  let '(_, err', _, e') := settle_all env settled pending err stop e in
  has_budget e' /\ (err' = None -> within_budget e').
Proof.
  revert pending err stop e. induction settled as [|[stage o] settled IH];
    intros pending err stop e Hb Hw; simpl; [auto|].
  pose proof (cost_settle stage o err stop e Hb) as H.
  destruct (settle_stage env stage o err stop e) as [[err1 stop1] e1].
  apply IH; [apply H|]. intros Herr _. by apply H.
Qed.

Lemma begin_all_cost batch e :
  e_cost (fold_left (fun e stage => begin_stage env stage e) batch e) = e_cost e.
Proof.
  revert e. induction batch as [|s batch IH]; intros e; simpl; [done|].
  by rewrite IH, begin_stage_cost.
Qed.

Lemma gather_bodies_budget batch e :
  has_budget e ->
  has_budget (snd (gather_bodies env config batch e)) /\
  length (fst (gather_bodies env config batch e)) = length batch.
Proof.
  revert e. induction batch as [|s batch IH]; intros e Hb; simpl; [done|].
  destruct (cost_safe_body s e Hb) as [Hb1 _].
  destruct (run_stage_body env config s e) as [o e1]. simpl in Hb1.
  specialize (IH e1 Hb1). destruct (gather_bodies env config batch e1) as [os e2]. simpl in *.
  destruct IH as [? ->]. done.
Qed.

Lemma batch_nonempty (r0 : StageNode) rs : take (parallel_limit config) (r0 :: rs) <> [].
Proof. unfold parallel_limit. destruct (Z.to_nat _) eqn:E; [lia|done]. Qed.

Lemma skip_all_cost (l : list StageNode) e :
  e_cost (fold_left (fun e stage => emit (StageSkipped (sn_id stage) (sn_name stage)
                                            [Lit "dependencies not satisfied"])
                                      (on_state (set_stage_status (sn_id stage) SKIPPED) e)) l e)
  = e_cost e.
Proof. revert e. induction l as [|s l IH]; intros e; simpl; [done|]. by rewrite IH. Qed.

Lemma cost_parallel fuel pending err e err' e' :
  has_budget e -> (err = None -> within_budget e) ->
  parallel_loop env config fuel pending err e = Some (err', e') ->
  has_budget e' /\ (err' = None -> within_budget e').
Proof.
  revert pending err e. induction fuel as [|fuel IH]; intros pending err e Hb Hw; simpl;
    (destruct pending as [|kv pending0] eqn:Epend; [by intros [= <- <-]|]); [done|].
  rewrite <- Epend. destruct (wait_for_control env fuel e) as [[b e1]|] eqn:Ew; [|done].
  apply wait_for_control_cost in Ew. unfold has_budget, within_budget in Hb, Hw.
  rewrite <- Ew in Hb, Hw. destruct b; [|by intros [= <- <-]; split].
  destruct (List.filter _ _) as [|r0 rs].
  - intros [= <- <-]. unfold has_budget, within_budget. by rewrite skip_all_cost.
  - pose proof (batch_nonempty r0 rs) as Hne. set (batch := take _ _) in *. unfold gather.
    set (e2 := fold_left _ batch e1).
    assert (Hb2 : has_budget e2) by (unfold has_budget, e2; by rewrite begin_all_cost).
    destruct (gather_bodies_budget batch e2 Hb2) as [Hb3 Hlen].
    destruct (gather_bodies env config batch e2) as [os e3]. simpl in Hb3, Hlen.
    pose proof (cost_settle_all (zip batch os) pending err false e3 Hb3) as Hs.
    destruct (settle_all _ _ _ _ _ _) as [[[p' err1] stop] e4].
    destruct Hs as [Hb4 Hw4].
    { intros _ Hz. destruct batch as [|b0 batch']; [done|]. by destruct os. }
    destruct stop; [by intros [= <- <-]|]. by apply IH.
Qed.

(** ** Termination *)

(** How often an outcome of a decision stage may still be taken. *)
Definition outcome_left (sid : Z) (h : DecisionHistory) (kv : string * DecisionSpec) : nat :=
  match ds_max_times (snd kv) with
  | Some m => Z.to_nat (m - Z.of_nat (count (fst kv) sid h))
  | None => 0
  end.

Definition stage_left (h : DecisionHistory) stage : nat :=
  sum_list_with (outcome_left (sn_id stage) h) (sn_decision_outcomes stage).

(** The decisions the whole workflow may still take. *)
Definition decisions_left (h : DecisionHistory) : nat :=
  sum_list_with (stage_left h) (ws_stages workflow).

Lemma sum_le {A} (f g : A -> nat) l :
  (forall x, x ∈ l -> (f x <= g x)%nat) -> (sum_list_with f l <= sum_list_with g l)%nat.
Proof.
  induction l as [|a l IH]; intros H; simpl; [lia|].
  assert (f a <= g a)%nat by (apply H, elem_of_cons; auto).
  assert (sum_list_with f l <= sum_list_with g l)%nat
    by (apply IH; intros x Hx; apply H, elem_of_cons; auto). lia.
Qed.

Lemma sum_lt {A} (f g : A -> nat) l y :
  (forall x, x ∈ l -> (f x <= g x)%nat) -> y ∈ l -> (f y < g y)%nat ->
  (sum_list_with f l < sum_list_with g l)%nat.
Proof.
  induction l as [|a l IH]; intros H Hy Hlt; simpl; [by apply elem_of_nil in Hy|].
  assert (f a <= g a)%nat by (apply H, elem_of_cons; auto).
  assert (Hl : forall x, x ∈ l -> (f x <= g x)%nat) by (intros x Hx; apply H, elem_of_cons; auto).
  pose proof (sum_le f g l Hl). apply elem_of_cons in Hy as [->|Hy]; [lia|].
  specialize (IH Hl Hy Hlt). lia.
Qed.

Lemma outcome_left_record sid h kv sid' o n ts :
  (outcome_left sid (record sid' o n ts h) kv <= outcome_left sid h kv)%nat.
Proof.
  unfold outcome_left. destruct (ds_max_times (snd kv)) as [m|]; [|lia].
  rewrite count_record. destruct (matches _ _ _); lia.
Qed.

Lemma decisions_left_record h sid o n ts :
  (decisions_left (record sid o n ts h) <= decisions_left h)%nat.
Proof. apply sum_le. intros stage _. apply sum_le. intros kv _. apply outcome_left_record. Qed.

(** Taking a bounded outcome uses up one of the decisions left. *)
Lemma decisions_left_taken h stage o spec m n ts :
  stage ∈ ws_stages workflow -> dget o (sn_decision_outcomes stage) = Some spec ->
  ds_max_times spec = Some m -> Z.of_nat (count o (sn_id stage) h) < m ->
  (decisions_left (record (sn_id stage) o n ts h) < decisions_left h)%nat.
Proof.
  intros Hin Ho Hm Hlt. apply (sum_lt _ _ _ stage); [|done|].
  - intros s _. apply sum_le. intros kv _. apply outcome_left_record.
  - apply (sum_lt _ _ _ (o, spec)); [|by apply dget_In|].
    + intros kv _. apply outcome_left_record.
    + unfold outcome_left. simpl. rewrite Hm, count_record, matches_same. lia.
Qed.

(** A workflow whose loops are bounded: no stage rolls back, and every
    decision outcome that jumps has a [max_times]. *)
Definition bounded_stage stage : Prop :=
  sn_on_error stage <> "rollback" /\ sn_gate_rollback_to stage = None /\
  dget "" (sn_decision_outcomes stage) = None /\
  (forall o spec, dget o (sn_decision_outcomes stage) = Some spec ->
     is_Some (ds_next spec) -> is_Some (ds_max_times spec)).

(** The control callback never says [paused]. *)
Definition never_paused : Prop :=
  match env_control env with
  | None => True
  | Some callback => forall w, fst (callback w) <> Some "paused"
  end.

Definition same_history e e' : Prop := e_history e' = e_history e.

#[local] Instance same_history_handler : HandlerRel same_history.
Proof.
  split; [|done..]. split; [done|]. intros e1 e2 e3 H1 H2. unfold same_history in *. congruence.
Qed.

Lemma same_history_rollback stage dag e : same_history e (snd (rollback_to_stage env stage dag e)).
Proof.
  unfold rollback_to_stage. destruct (e_rollback e) as [m|]; [|done].
  destruct (resolve_rollback_target _ _ _ m); [|done].
  destruct (restore_snapshot _ _ m) as [[|] m']; [|done]. by destruct (index_of _ dag).
Qed.

Lemma begin_stage_history stage e : e_history (begin_stage env stage e) = e_history e.
Proof.
  unfold begin_stage, save_stage_snapshot. simpl.
  destruct (e_rollback e) as [m|]; [|done]. by destruct (save_snapshot _ _ _ m).
Qed.

Lemma save_checkpoint_history sid e : e_history (save_checkpoint env sid e) = e_history e.
Proof.
  unfold save_checkpoint. destruct (e_ckpt e) as [d|]; [|done]. by destruct (save _ _ _ _ _ d).
Qed.

Lemma wait_for_control_never fuel e :
  never_paused -> exists b e', wait_for_control env fuel e = Some (b, e') /\ e_history e' = e_history e.
Proof.
  unfold never_paused. intros Hn. destruct fuel; simpl;
    (destruct (env_control env) as [callback|]; [|by eauto]);
    specialize (Hn (e_world e)); destruct (callback (e_world e)) as [[st|] w]; simpl in Hn;
    try by eauto.
  all: destruct (String.eqb_spec st "paused") as [->|]; [done|];
    destruct (_ || _); eauto.
Qed.

(** What a decision stage does to the history and where it may jump. *)
Lemma decision_body stage e :
  sn_kind stage = DECISION ->
  let (o, e') := run_stage_body env config stage e in
  (e_history e' = e_history e /\ exists x, o = Raise x) \/
  (exists ops state w r ts,
     env_runner env = Some ops /\
     fst (op_run_decision ops stage state (effective_timeout config stage) w) = Done (Ret r) /\
     let (d, h') := resolve stage (decision_stage_result (sn_id stage) (dn_outcome r) (dn_next_stage r) ts)
                      ts (e_history e) in
     e_history e' = h' /\
     (forall res, o = Ret res -> d_exhausted d = false /\ d_converged d = false /\
                  r_decision_next_stage res = int_or (d_next_stage d) (dn_next_stage r))).
Proof.
  intros Hk. unfold run_stage_body, run_by_kind. rewrite Hk. unfold run_decision_stage, need_runner. unfold_m.
  destruct (env_runner env) as [ops|]; [|left; eauto].
  unfold await_op.
  destruct (op_run_decision ops stage (e_state e) (effective_timeout config stage) (e_world e))
    as [[[r|x]|] w] eqn:E; [|left; by eauto..].
  cbn [e_history set_world].
  destruct (resolve stage _ _ (e_history e)) as [d h'] eqn:R.
  destruct (d_exhausted d) eqn:Ex; [|destruct (d_converged d) eqn:Ec]; simpl; right;
    exists ops, (e_state e), (e_world e), r, (stamp env (set_world w e));
    (split; [done|]); (split; [by rewrite E|]); rewrite R;
    (split; [done|]); intros res Hres; by simplify_eq.
Qed.

Context (laws : forall ops, env_runner env = Some ops -> RunnerLaws ops).

Lemma resolve_decreases stage r ts h d h' :
  stage ∈ ws_stages workflow -> bounded_stage stage ->
  (dn_outcome r = "proceed" \/ dn_outcome r ∈ dkeys (sn_decision_outcomes stage)) ->
  (dn_next_stage r = None \/ dn_next_stage r = ds_next (spec_of stage (dn_outcome r))) ->
  resolve stage (decision_stage_result (sn_id stage) (dn_outcome r) (dn_next_stage r) ts) ts h
  = (d, h') ->
  (decisions_left h' <= decisions_left h)%nat /\
  (d_exhausted d = false -> is_Some (int_or (d_next_stage d) (dn_next_stage r)) ->
   (decisions_left h' < decisions_left h)%nat).
Proof.
  intros Hin (_ & _ & Hemp & Hb) Hout Hnext E.
  set (res := decision_stage_result _ _ _ _) in E.
  assert (Hne : dn_outcome r <> "").
  { intros H. rewrite H in Hout. destruct Hout as [?|Hk]; [done|].
    apply dget_Some_keys in Hk. rewrite Hemp in Hk. by destruct Hk. }
  assert (Ho : outcome_of res = dn_outcome r).
  { unfold outcome_of, res. simpl. by destruct (String.eqb_spec (dn_outcome r) ""). }
  pose proof (resolve_records stage res ts h) as [n Hr]. rewrite E, Ho in Hr. simpl in Hr.
  subst h'. split; [apply decisions_left_record|]. intros Hex Hjump.
  assert (Hsn : is_Some (ds_next (spec_of stage (dn_outcome r)))).
  { assert (Hd : d_next_stage d = None \/ d_next_stage d = ds_next (spec_of stage (dn_outcome r))).
    { unfold resolve in E. rewrite Ho in E.
      repeat case_match; simplify_eq/=; auto. }
    destruct Hd as [Hd|Hd], Hnext as [Hn|Hn]; rewrite Hd, Hn in Hjump; simpl in Hjump;
      try (by destruct Hjump); try done;
      destruct (ds_next (spec_of stage (dn_outcome r))); eauto. }
  unfold spec_of in Hsn.
  destruct (dget (dn_outcome r) (sn_decision_outcomes stage)) as [spec|] eqn:Es;
    simpl in Hsn; [|by destruct Hsn].
  destruct (Hb _ _ Es Hsn) as [m Hm].
  apply (decisions_left_taken h stage (dn_outcome r) spec m); [done..|].
  pose proof (resolve_taken_within stage res ts h m) as Hw. rewrite E, Ho in Hw.
  apply Hw; [|done]. unfold spec_of. by rewrite Es.
Qed.

Lemma execute_stage_left stage e :
  stage ∈ ws_stages workflow -> bounded_stage stage ->
  let (o, e') := execute_stage env config stage e in
  (decisions_left (e_history e') <= decisions_left (e_history e))%nat /\
  (forall res, o = Ret res -> is_decision_stage stage = true ->
     is_Some (r_decision_next_stage res) ->
     (decisions_left (e_history e') < decisions_left (e_history e))%nat).
Proof.
  intros Hin Hb. unfold execute_stage, mbind, M_bind, modify.
  rewrite <- (begin_stage_history stage e). generalize (begin_stage env stage e). clear e. intros e.
  destruct (decide (sn_kind stage = DECISION)) as [Hk|Hk].
  - pose proof (decision_body stage e Hk) as H.
    destruct (run_stage_body env config stage e) as [o e'].
    destruct H as [[-> (x & ->)]|(ops & st & w & r & ts & Hops & Hr & H)]; [by split|].
    destruct (run_decision_law stage st (effective_timeout config stage) w r
                (RunnerLaws := laws ops Hops) Hr) as [Hout Hnext].
    destruct (resolve stage _ ts (e_history e)) as [d h'] eqn:E. destruct H as [-> Hres].
    destruct (resolve_decreases _ _ _ _ _ _ Hin Hb Hout Hnext E) as [Hle Hlt].
    split; [done|]. intros res Ho _ Hj. destruct (Hres res Ho) as (Hex & _ & Hn).
    rewrite Hn in Hj. auto.
  - pose proof (keeps_body same_history stage (or_introl Hk) e) as H.
    destruct (run_stage_body env config stage e) as [o e']. simpl in H. unfold same_history in H.
    rewrite H. split; [done|]. intros res _ Hd _. unfold is_decision_stage in Hd.
    by apply bool_decide_eq_true in Hd.
Qed.

Context (bounded : forall stage, stage ∈ ws_stages workflow -> bounded_stage stage).
Context (unpaused : never_paused).

(** The iterations the sequential loop may still make. *)
Definition loop_measure (dag : list Z) (idx : nat) (h : DecisionHistory) : nat :=
  decisions_left h * S (length dag) + (length dag - idx).

Lemma measure_next dag idx h h' :
  (idx < length dag)%nat -> (decisions_left h' <= decisions_left h)%nat ->
  (loop_measure dag (S idx) h' < loop_measure dag idx h)%nat.
Proof. unfold loop_measure. intros Hi Hle. nia. Qed.

Lemma measure_jump dag idx i h h' :
  (idx < length dag)%nat -> (decisions_left h' < decisions_left h)%nat ->
  (loop_measure dag i h' < loop_measure dag idx h)%nat.
Proof.
  unfold loop_measure. intros Hi Hlt.
  assert (decisions_left h' * S (length dag) + S (length dag)
          <= decisions_left h * S (length dag))%nat by nia. lia.
Qed.

(** An iteration never waits, and a next iteration is closer to the end. *)
Definition step_decreases (dag : list Z) (idx : nat) (h : DecisionHistory)
    (r : step_result (W := W)) : Prop :=
  match r with
  | Next i _ e => (loop_measure dag i (e_history e) < loop_measure dag idx h)%nat
  | Paused => False
  | _ => True
  end.

Lemma returned_decreases stage r dag idx err e h :
  (idx < length dag)%nat -> bounded_stage stage ->
  (decisions_left (e_history e) <= decisions_left h)%nat ->
  (is_decision_stage stage = true -> is_Some (r_decision_next_stage r) ->
   (decisions_left (e_history e) < decisions_left h)%nat) ->
  step_decreases dag idx h (stage_returned env stage r dag idx err e).
Proof.
  intros Hi (Hne & Hrb & _) Hle Hlt. unfold stage_returned.
  set (e1 := emit _ _).
  assert (E1 : e_history e1 = e_history e) by (subst e1; simpl; by rewrite save_checkpoint_history).
  clearbody e1. rewrite Hrb.
  destruct (String.eqb_spec (sn_on_error stage) "rollback"); [done|]. simpl.
  destruct (is_gate_stage stage && _).
  - destruct (String.eqb _ "skip"); simpl; [|done]. apply measure_next; [done|]. by rewrite E1.
  - destruct (is_decision_stage stage); [|simpl; apply measure_next; [done|by rewrite E1]].
    destruct (r_decision_next_stage r) as [next|];
      [|simpl; apply measure_next; [done|by rewrite E1]].
    destruct (index_of next dag); simpl.
    + apply measure_jump; [done|]. rewrite E1. eauto.
    + apply measure_next; [done|by rewrite E1].
Qed.

Lemma raised_decreases stage x dag idx e h :
  (idx < length dag)%nat -> bounded_stage stage ->
  (decisions_left (e_history e) <= decisions_left h)%nat ->
  step_decreases dag idx h (stage_raised env stage x dag idx e).
Proof.
  intros Hi (Hne & _) Hle. unfold stage_raised.
  destruct (String.eqb_spec (sn_on_error stage) "rollback"); [done|].
  repeat case_match; simpl; try done; by apply measure_next.
Qed.

Lemma exec_step_decreases fuel dag idx sid err e :
  (idx < length dag)%nat ->
  step_decreases dag idx (e_history e) (exec_step env workflow config fuel dag idx sid err e).
Proof.
  intros Hi. unfold exec_step.
  destruct (wait_for_control_never fuel e unpaused) as (b & e1 & -> & <-).
  destruct b; [|done].
  destruct (get_stage workflow sid) as [stage|] eqn:Eg; [|by apply measure_next].
  apply get_stage_in_id in Eg as [_ Hin].
  destruct (dependencies_satisfied stage e1); simpl; [|by apply measure_next].
  pose proof (execute_stage_left stage e1 Hin (bounded _ Hin)) as H.
  destruct (execute_stage env config stage e1) as [[r|x] e2]; destruct H as [Hle Hlt].
  - apply returned_decreases; [done|auto|done|]. intros Hd Hn. by apply (Hlt r).
  - apply raised_decreases; auto.
Qed.

Lemma exec_loop_returns fuel dag idx err e :
  (loop_measure dag idx (e_history e) <= fuel)%nat ->
  is_Some (exec_loop env workflow config fuel dag idx err e).
Proof.
  revert idx err e. induction fuel as [|fuel IH]; intros idx err e Hm; simpl.
  - rewrite lookup_ge_None_2; [eauto|]. unfold loop_measure in Hm. lia.
  - destruct (dag !! idx) as [sid|] eqn:Ed; [|eauto].
    apply lookup_lt_Some in Ed.
    pose proof (exec_step_decreases fuel dag idx sid err e Ed) as Hs.
    destruct (exec_step _ _ _ _ _ _ _ _ _); simpl in Hs; [|by eauto..|done].
    apply IH. lia.
Qed.

(** *** The parallel loop *)

Definition keyed (pending : dict Z StageNode) : Prop :=
  forall k stage, (k, stage) ∈ pending -> k = sn_id stage.

Lemma keyed_ddel k pending : keyed pending -> keyed (ddel k pending).
Proof. intros H k' s Hin%ddel_In. by apply H. Qed.

Lemma initial_pending_keyed e : keyed (initial_pending workflow e).
Proof.
  unfold initial_pending.
  assert (Hd : keyed []) by (intros k s H; by apply elem_of_nil in H).
  revert Hd. generalize (@nil (Z * StageNode)). generalize (List.filter
    (fun stage => negb (mem (sn_id stage) (completed_stages (e_state e)))) (ws_stages workflow)).
  intros l. induction l as [|s l IH]; intros d Hd; simpl; [done|]. apply IH.
  intros k stage [Hin|[= -> ->]]%dset_In; [by apply Hd|done].
Qed.

Lemma initial_pending_length e :
  (length (initial_pending workflow e) <= length (ws_stages workflow))%nat.
Proof.
  unfold initial_pending.
  pose proof (List.filter_length_le
    (fun stage => negb (mem (sn_id stage) (completed_stages (e_state e)))) (ws_stages workflow)) as Hf.
  revert Hf. generalize (List.filter
    (fun stage => negb (mem (sn_id stage) (completed_stages (e_state e)))) (ws_stages workflow)).
  intros l Hf.
  enough (forall d : dict Z StageNode,
            (length (fold_left (fun d stage => dset (sn_id stage) stage d) l d)
             <= length d + length l)%nat) as H by (specialize (H []); simpl in H; lia).
  clear Hf. induction l as [|s l IH]; intros d; simpl; [lia|].
  specialize (IH (dset (sn_id s) s d)). pose proof (dset_length_le (sn_id s) s d). lia.
Qed.

Lemma settle_all_length settled (pending : dict Z StageNode) err stop e :
  (length (fst (fst (fst (settle_all env settled pending err stop e)))) <= length pending)%nat.
Proof.
  revert pending err stop e. induction settled as [|[s o] settled IH];
    intros pending err stop e; simpl; [lia|].
  destruct (settle_stage env s o err stop e) as [[err' stop'] e1].
  specialize (IH (ddel (sn_id s) pending) err' stop' e1).
  pose proof (ddel_length (sn_id s) pending). lia.
Qed.

Lemma settle_all_shrinks s o settled (pending : dict Z StageNode) err stop e :
  is_Some (dget (sn_id s) pending) ->
  (length (fst (fst (fst (settle_all env ((s, o) :: settled) pending err stop e)))) < length pending)%nat.
Proof.
  intros H. simpl. destruct (settle_stage env s o err stop e) as [[err' stop'] e1].
  pose proof (settle_all_length settled (ddel (sn_id s) pending) err' stop' e1).
  pose proof (ddel_length_lt (sn_id s) pending H). lia.
Qed.

Lemma gather_bodies_length batch e : length (fst (gather_bodies env config batch e)) = length batch.
Proof.
  revert e. induction batch as [|s batch IH]; intros e; simpl; [done|].
  destruct (run_stage_body env config s e) as [o e1]. specialize (IH e1).
  destruct (gather_bodies env config batch e1) as [os e2]. simpl in *. by rewrite IH.
Qed.

Lemma parallel_loop_returns fuel pending err e :
  keyed pending -> (length pending <= fuel)%nat ->
  is_Some (parallel_loop env config fuel pending err e).
Proof.
  revert pending err e. induction fuel as [|fuel IH]; intros pending err e Hk Hlen; simpl;
    (destruct pending as [|kv pending0] eqn:Epend; [by eauto|]); [simpl in Hlen; lia|].
  rewrite <- Epend in *. clear kv pending0 Epend.
  destruct (wait_for_control_never fuel e unpaused) as (b & e1 & -> & _).
  destruct b; [|by eauto].
  pose proof (fun stage => ready_batch_spec pending e1 stage (parallel_limit config)) as Hready.
  destruct (List.filter _ _) as [|r0 rs]; [by eauto|].
  pose proof (batch_nonempty r0 rs) as Hne. set (batch := take _ _) in *. unfold gather.
  set (e2 := fold_left _ batch e1). pose proof (gather_bodies_length batch e2) as Hlo.
  destruct (gather_bodies env config batch e2) as [os e3]. simpl in Hlo.
  destruct batch as [|s batch']; [done|]. destruct os as [|o os]; [done|].
  assert (Hs : is_Some (dget (sn_id s) pending)).
  { destruct (Hready s) as (_ & k & Hin); [apply elem_of_cons; auto|].
    apply dget_Some_keys, list_elem_of_fmap. exists (k, s). split; [|done].
    simpl. symmetry. by apply Hk. }
  pose proof (settle_all_shrinks s o (zip batch' os) pending err false e3 Hs) as Hlt.
  pose proof (settle_all_pending ((s, o) :: zip batch' os) pending err false e3) as Hsub.
  change (zip (s :: batch') (o :: os)) with ((s, o) :: zip batch' os).
  destruct (settle_all env ((s, o) :: zip batch' os) pending err false e3) as [[[p' err1] stop] e4].
  cbn [fst] in Hlt, Hsub. destruct stop; [by eauto|]. apply IH; [|lia].
  intros k s' Hin%Hsub. by apply Hk.
Qed.
End engine_facts.
