(* ===== verification/EngineSuccess.v ===== *)
(** * What a successful run has done

    For workflows without rollback and decision stages: a run that reports
    success has completed every stage of the DAG, each with a result its
    dependents accept, in both the sequential and the parallel mode.  The file
    ends with the end-to-end theorems on [execute]. *)

From S2P Require Import Prelude Errors WorkflowState Cost Decision Dag Rollback StageRunner Checkpoint Engine EngineFacts.

Open Scope string_scope.
Open Scope list_scope.
Open Scope Z_scope.

Section success.
Context {W : Type} (env : Env W) (workflow : WorkflowSchema) (config : EngineConfig).
Implicit Types (e : Engine W) (stage : StageNode).

(** ** Statuses of results *)

(** Every value a computation returns satisfies [P]. *)
Definition returns_only {A} (P : A -> Prop) (m : M (Engine W) exn A) : Prop :=
  forall e a, fst (m e) = Ret a -> P a.

Lemma returns_bind {A B} (P : B -> Prop) (m : M (Engine W) exn A) (k : A -> M (Engine W) exn B) :
  (forall a, returns_only P (k a)) -> returns_only P (x ← m; k x).
Proof.
  intros Hk e b. unfold mbind, M_bind. destruct (m e) as [[a|x] e']; [apply Hk|done].
Qed.

Lemma returns_ret {A} (P : A -> Prop) a : P a -> returns_only P (mret a).
Proof. intros H e a' [= <-]. done. Qed.

Lemma returns_raise {A} (P : A -> Prop) x : returns_only P (raise x).
Proof. done. Qed.

Definition handler_result stage (r : StageResult) : Prop :=
  result_ok r = true \/ (is_gate_stage stage = true /\ r_status r = GATE_REJECTED).

Ltac returns_solve :=
  repeat lazymatch goal with
  | |- returns_only _ (mbind _ _) => apply returns_bind; intros ?
  | |- returns_only _ (raise _) => apply returns_raise
  | |- returns_only _ (mret _) => apply returns_ret
  | |- returns_only _ (match ?x with _ => _ end) => destruct x eqn:?
  end.

Lemma handlers_result stage :
  returns_only (handler_result stage)
    (run_by_kind env config stage).
Proof.
  unfold run_by_kind, run_agent_stage, run_gate_stage, run_decision_stage, run_action_stage,
    stage_failure, handler_result, is_gate_stage, bool_decide.
  returns_solve; simpl; auto.
Qed.

Lemma body_result stage : returns_only (handler_result stage) (run_stage_body env config stage).
Proof.
  intros e r. unfold run_stage_body, mbind, M_bind, gets.
  pose proof (handlers_result stage e) as H.
  destruct (run_by_kind env config stage e) as [[r0|x] e']; [|done]. intros [= <-]. exact (H r0 eq_refl).
Qed.

(** ** The state a stage leaves *)

Definition same_state e e' : Prop := e_state e' = e_state e.

#[local] Instance same_state_handler : HandlerRel same_state.
Proof.
  split; [|done..]. split; [done|]. intros e1 e2 e3 H1 H2. unfold same_state in *. congruence.
Qed.

Lemma body_state stage e : e_state (snd (run_stage_body env config stage e)) = e_state e.
Proof. apply (keeps_body env config same_state). by right. Qed.

Lemma begin_stage_state stage e :
  e_state (begin_stage env stage e) = mark_stage_running (sn_id stage) (e_state e).
Proof.
  unfold begin_stage, save_stage_snapshot. simpl.
  destruct (e_rollback e) as [m|]; [|done]. by destruct (save_snapshot _ _ _ m).
Qed.

(** The two fields the dependency check reads. *)
Definition deps_view (s : WorkflowState) : list Z * dict Z StageResult :=
  (completed_stages s, stage_results s).

Lemma dependency_ok_view s s' d :
  deps_view s = deps_view s' -> dependency_ok s d = dependency_ok s' d.
Proof. intros [= H1 H2]. unfold dependency_ok, get_stage_result. by rewrite H1, H2. Qed.

Lemma execute_stage_view stage e :
  deps_view (e_state (snd (execute_stage env config stage e))) = deps_view (e_state e).
Proof.
  unfold execute_stage, mbind, M_bind, modify. rewrite body_state, begin_stage_state. done.
Qed.

Lemma save_checkpoint_view sid e :
  deps_view (e_state (save_checkpoint env sid e)) = deps_view (e_state e).
Proof.
  unfold save_checkpoint. destruct (e_ckpt e) as [d|]; [|done]. by destruct (save _ _ _ _ _ d).
Qed.

Lemma wait_for_control_state fuel e b e' :
  wait_for_control env fuel e = Some (b, e') -> e_state e' = e_state e.
Proof.
  revert e. induction fuel as [|fuel IH]; intros e; simpl;
    (destruct (env_control env) as [callback|]; [|by intros [= <- <-]]);
    destruct (callback (e_world e)) as [[st|] w];
    repeat (case_match; try done); try (by intros [= <- <-]).
  intros Hw. by rewrite (IH _ Hw).
Qed.

(** A stored result makes its stage an accepted dependency and disturbs no
    other. *)
Lemma dependency_ok_completed sid r s d :
  result_ok r = true -> d = sid \/ dependency_ok s d = true ->
  dependency_ok (mark_stage_completed sid r s) d = true.
Proof.
  intros Hr Hd. unfold dependency_ok, mark_stage_completed, get_stage_result in *. simpl.
  rewrite dget_dset. destruct (decide (sid = d)) as [->|Hne].
  - rewrite Hr, andb_true_r. apply mem_true, elem_of_app. right. by apply list_elem_of_singleton.
  - destruct Hd as [->|Hd]; [done|]. apply andb_true_iff in Hd as [Hm ->].
    rewrite andb_true_r. apply mem_true. apply mem_true in Hm. apply elem_of_app. auto.
Qed.

(** ** Sequential runs *)

Definition static_stage stage : Prop :=
  sn_kind stage <> DECISION /\ sn_on_error stage <> "rollback" /\ sn_gate_rollback_to stage = None.

Context (static : forall stage, stage ∈ ws_stages workflow -> static_stage stage).
Context (nodup : NoDup (stage_ids (ws_stages workflow))).

Definition done_upto (dag : list Z) (idx : nat) e : Prop :=
  forall sid, sid ∈ take idx dag -> dependency_ok (e_state e) sid = true.

(** An iteration without an error advances by one completed stage. *)
Definition step_completes (dag : list Z) (idx : nat) (r : step_result (W := W)) : Prop :=
  match r with
  | Next i None e => i = S idx /\ done_upto dag (S idx) e
  | Stop None _ => False
  | _ => True
  end.

Lemma done_upto_S dag idx sid r e e1 :
  dag !! idx = Some sid -> done_upto dag idx e -> result_ok r = true ->
  deps_view (e_state e1) = deps_view (mark_stage_completed sid r (e_state e)) ->
  done_upto dag (S idx) e1.
Proof.
  intros Hl Hd Hr Hv d Hin. rewrite (take_S_r _ _ _ Hl) in Hin.
  rewrite (dependency_ok_view _ _ d Hv). apply dependency_ok_completed; [done|].
  apply elem_of_app in Hin as [Hin|Hin]; [right; by apply Hd|].
  left. by apply list_elem_of_singleton in Hin.
Qed.

Lemma returned_completes stage r dag idx err e :
  stage ∈ ws_stages workflow -> dag !! idx = Some (sn_id stage) ->
  done_upto dag idx e -> handler_result stage r ->
  step_completes dag idx (stage_returned env stage r dag idx err e).
Proof.
  intros Hin Hl Hd Hr. destruct (static _ Hin) as (Hk & Hoe & Hrb). unfold stage_returned.
  set (e0 := on_state _ e). set (e1 := emit _ _).
  assert (E1 : deps_view (e_state e1) = deps_view (mark_stage_completed (sn_id stage) r (e_state e)))
    by (subst e1; simpl; by rewrite save_checkpoint_view).
  clearbody e1. rewrite Hrb. destruct (String.eqb_spec (sn_on_error stage) "rollback"); [done|].
  assert (is_decision_stage stage = false) as -> by (by apply bool_decide_eq_false).
  destruct (is_gate_stage stage && bool_decide (r_status r = GATE_REJECTED)) eqn:Eg; simpl.
  - destruct (String.eqb _ "skip"); [|done]. simpl. destruct err; [done|]. split; [done|].
    intros d Hdd. rewrite (take_S_r _ _ _ Hl) in Hdd.
    assert (Hv : dependency_ok (mark_stage_completed (sn_id stage) (with_status COMPLETED r) (e_state e)) d
                 = true).
    { apply dependency_ok_completed; [done|].
      apply elem_of_app in Hdd as [Hdd|Hdd]; [right; by apply Hd|].
      left. by apply list_elem_of_singleton in Hdd. }
    rewrite <- Hv. injection E1 as Ec Er. unfold dependency_ok, get_stage_result in *. simpl.
    rewrite Ec, Er. unfold mark_stage_completed. simpl.
    rewrite !dget_dset. by destruct (decide (sn_id stage = d)).
  - destruct err; [done|]. split; [done|].
    apply (done_upto_S dag idx (sn_id stage) r e); [done..| |done].
    destruct Hr as [Hr|[Hg Hs]]; [done|].
    rewrite Hg, Hs in Eg. done.
Qed.

Lemma raised_errors stage x dag idx e :
  match stage_raised env stage x dag idx e with
  | Next _ err _ | Stop err _ => is_Some err
  | _ => True
  end.
Proof. unfold stage_raised. repeat case_match; simplify_eq; eauto. Qed.

Lemma topological_stage dag idx sid :
  topological (ws_stages workflow) dag -> dag !! idx = Some sid ->
  exists stage, get_stage workflow sid = Some stage /\ stage ∈ ws_stages workflow /\
    sn_id stage = sid /\ forall d, d ∈ sn_depends_on stage -> d ∈ take idx dag.
Proof.
  intros [Hp Hdf] Hl.
  assert (sid ∈ stage_ids (ws_stages workflow)) as (stage & -> & Hin)%list_elem_of_fmap.
  { rewrite <- Hp. by eapply list_elem_of_lookup_2. }
  exists stage. split; [by apply get_stage_in_nodup|]. split; [done|]. split; [done|].
  intros d Hd. apply (Hdf stage (take idx dag) (drop (S idx) dag)); [done| |done].
  symmetry. by apply take_drop_middle.
Qed.

Lemma exec_step_completes fuel dag idx sid e :
  topological (ws_stages workflow) dag -> dag !! idx = Some sid -> done_upto dag idx e ->
  step_completes dag idx (exec_step env workflow config fuel dag idx sid None e).
Proof.
  intros Ht Hl Hd. unfold exec_step.
  destruct (wait_for_control env fuel e) as [[b e1]|] eqn:Ew; [|done].
  apply wait_for_control_state in Ew. destruct b; [|done].
  destruct (topological_stage dag idx sid Ht Hl) as (stage & -> & Hin & Hid & Hdeps). subst sid.
  assert (Hd1 : done_upto dag idx e1) by (intros d Hdd; rewrite Ew; by apply Hd).
  assert (dependencies_satisfied stage e1 = true) as ->.
  { unfold dependencies_satisfied. apply forallb_spec. intros d Hdd. by apply Hd1, Hdeps. }
  simpl. pose proof (execute_stage_view stage e1) as Hv.
  pose proof (fun r => body_result stage (begin_stage env stage e1) r) as Hr.
  assert (Hr' : forall r, fst (execute_stage env config stage e1) = Ret r -> handler_result stage r)
    by (exact Hr).
  destruct (execute_stage env config stage e1) as [[r|x] e2]; simpl in *.
  - apply returned_completes; [done|done| |by apply Hr'].
    intros d Hdd. rewrite (dependency_ok_view _ _ d Hv). by apply Hd1.
  - pose proof (raised_errors stage x dag idx e2) as He.
    destruct (stage_raised _ _ _ _ _ _) as [i err e3|err e3|x' e3|]; simpl; try done;
      destruct He as [t ->]; done.
Qed.

Lemma exec_step_keeps_error fuel dag idx sid t e :
  match exec_step env workflow config fuel dag idx sid (Some t) e with
  | Next _ err _ | Stop err _ => is_Some err
  | _ => True
  end.
Proof.
  unfold exec_step. destruct (wait_for_control env fuel e) as [[[] e1]|]; [|by eexists|done].
  destruct (get_stage workflow sid) as [stage|]; [|by eexists].
  destruct (dependencies_satisfied stage e1); [|by eexists]. simpl.
  destruct (execute_stage env config stage e1) as [[r|x] e2]; [|apply raised_errors].
  unfold stage_returned. repeat case_match; simplify_eq; eauto.
Qed.

Lemma exec_loop_keeps_error fuel dag idx t e err e' :
  exec_loop env workflow config fuel dag idx (Some t) e = Some (Ret err, e') -> is_Some err.
Proof.
  revert idx t e. induction fuel as [|fuel IH]; intros idx t e; simpl;
    (destruct (dag !! idx) as [sid|]; [|intros [= <- <-]; by eauto]); [done|].
  pose proof (exec_step_keeps_error fuel dag idx sid t e) as H.
  destruct (exec_step _ _ _ _ _ _ _ _ _) as [i err1 e1|err1 e1|x e1|]; [| |done..].
  - destruct H as [t1 ->]. apply IH.
  - intros [= <- <-]. done.
Qed.

Lemma exec_loop_completes fuel dag idx e e' :
  topological (ws_stages workflow) dag -> done_upto dag idx e ->
  exec_loop env workflow config fuel dag idx None e = Some (Ret None, e') ->
  forall sid, sid ∈ dag -> dependency_ok (e_state e') sid = true.
Proof.
  intros Ht. revert idx e. induction fuel as [|fuel IH]; intros idx e Hd; simpl;
    destruct (dag !! idx) as [sid|] eqn:El; try done.
  1, 3: intros [= <-] sid Hin; apply Hd; rewrite take_ge; [done|by apply lookup_ge_None].
  pose proof (exec_step_completes fuel dag idx sid e Ht El Hd) as H.
  destruct (exec_step _ _ _ _ _ _ _ _ _) as [i err1 e1|err1 e1|x e1|]; [| |done..].
  - destruct err1 as [t|].
    + intros Hl. by apply exec_loop_keeps_error in Hl as [? ?].
    + destruct H as [-> H]. by apply IH.
  - destruct err1; [done|]. by destruct H.
Qed.

(** ** Parallel runs *)

Lemma settle_ok stage o err stop e stop' e' :
  settle_stage env stage o err stop e = (None, stop', e') ->
  err = None /\ stop' = stop /\
  exists r, o = Ret r /\
    deps_view (e_state e') = deps_view (mark_stage_completed (sn_id stage) r (e_state e)).
Proof.
  unfold settle_stage. destruct o as [r|x]; [|by destruct err].
  destruct (check_budget _) as [[ws|x] t]; [|by destruct err].
  intros [= -> <- <-]. split; [done|]. split; [done|]. exists r. split; [done|].
  simpl. rewrite save_checkpoint_view. simpl.
  pose proof (keeps_warnings same_state ws (set_tracker t e)) as H. unfold same_state in H.
  by rewrite H.
Qed.

(** A stage is still pending or accepted as a dependency. *)
Definition accounted (pending : dict Z StageNode) e (d : Z) : Prop :=
  is_Some (dget d pending) \/ dependency_ok (e_state e) d = true.

Lemma settle_all_ok settled pending err stop e p' stop' e' :
  Forall (fun so => forall r, snd so = Ret r -> result_ok r = true) settled ->
  settle_all env settled pending err stop e = (p', None, stop', e') ->
  err = None /\ stop' = stop /\ forall d, accounted pending e d -> accounted p' e' d.
Proof.
  revert pending err stop e. induction settled as [|[s o] settled IH];
    intros pending err stop e Hok; simpl; [by intros [= -> -> -> ->]|].
  apply Forall_cons in Hok as [Ho Hok].
  destruct (settle_stage env s o err stop e) as [[err1 stop1] e1] eqn:E. intros Hs.
  destruct (IH _ _ _ _ Hok Hs) as (-> & -> & Hd).
  destruct (settle_ok _ _ _ _ _ _ _ E) as (-> & -> & r & -> & Hv).
  split; [done|]. split; [done|]. intros d Hacc. apply Hd. unfold accounted.
  destruct (decide (sn_id s = d)) as [<-|Hne].
  - right. rewrite (dependency_ok_view _ _ _ Hv). apply dependency_ok_completed; [by apply Ho|auto].
  - destruct Hacc as [Hp|Hp]; [left; by rewrite dget_ddel_ne|].
    right. rewrite (dependency_ok_view _ _ _ Hv). apply dependency_ok_completed; [by apply Ho|auto].
Qed.

Lemma gather_bodies_results batch e :
  (forall s, s ∈ batch -> is_gate_stage s = false) ->
  Forall (fun so => forall r, snd so = Ret r -> result_ok r = true)
    (zip batch (fst (gather_bodies env config batch e))).
Proof.
  revert e. induction batch as [|s batch IH]; intros e Hg; simpl; [done|].
  pose proof (body_result s e) as Hr.
  destruct (run_stage_body env config s e) as [o e1]. simpl in Hr.
  specialize (IH e1). destruct (gather_bodies env config batch e1) as [os e2]. simpl in *.
  constructor.
  - simpl. intros r ->. destruct (Hr r eq_refl) as [?|[Hgs _]]; [done|].
    rewrite Hg in Hgs; [done|]. apply elem_of_cons. auto.
  - apply IH. intros x Hx. apply Hg, elem_of_cons. auto.
Qed.

Lemma gather_view batch e :
  deps_view (e_state (snd (gather env config batch e))) = deps_view (e_state e).
Proof.
  unfold gather.
  assert (H1 : deps_view (e_state (fold_left (fun e stage => begin_stage env stage e) batch e))
               = deps_view (e_state e)).
  { revert e. induction batch as [|s batch IH]; intros e; simpl; [done|].
    by rewrite IH, begin_stage_state. }
  rewrite <- H1. generalize (fold_left (fun e stage => begin_stage env stage e) batch e). clear.
  induction batch as [|s batch IH]; intros e; simpl; [done|].
  pose proof (body_state s e) as Hs. destruct (run_stage_body env config s e) as [o e1].
  simpl in Hs. specialize (IH e1). destruct (gather_bodies env config batch e1) as [os e2].
  simpl in *. by rewrite IH, Hs.
Qed.

(** The first element of a list with a decidable property. *)
Lemma first_with (P : Z -> Prop) `{!forall x, Decision (P x)} l :
  (exists x, x ∈ l /\ P x) ->
  exists pre x post, l = pre ++ x :: post /\ P x /\ forall y, y ∈ pre -> ~ P y.
Proof.
  induction l as [|a l IH]; [intros (x & Hx & _); by apply elem_of_nil in Hx|].
  intros (x & Hx & HP). destruct (decide (P a)) as [Ha|Ha].
  - exists [], a, l. split; [done|]. split; [done|]. intros y Hy. by apply elem_of_nil in Hy.
  - apply elem_of_cons in Hx as [->|Hx]; [done|].
    destruct IH as (pre & z & post & -> & Hz & Hpre); [eauto|].
    exists (a :: pre), z, post. split; [done|]. split; [done|].
    intros y [->|Hy]%elem_of_cons; [done|auto].
Qed.

Lemma some_stage_ready dag pending e :
  topological (ws_stages workflow) dag -> pending <> [] ->
  pending_ok workflow pending -> keyed pending ->
  (forall sid, sid ∈ dag -> accounted pending e sid) ->
  List.filter (fun stage => stage_ready stage e) (dvals pending) <> [].
Proof.
  intros [Hp Hdf] Hne Hok Hk Hacc.
  destruct (first_with (fun x => x ∈ dkeys pending) dag) as (pre & x & post & Edag & Hx & Hpre).
  { destruct pending as [|[k s] pending0]; [done|].
    assert (Hin : (k, s) ∈ (k, s) :: pending0) by (apply elem_of_cons; auto).
    pose proof (Hok _ _ Hin) as Hg. apply get_stage_in_id in Hg as [_ Hs].
    exists k. split; [|apply elem_of_cons; auto]. rewrite Hp, (Hk _ _ Hin).
    apply list_elem_of_fmap. eauto. }
  apply list_elem_of_fmap in Hx as ([k s] & -> & Hin). simpl in *.
  pose proof (Hk _ _ Hin) as ->. pose proof (Hok _ _ Hin) as Hg.
  apply get_stage_in_id in Hg as [_ Hs].
  assert (Hr : stage_ready s e = true).
  { unfold stage_ready. apply forallb_spec. intros d Hd.
    pose proof (Hdf s pre post Hs Edag d Hd) as Hdp.
    destruct (Hacc d) as [Hpd|Hpd].
    - rewrite Edag, elem_of_app. auto.
    - destruct (Hpre d Hdp). by apply dget_Some_keys.
    - unfold dependency_ok in Hpd. by apply andb_true_iff in Hpd as [? _]. }
  assert (Hf : s ∈ List.filter (fun stage => stage_ready stage e) (dvals pending)).
  { apply list_elem_of_In, filter_In. split; [|done]. apply list_elem_of_In.
    apply list_elem_of_fmap. by exists (sn_id s, s). }
  intros E. rewrite E in Hf. by apply elem_of_nil in Hf.
Qed.

Lemma parallel_loop_completes fuel dag pending err e e' :
  topological (ws_stages workflow) dag ->
  pending_ok workflow pending -> keyed pending ->
  (forall k s, (k, s) ∈ pending -> is_gate_stage s = false) ->
  (forall sid, sid ∈ dag -> err = None -> accounted pending e sid) ->
  parallel_loop env config fuel pending err e = Some (None, e') ->
  err = None /\ forall sid, sid ∈ dag -> dependency_ok (e_state e') sid = true.
Proof.
  intros Ht. revert pending err e. induction fuel as [|fuel IH];
    intros pending err e Hok Hk Hg Hacc; simpl;
    (destruct pending as [|kv pending0] eqn:Epend;
     [intros [= -> ->]; split; [done|]; intros sid Hs;
      destruct (Hacc sid Hs eq_refl) as [[? ?]|?]; done|]); [done|].
  assert (Hne : pending <> []) by (by rewrite Epend). rewrite <- Epend in *. clear kv pending0 Epend.
  destruct (wait_for_control env fuel e) as [[b e1]|] eqn:Ew; [|done].
  apply wait_for_control_state in Ew. destruct b; [|done].
  assert (Hacc1 : forall sid, sid ∈ dag -> err = None -> accounted pending e1 sid).
  { intros sid Hs He. unfold accounted. rewrite Ew. by apply Hacc. }
  pose proof (fun s => ready_batch_spec pending e1 s (parallel_limit config)) as Hready.
  pose proof (some_stage_ready dag pending e1 Ht Hne Hok Hk) as Hsome.
  destruct (List.filter _ _) as [|r0 rs].
  { intros [= -> _]. destruct Hsome; [|done]. intros sid Hs. by apply Hacc1. }
  set (batch := take _ _) in *. pose proof (gather_view batch e1) as Hv.
  pose proof (gather_bodies_results batch
                (fold_left (fun e stage => begin_stage env stage e) batch e1)) as Hres.
  unfold gather in *. destruct (gather_bodies _ _ _ _) as [os e2]. simpl in Hv, Hres.
  pose proof (settle_all_pending env (zip batch os) pending err false e2) as Hsub.
  destruct (settle_all env (zip batch os) pending err false e2) as [[[p' err1] stop] e3] eqn:Es.
  cbn [fst] in Hsub.
  assert (Hgate : forall s, s ∈ batch -> is_gate_stage s = false)
    by (intros s (_ & k & Hin)%Hready; by apply (Hg k)).
  assert (Hnext : err1 = None -> err = None /\ stop = false /\
            forall sid, sid ∈ dag -> accounted p' e3 sid).
  { intros ->. destruct (settle_all_ok _ _ _ _ _ _ _ _ (Hres Hgate) Es) as (-> & -> & Hd).
    split; [done|]. split; [done|]. intros sid Hs. apply Hd.
    unfold accounted. rewrite (dependency_ok_view _ _ sid Hv). by apply Hacc1. }
  destruct stop.
  - intros [= -> _]. by destruct (Hnext eq_refl) as (_ & ? & _).
  - intros Hl. apply IH in Hl.
    + destruct Hl as [-> Hl]. by destruct (Hnext eq_refl) as (-> & _).
    + intros k s Hin%Hsub. by apply (Hok k).
    + intros k s Hin%Hsub. by apply Hk.
    + intros k s Hin%Hsub. by apply (Hg k).
    + intros sid Hs He. by apply Hnext.
Qed.
End success.

(** ** [execute] *)

Section execute.
Context {W : Type} (env : Env W) (workflow : WorkflowSchema) (config : EngineConfig).
Implicit Types e : Engine W.

(** The engine when its loop starts. *)
Definition started e : Engine W :=
  emit (WorkflowStart (ws_name workflow) (length (ws_stages workflow))) (init_statuses workflow e).

Lemma started_view e : deps_view (e_state (started e)) = deps_view (e_state e).
Proof.
  unfold started, init_statuses. simpl. generalize (e_state e).
  induction (ws_stages workflow) as [|s l IH]; intros st; simpl; [done|]. by rewrite IH.
Qed.

Lemma started_completed e : completed_stages (e_state (started e)) = completed_stages (e_state e).
Proof. exact (f_equal fst (started_view e)). Qed.

Definition all_actions (l : list (option StageNode)) : bool :=
  forallb (fun o => match o with Some s => is_action_stage s | None => false end) l.

(** A run from the start takes one of the two loops from [started e]. *)
Inductive run_kind (fuel : nat) e : option (outcome exn WorkflowResult * Engine W) -> Prop :=
| RunInvalid x :
    build_dag_order workflow = Raise x ->
    run_kind fuel e
      (Some (Ret (mkWorkflowResult false (ws_name workflow) 0 (length (ws_stages workflow)) 0 0
                    (conversation_id (e_state e)) (Some (exn_msg x)) [] []), e))
| RunParallel dag :
    build_dag_order workflow = Ret dag ->
    all_actions (map (get_stage workflow)
      (List.filter (fun sid => negb (mem sid (completed_stages (e_state (started e))))) dag)) = true ->
    run_kind fuel e
      (match parallel_loop env config fuel (initial_pending workflow (started e)) None (started e) with
       | None => None
       | Some (err, e') =>
           let (r, e') := finish_workflow env workflow (env_clock env (e_world e)) err None e' in
           Some (Ret r, e')
       end)
| RunSequential dag :
    build_dag_order workflow = Ret dag ->
    run_kind fuel e
      (match exec_loop env workflow config fuel dag 0 None (started e) with
       | None => None
       | Some (Raise x, e') => Some (Raise x, e')
       | Some (Ret err, e') =>
           let (r, e') := finish_workflow env workflow (env_clock env (e_world e)) err
                            (conversation_id (e_state e')) e' in
           Some (Ret r, e')
       end).

Lemma execute_kind fuel e : run_kind fuel e (execute env workflow config fuel None e).
Proof.
  unfold execute. destruct (build_dag_order workflow) as [dag|x] eqn:E; [|by constructor].
  change (emit _ (init_statuses workflow e)) with (started e). simpl. rewrite drop_0.
  destruct (_ && _ && forallb _ _) eqn:Ep.
  - apply andb_true_iff in Ep as [_ Ep]. by apply (RunParallel fuel e dag).
  - by apply (RunSequential fuel e dag).
Qed.

Lemma log_inv_started e : log_inv workflow e -> log_inv workflow (started e).
Proof.
  intros H. eapply log_inv_quiet; [|exact H].
  split; [exists [WorkflowStart (ws_name workflow) (length (ws_stages workflow))]; done|].
  by rewrite started_completed.
Qed.

Lemma new_engine_log_inv rm ckpt w : log_inv workflow (new_engine env workflow config rm ckpt w).
Proof.
  split; [intros d Hd; by apply elem_of_nil in Hd|].
  intros pre sid n ph post stage d H. simpl in H. symmetry in H. by apply app_eq_nil in H as [_ ?].
Qed.

(** A fresh parallel run has every stage pending, and only actions. *)
Lemma initial_pending_fresh e :
  NoDup (stage_ids (ws_stages workflow)) -> completed_stages (e_state e) = [] ->
  initial_pending workflow e = map (fun s => (sn_id s, s)) (ws_stages workflow).
Proof.
  intros Hnd Hc. unfold initial_pending. rewrite Hc.
  rewrite filter_all_id by (intros s _; by rewrite (proj2 (mem_false _ _) (not_elem_of_nil _))).
  by rewrite (fold_dset_fresh sn_id (fun s => s)).
Qed.

Lemma fresh_pending_accounted dag e sid :
  NoDup (stage_ids (ws_stages workflow)) -> completed_stages (e_state e) = [] ->
  topological (ws_stages workflow) dag -> sid ∈ dag ->
  accounted (initial_pending workflow e) e sid.
Proof.
  intros Hnd Hc [Hp _] Hin. left. apply dget_Some_keys. rewrite initial_pending_fresh by done.
  unfold dkeys. rewrite map_map. simpl. change (sid ∈ stage_ids (ws_stages workflow)).
  by rewrite <- Hp.
Qed.

Lemma fresh_pending_actions dag e k s :
  NoDup (stage_ids (ws_stages workflow)) -> completed_stages (e_state e) = [] ->
  topological (ws_stages workflow) dag ->
  all_actions (map (get_stage workflow)
    (List.filter (fun sid => negb (mem sid (completed_stages (e_state e)))) dag)) = true ->
  (k, s) ∈ initial_pending workflow e -> is_gate_stage s = false.
Proof.
  intros Hnd Hc [Hp _] Hact Hin. rewrite initial_pending_fresh in Hin by done.
  apply list_elem_of_fmap in Hin as (s' & [= -> ->] & Hin).
  rewrite Hc, filter_all_id in Hact
    by (intros y _; by rewrite (proj2 (mem_false _ _) (not_elem_of_nil _))).
  unfold all_actions in Hact. rewrite forallb_spec in Hact.
  assert (Ha : is_action_stage s' = true).
  { apply (Hact (Some s')). apply list_elem_of_fmap. exists (sn_id s'). split.
    - symmetry. by apply get_stage_in_nodup.
    - rewrite Hp. apply list_elem_of_fmap. eauto. }
  unfold is_action_stage in Ha. apply bool_decide_eq_true in Ha. unfold is_gate_stage. by rewrite Ha.
Qed.

Lemma finish_result start err conv e :
  wr_success (fst (finish_workflow env workflow start err conv e)) = negb (is_some err) /\
  wr_total_cost_usd (fst (finish_workflow env workflow start err conv e)) = total_usd (e_cost e) /\
  deps_view (e_state (snd (finish_workflow env workflow start err conv e))) = deps_view (e_state e).
Proof. unfold finish_workflow. destruct err as [t|]; [destruct (text_truthy t)|]; done. Qed.
End execute.

(** C2: in the event log of a fresh run (from the first stage, in a new engine) of
    a workflow that parses, every stage start comes after the completion of each
    of that stage's dependencies, whatever the agents, gates, decisions, rollbacks
    and timeouts do and however the run ends, in the sequential and in the
    parallel mode. The log of a resumed run holds only what that run did, so it is
    not covered. *)
Theorem starts_follow_dependencies {W : Type} (env : Env W) (data : RawWorkflow)
    (workflow : WorkflowSchema) (config : EngineConfig) (fuel : nat) (rm : option RollbackManager)
    (ckpt : option CkptDir) (w : W) (o : outcome exn WorkflowResult) (e' : Engine W) :
  schema_from_dict data = Ret workflow ->
  execute env workflow config fuel None (new_engine env workflow config rm ckpt w) = Some (o, e') ->
  starts_ordered workflow (e_log e').
Proof.
  intros Hnd%schema_from_dict_nodup.
  pose proof (new_engine_log_inv env workflow config rm ckpt w) as H0.
  set (e := new_engine env workflow config rm ckpt w) in *. clearbody e.
  pose proof (log_inv_started workflow e H0) as H1.
  enough (Hinv : execute env workflow config fuel None e = Some (o, e') -> log_inv workflow e')
    by (intros H; by apply Hinv in H as [_ ?]).
  destruct (execute_kind env workflow config fuel e) as [x _|dag _ _|dag _].
  - by intros [= _ <-].
  - destruct (parallel_loop _ _ _ _ _ _) as [[err e1]|] eqn:E; [|done].
    apply log_inv_parallel with (workflow := workflow) in E; [|by apply initial_pending_ok|done].
    pose proof (log_inv_finish env workflow (env_clock env (e_world e)) err None e1 E) as Hf.
    destruct (finish_workflow _ _ _ _ _ e1). by intros [= _ <-].
  - destruct (exec_loop _ _ _ _ _ _ _ _) as [[[err|x] e1]|] eqn:E; [| |done];
      apply log_inv_loop in E; try done; [|by intros [= _ <-]].
    pose proof (log_inv_finish env workflow (env_clock env (e_world e)) err
                  (conversation_id (e_state e1)) e1 E) as Hf.
    destruct (finish_workflow _ _ _ _ _ e1). by intros [= _ <-].
Qed.



(** C1: a fresh run (from the first stage, in a new engine) of a workflow that
    parses and has neither rollback nor decision stages, if it reports success,
    has completed every stage, each with a result its dependents accept. A resumed
    run is not covered: it may report success on what an earlier run left. *)
Theorem success_completes_all {W : Type} (env : Env W) (data : RawWorkflow)
    (workflow : WorkflowSchema) (config : EngineConfig) (fuel : nat) (rm : option RollbackManager)
    (ckpt : option CkptDir) (w : W) (r : WorkflowResult) (e' : Engine W) :
  schema_from_dict data = Ret workflow ->
  (forall stage, stage ∈ ws_stages workflow -> static_stage stage) ->
  execute env workflow config fuel None (new_engine env workflow config rm ckpt w) = Some (Ret r, e') ->
  wr_success r = true ->
  forall stage, stage ∈ ws_stages workflow -> dependency_ok (e_state e') (sn_id stage) = true.
Proof.
  intros Hnd%schema_from_dict_nodup Hstatic.
  set (e := new_engine env workflow config rm ckpt w).
  assert (Hc0 : completed_stages (e_state (started workflow e)) = []).
  { by rewrite started_completed. }
  clearbody e.
  enough (Hall : execute env workflow config fuel None e = Some (Ret r, e') -> wr_success r = true ->
            exists dag, topological (ws_stages workflow) dag /\
              forall sid, sid ∈ dag -> dependency_ok (e_state e') sid = true).
  { intros He Hs stage Hin. destruct (Hall He Hs) as (dag & [Hp _] & H). apply H.
    rewrite Hp. apply list_elem_of_fmap. eauto. }
  destruct (execute_kind env workflow config fuel e) as [x _|dag Hdag Hact|dag Hdag].
  - by intros [= <- _].
  - pose proof (build_dag_order_topological workflow dag Hnd Hdag) as Ht.
    destruct (parallel_loop _ _ _ _ _ _) as [[err e1]|] eqn:E; [|done].
    destruct (finish_result env workflow (env_clock env (e_world e)) err None e1) as (Hs & _ & Hv).
    destruct (finish_workflow _ _ _ _ _ e1) as [r1 e2]. simpl in Hs, Hv.
    intros [= <- <-] Hsucc. rewrite Hsucc in Hs. destruct err; [done|].
    exists dag. split; [done|]. intros sid Hsid. rewrite (dependency_ok_view _ _ sid Hv).
    revert sid Hsid.
    refine (proj2 (parallel_loop_completes env workflow config fuel dag _ _ _ _ Ht _ _ _ _ E)).
    + by apply initial_pending_ok.
    + apply initial_pending_keyed.
    + intros k s. by apply (fresh_pending_actions workflow dag).
    + intros sid Hsid _. by apply (fresh_pending_accounted workflow dag).
  - pose proof (build_dag_order_topological workflow dag Hnd Hdag) as Ht.
    destruct (exec_loop _ _ _ _ _ _ _ _) as [[[err|x] e1]|] eqn:E; [|done..].
    destruct (finish_result env workflow (env_clock env (e_world e)) err
                (conversation_id (e_state e1)) e1) as (Hs & _ & Hv).
    destruct (finish_workflow _ _ _ _ _ e1) as [r1 e2]. simpl in Hs, Hv.
    intros [= <- <-] Hsucc. rewrite Hsucc in Hs. destruct err; [done|].
    exists dag. split; [done|]. intros sid Hsid. rewrite (dependency_ok_view _ _ sid Hv).
    revert sid Hsid.
    eapply (exec_loop_completes env workflow config Hstatic Hnd fuel dag 0); [done| |exact E].
    intros sid Hsid. by apply elem_of_nil in Hsid.
Qed.

(** ** A concrete run *)

Definition raw (id : Z) (kind : string) (deps : list Z) (mode on_error : string)
    (outcomes : dict string DecisionSpec) : RawStage :=
  mkRawStage (Some id) None (Some kind) None None (Some deps) None None None None (Some mode) None
    None (Some outcomes) None None (Some on_error).

(** Agent, automatic gate, agent. *)
Definition review_data : RawWorkflow :=
  mkRawWorkflow (Some "wf") None None
    (Some [raw 1 "agent" [] "auto" "fail" []; raw 2 "gate" [1] "auto" "fail" [];
           raw 3 "agent" [2] "auto" "fail" []]) None.

(** Agent, then a decision that sends the run back at most twice. *)
Definition loop_data : RawWorkflow :=
  mkRawWorkflow (Some "loop") None None
    (Some [raw 1 "agent" [] "auto" "fail" [];
           raw 2 "decision" [1] "auto" "fail"
             [("refine", mkDecisionSpec (Some 2) None None false (Some 1))]]) None.

Definition schema_of (data : RawWorkflow) : WorkflowSchema :=
  match schema_from_dict data with Ret w => w | Raise _ => mkWorkflowSchema "" "" "" [] [] end.

(** Agents that always complete, answering [refine]; the world counts calls. *)
Definition demo_services : Services nat :=
  mkServices (Some (fun _ _ _ w => (Ret (Some (mkTaskSession "refine" "completed" None)), S w)))
    None (fun _ _ => [])
    (mkContractValidator [] (fun _ w => (Raise (mkExn OtherException [] None), w))
       (fun _ w => (Raise (mkExn OtherException [] None), w)))
    (fun _ => None) (fun _ w => w).

Definition demo_env : Env nat :=
  mkEnv (Some (services_ops demo_services (fun _ _ _ => None))) (validator demo_services)
    (fun _ => 0%Q) (fun _ => "t") (fun _ => true) (fun _ => NoFault) (fun _ => "<obj>") None
    (fun w => w).

Definition demo_config : EngineConfig := mkEngineConfig default_budget 1 600.

Definition demo_run (data : RawWorkflow) (fuel : nat) :=
  execute demo_env (schema_of data) demo_config fuel None
    (new_engine demo_env (schema_of data) demo_config None None 0%nat).

(** The engine a demonstration run ends in. *)
Definition demo_engine (data : RawWorkflow) (fuel : nat) : Engine nat :=
  match demo_run data fuel with
  | Some (_, e) => e
  | None => new_engine demo_env (schema_of data) demo_config None None 0%nat
  end.

Definition demo_result (data : RawWorkflow) (fuel : nat) : WorkflowResult :=
  match demo_run data fuel with
  | Some (Ret r, _) => r
  | _ => mkWorkflowResult false "" 0 0 0 0 None None [] []
  end.

Lemma starts_follow_dependencies_witness :
  starts_ordered (schema_of loop_data) (e_log (demo_engine loop_data 20)).
Proof.
  eapply (starts_follow_dependencies demo_env loop_data (schema_of loop_data) demo_config 20
            None None 0%nat); [reflexivity|vm_compute; reflexivity].
Defined.



Definition last_stage : StageNode :=
  default (mkStageNode 0 "" AGENT "" "" [] [] "" [] [] "" 0 None [] 0 0 "")
    (ws_stages (schema_of review_data) !! 2%nat).

Lemma success_completes_all_witness :
  wr_success (demo_result review_data 10) = true /\
  dependency_ok (e_state (demo_engine review_data 10)) (sn_id last_stage) = true.
Proof.
  split; [vm_compute; reflexivity|].
  eapply (success_completes_all demo_env review_data (schema_of review_data) demo_config 10 None
            None 0%nat); [reflexivity| |vm_compute; reflexivity|reflexivity|].
  - intros stage Hin. vm_compute in Hin.
    repeat (apply elem_of_cons in Hin as [-> |Hin]; [by repeat split|]). by apply elem_of_nil in Hin.
  - vm_compute. apply elem_of_cons; right. apply elem_of_cons; right. apply elem_of_cons. by left.
Defined.
