(* ===== verification/WorkflowOrch.v ===== *)
(** * The workflow orchestrator
    ([src/orchestratord/workflow_orchestrator.py], [WorkflowResumer] of
    [workflow_engine/checkpoint.py])

    Wiring of the engine for one task: resetting it, resuming from the task's
    checkpoint, executing, and deleting or rewriting the checkpoint afterwards.
    The checkpoint directory is the one [run_for_task] hands to the engine and
    to the orchestrator alike; a task without a workspace leaves the
    orchestrator without a manager and the engine with the one it had
    ([has_mgr]).  [run] called on its own, with the directory of the
    constructor, is not modelled.  The theorems record what a retry of a failed run
    keeps, and three behaviours of the wiring that differ from its intent. *)

From S2P Require Import Prelude Errors WorkflowState Cost Decision Dag Rollback StageRunner Checkpoint Engine EngineFacts EngineSuccess.

Open Scope string_scope.
Open Scope list_scope.
Open Scope Z_scope.

(** The fields of [AgentTask] the orchestrator reads. *)
Record AgentTask := mkAgentTask {
  at_id : string;
  at_identifier : option string;
  at_title : string;
  at_description : string;
  at_labels : list string;
  at_conversation_id : option string;
  at_object : positive;
}.

Definition task_context (t : AgentTask) : dict string pyval :=
  [("id", PStr (at_id t)); ("identifier", opt_str (at_identifier t)); ("title", PStr (at_title t));
   ("description", PStr (at_description t)); ("labels", PList (map PStr (at_labels t)));
   ("task", PObj (at_object t))].

(** [max(checkpoint.completed_stages)] *)
Definition max_stage (first : Z) (rest : list Z) : Z := fold_left Z.max rest first.

Section orchestrator.
Context {W : Type} (env : Env W) (workflow : WorkflowSchema) (config : EngineConfig).
Implicit Types e : Engine W.

Definition reset_engine_state e : Engine W :=
  set_tracker (load_state 0 0 false false (e_cost e))
    (set_history reset (set_state (new_state (ws_name workflow) (ws_version workflow) (stamp env e)) e)).

(** Backfill the engine from a checkpoint. *)
Definition restore_engine (c : Checkpoint) (s : WorkflowState) e : Engine W :=
  let e := set_tracker (load_state (ck_cost_accumulated_usd c) 0 false false (e_cost e))
             (set_state s e) in
  match decision_history s with
  | Some h => set_history h e
  | None => e
  end.

(** [self._checkpoint_mgr]: absent, or the manager the engine has. *)
Definition orch_ckpt (has_mgr : bool) e : option CkptDir :=
  if has_mgr then e_ckpt e else None.

(** The resume decision: where to start, and the engine restored so far. *)
Definition prepare_resume (has_mgr : bool) (from_stage : option Z) e
    : outcome exn (option Z) * Engine W :=
  match from_stage, orch_ckpt has_mgr e with
  | None, Some d =>
      if ckpt_exists d then
        match load d with
        | Raise x => (Raise x, e)
        | Ret c =>
            match ck_completed_stages c with
            | [] => (Ret None, e)
            | first :: rest =>
                match restore_state c with
                | Raise x => (Raise x, e)
                | Ret s => (Ret (Some (max_stage first rest + 1)), restore_engine c s e)
                end
            end
        end
      else (Ret None, e)
  | _, _ => (Ret from_stage, e)
  end.

(** A finished run deletes its checkpoint; a failed one saves the state, with
    no decision history. *)
Definition close_run (has_mgr : bool) (r : WorkflowResult) e
    : outcome exn WorkflowResult * Engine W :=
  match orch_ckpt has_mgr e with
  | None => (Ret r, e)
  | Some d =>
      if wr_success r then (Ret r, set_ckpt (Some (ckpt_delete d)) e)
      else
        match save (env_str_obj env) (env_ckpt_fault env (e_world e)) (e_state e) None (stamp env e) d with
        | (Ret _, d') => (Ret r, set_ckpt (Some d') e)
        | (Raise x, d') => (Raise x, set_ckpt (Some d') e)
        end
  end.

Definition orch_run (has_mgr : bool) (fuel : nat) (from_stage : option Z) e
    : option (outcome exn WorkflowResult * Engine W) :=
  match prepare_resume has_mgr from_stage e with
  | (Raise x, e) => Some (Raise x, e)
  | (Ret from_stage, e) =>
      match execute env workflow config fuel from_stage e with
      | None => None
      | Some (Raise x, e) => Some (Raise x, e)
      | Some (Ret r, e) => Some (close_run has_mgr r e)
      end
  end.

Definition run_for_task (fuel : nat) (t : AgentTask) (dir : option CkptDir) (from_stage : option Z) e
    : option (outcome exn WorkflowResult * Engine W) :=
  let e := reset_engine_state (if is_some dir then set_ckpt dir e else e) in
  let ctx := Some (task_context t) in
  let e := on_state (fun s =>
             mkWorkflowState (workflow_name s) (at_conversation_id t) (workflow_version s)
               (current_stage s) (completed_stages s) (stage_results s) (stage_statuses s)
               (cost_accumulated_usd s) (started_at s) (finished_at s) (metadata s)
               (rollback_events s) ctx ctx (decision_history s)) e in
  orch_run (is_some dir) fuel from_stage e.

(** [WorkflowResumer.resume]: it restores neither the decision handler nor the
    next stage, and starts again at the stage of the checkpoint. *)
Definition resume (fuel : nat) e : option (outcome exn WorkflowResult * Engine W) :=
  match e_ckpt e with
  | None => Some (Raise (mkExn ResumeError [Lit "No checkpoint found to resume from"] None), e)
  | Some d =>
      if negb (ckpt_exists d) then
        Some (Raise (mkExn ResumeError [Lit "No checkpoint found to resume from"] None), e)
      else
        match load d with
        | Raise x => Some (Raise x, e)
        | Ret c =>
            match restore_state c with
            | Raise x => Some (Raise x, e)
            | Ret s =>
                let e := set_tracker (load_state (ck_cost_accumulated_usd c) 0 false false (e_cost e))
                           (set_state s e) in
                execute env workflow config fuel (Some (ck_current_stage c)) e
            end
        end
  end.

(** The services the orchestrator injects: the cost provider reads the
    engine's own tracker, whose total is [total] while a stage runs. *)
Definition injected_services (sv : Services W) (total : Q) : Services W :=
  mkServices (task_runner sv) (Some (fun _ => Some total)) (stage_prompt sv) (validator sv)
    (resolve_action sv) (sleep sv).
End orchestrator.

(** ** Facts *)

Lemma execute_agent_stage_const_cost {W} (sv : Services W) total stage state w r w' :
  execute_agent_stage (injected_services sv total) stage state w = (Ret r, w') ->
  (sr_cost_usd r == 0)%Q.
Proof.
  unfold execute_agent_stage, mbind, M_bind, gets.
  destruct (run_agent_task _ _ _ _ w) as [[[s|]|x] w1]; [| |done]; intros [= <- _]; simpl;
    [|done].
  unfold qmax. destruct (Qle_bool _ _); [done|]. unfold get_total_cost_usd. simpl. ring.
Qed.

Lemma run_from_const_cost {W} (sv : Services W) total n a stage state w :
  (sr_cost_usd (fst (run_from (injected_services sv total) n a stage state w)) == 0)%Q.
Proof.
  revert a w. induction n as [|n IH]; intros a w; simpl;
    pose proof (execute_agent_stage_const_cost sv total stage state w) as H;
    destruct (execute_agent_stage _ stage state w) as [[r|x] w1]; simpl; try done;
    try (by apply (H r w1)); apply IH.
Qed.

Lemma ckpt_from_dict_history data c :
  ckpt_from_dict data = Ret c -> ck_decision_history c = get_list "decision_history" data.
Proof.
  unfold ckpt_from_dict, mbind, outcome_bind.
  destruct (as_int _) as [v|]; [|done]. destruct (_ <? v); [done|].
  destruct (as_dict _) as [rr|]; [|done]. destruct (map_outcome int_key rr) as [es|]; [|done].
  destruct (as_int _) as [cur|]; [|done]. destruct (as_list _) as [rc|]; [|done].
  destruct (map_outcome as_int rc) as [comp|]; [|done]. by intros [= <-].
Qed.

Lemma saved_without_history str_obj s ts d c :
  load (snd (save str_obj NoFault s None ts d)) = Ret c -> ck_decision_history c = [].
Proof.
  unfold save, load. cbn [ck_file snd].
  change (jsonify str_obj (PDict ?d)) with (PDict (jsonify_dict str_obj d)).
  unfold mbind, outcome_bind. cbn [as_dict].
  destruct (ckpt_from_dict _) as [c'|x] eqn:E; [|done]. intros [= <-].
  rewrite (ckpt_from_dict_history _ _ E). reflexivity.
Qed.

(** ** Theorems *)

(** With the cost provider the orchestrator injects, the cost of every
    agent stage is zero, whatever the agents really spend: the provider reads
    the tracker that only grows after the stage has reported its cost. *)
Theorem orchestrator_stage_cost_zero {W : Type} (sv : Services W) (total : Q) (stage : StageNode)
    (state : WorkflowState) (w : W) :
  (sr_cost_usd (fst (run (injected_services sv total) stage state w)) == 0)%Q.
Proof. apply run_from_const_cost. Qed.

(** A failed run leaves a checkpoint whose decision history is empty, so
    the retry that resumes from it starts with fresh decision budgets. *)
Theorem failed_run_forgets_decisions {W : Type} (env : Env W) (workflow : WorkflowSchema)
    (config : EngineConfig) (fuel : nat) (from_stage : option Z) (e e' : Engine W)
    (r : WorkflowResult) (d' : CkptDir) (c : Checkpoint) :
  orch_run env workflow config true fuel from_stage e = Some (Ret r, e') ->
  wr_success r = false -> e_ckpt e' = Some d' -> load d' = Ret c ->
  ck_decision_history c = [].
Proof.
  unfold orch_run. destruct (prepare_resume true from_stage e) as [[from|x] e1]; [|done].
  destruct (execute env workflow config fuel from e1) as [[[r1|x] e2]|]; [|done..].
  unfold close_run, orch_ckpt. destruct (e_ckpt e2) as [d|] eqn:Ed.
  - destruct (wr_success r1) eqn:Es; [intros [= -> <-]; congruence|].
    destruct (env_ckpt_fault env (e_world e2)); simpl; try done.
    intros [= -> <-] _ [= <-] Hl. by apply saved_without_history in Hl.
  - intros [= -> <-] _ H. congruence.
Qed.

(** Agent, manual gate, agent. *)
Definition manual_data : RawWorkflow :=
  mkRawWorkflow (Some "wf") None None
    (Some [raw 1 "agent" [] "auto" "fail" []; raw 2 "gate" [1] "manual" "fail" [];
           raw 3 "agent" [2] "auto" "fail" []]) None.

Definition demo_task : AgentTask := mkAgentTask "7" (Some "I-7") "fix" "" [] None 1.

Definition task_run (data : RawWorkflow) (dir : option CkptDir) (e : Engine nat) :=
  run_for_task demo_env (schema_of data) demo_config 20 demo_task dir None e.

Definition fresh_engine (data : RawWorkflow) : Engine nat :=
  new_engine demo_env (schema_of data) demo_config None None 0%nat.

Definition run_engine (o : option (outcome exn WorkflowResult * Engine nat)) (e : Engine nat) : Engine nat :=
  match o with Some (_, e') => e' | None => e end.

Definition run_success (o : option (outcome exn WorkflowResult * Engine nat)) : option bool :=
  match o with Some (Ret r, _) => Some (wr_success r) | _ => None end.

(** A run of the looping workflow, which ends with its decisions exhausted. *)
Definition loop_run : option (outcome exn WorkflowResult * Engine nat) :=
  orch_run demo_env (schema_of loop_data) demo_config true 20 None
    (set_ckpt (Some (mkCkptDir None None)) (fresh_engine loop_data)).

Definition loop_dir : CkptDir :=
  default (mkCkptDir None None) (e_ckpt (run_engine loop_run (fresh_engine loop_data))).

Lemma failed_run_forgets_decisions_witness :
  e_history (run_engine loop_run (fresh_engine loop_data)) <> [] /\
  exists c, load loop_dir = Ret c /\ ck_decision_history c = [].
Proof.
  split; [vm_compute; congruence|].
  destruct (load loop_dir) as [c|x] eqn:E; [|vm_compute in E; congruence].
  exists c. split; [reflexivity|].
  eapply (failed_run_forgets_decisions demo_env (schema_of loop_data) demo_config 20 None
            (set_ckpt (Some (mkCkptDir None None)) (fresh_engine loop_data)));
    [vm_compute; reflexivity|reflexivity|reflexivity|exact E].
Defined.

(** A run that fails at a rejected gate is reported as successful when it
    is retried, although the gate is still rejected and the stage behind it has
    never run: the retry resumes behind the gate, skips everything that depends
    on it, and sees no error. *)
Theorem rejected_gate_retry_succeeds :
  let run1 := task_run manual_data (Some (mkCkptDir None None)) (fresh_engine manual_data) in
  let e1 := run_engine run1 (fresh_engine manual_data) in
  let run2 := task_run manual_data (e_ckpt e1) e1 in
  let e2 := run_engine run2 e1 in
  run_success run1 = Some false /\ run_success run2 = Some true /\
  r_status <$> get_stage_result (e_state e2) 2 = Some GATE_REJECTED /\
  mem 3 (completed_stages (e_state e2)) = false /\
  dget 3 (stage_statuses (e_state e2)) = Some SKIPPED.
Proof. vm_compute. repeat split. Qed.
