(* ===== verification/Intent.v ===== *)
(** * Operator intents ([src/orchestratord/intent.py])

    Intents from labels, comment commands and the command line, and the merge
    rules.  The theorems characterise the merges as the maximum of a priority
    order, and the label rules as that same order. *)

From S2P Require Import Prelude Dag StageRunner.

Open Scope string_scope.
Open Scope list_scope.
Open Scope Z_scope.

Inductive Intent := INone | IRetry | IFollowup | IBlocked | IRebase.

#[export] Instance Intent_eq_dec : EqDecision Intent.
Proof. solve_decision. Defined.

Inductive Command := CRetry | CFollowup | CUnblock | CRebase.

(** [_normalize_label] *)
Definition normalize_label (v : string) : string := lower (strip v).

Definition DEFAULT_INTENT_LABELS : dict string string :=
  [("retry", "agent:retry"); ("followup", "agent:follow-up"); ("blocked", "agent:blocked");
   ("rebase", "agent:rebase")].

(** [labels] absent or empty is [[]]; an absent or empty mapping falls back to
    the defaults. *)
Definition intent_from_label_set (labels : list string) (intent_labels : dict string string) : Intent :=
  match labels with
  | [] => INone
  | _ =>
      let mapping := match intent_labels with [] => DEFAULT_INTENT_LABELS | m => m end in
      let label k := normalize_label (default "" (dget k mapping)) in
      let normalized :=
        map normalize_label (List.filter (fun l => negb (String.eqb l "")) labels) in
      let present k := negb (String.eqb (label k) "") && mem (label k) normalized in
      if present "blocked" then IBlocked
      else if present "rebase" then IRebase
      else if present "followup" then IFollowup
      else if present "retry" then IRetry
      else INone
  end.

Definition command_to_intent (c : Command) : Intent :=
  match c with
  | CRetry => IRetry
  | CFollowup => IFollowup
  | CRebase => IRebase
  | CUnblock => INone
  end.

Definition is_intent (i j : Intent) : bool := bool_decide (i = j).

Definition merge_intents (label_intent command_intent : Intent) : Intent :=
  if is_intent label_intent IBlocked || is_intent command_intent IBlocked then IBlocked
  else if is_intent label_intent IRebase || is_intent command_intent IRebase then IRebase
  else if is_intent label_intent IFollowup || is_intent command_intent IFollowup then IFollowup
  else if negb (is_intent command_intent INone) then command_intent
  else if negb (is_intent label_intent INone) then label_intent
  else INone.

Definition merge_intents_with_cli (label_intent command_intent cli_intent : Intent) : Intent :=
  if is_intent label_intent IBlocked || is_intent command_intent IBlocked
     || is_intent cli_intent IBlocked then IBlocked
  else if is_intent label_intent IRebase || is_intent command_intent IRebase
          || is_intent cli_intent IRebase then IRebase
  else if is_intent label_intent IFollowup || is_intent command_intent IFollowup
          || is_intent cli_intent IFollowup then IFollowup
  else if negb (is_intent cli_intent INone) then cli_intent
  else if negb (is_intent command_intent INone) then command_intent
  else if negb (is_intent label_intent INone) then label_intent
  else INone.

(** The priority the merges implement. *)
Definition priority (i : Intent) : nat :=
  match i with INone => 0 | IRetry => 1 | IFollowup => 2 | IRebase => 3 | IBlocked => 4 end.

(** ** The command parser *)

(** [\b] at the end of a keyword: the next byte is not a word character (bytes
    of non-ASCII characters count as word characters). *)
Definition is_word (c : Ascii.ascii) : bool :=
  let n := Ascii.N_of_ascii c in
  ((48 <=? n)%N && (n <=? 57)%N) || ((65 <=? n)%N && (n <=? 90)%N)
  || ((97 <=? n)%N && (n <=? 122)%N) || (n =? 95)%N || (128 <=? n)%N.

Definition word_boundary (rest : string) : bool :=
  match rest with String c _ => negb (is_word c) | EmptyString => true end.

Definition drop_str (n : nat) (s : string) : string := String.substring n (String.length s - n) s.

(** A subcommand keyword at the head of [s], in any case. *)
Definition keyword_at (kw s : string) : bool :=
  String.prefix kw (lower s) && word_boundary (drop_str (String.length kw) s).

Definition subcommand_at (s : string) : option Command :=
  if keyword_at "retry" s then Some CRetry
  else if keyword_at "follow-up" s then Some CFollowup
  else if keyword_at "unblock" s then Some CUnblock
  else if keyword_at "rebase" s then Some CRebase
  else None.

(** [^/agent\s+(...)\b] at the head of a line. *)
Definition command_at (s : string) : option Command :=
  if String.prefix "/agent" (lower s) then
    let rest := drop_str 6 s in
    match rest with
    | String c _ => if is_space c then subcommand_at (lstrip rest) else None
    | EmptyString => None
    end
  else None.

(** [re.search] with [MULTILINE]: the first line start where it matches. *)
Fixpoint search_command (line_start : bool) (s : string) : option Command :=
  match (if line_start then command_at s else None) with
  | Some c => Some c
  | None =>
      match s with
      | EmptyString => None
      | String c s' => search_command (Ascii.eqb c (Ascii.ascii_of_N 10)) s'
      end
  end.

Definition parse_agent_command (body : string) : option Command := search_command true body.

(** ** Theorems *)

Lemma merge_priority a b : priority (merge_intents a b) = Nat.max (priority a) (priority b).
Proof. by destruct a, b. Qed.

Lemma priority_inj a b : priority a = priority b -> a = b.
Proof. by destruct a, b. Qed.

(** The three-way merge is the two-way merge applied twice in either
    grouping, and its result is exactly the source of highest priority
    (BLOCKED, REBASE, FOLLOWUP, RETRY, NONE): no source can lower what another
    demands. *)
Theorem merge_is_priority_max (label command cli : Intent) :
  merge_intents_with_cli label command cli = merge_intents (merge_intents label command) cli /\
  merge_intents_with_cli label command cli = merge_intents label (merge_intents command cli) /\
  priority (merge_intents_with_cli label command cli)
  = Nat.max (Nat.max (priority label) (priority command)) (priority cli).
Proof. by destruct label, command, cli. Qed.

(** The four label tests decide the intent. *)
Definition label_present (lab : string) (labels : list string) : bool :=
  mem lab (map normalize_label (List.filter (fun l => negb (String.eqb l "")) labels)).

Definition pick (blocked rebase followup retry : bool) : Intent :=
  if blocked then IBlocked else if rebase then IRebase
  else if followup then IFollowup else if retry then IRetry else INone.

Lemma intent_from_labels_pick labels :
  intent_from_label_set labels []
  = pick (label_present "agent:blocked" labels) (label_present "agent:rebase" labels)
      (label_present "agent:follow-up" labels) (label_present "agent:retry" labels).
Proof. by destruct labels. Qed.

Lemma label_present_cons lab l labels :
  label_present lab (l :: labels) = label_present lab [l] || label_present lab labels.
Proof.
  unfold label_present, mem. simpl. destruct (negb (String.eqb l "")); [|done]. simpl.
  apply eq_true_iff_eq. rewrite orb_true_iff, !bool_decide_eq_true, elem_of_cons,
    list_elem_of_singleton. done.
Qed.

(** The label rules follow the same order: with the default labels, the
    intent of a label set is the merge of the intents of its single labels. *)
Theorem label_set_is_merge (labels : list string) :
  intent_from_label_set labels []
  = foldr merge_intents INone (map (fun l => intent_from_label_set [l] []) labels).
Proof.
  induction labels as [|l labels IH]; [done|]. cbn [map foldr]. rewrite <- IH.
  rewrite !intent_from_labels_pick. rewrite !(label_present_cons _ l labels).
  destruct (label_present "agent:blocked" [l]), (label_present "agent:rebase" [l]),
    (label_present "agent:follow-up" [l]), (label_present "agent:retry" [l]),
    (label_present "agent:blocked" labels), (label_present "agent:rebase" labels),
    (label_present "agent:follow-up" labels), (label_present "agent:retry" labels); reflexivity.
Qed.

(** The parser on the documented forms. *)
Example parse_examples :
  parse_agent_command "/agent retry please" = Some CRetry /\
  parse_agent_command ("thanks" +:+ String (Ascii.ascii_of_N 10) "/AGENT  Follow-Up: x")
  = Some CFollowup /\
  parse_agent_command "/agent retrying" = None /\ parse_agent_command "see /agent retry" = None.
Proof. vm_compute. repeat split. Qed.
