(* ===== verification/IssueRegistry.v ===== *)
(** * The issue registry ([src/orchestratord/issue_registry/])

    One record per tracked issue, its lifecycle, feedback, clarification and
    intent mutations, and the JSON persistence with throttled diagnostics.  A
    record's fields are grouped; the file on disk holds the records themselves
    (the JSON text is an exact encoding of them).  A call reads the clocks and
    whether its write succeeds from a [Tick].  [collaboration_mode] and
    [mode_decision_reason], which no operation here touches, are left out. *)

From S2P Require Import Prelude Errors Intent.

Open Scope string_scope.
Open Scope list_scope.
Open Scope Z_scope.

(** ** Records ([models.py]) *)

Inductive IssueStatus :=
| QUEUED | PENDING | RUNNING | SYNCED | PENDING_REVIEW | COMPLETED | FAILED | PAUSED | ABANDONED
| VERIFICATION_FAILED.

#[export] Instance IssueStatus_eq_dec : EqDecision IssueStatus.
Proof. solve_decision. Defined.

Definition TERMINAL_STATUSES : list IssueStatus := [COMPLETED; FAILED; ABANDONED; VERIFICATION_FAILED].

Definition terminal (s : IssueStatus) : bool := mem s TERMINAL_STATUSES.

(** Git, pull request and verification. *)
Record SyncInfo := mkSyncInfo {
  branch_name : option string;
  commit_sha : option string;
  pr_number : option string;
  pr_url : option string;
  pr_created_at : option Q;
  pr_state : option string;
  report_path : option string;
  verification_status : option string;
  verification_output : option string;
  last_hook_error : option string;
  summary_comment_id : option string;
}.

Record WorkspaceInfo := mkWorkspaceInfo {
  base_branch : string;
  workspace_strategy : option string;
  workspace_path : option string;
  base_commit_sha : option string;
  start_commit_sha : option string;
  previous_issue_id : option string;
  sequence_index : option Z;
}.

Record ClarInfo := mkClarInfo {
  clarification_status : option string;
  question_history : list string;
  open_questions : list string;
  clarification_round : Z;
  clarifier_fingerprint : option string;
  clarification_replies : list string;
  clarifier_comment_cursor : option string;
  author_login : option string;
  local_answer : option string;
  local_answer_source : option string;
  first_response_source : option string;
  stale_answers : list string;
}.

Record FeedbackInfo := mkFeedbackInfo {
  processed_feedback_ids : list string;
  pending_feedback_ids : list string;
  pending_feedback_urls : dict string string;
  pending_feedback_since : option Q;
  feedback_cursor : option string;
  followup_attempt_count : Z;
  feedback_failure_counts : dict string Z;
  last_followup_commit_sha : option string;
  last_feedback_checked_at : option Q;
}.

Record IntentInfo := mkIntentInfo {
  intent : Intent;
  retry_count : Z;
  next_retry_at : option Q;
  last_command : option string;
  intent_source : option string;
  command_cursor : option string;
}.

Record ConflictInfo := mkConflictInfo {
  has_conflict : bool;
  conflict_files : list string;
  rebase_attempt_count : Z;
  last_rebase_attempt_at : option Q;
}.

(** What [update_run_diagnostics] writes: the observational fields. *)
Record RunInfo := mkRunInfo {
  run_id : option string;
  debug_log_path : option string;
  run_turn_count : Z;
  run_tool_count : Z;
  run_last_event : option string;
  run_last_tool : option string;
  run_output_len : Z;
  run_timeout_deadline_at : option Q;
  run_workspace_dirty : option bool;
  run_cost_usd : Q;
  run_token_usage : pyval;
  run_started_at : option Q;
  run_completed_at : option Q;
  run_duration_ms : option Q;
  run_backend : option string;
  run_model : option string;
  session_end_reason : option string;
  session_end_summary : string;
  pause_reason : string;
  updated_at : Q;
}.

Record IssueRecord := mkIssueRecord {
  issue_id : string;
  issue_identifier : string;
  schema_version : Z;
  status : IssueStatus;
  created_at : Q;
  attempt_count : Z;
  conversation : option string;
  previous_run_ids : list string;
  sync : SyncInfo;
  wspace : WorkspaceInfo;
  clar : ClarInfo;
  feedback : FeedbackInfo;
  intents : IntentInfo;
  conflict : ConflictInfo;
  run_info : RunInfo;
}.

Definition SCHEMA_VERSION : Z := 2.

Definition no_run (now : Q) : RunInfo :=
  mkRunInfo None None 0 0 None None 0 None None 0 (PDict []) None None None None None None "" "" now.

(** ** Field updates *)

Definition set_status (s : IssueStatus) (r : IssueRecord) : IssueRecord :=
  mkIssueRecord (issue_id r) (issue_identifier r) (schema_version r) s (created_at r)
    (attempt_count r) (conversation r) (previous_run_ids r) (sync r) (wspace r) (clar r)
    (feedback r) (intents r) (conflict r) (run_info r).
Definition set_attempts (n : Z) (r : IssueRecord) : IssueRecord :=
  mkIssueRecord (issue_id r) (issue_identifier r) (schema_version r) (status r) (created_at r)
    n (conversation r) (previous_run_ids r) (sync r) (wspace r) (clar r)
    (feedback r) (intents r) (conflict r) (run_info r).
Definition set_sync (x : SyncInfo) (r : IssueRecord) : IssueRecord :=
  mkIssueRecord (issue_id r) (issue_identifier r) (schema_version r) (status r) (created_at r)
    (attempt_count r) (conversation r) (previous_run_ids r) x (wspace r) (clar r)
    (feedback r) (intents r) (conflict r) (run_info r).
Definition set_clar (x : ClarInfo) (r : IssueRecord) : IssueRecord :=
  mkIssueRecord (issue_id r) (issue_identifier r) (schema_version r) (status r) (created_at r)
    (attempt_count r) (conversation r) (previous_run_ids r) (sync r) (wspace r) x
    (feedback r) (intents r) (conflict r) (run_info r).
Definition set_feedback (x : FeedbackInfo) (r : IssueRecord) : IssueRecord :=
  mkIssueRecord (issue_id r) (issue_identifier r) (schema_version r) (status r) (created_at r)
    (attempt_count r) (conversation r) (previous_run_ids r) (sync r) (wspace r) (clar r)
    x (intents r) (conflict r) (run_info r).
Definition set_intents (x : IntentInfo) (r : IssueRecord) : IssueRecord :=
  mkIssueRecord (issue_id r) (issue_identifier r) (schema_version r) (status r) (created_at r)
    (attempt_count r) (conversation r) (previous_run_ids r) (sync r) (wspace r) (clar r)
    (feedback r) x (conflict r) (run_info r).
Definition set_conflict (x : ConflictInfo) (r : IssueRecord) : IssueRecord :=
  mkIssueRecord (issue_id r) (issue_identifier r) (schema_version r) (status r) (created_at r)
    (attempt_count r) (conversation r) (previous_run_ids r) (sync r) (wspace r) (clar r)
    (feedback r) (intents r) x (run_info r).
Definition set_run (x : RunInfo) (r : IssueRecord) : IssueRecord :=
  mkIssueRecord (issue_id r) (issue_identifier r) (schema_version r) (status r) (created_at r)
    (attempt_count r) (conversation r) (previous_run_ids r) (sync r) (wspace r) (clar r)
    (feedback r) (intents r) (conflict r) x.

Definition with_updated_at (t : Q) (x : RunInfo) : RunInfo :=
  mkRunInfo (run_id x) (debug_log_path x) (run_turn_count x) (run_tool_count x) (run_last_event x)
    (run_last_tool x) (run_output_len x) (run_timeout_deadline_at x) (run_workspace_dirty x)
    (run_cost_usd x) (run_token_usage x) (run_started_at x) (run_completed_at x)
    (run_duration_ms x) (run_backend x) (run_model x) (session_end_reason x)
    (session_end_summary x) (pause_reason x) t.

Definition with_pause (p : string) (x : RunInfo) : RunInfo :=
  mkRunInfo (run_id x) (debug_log_path x) (run_turn_count x) (run_tool_count x) (run_last_event x)
    (run_last_tool x) (run_output_len x) (run_timeout_deadline_at x) (run_workspace_dirty x)
    (run_cost_usd x) (run_token_usage x) (run_started_at x) (run_completed_at x)
    (run_duration_ms x) (run_backend x) (run_model x) (session_end_reason x)
    (session_end_summary x) p (updated_at x).

(** [record.touch()] *)
Definition touch (now : Q) (r : IssueRecord) : IssueRecord :=
  set_run (with_updated_at now (run_info r)) r.

(** [if x is not None: field = x] *)
Definition keep {A} (x : option A) (old : A) : A := default old x.
Definition keep_opt {A} (x : option A) (old : option A) : option A := or_else x old.

(** ** Storage ([storage.py]) *)

Record Registry := mkRegistry {
  records : dict string IssueRecord;
  disk : option (dict string IssueRecord);
  last_save : Q;
  pending_save : bool;
  min_interval : Q;
}.

(** The clocks at a call, and whether its write succeeds. *)
Record Tick := mkTick {
  wall : Q;
  mono : Q;
  io_ok : bool;
}.

Definition set_records (d : dict string IssueRecord) (g : Registry) : Registry :=
  mkRegistry d (disk g) (last_save g) (pending_save g) (min_interval g).

(** [_save]: a failed write leaves the file and the throttle alone. *)
Definition save (t : Tick) (g : Registry) : Registry :=
  if io_ok t then mkRegistry (records g) (Some (records g)) (mono t) false (min_interval g)
  else g.

Definition save_diagnostics (t : Tick) (g : Registry) : Registry :=
  if qle (min_interval g) (mono t - last_save g)%Q then save t g
  else mkRegistry (records g) (disk g) (last_save g) true (min_interval g).

Definition flush (t : Tick) (g : Registry) : Registry :=
  if pending_save g then save t g else g.

(** A record read back is stamped with this build's schema version. *)
Definition loaded (r : IssueRecord) : IssueRecord :=
  mkIssueRecord (issue_id r) (issue_identifier r) SCHEMA_VERSION (status r) (created_at r)
    (attempt_count r) (conversation r) (previous_run_ids r) (sync r) (wspace r) (clar r)
    (feedback r) (intents r) (conflict r) (run_info r).

(** [_load]: a record of a newer schema makes the load raise. *)
Definition load (g : Registry) : outcome exn Registry :=
  match disk g with
  | None => Ret g
  | Some d =>
      if existsb (fun kv => SCHEMA_VERSION <? schema_version (snd kv)) d
      then Raise (mkExn OtherException [Lit "newer than supported; refusing to load"] None)
      else Ret (set_records (map (fun kv => (fst kv, loaded (snd kv))) d) g)
  end.

Definition new_registry (file : option (dict string IssueRecord)) (interval : Q) : outcome exn Registry :=
  load (mkRegistry [] file 0 false interval).

(** The shape of every mutation: look the record up, change it, stamp it,
    persist. *)
Definition update (t : Tick) (id : string) (f : IssueRecord -> IssueRecord) (g : Registry) : Registry :=
  match dget id (records g) with
  | None => g
  | Some r => save t (set_records (dset id (touch (wall t) (f r)) (records g)) g)
  end.

(** ** Queries ([state_machine.py]) *)

Definition get (id : string) (g : Registry) : option IssueRecord := dget id (records g).

Definition find_record (p : IssueRecord -> bool) (g : Registry) : option IssueRecord :=
  find p (dvals (records g)).

Definition get_by_identifier (x : string) (g : Registry) : option IssueRecord :=
  find_record (fun r => String.eqb (issue_identifier r) x) g.

Definition get_by_issue_ref (x : string) (g : Registry) : option IssueRecord :=
  or_else (get x g) (get_by_identifier x g).

Definition get_by_branch (b : string) (g : Registry) : option IssueRecord :=
  find_record (fun r => bool_decide (branch_name (sync r) = Some b)) g.

Definition has_pr (id : string) (g : Registry) : bool :=
  match get id g with Some r => is_some (pr_number (sync r)) | None => false end.

Definition is_completed (id : string) (g : Registry) : bool :=
  match get id g with Some r => bool_decide (status r = COMPLETED) | None => false end.

Definition is_terminal (id : string) (g : Registry) : bool :=
  match get id g with Some r => terminal (status r) | None => false end.

(** [max(..., key=sequence_index or 0)]: the first record of the largest index. *)
Definition latest_sequential_record (g : Registry) : option IssueRecord :=
  let seq r := bool_decide (workspace_strategy (wspace r) = Some "sequential")
               && is_some (sequence_index (wspace r)) in
  fold_left
    (fun best r =>
       match best with
       | None => Some r
       | Some b =>
           if default 0 (sequence_index (wspace b)) <? default 0 (sequence_index (wspace r))
           then Some r else best
       end)
    (List.filter seq (dvals (records g))) None.

Definition records_by_status (s : IssueStatus) (g : Registry) : list IssueRecord :=
  List.filter (fun r => bool_decide (status r = s)) (dvals (records g)).

Definition running_records (g : Registry) : list IssueRecord := records_by_status RUNNING g.

Definition pending_retry_records (g : Registry) : list IssueRecord :=
  List.filter (fun r => is_some (next_retry_at (intents r))) (dvals (records g)).

Definition can_follow_up (id : string) (max_attempts : Z) (g : Registry) : bool :=
  match get id g with
  | Some r => followup_attempt_count (feedback r) <? max_attempts
  | None => false
  end.

(** ** Lifecycle ([state_machine.py]) *)

Record RegisterArgs := mkRegisterArgs {
  ra_branch : option string;
  ra_wspace : WorkspaceInfo;
  ra_status : option IssueStatus;
  ra_author : option string;
}.

(** A fresh record: every default of the dataclass. *)
Definition fresh_record (t : Tick) (id ident : string) (a : RegisterArgs) (conv : option string)
    : IssueRecord :=
  mkIssueRecord id ident SCHEMA_VERSION (default PENDING (ra_status a)) (wall t) 0 conv []
    (mkSyncInfo (ra_branch a) None None None None None None None None None None)
    (ra_wspace a)
    (mkClarInfo None [] [] 0 None [] None (ra_author a) None None None [])
    (mkFeedbackInfo [] [] [] None None 0 [] None None)
    (mkIntentInfo INone 0 None None None None)
    (mkConflictInfo false [] 0 None)
    (no_run (wall t)).

(** What [register] carries over from an existing record. *)
Definition carry_over (a : RegisterArgs) (old r : IssueRecord) : IssueRecord :=
  let s := sync old in
  let c := clar old in
  let f := feedback old in
  let i := intents old in
  let r := set_sync
             (mkSyncInfo (str_or (branch_name s) (branch_name (sync r))) (commit_sha s) (pr_number s)
                (pr_url s) (pr_created_at s) None (report_path s) (verification_status s)
                (verification_output s) (last_hook_error s) (summary_comment_id s)) r in
  let r := set_clar
             (mkClarInfo (clarification_status c) (question_history c) (open_questions c)
                (clarification_round c) (clarifier_fingerprint c) (clarification_replies c)
                (clarifier_comment_cursor c)
                (match ra_author a with Some _ => ra_author a | None => str_or (author_login c) None end)
                (local_answer c) (local_answer_source c) (first_response_source c)
                (stale_answers c)) r in
  let r := set_feedback
             (mkFeedbackInfo (processed_feedback_ids f) (pending_feedback_ids f)
                (pending_feedback_urls f) (pending_feedback_since f) (feedback_cursor f)
                (followup_attempt_count f) [] (last_followup_commit_sha f)
                (last_feedback_checked_at f)) r in
  let r := set_intents
             (mkIntentInfo (intent i) (retry_count i) None (last_command i) (intent_source i)
                (command_cursor i)) r in
  set_conflict (conflict old) r.

(** [new_conv] is what [ensure_conversation_id()] generates. *)
Definition register (t : Tick) (id ident : string) (a : RegisterArgs) (new_conv : string)
    (g : Registry) : Registry :=
  let record :=
    match get id g with
    | Some old => carry_over a old (fresh_record t id ident a (conversation old))
    | None => fresh_record t id ident a (Some new_conv)
    end in
  save t (set_records (dset id record (records g)) g).

Definition persist_retry_plan (t : Tick) (id : string) (count : Z) (at_ : Q) : Registry -> Registry :=
  update t id (fun r =>
    let i := intents r in
    set_intents (mkIntentInfo (intent i) count (Some at_) (last_command i) (intent_source i)
                   (command_cursor i)) r).

(** Nothing is written when there is no plan to clear. *)
Definition clear_retry_plan (t : Tick) (id : string) (g : Registry) : Registry :=
  match get id g with
  | None => g
  | Some r =>
      match next_retry_at (intents r) with
      | None => g
      | Some _ =>
          update t id (fun r =>
            let i := intents r in
            set_intents (mkIntentInfo (intent i) (retry_count i) None (last_command i)
                           (intent_source i) (command_cursor i)) r) g
      end
  end.

Definition mark_synced (t : Tick) (id : string) (branch sha pr url : option string)
    : Registry -> Registry :=
  update t id (fun r =>
    let s := sync r in
    let created :=
      match pr with
      | Some _ => if negb (is_some (pr_number s)) && negb (is_some (pr_created_at s))
                  then Some (wall t) else pr_created_at s
      | None => pr_created_at s
      end in
    set_status SYNCED
      (set_sync
         (mkSyncInfo (keep_opt branch (branch_name s)) (keep_opt sha (commit_sha s))
            (keep_opt pr (pr_number s)) (keep_opt url (pr_url s)) created (pr_state s)
            (report_path s) (verification_status s) (verification_output s) (last_hook_error s)
            (summary_comment_id s)) r)).

Definition mark_running (t : Tick) (id : string) : Registry -> Registry :=
  update t id (fun r =>
    let x := run_info r in
    set_status RUNNING
      (set_run (mkRunInfo None None 0 0 None None 0 None None 0 (PDict []) None None None None None
                  (session_end_reason x) (session_end_summary x) (pause_reason x) (updated_at x)) r)).

(** The keyword arguments of [update_run_diagnostics]. *)
Record Diagnostics := mkDiagnostics {
  dg_run_id : option string;
  dg_debug_log_path : option string;
  dg_turn_count : option Z;
  dg_tool_count : option Z;
  dg_last_event : option string;
  dg_last_tool : option string;
  dg_output_len : option Z;
  dg_timeout_deadline_at : option Q;
  dg_workspace_dirty : option bool;
  dg_cost_usd : option Q;
  dg_token_usage : option pyval;
  dg_started_at : option Q;
  dg_completed_at : option Q;
  dg_duration_ms : option Q;
  dg_backend : option string;
  dg_model : option string;
  dg_session_end_reason : option string;
  dg_session_end_summary : option string;
  dg_pause_reason : option string;
}.

Definition apply_diagnostics (d : Diagnostics) (x : RunInfo) : RunInfo :=
  let deadline := keep_opt (dg_timeout_deadline_at d) (run_timeout_deadline_at x) in
  let deadline := match str_or (dg_pause_reason d) None with Some _ => None | None => deadline end in
  mkRunInfo (keep_opt (dg_run_id d) (run_id x)) (keep_opt (dg_debug_log_path d) (debug_log_path x))
    (keep (dg_turn_count d) (run_turn_count x)) (keep (dg_tool_count d) (run_tool_count x))
    (keep_opt (dg_last_event d) (run_last_event x)) (keep_opt (dg_last_tool d) (run_last_tool x))
    (keep (dg_output_len d) (run_output_len x)) deadline
    (keep_opt (dg_workspace_dirty d) (run_workspace_dirty x))
    (keep (dg_cost_usd d) (run_cost_usd x)) (keep (dg_token_usage d) (run_token_usage x))
    (keep_opt (dg_started_at d) (run_started_at x)) (keep_opt (dg_completed_at d) (run_completed_at x))
    (keep_opt (dg_duration_ms d) (run_duration_ms x)) (keep_opt (dg_backend d) (run_backend x))
    (keep_opt (dg_model d) (run_model x))
    (keep_opt (dg_session_end_reason d) (session_end_reason x))
    (keep (dg_session_end_summary d) (session_end_summary x))
    (keep (dg_pause_reason d) (pause_reason x)) (updated_at x).

(** A new run id is saved at once; anything else is throttled. *)
Definition update_run_diagnostics (t : Tick) (id : string) (d : Diagnostics) (g : Registry) : Registry :=
  match get id g with
  | None => g
  | Some r =>
      let r := touch (wall t) (set_run (apply_diagnostics d (run_info r)) r) in
      let g := set_records (dset id r (records g)) g in
      if is_some (dg_run_id d) then save t g else save_diagnostics t g
  end.

Definition mark_pending_review (t : Tick) (id : string) : Registry -> Registry :=
  update t id (set_status PENDING_REVIEW).

Definition mark_completed (t : Tick) (id : string) : Registry -> Registry :=
  update t id (fun r =>
    let s := sync r in
    let failed := bool_decide (verification_status s = Some "failed") in
    set_status COMPLETED
      (set_sync
         (mkSyncInfo (branch_name s) (commit_sha s) (pr_number s) (pr_url s) (pr_created_at s)
            (pr_state s) (report_path s)
            (if failed then None else verification_status s)
            (if failed then None else verification_output s)
            (match str_or (last_hook_error s) None with Some _ => None | None => last_hook_error s end)
            (summary_comment_id s)) r)).

Definition mark_pending (t : Tick) (id : string) : Registry -> Registry :=
  update t id (fun r => set_run (with_pause "" (run_info r)) (set_status PENDING r)).

Definition mark_failed (t : Tick) (id : string) : Registry -> Registry :=
  update t id (fun r => set_attempts (attempt_count r + 1) (set_status FAILED r)).

(** The fields a failed verification leaves. *)
Definition with_verification (vs vo he : option string) (s : SyncInfo) : SyncInfo :=
  mkSyncInfo (branch_name s) (commit_sha s) (pr_number s) (pr_url s) (pr_created_at s) (pr_state s)
    (report_path s) vs vo he (summary_comment_id s).

Definition mark_failed_with_reason (t : Tick) (id reason : string) : Registry -> Registry :=
  update t id (fun r =>
    set_attempts (attempt_count r + 1)
      (set_sync (with_verification (Some "failed") (Some reason) (Some reason) (sync r))
         (set_status FAILED r))).

Definition mark_verification_failed (t : Tick) (id : string) (output hook_error : option string)
    : Registry -> Registry :=
  update t id (fun r =>
    set_attempts (attempt_count r + 1)
      (set_sync (with_verification (Some "failed") output hook_error (sync r))
         (set_status VERIFICATION_FAILED r))).

Definition mark_paused (t : Tick) (id reason : string) : Registry -> Registry :=
  update t id (fun r => set_run (with_pause reason (run_info r)) (set_status PAUSED r)).

Definition mark_resumed (t : Tick) (id : string) : Registry -> Registry :=
  update t id (fun r => set_run (with_pause "" (run_info r)) (set_status RUNNING r)).

Definition mark_abandoned (t : Tick) (id : string) : Registry -> Registry :=
  update t id (set_status ABANDONED).

Definition update_branch (t : Tick) (id b : string) : Registry -> Registry :=
  update t id (fun r =>
    let s := sync r in
    set_sync (mkSyncInfo (Some b) (commit_sha s) (pr_number s) (pr_url s) (pr_created_at s)
                (pr_state s) (report_path s) (verification_status s) (verification_output s)
                (last_hook_error s) (summary_comment_id s)) r).

Definition update_report (t : Tick) (id : string)
    (report vstatus voutput comment end_reason end_summary : option string) : Registry -> Registry :=
  update t id (fun r =>
    let s := sync r in
    let x := run_info r in
    set_run
      (mkRunInfo (run_id x) (debug_log_path x) (run_turn_count x) (run_tool_count x)
         (run_last_event x) (run_last_tool x) (run_output_len x) (run_timeout_deadline_at x)
         (run_workspace_dirty x) (run_cost_usd x) (run_token_usage x) (run_started_at x)
         (run_completed_at x) (run_duration_ms x) (run_backend x) (run_model x)
         (keep_opt end_reason (session_end_reason x)) (keep end_summary (session_end_summary x))
         (pause_reason x) (updated_at x))
      (set_sync
         (mkSyncInfo (branch_name s) (commit_sha s) (pr_number s) (pr_url s) (pr_created_at s)
            (pr_state s) (keep_opt report (report_path s)) (keep_opt vstatus (verification_status s))
            (keep_opt voutput (verification_output s)) (last_hook_error s)
            (keep_opt comment (summary_comment_id s))) r)).

(** ** Clarification ([clarification.py]) *)

Record ClarArgs := mkClarArgs {
  ca_status : option string;
  ca_question : option string;
  ca_author : option string;
  ca_answer : option string;
  ca_answer_source : option string;
  ca_first_response : option string;
  ca_open : option (list string);
  ca_round : option Z;
  ca_fingerprint : option string;
  ca_replies : option (list string);
  ca_cursor : option string;
}.

Definition update_clarification (t : Tick) (id : string) (a : ClarArgs) : Registry -> Registry :=
  update t id (fun r =>
    let c := clar r in
    set_clar
      (mkClarInfo (keep_opt (ca_status a) (clarification_status c))
         (match ca_question a with Some q => question_history c ++ [q] | None => question_history c end)
         (keep (ca_open a) (open_questions c))
         (match ca_round a with Some n => Z.max 0 n | None => clarification_round c end)
         (keep_opt (ca_fingerprint a) (clarifier_fingerprint c))
         (keep (ca_replies a) (clarification_replies c))
         (keep_opt (ca_cursor a) (clarifier_comment_cursor c))
         (keep_opt (ca_author a) (author_login c)) (keep_opt (ca_answer a) (local_answer c))
         (keep_opt (ca_answer_source a) (local_answer_source c))
         (keep_opt (ca_first_response a) (first_response_source c)) (stale_answers c)) r).

(** [for q in questions: if q not in history: history.append(q)] *)
Definition add_questions (questions history : list string) : list string :=
  fold_left (fun h q => if mem q h then h else h ++ [q]) questions history.

Definition mark_clarification_blocked (t : Tick) (id : string) (questions : list string)
    (fingerprint : string) (round : Z) : Registry -> Registry :=
  update t id (fun r =>
    let c := clar r in
    let r := if terminal (status r) then set_status PENDING r else r in
    set_clar
      (mkClarInfo (Some "awaiting_author") (add_questions questions (question_history c)) questions
         (Z.max 1 round) (Some fingerprint) (clarification_replies c) (clarifier_comment_cursor c)
         (author_login c) (local_answer c) (local_answer_source c) (first_response_source c)
         (stale_answers c)) r).

Definition mark_clarification_resolved (t : Tick) (id fingerprint : string)
    (answer source : option string) (st : string) (replies : option (list string))
    : Registry -> Registry :=
  update t id (fun r =>
    let c := clar r in
    set_clar
      (mkClarInfo (Some st) (question_history c) [] (clarification_round c) (Some fingerprint)
         (keep replies (clarification_replies c)) (clarifier_comment_cursor c) (author_login c)
         (keep_opt answer (local_answer c)) (keep_opt source (local_answer_source c))
         (keep_opt source (first_response_source c)) (stale_answers c)) r).

Definition mark_clarification_manual_required (t : Tick) (id : string) (questions : list string)
    (fingerprint : string) : Registry -> Registry :=
  update t id (fun r =>
    let c := clar r in
    set_clar
      (mkClarInfo (Some "manual_required") (question_history c) questions (clarification_round c)
         (Some fingerprint) (clarification_replies c) (clarifier_comment_cursor c) (author_login c)
         (local_answer c) (local_answer_source c) (first_response_source c) (stale_answers c)) r).

Definition add_stale_answer (t : Tick) (id answer : string) : Registry -> Registry :=
  update t id (fun r =>
    let c := clar r in
    set_clar
      (mkClarInfo (clarification_status c) (question_history c) (open_questions c)
         (clarification_round c) (clarifier_fingerprint c) (clarification_replies c)
         (clarifier_comment_cursor c) (author_login c) (local_answer c) (local_answer_source c)
         (first_response_source c) (stale_answers c ++ [answer])) r).

(** ** Review feedback ([feedback.py]) *)

(** The loop of [mark_feedback_pending]: [seen] is the set of pending ids. *)
Fixpoint add_pending (processed : list string) (urls_in : dict string string) (ids : list string)
    (pending : list string) (urls : dict string string) : list string * dict string string :=
  match ids with
  | [] => (pending, urls)
  | id :: ids' =>
      if mem id processed then add_pending processed urls_in ids' pending urls
      else
        let pending := if mem id pending then pending else pending ++ [id] in
        let urls := match str_or (dget id urls_in) None with
                    | Some u => dset id u urls
                    | None => urls
                    end in
        add_pending processed urls_in ids' pending urls
  end.

Definition mark_feedback_pending (t : Tick) (id : string) (ids : list string) (cursor : option string)
    (urls_in : dict string string) : Registry -> Registry :=
  update t id (fun r =>
    let f := feedback r in
    let since := match pending_feedback_ids f with [] => Some (wall t) | _ => pending_feedback_since f end in
    let '(pending, urls) :=
      add_pending (processed_feedback_ids f) urls_in ids (pending_feedback_ids f)
        (pending_feedback_urls f) in
    set_feedback
      (mkFeedbackInfo (processed_feedback_ids f) pending urls since
         (keep_opt cursor (feedback_cursor f)) (followup_attempt_count f)
         (feedback_failure_counts f) (last_followup_commit_sha f) (Some (wall t))) r).

(** [for id in ids: if id not in processed: processed.append(id)] *)
Definition add_processed (ids processed : list string) : list string :=
  fold_left (fun l x => if mem x l then l else l ++ [x]) ids processed.

Definition mark_feedback_processed (t : Tick) (id : string) (ids : list string)
    (sha cursor : option string) : Registry -> Registry :=
  update t id (fun r =>
    let f := feedback r in
    let processed := add_processed ids (processed_feedback_ids f) in
    let pending := List.filter (fun x => negb (mem x processed)) (pending_feedback_ids f) in
    let urls := fold_left (fun d x => ddel x d) ids (pending_feedback_urls f) in
    set_feedback
      (mkFeedbackInfo processed pending urls
         (match pending with [] => None | _ => pending_feedback_since f end)
         (keep_opt cursor (feedback_cursor f)) (followup_attempt_count f)
         (feedback_failure_counts f) (keep_opt sha (last_followup_commit_sha f))
         (Some (wall t))) r).

Definition increment_followup_attempt (t : Tick) (id : string) : Registry -> Registry :=
  update t id (fun r =>
    let f := feedback r in
    set_feedback
      (mkFeedbackInfo (processed_feedback_ids f) (pending_feedback_ids f) (pending_feedback_urls f)
         (pending_feedback_since f) (feedback_cursor f) (followup_attempt_count f + 1)
         (feedback_failure_counts f) (last_followup_commit_sha f) (last_feedback_checked_at f)) r).

Definition increment_feedback_failure (t : Tick) (id : string) (ids : list string)
    : Registry -> Registry :=
  update t id (fun r =>
    let f := feedback r in
    set_feedback
      (mkFeedbackInfo (processed_feedback_ids f) (pending_feedback_ids f) (pending_feedback_urls f)
         (pending_feedback_since f) (feedback_cursor f) (followup_attempt_count f)
         (fold_left (fun d x => dset x (default 0 (dget x d) + 1) d) ids (feedback_failure_counts f))
         (last_followup_commit_sha f) (last_feedback_checked_at f)) r).

Definition feedback_abandoned (id fid : string) (max_failures : Z) (g : Registry) : bool :=
  match get id g with
  | None => false
  | Some r => max_failures <=? default 0 (dget fid (feedback_failure_counts (feedback r)))
  end.

(** Nothing is dropped or written while the oldest pending id is fresh. *)
Definition clear_stale_pending (t : Tick) (id : string) (timeout : Q) (g : Registry) : nat * Registry :=
  match get id g with
  | None => (0%nat, g)
  | Some r =>
      let f := feedback r in
      match pending_feedback_ids f, pending_feedback_since f with
      | [], _ | _, None => (0%nat, g)
      | _, Some since =>
          if qlt (wall t - since)%Q timeout then (0%nat, g)
          else
            (length (pending_feedback_ids f),
             update t id (fun r =>
               let f := feedback r in
               set_feedback
                 (mkFeedbackInfo (processed_feedback_ids f) [] [] None (feedback_cursor f)
                    (followup_attempt_count f) (feedback_failure_counts f)
                    (last_followup_commit_sha f) (last_feedback_checked_at f)) r) g)
      end
  end.

Definition mark_feedback_checked (t : Tick) (id : string) : Registry -> Registry :=
  update t id (fun r =>
    let f := feedback r in
    set_feedback
      (mkFeedbackInfo (processed_feedback_ids f) (pending_feedback_ids f) (pending_feedback_urls f)
         (pending_feedback_since f) (feedback_cursor f) (followup_attempt_count f)
         (feedback_failure_counts f) (last_followup_commit_sha f) (Some (wall t))) r).

(** ** Intent, retry, conflict ([intent.py]) *)

Definition mark_intent (t : Tick) (id : string) (i : Intent) (source command : option string)
    : Registry -> Registry :=
  update t id (fun r =>
    let x := intents r in
    set_intents (mkIntentInfo i (retry_count x) (next_retry_at x) (keep_opt command (last_command x))
                   (keep_opt source (intent_source x)) (command_cursor x)) r).

Definition clear_intent (t : Tick) (id : string) (record_intent_history : bool) : Registry -> Registry :=
  update t id (fun r =>
    let x := intents r in
    set_intents (mkIntentInfo INone (retry_count x) (next_retry_at x) (last_command x)
                   (if record_intent_history then intent_source x else None) (command_cursor x)) r).

Definition with_retry_count (n : Z) (x : IntentInfo) : IntentInfo :=
  mkIntentInfo (intent x) n (next_retry_at x) (last_command x) (intent_source x) (command_cursor x).

Definition increment_retry_count (t : Tick) (id : string) : Registry -> Registry :=
  update t id (fun r => set_intents (with_retry_count (retry_count (intents r) + 1) (intents r)) r).

Definition mark_conflict (t : Tick) (id : string) (files : list string) : Registry -> Registry :=
  update t id (fun r =>
    set_conflict (mkConflictInfo true files (rebase_attempt_count (conflict r)) (Some (wall t))) r).

Definition clear_conflict (t : Tick) (id : string) : Registry -> Registry :=
  update t id (fun r =>
    set_conflict (mkConflictInfo false [] (rebase_attempt_count (conflict r))
                    (last_rebase_attempt_at (conflict r))) r).

Definition increment_rebase_attempt (t : Tick) (id : string) : Registry -> Registry :=
  update t id (fun r =>
    let x := conflict r in
    set_conflict (mkConflictInfo (has_conflict x) (conflict_files x) (rebase_attempt_count x + 1)
                    (Some (wall t))) r).

Definition reset_for_retry (t : Tick) (id : string) (increment_retry reset_retry_count : bool)
    : Registry -> Registry :=
  update t id (fun r =>
    let s := sync r in
    let c := clar r in
    let n := retry_count (intents r) in
    let r := set_status PENDING r in
    let r := set_sync (mkSyncInfo (branch_name s) None None None None None None None None None None) r in
    let r := set_clar
               (mkClarInfo None (question_history c) [] 0 None [] None (author_login c)
                  (local_answer c) (local_answer_source c) (first_response_source c)
                  (stale_answers c)) r in
    set_intents
      (with_retry_count (if reset_retry_count then 0 else if increment_retry then n + 1 else n)
         (intents r)) r).

Definition unblock (t : Tick) (id : string) : Registry -> Registry :=
  update t id (fun r =>
    let x := intents r in
    let r := if bool_decide (status r = ABANDONED) then set_status PENDING r else r in
    set_intents (mkIntentInfo INone (retry_count x) (next_retry_at x) None None (command_cursor x)) r).

(** ** Steps *)

(** One call of a public mutator. *)
Inductive reg_call :=
| CallRegister (id ident : string) (a : RegisterArgs) (conv : string)
| CallPersistRetryPlan (id : string) (count : Z) (at_ : Q)
| CallClearRetryPlan (id : string)
| CallSynced (id : string) (branch sha pr url : option string)
| CallRunning (id : string)
| CallDiagnostics (id : string) (d : Diagnostics)
| CallPendingReview (id : string)
| CallCompleted (id : string)
| CallPending (id : string)
| CallFailed (id : string)
| CallFailedWithReason (id reason : string)
| CallVerificationFailed (id : string) (output hook_error : option string)
| CallPaused (id reason : string)
| CallResumed (id : string)
| CallAbandoned (id : string)
| CallBranch (id b : string)
| CallReport (id : string) (report vstatus voutput comment end_reason end_summary : option string)
| CallClarification (id : string) (a : ClarArgs)
| CallClarBlocked (id : string) (questions : list string) (fingerprint : string) (round : Z)
| CallClarResolved (id fingerprint : string) (answer source : option string) (st : string)
    (replies : option (list string))
| CallClarManual (id : string) (questions : list string) (fingerprint : string)
| CallStaleAnswer (id answer : string)
| CallFeedbackPending (id : string) (ids : list string) (cursor : option string)
    (urls : dict string string)
| CallFeedbackProcessed (id : string) (ids : list string) (sha cursor : option string)
| CallFollowupAttempt (id : string)
| CallFeedbackFailure (id : string) (ids : list string)
| CallClearStale (id : string) (timeout : Q)
| CallFeedbackChecked (id : string)
| CallIntent (id : string) (i : Intent) (source command : option string)
| CallClearIntent (id : string) (history : bool)
| CallRetryCount (id : string)
| CallConflict (id : string) (files : list string)
| CallClearConflict (id : string)
| CallRebaseAttempt (id : string)
| CallResetForRetry (id : string) (increment reset : bool)
| CallUnblock (id : string)
| CallFlush.

Definition exec_call (t : Tick) (c : reg_call) : Registry -> Registry :=
  match c with
  | CallRegister id ident a conv => register t id ident a conv
  | CallPersistRetryPlan id count at_ => persist_retry_plan t id count at_
  | CallClearRetryPlan id => clear_retry_plan t id
  | CallSynced id branch sha pr url => mark_synced t id branch sha pr url
  | CallRunning id => mark_running t id
  | CallDiagnostics id d => update_run_diagnostics t id d
  | CallPendingReview id => mark_pending_review t id
  | CallCompleted id => mark_completed t id
  | CallPending id => mark_pending t id
  | CallFailed id => mark_failed t id
  | CallFailedWithReason id reason => mark_failed_with_reason t id reason
  | CallVerificationFailed id output hook_error => mark_verification_failed t id output hook_error
  | CallPaused id reason => mark_paused t id reason
  | CallResumed id => mark_resumed t id
  | CallAbandoned id => mark_abandoned t id
  | CallBranch id b => update_branch t id b
  | CallReport id a b c d e f => update_report t id a b c d e f
  | CallClarification id a => update_clarification t id a
  | CallClarBlocked id questions fingerprint round =>
      mark_clarification_blocked t id questions fingerprint round
  | CallClarResolved id fingerprint answer source st replies =>
      mark_clarification_resolved t id fingerprint answer source st replies
  | CallClarManual id questions fingerprint =>
      mark_clarification_manual_required t id questions fingerprint
  | CallStaleAnswer id answer => add_stale_answer t id answer
  | CallFeedbackPending id ids cursor urls => mark_feedback_pending t id ids cursor urls
  | CallFeedbackProcessed id ids sha cursor => mark_feedback_processed t id ids sha cursor
  | CallFollowupAttempt id => increment_followup_attempt t id
  | CallFeedbackFailure id ids => increment_feedback_failure t id ids
  | CallClearStale id timeout => fun g => snd (clear_stale_pending t id timeout g)
  | CallFeedbackChecked id => mark_feedback_checked t id
  | CallIntent id i source command => mark_intent t id i source command
  | CallClearIntent id history => clear_intent t id history
  | CallRetryCount id => increment_retry_count t id
  | CallConflict id files => mark_conflict t id files
  | CallClearConflict id => clear_conflict t id
  | CallRebaseAttempt id => increment_rebase_attempt t id
  | CallResetForRetry id increment reset => reset_for_retry t id increment reset
  | CallUnblock id => unblock t id
  | CallFlush => flush t
  end.

(** A history of calls, oldest first. *)
Definition exec_calls (calls : list (Tick * reg_call)) (g : Registry) : Registry :=
  fold_left (fun g tc => exec_call (fst tc) (snd tc) g) calls g.
