(* ===== verification/RegistryFacts.v ===== *)
(** * Properties of the issue registry

    Invariants over arbitrary histories of calls of the public mutators: what a
    crash can lose, the first-PR clock, the feedback lists, and what a
    re-registration forgets. *)

From S2P Require Import Prelude Errors Intent IssueRegistry.

Open Scope string_scope.
Open Scope list_scope.
Open Scope Z_scope.

(** ** Records through an update *)

Lemma save_records t g : records (save t g) = records g.
Proof. unfold save. by destruct (io_ok t). Qed.

Lemma save_diagnostics_records t g : records (save_diagnostics t g) = records g.
Proof. unfold save_diagnostics. destruct (qle _ _); [apply save_records|done]. Qed.

Lemma flush_records t g : records (flush t g) = records g.
Proof. unfold flush. destruct (pending_save g); [apply save_records|done]. Qed.

Lemma update_get t id f g id' :
  get id' (update t id f g)
  = if decide (id = id') then (fun r => touch (wall t) (f r)) <$> get id g else get id' g.
Proof.
  unfold update, get. destruct (dget id (records g)) as [r|] eqn:E.
  - rewrite save_records. simpl. rewrite dget_dset. by destruct (decide (id = id')).
  - destruct (decide (id = id')) as [<-|]; by rewrite ?E.
Qed.

Lemma update_wf t id f g : dict_wf (records g) -> dict_wf (records (update t id f g)).
Proof. intros H. unfold update. destruct (dget id (records g)); [|done]. rewrite save_records. by apply dset_wf. Qed.

(** Every record has the property [P]. *)
Definition all_records (P : IssueRecord -> Prop) (g : Registry) : Prop :=
  forall id r, get id g = Some r -> P r.

Lemma all_records_update P t id f g :
  (forall r, P r -> P (touch (wall t) (f r))) -> all_records P g -> all_records P (update t id f g).
Proof.
  intros Hf Hg id' r. rewrite update_get. destruct (decide (id = id')) as [<-|]; [|apply Hg].
  destruct (get id g) as [r0|] eqn:E; simpl; [|done]. intros [= <-]. by apply Hf, (Hg id).
Qed.

Lemma all_records_dset P id r g :
  P r -> all_records P g -> all_records P (set_records (dset id r (records g)) g).
Proof.
  intros Hr Hg id' r'. unfold get. simpl. rewrite dget_dset.
  destruct (decide (id = id')); [by intros [= <-]|apply Hg].
Qed.

Lemma all_records_same P g g' : records g' = records g -> all_records P g -> all_records P g'.
Proof. unfold all_records, get. by intros ->. Qed.

(** Unfold a call down to its [update]. *)
Ltac open_call :=
  unfold exec_call, persist_retry_plan, clear_retry_plan, mark_synced, mark_running,
    mark_pending_review, mark_completed, mark_pending, mark_failed, mark_failed_with_reason,
    mark_verification_failed, mark_paused, mark_resumed, mark_abandoned, update_branch,
    update_report, update_clarification, mark_clarification_blocked, mark_clarification_resolved,
    mark_clarification_manual_required, add_stale_answer, increment_followup_attempt,
    increment_feedback_failure, mark_feedback_checked, mark_intent, clear_intent,
    increment_retry_count, mark_conflict, clear_conflict, increment_rebase_attempt,
    reset_for_retry, unblock.

(** ** Feedback lists *)

(** Pending and processed ids are duplicate-free and disjoint, and a URL is
    kept only for a pending id. *)
Record feedback_wf (f : FeedbackInfo) : Prop := {
  fw_processed : NoDup (processed_feedback_ids f);
  fw_pending : NoDup (pending_feedback_ids f);
  fw_disjoint : forall x, x ∈ pending_feedback_ids f -> x ∉ processed_feedback_ids f;
  fw_urls : forall x, x ∈ dkeys (pending_feedback_urls f) -> x ∈ pending_feedback_ids f;
}.

Lemma add_pending_spec processed urls_in ids pending urls :
  NoDup pending -> (forall x, x ∈ pending -> x ∉ processed) ->
  (forall x, x ∈ dkeys urls -> x ∈ pending) ->
  let '(pending', urls') := add_pending processed urls_in ids pending urls in
  NoDup pending' /\ (forall x, x ∈ pending' -> x ∉ processed) /\
  (forall x, x ∈ dkeys urls' -> x ∈ pending').
Proof.
  revert pending urls. induction ids as [|a ids IH]; intros pending urls Hnd Hdis Hurl; simpl; [done|].
  destruct (mem a processed) eqn:Ep; [by apply IH|]. apply mem_false in Ep.
  set (pending' := if mem a pending then pending else pending ++ [a]).
  assert (Hin : forall x, x ∈ pending' <-> x ∈ pending \/ x = a).
  { intros x. subst pending'. destruct (mem a pending) eqn:Ea.
    - apply mem_true in Ea. split; [auto|]. by intros [?| ->].
    - rewrite elem_of_app, list_elem_of_singleton. done. }
  apply IH.
  - subst pending'. destruct (mem a pending) eqn:Ea; [done|]. apply mem_false in Ea.
    apply NoDup_app. split; [done|]. split; [|apply NoDup_singleton].
    by intros x Hx ->%list_elem_of_singleton.
  - intros x [Hx| ->]%Hin; [by apply Hdis|done].
  - intros x Hx. apply Hin. destruct (str_or (dget a urls_in) None); [|auto].
    apply dkeys_dset_in in Hx as [->|Hx]; auto.
Qed.

Lemma add_processed_In ids l x : x ∈ add_processed ids l <-> x ∈ l \/ x ∈ ids.
Proof.
  unfold add_processed. revert l. induction ids as [|a ids IH]; intros l; simpl.
  - split; [auto|]. intros [?|H]; [done|by apply elem_of_nil in H].
  - rewrite IH, elem_of_cons. destruct (mem a l) eqn:Ea.
    + apply mem_true in Ea. split; [intuition|]. intros [?|[->|?]]; auto.
    + rewrite elem_of_app, list_elem_of_singleton. intuition.
Qed.

Lemma add_processed_NoDup ids l : NoDup l -> NoDup (add_processed ids l).
Proof.
  unfold add_processed. revert l. induction ids as [|a ids IH]; intros l Hl; simpl; [done|].
  apply IH. destruct (mem a l) eqn:Ea; [done|]. apply mem_false in Ea.
  apply NoDup_app. split; [done|]. split; [|apply NoDup_singleton].
  by intros x Hx ->%list_elem_of_singleton.
Qed.

Lemma fold_ddel_keys {V} ids (d : dict string V) x :
  x ∈ dkeys (fold_left (fun d x => ddel x d) ids d) -> x ∈ dkeys d /\ x ∉ ids.
Proof.
  revert d. induction ids as [|a ids IH]; intros d; simpl; [intros; split; [done|apply not_elem_of_nil]|].
  intros [Hd Hn]%IH. rewrite dkeys_ddel in Hd. apply list_elem_of_filter in Hd as [Hne Hd].
  split; [done|]. intros [->|?]%elem_of_cons; done.
Qed.

Lemma feedback_wf_pending t f ids urls_in cursor :
  feedback_wf f ->
  let '(pending, urls) :=
    add_pending (processed_feedback_ids f) urls_in ids (pending_feedback_ids f)
      (pending_feedback_urls f) in
  feedback_wf (mkFeedbackInfo (processed_feedback_ids f) pending urls
    (match pending_feedback_ids f with [] => Some (wall t) | _ => pending_feedback_since f end)
    (keep_opt cursor (feedback_cursor f)) (followup_attempt_count f)
    (feedback_failure_counts f) (last_followup_commit_sha f) (Some (wall t))).
Proof.
  intros [H1 H2 H3 H4].
  pose proof (add_pending_spec (processed_feedback_ids f) urls_in ids (pending_feedback_ids f)
                (pending_feedback_urls f) H2 H3 H4) as H.
  destruct (add_pending _ _ _ _ _) as [pending urls]. destruct H as (? & ? & ?). by split.
Qed.

Lemma feedback_wf_processed f ids since cursor sha checked :
  feedback_wf f ->
  let processed := add_processed ids (processed_feedback_ids f) in
  feedback_wf (mkFeedbackInfo processed
    (List.filter (fun x => negb (mem x processed)) (pending_feedback_ids f))
    (fold_left (fun d x => ddel x d) ids (pending_feedback_urls f)) since cursor
    (followup_attempt_count f) (feedback_failure_counts f) sha checked).
Proof.
  intros [H1 H2 H3 H4]. simpl.
  assert (Hf : forall x, x ∈ List.filter (fun x => negb (mem x (add_processed ids (processed_feedback_ids f))))
                   (pending_feedback_ids f) <->
             x ∈ pending_feedback_ids f /\ x ∉ add_processed ids (processed_feedback_ids f)).
  { intros x. rewrite !list_elem_of_In, filter_In, negb_true_iff, mem_false.
    by rewrite <- !list_elem_of_In. }
  split; simpl.
  - by apply add_processed_NoDup.
  - apply NoDup_ListNoDup, List.NoDup_filter, NoDup_ListNoDup, H2.
  - by intros x [_ ?]%Hf.
  - intros x [Hx Hn]%fold_ddel_keys. apply Hf. split; [by apply H4|].
    rewrite add_processed_In. intros [Hp|Hi]; [|done]. by apply (H3 x); [apply H4|].
Qed.

(** A property of records that only some calls touch: the calls that create,
    read or write specially are given separately. *)
Lemma all_records_clear_retry P t id g :
  (forall r, P r -> P (touch (wall t) (set_intents
     (mkIntentInfo (intent (intents r)) (retry_count (intents r)) None (last_command (intents r))
        (intent_source (intents r)) (command_cursor (intents r))) r))) ->
  all_records P g -> all_records P (clear_retry_plan t id g).
Proof.
  intros Hf Hg. unfold clear_retry_plan. destruct (get id g) as [r|]; [|done].
  destruct (next_retry_at (intents r)); [|done]. by apply all_records_update.
Qed.

Lemma all_records_diagnostics P t id d g :
  (forall r x, P r -> P (set_run x r)) ->
  all_records P g -> all_records P (update_run_diagnostics t id d g).
Proof.
  intros Hf Hg. unfold update_run_diagnostics. destruct (get id g) as [r|] eqn:E; [|done].
  assert (H : all_records P (set_records (dset id (touch (wall t)
            (set_run (apply_diagnostics d (run_info r)) r)) (records g)) g)).
  { apply all_records_dset; [|done]. apply Hf, Hf, (Hg id r E). }
  destruct (is_some (dg_run_id d)); (eapply all_records_same; [|exact H]);
    [apply save_records|apply save_diagnostics_records].
Qed.

Lemma all_records_register P t id ident a conv g :
  (forall r, P r -> P (carry_over a r (fresh_record t id ident a (conversation r)))) ->
  P (fresh_record t id ident a (Some conv)) ->
  all_records P g -> all_records P (register t id ident a conv g).
Proof.
  intros Hc Hn Hg. unfold register. eapply all_records_same; [apply save_records|].
  apply all_records_dset; [|done]. destruct (get id g) as [r|] eqn:E; [|done].
  by apply Hc, (Hg id).
Qed.

Lemma empty_feedback_wf since cursor n counts sha checked :
  feedback_wf (mkFeedbackInfo [] [] [] since cursor n counts sha checked).
Proof. split; simpl; try constructor; intros x Hx; by apply elem_of_nil in Hx. Qed.

Lemma all_records_clear_stale P t id timeout g :
  (forall r f, P r ->
     processed_feedback_ids f = processed_feedback_ids (feedback r) ->
     pending_feedback_ids f = [] -> pending_feedback_urls f = [] -> P (touch (wall t) (set_feedback f r))) ->
  all_records P g -> all_records P (snd (clear_stale_pending t id timeout g)).
Proof.
  intros Hf Hg. unfold clear_stale_pending. destruct (get id g) as [r|]; [|done].
  destruct (pending_feedback_ids (feedback r)); [done|].
  destruct (pending_feedback_since (feedback r)); [|done].
  destruct (qlt _ timeout); [done|]. simpl. apply all_records_update; [|done].
  intros r' Hr'. by apply Hf.
Qed.

Lemma feedback_wf_call t c g :
  all_records (fun r => feedback_wf (feedback r)) g ->
  all_records (fun r => feedback_wf (feedback r)) (exec_call t c g).
Proof.
  intros Hg. destruct c; open_call;
    try (apply all_records_update; [|exact Hg]; intros r Hr; simpl;
         try (repeat case_match; exact Hr); destruct Hr; by split).
  - apply all_records_register; [|apply empty_feedback_wf|done].
    intros r []. by split.
  - by apply all_records_clear_retry.
  - by apply all_records_diagnostics.
  - apply all_records_update; [|done]. intros r Hr. simpl.
    pose proof (feedback_wf_pending t (feedback r) ids urls cursor Hr) as H.
    destruct (add_pending _ _ _ _ _) as [pending urls']. exact H.
  - apply all_records_update; [|done]. intros r Hr. simpl. by apply feedback_wf_processed.
  - apply all_records_clear_stale; [|done]. intros r f [] Hp Hq Hu. simpl.
    split; rewrite ?Hp, ?Hq, ?Hu; [done|constructor|..]; intros x Hx; by apply elem_of_nil in Hx.
  - eapply all_records_same; [apply flush_records|done].
Qed.

(** ** The first-PR clock *)

Definition pr_clock (id : string) (g : Registry) : option Q :=
  match get id g with Some r => pr_created_at (sync r) | None => None end.

Lemma pr_clock_update t id f g id' x :
  (forall r, pr_created_at (sync r) = Some x -> pr_created_at (sync (f r)) = Some x) ->
  pr_clock id' g = Some x -> pr_clock id' (update t id f g) = Some x.
Proof.
  intros Hf. unfold pr_clock. rewrite update_get. destruct (decide (id = id')) as [<-|]; [|done].
  destruct (get id g) as [r|]; simpl; [|done]. apply Hf.
Qed.

Lemma pr_clock_same g g' id : records g' = records g -> pr_clock id g' = pr_clock id g.
Proof. unfold pr_clock, get. by intros ->. Qed.

Lemma pr_clock_dset g id id' r x :
  (id = id' -> pr_created_at (sync r) = Some x) ->
  pr_clock id' g = Some x -> pr_clock id' (set_records (dset id r (records g)) g) = Some x.
Proof.
  intros Hr. unfold pr_clock, get. simpl. rewrite dget_dset.
  destruct (decide (id = id')); [auto|done].
Qed.

Definition resets (id : string) (c : reg_call) : bool :=
  match c with CallResetForRetry id' _ _ => String.eqb id id' | _ => false end.

Lemma pr_clock_call t c g id x :
  resets id c = false -> pr_clock id g = Some x -> pr_clock id (exec_call t c g) = Some x.
Proof.
  intros Hres Hx. destruct c; open_call;
    try (apply pr_clock_update; [|exact Hx]; intros r Hr; simpl; repeat case_match; exact Hr).
  - unfold register. rewrite (pr_clock_same (set_records _ g)) by apply save_records.
    apply pr_clock_dset; [|done]. intros ->. unfold pr_clock in Hx.
    destruct (get id g); [exact Hx|done].
  - destruct (get id0 g) as [r|]; [|done]. destruct (next_retry_at (intents r)); [|done].
    by apply pr_clock_update.
  - apply pr_clock_update; [|done]. intros r Hr. simpl. rewrite Hr. simpl.
    rewrite andb_false_r. by destruct pr.
  - unfold update_run_diagnostics. destruct (get id0 g) as [r|] eqn:E; [|done].
    assert (H : pr_clock id (set_records (dset id0 (touch (wall t)
              (set_run (apply_diagnostics d (run_info r)) r)) (records g)) g) = Some x).
    { apply pr_clock_dset; [|done]. intros ->. unfold pr_clock in Hx. by rewrite E in Hx. }
    destruct (is_some (dg_run_id d)); rewrite <- H; apply pr_clock_same;
      [apply save_records|apply save_diagnostics_records].
  - unfold clear_stale_pending. destruct (get id0 g) as [r|]; [|done].
    destruct (pending_feedback_ids (feedback r)); [done|].
    destruct (pending_feedback_since (feedback r)); [|done].
    destruct (qlt _ timeout); [done|]. simpl. by apply pr_clock_update.
  - unfold pr_clock. rewrite update_get. simpl in Hres. apply String.eqb_neq in Hres.
    rewrite decide_False by congruence. exact Hx.
  - rewrite <- Hx. apply pr_clock_same, flush_records.
Qed.

(** ** Persistence *)

(** A record without its observational part. *)
Definition durable_part (r : IssueRecord) : IssueRecord := set_run (no_run 0) (loaded r).

Definition durable (d : dict string IssueRecord) : dict string IssueRecord :=
  map (fun kv => (fst kv, durable_part (snd kv))) d.

Definition on_disk (g : Registry) : dict string IssueRecord := default [] (disk g).

(** The file holds the durable part of memory, and all of it unless a
    diagnostics write is pending. *)
Definition persisted (g : Registry) : Prop :=
  durable (on_disk g) = durable (records g) /\
  (pending_save g = false ->
   map (fun kv => (fst kv, loaded (snd kv))) (on_disk g)
   = map (fun kv => (fst kv, loaded (snd kv))) (records g)).

Lemma persisted_save t g : io_ok t = true -> persisted (save t g).
Proof. intros H. unfold save. by rewrite H. Qed.

Lemma persisted_update t id f g : io_ok t = true -> persisted g -> persisted (update t id f g).
Proof.
  intros Ht Hg. unfold update. destruct (dget id (records g)); [by apply persisted_save|done].
Qed.

Lemma durable_dset id r r' d :
  dget id d = Some r -> durable_part r' = durable_part r -> durable (dset id r' d) = durable d.
Proof.
  intros Hr E. induction d as [|[k v] d IH]; cbn [dget dset] in *; [done|].
  destruct (decide (id = k)) as [->|]; unfold durable in *; cbn [map fst snd].
  - injection Hr as ->. by rewrite E.
  - by rewrite IH.
Qed.

Lemma persisted_call t c g : io_ok t = true -> persisted g -> persisted (exec_call t c g).
Proof.
  intros Ht Hg. destruct c; open_call; try (by apply persisted_update).
  - unfold register. by apply persisted_save.
  - destruct (get id g) as [r|]; [|done]. destruct (next_retry_at (intents r)); [|done].
    by apply persisted_update.
  - unfold update_run_diagnostics. destruct (get id g) as [r|] eqn:E; [|done].
    destruct (is_some (dg_run_id d)); [by apply persisted_save|].
    unfold save_diagnostics. destruct (qle _ _); [by apply persisted_save|].
    destruct Hg as [Hd _]. split; [|done]. unfold on_disk in *. simpl. rewrite Hd.
    symmetry. by apply durable_dset with r.
  - unfold clear_stale_pending. destruct (get id g) as [r|]; [|done].
    destruct (pending_feedback_ids (feedback r)); [done|].
    destruct (pending_feedback_since (feedback r)); [|done].
    destruct (qlt _ timeout); [done|]. by apply persisted_update.
  - unfold flush. destruct (pending_save g); [by apply persisted_save|done].
Qed.

Lemma new_registry_persisted file interval g : new_registry file interval = Ret g -> persisted g.
Proof.
  unfold new_registry, load. simpl. destruct file as [d|]; [|by intros [= <-]].
  destruct (existsb _ d); [done|]. intros [= <-]. unfold persisted, on_disk, durable. simpl.
  rewrite !map_map. done.
Qed.

(** ** Theorems *)

(** A sample history: an issue is registered, runs, gets a pull request and
    review feedback. *)
Definition tick (x : Q) : Tick := mkTick x x true.

Definition sample_args : RegisterArgs :=
  mkRegisterArgs (Some "main") (mkWorkspaceInfo "main" None None None None None None) None None.

Definition sample_history : list (Tick * reg_call) :=
  [(tick 1, CallRegister "7" "I-7" sample_args "c1");
   (tick 2, CallRunning "7");
   (tick 3, CallDiagnostics "7" (mkDiagnostics None None (Some 4) None None None None None None None
                                   None None None None None None None None None));
   (tick 4, CallSynced "7" (Some "fix-7") (Some "abc") (Some "12") None);
   (tick 5, CallFeedbackPending "7" ["a"; "b"; "a"] None [("a", "http://x")]);
   (tick 6, CallFeedbackProcessed "7" ["b"; "c"] None None);
   (tick 7, CallFeedbackFailure "7" ["a"]);
   (tick 8, CallFeedbackFailure "7" ["a"])].

Definition empty_registry : Registry := mkRegistry [] None 0 false 2.
Definition sample_registry : Registry := exec_calls sample_history empty_registry.

Lemma sample_ticks_ok : Forall (fun tc => io_ok (fst tc) = true) sample_history.
Proof. repeat constructor. Qed.

(** C30: after any history of calls whose writes succeed, a restart from the
    file finds everything but the observational fields of the runs (status, PR,
    feedback, clarification, intent and retry state are never behind), and
    after a [flush] it finds the whole memory. *)
Theorem crash_loses_only_diagnostics (file : option (dict string IssueRecord)) (interval : Q)
    (g0 : Registry) (calls : list (Tick * reg_call)) (t : Tick) :
  new_registry file interval = Ret g0 ->
  Forall (fun tc => io_ok (fst tc) = true) calls -> io_ok t = true ->
  let g := exec_calls calls g0 in
  durable (on_disk g) = durable (records g) /\
  map (fun kv => (fst kv, loaded (snd kv))) (on_disk (flush t g))
  = map (fun kv => (fst kv, loaded (snd kv))) (records g).
Proof.
  intros Hg%new_registry_persisted Hio Ht.
  assert (Hp : persisted (exec_calls calls g0)).
  { unfold exec_calls. revert g0 Hg. induction Hio as [|[t' c] calls Hc _ IH]; intros g0 Hg; [done|].
    apply IH. by apply persisted_call. }
  destruct Hp as [Hd Hf]. split; [done|]. unfold flush.
  destruct (pending_save (exec_calls calls g0)); [|by apply Hf].
  unfold save. by rewrite Ht.
Qed.

Lemma crash_loses_only_diagnostics_witness :
  durable (on_disk sample_registry) = durable (records sample_registry) /\
  map (fun kv => (fst kv, loaded (snd kv))) (on_disk (flush (tick 9) sample_registry))
  = map (fun kv => (fst kv, loaded (snd kv))) (records sample_registry).
Proof.
  apply (crash_loses_only_diagnostics None 2 empty_registry sample_history (tick 9));
    [reflexivity|exact sample_ticks_ok|reflexivity].
Defined.

(** The time of an issue's first pull request, once recorded, survives
    every history of calls (re-registrations, later syncs, failures) up to a
    deliberate retry of that issue. *)
Theorem first_pr_time_stable (g : Registry) (calls : list (Tick * reg_call)) (id : string) (x : Q) :
  pr_clock id g = Some x ->
  Forall (fun tc => resets id (snd tc) = false) calls ->
  pr_clock id (exec_calls calls g) = Some x.
Proof.
  intros Hx Hc. unfold exec_calls. revert g Hx.
  induction Hc as [|[t c] calls Hc _ IH]; intros g Hx; [done|]. apply IH. by apply pr_clock_call.
Qed.

Lemma first_pr_time_stable_witness :
  pr_clock "7" (exec_calls [(tick 9, CallRegister "7" "I-7" sample_args "c2");
                            (tick 10, CallSynced "7" None None (Some "13") None)] sample_registry)
  = Some 4%Q.
Proof.
  apply (first_pr_time_stable sample_registry); [vm_compute; reflexivity|repeat constructor].
Defined.

(** In every reachable registry, each record's pending and processed
    feedback ids are duplicate-free and disjoint, and every stored URL belongs
    to a pending id, so no review is handled twice or left with a dangling
    link. *)
Theorem feedback_lists_wf (calls : list (Tick * reg_call)) (g : Registry) (id : string) (r : IssueRecord) :
  all_records (fun r => feedback_wf (feedback r)) g ->
  get id (exec_calls calls g) = Some r -> feedback_wf (feedback r).
Proof.
  intros Hg. enough (H : all_records (fun r => feedback_wf (feedback r)) (exec_calls calls g)) by apply H.
  unfold exec_calls. revert g Hg.
  induction calls as [|[t c] calls IH]; intros g Hg; [done|]. apply IH. by apply feedback_wf_call.
Qed.

Lemma feedback_lists_wf_witness :
  exists r, get "7" sample_registry = Some r /\ pending_feedback_ids (feedback r) = ["a"] /\
            feedback_wf (feedback r).
Proof.
  eexists. split; [vm_compute; reflexivity|]. split; [reflexivity|].
  eapply (feedback_lists_wf sample_history empty_registry "7"); [|vm_compute; reflexivity].
  intros id r. unfold get. simpl. discriminate.
Defined.

(** Re-registering an issue keeps its feedback lists and follow-up counter
    but forgets how often each review has failed, so no review is abandoned
    right after a launch, however often it failed before. *)
Theorem register_forgets_failures (t : Tick) (id ident : string) (a : RegisterArgs) (conv : string)
    (g : Registry) (old : IssueRecord) (fid : string) (max_failures : Z) :
  get id g = Some old -> 0 < max_failures ->
  let g' := register t id ident a conv g in
  feedback_abandoned id fid max_failures g' = false /\
  match get id g' with
  | Some r => pending_feedback_ids (feedback r) = pending_feedback_ids (feedback old) /\
              processed_feedback_ids (feedback r) = processed_feedback_ids (feedback old) /\
              followup_attempt_count (feedback r) = followup_attempt_count (feedback old)
  | None => False
  end.
Proof.
  intros Ho Hm. unfold feedback_abandoned, get, register. rewrite Ho, save_records. simpl.
  rewrite dget_dset_eq. simpl. split; [lia|done].
Qed.

Lemma register_forgets_failures_witness :
  feedback_abandoned "7" "a" 2 sample_registry = true /\
  feedback_abandoned "7" "a" 2 (register (tick 9) "7" "I-7" sample_args "c2" sample_registry) = false.
Proof.
  split; [vm_compute; reflexivity|].
  destruct (get "7" sample_registry) as [old|] eqn:E; [|vm_compute in E; discriminate].
  exact (proj1 (register_forgets_failures (tick 9) "7" "I-7" sample_args "c2" sample_registry old
                  "a" 2 E eq_refl)).
Defined.
