(* ===== verification/IssueCache.v ===== *)
(** * The issue-state cache ([src/orchestratord/issue_registry/cache.py])

    Per-issue poll history that lets a session skip the tracker poll while the
    issue is stable.  The theorem gives the exact condition for a skip, and the
    recorder is shown to bound its history without changing that condition. *)

From S2P Require Import Prelude.

Open Scope string_scope.
Open Scope list_scope.
Open Scope Z_scope.

Record Snapshot := mkSnapshot {
  sn_active : bool;
  sn_state : option string;
  sn_turn : Z;
}.

Record IssueStateCache := mkIssueStateCache {
  stable_skip_turns : nat;
  max_history : nat;
  snapshots : dict string (list Snapshot);
}.

(** [__post_init__]: a negative knob becomes 0. *)
Definition new_cache (skip_turns : Z) : IssueStateCache :=
  mkIssueStateCache (Z.to_nat (Z.max 0 skip_turns)) 64 [].

Definition set_snapshots (d : dict string (list Snapshot)) (c : IssueStateCache) : IssueStateCache :=
  mkIssueStateCache (stable_skip_turns c) (max_history c) d.

(** [len({s.state for s in recent}) == 1] *)
Definition one_state (recent : list Snapshot) : bool :=
  match recent with
  | [] => false
  | s :: rest => forallb (fun s' => bool_decide (sn_state s' = sn_state s)) rest
  end.

Definition should_skip_poll (issue_id : string) (turn : Z) (c : IssueStateCache) : bool :=
  let n := stable_skip_turns c in
  if (n <=? 0)%nat then false
  else
    match dget issue_id (snapshots c) with
    | None => false
    | Some history =>
        if (length history <? n)%nat then false
        else
          let recent := last_n n history in
          if negb (forallb sn_active recent) then false
          else if negb (one_state recent) then false
          else
            match last recent, head recent with
            | Some lst, Some fst_ =>
                if negb (sn_turn lst =? turn - 1) then false
                else if negb (sn_turn fst_ =? sn_turn lst - Z.of_nat n + 1) then false
                else true
            | _, _ => false
            end
    end.

Definition has_recent_inactive (issue_id : string) (turn : Z) (c : IssueStateCache) : bool :=
  match last (default [] (dget issue_id (snapshots c))) with
  | Some s => negb (sn_active s) && (sn_turn s =? turn)
  | None => false
  end.

Definition record_poll (issue_id : string) (active : bool) (state : option string) (turn : Z)
    (c : IssueStateCache) : IssueStateCache :=
  let history := default [] (dget issue_id (snapshots c)) ++ [mkSnapshot active state turn] in
  let history := if (max_history c <? length history)%nat then last_n (max_history c) history
                 else history in
  set_snapshots (dset issue_id history (snapshots c)) c.

Definition invalidate (issue_id : option string) (c : IssueStateCache) : IssueStateCache :=
  match issue_id with
  | None => set_snapshots [] c
  | Some id => set_snapshots (ddel id (snapshots c)) c
  end.

Definition stats (c : IssueStateCache) : nat * nat :=
  (length (snapshots c), fold_right (fun h n => length h + n)%nat 0%nat (dvals (snapshots c))).

(** ** Facts *)

Lemma one_state_spec recent :
  recent <> [] ->
  one_state recent = true <-> exists st, forall s, s ∈ recent -> sn_state s = st.
Proof.
  destruct recent as [|s rest]; [done|]. intros _. simpl. rewrite forallb_spec. split.
  - intros H. exists (sn_state s). intros s' [->|Hs]%elem_of_cons; [done|].
    by apply (bool_decide_eq_true _), H.
  - intros [st H] s' Hs. apply bool_decide_eq_true.
    rewrite (H s'), (H s); [done|apply elem_of_cons; auto..].
Qed.

Lemma last_n_nonempty {A} n (l : list A) : (0 < n)%nat -> (n <= length l)%nat -> last_n n l <> [].
Proof.
  intros Hn Hl E. pose proof (last_n_length n l Hn) as H. rewrite E in H. simpl in H. lia.
Qed.

(** Keeping the last [m >= n] entries does not change the last [n]. *)
Lemma last_n_last_n {A} n m (l : list A) :
  (0 < n)%nat -> (n <= m)%nat -> last_n n (last_n m l) = last_n n l.
Proof.
  intros Hn Hm. unfold last_n. destruct (Nat.eqb_spec n 0), (Nat.eqb_spec m 0); try lia.
  rewrite length_drop, drop_drop. f_equal. lia.
Qed.

(** ** Theorems *)

(** A poll is skipped exactly when the knob is on and the last
    [stable_skip_turns] polls exist, are all active, agree on the state, and
    were made from turn [turn - n] to turn [turn - 1]. *)
Theorem should_skip_poll_iff (issue_id : string) (turn : Z) (c : IssueStateCache)
    (history : list Snapshot) :
  dget issue_id (snapshots c) = Some history ->
  should_skip_poll issue_id turn c = true <->
  (0 < stable_skip_turns c)%nat /\ (stable_skip_turns c <= length history)%nat /\
  (forall s, s ∈ last_n (stable_skip_turns c) history -> sn_active s = true) /\
  (exists st, forall s, s ∈ last_n (stable_skip_turns c) history -> sn_state s = st) /\
  sn_turn <$> last (last_n (stable_skip_turns c) history) = Some (turn - 1) /\
  sn_turn <$> head (last_n (stable_skip_turns c) history)
  = Some (turn - Z.of_nat (stable_skip_turns c)).
Proof.
  intros Hh. unfold should_skip_poll. rewrite Hh. set (n := stable_skip_turns c).
  destruct (Nat.leb_spec n 0); [split; [done|lia]|].
  destruct (Nat.ltb_spec (length history) n); [split; [done|lia]|].
  pose proof (last_n_nonempty n history ltac:(lia) ltac:(lia)) as Hne.
  rewrite <- (forallb_spec sn_active), <- (one_state_spec _ Hne).
  destruct (forallb sn_active (last_n n history)); simpl; [|split; [done|intuition congruence]].
  destruct (one_state (last_n n history)); simpl; [|split; [done|intuition congruence]].
  destruct (last (last_n n history)) as [lst|] eqn:El;
    [|split; [done|]; intros (_ & _ & _ & _ & [=] & _)].
  destruct (head (last_n n history)) as [fs|] eqn:Ef;
    [|split; [done|]; intros (_ & _ & _ & _ & _ & [=])].
  simpl. destruct (Z.eqb_spec (sn_turn lst) (turn - 1)) as [E1|E1]; simpl;
    [|split; [done|]; intros (_ & _ & _ & _ & [= ?] & _); lia].
  destruct (Z.eqb_spec (sn_turn fs) (sn_turn lst - Z.of_nat n + 1)) as [E2|E2]; simpl.
  - split; [|done]. intros _. repeat split; try lia; f_equal; lia.
  - split; [done|]. intros (_ & _ & _ & _ & _ & [= ?]). lia.
Qed.

Definition polled_cache : IssueStateCache :=
  record_poll "7" true (Some "open") 3
    (record_poll "7" true (Some "open") 2 (record_poll "7" true (Some "open") 1 (new_cache 3))).

Lemma should_skip_poll_iff_witness : should_skip_poll "7" 4 polled_cache = true.
Proof.
  eapply (should_skip_poll_iff "7" 4 polled_cache); [vm_compute; reflexivity|].
  split; [vm_compute; lia|]. split; [vm_compute; lia|].
  assert (E : last_n (stable_skip_turns polled_cache)
                [mkSnapshot true (Some "open") 1; mkSnapshot true (Some "open") 2;
                 mkSnapshot true (Some "open") 3]
              = [mkSnapshot true (Some "open") 1; mkSnapshot true (Some "open") 2;
                 mkSnapshot true (Some "open") 3]) by reflexivity.
  rewrite E. split; [|split; [exists (Some "open")|split; reflexivity]];
    intros s Hs; repeat (apply elem_of_cons in Hs as [-> |Hs]; [reflexivity|]);
    by apply elem_of_nil in Hs.
Defined.

(** Trimming the history never changes a skip decision: recording into the
    bounded history decides every later poll as recording into the full one
    would, as long as the bound is at least the window. *)
Theorem trimming_is_invisible (issue_id : string) (active : bool) (state : option string)
    (turn turn' : Z) (c : IssueStateCache) (history : list Snapshot) :
  (stable_skip_turns c <= max_history c)%nat ->
  dget issue_id (snapshots c) = Some history ->
  should_skip_poll issue_id turn' (record_poll issue_id active state turn c)
  = should_skip_poll issue_id turn'
      (set_snapshots (dset issue_id (history ++ [mkSnapshot active state turn]) (snapshots c)) c).
Proof.
  intros Hmax Hh. unfold record_poll. rewrite Hh. simpl default.
  set (full := history ++ [mkSnapshot active state turn]).
  unfold should_skip_poll. simpl. rewrite !dget_dset_eq.
  destruct (Nat.leb_spec (stable_skip_turns c) 0); [done|].
  destruct (Nat.ltb_spec (max_history c) (length full)) as [Hlt|]; [|done].
  rewrite last_n_last_n, last_n_length by lia.
  replace (Nat.min (max_history c) (length full)) with (max_history c) by lia.
  destruct (Nat.ltb_spec (max_history c) (stable_skip_turns c)); [lia|].
  by destruct (Nat.ltb_spec (length full) (stable_skip_turns c)); [lia|].
Qed.

Lemma trimming_is_invisible_witness :
  should_skip_poll "7" 5 (record_poll "7" true (Some "open") 4 polled_cache) = true.
Proof.
  rewrite (trimming_is_invisible "7" true (Some "open") 4 5 polled_cache
             [mkSnapshot true (Some "open") 1; mkSnapshot true (Some "open") 2;
              mkSnapshot true (Some "open") 3]);
    [vm_compute; reflexivity|vm_compute; lia|vm_compute; reflexivity].
Defined.
