(* ===== verification/Kernel.v ===== *)
(** * The orchestration kernel ([src/orchestratord/kernel/])

    [OrchestrationKernel] without a runtime adapter: one dispatch cycle
    collects spawned, retried and polled work, orders it by priority and
    launches what the concurrency limit admits; each launched item runs as its
    own asyncio task and ends by applying an outcome.  The cycle and the tasks
    interleave at every [await], so the kernel is a transition system: [step]
    executes one stretch of code between two awaits, and a run is any sequence
    of labels.  The work provider, the application and the runner appear as
    the data of the labels.  Also here: the retry policy of [dispatch.py].

    The fields [state], [tasks]/[run_tasks] (handles used only to cancel) and
    the semaphore, whose permits the running map already bounds, are left out;
    [max_concurrent_agents] is a constant of a run. *)

From Stdlib Require Import Sorted.
From S2P Require Import Prelude Errors.

Open Scope string_scope.
Open Scope list_scope.
Open Scope Z_scope.

(** ** Retry policy ([dispatch.py], [RetryItem] of [session_state.py]) *)

(** [worker_host] and [workspace_path], which nothing here reads, are left out. *)
Record RetryItem := mkRetryItem {
  rt_dedup_key : string;
  rt_attempt : Z;
  rt_delay_seconds : Q;
  rt_identifier : string;
  rt_error : text;
  rt_scheduled_at : Q;
  rt_requeue_count : Z;
}.

Definition NON_RETRYABLE_END_REASONS : list string :=
  ["operator_stop"; "operator_takeover"; "operator_stopped"].

Definition FAILURE_RETRY_BASE_MS : Z := 10000.

(** A shift by a negative amount is Python's [ValueError]. *)
Definition compute_retry_delay (attempt base_ms max_ms : Z) : outcome exn Z :=
  if attempt <? 1 then Raise (mkExn OtherException [Lit "negative shift count"] None)
  else Ret (Z.min (base_ms * Z.shiftl 1 (attempt - 1)) max_ms).

Definition due_at (r : RetryItem) : Q := (rt_scheduled_at r + rt_delay_seconds r)%Q.

(** [now >= retry.scheduled_at + retry.delay_seconds] *)
Definition is_due (now : Q) (r : RetryItem) : bool := qle (due_at r) now.

Fixpoint split_ready_retries (retry_queue : list RetryItem) (now : Q)
    : list RetryItem * list RetryItem :=
  match retry_queue with
  | [] => ([], [])
  | r :: q =>
      let (ready, not_ready) := split_ready_retries q now in
      if is_due now r then (r :: ready, not_ready) else (ready, r :: not_ready)
  end.

(** The item is counted even when it is refused. *)
Definition requeue_retry_item (retry : RetryItem) (now : Q) (requeue_limit : Z) (max_backoff_ms : Q)
    : bool * RetryItem :=
  let n := rt_requeue_count retry + 1 in
  if requeue_limit <? n then
    (false, mkRetryItem (rt_dedup_key retry) (rt_attempt retry) (rt_delay_seconds retry)
              (rt_identifier retry) (rt_error retry) (rt_scheduled_at retry) n)
  else
    (true, mkRetryItem (rt_dedup_key retry) (rt_attempt retry)
             (qmin (rt_delay_seconds retry * 2) (max_backoff_ms / 1000))%Q
             (rt_identifier retry) (rt_error retry) now n).

(** ** Work items and outcomes ([work_provider.py], [application.py]) *)

(** [wi_attempt] is [task.attempt], absent when the item has no task. *)
Record WorkItem := mkWorkItem {
  wi_dedup_key : string;
  wi_priority : Z;
  wi_attempt : option Z;
  wi_business : list (string * pyval);
}.

Record Outcome := mkOutcome {
  o_kind : string;
  o_reason : string;
  o_retry_delay : option Q;
  o_spawn_item : option WorkItem;
}.

Definition dispose (reason : string) : Outcome := mkOutcome "dispose" reason None None.
Definition retry (delay : option Q) (reason : string) : Outcome := mkOutcome "retry" reason delay None.
Definition spawn (item : WorkItem) (reason : string) : Outcome :=
  mkOutcome "spawn" reason None (Some item).
Definition wait_external (reason : string) : Outcome := mkOutcome "wait_external" reason None None.

(** ** The kernel's state *)

(** Where a dispatch cycle is suspended: not running, awaiting the provider's
    [poll] with the items taken so far, or walking the sorted candidates. *)
Inductive phase :=
| Idle
| Polling (taken : list WorkItem)
| Walking (todo : list WorkItem).

(** Where an [_execute] task is suspended: before [prepare_run] returned,
    inside the run, or after its outcome was applied. *)
Inductive tstate := TPreparing | TRunning | TApplied.

Inductive kevent :=
| Launched (key : string)
| Rejected (key reason : string)
| Disposed (key : string).

Record Kernel := mkKernel {
  k_running : dict string WorkItem;
  k_completed : list string;
  k_retry_queue : list RetryItem;
  k_retry_items : dict string WorkItem;
  k_spawn_queue : list WorkItem;
  k_phase : phase;
  k_tasks : list (WorkItem * tstate);
  k_log : list kevent;
}.

Definition new_kernel : Kernel := mkKernel [] [] [] [] [] Idle [] [].

(** ** One dispatch cycle *)

(** The retry loop of [_dispatch_generic_once]: the items of due retries, the
    queue that stays, and the items that stay. *)
Fixpoint collect_ready (now : Q) (queue : list RetryItem) (items : dict string WorkItem)
    : list WorkItem * list RetryItem * dict string WorkItem :=
  match queue with
  | [] => ([], [], items)
  | r :: q =>
      if is_due now r then
        let '(ready, not_ready, items') := collect_ready now q (ddel (rt_dedup_key r) items) in
        match dget (rt_dedup_key r) items with
        | Some item => (item :: ready, not_ready, items')
        | None => (ready, not_ready, items')
        end
      else
        let '(ready, not_ready, items') := collect_ready now q items in
        (ready, r :: not_ready, items')
  end.

(** [sorted(items, key=lambda c: -c.priority)]: a stable sort. *)
Fixpoint insert_item (x : WorkItem) (l : list WorkItem) : list WorkItem :=
  match l with
  | [] => [x]
  | y :: l' => if wi_priority x <? wi_priority y then y :: insert_item x l' else x :: y :: l'
  end.

Fixpoint sort_items (l : list WorkItem) : list WorkItem :=
  match l with
  | [] => []
  | x :: l' => insert_item x (sort_items l')
  end.

(** Up to the [await] of [poll]. *)
Definition begin_cycle (now : Q) (k : Kernel) : Kernel :=
  let '(ready, not_ready, items) := collect_ready now (k_retry_queue k) (k_retry_items k) in
  mkKernel (k_running k) (k_completed k) not_ready items (k_spawn_queue k)
    (Polling (k_spawn_queue k ++ ready)) (k_tasks k) (k_log k).

(** [poll] has returned: the spawn queue is cleared as it is now. *)
Definition polled (taken items : list WorkItem) (k : Kernel) : Kernel :=
  mkKernel (k_running k) (k_completed k) (k_retry_queue k) (k_retry_items k) []
    (Walking (sort_items (taken ++ items))) (k_tasks k) (k_log k).

Definition set_phase (p : phase) (ev : kevent) (k : Kernel) : Kernel :=
  mkKernel (k_running k) (k_completed k) (k_retry_queue k) (k_retry_items k) (k_spawn_queue k) p
    (k_tasks k) (ev :: k_log k).

Definition launch (item : WorkItem) (k : Kernel) : Kernel :=
  mkKernel (dset (wi_dedup_key item) item (k_running k)) (k_completed k) (k_retry_queue k)
    (k_retry_items k) (k_spawn_queue k) (k_phase k) (k_tasks k ++ [(item, TPreparing)]) (k_log k).

(** One candidate of the cycle: rejected as duplicate, rejected for want of a
    slot, or launched. *)
Definition walk (max : Z) (item : WorkItem) (todo : list WorkItem) (k : Kernel) : Kernel :=
  let key := wi_dedup_key item in
  if String.eqb key "" || dmem key (k_running k) || mem key (k_completed k)
  then set_phase (Walking todo) (Rejected key "duplicate or terminal") k
  else if max <=? Z.of_nat (length (k_running k))
  then set_phase (Walking todo) (Rejected key "concurrency limit") k
  else set_phase (Walking todo) (Launched key) (launch item k).

(** ** Running an item *)

Definition apply_outcome (now : Q) (item : WorkItem) (o : Outcome) (k : Kernel) : Kernel :=
  let key := wi_dedup_key item in
  let kind := o_kind o in
  if String.eqb kind "dispose" then
    mkKernel (k_running k) (if mem key (k_completed k) then k_completed k else key :: k_completed k)
      (k_retry_queue k) (k_retry_items k) (k_spawn_queue k) (k_phase k) (k_tasks k)
      (Disposed key :: k_log k)
  else if String.eqb kind "retry" then
    mkKernel (k_running k) (k_completed k)
      (k_retry_queue k ++
         [mkRetryItem key (default 1 (wi_attempt item)) (qmax 0 (default 0%Q (o_retry_delay o))) "" []
            now 0])
      (dset key item (k_retry_items k)) (k_spawn_queue k) (k_phase k) (k_tasks k) (k_log k)
  else if String.eqb kind "spawn" then
    match o_spawn_item o with
    | Some child =>
        mkKernel (k_running k) (k_completed k) (k_retry_queue k) (k_retry_items k)
          (k_spawn_queue k ++ [child]) (k_phase k) (k_tasks k) (k_log k)
    | None => k
    end
  else k.

(** [self._generic_running.pop(item.dedup_key, None)] *)
Definition pop_running (item : WorkItem) (k : Kernel) : Kernel :=
  mkKernel (ddel (wi_dedup_key item) (k_running k)) (k_completed k) (k_retry_queue k)
    (k_retry_items k) (k_spawn_queue k) (k_phase k) (k_tasks k) (k_log k).

Definition set_tasks (l : list (WorkItem * tstate)) (k : Kernel) : Kernel :=
  mkKernel (k_running k) (k_completed k) (k_retry_queue k) (k_retry_items k) (k_spawn_queue k)
    (k_phase k) l (k_log k).

Definition end_task (i : nat) (k : Kernel) : Kernel := set_tasks (delete i (k_tasks k)) k.

(** What resumes next, with what it was awaiting. *)
Inductive label :=
| LBegin (now : Q)                      (* [dispatch_once] is called *)
| LPolled (items : list WorkItem)       (* [poll] returns *)
| LItem                                 (* the next candidate *)
| LCycleEnd                             (* no candidate left *)
| LUnexecutable (i : nat) (now : Q)     (* the item has no task *)
| LGated (i : nat) (now : Q)            (* [prepare_run] returns [None] *)
| LPrepareRaises (i : nat)              (* [prepare_run] or the start notice raises *)
| LPrepared (i : nat)                   (* the runner starts *)
| LOutcome (i : nat) (now : Q) (o : Outcome)  (* the result is interpreted *)
| LRunRaises (i : nat)                  (* the run raises or is cancelled *)
| LFinished (i : nat).                  (* the finish notice is out *)

(** [_execute] of an item that never reaches the runner: the outcome is
    applied and the key leaves the running map, with no await in between. *)
Definition settle (i : nat) (now : Q) (item : WorkItem) (o : Outcome) (k : Kernel) : Kernel :=
  end_task i (pop_running item (apply_outcome now item o k)).

(** [item.task is not None]; the application and the runner are configured. *)
Definition has_task (item : WorkItem) : bool := is_some (wi_attempt item).

Definition step (max : Z) (l : label) (k : Kernel) : option Kernel :=
  match l with
  | LBegin now =>
      match k_phase k with Idle => Some (begin_cycle now k) | _ => None end
  | LPolled items =>
      match k_phase k with Polling taken => Some (polled taken items k) | _ => None end
  | LItem =>
      match k_phase k with Walking (x :: todo) => Some (walk max x todo k) | _ => None end
  | LCycleEnd =>
      match k_phase k with
      | Walking [] => Some (mkKernel (k_running k) (k_completed k) (k_retry_queue k)
                              (k_retry_items k) (k_spawn_queue k) Idle (k_tasks k) (k_log k))
      | _ => None
      end
  | LUnexecutable i now =>
      match k_tasks k !! i with
      | Some (item, TPreparing) =>
          if has_task item then None
          else Some (settle i now item (dispose "unexecutable_work_item") k)
      | _ => None
      end
  | LGated i now =>
      match k_tasks k !! i with
      | Some (item, TPreparing) =>
          if has_task item then Some (settle i now item (wait_external "application_gated") k)
          else None
      | _ => None
      end
  | LPrepareRaises i =>
      match k_tasks k !! i with
      | Some (item, TPreparing) => if has_task item then Some (end_task i k) else None
      | _ => None
      end
  | LPrepared i =>
      match k_tasks k !! i with
      | Some (item, TPreparing) =>
          if has_task item then Some (set_tasks (<[i := (item, TRunning)]> (k_tasks k)) k)
          else None
      | _ => None
      end
  | LOutcome i now o =>
      match k_tasks k !! i with
      | Some (item, TRunning) =>
          Some (set_tasks (<[i := (item, TApplied)]> (k_tasks k)) (apply_outcome now item o k))
      | _ => None
      end
  | LRunRaises i =>
      match k_tasks k !! i with
      | Some (item, TRunning) => Some (end_task i (pop_running item k))
      | _ => None
      end
  | LFinished i =>
      match k_tasks k !! i with
      | Some (item, TApplied) => Some (end_task i (pop_running item k))
      | _ => None
      end
  end.

Fixpoint steps (max : Z) (ls : list label) (k : Kernel) : option Kernel :=
  match ls with
  | [] => Some k
  | l :: ls' => match step max l k with Some k' => steps max ls' k' | None => None end
  end.

Inductive reachable (max : Z) : Kernel -> Prop :=
| reach_new : reachable max new_kernel
| reach_step l k k' : reachable max k -> step max l k = Some k' -> reachable max k'.


(** ** The retry policy *)

Lemma split_ready_retries_filter q now :
  split_ready_retries q now =
  (List.filter (is_due now) q, List.filter (fun r => negb (is_due now r)) q).
Proof.
  induction q as [|r q IH]; simpl; [done|]. rewrite IH. by destruct (is_due now r).
Qed.

(** ** The transition system *)

Definition task_key (t : WorkItem * tstate) : string := wi_dedup_key (fst t).
Definition live_keys (k : Kernel) : list string := task_key <$> k_tasks k.

(** What holds between any two awaits: the running map is a map within the
    limit; live tasks have distinct keys, all in the running map; every parked
    retry item has an entry in the retry queue. *)
Record kernel_inv (max : Z) (k : Kernel) : Prop := mkKernelInv {
  inv_wf : dict_wf (k_running k);
  inv_cap : Z.of_nat (length (k_running k)) <= Z.max 0 max;
  inv_live : NoDup (live_keys k);
  inv_running : forall x, x ∈ live_keys k -> x ∈ dkeys (k_running k);
  inv_retry : forall x, x ∈ dkeys (k_retry_items k) -> exists r, r ∈ k_retry_queue k /\ rt_dedup_key r = x;
}.

Lemma dkeys_ddel_in {V} (x y : string) (d : dict string V) :
  x ∈ dkeys (ddel y d) <-> x <> y /\ x ∈ dkeys d.
Proof. rewrite dkeys_ddel, list_elem_of_filter. set_solver. Qed.

(** *** Collecting due retries *)

Lemma collect_ready_queue now q items :
  snd (fst (collect_ready now q items)) = List.filter (fun r => negb (is_due now r)) q.
Proof.
  revert items. induction q as [|r q IH]; intros items; simpl; [done|].
  destruct (is_due now r); simpl.
  - specialize (IH (ddel (rt_dedup_key r) items)).
    destruct (collect_ready now q _) as [[a b] c], (dget _ items); simpl in *; exact IH.
  - specialize (IH items). destruct (collect_ready now q items) as [[a b] c]; simpl in *. by rewrite IH.
Qed.

(** A key with a due entry. *)
Definition due_key (now : Q) (q : list RetryItem) (x : string) : bool :=
  existsb (fun r => is_due now r && String.eqb (rt_dedup_key r) x) q.

Lemma collect_ready_kept now q items x :
  dget x (snd (collect_ready now q items)) = if due_key now q x then None else dget x items.
Proof.
  revert items. induction q as [|r q IH]; intros items; simpl; [done|].
  destruct (is_due now r) eqn:Ed; simpl.
  - specialize (IH (ddel (rt_dedup_key r) items)).
    destruct (collect_ready now q _) as [[a b] c], (dget (rt_dedup_key r) items); simpl in *;
      rewrite IH; destruct (String.eqb_spec (rt_dedup_key r) x) as [->|Hne]; simpl;
      try (rewrite dget_ddel_eq; by destruct (due_key now q x)); by rewrite dget_ddel_ne.
  - specialize (IH items). destruct (collect_ready now q items) as [[a b] c]; simpl in *. exact IH.
Qed.

Lemma collect_ready_due now q items x item :
  dget x items = Some item -> due_key now q x = true ->
  item ∈ fst (fst (collect_ready now q items)).
Proof.
  revert items. induction q as [|r q IH]; intros items Hget; simpl; [done|].
  destruct (is_due now r) eqn:Ed; simpl.
  - destruct (String.eqb_spec (rt_dedup_key r) x) as [->|Hne]; simpl; intros Hdue.
    + rewrite Hget. destruct (collect_ready now q _) as [[a b] c]; simpl. set_solver.
    + assert (Hget' : dget x (ddel (rt_dedup_key r) items) = Some item)
        by (by rewrite dget_ddel_ne).
      specialize (IH _ Hget' Hdue).
      destruct (collect_ready now q _) as [[a b] c], (dget (rt_dedup_key r) items); simpl in *;
        set_solver.
  - intros Hdue. specialize (IH _ Hget Hdue).
    destruct (collect_ready now q items) as [[a b] c]; simpl in *. exact IH.
Qed.

(** *** Tasks *)

Lemma live_keys_delete k i item st :
  k_tasks k !! i = Some (item, st) ->
  live_keys k ≡ₚ wi_dedup_key item :: live_keys (end_task i k).
Proof.
  intros Hi. unfold live_keys, end_task; simpl.
  by rewrite (delete_Permutation _ _ _ Hi) at 1.
Qed.

Lemma live_keys_insert k i item st st' :
  k_tasks k !! i = Some (item, st) ->
  task_key <$> <[i := (item, st')]> (k_tasks k) = live_keys k.
Proof.
  intros Hi. unfold live_keys. rewrite list_fmap_insert.
  apply list_insert_id. by rewrite list_lookup_fmap, Hi.
Qed.

(** Applying an outcome touches neither the running map nor the tasks. *)
Lemma apply_outcome_running now item o k :
  k_running (apply_outcome now item o k) = k_running k /\
  k_tasks (apply_outcome now item o k) = k_tasks k /\
  k_phase (apply_outcome now item o k) = k_phase k.
Proof. unfold apply_outcome. repeat case_match; done. Qed.

Lemma apply_outcome_retry now item o k max :
  kernel_inv max k -> forall x, x ∈ dkeys (k_retry_items (apply_outcome now item o k)) ->
  exists r, r ∈ k_retry_queue (apply_outcome now item o k) /\ rt_dedup_key r = x.
Proof.
  intros [_ _ _ _ Hr] x. unfold apply_outcome.
  destruct (String.eqb (o_kind o) "dispose"); [apply Hr|].
  destruct (String.eqb (o_kind o) "retry"); [|repeat case_match; apply Hr].
  simpl. rewrite dkeys_dset_in. intros [->|(r & ? & ?)%Hr].
  - eexists. split; [apply elem_of_app; right; by apply list_elem_of_singleton|done].
  - exists r. set_solver.
Qed.

Lemma apply_outcome_inv max now item o k :
  kernel_inv max k -> kernel_inv max (apply_outcome now item o k).
Proof.
  intros Hk. pose proof (apply_outcome_retry now item o k max Hk) as Hr.
  destruct (apply_outcome_running now item o k) as (E1 & E2 & _), Hk.
  split; unfold live_keys in *; rewrite ?E1, ?E2; done.
Qed.

(** A task that gives its slot back. *)
Lemma finish_task_inv max i item st k :
  kernel_inv max k -> k_tasks k !! i = Some (item, st) ->
  kernel_inv max (end_task i (pop_running item k)).
Proof.
  intros [Hwf Hcap Hnd Hrun Hr] Hi. pose proof (live_keys_delete _ _ _ _ Hi) as Hp.
  rewrite Hp in Hnd. apply NoDup_cons in Hnd as [Hni Hnd].
  split; simpl; [by apply ddel_wf| |exact Hnd| |exact Hr].
  - pose proof (ddel_length (wi_dedup_key item) (k_running k)). lia.
  - intros x Hx. apply dkeys_ddel_in. split; [by intros ->|]. apply Hrun. rewrite Hp. by right.
Qed.

Lemma end_task_inv max i item st k :
  kernel_inv max k -> k_tasks k !! i = Some (item, st) -> kernel_inv max (end_task i k).
Proof.
  intros [Hwf Hcap Hnd Hrun Hr] Hi. pose proof (live_keys_delete _ _ _ _ Hi) as Hp.
  rewrite Hp in Hnd. apply NoDup_cons in Hnd as [Hni Hnd].
  split; [exact Hwf|exact Hcap|exact Hnd| |exact Hr].
  intros x Hx. apply Hrun. rewrite Hp. by right.
Qed.

Lemma advance_task_inv max i item st st' k :
  kernel_inv max k -> k_tasks k !! i = Some (item, st) ->
  kernel_inv max (set_tasks (<[i := (item, st')]> (k_tasks k)) k).
Proof.
  intros [Hwf Hcap Hnd Hrun Hr] Hi.
  split; unfold live_keys; simpl; rewrite ?(live_keys_insert _ _ _ _ _ Hi); done.
Qed.

Lemma launch_inv max item todo k :
  kernel_inv max k -> dmem (wi_dedup_key item) (k_running k) = false ->
  Z.of_nat (length (k_running k)) < max ->
  kernel_inv max (set_phase (Walking todo) (Launched (wi_dedup_key item)) (launch item k)).
Proof.
  intros [Hwf Hcap Hnd Hrun Hr] Hm Hlt.
  assert (Hni : wi_dedup_key item ∉ dkeys (k_running k)).
  { intros H. apply dmem_keys in H. congruence. }
  split; simpl; [by apply dset_wf| | | |exact Hr].
  - pose proof (dset_length_le (wi_dedup_key item) item (k_running k)). lia.
  - unfold live_keys; simpl. rewrite fmap_app. apply NoDup_app. split; [done|]. split.
    + intros x Hx ->%list_elem_of_singleton. by apply Hni, Hrun.
    + apply NoDup_singleton.
  - unfold live_keys; simpl. intros x. rewrite fmap_app, elem_of_app, dkeys_dset_in.
    intros [Hx|Hx%list_elem_of_singleton]; [right; by apply Hrun|by left].
Qed.

Lemma begin_cycle_inv max now k : kernel_inv max k -> kernel_inv max (begin_cycle now k).
Proof.
  intros [Hwf Hcap Hnd Hrun Hr]. unfold begin_cycle.
  pose proof (collect_ready_queue now (k_retry_queue k) (k_retry_items k)) as Hq.
  pose proof (collect_ready_kept now (k_retry_queue k) (k_retry_items k)) as Hi.
  destruct (collect_ready _ _ _) as [[ready nr] items]; simpl in *. subst nr.
  split; simpl; try done. intros x Hx. specialize (Hi x).
  apply dget_Some_keys in Hx as [v Hv]. rewrite Hv in Hi.
  destruct (due_key now (k_retry_queue k) x) eqn:Ed; [done|].
  destruct (Hr x) as (r & Hin & <-); [apply dget_Some_keys; rewrite <- Hi; eauto|].
  exists r. split; [|done]. apply list_elem_of_In, filter_In. split; [by apply list_elem_of_In|].
  destruct (is_due now r) eqn:E; [|done].
  exfalso. rewrite <- not_true_iff_false in Ed. apply Ed, existsb_exists.
  exists r. split; [by apply list_elem_of_In|]. by rewrite E, String.eqb_refl.
Qed.

Lemma step_inv max l k k' : kernel_inv max k -> step max l k = Some k' -> kernel_inv max k'.
Proof.
  intros Hk. destruct l; simpl.
  - destruct (k_phase k); [|done..]. intros [= <-]. by apply begin_cycle_inv.
  - destruct (k_phase k); [done| |done]. intros [= <-]. by destruct Hk.
  - destruct (k_phase k) as [| |[|x todo]]; try done. intros [= <-]. unfold walk.
    destruct (String.eqb (wi_dedup_key x) "") eqn:?; simpl; [by destruct Hk|].
    destruct (dmem (wi_dedup_key x) (k_running k)) eqn:Hm; simpl; [by destruct Hk|].
    destruct (mem _ (k_completed k)); simpl; [by destruct Hk|].
    destruct (Z.leb_spec max (Z.of_nat (length (k_running k)))); [by destruct Hk|].
    by apply launch_inv.
  - destruct (k_phase k) as [| |[|]]; try done. intros [= <-]. by destruct Hk.
  - destruct (k_tasks k !! i) as [[item []]|] eqn:Hi; try done.
    destruct (has_task item); [done|]. intros [= <-].
    eapply finish_task_inv; [by apply apply_outcome_inv|].
    by rewrite (proj1 (proj2 (apply_outcome_running _ _ _ _))).
  - destruct (k_tasks k !! i) as [[item []]|] eqn:Hi; try done.
    destruct (has_task item); [|done]. intros [= <-].
    eapply finish_task_inv; [by apply apply_outcome_inv|].
    by rewrite (proj1 (proj2 (apply_outcome_running _ _ _ _))).
  - destruct (k_tasks k !! i) as [[item []]|] eqn:Hi; try done.
    destruct (has_task item); [|done]. intros [= <-]. by eapply end_task_inv.
  - destruct (k_tasks k !! i) as [[item []]|] eqn:Hi; try done.
    destruct (has_task item); [|done]. intros [= <-]. by eapply advance_task_inv.
  - destruct (k_tasks k !! i) as [[item []]|] eqn:Hi; try done. intros [= <-].
    pose proof (apply_outcome_running now item o k) as (_ & E & _).
    rewrite <- E. eapply advance_task_inv; [by apply apply_outcome_inv|]. by rewrite E.
  - destruct (k_tasks k !! i) as [[item []]|] eqn:Hi; try done. intros [= <-].
    by eapply finish_task_inv.
  - destruct (k_tasks k !! i) as [[item []]|] eqn:Hi; try done. intros [= <-].
    by eapply finish_task_inv.
Qed.

Lemma reachable_inv max k : reachable max k -> kernel_inv max k.
Proof.
  induction 1 as [|l k k' _ IH Hs]; [|by eapply step_inv].
  split; simpl; try done; try lia; try set_solver; apply NoDup_nil_2.
Qed.

(** *** Keys that can never be released *)

(** In the running map with no task left to release it. *)
Definition stuck (x : string) (k : Kernel) : Prop :=
  x ∈ dkeys (k_running k) /\ x ∉ live_keys k.

Lemma stuck_pop x i item st k :
  stuck x k -> k_tasks k !! i = Some (item, st) -> stuck x (end_task i (pop_running item k)).
Proof.
  intros [Hr Hl] Hi. pose proof (live_keys_delete _ _ _ _ Hi) as Hp.
  rewrite Hp in Hl. apply not_elem_of_cons in Hl as [Hne Hl].
  split; [|exact Hl]. simpl. by apply dkeys_ddel_in.
Qed.

Lemma stuck_outcome x now item o k : stuck x k -> stuck x (apply_outcome now item o k).
Proof.
  intros [Hr Hl]. destruct (apply_outcome_running now item o k) as (E1 & E2 & _).
  split; unfold live_keys; by rewrite ?E1, ?E2.
Qed.

Lemma stuck_walk max x item todo k : stuck x k -> stuck x (walk max item todo k).
Proof.
  intros [Hr Hl]. unfold walk.
  destruct (_ || _) eqn:Eg; [done|]. destruct (max <=? _); [done|].
  apply orb_false_iff in Eg as [[_ Em]%orb_false_iff _].
  assert (Hne : x <> wi_dedup_key item).
  { intros ->. apply dmem_keys in Hr. congruence. }
  split; simpl; [apply dkeys_dset_in; by right|].
  unfold live_keys; simpl. rewrite fmap_app, not_elem_of_app. set_solver.
Qed.

Lemma stuck_step max x l k k' : stuck x k -> step max l k = Some k' -> stuck x k'.
Proof.
  intros Hs. destruct l; simpl.
  - destruct (k_phase k); [|done..]. intros [= <-]. unfold begin_cycle.
    by destruct (collect_ready _ _ _) as [[? ?] ?].
  - destruct (k_phase k); try done. by intros [= <-].
  - destruct (k_phase k) as [| |[|y todo]]; try done. intros [= <-]. by apply stuck_walk.
  - destruct (k_phase k) as [| |[|]]; try done. by intros [= <-].
  - destruct (k_tasks k !! i) as [[item []]|] eqn:Hi; try done.
    destruct (has_task item); [done|]. intros [= <-].
    eapply stuck_pop; [by apply stuck_outcome|].
    by rewrite (proj1 (proj2 (apply_outcome_running _ _ _ _))).
  - destruct (k_tasks k !! i) as [[item []]|] eqn:Hi; try done.
    destruct (has_task item); [|done]. intros [= <-].
    eapply stuck_pop; [by apply stuck_outcome|].
    by rewrite (proj1 (proj2 (apply_outcome_running _ _ _ _))).
  - destruct (k_tasks k !! i) as [[item []]|] eqn:Hi; try done.
    destruct (has_task item); [|done]. intros [= <-]. destruct Hs as [Hr Hl].
    split; [done|]. rewrite (live_keys_delete _ _ _ _ Hi) in Hl. set_solver.
  - destruct (k_tasks k !! i) as [[item []]|] eqn:Hi; try done.
    destruct (has_task item); [|done]. intros [= <-]. destruct Hs as [Hr Hl].
    split; [done|]. unfold live_keys; simpl. by rewrite (live_keys_insert _ _ _ _ _ Hi).
  - destruct (k_tasks k !! i) as [[item []]|] eqn:Hi; try done. intros [= <-].
    destruct (stuck_outcome x now item o k Hs) as [Hr Hl].
    split; [done|]. unfold live_keys; simpl. rewrite (live_keys_insert _ _ _ _ _ Hi). apply Hs.
  - destruct (k_tasks k !! i) as [[item []]|] eqn:Hi; try done. intros [= <-].
    by eapply stuck_pop.
  - destruct (k_tasks k !! i) as [[item []]|] eqn:Hi; try done. intros [= <-].
    by eapply stuck_pop.
Qed.

Lemma stuck_steps max x ls k k' : stuck x k -> steps max ls k = Some k' -> stuck x k'.
Proof.
  revert k. induction ls as [|l ls IH]; intros k Hs; simpl; [by intros [= <-]|].
  destruct (step max l k) as [k1|] eqn:E; [|done]. apply IH. by eapply stuck_step.
Qed.

(** *** The event log *)

(** Newest event first: a key is never launched after it was disposed of. *)
Fixpoint launches_ok (log : list kevent) : Prop :=
  match log with
  | [] => True
  | Launched x :: log' => Disposed x ∉ log' /\ launches_ok log'
  | _ :: log' => launches_ok log'
  end.

Definition log_ok (k : Kernel) : Prop :=
  launches_ok (k_log k) /\ forall x, Disposed x ∈ k_log k -> x ∈ k_completed k.

Lemma log_ok_outcome now item o k : log_ok k -> log_ok (apply_outcome now item o k).
Proof.
  intros [Hl Hd]. unfold apply_outcome.
  destruct (String.eqb (o_kind o) "dispose"); [|repeat case_match; done].
  split; [exact Hl|]. simpl. intros x [[= ->]|Hx]%elem_of_cons;
    destruct (mem (wi_dedup_key item) (k_completed k)) eqn:Em.
  - by apply mem_true in Em.
  - set_solver.
  - by apply Hd.
  - right. by apply Hd.
Qed.

Lemma log_ok_walk max item todo k : log_ok k -> log_ok (walk max item todo k).
Proof.
  intros [Hl Hd]. unfold walk. destruct (_ || _) eqn:Eg; [split; simpl; [done|set_solver]|].
  destruct (max <=? _); split; simpl; try done; try set_solver.
  apply orb_false_iff in Eg as [_ Em]. split; [|done]. intros Hx%Hd.
  apply mem_false in Em. done.
Qed.

Lemma log_ok_step max l k k' : log_ok k -> step max l k = Some k' -> log_ok k'.
Proof.
  intros Hk. destruct l; simpl.
  - destruct (k_phase k); [|done..]. intros [= <-]. unfold begin_cycle.
    by destruct (collect_ready _ _ _) as [[? ?] ?].
  - destruct (k_phase k); try done. by intros [= <-].
  - destruct (k_phase k) as [| |[|y todo]]; try done. intros [= <-]. by apply log_ok_walk.
  - destruct (k_phase k) as [| |[|]]; try done. by intros [= <-].
  - destruct (k_tasks k !! i) as [[item []]|]; try done. destruct (has_task item); [done|].
    intros [= <-]. exact (log_ok_outcome now item _ k Hk).
  - destruct (k_tasks k !! i) as [[item []]|]; try done. destruct (has_task item); [|done].
    intros [= <-]. exact (log_ok_outcome now item _ k Hk).
  - destruct (k_tasks k !! i) as [[item []]|]; try done. destruct (has_task item); [|done].
    by intros [= <-].
  - destruct (k_tasks k !! i) as [[item []]|]; try done. destruct (has_task item); [|done].
    by intros [= <-].
  - destruct (k_tasks k !! i) as [[item []]|]; try done. intros [= <-].
    exact (log_ok_outcome now item o k Hk).
  - destruct (k_tasks k !! i) as [[item []]|]; try done. by intros [= <-].
  - destruct (k_tasks k !! i) as [[item []]|]; try done. by intros [= <-].
Qed.

Lemma reachable_log max k : reachable max k -> log_ok k.
Proof.
  induction 1 as [|l k k' _ IH Hs]; [split; [done|set_solver]|]. by eapply log_ok_step.
Qed.

Lemma launches_ok_split log l1 x l2 :
  launches_ok log -> log = l1 ++ Launched x :: l2 -> Disposed x ∉ l2.
Proof.
  intros H ->. induction l1 as [|e l1 IH]; simpl in *; [by destruct H|].
  apply IH. by destruct e; [destruct H|..].
Qed.

(** *** Sorting *)

Lemma insert_item_Permutation x l : insert_item x l ≡ₚ x :: l.
Proof.
  induction l as [|y l IH]; simpl; [done|]. destruct (_ <? _); [|done].
  rewrite IH. constructor.
Qed.

Lemma sort_items_Permutation l : sort_items l ≡ₚ l.
Proof. induction l as [|x l IH]; simpl; [done|]. by rewrite insert_item_Permutation, IH. Qed.

Lemma insert_item_sorted x l :
  StronglySorted (fun a b => wi_priority b <= wi_priority a) l ->
  StronglySorted (fun a b => wi_priority b <= wi_priority a) (insert_item x l).
Proof.
  induction 1 as [|y l Hs IH Hall]; simpl; [by repeat constructor|].
  destruct (Z.ltb_spec (wi_priority x) (wi_priority y)).
  - constructor; [done|]. rewrite insert_item_Permutation. constructor; [lia|done].
  - constructor; [by constructor|]. constructor; [lia|].
    eapply Forall_impl; [done|]. simpl. lia.
Qed.

Lemma sort_items_sorted l :
  StronglySorted (fun a b => wi_priority b <= wi_priority a) (sort_items l).
Proof. induction l as [|x l IH]; simpl; [constructor|]. by apply insert_item_sorted. Qed.

Definition of_priority (p : Z) (x : WorkItem) : bool := wi_priority x =? p.

Lemma insert_item_stable p x l :
  List.filter (of_priority p) (insert_item x l) =
  List.filter (of_priority p) [x] ++ List.filter (of_priority p) l.
Proof.
  induction l as [|y l IH]; simpl; [by rewrite app_nil_r|].
  unfold of_priority in *. destruct (Z.ltb_spec (wi_priority x) (wi_priority y)); simpl.
  - rewrite IH. simpl. destruct (Z.eqb_spec (wi_priority x) p), (Z.eqb_spec (wi_priority y) p);
      try done; lia.
  - by destruct (wi_priority x =? p).
Qed.

Lemma sort_items_stable p l :
  List.filter (of_priority p) (sort_items l) = List.filter (of_priority p) l.
Proof.
  induction l as [|x l IH]; simpl; [done|]. rewrite insert_item_stable, IH. simpl.
  by destruct (of_priority p x).
Qed.

(** ** Theorems *)

(** C8: at every await of every run, the running map is within the concurrency
    limit, no two live tasks share a key, and every live task's key is in the
    running map. *)
Theorem kernel_within_limit (max : Z) (k : Kernel) :
  reachable max k ->
  Z.of_nat (length (k_running k)) <= Z.max 0 max /\ NoDup (live_keys k) /\
  (forall x, x ∈ live_keys k -> x ∈ dkeys (k_running k)) /\
  (length (k_tasks k) <= length (k_running k))%nat.
Proof.
  intros [Hwf Hcap Hnd Hrun _]%reachable_inv. repeat split; try done.
  pose proof (submseteq_length _ _ (NoDup_submseteq _ _ Hnd Hrun)) as H.
  unfold live_keys, dkeys in H. by rewrite length_fmap, length_map in H.
Qed.

(** A work item that was disposed of is never launched again. *)
Theorem disposed_never_relaunched (max : Z) (k : Kernel) (later earlier : list kevent) (x : string) :
  reachable max k -> k_log k = later ++ Launched x :: earlier -> Disposed x ∉ earlier.
Proof. intros [Hl _]%reachable_log. by apply launches_ok_split. Qed.

(** A dispatch cycle takes along the item of every due retry, exactly once,
    and leaves the others parked with their entry in the retry queue. *)
Theorem due_retries_collected (max : Z) (now : Q) (k k' : Kernel) :
  reachable max k -> step max (LBegin now) k = Some k' ->
  exists ready, k_phase k' = Polling (k_spawn_queue k ++ ready) /\
  k_retry_queue k' = snd (split_ready_retries (k_retry_queue k) now) /\
  forall key item, dget key (k_retry_items k) = Some item ->
    if due_key now (k_retry_queue k) key
    then item ∈ ready /\ dget key (k_retry_items k') = None
    else dget key (k_retry_items k') = Some item /\
         exists r, r ∈ k_retry_queue k' /\ rt_dedup_key r = key.
Proof.
  intros Hk Hs. assert (Hk' : kernel_inv max k') by (eapply step_inv; [by apply reachable_inv|done]).
  simpl in Hs. destruct (k_phase k); [|done..]. injection Hs as <-. unfold begin_cycle in *.
  pose proof (collect_ready_queue now (k_retry_queue k) (k_retry_items k)) as Hq.
  pose proof (collect_ready_kept now (k_retry_queue k) (k_retry_items k)) as Hi.
  pose proof (collect_ready_due now (k_retry_queue k) (k_retry_items k)) as Hd.
  destruct (collect_ready _ _ _) as [[ready nr] items]; simpl in *.
  exists ready. split; [done|]. rewrite split_ready_retries_filter. split; [done|].
  intros key item Hget. specialize (Hi key). destruct (due_key _ _ key) eqn:Ed; [by eauto|].
  rewrite Hget in Hi. split; [done|]. apply (inv_retry _ _ Hk'). simpl.
  apply dget_Some_keys. by exists item.
Qed.

(** A cycle considers everything it collected, by descending priority, and
    in order of arrival within a priority. *)
Theorem cycle_order (max : Z) (taken items : list WorkItem) (k k' : Kernel) :
  k_phase k = Polling taken -> step max (LPolled items) k = Some k' ->
  exists todo, k_phase k' = Walking todo /\ todo ≡ₚ taken ++ items /\
  StronglySorted (fun a b => wi_priority b <= wi_priority a) todo /\
  forall p, List.filter (of_priority p) todo = List.filter (of_priority p) (taken ++ items).
Proof.
  intros Hp Hs. simpl in Hs. rewrite Hp in Hs. injection Hs as <-.
  exists (sort_items (taken ++ items)).
  eauto using sort_items_Permutation, sort_items_sorted, sort_items_stable.
Qed.

(** When [prepare_run] raises, the item's key stays in the running map for
    the rest of the kernel's life: its slot is lost and the key can never be
    launched again. *)
Theorem prepare_failure_leaks_slot (max : Z) (i : nat) (item : WorkItem) (k k1 k2 : Kernel)
    (ls : list label) :
  reachable max k -> k_tasks k !! i = Some (item, TPreparing) ->
  step max (LPrepareRaises i) k = Some k1 -> steps max ls k1 = Some k2 ->
  wi_dedup_key item ∈ dkeys (k_running k2) /\ wi_dedup_key item ∉ live_keys k2.
Proof.
  intros [_ _ Hnd Hrun _]%reachable_inv Hi Hs Hss. simpl in Hs. rewrite Hi in Hs.
  destruct (has_task item); [|done]. injection Hs as <-.
  pose proof (live_keys_delete _ _ _ _ Hi) as Hp. rewrite Hp in Hnd.
  apply NoDup_cons in Hnd as [Hni _].
  apply (stuck_steps max _ ls (end_task i k) k2); [|done]. split; [|done].
  simpl. apply Hrun. rewrite Hp. by left.
Qed.

(** ** Concrete runs *)

Lemma steps_reachable max ls k k' : reachable max k -> steps max ls k = Some k' -> reachable max k'.
Proof.
  revert k. induction ls as [|l ls IH]; intros k Hk; simpl; [by intros [= <-]|].
  destruct (step max l k) as [k1|] eqn:E; [|done]. apply IH. by eapply reach_step.
Qed.

Definition work (key : string) (p : Z) : WorkItem := mkWorkItem key p (Some 1) [].

Definition after (max : Z) (ls : list label) : Kernel := default new_kernel (steps max ls new_kernel).

(** Two slots, three items: the least urgent one has to wait. *)
Definition busy_run : list label :=
  [LBegin 0; LPolled [work "low" 1; work "mid" 5; work "high" 9]; LItem; LItem; LItem; LCycleEnd].

Definition retry_run : list label :=
  busy_run ++ [LPrepared 0; LOutcome 0 0 (retry (Some 60%Q) ""); LFinished 0].

Lemma busy_reachable max ls k' : steps max ls new_kernel = Some k' -> reachable max k'.
Proof. apply steps_reachable. constructor. Qed.

Lemma kernel_within_limit_witness :
  length (k_running (after 2 busy_run)) = 2%nat /\ NoDup (live_keys (after 2 busy_run)).
Proof.
  split; [(vm_compute; reflexivity)|].
  apply (kernel_within_limit 2 (after 2 busy_run)).
  apply (busy_reachable 2 busy_run). (vm_compute; reflexivity).
Defined.

(** "high" is disposed of and offered again. *)
Definition dispose_run : list label :=
  busy_run ++ [LPrepared 0; LOutcome 0 0 (dispose ""); LFinished 0; LBegin 1; LPolled [work "high" 9]; LItem].

Lemma disposed_never_relaunched_witness :
  k_log (after 2 dispose_run) =
  [Rejected "high" "duplicate or terminal"; Disposed "high"; Rejected "low" "concurrency limit"]
    ++ Launched "mid" :: [Launched "high"] /\ Disposed "mid" ∉ [Launched "high"].
Proof.
  split; [(vm_compute; reflexivity)|].
  apply (disposed_never_relaunched 2 (after 2 dispose_run)
           [Rejected "high" "duplicate or terminal"; Disposed "high"; Rejected "low" "concurrency limit"]);
    [|(vm_compute; reflexivity)].
  apply (busy_reachable 2 dispose_run). (vm_compute; reflexivity).
Defined.

Lemma due_retries_collected_witness :
  exists k' ready, step 2 (LBegin 60) (after 2 retry_run) = Some k' /\
  k_phase k' = Polling ready /\ work "high" 9 ∈ ready.
Proof.
  destruct (due_retries_collected 2 60 (after 2 retry_run) (begin_cycle 60 (after 2 retry_run)))
    as (ready & Hp & _ & H).
  - apply (busy_reachable 2 retry_run). (vm_compute; reflexivity).
  - (vm_compute; reflexivity).
  - exists (begin_cycle 60 (after 2 retry_run)), ready. split; [(vm_compute; reflexivity)|].
    split; [exact Hp|]. exact (proj1 (H "high" (work "high" 9) ltac:(vm_compute; reflexivity))).
Defined.

Lemma cycle_order_witness :
  exists todo, k_phase (after 2 (take 2 busy_run)) = Walking todo /\
  todo ≡ₚ [work "low" 1; work "mid" 5; work "high" 9].
Proof.
  destruct (cycle_order 2 [] [work "low" 1; work "mid" 5; work "high" 9] (after 2 [LBegin 0])
              (after 2 (take 2 busy_run)) ltac:(vm_compute; reflexivity) ltac:(vm_compute; reflexivity)) as (todo & H1 & H2 & _).
  exists todo. split; [exact H1|exact H2].
Defined.

(** The preparation of "high" fails; later cycles offer it in vain. *)
Lemma prepare_failure_leaks_slot_witness :
  let k2 := after 2 (busy_run ++ [LPrepareRaises 0; LBegin 1; LPolled [work "high" 9]; LItem]) in
  "high" ∈ dkeys (k_running k2) /\ "high" ∉ live_keys k2.
Proof.
  apply (prepare_failure_leaks_slot 2 0 (work "high" 9) (after 2 busy_run)
           (after 2 (busy_run ++ [LPrepareRaises 0]))
           (after 2 (busy_run ++ [LPrepareRaises 0; LBegin 1; LPolled [work "high" 9]; LItem]))
           [LBegin 1; LPolled [work "high" 9]; LItem]); [|vm_compute; reflexivity..].
  apply (busy_reachable 2 busy_run). (vm_compute; reflexivity).
Defined.


(** Two hand-offs are lost to interleaving.  A child spawned while a cycle
    awaits [poll] is wiped by the clearing of the spawn queue: afterwards it is
    nowhere in the kernel.  A retry without delay that comes due while its first
    run still awaits the finish notice is rejected as a duplicate: afterwards
    neither the retry queue nor the parked items know it, and it is not
    completed. *)
Theorem handoffs_lost_to_interleaving :
  let child := after 2 (busy_run ++ [LPrepared 0; LBegin 1;
                 LOutcome 0 1 (spawn (work "child" 1) ""); LPolled []]) in
  let again := after 2 (busy_run ++ [LPrepared 0; LOutcome 0 1 (retry None ""); LBegin 1;
                 LPolled []; LItem; LCycleEnd; LFinished 0]) in
  k_phase child = Walking [] /\ k_spawn_queue child = [] /\ dmem "child" (k_running child) = false /\
  k_phase again = Idle /\ k_retry_queue again = [] /\ k_retry_items again = [] /\
  dmem "high" (k_running again) = false /\ mem "high" (k_completed again) = false.
Proof. vm_compute. repeat split. Qed.
