(* ===== verification/RetryQueue.v ===== *)
(** * The orchestrator's retry queue ([src/orchestratord/orchestrator.py])

    [_schedule_retry], [_requeue_retry], [_process_retry_queue],
    [_recover_pending_retries] and [_cancel_pending_retry]: the life of a
    failed issue's retry, in memory and as the plan persisted on its registry
    record.  The part of [OrchestratorState] they use is the record [Orch];
    the tracker's answers and [_launch_issue], whose assembly work belongs to
    the issue application, are the fields of [Sweep].  Telemetry, tracker state
    sync and notifications do not feed back and are left out. *)

From S2P Require Import Prelude Errors Dag StageRunner IssueRegistry RegistryFacts Kernel.

Open Scope string_scope.
Open Scope list_scope.
Open Scope Z_scope.

Record Orch := mkOrch {
  oc_max_concurrent : Z;
  oc_running : list string;
  oc_completed : list string;
  oc_claimed : list string;
  oc_retry_queue : list RetryItem;
  oc_retry_attempts : dict string Z;
  oc_registry : Registry;
}.

Definition set_queue (q : list RetryItem) (o : Orch) : Orch :=
  mkOrch (oc_max_concurrent o) (oc_running o) (oc_completed o) (oc_claimed o) q
    (oc_retry_attempts o) (oc_registry o).
Definition set_claimed (l : list string) (o : Orch) : Orch :=
  mkOrch (oc_max_concurrent o) (oc_running o) (oc_completed o) l (oc_retry_queue o)
    (oc_retry_attempts o) (oc_registry o).
Definition set_retry_attempts (d : dict string Z) (o : Orch) : Orch :=
  mkOrch (oc_max_concurrent o) (oc_running o) (oc_completed o) (oc_claimed o) (oc_retry_queue o) d
    (oc_registry o).
Definition set_registry (g : Registry) (o : Orch) : Orch :=
  mkOrch (oc_max_concurrent o) (oc_running o) (oc_completed o) (oc_claimed o) (oc_retry_queue o)
    (oc_retry_attempts o) g.

Definition enqueue (r : RetryItem) (o : Orch) : Orch := set_queue (oc_retry_queue o ++ [r]) o.

(** [self._state.claimed.discard(x)] *)
Definition discard_claim (x : string) (o : Orch) : Orch :=
  set_claimed (List.filter (fun y => negb (String.eqb x y)) (oc_claimed o)) o.

(** [workflow.agent] *)
Record AgentConfig := mkAgentConfig {
  max_retry_attempts : Z;
  max_retry_backoff_ms : Z;
}.

(** What [_schedule_retry] reads of an [AgentSession]. *)
Record Session := mkSession {
  ses_id : string;
  ses_identifier : string;
  ses_run_id : option string;
  ses_end_reason : option string;
  ses_status : string;
}.

(** ** Scheduling a retry *)

Definition non_retryable (end_reason : option string) : bool :=
  match end_reason with
  | Some r => mem r NON_RETRYABLE_END_REASONS
  | None => false
  end.

(** Remember the failed run for the next attempt's agent. *)
Definition remember_run (t : Tick) (id : string) (run_id : option string) (g : Registry) : Registry :=
  match run_id, get id g with
  | Some run, Some r =>
      if String.eqb run "" || mem run (previous_run_ids r) then g
      else
        save t (set_records
          (dset id (mkIssueRecord (issue_id r) (issue_identifier r) (schema_version r) (status r)
                      (created_at r) (attempt_count r) (conversation r)
                      (previous_run_ids r ++ [run]) (sync r) (wspace r) (clar r) (feedback r)
                      (intents r) (conflict r) (run_info r)) (records g)) g)
  | _, _ => g
  end.

Definition seconds (ms : Z) : Q := (inject_Z ms / 1000)%Q.

(** [t0] is the tick of the run-id bookkeeping, [t] of everything after it. *)
Definition schedule_retry (cfg : AgentConfig) (t0 t : Tick) (s : Session) (delay_base_ms : option Z)
    (o : Orch) : outcome exn bool * Orch :=
  let id := ses_id s in
  if non_retryable (ses_end_reason s) then (Ret false, discard_claim id o)
  else
    let attempt := default 0 (dget id (oc_retry_attempts o)) + 1 in
    let o := set_retry_attempts (dset id attempt (oc_retry_attempts o)) o in
    let o := set_registry (remember_run t0 id (ses_run_id s) (oc_registry o)) o in
    if negb (max_retry_attempts cfg =? 0) && (max_retry_attempts cfg <? attempt) then
      let o := discard_claim id o in
      (Ret false, set_registry (mark_abandoned t id (oc_registry o)) o)
    else
      match compute_retry_delay attempt (default FAILURE_RETRY_BASE_MS delay_base_ms)
              (max_retry_backoff_ms cfg) with
      | Raise x => (Raise x, o)
      | Ret delay_ms =>
          let r := mkRetryItem id attempt (seconds delay_ms) (ses_identifier s)
                     [Lit "agent failed: "; Lit (ses_status s)] (wall t) 0 in
          let o := enqueue r o in
          (Ret true, set_registry (persist_retry_plan t id attempt (due_at r) (oc_registry o)) o)
      end.

(** ** Processing the queue *)

(** [max(1, int(max_retry_attempts or 5))] *)
Definition retry_requeue_limit (cfg : AgentConfig) : Z :=
  Z.max 1 (if max_retry_attempts cfg =? 0 then 5 else max_retry_attempts cfg).

Definition clear_plan (t : Tick) (id : string) (o : Orch) : Orch :=
  set_registry (clear_retry_plan t id (oc_registry o)) o.

Definition requeue_retry (cfg : AgentConfig) (t : Tick) (now : Q) (r : RetryItem) (o : Orch) : Orch :=
  match requeue_retry_item r now (retry_requeue_limit cfg) (inject_Z (max_retry_backoff_ms cfg)) with
  | (true, r') => enqueue r' o
  | (false, _) => clear_plan t (rt_dedup_key r) o
  end.

Record Issue := mkIssue {
  iss_id : string;
  iss_state : option string;
}.

(** The tracker's answer for one id; [except Exception] does not catch a
    cancellation. *)
Inductive fetched :=
| FetchRaises
| FetchCancelled
| FetchMiss
| FetchFound (issue : Issue).

(** What ends a sweep early. *)
Inductive sweep_exn :=
| SweepCancelled
| LaunchRaised (e : exn).

(** What one sweep of the queue meets outside: the clock, the ticks of its
    registry calls, the tracker, and the launch of an issue. *)
Record Sweep (W : Type) := mkSweep {
  sw_now : Q;
  sw_tick : string -> Tick;
  sw_fetch : string -> W -> fetched * W;
  sw_active_states : list string;
  sw_launch : Issue -> M (W * Orch) exn unit;
}.
Arguments mkSweep {W}.
Arguments sw_now {W}.
Arguments sw_tick {W}.
Arguments sw_fetch {W}.
Arguments sw_active_states {W}.
Arguments sw_launch {W}.

Section sweep.
Context {W : Type} (cfg : AgentConfig) (sw : Sweep W).

Definition normal_state (s : string) : string := lower (strip s).

(** A state that is absent or empty counts as active. *)
Definition still_active (issue : Issue) : bool :=
  match iss_state issue with
  | None => true
  | Some s => String.eqb s "" || mem (normal_state s) (map normal_state (sw_active_states sw))
  end.

Definition claim (key : string) (o : Orch) : Orch :=
  set_claimed (if mem key (oc_claimed o) then oc_claimed o else key :: oc_claimed o) o.

Definition process_retry (r : RetryItem) : M (W * Orch) sweep_exn unit := fun '(w, o) =>
  let key := rt_dedup_key r in
  let t := sw_tick sw key in
  if mem key (oc_running o) || mem key (oc_completed o) then (Ret tt, (w, o))
  else if oc_max_concurrent o <=? Z.of_nat (length (oc_running o)) then (Ret tt, (w, enqueue r o))
  else
    match sw_fetch sw key w with
    | (FetchCancelled, w) => (Raise SweepCancelled, (w, o))
    | (FetchMiss, w) | (FetchRaises, w) => (Ret tt, (w, requeue_retry cfg t (sw_now sw) r o))
    | (FetchFound issue, w) =>
        if negb (still_active issue) then (Ret tt, (w, clear_plan t key o))
        else
          match sw_launch sw issue (w, claim key o) with
          | (Raise e, s) => (Raise (LaunchRaised e), s)
          | (Ret _, (w, o)) =>
              (Ret tt, (w, if mem (iss_id issue) (oc_running o) then clear_plan t key o else enqueue r o))
          end
    end.

(** What a retry raises ends the sweep: the ones after it are not looked at. *)
Fixpoint process_all (ready : list RetryItem) : M (W * Orch) sweep_exn unit :=
  match ready with
  | [] => mret tt
  | r :: ready => _ ← process_retry r; process_all ready
  end.

Definition process_retry_queue : M (W * Orch) sweep_exn unit := fun '(w, o) =>
  let (ready, not_ready) := split_ready_retries (oc_retry_queue o) (sw_now sw) in
  process_all ready (w, set_queue not_ready o).
End sweep.

(** ** Restart and cancellation *)

(** [clock id] is the time the item of [id] is built at. *)
Definition recovered_item (now : Q) (clock : string -> Q) (r : IssueRecord) : RetryItem :=
  let attempt := if retry_count (intents r) =? 0 then 1 else retry_count (intents r) in
  mkRetryItem (issue_id r) attempt (qmax 0 (default 0 (next_retry_at (intents r)) - now))%Q
    (issue_identifier r) [Lit "recovered persisted retry plan on orchestrator startup"]
    (clock (issue_id r)) 0.

Definition recover_one (now : Q) (clock : string -> Q) (o : Orch) (r : IssueRecord) : Orch :=
  let item := recovered_item now clock r in
  set_retry_attempts (dset (issue_id r) (rt_attempt item) (oc_retry_attempts o)) (enqueue item o).

Definition recover_pending_retries (now : Q) (clock : string -> Q) (o : Orch) : Orch :=
  fold_left (recover_one now clock) (pending_retry_records (oc_registry o)) o.

(** The orchestrator of a restarted daemon: nothing in memory but what the
    registry file holds. *)
Definition restarted (max : Z) (g : Registry) : Orch := mkOrch max [] [] [] [] [] g.

Definition has_entry (id : string) (q : list RetryItem) : bool :=
  existsb (fun r => String.eqb (rt_dedup_key r) id) q.

Definition has_plan (id : string) (g : Registry) : bool :=
  match get id g with
  | Some r => is_some (next_retry_at (intents r))
  | None => false
  end.

Definition cancel_pending_retry (t : Tick) (id : string) (o : Orch) : bool * Orch :=
  let in_queue := has_entry id (oc_retry_queue o) in
  let o := if in_queue
           then set_queue (List.filter (fun r => negb (String.eqb (rt_dedup_key r) id)) (oc_retry_queue o)) o
           else o in
  let had_plan := has_plan id (oc_registry o) in
  (in_queue || had_plan, if had_plan then clear_plan t id o else o).

(** ** What launching an issue promises the sweep

    Whether it returns or raises, [_launch_issue] registers at most one session,
    ends none, leaves the retry queue alone, plans no retry and touches no plan
    but that of its own issue. *)
Record launch_step (id : string) (o o' : Orch) : Prop := mkLaunchStep {
  ls_queue : oc_retry_queue o' = oc_retry_queue o;
  ls_running : oc_running o' = oc_running o \/ oc_running o' = oc_running o ++ [id];
  ls_completed : forall x, x ∈ oc_completed o -> x ∈ oc_completed o';
  ls_plan : forall x, x <> id -> has_plan x (oc_registry o') = has_plan x (oc_registry o);
  ls_no_plan : has_plan id (oc_registry o) = false -> has_plan id (oc_registry o') = false;
  ls_max : oc_max_concurrent o' = oc_max_concurrent o;
}.

(** The tracker answers under the id it was asked for, and every launch is such
    a step. *)
Class LaunchLaws {W} (sw : Sweep W) : Prop := {
  fetch_by_id key w issue w' : sw_fetch sw key w = (FetchFound issue, w') -> iss_id issue = key;
  launch_steps issue s : launch_step (iss_id issue) (snd s) (snd (snd (sw_launch sw issue s)));
}.

(** ** The registry behind the queue *)

Lemma has_plan_clear t id g x :
  has_plan x (clear_retry_plan t id g) = if decide (id = x) then false else has_plan x g.
Proof.
  unfold clear_retry_plan. destruct (get id g) as [r|] eqn:Er.
  - destruct (next_retry_at (intents r)) eqn:En.
    + unfold has_plan. rewrite update_get, Er. by destruct (decide (id = x)).
    + destruct (decide (id = x)) as [<-|]; [|done]. unfold has_plan. by rewrite Er, En.
  - destruct (decide (id = x)) as [<-|]; [|done]. unfold has_plan. by rewrite Er.
Qed.

Lemma remember_run_get t id run g r :
  get id g = Some r ->
  exists r', get id (remember_run t id run g) = Some r' /\ issue_id r' = issue_id r.
Proof.
  intros Hr. unfold remember_run. destruct run as [run|]; [|by exists r].
  rewrite Hr. destruct (_ || _); [by exists r|].
  eexists. unfold get. rewrite save_records. simpl. by rewrite dget_dset_eq.
Qed.

Lemma remember_run_none t id run g : get id g = None -> get id (remember_run t id run g) = None.
Proof. intros H. unfold remember_run. destruct run; by rewrite ?H. Qed.

(** ** Backoff *)

Lemma compute_retry_delay_pow attempt base_ms max_ms :
  1 <= attempt ->
  compute_retry_delay attempt base_ms max_ms = Ret (Z.min (base_ms * 2 ^ (attempt - 1)) max_ms).
Proof.
  intros H. unfold compute_retry_delay. destruct (Z.ltb_spec attempt 1); [lia|].
  by rewrite Z.shiftl_1_l.
Qed.

(** The attempts already counted for an issue. *)
Definition attempts_of (id : string) (o : Orch) : Z := default 0 (dget id (oc_retry_attempts o)).

Definition over_limit (cfg : AgentConfig) (attempt : Z) : bool :=
  negb (max_retry_attempts cfg =? 0) && (max_retry_attempts cfg <? attempt).

(** The item a granted retry queues. *)
Definition planned_item (cfg : AgentConfig) (t : Tick) (s : Session) (base : option Z) (n : Z) : RetryItem :=
  mkRetryItem (ses_id s) (n + 1)
    (seconds (Z.min (default FAILURE_RETRY_BASE_MS base * 2 ^ n) (max_retry_backoff_ms cfg)))
    (ses_identifier s) [Lit "agent failed: "; Lit (ses_status s)] (wall t) 0.

Lemma schedule_retry_granted cfg t0 t s base o :
  0 <= attempts_of (ses_id s) o -> non_retryable (ses_end_reason s) = false ->
  over_limit cfg (attempts_of (ses_id s) o + 1) = false ->
  let item := planned_item cfg t s base (attempts_of (ses_id s) o) in
  schedule_retry cfg t0 t s base o =
  (Ret true,
   mkOrch (oc_max_concurrent o) (oc_running o) (oc_completed o) (oc_claimed o)
     (oc_retry_queue o ++ [item])
     (dset (ses_id s) (attempts_of (ses_id s) o + 1) (oc_retry_attempts o))
     (persist_retry_plan t (ses_id s) (attempts_of (ses_id s) o + 1) (due_at item)
        (remember_run t0 (ses_id s) (ses_run_id s) (oc_registry o)))).
Proof.
  intros Hn Hr Hl item. unfold attempts_of, over_limit in *. unfold schedule_retry. rewrite Hr, Hl.
  rewrite compute_retry_delay_pow by lia. unfold item, planned_item, set_registry, enqueue, due_at.
  simpl. by replace (default 0 (dget (ses_id s) (oc_retry_attempts o)) + 1 - 1)
    with (default 0 (dget (ses_id s) (oc_retry_attempts o))) by lia.
Qed.

Lemma schedule_retry_attempts cfg t0 t s base o r o' :
  0 <= attempts_of (ses_id s) o -> schedule_retry cfg t0 t s base o = (r, o') ->
  exists b, r = Ret b /\
  (b = true -> over_limit cfg (attempts_of (ses_id s) o + 1) = false) /\
  forall x, attempts_of x o' =
    if negb (non_retryable (ses_end_reason s)) && String.eqb (ses_id s) x
    then attempts_of x o + 1 else attempts_of x o.
Proof.
  intros Hn. destruct (non_retryable (ses_end_reason s)) eqn:Er.
  { unfold schedule_retry. rewrite Er. intros [= <- <-]. by exists false. }
  assert (Hx : forall x, default 0 (dget x (dset (ses_id s) (attempts_of (ses_id s) o + 1)
                 (oc_retry_attempts o))) =
               if String.eqb (ses_id s) x then attempts_of x o + 1 else attempts_of x o).
  { intros x. rewrite dget_dset. destruct (String.eqb_spec (ses_id s) x) as [<-|];
      [by rewrite decide_True|by rewrite decide_False]. }
  destruct (over_limit cfg (attempts_of (ses_id s) o + 1)) eqn:El.
  - unfold over_limit, attempts_of in El. unfold schedule_retry. rewrite Er, El.
    intros [= <- <-]. exists false. repeat split; [done|]. exact Hx.
  - rewrite schedule_retry_granted by done. intros [= <- <-]. exists true. repeat split. exact Hx.
Qed.

(** A history of failed sessions; the retries granted to one issue. *)
Fixpoint schedule_all (cfg : AgentConfig) (id : string) (calls : list (Tick * Tick * Session * option Z))
    (o : Orch) : nat * Orch :=
  match calls with
  | [] => (0%nat, o)
  | (t0, t, s, base) :: calls' =>
      let (res, o1) := schedule_retry cfg t0 t s base o in
      let (n, o2) := schedule_all cfg id calls' o1 in
      (match res with
       | Ret true => if String.eqb (ses_id s) id then S n else n
       | _ => n
       end, o2)
  end.

Lemma schedule_all_bound cfg id calls o :
  0 < max_retry_attempts cfg -> (forall x, 0 <= attempts_of x o) ->
  Z.of_nat (fst (schedule_all cfg id calls o))
  <= Z.max 0 (max_retry_attempts cfg - attempts_of id o).
Proof.
  intros Hmax. revert o. induction calls as [|[[[t0 t] s] base] calls IH]; intros o Hn; simpl; [lia|].
  destruct (schedule_retry cfg t0 t s base o) as [res o1] eqn:E.
  destruct (schedule_retry_attempts _ _ _ _ _ _ _ _ (Hn _) E) as (b & -> & Hb & Hx).
  assert (Hn1 : forall x, 0 <= attempts_of x o1).
  { intros x. rewrite Hx. specialize (Hn x). destruct (_ && _); lia. }
  specialize (IH o1 Hn1). rewrite Hx in IH. destruct (schedule_all cfg id calls o1) as [n o2].
  simpl in *. destruct (non_retryable (ses_end_reason s)) eqn:Er; simpl in IH.
  - unfold schedule_retry in E. rewrite Er in E. injection E as <- _. exact IH.
  - destruct (String.eqb_spec (ses_id s) id) as [<-|]; [|by destruct b].
    destruct b; [|lia]. specialize (Hb eq_refl). unfold over_limit in Hb.
    destruct (Z.eqb_spec (max_retry_attempts cfg) 0); [lia|]. simpl in Hb.
    apply Z.ltb_ge in Hb. lia.
Qed.

(** ** Requeueing *)

(** Consecutive requeues of one item, while they are granted. *)
Fixpoint requeue_iter (limit : Z) (backoff : Q) (nows : list Q) (r : RetryItem) : option RetryItem :=
  match nows with
  | [] => Some r
  | now :: nows' =>
      match requeue_retry_item r now limit backoff with
      | (true, r') => requeue_iter limit backoff nows' r'
      | (false, _) => None
      end
  end.

Lemma requeue_iter_granted limit backoff nows r :
  is_some (requeue_iter limit backoff nows r) = true <->
  nows = [] \/ rt_requeue_count r + Z.of_nat (length nows) <= limit.
Proof.
  revert r. induction nows as [|now nows IH]; intros r; [simpl; tauto|].
  cbn [requeue_iter length]. unfold requeue_retry_item.
  destruct (Z.ltb_spec limit (rt_requeue_count r + 1)).
  - simpl. split; [done|]. intros [?|?]; [done|lia].
  - rewrite IH. simpl. split.
    + intros [->|?]; right; simpl; lia.
    + intros [?|?]; [done|]. right. lia.
Qed.

Lemma requeue_iter_delay limit backoff nows r r' :
  requeue_iter limit backoff nows r = Some r' -> nows <> [] ->
  (rt_delay_seconds r' <= backoff / 1000)%Q /\ rt_dedup_key r' = rt_dedup_key r /\
  rt_attempt r' = rt_attempt r.
Proof.
  revert r. induction nows as [|now nows IH]; intros r; [done|]. intros Hi _. cbn [requeue_iter] in Hi.
  unfold requeue_retry_item in Hi. destruct (limit <? _); [done|].
  destruct nows as [|now' nows].
  - injection Hi as <-. simpl. split; [apply qmin_le_r|done].
  - apply IH in Hi as (H1 & H2 & H3); [|done]. simpl in *. done.
Qed.

(** ** The sweep *)

Lemma has_entry_In x q : has_entry x q = true <-> exists r, r ∈ q /\ rt_dedup_key r = x.
Proof.
  unfold has_entry. rewrite existsb_exists. split; intros (r & Hr & He); exists r.
  - split; [by apply list_elem_of_In|by apply String.eqb_eq].
  - split; [by apply list_elem_of_In|by apply String.eqb_eq].
Qed.

Lemma has_entry_enqueue x r o :
  has_entry x (oc_retry_queue (enqueue r o)) = has_entry x (oc_retry_queue o) || String.eqb (rt_dedup_key r) x.
Proof. unfold enqueue, has_entry; simpl. rewrite existsb_app. simpl. by rewrite orb_false_r. Qed.

Section sweep_facts.
Context {W : Type} (cfg : AgentConfig) (sw : Sweep W).

(** The two reasons to give a retry up: the tracker says that its issue is no
    longer active, or it fails to report the issue once more than the ceiling
    allows. *)
Definition given_up (r : RetryItem) : Prop :=
  (exists w w' issue, sw_fetch sw (rt_dedup_key r) w = (FetchFound issue, w') /\ still_active sw issue = false)
  \/ (retry_requeue_limit cfg < rt_requeue_count r + 1
      /\ exists w f w', sw_fetch sw (rt_dedup_key r) w = (f, w') /\ (f = FetchMiss \/ f = FetchRaises)).

(** A retry that is not lost: it is in the queue, its issue is running or
    completed, or it was given up for one of the two reasons and has no plan. *)
Definition retry_settled (r : RetryItem) (o : Orch) : Prop :=
  has_entry (rt_dedup_key r) (oc_retry_queue o) = true
  \/ rt_dedup_key r ∈ oc_running o \/ rt_dedup_key r ∈ oc_completed o
  \/ (given_up r /\ has_plan (rt_dedup_key r) (oc_registry o) = false).

(** The retry whose processing raised [e]. *)
Definition raised_by (r : RetryItem) (e : sweep_exn) : Prop :=
  match e with
  | SweepCancelled => exists w w', sw_fetch sw (rt_dedup_key r) w = (FetchCancelled, w')
  | LaunchRaised x => exists issue s s', iss_id issue = rt_dedup_key r /\ sw_launch sw issue s = (Raise x, s')
  end.

(** How the state changes while one retry is processed. *)
Record sweep_step (id : string) (o o' : Orch) : Prop := mkSweepStep {
  st_queue : forall r, r ∈ oc_retry_queue o -> r ∈ oc_retry_queue o';
  st_running : forall x, x ∈ oc_running o -> x ∈ oc_running o';
  st_completed : forall x, x ∈ oc_completed o -> x ∈ oc_completed o';
  st_plan : forall x, x <> id -> has_plan x (oc_registry o') = has_plan x (oc_registry o);
  st_no_plan : has_plan id (oc_registry o) = false -> has_plan id (oc_registry o') = false;
  st_max : oc_max_concurrent o' = oc_max_concurrent o;
}.

Lemma sweep_step_refl id o : sweep_step id o o.
Proof. by split. Qed.

Lemma sweep_step_trans id o1 o2 o3 : sweep_step id o1 o2 -> sweep_step id o2 o3 -> sweep_step id o1 o3.
Proof.
  intros [] []. split; eauto; congruence || (intros x Hx; etrans; eauto).
Qed.

Lemma enqueue_step id r o : sweep_step id o (enqueue r o).
Proof. split; try done. intros x Hx. unfold enqueue; simpl. apply elem_of_app. by left. Qed.

Lemma clear_step t id o : sweep_step id o (clear_plan t id o).
Proof.
  split; try done; unfold clear_plan; simpl.
  - intros x Hx. by rewrite has_plan_clear, decide_False by congruence.
  - intros _. by rewrite has_plan_clear, decide_True.
Qed.

Lemma requeue_step t now r o : sweep_step (rt_dedup_key r) o (requeue_retry cfg t now r o).
Proof.
  unfold requeue_retry. destruct (requeue_retry_item _ _ _ _) as [[] r']; [apply enqueue_step|apply clear_step].
Qed.

Lemma claim_step id key o : sweep_step id o (claim key o).
Proof. by split. Qed.

Lemma launched_step id o o' : launch_step id o o' -> sweep_step id o o'.
Proof.
  intros [Hq Hr Hc Hp Hn Hm]. split; try done.
  - by rewrite Hq.
  - intros x Hx. destruct Hr as [->| ->]; [done|]. apply elem_of_app. by left.
Qed.

Lemma settled_step id r o o' : sweep_step id o o' -> retry_settled r o -> retry_settled r o'.
Proof.
  intros [Hq Hr Hc Hp Hn _] [H|[H|[H|[Hg H]]]].
  - left. apply has_entry_In in H as (x & Hx & <-). apply has_entry_In. eauto.
  - right; left. auto.
  - do 2 right; left. auto.
  - do 3 right. split; [done|]. destruct (decide (rt_dedup_key r = id)) as [<-|]; [auto|]. by rewrite Hp.
Qed.

Lemma settled_enqueued r o : retry_settled r (enqueue r o).
Proof. left. by rewrite has_entry_enqueue, String.eqb_refl, orb_true_r. Qed.

Lemma settled_cleared t r o : given_up r -> retry_settled r (clear_plan t (rt_dedup_key r) o).
Proof. intros H. do 3 right. split; [done|]. unfold clear_plan; simpl. by rewrite has_plan_clear, decide_True. Qed.

Lemma settled_requeued t now r o :
  (exists w f w', sw_fetch sw (rt_dedup_key r) w = (f, w') /\ (f = FetchMiss \/ f = FetchRaises)) ->
  retry_settled r (requeue_retry cfg t now r o).
Proof.
  intros H. unfold requeue_retry, requeue_retry_item.
  destruct (Z.ltb_spec (retry_requeue_limit cfg) (rt_requeue_count r + 1)) as [Hl|Hl].
  - apply settled_cleared. right. auto.
  - left. by rewrite has_entry_enqueue; simpl; rewrite String.eqb_refl, orb_true_r.
Qed.

Context `{!LaunchLaws sw}.

(** One retry: a step of the state that settles the retry, or raises on it. *)
Lemma process_retry_step r w o :
  sweep_step (rt_dedup_key r) o (snd (snd (process_retry cfg sw r (w, o))))
  /\ match fst (process_retry cfg sw r (w, o)) with
     | Ret _ => retry_settled r (snd (snd (process_retry cfg sw r (w, o))))
     | Raise e => raised_by r e
     end.
Proof.
  unfold process_retry. destruct (mem (rt_dedup_key r) (oc_running o)) eqn:Er; simpl.
  { split; [apply sweep_step_refl|]. right; left. by apply mem_true. }
  destruct (mem (rt_dedup_key r) (oc_completed o)) eqn:Ec; simpl.
  { split; [apply sweep_step_refl|]. do 2 right; left. by apply mem_true. }
  destruct (_ <=? _); [split; [apply enqueue_step|apply settled_enqueued]|].
  destruct (sw_fetch sw (rt_dedup_key r) w) as [f w1] eqn:Ef.
  destruct f as [| | |issue]; simpl.
  - split; [apply requeue_step|]. apply settled_requeued. eauto 6.
  - split; [apply sweep_step_refl|]. eauto.
  - split; [apply requeue_step|]. apply settled_requeued. eauto 6.
  - destruct (still_active sw issue) eqn:Ea; simpl.
    2: { split; [apply clear_step|]. apply settled_cleared. left. eauto. }
    pose proof (fetch_by_id _ _ _ _ Ef) as Hid.
    pose proof (sweep_step_trans _ _ _ _ (claim_step _ (rt_dedup_key r) o)
      (launched_step _ _ _ (launch_steps issue (w1, claim (rt_dedup_key r) o)))) as Hs.
    destruct (sw_launch sw issue (w1, claim (rt_dedup_key r) o)) as [[[]|e] [w2 o2]] eqn:El; simpl in *.
    + rewrite Hid in *. destruct (mem (rt_dedup_key r) (oc_running o2)) eqn:Em; simpl.
      * split; [eapply sweep_step_trans; [exact Hs|apply clear_step]|].
        right; left. by apply mem_true in Em.
      * split; [eapply sweep_step_trans; [exact Hs|apply enqueue_step]|apply settled_enqueued].
    + rewrite <- Hid. split; [exact Hs|]. eauto.
Qed.

(** A list of retries, with the place where it raised. *)
Lemma process_all_spec ready w o :
  (forall r, r ∈ oc_retry_queue o -> r ∈ oc_retry_queue (snd (snd (process_all cfg sw ready (w, o)))))
  /\ (forall r, retry_settled r o -> retry_settled r (snd (snd (process_all cfg sw ready (w, o)))))
  /\ match fst (process_all cfg sw ready (w, o)) with
     | Ret _ => forall r, r ∈ ready -> retry_settled r (snd (snd (process_all cfg sw ready (w, o))))
     | Raise e => exists done bad rest, ready = done ++ bad :: rest /\ raised_by bad e
         /\ (forall r, r ∈ done -> retry_settled r (snd (snd (process_all cfg sw ready (w, o)))))
         /\ (forall x, x ∉ map rt_dedup_key (done ++ [bad]) ->
               has_plan x (oc_registry (snd (snd (process_all cfg sw ready (w, o))))) = has_plan x (oc_registry o))
     end.
Proof.
  revert w o. induction ready as [|r ready IH]; intros w o; simpl.
  { split; [done|]. split; [done|]. intros r Hr. by apply elem_of_nil in Hr. }
  destruct (process_retry_step r w o) as [Hs Hr]. unfold mbind, M_bind.
  destruct (process_retry cfg sw r (w, o)) as [[[]|e] [w1 o1]] eqn:E; simpl in *.
  - destruct (IH w1 o1) as (H1 & H2 & H3). pose proof (settled_step _ r _ _ Hs) as Hk.
    split; [intros x Hx; apply H1, (st_queue _ _ _ Hs), Hx|].
    split; [intros x Hx; apply H2, (settled_step _ x _ _ Hs), Hx|].
    destruct (fst (process_all cfg sw ready (w1, o1))) as [[]|e].
    + intros x [->|Hx]%elem_of_cons; auto.
    + destruct H3 as (done & bad & rest & -> & Hb & Hd & Hp).
      exists (r :: done), bad, rest. split; [done|]. split; [done|]. split.
      * intros x [->|Hx]%elem_of_cons; auto.
      * simpl. intros x Hx. apply not_elem_of_cons in Hx as [Hx1 Hx2]. rewrite Hp by done.
        by apply (st_plan _ _ _ Hs).
  - split; [exact (st_queue _ _ _ Hs)|]. split; [intros x; apply (settled_step _ x _ _ Hs)|].
    exists [], r, ready. split; [done|]. split; [done|]. split; [intros x Hx; by apply elem_of_nil in Hx|].
    simpl. intros x Hx. apply (st_plan _ _ _ Hs). set_solver.
Qed.

(** Slots. *)
Definition in_limit (o : Orch) : Prop := Z.of_nat (length (oc_running o)) <= oc_max_concurrent o.

Lemma in_limit_process r w o : in_limit o -> in_limit (snd (snd (process_retry cfg sw r (w, o)))).
Proof.
  intros H. unfold process_retry. destruct (_ || _); [done|].
  destruct (Z.leb_spec (oc_max_concurrent o) (Z.of_nat (length (oc_running o)))); [done|].
  destruct (sw_fetch sw _ w) as [[| | |issue] w1]; simpl; [|done| |].
  1,2: unfold requeue_retry; by destruct (requeue_retry_item _ _ _ _) as [[] r'].
  destruct (still_active sw issue); simpl; [|done].
  pose proof (launch_steps issue (w1, claim (rt_dedup_key r) o)) as [_ Hr _ _ _ Hm].
  destruct (sw_launch sw issue _) as [res [w2 o2]]. simpl in *.
  assert (Hl : in_limit o2).
  { unfold in_limit. rewrite Hm. destruct Hr as [->| ->]; rewrite ?length_app; simpl; lia. }
  destruct res as [[]|e]; [|done]. simpl. by destruct (mem (iss_id issue) _).
Qed.

Lemma in_limit_process_all ready w o : in_limit o -> in_limit (snd (snd (process_all cfg sw ready (w, o)))).
Proof.
  revert w o. induction ready as [|r ready IH]; intros w o H; simpl; [done|].
  unfold mbind, M_bind. pose proof (in_limit_process r w o H) as Hl.
  destruct (process_retry cfg sw r (w, o)) as [[[]|e] [w1 o1]]; simpl in *; [by apply IH|done].
Qed.
End sweep_facts.

(** ** Restart *)

Lemma recover_queue now clock l o :
  oc_retry_queue (fold_left (recover_one now clock) l o) =
  oc_retry_queue o ++ map (recovered_item now clock) l.
Proof.
  revert o. induction l as [|r l IH]; intros o; simpl; [by rewrite app_nil_r|].
  rewrite IH. simpl. by rewrite <- app_assoc.
Qed.

Lemma recover_pending_queue now clock max g :
  oc_retry_queue (recover_pending_retries now clock (restarted max g)) =
  map (recovered_item now clock) (pending_retry_records g).
Proof. unfold recover_pending_retries. by rewrite recover_queue. Qed.

Lemma pending_record id r g :
  get id g = Some r -> is_Some (next_retry_at (intents r)) -> r ∈ pending_retry_records g.
Proof.
  intros Hr [x Hx]. unfold pending_retry_records. apply list_elem_of_In, filter_In.
  split; [|by rewrite Hx]. apply list_elem_of_In. unfold dvals.
  apply list_elem_of_fmap. exists (id, r). split; [done|]. by apply dget_In.
Qed.

(** What a restart reads back. *)
Lemma reload_records d interval g :
  new_registry (Some d) interval = Ret g -> records g = map (fun kv => (fst kv, loaded (snd kv))) d.
Proof.
  unfold new_registry, load. simpl. destruct (existsb _ d); [done|]. by intros [= <-].
Qed.

Lemma dget_map {V V'} (f : V -> V') x (d : dict string V) :
  dget x (map (fun kv => (fst kv, f (snd kv))) d) = f <$> dget x d.
Proof.
  induction d as [|[k v] d IH]; simpl; [done|]. by destruct (decide (x = k)).
Qed.

Lemma update_disk t id f g :
  io_ok t = true -> is_Some (get id g) -> disk (update t id f g) = Some (records (update t id f g)).
Proof.
  intros Ht [r Hr]. unfold update. unfold get in Hr. rewrite Hr. unfold save. by rewrite Ht.
Qed.

(** ** Cancellation *)

Lemma has_entry_filter id q :
  has_entry id (List.filter (fun r => negb (String.eqb (rt_dedup_key r) id)) q) = false.
Proof.
  unfold has_entry. apply not_true_iff_false. intros (r & Hr & He)%existsb_exists.
  apply filter_In in Hr as [_ Hr]. by rewrite He in Hr.
Qed.

Lemma cancel_no_entry t id o : has_entry id (oc_retry_queue (snd (cancel_pending_retry t id o))) = false.
Proof.
  unfold cancel_pending_retry. destruct (has_entry id (oc_retry_queue o)) eqn:E; simpl;
    destruct (has_plan id _); simpl; try done; apply has_entry_filter.
Qed.

Lemma cancel_no_plan t id o x :
  has_plan x (oc_registry (snd (cancel_pending_retry t id o))) =
  if decide (id = x) then false else has_plan x (oc_registry o).
Proof.
  unfold cancel_pending_retry. destruct (has_entry id (oc_retry_queue o)); simpl;
    destruct (has_plan id (oc_registry o)) eqn:Ep; simpl; try apply has_plan_clear;
    destruct (decide (id = x)) as [<-|]; done.
Qed.

(** ** Theorems *)

(** What scheduling a retry does on each of its three paths.  An
    operator's stop is final: nothing is queued or planned.  Past the limit the
    issue is marked abandoned and nothing is queued.  Otherwise exactly one item
    is queued, due after the capped exponential backoff, and the same attempt
    and due time are planned on the issue's record. *)
Theorem schedule_retry_spec (cfg : AgentConfig) (t0 t : Tick) (s : Session) (base : option Z) (o : Orch) :
  0 <= attempts_of (ses_id s) o ->
  let n := attempts_of (ses_id s) o in
  let item := planned_item cfg t s base n in
  exists o',
  if non_retryable (ses_end_reason s) then
    schedule_retry cfg t0 t s base o = (Ret false, o') /\
    oc_retry_queue o' = oc_retry_queue o /\ oc_registry o' = oc_registry o /\ ses_id s ∉ oc_claimed o'
  else if over_limit cfg (n + 1) then
    schedule_retry cfg t0 t s base o = (Ret false, o') /\
    oc_retry_queue o' = oc_retry_queue o /\ ses_id s ∉ oc_claimed o' /\
    (is_Some (get (ses_id s) (oc_registry o)) ->
     status <$> get (ses_id s) (oc_registry o') = Some ABANDONED)
  else
    schedule_retry cfg t0 t s base o = (Ret true, o') /\
    oc_retry_queue o' = oc_retry_queue o ++ [item] /\
    (is_Some (get (ses_id s) (oc_registry o)) ->
     (fun r => (retry_count (intents r), next_retry_at (intents r)))
       <$> get (ses_id s) (oc_registry o') = Some (n + 1, Some (due_at item))).
Proof.
  intros Hn n item.
  assert (Hclaim : forall l, ses_id s ∉ List.filter (fun y => negb (String.eqb (ses_id s) y)) l).
  { intros l [_ H]%list_elem_of_In%filter_In. by rewrite String.eqb_refl in H. }
  destruct (non_retryable (ses_end_reason s)) eqn:Er.
  { unfold schedule_retry. rewrite Er. eexists. repeat split. apply Hclaim. }
  destruct (over_limit cfg (n + 1)) eqn:El.
  - unfold schedule_retry. rewrite Er. unfold over_limit, n, attempts_of in El. rewrite El.
    eexists. split; [done|]. split; [done|]. split; [apply Hclaim|]. simpl. intros [r Hr].
    destruct (remember_run_get t0 _ (ses_run_id s) _ _ Hr) as (r' & Hr' & _).
    unfold mark_abandoned. rewrite update_get, decide_True by done. by rewrite Hr'.
  - rewrite schedule_retry_granted by done. eexists. split; [done|]. split; [done|].
    simpl. intros [r Hr]. destruct (remember_run_get t0 _ (ses_run_id s) _ _ Hr) as (r' & Hr' & _).
    unfold persist_retry_plan. rewrite update_get, decide_True by done. by rewrite Hr'.
Qed.

(** With a positive limit, an issue is granted at most as many retries as
    the limit leaves over, whatever sessions fail and in whatever order. *)
Theorem retries_bounded (cfg : AgentConfig) (id : string)
    (calls : list (Tick * Tick * Session * option Z)) (o : Orch) :
  0 < max_retry_attempts cfg -> (forall x, 0 <= attempts_of x o) ->
  Z.of_nat (fst (schedule_all cfg id calls o)) <= Z.max 0 (max_retry_attempts cfg - attempts_of id o).
Proof. apply schedule_all_bound. Qed.

(** The backoff never exceeds its cap and never shrinks from one attempt to
    the next. *)
Theorem backoff_capped_monotone (attempt base_ms max_ms : Z) :
  1 <= attempt -> 0 <= base_ms -> 0 <= max_ms ->
  exists d d', compute_retry_delay attempt base_ms max_ms = Ret d /\
  compute_retry_delay (attempt + 1) base_ms max_ms = Ret d' /\ d <= d' <= max_ms /\
  (2 * d <= max_ms -> d' = 2 * d).
Proof.
  intros Ha Hb Hm. rewrite !compute_retry_delay_pow by lia. eexists _, _. split; [done|]. split; [done|].
  replace (attempt + 1 - 1) with (Z.succ (attempt - 1)) by lia. rewrite Z.pow_succ_r by lia.
  pose proof (Z.pow_pos_nonneg 2 (attempt - 1) ltac:(lia) ltac:(lia)).
  rewrite (Z.mul_assoc base_ms), (Z.mul_comm base_ms 2), <- Z.mul_assoc.
  assert (0 <= base_ms * 2 ^ (attempt - 1)) by nia. lia.
Qed.

(** C9: a sweep of the queue accounts for every retry. Those that are not due stay
    in the queue. When the sweep returns, every due retry is in the queue again,
    or its issue is running or completed, or it was given up for one of two
    reasons (the tracker reports the issue in a state that is not active, or the
    ceiling for an issue it does not report is passed) and its persisted plan is
    gone. The sweep raises only when the launch of a retried issue raises or the
    call of the tracker is cancelled; then that holds for the retries before the
    one that raised, and the ones after it keep the plan they had on their record.
    The tracker is taken to answer under the id it is asked for, and a launch to
    change the orchestrator only as the modelled one does ([LaunchLaws], which
    [LaunchFacts] proves of it). *)
Theorem no_retry_evaporates {W} (cfg : AgentConfig) (sw : Sweep W) `{!LaunchLaws sw} (w : W) (o : Orch) :
  let due := List.filter (is_due (sw_now sw)) (oc_retry_queue o) in
  let '(result, (_, o')) := process_retry_queue cfg sw (w, o) in
  (forall r, r ∈ oc_retry_queue o -> is_due (sw_now sw) r = false -> r ∈ oc_retry_queue o')
  /\ match result with
     | Ret _ => forall r, r ∈ due -> retry_settled cfg sw r o'
     | Raise e => exists done bad rest, due = done ++ bad :: rest /\ raised_by sw bad e
         /\ (forall r, r ∈ done -> retry_settled cfg sw r o')
         /\ (forall r, r ∈ rest -> rt_dedup_key r ∉ map rt_dedup_key (done ++ [bad]) ->
               has_plan (rt_dedup_key r) (oc_registry o') = has_plan (rt_dedup_key r) (oc_registry o))
     end.
Proof.
  intros due. unfold process_retry_queue. rewrite split_ready_retries_filter. fold due.
  set (o1 := set_queue _ o). destruct (process_all_spec cfg sw due w o1) as (Hq & _ & Hr).
  destruct (process_all cfg sw due (w, o1)) as [[[]|e] [w' o']]; simpl in *.
  all: split; [intros r Hin Hd; apply Hq; unfold o1; simpl; apply list_elem_of_In, filter_In;
    split; [by apply list_elem_of_In|by rewrite Hd]|].
  - exact Hr.
  - destruct Hr as (done & bad & rest & He & Hb & Hd & Hp). exists done, bad, rest.
    do 3 (split; [done|]). intros r _ Hk. by apply Hp.
Qed.

(** A sweep never takes the running sessions over the concurrency limit. *)
Theorem retries_respect_limit {W} (cfg : AgentConfig) (sw : Sweep W) `{!LaunchLaws sw} (w : W) (o : Orch) :
  Z.of_nat (length (oc_running o)) <= oc_max_concurrent o ->
  let '(_, (_, o')) := process_retry_queue cfg sw (w, o) in
  Z.of_nat (length (oc_running o')) <= oc_max_concurrent o'.
Proof.
  intros H. unfold process_retry_queue. destruct (split_ready_retries _ _) as [ready nr].
  pose proof (in_limit_process_all cfg sw ready w (set_queue nr o) H) as Hl.
  by destruct (process_all _ _ _ _) as [res [w' o']].
Qed.

(** An issue the tracker keeps failing to report is requeued exactly until
    the ceiling, with a delay that stays under the cap. *)
Theorem requeue_ceiling (limit : Z) (backoff : Q) (nows : list Q) (r : RetryItem) :
  nows <> [] ->
  match requeue_iter limit backoff nows r with
  | Some r' => rt_requeue_count r + Z.of_nat (length nows) <= limit /\
               (rt_delay_seconds r' <= backoff / 1000)%Q /\ rt_dedup_key r' = rt_dedup_key r
  | None => limit < rt_requeue_count r + Z.of_nat (length nows)
  end.
Proof.
  intros Hne. pose proof (requeue_iter_granted limit backoff nows r) as Hg.
  destruct (requeue_iter limit backoff nows r) as [r'|] eqn:E; simpl in Hg.
  - destruct (requeue_iter_delay _ _ _ _ _ E Hne) as (H1 & H2 & _).
    split; [|done]. by destruct (proj1 Hg eq_refl).
  - apply Z.nle_gt. intros H. assert (false = true) by tauto. done.
Qed.

(** C10: a scheduled retry survives a crash of the daemon: the queue rebuilt from
    the registry file holds an item for the issue with the same attempt, due
    after exactly the time that was left (at once when overdue). *)
Theorem retry_survives_restart (cfg : AgentConfig) (t0 t : Tick) (s : Session) (base : option Z)
    (o o' : Orch) (rec : IssueRecord) (interval now : Q) (cap : Z) (clock : string -> Q)
    (g : Registry) :
  0 <= attempts_of (ses_id s) o -> get (ses_id s) (oc_registry o) = Some rec ->
  issue_id rec = ses_id s -> io_ok t = true ->
  schedule_retry cfg t0 t s base o = (Ret true, o') ->
  new_registry (disk (oc_registry o')) interval = Ret g ->
  exists r r', r ∈ oc_retry_queue o' /\
  r' ∈ oc_retry_queue (recover_pending_retries now clock (restarted cap g)) /\
  rt_dedup_key r = ses_id s /\ rt_dedup_key r' = ses_id s /\ rt_attempt r' = rt_attempt r /\
  due_at r' = (clock (ses_id s) + qmax 0 (due_at r - now))%Q.
Proof.
  intros Hn Hrec Hid Hio Hs Hload.
  destruct (non_retryable (ses_end_reason s)) eqn:Er.
  { unfold schedule_retry in Hs. by rewrite Er in Hs. }
  destruct (over_limit cfg (attempts_of (ses_id s) o + 1)) eqn:El.
  { unfold over_limit, attempts_of in El. unfold schedule_retry in Hs. by rewrite Er, El in Hs. }
  rewrite schedule_retry_granted in Hs by done. injection Hs as <-. simpl in *.
  destruct (remember_run_get t0 _ (ses_run_id s) _ _ Hrec) as (r1 & Hr1 & Hid1).
  set (item := planned_item cfg t s base (attempts_of (ses_id s) o)) in *.
  unfold persist_retry_plan in Hload.
  rewrite update_disk in Hload; [|done|by rewrite Hr1].
  pose proof (reload_records _ _ _ Hload) as Hg.
  assert (Hget : get (ses_id s) g = loaded <$> get (ses_id s) (update t (ses_id s) (fun r =>
     set_intents (mkIntentInfo (intent (intents r)) (attempts_of (ses_id s) o + 1) (Some (due_at item))
       (last_command (intents r)) (intent_source (intents r)) (command_cursor (intents r))) r)
     (remember_run t0 (ses_id s) (ses_run_id s) (oc_registry o)))).
  { unfold get at 1. by rewrite Hg, dget_map. }
  rewrite update_get, decide_True, Hr1 in Hget by done. simpl in Hget.
  exists item. eexists. split; [set_solver|]. rewrite recover_pending_queue. split.
  { apply list_elem_of_fmap. eexists. split; [reflexivity|].
    eapply pending_record; [exact Hget|]. by eexists. }
  unfold recovered_item, due_at; simpl. rewrite Hid1, Hid.
  destruct (Z.eqb_spec (attempts_of (ses_id s) o + 1) 0); [lia|]. done.
Qed.

(** An operator's stop defeats a pending retry: afterwards the queue has no
    entry for the issue and its record no plan, the answer says whether there
    was anything to cancel, and the entries and plans of other issues are
    untouched. *)
Theorem cancel_defeats_retry (t : Tick) (id : string) (o : Orch) :
  let (cancelled, o') := cancel_pending_retry t id o in
  cancelled = has_entry id (oc_retry_queue o) || has_plan id (oc_registry o) /\
  has_entry id (oc_retry_queue o') = false /\ has_plan id (oc_registry o') = false /\
  (forall x, x <> id -> has_plan x (oc_registry o') = has_plan x (oc_registry o)) /\
  (forall r, rt_dedup_key r <> id -> r ∈ oc_retry_queue o' <-> r ∈ oc_retry_queue o).
Proof.
  pose proof (cancel_no_entry t id o) as He. pose proof (cancel_no_plan t id o) as Hp.
  assert (Hq : forall r, rt_dedup_key r <> id ->
            r ∈ oc_retry_queue (snd (cancel_pending_retry t id o)) <-> r ∈ oc_retry_queue o).
  { intros r Hr. unfold cancel_pending_retry.
    assert (Hf : r ∈ List.filter (fun r => negb (String.eqb (rt_dedup_key r) id)) (oc_retry_queue o)
              <-> r ∈ oc_retry_queue o).
    { rewrite !list_elem_of_In, filter_In. destruct (String.eqb_spec (rt_dedup_key r) id); tauto. }
    destruct (has_entry id (oc_retry_queue o)); simpl; by destruct (has_plan id (oc_registry o)). }
  assert (Hc : fst (cancel_pending_retry t id o) =
               has_entry id (oc_retry_queue o) || has_plan id (oc_registry o)).
  { unfold cancel_pending_retry. by destruct (has_entry id (oc_retry_queue o)). }
  destruct (cancel_pending_retry t id o) as [c o'] eqn:E. simpl in *. split; [done|].
  split; [done|]. split; [by rewrite Hp, decide_True|]. split; [|exact Hq].
  intros x Hx. rewrite Hp. by rewrite decide_False.
Qed.

(** ** Concrete instances *)

Definition demo_cfg : AgentConfig := mkAgentConfig 2 300000.

Definition failed_session : Session := mkSession "7" "I-7" (Some "run-1") None "failed".

Definition demo_orch : Orch := mkOrch 2 ["9"] [] ["7"] [] [] sample_registry.

(** A launch that always gets its session running, and one that raises. *)
Definition demo_launch (iss : Issue) : M (unit * Orch) exn unit := fun '(w, o) =>
  (Ret tt, (w, mkOrch (oc_max_concurrent o) (oc_running o ++ [iss_id iss]) (oc_completed o) (oc_claimed o)
    (oc_retry_queue o) (oc_retry_attempts o) (oc_registry o))).

Definition failing_launch (iss : Issue) : M (unit * Orch) exn unit := fun s =>
  (Raise (mkExn OtherException [] None), s).

Definition sweep_with (launch : Issue -> M (unit * Orch) exn unit) : Sweep unit :=
  mkSweep 100 (fun _ => tick 100) (fun x w => (FetchFound (mkIssue x (Some " Open ")), w)) ["open"] launch.

Definition demo_sweep : Sweep unit := sweep_with demo_launch.
Definition failing_sweep : Sweep unit := sweep_with failing_launch.

#[export] Instance demo_sweep_laws : LaunchLaws demo_sweep.
Proof.
  split; [by intros key w issue w' [= <- <-]|]. intros issue [w o]. split; simpl; try done. by right.
Qed.

#[export] Instance failing_sweep_laws : LaunchLaws failing_sweep.
Proof.
  split; [by intros key w issue w' [= <- <-]|]. intros issue [w o]. split; simpl; try done. by left.
Qed.

Definition scheduled : Orch := snd (schedule_retry demo_cfg (tick 10) (tick 10) failed_session None demo_orch).

Lemma schedule_retry_spec_witness :
  exists o', schedule_retry demo_cfg (tick 10) (tick 10) failed_session None demo_orch = (Ret true, o') /\
  oc_retry_queue o' = [planned_item demo_cfg (tick 10) failed_session None 0].
Proof.
  destruct (schedule_retry_spec demo_cfg (tick 10) (tick 10) failed_session None demo_orch)
    as (o' & H1 & H2 & _); [vm_compute; congruence|].
  exists o'. split; [exact H1|exact H2].
Defined.

Lemma retries_bounded_witness :
  let calls := repeat (tick 10, tick 10, failed_session, None) 5 in
  fst (schedule_all demo_cfg "7" calls demo_orch) = 2%nat /\
  Z.of_nat (fst (schedule_all demo_cfg "7" calls demo_orch)) <= Z.max 0 (2 - 0).
Proof.
  split; [vm_compute; reflexivity|].
  apply (retries_bounded demo_cfg "7" (repeat (tick 10, tick 10, failed_session, None) 5) demo_orch);
    [reflexivity|intros x; reflexivity || (vm_compute; congruence)].
Defined.

Lemma backoff_capped_monotone_witness :
  exists d d', compute_retry_delay 5 10000 300000 = Ret d /\
  compute_retry_delay (5 + 1) 10000 300000 = Ret d' /\ d <= d' <= 300000.
Proof.
  destruct (backoff_capped_monotone 5 10000 300000) as (d & d' & H1 & H2 & H3 & _); [lia..|].
  exists d, d'. auto.
Defined.

Lemma no_retry_evaporates_witness :
  (exists o', process_retry_queue demo_cfg demo_sweep (tt, scheduled) = (Ret tt, (tt, o'))
    /\ retry_settled demo_cfg demo_sweep (planned_item demo_cfg (tick 10) failed_session None 0) o')
  /\ exists e o', process_retry_queue demo_cfg failing_sweep (tt, scheduled) = (Raise e, (tt, o'))
    /\ raised_by failing_sweep (planned_item demo_cfg (tick 10) failed_session None 0) e.
Proof.
  split.
  - pose proof (no_retry_evaporates demo_cfg demo_sweep tt scheduled) as H.
    destruct (process_retry_queue demo_cfg demo_sweep (tt, scheduled)) as [[[]|e] [[] o']] eqn:E;
      [|vm_compute in E; discriminate E].
    exists o'. split; [done|]. apply (proj2 H). vm_compute. apply elem_of_cons. by left.
  - pose proof (no_retry_evaporates demo_cfg failing_sweep tt scheduled) as H.
    destruct (process_retry_queue demo_cfg failing_sweep (tt, scheduled)) as [[[]|e] [[] o']] eqn:E;
      [vm_compute in E; discriminate E|].
    exists e, o'. split; [done|]. destruct H as [_ (done & bad & rest & Hd & Hb & _)].
    vm_compute in Hd. destruct done as [|d [|]]; [|discriminate Hd..]. injection Hd as <- _. exact Hb.
Defined.

(** A launch that raises ends the sweep: the retry that raised and the one after
    it are in no queue any more and not running, and only their persisted plans,
    which nothing reads before the next start, are left. *)
Example raising_sweep_empties_queue :
  let both := enqueue (mkRetryItem "8" 1 0 "I-8" [] 10 0) scheduled in
  let '(result, (_, o')) := process_retry_queue demo_cfg failing_sweep (tt, both) in
  result = Raise (LaunchRaised (mkExn OtherException [] None))
  /\ map rt_dedup_key (oc_retry_queue both) = ["7"; "8"]
  /\ oc_retry_queue o' = [] /\ oc_running o' = oc_running both /\ oc_completed o' = oc_completed both
  /\ has_plan "7" (oc_registry o') = true.
Proof. vm_compute. repeat split. Qed.

Lemma retries_respect_limit_witness :
  exists o', snd (process_retry_queue demo_cfg demo_sweep (tt, scheduled)) = (tt, o')
  /\ length (oc_running o') = 2%nat /\ Z.of_nat (length (oc_running o')) <= oc_max_concurrent o'.
Proof.
  pose proof (retries_respect_limit demo_cfg demo_sweep tt scheduled ltac:(vm_compute; congruence)) as H.
  destruct (process_retry_queue demo_cfg demo_sweep (tt, scheduled)) as [res [[] o']] eqn:E.
  exists o'. split; [done|]. split; [|exact H]. vm_compute in E. injection E as _ <-. reflexivity.
Defined.

Lemma requeue_ceiling_witness :
  requeue_iter 2 300000 [1%Q; 2%Q; 3%Q] (planned_item demo_cfg (tick 0) failed_session None 0) = None /\
  2 < 0 + 3.
Proof.
  split; [vm_compute; reflexivity|].
  exact (requeue_ceiling 2 300000 [1%Q; 2%Q; 3%Q]
           (planned_item demo_cfg (tick 0) failed_session None 0) ltac:(congruence)).
Defined.

Lemma retry_survives_restart_witness :
  exists g r', new_registry (disk (oc_registry scheduled)) 0 = Ret g /\
  r' ∈ oc_retry_queue (recover_pending_retries 12 (fun _ => 12%Q) (restarted 2 g)) /\
  rt_dedup_key r' = "7".
Proof.
  destruct (new_registry (disk (oc_registry scheduled)) 0) as [g|x] eqn:E; [|vm_compute in E; congruence].
  destruct (get "7" (oc_registry demo_orch)) as [rec|] eqn:Erec; [|vm_compute in Erec; congruence].
  destruct (retry_survives_restart demo_cfg (tick 10) (tick 10) failed_session None demo_orch scheduled
              rec 0 12 2 (fun _ => 12%Q) g) as (r & r' & _ & Hin & _ & Hk & _).
  - vm_compute. congruence.
  - exact Erec.
  - vm_compute in Erec. injection Erec as <-. reflexivity.
  - reflexivity.
  - vm_compute. reflexivity.
  - exact E.
  - exists g, r'. split; [reflexivity|]. split; [exact Hin|exact Hk].
Defined.
