(* ===== verification/PeerFrame.v ===== *)
(** * Frames of the peer protocol ([src/orchestratord/peer/protocol.py])

    [PeerFrame] with its dictionary form, the optional compression of [body]
    and [payload], and the checks of [from_dict].  A JSON line stands for the
    object it encodes.  Fields the code copies from the wire unchecked keep the
    dynamic type [pyval].  [gzip], [base64] and [float] on strings are
    parameters. *)

From S2P Require Import Prelude.

Open Scope string_scope.
Open Scope list_scope.
Open Scope Z_scope.

(** [json.loads(gzip.decompress(base64.b64decode(raw)))]: a value, an error of
    the [OSError] or [ValueError] family, or another one ([EOFError],
    [zlib.error]). *)
Inductive unpacked :=
| Unpacked (v : pyval)
| Malformed
| Crashed (why : string).

(** What the peer code raises: its own authentication error, the [ValueError]
    family, and exceptions it does not foresee. *)
Inductive peer_exn :=
| PeerAuthError (why : string)
| PyValueError (why : string)
| Unforeseen (why : string).

Definition PROTOCOL_VERSION : string := "peer/1".
Definition COMPRESS_GZIP_BASE64 : string := "gzip+base64".
Definition DEFAULT_COMPRESS_MIN_BYTES : Z := 4096.

Inductive PeerFrameType :=
| HELLO | WELCOME | INVOKE | RESULT | EVENT | SUBSCRIBE | UNSUBSCRIBE | PING | PONG | REVOKE | GOODBYE.

#[export] Instance PeerFrameType_eq_dec : EqDecision PeerFrameType.
Proof. solve_decision. Defined.

Definition type_value (t : PeerFrameType) : string :=
  match t with
  | HELLO => "hello" | WELCOME => "welcome" | INVOKE => "invoke" | RESULT => "result"
  | EVENT => "event" | SUBSCRIBE => "subscribe" | UNSUBSCRIBE => "unsubscribe" | PING => "ping"
  | PONG => "pong" | REVOKE => "revoke" | GOODBYE => "goodbye"
  end.

Definition all_types : list PeerFrameType :=
  [HELLO; WELCOME; INVOKE; RESULT; EVENT; SUBSCRIBE; UNSUBSCRIBE; PING; PONG; REVOKE; GOODBYE].

(** [PeerFrameType(v)] *)
Definition type_of_value (v : string) : option PeerFrameType :=
  find (fun t => String.eqb (type_value t) v) all_types.

Record PeerFrame := mkPeerFrame {
  f_type : PeerFrameType;
  f_frame_id : string;
  f_protocol_version : string;
  f_orch_id : pyval;
  f_peer_token : pyval;
  f_request_id : pyval;
  f_msg_id : pyval;
  f_ordering : pyval;
  f_method : pyval;
  f_headers : option (dict string pyval);
  f_body : option (dict string pyval);
  f_status : pyval;
  f_topic : pyval;
  f_payload : option (dict string pyval);
  f_capabilities : list pyval;
  f_in_flight : pyval;
  f_timestamp : Q;
  f_nonce : pyval;
  f_signature : pyval;
}.

(** [data.get(k)] *)
Definition pget (k : string) (d : dict string pyval) : pyval := default PNone (dget k d).

(** [v not in (None, [], {})] *)
Definition kept (v : pyval) : bool :=
  match v with
  | PNone | PList [] | PDict [] => false
  | _ => true
  end.

Definition slot (k : string) (v : pyval) : dict string pyval := if kept v then [(k, v)] else [].

Definition dict_value (o : option (dict string pyval)) : pyval :=
  match o with Some d => PDict d | None => PNone end.

Definition dict_only (v : pyval) : option (dict string pyval) :=
  match v with PDict d => Some d | _ => None end.

Definition to_dict (f : PeerFrame) : dict string pyval :=
  [("type", PStr (type_value (f_type f))); ("frame_id", PStr (f_frame_id f));
   ("protocol_version", PStr (f_protocol_version f)); ("timestamp", PFloat (f_timestamp f))] ++
  slot "orch_id" (f_orch_id f) ++ slot "peer_token" (f_peer_token f) ++
  slot "request_id" (f_request_id f) ++ slot "msg_id" (f_msg_id f) ++
  slot "ordering" (f_ordering f) ++ slot "method" (f_method f) ++
  slot "headers" (dict_value (f_headers f)) ++ slot "status" (f_status f) ++
  slot "topic" (f_topic f) ++ slot "payload" (dict_value (f_payload f)) ++
  slot "capabilities" (PList (f_capabilities f)) ++ slot "in_flight" (f_in_flight f) ++
  slot "nonce" (f_nonce f) ++ slot "signature" (f_signature f) ++
  match f_body f with Some b => [("body", PDict b)] | None => [] end.

(** [list(v or [])] *)
Definition as_list_or_empty (v : pyval) : outcome peer_exn (list pyval) :=
  if negb (truthy v) then Ret []
  else
    match v with
    | PList l => Ret l
    | PDict d => Ret (map PStr (dkeys d))
    | PStr s => Ret (map (fun c => PStr (String c EmptyString)) (String.list_ascii_of_string s))
    | _ => Raise (Unforeseen "object is not iterable")
    end.

Section wire.
(** [len(json.dumps(v).encode())], [base64(gzip(json))] and its inverse, and
    [float] of a string. *)
Context (json_size : dict string pyval -> Z) (pack : dict string pyval -> string)
  (unpack : string -> unpacked) (float_of_str : string -> option Q).

(** One of the two compressible slots. *)
Definition compress_slot (threshold : Z) (key : string) (st : dict string pyval * bool)
    : dict string pyval * bool :=
  match pget key (fst st) with
  | PDict v =>
      if json_size v <? threshold then st else (dset key (PStr (pack v)) (fst st), true)
  | _ => st
  end.

Definition encode (threshold : Z) (f : PeerFrame) : dict string pyval :=
  let d := to_dict f in
  if 0 <? threshold then
    let (d, compressed) :=
      compress_slot threshold "payload" (compress_slot threshold "body" (d, false)) in
    if compressed then dset "comp" (PStr COMPRESS_GZIP_BASE64) d else d
  else d.

Definition float_of (v : pyval) : option Q :=
  match v with
  | PFloat q => Some q
  | PInt z => Some (inject_Z z)
  | PBool b => Some (if b then 1%Q else 0%Q)
  | PStr s => float_of_str s
  | _ => None
  end.

Definition frame_id_of (v : pyval) (fresh : string) : outcome peer_exn string :=
  match v with
  | PNone => Ret fresh
  | PStr s => if String.eqb s "" then Raise (PyValueError "frame_id must be a non-empty string") else Ret s
  | _ => Raise (PyValueError "frame_id must be a non-empty string")
  end.

(** The value of a compressible slot under a [comp] marker. *)
Definition restore_slot (v : pyval) : outcome peer_exn (option (dict string pyval)) :=
  match v with
  | PStr raw =>
      match unpack raw with
      | Unpacked (PDict d) => Ret (Some d)
      | Unpacked _ => Raise (PyValueError "must decode to an object")
      | Malformed => Raise (PyValueError "failed decompression")
      | Crashed why => Raise (Unforeseen why)
      end
  | _ => Ret (dict_only v)
  end.

Definition read_slots (data : dict string pyval)
    : outcome peer_exn (option (dict string pyval) * option (dict string pyval)) :=
  match pget "comp" data with
  | PNone => Ret (dict_only (pget "body" data), dict_only (pget "payload" data))
  | PStr c =>
      if String.eqb c COMPRESS_GZIP_BASE64 then
        body ← restore_slot (pget "body" data);
        payload ← restore_slot (pget "payload" data);
        Ret (body, payload)
      else Raise (PyValueError "unsupported frame comp")
  | _ => Raise (PyValueError "unsupported frame comp")
  end.

(** [fresh] is the frame id and [now] the time a frame gets that has none. *)
Definition from_dict (fresh : string) (now : Q) (raw : pyval) : outcome peer_exn PeerFrame :=
  match raw with
  | PDict data =>
      match pget "type" data with
      | PStr ty =>
          match type_of_value ty with
          | None => Raise (PyValueError "unknown frame type")
          | Some ftype =>
              match default (PStr PROTOCOL_VERSION) (dget "protocol_version" data) with
              | PStr version =>
                  if negb (String.eqb version PROTOCOL_VERSION)
                  then Raise (PyValueError "unsupported protocol_version")
                  else
                    match float_of (default (PFloat now) (dget "timestamp" data)) with
                    | None => Raise (PyValueError "timestamp must be a number")
                    | Some timestamp =>
                        frame_id ← frame_id_of (pget "frame_id" data) fresh;
                        slots ← read_slots data;
                        capabilities ← as_list_or_empty (pget "capabilities" data);
                        Ret (mkPeerFrame ftype frame_id version (pget "orch_id" data)
                               (pget "peer_token" data) (pget "request_id" data) (pget "msg_id" data)
                               (pget "ordering" data) (pget "method" data)
                               (dict_only (pget "headers" data)) (fst slots) (pget "status" data)
                               (pget "topic" data) (snd slots) capabilities (pget "in_flight" data)
                               timestamp (pget "nonce" data) (pget "signature" data))
                    end
              | _ => Raise (PyValueError "unsupported protocol_version")
              end
          end
      | PNone => Raise (PyValueError "frame missing type")
      | _ => Raise (PyValueError "unknown frame type")
      end
  | _ => Raise (PyValueError "frame must be a JSON object")
  end.
End wire.

(** ** Reading slots back *)

Lemma type_of_value_of_type t : type_of_value (type_value t) = Some t.
Proof. by destruct t. Qed.

(** A slot holds what reading it back gives. *)
Definition slot_ok (v : pyval) : bool := match v with PList [] | PDict [] => false | _ => true end.

Lemma pget_cons k k' v d : pget k ((k', v) :: d) = if String.eqb k k' then v else pget k d.
Proof. unfold pget; simpl. by destruct (decide (k = k')) as [->|H]; [rewrite String.eqb_refl|apply String.eqb_neq in H as ->]. Qed.

Lemma dget_slot_ne k k' v d : String.eqb k k' = false -> dget k (slot k' v ++ d) = dget k d.
Proof.
  intros H%String.eqb_neq. unfold slot. destruct (kept v); [|done]. simpl. by rewrite decide_False.
Qed.

Lemma pget_slot_ne k k' v d : String.eqb k k' = false -> pget k (slot k' v ++ d) = pget k d.
Proof. intros H. unfold pget. by rewrite dget_slot_ne. Qed.

Lemma pget_slot_eq k v d :
  slot_ok v = true -> pget k d = PNone -> pget k (slot k v ++ d) = v.
Proof.
  intros Hv Hd. unfold slot. destruct (kept v) eqn:E; simpl.
  - rewrite pget_cons. by rewrite String.eqb_refl.
  - rewrite Hd. by destruct v as [| | | | | |[]|[]|].
Qed.

Lemma pget_slot_list k l d : pget k d = PNone -> as_list_or_empty (pget k (slot k (PList l) ++ d)) = Ret l.
Proof.
  intros Hd. destruct l as [|x l]; simpl; [by rewrite Hd|].
  rewrite pget_cons. by rewrite String.eqb_refl.
Qed.

Lemma pget_dset k k' v d : pget k (dset k' v d) = if String.eqb k k' then v else pget k d.
Proof.
  unfold pget. rewrite dget_dset. destruct (decide (k' = k)) as [->|H];
    [by rewrite String.eqb_refl|]. by assert (String.eqb k k' = false) as -> by (apply String.eqb_neq; congruence).
Qed.

(** A frame whose fields survive the wire: the current version, a frame id, and
    no empty list or object in a slot that drops them. *)
Definition wire_ok (f : PeerFrame) : bool :=
  String.eqb (f_protocol_version f) PROTOCOL_VERSION && negb (String.eqb (f_frame_id f) "") &&
  forallb slot_ok [f_orch_id f; f_peer_token f; f_request_id f; f_msg_id f; f_ordering f; f_method f;
                   dict_value (f_headers f); f_status f; f_topic f; dict_value (f_payload f);
                   f_in_flight f; f_nonce f; f_signature f].

Lemma dict_only_value o : dict_only (dict_value o) = o.
Proof. by destruct o. Qed.

(** Skip the slots of other keys, then read or fall off the end. *)
Ltac read_slot :=
  unfold to_dict; simpl app; rewrite ?pget_cons; simpl String.eqb; cbv iota;
  repeat (rewrite pget_slot_ne by reflexivity);
  first [ apply pget_slot_eq; [done|]; repeat (rewrite pget_slot_ne by reflexivity)
        | apply pget_slot_list; repeat (rewrite pget_slot_ne by reflexivity)
        | idtac ];
  try (match goal with |- context [f_body ?f] => by destruct (f_body f) end).

Section roundtrip.
Context (json_size : dict string pyval -> Z) (pack : dict string pyval -> string)
  (unpack : string -> unpacked) (float_of_str : string -> option Q).
Context (f : PeerFrame).

Lemma to_dict_body : pget "body" (to_dict f) = dict_value (f_body f).
Proof. read_slot. Qed.

Lemma to_dict_comp : pget "comp" (to_dict f) = PNone.
Proof. read_slot. Qed.

Lemma to_dict_capabilities : as_list_or_empty (pget "capabilities" (to_dict f)) = Ret (f_capabilities f).
Proof. read_slot. Qed.

Lemma to_dict_payload : slot_ok (dict_value (f_payload f)) = true ->
  pget "payload" (to_dict f) = dict_value (f_payload f).
Proof. intros H. read_slot. Qed.

Lemma compress_slot_other threshold key k st :
  String.eqb k key = false ->
  dget k (fst (compress_slot json_size pack threshold key st)) = dget k (fst st).
Proof.
  intros H%String.eqb_neq. unfold compress_slot. destruct (pget key (fst st)); try done.
  destruct (_ <? _); [done|]. simpl. by rewrite dget_dset_ne by congruence.
Qed.

(** Compression touches only its two slots and the marker. *)
Lemma encode_other threshold k :
  String.eqb k "body" = false -> String.eqb k "payload" = false -> String.eqb k "comp" = false ->
  dget k (encode json_size pack threshold f) = dget k (to_dict f).
Proof.
  intros Hb Hp Hc. unfold encode. destruct (0 <? threshold); [|done].
  pose proof (compress_slot_other threshold "payload" k
                (compress_slot json_size pack threshold "body" (to_dict f, false)) Hp) as H.
  rewrite (compress_slot_other threshold "body" k _ Hb) in H.
  destruct (compress_slot _ _ _ "payload" _) as [d []]; simpl in *; [|done].
  apply String.eqb_neq in Hc. by rewrite dget_dset_ne by congruence.
Qed.

Lemma encode_other_pget threshold k :
  String.eqb k "body" = false -> String.eqb k "payload" = false -> String.eqb k "comp" = false ->
  pget k (encode json_size pack threshold f) = pget k (to_dict f).
Proof. intros. unfold pget. by rewrite encode_other. Qed.

Context (unpack_pack : forall d, f_body f = Some d \/ f_payload f = Some d ->
                         unpack (pack d) = Unpacked (PDict d)).

Lemma restore_value o : restore_slot unpack (dict_value o) = Ret o.
Proof. by destruct o. Qed.

(** A slot after its turn: unchanged, or packed with the flag raised. *)
Lemma compress_slot_cases threshold key d flag o :
  pget key d = dict_value o ->
  compress_slot json_size pack threshold key (d, flag) = (d, flag) \/
  exists v, o = Some v /\ compress_slot json_size pack threshold key (d, flag)
                          = (dset key (PStr (pack v)) d, true).
Proof.
  intros H. unfold compress_slot; simpl. rewrite H. destruct o as [v|]; simpl; [|by left].
  destruct (json_size v <? threshold); [by left|right; by eauto].
Qed.

Lemma read_slots_encode threshold :
  slot_ok (dict_value (f_payload f)) = true ->
  read_slots unpack (encode json_size pack threshold f) = Ret (f_body f, f_payload f).
Proof.
  intros Hp%to_dict_payload. pose proof to_dict_body as Hb. pose proof to_dict_comp as Hc.
  unfold encode. destruct (0 <? threshold).
  2: { unfold read_slots. rewrite Hc, Hb, Hp. by rewrite !dict_only_value. }
  destruct (compress_slot_cases threshold "body" (to_dict f) false _ Hb) as [->|(b & Eb & ->)].
  - destruct (compress_slot_cases threshold "payload" (to_dict f) false _ Hp) as [->|(p & Ep & ->)].
    + unfold read_slots. rewrite Hc, Hb, Hp. by rewrite !dict_only_value.
    + unfold read_slots. rewrite !pget_dset, Hb, Ep. simpl. rewrite restore_value, unpack_pack by auto. done.
  - assert (Hp' : pget "payload" (dset "body" (PStr (pack b)) (to_dict f)) = dict_value (f_payload f)).
    { by rewrite pget_dset. }
    destruct (compress_slot_cases threshold "payload" _ true _ Hp') as [->|(p & Ep & ->)];
      unfold read_slots; rewrite !pget_dset; simpl; rewrite ?Hp, Eb, ?Ep; simpl;
      rewrite ?unpack_pack by auto; simpl; by rewrite ?restore_value.
Qed.
End roundtrip.

(** The plain slots, all at once. *)
Lemma to_dict_slots (f : PeerFrame) :
  wire_ok f = true ->
  pget "orch_id" (to_dict f) = f_orch_id f /\ pget "peer_token" (to_dict f) = f_peer_token f /\
  pget "request_id" (to_dict f) = f_request_id f /\ pget "msg_id" (to_dict f) = f_msg_id f /\
  pget "ordering" (to_dict f) = f_ordering f /\ pget "method" (to_dict f) = f_method f /\
  pget "headers" (to_dict f) = dict_value (f_headers f) /\ pget "status" (to_dict f) = f_status f /\
  pget "topic" (to_dict f) = f_topic f /\ pget "in_flight" (to_dict f) = f_in_flight f /\
  pget "nonce" (to_dict f) = f_nonce f /\ pget "signature" (to_dict f) = f_signature f.
Proof.
  unfold wire_ok; simpl. intros Hok.
  repeat match goal with
  | H : _ && _ = true |- _ => apply andb_prop in H; destruct H
  end.
  repeat (split; [read_slot|]). read_slot.
Qed.

Lemma wire_ok_head (f : PeerFrame) :
  wire_ok f = true ->
  f_protocol_version f = PROTOCOL_VERSION /\ String.eqb (f_frame_id f) "" = false /\
  slot_ok (dict_value (f_payload f)) = true.
Proof.
  unfold wire_ok; simpl. intros Hok.
  repeat match goal with
  | H : _ && _ = true |- _ => apply andb_prop in H; destruct H
  end.
  split; [by apply String.eqb_eq|]. by rewrite <- negb_true_iff.
Qed.

(** ** Theorems *)

(** A frame survives the wire, compressed or not: decoding what [encode]
    writes gives the frame back, at every compression threshold. *)
Theorem frame_roundtrip (json_size : dict string pyval -> Z) (pack : dict string pyval -> string)
    (unpack : string -> unpacked) (float_of_str : string -> option Q) (f : PeerFrame)
    (threshold : Z) (fresh : string) (now : Q) :
  (forall d, f_body f = Some d \/ f_payload f = Some d -> unpack (pack d) = Unpacked (PDict d)) ->
  wire_ok f = true ->
  from_dict unpack float_of_str fresh now (PDict (encode json_size pack threshold f)) = Ret f.
Proof.
  intros Hup Hok. destruct (wire_ok_head f Hok) as (Hv & Hid & Hp).
  destruct (to_dict_slots f Hok) as (E1 & E2 & E3 & E4 & E5 & E6 & E7 & E8 & E9 & E10 & E11 & E12).
  unfold from_dict. rewrite (read_slots_encode json_size pack unpack f Hup) by done.
  rewrite !(encode_other json_size pack f), !(encode_other_pget json_size pack f) by reflexivity.
  assert (Ety : pget "type" (to_dict f) = PStr (type_value (f_type f))) by reflexivity.
  assert (Efid : pget "frame_id" (to_dict f) = PStr (f_frame_id f)) by reflexivity.
  rewrite Ety, Efid, type_of_value_of_type, to_dict_capabilities. simpl dget. cbn [default].
  rewrite E1, E2, E3, E4, E5, E6, E7, E8, E9, E10, E11, E12, Hv, dict_only_value.
  simpl. rewrite Hid. simpl. rewrite <- Hv. by destruct f.
Qed.

Definition demo_frame : PeerFrame :=
  mkPeerFrame INVOKE "f-1" PROTOCOL_VERSION (PStr "orch-a") PNone (PStr "r1") (PStr "m1") PNone
    (PStr "session.send") None (Some [("text", PStr "hi")]) PNone PNone None [PStr "chat"] PNone 7
    (PStr "n1") PNone.

(** A toy packing of objects with one text. *)
Definition demo_pack (d : dict string pyval) : string :=
  match d with [(_, PStr s)] => s | _ => "" end.
Definition demo_unpack (s : string) : unpacked := Unpacked (PDict [("text", PStr s)]).

Lemma frame_roundtrip_witness :
  pget "comp" (encode (fun _ => 9000) demo_pack 4096 demo_frame) = PStr "gzip+base64" /\
  from_dict demo_unpack (fun _ => None) "x" 0 (PDict (encode (fun _ => 9000) demo_pack 4096 demo_frame))
  = Ret demo_frame.
Proof.
  split; [vm_compute; reflexivity|].
  apply (frame_roundtrip (fun _ => 9000) demo_pack demo_unpack (fun _ => None) demo_frame 4096 "x" 0);
    [|reflexivity].
  intros d [[= <-]|H]; [reflexivity|discriminate H].
Defined.
