(* ===== verification/PeerAuth.v ===== *)
(** * Peer authentication ([src/orchestratord/peer/hmac_sig.py], [nonce_store.py])

    Signing and verifying frames, and the SQLite nonce store as the table it
    keeps.  HMAC-SHA256, the canonical JSON text, the formatting of a timestamp
    and what SQLite stores for a nonce are parameters.  [verify] reads two
    clocks: its own and the store's.  The Redis variant of the store is not
    modelled. *)

From Stdlib Require Import Qabs.
From S2P Require Import Prelude PeerFrame.

Open Scope string_scope.
Open Scope list_scope.
Open Scope Z_scope.

Definition TIMESTAMP_WINDOW_SECONDS : Q := 60.
Definition DEFAULT_NONCE_TTL_SECONDS : Q := 120.

(** ** The nonce store *)

(** Rows [(orch_id, nonce) -> expires_at] with a primary key. *)
Abbreviation NonceStore := (dict (string * string) Q).

(** [INSERT OR REPLACE] unless a live row exists. *)
Definition check_and_store (orch_id nonce : string) (ttl now : Q) (store : NonceStore) : bool * NonceStore :=
  match dget (orch_id, nonce) store with
  | Some expires_at =>
      if qlt now expires_at then (false, store)
      else (true, dset (orch_id, nonce) (now + ttl)%Q store)
  | None => (true, dset (orch_id, nonce) (now + ttl)%Q store)
  end.

(** [DELETE ... WHERE expires_at <= now]; the number of rows removed. *)
Definition prune (now : Q) (store : NonceStore) : nat * NonceStore :=
  let live := List.filter (fun row => qlt now (snd row)) store in
  ((length store - length live)%nat, live).

(** ** Signing and verifying *)

Definition SEP : string := String (Ascii.ascii_of_N 31) EmptyString.

Definition is_ascii (s : string) : bool :=
  forallb (fun c => (N.ltb (Ascii.N_of_ascii c) 128)) (String.list_ascii_of_string s).

Definition set_nonce (n : pyval) (f : PeerFrame) : PeerFrame :=
  mkPeerFrame (f_type f) (f_frame_id f) (f_protocol_version f) (f_orch_id f) (f_peer_token f)
    (f_request_id f) (f_msg_id f) (f_ordering f) (f_method f) (f_headers f) (f_body f) (f_status f)
    (f_topic f) (f_payload f) (f_capabilities f) (f_in_flight f) (f_timestamp f) n (f_signature f).

Definition set_signature (s : pyval) (f : PeerFrame) : PeerFrame :=
  mkPeerFrame (f_type f) (f_frame_id f) (f_protocol_version f) (f_orch_id f) (f_peer_token f)
    (f_request_id f) (f_msg_id f) (f_ordering f) (f_method f) (f_headers f) (f_body f) (f_status f)
    (f_topic f) (f_payload f) (f_capabilities f) (f_in_flight f) (f_timestamp f) (f_nonce f) s.

Section auth.
Context (mac : string -> string -> string) (canonical : dict string pyval -> string)
  (fmt6 : Q -> string) (nonce_text : pyval -> option string).

Definition canonical_bytes (body : option (dict string pyval)) : string :=
  match body with None => "" | Some d => canonical d end.

(** [(orch_id or "").encode()] *)
Definition id_text (v : pyval) : outcome peer_exn string :=
  if truthy v then
    match v with
    | PStr s => Ret s
    | _ => Raise (Unforeseen "object has no attribute 'encode'")
    end
  else Ret "".

Definition join_payload (orch_id frame_id body ts : string) : string :=
  (orch_id ++ SEP ++ frame_id ++ SEP ++ body ++ SEP ++ ts)%string.

Definition signature_payload (f : PeerFrame) : outcome peer_exn string :=
  orch ← id_text (f_orch_id f);
  Ret (join_payload orch (f_frame_id f) (canonical_bytes (f_body f)) (fmt6 (f_timestamp f))).

(** [fresh] is the random nonce of an unmarked frame. *)
Definition sign (f : PeerFrame) (token fresh : string) : outcome peer_exn PeerFrame :=
  if negb (truthy (f_orch_id f)) then Raise (PeerAuthError "cannot sign frame without orch_id")
  else if String.eqb (f_frame_id f) "" then Raise (PeerAuthError "cannot sign frame without frame_id")
  else
    let f := match f_nonce f with PNone => set_nonce (PStr fresh) f | _ => f end in
    payload ← signature_payload f;
    Ret (set_signature (PStr (mac token payload)) f).

Definition is_none (v : pyval) : bool := match v with PNone => true | _ => false end.

Definition nonce_ttl (window : Q) : Q := qmax DEFAULT_NONCE_TTL_SECONDS (2 * window)%Q.

(** [abs(now - timestamp) > window] *)
Definition stale (now timestamp window : Q) : bool := qlt window (Qabs (now - timestamp)).

(** [hmac.compare_digest] on two strings: ASCII only. *)
Definition compare_digest (expected : string) (sig : pyval) : outcome peer_exn bool :=
  match sig with
  | PStr s => if is_ascii expected && is_ascii s then Ret (String.eqb expected s)
              else Raise (Unforeseen "comparing strings with non-ASCII characters")
  | _ => Raise (Unforeseen "unsupported operand types")
  end.

(** Everything [verify] checks before it asks the store. *)
Definition verify_frame (f : PeerFrame) (token : string) (now window : Q) : outcome peer_exn unit :=
  if negb (truthy (f_orch_id f)) then Raise (PeerAuthError "frame missing orch_id")
  else if String.eqb (f_frame_id f) "" then Raise (PeerAuthError "frame missing frame_id")
  else if is_none (f_signature f) then Raise (PeerAuthError "frame missing signature")
  else if is_none (f_nonce f) then Raise (PeerAuthError "frame missing nonce")
  else if stale now (f_timestamp f) window then Raise (PeerAuthError "timestamp outside window")
  else
    payload ← signature_payload f;
    same ← compare_digest (mac token payload) (f_signature f);
    if (same : bool) then Ret tt else Raise (PeerAuthError "signature mismatch").

(** [now] is the time [verify] reads, [store_now] the time the store reads. *)
Definition verify (f : PeerFrame) (token : string) (now store_now window : Q) (store : NonceStore)
    : outcome peer_exn unit * NonceStore :=
  match verify_frame f token now window with
  | Raise x => (Raise x, store)
  | Ret _ =>
      match id_text (f_orch_id f), nonce_text (f_nonce f) with
      | Ret orch, Some nonce =>
          match check_and_store orch nonce (nonce_ttl window) store_now store with
          | (true, store') => (Ret tt, store')
          | (false, store') => (Raise (PeerAuthError "nonce replay detected"), store')
          end
      | Raise x, _ => (Raise x, store)
      | _, None => (Raise (Unforeseen "error binding parameter"), store)
      end
  end.

(** What else happens to the store between two verifications. *)
Inductive store_op :=
| OpVerify (f : PeerFrame) (token : string) (now store_now window : Q)
| OpPrune (now : Q).

Definition op_time (op : store_op) : Q :=
  match op with OpVerify _ _ _ t _ => t | OpPrune t => t end.

Definition run_op (store : NonceStore) (op : store_op) : NonceStore :=
  match op with
  | OpVerify f token now store_now window => snd (verify f token now store_now window store)
  | OpPrune now => snd (prune now store)
  end.
End auth.

(** ** The store *)

(** A row that is live at every time up to [t] stays, with its expiry. *)
Definition row_live (key : string * string) (e t : Q) (store : NonceStore) : Prop :=
  dget key store = Some e /\ (t < e)%Q.

Lemma dget_filter_live {V} (p : (string * string) * V -> bool) key v (d : dict (string * string) V) :
  dget key d = Some v -> p (key, v) = true -> dget key (List.filter p d) = Some v.
Proof.
  intros Hd Hp. induction d as [|[k' v'] d IH]; simpl in *; [done|].
  destruct (decide (key = k')) as [->|Hne].
  - injection Hd as ->. rewrite Hp. simpl. by rewrite decide_True.
  - destruct (p (k', v')); simpl; [rewrite decide_False by done|]; by apply IH.
Qed.

Lemma check_and_store_live orch nonce ttl now store key e t :
  row_live key e t store -> (now <= t)%Q ->
  row_live key e t (snd (check_and_store orch nonce ttl now store)).
Proof.
  intros [Hg Ht] Hn. split; [|done]. unfold check_and_store.
  destruct (dget (orch, nonce) store) as [e'|] eqn:E.
  - destruct (qlt now e') eqn:El; [done|]. simpl.
    destruct (decide ((orch, nonce) = key)) as [<-|Hne]; [|by rewrite dget_dset_ne].
    qsimp. simplify_eq. lra.
  - simpl. rewrite dget_dset_ne; [done|]. intros <-. congruence.
Qed.

Section auth_facts.
Context (mac : string -> string -> string) (canonical : dict string pyval -> string)
  (fmt6 : Q -> string) (nonce_text : pyval -> option string).

Lemma verify_store f token now snow window store key e t :
  row_live key e t store -> (snow <= t)%Q ->
  row_live key e t (snd (verify mac canonical fmt6 nonce_text f token now snow window store)).
Proof.
  intros Hr Ht. unfold verify. destruct (verify_frame _ _ _ _ _ _ _); [|done].
  destruct (id_text (f_orch_id f)) as [orch|], (nonce_text (f_nonce f)) as [nonce|]; try done.
  pose proof (check_and_store_live orch nonce (nonce_ttl window) snow store key e t Hr Ht) as H.
  by destruct (check_and_store _ _ _ _ _) as [[] store'].
Qed.

Lemma run_ops_live ops store key e t :
  row_live key e t store -> Forall (fun op => (op_time op <= t)%Q) ops ->
  row_live key e t (fold_left (run_op mac canonical fmt6 nonce_text) ops store).
Proof.
  intros Hr Hops. revert store Hr. induction Hops as [|op ops Ht _ IH]; intros store Hr; simpl; [done|].
  apply IH. destruct op as [f token now snow window|now]; simpl in *; [by apply verify_store|].
  destruct Hr as [Hg Hlt]. split; [|done]. apply dget_filter_live; [done|]. simpl. qsimp. lra.
Qed.

(** An accepted frame leaves its row behind. *)
Lemma verify_accepted f token now snow window store store' :
  verify mac canonical fmt6 nonce_text f token now snow window store = (Ret tt, store') ->
  verify_frame mac canonical fmt6 f token now window = Ret tt /\
  exists orch nonce, id_text (f_orch_id f) = Ret orch /\ nonce_text (f_nonce f) = Some nonce /\
  dget (orch, nonce) store' = Some (snow + nonce_ttl window)%Q.
Proof.
  unfold verify. destruct (verify_frame _ _ _ f _ _ _) as [[]|] eqn:Ev; [|done].
  destruct (id_text (f_orch_id f)) as [orch|], (nonce_text (f_nonce f)) as [nonce|]; try done.
  unfold check_and_store. destruct (dget (orch, nonce) store) as [e|] eqn:E.
  - destruct (qlt snow e); [done|]. intros [= <-]. split; [done|]. exists orch, nonce.
    by rewrite dget_dset_eq.
  - intros [= <-]. split; [done|]. exists orch, nonce. by rewrite dget_dset_eq.
Qed.

Lemma verify_frame_facts f token now window :
  verify_frame mac canonical fmt6 f token now window = Ret tt ->
  exists orch, f_orch_id f = PStr orch /\ (Qabs (now - f_timestamp f) <= window)%Q /\
  f_signature f = PStr (mac token (join_payload orch (f_frame_id f)
                          (canonical_bytes canonical (f_body f)) (fmt6 (f_timestamp f)))).
Proof.
  unfold verify_frame. destruct (truthy (f_orch_id f)) eqn:Et; simpl; [|done].
  destruct (String.eqb (f_frame_id f) ""); [done|]. destruct (is_none (f_signature f)); [done|].
  destruct (is_none (f_nonce f)); [done|]. destruct (stale _ _ _) eqn:Es; [done|].
  unfold stale in Es. qsimp. unfold signature_payload, id_text. rewrite Et.
  destruct (f_orch_id f) as [| | | |orch| | | |]; simpl; try done.
  unfold compare_digest. destruct (f_signature f) as [| | | |s| | | |]; simpl; try done.
  destruct (_ && _); simpl; [|done]. destruct (String.eqb_spec (mac token (join_payload orch (f_frame_id f)
    (canonical_bytes canonical (f_body f)) (fmt6 (f_timestamp f)))) s) as [<-|]; [|done].
  intros _. by exists orch.
Qed.
End auth_facts.

(** ** The signed text *)

(** No separator inside a component. *)
Fixpoint no_sep (s : string) : bool :=
  match s with
  | EmptyString => true
  | String c s' => negb (Ascii.eqb c (Ascii.ascii_of_N 31)) && no_sep s'
  end.

Lemma split_sep a b a' b' :
  no_sep a = true -> no_sep a' = true ->
  (a ++ SEP ++ b)%string = (a' ++ SEP ++ b')%string -> a = a' /\ b = b'.
Proof.
  revert a'. induction a as [|c a IH]; intros [|c' a']; simpl; intros Ha Ha' H.
  - by injection H.
  - injection H as <- _. by apply andb_prop in Ha' as [? _].
  - injection H as -> _. by apply andb_prop in Ha as [? _].
  - injection H as -> H. apply andb_prop in Ha as [_ Ha], Ha' as [_ Ha'].
    destruct (IH a' Ha Ha' H) as [-> ->]. done.
Qed.

Lemma join_payload_inj o i b t o' i' b' t' :
  forallb no_sep [o; i; b; o'; i'; b'] = true ->
  join_payload o i b t = join_payload o' i' b' t' -> o = o' /\ i = i' /\ b = b' /\ t = t'.
Proof.
  simpl. intros Hs. repeat (apply andb_prop in Hs as [? Hs]). unfold join_payload. intros Heq.
  apply split_sep in Heq as [-> Heq]; [|done..]. apply split_sep in Heq as [-> Heq]; [|done..].
  by apply split_sep in Heq as [-> ->].
Qed.

(** ** Theorems *)

Section auth_theorems.
Context (mac : string -> string -> string) (canonical : dict string pyval -> string)
  (fmt6 : Q -> string) (nonce_text : pyval -> option string).

(** C32: once a frame was accepted, no frame with its sender and nonce is accepted
    again until the nonce's time to live is over, whatever the frames verified
    and the prunes in between. *)
Theorem replay_rejected (f g : PeerFrame) (token token' : string) (now snow window now' snow' window' : Q)
    (ops : list store_op) (store store' : NonceStore) :
  verify mac canonical fmt6 nonce_text f token now snow window store = (Ret tt, store') ->
  f_orch_id g = f_orch_id f -> f_nonce g = f_nonce f ->
  Forall (fun op => (op_time op <= snow')%Q) ops -> (snow' < snow + nonce_ttl window)%Q ->
  exists x, fst (verify mac canonical fmt6 nonce_text g token' now' snow' window'
                   (fold_left (run_op mac canonical fmt6 nonce_text) ops store')) = Raise x.
Proof.
  intros Hv Ho Hn Hops Ht. apply verify_accepted in Hv as (_ & orch & nonce & Eo & En & Hg).
  assert (Hl : row_live (orch, nonce) (snow + nonce_ttl window) snow' store') by done.
  apply (run_ops_live mac canonical fmt6 nonce_text ops) in Hl as [Hg' _]; [|done].
  unfold verify. destruct (verify_frame _ _ _ g _ _ _) as [u|x]; [|by eexists].
  rewrite Ho, Hn, Eo, En. unfold check_and_store. rewrite Hg'.
  assert (qlt snow' (snow + nonce_ttl window) = true) as -> by (by apply qlt_true). by eexists.
Qed.

(** Two accepted frames with the same signature agree on everything the
    signature covers, when the MAC has no collision and no component contains
    the separator. *)
Theorem signature_binds_content (f g : PeerFrame) (token : string) (now now' window window' : Q) :
  (forall p q, mac token p = mac token q -> p = q) ->
  verify_frame mac canonical fmt6 f token now window = Ret tt ->
  verify_frame mac canonical fmt6 g token now' window' = Ret tt ->
  f_signature f = f_signature g ->
  (forall o o', f_orch_id f = PStr o -> f_orch_id g = PStr o' ->
     forallb no_sep [o; f_frame_id f; canonical_bytes canonical (f_body f);
                     o'; f_frame_id g; canonical_bytes canonical (f_body g)] = true) ->
  f_orch_id f = f_orch_id g /\ f_frame_id f = f_frame_id g /\
  canonical_bytes canonical (f_body f) = canonical_bytes canonical (f_body g) /\
  fmt6 (f_timestamp f) = fmt6 (f_timestamp g).
Proof.
  intros Hinj Hf Hg Hs Hsep. apply verify_frame_facts in Hf as (o & Eo & _ & Sf).
  apply verify_frame_facts in Hg as (o' & Eo' & _ & Sg). rewrite Sf, Sg in Hs. injection Hs as Hs.
  apply Hinj, join_payload_inj in Hs as (-> & H1 & H2 & H3); [|by apply Hsep].
  by rewrite Eo, Eo'.
Qed.

(** A frame signed with the shared token is accepted when it arrives in time
    and its nonce is new. *)
Theorem signed_frame_accepted (f f' : PeerFrame) (token fresh orch nonce : string)
    (now snow window : Q) (store : NonceStore) :
  (forall k p, is_ascii (mac k p) = true) ->
  sign mac canonical fmt6 f token fresh = Ret f' -> f_orch_id f' = PStr orch ->
  nonce_text (f_nonce f') = Some nonce -> dget (orch, nonce) store = None ->
  (Qabs (now - f_timestamp f') <= window)%Q ->
  fst (verify mac canonical fmt6 nonce_text f' token now snow window store) = Ret tt.
Proof.
  intros Ha Hs Ho Hn Hg Ht. unfold sign in Hs.
  destruct (truthy (f_orch_id f)) eqn:Et; [|done]. destruct (String.eqb (f_frame_id f) "") eqn:Ef; [done|].
  cbn [negb] in Hs. set (f1 := match f_nonce f with PNone => set_nonce (PStr fresh) f | _ => f end) in Hs.
  assert (E1 : f_orch_id f1 = f_orch_id f /\ f_frame_id f1 = f_frame_id f /\ is_none (f_nonce f1) = false).
  { unfold f1. destruct (f_nonce f) eqn:E; simpl; rewrite ?E; done. }
  destruct E1 as (Eo & Ei & En). clearbody f1.
  destruct (signature_payload canonical fmt6 f1) as [payload|] eqn:Ep; [|done]. simpl in Hs. injection Hs as <-.
  simpl in *. unfold verify, verify_frame. simpl. rewrite Eo, Et, Ei, Ef, En. simpl.
  assert (stale now (f_timestamp f1) window = false) as -> by (unfold stale; by apply qlt_false).
  change (signature_payload canonical fmt6 (set_signature (PStr (mac token payload)) f1))
    with (signature_payload canonical fmt6 f1). rewrite Ep. simpl.
  rewrite !Ha, String.eqb_refl. simpl. rewrite <- Eo, Ho in *. rewrite Hn.
  unfold id_text. rewrite Et. unfold check_and_store. by rewrite Hg.
Qed.

(** The nonce is not covered by the signature, so the replay guard can be
    passed: whatever is accepted once is accepted again, at any time inside the
    window, with its nonce exchanged for any unseen one. *)
Theorem nonce_not_authenticated (f : PeerFrame) (token orch nonce : string) (now now' snow' window : Q)
    (store : NonceStore) :
  verify_frame mac canonical fmt6 f token now window = Ret tt -> f_orch_id f = PStr orch ->
  (Qabs (now' - f_timestamp f) <= window)%Q ->
  nonce_text (PStr nonce) = Some nonce -> dget (orch, nonce) store = None ->
  fst (verify mac canonical fmt6 nonce_text (set_nonce (PStr nonce) f) token now' snow' window store) = Ret tt.
Proof.
  intros Hv Ho Ht Hn Hg. unfold verify_frame in Hv.
  destruct (truthy (f_orch_id f)) eqn:Et; simpl in Hv; [|done].
  destruct (String.eqb (f_frame_id f) "") eqn:Ef; [done|]. destruct (is_none (f_signature f)) eqn:Es; [done|].
  destruct (is_none (f_nonce f)); [done|]. destruct (stale now _ _); [done|].
  unfold verify, verify_frame. simpl. rewrite Et, Ef, Es. simpl.
  assert (stale now' (f_timestamp f) window = false) as -> by (unfold stale; by apply qlt_false).
  change (signature_payload canonical fmt6 (set_nonce (PStr nonce) f)) with (signature_payload canonical fmt6 f).
  rewrite Hv. unfold id_text. rewrite Et, Ho, Hn. unfold check_and_store. by rewrite Hg.
Qed.
End auth_theorems.

(** ** Concrete instances *)

(** A MAC without collisions, and one whose digests are always ASCII. *)
Definition demo_mac (key text : string) : string := text.
Definition demo_digest (key text : string) : string := "d1".
Definition demo_canonical (d : dict string pyval) : string := "{}".
Definition demo_fmt (q : Q) : string := "7.000000".
Definition demo_nonce_text (v : pyval) : option string := match v with PStr s => Some s | _ => None end.

Definition signed_frame : PeerFrame :=
  match sign demo_mac demo_canonical demo_fmt demo_frame "t" "n0" with Ret f => f | Raise _ => demo_frame end.

Definition demo_verify (f : PeerFrame) (now : Q) (store : NonceStore) : outcome peer_exn unit * NonceStore :=
  verify demo_mac demo_canonical demo_fmt demo_nonce_text f "t" now now 60 store.

Lemma replay_rejected_witness :
  fst (demo_verify signed_frame 7 []) = Ret tt /\
  exists x, fst (demo_verify signed_frame 60 (snd (demo_verify signed_frame 7 []))) = Raise x.
Proof.
  split; [vm_compute; reflexivity|].
  apply (replay_rejected demo_mac demo_canonical demo_fmt demo_nonce_text signed_frame signed_frame
           "t" "t" 7 7 60 60 60 60 [] [] (snd (demo_verify signed_frame 7 [])));
    [vm_compute; reflexivity|reflexivity|reflexivity|constructor|vm_compute; reflexivity].
Defined.

Lemma signature_binds_content_witness :
  f_frame_id signed_frame = f_frame_id (set_nonce (PStr "n2") signed_frame).
Proof.
  apply (signature_binds_content demo_mac demo_canonical demo_fmt signed_frame
           (set_nonce (PStr "n2") signed_frame) "t" 7 7 60 60);
    [intros p q H; exact H|vm_compute; reflexivity|vm_compute; reflexivity|reflexivity|].
  intros o o' Ho Ho'. vm_compute in Ho, Ho'. injection Ho as <-. injection Ho' as <-. reflexivity.
Defined.

Lemma signed_frame_accepted_witness :
  exists f', sign demo_digest demo_canonical demo_fmt demo_frame "t" "n0" = Ret f' /\
  fst (verify demo_digest demo_canonical demo_fmt demo_nonce_text f' "t" 7 7 60 []) = Ret tt.
Proof.
  eexists. split; [reflexivity|].
  apply (signed_frame_accepted demo_digest demo_canonical demo_fmt demo_nonce_text demo_frame _ "t" "n0"
           "orch-a" "n1" 7 7 60 []);
    [intros; reflexivity|reflexivity|reflexivity|reflexivity|reflexivity|vm_compute; congruence].
Defined.

Lemma nonce_not_authenticated_witness :
  fst (demo_verify (set_nonce (PStr "n2") signed_frame) 60 (snd (demo_verify signed_frame 7 []))) = Ret tt.
Proof.
  apply (nonce_not_authenticated demo_mac demo_canonical demo_fmt demo_nonce_text signed_frame "t" "orch-a"
           "n2" 7 60 60 60);
    [vm_compute; reflexivity|reflexivity|vm_compute; congruence|reflexivity|vm_compute; reflexivity].
Defined.
