(* ===== verification/PeerDispatch.v ===== *)
(** * Inbound peer messages ([src/orchestratord/peer/dispatcher.py])

    [PeerMessageDispatcher]: deduplication by message id, the per-session order
    check and the ceiling on auto-scheduled turns.  [dispatch_message] awaits
    the caller's [execute], so deliveries interleave: the dispatcher is a
    transition system whose steps are the stretches of code between awaits.
    The clock, what [execute] answers and when a turn ends are the data of the
    labels; the configuration is a constant of a run. *)

From S2P Require Import Prelude.

Open Scope string_scope.
Open Scope list_scope.
Open Scope Z_scope.

(** The part of [PeerConfig] the dispatcher reads. *)
Record PeerConfig := mkPeerConfig {
  pc_auto_schedule : bool;
  pc_max_concurrent_peer_turns : Z;
  pc_dedup_window_seconds : Q;
  pc_has_scheduler : bool;
}.

(** The [ordering] argument after [int(...)]. *)
Inductive ordering_arg :=
| Unordered
| Sequence (seq : Z)
| NotAnInteger.

Abbreviation mkey := (string * string)%type.

(** A dispatch suspended in [execute]. *)
Record Pending := mkPending {
  pe_key : mkey;
  pe_out_of_order : bool;
}.

Record DispatchOutcome := mkDispatchOutcome {
  do_duplicate : bool;
  do_out_of_order : bool;
  do_scheduled : bool;
}.

Inductive devent :=
| Executing (key : mkey)
| Answered (key : mkey) (o : DispatchOutcome).

Record Dispatcher := mkDispatcher {
  d_results : dict mkey (pyval * Q);
  d_ordering : dict mkey Z;
  d_active_turns : Z;
  d_live_turns : nat;
  d_pending : list Pending;
  d_log : list devent;
}.

Definition new_dispatcher : Dispatcher := mkDispatcher [] [] 0 0 [] [].

Definition set_results (r : dict mkey (pyval * Q)) (d : Dispatcher) : Dispatcher :=
  mkDispatcher r (d_ordering d) (d_active_turns d) (d_live_turns d) (d_pending d) (d_log d).
Definition set_ordering (o : dict mkey Z) (d : Dispatcher) : Dispatcher :=
  mkDispatcher (d_results d) o (d_active_turns d) (d_live_turns d) (d_pending d) (d_log d).
Definition set_pending (p : list Pending) (d : Dispatcher) : Dispatcher :=
  mkDispatcher (d_results d) (d_ordering d) (d_active_turns d) (d_live_turns d) p (d_log d).
Definition log_event (e : devent) (d : Dispatcher) : Dispatcher :=
  mkDispatcher (d_results d) (d_ordering d) (d_active_turns d) (d_live_turns d) (d_pending d)
    (e :: d_log d).

(** [None] is a miss; an expired entry is dropped. *)
Definition cached_result (now : Q) (key : mkey) (d : Dispatcher) : pyval * Dispatcher :=
  match dget key (d_results d) with
  | None => (PNone, d)
  | Some (result, expires_at) =>
      if qle expires_at now then (PNone, set_results (ddel key (d_results d)) d) else (result, d)
  end.

(** Delete what has expired by [now]. *)
Definition prune_results (now : Q) (r : dict mkey (pyval * Q)) : dict mkey (pyval * Q) :=
  List.filter (fun kv => negb (qle (snd (snd kv)) now)) r.

Section dispatcher.
Context (cfg : PeerConfig).

Definition remember_result (now : Q) (key : mkey) (result : pyval) (d : Dispatcher) : Dispatcher :=
  set_results (prune_results now (dset key (result, (now + pc_dedup_window_seconds cfg)%Q) (d_results d))) d.

(** [True] when the sequence number continues the session's chain. *)
Definition check_ordering (orch_id session_id : string) (ordering : ordering_arg) (d : Dispatcher)
    : bool * Dispatcher :=
  match ordering with
  | Unordered => (true, d)
  | NotAnInteger => (false, d)
  | Sequence seq =>
      let key := (orch_id, session_id) in
      match dget key (d_ordering d) with
      | Some last =>
          if negb (seq =? last + 1) then (false, set_ordering (dset key (Z.max seq last) (d_ordering d)) d)
          else (true, set_ordering (dset key seq (d_ordering d)) d)
      | None => (true, set_ordering (dset key seq (d_ordering d)) d)
      end
  end.

(** [_schedule_turn] *)
Definition schedule_turn (d : Dispatcher) : bool * Dispatcher :=
  if Z.max 1 (pc_max_concurrent_peer_turns cfg) <=? d_active_turns d then (false, d)
  else (true, mkDispatcher (d_results d) (d_ordering d) (d_active_turns d + 1) (S (d_live_turns d))
                (d_pending d) (d_log d)).

Definition is_none (v : pyval) : bool := match v with PNone => true | _ => false end.

(** [dispatch_message] up to the [await] of [execute]. *)
Definition deliver (now : Q) (orch_id msg_id : string) (session_id : option string)
    (ordering : ordering_arg) (precomputed : option bool) (d : Dispatcher) : Dispatcher :=
  let key := (orch_id, msg_id) in
  let (hit, d) := cached_result now key d in
  if negb (is_none hit) then log_event (Answered key (mkDispatchOutcome true false false)) d
  else
    let (out_of_order, d) :=
      match precomputed, session_id with
      | Some b, _ => (b, d)
      | None, None => (false, d)
      | None, Some sid => let (ok, d) := check_ordering orch_id sid ordering d in (negb ok, d)
      end in
    log_event (Executing key) (set_pending (d_pending d ++ [mkPending key out_of_order]) d).

(** The rest of it, once [execute] answered [result]. *)
Definition finish (now : Q) (p : Pending) (result : pyval) (d : Dispatcher) : Dispatcher :=
  let d := remember_result now (pe_key p) result d in
  let (scheduled, d) :=
    if pc_auto_schedule cfg && pc_has_scheduler cfg then schedule_turn d else (false, d) in
  log_event (Answered (pe_key p) (mkDispatchOutcome false (pe_out_of_order p) scheduled)) d.

Inductive dlabel :=
| DDeliver (now : Q) (orch_id msg_id : string) (session_id : option string) (ordering : ordering_arg)
    (precomputed : option bool)
| DReturn (i : nat) (now : Q) (result : pyval)   (* [execute] answers *)
| DRaise (i : nat)                               (* [execute] raises *)
| DTurnEnd.                                      (* a scheduled turn is done *)

Definition dstep (l : dlabel) (d : Dispatcher) : option Dispatcher :=
  match l with
  | DDeliver now orch msg sid ord pre => Some (deliver now orch msg sid ord pre d)
  | DReturn i now result =>
      match d_pending d !! i with
      | Some p => Some (finish now p result (set_pending (delete i (d_pending d)) d))
      | None => None
      end
  | DRaise i =>
      match d_pending d !! i with
      | Some _ => Some (set_pending (delete i (d_pending d)) d)
      | None => None
      end
  | DTurnEnd =>
      match d_live_turns d with
      | O => None
      | S n => Some (mkDispatcher (d_results d) (d_ordering d) (d_active_turns d - 1) n (d_pending d)
                       (d_log d))
      end
  end.

Fixpoint dsteps (ls : list dlabel) (d : Dispatcher) : option Dispatcher :=
  match ls with
  | [] => Some d
  | l :: ls' => match dstep l d with Some d' => dsteps ls' d' | None => None end
  end.

Inductive dreachable : Dispatcher -> Prop :=
| dreach_new : dreachable new_dispatcher
| dreach_step l d d' : dreachable d -> dstep l d = Some d' -> dreachable d'.

(** ** The turn ceiling *)

Definition turns_inv (d : Dispatcher) : Prop :=
  d_active_turns d = Z.of_nat (d_live_turns d) /\
  d_active_turns d <= Z.max 1 (pc_max_concurrent_peer_turns cfg).

Lemma cached_result_turns now key d :
  turns_inv d -> turns_inv (snd (cached_result now key d)).
Proof.
  unfold cached_result. destruct (dget key (d_results d)) as [[r e]|]; [|done].
  by destruct (qle e now).
Qed.

Lemma check_ordering_turns orch sid ord d :
  turns_inv d -> turns_inv (snd (check_ordering orch sid ord d)).
Proof. unfold check_ordering. repeat case_match; done. Qed.

Lemma deliver_turns now orch msg sid ord pre d :
  turns_inv d -> turns_inv (deliver now orch msg sid ord pre d).
Proof.
  intros H. unfold deliver. pose proof (cached_result_turns now (orch, msg) d H) as H1.
  destruct (cached_result _ _ d) as [hit d1]. simpl in H1. destruct (is_none hit); simpl; [|done].
  destruct pre as [b|]; [done|]. destruct sid as [sid|]; [|done].
  pose proof (check_ordering_turns orch sid ord d1 H1) as H2.
  by destruct (check_ordering _ _ _ d1) as [ok d2].
Qed.

Lemma finish_turns now p result d : turns_inv d -> turns_inv (finish now p result d).
Proof.
  intros [H1 H2]. unfold finish. destruct (_ && _); [|done]. unfold schedule_turn. simpl.
  destruct (Z.leb_spec (Z.max 1 (pc_max_concurrent_peer_turns cfg)) (d_active_turns d)); [done|].
  split; simpl; lia.
Qed.

Lemma dstep_turns l d d' : turns_inv d -> dstep l d = Some d' -> turns_inv d'.
Proof.
  intros H. destruct l; simpl.
  - intros [= <-]. by apply deliver_turns.
  - destruct (d_pending d !! i); [|done]. intros [= <-]. by apply finish_turns.
  - destruct (d_pending d !! i); [|done]. by intros [= <-].
  - destruct H as [H1 H2]. destruct (d_live_turns d); [done|]. intros [= <-]. split; simpl; lia.
Qed.

(** ** The dedup window *)

(** The key is answered from the cache at every time before [t]. *)
Definition remembered (key : mkey) (t : Q) (d : Dispatcher) : Prop :=
  exists r e, dget key (d_results d) = Some (r, e) /\ is_none r = false /\ (t <= e)%Q.

(** A label that acts from [t0] on and before [t], and caches no [None]. *)
Definition calm (t0 t : Q) (l : dlabel) : Prop :=
  match l with
  | DDeliver now _ _ _ _ _ => (t0 <= now < t)%Q
  | DReturn _ now result => (t0 <= now < t)%Q /\ is_none result = false
  | _ => True
  end.

Lemma cached_result_remembered now key key' t d :
  remembered key t d -> (now < t)%Q -> remembered key t (snd (cached_result now key' d)).
Proof.
  intros (r & e & Hg & Hr & He) Ht. unfold cached_result.
  destruct (dget key' (d_results d)) as [[r' e']|] eqn:E; [|by exists r, e].
  destruct (qle e' now) eqn:Eq; [|by exists r, e]. simpl. exists r, e. split; [|done]. simpl.
  rewrite dget_ddel_ne; [done|]. intros ->. rewrite Hg in E. injection E as <- <-. qsimp. lra.
Qed.

Lemma dget_prune now key r e d :
  dget key d = Some (r, e) -> (now < e)%Q -> dget key (prune_results now d) = Some (r, e).
Proof.
  intros Hg Ht. unfold prune_results. induction d as [|[k' v'] d IH]; simpl in *; [done|].
  destruct (decide (key = k')) as [->|Hne].
  - injection Hg as ->. simpl. assert (qle e now = false) as -> by (by apply qle_false).
    simpl. by rewrite decide_True.
  - destruct (qle (snd v') now); simpl; [|rewrite decide_False by done]; by apply IH.
Qed.

Lemma remember_result_stored now key result d :
  (0 < pc_dedup_window_seconds cfg)%Q ->
  dget key (d_results (remember_result now key result d))
  = Some (result, (now + pc_dedup_window_seconds cfg)%Q).
Proof.
  intros Hw. unfold remember_result; simpl. apply dget_prune; [apply dget_dset_eq|]. lra.
Qed.

Lemma remember_result_remembered t0 now key key' t result d :
  remembered key t d -> (now < t)%Q -> (t0 <= now)%Q -> (t <= t0 + pc_dedup_window_seconds cfg)%Q ->
  is_none result = false -> remembered key t (remember_result now key' result d).
Proof.
  intros (r & e & Hg & Hr & He) Ht H0 Hw Hn. destruct (decide (key' = key)) as [->|Hne].
  - exists result, (now + pc_dedup_window_seconds cfg)%Q.
    split; [apply remember_result_stored; lra|]. split; [done|]. lra.
  - exists r, e. split; [|done]. unfold remember_result; simpl. apply dget_prune; [|lra].
    by rewrite dget_dset_ne.
Qed.

Lemma check_ordering_results orch sid ord d :
  d_results (snd (check_ordering orch sid ord d)) = d_results d /\
  d_pending (snd (check_ordering orch sid ord d)) = d_pending d.
Proof. unfold check_ordering. repeat case_match; done. Qed.

Lemma deliver_results now orch msg sid ord pre d :
  d_results (deliver now orch msg sid ord pre d) = d_results (snd (cached_result now (orch, msg) d)).
Proof.
  unfold deliver. destruct (cached_result _ _ d) as [hit d1]. destruct (is_none hit); simpl; [|done].
  destruct pre as [b|]; [done|]. destruct sid as [sid|]; [|done].
  pose proof (check_ordering_results orch sid ord d1) as [H _].
  by destruct (check_ordering _ _ _ d1) as [ok d2].
Qed.

Lemma finish_results now p result d :
  d_results (finish now p result d) = d_results (remember_result now (pe_key p) result d).
Proof.
  unfold finish. destruct (_ && _); [|done]. unfold schedule_turn. by destruct (_ <=? _).
Qed.

Lemma dstep_remembered t0 t key l d d' :
  remembered key t d -> (t <= t0 + pc_dedup_window_seconds cfg)%Q -> calm t0 t l ->
  dstep l d = Some d' -> remembered key t d'.
Proof.
  intros H Hw Hc. destruct l; simpl in *.
  - intros [= <-]. unfold remembered. rewrite deliver_results.
    exact (cached_result_remembered now key (orch_id, msg_id) t d H (proj2 Hc)).
  - destruct (d_pending d !! i) as [p|]; [|done]. intros [= <-]. destruct Hc as [[H0 Ht] Hn].
    unfold remembered. rewrite finish_results.
    by apply (remember_result_remembered t0 now key (pe_key p) t result (set_pending (delete i (d_pending d)) d)).
  - destruct (d_pending d !! i); [|done]. by intros [= <-].
  - destruct (d_live_turns d); [done|]. by intros [= <-].
Qed.

Lemma dsteps_remembered t0 t key ls d d' :
  remembered key t d -> (t <= t0 + pc_dedup_window_seconds cfg)%Q -> Forall (calm t0 t) ls ->
  dsteps ls d = Some d' -> remembered key t d'.
Proof.
  intros H Hw Hls. revert d H. induction Hls as [|l ls Hc _ IH]; intros d H; simpl; [by intros [= <-]|].
  destruct (dstep l d) as [d1|] eqn:E; [|done]. apply IH. by eapply dstep_remembered.
Qed.
End dispatcher.

(** ** Theorems *)

(** Over every interleaving of deliveries, answers and turns, the turn
    counter is the number of turns in flight and never exceeds the ceiling. *)
Theorem turns_within_ceiling (cfg : PeerConfig) (d : Dispatcher) :
  dreachable cfg d ->
  d_active_turns d = Z.of_nat (d_live_turns d) /\
  d_active_turns d <= Z.max 1 (pc_max_concurrent_peer_turns cfg).
Proof.
  induction 1 as [|l d d' _ IH Hs]; [split; simpl; lia|]. by eapply dstep_turns.
Qed.

(** A message delivered again inside the dedup window of its answer is
    answered as a duplicate and not executed, whatever else is delivered,
    answered or scheduled in between. *)
Theorem redelivery_not_executed (cfg : PeerConfig) (i : nat) (p : Pending) (t0 now : Q) (result : pyval)
    (ls : list dlabel) (orch msg : string) (sid : option string) (ord : ordering_arg)
    (pre : option bool) (d d1 d2 : Dispatcher) :
  (0 < pc_dedup_window_seconds cfg)%Q -> d_pending d !! i = Some p -> pe_key p = (orch, msg) ->
  is_none result = false -> dstep cfg (DReturn i t0 result) d = Some d1 ->
  Forall (calm t0 (t0 + pc_dedup_window_seconds cfg)) ls -> dsteps cfg ls d1 = Some d2 ->
  (now < t0 + pc_dedup_window_seconds cfg)%Q ->
  dstep cfg (DDeliver now orch msg sid ord pre) d2
  = Some (log_event (Answered (orch, msg) (mkDispatchOutcome true false false)) d2).
Proof.
  intros Hw Hi Hk Hn Hs Hls Hss Hnow. simpl in Hs. rewrite Hi in Hs. injection Hs as <-.
  assert (Hr : remembered (orch, msg) (t0 + pc_dedup_window_seconds cfg) (finish cfg t0 p result
                 (set_pending (delete i (d_pending d)) d))).
  { exists result, (t0 + pc_dedup_window_seconds cfg)%Q. rewrite finish_results, Hk.
    split; [by apply remember_result_stored|]. split; [done|]. lra. }
  destruct (dsteps_remembered cfg t0 _ _ _ _ _ Hr (Qle_refl _) Hls Hss) as (r & e & Hg & Hr' & He).
  simpl. unfold deliver, cached_result. rewrite Hg.
  assert (qle e now = false) as -> by (apply qle_false; lra). by rewrite Hr'.
Qed.

Definition demo_peer_config : PeerConfig := mkPeerConfig true 1 30 true.

Definition delivery (now : Q) : dlabel := DDeliver now "orch-a" "m1" None Unordered None.

Definition after_dispatch (ls : list dlabel) : Dispatcher :=
  default new_dispatcher (dsteps demo_peer_config ls new_dispatcher).

Lemma dsteps_reachable cfg ls d d' : dreachable cfg d -> dsteps cfg ls d = Some d' -> dreachable cfg d'.
Proof.
  revert d. induction ls as [|l ls IH]; intros d Hd; simpl; [by intros [= <-]|].
  destruct (dstep cfg l d) as [d1|] eqn:E; [|done]. apply IH. by eapply dreach_step.
Qed.

Lemma turns_within_ceiling_witness :
  let d := after_dispatch [delivery 0; delivery 0; DReturn 0 1 (PInt 1); DReturn 0 1 (PInt 2)] in
  d_live_turns d = 1%nat /\ d_active_turns d <= 1.
Proof.
  split; [vm_compute; reflexivity|].
  apply (turns_within_ceiling demo_peer_config
           (after_dispatch [delivery 0; delivery 0; DReturn 0 1 (PInt 1); DReturn 0 1 (PInt 2)])).
  apply (dsteps_reachable demo_peer_config
           [delivery 0; delivery 0; DReturn 0 1 (PInt 1); DReturn 0 1 (PInt 2)] new_dispatcher);
    [constructor|vm_compute; reflexivity].
Defined.

Lemma redelivery_not_executed_witness :
  dstep demo_peer_config (delivery 20) (after_dispatch [delivery 0; DReturn 0 1 (PInt 1)])
  = Some (log_event (Answered ("orch-a", "m1") (mkDispatchOutcome true false false))
            (after_dispatch [delivery 0; DReturn 0 1 (PInt 1)])).
Proof.
  apply (redelivery_not_executed demo_peer_config 0 (mkPending ("orch-a", "m1") false) 1 20 (PInt 1) []
           "orch-a" "m1" None Unordered None (after_dispatch [delivery 0])
           (after_dispatch [delivery 0; DReturn 0 1 (PInt 1)]));
    [vm_compute; reflexivity|vm_compute; reflexivity|reflexivity|reflexivity|vm_compute; reflexivity
    |constructor|reflexivity|vm_compute; reflexivity].
Defined.

(** The executions of a message in a log. *)
Definition executions (key : mkey) (log : list devent) : nat :=
  length (List.filter (fun e => match e with Executing k => bool_decide (k = key) | _ => false end) log).

(** The dedup window has two holes: a message delivered again while its
    first delivery is still executing is executed twice, and so is one whose
    answer was [None]. *)
Theorem dedup_holes :
  executions ("orch-a", "m1")
    (d_log (after_dispatch [delivery 0; delivery 1; DReturn 0 2 (PInt 1); DReturn 0 2 (PInt 1)])) = 2%nat /\
  executions ("orch-a", "m1")
    (d_log (after_dispatch [delivery 0; DReturn 0 1 PNone; delivery 2; DReturn 0 3 PNone])) = 2%nat.
Proof. vm_compute. split; reflexivity. Qed.
