(* ===== verification/PeerGroup.v ===== *)
(** * Peer groups ([src/orchestratord/peer/group.py])

    [GroupManager]: named sets of daemons, changed by their members, and the
    broadcasts that make the daemons agree.  A message body stands for the JSON
    object it encodes; the member list is sorted by the code, an order no reader
    depends on.  The publisher is the list of messages published.  [created_at], which nothing reads, is left
    out. *)

From S2P Require Import Prelude.
From stdpp Require Import gmap.

Open Scope string_scope.
Open Scope list_scope.
Open Scope Z_scope.

Definition GROUP_CHANNEL_PREFIX : string := "orch:peer:group".

Definition group_channel (group_id : string) : string :=
  (GROUP_CHANNEL_PREFIX ++ ":" ++ group_id)%string.

Inductive group_error :=
| GroupError (why : string)
| NotGroupMemberError (caller group_id : string).

Record PeerGroup := mkPeerGroup {
  pg_group_id : string;
  pg_name : string;
  pg_members : gset string;
}.

Record GroupManager := mkGroupManager {
  gm_local_orch_id : string;
  gm_has_publisher : bool;
  gm_groups : dict string PeerGroup;
  gm_published : list (string * pyval);
}.

Definition set_groups (g : dict string PeerGroup) (m : GroupManager) : GroupManager :=
  mkGroupManager (gm_local_orch_id m) (gm_has_publisher m) g (gm_published m).

Definition group (group_id : string) (m : GroupManager) : outcome group_error PeerGroup :=
  match dget group_id (gm_groups m) with
  | Some g => Ret g
  | None => Raise (GroupError "unknown group")
  end.

Definition groups_of (orch_id : string) (m : GroupManager) : list PeerGroup :=
  List.filter (fun g => bool_decide (orch_id ∈ pg_members g)) (dvals (gm_groups m)).

Definition require_member (g : PeerGroup) (caller : string) : outcome group_error unit :=
  if bool_decide (caller ∈ pg_members g) then Ret tt
  else Raise (NotGroupMemberError caller (pg_group_id g)).

(** The body of a broadcast. *)
Definition broadcast_body (local : string) (g : PeerGroup) (event : string) : pyval :=
  PDict [("event", PStr event); ("group_id", PStr (pg_group_id g)); ("name", PStr (pg_name g));
         ("members", PList (map PStr (elements (pg_members g)))); ("origin", PStr local)].

Definition broadcast (g : PeerGroup) (event : string) (m : GroupManager) : GroupManager :=
  if gm_has_publisher m then
    mkGroupManager (gm_local_orch_id m) (gm_has_publisher m) (gm_groups m)
      (gm_published m ++ [(group_channel (pg_group_id g), broadcast_body (gm_local_orch_id m) g event)])
  else m.

(** Store a group and announce it. *)
Definition put_group (g : PeerGroup) (event : string) (m : GroupManager) : GroupManager :=
  broadcast g event (set_groups (dset (pg_group_id g) g (gm_groups m)) m).

(** [fresh] is the id [_new_group_id] draws. *)
Definition create_group (fresh name : string) (members : gset string) (m : GroupManager)
    : outcome group_error PeerGroup * GroupManager :=
  if bool_decide (members = ∅) then (Raise (GroupError "a group needs at least one member"), m)
  else let g := mkPeerGroup fresh name members in (Ret g, put_group g "group_created" m).

(** [name] is the text built from the sorted members. *)
Definition auto_group (fresh name : string) (orch_ids : list string) (m : GroupManager)
    : outcome group_error PeerGroup * GroupManager :=
  let wanted : gset string := list_to_set orch_ids in
  if Nat.ltb (size wanted) 2 then (Raise (GroupError "auto-grouping needs at least two peers"), m)
  else
    match find (fun g => bool_decide (pg_members g = wanted)) (dvals (gm_groups m)) with
    | Some g => (Ret g, m)
    | None => create_group fresh name wanted m
    end.

Definition with_members (s : gset string) (g : PeerGroup) : PeerGroup :=
  mkPeerGroup (pg_group_id g) (pg_name g) s.

Definition add_member (group_id orch_id caller : string) (m : GroupManager)
    : outcome group_error PeerGroup * GroupManager :=
  match (g ← group group_id m; _ ← require_member g caller; Ret g) with
  | Raise x => (Raise x, m)
  | Ret g =>
      let g := with_members ({[orch_id]} ∪ pg_members g) g in (Ret g, put_group g "member_added" m)
  end.

Definition remove_member (group_id orch_id caller : string) (m : GroupManager)
    : outcome group_error PeerGroup * GroupManager :=
  match (g ← group group_id m; _ ← require_member g caller; Ret g) with
  | Raise x => (Raise x, m)
  | Ret g =>
      if negb (bool_decide (orch_id ∈ pg_members g)) then (Raise (GroupError "not in group"), m)
      else let g := with_members (pg_members g ∖ {[orch_id]}) g in (Ret g, put_group g "member_removed" m)
  end.

Definition leave (group_id orch_id : string) (m : GroupManager)
    : outcome group_error PeerGroup * GroupManager :=
  match group group_id m with
  | Raise x => (Raise x, m)
  | Ret g =>
      let g := with_members (pg_members g ∖ {[orch_id]}) g in (Ret g, put_group g "member_removed" m)
  end.

(** [str(m)] of a member; [other] for what is not a string. *)
Definition member_text (other : pyval -> string) (v : pyval) : string :=
  match v with PStr s => s | _ => other v end.

Definition field (k : string) (d : dict string pyval) : pyval := default PNone (dget k d).

(** [str(data.get("name") or group_id)] *)
Definition name_or (other : pyval -> string) (group_id : string) (v : pyval) : string :=
  if truthy v then member_text other v else group_id.

Definition handle_message (other : pyval -> string) (channel : string) (body : option pyval)
    (m : GroupManager) : bool * GroupManager :=
  if negb (String.eqb channel "") && negb (String.prefix GROUP_CHANNEL_PREFIX channel) then (false, m)
  else
    match body with
    | Some (PDict data) =>
        match field "origin" data, field "group_id" data, field "members" data with
        | origin, PStr group_id, PList members =>
            if match origin with PStr o => String.eqb o (gm_local_orch_id m) | _ => false end
            then (false, m)
            else
              let new : gset string := list_to_set (map (member_text other) members) in
              match dget group_id (gm_groups m) with
              | None =>
                  let g := mkPeerGroup group_id (name_or other group_id (field "name" data)) new in
                  (true, set_groups (dset group_id g (gm_groups m)) m)
              | Some g => (true, set_groups (dset group_id (with_members new g) (gm_groups m)) m)
              end
        | _, _, _ => (false, m)
        end
    | _ => (false, m)
    end.

(** ** Facts *)

(** The operations that change a group. *)
Inductive group_op :=
| OpCreate (fresh name : string) (members : gset string)
| OpAuto (fresh name : string) (orch_ids : list string)
| OpAdd (group_id orch_id caller : string)
| OpRemove (group_id orch_id caller : string)
| OpLeave (group_id orch_id : string).

Definition run_group_op (op : group_op) (m : GroupManager) : outcome group_error PeerGroup * GroupManager :=
  match op with
  | OpCreate fresh name members => create_group fresh name members m
  | OpAuto fresh name ids => auto_group fresh name ids m
  | OpAdd gid x caller => add_member gid x caller m
  | OpRemove gid x caller => remove_member gid x caller m
  | OpLeave gid x => leave gid x m
  end.

(** What an operation does: nothing, or store a group and announce it. *)
Lemma run_group_op_cases op m r m' :
  run_group_op op m = (r, m') ->
  m' = m \/ exists g event, r = Ret g /\ m' = put_group g event m.
Proof.
  destruct op; simpl; unfold auto_group, create_group, add_member, remove_member, leave;
    repeat case_match; intros [= <- <-]; try (by left); right; by eauto.
Qed.

Lemma member_text_str other l : map (member_text other) (map PStr l) = l.
Proof. induction l as [|x l IH]; simpl; [done|]. by rewrite IH. Qed.

Lemma group_channel_prefix gid : String.prefix GROUP_CHANNEL_PREFIX (group_channel gid) = true.
Proof. unfold group_channel. simpl. by destruct gid. Qed.

Lemma broadcast_applied other local g event m :
  local <> gm_local_orch_id m ->
  exists m', handle_message other (group_channel (pg_group_id g)) (Some (broadcast_body local g event)) m
             = (true, m') /\
  pg_members <$> dget (pg_group_id g) (gm_groups m') = Some (pg_members g) /\
  forall x, x <> pg_group_id g -> dget x (gm_groups m') = dget x (gm_groups m).
Proof.
  intros Hne. unfold handle_message. rewrite group_channel_prefix, andb_false_r. simpl.
  apply String.eqb_neq in Hne. rewrite Hne, member_text_str, list_to_set_elements_L.
  destruct (dget (pg_group_id g) (gm_groups m)) as [g'|]; eexists; (split; [done|]); simpl;
    rewrite dget_dset_eq; (split; [done|]); intros x Hx; by rewrite dget_dset_ne.
Qed.

(** ** Theorems *)

(** C33: for a manager that has a publisher, every successful operation that
    changes a group publishes one message, and another daemon that applies it has
    the group with exactly the same members, its other groups untouched. Without a
    publisher, as the command line builds the manager, nothing is published. *)
Theorem broadcast_converges (other : pyval -> string) (op : group_op) (m m' n : GroupManager)
    (g : PeerGroup) :
  run_group_op op m = (Ret g, m') -> m' <> m -> gm_has_publisher m = true ->
  gm_local_orch_id n <> gm_local_orch_id m ->
  exists channel body n', gm_published m' = gm_published m ++ [(channel, body)] /\
  handle_message other channel (Some body) n = (true, n') /\
  pg_members <$> dget (pg_group_id g) (gm_groups n') = pg_members <$> dget (pg_group_id g) (gm_groups m') /\
  forall x, x <> pg_group_id g -> dget x (gm_groups n') = dget x (gm_groups n).
Proof.
  intros Hop Hne Hp Hl. apply run_group_op_cases in Hop as [->|(g' & event & [= <-] & ->)]; [done|].
  destruct (broadcast_applied other (gm_local_orch_id m) g event n) as (n' & Hh & Hm & Hx); [congruence|].
  exists (group_channel (pg_group_id g)), (broadcast_body (gm_local_orch_id m) g event), n'.
  unfold put_group, broadcast. simpl. rewrite Hp. simpl. rewrite dget_dset_eq. done.
Qed.

(** Only members change a group through [add_member] and [remove_member]:
    a caller outside it gets an error and changes nothing, in the map or on the
    wire. *)
Theorem outsiders_change_nothing (group_id orch_id caller : string) (m : GroupManager) (g : PeerGroup) :
  dget group_id (gm_groups m) = Some g -> caller ∉ pg_members g ->
  add_member group_id orch_id caller m = (Raise (NotGroupMemberError caller (pg_group_id g)), m) /\
  remove_member group_id orch_id caller m = (Raise (NotGroupMemberError caller (pg_group_id g)), m).
Proof.
  intros Hg Hc. unfold add_member, remove_member, group, require_member. rewrite Hg. simpl.
  by rewrite bool_decide_eq_false_2.
Qed.

Definition pair_manager : GroupManager :=
  mkGroupManager "a" true [("g1", mkPeerGroup "g1" "pair" {["a"; "b"]})] [].
Definition other_manager : GroupManager := mkGroupManager "b" true [] [].

Lemma broadcast_converges_witness :
  exists channel body n', handle_message (fun _ => "") channel (Some body) other_manager = (true, n') /\
  pg_members <$> dget "g1" (gm_groups n')
  = pg_members <$> dget "g1" (gm_groups (snd (add_member "g1" "c" "a" pair_manager))).
Proof.
  destruct (add_member "g1" "c" "a" pair_manager) as [[g|x] m'] eqn:E; [|vm_compute in E; discriminate E].
  destruct (broadcast_converges (fun _ => "") (OpAdd "g1" "c" "a") pair_manager m' other_manager g)
    as (channel & body & n' & _ & H1 & H2 & _).
  - exact E.
  - vm_compute in E. injection E as _ <-. vm_compute. discriminate.
  - reflexivity.
  - discriminate.
  - exists channel, body, n'. split; [exact H1|]. vm_compute in E. injection E as <- <-. exact H2.
Defined.

Lemma outsiders_change_nothing_witness :
  add_member "g1" "c" "z" pair_manager = (Raise (NotGroupMemberError "z" "g1"), pair_manager).
Proof.
  apply (outsiders_change_nothing "g1" "c" "z" pair_manager (mkPeerGroup "g1" "pair" {["a"; "b"]}));
    [reflexivity|]. set_solver.
Defined.
