(* ===== verification/Regex.v ===== *)
(** * Regular expressions and lines

    The part of Python's [re] and of [str.splitlines] that the program uses: backtracking matchers over
    byte strings.  From a position (the byte before it, and the rest) a matcher
    gives the ends of its matches in the order the engine tries them; a search
    takes the first.  Bytes of non-ASCII characters count as word characters. *)

From S2P Require Import Prelude Dag StageRunner Intent.

Open Scope string_scope.
Open Scope list_scope.
Open Scope Z_scope.

(** [s[:n]] *)
Definition take_str (n : nat) (s : string) : string := String.substring 0 n s.

Definition pos : Type := (option Ascii.ascii * string)%type.
Definition rx : Type := pos -> list pos.

Fixpoint rx_word (kw : string) (p : pos) : list pos :=
  match kw with
  | EmptyString => [p]
  | String k kw' =>
      match snd p with
      | EmptyString => []
      | String c s' =>
          if Ascii.eqb (lower_ascii c) (lower_ascii k) then rx_word kw' (Some c, s') else []
      end
  end.

Fixpoint rx_spaces_from (prev : option Ascii.ascii) (s : string) : list pos :=
  match s with
  | EmptyString => []
  | String c s' => if is_space c then rx_spaces_from (Some c) s' ++ [(Some c, s')] else []
  end.

(** [\s+] *)
Definition rx_spaces : rx := fun p => rx_spaces_from (fst p) (snd p).

Definition rx_seq (a b : rx) : rx := fun p => flat_map b (a p).
Definition rx_alt (a b : rx) : rx := fun p => a p ++ b p.
Definition rx_opt (a : rx) : rx := fun p => a p ++ [p].

Definition word_before (p : pos) : bool :=
  match fst p with Some c => is_word c | None => false end.

(** [\b] *)
Definition rx_boundary : rx := fun p =>
  if xorb (word_before p) (negb (word_boundary (snd p))) then [p] else [].

(** [pattern.search(text).group(0)] *)
Fixpoint rx_search (r : rx) (prev : option Ascii.ascii) (s : string) : option string :=
  match r (prev, s) with
  | e :: _ => Some (take_str (String.length s - String.length (snd e)) s)
  | [] => match s with EmptyString => None | String c s' => rx_search r (Some c) s' end
  end.

Definition bounded (r : rx) : rx := rx_seq rx_boundary (rx_seq r rx_boundary).
Definition then_space (r : rx) : rx := rx_seq r rx_spaces.

(** One byte of a class. *)
Definition rx_class (f : Ascii.ascii -> bool) : rx := fun p =>
  match snd p with
  | String c s' => if f c then [(Some c, s')] else []
  | EmptyString => []
  end.

(** [r+], greedy; [fuel] bounds the repetitions (the length of the text is
    enough, for an [r] that consumes). *)
Fixpoint rx_plus (fuel : nat) (r : rx) : rx := fun p =>
  match fuel with
  | O => []
  | S fuel' => flat_map (fun e => rx_plus fuel' r e ++ [e]) (r p)
  end.

Definition rx_start : rx := fun p => match fst p with None => [p] | Some _ => [] end.
Definition rx_end : rx := fun p => match snd p with EmptyString => [p] | _ => [] end.

Definition rx_choice (l : list rx) : rx := fun p => flat_map (fun r => r p) l.

(** A word matched with its case. *)
Fixpoint rx_exact (kw : string) (p : pos) : list pos :=
  match kw with
  | EmptyString => [p]
  | String k kw' =>
      match snd p with
      | EmptyString => []
      | String c s' => if Ascii.eqb c k then rx_exact kw' (Some c, s') else []
      end
  end.

(** The first match of [before (group) after] at a position: the group's text
    and the end. *)
Definition match_group (before group after : rx) (p : pos) : option (string * pos) :=
  let ends :=
    flat_map (fun e1 => flat_map (fun e2 =>
      map (fun e3 => (take_str (String.length (snd e1) - String.length (snd e2)) (snd e1), e3)) (after e2))
      (group e1)) (before p) in
  match ends with m :: _ => Some m | [] => None end.

(** [re.findall] with one group: matches do not overlap, the search goes on
    where the last one ended. *)
Fixpoint findall (fuel : nat) (before group after : rx) (p : pos) : list string :=
  match fuel with
  | O => []
  | S fuel' =>
      match match_group before group after p with
      | Some (g, e) => g :: findall fuel' before group after e
      | None =>
          match snd p with
          | EmptyString => []
          | String c s' => findall fuel' before group after (Some c, s')
          end
      end
  end.

(** ** Lines *)

(** The line breaks of [str.splitlines]: LF, VT, FF, CR (with a following LF),
    FS, GS, RS, and in UTF-8 U+0085, U+2028 and U+2029. *)
Definition is_line_break (c : Ascii.ascii) : bool :=
  let n := Ascii.N_of_ascii c in ((10 <=? n)%N && (n <=? 13)%N) || ((28 <=? n)%N && (n <=? 30)%N).

Definition byte_is (n : N) (c : Ascii.ascii) : bool := (Ascii.N_of_ascii c =? n)%N.

Definition one (c : Ascii.ascii) : string := String c EmptyString.

(** [s.splitlines(keepends=keep)] behind the part [cur] of the current line. *)
Fixpoint split_from (keep : bool) (cur s : string) : list string :=
  match s with
  | EmptyString => if String.eqb cur "" then [] else [cur]
  | String c s1 =>
      let ends (b : string) := if keep then cur +:+ b else cur in
      let go_on := split_from keep (cur +:+ one c) s1 in
      if is_line_break c then
        match s1 with
        | String d s2 =>
            if byte_is 13 c && byte_is 10 d then ends (String c (one d)) :: split_from keep "" s2
            else ends (one c) :: split_from keep "" s1
        | EmptyString => [ends (one c)]
        end
      else
        match s1 with
        | String d s2 =>
            if byte_is 194 c && byte_is 133 d then ends (String c (one d)) :: split_from keep "" s2
            else
              match s2 with
              | String e s3 =>
                  if byte_is 226 c && byte_is 128 d && (byte_is 168 e || byte_is 169 e)
                  then ends (String c (String d (one e))) :: split_from keep "" s3
                  else go_on
              | EmptyString => go_on
              end
        | EmptyString => go_on
        end
  end.

Definition splitlines (s : string) : list string := split_from false "" s.
Definition splitlines_keep (s : string) : list string := split_from true "" s.

Definition lf : string := one (Ascii.ascii_of_N 10).

Lemma split_from_cons keep cur c s1 :
  split_from keep cur (String c s1) =
    let ends (b : string) := if keep then cur +:+ b else cur in
    let go_on := split_from keep (cur +:+ one c) s1 in
    if is_line_break c then
      match s1 with
      | String d s2 =>
          if byte_is 13 c && byte_is 10 d then ends (String c (one d)) :: split_from keep "" s2
          else ends (one c) :: split_from keep "" s1
      | EmptyString => [ends (one c)]
      end
    else
      match s1 with
      | String d s2 =>
          if byte_is 194 c && byte_is 133 d then ends (String c (one d)) :: split_from keep "" s2
          else
            match s2 with
            | String e s3 =>
                if byte_is 226 c && byte_is 128 d && (byte_is 168 e || byte_is 169 e)
                then ends (String c (String d (one e))) :: split_from keep "" s3
                else go_on
            | EmptyString => go_on
            end
      | EmptyString => go_on
      end.
Proof. done. Qed.

(** The line feed at the head of what follows a text. *)
Ltac lf_head r :=
  change ("" +:+ lf +:+ r) with (String (Ascii.ascii_of_N 10) r) in *;
  change ("" +:+ lf) with (String (Ascii.ascii_of_N 10) "") in *;
  cbv iota;
  change (byte_is 10 (Ascii.ascii_of_N 10)) with true;
  change (byte_is 133 (Ascii.ascii_of_N 10)) with false;
  change (byte_is 128 (Ascii.ascii_of_N 10)) with false;
  change (byte_is 168 (Ascii.ascii_of_N 10) || byte_is 169 (Ascii.ascii_of_N 10)) with false.

(** A line feed ends a line wherever it is. *)
Lemma split_from_lf_aux keep n s cur r :
  (String.length s <= n)%nat ->
  split_from keep cur (s +:+ lf +:+ r) = split_from keep cur (s +:+ lf) ++ split_from keep "" r.
Proof.
  revert s cur. induction n as [|n IH]; intros s cur Hn.
  { destruct s; [|simpl in Hn; lia]. by destruct r. }
  destruct s as [|c s]; [by destruct r|]. simpl in Hn.
  assert (H1 := fun cur => IH s cur ltac:(lia)).
  change (String c s +:+ lf +:+ r) with (String c (s +:+ lf +:+ r)).
  change (String c s +:+ lf) with (String c (s +:+ lf)).
  rewrite !split_from_cons. cbv zeta.
  destruct s as [|d s].
  - specialize (H1 (cur +:+ one c)). lf_head r. destruct (is_line_break c).
    + by destruct (byte_is 13 c), r.
    + rewrite !andb_false_r. destruct r as [|x r]; rewrite ?andb_false_r; apply H1.
  - assert (H2 := fun cur => IH s cur ltac:(simpl in Hn; lia)).
    change (String d s +:+ lf +:+ r) with (String d (s +:+ lf +:+ r)) in *.
    change (String d s +:+ lf) with (String d (s +:+ lf)) in *. cbv iota.
    destruct (is_line_break c).
    + destruct (byte_is 13 c && byte_is 10 d); rewrite <- app_comm_cons; f_equal; [apply H2|apply H1].
    + destruct (byte_is 194 c && byte_is 133 d); [rewrite <- app_comm_cons; f_equal; apply H2|].
      destruct s as [|e s].
      * specialize (H1 (cur +:+ one c)). lf_head r. rewrite !andb_false_r. apply H1.
      * assert (H3 := fun cur => IH s cur ltac:(simpl in Hn; lia)).
        change (String e s +:+ lf +:+ r) with (String e (s +:+ lf +:+ r)) in *.
        change (String e s +:+ lf) with (String e (s +:+ lf)) in *. cbv iota.
        destruct (byte_is 226 c && byte_is 128 d && _); [rewrite <- app_comm_cons; f_equal; apply H3|apply H1].
Qed.

Lemma split_from_lf keep s cur r :
  split_from keep cur (s +:+ lf +:+ r) = split_from keep cur (s +:+ lf) ++ split_from keep "" r.
Proof. by eapply split_from_lf_aux. Qed.
