(* ===== verification/ClarQueue.v ===== *)
(** * The clarification queue ([src/orchestratord/issue_clarifier/queue.py])

    One entry per issue: a question and what became of it, or one-shot review
    feedback.  The queue lives in memory and is written to its file after every
    change; the file is read once, when a queue is opened.  A write replaces the
    file in place, so it may fail before touching it or leave it torn. *)

From S2P Require Import Prelude.

Open Scope string_scope.
Open Scope list_scope.
Open Scope Z_scope.

Inductive ClarificationStatus :=
| NONE | PENDING | AWAITING_LOCAL | AWAITING_AUTHOR | RESOLVED_LOCAL | RESOLVED_AUTHOR
| TIMED_OUT_LOCAL | TIMED_OUT_AUTHOR | EXHAUSTED
| DUPLICATE_REJECTED | STALE_REJECTED | CONFLICT_RESOLVED.

#[export] Instance ClarificationStatus_eq_dec : EqDecision ClarificationStatus.
Proof. solve_decision. Defined.

(** [ci_status_enum]: whether [status] holds the enum member, or the plain string
    that [json] gave back; the two compare equal, but only a member has [.value]. *)
Record ClarificationItem := mkItem {
  ci_issue_id : string;
  ci_issue_identifier : string;
  ci_question : string;
  ci_options : list string;
  ci_context_summary : string;
  ci_created_at : Q;
  ci_updated_at : Q;
  ci_expires_at : option Q;
  ci_status : ClarificationStatus;
  ci_status_enum : bool;
  ci_answer : option string;
  ci_answer_source : option string;
  ci_answered_at : option Q;
  ci_escalation_notified : bool;
  ci_first_response_source : option string;
  ci_duplicate_of : option text;
  ci_stale_answers : list string;
  ci_kind : string;
  ci_last_checked_comment_id : option string;
  ci_author_login : option string;
}.

(** Assignments to attributes of an item. *)
Definition set_updated (t : Q) (i : ClarificationItem) : ClarificationItem :=
  mkItem (ci_issue_id i) (ci_issue_identifier i) (ci_question i) (ci_options i)
    (ci_context_summary i) (ci_created_at i) t (ci_expires_at i) (ci_status i) (ci_status_enum i) (ci_answer i)
    (ci_answer_source i) (ci_answered_at i) (ci_escalation_notified i)
    (ci_first_response_source i) (ci_duplicate_of i) (ci_stale_answers i) (ci_kind i)
    (ci_last_checked_comment_id i) (ci_author_login i).

Definition set_status (s : ClarificationStatus) (i : ClarificationItem) : ClarificationItem :=
  mkItem (ci_issue_id i) (ci_issue_identifier i) (ci_question i) (ci_options i)
    (ci_context_summary i) (ci_created_at i) (ci_updated_at i) (ci_expires_at i) s true (ci_answer i)
    (ci_answer_source i) (ci_answered_at i) (ci_escalation_notified i)
    (ci_first_response_source i) (ci_duplicate_of i) (ci_stale_answers i) (ci_kind i)
    (ci_last_checked_comment_id i) (ci_author_login i).

Definition set_expires (e : option Q) (i : ClarificationItem) : ClarificationItem :=
  mkItem (ci_issue_id i) (ci_issue_identifier i) (ci_question i) (ci_options i)
    (ci_context_summary i) (ci_created_at i) (ci_updated_at i) e (ci_status i) (ci_status_enum i) (ci_answer i)
    (ci_answer_source i) (ci_answered_at i) (ci_escalation_notified i)
    (ci_first_response_source i) (ci_duplicate_of i) (ci_stale_answers i) (ci_kind i)
    (ci_last_checked_comment_id i) (ci_author_login i).

Definition set_answer (a src : option string) (at_ : option Q) (i : ClarificationItem)
    : ClarificationItem :=
  mkItem (ci_issue_id i) (ci_issue_identifier i) (ci_question i) (ci_options i)
    (ci_context_summary i) (ci_created_at i) (ci_updated_at i) (ci_expires_at i) (ci_status i) (ci_status_enum i) a
    src at_ (ci_escalation_notified i) (ci_first_response_source i) (ci_duplicate_of i)
    (ci_stale_answers i) (ci_kind i) (ci_last_checked_comment_id i) (ci_author_login i).

Definition set_escalated (i : ClarificationItem) : ClarificationItem :=
  mkItem (ci_issue_id i) (ci_issue_identifier i) (ci_question i) (ci_options i)
    (ci_context_summary i) (ci_created_at i) (ci_updated_at i) (ci_expires_at i) (ci_status i) (ci_status_enum i)
    (ci_answer i) (ci_answer_source i) (ci_answered_at i) true (ci_first_response_source i)
    (ci_duplicate_of i) (ci_stale_answers i) (ci_kind i) (ci_last_checked_comment_id i)
    (ci_author_login i).

Definition set_first_response (s : option string) (i : ClarificationItem) : ClarificationItem :=
  mkItem (ci_issue_id i) (ci_issue_identifier i) (ci_question i) (ci_options i)
    (ci_context_summary i) (ci_created_at i) (ci_updated_at i) (ci_expires_at i) (ci_status i) (ci_status_enum i)
    (ci_answer i) (ci_answer_source i) (ci_answered_at i) (ci_escalation_notified i) s
    (ci_duplicate_of i) (ci_stale_answers i) (ci_kind i) (ci_last_checked_comment_id i)
    (ci_author_login i).

Definition set_stale (dup : option text) (stale : list string) (i : ClarificationItem)
    : ClarificationItem :=
  mkItem (ci_issue_id i) (ci_issue_identifier i) (ci_question i) (ci_options i)
    (ci_context_summary i) (ci_created_at i) (ci_updated_at i) (ci_expires_at i) (ci_status i) (ci_status_enum i)
    (ci_answer i) (ci_answer_source i) (ci_answered_at i) (ci_escalation_notified i)
    (ci_first_response_source i) dup stale (ci_kind i) (ci_last_checked_comment_id i)
    (ci_author_login i).

Definition set_cursor (c : option string) (i : ClarificationItem) : ClarificationItem :=
  mkItem (ci_issue_id i) (ci_issue_identifier i) (ci_question i) (ci_options i)
    (ci_context_summary i) (ci_created_at i) (ci_updated_at i) (ci_expires_at i) (ci_status i) (ci_status_enum i)
    (ci_answer i) (ci_answer_source i) (ci_answered_at i) (ci_escalation_notified i)
    (ci_first_response_source i) (ci_duplicate_of i) (ci_stale_answers i) (ci_kind i) c
    (ci_author_login i).

Definition set_question (q : string) (options : list string) (context kind : string)
    (i : ClarificationItem) : ClarificationItem :=
  mkItem (ci_issue_id i) (ci_issue_identifier i) q options context (ci_created_at i)
    (ci_updated_at i) (ci_expires_at i) (ci_status i) (ci_status_enum i) (ci_answer i) (ci_answer_source i)
    (ci_answered_at i) (ci_escalation_notified i) (ci_first_response_source i)
    (ci_duplicate_of i) (ci_stale_answers i) kind (ci_last_checked_comment_id i)
    (ci_author_login i).

(** ** Items *)

Definition is_expired (now : Q) (i : ClarificationItem) : bool :=
  match ci_expires_at i with
  | None => false
  | Some e => qle e now
  end.

(** [mark_answered] with the timestamp its caller passes. *)
Definition mark_answered (now : Q) (answer source : string) (i : ClarificationItem)
    : ClarificationItem :=
  set_updated now (set_answer (Some answer) (Some source) (Some now) i).

(** The three unresolved statuses. *)
Definition active (s : ClarificationStatus) : bool :=
  mem s [PENDING; AWAITING_LOCAL; AWAITING_AUTHOR].

Definition resolved (s : ClarificationStatus) : bool := mem s [RESOLVED_LOCAL; RESOLVED_AUTHOR].

(** ** Files *)

(** A JSON file: absent, unreadable, or holding a value. *)
Inductive jfile (A : Type) :=
| Absent
| Corrupt
| Holds (a : A).
Arguments Absent {A}.
Arguments Corrupt {A}.
Arguments Holds {A} a.

(** What becomes of a write: done, failed before the file was opened, or failed
    after it was truncated. *)
Inductive write_result := Written | NotOpened | Torn.

(** The clock and the file system during one call. *)
Record Clock := mkClock {
  now : Q;
  write : write_result;
}.

Definition write_file {A} (c : Clock) (a : A) (f : jfile A) : jfile A :=
  match write c with
  | Written => Holds a
  | NotOpened => f
  | Torn => Corrupt
  end.

(** ** The queue and its file *)

Record Queue := mkQueue {
  q_records : dict string ClarificationItem;
  q_disk : jfile (dict string ClarificationItem);
}.

Definition set_records (d : dict string ClarificationItem) (q : Queue) : Queue :=
  mkQueue d (q_disk q).

(** [_save] *)
Definition save (c : Clock) (q : Queue) : Queue :=
  mkQueue (q_records q) (write_file c (q_records q) (q_disk q)).

(** [ClarificationItem( **v)]: the status stays the string it is in the file. *)
Definition loaded (i : ClarificationItem) : ClarificationItem :=
  mkItem (ci_issue_id i) (ci_issue_identifier i) (ci_question i) (ci_options i)
    (ci_context_summary i) (ci_created_at i) (ci_updated_at i) (ci_expires_at i) (ci_status i) false
    (ci_answer i) (ci_answer_source i) (ci_answered_at i) (ci_escalation_notified i)
    (ci_first_response_source i) (ci_duplicate_of i) (ci_stale_answers i) (ci_kind i)
    (ci_last_checked_comment_id i) (ci_author_login i).

Definition load_records (d : dict string ClarificationItem) : dict string ClarificationItem :=
  map (fun kv => (fst kv, loaded (snd kv))) d.

(** [_load] on the empty queue [__init__] starts from. *)
Definition load (f : jfile (dict string ClarificationItem)) : Queue :=
  match f with
  | Holds d => mkQueue (load_records d) f
  | _ => mkQueue [] f
  end.

(** ** Queries *)

Definition get (id : string) (q : Queue) : option ClarificationItem := dget id (q_records q).

Definition get_pending_feedback (c : Clock) (id : string) (q : Queue) : option ClarificationItem :=
  match get id q with
  | None => None
  | Some i =>
      if negb (String.eqb (ci_kind i) "review_feedback") then None
      else if negb (active (ci_status i)) then None
      else if is_expired (now c) i then None
      else Some i
  end.

(** [sorted(..., key=created_at)], which is stable. *)
Fixpoint insert_item (i : ClarificationItem) (l : list ClarificationItem) : list ClarificationItem :=
  match l with
  | [] => [i]
  | j :: l' => if qle (ci_created_at i) (ci_created_at j) then i :: l else j :: insert_item i l'
  end.

Definition list_items (q : Queue) : list ClarificationItem :=
  foldr insert_item [] (dvals (q_records q)).

Definition poll_pending (c : Clock) (q : Queue) : list ClarificationItem :=
  List.filter (fun i => String.eqb (ci_kind i) "clarification" && active (ci_status i)
                        && negb (is_expired (now c) i)) (dvals (q_records q)).

Definition poll_active (q : Queue) : list ClarificationItem :=
  List.filter (fun i => active (ci_status i)) (dvals (q_records q)).

Definition get_resolved (id : string) (q : Queue) : option ClarificationItem :=
  match get id q with
  | None => None
  | Some i => if resolved (ci_status i) then Some i else None
  end.

Definition get_stale (id : string) (q : Queue) : list string :=
  match get id q with
  | None => []
  | Some i => ci_stale_answers i
  end.

(** ** Operations *)

(** [timeout_seconds] absent means no deadline. *)
Definition enqueue (c : Clock) (id ident question : string) (options : list string)
    (context : string) (timeout : option Q) (since author : option string) (q : Queue)
    : ClarificationItem * Queue :=
  let i := mkItem id ident question options context (now c) (now c)
             (match timeout with Some t => Some (now c + t)%Q | None => None end)
             PENDING true None None None false None None [] "clarification" since author in
  (i, save c (set_records (dset id i (q_records q)) q)).

(** The shape of the operations on an existing item: change it, touch it, write
    the queue. *)
Definition update (c : Clock) (id : string) (f : ClarificationItem -> ClarificationItem) (q : Queue)
    : option ClarificationItem * Queue :=
  match get id q with
  | None => (None, q)
  | Some i =>
      let i' := set_updated (now c) (f i) in
      (Some i', save c (set_records (dset id i' (q_records q)) q))
  end.

Definition mark_awaiting_local (c : Clock) (id : string) :=
  update c id (set_status AWAITING_LOCAL).

Definition mark_awaiting_author (c : Clock) (id : string) (timeout : option Q) :=
  update c id (fun i =>
    let i := set_status AWAITING_AUTHOR i in
    match timeout with
    | Some t => set_expires (Some (now c + qmax 0 t)%Q) i
    | None => i
    end).

Definition mark_comment_checked (c : Clock) (id : string) (comment : option string) :=
  update c id (set_cursor comment).

(** The status an answer from [source] leads to, from an unresolved one. *)
Definition resolution (s : ClarificationStatus) (source : string) : ClarificationStatus :=
  if mem s [PENDING; AWAITING_LOCAL] then
    if mem source ["dashboard"; "clarification_queue"] then RESOLVED_LOCAL else RESOLVED_AUTHOR
  else RESOLVED_AUTHOR.

Definition resolve (c : Clock) (id answer source : string) :=
  update c id (fun i =>
    let i := mark_answered (now c) answer source i in
    let i := if active (ci_status i) then set_status (resolution (ci_status i) source) i else i in
    set_first_response (ci_answer_source i) i).

Definition mark_duplicate (c : Clock) (id answer : string) (original : Q) :=
  update c id (fun i =>
    set_stale (Some [FNum original]) (ci_stale_answers i ++ [answer])
      (set_status DUPLICATE_REJECTED i)).

Definition mark_stale (c : Clock) (id answer : string) :=
  update c id (fun i =>
    set_stale (ci_duplicate_of i) (ci_stale_answers i ++ [answer]) (set_status STALE_REJECTED i)).

Definition mark_escalation_notified (c : Clock) (id : string) := update c id set_escalated.

Definition mark_expired (c : Clock) (id : string) :=
  update c id (fun i =>
    set_status (match ci_status i with
                | AWAITING_LOCAL => TIMED_OUT_LOCAL
                | AWAITING_AUTHOR => TIMED_OUT_AUTHOR
                | _ => EXHAUSTED
                end) i).

Definition mark_exhausted (c : Clock) (id : string) := update c id (set_status EXHAUSTED).

Definition remove (c : Clock) (id : string) (q : Queue) : Queue :=
  if dmem id (q_records q) then save c (set_records (ddel id (q_records q)) q) else q.

Definition consume_feedback (c : Clock) (id : string) (q : Queue)
    : option ClarificationItem * Queue :=
  match get id q with
  | None => (None, q)
  | Some i =>
      if negb (String.eqb (ci_kind i) "review_feedback") then (None, q)
      else (Some i, save c (set_records (ddel id (q_records q)) q))
  end.

Definition inject_feedback (c : Clock) (id feedback : string) (q : Queue)
    : ClarificationItem * Queue :=
  let i :=
    match get id q with
    | None =>
        mkItem id id feedback [] "Human review rejection feedback" (now c) (now c) None PENDING
          true None None None false None None [] "review_feedback" None None
    | Some i =>
        set_updated (now c)
          (set_answer None None None
             (set_expires None
                (set_status PENDING
                   (set_question feedback [] "Human review rejection feedback" "review_feedback" i))))
    end in
  (i, save c (set_records (dset id i (q_records q)) q)).

(** The sentinel file of escalated issues ([mark_issue_failed]): a map from the
    issue to the time it failed, read and rewritten; any failure is swallowed
    ([json.loads] of a corrupt file raises before the write). *)
Definition mark_issue_failed (c : Clock) (id : string) (f : jfile (dict string Q))
    : jfile (dict string Q) :=
  match f with
  | Corrupt => Corrupt
  | Absent => write_file c (dset id (now c) []) f
  | Holds existing => write_file c (dset id (now c) existing) f
  end.

(** ** Histories of calls *)

Inductive queue_call :=
| CallEnqueue (id ident question : string) (options : list string) (context : string)
    (timeout : option Q) (since author : option string)
| CallAwaitLocal (id : string)
| CallAwaitAuthor (id : string) (timeout : option Q)
| CallCommentChecked (id : string) (comment : option string)
| CallResolve (id answer source : string)
| CallDuplicate (id answer : string) (original : Q)
| CallStale (id answer : string)
| CallEscalated (id : string)
| CallExpired (id : string)
| CallExhausted (id : string)
| CallRemove (id : string)
| CallConsume (id : string)
| CallInject (id feedback : string).

Definition exec_call (c : Clock) (call : queue_call) (q : Queue) : Queue :=
  match call with
  | CallEnqueue id ident question options context timeout since author =>
      snd (enqueue c id ident question options context timeout since author q)
  | CallAwaitLocal id => snd (mark_awaiting_local c id q)
  | CallAwaitAuthor id timeout => snd (mark_awaiting_author c id timeout q)
  | CallCommentChecked id comment => snd (mark_comment_checked c id comment q)
  | CallResolve id answer source => snd (resolve c id answer source q)
  | CallDuplicate id answer original => snd (mark_duplicate c id answer original q)
  | CallStale id answer => snd (mark_stale c id answer q)
  | CallEscalated id => snd (mark_escalation_notified c id q)
  | CallExpired id => snd (mark_expired c id q)
  | CallExhausted id => snd (mark_exhausted c id q)
  | CallRemove id => remove c id q
  | CallConsume id => snd (consume_feedback c id q)
  | CallInject id feedback => snd (inject_feedback c id feedback q)
  end.

Definition exec_calls (calls : list (Clock * queue_call)) (q : Queue) : Queue :=
  fold_left (fun q cc => exec_call (fst cc) (snd cc) q) calls q.

(** ** Invariant *)

(** A resolved item carries the answer, where it came from and when. *)
Definition item_wf (i : ClarificationItem) : Prop :=
  ci_kind i ∈ ["clarification"; "review_feedback"] /\
  (resolved (ci_status i) = true ->
     is_Some (ci_answer i) /\ is_Some (ci_answered_at i) /\ is_Some (ci_answer_source i) /\
     ci_first_response_source i = ci_answer_source i).

Definition records_wf (d : dict string ClarificationItem) : Prop :=
  dict_wf d /\ forall id i, dget id d = Some i -> ci_issue_id i = id /\ item_wf i.

(** ** Lemmas *)

(** What every operation does to the records, apart from writing the file: it
    puts one item, drops one, or changes nothing. *)
Inductive record_change (q : Queue) : dict string ClarificationItem -> Prop :=
| change_none : record_change q (q_records q)
| change_put id i :
    ci_issue_id i = id -> (forall i0, get id q = Some i0 -> item_wf i0 -> item_wf i) ->
    (get id q = None -> item_wf i) -> record_change q (dset id i (q_records q))
| change_drop id : record_change q (ddel id (q_records q)).

Lemma record_change_wf q d : records_wf (q_records q) -> record_change q d -> records_wf d.
Proof.
  intros [Hwf Hit] Hc. destruct Hc as [|id i Hid Hsome Hnone|id]; split; eauto with py.
  - intros id' j. rewrite dget_dset. destruct (decide (id = id')) as [<-|]; [|apply Hit].
    intros [= <-]. split; [done|]. unfold get in *.
    destruct (dget id (q_records q)) as [i0|] eqn:E; [|by apply Hnone].
    eapply Hsome; [done|]. by eapply Hit.
  - intros id' j. destruct (decide (id = id')) as [<-|Hne]; [by rewrite dget_ddel_eq|].
    rewrite dget_ddel_ne by done. apply Hit.
Qed.

(** An operation on an existing item that keeps the item's identity. *)
Lemma update_records c id f q :
  records_wf (q_records q) ->
  (forall i, ci_issue_id (f i) = ci_issue_id i) ->
  (forall i, get id q = Some i -> item_wf i -> item_wf (set_updated (now c) (f i))) ->
  record_change q (q_records (snd (update c id f q))).
Proof.
  intros [_ Hit] Hid Hok. unfold update. destruct (get id q) as [i|] eqn:E; [|constructor].
  simpl. apply change_put; simpl; [|rewrite E; intros ? [= <-]; by apply Hok|congruence].
  rewrite Hid. by apply Hit.
Qed.

Lemma item_wf_status i s : resolved s = false -> item_wf i -> item_wf (set_status s i).
Proof. intros Hs [Hk _]. split; [done|]. simpl. by rewrite Hs. Qed.

#[export] Hint Resolve item_wf_status : py.

(** Every call changes at most one record, and keeps the item invariant. *)
Lemma exec_call_change c call q :
  records_wf (q_records q) -> record_change q (q_records (exec_call c call q)).
Proof.
  intros Hwf. destruct call; simpl;
    try (by apply update_records; [done|done|intros i _ [Hk _]; split]);
    try (by apply update_records; [done|done|intros i _ [Hk Hr]; split]).
  - by apply change_put; [done|intros; split; [set_solver|]|intros; split; [set_solver|]].
  - apply update_records; [done|by destruct timeout|].
    intros i _ [Hk _]. by destruct timeout.
  - apply update_records; [done|by intros i; simpl; destruct (active (ci_status i))|].
    intros i _ [Hk _]. simpl. destruct (active (ci_status i)); (split; [done|]); simpl; eauto 10.
  - apply update_records; [done|done|]. intros i _ [Hk _]. split; [done|].
    simpl. by destruct (ci_status i).
  - unfold remove. destruct (dmem _ _); constructor.
  - unfold consume_feedback. break; constructor.
  - unfold inject_feedback. destruct (get id q) as [i|] eqn:E; simpl.
    + apply change_put; [|intros _ _ _; split; [set_solver|done]|congruence].
      simpl. by apply Hwf.
    + apply change_put; [done|congruence|]. intros _. split; [set_solver|done].
Qed.

Lemma exec_calls_records calls q :
  records_wf (q_records q) -> records_wf (q_records (exec_calls calls q)).
Proof.
  revert q. induction calls as [|[c call] calls IH]; intros q Hwf; [done|].
  apply IH. eapply record_change_wf; [done|]. by apply exec_call_change.
Qed.

(** The issue a call is about; the items of the other issues stay as they are. *)
Definition call_id (call : queue_call) : string :=
  match call with
  | CallEnqueue id _ _ _ _ _ _ _ | CallAwaitLocal id | CallAwaitAuthor id _
  | CallCommentChecked id _ | CallResolve id _ _ | CallDuplicate id _ _ | CallStale id _
  | CallEscalated id | CallExpired id | CallExhausted id | CallRemove id | CallConsume id
  | CallInject id _ => id
  end.

Lemma get_save id c q : get id (save c q) = get id q.
Proof. done. Qed.

Lemma get_put id id' i q :
  get id' (set_records (dset id i (q_records q)) q) = if decide (id = id') then Some i else get id' q.
Proof. apply dget_dset. Qed.

Lemma get_drop id id' q :
  get id' (set_records (ddel id (q_records q)) q) = if decide (id = id') then None else get id' q.
Proof.
  unfold get; simpl. destruct (decide (id = id')) as [<-|]; [apply dget_ddel_eq | by apply dget_ddel_ne].
Qed.

(** The item an operation on an existing item leaves behind. *)
Lemma get_update c id f q id' :
  get id' (snd (update c id f q)) =
  if decide (id = id') then (fun i => set_updated (now c) (f i)) <$> get id q else get id' q.
Proof.
  unfold update. destruct (get id q) as [i|] eqn:E; simpl.
  - by rewrite get_save, get_put.
  - destruct (decide (id = id')) as [<-|]; [done|done].
Qed.

Lemma exec_call_other c call q id' :
  call_id call <> id' -> get id' (exec_call c call q) = get id' q.
Proof.
  destruct call; simpl; intros Hne;
    unfold mark_awaiting_local, mark_awaiting_author, mark_comment_checked, resolve,
      mark_duplicate, mark_stale, mark_escalation_notified, mark_expired, mark_exhausted;
    rewrite ?get_update, ?decide_False by done; try done;
    unfold remove, consume_feedback; break;
    rewrite ?get_save, ?get_put, ?get_drop, ?decide_False by done; done.
Qed.

(** [q'] comes from [q] by calls about [id] only. *)
Definition evolves (id : string) (q q' : Queue) : Prop :=
  exists calls, Forall (fun cc => call_id (snd cc) = id) calls /\ q' = exec_calls calls q.

Lemma evolves_refl id q : evolves id q q.
Proof. by exists []. Qed.

Lemma evolves_call id c call q : call_id call = id -> evolves id q (exec_call c call q).
Proof. intros. exists [(c, call)]. split; [by constructor|done]. Qed.

Lemma evolves_trans id q1 q2 q3 : evolves id q1 q2 -> evolves id q2 q3 -> evolves id q1 q3.
Proof.
  intros (l1 & H1 & ->) (l2 & H2 & ->). exists (l1 ++ l2). split; [by apply Forall_app|].
  unfold exec_calls. by rewrite fold_left_app.
Qed.

Lemma evolves_other id id' q q' : evolves id q q' -> id <> id' -> get id' q' = get id' q.
Proof.
  intros (calls & Hc & ->) Hne. revert q. induction Hc as [|[c call] calls Hid _ IH]; intros q; [done|].
  simpl in *. rewrite IH, exec_call_other; [done|congruence].
Qed.

Lemma evolves_wf id q q' : evolves id q q' -> records_wf (q_records q) -> records_wf (q_records q').
Proof. intros (calls & _ & ->). apply exec_calls_records. Qed.

(** Each operation as a one-call history. *)
Lemma evolves_ops id c q :
  (forall t, evolves id q (snd (mark_awaiting_author c id t q))) /\
  evolves id q (snd (mark_awaiting_local c id q)) /\
  (forall x, evolves id q (snd (mark_comment_checked c id x q))) /\
  (forall a src, evolves id q (snd (resolve c id a src q))) /\
  (forall a, evolves id q (snd (mark_stale c id a q))) /\
  evolves id q (snd (mark_escalation_notified c id q)) /\
  evolves id q (snd (mark_expired c id q)) /\
  evolves id q (snd (mark_exhausted c id q)) /\
  evolves id q (remove c id q) /\
  (forall ident qu os cx t si au, evolves id q (snd (enqueue c id ident qu os cx t si au q))).
Proof.
  repeat split; intros.
  - by apply (evolves_call id c (CallAwaitAuthor id t)).
  - by apply (evolves_call id c (CallAwaitLocal id)).
  - by apply (evolves_call id c (CallCommentChecked id x)).
  - by apply (evolves_call id c (CallResolve id a src)).
  - by apply (evolves_call id c (CallStale id a)).
  - by apply (evolves_call id c (CallEscalated id)).
  - by apply (evolves_call id c (CallExpired id)).
  - by apply (evolves_call id c (CallExhausted id)).
  - by apply (evolves_call id c (CallRemove id)).
  - by apply (evolves_call id c (CallEnqueue id ident qu os cx t si au)).
Qed.

(** Close a goal [evolves id q q'] by composing operations. *)
Ltac evolve :=
  repeat first [ apply evolves_refl | apply evolves_ops
               | eapply evolves_trans; [|solve [apply evolves_ops]] ].

(** The file and the memory agree when opening the file gives the queue. *)
Definition agrees (q : Queue) : Prop :=
  q_records (load (q_disk q)) = load_records (q_records q).

Lemma load_records_idemp d : load_records (load_records d) = load_records d.
Proof. unfold load_records. rewrite map_map. by apply map_ext. Qed.

Lemma get_load id d : dget id (load_records d) = loaded <$> dget id d.
Proof. induction d as [|[k i] d IH]; [done|]. simpl. by destruct (decide (id = k)). Qed.

Lemma load_records_wf d : records_wf d -> records_wf (load_records d).
Proof.
  intros [Hwf Hit]. split.
  - unfold dict_wf, dkeys, load_records in *. by rewrite map_map.
  - intros id i. rewrite get_load. destruct (dget id d) as [j|] eqn:E; simpl; [|done].
    intros [= <-]. by apply Hit in E.
Qed.

Lemma agrees_load f : agrees (load f).
Proof. destruct f; try done. unfold agrees; simpl. by rewrite load_records_idemp. Qed.

Lemma agrees_save c q : write c = Written -> agrees (save c q).
Proof. intros Hw. unfold agrees, save, write_file. by rewrite Hw. Qed.

#[export] Hint Resolve agrees_load agrees_save : py.

Lemma exec_call_agrees c call q : write c = Written -> agrees q -> agrees (exec_call c call q).
Proof.
  intros Hw Hq.
  destruct call; simpl;
    unfold mark_awaiting_local, mark_awaiting_author, mark_comment_checked, resolve,
      mark_duplicate, mark_stale, mark_escalation_notified, mark_expired, mark_exhausted,
      update, remove, consume_feedback, inject_feedback; try (by apply agrees_save);
    break; auto with py.
Qed.

(** The active items: one per issue, exactly the queue's own. *)
Lemma dvals_ids d : records_wf d -> map ci_issue_id (dvals d) = dkeys d.
Proof.
  intros [Hnd Hit].
  assert (H : forall id i, (id, i) ∈ d -> ci_issue_id i = id).
  { intros id i Hin. apply Hit. by apply dict_wf_In. }
  clear Hnd Hit. induction d as [|[id i] d IH]; [done|]. simpl.
  rewrite (H id i) by set_solver. rewrite IH; [done|]. intros. apply H. set_solver.
Qed.

Lemma poll_active_ids q : records_wf (q_records q) -> NoDup (map ci_issue_id (poll_active q)).
Proof.
  intros Hwf. pose proof (dvals_ids _ Hwf) as Hids. destruct Hwf as [Hnd _].
  unfold dict_wf in Hnd. rewrite <- Hids in Hnd. clear Hids. unfold poll_active.
  induction (dvals (q_records q)) as [|i l IH]; simpl in *; [constructor|].
  apply NoDup_cons in Hnd as [Hni Hnd].
  destruct (active (ci_status i)); [|auto]. simpl. apply NoDup_cons. split; [|auto].
  intros (j & Hj & Hin)%list_elem_of_fmap. apply Hni, list_elem_of_fmap. exists j. split; [done|].
  apply list_elem_of_In in Hin. apply filter_In in Hin as [Hin _]. by apply list_elem_of_In.
Qed.

Lemma poll_active_spec q i :
  records_wf (q_records q) ->
  i ∈ poll_active q <-> get (ci_issue_id i) q = Some i /\ active (ci_status i) = true.
Proof.
  intros Hwf. unfold poll_active. rewrite list_elem_of_In, filter_In, <- list_elem_of_In.
  split; intros [Hin Ha]; (split; [|done]).
  - unfold dvals in Hin. apply list_elem_of_fmap in Hin as ([id j] & -> & Hin).
    apply dict_wf_In in Hin; [|apply Hwf]. simpl in *.
    destruct Hwf as [_ Hit]. by destruct (Hit _ _ Hin) as [-> _].
  - apply dget_In in Hin. unfold dvals. apply list_elem_of_fmap. by exists (ci_issue_id i, i).
Qed.

(** ** Theorems *)

(** Over any history of calls on a queue opened from a well-formed file, with
    any write faults: there is one item per issue, filed under its own id, and
    [get_resolved] only ever returns an item that has an answer, the source of
    the answer, its time, and that source as first response. *)
Theorem resolved_items_answered (d : dict string ClarificationItem)
    (calls : list (Clock * queue_call)) :
  records_wf d ->
  let q := exec_calls calls (load (Holds d)) in
  records_wf (q_records q) /\
  forall id i, get_resolved id q = Some i ->
    ci_issue_id i = id /\ is_Some (ci_answer i) /\ is_Some (ci_answered_at i) /\
    is_Some (ci_answer_source i) /\ ci_first_response_source i = ci_answer_source i.
Proof.
  intros Hd q. pose proof (exec_calls_records calls (load (Holds d)) (load_records_wf d Hd)) as Hwf. split; [done|].
  intros id i. unfold get_resolved. destruct (get id q) as [j|] eqn:E; [|done].
  destruct (resolved (ci_status j)) eqn:Er; [|done]. intros [= <-].
  destruct Hwf as [_ Hit]. apply Hit in E as [Hid [_ Hr]]. by split; [|apply Hr].
Qed.

(** After any history of calls whose writes succeed, opening the file again
    gives back the queue, item for item (the statuses as plain strings). *)
Theorem queue_survives_restart (f : jfile (dict string ClarificationItem))
    (calls : list (Clock * queue_call)) :
  Forall (fun cc => write (fst cc) = Written) calls ->
  q_records (load (q_disk (exec_calls calls (load f)))) =
  load_records (q_records (exec_calls calls (load f))).
Proof.
  intros Hw. change (agrees (exec_calls calls (load f))).
  generalize (agrees_load f). generalize (load f) as q.
  induction Hw as [|[c call] calls Hc Hw IH]; intros q Hq; [done|].
  apply IH. by apply exec_call_agrees.
Qed.

(** A short history: a question is asked, passed to the author and answered. *)
Definition sample_calls : list (Clock * queue_call) :=
  [(mkClock 10 Written, CallEnqueue "7" "acme/app#7" "Which API version?" ["v1"; "v2"] "" (Some 60%Q) None (Some "alice"));
   (mkClock 11 Written, CallAwaitAuthor "7" (Some 600%Q));
   (mkClock 20 Written, CallResolve "7" "v2" "author")].

Lemma records_wf_nil : records_wf [].
Proof. split; [constructor|done]. Qed.

Lemma records_wf_one id i : ci_issue_id i = id -> item_wf i -> records_wf [(id, i)].
Proof.
  intros Hid Hi. split; [by apply NoDup_singleton|]. intros id' j. simpl.
  destruct (decide (id' = id)); intros; by simplify_eq.
Qed.

Lemma resolved_items_answered_witness :
  exists i, get_resolved "7" (exec_calls sample_calls (load (Holds []))) = Some i /\
    is_Some (ci_answer i) /\ ci_issue_id i = "7".
Proof.
  eexists. split; [vm_compute; reflexivity|].
  edestruct (resolved_items_answered [] sample_calls records_wf_nil) as [_ H].
  edestruct (H "7") as (H1 & H2 & _); [vm_compute; reflexivity|]. split; [exact H2|exact H1].
Defined.

Lemma queue_survives_restart_witness :
  q_records (load (q_disk (exec_calls sample_calls (load Absent)))) =
  load_records (q_records (exec_calls sample_calls (load Absent))).
Proof. apply (queue_survives_restart Absent sample_calls). repeat constructor. Defined.
