(* ===== verification/ClarResolver.v ===== *)
(** * The clarification resolver ([src/orchestratord/issue_clarifier/resolver.py])

    Questions go to the local operator first and to the issue's author when the
    operator is silent; each poll looks for answers and for expired deadlines.
    The tracker, the clock and the file system are a world [W] that changes at
    the tracker calls only: the stretches of code between two awaits see one
    clock reading. *)

From stdpp Require Import pretty.
From S2P Require Import Prelude Errors Dag StageRunner ClarQueue.

Open Scope string_scope.
Open Scope list_scope.
Open Scope Z_scope.

(** [Comment] of [tracker.py], the fields the resolver reads. *)
Record Comment := mkComment {
  c_id : option string;
  c_body : option string;
  c_author_login : option string;
  c_created_at : option string;
}.

Record ClarificationConfig := mkClarificationConfig {
  timeout_local_seconds : Q;
  timeout_author_seconds : Q;
  operator_priority : bool;
  simultaneous_grace_ms : Q;
  escalation : string;
}.

Record ClarificationResult := mkClarificationResult {
  cr_answer : option string;
  cr_source : option string;
  cr_status : ClarificationStatus;
}.

(** An answer found in a channel: source, text, timestamp. *)
Record Candidate := mkCandidate {
  cd_source : string;
  cd_answer : string;
  cd_time : Q;
}.

(** What the resolver calls: the clock and the files, the tracker with its
    comment history when it has one, and [datetime.fromisoformat]. *)
Record Tracker (W : Type) := mkTracker {
  clock : W -> Clock;
  has_history : bool;
  fetch_new_comments_since : string -> option string -> W -> outcome exn (list Comment) * W;
  create_clarification_comment : string -> string -> list string -> W -> outcome exn (option Comment) * W;
  timestamp_of : string -> option Q;
}.
Arguments clock {W}.
Arguments has_history {W}.
Arguments fetch_new_comments_since {W}.
Arguments create_clarification_comment {W}.
Arguments timestamp_of {W}.

Record Notification := mkNotification {
  n_issue_id : string;
  n_timestamp : Q;
  n_policy : string;
}.

Record RState (W : Type) := mkRState {
  rs_queue : Queue;
  rs_failed : jfile (dict string Q);
  rs_notes : jfile (list Notification);
  rs_world : W;
}.
Arguments mkRState {W}.
Arguments rs_queue {W}.
Arguments rs_failed {W}.
Arguments rs_notes {W}.
Arguments rs_world {W}.

(** ** Comment texts *)

Definition nl : string := String (Ascii.ascii_of_N 10) EmptyString.

Definition marker (i : ClarificationItem) : string :=
  "<!-- orchestratord-clarification:" +:+ ci_issue_id i +:+ " -->".

(** [sep.join(l)] *)
Fixpoint join (sep : string) (l : list string) : string :=
  match l with
  | [] => ""
  | [x] => x
  | x :: l' => x +:+ sep +:+ join sep l'
  end.

Definition options_text (options : list string) : string :=
  join nl (imap (fun k opt => pretty (N.of_nat k + 1)%N +:+ ". " +:+ opt) options).

(** The prompt below its marker: all there was of it before markers existed. *)
Definition prompt_body (i : ClarificationItem) : string :=
  let head := "## Clarification Needed" +:+ nl +:+ nl
              +:+ "I need some clarification on this issue:" +:+ nl +:+ nl
              +:+ "**Question:** " +:+ ci_question i +:+ nl +:+ nl in
  match ci_options i with
  | [] => head +:+ "Please reply with your answer."
  | options => head +:+ "**Options:**" +:+ nl +:+ options_text options +:+ nl +:+ nl
               +:+ "Please reply with the number or your answer."
  end.

Definition build_mention_body (i : ClarificationItem) : string := marker i +:+ nl +:+ nl +:+ prompt_body i.

Definition is_own_clarification_comment (c : Comment) (i : ClarificationItem) : bool :=
  let body := default "" (c_body c) in
  contains (marker i) body
  || (contains "## Clarification Needed" body && contains "**Question:**" body
      && contains (ci_question i) body).

(** [s.strip().casefold()] *)
Definition login_key (s : string) : string := lower (strip s).

(** The comment comes from the item's author and is no prompt of our own. *)
Definition authorized (login : string) (i : ClarificationItem) (c : Comment) : bool :=
  match c_author_login c with
  | None => false
  | Some a =>
      negb (String.eqb a "") && String.eqb (login_key a) (login_key login)
      && negb (is_own_clarification_comment c i)
  end.

(** ** Conflicts *)

Definition local_source (s : string) : bool := mem s ["dashboard"; "clarification_queue"].

Definition qabs (x : Q) : Q := if qle 0 x then x else (- x)%Q.

(** [_resolve_conflict]: the winner and the loser of the first two. *)
Definition resolve_conflict (cfg : ClarificationConfig) (c0 c1 : Candidate) : Candidate * Candidate :=
  let delta_ms := (qabs (cd_time c0 - cd_time c1) * 1000)%Q in
  if qlt delta_ms (simultaneous_grace_ms cfg) && operator_priority cfg then
    if local_source (cd_source c0) then (c0, c1) else (c1, c0)
  else if qle (cd_time c0) (cd_time c1) then (c0, c1) else (c1, c0).

(** ** The resolver *)

Section resolver.
Context {W : Type} (T : Tracker W) (cfg : ClarificationConfig).

Definition rclock (s : RState W) : Clock := clock T (rs_world s).

Definition on_queue (f : Clock -> Queue -> Queue) (s : RState W) : RState W :=
  mkRState (f (rclock s) (rs_queue s)) (rs_failed s) (rs_notes s) (rs_world s).

Definition set_world (w : W) (s : RState W) : RState W :=
  mkRState (rs_queue s) (rs_failed s) (rs_notes s) w.

Definition parse_comment_timestamp (s : RState W) (created_at : option string) : Q :=
  match created_at with
  | None => now (rclock s)
  | Some t =>
      if String.eqb t "" then now (rclock s)
      else default (now (rclock s)) (timestamp_of T t)
  end.

(** [_fetch_new_author_comments] *)
Definition fetch_new_author_comments (id : string) (since : option string) (s : RState W)
    : list Comment * RState W :=
  if negb (has_history T) then ([], s)
  else
    match fetch_new_comments_since T id since (rs_world s) with
    | (Ret comments, w) => (comments, set_world w s)
    | (Raise _, w) => ([], set_world w s)
    end.

(** The answer already in the queue, as a candidate. *)
Definition queue_candidate (id : string) (i : ClarificationItem) (s : RState W) : list Candidate :=
  if mem (ci_status i) [PENDING; AWAITING_LOCAL] then
    match get_resolved id (rs_queue s) with
    | Some r =>
        match str_or (ci_answer r) None with
        | Some a =>
            [mkCandidate (default "clarification_queue" (str_or (ci_answer_source r) None)) a
               (match ci_answered_at r with
                | Some t => if Qeq_bool t 0 then now (rclock s) else t
                | None => now (rclock s)
                end)]
        | None => []
        end
    | None => []
    end
  else [].

(** The candidate the latest authorised comment makes. *)
Definition comment_candidate (s : RState W) (latest : Comment) : list Candidate :=
  match c_body latest with
  | None => []
  | Some b =>
      if String.eqb (strip b) "" then []
      else [mkCandidate "author" (strip b) (parse_comment_timestamp s (c_created_at latest))]
  end.

(** [_collect_candidates] *)
Definition collect_candidates (id : string) (i : ClarificationItem) (s : RState W)
    : list Candidate * RState W :=
  let cands := queue_candidate id i s in
  if mem (ci_status i) [AWAITING_LOCAL; AWAITING_AUTHOR] then
    let '(comments, s) := fetch_new_author_comments id (ci_last_checked_comment_id i) s in
    match last comments with
    | None => (cands, s)
    | Some seen =>
        let s := on_queue (fun c q => snd (mark_comment_checked c id (c_id seen) q)) s in
        match str_or (ci_author_login i) None with
        | None => (cands, s)
        | Some login =>
            match last (List.filter (authorized login i) comments) with
            | None => (cands, s)
            | Some latest => (cands ++ comment_candidate s latest, s)
            end
        end
    end
  else (cands, s).

(** [_apply_answer] *)
Definition apply_answer (id : string) (w : Candidate) : RState W -> RState W :=
  on_queue (fun c q => snd (resolve c id (cd_answer w) (cd_source w) q)).

(** [_notify_rejected] *)
Definition notify_rejected (loser : Candidate) (id : string) (s : RState W) : RState W :=
  if String.eqb (cd_source loser) "author" then s
  else on_queue (fun c q => snd (mark_stale c id (cd_answer loser) q)) s.

(** The end of [_check_for_answer]. *)
Definition settle_candidates (id : string) (cands : list Candidate) (s : RState W) : RState W :=
  match cands with
  | [] => s
  | [w] => apply_answer id w s
  | c0 :: c1 :: _ =>
      let '(winner, loser) := resolve_conflict cfg c0 c1 in
      notify_rejected loser id (apply_answer id winner s)
  end.

(** [_send_author_mention]: raises when the comment cannot be posted. *)
Definition send_author_mention (id : string) (i : ClarificationItem) : M (RState W) exn unit :=
  fun s =>
    let mentions := match str_or (ci_author_login i) None with Some a => [a] | None => [] end in
    match create_clarification_comment T id (build_mention_body i) mentions (rs_world s) with
    | (Raise e, w) => (Raise e, set_world w s)
    | (Ret comment, w) =>
        let s := set_world w s in
        match comment ≫= fun c => str_or (c_id c) None with
        | Some cid => (Ret tt, on_queue (fun c q => snd (mark_comment_checked c id (Some cid) q)) s)
        | None => (Ret tt, s)
        end
    end.

(** [_emit_escalation_notification] *)
Definition emit_escalation_notification (id : string) (s : RState W) : RState W :=
  let c := rclock s in
  let n := mkNotification id (now c) (escalation cfg) in
  mkRState (rs_queue s) (rs_failed s)
    (match rs_notes s with
     | Corrupt => Corrupt
     | Absent => write_file c [n] (rs_notes s)
     | Holds l => write_file c (l ++ [n]) (rs_notes s)
     end) (rs_world s).

Definition fail_issue (id : string) (s : RState W) : RState W :=
  mkRState (rs_queue s) (mark_issue_failed (rclock s) id (rs_failed s)) (rs_notes s) (rs_world s).

(** [_handle_escalation] *)
Definition handle_escalation (id : string) (s : RState W) : RState W :=
  let s := on_queue (fun c q => snd (mark_exhausted c id q)) s in
  if String.eqb (escalation cfg) "mark_failed" then fail_issue id s
  else if String.eqb (escalation cfg) "notify" then
    emit_escalation_notification id (fail_issue id s)
  else s.

(** [_handle_timeout] *)
Definition handle_timeout (id : string) (i : ClarificationItem) (s : RState W) : RState W :=
  match ci_status i with
  | AWAITING_LOCAL =>
      let s := on_queue (fun c q => snd (mark_expired c id q)) s in
      let s := on_queue (fun c q =>
                 snd (mark_awaiting_author c id (Some (timeout_author_seconds cfg)) q)) s in
      let s := match send_author_mention id i s with
               | (Ret _, s) => s
               | (Raise _, s) => on_queue (fun c q => snd (mark_expired c id q)) s
               end in
      on_queue (fun c q => snd (mark_escalation_notified c id q)) s
  | AWAITING_AUTHOR =>
      handle_escalation id (on_queue (fun c q => snd (mark_expired c id q)) s)
  | _ => s
  end.

(** [_check_for_answer] *)
Definition check_for_answer (i : ClarificationItem) (s : RState W) : RState W :=
  let id := ci_issue_id i in
  if is_expired (now (rclock s)) i then handle_timeout id i s
  else
    let '(cands, s) := collect_candidates id i s in
    settle_candidates id cands s.

(** [poll_clarification_answers]: the items are the queue's own objects, so each
    is seen as it is when its turn comes. *)
Definition poll_clarification_answers (s : RState W) : RState W :=
  fold_left (fun s i => check_for_answer (default i (get (ci_issue_id i) (rs_queue s))) s)
    (poll_active (rs_queue s)) s.

(** [request_clarification] *)
Definition request_clarification (id ident question context : string) (options : list string)
    (start_with_author : bool) (since author : option string)
    : M (RState W) exn ClarificationResult :=
  fun s =>
    match get id (rs_queue s) with
    | Some existing =>
        match get_resolved id (rs_queue s) with
        | Some r => (Ret (mkClarificationResult (ci_answer r) (ci_answer_source r) (ci_status r)), s)
        | None => (Ret (mkClarificationResult None None (ci_status existing)), s)
        end
    | None =>
        let timeout := if start_with_author then timeout_author_seconds cfg
                       else timeout_local_seconds cfg in
        let s := on_queue (fun c q =>
                   snd (enqueue c id ident question options context (Some timeout) since author q)) s in
        if start_with_author then
          let '(item, q) := mark_awaiting_author (rclock s) id (Some (timeout_author_seconds cfg))
                              (rs_queue s) in
          let s := on_queue (fun _ _ => q) s in
          match item with
          | None => (Ret (mkClarificationResult None None AWAITING_AUTHOR), s)
          | Some i =>
              match send_author_mention id i s with
              | (Ret _, s) => (Ret (mkClarificationResult None None AWAITING_AUTHOR), s)
              | (Raise e, s) => (Raise e, on_queue (fun c q => remove c id q) s)
              end
          end
        else
          (Ret (mkClarificationResult None None AWAITING_LOCAL),
           on_queue (fun c q => snd (mark_awaiting_local c id q)) s)
    end.

(** ** Queries *)

Definition get_answer (id : string) (s : RState W) : option ClarificationResult :=
  match get_resolved id (rs_queue s) with
  | None => None
  | Some r => Some (mkClarificationResult (ci_answer r) (ci_answer_source r) (ci_status r))
  end.

Definition get_pending_count (s : RState W) : nat :=
  length (poll_pending (rclock s) (rs_queue s)).

Definition get_item (id : string) (s : RState W) : option ClarificationItem := get id (rs_queue s).

Definition clear (id : string) : RState W -> RState W := on_queue (fun c q => remove c id q).

Definition get_stale_answers (id : string) (s : RState W) : list string := get_stale id (rs_queue s).

(** ** Lemmas *)

#[local] Opaque mark_awaiting_author mark_awaiting_local mark_comment_checked resolve mark_stale
  mark_escalation_notified mark_expired mark_exhausted remove enqueue.

Lemma send_author_mention_evolves id i s :
  evolves id (rs_queue s) (rs_queue (snd (send_author_mention id i s))).
Proof. unfold send_author_mention. break; simpl; evolve. Qed.

Lemma fetch_queue id since s : rs_queue (snd (fetch_new_author_comments id since s)) = rs_queue s.
Proof. unfold fetch_new_author_comments. by break. Qed.

Lemma collect_candidates_evolves id i s :
  evolves id (rs_queue s) (rs_queue (snd (collect_candidates id i s))).
Proof.
  unfold collect_candidates. destruct (mem _ _); [|evolve].
  pose proof (fetch_queue id (ci_last_checked_comment_id i) s) as Hq.
  destruct (fetch_new_author_comments _ _ _) as [cs s']. simpl in Hq. rewrite <- Hq.
  break; simpl; evolve.
Qed.

Lemma settle_candidates_evolves id cands s :
  evolves id (rs_queue s) (rs_queue (settle_candidates id cands s)).
Proof.
  unfold settle_candidates, notify_rejected, apply_answer. break; simpl; evolve.
Qed.

Lemma handle_timeout_evolves id i s :
  evolves id (rs_queue s) (rs_queue (handle_timeout id i s)).
Proof.
  unfold handle_timeout. destruct (ci_status i); try apply evolves_refl.
  - eapply evolves_trans; [|apply evolves_ops].
    match goal with |- context [send_author_mention id i ?s1] =>
      pose proof (send_author_mention_evolves id i s1) as Hm;
      destruct (send_author_mention id i s1) as [[u|e] s2] end;
      simpl in *; (eapply evolves_trans; [|first [exact Hm | eapply evolves_trans; [exact Hm|apply evolves_ops]]]); evolve.
  - unfold handle_escalation. break; simpl; evolve.
Qed.

Lemma check_for_answer_evolves i s :
  evolves (ci_issue_id i) (rs_queue s) (rs_queue (check_for_answer i s)).
Proof.
  unfold check_for_answer. destruct (is_expired _ _); [apply handle_timeout_evolves|].
  pose proof (collect_candidates_evolves (ci_issue_id i) i s) as Hc.
  destruct (collect_candidates _ _ _) as [cands s']. simpl in Hc.
  eapply evolves_trans; [exact Hc|]. apply settle_candidates_evolves.
Qed.

#[local] Transparent mark_awaiting_author mark_awaiting_local mark_comment_checked resolve mark_stale
  mark_escalation_notified mark_expired mark_exhausted remove enqueue.

Lemma visited_id q i :
  records_wf (q_records q) ->
  ci_issue_id (default i (get (ci_issue_id i) q)) = ci_issue_id i.
Proof. intros [_ Hit]. destruct (get _ q) eqn:E; [|done]. by apply Hit in E as [? _]. Qed.

Definition visit (s : RState W) (i : ClarificationItem) : RState W :=
  check_for_answer (default i (get (ci_issue_id i) (rs_queue s))) s.

Lemma visit_evolves s i :
  records_wf (q_records (rs_queue s)) ->
  evolves (ci_issue_id i) (rs_queue s) (rs_queue (visit s i)).
Proof. intros Hwf. rewrite <- (visited_id _ i Hwf). apply check_for_answer_evolves. Qed.

Lemma visits_wf l s :
  records_wf (q_records (rs_queue s)) -> records_wf (q_records (rs_queue (fold_left visit l s))).
Proof.
  revert s. induction l as [|i l IH]; intros s Hwf; [done|]. apply IH.
  eapply evolves_wf; [by apply visit_evolves|done].
Qed.

Lemma visits_other l s id :
  records_wf (q_records (rs_queue s)) -> id ∉ map ci_issue_id l ->
  get id (rs_queue (fold_left visit l s)) = get id (rs_queue s).
Proof.
  revert s. induction l as [|i l IH]; intros s Hwf Hni; [done|]. simpl in *.
  apply not_elem_of_cons in Hni as [Hne Hni].
  rewrite IH; [|eapply evolves_wf; [by apply visit_evolves|done]|done].
  eapply evolves_other; [by apply visit_evolves|done].
Qed.

(** The tracker calls do not turn the clock back. *)
Definition clock_monotone : Prop :=
  (forall id since w, (now (clock T w) <= now (clock T (snd (fetch_new_comments_since T id since w))))%Q) /\
  (forall id body ms w, (now (clock T w) <= now (clock T (snd (create_clarification_comment T id body ms w))))%Q).

Definition later (s s' : RState W) : Prop := (now (rclock s) <= now (rclock s'))%Q.

Lemma send_author_mention_later id i s :
  clock_monotone -> later s (snd (send_author_mention id i s)).
Proof.
  intros [_ Hc]. unfold send_author_mention, later, rclock.
  match goal with |- context [create_clarification_comment T ?a ?b ?m ?w] =>
    pose proof (Hc a b m w); destruct (create_clarification_comment T a b m w) as [[o|e] w'] end;
    simpl in *; [destruct (o ≫= _)|]; simpl; done.
Qed.

Lemma handle_timeout_later id i s : clock_monotone -> later s (handle_timeout id i s).
Proof.
  intros Hm. unfold handle_timeout. destruct (ci_status i); try apply Qle_refl.
  - match goal with |- context [send_author_mention id i ?s1] =>
      pose proof (send_author_mention_later id i s1 Hm) as Hl;
      destruct (send_author_mention id i s1) as [[u|e] s2] end; exact Hl.
  - unfold handle_escalation. break; apply Qle_refl.
Qed.

Lemma fetch_later id since s : clock_monotone -> later s (snd (fetch_new_author_comments id since s)).
Proof.
  intros [Hf _]. unfold fetch_new_author_comments, later, rclock. destruct (has_history T); simpl; [|lra].
  specialize (Hf id since (rs_world s)).
  by destruct (fetch_new_comments_since T id since (rs_world s)) as [[cs|e] w].
Qed.

Lemma check_for_answer_later i s : clock_monotone -> later s (check_for_answer i s).
Proof.
  intros Hm. unfold check_for_answer. destruct (is_expired _ _); [by apply handle_timeout_later|].
  assert (Hc : later s (snd (collect_candidates (ci_issue_id i) i s))).
  { unfold collect_candidates. destruct (mem (ci_status i) [AWAITING_LOCAL; AWAITING_AUTHOR]);
      [|apply Qle_refl].
    pose proof (fetch_later (ci_issue_id i) (ci_last_checked_comment_id i) s Hm) as Hf.
    destruct (fetch_new_author_comments _ _ _) as [cs s']. break; exact Hf. }
  destruct (collect_candidates _ _ _) as [cands s']. unfold settle_candidates, notify_rejected.
  break; exact Hc.
Qed.

Lemma visits_later l s : clock_monotone -> later s (fold_left visit l s).
Proof.
  intros Hm. revert s. induction l as [|i l IH]; intros s; [apply Qle_refl|]. simpl.
  eapply Qle_trans; [by apply check_for_answer_later|apply IH].
Qed.

(** A poll checks each active item once, in a state whose queue still has that
    item as it was, and leaves the others alone. *)
Lemma poll_visits s id i :
  records_wf (q_records (rs_queue s)) -> get id (rs_queue s) = Some i -> active (ci_status i) = true ->
  exists sa, records_wf (q_records (rs_queue sa)) /\ get id (rs_queue sa) = Some i /\
    get id (rs_queue (poll_clarification_answers s)) = get id (rs_queue (check_for_answer i sa)) /\
    (clock_monotone -> later s sa /\ later (check_for_answer i sa) (poll_clarification_answers s)).
Proof.
  intros Hwf Hget Ha. assert (Hid : ci_issue_id i = id) by (by apply Hwf).
  assert (Hin : i ∈ poll_active (rs_queue s)) by (apply poll_active_spec; [done|by rewrite Hid]).
  pose proof (poll_active_ids _ Hwf) as Hnd. unfold poll_clarification_answers.
  change (fun s i => check_for_answer (default i (get (ci_issue_id i) (rs_queue s))) s) with visit.
  apply list_elem_of_split in Hin as (l1 & l2 & Hl). rewrite Hl in *. clear Hl.
  rewrite map_app in Hnd. simpl in Hnd. apply NoDup_app in Hnd as (_ & Hdis & Hnd).
  apply NoDup_cons in Hnd as [Hni _].
  assert (Hn1 : id ∉ map ci_issue_id l1) by (intros Hx; apply (Hdis _ Hx); set_solver).
  rewrite Hid in Hni. rewrite fold_left_app. simpl. set (sa := fold_left visit l1 s).
  assert (Hsa : get id (rs_queue sa) = Some i) by (unfold sa; by rewrite visits_other).
  assert (Hwa : records_wf (q_records (rs_queue sa))) by (by apply visits_wf).
  exists sa. split; [done|]. split; [done|].
  assert (Hv : visit sa i = check_for_answer i sa) by (unfold visit; by rewrite Hid, Hsa).
  rewrite Hv. split.
  - rewrite visits_other; [done| |done]. rewrite <- Hv.
    eapply evolves_wf; [by apply visit_evolves|done].
  - intros Hm. split; [by apply visits_later|by apply visits_later].
Qed.

Lemma poll_inactive s id :
  records_wf (q_records (rs_queue s)) ->
  (forall i, get id (rs_queue s) = Some i -> active (ci_status i) = false) ->
  get id (rs_queue (poll_clarification_answers s)) = get id (rs_queue s).
Proof.
  intros Hwf Hna. apply visits_other; [done|].
  intros (i & Hid & Hin)%list_elem_of_fmap. apply poll_active_spec in Hin as [Hg Ha]; [|done].
  rewrite <- Hid in Hg. apply Hna in Hg. congruence.
Qed.

Lemma poll_wf s :
  records_wf (q_records (rs_queue s)) ->
  records_wf (q_records (rs_queue (poll_clarification_answers s))).
Proof. apply visits_wf. Qed.

(** *** What one check does to its item *)

(** Only the cursor and the time stamp may differ. *)
Definition cursor_moved (i i' : ClarificationItem) : Prop :=
  exists t c, i' = set_updated t (set_cursor c i) \/ i' = i.

Lemma cursor_moved_status i i' : cursor_moved i i' -> ci_status i' = ci_status i.
Proof. by intros (t & c & [-> | ->]). Qed.

Lemma cursor_moved_expires i i' : cursor_moved i i' -> ci_expires_at i' = ci_expires_at i.
Proof. by intros (t & c & [-> | ->]). Qed.

Lemma send_author_mention_item id i i0 s :
  get id (rs_queue s) = Some i0 ->
  exists i1, get id (rs_queue (snd (send_author_mention id i s))) = Some i1 /\ cursor_moved i0 i1.
Proof.
  intros Hg. unfold send_author_mention.
  destruct (create_clarification_comment _ _ _ _ _) as [[o|e] w];
    [destruct (o ≫= _)|]; simpl; try (exists i0; split; [done|by exists 0%Q, None; right]).
  unfold mark_comment_checked. rewrite get_update, decide_True, Hg by done. simpl.
  eexists. split; [done|]. do 2 eexists. by left.
Qed.

(** A question that timed out with the operator now waits for the author with a
    new deadline, or was given up because the author could not be asked. *)
Lemma timeout_local_spec id i s :
  get id (rs_queue s) = Some i -> ci_status i = AWAITING_LOCAL ->
  exists i', get id (rs_queue (handle_timeout id i s)) = Some i' /\
    ((ci_status i' = AWAITING_AUTHOR /\
      ci_expires_at i' = Some (now (rclock s) + qmax 0 (timeout_author_seconds cfg))%Q)
     \/ ci_status i' = TIMED_OUT_AUTHOR).
Proof.
  intros Hg Hs. unfold handle_timeout. rewrite Hs.
  set (s1 := on_queue _ s). set (s2 := on_queue _ s1).
  assert (H2 : exists i2, get id (rs_queue s2) = Some i2 /\ ci_status i2 = AWAITING_AUTHOR /\
             ci_expires_at i2 = Some (now (rclock s) + qmax 0 (timeout_author_seconds cfg))%Q).
  { unfold s2, s1, on_queue; simpl. unfold mark_awaiting_author, mark_expired.
    rewrite get_update, decide_True, get_update, decide_True, Hg by done. simpl. by eexists. }
  destruct H2 as (i2 & Hg2 & Hst2 & He2).
  destruct (send_author_mention_item id i i2 s2 Hg2) as (i3 & Hg3 & Hc).
  destruct (send_author_mention id i s2) as [[u|e] s3]; simpl in *;
    unfold mark_escalation_notified, mark_expired.
  - rewrite get_update, decide_True, Hg3 by done. simpl. eexists. split; [done|]. left.
    simpl. by rewrite (cursor_moved_status _ _ Hc), (cursor_moved_expires _ _ Hc).
  - rewrite get_update, decide_True, get_update, decide_True, Hg3 by done. simpl.
    eexists. split; [done|]. right. simpl. by rewrite (cursor_moved_status _ _ Hc), Hst2.
Qed.

(** A question that timed out with the author is exhausted. *)
Lemma timeout_author_spec id i s :
  get id (rs_queue s) = Some i -> ci_status i = AWAITING_AUTHOR ->
  exists i', get id (rs_queue (handle_timeout id i s)) = Some i' /\ ci_status i' = EXHAUSTED.
Proof.
  intros Hg Hs. unfold handle_timeout, handle_escalation. rewrite Hs.
  match goal with |- context [if ?b then ?x else (if ?b' then ?y else ?z)] =>
    replace (rs_queue (if b then x else (if b' then y else z))) with (rs_queue z)
      by (by destruct b, b') end.
  unfold on_queue; simpl. unfold mark_exhausted, mark_expired.
  rewrite get_update, decide_True, get_update, decide_True, Hg by done. simpl. by eexists.
Qed.

(** The two answers of one issue live in one item, so the queue never offers a
    second candidate. *)
Lemma queue_candidate_nil id i s :
  get id (rs_queue s) = Some i -> queue_candidate id i s = [].
Proof.
  intros Hg. unfold queue_candidate, get_resolved. rewrite Hg. by destruct (ci_status i).
Qed.

(** What a poll may find for an item: nothing, or one answer by its author. *)
Definition author_answer (id : string) (i : ClarificationItem) (s : RState W) (a : string) : Prop :=
  exists comments w login c b,
    has_history T = true /\
    fetch_new_comments_since T id (ci_last_checked_comment_id i) (rs_world s) = (Ret comments, w) /\
    c ∈ comments /\ ci_author_login i = Some login /\ authorized login i c = true /\
    c_body c = Some b /\ a = strip b.

Lemma filter_last_elem {A} (f : A -> bool) l x :
  last (List.filter f l) = Some x -> x ∈ l /\ f x = true.
Proof.
  intros H. apply last_Some_elem_of in H. rewrite list_elem_of_In, filter_In in H.
  by rewrite list_elem_of_In.
Qed.

Lemma collect_candidates_spec id i s :
  get id (rs_queue s) = Some i ->
  (exists i', get id (rs_queue (snd (collect_candidates id i s))) = Some i' /\ cursor_moved i i') /\
  (fst (collect_candidates id i s) = [] \/
   exists a t, fst (collect_candidates id i s) = [mkCandidate "author" a t] /\ author_answer id i s a).
Proof.
  intros Hg. unfold collect_candidates. rewrite queue_candidate_nil by done.
  assert (Hid : forall s' : RState W, rs_queue s' = rs_queue s ->
            exists i', get id (rs_queue s') = Some i' /\ cursor_moved i i').
  { intros s' ->. exists i. split; [done|]. exists 0%Q, None. by right. }
  destruct (mem _ _); [|split; [by apply Hid|by left]].
  unfold fetch_new_author_comments. destruct (has_history T) eqn:Hh; simpl;
    [|split; [by apply Hid|by left]].
  destruct (fetch_new_comments_since _ _ _ _) as [[cs|e] w] eqn:Ef; simpl;
    [|split; [by apply Hid|by left]].
  destruct (last cs) as [seen|]; simpl; [|split; [by apply Hid|by left]].
  assert (Hm : exists i', get id (snd (mark_comment_checked (rclock (set_world w s)) id (c_id seen)
                            (rs_queue s))) = Some i' /\ cursor_moved i i').
  { unfold mark_comment_checked. rewrite get_update, decide_True, Hg by done.
    simpl. eexists. split; [done|]. do 2 eexists. by left. }
  destruct (ci_author_login i) as [login|] eqn:Hl; simpl; [|split; [exact Hm|by left]].
  destruct (String.eqb login "") eqn:He; [split; [exact Hm|by left]|].
  destruct (last (List.filter _ cs)) as [c|] eqn:El; simpl; [|split; [exact Hm|by left]].
  split; [exact Hm|]. unfold comment_candidate. destruct (c_body c) as [b|] eqn:Hb; [|by left].
  destruct (String.eqb (strip b) ""); [by left|]. right.
  apply filter_last_elem in El as [Hin Hok]. do 2 eexists. split; [done|].
  exists cs, w, login, c, b. by rewrite Ef.
Qed.

(** What one check makes of its item: the deadline rules, or the author's
    answer, or the item as it was. *)
Lemma check_for_answer_spec i s :
  get (ci_issue_id i) (rs_queue s) = Some i -> active (ci_status i) = true ->
  is_expired (now (rclock s)) i = false ->
  exists i', get (ci_issue_id i) (rs_queue (check_for_answer i s)) = Some i' /\
    (cursor_moved i i' \/
     exists a, author_answer (ci_issue_id i) i s a /\ ci_answer i' = Some a /\
       ci_answer_source i' = Some "author" /\ ci_status i' = resolution (ci_status i) "author").
Proof.
  intros Hg Hact He. unfold check_for_answer. rewrite He.
  destruct (collect_candidates_spec _ _ _ Hg) as [(i1 & Hg1 & Hc) Hcand].
  destruct (collect_candidates _ _ _) as [cands s1]. simpl in *.
  destruct Hcand as [-> | (a & t & -> & Ha)]; simpl.
  - by exists i1; split; [|left].
  - unfold resolve. rewrite get_update, decide_True, Hg1 by done. simpl. eexists. split; [done|].
    right. exists a. simpl. by rewrite (cursor_moved_status _ _ Hc), Hact.
Qed.

(** ** Theorems *)

Lemma contains_prefix s t : contains s (s +:+ t) = true.
Proof.
  assert (H : String.prefix s (s +:+ t) = true).
  { induction s as [|a s IH]; simpl; [by destruct t|]. by destruct (Ascii.ascii_dec a a). }
  destruct (s +:+ t); cbn [contains]; by rewrite H.
Qed.

Lemma contains_later s pre t : contains s t = true -> contains s (pre +:+ t) = true.
Proof.
  intros H. induction pre as [|a pre IH]; [done|].
  change (String a pre +:+ t) with (String a (pre +:+ t)). cbn [contains]. by rewrite IH, orb_true_r.
Qed.

Lemma contains_amid s pre post : contains s (pre +:+ s +:+ post) = true.
Proof. apply contains_later, contains_prefix. Qed.

(** A comment with a prompt for the issue in it, whichever question it asked, is
    recognised; so is one with the present question in the form without marker. *)
Lemma own_prompt_recognised i j c pre post :
  ci_issue_id j = ci_issue_id i -> c_body c = Some (pre +:+ build_mention_body j +:+ post) ->
  is_own_clarification_comment c i = true.
Proof.
  intros Hid Hb. unfold is_own_clarification_comment. rewrite Hb. cbn [from_option id].
  unfold build_mention_body. rewrite append_assoc. unfold marker. rewrite Hid.
  by rewrite contains_amid.
Qed.

Lemma unmarked_prompt_recognised i c pre post :
  c_body c = Some (pre +:+ prompt_body i +:+ post) -> is_own_clarification_comment c i = true.
Proof.
  intros Hb. unfold is_own_clarification_comment. rewrite Hb. cbn [from_option id].
  apply orb_true_iff. right.
  assert (Hp : exists tail, prompt_body i +:+ post
    = "## Clarification Needed" +:+ (nl +:+ nl +:+ "I need some clarification on this issue:" +:+ nl +:+ nl)
      +:+ "**Question:**" +:+ " " +:+ ci_question i +:+ tail).
  { unfold prompt_body. destruct (ci_options i); rewrite !append_assoc; eexists; reflexivity. }
  destruct Hp as [tail ->]. rewrite !andb_true_iff. split_and!.
  - apply contains_amid.
  - apply contains_later, contains_later, contains_amid.
  - do 4 apply contains_later. apply contains_amid.
Qed.

Lemma handle_timeout_unresolved id i s :
  get id (rs_queue s) = Some i -> active (ci_status i) = true ->
  get_resolved id (rs_queue (handle_timeout id i s)) = None.
Proof.
  intros Hg Ha. unfold get_resolved. destruct (ci_status i) eqn:Hs; try done.
  - unfold handle_timeout. by rewrite Hs, Hg, Hs.
  - destruct (timeout_local_spec _ _ _ Hg Hs) as (i' & -> & [[-> _] | ->]); done.
  - destruct (timeout_author_spec _ _ _ Hg Hs) as (i' & -> & ->); done.
Qed.

(** C13: when a poll resolves a question that was open and not resolved before, in
    a queue whose records are well formed and kept under their own issue ids, the
    answer is the stripped text of a comment the tracker returned for that issue,
    written under the login recorded as the issue's author (up to case and
    blanks), and recorded as the author's; the comment holds neither a prompt that
    the daemon marked for this issue, for whatever question, nor the text of the
    present prompt. *)
Theorem only_the_author_answers (s : RState W) (id : string) (r : ClarificationItem) :
  records_wf (q_records (rs_queue s)) -> get_resolved id (rs_queue s) = None ->
  get_resolved id (rs_queue (poll_clarification_answers s)) = Some r ->
  exists i since w comments w' login c b a,
    get id (rs_queue s) = Some i /\ active (ci_status i) = true /\
    fetch_new_comments_since T id since w = (Ret comments, w') /\ c ∈ comments /\
    ci_author_login i = Some login /\ c_author_login c = Some a /\ login_key a = login_key login /\
    c_body c = Some b /\
    (forall j pre post, ci_issue_id j = id -> b <> pre +:+ build_mention_body j +:+ post) /\
    (forall pre post, b <> pre +:+ prompt_body i +:+ post) /\
    ci_answer r = Some (strip b) /\ ci_answer_source r = Some "author" /\
    ci_status r = RESOLVED_AUTHOR.
Proof.
  intros Hwf Hn Hr.
  destruct (get id (rs_queue s)) as [i|] eqn:Hg.
  2: { unfold get_resolved in Hr. rewrite poll_inactive, Hg in Hr by (done || congruence). done. }
  destruct (active (ci_status i)) eqn:Ha.
  2: { unfold get_resolved in Hr, Hn. rewrite poll_inactive, Hg in Hr by (done || congruence).
       rewrite Hg in Hn. congruence. }
  assert (Hid : ci_issue_id i = id) by (by apply Hwf).
  destruct (poll_visits s id i Hwf Hg Ha) as (sa & _ & Hga & Hp & _).
  unfold get_resolved in Hr. rewrite Hp in Hr.
  destruct (is_expired (now (rclock sa)) i) eqn:He.
  { pose proof (handle_timeout_unresolved id i sa Hga Ha) as Hh. unfold get_resolved in Hh.
    unfold check_for_answer in Hr. rewrite He, Hid in Hr. congruence. }
  rewrite <- Hid in Hga, Hr. destruct (check_for_answer_spec i sa Hga Ha He) as (i' & Hg' & Hi').
  rewrite Hg' in Hr. destruct (resolved (ci_status i')) eqn:Er; simplify_eq.
  destruct Hi' as [Hc | (a & (cs & w & login & c & b & _ & Hf & Hin & Hl & Hok & Hb & ->) & Hans & Hsrc & Hst)].
  { rewrite (cursor_moved_status _ _ Hc) in Er. by destruct (ci_status i). }
  unfold authorized in Hok. destruct (c_author_login c) as [au|] eqn:Hau; [|done].
  apply andb_true_iff in Hok as [[_ Hkey]%andb_true_iff Hown].
  exists i, (ci_last_checked_comment_id i), (rs_world sa), cs, w, login, c, b, au.
  repeat split; try done.
  - by apply String.eqb_eq.
  - intros j pre post Hj ->. by rewrite (own_prompt_recognised i j c pre post) in Hown.
  - intros pre post ->. by rewrite (unmarked_prompt_recognised i c pre post) in Hown.
  - rewrite Hst. by destruct (ci_status i).
Qed.

Lemma expired_check i s :
  is_expired (now (rclock s)) i = true -> check_for_answer i s = handle_timeout (ci_issue_id i) i s.
Proof. intros He. unfold check_for_answer. by rewrite He. Qed.

Lemma is_expired_later i t t' : (t <= t')%Q -> is_expired t i = true -> is_expired t' i = true.
Proof. unfold is_expired. destruct (ci_expires_at i); [|done]. intros. qsimp. lra. Qed.

(** Polls of an expired question: with the author it is over, with the operator
    it is over or moves to the author with a new deadline. *)
Lemma poll_expired s id i :
  clock_monotone -> records_wf (q_records (rs_queue s)) -> get id (rs_queue s) = Some i ->
  ci_status i = AWAITING_LOCAL \/ ci_status i = AWAITING_AUTHOR ->
  is_expired (now (rclock s)) i = true ->
  exists i', get id (rs_queue (poll_clarification_answers s)) = Some i' /\
    (active (ci_status i') = false \/
     ci_status i = AWAITING_LOCAL /\ ci_status i' = AWAITING_AUTHOR /\
     exists d, ci_expires_at i' = Some d /\
       (d <= now (rclock (poll_clarification_answers s)) + qmax 0 (timeout_author_seconds cfg))%Q).
Proof.
  intros Hm Hwf Hg Hs He. assert (Hid : ci_issue_id i = id) by (by apply Hwf).
  assert (Ha : active (ci_status i) = true) by (by destruct Hs as [-> | ->]).
  destruct (poll_visits s id i Hwf Hg Ha) as (sa & _ & Hga & Hp & Hl).
  destruct (Hl Hm) as [Hl1 Hl2]. unfold later in *.
  assert (He' := is_expired_later _ _ _ Hl1 He).
  pose proof (check_for_answer_later i sa Hm) as Hl3. unfold later in Hl3.
  rewrite Hp. rewrite (expired_check i sa He') in *. rewrite Hid in *.
  destruct Hs as [Hs|Hs].
  - destruct (timeout_local_spec id i sa Hga Hs) as (i' & -> & [[Hst Hex] | Hst]); exists i'.
    + split; [done|]. right. split; [done|]. split; [done|]. eexists. split; [done|]. lra.
    + split; [done|]. left. by rewrite Hst.
  - destruct (timeout_author_spec id i sa Hga Hs) as (i' & -> & Hst). exists i'.
    split; [done|]. left. by rewrite Hst.
Qed.

(** No question waits for ever: one whose deadline has passed is closed by the
    next poll, or handed to the author and closed by the first poll after the
    author's time.  This needs no answer and no working tracker, only a clock
    that does not go back and two polls. *)
Theorem every_question_ends (s : RState W) (id : string) (i : ClarificationItem) (w2 : W) :
  clock_monotone -> records_wf (q_records (rs_queue s)) -> get id (rs_queue s) = Some i ->
  ci_status i = AWAITING_LOCAL \/ ci_status i = AWAITING_AUTHOR ->
  is_expired (now (rclock s)) i = true ->
  let s1 := poll_clarification_answers s in
  (now (rclock s1) + qmax 0 (timeout_author_seconds cfg) <= now (clock T w2))%Q ->
  exists i2, get id (rs_queue (poll_clarification_answers (set_world w2 s1))) = Some i2 /\
    active (ci_status i2) = false.
Proof.
  intros Hm Hwf Hg Hs He s1 Hw2. pose proof (poll_wf s Hwf) as Hwf1.
  destruct (poll_expired s id i Hm Hwf Hg Hs He) as (i1 & Hg1 & [Hi1 | (_ & Hst1 & d & Hd & Hle)]).
  - exists i1. split; [|done]. rewrite poll_inactive; [done|done|]. simpl. intros j Hj.
    change (get id (rs_queue s1) = Some j) in Hj. unfold s1 in Hj. congruence.
  - destruct (poll_expired (set_world w2 s1) id i1 Hm Hwf1 Hg1) as (i2 & Hg2 & Hi2).
    + by right.
    + unfold is_expired. rewrite Hd. apply qle_true. unfold s1, rclock in *. simpl in *. lra.
    + exists i2. split; [done|]. destruct Hi2 as [|(Hx & _)]; [done|congruence].
Qed.

Lemma send_raise_queue id i s e :
  fst (send_author_mention id i s) = Raise e -> rs_queue (snd (send_author_mention id i s)) = rs_queue s.
Proof. unfold send_author_mention. by break. Qed.

(** [request_clarification] asks once and leaves nothing behind when it fails:
    an issue already in the queue is answered from it without any change; a new
    question waits for the operator or the author with a deadline; and when the
    author's comment cannot be posted, the error is raised and the queue holds
    the records it held before. *)
Theorem request_clarification_spec (s : RState W) (id ident question context : string)
    (options : list string) (with_author : bool) (since author : option string) :
  let timeout := if with_author then timeout_author_seconds cfg else timeout_local_seconds cfg in
  match request_clarification id ident question context options with_author since author s with
  | (Ret r, s') =>
      match get id (rs_queue s) with
      | Some i => s' = s /\ cr_status r = ci_status i /\
          (resolved (ci_status i) = true -> cr_answer r = ci_answer i) /\
          (resolved (ci_status i) = false -> cr_answer r = None)
      | None => exists i, get id (rs_queue s') = Some i /\ ci_status i = cr_status r /\
          cr_status r = (if with_author then AWAITING_AUTHOR else AWAITING_LOCAL) /\
          cr_answer r = None /\ ci_question i = question /\ ci_author_login i = author /\
          ci_expires_at i = Some (now (rclock s) + if with_author then qmax 0 timeout else timeout)%Q
      end
  | (Raise e, s') =>
      get id (rs_queue s) = None /\ q_records (rs_queue s') = q_records (rs_queue s)
  end.
Proof.
  intros timeout. unfold request_clarification.
  destruct (get id (rs_queue s)) as [i|] eqn:Hg.
  { unfold get_resolved. rewrite Hg. by destruct (resolved (ci_status i)) eqn:Er. }
  set (s1 := on_queue _ s).
  assert (Hg1 : get id (rs_queue s1) = Some (fst (enqueue (rclock s) id ident question options
            context (Some timeout) since author (rs_queue s)))).
  { unfold s1, on_queue; simpl. apply dget_dset_eq. }
  destruct with_author; cbv iota.
  - unfold mark_awaiting_author, update. rewrite Hg1. simpl.
    set (i1 := set_updated _ _). set (s2 := on_queue _ s1).
    assert (Hg2 : get id (rs_queue s2) = Some i1).
    { unfold s2, on_queue; simpl. unfold get; simpl. apply dget_dset_eq. }
    destruct (send_author_mention_item id i1 i1 s2 Hg2) as (i3 & Hg3 & Hc).
    pose proof (send_raise_queue id i1 s2) as Hev.
    destruct (send_author_mention id i1 s2) as [[u|e] s3]; simpl in *.
    + exists i3. split; [done|]. by destruct Hc as (t & c & [-> | ->]).
    + split; [done|]. unfold remove, dmem. unfold get in Hg3. rewrite Hg3. simpl.
      rewrite (Hev e eq_refl). unfold s2, s1; simpl. rewrite !ddel_dset. by apply ddel_id.
  - eexists. split; [unfold on_queue, mark_awaiting_local; cbn [rs_queue];
      by rewrite get_update, decide_True, Hg1|done].
Qed.

(** Polls with the world changing freely in between. *)
Definition polls (ws : list W) (s : RState W) : RState W :=
  fold_left (fun s w => poll_clarification_answers (set_world w s)) ws s.

Lemma polls_inactive ws s id :
  records_wf (q_records (rs_queue s)) ->
  (forall i, get id (rs_queue s) = Some i -> active (ci_status i) = false) ->
  get id (rs_queue (polls ws s)) = get id (rs_queue s).
Proof.
  revert s. induction ws as [|w ws IH]; intros s Hwf Hna; [done|]. simpl.
  pose proof (poll_inactive (set_world w s) id Hwf Hna) as Hp.
  rewrite IH; [done|by apply poll_wf|]. rewrite Hp. exact Hna.
Qed.

(** When the operator's time is over and the comment to the author cannot be
    posted, the question is left timed out for good: the policy that should
    take over never runs (the list of failed issues and the notifications stay
    as they were) and no later poll touches the item, whatever the tracker
    does. *)
Theorem undelivered_mention_strands (s : RState W) (i : ClarificationItem) (e : exn) (ws : list W) :
  let id := ci_issue_id i in
  records_wf (q_records (rs_queue s)) -> get id (rs_queue s) = Some i ->
  ci_status i = AWAITING_LOCAL -> is_expired (now (rclock s)) i = true ->
  fst (create_clarification_comment T id (build_mention_body i)
         (match str_or (ci_author_login i) None with Some a => [a] | None => [] end) (rs_world s)) = Raise e ->
  let s1 := check_for_answer i s in
  rs_failed s1 = rs_failed s /\ rs_notes s1 = rs_notes s /\
  exists i1, ci_status i1 = TIMED_OUT_AUTHOR /\ get id (rs_queue (polls ws s1)) = Some i1.
Proof.
  intros id Hwf Hg Hs He Hc s1.
  assert (Hid : ci_issue_id i = id) by done.
  assert (H1 : rs_failed s1 = rs_failed s /\ rs_notes s1 = rs_notes s /\
     exists i1, ci_status i1 = TIMED_OUT_AUTHOR /\ get id (rs_queue s1) = Some i1).
  { unfold s1. rewrite expired_check by done. unfold handle_timeout, send_author_mention.
    fold id. rewrite Hs. simpl.
    destruct (create_clarification_comment _ _ _ _ _) as [[o|e'] w]; [done|]. simpl.
    split; [done|]. split; [done|].
    unfold mark_escalation_notified, mark_expired, mark_awaiting_author.
    do 4 (rewrite get_update, decide_True by done). rewrite Hg. simpl.
    eexists. by split; cycle 1. }
  destruct H1 as (-> & -> & i1 & Hst & Hg1). split; [done|]. split; [done|].
  exists i1. split; [done|]. rewrite polls_inactive; [done| |].
  - unfold s1. eapply evolves_wf; [apply check_for_answer_evolves|done].
  - intros j Hj. rewrite Hg1 in Hj. simplify_eq. by rewrite Hst.
Qed.

(** The handling of simultaneous answers is never reached, and would lose the
    answer if it were: the candidates for a question of the queue never number
    more than one, while with an author's answer beating an operator's, the
    operator's is marked stale on the same item, which is then resolved no
    more. *)
Theorem conflict_handling_unreachable_and_lossy (s : RState W) (id : string) (i : ClarificationItem)
    (local author : Candidate) :
  get id (rs_queue s) = Some i ->
  local_source (cd_source local) = true -> cd_source author = "author" ->
  operator_priority cfg = false -> (cd_time author < cd_time local)%Q ->
  (length (fst (collect_candidates id i s)) <= 1)%nat /\
  get_resolved id (rs_queue (settle_candidates id [local; author] s)) = None.
Proof.
  intros Hg Hl Ha Hp Ht. split.
  - destruct (collect_candidates_spec id i s Hg) as [_ [-> | (a & t & -> & _)]]; simpl; lia.
  - unfold settle_candidates, resolve_conflict. rewrite Hp, andb_false_r.
    replace (qle (cd_time local) (cd_time author)) with false by (symmetry; by qsimp).
    unfold notify_rejected, apply_answer.
    replace (String.eqb (cd_source local) "author") with false.
    2: { symmetry. apply String.eqb_neq. intros Hx. rewrite Hx in Hl. done. }
    unfold get_resolved, on_queue; simpl. unfold mark_stale, resolve.
    do 2 (rewrite get_update, decide_True by done). by rewrite Hg.
Qed.
End resolver.

(** *** Concrete runs *)

(** A tracker whose world is the clock: alice answers, or posting fails. *)
Definition sample_tracker (post_fails : bool) : Tracker Q :=
  mkTracker Q (fun w => mkClock w Written) true
    (fun _ since w =>
       (Ret (if bool_decide (since = Some "c1") then []
             else [mkComment (Some "c1") (Some " v2 ") (Some "Alice") None]), w))
    (fun _ _ _ w =>
       (if post_fails then Raise (mkExn OtherException [Lit "HTTP 500"] None)
        else Ret (Some (mkComment (Some "c0") None None None)), w))
    (fun _ => None).

Definition sample_config : ClarificationConfig := mkClarificationConfig 1800 259200 true 5000 "skip".

Definition empty_rstate : RState Q := mkRState (load Absent) Absent Absent 0%Q.

(** A question asked at time 0, of the author or of the operator. *)
Definition asked (with_author : bool) : RState Q :=
  snd (request_clarification (sample_tracker false) sample_config "7" "acme/app#7" "Which version?" ""
         [] with_author None (Some "alice") empty_rstate).

Lemma asked_wf b : records_wf (q_records (rs_queue (asked b))).
Proof. destruct b; (apply records_wf_one; [done|split; [set_solver|done]]). Qed.

Lemma only_the_author_answers_witness :
  exists r, get_resolved "7" (rs_queue (poll_clarification_answers (sample_tracker false) sample_config
                                          (asked true))) = Some r /\
    ci_answer_source r = Some "author".
Proof.
  eexists. split; [vm_compute; reflexivity|].
  edestruct (only_the_author_answers (sample_tracker false) sample_config (asked true) "7")
    as (i & since & w & cs & w' & l & c & b & a & H); [apply asked_wf|done|vm_compute; reflexivity|].
  apply H.
Defined.

Lemma sample_clock_monotone b : clock_monotone (sample_tracker b).
Proof. split; intros; apply Qle_refl. Qed.

Lemma every_question_ends_witness :
  exists i, get "7" (rs_queue (poll_clarification_answers (sample_tracker false) sample_config
                      (set_world 300000%Q (poll_clarification_answers (sample_tracker false) sample_config
                                             (set_world 2000%Q (asked false)))))) = Some i /\
    active (ci_status i) = false.
Proof.
  eapply (every_question_ends (sample_tracker false) sample_config (set_world 2000%Q (asked false)) "7").
  - apply sample_clock_monotone.
  - apply asked_wf.
  - vm_compute; reflexivity.
  - by left.
  - done.
  - vm_compute. done.
Defined.

Definition asked_item : ClarificationItem :=
  set_updated 0 (set_status AWAITING_LOCAL
    (fst (enqueue (mkClock 0 Written) "7" "acme/app#7" "Which version?" [] "" (Some 1800%Q) None
            (Some "alice") (load Absent)))).

Lemma undelivered_mention_strands_witness :
  exists i1, ci_status i1 = TIMED_OUT_AUTHOR /\
    get "7" (rs_queue (polls (sample_tracker true) sample_config [3000%Q; 900000%Q]
               (check_for_answer (sample_tracker true) sample_config asked_item
                  (set_world 2000%Q (asked false))))) = Some i1.
Proof.
  edestruct (undelivered_mention_strands (sample_tracker true) sample_config
               (set_world 2000%Q (asked false)) asked_item)
    as (_ & _ & i1 & H1 & H2);
    [apply asked_wf|vm_compute; reflexivity|done|done|vm_compute; reflexivity|].
  exists i1. split; [exact H1|exact H2].
Defined.

Lemma conflict_handling_unreachable_and_lossy_witness :
  exists i, get "7" (rs_queue (asked false)) = Some i /\
  get_resolved "7" (rs_queue (settle_candidates (sample_tracker false)
     (mkClarificationConfig 1800 259200 false 5000 "skip") "7"
     [mkCandidate "dashboard" "v1" 20; mkCandidate "author" "v2" 10] (asked false))) = None.
Proof.
  eexists. split; [vm_compute; reflexivity|].
  eapply (conflict_handling_unreachable_and_lossy (sample_tracker false)
            (mkClarificationConfig 1800 259200 false 5000 "skip") (asked false) "7");
    [vm_compute; reflexivity|done..].
Defined.
