(* ===== verification/ClarModel.v ===== *)
(** * Clarity analysis: data, parsing, prompt
    ([src/orchestratord/issue_clarifier/models.py], [parser.py], [prompt.py])

    The questions and results of the clarity analysis, their dictionary
    encoding, the parser of the model's answer and the size-bounded prompt.
    [json.loads], [json.dumps], [float] of a string and [str] of a value that is
    no string are parameters ([Text]). *)

From S2P Require Import Prelude Errors Dag StageRunner Regex.

Open Scope string_scope.
Open Scope list_scope.
Open Scope Z_scope.

(** What the standard library does with texts. *)
Record Text := mkText {
  repr : pyval -> string;
  parse_float : string -> option Q;
  json_loads : string -> option pyval;
  json_dumps : pyval -> string;
}.

Definition AMBIGUITY_TYPES : list string := ["missing"; "vague"; "contradictory"; "unexecutable"].

Record ClarifyQuestion := mkQuestion {
  cq_question : string;
  cq_ambiguity_type : string;
  cq_evidence : string;
  cq_suggested_options : list string;
}.

(** An element of [ambiguities]: a question object, or the dictionary that
    [asdict] makes of one. *)
Inductive ambiguity :=
| Question (q : ClarifyQuestion)
| QuestionDict (d : dict string pyval).

Record ClarifyResult := mkClarifyResult {
  cl_is_clear : bool;
  cl_ambiguities : list ambiguity;
  cl_confidence : Q;
  cl_fingerprint : string;
  cl_reason : string;
  cl_degraded : bool;
  cl_cached : bool;
  cl_metadata : dict string pyval;
}.

Definition attribute_error (what : string) : exn :=
  mkExn OtherException [Lit "AttributeError: "; Lit what] None.

(** [item.question]: a dictionary has no such attribute. *)
Definition question_text (a : ambiguity) : outcome exn string :=
  match a with
  | Question q => Ret (cq_question q)
  | QuestionDict _ => Raise (attribute_error "question")
  end.

Definition questions (r : ClarifyResult) : outcome exn (list string) :=
  texts ← map_outcome question_text (cl_ambiguities r);
  Ret (List.filter (fun t => negb (String.eqb t "")) texts).

(** [with_runtime_fields(fingerprint=...)] *)
Definition with_fingerprint (fp : string) (r : ClarifyResult) : ClarifyResult :=
  mkClarifyResult (cl_is_clear r) (cl_ambiguities r) (cl_confidence r) fp (cl_reason r)
    (cl_degraded r) (cl_cached r) (cl_metadata r).

(** ** Dictionaries *)

(** [ClarifyQuestion.to_dict]; [asdict] gives the same keys in this order. *)
Definition question_to_dict (q : ClarifyQuestion) : dict string pyval :=
  [("question", PStr (cq_question q)); ("ambiguity_type", PStr (cq_ambiguity_type q));
   ("evidence", PStr (cq_evidence q));
   ("suggested_options", PList (map PStr (cq_suggested_options q)))].

Definition ambiguity_to_dict (a : ambiguity) : dict string pyval :=
  match a with
  | Question q => question_to_dict q
  | QuestionDict d => d
  end.

(** [max(0.0, min(1.0, c))] *)
Definition clamp01 (c : Q) : Q := qmax 0 (qmin 1 c).

(** The least integer that [float] refuses. *)
Definition FLOAT_OVERFLOW : Z := 2 ^ 1024 - 2 ^ 970.
#[global] Opaque FLOAT_OVERFLOW.

(** [float(v)]: a value, a [TypeError] or [ValueError] ([inl false]), or the
    [OverflowError] of an integer that no double can hold ([inl true]). *)
Definition to_float (X : Text) (v : pyval) : bool + Q :=
  match v with
  | PInt z => if FLOAT_OVERFLOW <=? Z.abs z then inl true else inr (inject_Z z)
  | PFloat q => inr q
  | PBool b => inr (if b then 1 else 0)%Q
  | PStr s => match parse_float X s with Some q => inr q | None => inl false end
  | _ => inl false
  end.

Definition overflow_error : exn :=
  mkExn OtherException [Lit "OverflowError: int too large to convert to float"] None.

(** [try: float(raw.get("confidence", 0.0)) except (TypeError, ValueError): 0.0] *)
Definition confidence_of (X : Text) (raw : dict string pyval) : outcome exn Q :=
  match to_float X (default (PFloat 0) (dget "confidence" raw)) with
  | inr q => Ret q
  | inl false => Ret 0%Q
  | inl true => Raise overflow_error
  end.

Section text.
Context (X : Text).

Definition py_str (v : pyval) : string :=
  match v with PStr s => s | _ => repr X v end.

(** [str(raw.get(k) or dflt)] *)
Definition str_field (raw : dict string pyval) (k dflt : string) : string :=
  match dget k raw with
  | None => dflt
  | Some v => if truthy v then py_str v else dflt
  end.

(** [str(o).strip()[:300] for o in options[:5] if str(o).strip()] *)
Definition option_texts (options : list pyval) : list string :=
  map (take_str 300)
    (List.filter (fun t => negb (String.eqb t "")) (map (fun o => strip (py_str o)) (take 5 options))).

(** [ClarifyQuestion.from_dict] *)
Definition question_from_dict (raw : dict string pyval) : ClarifyQuestion :=
  let ty := lower (strip (str_field raw "ambiguity_type" "vague")) in
  mkQuestion (take_str 1000 (strip (str_field raw "question" "")))
    (if mem ty AMBIGUITY_TYPES then ty else "vague")
    (take_str 1000 (strip (str_field raw "evidence" "")))
    (option_texts (match dget "suggested_options" raw with Some (PList l) => l | _ => [] end)).

(** [ClarifyResult.to_dict] *)
Definition result_to_dict (r : ClarifyResult) : dict string pyval :=
  [("is_clear", PBool (cl_is_clear r));
   ("ambiguities", PList (map (fun a => PDict (ambiguity_to_dict a)) (cl_ambiguities r)));
   ("confidence", PFloat (cl_confidence r)); ("fingerprint", PStr (cl_fingerprint r));
   ("reason", PStr (cl_reason r)); ("degraded", PBool (cl_degraded r));
   ("metadata", PDict (cl_metadata r))].

Definition dict_rows (v : option pyval) : list (dict string pyval) :=
  match v with
  | Some (PList l) => omap (fun row => match row with PDict d => Some d | _ => None end) l
  | _ => []
  end.

(** [ClarifyResult.from_dict].  [metadata] is a dictionary or falsy, as every
    writer leaves it; of anything else [dict] is taken to raise. *)
Definition result_from_dict (raw : dict string pyval) : outcome exn ClarifyResult :=
  let ambiguities := map (fun d => Question (question_from_dict d)) (dict_rows (dget "ambiguities" raw)) in
  confidence ← confidence_of X raw;
  metadata ← match dget "metadata" raw with
             | Some (PDict d) => Ret d
             | Some v => if truthy v then Raise (mkExn OtherException [Lit "TypeError"] None) else Ret []
             | None => Ret []
             end;
  Ret (mkClarifyResult (truthy (default (PBool true) (dget "is_clear" raw))) ambiguities
         (clamp01 confidence) (str_field raw "fingerprint" "") (str_field raw "reason" "")
         (truthy (default (PBool false) (dget "degraded" raw))) false metadata).

(** ** The parser *)

(** The part of [s] from its first [c] on. *)
Fixpoint from_first (c : Ascii.ascii) (s : string) : option string :=
  match s with
  | EmptyString => None
  | String a s' => if Ascii.eqb a c then Some s else from_first c s'
  end.

(** The part of [s] up to and including its last [c]. *)
Fixpoint upto_last (c : Ascii.ascii) (s : string) : option string :=
  match s with
  | EmptyString => None
  | String a s' =>
      match upto_last c s' with
      | Some t => Some (String a t)
      | None => if Ascii.eqb a c then Some (String a EmptyString) else None
      end
  end.

(** [re.search(r"\{.*\}", text, DOTALL)] *)
Definition braces (text : string) : option string :=
  from_first (Ascii.ascii_of_N 123) text ≫= upto_last (Ascii.ascii_of_N 125).

(** [_loads_json]; [None] is what is no JSON value. *)
Definition loads_json (raw : string) : option pyval :=
  let text := strip raw in
  if String.eqb text "" then None
  else
    match json_loads X text with
    | Some v => Some v
    | None => braces text ≫= json_loads X
    end.

Definition degraded_clear (reason : string) (confidence : Q) : ClarifyResult :=
  mkClarifyResult true [] confidence "" reason true false [].

(** The loop over the rows: [limit] is [max(1, int(max_questions))]. *)
Fixpoint collect_questions (limit : nat) (rows : list pyval) (acc : list ClarifyQuestion)
    : list ClarifyQuestion :=
  match rows with
  | [] => acc
  | PDict d :: rows' =>
      let q := question_from_dict d in
      let acc := if String.eqb (cq_question q) "" then acc else acc ++ [q] in
      if (limit <=? length acc)%nat then acc else collect_questions limit rows' acc
  | _ :: rows' => collect_questions limit rows' acc
  end.

(** The judgement on an answer with a clamped confidence. *)
Definition judge (data : dict string pyval) (confidence min_confidence : Q) (max_questions : Z)
    : ClarifyResult :=
  if qlt confidence min_confidence then
    mkClarifyResult true [] confidence "" "clarifier confidence below blocking threshold" true false []
  else
    let rows := match dget "ambiguities" data with Some (PList l) => l | _ => [] end in
    let questions := collect_questions (Z.to_nat (Z.max 1 max_questions)) rows [] in
    match dget "is_clear" data with
    | Some (PBool true) =>
        mkClarifyResult true [] confidence "" "provider analysis" false false []
    | Some (PBool false) =>
        match questions with
        | [] => degraded_clear "unclear response contained no actionable questions" confidence
        | _ => mkClarifyResult false (map Question questions) confidence "" "provider analysis"
                 false false []
        end
    | _ => degraded_clear "provider returned non-boolean is_clear" confidence
    end.

Definition parse_clarify_response (raw : string) (min_confidence : Q) (max_questions : Z)
    : outcome exn ClarifyResult :=
  match loads_json raw with
  | Some (PDict data) =>
      confidence ← confidence_of X data;
      Ret (judge data (clamp01 confidence) min_confidence max_questions)
  | _ => Ret (degraded_clear "provider returned non-JSON output" 0)
  end.
End text.

(** ** The prompt *)

(** The JSON payload of the user message. *)
Record Payload := mkPayload {
  p_title : string;
  p_description : string;
  p_labels : list string;
  p_author_replies : list string;
  p_max_questions : Z;
  p_workspace_focuses : option pyval;
  p_truncated : bool;
}.

Definition payload_value (p : Payload) : pyval :=
  PDict ([("title", PStr (p_title p)); ("description", PStr (p_description p));
          ("labels", PList (map PStr (p_labels p)));
          ("author_replies", PList (map PStr (p_author_replies p)));
          ("max_questions", PInt (p_max_questions p))]
         ++ match p_workspace_focuses p with Some v => [("workspace_focuses", v)] | None => [] end
         ++ (if p_truncated p then [("_truncated", PBool true)] else [])).

(** A place of the payload that can be shortened. *)
Inductive place :=
| Title
| Description
| Label (k : nat)
| Reply (k : nat).

Definition nonempty (c : nat * place) : bool := negb (Nat.eqb (fst c) 0).

(** [candidates], in the order they are appended. *)
Definition candidates (p : Payload) : list (nat * place) :=
  List.filter nonempty
    ([(String.length (p_title p), Title); (String.length (p_description p), Description)]
     ++ imap (fun k s => (String.length s, Label k)) (p_labels p)
     ++ imap (fun k s => (String.length s, Reply k)) (p_author_replies p)).

(** [max(candidates, key=length)]: the first of the longest. *)
Definition longest (cs : list (nat * place)) : option (nat * place) :=
  fold_left (fun best c =>
               match best with
               | None => Some c
               | Some b => if (fst b <? fst c)%nat then Some c else best
               end) cs None.

(** [container[key] = container[key][:n]] *)
Definition shorten (n : nat) (pl : place) (p : Payload) : Payload :=
  let cut := take_str n in
  match pl with
  | Title => mkPayload (cut (p_title p)) (p_description p) (p_labels p) (p_author_replies p)
               (p_max_questions p) (p_workspace_focuses p) (p_truncated p)
  | Description => mkPayload (p_title p) (cut (p_description p)) (p_labels p) (p_author_replies p)
                     (p_max_questions p) (p_workspace_focuses p) (p_truncated p)
  | Label k => mkPayload (p_title p) (p_description p) (alter cut k (p_labels p)) (p_author_replies p)
                 (p_max_questions p) (p_workspace_focuses p) (p_truncated p)
  | Reply k => mkPayload (p_title p) (p_description p) (p_labels p) (alter cut k (p_author_replies p))
                 (p_max_questions p) (p_workspace_focuses p) (p_truncated p)
  end.

(** The fixed text sent when shortening does not suffice. *)
Definition skeleton (max_questions : Z) : pyval :=
  payload_value (mkPayload "" "" [] [] max_questions None true).

(** [_shrink_payload_to_limit]: at most 64 rounds. *)
Fixpoint shrink (X : Text) (rounds : nat) (p : Payload) (max_chars : nat) : string :=
  match rounds with
  | O => json_dumps X (skeleton (p_max_questions p))
  | S rounds' =>
      let raw := json_dumps X (payload_value p) in
      if (String.length raw <=? max_chars)%nat then raw
      else
        let overflow := (String.length raw - max_chars)%nat in
        match longest (candidates p) with
        | None => json_dumps X (skeleton (p_max_questions p))
        | Some (len, pl) =>
            let trim := Nat.min len (Nat.max 1 (overflow + 16)) in
            shrink X rounds' (shorten (len - trim) pl p) max_chars
        end
  end.

Definition max_chars (max_input_tokens : Z) : nat := Z.to_nat (Z.max 1000 (max_input_tokens * 4)).

(** The user message of [build_clarify_messages]. *)
Definition build_clarify_content (X : Text) (title description : option string) (labels : list string)
    (prior_replies : list string) (max_questions max_input_tokens : Z)
    (workspace_focuses : option pyval) : string :=
  let p := mkPayload (default "" title) (default "" description) labels
             (List.filter (fun r => negb (String.eqb (strip r) "")) prior_replies)
             (Z.max 1 max_questions)
             (match workspace_focuses with Some v => if truthy v then Some v else None | None => None end)
             false in
  let limit := max_chars max_input_tokens in
  let raw := json_dumps X (payload_value p) in
  if (String.length raw <=? limit)%nat then raw
  else shrink X 64
         (mkPayload (p_title p) (p_description p) (p_labels p) (p_author_replies p)
            (p_max_questions p) (p_workspace_focuses p) true) limit.

(** ** Lemmas *)

Lemma take_str_length n s : (String.length (take_str n s) <= n)%nat.
Proof.
  unfold take_str. revert n. induction s as [|a s IH]; intros [|n]; simpl; try lia.
  specialize (IH n). lia.
Qed.

Lemma take_str_id n s : (String.length s <= n)%nat -> take_str n s = s.
Proof.
  unfold take_str. revert n. induction s as [|a s IH]; intros [|n] Hle; simpl in *; try lia; try done.
  rewrite IH; [done|lia].
Qed.

Lemma take_str_nonempty n s : (0 < n)%nat -> s <> "" -> take_str n s <> "".
Proof. intros Hn Hs. destruct s; [done|]. by destruct n; [lia|]. Qed.

Lemma clamp01_range c : (0 <= clamp01 c <= 1)%Q.
Proof.
  unfold clamp01. split; [apply qmax_le_l|].
  unfold qmax. pose proof (qmin_le_l 1 c). by destruct (Qle_bool 0 (qmin 1 c)).
Qed.

Lemma clamp01_id c : (0 <= c <= 1)%Q -> clamp01 c == c.
Proof.
  intros [H0 H1]. unfold clamp01, qmax, qmin.
  destruct (Qle_bool 1 c) eqn:E1; [apply Qle_bool_iff in E1|];
    match goal with |- context [Qle_bool 0 ?x] => destruct (Qle_bool 0 x) eqn:E0 end;
    try (apply not_true_iff_false in E0; rewrite Qle_bool_iff in E0); lra.
Qed.

(** What every question built from a dictionary satisfies. *)
Definition question_wf (q : ClarifyQuestion) : Prop :=
  (String.length (cq_question q) <= 1000)%nat /\ cq_ambiguity_type q ∈ AMBIGUITY_TYPES /\
  (String.length (cq_evidence q) <= 1000)%nat /\ (length (cq_suggested_options q) <= 5)%nat /\
  Forall (fun o => o <> "" /\ (String.length o <= 300)%nat) (cq_suggested_options q).

Section text_facts.
Context (X : Text).

Lemma option_texts_wf l :
  (length (option_texts X l) <= 5)%nat /\
  Forall (fun o => o <> "" /\ (String.length o <= 300)%nat) (option_texts X l).
Proof.
  unfold option_texts. split.
  - rewrite length_map. etrans; [apply filter_length_le|]. rewrite length_map, length_take. lia.
  - apply Forall_map, Forall_forall. intros t. rewrite list_elem_of_In, filter_In.
    intros [_ Hne]. split; [|apply take_str_length].
    apply take_str_nonempty; [lia|]. intros ->. done.
Qed.

Lemma question_from_dict_wf d : question_wf (question_from_dict X d).
Proof.
  unfold question_wf, question_from_dict; simpl.
  split; [apply take_str_length|]. split; [|split; [apply take_str_length|apply option_texts_wf]].
  destruct (mem _ _) eqn:E; [by apply mem_true in E|]. unfold AMBIGUITY_TYPES. set_solver.
Qed.

Lemma collect_questions_spec limit rows acc :
  (0 < limit)%nat -> (length acc < limit)%nat ->
  Forall (fun q => question_wf q /\ cq_question q <> "") acc ->
  (length (collect_questions X limit rows acc) <= limit)%nat /\
  Forall (fun q => question_wf q /\ cq_question q <> "") (collect_questions X limit rows acc).
Proof.
  intros Hl. revert acc. induction rows as [|row rows IH]; intros acc Hlen Hacc; simpl; [split; [lia|done]|].
  destruct row; try (by apply IH).
  set (q := question_from_dict X d).
  assert (Hacc' : Forall (fun q => question_wf q /\ cq_question q <> "")
                    (if String.eqb (cq_question q) "" then acc else acc ++ [q])).
  { destruct (String.eqb_spec (cq_question q) ""); [done|]. apply Forall_app. split; [done|].
    constructor; [|done]. split; [apply question_from_dict_wf|done]. }
  assert (Hlen' : (length (if String.eqb (cq_question q) "" then acc else acc ++ [q]) <= limit)%nat).
  { destruct (String.eqb _ _); rewrite ?length_app; simpl; lia. }
  destruct (limit <=? _)%nat eqn:E; [done|]. apply Nat.leb_gt in E. by apply IH.
Qed.
End text_facts.

(** What holds of every result of the parser. *)
Definition result_wf (min_confidence : Q) (max_q : Z) (r : ClarifyResult) : Prop :=
  (0 <= cl_confidence r <= 1)%Q /\
  if cl_is_clear r then cl_ambiguities r = []
  else cl_degraded r = false /\ (min_confidence <= cl_confidence r)%Q /\
       exists qs, cl_ambiguities r = map Question qs /\
         1 <= Z.of_nat (length qs) <= Z.max 1 max_q /\
         Forall (fun q => question_wf q /\ cq_question q <> "") qs /\
         questions r = Ret (map cq_question qs).

Lemma questions_of_objects r qs :
  cl_ambiguities r = map Question qs -> Forall (fun q => cq_question q <> "") qs ->
  questions r = Ret (map cq_question qs).
Proof.
  intros Hr Hne. unfold questions. rewrite Hr.
  assert (H : map_outcome question_text (map Question qs) = Ret (map cq_question qs)).
  { clear. induction qs as [|q qs IH]; [done|]. simpl. by rewrite IH. }
  rewrite H. simpl. f_equal. apply filter_all_id. intros t (q & -> & Hin)%list_elem_of_fmap.
  rewrite Forall_forall in Hne. apply Hne in Hin. by apply negb_true_iff, String.eqb_neq.
Qed.

Lemma judge_wf X data conf min_confidence max_q :
  (0 <= conf <= 1)%Q -> result_wf min_confidence max_q (judge X data conf min_confidence max_q).
Proof.
  intros Hc. unfold judge. destruct (qlt conf min_confidence) eqn:Em; [done|]. apply qlt_false in Em.
  set (limit := Z.to_nat (Z.max 1 max_q)).
  match goal with |- context [collect_questions X limit ?rows []] =>
    destruct (collect_questions_spec X limit rows [] ltac:(lia) ltac:(simpl; lia) ltac:(constructor))
      as [Hlen Hqs]; destruct (collect_questions X limit rows []) as [|q qs] end;
    destruct (dget "is_clear" data) as [[| [] | | | | | | |]|]; try done.
  split; [done|]. split; [done|]. split; [done|]. exists (q :: qs). split; [done|].
  split; [simpl length in *; lia|]. split; [done|]. apply questions_of_objects; [done|].
  eapply Forall_impl; [exact Hqs|]. by intros ? [].
Qed.

Lemma str_field_str X d k s : dget k d = Some (PStr s) -> str_field X d k "" = s.
Proof. intros H. unfold str_field. rewrite H. simpl. by destruct (String.eqb_spec s ""). Qed.

(** A question within the limits is read back from its dictionary. *)
Lemma question_roundtrip X q :
  question_wf q -> strip (cq_question q) = cq_question q -> strip (cq_evidence q) = cq_evidence q ->
  Forall (fun o => strip o = o) (cq_suggested_options q) ->
  question_from_dict X (question_to_dict q) = q.
Proof.
  intros (Hq & Hty & He & Hlen & Hopts) Hsq Hse Hso. destruct q as [qu ty ev os]. simpl in *.
  unfold question_from_dict.
  rewrite !(str_field_str X _ "question" qu), !(str_field_str X _ "evidence" ev) by done.
  rewrite Hsq, Hse, !take_str_id by done. f_equal.
  - unfold str_field; simpl. unfold AMBIGUITY_TYPES in *.
    repeat (apply elem_of_cons in Hty as [-> | Hty]; [done|]). by apply elem_of_nil in Hty.
  - simpl. unfold option_texts. rewrite take_ge by (rewrite length_map; lia).
    rewrite map_map. simpl.
    assert (Hm : map (fun x => strip x) os = os).
    { clear -Hso. induction Hso as [|o os Ho _ IH]; [done|]. simpl. by rewrite Ho, IH. }
    rewrite Hm, filter_all_id.
    + clear -Hopts. induction Hopts as [|o os [_ Ho] _ IH]; [done|]. simpl.
      by rewrite take_str_id, IH.
    + intros o Ho. rewrite Forall_forall in Hopts. destruct (Hopts o Ho) as [Hne _].
      by apply negb_true_iff, String.eqb_neq.
Qed.

(** ** Theorems *)

(** C34: whatever the model answers, the parsed result is well formed: its
    confidence is in [0, 1]; a clear result asks nothing; an unclear one reached
    the blocking threshold and asks between one and [max(1, max_questions)]
    questions, each non-empty, within its size limits and of a known type, all
    of them readable by the gate.  The only exception is the overflow of an
    absurd confidence. *)
Theorem parsed_result_well_formed (X : Text) (raw : string) (min_confidence : Q) (max_q : Z) :
  match parse_clarify_response X raw min_confidence max_q with
  | Raise e => e = overflow_error
  | Ret r => result_wf min_confidence max_q r
  end.
Proof.
  unfold parse_clarify_response.
  destruct (loads_json X raw) as [[]|]; try (by split; [simpl; lra|]).
  unfold confidence_of. destruct (to_float _ _) as [[]|c]; [done| |];
    apply judge_wf, clamp01_range.
Qed.

(** The prompt sent to the model stays within the input limit, however large
    the issue and however [json.dumps] escapes it, provided the fixed skeleton
    fits the enforced minimum of 1000 characters. *)
Theorem prompt_within_limit (X : Text) (title description : option string) (labels replies : list string)
    (max_q tokens : Z) (focuses : option pyval) :
  (String.length (json_dumps X (skeleton (Z.max 1 max_q))) <= 1000)%nat ->
  (String.length (build_clarify_content X title description labels replies max_q tokens focuses)
     <= Z.to_nat (Z.max 1000 (tokens * 4)))%nat.
Proof.
  intros Hsk. unfold build_clarify_content. cbv zeta.
  destruct (String.length _ <=? _)%nat eqn:E; [by apply Nat.leb_le in E|]. clear E.
  match goal with |- context [shrink X 64 ?p] => set (p0 := p) end.
  assert (Hmax : p_max_questions p0 = Z.max 1 max_q) by done. clearbody p0.
  generalize 64%nat as n. intros n. revert p0 Hmax.
  assert (Hskl : (String.length (json_dumps X (skeleton (Z.max 1 max_q))) <= max_chars tokens)%nat)
    by (unfold max_chars; lia).
  induction n as [|n IH]; intros p Hp; simpl; [by rewrite Hp|].
  destruct (String.length _ <=? _)%nat eqn:E; [by apply Nat.leb_le in E|].
  destruct (longest (candidates p)) as [[len pl]|]; [|by rewrite Hp].
  apply IH. by destruct pl.
Qed.

(** [from_dict] reads back what [to_dict] writes, for results whose questions
    are within the limits [from_dict] enforces and whose confidence is a
    probability. *)
Theorem result_dict_roundtrip (X : Text) (r : ClarifyResult) (qs : list ClarifyQuestion) :
  cl_ambiguities r = map Question qs -> (0 <= cl_confidence r <= 1)%Q ->
  Forall (fun q => question_wf q /\ strip (cq_question q) = cq_question q /\
                   strip (cq_evidence q) = cq_evidence q /\
                   Forall (fun o => strip o = o) (cq_suggested_options q)) qs ->
  exists r', result_from_dict X (result_to_dict r) = Ret r' /\
    cl_is_clear r' = cl_is_clear r /\ cl_ambiguities r' = cl_ambiguities r /\
    cl_confidence r' == cl_confidence r /\ cl_fingerprint r' = cl_fingerprint r /\
    cl_reason r' = cl_reason r /\ cl_degraded r' = cl_degraded r /\ cl_metadata r' = cl_metadata r.
Proof.
  intros Ha Hc Hqs. unfold result_from_dict, confidence_of, result_to_dict; simpl.
  eexists. split; [done|]. simpl. rewrite Ha.
  split; [done|]. split; [|split; [by apply clamp01_id|]].
  - clear Ha. rewrite map_map. simpl. induction Hqs as [|q qs (Hw & Hsq & Hse & Hso) _ IH]; [done|].
    simpl in *. rewrite question_roundtrip by done. by f_equal.
  - by rewrite !(str_field_str X _ "fingerprint" (cl_fingerprint r)), !(str_field_str X _ "reason" (cl_reason r)).
Qed.

(** *** Concrete texts *)

(** A model that always answers with the same value. *)
Definition sample_text (answer : pyval) : Text :=
  mkText (fun _ => "?") (fun _ => None) (fun _ => Some answer) (fun _ => "{}").

Lemma prompt_within_limit_witness :
  (String.length (build_clarify_content (sample_text PNone) (Some "t") None ["bug"] [] 3 6000 None) <= 24000)%nat.
Proof.
  pose proof (prompt_within_limit (sample_text PNone) (Some "t") None ["bug"] [] 3 6000 None
                ltac:(apply Nat.leb_le; vm_compute; reflexivity)) as H.
  apply Nat.leb_le. apply Nat.leb_le in H. exact H.
Defined.

Definition sample_question : ClarifyQuestion := mkQuestion "Which version?" "vague" "" ["v1"; "v2"].

Definition sample_unclear : ClarifyResult :=
  mkClarifyResult false [Question sample_question] 1 "fp" "provider analysis" false false [].

Lemma result_dict_roundtrip_witness :
  exists r', result_from_dict (sample_text PNone) (result_to_dict sample_unclear) = Ret r' /\
    cl_ambiguities r' = cl_ambiguities sample_unclear.
Proof.
  edestruct (result_dict_roundtrip (sample_text PNone) sample_unclear [sample_question])
    as (r' & H1 & _ & H2 & _); [done|simpl; split; lra| |].
  - constructor; [|constructor]. split; [|split; [done|split; [done|repeat constructor]]].
    repeat split; simpl; try lia; try (unfold AMBIGUITY_TYPES; set_solver).
    repeat constructor; try done; simpl; lia.
  - exists r'. split; [exact H1|exact H2].
Defined.
