(* ===== verification/ClarService.v ===== *)
(** * Clarity analysis: cache and service
    ([src/orchestratord/issue_clarifier/cache.py], [service.py])

    [analyze] answers from the cache, from the explicit gaps the issue text
    declares, or from the model; it never raises.  The model (a backend session
    or a provider) acts on a world [W]. *)

From stdpp Require Import pretty.
From S2P Require Import Prelude Errors Dag StageRunner Regex ClarQueue ClarResolver ClarModel.

Open Scope string_scope.
Open Scope list_scope.
Open Scope Z_scope.

(** [Issue] of [issue_registry/issue.py], the fields the clarifier reads. *)
Record Issue := mkIssue {
  i_id : option string;
  i_identifier : option string;
  i_title : option string;
  i_description : option string;
  i_priority : option Z;
  i_state : option string;
  i_author_login : option string;
  i_depends_on : list string;
  i_labels : list string;
}.

Record ClarifierConfig := mkClarifierConfig {
  enabled : bool;
  block_on_unclear : bool;
  author_first : bool;
  max_questions : Z;
  max_rounds : Z;
  min_confidence : Q;
  max_input_tokens : Z;
  fail_open : bool;
  max_analyses_per_poll : Z;
}.

(** ** Explicit gaps *)

Definition UNSPECIFIED : rx :=
  bounded (rx_seq (then_space (rx_alt (rx_word "intentionally") (rx_word "deliberately")))
             (rx_seq (rx_opt (then_space (rx_word "left"))) (rx_word "unspecified"))).
Definition TBD : rx := bounded (rx_word "TBD").
Definition UNDECIDED_ZH : rx :=
  rx_alt (rx_word "未指定") (rx_alt (rx_word "待定") (rx_word "尚未确定")).

Definition EXPLICIT_GAP_PATTERNS : list rx := [UNSPECIFIED; TBD; UNDECIDED_ZH].

Definition DO_NOT_GUESS_PATTERN : rx :=
  rx_alt (bounded (rx_seq (then_space (rx_word "do"))
                     (rx_seq (then_space (rx_word "not")) (rx_word "guess"))))
    (rx_word "不要猜").

Definition ASK_AUTHOR_PATTERN : rx :=
  rx_alt (bounded (rx_seq (then_space (rx_word "ask"))
                     (rx_seq (rx_opt (then_space (rx_word "the")))
                        (rx_seq (rx_opt (then_space (rx_word "issue"))) (rx_word "author")))))
    (rx_alt (rx_word "询问作者") (rx_word "向作者确认")).

Definition newline : string := String (Ascii.ascii_of_N 10) EmptyString.

(** The title and the description, joined by a line break if both are there. *)
Definition issue_text (issue : Issue) : string :=
  let t := default "" (i_title issue) in
  let d := default "" (i_description issue) in
  if String.eqb t "" then d else if String.eqb d "" then t else t +:+ newline +:+ d.

(** [_find_explicit_clarification_gap] *)
Definition find_explicit_clarification_gap (issue : Issue) (replies : list string) : option string :=
  match replies with
  | _ :: _ => None
  | [] =>
      let text := issue_text issue in
      match omap (fun r => rx_search r None text) EXPLICIT_GAP_PATTERNS with
      | g :: _ => Some g
      | [] =>
          match rx_search DO_NOT_GUESS_PATTERN None text, rx_search ASK_AUTHOR_PATTERN None text with
          | Some a, Some b => Some (a +:+ "; " +:+ b)
          | _, _ => None
          end
      end
  end.

(** ** Fingerprint and cache *)

Definition opt_str (o : option string) : pyval := match o with Some s => PStr s | None => PNone end.

(** The payload of [build_fingerprint], its keys sorted. *)
Definition fingerprint_payload (issue : Issue) (prior_replies : list string) : pyval :=
  PDict [("depends_on", PList (map PStr (i_depends_on issue)));
         ("description", opt_str (i_description issue)); ("id", opt_str (i_id issue));
         ("identifier", opt_str (i_identifier issue)); ("labels", PList (map PStr (i_labels issue)));
         ("prior_replies", PList (map PStr prior_replies));
         ("priority", match i_priority issue with Some z => PInt z | None => PNone end);
         ("state", opt_str (i_state issue)); ("title", opt_str (i_title issue));
         ("version", PStr "v1")].

(** A cached entry: the [asdict] of a result, or a dictionary [ClarifyResult]
    refuses. *)
Inductive entry :=
| EResult (r : ClarifyResult)
| EMalformed.

Record Cache := mkCache {
  cc_enabled : bool;
  cc_entries : dict string entry;
  cc_disk : jfile (dict string entry);
}.

(** [asdict]: the questions inside become dictionaries too. *)
Definition asdict (r : ClarifyResult) : ClarifyResult :=
  mkClarifyResult (cl_is_clear r) (map (fun a => QuestionDict (ambiguity_to_dict a)) (cl_ambiguities r))
    (cl_confidence r) (cl_fingerprint r) (cl_reason r) (cl_degraded r) (cl_cached r) (cl_metadata r).

(** [ClarifierCache.__init__] *)
Definition open_cache (on : bool) (f : jfile (dict string entry)) : Cache :=
  mkCache on (match f with Holds d => if on then d else [] | _ => [] end) f.

Definition cache_get (fp : string) (c : Cache) : option ClarifyResult :=
  if negb (cc_enabled c) then None
  else
    match dget fp (cc_entries c) with
    | Some (EResult r) => Some r
    | _ => None
    end.

Definition cache_put (t : Clock) (r : ClarifyResult) (c : Cache) : Cache :=
  if negb (cc_enabled c) then c
  else if String.eqb (cl_fingerprint r) "" then c
  else
    let entries := dset (cl_fingerprint r) (EResult (asdict r)) (cc_entries c) in
    mkCache true entries (write_file t entries (cc_disk c)).

(** ** The model *)

(** [SessionSpec], the fields the analysis fixes. *)
Record SessionSpec := mkSessionSpec {
  spec_max_turns : Z;
  spec_permission_mode : string;
}.

Record Backend (W : Type) := mkBackend {
  spec_factory : option (M W exn SessionSpec);
  create_session : SessionSpec -> M W exn unit;
  session_send : string -> M W exn unit;
  session_events : M W exn (list (bool * dict string pyval));
  session_close : M W exn unit;
}.
Arguments spec_factory {W}.
Arguments create_session {W}.
Arguments session_send {W}.
Arguments session_events {W}.
Arguments session_close {W}.

(** [provider.chat] with and without [max_tokens]; the answer's [content]. *)
Record Provider (W : Type) := mkProvider {
  chat : string -> M W exn string;
  chat_without_limit : string -> M W exn string;
}.
Arguments chat {W}.
Arguments chat_without_limit {W}.

Record Services (W : Type) := mkServices {
  sv_backend : option (Backend W);
  sv_provider : M W exn (option (Provider W));
  sv_clock : W -> Clock;
  is_type_error : exn -> bool;
  exn_name : exn -> string;
  digest : pyval -> string;
}.
Arguments sv_backend {W}.
Arguments sv_provider {W}.
Arguments sv_clock {W}.
Arguments is_type_error {W}.
Arguments exn_name {W}.
Arguments digest {W}.

Definition runtime_error (what : string) : exn :=
  mkExn OtherException [Lit "RuntimeError: "; Lit what] None.

(** A computation without state, in [M]. *)
Definition of_outcome {W A} (o : outcome exn A) : M W exn A := fun w => (o, w).

Section service.
Context {W : Type} (X : Text) (S : Services W) (cfg : ClarifierConfig).

Definition fingerprint (issue : Issue) (prior_replies : list string) : string :=
  digest S (fingerprint_payload issue prior_replies).

(** The text of one event: [text], or else [delta]. *)
Definition event_text (payload : dict string pyval) : string :=
  match dget "text" payload with
  | Some v => if truthy v then py_str X v else str_field X payload "delta" ""
  | None => str_field X payload "delta" ""
  end.

(** What happens inside an open session. *)
Definition session_body (b : Backend W) (content : string) : M W exn string :=
  _ ← session_send b content;
  events ← session_events b;
  mret (fold_right String.append ""
          (map (fun e => event_text (snd e)) (List.filter fst events))).

(** [try: m finally: fin]; an exception of [fin] replaces the outcome. *)
Definition finally {A} (m : M W exn A) (fin : M W exn unit) : M W exn A :=
  fun w =>
    let '(r, w) := m w in
    match fin w with
    | (Ret _, w) => (r, w)
    | (Raise e, w) => (Raise e, w)
    end.

Definition run_session (b : Backend W) (spec : SessionSpec) (content : string) : M W exn string :=
  _ ← create_session b spec;
  finally (session_body b content) (session_close b).

(** [_analyze_via_backend]: one turn, plan mode. *)
Definition analyze_via_backend (b : Backend W) (content : string) : M W exn string :=
  _ ← match spec_factory b with
      | Some f => f
      | None => mret (mkSessionSpec 1 "plan")
      end;
  run_session b (mkSessionSpec 1 "plan") content.

Definition ask_provider (content : string) : M W exn string :=
  provider ← sv_provider S;
  match provider with
  | None => raise (runtime_error "clarifier provider is unavailable")
  | Some p =>
      try_except (chat p content)
        (fun e => if is_type_error S e then chat_without_limit p content else raise e)
  end.

Definition ask_model (content : string) : M W exn string :=
  match sv_backend S with
  | Some b => analyze_via_backend b content
  | None => ask_provider content
  end.

Definition gap_result (gap fp : string) : ClarifyResult :=
  mkClarifyResult false
    [Question (mkQuestion
       "The issue explicitly leaves required implementation details open. What exact contract should be implemented?"
       "missing" gap [])]
    1 fp "explicit clarification directive in issue text" false false
    [("deterministic_gate", PStr "explicit_gap")].

Definition unavailable_result (e : exn) (fp : string) : ClarifyResult :=
  mkClarifyResult (fail_open cfg) [] 0 fp ("clarifier unavailable: " +:+ exn_name S e) true false [].

(** The analysis by the model. *)
Definition analyze_by_model (issue : Issue) (replies : list string) (focuses : option pyval) (fp : string)
    : M W exn ClarifyResult :=
  raw ← ask_model (build_clarify_content X (i_title issue) (i_description issue) (i_labels issue)
                     replies (max_questions cfg) (max_input_tokens cfg) focuses);
  r ← of_outcome (parse_clarify_response X raw (min_confidence cfg) (max_questions cfg));
  mret (with_fingerprint fp r).

(** [analyze] *)
Definition analyze (issue : Issue) (prior_replies : list string) (focuses : option pyval)
    (c : Cache) (w : W) : ClarifyResult * Cache * W :=
  let replies := List.filter (fun r => negb (String.eqb (strip r) "")) prior_replies in
  let fp := fingerprint issue replies in
  match cache_get fp c with
  | Some r => (r, c, w)
  | None =>
      match find_explicit_clarification_gap issue replies with
      | Some gap =>
          let r := gap_result gap fp in
          (r, cache_put (sv_clock S w) r c, w)
      | None =>
          let '(r, w) := match analyze_by_model issue replies focuses fp w with
                         | (Ret r, w) => (r, w)
                         | (Raise e, w) => (unavailable_result e fp, w)
                         end in
          (r, cache_put (sv_clock S w) r c, w)
      end
  end.
End service.

(** ** The request to the author *)

Definition question_lines (k : N) (q : ClarifyQuestion) : list string :=
  [pretty k +:+ ". " +:+ cq_question q]
  ++ (if String.eqb (cq_evidence q) "" then [] else ["   Context: " +:+ cq_evidence q])
  ++ map (fun o => "   - " +:+ o) (cq_suggested_options q).

(** The loop of [format_clarification_request]: lines and options. *)
Fixpoint format_questions (k : N) (l : list ambiguity) : outcome exn (list string * list string) :=
  match l with
  | [] => Ret ([], [])
  | QuestionDict _ :: _ => Raise (attribute_error "question")
  | Question q :: l' =>
      rest ← format_questions (k + 1) l';
      Ret (question_lines k q ++ fst rest, cq_suggested_options q ++ snd rest)
  end.

Definition format_clarification_request (r : ClarifyResult) : outcome exn (string * list string) :=
  res ← format_questions 1 (cl_ambiguities r);
  Ret (join newline ("Before automated implementation can start, please clarify:" :: fst res), snd res).

(** ** Lemmas *)

(** Entries are filed under their own fingerprint. *)
Definition cache_wf (c : Cache) : Prop :=
  forall fp r, dget fp (cc_entries c) = Some (EResult r) -> cl_fingerprint r = fp.

Lemma cache_put_wf t r c : cache_wf c -> cache_wf (cache_put t r c).
Proof.
  intros Hc. unfold cache_put. destruct (negb _); [done|]. destruct (String.eqb _ _); [done|].
  intros fp r'. simpl. rewrite dget_dset. destruct (decide _) as [<-|]; [|apply Hc].
  by intros [= <-].
Qed.

Lemma cache_get_wf fp c r : cache_wf c -> cache_get fp c = Some r -> cl_fingerprint r = fp.
Proof.
  intros Hc. unfold cache_get. destruct (negb _); [done|].
  destruct (dget fp (cc_entries c)) as [[]|] eqn:E; intros; simplify_eq. by apply Hc.
Qed.

(** What was put is got back, as dictionaries. *)
Lemma cache_get_put t r c :
  cc_enabled c = true -> cl_fingerprint r <> "" ->
  cache_get (cl_fingerprint r) (cache_put t r c) = Some (asdict r).
Proof.
  intros He Hf. unfold cache_put. rewrite He. simpl.
  rewrite (proj2 (String.eqb_neq _ _) Hf). unfold cache_get; simpl. by rewrite dget_dset_eq.
Qed.

Definition nonblank (l : list string) : Prop := Forall (fun r => strip r <> "") l.

Lemma nonblank_filter l :
  nonblank l -> List.filter (fun r => negb (String.eqb (strip r) "")) l = l.
Proof.
  intros Hl. apply filter_all_id. unfold nonblank in Hl. rewrite Forall_forall in Hl.
  intros r Hr. by apply negb_true_iff, String.eqb_neq, Hl.
Qed.

Section service_facts.
Context {W : Type} (X : Text) (S : Services W) (cfg : ClarifierConfig).

(** The result carries the fingerprint of the text and replies it judged. *)
Lemma analyze_fingerprint issue replies focuses c w :
  cache_wf c -> nonblank replies ->
  let '(r, c', _) := analyze X S cfg issue replies focuses c w in
  cl_fingerprint r = fingerprint S issue replies /\ cache_wf c'.
Proof.
  intros Hc Hb. unfold analyze. rewrite nonblank_filter by done.
  destruct (cache_get _ c) as [r|] eqn:E; [split; [by eapply cache_get_wf|done]|].
  destruct (find_explicit_clarification_gap _ _); [by split; [|apply cache_put_wf]|].
  destruct (analyze_by_model _ _ _ _ _ _ _ _) as [[r|e] w'] eqn:Em.
  - split; [|by apply cache_put_wf]. unfold analyze_by_model, of_outcome, mbind, M_bind, mret, M_ret in Em.
    destruct (ask_model _ _ _ w) as [[raw|e] w1]; [|done]. simpl in Em.
    destruct (parse_clarify_response _ _ _ _); [|done]. simpl in Em. injection Em as <- _. done.
  - by split; [|apply cache_put_wf].
Qed.
End service_facts.
