(* ===== verification/ClarGate.v ===== *)
(** * The clarification gate ([src/orchestratord/issue_clarifier/gate.py])

    Decides before each dispatch whether an issue is clear enough, composing the
    registry, the analysis service and the resolver; and the part of
    [applications/issue_pr/provider.py] that calls it. *)

From stdpp Require Import pretty.
From S2P Require Import Prelude Errors StageRunner IssueRegistry Regex ClarQueue ClarResolver ClarModel ClarService.

Open Scope string_scope.
Open Scope list_scope.
Open Scope Z_scope.

Record GState (W : Type) := mkGState {
  g_registry : Registry;
  g_resolver : RState W;
  g_cache : Cache;
  g_analyses : Z;
}.
Arguments mkGState {W}.
Arguments g_registry {W}.
Arguments g_resolver {W}.
Arguments g_cache {W}.
Arguments g_analyses {W}.

(** What the gate is built from. *)
Record GateOps (W : Type) := mkGateOps {
  go_tracker : Tracker W;
  go_resolver_config : ClarificationConfig;
  go_text : Text;
  go_services : Services W;
  go_config : ClarifierConfig;
  go_tick : W -> Tick;
  go_focus : option (Issue -> M W exn pyval);
  go_focus_enabled : bool;
  go_remote_label : string;
  go_add_label : option (string -> string -> M W exn unit);
  go_remove_label : option (string -> string -> M W exn unit);
}.
Arguments go_tracker {W}.
Arguments go_resolver_config {W}.
Arguments go_text {W}.
Arguments go_services {W}.
Arguments go_config {W}.
Arguments go_tick {W}.
Arguments go_focus {W}.
Arguments go_focus_enabled {W}.
Arguments go_remote_label {W}.
Arguments go_add_label {W}.
Arguments go_remove_label {W}.

Section gate.
Context {W : Type} (G : GateOps W).

Abbreviation cfg := (go_config G).

Definition gworld (s : GState W) : W := rs_world (g_resolver s).

Definition on_registry (f : Tick -> Registry -> Registry) (s : GState W) : GState W :=
  mkGState (f (go_tick G (gworld s)) (g_registry s)) (g_resolver s) (g_cache s) (g_analyses s).

Definition on_resolver (f : RState W -> RState W) (s : GState W) : GState W :=
  mkGState (g_registry s) (f (g_resolver s)) (g_cache s) (g_analyses s).

Definition set_gworld (w : W) : GState W -> GState W := on_resolver (ClarResolver.set_world w).

Definition gclear (id : string) : GState W -> GState W := on_resolver (clear (go_tracker G) id).

Definition begin_poll (s : GState W) : GState W :=
  mkGState (g_registry s) (g_resolver s) (g_cache s) 0.

(** [_add_remote_label], [_remove_remote_label]: failures are swallowed. *)
Definition remote_label (op : option (string -> string -> M W exn unit)) (id : string) (s : GState W)
    : GState W :=
  if String.eqb (go_remote_label G) "" then s
  else
    match op with
    | None => s
    | Some f => set_gworld (snd (f id (go_remote_label G) (gworld s))) s
    end.

(** [_workspace_focus_for_followup] *)
Definition workspace_focus_for_followup (issue : Issue) (s : GState W) : option pyval * GState W :=
  match go_focus_enabled G, go_focus G with
  | true, Some f =>
      match f issue (gworld s) with
      | (Ret v, w) => (Some v, set_gworld w s)
      | (Raise _, w) => (None, set_gworld w s)
      end
  | _, _ => (None, s)
  end.

(** [update_clarification(issue_id, clarifier_comment_cursor=cursor)] *)
Definition args_cursor (cursor : string) : ClarArgs :=
  mkClarArgs None None None None None None None None None None (Some cursor).

Definition args_observation (questions : list string) (fp : string) (replies : list string) : ClarArgs :=
  mkClarArgs (Some "observation") None None None None None (Some questions) None (Some fp)
    (Some replies) None.

Definition args_awaiting (author : option string) (replies : list string) : ClarArgs :=
  mkClarArgs (Some "awaiting_author") None author None None None None None None (Some replies) None.

(** [record.clarification_round = 0; record.open_questions = []; record.touch();
    registry._save()] *)
Definition retire_question (t : Tick) (id : string) : Registry -> Registry :=
  IssueRegistry.update t id (fun r =>
    let c := clar r in
    set_clar
      (mkClarInfo (clarification_status c) (question_history c) [] 0 (clarifier_fingerprint c)
         (clarification_replies c) (clarifier_comment_cursor c) (author_login c) (local_answer c)
         (local_answer_source c) (first_response_source c) (stale_answers c)) r).

Definition the_record (id : string) (s : GState W) : option IssueRecord :=
  IssueRegistry.get id (g_registry s).

Definition fp_of (issue : Issue) (replies : list string) : string :=
  fingerprint (go_services G) issue replies.

(** [issue.author_login] is truthy. *)
Definition has_author (issue : Issue) : bool := is_some (str_or (i_author_login issue) None).

(** The end of [_apply_result]: ask the author. *)
Definition ask_author (issue : Issue) (id : string) (result : ClarifyResult) (questions : list string)
    (replies : list string) (round : Z) (cursor : option string) : M (GState W) exn bool :=
  fun s =>
    let since := match get_item id (g_resolver s) with
                 | Some i => str_or (ci_last_checked_comment_id i) cursor
                 | None => cursor
                 end in
    let s := gclear id s in
    match format_clarification_request result with
    | Raise e => (Raise e, s)
    | Ret (question, options) =>
        match request_clarification (go_tracker G) (go_resolver_config G) id
                (match str_or (i_identifier issue) None with Some x => x | None => id end) question
                (take_str 2000 (default "" (i_description issue))) options (author_first cfg) since
                (i_author_login issue) (g_resolver s) with
        | (Raise e, rs) => (Raise e, on_resolver (fun _ => rs) s)
        | (Ret _, rs) =>
            let s := on_resolver (fun _ => rs) s in
            let s := on_registry (fun t =>
                       update_clarification t id (args_awaiting (i_author_login issue) replies)) s in
            let s := on_registry (fun t =>
                       mark_clarification_blocked t id questions (cl_fingerprint result) (round + 1)) s in
            (Ret false, remote_label (go_add_label G) id s)
        end
    end.

Definition manual_required (id : string) (questions : list string) (fp : string) (s : GState W)
    : GState W :=
  on_registry (fun t => mark_clarification_manual_required t id questions fp) s.

(** [_apply_result] *)
Definition apply_result (issue : Issue) (id : string) (result : ClarifyResult) (replies : list string)
    : M (GState W) exn bool :=
  fun s =>
    match the_record id s with
    | None => (Ret true, s)
    | Some record =>
        if cl_is_clear result then
          let st := match replies with [] => "clear" | _ => "resolved" end in
          let s := on_registry (fun t =>
                     mark_clarification_resolved t id (cl_fingerprint result) (last replies)
                       (match replies with [] => None | _ => Some "author" end) st (Some replies)) s in
          (Ret true, remote_label (go_remove_label G) id s)
        else
          match questions result with
          | Raise e => (Raise e, s)
          | Ret [] =>
              (Ret false, manual_required id
                 ["The clarity analyzer could not produce an actionable question."]
                 (cl_fingerprint result) s)
          | Ret qs =>
              if negb (block_on_unclear cfg) then
                (Ret true, on_registry (fun t =>
                   update_clarification t id (args_observation qs (cl_fingerprint result) replies)) s)
              else if max_rounds cfg <=? clarification_round (clar record) then
                (Ret false, manual_required id qs (cl_fingerprint result) s)
              else if author_first cfg && negb (has_author issue) then
                (Ret false, manual_required id qs (cl_fingerprint result) s)
              else ask_author issue id result qs replies (clarification_round (clar record))
                     (clarifier_comment_cursor (clar record)) s
          end
    end.

(** The analysis of [should_dispatch], under the budget of the poll. *)
Definition analyze_within_budget (issue : Issue) (id : string) (replies : list string)
    : M (GState W) exn bool :=
  fun s =>
    if Z.max 1 (max_analyses_per_poll cfg) <=? g_analyses s then (Ret false, s)
    else
      let s := mkGState (g_registry s) (g_resolver s) (g_cache s) (g_analyses s + 1) in
      let '(focuses, s) := workspace_focus_for_followup issue s in
      let '(result, cache, w) :=
        analyze (go_text G) (go_services G) cfg issue replies focuses (g_cache s) (gworld s) in
      let s := set_gworld w (mkGState (g_registry s) (g_resolver s) cache (g_analyses s)) in
      apply_result issue id result replies s.

(** The branches of [should_dispatch] on the recorded status, once the replies
    are known. *)
Definition decide_known (issue : Issue) (id status : string) (replies : list string)
    : M (GState W) exn bool :=
  fun s =>
    let same := bool_decide ((the_record id s ≫= fun r => clarifier_fingerprint (clar r))
                             = Some (fp_of issue replies)) in
    if same && mem status ["clear"; "resolved"; "observation"] then (Ret true, s)
    else if same && String.eqb status "manual_required" then (Ret false, s)
    else analyze_within_budget issue id replies s.

(** The reply list after an answer. *)
Definition add_reply (answer : option string) (replies : list string) : list string :=
  let a := strip (default "" answer) in
  if String.eqb a "" then replies else if mem a replies then replies else replies ++ [a].

(** An answer arrived for the question in flight. *)
Definition take_answer (issue : Issue) (id : string) (answer : option string) (replies : list string)
    : M (GState W) exn bool :=
  fun s =>
    let cursor := get_item id (g_resolver s) ≫= fun i => str_or (ci_last_checked_comment_id i) None in
    let replies := add_reply answer replies in
    let s := gclear id s in
    let s := match cursor with
             | Some c => on_registry (fun t => update_clarification t id (args_cursor c)) s
             | None => s
             end in
    decide_known issue id "awaiting_author" replies s.

(** [should_dispatch] *)
Definition should_dispatch (issue : Issue) : M (GState W) exn bool :=
  fun s =>
    let id := default "" (i_id issue) in
    if String.eqb id "" || negb (enabled cfg) then (Ret true, s)
    else
      match the_record id s with
      | None => (Ret true, s)
      | Some record =>
          let replies := clarification_replies (clar record) in
          let status := default "" (clarification_status (clar record)) in
          if String.eqb status "manual_resolved" then (Ret true, s)
          else if String.eqb status "awaiting_author" then
            match get_answer id (g_resolver s) with
            | None =>
                if bool_decide (clarifier_fingerprint (clar record) = Some (fp_of issue replies))
                then (Ret false, s)
                else
                  let s := on_registry (fun t => retire_question t id) (gclear id s) in
                  decide_known issue id status replies s
            | Some r => take_answer issue id (cr_answer r) replies s
            end
          else decide_known issue id status replies s
      end.

(** The caller in [provider.py]: a gate that raises lets the issue through when
    the clarifier fails open. *)
Definition gate_allows (issue : Issue) (s : GState W) : bool * GState W :=
  match should_dispatch issue s with
  | (Ret b, s') => (b, s')
  | (Raise _, s') => (fail_open cfg, s')
  end.

(** The gate over the issues of one poll. *)
Definition gate_poll (issues : list Issue) (s : GState W) : GState W :=
  fold_left (fun s i => snd (gate_allows i s)) issues (begin_poll s).

(** ** Lemmas *)

Lemma reg_get_update t id f g id' :
  IssueRegistry.get id' (IssueRegistry.update t id f g) =
  if decide (id = id') then (fun r => touch (wall t) (f r)) <$> IssueRegistry.get id g
  else IssueRegistry.get id' g.
Proof.
  unfold IssueRegistry.update, IssueRegistry.get. destruct (dget id (records g)) as [r|] eqn:E.
  - assert (Hs : forall g', records (IssueRegistry.save t g') = records g')
      by (intros g'; unfold IssueRegistry.save; by destruct (io_ok t)).
    rewrite Hs. simpl. rewrite dget_dset. by destruct (decide (id = id')).
  - destruct (decide (id = id')) as [<-|]; [by rewrite E|done].
Qed.

(** The record of [id'] after a registry call of the gate. *)
Lemma the_record_update f id s id' :
  the_record id' (on_registry (fun t => IssueRegistry.update t id f) s) =
  if decide (id = id')
  then (fun r => touch (wall (go_tick G (gworld s))) (f r)) <$> the_record id s
  else the_record id' s.
Proof. apply reg_get_update. Qed.

Lemma the_record_label op id s id' : the_record id' (remote_label op id s) = the_record id' s.
Proof. unfold remote_label. destruct (String.eqb _ _); [done|]. by destruct op. Qed.

Lemma analyses_label op id s : g_analyses (remote_label op id s) = g_analyses s.
Proof. unfold remote_label. destruct (String.eqb _ _); [done|]. by destruct op. Qed.

Lemma focus_spec issue s :
  g_registry (snd (workspace_focus_for_followup issue s)) = g_registry s /\
  g_cache (snd (workspace_focus_for_followup issue s)) = g_cache s /\
  g_analyses (snd (workspace_focus_for_followup issue s)) = g_analyses s.
Proof. unfold workspace_focus_for_followup. by break. Qed.

(** *** The verdict an issue passes with *)

(** The record holds the operator's word, or a verdict on exactly the present
    text and replies. *)
Definition passed (issue : Issue) (r : IssueRecord) : Prop :=
  let c := clar r in
  clarification_status c = Some "manual_resolved" \/
  (clarification_status c ∈ [Some "clear"; Some "resolved"; Some "observation"] /\
   clarifier_fingerprint c = Some (fp_of issue (clarification_replies c))).

Lemma apply_result_passed issue id result replies s s1 r :
  the_record id s = Some r -> cl_fingerprint result = fp_of issue replies ->
  apply_result issue id result replies s = (Ret true, s1) ->
  exists r1, the_record id s1 = Some r1 /\ passed issue r1.
Proof.
  intros Hr Hfp. unfold apply_result. rewrite Hr.
  destruct (cl_is_clear result).
  { intros [= <-]. rewrite the_record_label. unfold mark_clarification_resolved.
    rewrite the_record_update, decide_True, Hr by done. simpl. eexists. split; [done|].
    right. simpl. rewrite Hfp. split; [|done]. destruct replies; set_solver. }
  destruct (questions result) as [[|q qs]|e]; [done| |done].
  destruct (block_on_unclear cfg); simpl.
  - destruct (_ <=? _); [done|]. destruct (_ && _); [done|]. unfold ask_author.
    destruct (format_clarification_request result) as [[qu os]|e]; [|done].
    by destruct (request_clarification _ _ _ _ _ _ _ _ _ _ _) as [[?|e] rs].
  - intros [= <-]. unfold update_clarification.
    rewrite the_record_update, decide_True, Hr by done. simpl. eexists. split; [done|].
    right. simpl. rewrite Hfp. split; [set_solver|done].
Qed.

Lemma analyze_within_budget_passed issue id replies s s1 r :
  the_record id s = Some r -> cache_wf (g_cache s) -> nonblank replies ->
  analyze_within_budget issue id replies s = (Ret true, s1) ->
  exists r1, the_record id s1 = Some r1 /\ passed issue r1.
Proof.
  intros Hr Hc Hb. unfold analyze_within_budget. destruct (_ <=? _); [done|].
  set (s0 := mkGState (g_registry s) (g_resolver s) (g_cache s) (g_analyses s + 1)).
  destruct (focus_spec issue s0) as (Hreg & Hcache & _).
  destruct (workspace_focus_for_followup issue s0) as [focuses s2]. simpl in *.
  pose proof (analyze_fingerprint (go_text G) (go_services G) cfg issue replies focuses (g_cache s2)
                (gworld s2)) as Ha.
  destruct (analyze _ _ _ _ _ _ _ _) as [[result c'] w]. rewrite Hcache in Ha.
  destruct (Ha Hc Hb) as [Hfp _].
  apply apply_result_passed with (r := r); [|done]. unfold the_record; simpl. by rewrite Hreg.
Qed.

Lemma decide_known_passed issue id status replies s s1 r :
  the_record id s = Some r -> cache_wf (g_cache s) -> nonblank replies ->
  (status = "awaiting_author" \/
   (status = default "" (clarification_status (clar r)) /\ replies = clarification_replies (clar r))) ->
  decide_known issue id status replies s = (Ret true, s1) ->
  exists r1, the_record id s1 = Some r1 /\ passed issue r1.
Proof.
  intros Hr Hc Hb Hst. unfold decide_known. rewrite Hr. simpl.
  destruct (bool_decide _ && mem status _) eqn:E.
  - intros [= <-]. exists r. split; [done|]. apply andb_true_iff in E as [Hfp Hm].
    apply bool_decide_eq_true in Hfp. apply mem_true in Hm.
    destruct Hst as [->|[-> ->]]; [set_solver|]. right. split; [|done].
    destruct (clarification_status (clar r)); set_solver.
  - destruct (bool_decide _ && String.eqb _ _); [done|].
    by apply analyze_within_budget_passed with (r := r).
Qed.

Lemma add_reply_nonblank a l : nonblank l -> nonblank (add_reply a l).
Proof.
  intros Hl. unfold add_reply. destruct (String.eqb_spec (strip (default "" a)) ""); [done|].
  destruct (mem _ _); [done|]. apply Forall_app. split; [done|]. constructor; [|done].
  by rewrite strip_idemp.
Qed.

(** *** Bounds *)

Definition rounds_ok (s : GState W) : Prop :=
  forall id r, the_record id s = Some r -> clarification_round (clar r) <= Z.max 1 (max_rounds cfg).

Definition budget : Z := Z.max 1 (max_analyses_per_poll cfg).

Definition within_bounds (s : GState W) : Prop := rounds_ok s /\ g_analyses s <= budget.

(** A registry call of the gate that does not raise a round above the limit. *)
Lemma update_within_bounds f id s :
  within_bounds s ->
  (forall r, the_record id s = Some r ->
     clarification_round (clar r) <= Z.max 1 (max_rounds cfg) ->
     clarification_round (clar (f r)) <= Z.max 1 (max_rounds cfg)) ->
  within_bounds (on_registry (fun t => IssueRegistry.update t id f) s).
Proof.
  intros [Hr Ha] Hf. split; [|done]. intros id' r. rewrite the_record_update.
  destruct (decide (id = id')) as [<-|]; [|apply Hr].
  destruct (the_record id s) as [r0|] eqn:E; [|done]. intros [= <-]. simpl. eauto.
Qed.

Lemma label_within_bounds op id s : within_bounds s -> within_bounds (remote_label op id s).
Proof.
  intros [Hr Ha]. split; [|by rewrite analyses_label].
  intros id' r. rewrite the_record_label. apply Hr.
Qed.

Lemma apply_result_bounds issue id result replies s :
  within_bounds s -> within_bounds (snd (apply_result issue id result replies s)).
Proof.
  intros Hs. unfold apply_result. destruct (the_record id s) as [r|] eqn:Hr; [|done].
  destruct (cl_is_clear result).
  { apply label_within_bounds, update_within_bounds; [done|by intros]. }
  destruct (questions result) as [[|q qs]|e]; [by apply update_within_bounds| |done].
  destruct (block_on_unclear cfg); [|by apply update_within_bounds]. simpl.
  destruct (Z.leb_spec (max_rounds cfg) (clarification_round (clar r))) as [|Hlt];
    [by apply update_within_bounds|].
  destruct (author_first cfg && _); [by apply update_within_bounds|].
  unfold ask_author. destruct (format_clarification_request result) as [[qu os]|e]; [|done].
  destruct (request_clarification _ _ _ _ _ _ _ _ _ _ _) as [[?|e] rs]; [|done].
  apply label_within_bounds, update_within_bounds; [by apply update_within_bounds|].
  intros r' _ _. simpl. lia.
Qed.

Lemma analyze_within_budget_bounds issue id replies s :
  within_bounds s -> within_bounds (snd (analyze_within_budget issue id replies s)).
Proof.
  intros [Hr Ha]. unfold analyze_within_budget.
  destruct (Z.leb_spec (Z.max 1 (max_analyses_per_poll cfg)) (g_analyses s)) as [|Hlt]; [done|].
  set (s0 := mkGState (g_registry s) (g_resolver s) (g_cache s) (g_analyses s + 1)).
  destruct (focus_spec issue s0) as (Hreg & _ & Han).
  destruct (workspace_focus_for_followup issue s0) as [focuses s2]. simpl in *.
  destruct (analyze _ _ _ _ _ _ _ _) as [[result c'] w]. apply apply_result_bounds. split.
  - intros id' r. unfold the_record; simpl. rewrite Hreg. apply Hr.
  - simpl. rewrite Han. unfold budget. lia.
Qed.

Lemma decide_known_bounds issue id status replies s :
  within_bounds s -> within_bounds (snd (decide_known issue id status replies s)).
Proof.
  intros Hs. unfold decide_known. destruct (_ && _); [done|].
  destruct (bool_decide _ && String.eqb _ _); [done|]. by apply analyze_within_budget_bounds.
Qed.

Lemma should_dispatch_bounds issue s :
  within_bounds s -> within_bounds (snd (should_dispatch issue s)).
Proof.
  intros Hs. unfold should_dispatch. destruct (String.eqb _ _ || _); [done|].
  destruct (the_record _ s) as [r|] eqn:Hr; [|done].
  destruct (String.eqb _ "manual_resolved"); [done|].
  destruct (String.eqb _ "awaiting_author"); [|by apply decide_known_bounds].
  destruct (get_answer _ _) as [res|].
  - unfold take_answer. apply decide_known_bounds.
    destruct (get_item _ _ ≫= _); [|done]. by apply update_within_bounds.
  - destruct (bool_decide _); [done|]. apply decide_known_bounds, update_within_bounds; [done|].
    intros r' _ _. simpl. lia.
Qed.

(** ** Theorems *)

(** A gate that returns [True] has a verdict on record. *)
Lemma dispatch_passed (issue : Issue) (id : string) (r : IssueRecord) (s s1 : GState W) :
  enabled cfg = true -> i_id issue = Some id -> id <> "" -> the_record id s = Some r ->
  cache_wf (g_cache s) -> nonblank (clarification_replies (clar r)) ->
  should_dispatch issue s = (Ret true, s1) ->
  exists r1, the_record id s1 = Some r1 /\ passed issue r1.
Proof.
  intros Hen Hid Hne Hr Hc Hb. unfold should_dispatch. rewrite Hid, Hen.
  change (default "" (Some id)) with id. cbv zeta.
  rewrite (proj2 (String.eqb_neq _ _) Hne). cbn [negb orb]. rewrite Hr.
  destruct (String.eqb_spec (default "" (clarification_status (clar r))) "manual_resolved") as [Hm|_].
  { intros [= <-]. exists r. split; [done|]. left. by destruct (clarification_status (clar r)); simplify_eq/=. }
  destruct (String.eqb_spec (default "" (clarification_status (clar r))) "awaiting_author") as [Hw|_].
  2: { apply decide_known_passed with (r := r); auto. }
  destruct (get_answer id (g_resolver s)) as [res|].
  - unfold take_answer. destruct (get_item _ _ ≫= _) as [c|]; intros Hd;
      eapply decide_known_passed in Hd; [exact Hd| |done|by apply add_reply_nonblank|by left
                                        |exact Hd| |done|by apply add_reply_nonblank|by left].
    + unfold update_clarification. rewrite the_record_update, decide_True by done.
      change (the_record id (gclear id s)) with (the_record id s). by rewrite Hr.
    + exact Hr.
  - destruct (bool_decide _); [done|]. intros Hd.
    eapply decide_known_passed in Hd; [exact Hd| |done|done|by left].
    unfold retire_question. rewrite the_record_update, decide_True by done.
    change (the_record id (gclear id s)) with (the_record id s). by rewrite Hr.
Qed.

(** C14: with the gate enabled, an issue that has an id and a registered record is
    let through only if the record then holds the operator's word, or a verdict
    (clear, resolved or observation) on exactly the present text of the issue and
    its replies; or if the gate raised and is configured to fail open. The cache
    is taken to hold results under their own fingerprints, and the recorded
    replies not to be blank. *)
Theorem passes_only_with_verdict (issue : Issue) (id : string) (r : IssueRecord) (s s1 : GState W) :
  enabled cfg = true -> i_id issue = Some id -> id <> "" -> the_record id s = Some r ->
  cache_wf (g_cache s) -> nonblank (clarification_replies (clar r)) ->
  gate_allows issue s = (true, s1) ->
  (exists r1, the_record id s1 = Some r1 /\ passed issue r1)
  \/ (fail_open cfg = true /\ exists e, should_dispatch issue s = (Raise e, s1)).
Proof.
  intros Hen Hid Hne Hr Hc Hb. unfold gate_allows.
  destruct (should_dispatch issue s) as [[b|e] s'] eqn:E; intros [= Hf Hs]; subst s'.
  - left. subst b. by apply (dispatch_passed issue id r s s1).
  - right. eauto.
Qed.

(** Over the issues of a poll, whatever the model, the tracker and the files
    do, at most [max(1, max_analyses_per_poll)] analyses are started, and no
    issue is asked in more than [max(1, max_rounds)] rounds. *)
Theorem gate_bounds (issues : list Issue) (s : GState W) :
  rounds_ok s -> let s1 := gate_poll issues s in
  g_analyses s1 <= Z.max 1 (max_analyses_per_poll cfg) /\ rounds_ok s1.
Proof.
  intros Hr s1. assert (H0 : within_bounds (begin_poll s)) by (split; [exact Hr|unfold budget; simpl; lia]).
  assert (H1 : within_bounds s1); [|by destruct H1].
  unfold s1, gate_poll. revert H0. generalize (begin_poll s). clear.
  induction issues as [|i issues IH]; intros s Hs; [done|]. simpl. apply IH.
  pose proof (should_dispatch_bounds i s Hs) as Hb. unfold gate_allows.
  by destruct (should_dispatch i s) as [[b|e] s'].
Qed.

(** The record waits for an answer to a question on the issue's present text,
    with these replies so far. *)
Definition in_flight (issue : Issue) (replies : list string) (r : IssueRecord) : Prop :=
  clarification_replies (clar r) = replies /\
  clarification_status (clar r) = Some "awaiting_author" /\
  clarifier_fingerprint (clar r) = Some (fp_of issue replies).

(** While the question of an unchanged issue has no answer, the gate says no and
    does nothing. *)
Lemma waiting_is_quiet issue id replies r s :
  enabled cfg = true -> i_id issue = Some id -> id <> "" -> the_record id s = Some r ->
  in_flight issue replies r -> get_item id (g_resolver s) = None ->
  should_dispatch issue s = (Ret false, s).
Proof.
  intros Hen Hid Hne Hr (Hrep & Hst & Hfp) Hi. unfold should_dispatch. rewrite Hid, Hen.
  change (default "" (Some id)) with id. cbv zeta. rewrite (proj2 (String.eqb_neq _ _) Hne).
  cbn [negb orb]. rewrite Hr, Hst. simpl. unfold get_answer, get_resolved.
  unfold get_item in Hi. rewrite Hi, Hrep. by rewrite bool_decide_eq_true_2.
Qed.

Lemma over_budget_refused issue id replies s :
  Z.max 1 (max_analyses_per_poll cfg) <= g_analyses s ->
  decide_known issue id "awaiting_author" replies s = (Ret false, s).
Proof.
  intros Hb. unfold decide_known. rewrite andb_false_r. simpl. rewrite andb_false_r.
  unfold analyze_within_budget.
  by destruct (Z.leb_spec (Z.max 1 (max_analyses_per_poll cfg)) (g_analyses s)); [|lia].
Qed.

(** Recording a cursor leaves the question in flight. *)
Lemma cursor_in_flight issue id replies r c s :
  the_record id s = Some r -> in_flight issue replies r ->
  exists r1, the_record id (on_registry (fun t => update_clarification t id (args_cursor c)) s) = Some r1 /\
    in_flight issue replies r1.
Proof.
  intros Hr Hf. unfold update_clarification. rewrite the_record_update, decide_True by done.
  rewrite Hr. simpl. by eexists.
Qed.

Lemma remove_get c id q : ClarQueue.get id (remove c id q) = None.
Proof.
  unfold remove. destruct (dmem id (q_records q)) eqn:E.
  - rewrite get_save, get_drop. by rewrite decide_True.
  - unfold dmem in E. unfold ClarQueue.get. by destruct (dget id (q_records q)).
Qed.

(** An answer that arrives when the poll's analysis budget is spent is lost: the
    gate takes it off the queue before it looks at the budget and does not
    record it, so the issue is turned away now and, as long as its text stays
    the same and nobody asks again, at every later poll. *)
Theorem answer_lost_over_budget (issue : Issue) (id : string) (replies : list string) (r : IssueRecord)
    (s : GState W) (answer : ClarificationResult) :
  enabled cfg = true -> i_id issue = Some id -> id <> "" -> the_record id s = Some r ->
  in_flight issue replies r -> get_answer id (g_resolver s) = Some answer ->
  Z.max 1 (max_analyses_per_poll cfg) <= g_analyses s ->
  exists s1 r1, should_dispatch issue s = (Ret false, s1) /\ get_item id (g_resolver s1) = None /\
    the_record id s1 = Some r1 /\ clarification_replies (clar r1) = replies /\
    forall rs n, get_item id rs = None ->
      let later := mkGState (g_registry s1) rs (g_cache s1) n in
      should_dispatch issue later = (Ret false, later).
Proof.
  intros Hen Hid Hne Hr Hf Ha Hbud.
  assert (Hsuff : exists s1 r1, take_answer issue id (cr_answer answer) replies s = (Ret false, s1) /\
            get_item id (g_resolver s1) = None /\ the_record id s1 = Some r1 /\ in_flight issue replies r1).
  { unfold take_answer. destruct (get_item id (g_resolver s) ≫= _) as [c|].
    - destruct (cursor_in_flight issue id replies r c (gclear id s) Hr Hf) as (r1 & Hr1 & Hf1).
      rewrite over_budget_refused by done. eexists _, r1. split; [done|]. split; [apply remove_get|done].
    - rewrite over_budget_refused by done. eexists _, r. split; [done|]. split; [apply remove_get|done]. }
  destruct Hsuff as (s1 & r1 & Ht & Hi & Hr1 & Hf1). exists s1, r1. split.
  - unfold should_dispatch. rewrite Hid, Hen. change (default "" (Some id)) with id. cbv zeta.
    rewrite (proj2 (String.eqb_neq _ _) Hne). cbn [negb orb]. rewrite Hr.
    destruct Hf as (Hrep & Hst & _). rewrite Hst, Hrep. simpl. by rewrite Ha.
  - split; [done|]. split; [done|]. split; [apply Hf1|]. intros rs n Hrs later.
    by apply waiting_is_quiet with (id := id) (replies := replies) (r := r1).
Qed.

Lemma asdict_questions_raise res :
  cl_ambiguities res <> [] -> questions (asdict res) = Raise (attribute_error "question").
Proof. unfold questions, asdict; simpl. by destruct (cl_ambiguities res). Qed.

(** A question the cache remembers opens the gate.  When the analysis of the
    present text is cached as unclear and no verdict on it is on record, the
    cached questions are dictionaries the gate cannot read: it raises, and with
    the default fail-open setting its caller dispatches the unclear issue, with
    nothing about it recorded.  This is the state after the last round of
    questions (the final reply is not recorded with the demand for manual
    input), and after a question that could not be delivered. *)
Theorem cached_question_opens_gate (issue : Issue) (id : string) (r : IssueRecord)
    (res : ClarifyResult) (s : GState W) :
  enabled cfg = true -> fail_open cfg = true -> i_id issue = Some id -> id <> "" ->
  the_record id s = Some r ->
  clarification_status (clar r) ∉ [Some "manual_resolved"; Some "awaiting_author"] ->
  nonblank (clarification_replies (clar r)) ->
  clarifier_fingerprint (clar r) <> Some (fp_of issue (clarification_replies (clar r))) ->
  cache_get (fp_of issue (clarification_replies (clar r))) (g_cache s) = Some (asdict res) ->
  cl_is_clear res = false -> cl_ambiguities res <> [] ->
  g_analyses s < Z.max 1 (max_analyses_per_poll cfg) ->
  exists s1, gate_allows issue s = (true, s1) /\ the_record id s1 = Some r.
Proof.
  intros Hen Hfo Hid Hne Hr Hst Hb Hfp Hcache Hcl Hamb Hbud.
  assert (H : exists s1 e, should_dispatch issue s = (Raise e, s1) /\ the_record id s1 = Some r).
  { unfold should_dispatch. rewrite Hid, Hen. change (default "" (Some id)) with id. cbv zeta.
    rewrite (proj2 (String.eqb_neq _ _) Hne). cbn [negb orb]. rewrite Hr.
    destruct (String.eqb_spec (default "" (clarification_status (clar r))) "manual_resolved") as [Hx|_];
      [destruct (clarification_status (clar r)); simplify_eq/=; set_solver|].
    destruct (String.eqb_spec (default "" (clarification_status (clar r))) "awaiting_author") as [Hx|_];
      [destruct (clarification_status (clar r)); simplify_eq/=; set_solver|].
    unfold decide_known. rewrite Hr. simpl. rewrite bool_decide_eq_false_2 by done. simpl.
    unfold analyze_within_budget.
    destruct (Z.leb_spec (Z.max 1 (max_analyses_per_poll cfg)) (g_analyses s)); [lia|].
    match goal with |- context [workspace_focus_for_followup issue ?x] =>
      destruct (focus_spec issue x) as (Hreg & Hc & _);
      destruct (workspace_focus_for_followup issue x) as [focuses s2] end.
    cbn [snd g_registry g_cache] in *. unfold analyze. rewrite nonblank_filter by done.
    unfold fp_of in Hcache. rewrite Hc, Hcache. unfold apply_result.
    assert (Hr2 : forall w, the_record id (set_gworld w (mkGState (g_registry s2) (g_resolver s2) (g_cache s) (g_analyses s2))) = Some r)
      by (intros w; unfold the_record; simpl; by rewrite Hreg).
    rewrite Hr2. simpl. rewrite Hcl, asdict_questions_raise by done. eauto. }
  destruct H as (s1 & e & Hd & Hr1). exists s1. unfold gate_allows. by rewrite Hd, Hfo.
Qed.
End gate.

(** *** A concrete gate *)

(** The model always finds the same ambiguity (or answers [clear]); alice
    answers each question in turn; fingerprints list the replies. *)
Definition sample_answer (clear : bool) : pyval :=
  PDict [("is_clear", PBool clear); ("confidence", PFloat 1);
         ("ambiguities", PList [PDict [("question", PStr "Which version?")]])].

Definition reply_names (v : pyval) : string :=
  match v with
  | PDict d =>
      match dget "prior_replies" d with
      | Some (PList l) => "fp:" +:+ join "," (map (fun r => match r with PStr s => s | _ => "" end) l)
      | _ => ""
      end
  | _ => ""
  end.

(** The clock and the number of comments alice has written. *)
Definition GW : Type := (Q * nat)%type.

Definition talking_tracker : Tracker GW :=
  mkTracker GW (fun w => mkClock (fst w) Written) true
    (fun _ _ w =>
       (Ret [mkComment (Some (pretty (N.of_nat (snd w)))) (Some ("answer " +:+ pretty (N.of_nat (snd w))))
               (Some "alice") None], (fst w, S (snd w))))
    (fun _ _ _ w => (Ret None, w)) (fun _ => None).

Definition sample_services : Services GW :=
  mkServices GW None (fun w => (Ret (Some (mkProvider GW (fun _ w => (Ret "...", w)) (fun _ w => (Ret "...", w)))), w))
    (fun w => mkClock (fst w) Written) (fun _ => false) (fun _ => "Error") reply_names.

Definition sample_gate (clear : bool) (budget : Z) : GateOps GW :=
  mkGateOps GW talking_tracker sample_config (sample_text (sample_answer clear)) sample_services
    (mkClarifierConfig true true true 3 2 (7 # 10) 6000 true budget)
    (fun w => mkTick (fst w) (fst w) true) None false "" None None.

Definition sample_issue : Issue :=
  mkIssue (Some "7") (Some "acme/app#7") (Some "Upgrade the API") (Some "...") None (Some "open")
    (Some "alice") [] [].

Definition sample_record : IssueRecord :=
  fresh_record (mkTick 0 0 true) "7" "acme/app#7"
    (mkRegisterArgs None (mkWorkspaceInfo "main" None None None None None None) None (Some "alice")) (Some "c1").

Definition sample_gstate : GState GW :=
  mkGState (mkRegistry [("7", sample_record)] None 0 false 2)
    (mkRState (load Absent) Absent Absent (0%Q, 0%nat)) (open_cache true Absent) 0.

(** One daemon cycle: look for answers, then ask the gate. *)
Definition cycle (clear : bool) (budget : Z) (s : GState GW) : GState GW :=
  let s := on_resolver (poll_clarification_answers talking_tracker sample_config) s in
  snd (gate_allows (sample_gate clear budget) sample_issue (begin_poll s)).

Definition record_of (s : GState GW) : IssueRecord := default sample_record (the_record "7" s).

Lemma passes_only_with_verdict_witness :
  exists s1 r1, gate_allows (sample_gate true 4) sample_issue sample_gstate = (true, s1) /\
    the_record "7" s1 = Some r1 /\ passed (sample_gate true 4) sample_issue r1.
Proof.
  destruct (gate_allows (sample_gate true 4) sample_issue sample_gstate) as [b s1] eqn:E.
  assert (Hb : b = true) by (vm_compute in E; congruence). rewrite Hb in E.
  destruct (passes_only_with_verdict (sample_gate true 4) sample_issue "7" sample_record sample_gstate s1)
    as [(r1 & H1 & H2)|(_ & e & He)]; [done|done|done|done|by intros ? ?|constructor|exact E| |].
  - exists s1, r1. split; [by rewrite Hb|]. by split.
  - exfalso. revert He. vm_compute. discriminate.
Defined.

Lemma gate_bounds_witness :
  g_analyses (gate_poll (sample_gate false 2) [sample_issue; sample_issue; sample_issue] sample_gstate) <= Z.max 1 2.
Proof.
  refine (proj1 (gate_bounds (sample_gate false 2) [sample_issue; sample_issue; sample_issue] sample_gstate _)).
  intros id r. unfold the_record, IssueRegistry.get. simpl.
  destruct (decide (id = "7")); intros; simplify_eq; vm_compute; done.
Defined.

(** A question is answered while the poll's budget is spent. *)
Definition answered_gstate : GState GW :=
  let s := on_resolver (poll_clarification_answers talking_tracker sample_config)
             (cycle false 4 sample_gstate) in
  mkGState (g_registry s) (g_resolver s) (g_cache s) 4.

Lemma answer_lost_over_budget_witness :
  exists s1 r1, should_dispatch (sample_gate false 4) sample_issue answered_gstate = (Ret false, s1) /\
    the_record "7" s1 = Some r1 /\ clarification_replies (clar r1) = [].
Proof.
  edestruct (answer_lost_over_budget (sample_gate false 4) sample_issue "7" [] (record_of answered_gstate)
               answered_gstate (mkClarificationResult (Some "answer 0") (Some "author") RESOLVED_AUTHOR))
    as (s1 & r1 & H1 & _ & H2 & H3 & _);
    [done|done|done|vm_compute; reflexivity
    |split; [vm_compute; reflexivity|split; vm_compute; reflexivity]|vm_compute; reflexivity
    |vm_compute; done|].
  exists s1, r1. split; [exact H1|]. split; [exact H2|exact H3].
Defined.

(** After two rounds of questions the issue is set aside for manual input; at
    the next poll the gate lets it through. *)
Definition exhausted_gstate : GState GW :=
  begin_poll (cycle false 4 (cycle false 4 (cycle false 4 sample_gstate))).

Lemma cached_question_opens_gate_witness :
  clarification_status (clar (record_of exhausted_gstate)) = Some "manual_required" /\
  exists s1, gate_allows (sample_gate false 4) sample_issue exhausted_gstate = (true, s1) /\
    the_record "7" s1 = Some (record_of exhausted_gstate).
Proof.
  split; [vm_compute; reflexivity|].
  apply (cached_question_opens_gate (sample_gate false 4) sample_issue "7" (record_of exhausted_gstate)
           (mkClarifyResult false [Question (mkQuestion "Which version?" "vague" "" [])] 1 "fp:answer 0"
              "provider analysis" false false []) exhausted_gstate).
  - done.
  - done.
  - done.
  - done.
  - vm_compute; reflexivity.
  - vm_compute. intros H. repeat (apply elem_of_cons in H as [H|H]; [discriminate H|]).
    by apply elem_of_nil in H.
  - assert (Hr : clarification_replies (clar (record_of exhausted_gstate)) = ["answer 0"])
      by (vm_compute; reflexivity).
    rewrite Hr. constructor; [done|constructor].
  - vm_compute. discriminate.
  - vm_compute; reflexivity.
  - done.
  - done.
  - vm_compute. done.
Defined.
