(* ===== verification/ClarCli.v ===== *)
(** * The clarify command ([_run_clarify] of [src/orchestratord/commands/issue.py])

    The operator's side of the clarification queue, run in the daemon on its own
    queue, or in another process on a queue opened from the same file.  The
    theorems are about the second case: the daemon never reads its file again. *)

From S2P Require Import Prelude Errors IssueRegistry ClarQueue ClarModel.

Open Scope string_scope.
Open Scope list_scope.
Open Scope Z_scope.

Record ClarifyArgs := mkClarifyArgs {
  arg_id : option string;
  arg_answer : option string;
  arg_forward_to_author : bool;
  arg_list : bool;
  arg_recheck : bool;
  arg_resolve : bool;
}.

(** What the command leaves behind. *)
Record CliState := mkCliState {
  cli_queue : Queue;
  cli_registry : option Registry;
}.

(** [item.status.value] *)
Definition status_value (i : ClarificationItem) : outcome exn ClarificationStatus :=
  if ci_status_enum i then Ret (ci_status i) else Raise (attribute_error "value").

(** The assignments of [--recheck]. *)
Definition recheck_record (r : IssueRecord) : IssueRecord :=
  let c := clar r in
  set_clar
    (mkClarInfo None (question_history c) [] 0 None [] (clarifier_comment_cursor c) (author_login c)
       None None (first_response_source c) (stale_answers c)) r.

(** A text is given and not empty. *)
Definition given (o : option string) : option string := str_or o None.

Definition run_list (s : CliState) : outcome exn Z * CliState :=
  match map_outcome status_value (list_items (cli_queue s)) with
  | Ret _ => (Ret 0, s)
  | Raise e => (Raise e, s)
  end.

Definition run_recheck (c : Clock) (t : Tick) (id : string) (s : CliState) : outcome exn Z * CliState :=
  let q := remove c id (cli_queue s) in
  match cli_registry s ≫= IssueRegistry.get id with
  | None => (Ret 1, mkCliState q (cli_registry s))
  | Some _ => (Ret 0, mkCliState q (IssueRegistry.update t id recheck_record <$> cli_registry s))
  end.

(** [record.clarifier_fingerprint or "manual"], [answer or "..."] *)
Definition run_resolve (c : Clock) (t : Tick) (id : string) (answer : option string) (s : CliState)
    : outcome exn Z * CliState :=
  let q := remove c id (cli_queue s) in
  match cli_registry s ≫= IssueRegistry.get id with
  | None => (Ret 1, mkCliState q (cli_registry s))
  | Some r =>
      (Ret 0, mkCliState q
         (mark_clarification_resolved t id
            (default "manual" (given (clarifier_fingerprint (clar r))))
            (Some (default "Manually resolved by operator" (given answer))) (Some "operator")
            "manual_resolved" None <$> cli_registry s))
  end.

Definition run_forward (c : Clock) (id : string) (s : CliState) : outcome exn Z * CliState :=
  let '(item, q) := mark_awaiting_author c id None (cli_queue s) in
  match item with
  | None => (Ret 1, mkCliState q (cli_registry s))
  | Some _ => (Ret 0, mkCliState q (cli_registry s))
  end.

Definition run_answer (c : Clock) (id : string) (answer : option string) (s : CliState)
    : outcome exn Z * CliState :=
  let '(item, q) := resolve c id (default "" answer) "clarification_queue" (cli_queue s) in
  let s := mkCliState q (cli_registry s) in
  match item with
  | None => (Ret 1, s)
  | Some i =>
      match status_value i with
      | Ret _ => (Ret 0, s)
      | Raise e => (Raise e, s)
      end
  end.

(** [_run_clarify]: the exit code. *)
Definition run_clarify (c : Clock) (t : Tick) (a : ClarifyArgs) (s : CliState) : outcome exn Z * CliState :=
  match given (arg_id a) with
  | None => if arg_list a then run_list s else (Ret 2, s)
  | Some id =>
      if negb (is_some (given (arg_answer a)) || arg_forward_to_author a || arg_list a
               || arg_recheck a || arg_resolve a) then (Ret 2, s)
      else if arg_list a then run_list s
      else if arg_recheck a then run_recheck c t id s
      else if arg_resolve a then run_resolve c t id (arg_answer a) s
      else if arg_forward_to_author a then run_forward c id s
      else run_answer c id (arg_answer a) s
  end.

(** A queue opened by another process from the daemon's file. *)
Definition other_process (daemon : Queue) : CliState := mkCliState (load (q_disk daemon)) None.

(** The daemon after another process has written the file. *)
Definition file_written (cli : CliState) (daemon : Queue) : Queue :=
  mkQueue (q_records daemon) (q_disk (cli_queue cli)).

(** ** Lemmas *)

Lemma get_other_process id daemon i :
  agrees daemon -> get id daemon = Some i -> get id (cli_queue (other_process daemon)) = Some (loaded i).
Proof.
  intros Ha Hg. unfold other_process, get in *; simpl. rewrite Ha, get_load. by rewrite Hg.
Qed.

Lemma unresolved_reload id c q :
  get_resolved id q = None -> write c = Written -> get_resolved id (load (q_disk (save c q))) = None.
Proof.
  intros Hr Hw. unfold get_resolved, save, write_file, get in *. rewrite Hw. simpl. rewrite get_load.
  destruct (dget id (q_records q)) as [i|]; [|done]. simpl. by destruct (resolved (ci_status i)).
Qed.

Lemma insert_item_elem i j l : j ∈ insert_item i l <-> j = i \/ j ∈ l.
Proof.
  induction l as [|k l IH]; simpl; [set_solver|]. destruct (qle _ _); set_solver.
Qed.

Lemma list_items_elem q j : j ∈ list_items q <-> j ∈ dvals (q_records q).
Proof.
  unfold list_items. induction (dvals (q_records q)) as [|i l IH]; simpl; [done|].
  rewrite insert_item_elem. set_solver.
Qed.

(** Items read from a file have no status value to print. *)
Lemma list_value_raises f :
  q_records (load f) <> [] ->
  map_outcome status_value (list_items (load f)) = Raise (attribute_error "value").
Proof.
  intros Hne.
  assert (Hall : Forall (fun i => ci_status_enum i = false) (list_items (load f))).
  { apply Forall_forall. intros j Hj%list_items_elem. destruct f; [done|done|].
    unfold dvals, load, load_records in Hj. cbn [q_records] in Hj. rewrite map_map in Hj.
    by apply list_elem_of_fmap in Hj as (kv & -> & _). }
  assert (Hnil : list_items (load f) <> []).
  { destruct (q_records (load f)) as [|[k i] d] eqn:E; [done|]. intros Hl.
    assert (Hin : i ∈ list_items (load f)) by (apply list_items_elem; rewrite E; set_solver).
    rewrite Hl in Hin. by apply elem_of_nil in Hin. }
  destruct (list_items (load f)) as [|i l]; [done|]. apply Forall_cons in Hall as [Hi _].
  simpl. unfold status_value. by rewrite Hi.
Qed.

(** ** Theorems *)

(** An answer given in another process is reported as recorded and does reach
    the file, but not the daemon: its queue still has the question open, and
    the next time it writes the file (here, when it notes the comments it has
    seen on any of its questions) the answer is gone from the file as well. *)
Theorem operator_answer_lost (daemon : Queue) (id answer id2 : string) (i : ClarificationItem)
    (c c2 : Clock) (t : Tick) (cursor : option string) :
  agrees daemon -> get id daemon = Some i -> active (ci_status i) = true ->
  id <> "" -> answer <> "" -> write c = Written -> write c2 = Written ->
  dmem id2 (q_records daemon) = true ->
  let '(code, cli) := run_clarify c t (mkClarifyArgs (Some id) (Some answer) false false false false)
                        (other_process daemon) in
  let daemon1 := file_written cli daemon in
  let daemon2 := snd (mark_comment_checked c2 id2 cursor daemon1) in
  code = Ret 0 /\
  (exists r, get_resolved id (load (q_disk daemon1)) = Some r /\ ci_answer r = Some answer) /\
  get_resolved id daemon1 = None /\ get_resolved id daemon2 = None /\
  get_resolved id (load (q_disk daemon2)) = None.
Proof.
  intros Hag Hg Hact Hid Hans Hw Hw2 Hm.
  assert (Hnr : get_resolved id daemon = None).
  { unfold get_resolved. rewrite Hg. by destruct (ci_status i). }
  unfold run_clarify. simpl.
  rewrite (proj2 (String.eqb_neq _ _) Hid). simpl. rewrite (proj2 (String.eqb_neq _ _) Hans). simpl.
  unfold run_answer, resolve, update. rewrite (get_other_process id daemon i) by done. simpl.
  rewrite Hact. simpl. split; [done|].
  assert (Hd2 : forall cli, get_resolved id (snd (mark_comment_checked c2 id2 cursor (file_written cli daemon))) = None /\
            get_resolved id (load (q_disk (snd (mark_comment_checked c2 id2 cursor (file_written cli daemon))))) = None).
  { intros cli. set (d1 := file_written cli daemon).
    assert (Hn2 : get_resolved id (snd (mark_comment_checked c2 id2 cursor d1)) = None).
    { unfold get_resolved, mark_comment_checked. rewrite get_update.
      destruct (decide (id2 = id)) as [->|]; [|exact Hnr].
      change (get id d1) with (get id daemon). rewrite Hg. simpl. by destruct (ci_status i). }
    split; [done|]. unfold mark_comment_checked, update in *.
    destruct (get id2 d1) as [j|] eqn:E; [by apply unresolved_reload|].
    unfold get in E. simpl in E. unfold dmem in Hm. by rewrite E in Hm. }
  split; [|split; [exact Hnr|apply Hd2]].
  unfold get_resolved, save, write_file, get; simpl. rewrite Hw. simpl. rewrite get_load, dget_dset_eq.
  simpl. destruct (ci_status i); try done; simpl; by eexists.
Qed.

(** Listing the questions from another process raises as soon as there is one:
    the statuses read from the file are plain strings, which have no [.value].
    Answering again a question that was resolved before records the answer and
    then raises for the same reason. *)
Theorem clarify_command_crashes (daemon : Queue) (id answer : string) (i : ClarificationItem)
    (c : Clock) (t : Tick) :
  agrees daemon -> get id daemon = Some i -> id <> "" -> answer <> "" ->
  fst (run_clarify c t (mkClarifyArgs None None false true false false) (other_process daemon))
    = Raise (attribute_error "value") /\
  (resolved (ci_status i) = true ->
   let '(code, cli) := run_clarify c t (mkClarifyArgs (Some id) (Some answer) false false false false)
                         (other_process daemon) in
   code = Raise (attribute_error "value") /\
   exists r, get id (cli_queue cli) = Some r /\ ci_answer r = Some answer).
Proof.
  intros Hag Hg Hid Hans. pose proof (get_other_process id daemon i Hag Hg) as Ho. split.
  - unfold run_clarify, run_list, other_process. cbn [given str_or arg_id arg_list cli_queue].
    rewrite list_value_raises; [done|].
    unfold get, other_process in Ho. intros Hd. cbn [cli_queue] in Ho. by rewrite Hd in Ho.
  - intros Hres. unfold run_clarify. simpl.
    rewrite (proj2 (String.eqb_neq _ _) Hid). simpl. rewrite (proj2 (String.eqb_neq _ _) Hans). simpl.
    unfold run_answer, resolve, update. rewrite Ho. simpl.
    assert (active (ci_status i) = false) as -> by (by destruct (ci_status i)).
    simpl. split; [done|]. unfold get; simpl. rewrite dget_dset_eq. by eexists.
Qed.

(** *** A concrete daemon *)

Definition open_item : ClarificationItem :=
  fst (enqueue (mkClock 10 Written) "7" "acme/app#7" "Which version?" [] "" None None None (load Absent)).

Definition sample_daemon : Queue := mkQueue [("7", open_item)] (Holds [("7", open_item)]).

Lemma operator_answer_lost_witness :
  let '(code, cli) := run_clarify (mkClock 20 Written) (mkTick 20 20 true)
                        (mkClarifyArgs (Some "7") (Some "v2") false false false false)
                        (other_process sample_daemon) in
  let daemon1 := file_written cli sample_daemon in
  let daemon2 := snd (mark_comment_checked (mkClock 30 Written) "7" (Some "c1") daemon1) in
  code = Ret 0 /\
  (exists r, get_resolved "7" (load (q_disk daemon1)) = Some r /\ ci_answer r = Some "v2") /\
  get_resolved "7" daemon1 = None /\ get_resolved "7" daemon2 = None /\
  get_resolved "7" (load (q_disk daemon2)) = None.
Proof.
  apply (operator_answer_lost sample_daemon "7" "v2" "7" open_item); done.
Defined.

Lemma clarify_command_crashes_witness :
  fst (run_clarify (mkClock 20 Written) (mkTick 20 20 true) (mkClarifyArgs None None false true false false)
         (other_process sample_daemon)) = Raise (attribute_error "value").
Proof. apply (clarify_command_crashes sample_daemon "7" "v2" open_item); done. Defined.
