(* ===== verification/Scheduler.v ===== *)
(** * The autopilot scheduler ([src/orchestratord/scheduler/autopilot.py])

    The trigger pass over the enabled autopilots, on an explicit database.  The
    cron library is a parameter: the latest fire time before a moment, or an
    error for an expression it refuses.  Times are microseconds. *)

From S2P Require Import Prelude Errors.

Open Scope string_scope.
Open Scope list_scope.
Open Scope Z_scope.

Record Autopilot := mkAutopilot {
  ap_id : string;
  ap_workspace_id : string;
  ap_name : string;
  ap_cron : string;
  ap_prompt : string;
  ap_enabled : bool;
}.

Record AutopilotRun := mkRun {
  ar_id : Z;
  ar_autopilot_id : string;
  ar_scheduled_at : Z;
  ar_status : string;
  ar_started_at : Z;
  ar_finished_at : option Z;
}.

(** The columns of the issue an autopilot creates. *)
Record AutopilotIssue := mkAutopilotIssue {
  ai_workspace_id : string;
  ai_title : string;
  ai_description : string;
  ai_status : string;
}.

(** The tables; [db_fresh] is the source of new ids. *)
Record Db := mkDb {
  db_autopilots : list Autopilot;
  db_runs : list AutopilotRun;
  db_issues : list AutopilotIssue;
  db_fresh : Z;
}.

Definition slot_key (r : AutopilotRun) : string * Z := (ar_autopilot_id r, ar_scheduled_at r).

Definition set_runs (l : list AutopilotRun) (db : Db) : Db :=
  mkDb (db_autopilots db) l (db_issues db) (db_fresh db).

(** [update ... where id = run_id] *)
Definition update_run (id : Z) (f : AutopilotRun -> AutopilotRun) (db : Db) : Db :=
  set_runs (map (fun r => if ar_id r =? id then f r else r) (db_runs db)) db.

Definition finish_run (status : string) (t : Z) (r : AutopilotRun) : AutopilotRun :=
  mkRun (ar_id r) (ar_autopilot_id r) (ar_scheduled_at r) status (ar_started_at r) (Some t).

(** [AutopilotRunRepository.find_for_slot] *)
Definition find_for_slot (id : string) (slot : Z) (db : Db) : option AutopilotRun :=
  find (fun r => String.eqb (ar_autopilot_id r) id && (ar_scheduled_at r =? slot)) (db_runs db).

(** The insertion of [_claim_slot]. *)
Definition insert_run (a : Autopilot) (slot now : Z) (db : Db) : AutopilotRun * Db :=
  let run := mkRun (db_fresh db) (ap_id a) slot "queued" now None in
  (run, mkDb (db_autopilots db) (db_runs db ++ [run]) (db_issues db) (db_fresh db + 1)).

(** [default_invoke]: create the autopilot's issue. *)
Definition default_invoke (a : Autopilot) (_ : AutopilotRun) (db : Db) : outcome exn unit * Db :=
  (Ret tt,
   mkDb (db_autopilots db) (db_runs db)
     (db_issues db ++ [mkAutopilotIssue (ap_workspace_id a) ("[autopilot] " +:+ ap_name a) (ap_prompt a)
                         "pending"]) (db_fresh db)).

(** [_complete_if_queued] *)
Definition complete_if_queued (id now : Z) : Db -> Db :=
  update_run id (fun r => if String.eqb (ar_status r) "queued" then finish_run "completed" now r else r).

(** [_mark_failed] *)
Definition mark_failed (id now : Z) : Db -> Db := update_run id (finish_run "failed" now).

Definition list_enabled (db : Db) : list Autopilot := List.filter ap_enabled (db_autopilots db).

Section scheduler.
(** [croniter(cron, now).get_prev], and the trigger body. *)
Context (croniter_prev : string -> Z -> option Z).
Context (invoke : Autopilot -> AutopilotRun -> Db -> outcome exn unit * Db).
Context (interval : Q).

Definition last_due_slot (cron : string) (now : Z) : option Z := croniter_prev cron now.

(** [(now - slot).total_seconds() < interval] *)
Definition fresh (slot now : Z) : bool := qlt (now - slot # 1000000) interval.

(** [_is_due]; [None] when the cron expression is invalid. *)
Definition is_due (a : Autopilot) (now : Z) : option bool :=
  slot ← last_due_slot (ap_cron a) now; Some (fresh slot now).

(** [_claim_slot] *)
Definition claim_slot (a : Autopilot) (now : Z) (db : Db) : option AutopilotRun * Db :=
  match last_due_slot (ap_cron a) now with
  | None => (None, db)
  | Some slot =>
      match find_for_slot (ap_id a) slot db with
      | Some _ => (None, db)
      | None => let '(run, db) := insert_run a slot now db in (Some run, db)
      end
  end.

(** One autopilot of a pass: whether it fired. *)
Definition fire (a : Autopilot) (now : Z) (db : Db) : bool * Db :=
  match is_due a now with
  | None | Some false => (false, db)
  | Some true =>
      match claim_slot a now db with
      | (None, db) => (false, db)
      | (Some run, db) =>
          match invoke a run db with
          | (Ret _, db) => (true, complete_if_queued (ar_id run) now db)
          | (Raise _, db) => (true, mark_failed (ar_id run) now db)
          end
      end
  end.

Definition fire_all (now : Z) (l : list Autopilot) (db : Db) : nat * Db :=
  fold_left (fun acc a =>
               let '(b, db) := fire a now (snd acc) in
               ((fst acc + if b then 1 else 0)%nat, db)) l (0%nat, db).

(** [tick]: how many fired. *)
Definition tick (now : Z) (db : Db) : nat * Db := fire_all now (list_enabled db) db.

(** [_loop]: a pass at each time. *)
Definition ticks (times : list Z) (db : Db) : Db :=
  fold_left (fun db now => snd (tick now db)) times db.

(** What the trigger body must respect: it may change what it likes but the
    runs' identity (and it draws its new ids from the same source). *)
Class InvokeLaws : Prop := {
  invoke_keeps_runs a r db :
    map (fun r => (ar_id r, slot_key r)) (db_runs (snd (invoke a r db))) =
    map (fun r => (ar_id r, slot_key r)) (db_runs db);
  invoke_keeps_autopilots a r db : db_autopilots (snd (invoke a r db)) = db_autopilots db;
  invoke_fresh a r db : db_fresh db <= db_fresh (snd (invoke a r db));
}.

(** ** Lemmas *)

Definition ids (db : Db) : list (Z * (string * Z)) :=
  map (fun r => (ar_id r, slot_key r)) (db_runs db).

(** One run per slot; ids are drawn in order. *)
Definition runs_wf (db : Db) : Prop :=
  NoDup (map slot_key (db_runs db)) /\ Forall (fun r => ar_id r < db_fresh db) (db_runs db) /\
  NoDup (map ar_id (db_runs db)).

Lemma runs_wf_ids db db' :
  ids db' = ids db -> db_fresh db <= db_fresh db' -> runs_wf db -> runs_wf db'.
Proof.
  intros Hids Hf (H1 & H2 & H3).
  assert (Hk : map slot_key (db_runs db') = map slot_key (db_runs db)).
  { assert (E := f_equal (map snd) Hids). unfold ids in E. by rewrite !map_map in E. }
  assert (Hi : map ar_id (db_runs db') = map ar_id (db_runs db)).
  { assert (E := f_equal (map fst) Hids). unfold ids in E. by rewrite !map_map in E. }
  split; [by rewrite Hk|]. split; [|by rewrite Hi].
  apply (Forall_map ar_id (fun i => i < db_fresh db')). rewrite Hi. apply Forall_map.
  eapply Forall_impl; [exact H2|]. simpl. lia.
Qed.

Lemma ids_update id f db :
  (forall r, ar_id (f r) = ar_id r /\ slot_key (f r) = slot_key r) -> ids (update_run id f db) = ids db.
Proof.
  intros Hf. unfold ids, update_run; simpl. rewrite map_map. apply map_ext. intros r.
  destruct (ar_id r =? id); [|done]. destruct (Hf r) as [-> ->]. done.
Qed.

Lemma ids_complete id now db : ids (complete_if_queued id now db) = ids db.
Proof. apply ids_update. intros r. by destruct (String.eqb _ _). Qed.

Lemma ids_failed id now db : ids (mark_failed id now db) = ids db.
Proof. by apply ids_update. Qed.

Lemma find_for_slot_None id slot db :
  find_for_slot id slot db = None <-> (id, slot) ∉ map slot_key (db_runs db).
Proof.
  unfold find_for_slot. split.
  - intros Hf (r & Hk & Hin)%list_elem_of_fmap. apply list_elem_of_In in Hin.
    pose proof (find_none _ _ Hf r Hin) as Hr. unfold slot_key in Hk. simplify_eq.
    simpl in Hr. by rewrite String.eqb_refl, Z.eqb_refl in Hr.
  - intros Hn. destruct (find _ _) as [r|] eqn:E; [|done].
    apply find_some in E as [Hin [H1%String.eqb_eq H2%Z.eqb_eq]%andb_true_iff]. destruct Hn.
    apply list_elem_of_fmap. exists r. split; [by unfold slot_key; subst|by apply list_elem_of_In].
Qed.

Context `{InvokeLaws}.

(** What firing does to the slots: nothing, or one new run for the latest slot,
    which was fresh and unclaimed. *)
Lemma fire_spec a now db :
  db_autopilots (snd (fire a now db)) = db_autopilots db /\
  db_fresh db <= db_fresh (snd (fire a now db)) /\
  if fst (fire a now db)
  then exists slot, last_due_slot (ap_cron a) now = Some slot /\ fresh slot now = true /\
         (ap_id a, slot) ∉ map slot_key (db_runs db) /\
         ids (snd (fire a now db)) = ids db ++ [(db_fresh db, (ap_id a, slot))] /\
         db_fresh db < db_fresh (snd (fire a now db))
  else snd (fire a now db) = db.
Proof.
  unfold fire, is_due, claim_slot. destruct (last_due_slot (ap_cron a) now) as [slot|] eqn:Es;
    simpl; [|split; [done|split; [lia|done]]].
  destruct (fresh slot now) eqn:Ef; [|split; [done|split; [simpl; lia|done]]].
  destruct (find_for_slot (ap_id a) slot db) as [r|] eqn:Efind; [split; [done|split; [simpl; lia|done]]|].
  apply find_for_slot_None in Efind. simpl.
  set (run := mkRun (db_fresh db) (ap_id a) slot "queued" now None).
  set (db1 := mkDb (db_autopilots db) (db_runs db ++ [run]) (db_issues db) (db_fresh db + 1)).
  pose proof (invoke_keeps_runs a run db1) as Hk. pose proof (invoke_keeps_autopilots a run db1) as Ha.
  pose proof (invoke_fresh a run db1) as Hf.
  assert (Hi1 : ids db1 = ids db ++ [(db_fresh db, (ap_id a, slot))])
    by (unfold ids; simpl; by rewrite map_app).
  fold (ids db1) in Hk. fold (ids (snd (invoke a run db1))) in Hk.
  destruct (invoke a run db1) as [[u|e] db2]; simpl in *; (split; [done|]); (split; [lia|]);
    exists slot; (split; [done|]); (split; [done|]); (split; [done|]); (split; [|lia]);
    rewrite ?ids_complete, ?ids_failed; by rewrite Hk, Hi1.
Qed.

Lemma fire_wf a now db : runs_wf db -> runs_wf (snd (fire a now db)).
Proof.
  intros Hwf. pose proof (fire_spec a now db) as (_ & Hf & Hs).
  destruct (fst (fire a now db)); [|by rewrite Hs].
  destruct Hs as (slot & _ & _ & Hn & Hids & Hlt). destruct Hwf as (H1 & H2 & H3).
  set (run := mkRun (db_fresh db) (ap_id a) slot "" 0 None).
  apply (runs_wf_ids (mkDb [] (db_runs db ++ [run]) [] (db_fresh db + 1))).
  - rewrite Hids. unfold ids; simpl. by rewrite map_app.
  - simpl. lia.
  - unfold runs_wf; simpl. rewrite !map_app. split; [|split].
    + apply NoDup_app. split; [done|]. split; [|apply NoDup_singleton].
      intros x Hx ->%list_elem_of_singleton. by apply Hn.
    + apply Forall_app. split; [eapply Forall_impl; [exact H2|simpl; lia]|constructor; [simpl; lia|done]].
    + apply NoDup_app. split; [done|]. split; [|apply NoDup_singleton].
      intros x Hx ->%list_elem_of_singleton. apply list_elem_of_fmap in Hx as (r & Hr & Hin).
      rewrite Forall_forall in H2. apply H2 in Hin. simpl in *. lia.
Qed.

(** A whole pass, from any count. *)
Lemma fire_all_spec now l n db :
  let '(m, db') := fold_left (fun acc a => let '(b, db) := fire a now (snd acc) in
                                ((fst acc + if b then 1 else 0)%nat, db)) l (n, db) in
  (runs_wf db -> runs_wf db') /\ db_autopilots db' = db_autopilots db /\
  (length (db_runs db') + n = length (db_runs db) + m)%nat /\
  (exists new, ids db' = ids db ++ new) /\
  forall k, k ∈ map slot_key (db_runs db') ->
    k ∈ map slot_key (db_runs db) \/
    exists a, a ∈ l /\ fst k = ap_id a /\ last_due_slot (ap_cron a) now = Some (snd k) /\ fresh (snd k) now = true.
Proof.
  revert n db. induction l as [|a l IH]; intros n db; simpl.
  { split; [done|]. split; [done|]. split; [lia|]. split; [exists []; by rewrite app_nil_r|]. auto. }
  pose proof (fire_spec a now db) as (Ha & Hf & Hs). pose proof (fire_wf a now db) as Hwf.
  destruct (fire a now db) as [b db1]. cbn [fst snd] in *.
  specialize (IH (n + if b then 1 else 0)%nat db1).
  destruct (fold_left _ l _) as [m db']. destruct IH as (IHwf & IHa & IHlen & (new & IHids) & IHk).
  assert (H1 : length (db_runs db1) = (length (db_runs db) + if b then 1 else 0)%nat /\
               (exists new1, ids db1 = ids db ++ new1) /\
               forall k, k ∈ map slot_key (db_runs db1) ->
                 k ∈ map slot_key (db_runs db) \/ fst k = ap_id a /\
                 last_due_slot (ap_cron a) now = Some (snd k) /\ fresh (snd k) now = true).
  { destruct b; [|subst db1; split; [lia|split; [exists []; by rewrite app_nil_r|auto]]].
    destruct Hs as (slot & Hl & Hfr & _ & Hids & _). split; [|split; [eauto|]].
    - apply (f_equal length) in Hids. unfold ids in Hids. rewrite length_app, !length_map in Hids. done.
    - intros k Hk. assert (E := f_equal (map snd) Hids). unfold ids in E. rewrite map_app, !map_map in E.
      simpl in E. change (map (fun x => slot_key x) ?l) with (map slot_key l) in E. rewrite E in Hk.
      apply elem_of_app in Hk as [Hk | ->%list_elem_of_singleton]; [by left|]. right. done. }
  destruct H1 as (Hlen1 & (new1 & Hids1) & Hk1).
  split; [auto|]. split; [congruence|]. split; [destruct b; lia|].
  split; [exists (new1 ++ new); by rewrite IHids, Hids1, app_assoc|].
  intros k Hk. destruct (IHk k Hk) as [Hin | (a' & Hin & Hr)].
  - destruct (Hk1 k Hin) as [|Hr]; [by left|]. right. exists a. split; [set_solver|done].
  - right. exists a'. split; [set_solver|done].
Qed.

Lemma keys_grow db db' new :
  ids db' = ids db ++ new -> forall k, k ∈ map slot_key (db_runs db) -> k ∈ map slot_key (db_runs db').
Proof.
  intros Hids k Hk. assert (E := f_equal (map snd) Hids). unfold ids in E. rewrite map_app, !map_map in E.
  simpl in E. change (map (fun x => slot_key x) ?l) with (map slot_key l) in E. rewrite E.
  apply elem_of_app. by left.
Qed.

Lemma tick_spec now db :
  (runs_wf db -> runs_wf (snd (tick now db))) /\
  db_autopilots (snd (tick now db)) = db_autopilots db /\
  length (db_runs (snd (tick now db))) = (length (db_runs db) + fst (tick now db))%nat /\
  (forall k, k ∈ map slot_key (db_runs db) -> k ∈ map slot_key (db_runs (snd (tick now db)))) /\
  forall k, k ∈ map slot_key (db_runs (snd (tick now db))) ->
    k ∈ map slot_key (db_runs db) \/ fresh (snd k) now = true.
Proof.
  pose proof (fire_all_spec now (list_enabled db) 0 db) as Hs. unfold tick, fire_all.
  destruct (fold_left _ _ _) as [m db']. destruct Hs as (Hwf & Ha & Hlen & (new & Hids) & Hk). simpl.
  split; [done|]. split; [done|]. split; [lia|]. split; [by apply keys_grow with new|].
  intros k Hin. destruct (Hk k Hin) as [|(a & _ & _ & _ & Hf)]; auto.
Qed.

(** ** Theorems *)

(** C29: passes that follow one another fire each slot at most once: no two run
    rows ever share an autopilot and a slot, and a pass reports exactly as many
    firings as it adds rows. The bodies that a trigger invokes may do anything but
    add, remove or re-key run rows, change the autopilots or take back
    identifiers. *)
Theorem slot_fires_once (times : list Z) (now : Z) (db : Db) :
  runs_wf db ->
  let db1 := ticks times db in
  runs_wf (snd (tick now db1)) /\
  length (db_runs (snd (tick now db1))) = (length (db_runs db1) + fst (tick now db1))%nat.
Proof.
  intros Hwf db1. split; [|apply tick_spec]. apply tick_spec. subst db1. revert db Hwf.
  induction times as [|t times IH]; intros db Hwf; [done|]. apply IH. by apply tick_spec.
Qed.

(** The fresh test holds for a slot that fell since a pass at most one interval
    ago. *)
Lemma fresh_since t slot now :
  t < slot -> ((now - t # 1000000) <= interval)%Q -> fresh slot now = true.
Proof.
  intros Hlt Hle. unfold fresh. apply qlt_true. eapply Qlt_le_trans; [|exact Hle].
  unfold Qlt; simpl. lia.
Qed.

Lemma fire_claims a now slot db :
  last_due_slot (ap_cron a) now = Some slot -> fresh slot now = true ->
  (ap_id a, slot) ∈ map slot_key (db_runs (snd (fire a now db))).
Proof.
  intros Hs Hf. pose proof (fire_spec a now db) as (_ & _ & Hsp).
  destruct (fst (fire a now db)) eqn:E.
  - destruct Hsp as (slot' & Hs' & _ & _ & Hids & _). rewrite Hs in Hs'. simplify_eq.
    assert (E2 := f_equal (map snd) Hids). unfold ids in E2. rewrite map_app, !map_map in E2. simpl in E2.
    change (map (fun x => slot_key x) ?l) with (map slot_key l) in E2. rewrite E2.
    apply elem_of_app. right. set_solver.
  - rewrite Hsp. unfold fire, is_due, claim_slot in E. rewrite Hs in E. simpl in E. rewrite Hf in E.
    destruct (find_for_slot (ap_id a) slot db) as [r|] eqn:Ef.
    + destruct (decide ((ap_id a, slot) ∈ map slot_key (db_runs db))) as [|Hn]; [done|].
      apply find_for_slot_None in Hn. congruence.
    + simpl in E. match type of E with context [invoke ?x ?y ?z] => by destruct (invoke x y z) as [[]] end.
Qed.

(** No slot is passed over while passes are at most one interval apart: the
    latest slot of an enabled autopilot that fell after the previous pass has
    its run row after this one. *)
Theorem every_slot_fires (a : Autopilot) (previous now slot : Z) (db : Db) :
  a ∈ list_enabled db -> last_due_slot (ap_cron a) now = Some slot -> previous < slot ->
  ((now - previous # 1000000) <= interval)%Q ->
  (ap_id a, slot) ∈ map slot_key (db_runs (snd (tick now db))).
Proof.
  intros Hin Hs Hlt Hint. pose proof (fresh_since _ _ _ Hlt Hint) as Hf. clear Hint Hlt.
  unfold tick, fire_all. apply list_elem_of_split in Hin as (l1 & l2 & ->).
  rewrite fold_left_app. simpl.
  destruct (fold_left _ l1 _) as [n1 db1]. cbn [snd fst].
  pose proof (fire_claims a now slot db1 Hs Hf) as Hc. destruct (fire a now db1) as [b db2]. simpl in Hc.
  match goal with |- context [fold_left _ l2 (?n, _)] => pose proof (fire_all_spec now l2 n db2) as Hs2 end.
  destruct (fold_left _ l2 _) as [m db3]. destruct Hs2 as (_ & _ & _ & (new & Hids) & _).
  by apply keys_grow with db2 new.
Qed.
End scheduler.

(** The loop sleeps a whole interval after each pass, so passes are further
    apart than an interval by the time a pass takes.  A slot that falls while a
    pass is still running is then never fired, by that pass or any later one. *)
Theorem slot_missed_between_passes (croniter_prev : string -> Z -> option Z)
    (invoke : Autopilot -> AutopilotRun -> Db -> outcome exn unit * Db) (interval_us : Z)
    (laws : InvokeLaws invoke) (id : string) (start duration slot : Z) (later : list Z) (db : Db) :
  (forall c now s, croniter_prev c now = Some s -> s <= now) ->
  start < slot < start + duration ->
  Forall (fun now => start + duration + interval_us <= now) later ->
  (id, slot) ∉ map slot_key (db_runs db) ->
  (id, slot) ∉ map slot_key (db_runs (ticks croniter_prev invoke (interval_us # 1000000) (start :: later) db)).
Proof.
  intros Hcron [Hlo Hhi] Hlater Hn. simpl.
  assert (H1 : (id, slot) ∉ map slot_key (db_runs (snd (tick croniter_prev invoke (interval_us # 1000000) start db)))).
  { pose proof (fire_all_spec croniter_prev invoke (interval_us # 1000000) start (list_enabled db) 0 db) as Hs.
    unfold tick, fire_all. destruct (fold_left _ _ _) as [m db']. destruct Hs as (_ & _ & _ & _ & Hk).
    intros Hin. destruct (Hk _ Hin) as [|(a & _ & _ & Hl & _)]; [done|].
    apply Hcron in Hl. simpl in Hl. lia. }
  revert H1. generalize (snd (tick croniter_prev invoke (interval_us # 1000000) start db)). clear db Hn.
  induction Hlater as [|now later Hnow _ IH]; intros db Hn; [done|]. simpl. apply IH.
  intros Hin. destruct (tick_spec croniter_prev invoke (interval_us # 1000000) now db) as (_ & _ & _ & _ & Hk).
  destruct (Hk _ Hin) as [|Hf]; [done|]. unfold fresh in Hf. apply qlt_true in Hf.
  unfold Qlt in Hf; simpl in Hf. lia.
Qed.

(** Two overlapping passes that both look before either inserts claim the slot
    twice: nothing in the schema forbids the second row. *)
Lemma overlapping_claims_double_fire a slot now1 now2 db :
  ~ NoDup (map slot_key (db_runs (snd (insert_run a slot now2 (snd (insert_run a slot now1 db)))))).
Proof.
  simpl. rewrite !map_app. simpl. rewrite <- app_assoc. intros (_ & _ & Hn)%NoDup_app.
  apply NoDup_cons in Hn as [Hn _]. set_solver.
Qed.

#[export] Instance default_invoke_laws : InvokeLaws default_invoke.
Proof. constructor; intros; simpl; try done; lia. Qed.

(** *** Concrete passes *)

(** A cron expression that fires on the hour. *)
Definition hourly (_ : string) (now : Z) : option Z := Some (3600000000 * ((now - 1) / 3600000000)).

Definition sample_autopilot : Autopilot := mkAutopilot "a1" "w1" "nightly" "0 * * * *" "triage" true.
Definition sample_db : Db := mkDb [sample_autopilot] [] [] 0.

Lemma slot_fires_once_witness :
  let db1 := ticks hourly default_invoke 60 [3600500000; 3620000000] sample_db in
  runs_wf (snd (tick hourly default_invoke 60 3630000000 db1)) /\ length (db_runs db1) = 1%nat.
Proof.
  split; [|vm_compute; reflexivity].
  apply (slot_fires_once hourly default_invoke 60 [3600500000; 3620000000] 3630000000 sample_db).
  repeat split; constructor.
Defined.

Lemma every_slot_fires_witness :
  ("a1", 3600000000) ∈ map slot_key (db_runs (snd (tick hourly default_invoke 60 3600500000 sample_db))).
Proof.
  apply (every_slot_fires hourly default_invoke 60 sample_autopilot 3540500000 3600500000 3600000000 sample_db);
    [set_solver|vm_compute; reflexivity|done|done].
Defined.

Lemma slot_missed_between_passes_witness :
  ("a1", 3600000000) ∉ map slot_key
    (db_runs (ticks hourly default_invoke (60000000 # 1000000) [3599500000; 3661000000; 3722000000] sample_db)).
Proof.
  apply (slot_missed_between_passes hourly default_invoke 60000000 default_invoke_laws "a1" 3599500000 1000000
           3600000000 [3661000000; 3722000000] sample_db).
  - intros c now s [= <-]. pose proof (Z.mul_div_le (now - 1) 3600000000 ltac:(lia)). lia.
  - lia.
  - repeat constructor; lia.
  - set_solver.
Defined.
