(* ===== verification/Approval.v ===== *)
(** * Tool approval ([src/orchestratord/kernel/approval.py])

    The approval policies, the resolution of a configured policy, and
    [permission_mode_to_triple] of [config/schema.py] that the resolution
    consults. *)

From S2P Require Import Prelude Errors Dag StageRunner.

Open Scope string_scope.
Open Scope list_scope.

(** [ToolCallEvent]: the approval state is recorded on the event. *)
Record ToolCallEvent := mkToolCallEvent {
  ev_tool_name : string;
  ev_approved : option bool;
  ev_deny_reason : option text;
}.

Definition allow (reason : text) (e : ToolCallEvent) : ToolCallEvent :=
  mkToolCallEvent (ev_tool_name e) (Some true) (if text_truthy reason then Some reason else None).

Definition deny (reason : text) (e : ToolCallEvent) : ToolCallEvent :=
  mkToolCallEvent (ev_tool_name e) (Some false) (Some reason).

Inductive ApprovalPolicy := NeverApprovalPolicy | AskApprovalPolicy | ApproveSafeOnlyPolicy.

#[export] Instance ApprovalPolicy_eq_dec : EqDecision ApprovalPolicy.
Proof. solve_decision. Defined.

Definition SAFE_TOOLS : list string :=
  ["glob"; "grep"; "read"; "read_multiple_files"; "web_search"; "web_fetch"; "toolsearch";
   "ask_user_question"].

(** [policy.evaluate(event, ...)] *)
Definition evaluate (p : ApprovalPolicy) (e : ToolCallEvent) : bool * ToolCallEvent :=
  match p with
  | NeverApprovalPolicy => (true, allow [Lit "policy=never"] e)
  | AskApprovalPolicy =>
      (false, deny [Lit "policy=ask (autonomous mode: post-hoc audit, tool was executed)"] e)
  | ApproveSafeOnlyPolicy =>
      if mem (lower (ev_tool_name e)) SAFE_TOOLS then (true, allow [Lit "policy=approve-safe-only"] e)
      else (false, deny [Lit "policy=approve-safe-only ("; Lit (ev_tool_name e); Lit " not in safe list)"] e)
  end.

(** A configured policy: a name or a structured one. *)
Inductive policy_config :=
| PolicyName (s : string)
| PolicyDict (d : dict string pyval).

Definition APPROVAL_POLICY_MAP : dict string ApprovalPolicy :=
  [("never", NeverApprovalPolicy); ("ask", AskApprovalPolicy); ("approve-safe-only", ApproveSafeOnlyPolicy)].

Definition get_approval_policy (c : policy_config) : ApprovalPolicy :=
  match c with
  | PolicyDict _ => AskApprovalPolicy
  | PolicyName s => default AskApprovalPolicy (dget (lower (strip s)) APPROVAL_POLICY_MAP)
  end.

(** [SandboxConfig().approval_policy] *)
Definition default_approval_policy : policy_config := PolicyName "never".

(** [raw == SandboxConfig().approval_policy] for a structured [raw]. *)
Definition is_default_policy (d : dict string pyval) : bool :=
  match default_approval_policy with
  | PolicyName _ => false
  | PolicyDict _ => true
  end.

(** [default_decision] of [permission_mode_to_triple(mode)]. *)
Definition default_decision (permission_mode : string) : string :=
  let mode := if String.eqb permission_mode "" then "default" else strip permission_mode in
  default "ask" (dget mode
    [("default", "ask"); ("plan", "ask"); ("acceptEdits", "allow"); ("bypassPermissions", "allow");
     ("dontAsk", "deny"); ("auto", "allow"); ("bubble", "ask")]).

(** [resolve_approval_policy]: the sandbox's policy (if any) and the agent's
    permission mode. *)
Definition resolve_approval_policy (raw : option policy_config) (permission_mode : string)
    : ApprovalPolicy :=
  match raw with
  | Some (PolicyDict d) =>
      if is_default_policy d && String.eqb (default_decision permission_mode) "allow"
      then NeverApprovalPolicy else AskApprovalPolicy
  | Some (PolicyName s) => get_approval_policy (PolicyName s)
  | None => get_approval_policy (PolicyName "never")
  end.

(** [build_approval_policy_map]: an absent or empty policy is [never]. *)
Definition build_approval_policy_map (raw : option policy_config) : string * ApprovalPolicy :=
  match raw with
  | None => ("never", get_approval_policy (PolicyName "never"))
  | Some (PolicyName s) =>
      let s := if String.eqb s "" then "never" else s in (s, get_approval_policy (PolicyName s))
  | Some (PolicyDict []) => ("never", get_approval_policy (PolicyName "never"))
  | Some (PolicyDict d) => ("inline", get_approval_policy (PolicyDict d))
  end.

(** ** Theorems *)

(** Approval never widens by accident: a tool call passes a configured policy
    only if the policy is spelt "never" (up to case and blanks), or it is spelt
    "approve-safe-only" and the tool is on the read-only list; a misspelt or a
    structured policy lets nothing pass.  The event always records the decision
    that is returned. *)
Theorem approval_fails_closed (c : policy_config) (e : ToolCallEvent) :
  let '(ok, e') := evaluate (get_approval_policy c) e in
  ev_approved e' = Some ok /\ ev_tool_name e' = ev_tool_name e /\ (ok = false -> is_Some (ev_deny_reason e')) /\
  (ok = true <->
   exists s, c = PolicyName s /\
     (lower (strip s) = "never" \/
      lower (strip s) = "approve-safe-only" /\ lower (ev_tool_name e) ∈ SAFE_TOOLS)).
Proof.
  destruct c as [s|d].
  - unfold get_approval_policy, APPROVAL_POLICY_MAP. cbn [dget].
    destruct (decide (lower (strip s) = "never")) as [Hn|Hn].
    { simpl. split; [done|]. split; [done|]. split; [done|]. split; [|done]. intros _.
      exists s. split; [done|]. by left. }
    destruct (decide (lower (strip s) = "ask")) as [Ha|Ha].
    { simpl. split; [done|]. split; [done|]. split; [by eexists|]. split; [done|].
      intros (s' & [= <-] & [Hx | [Hx _]]); congruence. }
    destruct (decide (lower (strip s) = "approve-safe-only")) as [Hs|Hs]; cbn [from_option id evaluate].
    + destruct (mem _ _) eqn:Em.
      * split; [done|]. split; [done|]. split; [done|]. split; [|done]. intros _. exists s.
        split; [done|]. right. split; [done|]. by apply mem_true in Em.
      * split; [done|]. split; [done|]. split; [by eexists|]. split; [done|].
        intros (s' & [= <-] & [Hx | [_ Hin]]); [congruence|]. by apply mem_true in Hin; congruence.
    + split; [done|]. split; [done|]. split; [by eexists|]. split; [done|].
      intros (s' & [= <-] & [Hx | [Hx _]]); congruence.
  - split; [done|]. split; [done|]. split; [by eexists|]. split; [done|]. by intros (s & Hs & _).
Qed.

(** The permission mode has no say: the structured default it is compared with
    is a plain string now, so the resolved policy is the same for every
    permission mode, and an unset policy approves every tool call even where the
    mode denies by default. *)
Theorem permission_mode_ignored (raw : option policy_config) (mode1 mode2 : string) :
  resolve_approval_policy raw mode1 = resolve_approval_policy raw mode2 /\
  resolve_approval_policy (Some default_approval_policy) mode1 = NeverApprovalPolicy /\
  resolve_approval_policy None mode1 = NeverApprovalPolicy.
Proof. by destruct raw as [[]|]. Qed.
