(* ===== verification/ModeRouting.v ===== *)
(** * Collaboration modes: routing and selection
    ([src/orchestratord/mode_router.py], [mode_selector.py], [modes/__init__.py],
    the registration of [kernel/mode_dispatcher.py] and
    [_resolve_session_runner] of [orchestrator.py])

    Labels, a keyword router or a model pick the mode of an issue; the
    dispatcher registers the enabled modes; at run time the chosen mode is looked
    up.  The model's endpoint and [json.loads] are parameters. *)

From S2P Require Import Prelude Errors Dag StageRunner Regex ClarModel.

Open Scope string_scope.
Open Scope list_scope.
Open Scope Z_scope.

Record RouterResult := mkRouterResult {
  rr_mode : string;
  rr_reason : string;
  rr_confidence : Q;
  rr_goal_condition : option string;
}.

(** What is routed: title, description, labels. *)
Record Subject := mkSubject {
  sj_title : option string;
  sj_description : option string;
  sj_labels : list string;
}.

Record ModeDecision := mkModeDecision {
  md_mode : string;
  md_reason : string;
  md_source : string;
  md_confidence : Q;
  md_goal_condition : option string;
}.

(** ** The keyword router *)

Definition DEBATE_KEYWORDS : list string :=
  ["design"; "investigate"; "research"; "compare"; "choose between"; "evaluate"; "decide"; "tradeoff";
   "trade-off"; "proposal"].
Definition COORDINATOR_KEYWORDS : list string :=
  ["refactor"; "cross-module"; "multi-file"; "multi-module"; "rewrite"; "split into"; "extract";
   "consolidate"; "migrate"].
Definition SWARM_KEYWORDS : list string :=
  ["swarm"; "decompose"; "multi-step"; "independent tasks"; "parallel tasks"; "end-to-end migration";
   "complex bug"].
Definition PIPELINE_KEYWORDS : list string :=
  ["implement"; "add feature"; "build"; "create endpoint"; "create route"; "introduce"; "scaffold";
   "wire up"].
Definition GOAL_KEYWORDS : list string :=
  ["achieve"; "until"; "keep going"; "make sure"; "verify"; "until verified"; "finish"; "complete the"].

Definition extract_text (s : Subject) : string :=
  lower (default "" (sj_title s) +:+ " " +:+ default "" (sj_description s)).

(** [_first_keyword_hit]; the source iterates a set, so which hit is first is not
    specified, only whether there is one matters for the mode. *)
Definition first_keyword_hit (text : string) (keywords : list string) : option string :=
  find (fun k => contains k text) keywords.

Definition goal_condition_if_matches (text : string) (s : Subject) : option string :=
  match first_keyword_hit text GOAL_KEYWORDS with
  | Some _ => str_or (Some (strip (default "" (sj_title s)))) None
  | None => None
  end.

Definition KEYWORD_MODES : list (string * list string) :=
  [("swarm", SWARM_KEYWORDS); ("debate", DEBATE_KEYWORDS); ("coordinator", COORDINATOR_KEYWORDS);
   ("pipeline", PIPELINE_KEYWORDS)].

Fixpoint first_mode_hit (text : string) (l : list (string * list string)) : option (string * string) :=
  match l with
  | [] => None
  | (mode, kws) :: l' =>
      match first_keyword_hit text kws with
      | Some hit => Some (mode, hit)
      | None => first_mode_hit text l'
      end
  end.

(** [HeuristicRouter.choose] *)
Definition heuristic_choose (confidence_match confidence_default : Q) (s : Subject) : RouterResult :=
  let text := extract_text s in
  match first_mode_hit text KEYWORD_MODES with
  | Some (mode, hit) =>
      mkRouterResult mode ("router: matched keyword " +:+ hit) confidence_match None
  | None =>
      let goal := goal_condition_if_matches text s in
      mkRouterResult "single" "router: no keyword match"
        (if is_some goal then confidence_match else confidence_default) goal
  end.

(** ** The model router *)

Definition LLM_ROUTER_VALID_MODES : list string := ["single"; "pipeline"; "coordinator"; "debate"; "swarm"].

Definition fence : string := "```".

(** The part of [s] before a closing fence at its very end. *)
Fixpoint before_last_fence (s : string) : option string :=
  match s with
  | EmptyString => None
  | String c s' =>
      if String.eqb s fence then Some EmptyString
      else String c <$> before_last_fence s'
  end.

Definition drop_str (n : nat) (s : string) : string := String.substring n (String.length s - n) s.

(** [_strip_json_fences]: an opening fence (with an optional [json]) and a
    closing one around the text. *)
Definition strip_json_fences (text : string) : string :=
  let text := strip text in
  if String.prefix fence text then
    let body := drop_str 3 text in
    let body := if String.prefix "json" body then drop_str 4 body else body in
    match before_last_fence body with
    | Some inner => strip inner
    | None => text
    end
  else text.

Definition low_confidence (reason : string) : RouterResult := mkRouterResult "single" reason (1 # 10) None.

Section llm.
Context (X : Text).

(** [str(data.get(k, dflt))] *)
Definition get_str (d : dict string pyval) (k : string) : string :=
  match dget k d with Some v => py_str X v | None => "" end.

(** [LLMRouter._parse]: a JSON value that is no object has no [get]. *)
Definition llm_parse (response : string) : outcome exn RouterResult :=
  match json_loads X (strip_json_fences response) with
  | None => Ret (low_confidence "LLMRouter: model returned non-JSON output")
  | Some (PDict d) =>
      let mode := lower (strip (get_str d "mode")) in
      if negb (mem mode LLM_ROUTER_VALID_MODES) then
        Ret (low_confidence ("LLMRouter: model picked unknown mode=" +:+ mode))
      else
        let reason := strip (get_str d "reason") in
        let reason := if String.eqb reason "" then "LLMRouter: no reason given" else reason in
        match to_float X (default (PFloat (1 # 2)) (dget "confidence" d)) with
        | inr c => Ret (mkRouterResult mode ("LLMRouter: " +:+ reason) (clamp01 c) None)
        | inl false => Ret (mkRouterResult mode ("LLMRouter: " +:+ reason) (clamp01 (1 # 2)) None)
        | inl true => Raise overflow_error
        end
  | Some _ => Raise (attribute_error "get")
  end.

(** [LLMRouter.choose]: [key] is the API key of the environment, [post] the
    text the endpoint answers with, or the failure of the call. *)
Definition llm_choose (key : option string) (post : Subject -> outcome exn string) (exn_name : exn -> string)
    (s : Subject) : outcome exn RouterResult :=
  if String.eqb (strip (default "" key)) "" then
    Ret (low_confidence "LLMRouter: env var is unset; cannot call provider")
  else
    match post s with
    | Raise e => Ret (low_confidence ("LLMRouter: provider call raised: " +:+ exn_name e))
    | Ret response => llm_parse response
    end.
End llm.

(** ** The selector *)

Definition MODE_LABEL_PREFIX : string := "mode:".

Definition KNOWN_MODES : list string := ["single"; "pipeline"; "coordinator"; "debate"; "swarm"; "auto"].

(** The modes an issue can run under. *)
Definition RUNNABLE_MODES : list string := ["single"; "pipeline"; "coordinator"; "debate"; "swarm"].

Record ModeSelector := mkModeSelector {
  ms_default_mode : string;
  ms_router : option (Subject -> outcome exn RouterResult);
  ms_min_confidence : Q;
}.

Definition value_error (what : string) : exn := mkExn OtherException [Lit "ValueError: "; Lit what] None.

(** [ModeSelector.__init__] *)
Definition new_selector (default_mode : string) (router : option (Subject -> outcome exn RouterResult))
    (min_confidence : Q) : outcome exn ModeSelector :=
  if negb (mem default_mode KNOWN_MODES) then Raise (value_error "default_mode not in KNOWN_MODES")
  else if negb (qle 0 min_confidence && qle min_confidence 1)
       then Raise (value_error "min_confidence must be in [0.0, 1.0]")
  else Ret (mkModeSelector default_mode router min_confidence).

Definition default_selector : ModeSelector := mkModeSelector "single" None (1 # 2).

(** [build_mode_selector]: a configuration the selector refuses gives the
    defaults. *)
Definition build_mode_selector (default_mode : string) (router : option (Subject -> outcome exn RouterResult))
    (min_confidence : Q) : ModeSelector :=
  match new_selector default_mode router min_confidence with
  | Ret s => s
  | Raise _ => default_selector
  end.

(** [_mode_from_labels] *)
Fixpoint mode_from_labels (labels : list string) : option (string * string) :=
  match labels with
  | [] => None
  | raw :: labels' =>
      let label := lower (strip raw) in
      if String.prefix MODE_LABEL_PREFIX label then
        let mode := drop_str 5 label in
        if mem mode KNOWN_MODES then Some (mode, raw) else mode_from_labels labels'
      else mode_from_labels labels'
  end.

Definition default_decision (sel : ModeSelector) (reason : string) : ModeDecision :=
  mkModeDecision (ms_default_mode sel) reason "fallback" 1 None.

(** [_choose_via_router] *)
Definition choose_via_router (sel : ModeSelector) (s : Subject) (fallback_reason : string) : ModeDecision :=
  match ms_router sel with
  | None => default_decision sel (fallback_reason +:+ "; but no router available")
  | Some router =>
      match router s with
      | Raise _ => default_decision sel (fallback_reason +:+ "; router raised")
      | Ret r =>
          if negb (mem (rr_mode r) KNOWN_MODES) || String.eqb (rr_mode r) "auto" then
            default_decision sel ("router returned mode=" +:+ rr_mode r +:+ "; falling back")
          else if qlt (rr_confidence r) (ms_min_confidence sel) then
            default_decision sel ("router picked " +:+ rr_mode r +:+ " but confidence is low; falling back")
          else mkModeDecision (rr_mode r) (rr_reason r) "router" (rr_confidence r) (rr_goal_condition r)
      end
  end.

(** [ModeSelector.choose] *)
Definition choose (sel : ModeSelector) (s : Subject) : ModeDecision :=
  match mode_from_labels (sj_labels s) with
  | Some (mode, label) =>
      if String.eqb mode "auto" then choose_via_router sel s ("label " +:+ label +:+ " requests router")
      else mkModeDecision mode ("explicit label " +:+ label) "label" 1 None
  | None =>
      match ms_router sel with
      | Some _ => choose_via_router sel s "no mode label; consulting router"
      | None => default_decision sel "no mode label and no router configured"
      end
  end.

(** ** Registration and look-up *)

(** The modes [register_collaboration_modes] registers. *)
Definition registered_modes (enabled : list string) : list string :=
  let on := map (fun m => lower (strip m)) (List.filter (fun m => negb (String.eqb m "")) enabled) in
  "single" :: List.filter (fun m => mem m on) ["pipeline"; "coordinator"; "swarm"; "debate"].

(** [_resolve_session_runner] for an issue run: the mode it will run under. *)
Definition resolve_session_runner (registered : list string) (collaboration_mode : option string)
    : outcome exn string :=
  let mode := default "single" (str_or collaboration_mode None) in
  if String.eqb mode "single" then Ret "single"
  else if mem mode registered then Ret mode
  else Raise (mkExn OtherException [Lit "RuntimeError: requested collaboration mode "; Lit mode;
                                    Lit " is not enabled in workflow.md"] None).

(** ** Theorems *)

Lemma runnable_known m : m ∈ RUNNABLE_MODES <-> m ∈ KNOWN_MODES /\ m <> "auto".
Proof. unfold RUNNABLE_MODES, KNOWN_MODES. set_solver. Qed.

Lemma mode_from_labels_known labels mode label :
  mode_from_labels labels = Some (mode, label) -> mode ∈ KNOWN_MODES /\ label ∈ labels.
Proof.
  induction labels as [|raw labels IH]; cbn [mode_from_labels]; [done|]. cbv zeta.
  destruct (String.prefix _ _); [|intros H; destruct (IH H); set_solver].
  destruct (mem (drop_str 5 (lower (strip raw))) KNOWN_MODES) eqn:E;
    [|intros H; destruct (IH H); set_solver].
  intros [= <- <-]. apply mem_true in E. set_solver.
Qed.

Lemma choose_via_router_spec sel s reason :
  let d := choose_via_router sel s reason in
  (md_mode d = ms_default_mode sel /\ md_source d = "fallback") \/
  (md_mode d ∈ RUNNABLE_MODES /\ md_source d = "router" /\ (ms_min_confidence sel <= md_confidence d)%Q /\
   exists router r, ms_router sel = Some router /\ router s = Ret r /\ rr_mode r = md_mode d).
Proof.
  unfold choose_via_router. destruct (ms_router sel) as [router|]; [|by left].
  destruct (router s) as [r|e] eqn:Er; [|by left].
  destruct (mem (rr_mode r) KNOWN_MODES) eqn:Em; cbn [negb orb]; [|by left].
  destruct (String.eqb_spec (rr_mode r) "auto"); [by left|].
  destruct (qlt _ _) eqn:Eq; [by left|]. right. apply qlt_false in Eq. apply mem_true in Em.
  split; [by apply runnable_known|]. split; [done|]. split; [done|]. by exists router, r.
Qed.

(** [choose] always decides, whatever the router does: an explicit label wins; a
    router's pick is used only if it is a runnable mode and confident enough;
    everything else is the default.  With a runnable default the decision is
    always runnable. *)
Theorem choose_decides (sel : ModeSelector) (s : Subject) :
  ms_default_mode sel ∈ RUNNABLE_MODES ->
  let d := choose sel s in
  md_mode d ∈ RUNNABLE_MODES /\
  (forall mode label, mode_from_labels (sj_labels s) = Some (mode, label) -> mode <> "auto" ->
     md_mode d = mode /\ md_source d = "label") /\
  (md_source d = "router" -> (ms_min_confidence sel <= md_confidence d)%Q /\
     exists router r, ms_router sel = Some router /\ router s = Ret r /\ rr_mode r = md_mode d) /\
  (md_source d = "fallback" -> md_mode d = ms_default_mode sel).
Proof.
  intros Hd. unfold choose.
  assert (Hvia : forall reason, let d := choose_via_router sel s reason in
            md_mode d ∈ RUNNABLE_MODES /\
            (md_source d = "router" -> (ms_min_confidence sel <= md_confidence d)%Q /\
               exists router r, ms_router sel = Some router /\ router s = Ret r /\ rr_mode r = md_mode d) /\
            (md_source d = "fallback" -> md_mode d = ms_default_mode sel)).
  { intros reason. destruct (choose_via_router_spec sel s reason) as [[Hm Hs] | (Hm & Hs & Hc & Hr)]; cbv zeta.
    - rewrite Hm, Hs. split; [done|]. split; [done|done].
    - rewrite Hs. split; [done|]. split; [done|done]. }
  destruct (mode_from_labels (sj_labels s)) as [[mode label]|] eqn:El.
  - apply mode_from_labels_known in El as [Hk _].
    destruct (String.eqb_spec mode "auto") as [->|Hne].
    + destruct (Hvia ("label " +:+ label +:+ " requests router")) as (H1 & H2 & H3).
      split; [done|]. split; [by intros ? ? [= <- <-]|done].
    + simpl. split; [by apply runnable_known|]. split; [by intros ? ? [= <- <-]|done].
  - destruct (ms_router sel) eqn:Er.
    + destruct (Hvia "no mode label; consulting router") as (H1 & H2 & H3). done.
    + simpl. done.
Qed.

(** The model router is said never to raise, but an answer that is JSON and no
    object (a list, say) does raise, as does a confidence too large for a float;
    the selector turns both into the default. *)
Theorem llm_router_raises (X : Text) (response : string) (post : Subject -> outcome exn string)
    (exn_name : exn -> string) (key : string) (s : Subject) (v : pyval) (default_mode : string) (min_c : Q) :
  strip key <> "" -> post s = Ret response ->
  json_loads X (strip_json_fences response) = Some v -> (forall d, v <> PDict d) ->
  mode_from_labels (sj_labels s) = None ->
  let router := llm_choose X (Some key) post exn_name in
  router s = Raise (attribute_error "get") /\
  md_mode (choose (mkModeSelector default_mode (Some router) min_c) s) = default_mode.
Proof.
  intros Hk Hp Hj Hv Hl router.
  assert (Hr : router s = Raise (attribute_error "get")).
  { unfold router, llm_choose. cbn [from_option id]. rewrite (proj2 (String.eqb_neq _ _) Hk), Hp.
    unfold llm_parse. rewrite Hj. destruct v; try done. by destruct (Hv d). }
  split; [done|]. unfold choose. rewrite Hl. cbn [ms_router]. unfold choose_via_router. cbn [ms_router].
  by rewrite Hr.
Qed.

(** The selector does not know which modes are enabled: with the default
    configuration of modes and the keyword router switched on, any issue whose
    text contains a keyword of another mode is given a mode nobody registered,
    and its run raises. *)
Theorem routed_mode_not_enabled (s : Subject) (mode hit : string) :
  sj_labels s = [] -> first_mode_hit (extract_text s) KEYWORD_MODES = Some (mode, hit) ->
  let router s := Ret (heuristic_choose (7 # 10) (1 # 5) s) in
  let d := choose (build_mode_selector "single" (Some router) (1 # 2)) s in
  md_mode d = mode /\
  exists e, resolve_session_runner (registered_modes ["single"]) (Some (md_mode d)) = Raise e.
Proof.
  intros Hl Hh router d.
  assert (Hm : mode ∈ ["swarm"; "debate"; "coordinator"; "pipeline"]).
  { unfold KEYWORD_MODES in Hh. cbn [first_mode_hit] in Hh.
    repeat match type of Hh with context [match ?x with _ => _ end] => destruct x end; set_solver. }
  assert (Hd : md_mode d = mode).
  { unfold d, choose. rewrite Hl. cbn [mode_from_labels].
    assert (Hc : heuristic_choose (7 # 10) (1 # 5) s =
                 mkRouterResult mode ("router: matched keyword " +:+ hit) (7 # 10) None)
      by (unfold heuristic_choose; by rewrite Hh).
    unfold build_mode_selector, new_selector. simpl. unfold choose_via_router, router. simpl. rewrite Hc.
    simpl. repeat (apply elem_of_cons in Hm as [-> | Hm]; [done|]). by apply elem_of_nil in Hm. }
  split; [done|]. rewrite Hd.
  repeat (apply elem_of_cons in Hm as [-> | Hm]; [by eexists|]). by apply elem_of_nil in Hm.
Qed.

(** *** Concrete subjects *)

Definition sample_subject : Subject := mkSubject (Some "Refactor the store") None [].

Lemma choose_decides_witness :
  md_mode (choose default_selector (mkSubject (Some "x") None ["Mode:Pipeline "])) = "pipeline".
Proof.
  destruct (choose_decides default_selector (mkSubject (Some "x") None ["Mode:Pipeline "])) as (_ & H & _).
  - unfold RUNNABLE_MODES. simpl. set_solver.
  - apply (H "pipeline" "Mode:Pipeline "); [vm_compute; reflexivity|done].
Defined.

Lemma llm_router_raises_witness :
  llm_choose (sample_text (PList [])) (Some "k") (fun _ => Ret "[]") (fun _ => "") sample_subject
    = Raise (attribute_error "get").
Proof.
  apply (llm_router_raises (sample_text (PList [])) "[]" (fun _ => Ret "[]") (fun _ => "") "k" sample_subject
           (PList []) "single" (1 # 2)); done.
Defined.

Lemma routed_mode_not_enabled_witness :
  md_mode (choose (build_mode_selector "single" (Some (fun s => Ret (heuristic_choose (7 # 10) (1 # 5) s))) (1 # 2))
             sample_subject) = "coordinator".
Proof.
  apply (routed_mode_not_enabled sample_subject "coordinator" "refactor"); [done|vm_compute; reflexivity].
Defined.
