(* ===== verification/TaskPlan.v ===== *)
(** * Task decomposition ([src/orchestratord/task_decomposition/models.py],
    [planner.py])

    The task graph of swarm execution: extraction of tasks from an issue, the
    execution waves, the validation of a plan and of the evidence of its
    execution.  [json.loads], time parsing and the files of evidence are
    parameters. *)

From stdpp Require Import pretty.
From S2P Require Import Prelude Errors Dag StageRunner Intent Regex.

Open Scope string_scope.
Open Scope list_scope.
Open Scope Z_scope.

Record Subtask := mkSubtask {
  st_id : string;
  st_title : string;
  st_description : string;
  st_depends_on : list string;
  st_verification : string;
  st_affected_files : list string;
}.

Record TaskPlan := mkTaskPlan {
  tp_goal : string;
  tp_subtasks : list Subtask;
  tp_waves : list (list string);
  tp_max_parallel : Z;
}.

Definition plan_error (what : string) : exn := mkExn OtherException [Lit "ValueError: "; Lit what] None.

(** [if bad: raise ValueError] *)
Definition refuse (bad : bool) (what : string) : outcome exn unit :=
  if bad then Raise (plan_error what) else Ret tt.

Definition subset (a b : list string) : bool := forallb (fun x => mem x b) a.

Definition all_ids (l : list Subtask) : list string := map st_id l.

Fixpoint has_dup (l : list string) : bool :=
  match l with
  | [] => false
  | x :: l' => mem x l' || has_dup l'
  end.

(** ** Validation of a plan *)

(** The files the tasks of a wave claim, in the order they are claimed. *)
Definition wave_files (subtasks : list Subtask) (wave : list string) : list string :=
  flat_map (fun id => match find (fun t => String.eqb (st_id t) id) subtasks with
                      | Some t => st_affected_files t
                      | None => []
                      end) wave.

(** [_check_file_conflicts]: the owners are cleared after each wave. *)
Definition check_file_conflicts (p : TaskPlan) : outcome exn unit :=
  refuse (existsb (fun w => has_dup (wave_files (tp_subtasks p) w)) (tp_waves p)) "file conflict".

(** [wave_index[id]]: the index of the last wave that has the task. *)
Fixpoint wave_index (k : nat) (waves : list (list string)) (id : string) : option nat :=
  match waves with
  | [] => None
  | w :: waves' =>
      match wave_index (S k) waves' id with
      | Some n => Some n
      | None => if mem id w then Some k else None
      end
  end.

(** [wave_index[dependency] >= wave_index[task.id]] *)
Definition out_of_order (p : TaskPlan) (t : Subtask) (dep : string) : bool :=
  match wave_index 0 (tp_waves p) dep, wave_index 0 (tp_waves p) (st_id t) with
  | Some d, Some n => (n <=? d)%nat
  | _, _ => true
  end.

Definition validate (max_subtasks max_waves : Z) (p : TaskPlan) : outcome exn unit :=
  let tasks := tp_subtasks p in
  let ids := all_ids tasks in
  let flat := concat (tp_waves p) in
  _ ← refuse (Nat.eqb (length tasks) 0) "task plan must contain at least one subtask";
  _ ← refuse (max_subtasks <? Z.of_nat (length tasks)) "too many subtasks";
  _ ← refuse (has_dup ids) "task plan contains duplicate subtask ids";
  _ ← refuse (existsb (fun t => negb (subset (st_depends_on t) ids) || mem (st_id t) (st_depends_on t)) tasks)
        "subtask depends on unknown ids or on itself";
  _ ← refuse (negb (subset flat ids && subset ids flat) || negb (Nat.eqb (length flat) (length ids)))
        "execution waves must contain every subtask exactly once";
  _ ← refuse (max_waves <? Z.of_nat (length (tp_waves p))) "too many waves";
  _ ← refuse (tp_max_parallel p <? 1) "max_parallel must be at least one";
  _ ← refuse (existsb (fun w => tp_max_parallel p <? Z.of_nat (length w)) (tp_waves p))
        "execution wave exceeds max_parallel";
  _ ← check_file_conflicts p;
  refuse (existsb (fun t => existsb (out_of_order p t) (st_depends_on t)) tasks)
    "subtask must run after its dependencies".

(** ** Waves *)

(** [sorted] on ids *)
Fixpoint insert_id (x : string) (l : list string) : list string :=
  match l with
  | [] => [x]
  | y :: l' => if String.leb x y then x :: l else y :: insert_id x l'
  end.

Definition sort_ids (l : list string) : list string := foldr insert_id [] l.

(** [[l[i:i+n] for i in range(0, len(l), n)]] for [n >= 1] *)
Fixpoint chunks (fuel n : nat) (l : list string) : list (list string) :=
  match fuel, l with
  | S fuel', _ :: _ => take n l :: chunks fuel' n (drop n l)
  | _, _ => []
  end.

Definition ready_ids (remaining : dict string (list string)) (completed : list string) : list string :=
  map fst (List.filter (fun kv => subset (snd kv) completed) remaining).

(** The loop of [_build_waves]. *)
Fixpoint waves_loop (fuel max_parallel : nat) (remaining : dict string (list string))
    (completed : list string) : outcome exn (list (list string)) :=
  match remaining, fuel with
  | [], _ => Ret []
  | _, O => Raise (plan_error "out of fuel")
  | _, S fuel' =>
      match sort_ids (ready_ids remaining completed) with
      | [] => Raise (plan_error "task plan contains a dependency cycle")
      | ready =>
          rest ← waves_loop fuel' max_parallel
                   (List.filter (fun kv => negb (mem (fst kv) ready)) remaining) (completed ++ ready);
          Ret (chunks (length ready) max_parallel ready ++ rest)
      end
  end.

(** [{task.id: set(task.depends_on) for task in subtasks}] *)
Definition dependencies (subtasks : list Subtask) : dict string (list string) :=
  fold_left (fun d t => dset (st_id t) (st_depends_on t) d) subtasks [].

Definition build_waves (subtasks : list Subtask) (max_parallel : Z) : outcome exn (list (list string)) :=
  let remaining := dependencies subtasks in
  waves_loop (length remaining) (Z.to_nat max_parallel) remaining [].

(** ** The seed plan *)

(** What follows the digits at the head of [s], if there are any. *)
Fixpoint after_digits (s : string) : option string :=
  match s with
  | String c s' =>
      if is_digit c then
        match after_digits s' with Some r => Some r | None => Some s' end
      else None
  | EmptyString => None
  end.

(** The text of a list item ([_LIST_ITEM]), stripped: a bullet, or a number with
    a dot or a parenthesis, then white space. *)
Definition list_item (line : string) : option string :=
  let after :=
    match lstrip line with
    | String c rest =>
        if Ascii.eqb c (Ascii.ascii_of_N 45) || Ascii.eqb c (Ascii.ascii_of_N 42) then Some rest
        else match after_digits (String c rest) with
             | Some (String d rest') =>
                 if Ascii.eqb d (Ascii.ascii_of_N 46) || Ascii.eqb d (Ascii.ascii_of_N 41)
                 then Some rest' else None
             | _ => None
             end
    | EmptyString => None
    end in
  match after with
  | Some (String sp rest) => if is_space sp && negb (String.eqb rest "") then Some (strip rest) else None
  | _ => None
  end.

(** The loop of [_extract_explicit_tasks]. *)
Fixpoint extract_tasks (limit : nat) (lines : list string) (tasks : list string) : list string :=
  match lines with
  | [] => tasks
  | line :: lines' =>
      let tasks :=
        match list_item line with
        | Some t => if (4 <=? String.length t)%nat then tasks ++ [take_str 600 t] else tasks
        | None => tasks
        end in
      if (limit <=? length tasks)%nat then tasks else extract_tasks limit lines' tasks
  end.

Definition SEQUENTIAL_MARKERS : list string := [" then "; "after "; "once "; "然后"; "之后"; "完成后"; "再"].
Definition DISCOVERY_MARKERS : list string :=
  ["analyze"; "audit"; "inspect"; "investigate"; "map "; "梳理"; "分析"; "调查"; "定位"].
Definition VERIFICATION_MARKERS : list string :=
  ["test"; "verify"; "validation"; "regression"; "测试"; "验证"; "回归"; "检查"].

Definition any_marker (markers : list string) (s : string) : bool := existsb (fun m => contains m s) markers.

(** [_FILE_REF]: a directory name, then path segments, between delimiters. *)
Definition is_delimiter (c : Ascii.ascii) : bool :=
  is_space c || mem c [Ascii.ascii_of_N 44; Ascii.ascii_of_N 59; Ascii.ascii_of_N 58].

Definition optional_s (w : string) : rx := rx_seq (rx_exact w) (rx_opt (rx_exact "s")).

Definition FILE_ROOTS : rx :=
  rx_choice
    ([rx_exact "src"; optional_s "test"; optional_s "doc"; rx_exact "lib"; rx_exact "app";
      rx_exact "extensions"; optional_s "script"; rx_exact "config"; optional_s "tool"; rx_exact "data";
      optional_s "asset"; rx_exact "static"; rx_exact "public"; optional_s "view"; optional_s "model";
      optional_s "controller"; optional_s "service"; optional_s "util"; optional_s "helper";
      rx_exact "middleware"; optional_s "route"; rx_exact "api"; optional_s "migration";
      optional_s "seed"; optional_s "fixture"; optional_s "hook"; optional_s "layout";
      optional_s "component"; optional_s "page"; optional_s "store"; optional_s "composable";
      optional_s "plugin"; optional_s "provider"; optional_s "composable"]).

Definition is_path_char (c : Ascii.ascii) : bool :=
  is_word c || Ascii.eqb c (Ascii.ascii_of_N 46) || Ascii.eqb c (Ascii.ascii_of_N 45).

Definition find_file_refs (row : string) : list string :=
  let n := String.length row in
  findall (S n) (rx_alt rx_start (rx_class is_delimiter))
    (rx_seq FILE_ROOTS (rx_plus n (rx_seq (rx_exact "/") (rx_plus n (rx_class is_path_char)))))
    (rx_alt (rx_class is_space) (rx_alt rx_end (rx_class is_delimiter))) (None, row).

(** [sorted(set(l))], [dict.fromkeys(l)] *)
Fixpoint dedup_ids (l seen : list string) : list string :=
  match l with
  | [] => []
  | x :: l' => if mem x seen then dedup_ids l' seen else x :: dedup_ids l' (seen ++ [x])
  end.

Definition task_name (k : nat) : string := "task-" +:+ pretty (N.of_nat k).

(** The loop of [_from_explicit_tasks]: the tasks so far, the ids of the
    discovery tasks, and the index of the next row. *)
Fixpoint from_explicit (index : nat) (rows : list string) (tasks : list Subtask) (discovery : list string)
    : list Subtask :=
  match rows with
  | [] => tasks
  | row :: rows' =>
      let normalized := " " +:+ lower row +:+ " " in
      let is_discovery := any_marker DISCOVERY_MARKERS normalized in
      let deps :=
        (if any_marker VERIFICATION_MARKERS normalized then all_ids tasks
         else if is_discovery then [] else discovery)
        ++ (if (1 <? index)%nat && any_marker SEQUENTIAL_MARKERS normalized
            then [task_name (index - 1)] else []) in
      let t := mkSubtask (task_name index) (take_str 120 row) row (dedup_ids deps [])
                 "Report concrete evidence and changed files."
                 (sort_ids (dedup_ids (find_file_refs row) [])) in
      from_explicit (S index) rows' (tasks ++ [t])
        (if is_discovery then discovery ++ [task_name index] else discovery)
  end.

(** [_fallback_tasks] and [_bounded_fallback_tasks] *)
Definition bounded_fallback_tasks (max_subtasks max_waves : Z) (title description : string) : list Subtask :=
  let limit := Z.min (Z.min max_subtasks max_waves) 3 in
  let context := let d := take_str 1200 description in if String.eqb d "" then title else d in
  if 3 <=? limit then
    [mkSubtask "task-1" "Investigate and bound the change"
       ("Inspect the repository and identify the exact implementation surface for: " +:+ context) []
       "Return verified facts, affected files, and risks." [];
     mkSubtask "task-2" "Implement the change" ("Implement the smallest complete solution for: " +:+ title)
       ["task-1"] "Return changed files and explain how the root cause is addressed." [];
     mkSubtask "task-3" "Verify and challenge the result"
       "Run focused tests, then check for regressions and incomplete edge cases." ["task-2"]
       "Return commands, exit codes, failures, and residual risks." []]
  else if limit =? 1 then
    [mkSubtask "task-1" "Investigate, implement, and verify"
       ("Complete the bounded change end to end: " +:+ context) []
       "Report changed files, tests, exit codes, and residual risks." []]
  else
    [mkSubtask "task-1" "Investigate and bound the change"
       ("Identify the exact implementation surface for: " +:+ context) []
       "Return verified facts, affected files, and risks." [];
     mkSubtask "task-2" "Implement and verify the change"
       ("Implement the solution and run focused regression checks for: " +:+ title) ["task-1"]
       "Report changed files, tests, exit codes, and residual risks." []].

(** [decompose_issue] with the deterministic strategy; [limits] are the
    decomposer's, each at least one. *)
Record Limits := mkLimits {
  max_subtasks : Z;
  max_parallel : Z;
  max_waves : Z;
}.

Definition new_limits (subtasks parallel waves : Z) : Limits :=
  mkLimits (Z.max 1 subtasks) (Z.max 1 parallel) (Z.max 1 waves).

Definition seed_tasks (l : Limits) (title description : string) : list Subtask :=
  let explicit := extract_tasks (Z.to_nat (max_subtasks l)) (splitlines description) [] in
  take (Z.to_nat (max_subtasks l))
    (if (2 <=? length explicit)%nat
     then from_explicit 1 (take (Z.to_nat (max_subtasks l)) explicit) [] []
     else bounded_fallback_tasks (max_subtasks l) (max_waves l) title description).

Definition seed_plan (l : Limits) (title description : string) : outcome exn TaskPlan :=
  let tasks := seed_tasks l title description in
  waves ← build_waves tasks (max_parallel l);
  if (max_waves l <? Z.of_nat (length waves)) then
    let tasks := bounded_fallback_tasks (max_subtasks l) (max_waves l) title description in
    waves ← build_waves tasks (max_parallel l);
    Ret (mkTaskPlan title tasks waves (max_parallel l))
  else Ret (mkTaskPlan title tasks waves (max_parallel l)).

Definition decompose_issue (l : Limits) (title description : string) : outcome exn TaskPlan :=
  plan ← seed_plan l (strip title) (strip description);
  _ ← validate (max_subtasks l) (max_waves l) plan;
  Ret plan.
