(* ===== verification/TaskPlanFacts.v ===== *)
(** * Correctness of task plans

    What [TaskPlan.validate] accepts, that [_build_waves] returns an execution
    order exactly when there is one, and which issues the deterministic
    decomposer turns into a plan. *)

From stdpp Require Import pretty.
From S2P Require Import Prelude Errors Dag StageRunner Intent Regex TaskPlan.

Open Scope string_scope.
Open Scope list_scope.
Open Scope Z_scope.

(** ** Lists of ids *)

Lemma subset_true a b : subset a b = true <-> (forall x, x ∈ a -> x ∈ b).
Proof. unfold subset. rewrite forallb_spec. by setoid_rewrite mem_true. Qed.

Lemma has_dup_false l : has_dup l = false <-> NoDup l.
Proof.
  induction l as [|x l IH]; simpl; [split; [constructor|done]|].
  rewrite NoDup_cons, orb_false_iff, mem_false, IH. done.
Qed.

Lemma insert_id_perm x l : insert_id x l ≡ₚ x :: l.
Proof.
  induction l as [|y l IH]; simpl; [done|]. case_match; [done|].
  rewrite IH. apply Permutation_swap.
Qed.

Lemma sort_ids_perm l : sort_ids l ≡ₚ l.
Proof. induction l as [|x l IH]; simpl; [done|]. rewrite insert_id_perm. by rewrite IH. Qed.

Lemma chunks_concat fuel n l : (1 <= n)%nat -> (length l <= fuel)%nat -> concat (chunks fuel n l) = l.
Proof.
  intros Hn. revert l. induction fuel as [|fuel IH]; intros [|x l] Hl; simpl in *; try done; try lia.
  rewrite IH; [apply take_drop|].
  pose proof (length_drop (x :: l) n) as Hd. simpl in Hd. lia.
Qed.

Lemma chunks_size fuel n l w : (1 <= n)%nat -> w ∈ chunks fuel n l -> (1 <= length w <= n)%nat.
Proof.
  intros Hn. revert l. induction fuel as [|fuel IH]; intros [|x l] Hw; simpl in Hw; try by inversion Hw.
  apply elem_of_cons in Hw as [->|Hw]; [|by eapply IH].
  rewrite length_take. simpl. lia.
Qed.

Lemma dedup_ids_in l seen x : x ∈ dedup_ids l seen <-> x ∈ l /\ x ∉ seen.
Proof.
  revert seen. induction l as [|y l IH]; intros seen; simpl; [set_solver|].
  destruct (mem y seen) eqn:E; [rewrite mem_true in E|rewrite mem_false in E];
    rewrite ?elem_of_cons, IH; destruct (decide (x = y)) as [->|]; set_solver.
Qed.

Lemma dedup_ids_nodup l seen : NoDup (dedup_ids l seen).
Proof.
  revert seen. induction l as [|y l IH]; intros seen; simpl; [constructor|].
  case_match; [done|]. constructor; [rewrite dedup_ids_in; set_solver|done].
Qed.

(** ** Waves *)

(** A wave may run when what its tasks wait for is in an earlier wave. *)
Definition deps_of (d : dict string (list string)) (id : string) : list string := default [] (dget id d).

Fixpoint waves_run (before : list string) (deps : string -> list string) (waves : list (list string)) : Prop :=
  match waves with
  | [] => True
  | w :: waves' =>
      (forall id dep, id ∈ w -> dep ∈ deps id -> dep ∈ before) /\ waves_run (before ++ w) deps waves'
  end.

Lemma waves_run_app before deps a b :
  waves_run before deps (a ++ b) <-> waves_run before deps a /\ waves_run (before ++ concat a) deps b.
Proof.
  revert before. induction a as [|w a IH]; intros before; simpl.
  - rewrite app_nil_r. tauto.
  - rewrite IH, <- app_assoc. tauto.
Qed.

Lemma waves_run_ready before deps waves :
  (forall id dep, id ∈ concat waves -> dep ∈ deps id -> dep ∈ before) -> waves_run before deps waves.
Proof.
  revert before. induction waves as [|w waves IH]; intros before H; simpl; [done|]. split.
  - intros id dep Hid. apply H. simpl. set_solver.
  - apply IH. intros id dep Hid Hd. apply elem_of_app. left. eapply H; [|done]. simpl. set_solver.
Qed.

Lemma filter_keys_nodup {V} (f : string * V -> bool) (d : dict string V) :
  dict_wf d -> NoDup (map fst (List.filter f d)).
Proof.
  unfold dict_wf, dkeys. induction d as [|[k v] d IH]; simpl; [done|].
  rewrite NoDup_cons. intros [Hk Hd]. case_match; simpl; [|auto].
  apply NoDup_cons. split; [|auto]. intros ([k' v'] & -> & Hin)%list_elem_of_fmap.
  rewrite list_elem_of_In, filter_In, <- list_elem_of_In in Hin. destruct Hin as [Hin _].
  apply Hk. apply list_elem_of_fmap. by exists (k', v').
Qed.

Section loop.
Context (par : nat) (Hpar : (1 <= par)%nat).

Definition leftover (ready : list string) (remaining : dict string (list string)) :
  dict string (list string) := List.filter (fun kv => negb (mem (fst kv) ready)) remaining.

Lemma leftover_in ready remaining k v :
  (k, v) ∈ leftover ready remaining <-> (k, v) ∈ remaining /\ k ∉ ready.
Proof.
  unfold leftover. rewrite !list_elem_of_In, filter_In. simpl.
  rewrite negb_true_iff, mem_false, <- list_elem_of_In. by rewrite <- list_elem_of_In.
Qed.

Lemma leftover_wf ready remaining : dict_wf remaining -> dict_wf (leftover ready remaining).
Proof. apply filter_keys_nodup. Qed.

Lemma ready_ids_in remaining completed k :
  k ∈ ready_ids remaining completed <-> exists v, (k, v) ∈ remaining /\ subset v completed = true.
Proof.
  unfold ready_ids. rewrite list_elem_of_fmap. split.
  - intros ([k' v] & -> & Hin). rewrite list_elem_of_In, filter_In, <- list_elem_of_In in Hin. by exists v.
  - intros (v & Hin & Hs). exists (k, v). split; [done|].
    by rewrite list_elem_of_In, filter_In, <- list_elem_of_In.
Qed.

Lemma ready_leftover_perm remaining completed :
  dict_wf remaining ->
  ready_ids remaining completed ++ dkeys (leftover (sort_ids (ready_ids remaining completed)) remaining)
    ≡ₚ dkeys remaining.
Proof.
  intros Hwf. apply NoDup_Permutation.
  - apply NoDup_app. split; [|split].
    + by apply filter_keys_nodup.
    + intros x Hx Hin. apply list_elem_of_fmap in Hin as ([k v] & -> & Hin).
      apply leftover_in in Hin as [_ Hin]. apply Hin. by rewrite sort_ids_perm.
    + by apply leftover_wf.
  - done.
  - intros x. rewrite elem_of_app. unfold dkeys. rewrite !list_elem_of_fmap. split.
    + intros [Hx|([k v] & -> & Hin)].
      * apply ready_ids_in in Hx as (v & Hin & _). by exists (x, v).
      * apply leftover_in in Hin as [Hin _]. by exists (k, v).
    + intros ([k v] & -> & Hin). simpl.
      destruct (decide (k ∈ ready_ids remaining completed)); [by left|right].
      exists (k, v). split; [done|]. apply leftover_in. by rewrite sort_ids_perm.
Qed.

Lemma waves_loop_step fuel remaining completed :
  remaining <> [] ->
  waves_loop (S fuel) par remaining completed =
    let ready := sort_ids (ready_ids remaining completed) in
    if Nat.eqb (length ready) 0 then Raise (plan_error "task plan contains a dependency cycle")
    else rest ← waves_loop fuel par (leftover ready remaining) (completed ++ ready);
         Ret (chunks (length ready) par ready ++ rest).
Proof.
  destruct remaining as [|kv r]; [done|]. intros _. cbn [waves_loop]. cbv zeta.
  by destruct (sort_ids (ready_ids (kv :: r) completed)).
Qed.

(** The waves of a run of the loop: a permutation of what was left, in waves
    of bounded size, each after what it waits for. *)
Lemma waves_loop_sound fuel remaining completed waves :
  dict_wf remaining ->
  waves_loop fuel par remaining completed = Ret waves ->
  concat waves ≡ₚ dkeys remaining
  /\ (forall w, w ∈ waves -> (1 <= length w <= par)%nat)
  /\ waves_run completed (deps_of remaining) waves.
Proof.
  revert remaining completed waves. induction fuel as [|fuel IH]; intros remaining completed waves Hwf.
  { destruct remaining; simpl; intros [= <-]; set_solver. }
  destruct remaining as [|kv r] eqn:Er; [simpl; intros [= <-]; set_solver|]. rewrite <- Er in *.
  rewrite waves_loop_step by (by rewrite Er). clear kv r Er. simpl.
  set (ready := sort_ids _). case_match eqn:Eready; [done|]. intros Hrun.
  destruct (waves_loop fuel par (leftover ready remaining) (completed ++ ready)) as [rest|e] eqn:Erest; [|done].
  simpl in Hrun. injection Hrun as <-.
  apply IH in Erest as (Hperm & Hsize & Horder); [|by apply leftover_wf].
  pose proof (ready_leftover_perm remaining completed Hwf) as Hsplit. fold ready in Hsplit.
  assert (Hcc : concat (chunks (length ready) par ready) = ready) by (by apply chunks_concat).
  split; [|split].
  - rewrite concat_app, Hcc, Hperm, <- Hsplit. apply Permutation_app_tail. apply sort_ids_perm.
  - intros w [Hw|Hw]%elem_of_app; [by eapply chunks_size|by apply Hsize].
  - apply waves_run_app. rewrite Hcc. split.
    + apply waves_run_ready. rewrite Hcc. intros id dep Hid Hdep. unfold ready in Hid.
      rewrite sort_ids_perm, ready_ids_in in Hid. destruct Hid as (v & Hin & Hs).
      unfold deps_of in Hdep. rewrite (dict_wf_In _ _ _ Hwf Hin) in Hdep.
      rewrite subset_true in Hs. by apply Hs.
    + assert (Hdeps : forall id, id ∈ concat rest -> deps_of remaining id = deps_of (leftover ready remaining) id).
      { intros id Hid. rewrite Hperm in Hid. apply list_elem_of_fmap in Hid as ([k v] & -> & Hin).
        pose proof (proj1 (leftover_in _ _ _ _) Hin) as [Hin' _]. unfold deps_of. simpl.
        rewrite (dict_wf_In _ _ _ Hwf Hin'), (dict_wf_In _ _ _ (leftover_wf _ _ Hwf) Hin). done. }
      clear -Horder Hdeps. revert Horder Hdeps. generalize (completed ++ ready).
      induction rest as [|w rest IH]; intros before; simpl; [done|]. intros [Hw Hr] Hd. split.
      * intros id dep Hid Hdep. rewrite Hd in Hdep by (set_solver). by eapply Hw.
      * apply IH; [done|]. intros id Hid. apply Hd. set_solver.
Qed.

(** An order of the tasks that respects what each waits for. *)
Lemma ready_nonempty remaining completed (rank : string -> nat) :
  remaining <> [] ->
  (forall k v d, (k, v) ∈ remaining -> d ∈ v ->
     d ∈ completed \/ (d ∈ dkeys remaining /\ (rank d < rank k)%nat)) ->
  ready_ids remaining completed <> [].
Proof.
  intros Hne Hrank.
  assert (Hmin : forall n k v, (rank k < n)%nat -> (k, v) ∈ remaining ->
            exists k', k' ∈ ready_ids remaining completed).
  { induction n as [|n IH]; intros k v Hk Hin; [lia|].
    destruct (subset v completed) eqn:Es; [exists k; apply ready_ids_in; eauto|].
    apply not_true_iff_false in Es. rewrite subset_true in Es.
    destruct (decide (Exists (fun d => d ∉ completed) v)) as [Hex|Hno].
    - apply Exists_exists in Hex as (d & Hd & Hnc).
      destruct (Hrank k v d Hin Hd) as [|[Hkey Hlt]]; [done|].
      apply list_elem_of_fmap in Hkey as ([k' v'] & -> & Hin'). simpl in Hlt. eapply IH; [|done]. lia.
    - exfalso. apply Es. intros d Hd. destruct (decide (d ∈ completed)); [done|].
      exfalso. apply Hno, Exists_exists. eauto. }
  destruct remaining as [|[k v] r]; [done|].
  destruct (Hmin (S (rank k)) k v) as [k' Hk']; [lia|left|]. by intros E; rewrite E in Hk'; inversion Hk'.
Qed.

Lemma waves_loop_complete fuel remaining completed (rank : string -> nat) :
  dict_wf remaining -> (length remaining <= fuel)%nat ->
  (forall k v d, (k, v) ∈ remaining -> d ∈ v ->
     d ∈ completed \/ (d ∈ dkeys remaining /\ (rank d < rank k)%nat)) ->
  exists waves, waves_loop fuel par remaining completed = Ret waves.
Proof.
  revert remaining completed. induction fuel as [|fuel IH]; intros remaining completed Hwf Hlen Hrank.
  { destruct remaining; [by exists []|simpl in Hlen; lia]. }
  destruct (decide (remaining = [])) as [->|Hne]; [by exists []|].
  rewrite waves_loop_step by done. simpl.
  pose proof (ready_nonempty _ _ _ Hne Hrank) as Hready.
  pose proof (ready_leftover_perm remaining completed Hwf) as Hsplit.
  set (ready := sort_ids _) in *.
  assert (Hperm : ready ≡ₚ ready_ids remaining completed) by apply sort_ids_perm.
  destruct (Nat.eqb_spec (length ready) 0) as [E|E].
  { destruct ready; [|done]. apply Permutation_nil_l in Hperm. congruence. }
  destruct (IH (leftover ready remaining) (completed ++ ready)) as [rest ->].
  - by apply leftover_wf.
  - apply Permutation_length in Hsplit, Hperm. unfold dkeys in Hsplit.
    rewrite length_app, !length_map in Hsplit. lia.
  - intros k v d Hin Hd. pose proof (proj1 (leftover_in _ _ _ _) Hin) as [Hin' _].
    rewrite elem_of_app. destruct (Hrank k v d Hin' Hd) as [|[Hkey Hlt]]; [auto|].
    rewrite <- Hsplit, <- Hperm, elem_of_app in Hkey. destruct Hkey; auto.
  - simpl. eauto.
Qed.
End loop.

(** ** The wave of a task *)

Definition scheduled (waves : list (list string)) (i : nat) (id : string) : Prop :=
  exists w, waves !! i = Some w /\ id ∈ w.

Lemma scheduled_concat waves id : (exists i, scheduled waves i id) <-> id ∈ concat waves.
Proof.
  induction waves as [|w waves IH]; simpl.
  - split; [intros (i & w & Hw & _); by rewrite lookup_nil in Hw|set_solver].
  - rewrite elem_of_app, <- IH. split.
    + intros ([|i] & w' & Hw & Hin); simpl in Hw; [simplify_eq; auto|right; exists i, w'; auto].
    + intros [Hin|(i & w' & Hw & Hin)]; [by exists 0%nat, w|by exists (S i), w'].
Qed.

Lemma scheduled_unique waves i j id :
  NoDup (concat waves) -> scheduled waves i id -> scheduled waves j id -> i = j.
Proof.
  revert i j. induction waves as [|w waves IH]; intros i j Hnd (wi & Hi & Hini) (wj & Hj & Hinj).
  { by rewrite lookup_nil in Hi. }
  simpl in Hnd. apply NoDup_app in Hnd as (_ & Hdis & Hnd).
  destruct i as [|i], j as [|j]; simpl in Hi, Hj; simplify_eq; try done.
  - exfalso. apply (Hdis id); [done|]. apply scheduled_concat. exists j, wj. done.
  - exfalso. apply (Hdis id); [done|]. apply scheduled_concat. exists i, wi. done.
  - f_equal. apply IH; [done|by exists wi|by exists wj].
Qed.

Lemma wave_index_some k waves id n :
  wave_index k waves id = Some n -> exists i, n = (k + i)%nat /\ scheduled waves i id.
Proof.
  revert k. induction waves as [|w waves IH]; intros k; simpl; [done|].
  destruct (wave_index (S k) waves id) as [m|] eqn:E; [intros [= ->]|].
  - destruct (IH _ E) as (i & -> & w' & Hw & Hin). exists (S i). split; [lia|]. by exists w'.
  - destruct (mem id w) eqn:Em; [|done]. intros [= <-]. apply mem_true in Em.
    exists 0%nat. split; [lia|]. by exists w.
Qed.

Lemma wave_index_is_some k waves id : id ∈ concat waves -> is_Some (wave_index k waves id).
Proof.
  revert k. induction waves as [|w waves IH]; intros k; simpl; [set_solver|].
  intros [Hin|Hin]%elem_of_app.
  - case_match; [done|]. by rewrite (proj2 (mem_true id w)).
  - destruct (IH (S k) Hin) as [n ->]. done.
Qed.

Lemma wave_index_scheduled waves id i :
  NoDup (concat waves) -> wave_index 0 waves id = Some i <-> scheduled waves i id.
Proof.
  intros Hnd. split.
  - intros (j & -> & H)%wave_index_some. done.
  - intros Hs. destruct (wave_index_is_some 0 waves id) as [n Hn].
    { apply scheduled_concat. eauto. }
    rewrite Hn. apply wave_index_some in Hn as (j & -> & Hj). f_equal. simpl.
    by eapply scheduled_unique.
Qed.

Lemma waves_run_lookup before deps waves i id dep :
  waves_run before deps waves -> scheduled waves i id -> dep ∈ deps id ->
  dep ∈ before \/ exists j, (j < i)%nat /\ scheduled waves j dep.
Proof.
  revert before i. induction waves as [|w waves IH]; intros before i Hrun (w' & Hw & Hin) Hdep.
  { by rewrite lookup_nil in Hw. }
  destruct Hrun as [Hhead Htail]. destruct i as [|i]; simpl in Hw; simplify_eq.
  - left. by eapply Hhead.
  - destruct (IH _ i Htail) as [Hb|(j & Hj & w2 & Hw2 & Hd)]; [by exists w'|done| |].
    + apply elem_of_app in Hb as [Hb|Hb]; [by left|right]. exists 0%nat. split; [lia|]. by exists w.
    + right. exists (S j). split; [lia|]. by exists w2.
Qed.

(** ** [build_waves] *)

(** The tasks can be ordered: each waits only for tasks of the plan that come
    before it. *)
Definition orderable (tasks : list Subtask) : Prop :=
  exists rank : string -> nat, forall t d, t ∈ tasks -> d ∈ st_depends_on t ->
    d ∈ all_ids tasks /\ (rank d < rank (st_id t))%nat.

(** A schedule: every task once, waves of one to [par] tasks, and each task in a
    later wave than everything it waits for. *)
Definition schedule (tasks : list Subtask) (par : Z) (waves : list (list string)) : Prop :=
  concat waves ≡ₚ all_ids tasks
  /\ (forall w, w ∈ waves -> 1 <= Z.of_nat (length w) <= par)
  /\ (forall t d i, t ∈ tasks -> d ∈ st_depends_on t -> scheduled waves i (st_id t) ->
        exists j, (j < i)%nat /\ scheduled waves j d).

Lemma dependencies_eq tasks :
  NoDup (all_ids tasks) -> dependencies tasks = map (fun t => (st_id t, st_depends_on t)) tasks.
Proof. intros H. unfold dependencies. by rewrite fold_dset_fresh. Qed.

Lemma dependencies_in tasks k v :
  NoDup (all_ids tasks) ->
  (k, v) ∈ dependencies tasks <-> exists t, t ∈ tasks /\ st_id t = k /\ st_depends_on t = v.
Proof.
  intros H. rewrite dependencies_eq by done. rewrite list_elem_of_fmap. split.
  - intros (t & [= -> ->] & Ht). eauto.
  - intros (t & Ht & <- & <-). eauto.
Qed.

Lemma dependencies_keys tasks : NoDup (all_ids tasks) -> dkeys (dependencies tasks) = all_ids tasks.
Proof. intros H. rewrite dependencies_eq by done. unfold dkeys, all_ids. by rewrite map_map. Qed.

Section build.
Context (tasks : list Subtask) (par : Z).
Context (Hids : NoDup (all_ids tasks)) (Hpar : 1 <= par).

Local Lemma deps_wf : dict_wf (dependencies tasks).
Proof. unfold dict_wf. by rewrite dependencies_keys. Qed.

Lemma build_waves_schedule waves : build_waves tasks par = Ret waves -> schedule tasks par waves.
Proof.
  intros H. apply waves_loop_sound in H as (Hperm & Hsize & Hrun); [|lia|apply deps_wf].
  rewrite dependencies_keys in Hperm by done. split; [done|split].
  - intros w Hw. specialize (Hsize w Hw). lia.
  - intros t d i Ht Hd Hi.
    destruct (waves_run_lookup _ _ _ i (st_id t) d Hrun Hi) as [Hb|Hj]; [|by inversion Hb|done].
    unfold deps_of. erewrite dict_wf_In; [done|apply deps_wf|]. apply dependencies_in; eauto.
Qed.

Lemma build_waves_returns : orderable tasks -> exists waves, build_waves tasks par = Ret waves.
Proof.
  intros [rank Hrank]. eapply waves_loop_complete with (rank := rank); [lia|apply deps_wf|done|].
  intros k v d (t & Ht & <- & <-)%dependencies_in Hd; [|done]. right.
  rewrite dependencies_keys by done. by apply Hrank.
Qed.

Lemma schedule_orderable waves : schedule tasks par waves -> orderable tasks.
Proof.
  intros (Hperm & _ & Hord). exists (fun id => default 0%nat (wave_index 0 waves id)).
  assert (Hnd : NoDup (concat waves)) by by rewrite Hperm.
  intros t d Ht Hd.
  assert (Hid : st_id t ∈ concat waves) by (rewrite Hperm; by apply list_elem_of_fmap_2).
  apply scheduled_concat in Hid as [i Hi].
  destruct (Hord t d i Ht Hd Hi) as (j & Hlt & Hj). split.
  - rewrite <- Hperm. apply scheduled_concat. eauto.
  - apply wave_index_scheduled in Hi; [|done]. apply wave_index_scheduled in Hj; [|done].
    by rewrite Hi, Hj.
Qed.
End build.

(** ** Validation *)

(** What a valid plan is, without the waves' indices and without the order in
    which [validate] looks: its shape, and that no file is claimed twice in a
    wave. *)
Record plan_shape (ms mw : Z) (p : TaskPlan) : Prop := mkPlanShape {
  ps_nonempty : tp_subtasks p <> [];
  ps_few : Z.of_nat (length (tp_subtasks p)) <= ms;
  ps_unique : NoDup (all_ids (tp_subtasks p));
  ps_cover : concat (tp_waves p) ≡ₚ all_ids (tp_subtasks p);
  ps_waves : Z.of_nat (length (tp_waves p)) <= mw;
  ps_parallel : 1 <= tp_max_parallel p;
  ps_sizes : forall w, w ∈ tp_waves p -> Z.of_nat (length w) <= tp_max_parallel p;
  ps_order : forall t d i, t ∈ tp_subtasks p -> d ∈ st_depends_on t ->
    scheduled (tp_waves p) i (st_id t) -> exists j, (j < i)%nat /\ scheduled (tp_waves p) j d;
}.

Definition files_disjoint (p : TaskPlan) : Prop :=
  (forall i t1 t2 f, t1 ∈ tp_subtasks p -> t2 ∈ tp_subtasks p ->
     scheduled (tp_waves p) i (st_id t1) -> scheduled (tp_waves p) i (st_id t2) ->
     f ∈ st_affected_files t1 -> f ∈ st_affected_files t2 -> t1 = t2)
  /\ (forall t, t ∈ tp_subtasks p -> NoDup (st_affected_files t)).

Lemma refuse_bind {A} b what (k : outcome exn A) r :
  (_ ← refuse b what; k) = Ret r <-> b = false /\ k = Ret r.
Proof. destruct b; simpl; split; try done; by intros []. Qed.

Lemma refuse_ret b what : refuse b what = Ret tt <-> b = false.
Proof. by destruct b. Qed.

Lemma existsb_false {A} (f : A -> bool) l : existsb f l = false <-> forall x, x ∈ l -> f x = false.
Proof.
  induction l as [|x l IH]; simpl; [set_solver|]. rewrite orb_false_iff, IH. set_solver.
Qed.

Lemma NoDup_flat_map {A B} (f : A -> list B) (l : list A) :
  NoDup l ->
  NoDup (flat_map f l) <->
    (forall x, x ∈ l -> NoDup (f x))
    /\ (forall x y z, x ∈ l -> y ∈ l -> z ∈ f x -> z ∈ f y -> x = y).
Proof.
  assert (Hin : forall l' z, z ∈ flat_map f l' <-> exists x, x ∈ l' /\ z ∈ f x).
  { intros l' z. rewrite list_elem_of_In, in_flat_map. by setoid_rewrite list_elem_of_In. }
  induction 1 as [|x l Hx Hl IH]; simpl; [split; [|constructor]; set_solver|].
  rewrite NoDup_app, IH. split.
  - intros (Hf & Hdis & Hall & Hsame). split; [set_solver|].
    intros a b z [->|Ha]%elem_of_cons [->|Hb]%elem_of_cons Hza Hzb; try done.
    + exfalso. apply (Hdis z Hza), Hin. eauto.
    + exfalso. apply (Hdis z Hzb), Hin. eauto.
    + by eapply Hsame.
  - intros [Hall Hsame]. split; [apply Hall; left|]. split; [|split].
    + intros z Hz (y & Hy & Hzy)%Hin. apply Hx. by rewrite (Hsame x y z); [|left|right|..].
    + intros y Hy. apply Hall. by right.
    + intros a b z Ha Hb. apply Hsame; by right.
Qed.

Lemma find_task tasks t :
  NoDup (all_ids tasks) -> t ∈ tasks -> find (fun t' => String.eqb (st_id t') (st_id t)) tasks = Some t.
Proof.
  intros Hnd Hin. induction tasks as [|t0 tasks IH]; [by inversion Hin|].
  simpl in *. apply NoDup_cons in Hnd as [Ht0 Hnd].
  apply elem_of_cons in Hin as [->|Hin]; [by rewrite String.eqb_refl|].
  destruct (String.eqb_spec (st_id t0) (st_id t)) as [E|]; [|auto].
  exfalso. apply Ht0. rewrite E. by apply list_elem_of_fmap_2.
Qed.

Lemma wave_files_nodup tasks w :
  NoDup (all_ids tasks) -> NoDup w -> (forall id, id ∈ w -> id ∈ all_ids tasks) ->
  NoDup (wave_files tasks w) <->
    (forall t, t ∈ tasks -> st_id t ∈ w -> NoDup (st_affected_files t))
    /\ (forall t1 t2 f, t1 ∈ tasks -> t2 ∈ tasks -> st_id t1 ∈ w -> st_id t2 ∈ w ->
          f ∈ st_affected_files t1 -> f ∈ st_affected_files t2 -> t1 = t2).
Proof.
  intros Hids Hw Hsub. unfold wave_files. rewrite NoDup_flat_map by done.
  assert (Htask : forall id, id ∈ w -> exists t, t ∈ tasks /\ st_id t = id).
  { intros id (t & -> & Ht)%Hsub%list_elem_of_fmap. eauto. }
  split; intros [Hown Hshare].
  - split.
    + intros t Ht Htw. specialize (Hown _ Htw). by rewrite find_task in Hown.
    + intros t1 t2 f H1 H2 H1w H2w Hf1 Hf2.
      assert (E : st_id t1 = st_id t2) by (apply (Hshare _ _ f H1w H2w); by rewrite find_task).
      pose proof (find_task tasks t1 Hids H1) as F1. rewrite E, find_task in F1 by done. congruence.
  - split.
    + intros id Hid. destruct (Htask id Hid) as (t & Ht & <-). rewrite find_task by done. auto.
    + intros id1 id2 f H1w H2w. destruct (Htask id1 H1w) as (t1 & H1 & <-), (Htask id2 H2w) as (t2 & H2 & <-).
      rewrite !find_task by done. intros Hf1 Hf2. f_equal. by eapply Hshare.
Qed.

Lemma cover_iff (flat ids : list string) :
  NoDup ids ->
  negb (subset flat ids && subset ids flat) || negb (Nat.eqb (length flat) (length ids)) = false
    <-> flat ≡ₚ ids.
Proof.
  intros Hnd. rewrite orb_false_iff, !negb_false_iff, andb_true_iff, !subset_true, Nat.eqb_eq. split.
  - intros [[_ Hsub] Hlen]. symmetry. apply submseteq_length_Permutation; [|lia].
    by apply NoDup_submseteq.
  - intros Hp. split; [|by apply Permutation_length]. split; intros x Hx; [by rewrite <- Hp|by rewrite Hp].
Qed.

(** The waves of a covering plan: distinct ids of the plan. *)
Lemma cover_wave tasks waves w :
  NoDup (all_ids tasks) -> concat waves ≡ₚ all_ids tasks -> w ∈ waves ->
  NoDup w /\ (forall id, id ∈ w -> id ∈ all_ids tasks).
Proof.
  intros Hids Hcover Hw. assert (Hnd : NoDup (concat waves)) by by rewrite Hcover.
  apply list_elem_of_split in Hw as (a & b & ->). rewrite concat_app in Hnd, Hcover. simpl in *.
  split.
  - apply NoDup_app in Hnd as (_ & _ & Hnd). by apply NoDup_app in Hnd as (Hnd & _).
  - intros id Hid. rewrite <- Hcover. set_solver.
Qed.

Lemma files_iff p :
  NoDup (all_ids (tp_subtasks p)) -> concat (tp_waves p) ≡ₚ all_ids (tp_subtasks p) ->
  check_file_conflicts p = Ret tt <-> files_disjoint p.
Proof.
  intros Hids Hcover. unfold check_file_conflicts. rewrite refuse_ret, existsb_false.
  assert (Hwave : forall w, w ∈ tp_waves p ->
    has_dup (wave_files (tp_subtasks p) w) = false <-> _) by
    (intros w Hw; destruct (cover_wave _ _ w Hids Hcover Hw);
     rewrite has_dup_false; by apply wave_files_nodup).
  split.
  - intros H. split.
    + intros i t1 t2 f H1 H2 (w & Hw & Hin1) (w' & Hw' & Hin2) Hf1 Hf2. simplify_eq.
      apply list_elem_of_lookup_2 in Hw. destruct (proj1 (Hwave w Hw) (H w Hw)) as [_ Hs].
      by eapply Hs.
    + intros t Ht. assert (Hid : st_id t ∈ concat (tp_waves p)) by (rewrite Hcover; by apply list_elem_of_fmap_2).
      apply scheduled_concat in Hid as (i & w & Hw & Hin). apply list_elem_of_lookup_2 in Hw.
      destruct (proj1 (Hwave w Hw) (H w Hw)) as [Hown _]. auto.
  - intros [Hs Hown] w Hw. apply Hwave; [done|].
    apply list_elem_of_lookup in Hw as [i Hi]. split; [auto|].
    intros t1 t2 f H1 H2 Hin1 Hin2. apply (Hs i); [done|done|by exists w|by exists w].
Qed.

Lemma in_order_iff p t d :
  NoDup (concat (tp_waves p)) -> st_id t ∈ concat (tp_waves p) ->
  out_of_order p t d = false <->
    (forall i, scheduled (tp_waves p) i (st_id t) -> exists j, (j < i)%nat /\ scheduled (tp_waves p) j d).
Proof.
  intros Hnd [i Hi]%scheduled_concat. unfold out_of_order.
  rewrite (proj2 (wave_index_scheduled _ _ _ Hnd) Hi). split.
  - destruct (wave_index 0 (tp_waves p) d) as [j|] eqn:E; [|done]. intros Hlt%Nat.leb_gt i' Hi'.
    rewrite (scheduled_unique _ _ _ _ Hnd Hi' Hi). apply wave_index_scheduled in E; eauto.
  - intros H. destruct (H i Hi) as (j & Hlt & Hj). apply wave_index_scheduled in Hj; [|done].
    rewrite Hj. by apply Nat.leb_gt.
Qed.

Lemma refuse_false {A} b what (k : unit -> outcome exn A) : b = false -> (refuse b what ≫= k) = k tt.
Proof. by intros ->. Qed.

(** A plan of the right shape passes every check of [validate] but the one for
    files. *)
Lemma validate_shape ms mw p : plan_shape ms mw p -> validate ms mw p = check_file_conflicts p.
Proof.
  intros [Hne Hms Hids Hcover Hmw Hpar Hsizes Horder]. unfold validate.
  assert (Hnd : NoDup (concat (tp_waves p))) by by rewrite Hcover.
  assert (Hin : forall t, t ∈ tp_subtasks p -> exists i, scheduled (tp_waves p) i (st_id t)).
  { intros t Ht. apply scheduled_concat. rewrite Hcover. by apply list_elem_of_fmap_2. }
  rewrite refuse_false by (by destruct (tp_subtasks p)).
  rewrite refuse_false by (by apply Z.ltb_ge).
  rewrite refuse_false by (by apply has_dup_false).
  rewrite refuse_false.
  2: { apply existsb_false. intros t Ht. destruct (Hin t Ht) as [i Hi]. apply orb_false_iff. split.
       - apply negb_false_iff, subset_true. intros d Hd. destruct (Horder t d i Ht Hd Hi) as (j & _ & Hj).
         rewrite <- Hcover. apply scheduled_concat. eauto.
       - apply mem_false. intros Hd. destruct (Horder t _ i Ht Hd Hi) as (j & Hlt & Hj).
         pose proof (scheduled_unique _ _ _ _ Hnd Hi Hj). lia. }
  rewrite refuse_false by (by apply cover_iff).
  rewrite refuse_false by (by apply Z.ltb_ge).
  rewrite refuse_false by (by apply Z.ltb_ge).
  rewrite refuse_false by (apply existsb_false; intros w Hw; apply Z.ltb_ge; auto).
  destruct (check_file_conflicts p) as [[]|e]; simpl; [|done]. apply refuse_ret, existsb_false.
  intros t Ht. apply existsb_false. intros d Hd. apply in_order_iff; [done| |].
  - apply scheduled_concat. auto.
  - intros i. by apply Horder.
Qed.

Lemma validate_returns ms mw p :
  validate ms mw p = Ret tt -> plan_shape ms mw p /\ check_file_conflicts p = Ret tt.
Proof.
  unfold validate.
  intros (Hne & (Hms & (Hids & (_ & (Hcover & (Hmw & (Hpar & (Hsizes & Hrest
    )%refuse_bind)%refuse_bind)%refuse_bind)%refuse_bind)%refuse_bind)%refuse_bind)%refuse_bind)%refuse_bind.
  apply has_dup_false in Hids. apply cover_iff in Hcover; [|done].
  destruct (check_file_conflicts p) as [[]|]; [|done]. split; [|done].
  apply refuse_ret in Hrest. rewrite existsb_false in Hrest. rewrite existsb_false in Hsizes.
  apply Z.ltb_ge in Hms, Hmw, Hpar. constructor; try done.
  - by destruct (tp_subtasks p).
  - intros w Hw. by apply Z.ltb_ge, Hsizes.
  - intros t d i Ht Hd. apply in_order_iff; [by rewrite Hcover| |].
    + rewrite Hcover. by apply list_elem_of_fmap_2.
    + specialize (Hrest t Ht). rewrite existsb_false in Hrest. auto.
Qed.

(** ** The decomposer *)

(** Tasks named by their position, each waiting only for earlier ones. *)
Definition numbered (tasks : list Subtask) : Prop :=
  forall i t, tasks !! i = Some t ->
    st_id t = task_name (S i)
    /\ (forall d, d ∈ st_depends_on t -> exists j, (j < i)%nat /\ d = task_name (S j)).

Lemma task_name_inj a b : task_name a = task_name b -> a = b.
Proof. unfold task_name. intros H%(inj _)%(inj pretty). lia. Qed.

Lemma numbered_ids tasks i id :
  numbered tasks -> all_ids tasks !! i = Some id <-> (i < length tasks)%nat /\ id = task_name (S i).
Proof.
  intros Hn. unfold all_ids. rewrite list_lookup_fmap. split.
  - destruct (tasks !! i) as [t|] eqn:E; [|done]. intros [= <-]. split.
    + by eapply lookup_lt_Some.
    + by apply Hn.
  - intros [Hi ->]. apply lookup_lt_is_Some in Hi as [t Ht]. rewrite Ht. simpl. f_equal. by apply Hn.
Qed.

Lemma numbered_nodup tasks : numbered tasks -> NoDup (all_ids tasks).
Proof.
  intros Hn. apply NoDup_alt. intros i j id Hi Hj.
  apply numbered_ids in Hi as [_ ->]; [|done]. apply numbered_ids in Hj as [_ E]; [|done].
  apply task_name_inj in E. lia.
Qed.

Lemma numbered_orderable tasks : numbered tasks -> orderable tasks.
Proof.
  intros Hn. pose proof (numbered_nodup _ Hn) as Hnd.
  assert (Hidx : forall i, (i < length tasks)%nat -> index_of (task_name (S i)) (all_ids tasks) = Some i).
  { intros i Hi. assert (Hl : all_ids tasks !! i = Some (task_name (S i))) by by apply numbered_ids.
    destruct (index_of_Some (task_name (S i)) (all_ids tasks)) as [n Hidx].
    - by eapply list_elem_of_lookup_2.
    - rewrite Hidx. apply index_of_lookup in Hidx. f_equal. by eapply NoDup_lookup. }
  exists (fun id => default 0%nat (index_of id (all_ids tasks))). intros t d Ht Hd.
  apply list_elem_of_lookup in Ht as [i Hi]. destruct (Hn i t Hi) as [-> Hdeps].
  destruct (Hdeps d Hd) as (j & Hj & ->). pose proof (lookup_lt_Some _ _ _ Hi).
  rewrite !Hidx by lia. split; [|done].
  apply list_elem_of_lookup. exists j. apply numbered_ids; [done|]. split; [lia|done].
Qed.

Lemma numbered_snoc tasks t :
  numbered tasks -> st_id t = task_name (S (length tasks)) ->
  (forall d, d ∈ st_depends_on t -> exists j, (j < length tasks)%nat /\ d = task_name (S j)) ->
  numbered (tasks ++ [t]).
Proof.
  intros Hn Hid Hd i t' [Hi|[Hlen Hi]]%lookup_app_Some; [by apply Hn|].
  destruct (i - length tasks)%nat eqn:E; simpl in Hi; [|done]. simplify_eq.
  replace i with (length tasks) by lia. done.
Qed.

Lemma from_explicit_numbered index rows tasks discovery :
  index = S (length tasks) -> numbered tasks ->
  (forall d, d ∈ discovery -> exists j, (j < length tasks)%nat /\ d = task_name (S j)) ->
  numbered (from_explicit index rows tasks discovery)
  /\ length (from_explicit index rows tasks discovery) = (length tasks + length rows)%nat.
Proof.
  revert index tasks discovery. induction rows as [|row rows IH]; intros index tasks discovery Hi Hn Hdisc.
  { simpl. split; [done|lia]. }
  cbn [from_explicit]. cbv zeta. set (is_discovery := any_marker DISCOVERY_MARKERS _).
  set (t := mkSubtask _ _ _ _ _ _).
  assert (Hlen : length (tasks ++ [t]) = S (length tasks)) by (rewrite length_app; simpl; lia).
  destruct (IH (S index) (tasks ++ [t])
              (if is_discovery then discovery ++ [task_name index] else discovery)) as [H1 H2].
  - rewrite Hlen. lia.
  - apply numbered_snoc; [done|simpl; by rewrite Hi|]. intros d Hd. unfold t in Hd. cbn [st_depends_on] in Hd.
    apply dedup_ids_in in Hd as [Hd _]. apply elem_of_app in Hd as [Hd|Hd].
    + destruct (any_marker VERIFICATION_MARKERS _).
      * apply list_elem_of_lookup in Hd as [j Hj]. apply numbered_ids in Hj as []; eauto.
      * destruct is_discovery; [by inversion Hd|auto].
    + destruct (1 <? index)%nat eqn:E1; cbn [andb] in Hd; [|by inversion Hd].
      destruct (any_marker SEQUENTIAL_MARKERS _); [|by inversion Hd].
      apply list_elem_of_singleton in Hd as ->. apply Nat.ltb_lt in E1.
      exists (length tasks - 1)%nat. split; [lia|]. f_equal. lia.
  - intros d Hd. rewrite Hlen. destruct is_discovery.
    + apply elem_of_app in Hd as [Hd|Hd].
      * destruct (Hdisc d Hd) as (j & Hj & ->). exists j. split; [lia|done].
      * apply list_elem_of_singleton in Hd as ->. exists (length tasks). split; [lia|]. by rewrite Hi.
    + destruct (Hdisc d Hd) as (j & Hj & ->). exists j. split; [lia|done].
  - split; [done|]. rewrite H2, Hlen. simpl. lia.
Qed.

Lemma numbered_nil : numbered [].
Proof. intros i t Hi. by rewrite lookup_nil in Hi. Qed.

Lemma numbered_take n tasks : numbered tasks -> numbered (take n tasks).
Proof. intros Hn i t Hi. apply Hn. by apply lookup_take_Some in Hi as [Hi _]. Qed.

Section decomposer.
Context (l : Limits) (title description : string).
Context (Hms : 1 <= max_subtasks l) (Hpar : 1 <= max_parallel l) (Hmw : 1 <= max_waves l).

Local Abbreviation fallback := (bounded_fallback_tasks (max_subtasks l) (max_waves l) title description).

Lemma fallback_facts :
  numbered fallback /\ fallback <> []
  /\ Z.of_nat (length fallback) <= max_subtasks l /\ Z.of_nat (length fallback) <= max_waves l
  /\ (forall t, t ∈ fallback -> st_affected_files t = [])
  /\ build_waves fallback (max_parallel l) = Ret (map (fun t => [st_id t]) fallback).
Proof.
  assert (Hn : forall t1 : Subtask, numbered [t1] <-> st_id t1 = "task-1" /\ st_depends_on t1 = []).
  { intros t1. split.
    - intros H. destruct (H 0%nat t1 eq_refl) as [-> Hd]. split; [done|].
      destruct (st_depends_on t1) as [|d ds]; [done|]. destruct (Hd d) as (j & Hj & _); [left|lia].
    - intros [H1 H2] [|i] t; simpl; [|done]. intros [= <-]. rewrite H1, H2. split; [done|]. set_solver. }
  unfold bounded_fallback_tasks. destruct (Z.to_nat (max_parallel l)) as [|par] eqn:Ep; [lia|].
  unfold build_waves. rewrite Ep. cbv zeta.
  destruct (Z.leb_spec 3 (Z.min (Z.min (max_subtasks l) (max_waves l)) 3)) as [H3|H3].
  - split; [|cbn [length]; repeat split; [done|lia|lia| |]].
    + apply (numbered_snoc [_; _]); [apply (numbered_snoc [_]); [by apply Hn|by vm_compute|]|by vm_compute|];
        intros d ->%list_elem_of_singleton; [exists 0%nat|exists 1%nat]; split; try lia; by vm_compute.
    + intros t. set_solver.
    + simpl. by rewrite !take_nil.
  - destruct (Z.eqb_spec (Z.min (Z.min (max_subtasks l) (max_waves l)) 3) 1).
    + split; [by apply Hn|cbn [length]; repeat split; [done|lia|lia| |]].
      * intros t. set_solver.
      * simpl. by rewrite !take_nil.
    + split; [|cbn [length]; repeat split; [done|lia|lia| |]].
      * apply (numbered_snoc [_]); [by apply Hn|by vm_compute|].
        intros d ->%list_elem_of_singleton. exists 0%nat. split; [simpl; lia|by vm_compute].
      * intros t. set_solver.
      * simpl. by rewrite !take_nil.
Qed.

Lemma seed_tasks_facts :
  numbered (seed_tasks l title description)
  /\ seed_tasks l title description <> []
  /\ Z.of_nat (length (seed_tasks l title description)) <= max_subtasks l.
Proof.
  destruct fallback_facts as (Hfb & Hne & Hlen & _).
  unfold seed_tasks. cbv zeta. set (explicit := extract_tasks _ _ _).
  split; [|split; [|rewrite length_take; lia]].
  - apply numbered_take. case_match; [|done].
    apply from_explicit_numbered; [done|apply numbered_nil|set_solver].
  - destruct (Nat.leb_spec 2 (length explicit)) as [H2|H2].
    + destruct (from_explicit_numbered 1 (take (Z.to_nat (max_subtasks l)) explicit) [] []) as [_ Hl];
        [done|apply numbered_nil|set_solver|].
      intros E%(f_equal length). rewrite length_take, Hl, length_take in E. simpl in E. lia.
    + destruct fallback as [|t0 rest]; [done|]. by destruct (Z.to_nat (max_subtasks l)) eqn:E; [lia|].
Qed.

Lemma numbered_shape tasks waves :
  numbered tasks -> tasks <> [] -> Z.of_nat (length tasks) <= max_subtasks l ->
  build_waves tasks (max_parallel l) = Ret waves -> Z.of_nat (length waves) <= max_waves l ->
  plan_shape (max_subtasks l) (max_waves l) (mkTaskPlan title tasks waves (max_parallel l)).
Proof.
  intros Hn Hne Hlen Hw Hmax. pose proof (numbered_nodup _ Hn) as Hnd.
  destruct (build_waves_schedule _ _ Hnd Hpar _ Hw) as (Hperm & Hsizes & Hord).
  constructor; simpl; try done. intros w Hin. by apply Hsizes.
Qed.

(** The seed plan always has the right shape, and no empty wave. *)
Lemma seed_plan_waves :
  exists plan, seed_plan l title description = Ret plan
    /\ plan_shape (max_subtasks l) (max_waves l) plan
    /\ (forall w, w ∈ tp_waves plan -> w <> []).
Proof.
  destruct fallback_facts as (Hfn & Hfne & Hflen & Hfw & _ & Hfb).
  destruct seed_tasks_facts as (Hn & Hne & Hlen).
  destruct (build_waves_returns _ (max_parallel l) (numbered_nodup _ Hn) Hpar (numbered_orderable _ Hn))
    as [waves Hw].
  unfold seed_plan. cbv zeta. rewrite Hw. cbn [mbind outcome_bind].
  destruct (Z.ltb_spec (max_waves l) (Z.of_nat (length waves))) as [Hlt|Hle].
  - rewrite Hfb. eexists. split; [done|split].
    + apply numbered_shape; try done. by rewrite length_map.
    + simpl. by intros w (t & -> & _)%list_elem_of_fmap.
  - eexists. split; [done|split]; [by apply numbered_shape|]. simpl. intros w Hin ->.
    destruct (build_waves_schedule _ _ (numbered_nodup _ Hn) Hpar _ Hw) as (_ & Hsizes & _).
    specialize (Hsizes _ Hin). simpl in Hsizes. lia.
Qed.

Lemma seed_plan_shape :
  exists plan, seed_plan l title description = Ret plan
    /\ plan_shape (max_subtasks l) (max_waves l) plan.
Proof. destruct seed_plan_waves as (plan & H1 & H2 & _). eauto. Qed.
End decomposer.

(** ** Theorems *)

(** C31: c1: [TaskPlan.validate] accepts a plan exactly when it is a schedule: it has
    one to the allowed number of tasks with distinct ids, its waves contain
    every task exactly once and respect the limits, each task is in a later
    wave than everything it depends on, and no two tasks of one wave claim the
    same file. *)
Theorem validate_accepts_exactly (ms mw : Z) (p : TaskPlan) :
  validate ms mw p = Ret tt <-> plan_shape ms mw p /\ files_disjoint p.
Proof.
  split.
  - intros [Hs Hf]%validate_returns. split; [done|]. apply files_iff; [..|done]; by apply Hs.
  - intros [Hs Hf]. rewrite (validate_shape _ _ _ Hs). apply files_iff; [..|done]; by apply Hs.
Qed.

(** C12: for tasks with distinct ids [_build_waves] returns waves exactly when
    the tasks can be ordered, that is when no task waits for an unknown one or,
    in a cycle, for itself; what it returns is a schedule: every task once,
    waves of one to [max_parallel] tasks, and each task in a later wave than
    everything it depends on.  The loop takes at most one round per task. *)
Theorem build_waves_correct (tasks : list Subtask) (par : Z) :
  NoDup (all_ids tasks) -> 1 <= par ->
  ((exists waves, build_waves tasks par = Ret waves) <-> orderable tasks)
  /\ (forall waves, build_waves tasks par = Ret waves -> schedule tasks par waves).
Proof.
  intros Hids Hpar. split; [split|].
  - intros [waves Hw]. eapply schedule_orderable; [done|]. by eapply build_waves_schedule.
  - by apply build_waves_returns.
  - by apply build_waves_schedule.
Qed.

Definition plain (id : string) (deps files : list string) : Subtask := mkSubtask id id id deps "" files.

Lemma build_waves_correct_witness :
  build_waves [plain "b" ["a"] []; plain "a" [] []; plain "c" [] []] 1 = Ret [["a"]; ["c"]; ["b"]]
  /\ schedule [plain "b" ["a"] []; plain "a" [] []; plain "c" [] []] 1 [["a"]; ["c"]; ["b"]]
  /\ ~ orderable [plain "a" ["b"] []; plain "b" ["a"] []].
Proof.
  split; [by vm_compute|split].
  - apply (build_waves_correct [plain "b" ["a"] []; plain "a" [] []; plain "c" [] []] 1);
      [apply has_dup_false; by vm_compute|lia|by vm_compute].
  - intros [w Hw]%(build_waves_correct [plain "a" ["b"] []; plain "b" ["a"] []] 1);
      [by vm_compute in Hw|apply has_dup_false; by vm_compute|lia].
Defined.

(** The deterministic decomposer builds a plan for every issue, one that
    satisfies every condition of a plan but perhaps that on files: whatever the
    title and the description are, [decompose_issue] returns that plan, which is
    then valid, or raises the file conflict, exactly when two tasks of a wave
    name the same file. *)
Theorem decompose_issue_outcome (subtasks parallel waves : Z) (title description : string) :
  let l := new_limits subtasks parallel waves in
  exists plan, seed_plan l (strip title) (strip description) = Ret plan
    /\ plan_shape (max_subtasks l) (max_waves l) plan
    /\ (files_disjoint plan -> decompose_issue l title description = Ret plan)
    /\ (~ files_disjoint plan -> decompose_issue l title description = Raise (plan_error "file conflict")).
Proof.
  intros l. destruct (seed_plan_shape l (strip title) (strip description)) as (plan & Hseed & Hshape);
    [simpl; lia..|].
  exists plan. split; [done|split; [done|]]. unfold decompose_issue. rewrite Hseed. cbn [mbind outcome_bind].
  rewrite (validate_shape _ _ _ Hshape).
  pose proof (files_iff plan (ps_unique _ _ _ Hshape) (ps_cover _ _ _ Hshape)) as Hf.
  unfold check_file_conflicts, refuse in *. destruct (existsb _ _).
  - split; [|done]. intros H. by apply Hf in H.
  - split; [done|]. intros H. exfalso. by apply H, Hf.
Qed.

(** Two list items that name one file. *)
Lemma shared_file_refused :
  decompose_issue (new_limits 8 3 6) "Fix login"
    ("- Rename the helper in src/auth.py now" +:+ lf +:+ "- Add logging to src/auth.py too")
  = Raise (plan_error "file conflict").
Proof. by vm_compute. Qed.
