(* ===== verification/TaskExec.v ===== *)
(** * Evidence of task execution
    ([src/orchestratord/task_decomposition/planner.py])

    [validate_task_execution]: the evidence that the workers of a plan leave
    behind, checked against the plan; and the rewriting of a plan by a language
    model.  Parameters: the files ([json.loads] of their text included), the
    model's answer, [repr] and [datetime.fromisoformat]; times are rationals. *)

From S2P Require Import Prelude Errors Dag StageRunner Intent Regex ClarModel TaskPlan TaskPlanFacts.

Open Scope string_scope.
Open Scope list_scope.
Open Scope Z_scope.

(** A file of evidence: its JSON value, if it has one, and its mtime. *)
Record EvidenceFile := mkEvidence {
  ef_payload : option pyval;
  ef_mtime : Q;
}.

Abbreviation row := (dict string pyval).

(** An execution interval *)
Abbreviation interval := (Q * Q)%type.

Section execution.
Context (X : Text).
(** [datetime.fromisoformat(s).timestamp()]; [None] is a [ValueError] or an
    [OverflowError]. *)
Context (timestamp : string -> option Q).

(** [_has_completion_evidence] *)
Fixpoint has_completion_evidence (v : pyval) : bool :=
  match v with
  | PStr s => negb (String.eqb (strip s) "")
  | PText t => text_truthy t
  | PList l => existsb has_completion_evidence l
  | PDict d => existsb (fun kv => has_completion_evidence (snd kv)) d
  | _ => false
  end.

(** [value.replace("Z", "+00:00")] *)
Fixpoint replace_Z (s : string) : string :=
  match s with
  | EmptyString => EmptyString
  | String c s' =>
      if Ascii.eqb c (Ascii.ascii_of_N 90) then "+00:00" +:+ replace_Z s' else String c (replace_Z s')
  end.

(** [_parse_execution_time] *)
Definition parse_execution_time (value : pyval) : outcome exn Q :=
  match value with
  | PInt z =>
      if FLOAT_OVERFLOW <=? Z.abs z then Raise (plan_error "invalid time") else Ret (inject_Z z)
  | PFloat q => Ret q
  | PStr s =>
      match timestamp (replace_Z s) with
      | Some q => Ret q
      | None => Raise (plan_error "invalid time")
      end
  | _ => Raise (plan_error "invalid time")
  end.

(** [merged[field] = payload[field] if field in payload] *)
Definition overlay (payload : row) (field : string) (merged : row) : row :=
  match dget field payload with
  | Some v => dset field v merged
  | None => merged
  end.

(** [_load_task_execution_row] *)
Definition load_task_execution_row (file : option EvidenceFile) (task_id : string) (inline_row : row)
    : outcome exn row :=
  match file with
  | None => Ret inline_row
  | Some f =>
      match ef_payload f with
      | None => Raise (plan_error "evidence file is unreadable")
      | Some (PDict payload) =>
          if String.eqb (match dget "id" payload with Some v => py_str X v | None => "" end) task_id then
            let merged := fold_left (fun m k => overlay payload k m)
                            ["status"; "evidence"; "started_at"; "completed_at"] inline_row in
            Ret (dset "completed_at" (PFloat (ef_mtime f)) (dset "started_at" (PFloat (ef_mtime f)) merged))
          else Raise (plan_error "evidence file has the wrong id")
      | Some _ => Raise (plan_error "evidence file has the wrong id")
      end
  end.

(** The evidence of one task: its interval. *)
Definition task_interval (files : string -> option EvidenceFile) (task_id : string) (inline_row : row)
    : outcome exn interval :=
  row ← load_task_execution_row (files task_id) task_id inline_row;
  _ ← refuse (negb (String.eqb
        (lower (strip (match dget "status" row with Some v => py_str X v | None => "" end))) "completed"))
        "subtask is not marked completed";
  _ ← refuse (negb (has_completion_evidence (default PNone (dget "evidence" row))))
        "subtask has no completion evidence";
  started_at ← parse_execution_time (default PNone (dget "started_at" row));
  completed_at ← parse_execution_time (default PNone (dget "completed_at" row));
  _ ← refuse (qlt completed_at started_at) "subtask completed before it started";
  Ret (started_at, completed_at).

(** The first loop, over the tasks of the plan. *)
Fixpoint all_intervals (files : string -> option EvidenceFile) (by_id : dict string row)
    (tasks : list Subtask) (intervals : dict string interval) : outcome exn (dict string interval) :=
  match tasks with
  | [] => Ret intervals
  | t :: tasks' =>
      i ← task_interval files (st_id t) (default [] (dget (st_id t) by_id));
      all_intervals files by_id tasks' (dset (st_id t) i intervals)
  end.

(** [intervals[dependency][1] > started_at] for a dependency of a task; in a
    validated plan both are there. *)
Definition dependency_late (intervals : dict string interval) (t : Subtask) (d : string) : bool :=
  match dget (st_id t) intervals, dget d intervals with
  | Some (s, _), Some (_, e) => qlt s e
  | _, _ => true
  end.
End execution.

(** ** The sweep over starts and ends *)

Definition event_le (a b : Q * Z) : bool :=
  qlt (fst a) (fst b) || (qle (fst a) (fst b) && (snd a <=? snd b)).

Fixpoint insert_event (x : Q * Z) (l : list (Q * Z)) : list (Q * Z) :=
  match l with
  | [] => [x]
  | y :: l' => if event_le x y then x :: l else y :: insert_event x l'
  end.

Definition sort_events (l : list (Q * Z)) : list (Q * Z) := foldr insert_event [] l.

Definition events_of (intervals : list interval) : list (Q * Z) :=
  flat_map (fun i => [(fst i, 1); (snd i, -1)]) intervals.

Fixpoint sweep (events : list (Q * Z)) (active peak : Z) : Z :=
  match events with
  | [] => peak
  | (_, delta) :: events' => sweep events' (active + delta) (Z.max peak (active + delta))
  end.

Definition peak_parallelism (intervals : list interval) : Z := sweep (sort_events (events_of intervals)) 0 0.

(** [validate_task_execution]: [payload] is the JSON value of the plan file, if it
    is readable. *)
Definition row_of (v : pyval) : option row :=
  match v with PDict d => Some d | _ => None end.

Definition row_id (X : Text) (d : row) : option string :=
  match dget "id" d with
  | None | Some PNone => None
  | Some v => Some (py_str X v)
  end.

Definition validate_task_execution (X : Text) (timestamp : string -> option Q)
    (files : string -> option EvidenceFile) (payload : option pyval) (seed : TaskPlan) : outcome exn unit :=
  match payload with
  | None => Raise (plan_error "task execution plan is unreadable")
  | Some (PDict doc) =>
      match dget "subtasks" doc with
      | Some (PList values) =>
          match mapM (fun v => d ← row_of v; k ← row_id X d; Some (k, d)) values with
          | None => Raise (plan_error "each task execution evidence row must have an id")
          | Some rows =>
              let by_id := fold_left (fun m kd => dset (fst kd) (snd kd) m) rows [] in
              let ids := all_ids (tp_subtasks seed) in
              _ ← refuse (negb (Nat.eqb (length rows) (length by_id))
                          || negb (subset (dkeys by_id) ids && subset ids (dkeys by_id)))
                    "task execution evidence must cover exactly the seed task ids";
              intervals ← all_intervals X timestamp files by_id (tp_subtasks seed) [];
              _ ← refuse (existsb (fun t => existsb (dependency_late intervals t) (st_depends_on t))
                            (tp_subtasks seed))
                    "subtask started before its dependency completed";
              refuse (tp_max_parallel seed <? peak_parallelism (dvals intervals))
                "task execution peak parallelism exceeds limit"
          end
      | _ => Raise (plan_error "task execution plan must contain a subtasks list")
      end
  | Some _ => Raise (plan_error "task execution plan must contain a subtasks list")
  end.

(** ** Rewriting a plan by a language model *)

(** A row of the answer; [None] is a field it does not have. *)
Record RawSubtask := mkRawSubtask {
  rs_id : option string;
  rs_title : option string;
  rs_description : option string;
  rs_depends_on : option (list string);
  rs_verification : option string;
  rs_affected_files : option (list string);
}.

(** What the model's client gives: an exception of its own, an answer that is no
    JSON or whose fields have other types, JSON that is no object, or an
    object. *)
Inductive reply :=
| ClientRaised (e : exn)
| Unusable
| NotAnObject
| Answer (goal : option string) (subtasks : list RawSubtask) (waves : list (list string))
         (max_parallel : option Z).

Definition attribute_missing : exn :=
  mkExn OtherException [Lit "AttributeError: 'list' object has no attribute 'get'"] None.

(** [s["id"]] raises [KeyError] when there is no id. *)
Definition raw_to_subtask (s : RawSubtask) : option Subtask :=
  id ← rs_id s;
  Some (mkSubtask id (take_str 120 (default "" (rs_title s))) (default "" (rs_description s))
          (default [] (rs_depends_on s)) (default "" (rs_verification s)) (default [] (rs_affected_files s))).

Definition is_ret {E A} (o : outcome E A) : bool := match o with Ret _ => true | Raise _ => false end.

(** [_llm_rewrite_plan] with a client and a strategy other than "none". *)
Definition llm_rewrite_plan (l : Limits) (plan : TaskPlan) (r : reply) : outcome exn TaskPlan :=
  match r with
  | ClientRaised e => Raise e
  | NotAnObject => Raise attribute_missing
  | Unusable => Ret plan
  | Answer goal subtasks waves max_parallel =>
      match mapM raw_to_subtask subtasks with
      | None | Some [] => Ret plan
      | Some tasks =>
          let revised := mkTaskPlan (default (tp_goal plan) goal) tasks waves
                           (default (tp_max_parallel plan) max_parallel) in
          if is_ret (validate (max_subtasks l) (max_waves l) revised) then Ret revised else Ret plan
      end
  end.

(** [decompose_issue] with such a client. *)
Definition decompose_issue_with (client : TaskPlan -> reply) (l : Limits) (title description : string)
    : outcome exn TaskPlan :=
  plan ← seed_plan l (strip title) (strip description);
  plan ← llm_rewrite_plan l plan (client plan);
  _ ← validate (max_subtasks l) (max_waves l) plan;
  Ret plan.

(** ** The sweep counts what is active *)

Definition active_at (t : Q) (intervals : list interval) : Z :=
  Z.of_nat (length (List.filter (fun i => qle (fst i) t && qlt t (snd i)) intervals)).

(** The sum of the changes up to a time, and of all of them. *)
Fixpoint change_by (t : Q) (events : list (Q * Z)) : Z :=
  match events with
  | [] => 0
  | (u, delta) :: events' => (if qle u t then delta else 0) + change_by t events'
  end.

Fixpoint change (events : list (Q * Z)) : Z :=
  match events with [] => 0 | (_, delta) :: events' => delta + change events' end.

Lemma change_by_insert t x l : change_by t (insert_event x l) = change_by t (x :: l).
Proof.
  induction l as [|[u d] l IH]; simpl; [done|]. case_match; [done|]. destruct x as [v e]. simpl in *. lia.
Qed.

Lemma change_by_sort t l : change_by t (sort_events l) = change_by t l.
Proof. induction l as [|[u d] l IH]; simpl; [done|]. rewrite change_by_insert. simpl. lia. Qed.

Lemma change_by_active t intervals :
  Forall (fun i => fst i <= snd i)%Q intervals -> change_by t (events_of intervals) = active_at t intervals.
Proof.
  unfold active_at. induction 1 as [|[s e] l Hse Hl IH]; simpl in *; [done|]. rewrite IH.
  destruct (qle s t) eqn:E1, (qle e t) eqn:E2; unfold qlt; unfold qle in E2; rewrite E2; simpl; try lia.
  exfalso. fold (qle e t) in E2. apply qle_true in E2. apply qle_false in E1.
  apply (Qlt_irrefl t). eapply Qlt_le_trans; [exact E1|]. by eapply Qle_trans.
Qed.

Lemma change_by_app t a b : change_by t (a ++ b) = change_by t a + change_by t b.
Proof. induction a as [|[u d] a IH]; simpl; lia. Qed.

Lemma change_app a b : change (a ++ b) = change a + change b.
Proof. induction a as [|[u d] a IH]; simpl; lia. Qed.

Lemma event_le_total a b : event_le a b = false -> event_le b a = true.
Proof.
  unfold event_le. rewrite orb_false_iff, orb_true_iff, andb_false_iff, andb_true_iff.
  rewrite qlt_false, qlt_true, qle_false, qle_true, Z.leb_gt, Z.leb_le.
  intros [H1 [H2|H2]]; [by left|]. destruct (Qlt_le_dec (fst b) (fst a)); [by left|right]. split; [done|lia].
Qed.

Lemma event_le_trans a b c : event_le a b = true -> event_le b c = true -> event_le a c = true.
Proof.
  unfold event_le. rewrite !orb_true_iff, !andb_true_iff, !qlt_true, !qle_true, !Z.leb_le.
  intros [H1|[H1 H1']] [H2|[H2 H2']].
  - left. by eapply Qlt_trans.
  - left. by eapply Qlt_le_trans.
  - left. by eapply Qle_lt_trans.
  - right. split; [by eapply Qle_trans|lia].
Qed.

(** Each event before all that follow it. *)
Fixpoint events_sorted (l : list (Q * Z)) : Prop :=
  match l with
  | [] => True
  | x :: l' => Forall (fun y => event_le x y = true) l' /\ events_sorted l'
  end.

Lemma insert_event_in x l y : y ∈ insert_event x l <-> y = x \/ y ∈ l.
Proof. induction l as [|z l IH]; simpl; [set_solver|]. case_match; set_solver. Qed.

Lemma insert_event_sorted x l : events_sorted l -> events_sorted (insert_event x l).
Proof.
  induction l as [|y l IH]; simpl; [by repeat constructor|]. intros [Hy Hl]. case_match eqn:E; simpl.
  - split; [|done]. constructor; [done|]. eapply Forall_impl; [exact Hy|].
    intros z Hz. by eapply event_le_trans.
  - split; [|by apply IH]. apply Forall_forall. intros z [->|Hz]%insert_event_in.
    + by apply event_le_total.
    + rewrite Forall_forall in Hy. by apply Hy.
Qed.

Lemma sort_events_sorted l : events_sorted (sort_events l).
Proof. induction l; simpl; [done|]. by apply insert_event_sorted. Qed.

Lemma sort_events_in l y : y ∈ sort_events l <-> y ∈ l.
Proof. induction l as [|x l IH]; simpl; [done|]. rewrite insert_event_in, IH. set_solver. Qed.

Lemma events_sorted_app a b :
  events_sorted (a ++ b) -> forall x y, x ∈ a -> y ∈ b -> event_le x y = true.
Proof.
  induction a as [|z a IH]; simpl; [set_solver|]. intros [Hz Hs] x y [->|Hx]%elem_of_cons Hy.
  - rewrite Forall_forall in Hz. apply Hz. set_solver.
  - by apply IH.
Qed.

(** The sweep is the greatest sum of a prefix. *)
Lemma sweep_spec events active peak n :
  sweep events active peak <= n <-> peak <= n /\ (forall a b, events = a ++ b -> a <> [] -> active + change a <= n).
Proof.
  revert active peak. induction events as [|[u d] events IH]; intros active peak; simpl.
  - split; [|tauto]. intros H. split; [done|]. intros [|] b E Ha; done.
  - rewrite IH. split.
    + intros [Hp Hall]. split; [lia|]. intros [|[u' d'] a] b E Ha; [done|]. simplify_eq/=.
      destruct a as [|x a]; [simpl; lia|]. specialize (Hall (x :: a) b eq_refl). simpl in *.
      assert (x :: a <> []) as Hne by done. specialize (Hall Hne). lia.
    + intros [Hp Hall]. split.
      * pose proof (Hall [(u, d)] events eq_refl ltac:(done)) as H. simpl in H. lia.
      * intros a b -> Ha. pose proof (Hall ((u, d) :: a) b eq_refl ltac:(done)) as H. simpl in H. lia.
Qed.

Lemma change_by_all t a : Forall (fun x => fst x <= t)%Q a -> change_by t a = change a.
Proof.
  induction 1 as [|[u d] a Hu Ha IH]; simpl; [done|]. rewrite (proj2 (qle_true u t) Hu). lia.
Qed.

Lemma change_by_none t a : Forall (fun x => t < fst x)%Q a -> change_by t a = 0.
Proof.
  induction 1 as [|[u d] a Hu Ha IH]; simpl; [done|]. by rewrite (proj2 (qle_false u t) Hu).
Qed.

Definition unit_events (l : list (Q * Z)) : Prop := Forall (fun x => snd x = 1 \/ snd x = -1) l.

(** What follows a start in the order and is not later is a start. *)
Lemma change_by_after t b :
  unit_events b -> Forall (fun y => event_le (t, 1) y = true) b -> 0 <= change_by t b.
Proof.
  induction 1 as [|[u d] b Hd Hb IH]; simpl; [done|].
  intros [Hle Hrest]%Forall_cons. specialize (IH Hrest). simpl in Hd.
  destruct (qle u t) eqn:E; [|lia]. apply qle_true in E. unfold event_le in Hle. simpl in Hle.
  rewrite orb_true_iff, andb_true_iff, qlt_true, Z.leb_le in Hle.
  destruct Hle as [Hlt|[_ Hd1]]; [|lia]. exfalso. by apply (Qlt_not_le t u).
Qed.

Lemma prefix_change_bounded a b :
  events_sorted (a ++ b) -> unit_events (a ++ b) ->
  change a <= 0 \/ exists t, change a <= change_by t (a ++ b).
Proof.
  revert b. induction a as [|[t d] a IH] using rev_ind; intros b Hs Hu; [by left|].
  rewrite <- app_assoc in Hs, Hu |- *. specialize (IH _ Hs Hu). rewrite change_app. simpl in *.
  assert (Hd : d = 1 \/ d = -1).
  { apply Forall_app in Hu as [_ Hu]. by apply Forall_cons in Hu as [Hu _]. }
  destruct Hd as [-> | ->]; [right; exists t|destruct IH as [?|[t' Ht']]; [left; lia|right; exists t'; lia]].
  rewrite change_by_app. simpl. rewrite (proj2 (qle_true t t)) by apply Qle_refl.
  assert (Ha : change_by t a = change a).
  { apply change_by_all, Forall_forall. intros [u e] Hin.
    pose proof (events_sorted_app _ _ Hs (u, e) (t, 1) Hin ltac:(left)) as Hle.
    unfold event_le in Hle. simpl in *. rewrite orb_true_iff, andb_true_iff, qlt_true, qle_true in Hle.
    destruct Hle as [Hlt|[Hle _]]; [by apply Qlt_le_weak|done]. }
  assert (Hb : 0 <= change_by t b).
  { apply change_by_after.
    - apply Forall_app in Hu as [_ Hu]. by apply Forall_cons in Hu as [_ Hu].
    - apply Forall_forall. intros y Hy. change (a ++ (t, 1) :: b) with (a ++ [(t, 1)] ++ b) in Hs.
      rewrite app_assoc in Hs.
      eapply events_sorted_app; [exact Hs| |done]. set_solver. }
  lia.
Qed.

Lemma change_by_prefix t l : events_sorted l -> exists a b, l = a ++ b /\ change_by t l = change a.
Proof.
  induction l as [|[u d] l IH]; intros Hs; [by exists [], []|]. destruct (qle u t) eqn:E.
  - destruct Hs as [_ Hs]. destruct (IH Hs) as (a & b & -> & Hc). exists ((u, d) :: a), b.
    split; [done|]. simpl. rewrite E. lia.
  - exists [], ((u, d) :: l). split; [done|]. apply change_by_none. apply qle_false in E.
    constructor; [done|]. destruct Hs as [Hx _]. eapply Forall_impl; [exact Hx|].
    intros [v e] Hle. unfold event_le in Hle. simpl in *.
    rewrite orb_true_iff, andb_true_iff, qlt_true, qle_true in Hle.
    destruct Hle as [Hlt|[Hle _]]; [by eapply Qlt_trans|by eapply Qlt_le_trans].
Qed.

(** The sweep against its meaning: the peak is within a limit exactly when at
    no time more intervals are open. *)
Lemma peak_iff intervals n :
  0 <= n -> Forall (fun i => fst i <= snd i)%Q intervals ->
  peak_parallelism intervals <= n <-> forall t, active_at t intervals <= n.
Proof.
  intros Hn Hwf. unfold peak_parallelism. set (l := sort_events (events_of intervals)).
  assert (Hs : events_sorted l) by apply sort_events_sorted.
  assert (Hc : forall t, change_by t l = active_at t intervals).
  { intros t. unfold l. by rewrite change_by_sort, change_by_active. }
  assert (Hu : unit_events l).
  { apply Forall_forall. intros x Hx. unfold l in Hx. rewrite sort_events_in in Hx.
    unfold events_of in Hx. rewrite list_elem_of_In, in_flat_map in Hx.
    destruct Hx as ([s e] & _ & Hx). simpl in Hx. destruct Hx as [<-|[<-|[]]]; auto. }
  rewrite sweep_spec. split.
  - intros [_ Hall] t. rewrite <- Hc. destruct (change_by_prefix t l Hs) as (a & b & El & ->).
    destruct a as [|x a]; [simpl; lia|]. apply (Hall (x :: a) b El). done.
  - intros Hall. split; [lia|]. intros a b El _. rewrite El in Hs, Hu, Hc.
    destruct (prefix_change_bounded a b Hs Hu) as [|[t Ht]]; [lia|]. rewrite Hc in Ht. specialize (Hall t). lia.
Qed.

(** ** What accepted evidence shows *)

Lemma dvals_by_key {V} (x : V) (d : dict string V) :
  dict_wf d -> dvals d = map (fun k => default x (dget k d)) (dkeys d).
Proof.
  unfold dict_wf, dkeys, dvals. induction d as [|[k v] d IH]; simpl; [done|].
  intros [Hk Hd]%NoDup_cons. rewrite decide_True by done. simpl. f_equal. rewrite IH by done.
  apply map_ext_in. intros k' Hk'%list_elem_of_In. rewrite decide_False; [done|]. by intros ->.
Qed.

Section sound.
Context (X : Text) (timestamp : string -> option Q) (files : string -> option EvidenceFile).

(** The row of a task says that it is done, with evidence. *)
Definition row_done (r : row) : Prop :=
  lower (strip (match dget "status" r with Some v => py_str X v | None => "" end)) = "completed"
  /\ has_completion_evidence (default PNone (dget "evidence" r)) = true.

Lemma task_interval_sound id inline s e :
  task_interval X timestamp files id inline = Ret (s, e) ->
  (s <= e)%Q /\ exists r, load_task_execution_row X (files id) id inline = Ret r /\ row_done r.
Proof.
  unfold task_interval. destruct (load_task_execution_row X (files id) id inline) as [r|] eqn:Er; [|done].
  cbn [mbind outcome_bind]. intros (Hstatus & (Hev & H)%refuse_bind)%refuse_bind.
  destruct (parse_execution_time timestamp (default PNone (dget "started_at" r))) as [s'|]; [|done]. cbn [mbind outcome_bind] in H.
  destruct (parse_execution_time timestamp (default PNone (dget "completed_at" r))) as [e'|]; [|done]. cbn [mbind outcome_bind] in H.
  apply refuse_bind in H as [Hlt [= <- <-]]. split; [by apply qlt_false|]. exists r. split; [done|].
  apply negb_false_iff in Hstatus, Hev. apply String.eqb_eq in Hstatus. by split.
Qed.

Lemma all_intervals_sound by_id tasks acc ivs :
  dict_wf acc -> NoDup (dkeys acc ++ all_ids tasks) ->
  all_intervals X timestamp files by_id tasks acc = Ret ivs ->
  dict_wf ivs /\ dkeys ivs = dkeys acc ++ all_ids tasks
  /\ (forall k, k ∈ dkeys acc -> dget k ivs = dget k acc)
  /\ (forall t, t ∈ tasks -> exists i inline, dget (st_id t) ivs = Some i
        /\ task_interval X timestamp files (st_id t) inline = Ret i).
Proof.
  revert acc. induction tasks as [|t tasks IH]; intros acc Hwf Hnd; simpl.
  { intros [= <-]. rewrite app_nil_r. split; [done|]. split; [done|]. split; [done|]. set_solver. }
  destruct (task_interval X timestamp files (st_id t) _) as [i|] eqn:Ei; [|done]. cbn [mbind outcome_bind].
  simpl in Hnd.
  assert (Hfresh : dget (st_id t) acc = None).
  { apply dget_None_keys. intros Hin. apply NoDup_app in Hnd as (_ & Hdis & _). apply (Hdis _ Hin). left. }
  assert (Hkeys : dkeys (dset (st_id t) i acc) = dkeys acc ++ [st_id t]).
  { rewrite dset_fresh by done. unfold dkeys. by rewrite map_app. }
  intros H. apply IH in H as (H1 & H2 & H3 & H4).
  - rewrite Hkeys, <- app_assoc in H2. rewrite Hkeys in H3. split; [done|]. split; [done|]. split.
    + intros k Hk. rewrite H3 by set_solver. apply dget_dset_ne. intros <-.
      by apply dget_None_keys in Hfresh.
    + intros t' [->|Ht']%elem_of_cons; [|by apply H4].
      exists i. eexists. split; [|exact Ei]. rewrite H3 by set_solver. apply dget_dset_eq.
  - by apply dset_wf.
  - rewrite Hkeys, <- app_assoc. done.
Qed.
End sound.

(** What accepted evidence shows.  When [validate_task_execution] accepts, the
    plan's tasks have execution intervals such that every task is marked
    completed with evidence that is not blank and did not end before it began,
    no task began before one it depends on ended, and at no time were more than
    [max_parallel] tasks active: the sweep over the sorted starts and ends
    computes the peak of the active tasks. *)
Theorem execution_evidence_sound (X : Text) (timestamp : string -> option Q)
    (files : string -> option EvidenceFile) (payload : option pyval) (seed : TaskPlan) :
  NoDup (all_ids (tp_subtasks seed)) -> 0 <= tp_max_parallel seed ->
  validate_task_execution X timestamp files payload seed = Ret tt ->
  exists interval_of : string -> interval,
    (forall t, t ∈ tp_subtasks seed ->
       (fst (interval_of (st_id t)) <= snd (interval_of (st_id t)))%Q
       /\ (exists inline r, load_task_execution_row X (files (st_id t)) (st_id t) inline = Ret r /\ row_done X r)
       /\ (forall d, d ∈ st_depends_on t -> (snd (interval_of d) <= fst (interval_of (st_id t)))%Q))
    /\ (forall time, active_at time (map (fun t => interval_of (st_id t)) (tp_subtasks seed))
                     <= tp_max_parallel seed).
Proof.
  intros Hids Hpar. unfold validate_task_execution.
  destruct payload as [[| | | | | | |doc|]|]; try done.
  destruct (dget "subtasks" doc) as [[| | | | | |values| |]|]; try done.
  destruct (mapM _ values) as [rows|]; [|done]. cbv zeta.
  intros [_ H]%refuse_bind.
  destruct (all_intervals X timestamp files _ (tp_subtasks seed) []) as [ivs|] eqn:Eall; [|done].
  cbn [mbind outcome_bind] in H. apply refuse_bind in H as [Hdeps Hpeak%refuse_ret].
  apply all_intervals_sound in Eall as (Hwf & Hkeys & _ & Hone); [|constructor|done].
  exists (fun k => default (0, 0)%Q (dget k ivs)).
  assert (Hin : forall t, t ∈ tp_subtasks seed -> exists s e inline,
    dget (st_id t) ivs = Some (s, e) /\ task_interval X timestamp files (st_id t) inline = Ret (s, e)).
  { intros t Ht. destruct (Hone t Ht) as ([s e] & inline & Hg & Hi). eauto 6. }
  split.
  - intros t Ht. destruct (Hin t Ht) as (s & e & inline & Hg & Hi). rewrite Hg. simpl.
    apply task_interval_sound in Hi as [Hse (r & Hr & Hdone)]. split; [done|]. split; [eauto|].
    intros d Hd. rewrite existsb_false in Hdeps. specialize (Hdeps t Ht).
    rewrite existsb_false in Hdeps. specialize (Hdeps d Hd). unfold dependency_late in Hdeps.
    rewrite Hg in Hdeps. destruct (dget d ivs) as [[s' e']|]; [|done]. by apply qlt_false.
  - apply Z.ltb_ge in Hpeak. rewrite (dvals_by_key (0, 0)%Q) in Hpeak by done.
    rewrite Hkeys in Hpeak. simpl in Hpeak. unfold all_ids in Hpeak. rewrite map_map in Hpeak.
    apply peak_iff; [done| |done]. apply Forall_forall. intros i (t & -> & Ht)%list_elem_of_fmap.
    destruct (Hin t Ht) as (s & e & inline & -> & Hi). by apply task_interval_sound in Hi as [Hse _].
Qed.

Definition sample_row (id : string) (s e : Z) : pyval :=
  PDict [("id", PStr id); ("status", PStr "Completed "); ("evidence", PList [PStr ""; PStr "pytest: ok"]);
         ("started_at", PInt s); ("completed_at", PInt e)].

Definition sample_rows : option pyval := Some (PDict [("subtasks", PList [sample_row "a" 1 5; sample_row "b" 5 9])]).

Definition sample_seed (par : Z) : TaskPlan :=
  mkTaskPlan "g" [plain "a" [] []; plain "b" ["a"] []] [["a"]; ["b"]] par.

Lemma execution_evidence_sound_witness :
  validate_task_execution (sample_text PNone) (fun _ => None) (fun _ => None) sample_rows (sample_seed 1) = Ret tt
  /\ exists interval_of : string -> interval,
       forall time, active_at time (map (fun t => interval_of (st_id t)) (tp_subtasks (sample_seed 1))) <= 1.
Proof.
  split; [by vm_compute|].
  destruct (execution_evidence_sound (sample_text PNone) (fun _ => None) (fun _ => None) sample_rows (sample_seed 1))
    as (f & _ & Hf); [apply has_dup_false; by vm_compute|by vm_compute|by vm_compute|by exists f].
Defined.

(** ** The limit on parallelism and files of evidence *)

Definition with_parallel (n : Z) (p : TaskPlan) : TaskPlan :=
  mkTaskPlan (tp_goal p) (tp_subtasks p) (tp_waves p) n.

Lemma task_interval_file X timestamp files id inline i :
  is_Some (files id) -> task_interval X timestamp files id inline = Ret i -> fst i = snd i.
Proof.
  intros [f Hf]. unfold task_interval, load_task_execution_row. rewrite Hf.
  destruct (ef_payload f) as [[| | | | | | |p|]|]; try done.
  destruct (String.eqb _ id); [|done]. cbv zeta. cbn [mbind outcome_bind].
  intros (_ & (_ & H)%refuse_bind)%refuse_bind.
  rewrite (dget_dset_ne "completed_at" "started_at"), !dget_dset_eq in H by done.
  cbn [from_option default parse_execution_time mbind outcome_bind] in H.
  by apply refuse_bind in H as [_ [= <-]].
Qed.

Lemma peak_of_instants intervals : Forall (fun i => fst i = snd i) intervals -> peak_parallelism intervals <= 0.
Proof.
  intros H. apply peak_iff; [done| |].
  - eapply Forall_impl; [exact H|]. intros [s e] ->. apply Qle_refl.
  - intros t. unfold active_at. replace (List.filter _ intervals) with (@nil interval); [done|].
    induction H as [|[s e] l Hse Hl IH]; simpl in *; [done|]. subst e.
    by destruct (qle s t) eqn:E; unfold qlt; unfold qle in E; rewrite ?E.
Qed.

Lemma bind_ext {E A B} (m : outcome E A) (k k' : A -> outcome E B) :
  (forall a, k a = k' a) -> (m ≫= k) = (m ≫= k').
Proof. destruct m; simpl; auto. Qed.

(** The limit on parallelism is not enforced on files of evidence.  A task
    with such a file gets its modification time as both its start and its end,
    and an instant is never active in the sweep: when every task of the plan
    has a file of evidence, as the coordinator's prompt demands, the verdict is
    the same whatever the limit is. *)
Theorem parallel_limit_unenforced (X : Text) (timestamp : string -> option Q)
    (files : string -> option EvidenceFile) (payload : option pyval) (seed : TaskPlan) (n m : Z) :
  NoDup (all_ids (tp_subtasks seed)) -> 0 <= n -> 0 <= m ->
  (forall t, t ∈ tp_subtasks seed -> is_Some (files (st_id t))) ->
  validate_task_execution X timestamp files payload (with_parallel n seed)
  = validate_task_execution X timestamp files payload (with_parallel m seed).
Proof.
  intros Hids Hn Hm Hfiles. unfold validate_task_execution, with_parallel. simpl.
  destruct payload as [[| | | | | | |doc|]|]; try done.
  destruct (dget "subtasks" doc) as [[| | | | | |values| |]|]; try done.
  destruct (mapM _ values) as [rows|]; [|done]. cbv zeta.
  apply bind_ext. intros _.
  destruct (all_intervals X timestamp files _ (tp_subtasks seed) []) as [ivs|] eqn:Eall; [|done].
  cbn [mbind outcome_bind].
  assert (Hpeak : peak_parallelism (dvals ivs) <= 0).
  { apply all_intervals_sound in Eall as (Hwf & Hkeys & _ & Hone); [|constructor|done].
    apply peak_of_instants. rewrite (dvals_by_key (0, 0)%Q), Hkeys by done. simpl.
    apply Forall_forall. intros i (k & -> & Hk)%list_elem_of_fmap.
    apply list_elem_of_fmap in Hk as (t & -> & Ht).
    destruct (Hone t Ht) as (i & inline & -> & Hi). eapply task_interval_file; [|exact Hi]. auto. }
  destruct (Z.ltb_spec n (peak_parallelism (dvals ivs))), (Z.ltb_spec m (peak_parallelism (dvals ivs)));
    try lia; done.
Qed.

Definition sample_files (id : string) : option EvidenceFile :=
  Some (mkEvidence (Some (PDict [("id", PStr id); ("status", PStr "completed"); ("evidence", PStr "ok")])) 7).

(** Evidence accepted under a limit of no task at all. *)
Lemma parallel_limit_unenforced_witness :
  validate_task_execution (sample_text PNone) (fun _ => None) sample_files sample_rows (with_parallel 0 (sample_seed 1))
  = Ret tt.
Proof.
  rewrite (parallel_limit_unenforced (sample_text PNone) (fun _ => None) sample_files sample_rows (sample_seed 1) 0 9);
    [by vm_compute|apply has_dup_false; by vm_compute|lia|lia|by eexists].
Defined.

(** ** What a model can do to a plan *)

(** The answer that puts [k] independent tasks into one wave. *)
Definition one_wave_tasks (k : nat) : list Subtask := map (fun i => plain (task_name (S i)) [] []) (seq 0 k).

Definition raw_of (t : Subtask) : RawSubtask :=
  mkRawSubtask (Some (st_id t)) (Some "") (Some "") None None None.

Definition one_wave (k : nat) : reply :=
  Answer None (map raw_of (one_wave_tasks k)) [all_ids (one_wave_tasks k)] (Some (Z.of_nat k)).

Definition bare (t : Subtask) : Subtask := mkSubtask (st_id t) "" "" [] "" [].

Lemma mapM_raw_of tasks : mapM raw_to_subtask (map raw_of tasks) = Some (map bare tasks).
Proof. induction tasks as [|t tasks IH]; simpl; [done|]. by rewrite IH. Qed.

Lemma one_wave_numbered k : numbered (one_wave_tasks k).
Proof.
  intros i t Hi. unfold one_wave_tasks in Hi. rewrite list_lookup_fmap in Hi.
  destruct (seq 0 k !! i) as [j|] eqn:E; [|done]. apply lookup_seq in E as [-> _].
  injection Hi as <-. simpl. split; [done|]. set_solver.
Qed.

Lemma all_ids_bare tasks : all_ids (map bare tasks) = all_ids tasks.
Proof. unfold all_ids. by rewrite map_map. Qed.

(** The plan of that answer is valid whatever the configured parallelism is. *)
Lemma one_wave_valid ms mw goal k :
  (1 <= k)%nat -> Z.of_nat k <= ms -> 1 <= mw ->
  validate ms mw (mkTaskPlan goal (map bare (one_wave_tasks k)) [all_ids (one_wave_tasks k)] (Z.of_nat k)) = Ret tt.
Proof.
  intros Hk Hms Hmw.
  assert (Hlen : length (one_wave_tasks k) = k) by (unfold one_wave_tasks; by rewrite length_map, length_seq).
  assert (Hshape : plan_shape ms mw
    (mkTaskPlan goal (map bare (one_wave_tasks k)) [all_ids (one_wave_tasks k)] (Z.of_nat k))).
  { constructor; simpl; rewrite ?all_ids_bare, ?length_map, ?app_nil_r, ?Hlen; try done; try lia.
    - intros E%(f_equal length). rewrite length_map in E. simpl in E. lia.
    - apply numbered_nodup, one_wave_numbered.
    - intros w ->%list_elem_of_singleton. unfold all_ids. rewrite length_map. lia.
    - intros t d i (t' & -> & _)%list_elem_of_fmap Hd. by inversion Hd. }
  rewrite (validate_shape _ _ _ Hshape). apply files_iff; [apply Hshape|apply Hshape|]. split; simpl.
  - intros i t1 t2 f (t' & -> & _)%list_elem_of_fmap _ _ _ Hf. by inversion Hf.
  - intros t (t' & -> & _)%list_elem_of_fmap. constructor.
Qed.

(** The configured parallelism does not bind the model that rewrites the
    plan: the prompt tells it to stay within [max_parallel], but the answer's own
    [max_parallel] replaces the configured one before the waves are checked
    against it.  For any number of tasks within [max_subtasks] some answer is
    accepted that runs all of them in one wave. *)
Theorem llm_overrides_parallel (ms par mw : Z) (k : nat) (title description : string) :
  (1 <= k)%nat -> Z.of_nat k <= ms ->
  exists r p, decompose_issue_with (fun _ => r) (new_limits ms par mw) title description = Ret p
    /\ exists w, w ∈ tp_waves p /\ length w = k.
Proof.
  intros Hk Hms. set (l := new_limits ms par mw).
  destruct (seed_plan_shape l (strip title) (strip description)) as (plan & Hseed & _); [simpl; lia..|].
  pose proof (one_wave_valid (max_subtasks l) (max_waves l) (tp_goal plan) k Hk ltac:(simpl; lia) ltac:(simpl; lia))
    as Hvalid.
  exists (one_wave k).
  exists (mkTaskPlan (tp_goal plan) (map bare (one_wave_tasks k)) [all_ids (one_wave_tasks k)] (Z.of_nat k)).
  split.
  - unfold decompose_issue_with. rewrite Hseed. cbn [mbind outcome_bind].
    unfold one_wave, llm_rewrite_plan. rewrite mapM_raw_of.
    destruct (map bare (one_wave_tasks k)) as [|t0 ts] eqn:E.
    { apply (f_equal length) in E. unfold one_wave_tasks in E. rewrite !length_map, length_seq in E. simpl in E. lia. }
    cbv zeta. simpl default. rewrite Hvalid. cbn [is_ret mbind outcome_bind].
    rewrite Hvalid. done.
  - simpl. eexists. split; [left|]. unfold all_ids, one_wave_tasks. by rewrite !length_map, length_seq.
Qed.

Lemma llm_overrides_parallel_witness :
  exists r p, decompose_issue_with (fun _ => r) (new_limits 8 2 6) "t" "d" = Ret p
    /\ exists w, w ∈ tp_waves p /\ length w = 8%nat.
Proof. apply (llm_overrides_parallel 8 2 6 8 "t" "d"); lia. Defined.

(** The outcome of a decomposition whose plan a model may rewrite.  An
    exception of the client and an answer that is JSON but no object end the
    decomposition, although an answer that cannot be used is meant to fall back
    to the seed plan; with any other answer the result is a valid plan, or the
    seed plan's own file conflict. *)
Theorem llm_rewrite_outcome (subtasks parallel waves : Z) (client : TaskPlan -> reply)
    (title description : string) :
  let l := new_limits subtasks parallel waves in
  exists plan, seed_plan l (strip title) (strip description) = Ret plan
    /\ match client plan with
       | ClientRaised e => decompose_issue_with client l title description = Raise e
       | NotAnObject => decompose_issue_with client l title description = Raise attribute_missing
       | _ =>
           (exists p, decompose_issue_with client l title description = Ret p
              /\ plan_shape (max_subtasks l) (max_waves l) p /\ files_disjoint p)
           \/ (~ files_disjoint plan
               /\ decompose_issue_with client l title description = Raise (plan_error "file conflict"))
       end.
Proof.
  intros l. destruct (seed_plan_shape l (strip title) (strip description)) as (plan & Hseed & Hshape);
    [simpl; lia..|].
  exists plan. split; [done|]. unfold decompose_issue_with. rewrite Hseed. cbn [mbind outcome_bind].
  assert (Hvalid : forall p, validate (max_subtasks l) (max_waves l) p = Ret tt ->
    plan_shape (max_subtasks l) (max_waves l) p /\ files_disjoint p).
  { intros p Hv. pose proof (validate_returns _ _ _ Hv) as [Hs Hf]. split; [done|].
    apply files_iff in Hf; [done|apply Hs|apply Hs]. }
  assert (Hback : forall r, llm_rewrite_plan l plan r = Ret plan ->
    (exists p, (plan0 ← llm_rewrite_plan l plan r;
                _ ← validate (max_subtasks l) (max_waves l) plan0; Ret plan0) = Ret p
       /\ plan_shape (max_subtasks l) (max_waves l) p /\ files_disjoint p)
    \/ (~ files_disjoint plan
        /\ (plan0 ← llm_rewrite_plan l plan r;
            _ ← validate (max_subtasks l) (max_waves l) plan0; Ret plan0) = Raise (plan_error "file conflict"))).
  { intros r ->. cbn [mbind outcome_bind]. rewrite (validate_shape _ _ _ Hshape).
    pose proof (files_iff plan (ps_unique _ _ _ Hshape) (ps_cover _ _ _ Hshape)) as Hf.
    unfold check_file_conflicts, refuse in *. destruct (existsb _ _).
    - right. split; [|done]. intros H. by apply Hf in H.
    - left. exists plan. split; [done|]. split; [done|]. by apply Hf. }
  destruct (client plan) as [e| | |goal subs ws mp]; [done|by apply Hback|done|].
  destruct (llm_rewrite_plan l plan (Answer goal subs ws mp)) as [p|] eqn:E.
  - destruct (decide (is_ret (validate (max_subtasks l) (max_waves l) p) = true)) as [Hv|Hv].
    + destruct (validate _ _ p) as [[]|] eqn:Ev; [|done]. left. exists p. cbn [mbind outcome_bind].
      rewrite Ev. cbn [mbind outcome_bind]. auto.
    + rewrite <- E. apply Hback. rewrite E. unfold llm_rewrite_plan in E.
      destruct (mapM raw_to_subtask subs) as [[|t0 ts]|]; try congruence. cbv zeta in E.
      case_match eqn:Ev; [|congruence]. exfalso. apply Hv. congruence.
  - unfold llm_rewrite_plan in E. destruct (mapM raw_to_subtask subs) as [[|t0 ts]|]; try done.
    cbv zeta in E. by case_match.
Qed.
