(* ===== verification/Swarm.v ===== *)
(** * Swarm mode ([src/orchestratord/modes/swarm.py], [coordinator.py])

    One run of an issue as a swarm: resume or decompose, write the plan, run the
    coordinator, check and record the evidence, write the checkpoint.  The
    workspace's files and the session are the state; the coordinator's agent,
    which may change all of them, is a parameter. *)

From S2P Require Import Prelude Errors Dag StageRunner Intent Regex ClarModel TaskPlan TaskPlanFacts TaskExec.

Open Scope string_scope.
Open Scope list_scope.
Open Scope Z_scope.

(** A JSON file of the control directory. *)
Inductive file :=
| Missing
| Garbage
| Doc (v : pyval).

(** The session's fields that a run touches ([None]: no such attribute), and the
    files; [sw_evidence] are the files of [task_evidence] by name. *)
Record Swarm := mkSwarm {
  sw_prompt_override : option string;
  sw_run_kind : option string;
  sw_coordinator_mode : option bool;
  sw_status : string;
  sw_decomposition : option pyval;
  sw_plan_file : file;
  sw_checkpoint : file;
  sw_evidence : dict string EvidenceFile;
}.

Definition set_prompt (p k : option string) (s : Swarm) : Swarm :=
  mkSwarm p k (sw_coordinator_mode s) (sw_status s) (sw_decomposition s) (sw_plan_file s) (sw_checkpoint s) (sw_evidence s).
Definition set_coordinator (b : option bool) (s : Swarm) : Swarm :=
  mkSwarm (sw_prompt_override s) (sw_run_kind s) b (sw_status s) (sw_decomposition s) (sw_plan_file s) (sw_checkpoint s) (sw_evidence s).
Definition set_decomposition (v : pyval) (s : Swarm) : Swarm :=
  mkSwarm (sw_prompt_override s) (sw_run_kind s) (sw_coordinator_mode s) (sw_status s) (Some v) (sw_plan_file s) (sw_checkpoint s) (sw_evidence s).
Definition set_plan_file (f : file) (s : Swarm) : Swarm :=
  mkSwarm (sw_prompt_override s) (sw_run_kind s) (sw_coordinator_mode s) (sw_status s) (sw_decomposition s) f (sw_checkpoint s) (sw_evidence s).
Definition set_checkpoint (f : file) (s : Swarm) : Swarm :=
  mkSwarm (sw_prompt_override s) (sw_run_kind s) (sw_coordinator_mode s) (sw_status s) (sw_decomposition s) (sw_plan_file s) f (sw_evidence s).
Definition set_evidence (e : dict string EvidenceFile) (s : Swarm) : Swarm :=
  mkSwarm (sw_prompt_override s) (sw_run_kind s) (sw_coordinator_mode s) (sw_status s) (sw_decomposition s) (sw_plan_file s) (sw_checkpoint s) e.

Definition py_error (what : string) : exn := mkExn OtherException [Lit what] None.
Definition type_error : exn := py_error "TypeError".
Definition key_error : exn := py_error "KeyError".
Definition no_attribute : exn := py_error "AttributeError".

(** ** The plan as a document *)

Definition strings (l : list string) : pyval := PList (map PStr l).

(** [Subtask.to_dict], [TaskPlan.to_dict] *)
Definition subtask_to_dict (t : Subtask) : pyval :=
  PDict [("id", PStr (st_id t)); ("title", PStr (st_title t)); ("description", PStr (st_description t));
         ("depends_on", strings (st_depends_on t)); ("verification", PStr (st_verification t));
         ("affected_files", strings (st_affected_files t)); ("token_cost", PFloat 0); ("budget", PFloat 0);
         ("status", PStr "pending"); ("evidence", PStr ""); ("started_at", PNone); ("completed_at", PNone)].

Definition plan_to_dict (p : TaskPlan) : pyval :=
  PDict [("version", PInt 1); ("goal", PStr (tp_goal p)); ("max_parallel", PInt (tp_max_parallel p));
         ("subtasks", PList (map subtask_to_dict (tp_subtasks p)));
         ("waves", PList (map strings (tp_waves p)))].

(** ** Resuming *)

(** [tuple(v)] on JSON values: only its failure matters. *)
Definition iterable (v : pyval) : outcome exn unit :=
  match v with PList _ | PStr _ | PText _ | PDict _ => Ret tt | _ => Raise type_error end.

(** The items of a [for] loop over a JSON value; those of a string are no
    objects, whatever they are. *)
Definition loop_items (v : option pyval) : outcome exn (list pyval) :=
  match v with
  | None => Ret []
  | Some (PList l) => Ret l
  | Some (PStr s) => Ret (if String.eqb s "" then [] else [PStr s])
  | Some (PDict d) => Ret (map (fun kv => PStr (fst kv)) d)
  | Some _ => Raise type_error
  end.

(** The [Subtask] of a persisted row: what can fail of building it. *)
Definition rebuild_row (v : pyval) : outcome exn unit :=
  match v with
  | PDict d =>
      match dget "id" d with
      | None => Raise key_error
      | Some _ =>
          _ ← iterable (default (PList []) (dget "depends_on" d));
          iterable (default (PList []) (dget "affected_files" d))
      end
  | _ => Raise type_error
  end.

(** The rest of [_resolve_or_resume] once there is a completed wave: the waves
    and the tasks are rebuilt, and then [self.max_parallel] is read, which the
    runner does not have. *)
Definition rebuild_plan (payload : pyval) : outcome exn TaskPlan :=
  match payload with
  | PDict doc =>
      waves ← loop_items (dget "waves" doc);
      _ ← map_outcome iterable waves;
      rows ← loop_items (dget "subtasks" doc);
      _ ← map_outcome rebuild_row rows;
      Raise no_attribute
  | _ => Raise no_attribute
  end.

(** [completed_wave < 0]; [None] is a [TypeError]. *)
Definition below_zero (v : pyval) : option bool :=
  match v with
  | PInt z => Some (z <? 0)
  | PFloat q => Some (qlt q 0)
  | PBool _ => Some false
  | _ => None
  end.

(** [_resolve_or_resume]: [Some plan] is a plan to resume, [None] none. *)
Definition resolve_or_resume (s : Swarm) : outcome exn (option TaskPlan) :=
  match sw_plan_file s, sw_checkpoint s with
  | Doc payload, Doc (PDict checkpoint) =>
      match below_zero (default (PInt (-1)) (dget "last_completed_wave" checkpoint)) with
      | None => Raise type_error
      | Some true => Ret None
      | Some false => plan ← rebuild_plan payload; Ret (Some plan)
      end
  | Doc _, Doc _ => Raise no_attribute
  | _, _ => Ret None
  end.

(** ** Evidence *)

Definition same_id (a b : pyval) : bool :=
  match a, b with
  | PStr x, PStr y => String.eqb x y
  | PInt x, PInt y => x =? y
  | _, _ => false
  end.

(** [sub[field] = ev.get(field, sub.get(field, dflt))] *)
Definition take_field (ev : row) (sub : row) (fd : string * pyval) : row :=
  dset (fst fd) (match dget (fst fd) ev with
                 | Some v => v
                 | None => default (snd fd) (dget (fst fd) sub)
                 end) sub.

Definition EVIDENCE_FIELDS : list (string * pyval) :=
  [("status", PStr "completed"); ("evidence", PStr ""); ("started_at", PNone); ("completed_at", PNone);
   ("token_cost", PFloat 0)].

(** The loop over the rows: the first row with the id is updated. *)
Fixpoint backfill_rows (task_id : pyval) (ev : row) (subs : list pyval) : outcome exn (list pyval * bool) :=
  match subs with
  | [] => Ret ([], false)
  | PDict sub :: subs' =>
      match dget "id" sub with
      | None => Raise key_error
      | Some i =>
          if same_id i task_id then Ret (PDict (fold_left (take_field ev) EVIDENCE_FIELDS sub) :: subs', true)
          else
            r ← backfill_rows task_id ev subs';
            Ret (PDict sub :: fst r, snd r)
      end
  | _ :: _ => Raise type_error
  end.

(** The loop over the files. *)
Fixpoint backfill_files (files : list EvidenceFile) (subs : list pyval) (updated : bool)
    : outcome exn (list pyval * bool) :=
  match files with
  | [] => Ret (subs, updated)
  | f :: files' =>
      match ef_payload f with
      | None => backfill_files files' subs updated
      | Some (PDict ev) =>
          match dget "id" ev with
          | None => backfill_files files' subs updated
          | Some i =>
              if truthy i then
                r ← backfill_rows i ev subs;
                backfill_files files' (fst r) (updated || snd r)
              else backfill_files files' subs updated
          end
      | Some _ => Raise no_attribute
      end
  end.

(** [ev_file.suffix == ".json"] *)
Definition json_name (name : string) : bool :=
  (5 <? String.length name)%nat && String.eqb (drop_str (String.length name - 5) name) ".json".

(** [_backfill_evidence], after a validation that found the list of rows *)
Definition backfill_evidence (s : Swarm) : outcome exn Swarm :=
  match sw_plan_file s with
  | Doc (PDict doc) =>
      let names := List.filter json_name (sort_ids (dkeys (sw_evidence s))) in
      let files := omap (fun n => dget n (sw_evidence s)) names in
      let subs := match dget "subtasks" doc with Some (PList l) => l | _ => [] end in
      match backfill_files files subs false with
      | Raise e => Raise e
      | Ret (subs', true) =>
          let payload := PDict (dset "subtasks" (PList subs') doc) in
          Ret (set_decomposition payload (set_plan_file (Doc payload) s))
      | Ret (_, false) => Ret s
      end
  | Doc _ => Raise no_attribute
  | _ => Ret s
  end.

(** ** The checkpoint *)

(** [status_by_id] *)
Fixpoint status_by_id (rows : list pyval) (m : dict string pyval) : outcome exn (dict string pyval) :=
  match rows with
  | [] => Ret m
  | PDict d :: rows' =>
      match dget "id" d with
      | None => Raise key_error
      | Some (PStr id) => status_by_id rows' (dset id (default (PStr "pending") (dget "status" d)) m)
      | Some (PList _) | Some (PDict _) => Raise type_error
      | Some _ => status_by_id rows' m
      end
  | _ :: _ => Raise type_error
  end.

Definition is_completed (m : dict string pyval) (id : string) : bool :=
  match dget id m with Some (PStr s) => String.eqb s "completed" | _ => false end.

(** The loop over the waves, from the index of the next one. *)
Fixpoint last_completed_wave (m : dict string pyval) (k last : Z) (waves : list (list string)) : Z :=
  match waves with
  | [] => last
  | w :: waves' => if forallb (is_completed m) w then last_completed_wave m (k + 1) k waves' else last
  end.

(** [_write_checkpoint] *)
Definition write_checkpoint (plan : TaskPlan) (s : Swarm) : outcome exn Swarm :=
  match sw_plan_file s with
  | Doc (PDict doc) =>
      rows ← loop_items (dget "subtasks" doc);
      m ← status_by_id rows [];
      Ret (set_checkpoint
             (Doc (PDict [("last_completed_wave", PInt (last_completed_wave m 0 (-1) (tp_waves plan)));
                          ("total_waves", PInt (Z.of_nat (length (tp_waves plan))));
                          ("total_subtasks", PInt (Z.of_nat (length (tp_subtasks plan))))])) s)
  | Doc _ => Raise no_attribute
  | _ => Ret s
  end.

(** ** One run *)

Section run.
Context (X : Text) (timestamp : string -> option Q).
Context (build_swarm_prompt : TaskPlan -> string).
(** The agent's run: any change of the session and the files. *)
Context (agent : M Swarm exn unit).

(** [CoordinatorModeRunner.run] *)
Definition coordinator_run : M Swarm exn unit := fun s =>
  let original := sw_coordinator_mode s in
  let (r, s') := agent (set_coordinator (Some true) s) in
  (r, set_coordinator original s').

Definition verification_failed (e : exn) : exn :=
  mkExn OtherException [Lit "VerificationFailed: Swarm execution evidence validation failed"] None.

(** The JSON value of the plan file, for [validate_task_execution]. *)
Definition plan_payload (s : Swarm) : option pyval :=
  match sw_plan_file s with Doc v => Some v | _ => None end.

Definition evidence_of (s : Swarm) (id : string) : option EvidenceFile := dget (id +:+ ".json") (sw_evidence s).

(** The [try] of [SwarmModeRunner.run]. *)
Definition swarm_body (plan : TaskPlan) : M Swarm exn unit := fun s =>
  match coordinator_run s with
  | (Raise e, s') => (Raise e, s')
  | (Ret _, s') =>
      if String.eqb (sw_status s') "completed" then
        match validate_task_execution X timestamp (evidence_of s') (plan_payload s') plan with
        | Raise e => (Raise (verification_failed e), s')
        | Ret _ =>
            match backfill_evidence s' with
            | Raise e => (Raise e, s')
            | Ret s'' => (Ret tt, s'')
            end
        end
      else (Ret tt, s')
  end.

(** [SwarmModeRunner.run] *)
Definition swarm_run (l : Limits) (title description : string) : M Swarm exn unit := fun s =>
  match resolve_or_resume s with
  | Raise e => (Raise e, s)
  | Ret resumed =>
      match (match resumed with Some plan => Ret (plan, s) | None =>
               plan ← decompose_issue l title description;
               Ret (plan, set_plan_file (Doc (plan_to_dict plan)) s)
             end) with
      | Raise e => (Raise e, s)
      | Ret (plan, s1) =>
          let s2 := set_decomposition (plan_to_dict plan) (set_evidence [] s1) in
          let s3 := set_prompt (Some (build_swarm_prompt plan)) (Some "swarm") s2 in
          let (r, s4) := swarm_body plan s3 in
          let s5 := set_prompt (sw_prompt_override s) (sw_run_kind s) s4 in
          match write_checkpoint plan s5 with
          | Raise e => (Raise e, s5)
          | Ret s6 => (r, s6)
          end
      end
  end.
End run.

(** ** Theorems *)

Lemma last_completed_wave_spec m k last waves :
  let n := last_completed_wave m k last waves in
  last = k - 1 ->
  k - 1 <= n < k + Z.of_nat (length waves)
  /\ (forall i w, waves !! i = Some w -> k + Z.of_nat i <= n -> forallb (is_completed m) w = true)
  /\ (forall i w, waves !! i = Some w -> k + Z.of_nat i = n + 1 -> forallb (is_completed m) w = false).
Proof.
  revert k last. induction waves as [|w waves IH]; intros k last; cbv zeta; intros ->; simpl.
  { split; [lia|]. split; intros i w Hi; by rewrite lookup_nil in Hi. }
  destruct (forallb (is_completed m) w) eqn:E.
  - specialize (IH (k + 1) k). cbv zeta in IH. destruct IH as (H1 & H2 & H3); [lia|].
    split; [lia|]. split.
    + intros [|i] w' Hi Hn; simpl in Hi; [by simplify_eq|]. eapply H2; [exact Hi|]. lia.
    + intros [|i] w' Hi Hn; simpl in Hi; [lia|]. eapply H3; [exact Hi|]. lia.
  - split; [lia|]. split.
    + intros i w' Hi Hn. lia.
    + intros [|i] w' Hi Hn; simpl in Hi; [by simplify_eq|lia].
Qed.

(** The checkpoint names the last wave of the longest completed prefix:
    every wave up to it has only completed tasks, and the wave after it, if
    there is one, has a task that is not completed. *)
Theorem checkpoint_is_longest_prefix (m : dict string pyval) (waves : list (list string)) :
  let n := last_completed_wave m 0 (-1) waves in
  -1 <= n < Z.of_nat (length waves)
  /\ (forall i w id, waves !! i = Some w -> Z.of_nat i <= n -> id ∈ w -> is_completed m id = true)
  /\ (forall i w, waves !! i = Some w -> Z.of_nat i = n + 1 ->
        exists id, id ∈ w /\ is_completed m id = false).
Proof.
  cbv zeta. destruct (last_completed_wave_spec m 0 (-1) waves) as (H1 & H2 & H3); [done|].
  split; [lia|]. split.
  - intros i w id Hi Hn Hid. specialize (H2 i w Hi ltac:(lia)). rewrite forallb_spec in H2. auto.
  - intros i w Hi Hn. specialize (H3 i w Hi ltac:(lia)).
    destruct (decide (Exists (fun id => is_completed m id = false) w)) as [Hex|Hno].
    + apply Exists_exists in Hex as (id & Hin & Hf). eauto.
    + apply not_true_iff_false in H3. exfalso. apply H3. rewrite forallb_spec. intros id Hid.
      destruct (is_completed m id) eqn:E; [done|]. exfalso. apply Hno, Exists_exists. eauto.
Qed.

Section swarm_facts.
Context (X : Text) (timestamp : string -> option Q) (prompt : TaskPlan -> string) (agent : M Swarm exn unit).

Lemma backfill_session s s' :
  backfill_evidence s = Ret s' -> sw_coordinator_mode s' = sw_coordinator_mode s.
Proof.
  unfold backfill_evidence. destruct (sw_plan_file s) as [| |[]]; try done; try by intros [= <-].
  cbv zeta. destruct (backfill_files _ _ _) as [[subs []]|]; try done; by intros [= <-].
Qed.

Lemma swarm_body_coordinator plan s :
  sw_coordinator_mode (snd (swarm_body X timestamp agent plan s)) = sw_coordinator_mode s.
Proof.
  unfold swarm_body, coordinator_run. destruct (agent _) as [[[]|e] s1]; simpl; [|done].
  destruct (String.eqb (sw_status s1) "completed"); [|done].
  destruct (validate_task_execution _ _ _ _ _); [|done].
  destruct (backfill_evidence _) as [s2|] eqn:E; [|done]. simpl. by rewrite (backfill_session _ _ E).
Qed.

Lemma write_checkpoint_session plan s s' :
  write_checkpoint plan s = Ret s' ->
  sw_prompt_override s' = sw_prompt_override s /\ sw_run_kind s' = sw_run_kind s
  /\ sw_coordinator_mode s' = sw_coordinator_mode s.
Proof.
  unfold write_checkpoint. destruct (sw_plan_file s) as [| |[]]; try done; try by intros [= <-].
  destruct (loop_items _) as [rows|]; [|done]. cbn [mbind outcome_bind].
  destruct (status_by_id rows []) as [m|]; [|done]. cbn [mbind outcome_bind]. by intros [= <-].
Qed.
End swarm_facts.

(** A swarm run leaves no trace in the session: whatever the agent does to
    it, whether the run returns or raises, the prompt override, the run kind and
    the coordinator mode are afterwards what they were before. *)
Theorem swarm_restores_session (X : Text) (timestamp : string -> option Q) (prompt : TaskPlan -> string)
    (agent : M Swarm exn unit) (l : Limits) (title description : string) (s : Swarm) :
  let s' := snd (swarm_run X timestamp prompt agent l title description s) in
  sw_prompt_override s' = sw_prompt_override s /\ sw_run_kind s' = sw_run_kind s
  /\ sw_coordinator_mode s' = sw_coordinator_mode s.
Proof.
  cbv zeta. unfold swarm_run. destruct (resolve_or_resume s) as [resumed|]; [|done].
  set (start := match resumed with Some _ => _ | None => _ end).
  assert (Hstart : forall plan s1, start = Ret (plan, s1) -> sw_coordinator_mode s1 = sw_coordinator_mode s).
  { intros plan s1. unfold start. destruct resumed; [by intros [= _ <-]|].
    destruct (decompose_issue l title description); [|done]. cbn [mbind outcome_bind]. by intros [= _ <-]. }
  destruct start as [[plan s1]|]; [|done]. specialize (Hstart plan s1 eq_refl). cbv zeta.
  set (s3 := set_prompt _ _ _). pose proof (swarm_body_coordinator X timestamp agent plan s3) as Hbody.
  destruct (swarm_body X timestamp agent plan s3) as [r s4]. simpl in Hbody.
  destruct (write_checkpoint plan _) as [s6|] eqn:E; simpl.
  - apply write_checkpoint_session in E as (-> & -> & ->). simpl. by rewrite Hbody.
  - by rewrite Hbody.
Qed.

(** *** The checkpoint blocks what it is meant to resume *)

Lemma rebuild_plan_raises payload plan : rebuild_plan payload <> Ret plan.
Proof.
  unfold rebuild_plan. destruct payload as [| | | | | | |doc|]; try done.
  destruct (loop_items (dget "waves" doc)); [|done]. cbn [mbind outcome_bind].
  destruct (map_outcome iterable _); [|done]. cbn [mbind outcome_bind].
  destruct (loop_items _); [|done]. cbn [mbind outcome_bind]. by destruct (map_outcome rebuild_row _).
Qed.

(** A swarm is never resumed.  No state of the files makes
    [_resolve_or_resume] return a plan, and when there is a plan and a
    checkpoint with a completed wave the run raises ([self.max_parallel] is no
    attribute of the runner) before the agent starts and changes nothing, so
    that every later run of the issue in that workspace raises again. *)
Theorem swarm_never_resumes (X : Text) (timestamp : string -> option Q) (prompt : TaskPlan -> string)
    (agent : M Swarm exn unit) (l : Limits) (title description : string) (s : Swarm)
    (payload : pyval) (checkpoint : dict string pyval) (n : Z) :
  sw_plan_file s = Doc payload -> sw_checkpoint s = Doc (PDict checkpoint) ->
  dget "last_completed_wave" checkpoint = Some (PInt n) -> 0 <= n ->
  (forall s' plan, resolve_or_resume s' <> Ret (Some plan))
  /\ exists e, swarm_run X timestamp prompt agent l title description s = (Raise e, s).
Proof.
  intros Hp Hc Hg Hn. split.
  - intros s' plan. unfold resolve_or_resume.
    destruct (sw_plan_file s'), (sw_checkpoint s') as [| |[]]; try done.
    destruct (below_zero _) as [[]|]; try done.
    destruct (rebuild_plan _) as [p|] eqn:E; [|done]. by apply rebuild_plan_raises in E.
  - unfold swarm_run, resolve_or_resume. rewrite Hp, Hc, Hg. cbn [default from_option id below_zero].
    simpl. rewrite (proj2 (Z.ltb_ge n 0)) by done.
    destruct (rebuild_plan payload) as [p|e] eqn:E; [by apply rebuild_plan_raises in E|]. simpl. eauto.
Qed.

(** A session whose agent does all three tasks and records the evidence. *)
Definition fresh_swarm : Swarm := mkSwarm None None None "running" None Missing Missing [].

Definition done_file (id : string) (t : Q) : string * EvidenceFile :=
  (id +:+ ".json",
   mkEvidence (Some (PDict [("id", PStr id); ("status", PStr "completed"); ("evidence", PStr "pytest: ok")])) t).

Definition diligent : M Swarm exn unit := fun s =>
  (Ret tt, mkSwarm (sw_prompt_override s) (sw_run_kind s) (sw_coordinator_mode s) "completed"
             (sw_decomposition s) (sw_plan_file s) (sw_checkpoint s)
             [done_file "task-1" 1; done_file "task-2" 2; done_file "task-3" 3]).

Definition first_run : outcome exn unit * Swarm :=
  swarm_run (sample_text PNone) (fun _ => None) (fun _ => "prompt") diligent (new_limits 8 3 6)
    "Fix login" "It fails" fresh_swarm.

(** The run succeeds; the next one of the same issue cannot start. *)
Lemma swarm_never_resumes_witness :
  fst first_run = Ret tt
  /\ exists e, swarm_run (sample_text PNone) (fun _ => None) (fun _ => "prompt") diligent (new_limits 8 3 6)
                 "Fix login" "It fails" (snd first_run) = (Raise e, snd first_run).
Proof.
  split; [by vm_compute|].
  refine (proj2 (swarm_never_resumes (sample_text PNone) (fun _ => None) (fun _ => "prompt") diligent
            (new_limits 8 3 6) "Fix login" "It fails" (snd first_run)
            (match sw_plan_file (snd first_run) with Doc v => v | _ => PNone end)
            (match sw_checkpoint (snd first_run) with Doc (PDict d) => d | _ => [] end) 2 _ _ _ _));
    [by vm_compute..|lia].
Defined.

(** *** Partial progress *)

Lemma status_pending tasks m :
  (forall id, is_completed m id = false) ->
  exists m', status_by_id (map subtask_to_dict tasks) m = Ret m' /\ forall id, is_completed m' id = false.
Proof.
  revert m. induction tasks as [|t tasks IH]; intros m Hm; simpl; [eauto|]. apply IH. intros id.
  unfold is_completed. rewrite dget_dset. case_decide; [done|]. apply Hm.
Qed.

Lemma fresh_plan_checkpoint plan s :
  tp_waves plan <> [] -> (forall w, w ∈ tp_waves plan -> w <> []) -> sw_plan_file s = Doc (plan_to_dict plan) ->
  exists s', write_checkpoint plan s = Ret s'
    /\ exists rest, sw_checkpoint s' = Doc (PDict (("last_completed_wave", PInt (-1)) :: rest)).
Proof.
  intros Hne Hw Hp. unfold write_checkpoint. rewrite Hp. simpl.
  destruct (status_pending (tp_subtasks plan) []) as (m & -> & Hm); [done|]. simpl.
  eexists. split; [done|]. simpl.
  destruct (tp_waves plan) as [|w ws]; [done|]. simpl.
  destruct w as [|id w]; [exfalso; apply (Hw []); [left|done]|]. simpl. rewrite Hm. simpl. eauto.
Qed.

(** Partial progress is never recorded.  The workers write only their files
    of evidence, as the prompt tells them, and these reach the plan only after
    a validation that needs every task completed: when a run that decomposed
    the issue ends in an exception or without completing, the checkpoint says
    that no wave is completed, however many tasks have evidence. *)
Theorem partial_progress_lost (X : Text) (timestamp : string -> option Q) (prompt : TaskPlan -> string)
    (agent : M Swarm exn unit) (subtasks parallel waves : Z) (title description : string) (s : Swarm) (plan : TaskPlan) :
  (forall s0, sw_plan_file (snd (agent s0)) = sw_plan_file s0) ->
  (forall s0, fst (agent s0) = Ret tt -> sw_status (snd (agent s0)) <> "completed") ->
  resolve_or_resume s = Ret None ->
  decompose_issue (new_limits subtasks parallel waves) title description = Ret plan ->
  exists rest, sw_checkpoint (snd (swarm_run X timestamp prompt agent
                                     (new_limits subtasks parallel waves) title description s))
               = Doc (PDict (("last_completed_wave", PInt (-1)) :: rest)).
Proof.
  intros Hfile Hstatus Hres Hdec. set (l := new_limits subtasks parallel waves) in *.
  destruct (seed_plan_waves l (strip title) (strip description)) as (plan' & Hseed & Hshape & Hw); [simpl; lia..|].
  assert (plan = plan') as <-.
  { unfold decompose_issue in Hdec. rewrite Hseed in Hdec. cbn [mbind outcome_bind] in Hdec.
    destruct (validate _ _ plan'); [|done]. cbn [mbind outcome_bind] in Hdec. congruence. }
  assert (Hne : tp_waves plan <> []).
  { intros E. pose proof (ps_cover _ _ _ Hshape) as Hc. rewrite E in Hc. simpl in Hc.
    apply Permutation_nil_l in Hc. apply (ps_nonempty _ _ _ Hshape). by destruct (tp_subtasks plan). }
  unfold swarm_run. rewrite Hres, Hdec. cbn [mbind outcome_bind]. cbv zeta.
  set (s3 := set_prompt _ _ _).
  assert (Hbody : sw_plan_file (snd (swarm_body X timestamp agent plan s3)) = Doc (plan_to_dict plan)).
  { unfold swarm_body, coordinator_run.
    specialize (Hfile (set_coordinator (Some true) s3)). specialize (Hstatus (set_coordinator (Some true) s3)).
    destruct (agent _) as [[[]|e] s4]; simpl in *; [|done].
    destruct (String.eqb_spec (sw_status s4) "completed") as [E|]; [by apply Hstatus in E|done]. }
  destruct (swarm_body X timestamp agent plan s3) as [r s4]. simpl in Hbody.
  destruct (fresh_plan_checkpoint plan (set_prompt (sw_prompt_override s) (sw_run_kind s) s4) Hne Hw Hbody)
    as (s6 & -> & Hck). done.
Qed.

(** An agent that does the first task and fails. *)
Definition interrupted : M Swarm exn unit := fun s =>
  (Raise (py_error "crash"), set_evidence [done_file "task-1" 1] s).

Lemma partial_progress_lost_witness :
  exists rest, sw_checkpoint (snd (swarm_run (sample_text PNone) (fun _ => None) (fun _ => "prompt") interrupted
                                     (new_limits 8 3 6) "Fix login" "It fails" fresh_swarm))
               = Doc (PDict (("last_completed_wave", PInt (-1)) :: rest)).
Proof.
  refine (partial_progress_lost (sample_text PNone) (fun _ => None) (fun _ => "prompt") interrupted 8 3 6
            "Fix login" "It fails" fresh_swarm
            (match decompose_issue (new_limits 8 3 6) "Fix login" "It fails" with
             | Ret p => p | Raise _ => mkTaskPlan "" [] [] 0 end) _ _ _ _);
    [done|done|by vm_compute|by vm_compute].
Defined.
