(* ===== verification/LocalTracker.v ===== *)
(** * The local tracker ([src/orchestratord/local_tracker/parser.py],
    [adapter.py], [title_prefix_filter.py])

    Issues as markdown files with YAML front matter, comments as a log of JSON
    lines.  Parameters: the YAML codec, [repr] and JSON ([Text]), the digest in
    the names of the comment logs, the clock and [uuid4].  White space is
    ASCII's; the two date fields of an issue are left out, nothing of the
    tracker reads them. *)

From S2P Require Import Prelude Errors Dag StageRunner Intent Regex ClarModel ClarResolver TaskPlan.

Open Scope string_scope.
Open Scope list_scope.
Open Scope Z_scope.

Record LocalIssue := mkLocalIssue {
  li_id : string;
  li_identifier : string;
  li_title : string;
  li_description : string;
  li_priority : option Z;
  li_state : option string;
  li_branch_name : string;
  li_url : string;
  li_assignee_id : option string;
  li_depends_on : list string;
  li_labels : list string;
  li_python_executable : string;
}.

Record LocalIssueDocument := mkDocument {
  doc_stem : string;
  doc_metadata : dict string pyval;
  doc_body : string;
  doc_issue : LocalIssue;
  doc_pr_number : option string;
  doc_pr_url : option string;
  doc_base_branch : option string;
}.

Record PullRequestRef := mkPullRequestRef {
  pr_number : option string;
  pr_url : option string;
  pr_title : option string;
}.

(** [yaml.safe_load] ([None] is a [YAMLError]) and [yaml.safe_dump] *)
Record Yaml := mkYaml {
  safe_load : string -> option pyval;
  safe_dump : dict string pyval -> string;
}.

(** ** Front matter *)

Fixpoint all_dashes (s : string) : bool :=
  match s with
  | EmptyString => true
  | String c s' => byte_is 45 c && all_dashes s'
  end.

(** [_FRONTMATTER_DELIMITER_RE], on a line without its break *)
Definition is_delimiter_line (line : string) : bool :=
  let core := strip line in (2 <=? String.length core)%nat && all_dashes core.

(** A line of [splitlines(keepends=True)] without its break. *)
Definition bare_line (line : string) : string :=
  match splitlines line with l :: _ => l | [] => "" end.

Definition delimits (line : string) : bool := is_delimiter_line (bare_line line).

(** The lines before the closing delimiter, and those after it. *)
Fixpoint until_delimiter (lines : list string) : option (list string * list string) :=
  match lines with
  | [] => None
  | l :: lines' =>
      if delimits l then Some ([], lines')
      else
        match until_delimiter lines' with
        | Some (a, b) => Some (l :: a, b)
        | None => None
        end
  end.

(** [_find_frontmatter]: the lines between the delimiters and the body. *)
Definition find_frontmatter (lines : list string) : option (list string * list string) :=
  match lines with
  | l :: lines' => if delimits l then until_delimiter lines' else None
  | [] => None
  end.

Definition join (l : list string) : string := foldr (fun a b => a +:+ b) "" l.

(** [_split_frontmatter] *)
Definition split_frontmatter (Y : Yaml) (text : string) : dict string pyval * string :=
  match find_frontmatter (splitlines_keep text) with
  | None => ([], text)
  | Some (between, after) =>
      let raw := join between in
      if String.eqb (strip raw) "" then ([], join after)
      else
        match safe_load Y raw with
        | None => ([], text)
        | Some (PDict metadata) => (metadata, join after)
        | Some _ => ([], join after)
        end
  end.

(** [metadata.update(...)] without the [None] values *)
Definition merge_updates (metadata updates : dict string pyval) : dict string pyval :=
  fold_left (fun m kv => match snd kv with PNone => m | v => dset (fst kv) v m end) updates metadata.

(** [write_markdown_frontmatter]: the new text of a file. *)
Definition write_frontmatter (Y : Yaml) (text : string) (updates : dict string pyval) : string :=
  let (metadata, body) := split_frontmatter Y text in
  let serialized := strip (safe_dump Y (merge_updates metadata updates)) in
  "---" +:+ lf +:+ serialized +:+ lf +:+ "---" +:+ lf +:+ body.

(** ** Fields *)

Definition string_or_none (X : Text) (v : option pyval) : option string :=
  match v with
  | None | Some PNone => None
  | Some v => let text := strip (py_str X v) in if String.eqb text "" then None else Some text
  end.

(** [int(s)] on ASCII text: a sign, then digits that may be separated by single
    underscores. *)
Fixpoint int_digits (s : string) (acc : Z) (after_digit : bool) : option Z :=
  match s with
  | EmptyString => if after_digit then Some acc else None
  | String c s' =>
      if is_digit c then int_digits s' (acc * 10 + digit_value c) true
      else if byte_is 95 c && after_digit then int_digits s' acc false
      else None
  end.

Definition parse_int (s : string) : option Z :=
  match s with
  | String c s' =>
      if byte_is 45 c then Z.opp <$> int_digits s' 0 false
      else if byte_is 43 c then int_digits s' 0 false
      else int_digits s 0 false
  | EmptyString => None
  end.

Definition int_or_none (v : option pyval) : option Z :=
  match v with
  | Some (PInt z) => Some z
  | Some (PStr s) => parse_int (strip s)
  | _ => None
  end.

Definition string_list (X : Text) (v : option pyval) : list string :=
  match v with
  | Some (PStr s) => [s]
  | Some (PList l) => map (py_str X) (List.filter (fun x => match x with PNone => false | _ => true end) l)
  | _ => []
  end.

(** ** Title *)

(** [r+?] *)
Fixpoint rx_lazy (fuel : nat) (r : rx) : rx := fun p =>
  match fuel with
  | O => []
  | S fuel' => flat_map (fun e => e :: rx_lazy fuel' r e) (r p)
  end.

(** [^] and [$] of a multi-line pattern *)
Definition line_start : rx := fun p =>
  match fst p with None => [p] | Some c => if byte_is 10 c then [p] else [] end.
Definition line_end : rx := fun p =>
  match snd p with EmptyString => [p] | String c _ => if byte_is 10 c then [p] else [] end.

(** [re.search(r"^#\s+(.+?)\s*$", body, re.MULTILINE)]: the group, the text
    before the match and the text after it. *)
Fixpoint search_heading (prev : option Ascii.ascii) (before s : string) : option (string * string * string) :=
  let n := String.length s in
  match match_group (rx_seq line_start (rx_seq (rx_exact "#") rx_spaces))
          (rx_lazy n (rx_class (fun c => negb (byte_is 10 c))))
          (rx_seq (rx_opt rx_spaces) line_end) (prev, s) with
  | Some (title, e) => Some (title, before, snd e)
  | None =>
      match s with
      | EmptyString => None
      | String c s' => search_heading (Some c) (before +:+ one c) s'
      end
  end.

(** [_title_and_description] *)
Definition title_and_description (X : Text) (stem : string) (metadata : dict string pyval) (body : string)
    : string * string :=
  match string_or_none X (dget "title" metadata) with
  | Some t => (t, strip body)
  | None =>
      match search_heading None "" body with
      | None => (stem, strip body)
      | Some (t, before, after) => (strip t, strip (before +:+ after))
      end
  end.

(** ** Branch names *)

Definition is_slug_char (c : Ascii.ascii) : bool :=
  let n := Ascii.N_of_ascii c in
  ((48 <=? n)%N && (n <=? 57)%N) || ((65 <=? n)%N && (n <=? 90)%N) || ((97 <=? n)%N && (n <=? 122)%N)
  || byte_is 46 c || byte_is 95 c || byte_is 45 c.

(** [re.sub(r"[^A-Za-z0-9._-]+", "-", s)]; [inside] is true behind a byte of the
    run that is being replaced. *)
Fixpoint replace_runs (inside : bool) (s : string) : string :=
  match s with
  | EmptyString => EmptyString
  | String c s' =>
      if is_slug_char c then String c (replace_runs false s')
      else if inside then replace_runs true s'
      else String (Ascii.ascii_of_N 45) (replace_runs true s')
  end.

(** [re.sub(r"-+", "-", s)] *)
Fixpoint squeeze_dashes (inside : bool) (s : string) : string :=
  match s with
  | EmptyString => EmptyString
  | String c s' =>
      if byte_is 45 c then if inside then squeeze_dashes true s' else String c (squeeze_dashes true s')
      else String c (squeeze_dashes false s')
  end.

Definition is_edge (c : Ascii.ascii) : bool := byte_is 45 c || byte_is 46 c || byte_is 95 c.

(** [s.strip("-._")] *)
Fixpoint ltrim (s : string) : string :=
  match s with
  | EmptyString => EmptyString
  | String c s' => if is_edge c then ltrim s' else s
  end.

Fixpoint rtrim (s : string) : string :=
  match s with
  | EmptyString => EmptyString
  | String c s' =>
      match rtrim s' with
      | EmptyString => if is_edge c then EmptyString else String c EmptyString
      | t => String c t
      end
  end.

Definition trim_edges (s : string) : string := rtrim (ltrim s).

Definition nonempty_or (s dflt : string) : string := if String.eqb s "" then dflt else s.

Definition slugify (value : string) : string :=
  nonempty_or (trim_edges (squeeze_dashes false (replace_runs false (lower (strip value))))) "issue".

Definition default_branch_name (identifier title : string) : string :=
  "local/" +:+ take_str 48 (slugify (identifier +:+ "-" +:+ title)).

(** [_safe_file_stem], with the first twelve digits of the digest *)
Definition safe_file_stem (digest : string -> string) (value : string) : string :=
  nonempty_or (trim_edges (replace_runs false (strip value))) "issue" +:+ "-" +:+ take_str 12 (digest value).

(** ** Documents *)

Section tracker.
Context (Y : Yaml) (X : Text).

(** [parse_markdown_issue]; [dir] is the directory of the issues. *)
Definition parse_markdown_issue (dir name text : string) : LocalIssueDocument :=
  let stem := take_str (String.length name - 3) name in
  let (metadata, body) := split_frontmatter Y text in
  let field k := string_or_none X (dget k metadata) in
  let (title, description) := title_and_description X stem metadata body in
  let issue_id := default (default stem (field "identifier")) (field "id") in
  let identifier := default issue_id (field "identifier") in
  mkDocument stem metadata body
    (mkLocalIssue issue_id identifier title description (int_or_none (dget "priority" metadata))
       (field "state") (default (default_branch_name identifier title) (field "branch_name"))
       (default (dir +:+ "/" +:+ name) (field "url")) (field "assignee_id")
       (string_list X (dget "depends_on" metadata)) (string_list X (dget "labels" metadata))
       (default "" (field "python_executable")))
    (field "pr_number") (field "pr_url") (field "base_branch").

(** The directory: the texts of the files by name. *)
Record Tracker := mkTracker {
  tr_dir : string;
  tr_files : dict string string;
  tr_comments : dict string string;
}.

Definition ends_with (suffix s : string) : bool :=
  (String.length suffix <=? String.length s)%nat
  && String.eqb (drop_str (String.length s - String.length suffix) s) suffix.

(** [_is_ignored_issue_path] *)
Definition is_ignored_issue_path (name : string) : bool :=
  match name with String c _ => byte_is 46 c | EmptyString => false end
  || ends_with ".tmp" name || ends_with ".comments.md" name || contains ".comments." name.

Definition issue_names (t : Tracker) : list string :=
  List.filter (fun n => ends_with ".md" n && negb (is_ignored_issue_path n)) (sort_ids (dkeys (tr_files t))).

Definition file_text (t : Tracker) (name : string) : string := default "" (dget name (tr_files t)).

(** [_load_documents], each with the name of its file *)
Definition load_documents (t : Tracker) : list (string * LocalIssueDocument) :=
  map (fun n => (n, parse_markdown_issue (tr_dir t) n (file_text t n))) (issue_names t).

Definition has_id (issue_id : string) (d : string * LocalIssueDocument) : bool :=
  String.eqb (li_id (doc_issue (snd d))) issue_id || String.eqb (li_identifier (doc_issue (snd d))) issue_id.

(** [_document_for_issue]; [None] is the [FileNotFoundError]. *)
Definition document_for_issue (t : Tracker) (issue_id : string) : option (string * LocalIssueDocument) :=
  find (has_id issue_id) (load_documents t).

(** [write_markdown_frontmatter(document.path, updates)] *)
Definition update_file (t : Tracker) (name : string) (updates : dict string pyval) : Tracker :=
  mkTracker (tr_dir t) (dset name (write_frontmatter Y (file_text t name) updates) (tr_files t)) (tr_comments t).

Definition not_found : exn := mkExn OtherException [Lit "FileNotFoundError: Local issue not found"] None.

(** [update_issue_state] *)
Definition update_issue_state (now : string) (issue_id state : string) (t : Tracker) : outcome exn Tracker :=
  match document_for_issue t issue_id with
  | None => Raise not_found
  | Some (name, _) => Ret (update_file t name [("state", PStr state); ("updated_at", PStr now)])
  end.

(** [add_label], [remove_label] *)
Definition add_label (now issue_id label : string) (t : Tracker) : bool * Tracker :=
  match document_for_issue t issue_id with
  | None => (false, t)
  | Some (name, d) =>
      let existing := li_labels (doc_issue d) in
      if mem label existing then (true, t)
      else (true, update_file t name
                    [("labels", PList (map PStr (existing ++ [label]))); ("updated_at", PStr now)])
  end.

Definition remove_label (now issue_id label : string) (t : Tracker) : bool * Tracker :=
  match document_for_issue t issue_id with
  | None => (false, t)
  | Some (name, d) =>
      let existing := li_labels (doc_issue d) in
      if mem label existing then
        (true, update_file t name
                 [("labels", PList (map PStr (remove_first label existing))); ("updated_at", PStr now)])
      else (true, t)
  end.

(** [find_pull_request] *)
Definition find_pull_request (head base : string) (t : Tracker) : option PullRequestRef :=
  let matches (d : string * LocalIssueDocument) :=
    String.eqb (li_branch_name (doc_issue (snd d))) head
    && match doc_base_branch (snd d) with Some b => String.eqb b base | None => true end
    && is_some (doc_pr_url (snd d)) in
  match find matches (load_documents t) with
  | None => None
  | Some (_, d) =>
      Some (mkPullRequestRef (doc_pr_number d) (doc_pr_url d)
              (string_or_none X (dget "pr_title" (doc_metadata d))))
  end.

(** [ensure_pull_request], for an issue with an id *)
Definition ensure_pull_request (issue_id head base title : string) (t : Tracker)
    : outcome exn (option PullRequestRef * Tracker) :=
  match document_for_issue t issue_id with
  | None => Raise not_found
  | Some (name, _) =>
      let t' := update_file t name
                  [("branch_name", PStr head); ("base_branch", PStr base); ("pr_title", PStr title)] in
      Ret (find_pull_request head base t', t')
  end.

(** ** Candidates *)

(** [matches_title_prefixes] *)
Definition matches_title_prefixes (title : string) (prefixes : list string) (mode : string) : bool :=
  match prefixes with
  | [] => true
  | _ =>
      let checks := map (fun p => String.prefix p title) prefixes in
      if String.eqb mode "all" then forallb (fun b => b) checks else existsb (fun b => b) checks
  end.

Definition normalize_state (s : string) : string := lower (strip s).

(** [_normalize_states] *)
Definition normalize_states (l : list string) : list string :=
  List.filter (fun s => negb (String.eqb s "")) (map normalize_state l).

(** The sort key of a candidate: those without priority last, then the priority,
    then the identifier. *)
Definition candidate_le (a b : LocalIssue) : bool :=
  let pa := default 0 (li_priority a) in
  let pb := default 0 (li_priority b) in
  match li_priority a, li_priority b with
  | Some _, None => true
  | None, Some _ => false
  | _, _ => (pa <? pb) || ((pa =? pb) && String.leb (li_identifier a) (li_identifier b))
  end.

Fixpoint insert_candidate (x : LocalIssue) (l : list LocalIssue) : list LocalIssue :=
  match l with
  | [] => [x]
  | y :: l' => if candidate_le x y then x :: l else y :: insert_candidate x l'
  end.

(** [fetch_candidate_issues] *)
Definition fetch_candidate_issues (active prefixes : list string) (mode : string) (t : Tracker) : list LocalIssue :=
  let keep (i : LocalIssue) :=
    mem (normalize_state (default "open" (li_state i))) (normalize_states active)
    && matches_title_prefixes (li_title i) prefixes mode in
  foldr insert_candidate [] (List.filter keep (map (fun d => doc_issue (snd d)) (load_documents t))).

(** [fetch_issue_states_by_ids] *)
Definition fetch_issue_states_by_ids (ids : list string) (t : Tracker) : dict string LocalIssue :=
  fold_left (fun m d => let i := doc_issue (snd d) in if mem (li_id i) ids then dset (li_id i) i m else m)
    (load_documents t) [].

(** ** Comments *)

Context (digest : string -> string).

Definition comments_path (issue_id : string) : string := safe_file_stem digest issue_id.

Definition comment_payload (id body author created updated : string) : pyval :=
  PDict [("id", PStr id); ("body", PStr body); ("author_login", PStr author);
         ("created_at", PStr created); ("updated_at", PStr updated)].

(** [_append_comment] *)
Definition append_comment (uuid now issue_id body : string) (t : Tracker) : Comment * Tracker :=
  let path := comments_path issue_id in
  let line := json_dumps X (comment_payload uuid body "orchestratord" now now) +:+ lf in
  (mkComment (Some uuid) (Some body) (Some "orchestratord") (Some now),
   mkTracker (tr_dir t) (tr_files t)
     (dset path (default "" (dget path (tr_comments t)) +:+ line) (tr_comments t))).

(** [create_clarification_comment] *)
Definition clarification_body (mentions : list string) (body : string) : string :=
  let prefix := String.concat " " (map (fun m => "@" +:+ m) mentions) in
  if String.eqb prefix "" then body else strip (prefix +:+ lf +:+ lf +:+ body).

Definition create_clarification_comment (uuid now issue_id body : string) (mentions : list string) (t : Tracker) :
    Comment * Tracker := append_comment uuid now issue_id (clarification_body mentions body) t.

(** The comment of a row of the log; JSON that is no object is an
    [AttributeError], [inr]. *)
Definition comment_of (payload : pyval) : option Comment :=
  match payload with
  | PDict d =>
      let field k := string_or_none X (dget k d) in
      Some (mkComment (field "id") (field "body") (field "author_login") (field "created_at"))
  | _ => None
  end.

Definition bad_payload : exn := mkExn OtherException [Lit "AttributeError"] None.

Fixpoint read_comments (lines : list string) : outcome exn (list Comment) :=
  match lines with
  | [] => Ret []
  | l :: lines' =>
      if String.eqb (strip l) "" then read_comments lines'
      else
        match json_loads X l with
        | None => read_comments lines'
        | Some payload =>
            match comment_of payload with
            | None => Raise bad_payload
            | Some c => rest ← read_comments lines'; Ret (c :: rest)
            end
        end
  end.

(** [fetch_issue_comments] *)
Definition fetch_issue_comments (issue_id : string) (t : Tracker) : outcome exn (list Comment) :=
  match dget (comments_path issue_id) (tr_comments t) with
  | None => Ret []
  | Some text => read_comments (splitlines text)
  end.

Fixpoint after_cursor (cursor : string) (l : list Comment) : option (list Comment) :=
  match l with
  | [] => None
  | c :: l' => if bool_decide (c_id c = Some cursor) then Some l' else after_cursor cursor l'
  end.

(** [fetch_new_comments_since] *)
Definition fetch_new_comments_since (issue_id : string) (since : option string) (t : Tracker)
    : outcome exn (list Comment) :=
  comments ← fetch_issue_comments issue_id t;
  Ret (match since with
       | None => comments
       | Some cursor => default comments (after_cursor cursor comments)
       end).

(** [fetch_issue_command_intent]: the command and the comment it is in. *)
Definition fetch_issue_command_intent (issue_id : string) (since : option string) (t : Tracker)
    : outcome exn (option (Command * Comment)) :=
  comments ← fetch_new_comments_since issue_id since t;
  Ret ((fix scan (l : list Comment) := match l with
        | [] => None
        | c :: l' => match parse_agent_command (default "" (c_body c)) with
                     | Some cmd => Some (cmd, c)
                     | None => scan l'
                     end
        end) comments).

(** [update_comment]: the loop over the log's lines. *)
Fixpoint rewrite_lines (comment_id body now : string) (lines : list string)
    : outcome exn (list string * option Comment) :=
  match lines with
  | [] => Ret ([], None)
  | l :: lines' =>
      if String.eqb (strip l) "" then rewrite_lines comment_id body now lines'
      else
        match json_loads X l with
        | None => r ← rewrite_lines comment_id body now lines'; Ret (l :: fst r, snd r)
        | Some (PDict d) =>
            let hit := String.eqb (py_str X (default PNone (dget "id" d))) comment_id in
            let d' := if hit then dset "updated_at" (PStr now) (dset "body" (PStr body) d) else d in
            r ← rewrite_lines comment_id body now lines';
            Ret (json_dumps X (PDict d') :: fst r,
                 match snd r with Some c => Some c | None => if hit then comment_of (PDict d') else None end)
        | Some _ => Raise bad_payload
        end
  end.

Definition update_comment (now issue_id comment_id body : string) (t : Tracker)
    : outcome exn (option Comment * Tracker) :=
  match dget (comments_path issue_id) (tr_comments t) with
  | None => Ret (None, t)
  | Some text =>
      r ← rewrite_lines comment_id body now (splitlines text);
      Ret (match snd r with
           | None => (None, t)
           | Some c => (Some c, mkTracker (tr_dir t) (tr_files t)
                                  (dset (comments_path issue_id) (String.concat lf (fst r) +:+ lf) (tr_comments t)))
           end)
  end.
End tracker.
