(* ===== verification/LocalTrackerFacts.v ===== *)
(** * Correctness of the local tracker

    Front matter survives its rewriting, updates of an issue take effect and
    leave the rest alone, and what happens to the log of comments. *)

From S2P Require Import Prelude Errors Dag StageRunner Intent Regex ClarModel ClarResolver TaskPlan TaskPlanFacts LocalTracker.

Open Scope string_scope.
Open Scope list_scope.
Open Scope Z_scope.

(** ** Lines of a text *)

Lemma append_one cur c s : (cur +:+ one c) +:+ s = cur +:+ String c s.
Proof. by rewrite append_assoc. Qed.

Lemma join_app a b : join (a ++ b) = join a +:+ join b.
Proof. induction a as [|x a IH]; [done|]. simpl. by rewrite IH, append_assoc. Qed.

Lemma join_split_aux n s cur : (String.length s <= n)%nat -> join (split_from true cur s) = cur +:+ s.
Proof.
  revert s cur. induction n as [|n IH]; intros s cur Hn.
  { destruct s; [|simpl in Hn; lia]. simpl. destruct (String.eqb_spec cur ""); [by subst|done]. }
  destruct s as [|c s]; [simpl; destruct (String.eqb_spec cur ""); [by subst|done]|]. simpl in Hn.
  rewrite split_from_cons. cbv zeta.
  assert (H1 := fun cur => IH s cur ltac:(lia)).
  destruct s as [|d s]; [destruct (is_line_break c); [apply append_nil_r|rewrite H1; by rewrite append_one]|].
  assert (H2 := fun cur => IH s cur ltac:(simpl in Hn; lia)).
  destruct (is_line_break c).
  - destruct (byte_is 13 c && byte_is 10 d); cbn [join foldr]; fold (join (split_from true "" s));
      [|fold (join (split_from true "" (String d s)))]; rewrite ?H1, ?H2, append_assoc; done.
  - destruct (byte_is 194 c && byte_is 133 d).
    { cbn [join foldr]. fold (join (split_from true "" s)). by rewrite H2, append_assoc. }
    destruct s as [|e s]; [by rewrite H1, append_one|].
    assert (H3 := IH s "" ltac:(simpl in Hn; lia)).
    destruct (byte_is 226 c && byte_is 128 d && _).
    + cbn [join foldr]. fold (join (split_from true "" s)). by rewrite H3, append_assoc.
    + by rewrite H1, append_one.
Qed.

Lemma join_splitlines_keep s : join (splitlines_keep s) = s.
Proof. by apply (join_split_aux (String.length s)). Qed.

Lemma until_delimiter_app a d b :
  Forall (fun l => delimits l = false) a -> delimits d = true -> until_delimiter (a ++ d :: b) = Some (a, b).
Proof. intros Ha Hd. induction Ha as [|l a Hl Ha IH]; simpl; [by rewrite Hd|]. by rewrite Hl, IH. Qed.

(** ** Front matter *)

(** What is asked of the YAML of a dictionary: it is not blank, has no line of
    dashes alone, and is read back. *)
Record yaml_ok (Y : Yaml) (m : dict string pyval) : Prop := mkYamlOk {
  yo_text : strip (safe_dump Y m) <> "";
  yo_lines : Forall (fun l => delimits l = false) (splitlines_keep (strip (safe_dump Y m) +:+ lf));
  yo_load : safe_load Y (strip (safe_dump Y m) +:+ lf) = Some (PDict m);
}.

Lemma rstrip_cons_nonspace c s : is_space c = false -> exists t, rstrip (String c s) = String c t.
Proof. intros Hc. simpl. destruct (rstrip s); [rewrite Hc|]; eauto. Qed.

Lemma strip_nonempty_head x : strip x <> "" -> exists c t, strip x = String c t /\ is_space c = false.
Proof.
  unfold strip. destruct (lstrip_head x) as [->|(c & t & -> & Hc)]; [done|]. intros _.
  destruct (rstrip_cons_nonspace c t Hc) as [t' ->]. eauto.
Qed.

Lemma strip_head_nonempty c t : is_space c = false -> strip (String c t) <> "".
Proof.
  intros Hc. unfold strip. assert (E : lstrip (String c t) = String c t) by (simpl; by rewrite Hc).
  rewrite E. by destruct (rstrip_cons_nonspace c t Hc) as [t' ->].
Qed.

Lemma split_written Y m body :
  yaml_ok Y m ->
  split_frontmatter Y ("---" +:+ lf +:+ strip (safe_dump Y m) +:+ lf +:+ "---" +:+ lf +:+ body) = (m, body).
Proof.
  intros [Htext Hlines Hload]. set (s := strip (safe_dump Y m)) in *. unfold split_frontmatter.
  assert (E : splitlines_keep ("---" +:+ lf +:+ s +:+ lf +:+ "---" +:+ lf +:+ body)
              = ("---" +:+ lf) :: splitlines_keep (s +:+ lf) ++ ("---" +:+ lf) :: splitlines_keep body).
  { unfold splitlines_keep. rewrite (split_from_lf true "---"), (split_from_lf true s), (split_from_lf true "---").
    done. }
  rewrite E. cbn [find_frontmatter].
  assert (Hd : delimits ("---" +:+ lf) = true) by by vm_compute.
  rewrite Hd, until_delimiter_app by done. cbv zeta. rewrite !join_splitlines_keep.
  destruct (strip_nonempty_head _ Htext) as (c & t & Hs & Hc). fold s in Hs.
  destruct (String.eqb_spec (strip (s +:+ lf)) "") as [Eb|_].
  { exfalso. rewrite Hs in Eb. by apply (strip_head_nonempty c (t +:+ lf)) in Eb. }
  by rewrite Hload.
Qed.

(** ** Updates of an issue *)

Lemma merge_updates_other m updates k :
  (forall v, (k, v) ∉ updates) -> dget k (merge_updates m updates) = dget k m.
Proof.
  unfold merge_updates. revert m. induction updates as [|[k' v'] u IH]; intros m H; simpl; [done|].
  rewrite IH by set_solver. destruct v'; try done; apply dget_dset_ne; intros ->;
    (eapply H; left).
Qed.

Section update.
Context (Y : Yaml) (X : Text).

Local Abbreviation meta t name := (fst (split_frontmatter Y (file_text t name))).
Local Abbreviation body t name := (snd (split_frontmatter Y (file_text t name))).

Lemma update_file_split t name updates :
  yaml_ok Y (merge_updates (meta t name) updates) ->
  split_frontmatter Y (file_text (update_file Y t name updates) name)
  = (merge_updates (meta t name) updates, body t name).
Proof.
  intros Hok. unfold file_text at 1, update_file. simpl. rewrite dget_dset_eq. simpl.
  unfold write_frontmatter. destruct (split_frontmatter Y (file_text t name)) as [m b]. simpl in *.
  by apply split_written.
Qed.

Lemma update_file_other t name updates n :
  n <> name -> file_text (update_file Y t name updates) n = file_text t n.
Proof. intros Hn. unfold file_text, update_file. simpl. by rewrite dget_dset_ne. Qed.

Lemma issue_names_keys t n : n ∈ issue_names t -> n ∈ dkeys (tr_files t).
Proof.
  unfold issue_names. rewrite list_elem_of_In, filter_In, <- list_elem_of_In. intros [H _].
  by rewrite sort_ids_perm in H.
Qed.

Lemma update_file_names t name updates :
  name ∈ issue_names t -> issue_names (update_file Y t name updates) = issue_names t.
Proof.
  intros Hin. unfold issue_names, update_file. simpl. rewrite dkeys_dset.
  apply issue_names_keys, dget_Some_keys in Hin as [v Hv]. unfold dmem. by rewrite Hv.
Qed.

(** The id and the identifier of a parsed file. *)
Lemma parse_ids dir n text text' :
  (forall k, k = "id" \/ k = "identifier" ->
     dget k (fst (split_frontmatter Y text)) = dget k (fst (split_frontmatter Y text'))) ->
  li_id (doc_issue (parse_markdown_issue Y X dir n text)) = li_id (doc_issue (parse_markdown_issue Y X dir n text'))
  /\ li_identifier (doc_issue (parse_markdown_issue Y X dir n text))
     = li_identifier (doc_issue (parse_markdown_issue Y X dir n text')).
Proof.
  intros H. pose proof (H "id" (or_introl eq_refl)) as H1. pose proof (H "identifier" (or_intror eq_refl)) as H2.
  unfold parse_markdown_issue. destruct (split_frontmatter Y text) as [m b], (split_frontmatter Y text') as [m' b'].
  simpl in *. rewrite H1, H2.
  destruct (title_and_description X _ m b), (title_and_description X _ m' b'). done.
Qed.

Lemma document_for_issue_some t id name d :
  document_for_issue Y X t id = Some (name, d) ->
  name ∈ issue_names t /\ d = parse_markdown_issue Y X (tr_dir t) name (file_text t name).
Proof.
  unfold document_for_issue. intros [Hin _]%find_some. apply list_elem_of_In in Hin.
  unfold load_documents in Hin. apply list_elem_of_fmap in Hin as (n & [= -> ->] & Hn). done.
Qed.

Lemma find_map_same {A} (f g : string -> A) (P : string * A -> bool) names :
  (forall n, n ∈ names -> P (n, f n) = P (n, g n)) ->
  find P (map (fun n => (n, g n)) names)
  = (fun x => (fst x, g (fst x))) <$> find P (map (fun n => (n, f n)) names).
Proof.
  induction names as [|n names IH]; intros H; simpl; [done|].
  rewrite (H n) by left. destruct (P (n, g n)); [done|]. apply IH. intros m Hm. apply H. by right.
Qed.

(** An update of the front matter that keeps the ids is seen by whoever looks
    the issue up again. *)
Lemma update_file_document t id name d updates :
  document_for_issue Y X t id = Some (name, d) ->
  (forall v, ("id", v) ∉ updates) -> (forall v, ("identifier", v) ∉ updates) ->
  yaml_ok Y (merge_updates (doc_metadata d) updates) ->
  document_for_issue Y X (update_file Y t name updates) id
  = Some (name, parse_markdown_issue Y X (tr_dir t) name (file_text (update_file Y t name updates) name))
  /\ split_frontmatter Y (file_text (update_file Y t name updates) name)
     = (merge_updates (doc_metadata d) updates, doc_body d).
Proof.
  intros Hd Hid Hident Hok. pose proof (document_for_issue_some _ _ _ _ Hd) as [Hn ->].
  assert (Hm : doc_metadata (parse_markdown_issue Y X (tr_dir t) name (file_text t name)) = meta t name
               /\ doc_body (parse_markdown_issue Y X (tr_dir t) name (file_text t name)) = body t name).
  { unfold parse_markdown_issue. destruct (split_frontmatter Y (file_text t name)) as [m b].
    by destruct (title_and_description X _ m b). }
  destruct Hm as [Hm Hb]. rewrite Hm in Hok |- *. rewrite Hb.
  assert (Hsplit := update_file_split t name updates Hok). split; [|done].
  unfold document_for_issue, load_documents in *. rewrite update_file_names by done.
  rewrite (find_map_same (fun n => parse_markdown_issue Y X (tr_dir t) n (file_text t n))).
  - rewrite Hd. done.
  - intros n _. unfold has_id. simpl. destruct (decide (n = name)) as [->|Hne].
    + destruct (parse_ids (tr_dir t) name (file_text t name) (file_text (update_file Y t name updates) name))
        as [-> ->]; [|done].
      rewrite Hsplit. simpl. intros k [-> | ->]; symmetry; by apply merge_updates_other.
    + by rewrite update_file_other.
Qed.
End update.

(** ** Theorems *)

(** Rewriting front matter loses nothing.  Reading the text that
    [write_markdown_frontmatter] produces gives the old metadata with the
    updates merged in and exactly the old body, whatever the old text was
    (without front matter, with the two-dash typo, with malformed YAML), as
    long as the YAML of the new metadata has no line of dashes alone and is read
    back. *)
Theorem frontmatter_roundtrip (Y : Yaml) (text : string) (updates : dict string pyval) :
  yaml_ok Y (merge_updates (fst (split_frontmatter Y text)) updates) ->
  split_frontmatter Y (write_frontmatter Y text updates)
  = (merge_updates (fst (split_frontmatter Y text)) updates, snd (split_frontmatter Y text)).
Proof.
  unfold write_frontmatter. destruct (split_frontmatter Y text) as [m b]. simpl. apply split_written.
Qed.

(** A codec for one dictionary, with YAML as PyYAML writes it. *)
Definition one_yaml (text : string) (m : dict string pyval) : Yaml :=
  mkYaml (fun raw => if String.eqb raw (text +:+ lf) then Some (PDict m)
                     else if String.eqb raw ("title: x" +:+ lf) then Some (PDict [("title", PStr "x")]) else None)
         (fun _ => text +:+ lf).

Definition sample_issue : string := "--" +:+ lf +:+ "title: x" +:+ lf +:+ "--" +:+ lf +:+ "Body -- here" +:+ lf.

Definition open_yaml : Yaml :=
  one_yaml ("title: x" +:+ lf +:+ "state: open") [("title", PStr "x"); ("state", PStr "open")].

Lemma yaml_ok_check Y m :
  negb (String.eqb (strip (safe_dump Y m)) "")
  && forallb (fun l => negb (delimits l)) (splitlines_keep (strip (safe_dump Y m) +:+ lf)) = true ->
  safe_load Y (strip (safe_dump Y m) +:+ lf) = Some (PDict m) -> yaml_ok Y m.
Proof.
  rewrite andb_true_iff, negb_true_iff, forallb_spec. intros [Ht Hl] Hload. constructor; [|..|done].
  - by apply String.eqb_neq.
  - apply Forall_forall. intros l Hin. by apply negb_true_iff, Hl.
Qed.

Lemma frontmatter_roundtrip_witness :
  split_frontmatter open_yaml (write_frontmatter open_yaml sample_issue [("state", PStr "open"); ("url", PNone)])
  = ([("title", PStr "x"); ("state", PStr "open")], "Body -- here" +:+ lf).
Proof.
  rewrite (frontmatter_roundtrip open_yaml sample_issue [("state", PStr "open"); ("url", PNone)]);
    [by vm_compute|apply yaml_ok_check; by vm_compute].
Defined.

(** What an update of the state does.  For an issue that is found,
    [update_issue_state] makes exactly this change: looking the issue up again
    finds the same file with the new state, every other metadata key but
    [updated_at] and the body are as they were, and no other file changed. *)
Theorem update_issue_state_effect (Y : Yaml) (X : Text) (t : Tracker) (now id state name : string)
    (d : LocalIssueDocument) :
  document_for_issue Y X t id = Some (name, d) ->
  yaml_ok Y (merge_updates (doc_metadata d) [("state", PStr state); ("updated_at", PStr now)]) ->
  exists t' d', update_issue_state Y X now id state t = Ret t'
    /\ document_for_issue Y X t' id = Some (name, d')
    /\ li_state (doc_issue d') = (if String.eqb (strip state) "" then None else Some (strip state))
    /\ doc_body d' = doc_body d
    /\ (forall k, k <> "state" -> k <> "updated_at" -> dget k (doc_metadata d') = dget k (doc_metadata d))
    /\ (forall n, n <> name -> dget n (tr_files t') = dget n (tr_files t)).
Proof.
  intros Hd Hok. unfold update_issue_state. rewrite Hd. eexists. eexists. split; [done|].
  destruct (update_file_document Y X t id name d [("state", PStr state); ("updated_at", PStr now)] Hd)
    as [Hdoc Hsplit]; [set_solver|set_solver|done|].
  split; [exact Hdoc|]. unfold parse_markdown_issue. rewrite Hsplit.
  set (m := merge_updates _ _). destruct (title_and_description X _ m _) as [title desc]. simpl. repeat split.
  - assert (E : dget "state" m = Some (PStr state)).
    { unfold m, merge_updates. simpl. rewrite dget_dset_ne by done. apply dget_dset_eq. }
    rewrite E. done.
  - intros k Hk1 Hk2. apply merge_updates_other. set_solver.
  - intros n Hn. by rewrite dget_dset_ne.
Qed.

Definition sample_tracker : Tracker := mkTracker "issues" [("x.md", sample_issue); ("a.md", "# Other")] [].

Definition state_yaml : Yaml :=
  one_yaml ("title: x" +:+ lf +:+ "state: closed" +:+ lf +:+ "updated_at: now")
    [("title", PStr "x"); ("state", PStr "closed"); ("updated_at", PStr "now")].

Lemma update_issue_state_effect_witness :
  exists t' d', update_issue_state state_yaml (sample_text PNone) "now" "x" "closed" sample_tracker = Ret t'
    /\ document_for_issue state_yaml (sample_text PNone) t' "x" = Some ("x.md", d')
    /\ li_state (doc_issue d') = Some "closed".
Proof.
  destruct (update_issue_state_effect state_yaml (sample_text PNone) sample_tracker "now" "x" "closed" "x.md"
              (parse_markdown_issue state_yaml (sample_text PNone) "issues" "x.md" sample_issue))
    as (t' & d' & H1 & H2 & H3 & _); [by vm_compute|apply yaml_ok_check; by vm_compute|].
  exists t', d'. split; [done|]. split; [done|]. by rewrite H3.
Defined.

(** A removed label may stay.  [remove_label] reports success after removing
    one occurrence of the label, so that an issue whose front matter lists it
    twice still has it. *)
Theorem removed_label_stays (Y : Yaml) (X : Text) (t : Tracker) (now id label name : string)
    (d : LocalIssueDocument) :
  document_for_issue Y X t id = Some (name, d) ->
  label ∈ remove_first label (li_labels (doc_issue d)) ->
  yaml_ok Y (merge_updates (doc_metadata d)
               [("labels", PList (map PStr (remove_first label (li_labels (doc_issue d))))); ("updated_at", PStr now)]) ->
  exists d', fst (remove_label Y X now id label t) = true
    /\ document_for_issue Y X (snd (remove_label Y X now id label t)) id = Some (name, d')
    /\ label ∈ li_labels (doc_issue d').
Proof.
  intros Hd Hdup Hok. unfold remove_label. rewrite Hd. cbv zeta.
  rewrite (proj2 (mem_true label (li_labels (doc_issue d)))) by by apply remove_first_subset in Hdup.
  cbn [fst snd]. set (updates := [("labels", _); _]) in *.
  destruct (update_file_document Y X t id name d updates Hd) as [Hdoc Hsplit]; [set_solver|set_solver|done|].
  eexists. split; [done|]. split; [exact Hdoc|]. unfold parse_markdown_issue. rewrite Hsplit.
  set (m := merge_updates _ _). destruct (title_and_description X _ m _) as [title desc]. simpl.
  assert (E : dget "labels" m = Some (PList (map PStr (remove_first label (li_labels (doc_issue d)))))).
  { unfold m, merge_updates, updates. simpl. rewrite dget_dset_ne by done. apply dget_dset_eq. }
  rewrite E. simpl. clear -Hdup. revert Hdup. generalize (remove_first label (li_labels (doc_issue d))) as l.
  induction l as [|x l IH]; simpl; [done|]. intros [->|H]%elem_of_cons; [left|right; auto].
Qed.

Definition twice_issue : string := "---" +:+ lf +:+ "title: x" +:+ lf +:+ "---" +:+ lf.

(** PyYAML reads [labels: [bug, bug]] as a list with both. *)
Definition label_yaml : Yaml :=
  mkYaml (fun raw => if String.eqb raw ("title: x" +:+ lf)
                     then Some (PDict [("labels", PList [PStr "bug"; PStr "bug"])])
                     else Some (PDict [("labels", PList [PStr "bug"]); ("updated_at", PStr "now")]))
         (fun _ => "labels:" +:+ lf +:+ "- bug" +:+ lf +:+ "updated_at: now" +:+ lf).

Lemma removed_label_stays_witness :
  exists d', document_for_issue label_yaml (sample_text PNone)
               (snd (remove_label label_yaml (sample_text PNone) "now" "x" "bug"
                       (mkTracker "issues" [("x.md", twice_issue)] []))) "x" = Some ("x.md", d')
    /\ "bug" ∈ li_labels (doc_issue d').
Proof.
  destruct (removed_label_stays label_yaml (sample_text PNone) (mkTracker "issues" [("x.md", twice_issue)] [])
              "now" "x" "bug" "x.md" (parse_markdown_issue label_yaml (sample_text PNone) "issues" "x.md" twice_issue))
    as (d' & _ & H2 & H3); [by vm_compute|vm_compute; left|apply yaml_ok_check; by vm_compute|by exists d'].
Defined.

(** ** Comments *)

(** A log of lines: empty, or ended by a line feed. *)
Definition log_ok (text : string) : Prop := text = "" \/ exists s, text = s +:+ lf.

Definition log_of (digest : string -> string) (id : string) (t : Tracker) : string :=
  default "" (dget (comments_path digest id) (tr_comments t)).

Lemma fetch_log X digest id t :
  fetch_issue_comments X digest id t = read_comments X (splitlines (log_of digest id t)).
Proof. unfold fetch_issue_comments, log_of. by destruct (dget _ _). Qed.

Lemma log_of_append X digest uuid now id body t :
  log_of digest id (snd (append_comment X digest uuid now id body t))
  = log_of digest id t +:+ json_dumps X (comment_payload uuid body "orchestratord" now now) +:+ lf.
Proof. unfold log_of, append_comment. simpl. by rewrite dget_dset_eq. Qed.

Lemma splitlines_log text line :
  log_ok text -> splitlines (text +:+ line +:+ lf) = splitlines text ++ splitlines (line +:+ lf).
Proof.
  intros [->|[s ->]]; [done|]. unfold splitlines. rewrite append_assoc. apply (split_from_lf false s).
Qed.

Lemma read_comments_app X a b :
  read_comments X (a ++ b) = (cs ← read_comments X a; ds ← read_comments X b; Ret (cs ++ ds)).
Proof.
  induction a as [|l a IH]; simpl; [by destruct (read_comments X b)|].
  destruct (String.eqb (strip l) ""); [done|]. destruct (json_loads X l) as [p|]; [|done].
  destruct (comment_of X p); [|done]. rewrite IH. destruct (read_comments X a); [|done]. simpl.
  by destruct (read_comments X b).
Qed.

Lemma after_cursor_app cursor l r m :
  after_cursor cursor l = Some r -> after_cursor cursor (l ++ m) = Some (r ++ m).
Proof. induction l as [|c l IH]; simpl; [done|]. case_bool_decide; [by intros [= ->]|done]. Qed.

(** Appending a comment adds it to what is read, and nothing else changes:
    when the JSON of the comment is one line that is read back, fetching gives
    the old comments followed by the new one, the log stays a log of lines, and
    polling behind the last comment read before gives exactly the new one. *)
Theorem comment_appended (X : Text) (digest : string -> string) (t : Tracker) (uuid now id body : string)
    (old : list Comment) (last : Comment) :
  let payload := comment_payload uuid body "orchestratord" now now in
  let t' := snd (append_comment X digest uuid now id body t) in
  let new := mkComment (string_or_none X (Some (PStr uuid))) (string_or_none X (Some (PStr body)))
               (Some "orchestratord") (string_or_none X (Some (PStr now))) in
  log_ok (log_of digest id t) ->
  splitlines (json_dumps X payload +:+ lf) = [json_dumps X payload] ->
  strip (json_dumps X payload) <> "" -> json_loads X (json_dumps X payload) = Some payload ->
  fetch_issue_comments X digest id t = Ret (old ++ [last]) ->
  (exists cursor, c_id last = Some cursor /\ after_cursor cursor (old ++ [last]) = Some []) ->
  fetch_issue_comments X digest id t' = Ret (old ++ [last; new])
  /\ log_ok (log_of digest id t')
  /\ fetch_new_comments_since X digest id (c_id last) t' = Ret [new].
Proof.
  cbv zeta. intros Hlog Hline Hblank Hload Hold (cursor & Hcur & Hafter). rewrite fetch_log in Hold.
  set (payload := comment_payload _ _ _ _ _) in *.
  assert (Hfetch : fetch_issue_comments X digest id (snd (append_comment X digest uuid now id body t))
    = Ret ((old ++ [last]) ++ [mkComment (string_or_none X (Some (PStr uuid))) (string_or_none X (Some (PStr body)))
                                 (Some "orchestratord") (string_or_none X (Some (PStr now)))])).
  { rewrite fetch_log, log_of_append. fold payload. rewrite splitlines_log by done.
    rewrite read_comments_app, Hold, Hline. cbn [mbind outcome_bind read_comments].
    rewrite (proj2 (String.eqb_neq _ _) Hblank), Hload. done. }
  split; [|split].
  - rewrite Hfetch. by rewrite <- app_assoc.
  - right. rewrite log_of_append. fold payload. eexists. by rewrite <- append_assoc.
  - unfold fetch_new_comments_since. rewrite Hfetch. cbn [mbind outcome_bind]. rewrite Hcur.
    by rewrite (after_cursor_app _ _ _ _ Hafter).
Qed.

(** The log after one comment, and its JSON as Python writes it. *)
Definition json_comment (id body : string) : string :=
  "{'id': '" +:+ id +:+ "', 'body': '" +:+ body +:+ "'}".

Definition log_text (body : string) : Text :=
  mkText (fun _ => "?") (fun _ => None)
    (fun l => if String.eqb l (json_comment "u1" "hello") then Some (comment_payload "u1" "hello" "me" "1" "1")
              else if String.eqb l (json_comment "u2" body) then Some (comment_payload "u2" body "orchestratord" "2" "2")
              else None)
    (fun _ => json_comment "u2" body).

Definition sample_log : Tracker :=
  mkTracker "issues" [] [(safe_file_stem (fun _ => "0123456789ab") "x", json_comment "u1" "hello" +:+ lf)].

Lemma comment_appended_witness :
  fetch_new_comments_since (log_text "thanks") (fun _ => "0123456789ab") "x" (Some "u1")
    (snd (append_comment (log_text "thanks") (fun _ => "0123456789ab") "u2" "2" "x" "thanks" sample_log))
  = Ret [mkComment (Some "u2") (Some "thanks") (Some "orchestratord") (Some "2")].
Proof.
  refine (proj2 (proj2 (comment_appended (log_text "thanks") (fun _ => "0123456789ab") sample_log "u2" "2" "x" "thanks"
            [] (mkComment (Some "u1") (Some "hello") (Some "me") (Some "1")) _ _ _ _ _ _)));
    [right; by exists (json_comment "u1" "hello")|by vm_compute|by vm_compute|by vm_compute|by vm_compute|].
  exists "u1". by vm_compute.
Defined.

(** U+2028, the line separator, in UTF-8 *)
Definition line_separator : string :=
  String (Ascii.ascii_of_N 226) (String (Ascii.ascii_of_N 128) (one (Ascii.ascii_of_N 168))).

(** A comment with a line separator is lost.  [json.dumps(...,
    ensure_ascii=False)] leaves U+2028 as it is, but the log is read with
    [splitlines], which breaks the line there: neither half is JSON, and fetching
    gives the comments as if nothing had been appended. *)
Theorem separator_comment_lost (X : Text) (digest : string -> string) (t : Tracker)
    (uuid now id body a b : string) :
  let payload := comment_payload uuid body "orchestratord" now now in
  log_ok (log_of digest id t) ->
  json_dumps X payload = a +:+ line_separator +:+ b ->
  splitlines (a +:+ line_separator +:+ b +:+ lf) = [a; b] ->
  json_loads X a = None -> json_loads X b = None ->
  fetch_issue_comments X digest id (snd (append_comment X digest uuid now id body t))
  = fetch_issue_comments X digest id t.
Proof.
  cbv zeta. intros Hlog Hdumps Hsplit Ha Hb. rewrite !fetch_log, log_of_append, Hdumps.
  rewrite splitlines_log by done. rewrite !append_assoc, Hsplit, read_comments_app.
  destruct (read_comments X (splitlines (log_of digest id t))) as [cs|]; [|done].
  cbn [mbind outcome_bind read_comments]. rewrite Ha, Hb.
  destruct (String.eqb (strip a) ""), (String.eqb (strip b) ""); cbn [mbind outcome_bind]; by rewrite app_nil_r.
Qed.

Lemma separator_comment_lost_witness :
  fetch_issue_comments (log_text ("a" +:+ line_separator +:+ "b")) (fun _ => "0123456789ab") "x"
    (snd (append_comment (log_text ("a" +:+ line_separator +:+ "b")) (fun _ => "0123456789ab") "u2" "2" "x"
            ("a" +:+ line_separator +:+ "b") sample_log))
  = Ret [mkComment (Some "u1") (Some "hello") (Some "me") (Some "1")].
Proof.
  rewrite (separator_comment_lost (log_text ("a" +:+ line_separator +:+ "b")) (fun _ => "0123456789ab") sample_log
             "u2" "2" "x" ("a" +:+ line_separator +:+ "b") "{'id': 'u2', 'body': 'a" "b'}");
    [by vm_compute|right; by exists (json_comment "u1" "hello")|by vm_compute..].
Defined.
