(* ===== verification/Modes.v ===== *)
(** * Debate and pipeline modes
    ([src/orchestratord/modes/debate.py], [pipeline.py], [single.py])

    The mode runners that call the agent several times on one session.  The
    state is the session and what its runs share: the model and the turn limit
    of the configuration, the agent's name in the environment, the file system.
    Parameters: the agent's run, the concurrent runs of [asyncio.gather], git,
    and the texts of the prompts. *)

From stdpp Require Import pretty.
From S2P Require Import Prelude Errors Dag StageRunner Intent Regex.

Open Scope string_scope.
Open Scope list_scope.
Open Scope Z_scope.

(** The fields of [AgentSession] that the runners touch. *)
Record Session := mkSession {
  s_turn_count : Z;
  s_status : string;
  s_output_text : string;
  s_end_reason : option string;
  s_end_summary : string;
  s_run_id : option string;
  s_parent_run_id : option string;
  s_consecutive_429 : Z;
  s_rate_limit_pending : option Z;
  s_stage_id : option string;
  s_stage_name : option string;
  s_branch_id : option string;
  s_prompt_override : option string;
  s_run_kind : option string;
  s_coordinator_mode : option bool;
  s_path : option string;
}.

(** [_reset_session_for_next_stage], the same in both runners *)
Definition reset_session_for_next_stage (s : Session) : Session :=
  mkSession 0 "running" "" None "" None
    (match s_run_id s with
     | Some r => if String.eqb r "" then s_parent_run_id s else s_run_id s
     | None => s_parent_run_id s
     end)
    0 None (s_stage_id s) (s_stage_name s) (s_branch_id s) (s_prompt_override s) (s_run_kind s)
    (s_coordinator_mode s) (s_path s).

(** The assignments before a stage runs. *)
Definition enter_stage (stage_id stage_name : string) (branch_id : option string) (s : Session) : Session :=
  mkSession (s_turn_count s) (s_status s) (s_output_text s) (s_end_reason s) (s_end_summary s) (s_run_id s)
    (s_parent_run_id s) (s_consecutive_429 s) (s_rate_limit_pending s) (Some stage_id) (Some stage_name) branch_id
    (s_prompt_override s) (s_run_kind s) (s_coordinator_mode s) (s_path s).

Definition with_prompt (prompt run_kind : string) (s : Session) : Session :=
  mkSession (s_turn_count s) (s_status s) (s_output_text s) (s_end_reason s) (s_end_summary s) (s_run_id s)
    (s_parent_run_id s) (s_consecutive_429 s) (s_rate_limit_pending s) (s_stage_id s) (s_stage_name s)
    (s_branch_id s) (Some prompt) (Some run_kind) (s_coordinator_mode s) (s_path s).

Definition with_path (p : option string) (s : Session) : Session :=
  mkSession (s_turn_count s) (s_status s) (s_output_text s) (s_end_reason s) (s_end_summary s) (s_run_id s)
    (s_parent_run_id s) (s_consecutive_429 s) (s_rate_limit_pending s) (s_stage_id s) (s_stage_name s)
    (s_branch_id s) (s_prompt_override s) (s_run_kind s) (s_coordinator_mode s) p.

Definition with_coordinator (b : option bool) (s : Session) : Session :=
  mkSession (s_turn_count s) (s_status s) (s_output_text s) (s_end_reason s) (s_end_summary s) (s_run_id s)
    (s_parent_run_id s) (s_consecutive_429 s) (s_rate_limit_pending s) (s_stage_id s) (s_stage_name s)
    (s_branch_id s) (s_prompt_override s) (s_run_kind s) b (s_path s).

(** [_stage_succeeded], the same in both runners *)
Definition stage_succeeded (status : string) : bool :=
  mem status ["completed"; "max_turns_exceeded"; "running"; "read_only_loop"].

Record StageResult := mkStageResult {
  sr_stage : string;
  sr_status : string;
  sr_output : string;
}.

(** [s[-n:]] *)
Definition tail_str (n : nat) (s : string) : string := drop_str (String.length s - n) s.

(** What the runs share. *)
Record Shared {F : Type} := mkShared {
  sh_model : string;
  sh_max_turns : Z;
  sh_agent_name : option string;
  sh_fs : F;
}.
Arguments Shared : clear implicits.
Arguments mkShared {F}.

Definition World (F : Type) : Type := (Session * Shared F)%type.

(** git on the file system: the commit of a directory, [reset --hard] with
    [clean -fd], [worktree add] (whether it worked) and [worktree remove]. *)
Record Git {F : Type} := mkGit {
  rev_parse : string -> F -> option string;
  reset_hard : string -> string -> F -> F;
  worktree_add : string -> string -> string -> F -> bool * F;
  worktree_remove : string -> string -> F -> F;
  path_exists : string -> F -> bool;
}.
Arguments Git : clear implicits.
Arguments mkGit {F}.

(** What the runners call: the agent's run ([AgentRunner.run], which is also
    [SingleModeRunner.run]); [asyncio.gather] over runs of the agent on sessions
    of their own, that gives what became of each and of what they share; git;
    the prompts (of a proposer with its index, of the judge, of a pipeline's
    stage) and the note for a retry; the issue's id; [Path(p).parent];
    [_ensure_team_file]; and the text of an exception. *)
Record Env {F : Type} := mkEnv {
  e_agent : M (World F) exn unit;
  e_gather : list Session -> Shared F -> list (outcome exn Session) * Shared F;
  e_git : Git F;
  e_proposer_prompt : nat -> string -> string;
  e_judge_prompt : list StageResult -> string;
  e_stage_prompt : string -> list StageResult -> string -> string;
  e_retry_note : Z -> string -> string;
  e_issue_id : string;
  e_parent_of : string -> string;
  e_ensure_team_file : option string -> F -> F;
  e_exn_text : exn -> string;
}.
Arguments Env : clear implicits.
Arguments mkEnv {F}.

Section modes.
Context {F : Type} (E : Env F).

Local Abbreviation Shared := (Shared F).
Local Abbreviation World := (World F).
Local Abbreviation agent := (e_agent E).
Local Abbreviation gather := (e_gather E).
Local Abbreviation G := (e_git E).
Local Abbreviation proposer_prompt := (e_proposer_prompt E).
Local Abbreviation judge_prompt := (e_judge_prompt E).
Local Abbreviation stage_prompt := (e_stage_prompt E).
Local Abbreviation retry_note := (e_retry_note E).
Local Abbreviation issue_id := (e_issue_id E).
Local Abbreviation parent_of := (e_parent_of E).
Local Abbreviation ensure_team_file := (e_ensure_team_file E).

Definition set_model (m : string) (h : Shared) : Shared := mkShared m (sh_max_turns h) (sh_agent_name h) (sh_fs h).
Definition set_max_turns (n : Z) (h : Shared) : Shared := mkShared (sh_model h) n (sh_agent_name h) (sh_fs h).
Definition set_agent_name (n : option string) (h : Shared) : Shared := mkShared (sh_model h) (sh_max_turns h) n (sh_fs h).
Definition set_fs (f : F) (h : Shared) : Shared := mkShared (sh_model h) (sh_max_turns h) (sh_agent_name h) f.

(** ** Debate *)

Record DebateConfig := mkDebate {
  db_proposers : list string;
  db_judge_model : option string;
  db_isolation : string;
  db_proposer_models : dict string string;
  db_parallel : bool;
  db_judge_mode : string;
}.

Definition value_error (what : string) : exn := mkExn OtherException [Lit "ValueError: "; Lit what] None.

Definition blank (s : string) : bool := String.eqb (strip s) "".

(** [DebateModeRunner.__init__] *)
Definition new_debate (c : DebateConfig) : outcome exn DebateConfig :=
  if Nat.eqb (length (db_proposers c)) 0 then Raise (value_error "requires at least one proposer stage")
  else if negb (mem (db_isolation c) ["reset"; "worktree"; "none"]) then Raise (value_error "isolation")
  else if db_parallel c && negb (String.eqb (db_isolation c) "worktree")
       then Raise (value_error "parallel=True requires isolation='worktree'")
  else if negb (mem (db_judge_mode c) ["pick"; "synthesize"]) then Raise (value_error "judge_mode")
  else Ret (mkDebate (db_proposers c)
              (match db_judge_model c with
               | Some m => if String.eqb m "" then None else Some (strip m)
               | None => None
               end)
              (db_isolation c) (List.filter (fun kv => negb (blank (snd kv))) (db_proposer_models c))
              (db_parallel c) (db_judge_mode c)).

(** [_SAFE_NAME_RE.sub("_", s)[:40]] *)
Definition is_safe (c : Ascii.ascii) : bool :=
  let n := Ascii.N_of_ascii c in
  ((48 <=? n)%N && (n <=? 57)%N) || ((65 <=? n)%N && (n <=? 90)%N) || ((97 <=? n)%N && (n <=? 122)%N)
  || byte_is 95 c || byte_is 45 c.

Fixpoint safe_runs (inside : bool) (s : string) : string :=
  match s with
  | EmptyString => EmptyString
  | String c s' =>
      if is_safe c then String c (safe_runs false s')
      else if inside then safe_runs true s'
      else String (Ascii.ascii_of_N 95) (safe_runs true s')
  end.

Definition safe_name (s : string) : string := take_str 40 (safe_runs false s).

(** The directory of a stage's worktree, beside the workspace. *)
Definition worktree_path (parent stage_label : string) : string :=
  let stage := safe_name stage_label in
  parent +:+ "/.debate-worktree-" +:+ safe_name (if String.eqb issue_id "" then "issue" else issue_id)
  +:+ "-" +:+ (if String.eqb stage "" then "stage" else stage).

(** [_reset_workspace_to] *)
Definition reset_workspace_to (s : Session) (baseline : option string) (f : F) : F :=
  match baseline, s_path s with
  | Some ref, Some p => reset_hard G p ref f
  | _, _ => f
  end.

(** [_remove_worktree]: git's removal, and the deletion of what it left, are one
    operation of the file system. *)
Definition remove_worktree (original : option string) (wt : string) (f : F) : F :=
  match original with
  | Some p => worktree_remove G p wt f
  | None => f
  end.

(** [_create_worktree_and_swap]: the worktree, if one was made. *)
Definition create_worktree_and_swap (baseline : option string) (label : string) (w : World) : option string * World :=
  let (s, h) := w in
  match s_path s, baseline with
  | Some p, Some ref =>
      let wt := worktree_path (parent_of p) label in
      let f := if path_exists G wt (sh_fs h) then remove_worktree (Some p) wt (sh_fs h) else sh_fs h in
      let (ok, f') := worktree_add G p wt ref f in
      if ok then (Some wt, (with_path (Some wt) s, set_fs f' h))
      else (None, (s, set_fs (reset_workspace_to s baseline f') h))
  | _, _ => (None, (s, set_fs (reset_workspace_to s baseline (sh_fs h)) h))
  end.

(** [_apply_isolation_before_stage] *)
Definition apply_isolation (isolation : string) (baseline : option string) (label : string) (w : World)
    : option string * World :=
  if String.eqb isolation "reset" then
    (None, (fst w, set_fs (reset_workspace_to (fst w) baseline (sh_fs (snd w))) (snd w)))
  else if String.eqb isolation "worktree" then create_worktree_and_swap baseline label w
  else (None, w).

(** [_restore_workspace_after_stage] *)
Definition restore_workspace (original : option string) (wt : option string) (w : World) : World :=
  match wt with
  | None => w
  | Some wt =>
      (with_path original (fst w), set_fs (remove_worktree original wt (sh_fs (snd w))) (snd w))
  end.

(** The model of one run swapped in and out again ([_ProposerModelOverride],
    [_JudgeModelOverride]); [None] and the empty string swap nothing. *)
Definition model_override (model : option string) (run : M World exn unit) : M World exn unit := fun w =>
  match model with
  | Some m =>
      if String.eqb m "" then run w
      else
        let original := sh_model (snd w) in
        let (r, w') := run (fst w, set_model m (snd w)) in
        (r, (fst w', set_model original (snd w')))
  | None => run w
  end.

Definition result_of (stage : string) (s : Session) : StageResult :=
  mkStageResult stage (s_status s) (tail_str 3000 (s_output_text s)).

(** One proposer of [_run_proposers_sequential]. *)
Definition run_proposer (c : DebateConfig) (baseline original : option string) (index : nat) (name : string)
    : M World exn StageResult := fun w =>
  let s := enter_stage ("debate:" +:+ name) name (Some name) (reset_session_for_next_stage (fst w)) in
  let (wt, w1) := apply_isolation (db_isolation c) baseline name (s, snd w) in
  let w2 := (with_prompt (proposer_prompt index name) ("debate:" +:+ name) (fst w1), snd w1) in
  let (r, w3) := model_override (dget name (db_proposer_models c)) agent w2 in
  let w4 := restore_workspace original wt w3 in
  match r with
  | Raise e => (Raise e, w4)
  | Ret _ => (Ret (result_of name (fst w4)), w4)
  end.

Fixpoint run_proposers_sequential (c : DebateConfig) (baseline original : option string) (index : nat)
    (names : list string) (w : World) : outcome exn (list StageResult) * World :=
  match names with
  | [] => (Ret [], w)
  | name :: names' =>
      match run_proposer c baseline original index name w with
      | (Raise e, w1) => (Raise e, w1)
      | (Ret r, w1) =>
          if stage_succeeded (s_status (fst w1)) then
            match run_proposers_sequential c baseline original (S index) names' w1 with
            | (Raise e, w2) => (Raise e, w2)
            | (Ret rs, w2) => (Ret (r :: rs), w2)
            end
          else (Ret [r], w1)
      end
  end.

(** [_fork_session_for_branch] *)
Definition fork_session (s : Session) : Session :=
  mkSession 0 "running" "" None "" None (s_run_id s) 0 None (s_stage_id s) (s_stage_name s) (s_branch_id s)
    (s_prompt_override s) (s_run_kind s) (s_coordinator_mode s) (s_path s).

(** The set-up loop of [_run_proposers_parallel]: the branches' sessions and
    worktrees. *)
Fixpoint set_up_branches (baseline : option string) (index : nat) (names : list string) (s : Session) (h : Shared)
    : list (string * Session * option string) * Shared :=
  match names with
  | [] => ([], h)
  | name :: names' =>
      let b := enter_stage ("debate:" +:+ name) name (Some name)
                 (reset_session_for_next_stage (fork_session s)) in
      let (wt, w1) := create_worktree_and_swap baseline name (b, h) in
      let b' := with_prompt (proposer_prompt index name) ("debate:" +:+ name) (fst w1) in
      let (rest, h') := set_up_branches baseline (S index) names' s (snd w1) in
      ((name, b', wt) :: rest, h')
  end.

(** The result of a branch, with an exception as a failed stage. *)
Definition branch_result (name : string) (o : outcome exn Session) : StageResult :=
  match o with
  | Ret s => result_of name s
  | Raise e => mkStageResult name "failed" (take_str 3000 (e_exn_text E e))
  end.

(** [_run_proposers_parallel] *)
Definition run_proposers_parallel (c : DebateConfig) (baseline : option string) : M World exn (list StageResult) :=
  fun w =>
    let (s, h) := w in
    let (branches, h1) := set_up_branches baseline 0 (db_proposers c) s h in
    let (outs, h2) := gather (map (fun b => snd (fst b)) branches) h1 in
    let f := fold_left (fun f b => match snd b with Some wt => remove_worktree (s_path s) wt f | None => f end)
               branches (sh_fs h2) in
    (Ret (zip_with branch_result (map (fun b => fst (fst b)) branches) outs), (s, set_fs f h2)).

(** [_snapshot_workspace_head] *)
Definition snapshot_head (w : World) : option string :=
  match s_path (fst w) with
  | Some p => rev_parse G p (sh_fs (snd w))
  | None => None
  end.

(** The judge's stage. *)
Definition run_judge (c : DebateConfig) (baseline : option string) (results : list StageResult)
    : M World exn (list StageResult) := fun w =>
  let s := enter_stage "debate:judge" "judge" None (reset_session_for_next_stage (fst w)) in
  let h := if String.eqb (db_isolation c) "reset"
           then set_fs (reset_workspace_to s baseline (sh_fs (snd w))) (snd w) else snd w in
  let (r, w1) := model_override (db_judge_model c) agent
                   (with_prompt (judge_prompt results) "debate:judge" s, h) in
  match r with
  | Raise e => (Raise e, w1)
  | Ret _ => (Ret (results ++ [result_of "judge" (fst w1)]), w1)
  end.

(** [DebateModeRunner.run] *)
Definition debate_run (c : DebateConfig) : M World exn (list StageResult) := fun w =>
  let baseline := snapshot_head w in
  let original := s_path (fst w) in
  let (r, w1) := if db_parallel c then run_proposers_parallel c baseline w
                 else run_proposers_sequential c baseline original 0 (db_proposers c) w in
  match r with
  | Raise e => (Raise e, w1)
  | Ret results =>
      if existsb (fun x => negb (stage_succeeded (sr_status x))) results then (Ret results, w1)
      else run_judge c baseline results w1
  end.

(** ** Pipeline *)

Inductive stage_kind :=
| KAgent
| KDebate (c : DebateConfig)
| KCoordinator.

Record PipelineConfig := mkPipeline {
  pl_stages : list string;
  pl_max_retries : Z;
  pl_stage_models : dict string string;
  pl_stage_max_turns : dict string Z;
  pl_stage_kinds : dict string stage_kind;
  pl_mailbox : bool;
}.

(** [PipelineModeRunner.__init__] on a configuration whose nested kinds are
    known: the nested runners are built at once. *)
Fixpoint build_nested (stages : list string) (kinds : dict string stage_kind) : outcome exn (dict string stage_kind) :=
  match kinds with
  | [] => Ret []
  | (name, k) :: kinds' =>
      k' ← (match k with
            | KDebate c => if mem name stages then c' ← new_debate c; Ret (KDebate c') else Ret k
            | _ => Ret k
            end);
      rest ← build_nested stages kinds';
      Ret ((name, k') :: rest)
  end.

Definition new_pipeline (c : PipelineConfig) : outcome exn PipelineConfig :=
  if Nat.eqb (length (pl_stages c)) 0 then Raise (value_error "requires at least one stage")
  else if pl_max_retries c <? 0 then Raise (value_error "max_retries_per_stage must be >= 0")
  else
    kinds ← build_nested (pl_stages c) (pl_stage_kinds c);
    Ret (mkPipeline (pl_stages c) (pl_max_retries c)
           (List.filter (fun kv => negb (blank (snd kv))) (pl_stage_models c))
           (List.filter (fun kv => 0 <? snd kv) (pl_stage_max_turns c)) kinds (pl_mailbox c)).

(** [_StageOverride]: what is different is swapped in, and out again when the
    body returns or raises. *)
Definition stage_override (c : PipelineConfig) (stage : string) (run : M World exn unit) : M World exn unit := fun w =>
  let h0 := snd w in
  let h1 := if pl_mailbox c then set_agent_name (Some stage) h0 else h0 in
  let model := match dget stage (pl_stage_models c) with
               | Some m => if String.eqb m "" || String.eqb m (sh_model h1) then None else Some m
               | None => None
               end in
  let h2 := match model with Some m => set_model m h1 | None => h1 end in
  let turns := match dget stage (pl_stage_max_turns c) with
               | Some n => if (0 <? n) && negb (n =? sh_max_turns h2) then Some n else None
               | None => None
               end in
  let h3 := match turns with Some n => set_max_turns n h2 | None => h2 end in
  let (r, w') := run (fst w, h3) in
  let k1 := match model with Some _ => set_model (sh_model h0) (snd w') | None => snd w' end in
  let k2 := match turns with Some _ => set_max_turns (sh_max_turns h0) k1 | None => k1 end in
  let k3 := if pl_mailbox c then set_agent_name (sh_agent_name h0) k2 else k2 in
  (r, (fst w', k3)).

(** [CoordinatorModeRunner.run] *)
Definition run_coordinator : M World exn unit := fun w =>
  let original := s_coordinator_mode (fst w) in
  let (r, w') := agent (with_coordinator (Some true) (fst w), snd w) in
  (r, (with_coordinator original (fst w'), snd w')).

Definition run_kind_of (c : PipelineConfig) (stage : string) : M World exn unit := fun w =>
  match dget stage (pl_stage_kinds c) with
  | None | Some KAgent => agent w
  | Some KCoordinator => run_coordinator w
  | Some (KDebate d) => let (r, w') := debate_run d w in
                        (match r with Ret _ => Ret tt | Raise e => Raise e end, w')
  end.

Definition run_kind_name (stage : string) (attempt : Z) : string :=
  if attempt =? 0 then "pipeline:" +:+ stage else "pipeline:" +:+ stage +:+ ":retry" +:+ pretty (Z.to_N attempt).

Definition pipeline_result (stage : string) (s : Session) : StageResult :=
  mkStageResult stage (s_status s) (tail_str 2000 (s_output_text s)).

(** One attempt at a stage. *)
Definition stage_attempt (c : PipelineConfig) (stage : string) (prior : list StageResult) (attempt : Z) (note : string)
    : M World exn unit := fun w =>
  let s := enter_stage ("pipeline:" +:+ stage) stage None (reset_session_for_next_stage (fst w)) in
  stage_override c stage (run_kind_of c stage)
    (with_prompt (stage_prompt stage prior note) (run_kind_name stage attempt) s, snd w).

(** The loop of [_run_stage_with_retry]: [left] more attempts after this one. *)
Fixpoint stage_attempts (left : nat) (c : PipelineConfig) (stage : string) (prior : list StageResult) (attempt : Z)
    (note : string) (w : World) : outcome exn StageResult * World :=
  match stage_attempt c stage prior attempt note w with
  | (Raise e, w') => (Raise e, w')
  | (Ret _, w') =>
      if stage_succeeded (s_status (fst w')) then (Ret (pipeline_result stage (fst w')), w')
      else
        match left with
        | O => (Ret (pipeline_result stage (fst w')), w')
        | S left' => stage_attempts left' c stage prior (attempt + 1) (retry_note attempt (s_status (fst w'))) w'
        end
  end.

Definition mailbox_set_up (c : PipelineConfig) (w : World) : World :=
  if pl_mailbox c then (fst w, set_fs (ensure_team_file (s_path (fst w)) (sh_fs (snd w))) (snd w)) else w.

Definition run_stage_with_retry (c : PipelineConfig) (stage : string) (prior : list StageResult)
    : M World exn StageResult := fun w =>
  stage_attempts (Z.to_nat (pl_max_retries c)) c stage prior 0 "" (mailbox_set_up c w).

(** The loop of [PipelineModeRunner.run]. *)
Fixpoint run_stages (c : PipelineConfig) (stages : list string) (prior : list StageResult) (w : World)
    : outcome exn (list StageResult) * World :=
  match stages with
  | [] => (Ret prior, w)
  | stage :: stages' =>
      match run_stage_with_retry c stage prior w with
      | (Raise e, w') => (Raise e, w')
      | (Ret r, w') =>
          if stage_succeeded (sr_status r) then run_stages c stages' (prior ++ [r]) w'
          else (Ret (prior ++ [r]), w')
      end
  end.

Definition pipeline_run (c : PipelineConfig) : M World exn (list StageResult) := fun w =>
  run_stages c (pl_stages c) [] (mailbox_set_up c w).
End modes.
