(* ===== verification/ModesFacts.v ===== *)
(** * Correctness of the debate and pipeline modes

    The stages that run and in which order, what is restored, the isolation of
    the proposers, and the failure that a nested debate hides. *)

From S2P Require Import Prelude Errors Dag StageRunner Intent Regex Modes.

Open Scope string_scope.
Open Scope list_scope.
Open Scope Z_scope.

(** A result that does not count as success. *)
Definition failed (r : StageResult) : Prop := stage_succeeded (sr_status r) = false.
Definition succeeded (r : StageResult) : Prop := stage_succeeded (sr_status r) = true.

Section facts.
Context {F : Type} (E : Env F).

(** ** Debate: the stages that run *)

Lemma run_proposer_result c base orig i name w r w' :
  run_proposer E c base orig i name w = (Ret r, w') -> r = result_of name (fst w').
Proof.
  unfold run_proposer. destruct (apply_isolation _ _ _ _ _) as [wt w1].
  destruct (model_override _ _ _) as [[[]|e] w3]; [|done]. by intros [= <- <-].
Qed.

(** The proposers that ran: a prefix, stopped behind the first that failed. *)
Lemma sequential_results c base orig i names w rs w' :
  run_proposers_sequential E c base orig i names w = (Ret rs, w') ->
  map sr_stage rs = take (length rs) names
  /\ (Forall succeeded rs /\ length rs = length names
      \/ exists init last, rs = init ++ [last] /\ Forall succeeded init /\ failed last).
Proof.
  revert i w rs. induction names as [|name names IH]; intros i w rs; simpl.
  { intros [= <- <-]. split; [done|]. left. split; [constructor|done]. }
  destruct (run_proposer E c base orig i name w) as [[r|] w1] eqn:Er; [|done].
  pose proof (run_proposer_result _ _ _ _ _ _ _ _ Er) as ->.
  destruct (stage_succeeded (s_status (fst w1))) eqn:Es.
  - destruct (run_proposers_sequential E c base orig (S i) names w1) as [[rs'|] w2] eqn:E2; [|done].
    intros [= <- <-]. destruct (IH _ _ _ E2) as [Hst Hok]. split; [simpl; by rewrite Hst|].
    destruct Hok as [[Hall Hlen]|(init & last & -> & Hinit & Hlast)].
    + left. split; [by constructor|simpl; lia].
    + right. exists (result_of name (fst w1) :: init), last. split; [done|]. split; [by constructor|done].
  - intros [= <- <-]. split; [done|]. right. exists [], (result_of name (fst w1)).
    split; [done|]. split; [constructor|]. exact Es.
Qed.

Lemma set_up_names base i names s h :
  map (fun b => fst (fst b)) (fst (set_up_branches E base i names s h)) = names.
Proof.
  revert i h. induction names as [|name names IH]; intros i h; [done|]. cbn [set_up_branches].
  destruct (create_worktree_and_swap E base name _) as [wt w1].
  specialize (IH (S i) (snd w1)). destruct (set_up_branches E base (S i) names s (snd w1)) as [rest h'].
  simpl in *. by rewrite IH.
Qed.

Lemma set_up_length base i names s h :
  length (fst (set_up_branches E base i names s h)) = length names.
Proof. pose proof (set_up_names base i names s h) as H. apply (f_equal length) in H. by rewrite length_map in H. Qed.

Lemma zip_branch_stages names outs :
  length outs = length names -> map sr_stage (zip_with (branch_result E) names outs) = names.
Proof.
  revert outs. induction names as [|n names IH]; intros [|o outs] H; try done. simpl in *.
  rewrite IH by lia. f_equal. by destruct o.
Qed.

Lemma parallel_results c base w rs w' :
  (forall ss h, length (fst (e_gather E ss h)) = length ss) ->
  run_proposers_parallel E c base w = (Ret rs, w') -> map sr_stage rs = db_proposers c /\ fst w' = fst w.
Proof.
  intros Hg. unfold run_proposers_parallel. destruct w as [s h].
  pose proof (set_up_names base 0 (db_proposers c) s h) as Hn.
  pose proof (set_up_length base 0 (db_proposers c) s h) as Hlen.
  destruct (set_up_branches E base 0 (db_proposers c) s h) as [branches h1]. simpl in Hn, Hlen.
  specialize (Hg (map (fun b => snd (fst b)) branches) h1).
  destruct (e_gather E _ h1) as [outs h2]. simpl in Hg. intros [= <- <-]. split; [|done].
  rewrite Hn. apply zip_branch_stages. rewrite Hg, length_map. done.
Qed.

Lemma existsb_failed rs :
  existsb (fun x => negb (stage_succeeded (sr_status x))) rs = true <-> Exists failed rs.
Proof.
  rewrite existsb_exists, Exists_exists. unfold failed.
  split; intros (x & Hin & Hx); exists x; (split; [by apply list_elem_of_In|]); destruct (stage_succeeded _); done.
Qed.

Lemma existsb_not_failed rs :
  existsb (fun x => negb (stage_succeeded (sr_status x))) rs = false -> Forall succeeded rs.
Proof.
  intros H. apply Forall_forall. intros x Hin. unfold succeeded.
  destruct (stage_succeeded (sr_status x)) eqn:Es; [done|]. apply not_true_iff_false in H. exfalso. apply H.
  apply existsb_exists. exists x. split; [by apply list_elem_of_In|by rewrite Es].
Qed.

Lemma run_judge_result c base results w rs w' :
  run_judge E c base results w = (Ret rs, w') -> rs = results ++ [result_of "judge" (fst w')].
Proof. unfold run_judge. destruct (model_override _ _ _) as [[[]|e] w1]; [|done]. by intros [= <- <-]. Qed.
End facts.

(** The judge runs exactly when every proposer succeeded.  A debate that
    returns has either the results of all proposers, in their order and all
    successful, followed by the judge's, or the results of the proposers that
    ran, a prefix with a failure among them, and no judge. *)
Theorem judge_needs_all_proposers {F : Type} (E : Env F) (c : DebateConfig) (w w' : World F) (rs : list StageResult) :
  (forall ss h, length (fst (e_gather E ss h)) = length ss) ->
  debate_run E c w = (Ret rs, w') ->
  (exists props, rs = props ++ [result_of "judge" (fst w')]
     /\ map sr_stage props = db_proposers c /\ Forall succeeded props)
  \/ (Exists failed rs /\ map sr_stage rs = take (length rs) (db_proposers c)).
Proof.
  intros Hg. unfold debate_run. set (base := snapshot_head E w).
  destruct (if db_parallel c then _ else _) as [[results|] w1] eqn:Ep; [|done].
  assert (Hst : map sr_stage results = take (length results) (db_proposers c)
                /\ (Forall succeeded results -> length results = length (db_proposers c))).
  { destruct (db_parallel c).
    - apply parallel_results in Ep as [Hst _]; [|done].
      assert (Hlen : length results = length (db_proposers c)) by by rewrite <- Hst, length_map.
      split; [by rewrite Hlen, firstn_all|done].
    - apply sequential_results in Ep as [Hst Hok]. split; [done|]. intros Hall.
      destruct Hok as [[_ Hlen]|(init & last & -> & _ & Hf)]; [done|].
      apply Forall_app in Hall as [_ Hl]. apply Forall_cons in Hl as [Hl _].
      unfold failed, succeeded in *. congruence. }
  destruct (existsb _ results) eqn:Ee.
  - intros [= <- <-]. right. split; [by apply existsb_failed|apply Hst].
  - intros Hj%run_judge_result. left. apply existsb_not_failed in Ee. exists results.
    split; [done|]. split; [|done]. destruct Hst as [Hst Hlen]. by rewrite Hst, Hlen, firstn_all.
Qed.

(** A file system of trees by directory, and git on it. *)
Definition sample_git : Git (dict string string) :=
  mkGit (fun p f => Some "c0") (fun p ref f => dset p "baseline" f) (fun p wt ref f => (true, dset wt "baseline" f))
    (fun p wt f => ddel wt f) (fun wt f => dmem wt f).

Definition sample_session : Session :=
  mkSession 0 "running" "" None "" None None 0 None None None None None None None (Some "/w/repo").

Definition sample_world : World (dict string string) :=
  (sample_session, mkShared "default-model" 20 None [("/w/repo", "baseline")]).

Definition finish_with (status output : string) (s : Session) : Session :=
  mkSession (s_turn_count s) status output (s_end_reason s) (s_end_summary s) (s_run_id s) (s_parent_run_id s)
    (s_consecutive_429 s) (s_rate_limit_pending s) (s_stage_id s) (s_stage_name s) (s_branch_id s)
    (s_prompt_override s) (s_run_kind s) (s_coordinator_mode s) (s_path s).

Definition env_with (agent : M (World (dict string string)) exn unit)
    (gather : list Session -> Shared (dict string string) -> list (outcome exn Session) * Shared (dict string string))
    : Env (dict string string) :=
  mkEnv agent gather sample_git (fun _ n => n) (fun _ => "judge") (fun st _ _ => st) (fun _ st => st) "7"
    (fun _ => "/w") (fun _ f => f) (fun _ => "RuntimeError").

(** An agent that completes, and a gather whose branches all fail. *)
Definition completing : M (World (dict string string)) exn unit := fun w =>
  (Ret tt, (finish_with "completed" "done" (fst w), snd w)).

Definition all_fail (ss : list Session) (h : Shared (dict string string)) :=
  (map (fun s => Ret (finish_with "failed" "" s) : outcome exn Session) ss, h).

Definition good_env : Env (dict string string) := env_with completing all_fail.

Definition two_proposers (isolation : string) (parallel : bool) : DebateConfig :=
  mkDebate ["proposer_a"; "proposer_b"] None isolation [] parallel "pick".

Lemma judge_needs_all_proposers_witness :
  exists rs w', debate_run good_env (two_proposers "reset" false) sample_world = (Ret rs, w')
    /\ length rs = 3%nat
    /\ ((exists props, rs = props ++ [result_of "judge" (fst w')]
           /\ map sr_stage props = ["proposer_a"; "proposer_b"] /\ Forall succeeded props)
        \/ (Exists failed rs /\ map sr_stage rs = take (length rs) ["proposer_a"; "proposer_b"])).
Proof.
  eexists. eexists. split; [vm_compute; reflexivity|]. split; [reflexivity|].
  apply (judge_needs_all_proposers good_env (two_proposers "reset" false) sample_world); [|vm_compute; reflexivity].
  intros ss h. unfold good_env, env_with, all_fail. simpl. by rewrite length_map.
Defined.

(** ** What is restored *)

Section restore.
Context {F : Type} (E : Env F).

(** The shared configuration, and with it the workspace's directory. *)
Definition config_of (h : Shared F) : string * Z * option string := (sh_model h, sh_max_turns h, sh_agent_name h).

Definition kept (w : World F) : string * Z * option string * option string := (config_of (snd w), s_path (fst w)).

Context (Hagent : forall w, kept (snd (e_agent E w)) = kept w).
Context (Hgather : forall ss h, config_of (snd (e_gather E ss h)) = config_of h).

Lemma model_override_kept m w : kept (snd (model_override m (e_agent E) w)) = kept w.
Proof.
  unfold model_override. destruct m as [m|]; [|apply Hagent]. destruct (String.eqb m ""); [apply Hagent|].
  specialize (Hagent (fst w, set_model m (snd w))). destruct (e_agent E _) as [r w'].
  unfold kept, config_of in *. simpl in *. injection Hagent as _ -> -> ->. done.
Qed.

Lemma create_worktree_kept base label w :
  config_of (snd (snd (create_worktree_and_swap E base label w))) = config_of (snd w)
  /\ (fst (create_worktree_and_swap E base label w) = None ->
      s_path (fst (snd (create_worktree_and_swap E base label w))) = s_path (fst w)).
Proof.
  unfold create_worktree_and_swap. destruct w as [s h], (s_path s) as [p|] eqn:Ep, base as [ref|]; simpl; try done.
  by destruct (worktree_add _ _ _ _) as [[] f'].
Qed.

Lemma apply_isolation_kept iso base label w :
  config_of (snd (snd (apply_isolation E iso base label w))) = config_of (snd w)
  /\ (fst (apply_isolation E iso base label w) = None ->
      s_path (fst (snd (apply_isolation E iso base label w))) = s_path (fst w)).
Proof.
  unfold apply_isolation. destruct (String.eqb iso "reset"); [done|].
  destruct (String.eqb iso "worktree"); [apply create_worktree_kept|done].
Qed.

Lemma run_proposer_kept c base i name w :
  kept (snd (run_proposer E c base (s_path (fst w)) i name w)) = kept w.
Proof.
  unfold run_proposer. set (s := enter_stage _ _ _ _).
  destruct (apply_isolation_kept (db_isolation c) base name (s, snd w)) as [Hm Hp].
  destruct (apply_isolation E _ base name (s, snd w)) as [wt w1]. simpl in Hm, Hp.
  set (w2 := (with_prompt _ _ (fst w1), snd w1)).
  pose proof (model_override_kept (dget name (db_proposer_models c)) w2) as Hk.
  destruct (model_override _ _ w2) as [r w3]. simpl in Hk.
  assert (Hw4 : kept (restore_workspace E (s_path (fst w)) wt w3) = kept w).
  { unfold kept in *. unfold restore_workspace. destruct wt as [wt|]; simpl in *.
    - apply (f_equal fst) in Hk. simpl in Hk. f_equal. by rewrite <- Hm, <- Hk.
    - rewrite Hk, Hm. f_equal. by apply Hp. }
  by destruct r.
Qed.

Lemma sequential_kept c base i names w :
  kept (snd (run_proposers_sequential E c base (s_path (fst w)) i names w)) = kept w.
Proof.
  revert i w. induction names as [|name names IH]; intros i w; [done|]. cbn [run_proposers_sequential].
  pose proof (run_proposer_kept c base i name w) as Hk.
  destruct (run_proposer E c base (s_path (fst w)) i name w) as [[r|] w1]; [|done]. simpl in Hk.
  destruct (stage_succeeded _); [|done].
  assert (Hp : s_path (fst w1) = s_path (fst w)) by (unfold kept in Hk; congruence).
  specialize (IH (S i) w1). rewrite Hp in IH.
  destruct (run_proposers_sequential E c base (s_path (fst w)) (S i) names w1) as [[rs|] w2]; simpl in *; congruence.
Qed.

Lemma set_up_model base i names s h : config_of (snd (set_up_branches E base i names s h)) = config_of h.
Proof.
  revert i h. induction names as [|name names IH]; intros i h; [done|]. cbn [set_up_branches].
  destruct (create_worktree_kept base name
    (enter_stage ("debate:" +:+ name) name (Some name) (reset_session_for_next_stage (fork_session s)), h)) as [Hm _].
  destruct (create_worktree_and_swap E base name _) as [wt w1]. simpl in Hm.
  specialize (IH (S i) (snd w1)). destruct (set_up_branches E base (S i) names s (snd w1)). simpl in *. congruence.
Qed.

Lemma parallel_kept c base w : kept (snd (run_proposers_parallel E c base w)) = kept w.
Proof.
  unfold run_proposers_parallel. destruct w as [s h].
  pose proof (set_up_model base 0 (db_proposers c) s h) as Hm.
  destruct (set_up_branches E base 0 (db_proposers c) s h) as [branches h1]. simpl in Hm.
  specialize (Hgather (map (fun b => snd (fst b)) branches) h1).
  destruct (e_gather E _ h1) as [outs h2]. unfold kept, config_of in *. simpl in *. congruence.
Qed.

Lemma run_judge_kept c base results w : kept (snd (run_judge E c base results w)) = kept w.
Proof.
  unfold run_judge. set (w0 := (with_prompt _ _ _, _)).
  pose proof (model_override_kept (db_judge_model c) w0) as Hk.
  destruct (model_override _ _ w0) as [r w1]. simpl in Hk.
  assert (H0 : kept w0 = kept w) by (unfold kept, w0; simpl; by destruct (String.eqb _ _)).
  destruct r; simpl; congruence.
Qed.

Lemma debate_kept c w : kept (snd (debate_run E c w)) = kept w.
Proof.
  unfold debate_run. set (base := snapshot_head E w).
  assert (Hp : kept (snd (if db_parallel c then run_proposers_parallel E c base w
                          else run_proposers_sequential E c base (s_path (fst w)) 0 (db_proposers c) w)) = kept w).
  { destruct (db_parallel c); [apply parallel_kept|apply sequential_kept]. }
  destruct (if db_parallel c then _ else _) as [[results|] w1]; [|done]. simpl in Hp.
  destruct (existsb _ results); [done|]. by rewrite run_judge_kept.
Qed.
End restore.

(** A debate gives back what it borrowed.  If the agent's own runs leave the
    model, the turn limit, the agent's name and the directory of the workspace
    alone, then so does a debate, whichever isolation and models it is
    configured with, in parallel or not, and also when a run raises: the swaps
    of the model for a proposer or the judge and of the directory for a worktree
    are all undone. *)
Theorem debate_restores {F : Type} (E : Env F) (c : DebateConfig) (w : World F) :
  (forall w, kept (snd (e_agent E w)) = kept w) ->
  (forall ss h, config_of (snd (e_gather E ss h)) = config_of h) ->
  kept (snd (debate_run E c w)) = kept w.
Proof. intros H1 H2. by apply debate_kept. Qed.

(** An agent that fails with an exception. *)
Definition raising : M (World (dict string string)) exn unit := fun w =>
  (Raise (mkExn OtherException [Lit "boom"] None), w).

Lemma debate_restores_witness :
  kept (snd (debate_run (env_with raising all_fail)
            (mkDebate ["a"; "b"] (Some "big") "worktree" [("a", "small")] false "pick") sample_world))
  = ("default-model", 20, None, Some "/w/repo").
Proof.
  apply (debate_restores (env_with raising all_fail)
           (mkDebate ["a"; "b"] (Some "big") "worktree" [("a", "small")] false "pick") sample_world); done.
Defined.

(** ** Isolation by reset *)

Definition with_agent {F : Type} (a : M (World F) exn unit) (E : Env F) : Env F :=
  mkEnv a (e_gather E) (e_git E) (e_proposer_prompt E) (e_judge_prompt E) (e_stage_prompt E) (e_retry_note E)
    (e_issue_id E) (e_parent_of E) (e_ensure_team_file E) (e_exn_text E).

Section isolation.
Context {F T : Type} (E : Env F) (tree : string -> F -> T) (commit : string -> T).
Context (a a' : M (World F) exn unit) (p ref : string).
(** [git reset --hard] and [git clean] bring a directory to a commit. *)
Context (Hreset : forall p ref f, tree p (reset_hard (e_git E) p ref f) = commit ref).
(** The agent stays in its directory. *)
Context (Hpath : forall w, s_path (fst (snd (a w))) = s_path (fst w)).

(** A run that starts in the workspace as it was committed. *)
Definition starts_clean (w : World F) : Prop := s_path (fst w) = Some p /\ tree p (sh_fs (snd w)) = commit ref.

Context (Hagree : forall w, starts_clean w -> a w = a' w).

Lemma model_override_agree m w : starts_clean w -> model_override m a w = model_override m a' w.
Proof.
  intros Hw. unfold model_override. destruct m as [m|]; [|by apply Hagree].
  destruct (String.eqb m ""); [by apply Hagree|]. rewrite (Hagree (fst w, set_model m (snd w))); [done|]. exact Hw.
Qed.

Lemma model_override_path m w : s_path (fst (snd (model_override m a w))) = s_path (fst w).
Proof.
  unfold model_override. destruct m as [m|]; [|apply Hpath]. destruct (String.eqb m ""); [apply Hpath|].
  specialize (Hpath (fst w, set_model m (snd w))). by destruct (a _).
Qed.

Lemma reset_proposer_agree c orig i name w :
  db_isolation c = "reset" -> s_path (fst w) = Some p ->
  run_proposer (with_agent a E) c (Some ref) orig i name w = run_proposer (with_agent a' E) c (Some ref) orig i name w
  /\ s_path (fst (snd (run_proposer (with_agent a E) c (Some ref) orig i name w))) = Some p.
Proof.
  intros Hiso Hw. unfold run_proposer, apply_isolation. rewrite Hiso. cbn [String.eqb Ascii.eqb Bool.eqb fst snd].
  simpl (String.eqb "reset" "reset"). cbv iota zeta. cbn [e_agent with_agent e_proposer_prompt fst snd].
  set (w2 := (with_prompt _ _ _, _)).
  assert (Hc : starts_clean w2).
  { split; [done|]. unfold w2, reset_workspace_to. simpl. rewrite Hw. apply Hreset. }
  pose proof (model_override_path (dget name (db_proposer_models c)) w2) as Hp.
  change (set_fs (reset_workspace_to (with_agent a' E) _ _ _) _) with
    (set_fs (reset_workspace_to (with_agent a E)
       (enter_stage ("debate:" +:+ name) name (Some name) (reset_session_for_next_stage (fst w))) (Some ref)
       (sh_fs (snd w))) (snd w)).
  fold w2. rewrite <- (model_override_agree _ w2 Hc).
  destruct (model_override _ a w2) as [[[]|e] w3]; simpl in *; rewrite Hp; split; try done; by rewrite Hw.
Qed.

Lemma reset_sequential_agree c orig i names w :
  db_isolation c = "reset" -> s_path (fst w) = Some p ->
  run_proposers_sequential (with_agent a E) c (Some ref) orig i names w
  = run_proposers_sequential (with_agent a' E) c (Some ref) orig i names w
  /\ s_path (fst (snd (run_proposers_sequential (with_agent a E) c (Some ref) orig i names w))) = Some p.
Proof.
  intros Hiso. revert i w. induction names as [|name names IH]; intros i w Hw; [done|].
  cbn [run_proposers_sequential]. destruct (reset_proposer_agree c orig i name w Hiso Hw) as [<- Hp].
  destruct (run_proposer (with_agent a E) c (Some ref) orig i name w) as [[r|e] w1]; simpl in Hp; [|done].
  destruct (stage_succeeded _); [|done]. destruct (IH (S i) w1 Hp) as [<- Hp'].
  by destruct (run_proposers_sequential (with_agent a E) c (Some ref) orig (S i) names w1) as [[rs|e] w2].
Qed.

Lemma reset_judge_agree c results w :
  db_isolation c = "reset" -> s_path (fst w) = Some p ->
  run_judge (with_agent a E) c (Some ref) results w = run_judge (with_agent a' E) c (Some ref) results w.
Proof.
  intros Hiso Hw. unfold run_judge. rewrite Hiso. simpl (String.eqb "reset" "reset"). cbv iota zeta.
  cbn [e_agent with_agent e_judge_prompt fst snd].
  rewrite model_override_agree; [done|]. split; [done|]. unfold reset_workspace_to. simpl. rewrite Hw. apply Hreset.
Qed.
End isolation.

(** With reset isolation no stage sees what another did.  In a sequential
    debate every run of the agent, of each proposer and of the judge, starts in
    the workspace as it was committed: replacing the agent by one that behaves
    alike there and arbitrarily anywhere else changes nothing, whatever the
    proposers write into the workspace. *)
Theorem reset_isolation {F T : Type} (E : Env F) (tree : string -> F -> T) (commit : string -> T)
    (a a' : M (World F) exn unit) (c : DebateConfig) (w : World F) (p ref : string) :
  (forall p ref f, tree p (reset_hard (e_git E) p ref f) = commit ref) ->
  (forall w, s_path (fst (snd (a w))) = s_path (fst w)) ->
  (forall w, starts_clean tree commit p ref w -> a w = a' w) ->
  db_isolation c = "reset" -> db_parallel c = false ->
  s_path (fst w) = Some p -> rev_parse (e_git E) p (sh_fs (snd w)) = Some ref ->
  debate_run (with_agent a E) c w = debate_run (with_agent a' E) c w.
Proof.
  intros Hreset Hpath Hagree Hiso Hpar Hw Href. unfold debate_run. rewrite Hpar.
  unfold snapshot_head. rewrite Hw. cbn [e_git with_agent]. rewrite Href.
  destruct (reset_sequential_agree E tree commit a a' p ref Hreset Hpath Hagree c (Some p) 0 (db_proposers c) w Hiso Hw)
    as [<- Hp].
  destruct (run_proposers_sequential (with_agent a E) c (Some ref) (Some p) 0 (db_proposers c) w) as [[rs|e] w1];
    [|done]. simpl in Hp.
  destruct (existsb _ rs); [done|]. by apply (reset_judge_agree E tree commit a a' p ref Hreset Hagree c rs w1).
Qed.

(** A proposer that edits the files, and one that would notice. *)
Definition editing : M (World (dict string string)) exn unit := fun w =>
  (Ret tt, (finish_with "completed" "" (fst w), set_fs (dset "/w/repo" "edited" (sh_fs (snd w))) (snd w))).

Definition watchful : M (World (dict string string)) exn unit := fun w =>
  if bool_decide (dget "/w/repo" (sh_fs (snd w)) = Some "baseline") then editing w
  else (Raise (mkExn OtherException [Lit "contaminated"] None), w).

Lemma reset_isolation_witness :
  debate_run (with_agent editing good_env) (two_proposers "reset" false) sample_world
  = debate_run (with_agent watchful good_env) (two_proposers "reset" false) sample_world.
Proof.
  apply (reset_isolation good_env (fun p f => dget p f) (fun _ => Some "baseline") editing watchful
           (two_proposers "reset" false) sample_world "/w/repo" "c0"); try done.
  - intros p ref f. apply dget_dset_eq.
  - intros w [_ Hw]. unfold watchful. by rewrite bool_decide_true.
Defined.

(** ** Worktrees that are shared *)

(** Proposers with similar names share a worktree.  The directory of a
    proposer's worktree is made from the name with every run of other
    characters replaced and cut to forty characters: two proposers whose names
    agree in that get one directory, the second set-up replaces the first's
    worktree, and the two parallel branches then run in the same files. *)
Theorem proposers_share_worktree {F : Type} (E : Env F) (base p a b : string) (s : Session) (h : Shared F) :
  s_path s = Some p -> safe_name a = safe_name b ->
  (forall p wt ref f, fst (worktree_add (e_git E) p wt ref f) = true) ->
  exists wt, map (fun br => (s_path (snd (fst br)), snd br)) (fst (set_up_branches E (Some base) 0 [a; b] s h))
             = [(Some wt, Some wt); (Some wt, Some wt)].
Proof.
  intros Hp Hab Hadd. exists (worktree_path E (e_parent_of E p) a).
  cbn [set_up_branches]. unfold create_worktree_and_swap. cbn [s_path enter_stage reset_session_for_next_stage fork_session].
  rewrite !Hp.
  assert (Hwt : worktree_path E (e_parent_of E p) b = worktree_path E (e_parent_of E p) a)
    by (unfold worktree_path; by rewrite Hab).
  rewrite Hwt. cbv zeta.
  match goal with |- context [worktree_add ?g ?q ?wt ?r ?f] =>
    pose proof (Hadd q wt r f) as H1; destruct (worktree_add g q wt r f) as [ok1 f1] end.
  simpl in H1. subst ok1. cbn [fst snd].
  match goal with |- context [worktree_add ?g ?q ?wt ?r ?f] =>
    pose proof (Hadd q wt r f) as H2; destruct (worktree_add g q wt r f) as [ok2 f2] end.
  simpl in H2. subst ok2. done.
Qed.

Lemma proposers_share_worktree_witness :
  exists wt, map (fun br => (s_path (snd (fst br)), snd br))
               (fst (set_up_branches good_env (Some "c0") 0 ["fast mover"; "fast_mover"] sample_session (snd sample_world)))
             = [(Some wt, Some wt); (Some wt, Some wt)].
Proof. by apply (proposers_share_worktree good_env "c0" "/w/repo" "fast mover" "fast_mover"). Defined.

(** ** Pipeline *)

Section pipeline.
Context {F : Type} (E : Env F).

Lemma stage_attempts_result left c stage prior attempt note w r w' :
  stage_attempts E left c stage prior attempt note w = (Ret r, w') -> r = pipeline_result stage (fst w').
Proof.
  revert attempt note w. induction left as [|left IH]; intros attempt note w; cbn [stage_attempts];
    destruct (stage_attempt E c stage prior attempt note w) as [[[]|e] w1]; try done;
    destruct (stage_succeeded _); try (by intros [= <- <-]); apply IH.
Qed.

Lemma run_stages_results c stages prior w rs w' :
  run_stages E c stages prior w = (Ret rs, w') -> Forall succeeded prior ->
  exists more, rs = prior ++ more
    /\ map sr_stage more = take (length more) stages
    /\ (Forall succeeded more /\ length more = length stages
        \/ exists init last, more = init ++ [last] /\ Forall succeeded init /\ failed last)
    /\ (forall init last, more = init ++ [last] -> sr_status last = s_status (fst w')).
Proof.
  revert prior w. induction stages as [|stage stages IH]; intros prior w; cbn [run_stages].
  { intros [= <- <-] _. exists []. split; [by rewrite app_nil_r|]. split; [done|]. split; [by left|].
    intros [|] last; done. }
  destruct (run_stage_with_retry E c stage prior w) as [[r|e] w1] eqn:Er; [|done].
  apply stage_attempts_result in Er as ->.
  destruct (stage_succeeded _) eqn:Es; intros H Hprior.
  - destruct (IH _ _ H) as (more & -> & Hst & Hok & Hlast); [apply Forall_app; by split; [|constructor]|].
    exists (pipeline_result stage (fst w1) :: more). split; [by rewrite <- app_assoc|].
    split; [simpl; by rewrite Hst|]. split.
    + destruct Hok as [[Hall Hlen]|(init & last & -> & Hinit & Hl)].
      * left. split; [by constructor|simpl; lia].
      * right. exists (pipeline_result stage (fst w1) :: init), last. split; [done|]. by split; [constructor|].
    + intros init last Eq. destruct more as [|x more] using rev_ind.
      * destruct stages; simpl in *; [|by destruct Hok as [[_ ?]|(i & l & Hi & _)]; [|destruct i]].
        injection H as _ <-. destruct init as [|y init]; [by injection Eq as <-|].
        apply (f_equal length) in Eq. simpl in Eq. rewrite length_app in Eq. simpl in Eq. lia.
      * rewrite app_comm_cons in Eq. apply app_inj_tail in Eq as [_ <-]. by eapply Hlast.
  - injection H as <- <-. exists [pipeline_result stage (fst w1)]. split; [done|]. split; [done|]. split.
    + right. exists [], (pipeline_result stage (fst w1)). split; [done|]. by split; [constructor|].
    + intros [|y init] last Eq; [by injection Eq as <-|]. apply (f_equal length) in Eq. simpl in Eq.
      rewrite length_app in Eq. simpl in Eq. lia.
Qed.
End pipeline.

(** The stages of a pipeline.  A pipeline that returns ran its stages in
    order up to the first that failed after its retries: the results are those
    of a prefix of the stages, all of them successful and complete, or all but
    the last successful and the last failed; and the status of the session is
    that of the last stage that ran. *)
Theorem pipeline_stops_at_failure {F : Type} (E : Env F) (c : PipelineConfig) (w w' : World F) (rs : list StageResult) :
  pipeline_run E c w = (Ret rs, w') ->
  map sr_stage rs = take (length rs) (pl_stages c)
  /\ (Forall succeeded rs /\ length rs = length (pl_stages c)
      \/ exists init last, rs = init ++ [last] /\ Forall succeeded init /\ failed last)
  /\ (forall init last, rs = init ++ [last] -> sr_status last = s_status (fst w')).
Proof. intros H. apply run_stages_results in H as (more & -> & Hm); [done|constructor]. Qed.

Definition three_stages (kinds : dict string stage_kind) : PipelineConfig :=
  mkPipeline ["analyzer"; "implementer"; "tester"] 1 [("analyzer", "big")] [("tester", 5)] kinds true.

Lemma pipeline_stops_at_failure_witness :
  exists rs w', pipeline_run good_env (three_stages []) sample_world = (Ret rs, w')
    /\ map sr_stage rs = take (length rs) ["analyzer"; "implementer"; "tester"]
    /\ length rs = 3%nat.
Proof.
  eexists. eexists. split; [vm_compute; reflexivity|]. split; [|reflexivity].
  apply (pipeline_stops_at_failure good_env (three_stages []) sample_world
           (snd (pipeline_run good_env (three_stages []) sample_world))).
  vm_compute. reflexivity.
Defined.

(** *** What a pipeline restores *)

Section pipeline_restore.
Context {F : Type} (E : Env F).
Context (Hagent : forall w, kept (snd (e_agent E w)) = kept w).
Context (Hgather : forall ss h, config_of (snd (e_gather E ss h)) = config_of h).

Lemma run_kind_kept c stage w : kept (snd (run_kind_of E c stage w)) = kept w.
Proof.
  unfold run_kind_of. destruct (dget stage (pl_stage_kinds c)) as [[|d|]|]; [apply Hagent| | |apply Hagent].
  - pose proof (debate_kept E Hagent Hgather d w) as H. by destruct (debate_run E d w).
  - unfold run_coordinator. pose proof (Hagent (with_coordinator (Some true) (fst w), snd w)) as H.
    destruct (e_agent E _) as [r w']. unfold kept in *. simpl in *. congruence.
Qed.

(** The swaps of a stage are undone. *)
Lemma stage_override_kept c stage w : kept (snd (stage_override c stage (run_kind_of E c stage) w)) = kept w.
Proof.
  unfold stage_override. destruct w as [s [m n a f]]. cbn [fst snd].
  set (h1 := if pl_mailbox c then _ else _). set (model := match dget stage (pl_stage_models c) with Some _ => _ | None => _ end).
  set (h2 := match model with Some _ => _ | None => _ end).
  set (turns := match dget stage (pl_stage_max_turns c) with Some _ => _ | None => _ end).
  set (h3 := match turns with Some _ => _ | None => _ end).
  pose proof (run_kind_kept c stage (s, h3)) as Hrun. destruct (run_kind_of E c stage (s, h3)) as [r [s' h']].
  unfold kept, config_of in *. simpl in *. injection Hrun as H1 H2 H3 H4.
  clearbody model turns. unfold h3, h2, h1 in *.
  destruct model, turns, (pl_mailbox c); simpl in *; congruence.
Qed.

Lemma stage_attempts_kept left c stage prior attempt note w :
  kept (snd (stage_attempts E left c stage prior attempt note w)) = kept w.
Proof.
  revert attempt note w. induction left as [|left IH]; intros attempt note w; cbn [stage_attempts];
    unfold stage_attempt; set (w0 := (with_prompt _ _ _, snd w)); pose proof (stage_override_kept c stage w0) as H;
    destruct (stage_override c stage _ w0) as [[[]|e] w1]; simpl in H; try done;
    destruct (stage_succeeded _); try done; simpl. by rewrite IH.
Qed.

Lemma mailbox_set_up_kept c w : kept (mailbox_set_up E c w) = kept w.
Proof. unfold mailbox_set_up. by destruct (pl_mailbox c). Qed.

Lemma run_stages_kept c stages prior w : kept (snd (run_stages E c stages prior w)) = kept w.
Proof.
  revert prior w. induction stages as [|stage stages IH]; intros prior w; cbn [run_stages]; [done|].
  pose proof (stage_attempts_kept (Z.to_nat (pl_max_retries c)) c stage prior 0 "" (mailbox_set_up E c w)) as H.
  rewrite mailbox_set_up_kept in H. unfold run_stage_with_retry.
  destruct (stage_attempts E _ c stage prior 0 "" _) as [[r|e] w1]; simpl in H; [|done].
  destruct (stage_succeeded _); [|done]. by rewrite IH.
Qed.
End pipeline_restore.

(** A pipeline gives back what it borrowed.  If the agent's own runs leave
    the model, the turn limit, the agent's name and the directory alone, then so
    does a pipeline with its stage overrides, retries and nested debates and
    coordinators, whether it returns or raises. *)
Theorem pipeline_restores {F : Type} (E : Env F) (c : PipelineConfig) (w : World F) :
  (forall w, kept (snd (e_agent E w)) = kept w) ->
  (forall ss h, config_of (snd (e_gather E ss h)) = config_of h) ->
  kept (snd (pipeline_run E c w)) = kept w.
Proof. intros H1 H2. unfold pipeline_run. by rewrite run_stages_kept, mailbox_set_up_kept. Qed.

Lemma pipeline_restores_witness :
  kept (snd (pipeline_run (env_with raising all_fail) (three_stages []) sample_world))
  = ("default-model", 20, None, Some "/w/repo").
Proof. by apply (pipeline_restores (env_with raising all_fail) (three_stages []) sample_world). Defined.

(** *** A failure that is hidden *)

(** The failure of a nested parallel debate is hidden.  The proposers of a
    parallel debate run on copies of the session, so when one of them fails the
    debate returns without a judge and without touching the session, whose
    status is still the "running" that the pipeline set before the stage; and
    "running" counts as success: the stage is neither retried nor does it stop
    the pipeline. *)
Theorem nested_debate_failure_hidden {F : Type} (E : Env F) (c : PipelineConfig) (d : DebateConfig) (stage : string)
    (prior : list StageResult) (w w' : World F) (r : outcome exn StageResult) :
  dget stage (pl_stage_kinds c) = Some (KDebate d) -> db_parallel d = true -> db_proposers d <> [] ->
  (forall ss h, length (fst (e_gather E ss h)) = length ss
     /\ Forall (fun o => exists s, o = Ret s /\ stage_succeeded (s_status s) = false) (fst (e_gather E ss h))) ->
  run_stage_with_retry E c stage prior w = (r, w') ->
  r = Ret (mkStageResult stage "running" "") /\ stage_succeeded "running" = true.
Proof.
  intros Hkind Hpar Hne Hg H. split; [|done].
  assert (Hdebate : forall w0, exists rs h, debate_run E d w0 = (Ret rs, (fst w0, h))).
  { intros [s h]. unfold debate_run. rewrite Hpar. unfold run_proposers_parallel.
    set (base := snapshot_head E (s, h)).
    pose proof (set_up_length E base 0 (db_proposers d) s h) as Hlen.
    destruct (set_up_branches E base 0 (db_proposers d) s h) as [branches h1]. simpl in Hlen.
    destruct (Hg (map (fun b => snd (fst b)) branches) h1) as [Hl Hf].
    destruct (e_gather E _ h1) as [outs h2]. simpl in Hl, Hf. rewrite length_map in Hl.
    destruct (existsb _ _) eqn:Ee; [eauto|]. exfalso.
    apply existsb_not_failed in Ee.
    destruct branches as [|b branches]; [destruct (db_proposers d); done|].
    destruct outs as [|o outs]; [done|]. simpl in Ee. apply Forall_cons in Ee as [Hs _].
    apply Forall_cons in Hf as [(s0 & -> & Hf) _]. unfold succeeded in Hs. simpl in Hs. congruence. }
  assert (Hattempt : forall attempt note w0, exists h,
    stage_attempt E c stage prior attempt note w0
    = (Ret tt, (with_prompt (e_stage_prompt E stage prior note) (run_kind_name stage attempt)
                  (enter_stage ("pipeline:" +:+ stage) stage None (reset_session_for_next_stage (fst w0))), h))).
  { intros attempt note w0. unfold stage_attempt, stage_override. cbn [fst snd].
    set (h3 := match _ with Some n => set_max_turns n _ | None => _ end).
    unfold run_kind_of. rewrite Hkind. set (w3 := (_, h3)).
    destruct (Hdebate w3) as (rs & h & ->). cbn [fst snd]. eauto. }
  unfold run_stage_with_retry in H.
  destruct (Hattempt 0 "" (mailbox_set_up E c w)) as [h Eh].
  destruct (Z.to_nat (pl_max_retries c)) as [|left]; cbn [stage_attempts] in H; rewrite Eh in H;
    simpl (stage_succeeded _) in H; injection H as <- _; done.
Qed.

Definition debating : dict string stage_kind := [("implementer", KDebate (two_proposers "worktree" true))].

Lemma nested_debate_failure_hidden_witness :
  exists w', run_stage_with_retry good_env (three_stages debating) "implementer" [] sample_world
             = (Ret (mkStageResult "implementer" "running" ""), w').
Proof.
  destruct (run_stage_with_retry good_env (three_stages debating) "implementer" [] sample_world) as [r w'] eqn:E.
  exists w'. f_equal.
  apply (nested_debate_failure_hidden good_env (three_stages debating) (two_proposers "worktree" true) "implementer"
           [] sample_world w' r); [done|done|done| |done].
  intros ss h. unfold good_env, env_with, all_fail. simpl. split; [by rewrite length_map|].
  apply Forall_forall. intros o (s & -> & _)%list_elem_of_fmap. eauto.
Defined.
