(* ===== verification/Interpret.v ===== *)
(** * The end of a run
    ([src/orchestratord/applications/issue_pr/lifecycle.py])

    [interpret_sync_result] and [interpret]: what the final status of a session
    makes of the registry, the tracker, the retry queue and the notifications.
    The registry and [_schedule_retry] are those of the other components; the
    tracker is the state it was last told for each issue.  What it answers to a
    call is a parameter: it accepts the update or fails, which is logged, or the
    call is cancelled, which [except Exception] does not catch.  The text of the
    summary comment and the dashboard do not feed back and are left out. *)

From S2P Require Import Prelude Errors Dag StageRunner IssueRegistry RegistryFacts Kernel RetryQueue.

Open Scope string_scope.
Open Scope list_scope.
Open Scope Z_scope.

(** What is read of an [AgentSession] besides what [_schedule_retry] reads. *)
Record RunSession := mkRunSession {
  rs_session : Session;
  rs_end_summary : string;
  rs_verification_status : option string;
  rs_verification_output : option string;
  rs_last_hook_error : option string;
  rs_operator_failure_detail : option string;
}.

Definition run_status (s : RunSession) : string := ses_status (rs_session s).
Definition run_issue (s : RunSession) : string := ses_id (rs_session s).

(** The host: the orchestrator, the issues held for review, the tracker's view
    of the issues and the notifications sent. *)
Record Host := mkHost {
  h_orch : Orch;
  h_pending_review : list string;
  h_tracker : dict string string;
  h_events : list (string * string);
  h_calls : nat;
}.

Definition set_orch (o : Orch) (h : Host) : Host := mkHost o (h_pending_review h) (h_tracker h) (h_events h) (h_calls h).
Definition set_tracker (d : dict string string) (h : Host) : Host :=
  mkHost (h_orch h) (h_pending_review h) d (h_events h) (h_calls h).
(** One more call of the tracker *)
Definition count_call (h : Host) : Host :=
  mkHost (h_orch h) (h_pending_review h) (h_tracker h) (h_events h) (S (h_calls h)).

(** The answer to a call of the tracker; a call that is cancelled may have had
    its effect. *)
Inductive answer :=
| Accepted
| Refused
| Interrupted (applied : bool).

(** The tracker: its answer to the [n]-th call of the run, an update of the state
    of an issue or a summary comment on it. *)
Record Tracker := mkTracker {
  tr_update : nat -> string -> string -> answer;
  tr_comment : nat -> string -> answer;
}.

(** What an interpretation raises *)
Inductive iexn :=
| IRaised (e : exn)
| ICancelled.

(** [_emit_im_event] *)
Definition emit (id kind : string) (h : Host) : Host :=
  mkHost (h_orch h) (h_pending_review h) (h_tracker h) (h_events h ++ [(id, kind)]) (h_calls h).

(** A call of the registry *)
Definition on_registry (f : Registry -> Registry) (h : Host) : Host :=
  set_orch (set_registry (f (oc_registry (h_orch h))) (h_orch h)) h.

(** [self._state.completed.add] *)
Definition add_completed (id : string) (h : Host) : Host :=
  let o := h_orch h in
  set_orch (mkOrch (oc_max_concurrent o) (oc_running o)
              (if mem id (oc_completed o) then oc_completed o else id :: oc_completed o)
              (oc_claimed o) (oc_retry_queue o) (oc_retry_attempts o) (oc_registry o)) h.

(** The delays of [workflow.agent] for two of the endings. *)
Record RunConfig := mkRunConfig {
  rc_agent : AgentConfig;
  rc_max_turns_retry_delay_ms : Z;
  rc_rate_limit_max_backoff_ms : Z;
}.

(** The ticks of the registry calls of one interpretation. *)
Record Ticks := mkTicks {
  tk_mark : Tick;
  tk_report : Tick;
  tk_report_again : Tick;
  tk_run : Tick;
  tk_retry : Tick;
}.

Section interpret.
Context (cfg : RunConfig) (tk : Ticks) (tracker : Tracker).

(** [_sync_tracker_issue_state] *)
Definition sync_tracker (id state : string) : M Host iexn unit := fun h =>
  let told := set_tracker (dset id state (h_tracker h)) (count_call h) in
  if String.eqb id "" then (Ret tt, h)
  else match tr_update tracker (h_calls h) id state with
       | Accepted => (Ret tt, told)
       | Refused => (Ret tt, count_call h)
       | Interrupted applied => (Raise ICancelled, if applied then told else count_call h)
       end.

(** The call of [_update_issue_summary] *)
Definition update_issue_summary (id : string) : M Host iexn unit := fun h =>
  match tr_comment tracker (h_calls h) id with
  | Interrupted _ => (Raise ICancelled, count_call h)
  | _ => (Ret tt, count_call h)
  end.

(** The session has used up its retries: the branch of [_schedule_retry] that
    abandons the issue and tells the tracker. *)
Definition retries_exhausted (s : Session) (o : Orch) : bool :=
  negb (non_retryable (ses_end_reason s))
  && negb (max_retry_attempts (rc_agent cfg) =? 0)
  && (max_retry_attempts (rc_agent cfg) <? default 0 (dget (ses_id s) (oc_retry_attempts o)) + 1).

(** [_schedule_retry] with its update of the tracker *)
Definition host_schedule_retry (s : Session) (delay_base_ms : option Z) : M Host iexn bool := fun h =>
  let (r, o) := schedule_retry (rc_agent cfg) (tk_run tk) (tk_retry tk) s delay_base_ms (h_orch h) in
  let h' := set_orch o h in
  match r with
  | Raise e => (Raise (IRaised e), h')
  | Ret b => if retries_exhausted s (h_orch h) then (sync_tracker (ses_id s) "abandoned";; mret b) h' else (Ret b, h')
  end.

(** Schedule a retry, and close the issue on the tracker unless there is one. *)
Definition retry_or_close (s : Session) (delay_base_ms : option Z) (state reason : string) : M Host iexn Outcome :=
  scheduled ← host_schedule_retry s delay_base_ms;
  if scheduled : bool then mret (retry None reason)
  else sync_tracker (ses_id s) state;; mret (dispose reason).

(** [a or b or c] on optional texts *)
Definition first_text (a b : option string) (c : string) : string := default c (str_or a (str_or b None)).

(** [record and record.pr_number] *)
Definition has_pr_number (id : string) (g : Registry) : bool :=
  match get id g with
  | Some r => is_some (str_or (pr_number (sync r)) None)
  | None => false
  end.

(** The chain of endings of [interpret]. *)
Definition ending (s : RunSession) : M Host iexn Outcome := fun h =>
  let id := run_issue s in
  let core := rs_session s in
  let status := run_status s in
  if mem id (h_pending_review h) then (Ret (wait_external "pending_review"), h)
  else if String.eqb status "completed" then
    let h := on_registry (mark_completed (tk_mark tk) id) (add_completed id (emit id "issue.completed" h)) in
    if has_pr_number id (oc_registry (h_orch h)) then (Ret (dispose "completed"), h)
    else (sync_tracker id "completed";; mret (dispose "completed")) h
  else if String.eqb status "verification_failed" then
    retry_or_close core None "verification_failed" "verification_failed"
      (on_registry (mark_verification_failed (tk_mark tk) id (rs_verification_output s) (rs_last_hook_error s)) h)
  else if String.eqb status "agent_timeout" then
    retry_or_close core None "failed" "agent_timeout"
      (on_registry (mark_failed_with_reason (tk_mark tk) id
                      (first_text (rs_last_hook_error s) (rs_verification_output s) "Agent run timed out")) h)
  else if String.eqb status "max_turns_exceeded" then
    retry_or_close core (Some (rc_max_turns_retry_delay_ms cfg)) "failed" "max_turns_exceeded"
      (on_registry (mark_failed (tk_mark tk) id) (emit id "agent.max_turns_exceeded" h))
  else if String.eqb status "rate_limit_circuit_open" then
    retry_or_close core (Some (rc_rate_limit_max_backoff_ms cfg)) "failed" "rate_limit_circuit_open"
      (on_registry (mark_failed (tk_mark tk) id) (emit id "agent.rate_limit_circuit_open" h))
  else if mem status ["stagnation"; "loop_detected"] then
    (sync_tracker id "failed";; mret (dispose status))
      (on_registry (mark_failed (tk_mark tk) id) (emit id ("agent." +:+ status) h))
  else if String.eqb status "cancelled" then
    (sync_tracker id "failed";; mret (dispose "cancelled"))
      (on_registry (mark_failed (tk_mark tk) id) (emit id "issue.cancelled" h))
  else if String.eqb status "released" then (Ret (dispose "released"), h)
  else
    let h := emit id "issue.failed" h in
    let report t := update_report t id None None None None (ses_end_reason core) (Some (rs_end_summary s)) in
    let h := match str_or (rs_operator_failure_detail s) None with
             | Some detail =>
                 on_registry (report (tk_report tk)) (on_registry (mark_failed_with_reason (tk_mark tk) id detail) h)
             | None => on_registry (mark_failed (tk_mark tk) id) h
             end in
    retry_or_close core None "failed" status (on_registry (report (tk_report_again tk)) h).

(** [interpret]: the ending, and the summary comment *)
Definition summarize (s : RunSession) : M Host iexn unit := fun h =>
  if mem (run_issue s) (h_pending_review h) || String.eqb (run_status s) "released" then (Ret tt, h)
  else update_issue_summary (run_issue s) h.
Definition interpret (s : RunSession) : M Host iexn Outcome := o ← ending s; summarize s;; mret o.
End interpret.

(** [interpret_sync_result]: a run without a commit to review is a failure. *)
Definition interpret_sync_result (sync_end_reason : option string) (s : RunSession) : bool * RunSession :=
  let summary := "Agent did not produce any file modifications; no PR was created." in
  if bool_decide (sync_end_reason = Some "empty_branch_no_commits") then
    (true, mkRunSession
             (mkSession (ses_id (rs_session s)) (ses_identifier (rs_session s)) (ses_run_id (rs_session s))
                (Some "empty_branch_no_commits") "failed")
             summary (Some "failed") (Some summary) (Some summary) (rs_operator_failure_detail s))
  else (false, s).

(** ** Scheduling seen from the host *)

Lemma remember_run_status t id run g r :
  get id g = Some r -> exists r', get id (remember_run t id run g) = Some r' /\ status r' = status r.
Proof.
  intros Hr. unfold remember_run. destruct run as [run|]; [|by exists r].
  rewrite Hr. destruct (_ || _); [by exists r|].
  eexists. unfold get. rewrite save_records. simpl. by rewrite dget_dset_eq.
Qed.

Section facts.
Context (cfg : RunConfig) (tk : Ticks) (tracker : Tracker).

Local Abbreviation queue h := (oc_retry_queue (h_orch h)).

Lemma sync_tracker_orch id state h : h_orch (snd (sync_tracker tracker id state h)) = h_orch h.
Proof.
  unfold sync_tracker. destruct (String.eqb id ""); [done|].
  by destruct (tr_update tracker _ id state) as [| |[]].
Qed.

Lemma sync_tracker_review id state h : h_pending_review (snd (sync_tracker tracker id state h)) = h_pending_review h.
Proof.
  unfold sync_tracker. destruct (String.eqb id ""); [done|].
  by destruct (tr_update tracker _ id state) as [| |[]].
Qed.

(** What the tracker knows once it was told a state and the call returned: the
    state, unless it refused the update. *)
Definition told (id state : string) (h : Host) : Prop :=
  (exists n, tr_update tracker n id state = Accepted) /\ dget id (h_tracker h) = Some state
  \/ exists n, tr_update tracker n id state = Refused.

Lemma sync_tracker_told id state h h' :
  sync_tracker tracker id state h = (Ret tt, h') -> h_orch h' = h_orch h /\ (id <> "" -> told id state h').
Proof.
  intros H. pose proof (sync_tracker_orch id state h) as Ho. rewrite H in Ho. split; [exact Ho|]. intros Hid.
  unfold sync_tracker in H. rewrite (proj2 (String.eqb_neq _ _) Hid) in H.
  destruct (tr_update tracker (h_calls h) id state) as [| |[]] eqn:E; [| |done..]; injection H as <-.
  - left. split; [eauto|]. apply dget_dset_eq.
  - right. eauto.
Qed.

Lemma summarize_keeps s h :
  h_orch (snd (summarize tracker s h)) = h_orch h /\ h_tracker (snd (summarize tracker s h)) = h_tracker h.
Proof.
  unfold summarize, update_issue_summary. destruct (_ || _); [done|]. by destruct (tr_comment tracker _ _) as [| |[]].
Qed.

(** An interpretation that answers is an ending that answers, with the same
    orchestrator and the same view of the tracker. *)
Lemma interpret_answers s h o h' :
  interpret cfg tk tracker s h = (Ret o, h') ->
  exists h1, ending cfg tk tracker s h = (Ret o, h1) /\ h_orch h' = h_orch h1 /\ h_tracker h' = h_tracker h1.
Proof.
  unfold interpret, mbind, M_bind. destruct (ending cfg tk tracker s h) as [[o1|e] h1]; [|done].
  destruct (summarize_keeps s h1) as [H1 H2]. destruct (summarize tracker s h1) as [[?|e] h2]; [|done].
  intros [= <- <-]. eauto.
Qed.

Lemma host_schedule_cases s base h r h' :
  host_schedule_retry cfg tk tracker s base h = (r, h') ->
  (r = Ret true /\ h_tracker h' = h_tracker h /\ retries_exhausted cfg s (h_orch h) = false
     /\ exists item, queue h' = queue h ++ [item] /\ rt_dedup_key item = ses_id s)
  \/ (r = Ret false /\ queue h' = queue h)
  \/ exists e, r = Raise e.
Proof.
  unfold host_schedule_retry, schedule_retry, retries_exhausted.
  destruct (non_retryable (ses_end_reason s)); simpl; [intros [= <- <-]; right; by left|].
  destruct (negb (max_retry_attempts (rc_agent cfg) =? 0) && _) eqn:El; simpl.
  - unfold mbind, M_bind.
    match goal with |- context [sync_tracker tracker ?i ?st ?h0] => pose proof (sync_tracker_orch i st h0) as Ho;
      destruct (sync_tracker tracker i st h0) as [[?|e] h1] end; intros [= <- <-]; right; [left|right; eauto].
    simpl in Ho. by rewrite Ho.
  - destruct (compute_retry_delay _ _ _) as [d|e]; simpl; intros [= <- <-]; [left|right; right; eauto].
    split; [done|]. split; [done|]. split; [done|]. eexists. split; [done|]. done.
Qed.

(** What the registry says of the issue afterwards. *)
Lemma host_schedule_status s base h r h' rec :
  host_schedule_retry cfg tk tracker s base h = (Ret r, h') ->
  get (ses_id s) (oc_registry (h_orch h)) = Some rec ->
  status <$> get (ses_id s) (oc_registry (h_orch h'))
  = Some (if retries_exhausted cfg s (h_orch h) then ABANDONED else status rec).
Proof.
  unfold host_schedule_retry, schedule_retry, retries_exhausted. intros H Hrec.
  destruct (non_retryable (ses_end_reason s)); simpl in *; [injection H as _ <-; simpl; by rewrite Hrec|].
  destruct (remember_run_status (tk_run tk) _ (ses_run_id s) _ _ Hrec) as (rec' & Hrec' & Hst).
  destruct (negb (max_retry_attempts (rc_agent cfg) =? 0) && _) eqn:El; simpl in *.
  - unfold mbind, M_bind in H.
    match type of H with context [sync_tracker tracker ?i ?st ?h0] => pose proof (sync_tracker_orch i st h0) as Ho;
      destruct (sync_tracker tracker i st h0) as [[?|e] h1] end; [|done]. injection H as _ <-. simpl in Ho. rewrite Ho. simpl.
    unfold mark_abandoned. rewrite update_get, decide_True by done. by rewrite Hrec'.
  - destruct (compute_retry_delay _ _ _) as [d|e]; [|done]. simpl in H. injection H as _ <-. simpl.
    unfold persist_retry_plan. rewrite update_get, decide_True by done. rewrite Hrec'. simpl. by rewrite Hst.
Qed.

Lemma retry_or_close_cases s base state reason h o h' :
  retry_or_close cfg tk tracker s base state reason h = (Ret o, h') ->
  (o = retry None reason /\ h_tracker h' = h_tracker h /\ retries_exhausted cfg s (h_orch h) = false
     /\ exists item, queue h' = queue h ++ [item] /\ rt_dedup_key item = ses_id s)
  \/ (o = dispose reason /\ queue h' = queue h /\ (ses_id s <> "" -> told (ses_id s) state h')).
Proof.
  unfold retry_or_close, mbind, M_bind. destruct (host_schedule_retry cfg tk tracker s base h) as [r h1] eqn:E.
  destruct (host_schedule_cases _ _ _ _ _ E) as [(-> & Ht & Hx & item & Hq & Hk)|[[-> Hq]|[e ->]]]; [| |done].
  - intros [= <- <-]. left. eauto 6.
  - destruct (sync_tracker tracker (ses_id s) state h1) as [[[]|e] h2] eqn:Es; [|done]. intros [= <- <-].
    apply sync_tracker_told in Es as [Ho Ht]. right. rewrite Ho. auto.
Qed.

Lemma retry_or_close_status s base state reason h o h' rec :
  retry_or_close cfg tk tracker s base state reason h = (Ret o, h') ->
  get (ses_id s) (oc_registry (h_orch h)) = Some rec ->
  status <$> get (ses_id s) (oc_registry (h_orch h'))
  = Some (if retries_exhausted cfg s (h_orch h) then ABANDONED else status rec).
Proof.
  unfold retry_or_close, mbind, M_bind. destruct (host_schedule_retry cfg tk tracker s base h) as [[[]|e] h1] eqn:E; [| |done].
  - intros [= <- <-] Hrec. eapply host_schedule_status; eassumption.
  - pose proof (sync_tracker_orch (ses_id s) state h1) as Ho.
    destruct (sync_tracker tracker (ses_id s) state h1) as [[[]|e] h2]; [|done]. intros [= <- <-] Hrec. simpl in Ho.
    rewrite Ho. eapply host_schedule_status; eassumption.
Qed.
End facts.

(** The tracker's state for an issue that ended in failure. *)
Definition CLOSED_STATES : list string := ["verification_failed"; "failed"].

(** The gate of the tracker on the retry: what holds of an answer [o] and the
    host [h'] after an interpretation that began in [h]. *)
Record gated (tracker : Tracker) (id : string) (h : Host) (o : Outcome) (h' : Host) : Prop := mkGated {
  gt_retry : o_kind o = "retry" ->
    h_tracker h' = h_tracker h
    /\ exists item, oc_retry_queue (h_orch h') = oc_retry_queue (h_orch h) ++ [item] /\ rt_dedup_key item = id;
  gt_queue : o_kind o <> "retry" -> oc_retry_queue (h_orch h') = oc_retry_queue (h_orch h);
  gt_closed : o_kind o = "dispose" -> o_reason o <> "completed" -> o_reason o <> "released" -> id <> "" ->
    exists st, st ∈ CLOSED_STATES /\ told tracker id st h';
}.

Section gate.
Context (cfg : RunConfig) (tk : Ticks) (tracker : Tracker) (s : RunSession) (h : Host).

(** Equal queues and trackers: nothing done yet. *)
Definition untouched (h0 : Host) : Prop :=
  oc_retry_queue (h_orch h0) = oc_retry_queue (h_orch h) /\ h_tracker h0 = h_tracker h.

Lemma gated_retry_or_close base state reason h0 o h' :
  state ∈ CLOSED_STATES -> untouched h0 ->
  retry_or_close cfg tk tracker (rs_session s) base state reason h0 = (Ret o, h') ->
  gated tracker (run_issue s) h o h'.
Proof.
  intros Hst [Hq Ht] H.
  apply retry_or_close_cases in H as [(-> & Ht' & _ & item & Hq' & Hk)|(-> & Hq' & Hs)]; constructor; simpl; try done.
  - intros _. split; [congruence|]. exists item. split; [congruence|done].
  - intros _. congruence.
  - intros _ _ _ Hid. exists state. split; [done|]. auto.
Qed.

Lemma gated_close reason h0 o h' :
  untouched h0 -> (sync_tracker tracker (run_issue s) "failed";; mret (dispose reason)) h0 = (Ret o, h') ->
  gated tracker (run_issue s) h o h'.
Proof.
  intros [Hq _] H. unfold mbind, M_bind in H.
  destruct (sync_tracker tracker (run_issue s) "failed" h0) as [[[]|e] h1] eqn:Es; [|done]. injection H as <- <-.
  apply sync_tracker_told in Es as [Ho Ht]. constructor; simpl; [done|intros _; by rewrite Ho|].
  intros _ _ _ Hid. exists "failed". split; [set_solver|auto].
Qed.
End gate.

(** *** What the registry says *)

(** The registry's status for a run that ended with [status]. *)
Definition ending_status (status : string) : IssueStatus :=
  if String.eqb status "completed" then COMPLETED
  else if String.eqb status "verification_failed" then VERIFICATION_FAILED else FAILED.

(** The endings after which a retry may be scheduled. *)
Definition retries_after (status : string) : bool :=
  negb (mem status ["completed"; "stagnation"; "loop_detected"; "cancelled"; "released"]).

Lemma update_status t id f g rec st :
  get id g = Some rec -> (forall r, status (f r) = st) ->
  exists rec', get id (update t id f g) = Some rec' /\ status rec' = st.
Proof. intros Hrec Hf. rewrite update_get, decide_True, Hrec by done. simpl. eexists. split; [done|]. apply Hf. Qed.

Lemma report_status t id a b c d e f g rec :
  get id g = Some rec -> exists rec', get id (update_report t id a b c d e f g) = Some rec' /\ status rec' = status rec.
Proof. intros Hrec. unfold update_report. rewrite update_get, decide_True, Hrec by done. simpl. eauto. Qed.

Lemma mark_failed_status t id g rec :
  get id g = Some rec -> exists rec', get id (mark_failed t id g) = Some rec' /\ status rec' = FAILED.
Proof. intros H. by apply (update_status t id _ g rec). Qed.

Lemma mark_failed_with_reason_status t id reason g rec :
  get id g = Some rec -> exists rec', get id (mark_failed_with_reason t id reason g) = Some rec' /\ status rec' = FAILED.
Proof. intros H. by apply (update_status t id _ g rec). Qed.

Lemma mark_completed_status t id g rec :
  get id g = Some rec -> exists rec', get id (mark_completed t id g) = Some rec' /\ status rec' = COMPLETED.
Proof. intros H. by apply (update_status t id _ g rec). Qed.

Lemma mark_verification_failed_status t id a b g rec :
  get id g = Some rec ->
  exists rec', get id (mark_verification_failed t id a b g) = Some rec' /\ status rec' = VERIFICATION_FAILED.
Proof. intros H. by apply (update_status t id _ g rec). Qed.

(** The status that an ending left before a retry was asked for, and after. *)
Lemma retry_ending cfg tk tracker s base state reason h h0 o h' st :
  (exists rec', get (run_issue s) (oc_registry (h_orch h0)) = Some rec' /\ status rec' = st) ->
  oc_retry_attempts (h_orch h0) = oc_retry_attempts (h_orch h) ->
  retry_or_close cfg tk tracker (rs_session s) base state reason h0 = (Ret o, h') ->
  status <$> get (run_issue s) (oc_registry (h_orch h'))
  = Some (if retries_exhausted cfg (rs_session s) (h_orch h) then ABANDONED else st).
Proof.
  intros (rec' & Hg & <-) Ha Hr. unfold run_issue in *.
  rewrite (retry_or_close_status _ _ _ _ _ _ _ _ _ _ _ Hr Hg). unfold retries_exhausted. by rewrite Ha.
Qed.


(** Every ending that allows a retry is the same: the record is marked, then a
    retry is scheduled or the issue closed. *)
Lemma ending_retry_path cfg tk tracker s h :
  run_issue s ∉ h_pending_review h -> retries_after (run_status s) = true ->
  exists base state reason h0,
    ending cfg tk tracker s h = retry_or_close cfg tk tracker (rs_session s) base state reason h0
    /\ state ∈ CLOSED_STATES /\ untouched h h0
    /\ oc_retry_attempts (h_orch h0) = oc_retry_attempts (h_orch h)
    /\ (forall rec, get (run_issue s) (oc_registry (h_orch h)) = Some rec ->
        exists rec', get (run_issue s) (oc_registry (h_orch h0)) = Some rec'
                     /\ status rec' = ending_status (run_status s)).
Proof.
  intros Hrev Hretry%negb_true_iff%mem_false. unfold ending, ending_status. cbv zeta.
  assert (Hs : "verification_failed" ∈ CLOSED_STATES /\ "failed" ∈ CLOSED_STATES) by set_solver.
  destruct Hs as [Hv Hf]. rewrite (proj2 (mem_false _ _) Hrev).
  rewrite (proj2 (String.eqb_neq (run_status s) "completed")) by set_solver.
  destruct (String.eqb (run_status s) "verification_failed").
  { do 4 eexists. split; [done|]. split; [done|]. split; [done|]. split; [done|]. intros rec.
    apply mark_verification_failed_status. }
  destruct (String.eqb (run_status s) "agent_timeout").
  { do 4 eexists. split; [done|]. split; [done|]. split; [done|]. split; [done|]. intros rec.
    apply mark_failed_with_reason_status. }
  destruct (String.eqb (run_status s) "max_turns_exceeded").
  { do 4 eexists. split; [done|]. split; [done|]. split; [done|]. split; [done|]. intros rec.
    apply mark_failed_status. }
  destruct (String.eqb (run_status s) "rate_limit_circuit_open").
  { do 4 eexists. split; [done|]. split; [done|]. split; [done|]. split; [done|]. intros rec.
    apply mark_failed_status. }
  rewrite (proj2 (mem_false (run_status s) _)) by set_solver.
  rewrite (proj2 (String.eqb_neq (run_status s) "cancelled")) by set_solver.
  rewrite (proj2 (String.eqb_neq (run_status s) "released")) by set_solver.
  do 4 eexists. split; [done|]. split; [done|].
  destruct (str_or (rs_operator_failure_detail s) None) as [detail|];
    (split; [done|]; split; [done|]; intros rec Hrec).
  - destruct (mark_failed_with_reason_status (tk_mark tk) _ detail _ _ Hrec) as (rec2 & Hg2 & Hs2).
    destruct (report_status (tk_report tk) _ None None None None (ses_end_reason (rs_session s)) (Some (rs_end_summary s))
                _ _ Hg2) as (rec3 & Hg3 & Hs3).
    destruct (report_status (tk_report_again tk) _ None None None None (ses_end_reason (rs_session s))
                (Some (rs_end_summary s)) _ _ Hg3) as (rec4 & Hg4 & Hs4).
    exists rec4. split; [exact Hg4|congruence].
  - destruct (mark_failed_status (tk_mark tk) _ _ _ Hrec) as (rec1 & Hg1 & Hs1).
    destruct (report_status (tk_report_again tk) _ None None None None (ses_end_reason (rs_session s))
                (Some (rs_end_summary s)) _ _ Hg1) as (rec3 & Hg3 & Hs3).
    exists rec3. split; [exact Hg3|congruence].
Qed.

(** C15: when the interpretation of a run returns: if it answers "retry", exactly
    one retry of the issue was added to the queue and the states on the tracker
    are as before; otherwise the queue is as before; and if it disposes of an
    issue (one with an id) for another reason than completed or released, it has
    told the tracker a closing state, verification_failed or failed, and the
    tracker either took it or refused it (a refusal is swallowed). A cancelled
    interpretation does not return. *)
Theorem open_while_retrying (cfg : RunConfig) (tk : Ticks) (tracker : Tracker) (s : RunSession)
    (h h' : Host) (o : Outcome) :
  interpret cfg tk tracker s h = (Ret o, h') -> gated tracker (run_issue s) h o h'.
Proof.
  intros (h1 & H & Ho & Ht)%interpret_answers.
  enough (Hg : gated tracker (run_issue s) h o h1).
  { destruct Hg as [H1 H2 H3]. constructor; unfold told in *; by rewrite ?Ho, ?Ht. }
  destruct (decide (run_issue s ∈ h_pending_review h)) as [Hrev|Hrev].
  { unfold ending in H. rewrite (proj2 (mem_true _ _) Hrev) in H. injection H as <- <-. by constructor. }
  destruct (retries_after (run_status s)) eqn:Er.
  { destruct (ending_retry_path cfg tk tracker s h Hrev Er) as (base & st & reason & h0 & E & Hst & Hu & _).
    rewrite E in H. by eapply gated_retry_or_close. }
  apply negb_false_iff, mem_true in Er. unfold ending in H. cbv zeta in H.
  rewrite (proj2 (mem_false _ _) Hrev) in H.
  repeat (apply elem_of_cons in Er as [Er|Er]; [rewrite Er in H; simpl in H|]); [..|by inversion Er].
  - destruct (has_pr_number _ _); [injection H as <- <-; by constructor|]. unfold mbind, M_bind in H.
    match type of H with context [sync_tracker tracker ?i ?st ?h0] => pose proof (sync_tracker_orch tracker i st h0) as Hs;
      destruct (sync_tracker tracker i st h0) as [[?|e] h2] end; [|done].
    injection H as <- <-. constructor; simpl; try done. intros _. simpl in Hs. by rewrite Hs.
  - by eapply gated_close in H.
  - by eapply gated_close in H.
  - by eapply gated_close in H.
  - injection H as <- <-. by constructor.
Qed.

(** A host with one registered issue, and a run of it that timed out. *)
Definition sample_host (attempts : Z) : Host :=
  mkHost (mkOrch 2 ["7"] [] ["7"] [] [("7", attempts)] sample_registry) [] [("7", "open")] [] 0.

(** A tracker that accepts everything *)
Definition agreeing : Tracker := mkTracker (fun _ _ _ => Accepted) (fun _ _ => Accepted).

Definition timed_out : RunSession :=
  mkRunSession (mkSession "7" "I-7" (Some "run-1") None "agent_timeout") "" None None None None.

Definition sample_ticks : Ticks := mkTicks (tick 10) (tick 11) (tick 12) (tick 13) (tick 14).
Definition sample_cfg : RunConfig := mkRunConfig demo_cfg 60000 300000.

Lemma open_while_retrying_witness :
  exists h', interpret sample_cfg sample_ticks agreeing timed_out (sample_host 0)
             = (Ret (retry None "agent_timeout"), h')
    /\ h_tracker h' = [("7", "open")].
Proof.
  eexists. split; [vm_compute; reflexivity|].
  apply (open_while_retrying sample_cfg sample_ticks agreeing timed_out (sample_host 0) _
           (retry None "agent_timeout")); [vm_compute; reflexivity|done].
Defined.

(** What the registry says after a run.  For a registered issue that is
    neither held for review nor released, an interpretation that answers leaves
    the record completed, with failed verification, or failed, as the run
    ended; or abandoned, exactly when the ending allows a retry and the retries
    are used up. *)
Theorem interpret_registry_status (cfg : RunConfig) (tk : Ticks) (tracker : Tracker) (s : RunSession)
    (h h' : Host) (o : Outcome) (rec : IssueRecord) :
  interpret cfg tk tracker s h = (Ret o, h') ->
  run_issue s ∉ h_pending_review h -> run_status s <> "released" ->
  get (run_issue s) (oc_registry (h_orch h)) = Some rec ->
  status <$> get (run_issue s) (oc_registry (h_orch h'))
  = Some (if retries_after (run_status s) && retries_exhausted cfg (rs_session s) (h_orch h) then ABANDONED
          else ending_status (run_status s)).
Proof.
  intros (h1 & H & Ho & _)%interpret_answers Hrev Hrel Hrec. rewrite Ho. destruct (retries_after (run_status s)) eqn:Er.
  { destruct (ending_retry_path cfg tk tracker s h Hrev Er) as (base & st & reason & h0 & E & _ & _ & Ha & Hst).
    rewrite E in H. eapply retry_ending in H; [exact H|by eapply Hst|done]. }
  apply negb_false_iff, mem_true in Er. unfold ending in H. cbv zeta in H.
  rewrite (proj2 (mem_false _ _) Hrev) in H.
  destruct (mark_failed_status (tk_mark tk) _ _ _ Hrec) as (rec1 & Hg1 & Hs1).
  destruct (mark_completed_status (tk_mark tk) _ _ _ Hrec) as (rec2 & Hg2 & Hs2).
  assert (Hsync : forall st reason h0, (sync_tracker tracker (run_issue s) st;; mret (dispose reason)) h0 = (Ret o, h1) ->
            h_orch h1 = h_orch h0).
  { intros st reason h0. unfold mbind, M_bind.
    destruct (sync_tracker tracker (run_issue s) st h0) as [[[]|e] h2] eqn:Es; [|done]. intros [= _ <-].
    by apply sync_tracker_told in Es as [-> _]. }
  repeat (apply elem_of_cons in Er as [Er|Er]; [rewrite Er in *; simpl in H|]); [..|by inversion Er].
  - destruct (has_pr_number _ _); [injection H as _ <-|apply Hsync in H as ->]; simpl; rewrite Hg2; simpl; by rewrite Hs2.
  - apply Hsync in H as ->. simpl. rewrite Hg1. simpl. by rewrite Hs1.
  - apply Hsync in H as ->. simpl. rewrite Hg1. simpl. by rewrite Hs1.
  - apply Hsync in H as ->. simpl. rewrite Hg1. simpl. by rewrite Hs1.
  - done.
Qed.

Lemma interpret_registry_status_witness :
  exists h' o, interpret sample_cfg sample_ticks agreeing timed_out (sample_host 0) = (Ret o, h')
    /\ status <$> get "7" (oc_registry (h_orch h')) = Some FAILED.
Proof.
  eexists. eexists. split; [vm_compute; reflexivity|].
  rewrite (interpret_registry_status sample_cfg sample_ticks agreeing timed_out (sample_host 0) _ (retry None "agent_timeout")
             (match get "7" sample_registry with Some r => r | None => fresh_record (tick 0) "" "" sample_args None end));
    [by vm_compute|vm_compute; reflexivity|set_solver|done|vm_compute; reflexivity].
Defined.

(** An abandoned issue is shown as failed.  When the retries are used up,
    [_schedule_retry] marks the record abandoned and tells the tracker so; but
    [interpret], which only sees that no retry was scheduled, then tells the
    tracker the state of the run's ending: the tracker ends with "failed" (or
    "verification_failed") for an issue that the registry calls abandoned. *)
Theorem abandoned_shown_as_failed (cfg : RunConfig) (tk : Ticks) (tracker : Tracker) (s : RunSession)
    (h h' : Host) (o : Outcome) (rec : IssueRecord) :
  interpret cfg tk tracker s h = (Ret o, h') ->
  run_issue s ∉ h_pending_review h -> retries_after (run_status s) = true ->
  retries_exhausted cfg (rs_session s) (h_orch h) = true ->
  get (run_issue s) (oc_registry (h_orch h)) = Some rec ->
  run_issue s <> "" -> (forall n st, tr_update tracker n (run_issue s) st = Accepted) ->
  status <$> get (run_issue s) (oc_registry (h_orch h')) = Some ABANDONED
  /\ exists st, st ∈ CLOSED_STATES /\ dget (run_issue s) (h_tracker h') = Some st.
Proof.
  intros (h1 & H & Ho & Ht)%interpret_answers Hrev Hr Hx Hrec Hid Hacc. rewrite Ho, Ht.
  destruct (ending_retry_path cfg tk tracker s h Hrev Hr) as (base & st & reason & h0 & E & Hst & _ & Ha & Hstatus).
  rewrite E in H. assert (Hx0 : retries_exhausted cfg (rs_session s) (h_orch h0) = true).
  { unfold retries_exhausted in *. by rewrite Ha. }
  split.
  - eapply retry_ending in H; [|by eapply Hstatus|exact Ha]. by rewrite Hx in H.
  - exists st. split; [done|]. apply retry_or_close_cases in H as [(_ & _ & Hn & _)|(_ & _ & Hs)]; [congruence|].
    destruct (Hs Hid) as [[_ Hd]|[n Hn]]; [done|].
    specialize (Hacc n st). unfold run_issue in Hacc. congruence.
Qed.

Lemma abandoned_shown_as_failed_witness :
  exists h' o, interpret sample_cfg sample_ticks agreeing timed_out (sample_host 2) = (Ret o, h')
    /\ status <$> get "7" (oc_registry (h_orch h')) = Some ABANDONED
    /\ dget "7" (h_tracker h') = Some "failed".
Proof.
  eexists. eexists. split; [vm_compute; reflexivity|]. split; [|vm_compute; reflexivity].
  apply (abandoned_shown_as_failed sample_cfg sample_ticks agreeing timed_out (sample_host 2) _ (dispose "agent_timeout")
           (match get "7" sample_registry with Some r => r | None => fresh_record (tick 0) "" "" sample_args None end));
    [vm_compute; reflexivity|set_solver|by vm_compute|by vm_compute|vm_compute; reflexivity|done|done].
Defined.
