(* ===== verification/ImBinding.v ===== *)
(** * Bindings of chat origins ([src/orchestratord/im_gateway/binding.py],
    [im_gateway/router.py])

    Which session receives the messages of an origin.  A binding can be to one
    sender, to an account or to every private sender; bindings that overlap
    replace each other. *)

From S2P Require Import Prelude.

Open Scope string_scope.
Open Scope list_scope.

Record SessionTarget := mkTarget {
  session_id : string;
  host_type : string;
}.

#[export] Instance SessionTarget_eq_dec : EqDecision SessionTarget.
Proof. solve_decision. Defined.

Inductive ConnectionState := Active | Offline | Terminated.

#[export] Instance ConnectionState_eq_dec : EqDecision ConnectionState.
Proof. solve_decision. Defined.

Record BindingEntry := mkBinding {
  be_origin : string;
  be_target : SessionTarget;
  be_registered_at : Q;
  be_state : ConnectionState;
}.

Definition set_state (c : ConnectionState) (e : BindingEntry) : BindingEntry :=
  mkBinding (be_origin e) (be_target e) (be_registered_at e) c.

(** The bindings and the calls of the auditor. *)
Record Policy := mkPolicy {
  bp_bindings : dict string BindingEntry;
  bp_audit : list (string * BindingEntry * option BindingEntry);
}.

Definition audit (action : string) (e : BindingEntry) (previous : option BindingEntry) (p : Policy) : Policy :=
  mkPolicy (bp_bindings p) (bp_audit p ++ [(action, e, previous)]).

Definition WECHAT_DIRECT_ALL_ORIGIN : string := "wechat:direct:*:*".
Definition FEISHU_DM_ALL_ORIGIN : string := "feishu:dm:*:*".
Definition IM_DIRECT_ALL_ORIGIN : string := "im:direct:*:*".

Definition colon : Ascii.ascii := Ascii.ascii_of_N 58.

(** [s.split(":")] *)
Fixpoint split_colon (s : string) : list string :=
  match s with
  | EmptyString => [""]
  | String c s' =>
      if Ascii.eqb c colon then "" :: split_colon s'
      else match split_colon s' with
           | [] => [String c ""]
           | w :: ws => String c w :: ws
           end
  end.

(** The origin of one private sender, [channel:kind:account:sender]: its account. *)
Definition direct_account (channel kind origin : string) : option string :=
  match split_colon origin with
  | c :: k :: account :: _ :: _ => if String.eqb c channel && String.eqb k kind then Some account else None
  | _ => None
  end.

Definition or_star (s : string) : string := if String.eqb s "" then "*" else s.

(** [_binding_candidates]: the keys that cover an origin, from exact to broad. *)
Definition binding_candidates (origin : string) : list string :=
  if String.eqb origin IM_DIRECT_ALL_ORIGIN then [origin]
  else match direct_account "wechat" "direct" origin, direct_account "feishu" "dm" origin with
       | Some a, _ =>
           [origin; "wechat:direct:" +:+ or_star a +:+ ":*"; WECHAT_DIRECT_ALL_ORIGIN; IM_DIRECT_ALL_ORIGIN]
       | None, Some a =>
           [origin; "feishu:dm:" +:+ or_star a +:+ ":*"; FEISHU_DM_ALL_ORIGIN; IM_DIRECT_ALL_ORIGIN]
       | None, None => [origin]
       end.

(** [_exclusive_binding_group] *)
Definition exclusive_group (origin : string) : string :=
  if String.eqb origin IM_DIRECT_ALL_ORIGIN then "im:direct"
  else if is_some (direct_account "wechat" "direct" origin) then "im:direct"
  else if is_some (direct_account "feishu" "dm" origin) then "im:direct"
  else origin.

(** [_same_exclusive_binding_group] *)
Definition same_group (l r : string) : bool := String.eqb (exclusive_group l) (exclusive_group r).

(** [_matches_session] *)
Definition matches_session (e : BindingEntry) (id : option string) : bool :=
  match id with None => true | Some i => String.eqb (session_id (be_target e)) i end.

(** The loop of [bind]: the bindings left, and the first one that went. *)
Fixpoint evict (key : string) (d : dict string BindingEntry) : dict string BindingEntry * option BindingEntry :=
  match d with
  | [] => ([], None)
  | (k, e) :: d' =>
      let '(kept, replaced) := evict key d' in
      if negb (String.eqb k key) && same_group key k then (kept, Some e) else ((k, e) :: kept, replaced)
  end.

(** [bind] *)
Definition bind (key : string) (target : SessionTarget) (now : Q) (p : Policy) : BindingEntry * Policy :=
  let entry := mkBinding key target now Active in
  let '(kept, replaced) := evict key (bp_bindings p) in
  let previous := or_else (dget key (bp_bindings p)) replaced in
  let p' := mkPolicy (dset key entry kept) (bp_audit p) in
  (entry,
   match previous with
   | Some prev => if decide (be_target prev = target) then p' else audit "binding_override" entry (Some prev) p'
   | None => audit "binding_created" entry None p'
   end).

(** [unbind] *)
Definition unbind (key : string) (p : Policy) : option BindingEntry * Policy :=
  (dget key (bp_bindings p), mkPolicy (ddel key (bp_bindings p)) (bp_audit p)).

(** A binding that has not been terminated. *)
Definition live (d : dict string BindingEntry) (key : string) : option BindingEntry :=
  match dget key d with
  | Some e => if decide (be_state e = Terminated) then None else Some e
  | None => None
  end.

Fixpoint first_some {A B} (f : A -> option B) (l : list A) : option B :=
  match l with
  | [] => None
  | x :: l' => match f x with Some b => Some b | None => first_some f l' end
  end.

(** [get] *)
Definition get (origin : string) (p : Policy) : option BindingEntry :=
  first_some (live (bp_bindings p)) (binding_candidates origin).

(** [is_opt_in] *)
Definition is_opt_in (origin : string) (p : Policy) : bool := is_some (get origin p).

(** [mark_offline] *)
Definition mark_offline (key : string) (id : option string) (p : Policy) : Policy :=
  match dget key (bp_bindings p) with
  | Some e =>
      if matches_session e id && bool_decide (be_state e = Active)
      then audit "binding_offline" (set_state Offline e) None
             (mkPolicy (dset key (set_state Offline e) (bp_bindings p)) (bp_audit p))
      else p
  | None => p
  end.

(** [terminate] *)
Definition terminate (key : string) (id : option string) (p : Policy) : Policy :=
  match dget key (bp_bindings p) with
  | Some e =>
      if matches_session e id
      then audit "binding_terminated" (set_state Terminated e) None
             (mkPolicy (ddel key (bp_bindings p)) (bp_audit p))
      else p
  | None => p
  end.

(** [terminate_matching]: the bindings that went. *)
Definition terminate_matching (key : string) (p : Policy) : list BindingEntry * Policy :=
  let gone := map (fun kv => set_state Terminated (snd kv)) (List.filter (fun kv => same_group key (fst kv)) (bp_bindings p)) in
  (gone,
   fold_left (fun p e => audit "binding_terminated" e None p) gone
     (mkPolicy (List.filter (fun kv => negb (same_group key (fst kv))) (bp_bindings p)) (bp_audit p))).

(** ** The router *)

Definition default_target (origin : string) : SessionTarget := mkTarget ("im:default:" +:+ origin) "default".

(** [SessionRouter.route] *)
Definition route (origin : string) (p : Policy) : SessionTarget :=
  match get origin p with Some e => be_target e | None => default_target origin end.

(** [SessionRouter.is_offline] *)
Definition is_offline (origin : string) (p : Policy) : bool :=
  match get origin p with Some e => bool_decide (be_state e = Offline) | None => false end.

(** ** Histories *)

Inductive call :=
| CBind (key : string) (t : SessionTarget) (now : Q)
| CUnbind (key : string)
| CMarkOffline (key : string) (id : option string)
| CTerminate (key : string) (id : option string)
| CTerminateMatching (key : string).

Definition exec (c : call) (p : Policy) : Policy :=
  match c with
  | CBind k t now => snd (bind k t now p)
  | CUnbind k => snd (unbind k p)
  | CMarkOffline k id => mark_offline k id p
  | CTerminate k id => terminate k id p
  | CTerminateMatching k => snd (terminate_matching k p)
  end.

Definition new_policy : Policy := mkPolicy [] [].

Definition history (cs : list call) : Policy := fold_left (fun p c => exec c p) cs new_policy.

(** What the policy promises of its bindings: one per group, each filed under
    its origin, none of them terminated. *)
Record bindings_ok (d : dict string BindingEntry) : Prop := mkBindingsOk {
  ok_one : NoDup (map (fun kv => exclusive_group (fst kv)) d);
  ok_each : Forall (fun kv => be_origin (snd kv) = fst kv /\ be_state (snd kv) <> Terminated) d;
}.

(** ** Lemmas *)

Fixpoint no_colon (s : string) : bool :=
  match s with
  | EmptyString => true
  | String c s' => negb (Ascii.eqb c colon) && no_colon s'
  end.

Lemma split_colon_none s : no_colon s = true -> split_colon s = [s].
Proof.
  induction s as [|c s IH]; [done|]. simpl. intros [Hc Hs]%andb_true_iff.
  apply negb_true_iff in Hc. by rewrite Hc, IH.
Qed.

Lemma split_colon_app a b :
  no_colon a = true -> split_colon (a +:+ String colon b) = a :: split_colon b.
Proof.
  induction a as [|c a IH]; intros H.
  - change ("" +:+ String colon b) with (String colon b). done.
  - simpl in H. apply andb_true_iff in H as [Hc%negb_true_iff Ha].
    change (String c a +:+ String colon b) with (String c (a +:+ String colon b)). simpl. by rewrite Hc, IH.
Qed.

Lemma split_colon_parts s : Forall (fun w => no_colon w = true) (split_colon s).
Proof.
  induction s as [|c s IH]; [by constructor|]. simpl. destruct (Ascii.eqb c colon) eqn:E; [by constructor|].
  destruct (split_colon s) as [|w ws]; [by repeat constructor; simpl; rewrite E|].
  inversion_clear IH. constructor; [|done]. simpl. by rewrite E.
Qed.

Lemma direct_account_no_colon ch k o a : direct_account ch k o = Some a -> no_colon a = true.
Proof.
  unfold direct_account. pose proof (split_colon_parts o) as H.
  destruct (split_colon o) as [|x [|y [|z [|t l]]]]; try done.
  destruct (_ && _); [|done]. intros [= <-]. by repeat (apply Forall_cons in H as [? H]).
Qed.

Lemma wildcard_account ch k a :
  no_colon ch = true -> no_colon k = true -> no_colon a = true ->
  direct_account ch k (ch +:+ String colon (k +:+ String colon (a +:+ ":*"))) = Some a.
Proof.
  intros Hc Hk Ha. unfold direct_account. change (a +:+ ":*") with (a +:+ String colon "*").
  rewrite !split_colon_app by done. simpl. by rewrite !String.eqb_refl.
Qed.

Lemma or_star_no_colon a : no_colon a = true -> no_colon (or_star a) = true.
Proof. unfold or_star. by destruct (String.eqb a ""). Qed.

Lemma wechat_wildcard a :
  no_colon a = true -> direct_account "wechat" "direct" ("wechat:direct:" +:+ a +:+ ":*") = Some a.
Proof. intros Ha. exact (wildcard_account "wechat" "direct" a eq_refl eq_refl Ha). Qed.

Lemma feishu_wildcard a :
  no_colon a = true -> direct_account "feishu" "dm" ("feishu:dm:" +:+ a +:+ ":*") = Some a.
Proof. intros Ha. exact (wildcard_account "feishu" "dm" a eq_refl eq_refl Ha). Qed.

(** The keys that cover an origin are in its group. *)
Lemma candidates_same_group o k : k ∈ binding_candidates o -> exclusive_group k = exclusive_group o.
Proof.
  unfold binding_candidates. destruct (String.eqb_spec o IM_DIRECT_ALL_ORIGIN) as [->|Ho]; [by intros ->%list_elem_of_singleton|].
  destruct (direct_account "wechat" "direct" o) as [a|] eqn:Ew;
    [|destruct (direct_account "feishu" "dm" o) as [a|] eqn:Ef; [|by intros ->%list_elem_of_singleton]].
  - assert (Hg : exclusive_group o = "im:direct")
      by (unfold exclusive_group; rewrite Ew; by destruct (String.eqb o _)).
    rewrite Hg. rewrite !elem_of_cons, elem_of_nil. intros [->|[->|[->|[->|[]]]]]; [done| |done|done].
    unfold exclusive_group. destruct (String.eqb _ _); [done|].
    by rewrite wechat_wildcard by eauto using or_star_no_colon, direct_account_no_colon.
  - assert (Hg : exclusive_group o = "im:direct")
      by (unfold exclusive_group; rewrite Ew, Ef; by destruct (String.eqb o _)).
    rewrite Hg. rewrite !elem_of_cons, elem_of_nil. intros [->|[->|[->|[->|[]]]]]; [done| |done|done].
    unfold exclusive_group. destruct (String.eqb _ _); [done|]. destruct (is_some _); [done|].
    by rewrite feishu_wildcard by eauto using or_star_no_colon, direct_account_no_colon.
Qed.

Lemma candidates_self o : o ∈ binding_candidates o.
Proof. unfold binding_candidates. repeat case_match; left. Qed.

Lemma same_group_true l r : same_group l r = true <-> exclusive_group l = exclusive_group r.
Proof. apply String.eqb_eq. Qed.

Lemma evict_filter key d :
  fst (evict key d) = List.filter (fun kv => String.eqb (fst kv) key || negb (same_group key (fst kv))) d.
Proof.
  induction d as [|[k e] d IH]; [done|]. simpl. destruct (evict key d) as [kept r]. simpl in IH.
  destruct (String.eqb k key), (same_group key k); simpl; by rewrite IH.
Qed.

(** After an eviction only the key itself is left of its group. *)
Lemma evict_in key d k e :
  (k, e) ∈ fst (evict key d) <-> (k, e) ∈ d /\ (k = key \/ exclusive_group k <> exclusive_group key).
Proof.
  rewrite evict_filter, !list_elem_of_In, filter_In. simpl.
  rewrite orb_true_iff, String.eqb_eq, negb_true_iff, <- not_true_iff_false, same_group_true. naive_solver.
Qed.

Definition groups (d : dict string BindingEntry) : list string := map (fun kv => exclusive_group (fst kv)) d.

Lemma groups_filter f d : NoDup (groups d) -> NoDup (groups (List.filter f d)).
Proof.
  unfold groups. induction d as [|kv d IH]; [done|]. simpl. intros [Hn Hd]%NoDup_cons.
  destruct (f kv); [|by apply IH]. simpl. apply NoDup_cons. split; [|by apply IH].
  rewrite list_elem_of_In, in_map_iff. intros (x & Hx & [Hin _]%filter_In).
  apply Hn. rewrite list_elem_of_In, in_map_iff. eauto.
Qed.

Lemma groups_dset_in key e d : key ∈ dkeys d -> groups (dset key e d) = groups d.
Proof.
  unfold groups. intros H. induction d as [|[k x] d IH]; [by inversion H|]. simpl.
  destruct (decide (key = k)) as [->|Hne]; [done|]. simpl. f_equal. apply IH.
  simpl in H. by apply elem_of_cons in H as [|].
Qed.

Lemma groups_key key d : key ∈ dkeys d -> exclusive_group key ∈ groups d.
Proof.
  unfold groups, dkeys. rewrite !list_elem_of_In, !in_map_iff. intros (kv & <- & H). eauto.
Qed.

Lemma Forall_dset (P : string * BindingEntry -> Prop) key e d :
  Forall P d -> P (key, e) -> Forall P (dset key e d).
Proof.
  intros Hd He. induction Hd as [|[k x] d Hx Hd IH]; simpl; [by constructor|].
  destruct (decide (key = k)) as [->|]; by constructor.
Qed.

Lemma dget_filter_key (f : string -> bool) k (d : dict string BindingEntry) :
  dget k (List.filter (fun kv => f (fst kv)) d) = if f k then dget k d else None.
Proof.
  induction d as [|[k' e] d IH]; simpl; [by destruct (f k)|].
  destruct (decide (k = k')) as [->|Hne].
  - destruct (f k') eqn:E; simpl; [by rewrite decide_True|exact IH].
  - destruct (f k'); simpl; [by rewrite decide_False|exact IH].
Qed.

(** The bindings after [bind]. *)
Lemma dget_bind o t now p k :
  dget k (bp_bindings (snd (bind o t now p))) =
    if decide (k = o) then Some (mkBinding o t now Active)
    else if same_group o k then None else dget k (bp_bindings p).
Proof.
  unfold bind. pose proof (evict_filter o (bp_bindings p)) as He.
  destruct (evict o (bp_bindings p)) as [kept r]. simpl in He. subst kept.
  replace (bp_bindings _) with
    (dset o (mkBinding o t now Active)
       (List.filter (fun kv => String.eqb (fst kv) o || negb (same_group o (fst kv))) (bp_bindings p)))
    by (simpl; repeat case_match; done).
  destruct (decide (k = o)) as [->|Hne]; [apply dget_dset_eq|].
  rewrite dget_dset_ne by done.
  rewrite (dget_filter_key (fun x => String.eqb x o || negb (same_group o x))).
  rewrite (proj2 (String.eqb_neq k o) Hne). simpl. by destruct (same_group o k).
Qed.

Lemma first_some_ext {A B} (f g : A -> option B) l :
  (forall x, x ∈ l -> f x = g x) -> first_some f l = first_some g l.
Proof.
  induction l as [|x l IH]; [done|]. intros H. simpl. rewrite (H x) by left.
  destruct (g x); [done|]. apply IH. intros y Hy. apply H. by right.
Qed.

Lemma first_some_one {A B} `{EqDecision A} (f : A -> option B) o l :
  (forall x, x ∈ l -> x <> o -> f x = None) -> first_some f l = if mem o l then f o else None.
Proof.
  unfold mem. induction l as [|x l IH]; intros H; [done|]. simpl.
  destruct (decide (x = o)) as [->|Hne].
  - rewrite bool_decide_true by left. destruct (f o) eqn:E; [done|].
    rewrite IH by (intros y Hy; apply H; by right). by destruct (bool_decide _).
  - rewrite (H x) by (left || done). rewrite IH by (intros y Hy; apply H; by right).
    by rewrite (bool_decide_ext (o ∈ x :: l) (o ∈ l)) by (rewrite elem_of_cons; naive_solver).
Qed.

Lemma bind_ok o t now p : bindings_ok (bp_bindings p) -> bindings_ok (bp_bindings (snd (bind o t now p))).
Proof.
  intros [H1 H2]. unfold bind. pose proof (evict_filter o (bp_bindings p)) as He.
  pose proof (evict_in o (bp_bindings p)) as Hin.
  destruct (evict o (bp_bindings p)) as [kept r]. cbn [fst] in He, Hin.
  set (entry := mkBinding o t now Active). cut (bindings_ok (dset o entry kept)); [simpl; repeat case_match; done|].
  assert (Hk : NoDup (groups kept)) by (subst kept; by apply groups_filter).
  assert (Hf : Forall (fun kv => be_origin (snd kv) = fst kv /\ be_state (snd kv) <> Terminated) kept).
  { apply Forall_forall. intros [k e] He'. apply Hin in He' as [Hd _]. by apply (Forall_forall _ _) with (x := (k, e)) in H2. }
  split; [|by apply Forall_dset].
  destruct (dget o kept) eqn:Eo.
  - rewrite groups_dset_in; [done|]. apply dget_Some_keys. eauto.
  - rewrite dset_fresh by done. unfold groups. rewrite map_app. simpl.
    apply NoDup_app. repeat split; [done| |apply NoDup_singleton].
    intros g Hg ->%list_elem_of_singleton. apply list_elem_of_In, in_map_iff in Hg as ([k e] & Hg & Hke%list_elem_of_In).
    simpl in Hg. apply Hin in Hke as Hke2. destruct Hke2 as [_ [->|]]; [|done].
    apply dget_None_keys in Eo. apply Eo. unfold dkeys. apply list_elem_of_In, in_map_iff. exists (o, e).
    by rewrite <- list_elem_of_In.
Qed.

Lemma filter_ok f d : bindings_ok d -> bindings_ok (List.filter f d).
Proof.
  intros [H1 H2]. split; [by apply groups_filter|]. apply Forall_forall. intros kv [Hin _]%list_elem_of_In%filter_In.
  by apply (Forall_forall _ _) with (x := kv) in H2; [|apply list_elem_of_In].
Qed.

Lemma ddel_filter key (d : dict string BindingEntry) :
  ddel key d = List.filter (fun kv => negb (String.eqb (fst kv) key)) d.
Proof.
  induction d as [|[k e] d IH]; [done|]. simpl. destruct (decide (key = k)) as [->|Hne].
  - by rewrite String.eqb_refl.
  - rewrite (proj2 (String.eqb_neq k key)) by congruence. simpl. by rewrite IH.
Qed.

Lemma fold_audit gone p : bp_bindings (fold_left (fun p e => audit "binding_terminated" e None p) gone p) = bp_bindings p.
Proof. revert p. induction gone as [|e gone IH]; intros p; [done|]. simpl. by rewrite IH. Qed.

Lemma exec_ok c p : bindings_ok (bp_bindings p) -> bindings_ok (bp_bindings (exec c p)).
Proof.
  intros H. destruct c as [k t now|k|k id|k id|k]; simpl.
  - by apply bind_ok.
  - rewrite ddel_filter. by apply filter_ok.
  - unfold mark_offline. destruct (dget k (bp_bindings p)) as [e|] eqn:E; [|done].
    destruct (_ && _); [|done]. simpl. destruct H as [H1 H2]. apply dget_In in E as Hin. split.
    + change (map _ ?d) with (groups d). rewrite groups_dset_in; [done|]. apply dget_Some_keys. eauto.
    + apply Forall_dset; [done|]. apply (Forall_forall _ _) with (x := (k, e)) in H2; [|done]. by destruct H2.
  - unfold terminate. destruct (dget k (bp_bindings p)) as [e|]; [|done].
    destruct (matches_session e id); [|done]. simpl. rewrite ddel_filter. by apply filter_ok.
  - rewrite fold_audit. by apply filter_ok.
Qed.

Lemma history_ok cs : bindings_ok (bp_bindings (history cs)).
Proof.
  unfold history. generalize new_policy (mkBindingsOk [] (NoDup_nil_2) (Forall_nil_2 _) : bindings_ok (bp_bindings new_policy)).
  induction cs as [|c cs IH]; intros p Hp; [done|]. simpl. apply IH. by apply exec_ok.
Qed.

Lemma live_unique d o k1 k2 e1 e2 :
  bindings_ok d -> k1 ∈ binding_candidates o -> k2 ∈ binding_candidates o ->
  live d k1 = Some e1 -> live d k2 = Some e2 -> k1 = k2.
Proof.
  intros [H1 _] Hk1%candidates_same_group Hk2%candidates_same_group. unfold live.
  destruct (dget k1 d) as [x1|] eqn:E1; [|done]. destruct (dget k2 d) as [x2|] eqn:E2; [|done]. intros _ _.
  apply dget_In in E1. apply dget_In in E2. change (NoDup (groups d)) in H1. unfold groups in H1.
  apply list_elem_of_lookup in E1 as [i Hi]. apply list_elem_of_lookup in E2 as [j Hj].
  assert (i = j) as <-; [|congruence].
  eapply NoDup_lookup; [exact H1| |]; rewrite list_lookup_fmap; [by rewrite Hi|by rewrite Hj; simpl; congruence].
Qed.

(** ** Theorems *)

(** An origin has one target.  After any history of binding, unbinding,
    going offline and terminating, no two bindings are in one group, each is
    filed under its origin and is not terminated, and of the keys that cover an
    origin (the sender's own, the account's and the wildcards) at most one is
    bound. *)
Theorem one_binding_per_origin (cs : list call) :
  bindings_ok (bp_bindings (history cs)) /\
  forall o k1 k2 e1 e2, k1 ∈ binding_candidates o -> k2 ∈ binding_candidates o ->
    live (bp_bindings (history cs)) k1 = Some e1 -> live (bp_bindings (history cs)) k2 = Some e2 -> k1 = k2.
Proof. pose proof (history_ok cs) as H. split; [done|]. intros. by eapply live_unique. Qed.

(** Where messages go after a binding.  Every origin the new key covers is
    routed to its target; an origin of the same exclusive group that it does not
    cover falls back to its own default session; every other origin is routed
    as before. *)
Theorem route_after_bind (o o' : string) (t : SessionTarget) (now : Q) (p : Policy) :
  route o' (snd (bind o t now p)) =
    if mem o (binding_candidates o') then t
    else if same_group o o' then default_target o' else route o' p.
Proof.
  unfold route, get. destruct (same_group o o') eqn:Eg.
  - rewrite (first_some_one _ o).
    + unfold live. rewrite dget_bind, decide_True by done. by destruct (mem o _).
    + intros k Hk Hne. unfold live. rewrite dget_bind, decide_False by done.
      apply candidates_same_group in Hk. apply same_group_true in Eg.
      by rewrite (proj2 (same_group_true o k)) by congruence.
  - assert (Hn : forall k, k ∈ binding_candidates o' -> same_group o k = false).
    { intros k Hk%candidates_same_group. apply not_true_iff_false. rewrite same_group_true.
      apply not_true_iff_false in Eg. rewrite same_group_true in Eg. congruence. }
    rewrite (proj2 (mem_false o _)).
    + erewrite first_some_ext; [done|]. intros k Hk. unfold live. rewrite dget_bind, (Hn k Hk).
      destruct (decide (k = o)) as [->|]; [|done]. apply Hn in Hk.
      rewrite (proj2 (same_group_true o o) eq_refl) in Hk. done.
    + intros Ho%Hn. rewrite (proj2 (same_group_true o o) eq_refl) in Ho. done.
Qed.
