(* ===== verification/ImStore.v ===== *)
(** * The gateway's durable state ([src/orchestratord/im_gateway/store.py])

    Logs of JSON lines: the inbound messages processed, the outbox, the dead
    letters and the audit trail, with their queries, rotation and retention.  A
    log is the list of the records written to it, and its file the text of their
    lines ([ndjson]); a query reads that text again ([read_ndjson]), cutting it
    where [splitlines] does and skipping what is not JSON.  What [json.dumps] and
    [json.loads] do is a parameter. *)

From Stdlib Require Import Sorted.
From S2P Require Import Prelude StageRunner Regex.

Open Scope string_scope.
Open Scope list_scope.

Abbreviation row := (dict string pyval).

(** [e.get(k)] of an entry that is an object. *)
Definition field (k : string) (e : pyval) : option pyval :=
  match e with PDict d => dget k d | _ => None end.

Definition is_object (e : pyval) : bool := match e with PDict _ => true | _ => false end.

(** A line of [processed_inbound.ndjson].  Of this log the model keeps the records
    as they are read again: a key with a line separator, which can only come from
    the text of a message without an id, is not covered. *)
Record Processed := mkProcessed {
  pr_key : string;
  pr_message_id : option string;
  pr_seen_at : Q;
}.

(** A log with its rotated backups, the newest first. *)
Record Rotated := mkRotated {
  rt_current : list pyval;
  rt_backups : list (list pyval);
}.

Record ReliabilityConfig := mkReliability {
  inbound_dedupe_ttl : Q;
  markdown_fallback : bool;
  long_message_threshold_chunks : Z;
  dead_letter_max_bytes : Z;
  dead_letter_backup_count : Z;
  audit_max_bytes : Z;
  audit_backup_count : Z;
}.

(** The files and the index in memory. *)
Record Store := mkStore {
  st_dedupe : dict string Q;
  st_processed : list Processed;
  st_outbox : list pyval;
  st_dead : Rotated;
  st_audit : Rotated;
}.

Definition set_dedupe (d : dict string Q) (s : Store) : Store :=
  mkStore d (st_processed s) (st_outbox s) (st_dead s) (st_audit s).
Definition set_processed (l : list Processed) (s : Store) : Store :=
  mkStore (st_dedupe s) l (st_outbox s) (st_dead s) (st_audit s).
Definition set_outbox (l : list pyval) (s : Store) : Store :=
  mkStore (st_dedupe s) (st_processed s) l (st_dead s) (st_audit s).
Definition set_dead (r : Rotated) (s : Store) : Store :=
  mkStore (st_dedupe s) (st_processed s) (st_outbox s) r (st_audit s).
Definition set_audit (r : Rotated) (s : Store) : Store :=
  mkStore (st_dedupe s) (st_processed s) (st_outbox s) (st_dead s) r.

Section store.
Context (cfg : ReliabilityConfig).
(** [json.dumps(e, ensure_ascii=False)], and [json.loads]: [None] when the text is
    not JSON. *)
Context (dumps : pyval -> string) (loads : string -> option pyval).
(** [redact] *)
Context (redact : row -> row).

(** ** Files of JSON lines *)

(** What [_append_ndjson] writes. *)
Definition line_of (e : pyval) : string := dumps e +:+ lf.

(** The file after its records were appended. *)
Definition ndjson (log : list pyval) : string := foldr (fun e text => line_of e +:+ text) "" log.

(** [_read_ndjson] *)
Definition read_ndjson (text : string) : list pyval :=
  flat_map (fun line => if String.eqb (strip line) "" then [] else option_list (loads line)) (splitlines text).

(** The record is read as it was written. *)
Definition intact (e : pyval) : Prop := read_ndjson (line_of e) = [e].

(** ** Inbound deduplication *)

Definition fresh_keys (cutoff : Q) (d : dict string Q) : dict string Q :=
  List.filter (fun kv => qle cutoff (snd kv)) d.

(** [_load_dedupe] *)
Definition load_dedupe (now : Q) (l : list Processed) : dict string Q :=
  fold_left (fun d e =>
    if negb (String.eqb (pr_key e) "") && qle (now - inbound_dedupe_ttl cfg) (pr_seen_at e)
    then dset (pr_key e) (pr_seen_at e) d else d) l [].

(** [ReliabilityStore(state_dir)]: a new process on the same files. *)
Definition reopen (now : Q) (s : Store) : Store := set_dedupe (load_dedupe now (st_processed s)) s.

(** [_purge_expired] *)
Definition purge_expired (now : Q) (s : Store) : Store :=
  set_dedupe (fresh_keys (now - inbound_dedupe_ttl cfg) (st_dedupe s)) s.

(** [is_duplicate] *)
Definition is_duplicate (now : Q) (key : string) (s : Store) : bool * Store :=
  let s := purge_expired now s in (dmem key (st_dedupe s), s).

(** [record_processed] *)
Definition record_processed (now : Q) (key : string) (id : option string) (s : Store) : Store :=
  set_processed (st_processed s ++ [mkProcessed key id now]) (set_dedupe (dset key now (st_dedupe s)) s).

(** [check_and_record]; the two readings of the clock are [now] and [later]. *)
Definition check_and_record (now later : Q) (key : string) (id : option string) (s : Store) : bool * Store :=
  let s := purge_expired now s in
  if dmem key (st_dedupe s) then (false, s) else (true, record_processed later key id s).

(** ** The outbox *)

(** [append_outbox] *)
Definition append_outbox (e : pyval) (s : Store) : Store := set_outbox (st_outbox s ++ [e]) s.

(** [outbox_entries] *)
Definition outbox_entries (s : Store) : list pyval := read_ndjson (ndjson (st_outbox s)).

(** [e.get("idempotency_key")] when it is not empty. *)
Definition entry_key (e : pyval) : option string :=
  match field "idempotency_key" e with
  | Some (PStr k) => if String.eqb k "" then None else Some k
  | _ => None
  end.

Definition TERMINAL : list string := ["delivered"; "dead"; "failed"].

(** [e.get("status") in terminal] *)
Definition is_terminal (e : pyval) : bool :=
  match field "status" e with Some (PStr t) => mem t TERMINAL | _ => false end.

(** [latest]: the last entry of each key. *)
Definition latest (log : list pyval) : dict string pyval :=
  fold_left (fun d e => match entry_key e with Some k => dset k e d | None => d end) log [].

(** The entries of the outbox for a query that calls [e.get]: [None] when an entry
    is not an object, which raises an [AttributeError]. *)
Definition outbox_objects (s : Store) : option (list pyval) :=
  let entries := outbox_entries s in if forallb is_object entries then Some entries else None.

Definition pending_of (log : list pyval) : list pyval :=
  List.filter (fun e => negb (is_terminal e)) (dvals (latest log)).

(** [outbox_pending] *)
Definition outbox_pending (s : Store) : option (list pyval) := pending_of <$> outbox_objects s.

(** [e.get("text") is not None] *)
Definition has_text (e : pyval) : bool :=
  match field "text" e with None | Some PNone => false | Some _ => true end.

(** [payloads]: the last entry of each key that carries the message. *)
Definition payloads (log : list pyval) : dict string pyval := latest (List.filter has_text log).

(** [record.update({k: v for k, v in status_entry.items() if k != "text"})] *)
Definition overlay_status (status payload : pyval) : pyval :=
  match status, payload with
  | PDict status, PDict payload =>
      PDict (fold_left (fun r kv => if String.eqb (fst kv) "text" then r else dset (fst kv) (snd kv) r) status payload)
  | _, _ => payload
  end.

Definition replay_record (log : list pyval) (key : string) (status : pyval) : pyval :=
  match dget key (payloads log) with
  | None => status
  | Some payload => overlay_status status payload
  end.

Definition replayable_of (log : list pyval) : list pyval :=
  map (fun kv => replay_record log (fst kv) (snd kv))
    (List.filter (fun kv => negb (is_terminal (snd kv))) (latest log)).

(** [outbox_replayable] *)
Definition outbox_replayable (s : Store) : option (list pyval) := replayable_of <$> outbox_objects s.

(** ** Rotated logs *)

(** [path.stat().st_size], of a file that no record has made yet too. *)
Definition size (log : list pyval) : Z := Z.of_nat (String.length (ndjson log)).

(** [_rotate_ndjson]; a file with no record does not exist. *)
Definition rotate (max_bytes backup_count : Z) (r : Rotated) : Rotated :=
  if Nat.eqb (length (rt_current r)) 0 || (size (rt_current r) <? max_bytes)%Z then r
  else mkRotated [] (take (Z.to_nat (Z.max 1 backup_count)) (rt_current r :: rt_backups r)).

Definition append_rotated (max_bytes backup_count : Z) (e : pyval) (r : Rotated) : Rotated :=
  let r := rotate max_bytes backup_count r in mkRotated (rt_current r ++ [e]) (rt_backups r).

(** [append_dead_letter] *)
Definition append_dead_letter (e : pyval) (s : Store) : Store :=
  set_dead (append_rotated (dead_letter_max_bytes cfg) (dead_letter_backup_count cfg) e (st_dead s)) s.

(** [audit] *)
Definition store_audit (now : Q) (event_type : string) (fields : row) (s : Store) : Store :=
  set_audit (append_rotated (audit_max_bytes cfg) (audit_backup_count cfg)
               (PDict ([("timestamp", PFloat now); ("event_type", PStr event_type)] ++ redact fields)) (st_audit s)) s.
End store.

(** ** Retention *)

Section retention.
Context {A : Type} (timestamp : A -> option Q).

(** The sort key of an entry at a position: its time, or the position. *)
Definition age_key (ie : nat * A) : Q :=
  match timestamp (snd ie) with
  | Some t => if Qeq_bool t 0 then inject_Z (Z.of_nat (fst ie)) else t
  | None => inject_Z (Z.of_nat (fst ie))
  end.

(** [sorted(..., key=..., reverse=True)], which is stable. *)
Fixpoint insert_newest (x : nat * A) (l : list (nat * A)) : list (nat * A) :=
  match l with
  | [] => [x]
  | y :: l' => if qle (age_key y) (age_key x) then x :: l else y :: insert_newest x l'
  end.
Definition newest_first (l : list (nat * A)) : list (nat * A) := foldr insert_newest [] l.

(** [survivors.sort(key=lambda item: item[0])] *)
Fixpoint insert_position (x : nat * A) (l : list (nat * A)) : list (nat * A) :=
  match l with
  | [] => [x]
  | y :: l' => if Nat.leb (fst x) (fst y) then x :: l else y :: insert_position x l'
  end.
Definition by_position (l : list (nat * A)) : list (nat * A) := foldr insert_position [] l.

(** [_purge_ndjson_ttl_cap]: the number removed and the log that is left. *)
Definition purge_ttl_cap (now ttl : Q) (max_entries : nat) (entries : list A) : nat * list A :=
  let survivors :=
    List.filter (fun ie => match timestamp (snd ie) with None => true | Some t => qle (now - ttl) t end)
      (combine (seq 0 (length entries)) entries) in
  let survivors :=
    if Nat.ltb max_entries (length survivors)
    then by_position (take max_entries (newest_first survivors)) else survivors in
  let kept := map snd survivors in
  (length entries - length kept, kept)%nat.
End retention.

Arguments purge_ttl_cap {A}.

(** [purge_processed_inbound] *)
Definition purge_processed_inbound (now ttl : Q) (max_entries : nat) (s : Store) : nat * Store :=
  let '(n, l) := purge_ttl_cap (fun e => Some (pr_seen_at e)) now ttl max_entries (st_processed s) in
  (n, set_processed l s).

(** [_entry_timestamp] *)
Fixpoint entry_timestamp (fields : list string) (e : pyval) : option Q :=
  match fields with
  | [] => None
  | f :: fields' =>
      match field f e with
      | Some (PFloat q) => Some q
      | Some (PInt z) => Some (inject_Z z)
      | Some (PBool b) => Some (if b then 1%Q else 0%Q)
      | _ => entry_timestamp fields' e
      end
  end.

(** [purge_outbox]; the file is written again only when something is removed, and
    an entry that is not an object raises. *)
Definition purge_outbox (dumps : pyval -> string) (loads : string -> option pyval) (now ttl : Q) (max_entries : nat)
    (s : Store) : option (nat * Store) :=
  entries ← outbox_objects dumps loads s;
  let '(n, l) := purge_ttl_cap (entry_timestamp ["at"; "timestamp"]) now ttl max_entries entries in
  Some (n, if Nat.eqb n 0 then s else set_outbox l s).

(** ** Histories of inbound messages *)

(** What happens to the inbound index: a message is checked, the process is
    restarted on the same files, the log is cut by the retention job. *)
Inductive event :=
| Check (now later : Q) (key : string) (id : option string)
| Reopen (now : Q)
| Retain (now ttl : Q) (max_entries : nat).

Section histories.
Context (cfg : ReliabilityConfig).

Local Abbreviation ttl := (inbound_dedupe_ttl cfg).

(** The store after an event, and the message it let through with the time it
    was recorded at. *)
Definition do_event (ev : event) (s : Store) : option (string * Q) * Store :=
  match ev with
  | Check now later key id =>
      let '(new, s') := check_and_record cfg now later key id s in
      (if new then Some (key, later) else None, s')
  | Reopen now => (None, reopen cfg now s)
  | Retain now ttl max => (None, snd (purge_processed_inbound now ttl max s))
  end.

(** The retention job keeps what the index still needs. *)
Definition retains (now keep : Q) (max_entries : nat) (s : Store) : Prop :=
  (ttl <= keep)%Q /\ (length (st_processed s) <= max_entries)%nat.

(** A history under a clock that does not go back; [acc] are the messages let
    through so far, and [t] the time. *)
Inductive inbound_history : list (string * Q) -> Q -> Store -> Prop :=
| hist_start t s : st_dedupe s = [] -> st_processed s = [] -> inbound_history [] t s
| hist_check acc t s now later key id :
    inbound_history acc t s -> (t <= now)%Q -> (now <= later)%Q ->
    inbound_history (acc ++ option_list (fst (do_event (Check now later key id) s))) later
      (snd (do_event (Check now later key id) s))
| hist_reopen acc t s now :
    inbound_history acc t s -> (t <= now)%Q -> inbound_history acc now (snd (do_event (Reopen now) s))
| hist_retain acc t s now keep max :
    inbound_history acc t s -> (t <= now)%Q -> retains now keep max s ->
    inbound_history acc now (snd (do_event (Retain now keep max) s)).

(** The log is in the order of its times, all of them past. *)
Definition log_sorted (t : Q) (l : list Processed) : Prop :=
  StronglySorted (fun a b => (pr_seen_at a <= pr_seen_at b)%Q) l /\ Forall (fun e => (pr_seen_at e <= t)%Q) l.

Record index_ok (acc : list (string * Q)) (t : Q) (s : Store) : Prop := mkIndexOk {
  io_sorted : log_sorted t (st_processed s);
  io_memory : forall k u, (k, u) ∈ acc -> k <> "" -> (t - ttl <= u)%Q ->
    exists v, dget k (st_dedupe s) = Some v /\ (u <= v)%Q;
  io_log : forall k u, (k, u) ∈ acc -> k <> "" -> (t - ttl <= u)%Q ->
    exists e, e ∈ st_processed s /\ pr_key e = k /\ pr_seen_at e = u;
}.

Lemma dget_fresh_keys c k v d : dget k d = Some v -> (c <= v)%Q -> dget k (fresh_keys c d) = Some v.
Proof.
  intros Hd Hc. induction d as [|[k' x] d IH]; [done|]. simpl in *.
  destruct (decide (k = k')) as [->|Hne].
  - injection Hd as ->. rewrite (proj2 (qle_true _ _) Hc). simpl. by rewrite decide_True.
  - destruct (qle c x); [|by apply IH]. simpl. rewrite decide_False by done. by apply IH.
Qed.

(** Loading keeps, of each key, the last line that is fresh. *)
Lemma load_dedupe_spec now l d0 k u :
  StronglySorted (fun a b => (pr_seen_at a <= pr_seen_at b)%Q) l -> k <> "" -> (now - ttl <= u)%Q ->
  (exists e, e ∈ l /\ pr_key e = k /\ pr_seen_at e = u)
  \/ (exists v, dget k d0 = Some v /\ (u <= v)%Q /\ Forall (fun e => (v <= pr_seen_at e)%Q) l) ->
  exists v, dget k (fold_left (fun d e =>
      if negb (String.eqb (pr_key e) "") && qle (now - ttl) (pr_seen_at e)
      then dset (pr_key e) (pr_seen_at e) d else d) l d0) = Some v /\ (u <= v)%Q.
Proof.
  intros Hs Hk Hu. revert d0. induction Hs as [|e l Hs IH Hle]; intros d0 H; simpl.
  { destruct H as [(e & He & _)|(v & Hv & Huv & _)]; [by inversion He|eauto]. }
  apply IH. rewrite Forall_forall in Hle.
  destruct H as [(x & [->|Hx]%elem_of_cons & <- & <-)|(v & Hv & Huv & [Hve Hall]%Forall_cons)].
  - right. exists (pr_seen_at e). rewrite (proj2 (String.eqb_neq _ _) Hk), (proj2 (qle_true _ _) Hu). simpl.
    rewrite dget_dset_eq. split; [done|]. split; [lra|]. by apply Forall_forall.
  - left. eauto.
  - right. destruct (decide (pr_key e = k)) as [Ek|Ek].
    + exists (pr_seen_at e). rewrite Ek, (proj2 (String.eqb_neq _ _) Hk), (proj2 (qle_true _ _)) by lra. simpl.
      rewrite dget_dset_eq. split; [done|]. split; [lra|]. by apply Forall_forall.
    + exists v. destruct (_ && _); [rewrite dget_dset_ne by done|]; auto.
Qed.

Lemma filter_combine {A} (f : A -> bool) n (l : list A) :
  map snd (List.filter (fun ie => f (snd ie)) (combine (seq n (length l)) l)) = List.filter f l.
Proof.
  revert n. induction l as [|x l IH]; intros n; [done|]. simpl. destruct (f x); simpl; by rewrite IH.
Qed.

Lemma purge_under_cap {A} (f : A -> option Q) now keep max (l : list A) :
  (length l <= max)%nat ->
  snd (purge_ttl_cap f now keep max l) =
    List.filter (fun x => match f x with None => true | Some t => qle (now - keep) t end) l.
Proof.
  intros H. unfold purge_ttl_cap.
  pose proof (filter_combine (fun x => match f x with None => true | Some t => qle (now - keep) t end) 0 l) as E.
  cbv beta in E. set (sv := List.filter _ (combine _ _)) in *.
  assert (Hlen : (length sv <= length l)%nat).
  { rewrite <- (length_map snd sv), E. apply List.filter_length_le. }
  rewrite (proj2 (Nat.ltb_ge max (length sv))) by lia. exact E.
Qed.

Lemma log_sorted_snoc t l e :
  log_sorted t l -> (t <= pr_seen_at e)%Q -> log_sorted (pr_seen_at e) (l ++ [e]).
Proof.
  intros [Hs Ht] He. split.
  - clear -Hs Ht He. induction Hs as [|x l Hs IH Hx]; simpl; [by repeat constructor|].
    apply Forall_cons in Ht as [Hxt Ht]. constructor; [by apply IH|]. apply Forall_app. split; [done|].
    constructor; [lra|done].
  - apply Forall_app. split; [|constructor; [lra|done]]. eapply Forall_impl; [exact Ht|]. simpl. intros x Hx. lra.
Qed.

Lemma log_sorted_filter t t' f l : log_sorted t l -> (t <= t')%Q -> log_sorted t' (List.filter f l).
Proof.
  intros [Hs Ht] Hle. induction Hs as [|x l Hs IH Hx]; [by repeat constructor|].
  apply Forall_cons in Ht as [Hxt Ht]. destruct (IH Ht) as [IH1 IH2]. simpl. destruct (f x); [|done].
  split; [|constructor; [lra|done]]. constructor; [done|]. apply Forall_forall. intros y Hy%list_elem_of_In.
  apply filter_In in Hy as [Hy _]. rewrite Forall_forall in Hx. apply Hx. by apply list_elem_of_In.
Qed.

(** Checking a message on a good index. *)
Lemma check_spec acc t s now later key id :
  index_ok acc t s -> (t <= now)%Q -> (now <= later)%Q ->
  (fst (check_and_record cfg now later key id s) = true -> key <> "" ->
     forall u, (key, u) ∈ acc -> (u < now - ttl)%Q)
  /\ index_ok (acc ++ option_list (fst (do_event (Check now later key id) s))) later
       (snd (do_event (Check now later key id) s)).
Proof.
  intros [Hs Hm Hl] Htn Hnl. unfold do_event, check_and_record.
  set (d := fresh_keys (now - ttl) (st_dedupe s)).
  assert (Hd : forall k u, (k, u) ∈ acc -> k <> "" -> (now - ttl <= u)%Q ->
                 exists v, dget k d = Some v /\ (u <= v)%Q).
  { intros k u Hku Hk Hu. destruct (Hm k u Hku Hk ltac:(lra)) as (v & Hv & Huv). exists v. split; [|done].
    apply dget_fresh_keys; [done|lra]. }
  change (st_dedupe (purge_expired cfg now s)) with d.
  destruct (dmem key d) eqn:E; simpl.
  - split; [done|]. rewrite app_nil_r. split; simpl.
    + destruct Hs as [Hs1 Hs2]. split; [done|]. eapply Forall_impl; [exact Hs2|]. simpl. intros x Hx. lra.
    + intros k u Hku Hk Hu. apply Hd; [done|done|lra].
    + intros k u Hku Hk Hu. apply Hl; [done|done|lra].
  - split.
    + intros _ Hk u Hu. destruct (Qlt_le_dec u (now - ttl)) as [|Hge]; [done|exfalso].
      destruct (Hd key u Hu Hk Hge) as (v & Hv & _). unfold dmem in E. by rewrite Hv in E.
    + split; simpl.
      * apply (log_sorted_snoc t _ (mkProcessed key id later)); [done|simpl; lra].
      * intros k u [Hku|[= -> ->]%list_elem_of_singleton]%elem_of_app Hk Hu.
        -- destruct (decide (key = k)) as [->|Hne].
           ++ exfalso. destruct (Hd k u Hku Hk ltac:(lra)) as (v & Hv & _). unfold dmem in E. by rewrite Hv in E.
           ++ rewrite dget_dset_ne by done. apply Hd; [done|done|lra].
        -- rewrite dget_dset_eq. exists later. split; [done|lra].
      * intros k u [Hku|[= -> ->]%list_elem_of_singleton]%elem_of_app Hk Hu.
        -- destruct (Hl k u Hku Hk ltac:(lra)) as (e & He & Hek). exists e. split; [|done]. apply elem_of_app. by left.
        -- exists (mkProcessed key id later). split; [|done]. apply elem_of_app. right. by left.
Qed.

Lemma history_index acc t s : inbound_history acc t s -> index_ok acc t s.
Proof.
  induction 1 as [t s Hd Hp|acc t s now later key id H IH Htn Hnl|acc t s now H IH Htn|acc t s now keep max H IH Htn Hr].
  - split; [rewrite Hp; by repeat constructor| |]; intros k u Hku; inversion Hku.
  - by apply (check_spec acc t s now later key id).
  - destruct IH as [[Hs Ht] Hm Hl]. split; simpl.
    + split; [done|]. eapply Forall_impl; [exact Ht|]. simpl. intros x Hx. lra.
    + intros k u Hku Hk Hu. unfold load_dedupe. apply load_dedupe_spec; [done|done|done|]. left.
      apply Hl; [done|done|lra].
    + intros k u Hku Hk Hu. apply Hl; [done|done|lra].
  - destruct IH as [Hs Hm Hl]. destruct Hr as [Hkeep Hlen]. unfold do_event, purge_processed_inbound.
    pose proof (purge_under_cap (fun e => Some (pr_seen_at e)) now keep max (st_processed s) Hlen) as Hp.
    destruct (purge_ttl_cap _ now keep max (st_processed s)) as [n l]. simpl in Hp. subst l.
    split; simpl.
    + by apply (log_sorted_filter t).
    + intros k u Hku Hk Hu. apply Hm; [done|done|lra].
    + intros k u Hku Hk Hu. destruct (Hl k u Hku Hk ltac:(lra)) as (e & He & Hek & Heu). exists e. split; [|done].
      apply list_elem_of_In, filter_In. split; [by apply list_elem_of_In|]. apply qle_true. rewrite Heu. lra.
Qed.
End histories.

(** ** Theorems *)

(** An inbound message is let through once.  In any history of checks,
    restarts of the process on its files and runs of a retention job that keeps
    at least the deduplication window, a message whose key was let through is
    let through again only after the window has passed. *)
Theorem inbound_once (cfg : ReliabilityConfig) (acc : list (string * Q)) (t : Q) (s : Store)
    (now later : Q) (key : string) (id : option string) (u : Q) :
  inbound_history cfg acc t s -> (t <= now)%Q -> (now <= later)%Q -> key <> "" ->
  fst (check_and_record cfg now later key id s) = true -> (key, u) ∈ acc ->
  (u < now - inbound_dedupe_ttl cfg)%Q.
Proof.
  intros H Htn Hnl Hk Hc Hu. apply (check_spec cfg acc t s now later key id); [by apply history_index|done..].
Qed.

Definition sample_reliability : ReliabilityConfig := mkReliability 600 true 4 1000 3 1000 3.

Definition empty_store : Store := mkStore [] [] [] (mkRotated [] []) (mkRotated [] []).

Definition seen_store : Store :=
  snd (do_event sample_reliability (Reopen 5) (snd (do_event sample_reliability (Check 0 0 "m1" None) empty_store))).

Lemma seen_history : inbound_history sample_reliability [("m1", 0%Q)] 5 seen_store.
Proof.
  apply (hist_reopen sample_reliability [("m1", 0%Q)] 0 _ 5); [|by compute].
  apply (hist_check sample_reliability [] 0 empty_store 0 0 "m1" None); [by constructor|by compute|by compute].
Qed.

Lemma inbound_once_witness :
  fst (check_and_record sample_reliability 10 10 "m1" None seen_store) = false
  /\ fst (check_and_record sample_reliability 700 700 "m1" None seen_store) = true
  /\ (0 < 700 - inbound_dedupe_ttl sample_reliability)%Q.
Proof.
  split; [by vm_compute|]. split; [by vm_compute|].
  apply (inbound_once sample_reliability [("m1", 0%Q)] 5 seen_store 700 700 "m1" None 0);
    [apply seen_history|by compute|by compute|done|by vm_compute|by left].
Defined.

(** ** The outbox as a log *)

(** The last entry of a key. *)
Fixpoint last_of (k : string) (log : list pyval) : option pyval :=
  match log with
  | [] => None
  | e :: log' =>
      match last_of k log' with
      | Some x => Some x
      | None => if decide (entry_key e = Some k) then Some e else None
      end
  end.

Lemma last_of_app k l1 l2 : last_of k (l1 ++ l2) = or_else (last_of k l2) (last_of k l1).
Proof.
  induction l1 as [|e l1 IH]; simpl; [by destruct (last_of k l2)|]. rewrite IH.
  by destruct (last_of k l2), (last_of k l1).
Qed.

Lemma last_of_other k l : Forall (fun e => entry_key e <> Some k) l -> last_of k l = None.
Proof. induction 1 as [|e l He Hl IH]; [done|]. simpl. by rewrite IH, decide_False. Qed.

Lemma last_of_snoc k l e : entry_key e = Some k -> last_of k (l ++ [e]) = Some e.
Proof. intros H. rewrite last_of_app. simpl. by rewrite decide_True. Qed.

Lemma last_of_key k l e : last_of k l = Some e -> entry_key e = Some k.
Proof.
  induction l as [|x l IH]; [done|]. simpl. destruct (last_of k l); [by apply IH|].
  destruct (decide _); [|done]. by intros [= <-].
Qed.

Lemma last_of_elem k l e : last_of k l = Some e -> e ∈ l.
Proof.
  induction l as [|x l IH]; [done|]. simpl. destruct (last_of k l); [intros [= ->]; right; by apply IH|].
  destruct (decide _); [|done]. intros [= <-]. by left.
Qed.

Lemma last_of_none k l e : last_of k l = None -> e ∈ l -> Some k <> entry_key e.
Proof.
  induction l as [|x l IH]; [by intros _ H; inversion H|]. simpl. destruct (last_of k l); [done|].
  destruct (decide (entry_key x = Some k)) as [|Hne]; [done|]. intros _ [->|He]%elem_of_cons; [congruence|by apply IH].
Qed.

Lemma latest_app l1 l2 :
  latest (l1 ++ l2) = fold_left (fun d e => match entry_key e with Some k => dset k e d | None => d end) l2 (latest l1).
Proof. unfold latest. apply fold_left_app. Qed.

Lemma dget_latest k log : dget k (latest log) = last_of k log.
Proof.
  induction log as [|e log IH] using rev_ind; [done|]. rewrite latest_app, last_of_app. simpl.
  destruct (decide (entry_key e = Some k)) as [He|Hne].
  - rewrite He, dget_dset_eq. done.
  - destruct (entry_key e) as [k'|]; [rewrite dget_dset_ne by congruence|]; by rewrite IH.
Qed.

Lemma latest_wf log : dict_wf (latest log).
Proof.
  induction log as [|e log IH] using rev_ind; [constructor|]. rewrite latest_app. simpl.
  destruct (entry_key e); [by apply dset_wf|done].
Qed.

Lemma latest_elem k e log : (k, e) ∈ latest log <-> last_of k log = Some e.
Proof.
  rewrite <- dget_latest. split; [apply dict_wf_In, latest_wf|apply dget_In].
Qed.

(** An entry awaits delivery when it is the last of its key and not terminal. *)
Lemma pending_iff e log :
  e ∈ pending_of log <-> exists k, last_of k log = Some e /\ is_terminal e = false.
Proof.
  unfold pending_of, dvals. rewrite list_elem_of_In, filter_In, in_map_iff, negb_true_iff. split.
  - intros (([k x] & <- & Hin%list_elem_of_In%latest_elem) & Ht). eauto.
  - intros (k & Hl%latest_elem%list_elem_of_In & Ht). split; [|done]. by exists (k, e).
Qed.

Lemma replayable_iff r log :
  r ∈ replayable_of log <->
  exists k e, last_of k log = Some e /\ is_terminal e = false /\ r = replay_record log k e.
Proof.
  unfold replayable_of. rewrite list_elem_of_In, in_map_iff. split.
  - intros ([k e] & <- & [Hin%list_elem_of_In%latest_elem Ht%negb_true_iff]%filter_In). eauto.
  - intros (k & e & Hl%latest_elem%list_elem_of_In & Ht & ->). exists (k, e). split; [done|].
    apply filter_In. split; [done|]. simpl. by rewrite Ht.
Qed.

(** ** Reading the outbox *)

Section reading.
Context (dumps : pyval -> string) (loads : string -> option pyval).

(** A file is read line by line: no record changes how another is read. *)
Lemma read_ndjson_cons e log :
  read_ndjson loads (ndjson dumps (e :: log)) = read_ndjson loads (line_of dumps e) ++ read_ndjson loads (ndjson dumps log).
Proof.
  unfold read_ndjson, splitlines. simpl ndjson. unfold line_of.
  rewrite append_assoc, split_from_lf. apply flat_map_app.
Qed.

Lemma read_ndjson_intact log : Forall (intact dumps loads) log -> read_ndjson loads (ndjson dumps log) = log.
Proof.
  induction 1 as [|e log He Hl IH]; [done|]. rewrite read_ndjson_cons, IH. unfold intact in He. by rewrite He.
Qed.

(** A record whose text has no line break reads back when its JSON does. *)
Lemma intact_line e :
  splitlines (line_of dumps e) = [dumps e] -> strip (dumps e) <> "" -> loads (dumps e) = Some e -> intact dumps loads e.
Proof.
  intros Hs Hn Hl. unfold intact, read_ndjson. rewrite Hs. simpl.
  by rewrite (proj2 (String.eqb_neq _ _) Hn), Hl.
Qed.

(** The record is an object and is read as it was written. *)
Definition readable (e : pyval) : Prop := is_object e = true /\ intact dumps loads e.

Lemma readable_objects s : Forall readable (st_outbox s) -> outbox_objects dumps loads s = Some (st_outbox s).
Proof.
  intros H. unfold outbox_objects, outbox_entries. rewrite read_ndjson_intact.
  - rewrite (proj2 (List.forallb_forall _ _)); [done|]. intros e He%list_elem_of_In.
    rewrite Forall_forall in H. by apply H.
  - eapply Forall_impl; [exact H|]. by intros e [_ He].
Qed.
End reading.
