(* ===== verification/ImOutbound.v ===== *)
(** * Outbound delivery ([src/orchestratord/im_gateway/outbound.py])

    With the channel results and retry policy ([channels/results.py],
    [channels/retry.py]), recipient authorization ([channels/authorization.py]),
    the splitting of long texts ([im_gateway/text.py]) and the replay of the
    outbox at startup ([_replay_pending_outbox] of [im_gateway/gateway.py]).
    The adapters, the clock and [strip_markdown] are parameters. *)

From stdpp Require Import pretty.
From S2P Require Import Prelude Errors StageRunner Regex ModeRouting ImStore.

Open Scope string_scope.
Open Scope list_scope.
Open Scope Z_scope.

(** ** Results *)

Inductive SendStatus :=
| SUCCESS | FAILED | RETRYABLE_ERROR | NONRETRYABLE_ERROR | UNSUPPORTED | RATE_LIMITED | ENQUEUED.

#[export] Instance SendStatus_eq_dec : EqDecision SendStatus.
Proof. solve_decision. Defined.

Inductive ErrorCategory :=
| NO_ERROR | NETWORK | TIMEOUT | RATE_LIMIT | SERVER_ERROR | CLIENT_ERROR | AUTH | NOT_FOUND | FORMAT
| UNSUPPORTED_MEDIA | CIRCUIT_OPEN | UNKNOWN.

#[export] Instance ErrorCategory_eq_dec : EqDecision ErrorCategory.
Proof. solve_decision. Defined.

Definition category_value (c : ErrorCategory) : string :=
  match c with
  | NO_ERROR => "none" | NETWORK => "network" | TIMEOUT => "timeout" | RATE_LIMIT => "rate_limit"
  | SERVER_ERROR => "server_error" | CLIENT_ERROR => "client_error" | AUTH => "auth"
  | NOT_FOUND => "not_found" | FORMAT => "format" | UNSUPPORTED_MEDIA => "unsupported_media"
  | CIRCUIT_OPEN => "circuit_open" | UNKNOWN => "unknown"
  end.

Definition RETRYABLE_CATEGORIES : list ErrorCategory := [NETWORK; TIMEOUT; RATE_LIMIT; SERVER_ERROR].

(** The fields that delivery reads. *)
Record ChannelSendResult := mkResult {
  sr_ok : bool;
  sr_status : SendStatus;
  sr_category : ErrorCategory;
  sr_receipt : option string;
  sr_message : text;
}.

(** [result.retryable] *)
Definition retryable (r : ChannelSendResult) : bool :=
  if sr_ok r then false
  else if decide (sr_status r = RATE_LIMITED) then false
  else mem (sr_category r) RETRYABLE_CATEGORIES.

Definition result_success : ChannelSendResult := mkResult true SUCCESS NO_ERROR None [].
Definition nonretryable_error (c : ErrorCategory) (m : text) : ChannelSendResult :=
  mkResult false NONRETRYABLE_ERROR c None m.
Definition unsupported (m : text) : ChannelSendResult := mkResult false UNSUPPORTED NO_ERROR None m.

(** ** The retry policy *)

(** Without [retryable_categories], which delivery does not consult. *)
Record RetryPolicy := mkPolicy {
  max_attempts : Z;
  base_seconds : Q;
  max_seconds : Q;
  jitter : Q;
}.

Definition policy_error (what : string) : exn := mkExn OtherException [Lit "ValueError: "; Lit what] None.

(** [__post_init__] *)
Definition new_policy (p : RetryPolicy) : outcome exn RetryPolicy :=
  if max_attempts p <? 1 then Raise (policy_error "RetryPolicy.max_attempts must be >= 1")
  else if qle (base_seconds p) 0 then Raise (policy_error "RetryPolicy.base_seconds must be > 0")
  else if qlt (max_seconds p) (base_seconds p) then Raise (policy_error "RetryPolicy.max_seconds must be >= base_seconds")
  else if negb (qle 0 (jitter p) && qle (jitter p) 1) then Raise (policy_error "RetryPolicy.jitter must be in [0.0, 1.0]")
  else Ret p.

Definition DEFAULT_RETRY_POLICY : RetryPolicy := mkPolicy 5 2 60 (1 # 4).

(** [classify_http_status] *)
Definition classify_http_status (status : Z) : ErrorCategory :=
  if (200 <=? status) && (status <? 300) then NO_ERROR
  else if status =? 429 then RATE_LIMIT
  else if (status =? 401) || (status =? 403) then AUTH
  else if status =? 404 then NOT_FOUND
  else if (400 <=? status) && (status <? 500) then CLIENT_ERROR
  else if (500 <=? status) && (status <? 600) then SERVER_ERROR
  else UNKNOWN.

(** [min(base * 2**(attempt-1), max_seconds)] *)
Definition backoff_base (attempt : Z) (p : RetryPolicy) : Q :=
  qmin (base_seconds p * inject_Z (2 ^ (attempt - 1))) (max_seconds p).

(** [compute_backoff], where [uniform a b] is a random number between [a] and [b]. *)
Definition compute_backoff (uniform : Q -> Q -> Q) (attempt : Z) (p : RetryPolicy) : outcome exn Q :=
  if attempt <? 1 then Raise (policy_error "attempt must be >= 1")
  else
    let base := backoff_base attempt p in
    if qle (jitter p) 0 then Ret base
    else let delta := (base * jitter p)%Q in Ret (base + uniform (- delta) delta)%Q.

(** ** Texts *)

(** [s.rfind(c, 0, n)] *)
Fixpoint rfind (c : Ascii.ascii) (n : nat) (s : string) : option nat :=
  match n, s with
  | S n', String x s' =>
      match rfind c n' s' with
      | Some i => Some (S i)
      | None => if Ascii.eqb x c then Some 0%nat else None
      end
  | _, _ => None
  end.

Definition newline_char : Ascii.ascii := Ascii.ascii_of_N 10.
Definition space_char : Ascii.ascii := Ascii.ascii_of_N 32.

(** Where a long text is cut. *)
Definition cut_at (size : nat) (s : string) : nat :=
  match rfind newline_char size s with
  | Some i => i
  | None => match rfind space_char size s with Some i => i | None => size end
  end.

(** The loop of [split_text]. *)
Fixpoint split_loop (fuel size : nat) (s : string) : list string :=
  match fuel with
  | O => []
  | S fuel' =>
      if String.eqb s "" then []
      else if Nat.leb (String.length s) size then [s]
      else
        let cut := cut_at size s in
        rstrip (take_str cut s) :: split_loop fuel' size (lstrip (drop_str cut s))
  end.

Definition nonempty (s : string) : bool := negb (String.eqb s "").

(** [split_text] *)
Definition split_text (size : nat) (s : string) : list string :=
  if Nat.leb (String.length s) size then (if String.eqb s "" then [] else [s])
  else List.filter nonempty (split_loop (S (String.length s)) size s).

Definition DEFAULT_CHUNK_SIZE : nat := 4000.

Definition blank_line : string := String newline_char (String newline_char "").

Definition truncation_notice : string := "（内容超长已截断）".

(** [maybe_truncate_with_liveview] without a link *)
Definition maybe_truncate (max_chunks : Z) (s : string) : list string :=
  let chunks := split_text DEFAULT_CHUNK_SIZE s in
  if Z.of_nat (length chunks) <=? max_chunks then chunks
  else [String.concat blank_line (take (Z.to_nat max_chunks) chunks) +:+ blank_line +:+ truncation_notice].

(** ** Adapters *)

(** What the dispatcher reads of an adapter: whether it declares outbound text
    and with which support for Markdown, whether it declares an inbound
    capability, its allow-list (when it has one; [None] inside when reading it
    raises), whether it is a Feishu adapter, and its retry policy. *)
Record Adapter := mkAdapter {
  a_outbound : bool;
  a_markdown : bool;
  a_inbound : bool;
  a_recipients : option (option (list string));
  a_feishu : bool;
  a_retry_policy : RetryPolicy;
}.

(** [authorized_recipients] *)
Definition authorized_recipients (a : Adapter) : list string :=
  match a_recipients a with
  | Some (Some l) => List.filter nonempty l
  | _ => []
  end.

(** [permits_target] *)
Definition permits_target (a : Adapter) (target : option string) : bool :=
  if is_some (a_recipients a) || a_inbound a then
    match str_or target None with
    | Some t => mem t (authorized_recipients a)
    | None => false
    end
  else true.

Record OutboundMessage := mkMessage {
  om_text : string;
  om_channel : string;
  om_level : string;
  om_markdown : bool;
  om_title : option string;
  om_target : option string;
  om_context_token : option string;
  om_semantic_tags : list string;
  om_metadata : pyval;
  om_idempotency_key : option string;
}.

Record ChannelMessage := mkPayload {
  cm_text : string;
  cm_title : option string;
  cm_markdown : bool;
  cm_metadata : pyval;
}.

Definition payload_error (what : string) : exn := mkExn OtherException [Lit "ValueError: ChannelMessage."; Lit what] None.

(** [ChannelMessage(...)] with [__post_init__] *)
Definition new_payload (t : string) (title : option string) (markdown : bool) (metadata : pyval)
    : outcome exn ChannelMessage :=
  if String.eqb t "" then Raise (payload_error "text must be non-empty")
  else if Nat.ltb 30000 (String.length t) then Raise (payload_error "text exceeds 30000 character safety cap")
  else if match title with Some x => Nat.ltb 200 (String.length x) | None => false end
  then Raise (payload_error "title exceeds 200 character safety cap")
  else match metadata with
       | PNone | PDict _ => Ret (mkPayload t title markdown metadata)
       | _ => Raise (payload_error "metadata must be a dict or None")
       end.

(** The channels as the world [W] has them: which adapter is registered under a
    name at the moment (a reload may change it at any time), the delivery by it,
    the clock, random numbers, new identifiers, and sleeping. *)
Record Channels (W : Type) := mkChannels {
  ch_adapter : string -> W -> option Adapter;
  ch_names : W -> list string;
  ch_send : string -> ChannelMessage -> option string -> option string -> M W exn ChannelSendResult;
  ch_clock : W -> Q;
  ch_uniform : W -> Q -> Q -> Q;
  ch_new_id : M W exn string;
  ch_sleep : Q -> M W exn unit;
}.
Arguments mkChannels {W}.
Arguments ch_adapter {W}.
Arguments ch_names {W}.
Arguments ch_send {W}.
Arguments ch_clock {W}.
Arguments ch_uniform {W}.
Arguments ch_new_id {W}.
Arguments ch_sleep {W}.

Record OState (W : Type) := mkO {
  o_world : W;
  o_store : Store;
}.
Arguments mkO {W}.
Arguments o_world {W}.
Arguments o_store {W}.

(** The store's parameters. *)
Record StoreOps := mkStoreOps {
  so_config : ReliabilityConfig;
  so_dumps : pyval -> string;
  so_loads : string -> option pyval;
  so_redact : row -> row;
}.

Definition opt_text (o : option string) : pyval := match o with Some s => PStr s | None => PNone end.

Section outbound.
Context {W : Type} (C : Channels W) (O : StoreOps) (strip_markdown : string -> string).

Local Abbreviation St := (OState W).

Definition lift {A} (m : M W exn A) : M St exn A := fun s =>
  let (r, w) := m (o_world s) in (r, mkO w (o_store s)).

Definition on_store (f : Store -> Store) (s : St) : St := mkO (o_world s) (f (o_store s)).

Definition now (s : St) : Q := ch_clock C (o_world s).

Definition append (e : pyval) : St -> St := on_store (append_outbox e).

(** ** Entries of the outbox *)

Definition status_entry (key channel status : string) (more : row) (at_ : Q) : pyval :=
  PDict ([("idempotency_key", PStr key); ("channel", PStr channel); ("status", PStr status)] ++ more ++ [("at", PFloat at_)]).

Definition pending_entry (m : OutboundMessage) (key chunk : string) (idx total : nat) (at_ : Q) : pyval :=
  PDict
  [("idempotency_key", PStr key); ("channel", PStr (om_channel m)); ("target", opt_text (om_target m));
   ("text", PStr chunk); ("context_token", opt_text (om_context_token m)); ("title", opt_text (om_title m));
   ("markdown", PBool (om_markdown m)); ("metadata", om_metadata m);
   ("semantic_tags", PList (map PStr (om_semantic_tags m))); ("level", PStr (om_level m));
   ("payload_size", PInt (Z.of_nat (String.length chunk))); ("chunk_index", PInt (Z.of_nat idx));
   ("chunks_total", PInt (Z.of_nat total)); ("status", PStr "pending"); ("at", PFloat at_)].

Definition delivered_entry (key channel : string) (r : ChannelSendResult) (attempt : Z) (at_ : Q) : pyval :=
  status_entry key channel "delivered" [("provider_receipt", opt_text (sr_receipt r)); ("attempts", PInt attempt)] at_.

Definition failed_entry (key channel : string) (r : ChannelSendResult) (attempt : Z) (at_ : Q) : pyval :=
  status_entry key channel "failed"
    [("error_category", PStr (category_value (sr_category r))); ("message", PText (sr_message r)); ("attempts", PInt attempt)] at_.

Definition retry_entry (key channel : string) (r : ChannelSendResult) (attempt : Z) (at_ : Q) : pyval :=
  status_entry key channel "retry_pending"
    [("error_category", PStr (category_value (sr_category r))); ("attempt", PInt attempt)] at_.

Definition dead_entry (key channel : string) (error : text) (at_ : Q) : pyval :=
  status_entry key channel "dead" [("error", PText error)] at_.

Definition dead_letter (key channel : string) (target : option string) (r : ChannelSendResult) (attempt : Z) (at_ : Q) : pyval :=
  PDict
  [("idempotency_key", PStr key); ("channel", PStr channel); ("target", opt_text target);
   ("error_category", PStr (category_value (sr_category r))); ("message", PText (sr_message r));
   ("attempts", PInt attempt); ("at", PFloat at_)].

(** ** One attempt *)

(** [require_outbound] succeeds. *)
Definition outbound_adapter (channel : string) (s : St) : option Adapter :=
  match ch_adapter C channel (o_world s) with
  | Some a => if a_outbound a then Some a else None
  | None => None
  end.

(** [_send_authorized] *)
Definition send_authorized (channel : string) (payload : ChannelMessage) (m : OutboundMessage)
    : M St exn ChannelSendResult := fun s =>
  match outbound_adapter channel s with
  | None => (Ret (unsupported [Lit "channel unavailable"]), s)
  | Some a =>
      if permits_target a (om_target m) then
        lift (ch_send C channel payload (om_target m)
                (if a_feishu a && is_some (a_recipients a) then None else om_context_token m)) s
      else
        (Ret (nonretryable_error AUTH [Lit "recipient is not authorized"]),
         on_store (store_audit (so_config O) (so_dumps O) (so_redact O) (now s)
                     "outbound_recipient_rejected" [("channel", PStr channel)]) s)
  end.

(** The platform rejected the stripped text on the first attempt. *)
Definition rejected_once (stripped : bool) (attempt : Z) (r : ChannelSendResult) : bool :=
  negb (sr_ok r) && stripped && bool_decide (sr_status r = NONRETRYABLE_ERROR)
  && negb (bool_decide (sr_category r = AUTH)) && (attempt =? 1).

(** The send of one round, with the second try as plain text. *)
Definition send_round (chunk : string) (m : OutboundMessage) (stripped : bool) (channel : string) (attempt : Z)
    (payload : ChannelMessage) : M St exn (ChannelSendResult * ChannelMessage) := fun s =>
  match send_authorized channel payload m s with
  | (Raise e, s1) => (Raise e, s1)
  | (Ret r, s1) =>
      if rejected_once stripped attempt r then
        match new_payload (strip_markdown chunk) None false (om_metadata m) with
        | Raise e => (Raise e, s1)
        | Ret plain =>
            match send_authorized channel plain m s1 with
            | (Raise e, s2) => (Raise e, s2)
            | (Ret r2, s2) => (Ret (r2, plain), s2)
            end
        end
      else (Ret (r, payload), s1)
  end.

(** [_adapter_retry_policy] *)
Definition adapter_retry_policy (channel : string) (s : St) : RetryPolicy :=
  match ch_adapter C channel (o_world s) with
  | Some a => a_retry_policy a
  | None => DEFAULT_RETRY_POLICY
  end.

(** The loop of [_send_chunk_with_retry]; [left] is what is left of
    [max_attempts] after this attempt. *)
Fixpoint chunk_loop (left : nat) (chunk : string) (m : OutboundMessage) (key : string) (stripped : bool)
    (channel : string) (policy : RetryPolicy) (attempt : Z) (payload : ChannelMessage)
    : M St exn ChannelSendResult := fun s =>
  match send_round chunk m stripped channel attempt payload s with
  | (Raise e, s1) => (Raise e, s1)
  | (Ret (r, payload'), s1) =>
      if sr_ok r then (Ret r, append (delivered_entry key channel r attempt (now s1)) s1)
      else if decide (sr_status r = RATE_LIMITED) then (Ret r, append (failed_entry key channel r attempt (now s1)) s1)
      else
        match retryable r, left with
        | true, S left' =>
            let s2 := append (retry_entry key channel r attempt (now s1)) s1 in
            match compute_backoff (ch_uniform C (o_world s2)) attempt policy with
            | Raise e => (Raise e, s2)
            | Ret delay =>
                match lift (ch_sleep C delay) s2 with
                | (Raise e, s3) => (Raise e, s3)
                | (Ret _, s3) => chunk_loop left' chunk m key stripped channel policy (attempt + 1) payload' s3
                end
            end
        | _, _ =>
            let s2 := append (failed_entry key channel r attempt (now s1)) s1 in
            (Ret r, on_store (append_dead_letter (so_config O) (so_dumps O)
                                (dead_letter key channel (om_target m) r attempt (now s2))) s2)
        end
  end.

(** [_send_chunk_with_retry] *)
Definition send_chunk_with_retry (chunk : string) (m : OutboundMessage) (key : string) (stripped : bool)
    (channel : string) : M St exn ChannelSendResult := fun s =>
  let policy := adapter_retry_policy channel s in
  match new_payload chunk (om_title m) (om_markdown m && negb stripped) (om_metadata m) with
  | Raise e => (Raise e, s)
  | Ret payload => chunk_loop (Z.to_nat (max_attempts policy - 1)) chunk m key stripped channel policy 1 payload s
  end.

(** ** A message *)

(** [_prepare_text] *)
Definition prepare_text (channel text : string) (s : St) : list string * bool :=
  let markdown := match outbound_adapter channel s with Some a => a_markdown a | None => false end in
  let stripped := markdown_fallback (so_config O) && negb markdown in
  (maybe_truncate (long_message_threshold_chunks (so_config O)) (if stripped then strip_markdown text else text), stripped).

(** [idem if len(chunks) == 1 else f"{idem}#{idx}"] *)
Definition chunk_key (idem : string) (total idx : nat) : string :=
  if Nat.eqb total 1 then idem else idem +:+ "#" +:+ pretty (N.of_nat idx).

(** The loop over the chunks. *)
Fixpoint send_chunks (idem : string) (stripped : bool) (m : OutboundMessage) (total idx : nat)
    (chunks : list string) (last : option ChannelSendResult) : M St exn ChannelSendResult := fun s =>
  match chunks with
  | [] => (Ret (default result_success last), s)
  | chunk :: chunks' =>
      let key := chunk_key idem total idx in
      let s1 := append (pending_entry m key chunk idx total (now s)) s in
      match send_chunk_with_retry chunk m key stripped (om_channel m) s1 with
      | (Raise e, s2) => (Raise e, s2)
      | (Ret r, s2) => if sr_ok r then send_chunks idem stripped m total (S idx) chunks' (Some r) s2 else (Ret r, s2)
      end
  end.

(** [message.idempotency_key or f"out:{uuid.uuid4()}"] *)
Definition message_key (m : OutboundMessage) : M St exn string := fun s =>
  match str_or (om_idempotency_key m) None with
  | Some k => (Ret k, s)
  | None =>
      match lift (ch_new_id C) s with
      | (Ret u, s1) => (Ret ("out:" +:+ u), s1)
      | (Raise e, s1) => (Raise e, s1)
      end
  end.

(** [send] *)
Definition send (m : OutboundMessage) : M St exn ChannelSendResult := fun s0 =>
  match message_key m s0 with
  | (Raise e, s) => (Raise e, s)
  | (Ret idem, s) =>
      let channel := om_channel m in
      match ch_adapter C channel (o_world s) with
      | None =>
          (Ret (nonretryable_error NOT_FOUND [Lit "channel "; Lit channel; Lit " not registered"]),
           append (dead_entry idem channel [Lit "channel_not_found"] (now s)) s)
      | Some a =>
          if a_outbound a then
            let '(chunks, stripped) := prepare_text channel (om_text m) s in
            send_chunks idem stripped m (length chunks) 0 chunks None s
          else
            let why := [Lit "channel "; Lit channel; Lit " does not declare 'outbound_text'"] in
            (Ret (unsupported why), append (dead_entry idem channel (Lit "capability_gate: " :: why) (now s)) s)
      end
  end.

(** The copy of a message that [broadcast] sends to a channel: without its tags
    and its key. *)
Definition copy_for (name : string) (m : OutboundMessage) : OutboundMessage :=
  mkMessage (om_text m) name (om_level m) (om_markdown m) (om_title m) (om_target m) (om_context_token m) []
    (om_metadata m) None.

(** [broadcast] *)
Fixpoint broadcast_to (names : list string) (m : OutboundMessage) (results : dict string ChannelSendResult)
    (s : St) : dict string ChannelSendResult * St :=
  match names with
  | [] => (results, s)
  | name :: names' =>
      let '(r, s1) := send (copy_for name m) s in
      let result := match r with
                    | Ret r => r
                    | Raise e => nonretryable_error UNKNOWN (Lit "broadcast raised: " :: exn_msg e)
                    end in
      broadcast_to names' m (dset name result results) s1
  end.

Definition broadcast (m : OutboundMessage) (channels : list string) (s : St)
    : dict string ChannelSendResult * St :=
  broadcast_to (match channels with [] => ch_names C (o_world s) | _ => channels end) m [] s.

(** ** Replay *)

Definition text_of (v : option pyval) : option string :=
  match v with Some (PStr t) => Some t | _ => None end.

(** The message rebuilt from a record of the outbox; [None] when the record has
    no key, no channel or no text. *)
Definition rebuild (r : pyval) : option OutboundMessage :=
  match str_or (text_of (field "idempotency_key" r)) None, str_or (text_of (field "channel" r)) None,
        text_of (field "text" r) with
  | Some key, Some channel, Some t =>
      Some (mkMessage t channel "info"
              (truthy (default (PBool true) (field "markdown" r))) (text_of (field "title" r))
              (text_of (field "target" r)) (text_of (field "context_token" r))
              (match field "semantic_tags" r with
               | Some (PList l) => omap (fun v => text_of (Some v)) l
               | _ => []
               end)
              (default PNone (field "metadata" r)) (Some key))
  | _, _, _ => None
  end.

(** One record of [_replay_pending_outbox]. *)
Definition replay_one (r : pyval) (s : St) : St :=
  let key := default "" (text_of (field "idempotency_key" r)) in
  let channel := default "" (text_of (field "channel" r)) in
  match rebuild r with
  | None =>
      append (dead_entry (if String.eqb key "" then "unknown" else key) channel [Lit "replay_payload_missing"] (now s)) s
  | Some m =>
      match send m s with
      | (Ret _, s1) => s1
      | (Raise e, s1) => append (dead_entry key channel (Lit "replay_error: " :: exn_msg e) (now s1)) s1
      end
  end.

Definition attribute_error : exn := mkExn OtherException [Lit "object has no attribute 'get'"] None.

(** [_replay_pending_outbox] *)
Definition replay_pending_outbox : M St exn unit := fun s =>
  match outbox_replayable (so_dumps O) (so_loads O) (o_store s) with
  | None => (Raise attribute_error, s)
  | Some pending => (Ret tt, fold_left (fun s r => replay_one r s) pending s)
  end.
End outbound.
