(* ===== verification/ImOutboundFacts.v ===== *)
(** * Facts about outbound delivery

    What the outbox says after a send that returned or was interrupted, how many
    attempts are made, who may receive a message, how a text is split, and which
    records a replay never settles. *)

From stdpp Require Import pretty.
From S2P Require Import Prelude Errors StageRunner Regex ModeRouting ClarModel LocalTrackerFacts ImStore ImOutbound.

Open Scope string_scope.
Open Scope list_scope.
Open Scope Z_scope.

(** ** Keys and entries *)

Definition status_of (e : pyval) : option string := text_of (field "status" e).

Lemma entry_key_status key channel status more at_ :
  key <> "" -> entry_key (status_entry key channel status more at_) = Some key.
Proof. intros H. unfold entry_key. simpl. by rewrite (proj2 (String.eqb_neq key "") H). Qed.

Lemma status_of_status key channel status more at_ : status_of (status_entry key channel status more at_) = Some status.
Proof. done. Qed.

Lemma terminal_status e st : status_of e = Some st -> is_terminal e = mem st TERMINAL.
Proof.
  unfold status_of, is_terminal. destruct (field "status" e) as [[]|]; try done. by intros [= ->].
Qed.

Lemma app_ne_self (a b : string) : b <> "" -> a +:+ b <> a.
Proof.
  intros Hb. induction a as [|c a IH]; [done|].
  change (String c a +:+ b) with (String c (a +:+ b)). congruence.
Qed.

Lemma chunk_key_nonempty idem total idx : idem <> "" -> chunk_key idem total idx <> "".
Proof. unfold chunk_key. destruct (Nat.eqb total 1); [done|]. by destruct idem. Qed.

Lemma chunk_key_ne idem total idx : total <> 1%nat -> chunk_key idem total idx <> idem.
Proof.
  intros H. unfold chunk_key. rewrite (proj2 (Nat.eqb_neq total 1) H). by apply app_ne_self.
Qed.

Lemma append_inj (a b c : string) : a +:+ b = a +:+ c -> b = c.
Proof. induction a as [|x a IH]; [done|]. intros [= H]. by apply IH. Qed.

Lemma chunk_key_inj idem total i j : total <> 1%nat -> chunk_key idem total i = chunk_key idem total j -> i = j.
Proof.
  intros H. unfold chunk_key. rewrite (proj2 (Nat.eqb_neq total 1) H). intros E%append_inj%(append_inj "#")%(inj pretty). lia.
Qed.

(** Every key that a stretch of the outbox writes is settled at its end. *)
Definition settled (l : list pyval) : Prop := forall k x, last_of k l = Some x -> is_terminal x = true.

Lemma settled_app a b : settled a -> settled b -> settled (a ++ b).
Proof.
  intros Ha Hb k x. rewrite last_of_app. destruct (last_of k b) eqn:E; simpl; [intros [= <-]; eauto|apply Ha].
Qed.

Lemma settled_snoc key l e :
  Forall (fun x => entry_key x = Some key) l -> entry_key e = Some key -> is_terminal e = true -> settled (l ++ [e]).
Proof.
  intros Hl He Ht k x Hx. destruct (decide (k = key)) as [->|Hne].
  - rewrite last_of_snoc in Hx by done. by injection Hx as <-.
  - rewrite last_of_other in Hx; [done|]. apply Forall_app. split; [|constructor; [congruence|done]].
    eapply Forall_impl; [exact Hl|]. simpl. congruence.
Qed.

(** ** One chunk *)

Section facts.
Context {W : Type} (C : Channels W) (O : StoreOps) (strip_markdown : string -> string).

Local Abbreviation St := (OState W).
Local Abbreviation outbox s := (st_outbox (o_store s)).

Lemma outbox_append e (s : St) : outbox (append e s) = outbox s ++ [e].
Proof. done. Qed.

Lemma outbox_dead_letter e (s : St) :
  outbox (on_store (append_dead_letter (so_config O) (so_dumps O) e) s) = outbox s.
Proof. done. Qed.

Lemma outbox_lift {A} (m : M W exn A) (s : St) : outbox (snd (lift m s)) = outbox s.
Proof. unfold lift. by destruct (m (o_world s)). Qed.

Lemma outbox_send_authorized channel payload m (s : St) :
  outbox (snd (send_authorized C O channel payload m s)) = outbox s.
Proof.
  unfold send_authorized. destruct (outbound_adapter C channel s) as [a|]; [|done].
  destruct (permits_target a (om_target m)); [apply outbox_lift|done].
Qed.

Lemma outbox_send_round chunk m stripped channel attempt payload (s : St) :
  outbox (snd (send_round C O strip_markdown chunk m stripped channel attempt payload s)) = outbox s.
Proof.
  unfold send_round. pose proof (outbox_send_authorized channel payload m s) as H1.
  destruct (send_authorized C O channel payload m s) as [[r|e] s1]; [|done]. simpl in H1.
  destruct (rejected_once stripped attempt r); [|done].
  destruct (new_payload (strip_markdown chunk) None false (om_metadata m)) as [plain|]; [|done]. pose proof (outbox_send_authorized channel plain m s1) as H2.
  destruct (send_authorized C O channel plain m s1) as [[r2|e] s2]; simpl in *; congruence.
Qed.

Definition is_retry (key channel : string) (e : pyval) : Prop :=
  exists r a t, e = retry_entry key channel r a t.

Definition final_status (r : ChannelSendResult) : string := if sr_ok r then "delivered" else "failed".

(** What the loop over the attempts writes. *)
Lemma chunk_loop_log left chunk m key stripped channel policy attempt payload (s : St) :
  key <> "" ->
  exists init, Forall (is_retry key channel) init /\ (length init <= left)%nat /\
  match chunk_loop C O strip_markdown left chunk m key stripped channel policy attempt payload s with
  | (Ret r, s') => exists e, outbox s' = outbox s ++ init ++ [e] /\ entry_key e = Some key
                             /\ status_of e = Some (final_status r)
  | (Raise _, s') => outbox s' = outbox s ++ init
  end.
Proof.
  intros Hk. revert attempt payload s. induction left as [|left IH]; intros attempt payload s; cbn [chunk_loop];
    pose proof (outbox_send_round chunk m stripped channel attempt payload s) as H1;
    destruct (send_round C O strip_markdown chunk m stripped channel attempt payload s) as [[[r payload']|e] s1];
    simpl in H1; try (exists []; split; [done|]; split; [simpl; lia|]; by rewrite app_nil_r).
  all: assert (Hend : forall e, entry_key e = Some key -> status_of e = Some (final_status r) ->
         exists e', outbox s1 ++ [e] = outbox s ++ [] ++ [e'] /\ entry_key e' = Some key
                    /\ status_of e' = Some (final_status r)) by (intros e He1 He2; exists e; rewrite H1; auto).
  all: assert (Hst : forall st more at_, (if sr_ok r then "delivered" else "failed") = st ->
         status_of (status_entry key channel st more at_) = Some (final_status r))
    by (intros st more at_ <-; done).
  all: destruct (sr_ok r) eqn:Eok.
  1, 3: exists []; split; [done|]; split; [simpl; lia|]; rewrite outbox_append; apply Hend;
    [by apply entry_key_status|by apply Hst].
  all: destruct (decide (sr_status r = RATE_LIMITED)).
  1, 3: exists []; split; [done|]; split; [simpl; lia|]; rewrite outbox_append; apply Hend;
    [by apply entry_key_status|by apply Hst].
  - exists []. split; [done|]. split; [simpl; lia|].
    destruct (retryable r); rewrite outbox_dead_letter, outbox_append; apply Hend;
      solve [by apply entry_key_status|by apply Hst].
  - destruct (retryable r).
    2: { exists []. split; [done|]. split; [simpl; lia|]. rewrite outbox_dead_letter, outbox_append.
         apply Hend; [by apply entry_key_status|by apply Hst]. }
    set (re := retry_entry key channel r attempt (now C s1)).
    assert (Hs2 : outbox (append re s1) = outbox s ++ [re]) by (by rewrite outbox_append, H1).
    assert (Hone : Forall (is_retry key channel) [re]) by (constructor; [by exists r, attempt, (now C s1)|done]).
    destruct (compute_backoff _ attempt policy) as [delay|e].
    2: { exists [re]. split; [done|]. split; [simpl; lia|]. done. }
    pose proof (outbox_lift (ch_sleep C delay) (append re s1)) as H3.
    destruct (lift (ch_sleep C delay) (append re s1)) as [[u|e] s3]; cbn [snd] in H3.
    2: { exists [re]. split; [done|]. split; [simpl; lia|]. by rewrite H3. }
    destruct (IH (attempt + 1) payload' s3) as (init & Hinit & Hlen & Hrest).
    exists (re :: init). split; [by constructor; [apply Forall_cons in Hone as [? _]|]|]. split; [simpl; lia|].
    destruct (chunk_loop _ _ _ left _ _ _ _ _ _ _ _ s3) as [[r'|e] s4].
    + destruct Hrest as (e & He & Hek). exists e. split; [|done]. by rewrite He, H3, Hs2, <- !app_assoc.
    + by rewrite Hrest, H3, Hs2, <- app_assoc.
Qed.

Lemma entry_key_pending m key chunk idx total at_ : key <> "" -> entry_key (pending_entry m key chunk idx total at_) = Some key.
Proof. intros H. unfold entry_key. simpl. by rewrite (proj2 (String.eqb_neq key "") H). Qed.

Lemma retry_key key channel e : key <> "" -> is_retry key channel e -> entry_key e = Some key.
Proof. intros Hk (r & a & t & ->). by apply entry_key_status. Qed.

Lemma retry_open key channel e : is_retry key channel e -> is_terminal e = false /\ has_text e = false.
Proof. by intros (r & a & t & ->). Qed.

(** What sending one chunk writes: its pending record, the retries, the end. *)
Lemma chunk_log chunk m key idx total stripped (s : St) :
  key <> "" ->
  exists t retries, Forall (is_retry key (om_channel m)) retries /\
    (length retries <= Z.to_nat (max_attempts (adapter_retry_policy C (om_channel m) s) - 1))%nat /\
  match send_chunk_with_retry C O strip_markdown chunk m key stripped (om_channel m)
          (append (pending_entry m key chunk idx total (now C s)) s) with
  | (Ret r, s') => exists e, outbox s' = outbox s ++ (pending_entry m key chunk idx total t :: retries) ++ [e]
                             /\ entry_key e = Some key /\ status_of e = Some (final_status r)
  | (Raise _, s') => outbox s' = outbox s ++ pending_entry m key chunk idx total t :: retries
  end.
Proof.
  intros Hk. unfold send_chunk_with_retry. set (s1 := append _ s).
  change (adapter_retry_policy C (om_channel m) s1) with (adapter_retry_policy C (om_channel m) s).
  assert (H1 : outbox s1 = outbox s ++ [pending_entry m key chunk idx total (now C s)]) by apply outbox_append.
  destruct (new_payload _ _ _ _) as [payload|e].
  2: { exists (now C s), []. split; [done|]. split; [simpl; lia|]. exact H1. }
  match goal with |- context [chunk_loop _ _ _ ?l _ _ _ _ _ ?p ?a ?pl s1] =>
    destruct (chunk_loop_log l chunk m key stripped (om_channel m) p a pl s1 Hk) as (retries & Hr & Hlen & Hlog) end.
  exists (now C s), retries. split; [done|]. split; [done|].
  destruct (chunk_loop _ _ _ _ _ _ _ _ _ _ _ _ s1) as [[r|e] s'].
  - destruct Hlog as (e & He & Hek). exists e. split; [|done]. by rewrite He, H1, <- app_assoc.
  - by rewrite Hlog, H1, <- app_assoc.
Qed.

(** The records of a chunk that was sent settle it. *)
Lemma block_settled m key chunk idx total t retries e st :
  key <> "" -> Forall (is_retry key (om_channel m)) retries -> entry_key e = Some key ->
  status_of e = Some st -> mem st TERMINAL = true ->
  settled ((pending_entry m key chunk idx total t :: retries) ++ [e]).
Proof.
  intros Hk Hr He Hs Ht. apply (settled_snoc key); [|done|by rewrite (terminal_status _ _ Hs)].
  constructor; [by apply entry_key_pending|]. eapply Forall_impl; [exact Hr|]. intros x. by apply retry_key.
Qed.

Definition only_delivered (l : list pyval) : Prop :=
  Forall (fun e => is_terminal e = true -> status_of e = Some "delivered") l.

Lemma block_delivered m key chunk idx total t retries e :
  Forall (is_retry key (om_channel m)) retries -> status_of e = Some "delivered" ->
  only_delivered ((pending_entry m key chunk idx total t :: retries) ++ [e]).
Proof.
  intros Hr He. apply Forall_app. split; [|by constructor]. constructor; [done|].
  eapply Forall_impl; [exact Hr|]. intros x Hx%retry_open. destruct Hx as [Hx _]. congruence.
Qed.

(** The entry is of a chunk of the message. *)
Definition own_key (idem : string) (total : nat) (e : pyval) : Prop :=
  exists j, entry_key e = Some (chunk_key idem total j).

(** The entry is of the message or of a chunk of it. *)
Definition of_message (idem : string) (total : nat) (e : pyval) : Prop :=
  entry_key e = Some idem \/ own_key idem total e.

Lemma block_keys m key chunk idx total t retries e :
  key <> "" -> Forall (is_retry key (om_channel m)) retries -> entry_key e = Some key ->
  Forall (fun x => entry_key x = Some key) ((pending_entry m key chunk idx total t :: retries) ++ [e]).
Proof.
  intros Hk Hr He. apply Forall_app. split; [|by constructor]. constructor; [by apply entry_key_pending|].
  eapply Forall_impl; [exact Hr|]. intros x. by apply retry_key.
Qed.

(** What a message that was interrupted in a chunk left behind. *)
Record interrupted (idem : string) (m : OutboundMessage) (total idx : nat) (chunks : list string)
    (before after : list pyval) (i : nat) (chunk : string) (retries : list pyval) : Prop := mkInterrupted {
  in_chunk : chunks !! i = Some chunk;
  in_log : exists sent t, after = before ++ sent ++ pending_entry m (chunk_key idem total (idx + i)) chunk (idx + i) total t :: retries
           /\ settled sent /\ only_delivered sent
           /\ (forall j, (j < i)%nat -> is_Some (last_of (chunk_key idem total (idx + j)) sent))
           /\ Forall (fun e => exists j, (j < i)%nat /\ entry_key e = Some (chunk_key idem total (idx + j))) sent;
  in_retries : Forall (is_retry (chunk_key idem total (idx + i)) (om_channel m)) retries;
}.

Lemma send_chunks_log idem stripped m total chunks idx last (s : St) :
  idem <> "" -> sr_ok (default result_success last) = true ->
  match send_chunks C O strip_markdown idem stripped m total idx chunks last s with
  | (Ret r, s') =>
      exists new, outbox s' = outbox s ++ new /\ settled new /\ Forall (own_key idem total) new /\
        if sr_ok r then only_delivered new
             /\ forall i, (i < length chunks)%nat -> is_Some (last_of (chunk_key idem total (idx + i)) new)
        else exists init e, new = init ++ [e] /\ status_of e = Some "failed"
  | (Raise _, s') => exists i chunk retries, interrupted idem m total idx chunks (outbox s) (outbox s') i chunk retries
  end.
Proof.
  intros Hi. revert idx last s. induction chunks as [|chunk chunks IH]; intros idx last s Hlast; cbn [send_chunks].
  { exists []. rewrite app_nil_r, Hlast. split; [done|]. split; [by intros k x|]. split; [constructor|]. split; [constructor|]. simpl. lia. }
  set (key := chunk_key idem total idx). assert (Hk : key <> "") by by apply chunk_key_nonempty.
  destruct (chunk_log chunk m key idx total stripped s Hk) as (t & retries & Hr & _ & Hlog).
  destruct (send_chunk_with_retry _ _ _ _ _ _ _ _ _) as [[r|e] s2].
  2: { exists 0%nat, chunk, retries. split; [done| |by rewrite Nat.add_0_r].
       exists [], t. rewrite Nat.add_0_r. split; [exact Hlog|]. split; [by intros k x|]. split; [constructor|].
       split; [lia|constructor]. }
  destruct Hlog as (e & He & Hek & Hst). set (block := (_ :: retries) ++ [e]) in He.
  assert (Hset : settled block).
  { eapply block_settled; [done|done|done|exact Hst|]. unfold final_status. by destruct (sr_ok r). }
  assert (Hbk : Forall (fun x => entry_key x = Some key) block) by by apply block_keys.
  assert (Hown : Forall (own_key idem total) block)
    by (eapply Forall_impl; [exact Hbk|]; intros x Hx; by exists idx).
  unfold final_status in Hst. destruct (sr_ok r) eqn:Eok.
  2: { exists block. split; [done|]. split; [done|]. split; [done|]. rewrite Eok. by eexists _, e. }
  assert (Hdel : only_delivered block) by by apply block_delivered.
  specialize (IH (S idx) (Some r) s2 Eok).
  destruct (send_chunks _ _ _ _ _ _ _ _ chunks _ _) as [[r'|e'] s'].
  - destruct IH as (new & Hnew & Hsn & Hkn & Hok). exists (block ++ new). rewrite Hnew, He, <- app_assoc. split; [done|].
    split; [by apply settled_app|]. split; [by apply Forall_app|]. destruct (sr_ok r').
    + destruct Hok as [Hod Hall]. split; [by apply Forall_app|]. intros i Hlt. rewrite last_of_app.
      destruct i as [|i].
      * rewrite Nat.add_0_r. unfold block. rewrite last_of_snoc by done. by destruct (last_of _ new).
      * destruct (Hall i) as [x Hx]; [simpl in Hlt; lia|]. rewrite <- Nat.add_succ_comm, Hx. by eexists.
    + destruct Hok as (init & x & -> & Hx). exists (block ++ init), x. by rewrite <- app_assoc.
  - destruct IH as (i & c & retries' & [Hc (sent & u & Hlog' & Hs & Hd & Hall & Hkeys) Hr']).
    exists (S i), c, retries'. split; [done| |by rewrite <- Nat.add_succ_comm].
    exists (block ++ sent), u. rewrite <- Nat.add_succ_comm, Hlog', He, <- !app_assoc.
    split; [done|]. split; [by apply settled_app|]. split; [by apply Forall_app|]. split.
    { intros j Hj. rewrite last_of_app. destruct j as [|j].
      - rewrite Nat.add_0_r. unfold block. rewrite last_of_snoc by done. by destruct (last_of _ sent).
      - destruct (Hall j) as [x Hx]; [lia|]. rewrite <- Nat.add_succ_comm, Hx. by eexists. }
    apply Forall_app. split.
    + eapply Forall_impl; [exact Hbk|]. intros x Hx. exists 0%nat. rewrite Nat.add_0_r. split; [lia|done].
    + eapply Forall_impl; [exact Hkeys|]. intros x (j & Hj & Hx). exists (S j). rewrite <- Nat.add_succ_comm. split; [lia|done].
Qed.

(** ** Replayed records *)

(** The message that a record of a chunk is rebuilt into. *)
Definition chunk_message (m : OutboundMessage) (key chunk : string) : OutboundMessage :=
  mkMessage chunk (om_channel m) "info" (om_markdown m) (om_title m) (om_target m) (om_context_token m)
    (om_semantic_tags m) (om_metadata m) (Some key).

Lemma text_of_opt o : text_of (Some (opt_text o)) = o.
Proof. by destruct o. Qed.

Lemma omap_tags l : omap (fun v => text_of (Some v)) (map PStr l) = l.
Proof.
  induction l as [|x l IH]; [done|].
  change (x :: omap (fun v => text_of (Some v)) (map PStr l) = x :: l). by rewrite IH.
Qed.

Lemma rebuild_fields r m key chunk :
  key <> "" -> om_channel m <> "" ->
  field "idempotency_key" r = Some (PStr key) -> field "channel" r = Some (PStr (om_channel m)) ->
  field "text" r = Some (PStr chunk) -> field "markdown" r = Some (PBool (om_markdown m)) ->
  field "title" r = Some (opt_text (om_title m)) -> field "target" r = Some (opt_text (om_target m)) ->
  field "context_token" r = Some (opt_text (om_context_token m)) ->
  field "semantic_tags" r = Some (PList (map PStr (om_semantic_tags m))) ->
  field "metadata" r = Some (om_metadata m) ->
  rebuild r = Some (chunk_message m key chunk).
Proof.
  intros Hk Hc H1 H2 H3 H4 H5 H6 H7 H8 H9. unfold rebuild. rewrite H1, H2, H3, H4, H5, H6, H7, H8, H9. simpl.
  rewrite (proj2 (String.eqb_neq _ _) Hk), (proj2 (String.eqb_neq _ _) Hc).
  unfold chunk_message. rewrite omap_tags. by destruct (om_title m), (om_target m), (om_context_token m).
Qed.

Lemma rebuild_overlay_pending m key chunk idx total t :
  key <> "" -> om_channel m <> "" ->
  rebuild (overlay_status (pending_entry m key chunk idx total t) (pending_entry m key chunk idx total t))
  = Some (chunk_message m key chunk).
Proof. intros Hk Hc. by apply rebuild_fields. Qed.

Lemma rebuild_overlay_retry m key chunk idx total t r a u :
  key <> "" -> om_channel m <> "" ->
  rebuild (overlay_status (retry_entry key (om_channel m) r a u) (pending_entry m key chunk idx total t))
  = Some (chunk_message m key chunk).
Proof. intros Hk Hc. by apply rebuild_fields. Qed.

Lemma payload_of_interrupted key channel l p retries :
  Forall (is_retry key channel) retries -> entry_key p = Some key -> has_text p = true ->
  dget key (payloads (l ++ p :: retries)) = Some p.
Proof.
  intros Hr Hp Ht. unfold payloads. rewrite dget_latest, List.filter_app. simpl. rewrite Ht.
  replace (List.filter has_text retries) with (@nil pyval).
  - by apply last_of_snoc.
  - clear -Hr. induction Hr as [|e l He Hl IH]; [done|]. simpl. by rewrite (proj2 (retry_open _ _ _ He)).
Qed.

(** The chunks before the interrupted one are delivered, those after it unknown. *)
Lemma interrupted_log idem m chunks before after i chunk retries :
  idem <> "" -> interrupted idem m (length chunks) 0 chunks before after i chunk retries ->
  exists new, after = before ++ new
    /\ (forall j, (j < i)%nat -> exists d, last_of (chunk_key idem (length chunks) j) new = Some d
          /\ status_of d = Some "delivered")
    /\ (forall j, (i < j < length chunks)%nat -> last_of (chunk_key idem (length chunks) j) new = None).
Proof.
  intros Hi [Hc (sent & t & Hlog & Hset & Hdel & Hall & Hkeys) Hr]. simpl in *.
  set (key := chunk_key idem (length chunks)) in *.
  assert (Hk : forall j, key j <> "") by (intros j; by apply chunk_key_nonempty).
  pose proof (lookup_lt_Some _ _ _ Hc) as Hlen.
  set (tail := pending_entry m (key i) chunk i (length chunks) t :: retries) in *.
  assert (Htail : Forall (fun x => entry_key x = Some (key i)) tail).
  { constructor; [by apply entry_key_pending|]. eapply Forall_impl; [exact Hr|]. intros x. by apply retry_key. }
  assert (Hnone : forall j, j <> i -> (j < length chunks)%nat -> last_of (key j) tail = None).
  { intros j Hj Hjl. apply last_of_other. eapply Forall_impl; [exact Htail|]. intros x Hx Hx'. rewrite Hx in Hx'.
    injection Hx' as E%chunk_key_inj; lia. }
  exists (sent ++ tail). split; [done|]. split; intros j Hj; rewrite last_of_app, Hnone by lia; simpl.
  - destruct (Hall j Hj) as [d Hd]. exists d. split; [done|]. unfold only_delivered in Hdel. rewrite Forall_forall in Hdel.
    apply Hdel; [by eapply last_of_elem|by apply (Hset _ _ Hd)].
  - apply last_of_other. eapply Forall_impl; [exact Hkeys|]. intros x (k & Hki & Hx) Hx'. rewrite Hx in Hx'.
    injection Hx' as E%chunk_key_inj; lia.
Qed.

Lemma interrupted_replayable idem m total idx chunks before (s' : St) i chunk retries :
  idem <> "" -> om_channel m <> "" ->
  interrupted idem m total idx chunks before (outbox s') i chunk retries ->
  exists rec, rec ∈ replayable_of (outbox s') /\
    rebuild rec = Some (chunk_message m (chunk_key idem total (idx + i)) chunk).
Proof.
  intros Hi Hc [_ (sent & t & Hlog & _) Hr]. set (key := chunk_key idem total (idx + i)) in *.
  assert (Hk : key <> "") by by apply chunk_key_nonempty.
  set (p := pending_entry m key chunk (idx + i) total t) in *. rewrite app_assoc in Hlog.
  assert (Hp : entry_key p = Some key) by by apply entry_key_pending.
  assert (Hpay : forall e, replay_record (outbox s') key e = overlay_status e p).
  { intros e. unfold replay_record. by rewrite Hlog, (payload_of_interrupted key (om_channel m)). }
  destruct retries as [|e retries _] using rev_ind.
  - exists (overlay_status p p). split; [|by apply rebuild_overlay_pending].
    apply replayable_iff. exists key, p. split; [rewrite Hlog; by apply last_of_snoc|]. split; [done|]. by rewrite Hpay.
  - apply Forall_app in Hr as [_ [He _]%Forall_cons]. pose proof (retry_open _ _ _ He) as [Hopen _].
    exists (overlay_status e p). split.
    + apply replayable_iff. exists key, e. split; [|split; [done|by rewrite Hpay]].
      rewrite Hlog. change (p :: retries ++ [e]) with ((p :: retries) ++ [e]). rewrite app_assoc.
      apply last_of_snoc. by apply (retry_key key (om_channel m)).
    + destruct He as (r & a & u & ->). by apply rebuild_overlay_retry.
Qed.
End facts.

(** ** The whole message *)

Section message.
Context {W : Type} (C : Channels W) (O : StoreOps) (strip_markdown : string -> string).

Local Abbreviation outbox s := (st_outbox (o_store s)).

Lemma message_key_spec m (s s0 : OState W) idem :
  message_key C m s = (Ret idem, s0) -> idem <> "" /\ outbox s0 = outbox s.
Proof.
  unfold message_key. destruct (om_idempotency_key m) as [k|]; simpl.
  - destruct (String.eqb_spec k "") as [->|Hne].
    + pose proof (outbox_lift (ch_new_id C) s) as H. destruct (lift (ch_new_id C) s) as [[u|e] s1]; [|done].
      intros [= <- <-]. done.
    + by intros [= <- <-].
  - pose proof (outbox_lift (ch_new_id C) s) as H. destruct (lift (ch_new_id C) s) as [[u|e] s1]; [|done].
    intros [= <- <-]. done.
Qed.

Lemma dead_settled idem channel err t : settled [dead_entry idem channel err t].
Proof.
  intros k x. simpl. destruct (decide _); [|done]. by intros [= <-].
Qed.

Lemma settled_pending l new e k :
  settled new -> last_of k (l ++ new) = Some e -> is_terminal e = false -> last_of k l = Some e.
Proof.
  intros Hs. rewrite last_of_app. destruct (last_of k new) as [x|] eqn:E; [|done]. simpl. intros [= ->] Ht.
  apply Hs in E. congruence.
Qed.

Lemma send_log m (s s0 : OState W) idem :
  message_key C m s = (Ret idem, s0) ->
  let chunks := fst (prepare_text C O strip_markdown (om_channel m) (om_text m) s0) in
  match send C O strip_markdown m s with
  | (Ret r, s') =>
      exists new, outbox s' = outbox s ++ new /\ settled new /\ Forall (of_message idem (length chunks)) new /\
        if sr_ok r then only_delivered new
             /\ forall i, (i < length chunks)%nat -> is_Some (last_of (chunk_key idem (length chunks) i) new)
        else exists init e, new = init ++ [e] /\ status_of e ∈ [Some "failed"; Some "dead"]
  | (Raise _, s') =>
      exists i chunk retries, interrupted idem m (length chunks) 0 chunks (outbox s) (outbox s') i chunk retries
  end.
Proof.
  intros Hkey. pose proof (message_key_spec _ _ _ _ Hkey) as [Hi Ho]. unfold send. rewrite Hkey.
  destruct (ch_adapter C (om_channel m) (o_world s0)) as [a|].
  2: { eexists. rewrite outbox_append, Ho. split; [done|]. split; [apply dead_settled|].
       split; [constructor; [left; by apply entry_key_status|constructor]|]. simpl. exists [].
       eexists. split; [done|]. right. by left. }
  destruct (a_outbound a).
  2: { eexists. rewrite outbox_append, Ho. split; [done|]. split; [apply dead_settled|].
       split; [constructor; [left; by apply entry_key_status|constructor]|]. simpl. exists [].
       eexists. split; [done|]. right. by left. }
  destruct (prepare_text C O strip_markdown (om_channel m) (om_text m) s0) as [chunks stripped]. simpl.
  pose proof (send_chunks_log C O strip_markdown idem stripped m (length chunks) chunks 0 None s0 Hi eq_refl) as H.
  destruct (send_chunks _ _ _ _ _ _ _ _ _ _ s0) as [[r|e] s'].
  - destruct H as (new & Hnew & Hs & Hown & Hok). exists new. rewrite Hnew, Ho. split; [done|]. split; [done|].
    split; [eapply Forall_impl; [exact Hown|]; by right|].
    destruct (sr_ok r); [done|]. destruct Hok as (init & x & -> & Hx). exists init, x. rewrite Hx. split; [done|]. by left.
  - destruct H as (i & c & rs & H). exists i, c, rs. by rewrite <- Ho.
Qed.
End message.

(** ** Recipients *)

(** The channels with another way of sending. *)
Definition with_send {W} (f : string -> ChannelMessage -> option string -> option string -> M W exn ChannelSendResult)
    (C : Channels W) : Channels W :=
  mkChannels (ch_adapter C) (ch_names C) f (ch_clock C) (ch_uniform C) (ch_new_id C) (ch_sleep C).

Section recipients.
Context {W : Type} (C : Channels W) (O : StoreOps) (strip_markdown : string -> string).
Context (f : string -> ChannelMessage -> option string -> option string -> M W exn ChannelSendResult).
(** The two agree where the adapter registered at the moment permits the target. *)
Context (Hagree : forall channel payload target token w a,
           ch_adapter C channel w = Some a -> permits_target a target = true ->
           ch_send C channel payload target token w = f channel payload target token w).

Lemma send_authorized_agree channel payload m s :
  send_authorized (with_send f C) O channel payload m s = send_authorized C O channel payload m s.
Proof.
  unfold send_authorized, outbound_adapter. simpl.
  destruct (ch_adapter C channel (o_world s)) as [a|] eqn:Ea; [|done]. destruct (a_outbound a); [|done].
  destruct (permits_target a (om_target m)) eqn:Ep; [|done]. unfold lift. by rewrite <- (Hagree _ _ _ _ _ a).
Qed.

Lemma send_round_agree chunk m stripped channel attempt payload s :
  send_round (with_send f C) O strip_markdown chunk m stripped channel attempt payload s
  = send_round C O strip_markdown chunk m stripped channel attempt payload s.
Proof.
  unfold send_round. rewrite send_authorized_agree.
  destruct (send_authorized C O channel payload m s) as [[r|e] s1]; [|done].
  destruct (new_payload _ _ _ _); [by rewrite send_authorized_agree|done].
Qed.

Lemma chunk_loop_agree left chunk m key stripped channel policy attempt payload s :
  chunk_loop (with_send f C) O strip_markdown left chunk m key stripped channel policy attempt payload s
  = chunk_loop C O strip_markdown left chunk m key stripped channel policy attempt payload s.
Proof.
  revert attempt payload s. induction left as [|left IH]; intros attempt payload s; cbn [chunk_loop];
    rewrite send_round_agree; [done|].
  destruct (send_round C O strip_markdown chunk m stripped channel attempt payload s) as [[[r payload']|e] s1]; [|done].
  destruct (sr_ok r); [done|]. destruct (decide _); [done|]. destruct (retryable r); [|done]. cbv zeta.
  change (now (with_send f C) s1) with (now C s1). simpl ch_uniform. simpl ch_sleep.
  destruct (compute_backoff _ _ _); [|done]. destruct (lift _ _) as [[u|e] s3]; [|done]. apply IH.
Qed.

Lemma send_chunks_agree idem stripped m total idx chunks last s :
  send_chunks (with_send f C) O strip_markdown idem stripped m total idx chunks last s
  = send_chunks C O strip_markdown idem stripped m total idx chunks last s.
Proof.
  revert idx last s. induction chunks as [|c chunks IH]; intros idx last s; [done|]. cbn [send_chunks]. cbv zeta.
  change (now (with_send f C) s) with (now C s).
  unfold send_chunk_with_retry. destruct (new_payload _ _ _ _) as [payload|e]; [|done]. rewrite chunk_loop_agree.
  match goal with |- context [adapter_retry_policy (with_send f C) ?x ?y] =>
    change (adapter_retry_policy (with_send f C) x y) with (adapter_retry_policy C x y) end.
  destruct (chunk_loop _ _ _ _ _ _ _ _ _ _ _ _ _) as [[r|e] s2]; [|done]. destruct (sr_ok r); [apply IH|done].
Qed.
End recipients.

(** ** Splitting *)

(** A text without its blanks. *)
Fixpoint squash (s : string) : string :=
  match s with
  | EmptyString => ""
  | String c s' => if is_space c then squash s' else String c (squash s')
  end.

Lemma squash_app a b : squash (a +:+ b) = squash a +:+ squash b.
Proof.
  induction a as [|c a IH]; [done|]. change (String c a +:+ b) with (String c (a +:+ b)). simpl.
  destruct (is_space c); [done|]. by rewrite IH.
Qed.

Lemma squash_lstrip s : squash (lstrip s) = squash s.
Proof. induction s as [|c s IH]; [done|]. simpl. destruct (is_space c) eqn:E; [done|]. simpl. by rewrite E. Qed.

Lemma lstrip_length s : (String.length (lstrip s) <= String.length s)%nat.
Proof. induction s as [|c s IH]; [done|]. simpl. destruct (is_space c); simpl; lia. Qed.

Lemma squash_rstrip s : squash (rstrip s) = squash s.
Proof.
  induction s as [|c s IH]; [done|]. simpl. destruct (rstrip s) as [|d t] eqn:E.
  - simpl in IH. rewrite <- IH. destruct (is_space c) eqn:Ec; simpl; by rewrite ?Ec.
  - change (rstrip s) with (rstrip s) in E. simpl squash at 1. by rewrite <- IH.
Qed.

Lemma rstrip_length s : (String.length (rstrip s) <= String.length s)%nat.
Proof.
  induction s as [|c s IH]; [done|]. simpl. destruct (rstrip s); [destruct (is_space c); simpl; lia|simpl in *; lia].
Qed.

Lemma drop_str_S n c s : drop_str (S n) (String c s) = drop_str n s.
Proof. done. Qed.

Lemma drop_str_0 s : drop_str 0 s = s.
Proof. unfold drop_str. rewrite Nat.sub_0_r. apply (take_str_id (String.length s) s). done. Qed.

Lemma take_drop_str n s : take_str n s +:+ drop_str n s = s.
Proof.
  revert s. induction n as [|n IH]; intros s.
  - rewrite drop_str_0. by destruct s.
  - destruct s as [|c s]; [done|]. rewrite drop_str_S. change (take_str (S n) (String c s)) with (String c (take_str n s)).
    change (String c (take_str n s) +:+ drop_str n s) with (String c (take_str n s +:+ drop_str n s)). by rewrite IH.
Qed.

Lemma drop_str_length n s : String.length (drop_str n s) = (String.length s - n)%nat.
Proof.
  revert s. induction n as [|n IH]; intros s; [rewrite drop_str_0; lia|].
  destruct s as [|c s]; [done|]. rewrite drop_str_S, IH. done.
Qed.

Lemma rfind_bound c n s i : rfind c n s = Some i -> (i < n)%nat.
Proof.
  revert s i. induction n as [|n IH]; intros [|x s] i; try done. simpl.
  destruct (rfind c n s) as [j|] eqn:E; [intros [= <-]; apply IH in E; lia|].
  destruct (Ascii.eqb x c); [|done]. intros [= <-]. lia.
Qed.

Lemma rfind_zero c n s : rfind c n s = Some 0%nat -> exists t, s = String c t.
Proof.
  destruct n as [|n], s as [|x s]; try done. simpl. destruct (rfind c n s); [done|].
  destruct (Ascii.eqb_spec x c) as [->|]; [eauto|done].
Qed.

Lemma cut_at_bound size s : (cut_at size s <= size)%nat.
Proof.
  unfold cut_at. destruct (rfind newline_char size s) as [i|] eqn:E; [apply rfind_bound in E; lia|].
  destruct (rfind space_char size s) as [i|] eqn:E2; [apply rfind_bound in E2; lia|done].
Qed.

(** Every round of the loop makes the text shorter. *)
Lemma cut_progress size s :
  (0 < size)%nat -> (size < String.length s)%nat ->
  (String.length (lstrip (drop_str (cut_at size s) s)) < String.length s)%nat.
Proof.
  intros Hs Hl. pose proof (lstrip_length (drop_str (cut_at size s) s)) as H. rewrite drop_str_length in H.
  destruct (decide (cut_at size s = 0%nat)) as [Hz|]; [|pose proof (cut_at_bound size s); lia].
  rewrite Hz, drop_str_0 in *. unfold cut_at in Hz.
  assert (exists c t, s = String c t /\ is_space c = true) as (c & t & -> & Hc).
  { destruct (rfind newline_char size s) as [i|] eqn:E; subst.
    - apply rfind_zero in E as [t ->]. by exists newline_char, t.
    - destruct (rfind space_char size s) as [i|] eqn:E2; subst; [|lia].
      apply rfind_zero in E2 as [t ->]. by exists space_char, t. }
  simpl. rewrite Hc. pose proof (lstrip_length t). lia.
Qed.

Definition join_all (l : list string) : string := foldr (fun a b => a +:+ b) "" l.

Lemma split_loop_spec fuel size s :
  (0 < size)%nat -> (String.length s < fuel)%nat ->
  Forall (fun c => (String.length c <= size)%nat) (split_loop fuel size s)
  /\ squash (join_all (split_loop fuel size s)) = squash s.
Proof.
  intros Hs. revert s. induction fuel as [|fuel IH]; intros s Hf; [lia|]. simpl.
  destruct (String.eqb_spec s "") as [->|Hne]; [by split|].
  destruct (Nat.leb_spec (String.length s) size) as [Hle|Hgt].
  { split; [by repeat constructor|]. simpl. by rewrite append_nil_r. }
  pose proof (cut_progress size s Hs Hgt). destruct (IH (lstrip (drop_str (cut_at size s) s))) as [IH1 IH2]; [lia|].
  split.
  - constructor; [|done]. pose proof (rstrip_length (take_str (cut_at size s) s)).
    pose proof (take_str_length (cut_at size s) s). pose proof (cut_at_bound size s). lia.
  - simpl. by rewrite squash_app, IH2, squash_rstrip, squash_lstrip, <- squash_app, take_drop_str.
Qed.

Lemma join_nonempty l : join_all (List.filter nonempty l) = join_all l.
Proof.
  induction l as [|x l IH]; [done|]. simpl. unfold nonempty at 1. destruct (String.eqb_spec x "") as [->|]; simpl; by rewrite IH.
Qed.

Lemma split_text_chunks size s :
  (0 < size)%nat ->
  Forall (fun c => c <> "" /\ (String.length c <= size)%nat) (split_text size s)
  /\ squash (join_all (split_text size s)) = squash s.
Proof.
  intros Hs. unfold split_text. destruct (Nat.leb_spec (String.length s) size) as [Hle|Hgt].
  - destruct (String.eqb_spec s "") as [->|Hne]; [by split|]. split; [by repeat constructor|]. simpl.
    by rewrite append_nil_r.
  - destruct (split_loop_spec (S (String.length s)) size s Hs ltac:(lia)) as [Hlen Hsq]. rewrite join_nonempty.
    split; [|done]. rewrite Forall_forall in Hlen. apply Forall_forall. intros c [Hc Hn]%list_elem_of_In%filter_In.
    apply list_elem_of_In in Hc. split; [|by apply Hlen]. intros ->. done.
Qed.

(** ** Samples *)

(** A channel "feishu" with one authorized recipient, whose deliveries follow a
    script: the outcomes of the next sends, then success. *)
Definition sample_adapter : Adapter := mkAdapter true true true (Some (Some ["u1"])) true DEFAULT_RETRY_POLICY.

Definition scripted_send (_ : string) (_ : ChannelMessage) (_ _ : option string)
    : M (list (outcome exn ChannelSendResult)) exn ChannelSendResult := fun w =>
  match w with
  | [] => (Ret result_success, [])
  | o :: w' => (o, w')
  end.

Definition scripted : Channels (list (outcome exn ChannelSendResult)) :=
  mkChannels (fun name _ => if String.eqb name "feishu" then Some sample_adapter else None) (fun _ => ["feishu"])
    scripted_send (fun _ => 0%Q) (fun _ a _ => a) (fun w => (Ret "id", w)) (fun _ w => (Ret tt, w)).

(** JSON as far as the samples need it: the text of a value, and the value of a
    text among the records given. *)
Definition json_char (c : Ascii.ascii) : string :=
  if byte_is 34 c || byte_is 92 c then String (Ascii.ascii_of_N 92) (one c)
  else if (Ascii.N_of_ascii c <? 32)%N then "\u" +:+ pretty (Ascii.N_of_ascii c) else one c.

Fixpoint json_string (s : string) : string :=
  match s with EmptyString => "" | String c s' => json_char c +:+ json_string s' end.

Definition quoted (s : string) : string := one (Ascii.ascii_of_N 34) +:+ json_string s +:+ one (Ascii.ascii_of_N 34).

Fixpoint sample_dumps (v : pyval) : string :=
  match v with
  | PNone | PObj _ => "null"
  | PBool b => if b then "true" else "false"
  | PInt z => pretty z
  | PFloat q => pretty (Qnum q) +:+ "/" +:+ pretty (Npos (Qden q))
  | PStr s => quoted s
  | PText t => quoted (String.concat "" (map (fun f : frag => match f with Lit s => s | _ => "" end) t))
  | PList l => "[" +:+ String.concat ", " (map sample_dumps l) +:+ "]"
  | PDict d => "{" +:+ String.concat ", " (map (fun kv : string * pyval => let (k, x) := kv in quoted k +:+ ": " +:+ sample_dumps x) d) +:+ "}"
  end.

Definition sample_loads (records : list pyval) (line : string) : option pyval :=
  List.find (fun e => String.eqb (sample_dumps e) line) records.

Definition json_ops (records : list pyval) : StoreOps :=
  mkStoreOps sample_reliability sample_dumps (sample_loads records) (fun e => e).

Definition sample_ops : StoreOps := json_ops [].

Definition identity_strip (s : string) : string := s.

Definition sample_message (t : string) : OutboundMessage :=
  mkMessage t "feishu" "info" true None (Some "u1") None [] PNone (Some "k").

Definition timeout_result : ChannelSendResult := mkResult false RETRYABLE_ERROR TIMEOUT None [].

Definition crash : exn := mkExn OtherException [Lit "connection reset"] None.

Definition scripted_state (w : list (outcome exn ChannelSendResult)) : OState (list (outcome exn ChannelSendResult)) :=
  mkO w empty_store.

(** ** Theorems *)

Local Abbreviation outbox s := (st_outbox (o_store s)).

Local Abbreviation pending O s := (outbox_pending (so_dumps O) (so_loads O) (o_store s)).

Local Abbreviation replayable O s := (outbox_replayable (so_dumps O) (so_loads O) (o_store s)).

Lemma replayable_readable O {W} (s : OState W) :
  Forall (readable (so_dumps O) (so_loads O)) (outbox s) -> replayable O s = Some (replayable_of (outbox s)).
Proof. intros H. unfold outbox_replayable. by rewrite readable_objects. Qed.

Lemma pending_readable O {W} (s : OState W) :
  Forall (readable (so_dumps O) (so_loads O)) (outbox s) -> pending O s = Some (pending_of (outbox s)).
Proof. intros H. unfold outbox_pending. by rewrite readable_objects. Qed.

(** What is pending behind a settled stretch was before it, under another key. *)
Lemma settled_pending_of l new e :
  settled new -> e ∈ pending_of (l ++ new) ->
  e ∈ pending_of l /\ forall x, x ∈ new -> entry_key e <> entry_key x.
Proof.
  intros Hs (k & Hl & Ht)%pending_iff. pose proof (last_of_key _ _ _ Hl) as Hk.
  split; [apply pending_iff; exists k; split; [by apply (settled_pending _ new)|done]|].
  intros x Hx Heq. rewrite Hk in Heq. destruct (last_of k new) as [y|] eqn:E.
  - rewrite last_of_app, E in Hl. injection Hl as ->. apply Hs in E. congruence.
  - by apply (last_of_none _ _ _ E Hx).
Qed.

Lemma delivered_chunks idem total new :
  settled new -> only_delivered new /\ (forall i, (i < total)%nat -> is_Some (last_of (chunk_key idem total i) new)) ->
  forall i, (i < total)%nat -> exists e, last_of (chunk_key idem total i) new = Some e /\ status_of e = Some "delivered".
Proof.
  intros Hs [Hd Hall] i Hi. destruct (Hall i Hi) as [e He]. exists e. split; [done|].
  unfold only_delivered in Hd. rewrite Forall_forall in Hd. apply Hd; [by eapply last_of_elem|by apply (Hs _ _ He)].
Qed.

Lemma of_message_one idem e : of_message idem 1 e -> entry_key e = Some idem.
Proof. by intros [H|[j H]]. Qed.

(** C27: a send that returns has written to the outbox only records of its message
    and its chunks, the last one of each key a terminal one; after a success every
    chunk of the text has a delivery as its last record, after a failure the very
    last record says failed or dead. If every record of the outbox then reads back
    from its file as it was written (a text with U+2028 does not), whatever awaits
    delivery afterwards did so before, under a key the send did not write; and
    nothing of the message awaits delivery if its text is one chunk or nothing of
    it did before. A message of several chunks whose own key was already pending,
    which a replay can send, leaves that record pending. *)
Theorem send_settles {W} (C : Channels W) (O : StoreOps) (strip_markdown : string -> string)
    (m : OutboundMessage) (s s0 s' : OState W) (idem : string) (r : ChannelSendResult) :
  message_key C m s = (Ret idem, s0) -> send C O strip_markdown m s = (Ret r, s') ->
  let chunks := fst (prepare_text C O strip_markdown (om_channel m) (om_text m) s0) in
  let mine := of_message idem (length chunks) in
  exists new, outbox s' = outbox s ++ new /\ Forall mine new /\ settled new
    /\ (if sr_ok r
        then forall i, (i < length chunks)%nat -> exists e,
               last_of (chunk_key idem (length chunks) i) new = Some e /\ status_of e = Some "delivered"
        else exists init e, new = init ++ [e] /\ status_of e ∈ [Some "failed"; Some "dead"])
    /\ (Forall (readable (so_dumps O) (so_loads O)) (outbox s') ->
        exists before after, pending O s = Some before /\ pending O s' = Some after
          /\ (forall e, e ∈ after -> e ∈ before /\ forall x, x ∈ new -> entry_key e <> entry_key x)
          /\ (length chunks = 1%nat \/ (forall e, e ∈ before -> ~ mine e) -> forall e, e ∈ after -> ~ mine e)).
Proof.
  intros Hkey Hsend. pose proof (send_log C O strip_markdown m s s0 idem Hkey) as H. cbv zeta in H |- *.
  rewrite Hsend in H. destruct H as (new & Hnew & Hs & Hmine & Hok). exists new. split; [done|]. split; [done|]. split; [done|].
  split; [destruct (sr_ok r); [by apply delivered_chunks|done]|]. intros Hr.
  assert (Hr0 : Forall (readable (so_dumps O) (so_loads O)) (outbox s)) by (rewrite Hnew in Hr; by apply Forall_app in Hr as [? _]).
  eexists _, _. split; [by apply pending_readable|]. split; [by apply pending_readable|]. rewrite Hnew.
  assert (Hsub := fun e => settled_pending_of (outbox s) new e Hs). split; [done|].
  intros Hcase e He. destruct (Hsub e He) as [Hb Hother]. destruct Hcase as [H1|Hfresh]; [|by apply Hfresh].
  rewrite H1 in Hmine, Hok |- *. intros Hm. 
  assert (Hx : exists x, x ∈ new).
  { destruct (sr_ok r).
    - destruct Hok as [_ Hall]. destruct (Hall 0%nat) as [x Hx]; [lia|]. exists x. by eapply last_of_elem.
    - destruct Hok as (init & x & -> & _). exists x. apply elem_of_app. right. by left. }
  destruct Hx as (x & Hx).
  rewrite Forall_forall in Hmine. pose proof (Hmine x Hx) as Hmx. apply (Hother x Hx).
  rewrite (of_message_one _ _ Hm), (of_message_one _ _ Hmx). done.
Qed.

(** The records of a concrete outbox are read one by one. *)
Ltac read_back :=
  match goal with
  | |- Forall _ ?l => let l' := eval vm_compute in l in replace l with l' by (vm_compute; reflexivity)
  end;
  repeat (apply Forall_cons; split); try apply Forall_nil; split; vm_compute; reflexivity.

Lemma send_settles_witness :
  let s := scripted_state [Ret timeout_result] in
  let s' := snd (send scripted sample_ops identity_strip (sample_message "hello") s) in
  let O := json_ops (outbox s') in
  fst (send scripted O identity_strip (sample_message "hello") s) = Ret result_success
  /\ map status_of (outbox s') = [Some "pending"; Some "retry_pending"; Some "delivered"]
  /\ exists after, pending O s' = Some after /\ forall e, e ∈ after -> ~ of_message "k" 1 e.
Proof.
  cbv zeta. set (s := scripted_state _). set (s' := snd _). set (O := json_ops _).
  assert (Hk : message_key scripted (sample_message "hello") s = (Ret "k", s)) by by vm_compute.
  assert (Hs : send scripted O identity_strip (sample_message "hello") s = (Ret result_success, s')) by by vm_compute.
  assert (Hr : Forall (readable (so_dumps O) (so_loads O)) (outbox s')) by read_back.
  assert (H1 : length (fst (prepare_text scripted O identity_strip (om_channel (sample_message "hello")) (om_text (sample_message "hello")) s)) = 1%nat)
    by by vm_compute.
  split; [by rewrite Hs|]. split; [by vm_compute|].
  pose proof (send_settles scripted O identity_strip (sample_message "hello") s s s' "k" result_success Hk Hs) as H.
  clearbody s' O. destruct H as (new & _ & _ & _ & _ & H). destruct (H Hr) as (before & after & _ & Ha & _ & Hall).
  cbv zeta in Hall. rewrite H1 in Hall. exists after. split; [done|]. apply Hall. by left.
Defined.

(** A text with a line separator breaks the line of its record.  Here the middle
    part is the JSON text [null], which is not an object: the send succeeds, and
    from then on every query of the outbox raises, so that the replay at the next
    start sends nothing. *)
Example separator_breaks_outbox :
  let separator := String (Ascii.ascii_of_N 226) (String (Ascii.ascii_of_N 128) (one (Ascii.ascii_of_N 168))) in
  let O := json_ops [PNone] in
  let m := sample_message ("a" +:+ separator +:+ "null" +:+ separator +:+ "b") in
  let '(r, s') := send scripted O identity_strip m (scripted_state []) in
  r = Ret result_success
  /\ pending O s' = None
  /\ replay_pending_outbox scripted O identity_strip s' = (Raise attribute_error, s').
Proof. by vm_compute. Qed.

(** A send that is interrupted loses no chunk it had begun.  When the
    process stops (or an adapter raises) in the middle of a message, the chunk in
    flight is replayable and is rebuilt with its text, recipient, title and tags;
    the chunks before it are recorded as delivered, and of the chunks after it
    the outbox holds nothing. *)
Theorem interrupted_send_replayable {W} (C : Channels W) (O : StoreOps) (strip_markdown : string -> string)
    (m : OutboundMessage) (s s0 s' : OState W) (idem : string) (e : exn) :
  Forall (readable (so_dumps O) (so_loads O)) (outbox s') -> om_channel m <> "" -> message_key C m s = (Ret idem, s0) ->
  send C O strip_markdown m s = (Raise e, s') ->
  let chunks := fst (prepare_text C O strip_markdown (om_channel m) (om_text m) s0) in
  exists i chunk new, chunks !! i = Some chunk /\ outbox s' = outbox s ++ new
    /\ (exists recs rec, replayable O s' = Some recs /\ rec ∈ recs
          /\ rebuild rec = Some (chunk_message m (chunk_key idem (length chunks) i) chunk))
    /\ (forall j, (j < i)%nat -> exists d, last_of (chunk_key idem (length chunks) j) new = Some d
          /\ status_of d = Some "delivered")
    /\ (forall j, (i < j < length chunks)%nat -> last_of (chunk_key idem (length chunks) j) new = None).
Proof.
  intros Hre Hc Hkey Hsend. pose proof (send_log C O strip_markdown m s s0 idem Hkey) as H. cbv zeta in H |- *.
  rewrite Hsend in H. set (chunks := fst (prepare_text _ _ _ _ _ _)) in *.
  destruct (message_key_spec C m s s0 idem Hkey) as [Hi _]. destruct H as (i & chunk & retries & Hint).
  destruct (interrupted_log idem m chunks (outbox s) (outbox s') i chunk retries Hi Hint) as (new & Hnew & Hlt & Hgt).
  exists i, chunk, new. split; [by destruct Hint|]. split; [done|].
  split; [|done]. destruct (interrupted_replayable idem m (length chunks) 0 chunks (outbox s) s' i chunk retries) as (rec & Hrec & Hb);
    [done..|]. exists (replayable_of (outbox s')), rec. split; [by apply replayable_readable|done].
Qed.

Fixpoint repeat_char (n : nat) (c : Ascii.ascii) : string :=
  match n with O => "" | S n' => String c (repeat_char n' c) end.

Definition letter_a : Ascii.ascii := Ascii.ascii_of_N 97.

(** A text of two chunks. *)
Definition long_text : string := repeat_char 3990 letter_a +:+ String newline_char (repeat_char 20 letter_a).

Lemma interrupted_send_replayable_witness :
  let s := scripted_state [Ret result_success; Raise crash] in
  let s' := snd (send scripted sample_ops identity_strip (sample_message long_text) s) in
  let O := json_ops (outbox s') in
  map status_of (outbox s') = [Some "pending"; Some "delivered"; Some "pending"]
  /\ exists i chunk recs rec, replayable O s' = Some recs /\ rec ∈ recs
       /\ rebuild rec = Some (chunk_message (sample_message long_text)
            (chunk_key "k" (length (fst (prepare_text scripted O identity_strip "feishu" long_text s))) i) chunk).
Proof.
  cbv zeta. split; [by vm_compute|]. set (s := scripted_state _). set (s' := snd _). set (O := json_ops _).
  assert (Hr : Forall (readable (so_dumps O) (so_loads O)) (outbox s')) by read_back.
  destruct (interrupted_send_replayable scripted O identity_strip (sample_message long_text) s s s' "k" crash Hr)
    as (i & chunk & _ & _ & _ & (recs & rec & Hrec & Hin & Hb) & _); [by vm_compute..|].
  clearbody s' O. exists i, chunk, recs, rec. exact (conj Hrec (conj Hin Hb)).
Defined.

(** A chunk is tried at most as often as the policy of its channel allows.
    The outbox gets the chunk's pending record, at most [max_attempts - 1]
    records of retries, and one record of the outcome when the send returns. *)
Theorem attempts_bounded {W} (C : Channels W) (O : StoreOps) (strip_markdown : string -> string)
    (m : OutboundMessage) (chunk key : string) (idx total : nat) (stripped : bool) (s : OState W) :
  key <> "" ->
  exists t retries, Forall (is_retry key (om_channel m)) retries /\
    (length retries <= Z.to_nat (max_attempts (adapter_retry_policy C (om_channel m) s) - 1))%nat /\
    match send_chunk_with_retry C O strip_markdown chunk m key stripped (om_channel m)
            (append (pending_entry m key chunk idx total (now C s)) s) with
    | (Ret r, s') => exists e, outbox s' = outbox s ++ (pending_entry m key chunk idx total t :: retries) ++ [e]
                               /\ entry_key e = Some key /\ status_of e = Some (final_status r)
    | (Raise _, s') => outbox s' = outbox s ++ pending_entry m key chunk idx total t :: retries
    end.
Proof. apply chunk_log. Qed.

Lemma attempts_bounded_witness :
  "k" <> "" /\ exists t retries, Forall (is_retry "k" "feishu") retries /\ (length retries <= 4)%nat /\
    outbox (snd (send_chunk_with_retry scripted sample_ops identity_strip "hi" (sample_message "hi") "k" false "feishu"
      (append (pending_entry (sample_message "hi") "k" "hi" 0 1 (now scripted (scripted_state [Raise crash])))
         (scripted_state [Raise crash]))))
    = pending_entry (sample_message "hi") "k" "hi" 0 1 t :: retries.
Proof.
  split; [done|].
  destruct (attempts_bounded scripted sample_ops identity_strip (sample_message "hi") "hi" "k" 0 1 false
              (scripted_state [Raise crash])) as (t & retries & Hr & Hl & H); [done|].
  exists t, retries. split; [done|]. split; [exact Hl|]. exact H.
Defined.

(** Only an authorized recipient is sent to.  A send never depends on what
    an adapter would do with a target that its allow-list does not permit at the
    moment of the attempt: replacing the delivery by another that agrees on the
    permitted targets changes neither the result nor the state. *)
Theorem only_authorized_recipients {W} (C : Channels W) (O : StoreOps) (strip_markdown : string -> string)
    (f : string -> ChannelMessage -> option string -> option string -> M W exn ChannelSendResult)
    (m : OutboundMessage) (s : OState W) :
  (forall channel payload target token w a,
     ch_adapter C channel w = Some a -> permits_target a target = true ->
     ch_send C channel payload target token w = f channel payload target token w) ->
  send (with_send f C) O strip_markdown m s = send C O strip_markdown m s.
Proof.
  intros Hagree. unfold send. change (message_key (with_send f C) m s) with (message_key C m s).
  destruct (message_key C m s) as [[idem|e] s1]; [|done]. simpl ch_adapter.
  destruct (ch_adapter C (om_channel m) (o_world s1)) as [a|]; [|done]. destruct (a_outbound a); [|done].
  change (prepare_text (with_send f C) O strip_markdown (om_channel m) (om_text m) s1)
    with (prepare_text C O strip_markdown (om_channel m) (om_text m) s1).
  destruct (prepare_text C O strip_markdown (om_channel m) (om_text m) s1) as [chunks stripped].
  by apply send_chunks_agree.
Qed.

(** A delivery that breaks for any recipient but the authorized one. *)
Definition guarded_send (channel : string) (payload : ChannelMessage) (target token : option string)
    : M (list (outcome exn ChannelSendResult)) exn ChannelSendResult := fun w =>
  if permits_target sample_adapter target then scripted_send channel payload target token w else (Raise crash, w).

Lemma only_authorized_recipients_witness :
  let stranger := mkMessage "hi" "feishu" "info" true None (Some "u2") None [] PNone (Some "k") in
  send (with_send guarded_send scripted) sample_ops identity_strip stranger (scripted_state [])
  = send scripted sample_ops identity_strip stranger (scripted_state [])
  /\ fst (send scripted sample_ops identity_strip stranger (scripted_state []))
     = Ret (nonretryable_error AUTH [Lit "recipient is not authorized"]).
Proof.
  cbv zeta. split; [|by vm_compute]. apply only_authorized_recipients.
  intros channel payload target token w a Ha Hp. simpl in Ha. destruct (String.eqb channel "feishu"); [|done].
  injection Ha as <-. unfold guarded_send. by rewrite Hp.
Defined.

(** Splitting a text loses nothing but blanks: every chunk is nonempty and
    within the size, and the chunks in order are the text up to blanks. *)
Theorem split_text_spec (size : nat) (s : string) :
  (0 < size)%nat ->
  Forall (fun c => c <> "" /\ (String.length c <= size)%nat) (split_text size s)
  /\ squash (join_all (split_text size s)) = squash s.
Proof. apply split_text_chunks. Qed.

Lemma split_text_spec_witness :
  split_text 5 "ab cd efghijk" = ["ab"; "cd"; "efghi"; "jk"]
  /\ squash (join_all (split_text 5 "ab cd efghijk")) = squash "ab cd efghijk".
Proof. split; [by vm_compute|]. apply (split_text_spec 5 "ab cd efghijk"). lia. Defined.

(** A record whose text is cut again is never settled by its replay.  The
    replay sends the text under the record's key, and when it splits into
    several chunks every new record carries a key of a chunk; so however the
    send ends the record is still replayable, unchanged, at the next start. *)
Theorem replay_never_settles {W} (C : Channels W) (O : StoreOps) (strip_markdown : string -> string)
    (s s' : OState W) (key : string) (e : pyval) (m : OutboundMessage) (a : Adapter) (r : ChannelSendResult) :
  Forall (readable (so_dumps O) (so_loads O)) (outbox s') ->
  last_of key (outbox s) = Some e -> is_terminal e = false ->
  rebuild (replay_record (outbox s) key e) = Some m -> om_idempotency_key m = Some key -> key <> "" ->
  ch_adapter C (om_channel m) (o_world s) = Some a -> a_outbound a = true ->
  length (fst (prepare_text C O strip_markdown (om_channel m) (om_text m) s)) <> 1%nat ->
  send C O strip_markdown m s = (Ret r, s') ->
  let rec := replay_record (outbox s) key e in
  replay_one C O strip_markdown rec s = s' /\ exists recs, replayable O s' = Some recs /\ rec ∈ recs.
Proof.
  intros Hre Hl Ht Hb Hm Hk Ha Ho Hn Hsend. cbv zeta. split; [unfold replay_one; by rewrite Hb, Hsend|].
  assert (Hkey : message_key C m s = (Ret key, s)).
  { unfold message_key. rewrite Hm. simpl. by rewrite (proj2 (String.eqb_neq _ _) Hk). }
  unfold send in Hsend. rewrite Hkey, Ha, Ho in Hsend.
  destruct (prepare_text C O strip_markdown (om_channel m) (om_text m) s) as [chunks stripped]. simpl in Hn.
  pose proof (send_chunks_log C O strip_markdown key stripped m (length chunks) chunks 0 None s Hk eq_refl) as H.
  rewrite Hsend in H. destruct H as (new & Hnew & _ & Hown & _).
  assert (Hother : Forall (fun x => entry_key x <> Some key) new).
  { eapply Forall_impl; [exact Hown|]. intros x (j & Hj) Hx. rewrite Hj in Hx. injection Hx. by apply chunk_key_ne. }
  eexists. split; [by apply replayable_readable|]. apply replayable_iff. exists key, e. split; [|split; [done|]].
  - by rewrite Hnew, last_of_app, last_of_other.
  - unfold replay_record, payloads. rewrite Hnew, !dget_latest, List.filter_app, last_of_app.
    rewrite (last_of_other key (List.filter has_text new)); [done|]. rewrite Forall_forall in Hother.
    apply Forall_forall. intros x [Hx _]%list_elem_of_In%filter_In. by apply Hother, list_elem_of_In.
Qed.

(** Five lines of 2100 characters: five chunks, so the text is cut to one chunk
    of four lines, which is cut into four chunks when it is sent again. *)
Definition five_lines : string :=
  String.concat (String newline_char "") (repeat (repeat_char 2100 letter_a) 5).

Definition crashed : OState (list (outcome exn ChannelSendResult)) :=
  snd (send scripted sample_ops identity_strip (sample_message five_lines) (scripted_state [Raise crash])).

Definition cut_chunk : string :=
  default "" (head (fst (prepare_text scripted sample_ops identity_strip "feishu" five_lines (scripted_state [])))).

Definition crashed_entry : pyval := pending_entry (sample_message five_lines) "k" cut_chunk 0 1 0.

Definition restarted : OState (list (outcome exn ChannelSendResult)) :=
  snd (send scripted sample_ops identity_strip (chunk_message (sample_message five_lines) "k" cut_chunk) crashed).

Lemma replay_never_settles_witness :
  let O := json_ops (outbox restarted) in
  fst (send scripted O identity_strip (chunk_message (sample_message five_lines) "k" cut_chunk) crashed)
    = Ret result_success
  /\ replay_pending_outbox scripted O identity_strip crashed = (Ret tt, restarted)
  /\ exists recs, replayable O restarted = Some recs /\ replay_record (outbox crashed) "k" crashed_entry ∈ recs.
Proof.
  cbv zeta. set (O := json_ops _). split; [by vm_compute|]. split; [by vm_compute|].
  apply (replay_never_settles scripted O identity_strip crashed restarted "k" crashed_entry
           (chunk_message (sample_message five_lines) "k" cut_chunk) sample_adapter result_success);
    [read_back|by vm_compute..].
Defined.
