(* ===== verification/ImInbound.v ===== *)
(** * Inbound dispatch ([src/orchestratord/im_gateway/dispatcher.py])

    With the allow-lists of slash commands ([im_gateway/repl_command_gate.py],
    [im_gateway/config.py]), the classifier, the command router, the control
    bridge and the runtime router ([im_gateway/semantics/]), and the
    processing-status registry ([im_gateway/processing_status.py]).  The peers,
    the default handler and the adapters' status callbacks are parameters. *)

From S2P Require Import Prelude Errors Dag StageRunner Regex ModeRouting ImBinding ImStore ImOutbound.

Open Scope string_scope.
Open Scope list_scope.
Open Scope Z_scope.

(** ** Messages ([ipc/models.py]) *)

Inductive MessageSemantics :=
| NEW_PROMPT | COMMAND | FOLLOW_UP | APPROVAL | INTERRUPT | CONTEXT_ONLY | UNSUPPORTED_MEDIA_MESSAGE.

#[export] Instance MessageSemantics_eq_dec : EqDecision MessageSemantics.
Proof. solve_decision. Defined.

Inductive AckLayer := ACCEPTED | ENQUEUED_LAYER | PROCESSED.

#[export] Instance AckLayer_eq_dec : EqDecision AckLayer.
Proof. solve_decision. Defined.

Record InboundMessage := mkInbound {
  im_origin : string;
  im_text : string;
  im_sender_id : option string;
  im_sender_name : option string;
  im_channel_id : option string;
  im_channel_type : string;
  im_message_id : string;
  im_semantic : option MessageSemantics;
  im_context_token : option string;
  im_semantic_tags : list string;
  im_metadata : row;
  im_raw : option row;
  im_channel : string;
  im_from_user_id : option string;
  im_received_at : Q;
}.

(** [message.semantic = s] *)
Definition with_semantic (x : MessageSemantics) (m : InboundMessage) : InboundMessage :=
  mkInbound (im_origin m) (im_text m) (im_sender_id m) (im_sender_name m) (im_channel_id m) (im_channel_type m)
    (im_message_id m) (Some x) (im_context_token m) (im_semantic_tags m) (im_metadata m) (im_raw m) (im_channel m)
    (im_from_user_id m) (im_received_at m).

Record AckReceipt := mkAck {
  ack_delivery_id : string;
  ack_layer : AckLayer;
  ack_message : string;
  ack_notify_user : bool;
}.

(** ** Tokens *)

(** The first word of a text that starts with one, and the rest. *)
Fixpoint take_word (s : string) : string * string :=
  match s with
  | EmptyString => ("", "")
  | String c s' =>
      if is_space c then ("", s)
      else let '(w, rest) := take_word s' in (String c w, rest)
  end.

(** [s.split(maxsplit=n)], with [None] for [s.split()]. *)
Fixpoint split_words (fuel : nat) (n : option nat) (s : string) : list string :=
  match fuel with
  | O => []
  | S fuel' =>
      let s := lstrip s in
      if String.eqb s "" then []
      else match n with
           | Some O => [s]
           | _ => let '(w, rest) := take_word s in w :: split_words fuel' (option_map pred n) rest
           end
  end.

Definition py_split (s : string) : list string := split_words (S (String.length s)) None s.
Definition py_split_max (n : nat) (s : string) : list string := split_words (S (String.length s)) (Some n) s.

(** The states of [shlex]: between tokens, in a word, in quotes, after a
    backslash (in a word or in double quotes). *)
Inductive lex_state := Between | InWord | InQuotes (q : Ascii.ascii) | Escaped (back : lex_state).

Definition lex_space (c : Ascii.ascii) : bool :=
  mem (Ascii.N_of_ascii c) [32%N; 9%N; 13%N; 10%N].
Definition dquote : Ascii.ascii := Ascii.ascii_of_N 34.
Definition squote : Ascii.ascii := Ascii.ascii_of_N 39.
Definition backslash : Ascii.ascii := Ascii.ascii_of_N 92.
Definition is_quote (c : Ascii.ascii) : bool := Ascii.eqb c dquote || Ascii.eqb c squote.

(** The end of a token: an empty one counts only when it was quoted. *)
Definition emit (token : string) (quoted : bool) (rest : list string) : list string :=
  if String.eqb token "" && negb quoted then rest else token :: rest.

(** [shlex.split(s)] in POSIX mode without comments; [None] is the [ValueError]
    for an open quotation or a final backslash. *)
Fixpoint shlex_from (st : lex_state) (token : string) (quoted : bool) (s : string) : option (list string) :=
  match s with
  | EmptyString =>
      match st with
      | InQuotes _ | Escaped _ => None
      | _ => Some (emit token quoted [])
      end
  | String c s' =>
      match st with
      | Between | InWord =>
          if lex_space c then
            (match shlex_from Between "" false s' with
             | Some rest => Some (emit token quoted rest)
             | None => None
             end)
          else if Ascii.eqb c backslash then shlex_from (Escaped InWord) token quoted s'
          else if is_quote c then shlex_from (InQuotes c) token quoted s'
          else shlex_from InWord (token +:+ one c) quoted s'
      | InQuotes q =>
          if Ascii.eqb c q then shlex_from InWord token true s'
          else if Ascii.eqb c backslash && Ascii.eqb q dquote then shlex_from (Escaped (InQuotes q)) token true s'
          else shlex_from (InQuotes q) (token +:+ one c) true s'
      | Escaped back =>
          let token := match back with
                       | InQuotes q => if negb (Ascii.eqb c backslash) && negb (Ascii.eqb c q)
                                       then token +:+ one backslash else token
                       | _ => token
                       end in
          shlex_from back (token +:+ one c) quoted s'
      end
  end.

Definition shlex_split (s : string) : option (list string) := shlex_from Between "" false s.

Definition slash : Ascii.ascii := Ascii.ascii_of_N 47.

Definition starts_slash (s : string) : bool := String.prefix "/" s.

(** [token.lstrip("/")] *)
Fixpoint lstrip_slash (s : string) : string :=
  match s with
  | EmptyString => ""
  | String c s' => if Ascii.eqb c slash then lstrip_slash s' else s
  end.

(** ** The command router ([semantics/command_router.py]) *)

(** [_split_command_tokens] *)
Definition split_command_tokens (t : string) : list string :=
  let stripped := strip t in
  if starts_slash stripped then
    match (match shlex_split stripped with Some l => l | None => py_split stripped end) with
    | [] => []
    | t0 :: tokens => lstrip_slash t0 :: tokens
    end
  else [].

Definition ORCHESTRATOR_ISSUE_COMMANDS : list string :=
  ["list"; "show"; "tail"; "stop"; "pause"; "resume"; "clarify"; "inject"; "feedback"; "review"; "retry";
   "workspace"; "rebase"].

(** [_orchestrator_argv] *)
Definition orchestrator_argv (t : string) : option (list string) :=
  match split_command_tokens t with
  | t0 :: t1 :: tokens =>
      if String.eqb (lower t0) "issue" && mem (lower t1) ORCHESTRATOR_ISSUE_COMMANDS
      then Some ("issue" :: lower t1 :: tokens)
      else if String.eqb (lower t0) "server" && String.eqb (lower t1) "status"
      then Some ("server" :: "status" :: tokens)
      else None
  | _ => None
  end.

Definition is_upper (c : Ascii.ascii) : bool := let n := Ascii.N_of_ascii c in (65 <=? n)%N && (n <=? 90)%N.
Definition is_id_char (c : Ascii.ascii) : bool := is_upper c || is_digit c || byte_is 95 c.

(** [_ISSUE_ID_RE.search(text)] *)
Definition search_issue_id (t : string) : option string :=
  let n := String.length t in
  rx_search (bounded (rx_seq (rx_class is_upper) (rx_seq (rx_plus n (rx_class is_id_char))
                       (rx_seq (rx_exact "-") (rx_plus n (rx_class is_digit)))))) None t.

Fixpoint argv_issue (argv : list string) : option string :=
  match argv with
  | [] => None
  | token :: argv' =>
      match (if String.eqb token "--id" then head argv' else None) with
      | Some v => Some v
      | None => if String.prefix "--id=" token then Some (drop_str 5 token) else argv_issue argv'
      end
  end.

(** [_extract_issue] *)
Definition extract_issue (t : string) (argv : list string) : option string :=
  match argv_issue argv with Some v => Some v | None => search_issue_id t end.

(** [^\s*/agent\s+(verb)\b] and [^\s*/(verb)\b]: the group. *)
Definition agent_verb (t : string) : option string :=
  option_map fst (match_group (rx_seq (rx_opt rx_spaces) (rx_seq (rx_word "/agent") rx_spaces))
    (rx_choice (map rx_word ["retry"; "follow-up"; "unblock"])) rx_boundary (None, t)).

Definition control_verb (t : string) : option string :=
  option_map fst (match_group (rx_seq (rx_opt rx_spaces) (rx_word "/"))
    (rx_choice (map rx_word ["pause"; "resume"; "stop"; "takeover"; "inject"; "detach"; "clarify"; "review"; "feedback"]))
    rx_boundary (None, t)).

Inductive RouteKind := agent_intent | control_verb_kind | orchestrator_cli.

Record CommandRoute := mkRoute {
  cr_kind : RouteKind;
  cr_verb : string;
  cr_issue_hint : option string;
  cr_payload : string;
  cr_argv : list string;
}.

(** [CommandRouter.route] *)
Definition command_route (m : InboundMessage) : option CommandRoute :=
  let t := strip (im_text m) in
  match orchestrator_argv t with
  | Some argv => Some (mkRoute orchestrator_cli (default "" (head argv)) (extract_issue t argv) t argv)
  | None =>
      match agent_verb t with
      | Some v => Some (mkRoute agent_intent (lower v) (extract_issue t []) t [])
      | None =>
          match control_verb t with
          | Some v => Some (mkRoute control_verb_kind (lower v) (extract_issue t []) t [])
          | None => None
          end
      end
  end.

(** ** The classifier ([semantics/classifier.py]) *)

Definition DELIVER_AS_MAP (s : string) : option MessageSemantics :=
  if String.eqb s "newPrompt" then Some NEW_PROMPT
  else if String.eqb s "command" then Some COMMAND
  else if String.eqb s "followUp" then Some FOLLOW_UP
  else if String.eqb s "approval" then Some APPROVAL
  else if String.eqb s "interrupt" then Some INTERRUPT
  else if String.eqb s "contextOnly" then Some CONTEXT_ONLY
  else None.

(** [_deliver_as] *)
Definition deliver_as (m : InboundMessage) : option MessageSemantics :=
  match im_raw m ≫= dget "deliverAs" with
  | None | Some PNone => first_some DELIVER_AS_MAP (im_semantic_tags m)
  | Some (PStr s) => DELIVER_AS_MAP s
  | Some _ => None
  end.

(** [classify] *)
Definition classify (m : InboundMessage) (is_busy has_pending_wait : bool) : MessageSemantics :=
  match deliver_as m with
  | Some x => x
  | None =>
      if is_some (command_route m) then COMMAND
      else if has_pending_wait && mem "approval" (im_semantic_tags m) then APPROVAL
      else if is_busy then FOLLOW_UP
      else NEW_PROMPT
  end.

(** ** The control bridge and the runtime router *)

Inductive Surface := bridge_interrupt | control_socket | issue_inject | issue_cli | operator_hints.

Record ControlTarget := mkControl {
  ct_surface : Surface;
  ct_verb : string;
  ct_payload : string;
  ct_issue_hint : option string;
}.

(** [ControlBridge.resolve] *)
Definition control_resolve (x : MessageSemantics) (r : option CommandRoute) : option ControlTarget :=
  if decide (x = INTERRUPT) then
    Some (mkControl bridge_interrupt "interrupt" (match r with Some r => cr_payload r | None => "" end) None)
  else match r with
       | None => None
       | Some r =>
           let surface := if mem (cr_verb r) ["inject"] then issue_inject
                          else if mem (cr_verb r) ["pause"; "resume"; "stop"; "detach"; "takeover"] then control_socket
                          else issue_cli in
           Some (mkControl surface (cr_verb r) (cr_payload r) (cr_issue_hint r))
       end.

(** [ControlBridge.context_only_target] *)
Definition context_only_target (r : option CommandRoute) : ControlTarget :=
  mkControl operator_hints "contextOnly" (match r with Some r => cr_payload r | None => "" end) (r ≫= cr_issue_hint).

Inductive DecisionTarget := to_host_agent | to_handler | to_control | to_context_only | to_approval | to_command.

Record RoutingDecision := mkDecision {
  rd_semantic : MessageSemantics;
  rd_target : DecisionTarget;
  rd_route : option CommandRoute;
  rd_control : option ControlTarget;
}.

(** [InboundRuntimeRouter.decide] *)
Definition runtime_decide (m : InboundMessage) (x : MessageSemantics) : RoutingDecision :=
  match x with
  | FOLLOW_UP => mkDecision x to_handler None None
  | CONTEXT_ONLY => mkDecision x to_context_only None (Some (context_only_target None))
  | INTERRUPT => mkDecision x to_control None (control_resolve x None)
  | APPROVAL => mkDecision x to_approval None None
  | COMMAND => let r := command_route m in mkDecision x to_command r (control_resolve x r)
  | _ => mkDecision x to_host_agent None None
  end.

(** ** The allow-lists ([repl_command_gate.py], [config.py]) *)

Definition DEFAULT_REPL_COMMAND_ALLOWLIST : list string :=
  ["/stop"; "/clear"; "/reset"; "/new"; "/goal"; "/help"; "/?"; "/cost"; "/history"; "/context"; "/recap"; "/btw";
   "/cron-list"; "/cron-status"; "/cron-runs"; "/tools"; "/skills"; "/diff"; "/mcp"; "/tasks"; "/idle"; "/doctor";
   "/release-notes"].

Definition DEFAULT_ORCHESTRATOR_COMMAND_ALLOWLIST : list string :=
  ["/server status"; "/issue list"; "/issue show"; "/issue tail"; "/issue stop"; "/issue pause"; "/issue resume";
   "/issue clarify"; "/issue inject"; "/issue feedback"; "/issue review"; "/issue retry"; "/issue workspace";
   "/issue rebase"].

Definition allowlist_error (what : string) : exn := mkExn OtherException [Lit "ValueError: "; Lit what] None.

(** The loop of [_normalize_command_allowlist]. *)
Fixpoint normalize_items (max_parts : nat) (items : list pyval) (normalized : list string) : outcome exn (list string) :=
  match items with
  | [] => Ret normalized
  | PStr item :: items' =>
      let command := String.concat " " (py_split (lower (strip item))) in
      let parts := py_split command in
      if negb (starts_slash command) || Nat.eqb (length parts) 0 || Nat.ltb max_parts (length parts)
      then Raise (allowlist_error "invalid command")
      else normalize_items max_parts items' (if mem command normalized then normalized else normalized ++ [command])
  | _ :: _ => Raise (allowlist_error "every command must be a string")
  end.

(** [_normalize_command_allowlist] *)
Definition normalize_command_allowlist (max_parts : nat) (commands : pyval) : outcome exn (list string) :=
  match commands with
  | PList items => normalize_items max_parts items []
  | _ => Raise (allowlist_error "expected a YAML list of slash commands")
  end.

Record CommandAllowlistConfig := mkAllowlists {
  al_repl : list string;
  al_orchestrator : list string;
}.

(** [CommandAllowlistConfig.to_dict] *)
Definition allowlists_to_dict (al : CommandAllowlistConfig) : pyval :=
  PDict [("repl", PList (map PStr (al_repl al))); ("orchestrator", PList (map PStr (al_orchestrator al)))].

(** [__post_init__] *)
Definition build_allowlists (repl orchestrator : pyval) : outcome exn CommandAllowlistConfig :=
  match normalize_command_allowlist 1 repl with
  | Raise e => Raise e
  | Ret r =>
      match normalize_command_allowlist 2 orchestrator with
      | Raise e => Raise e
      | Ret o => Ret (mkAllowlists r o)
      end
  end.

(** [data.get(k, dflt)] of a tuple of commands. *)
Definition get_commands (k : string) (dflt : list string) (d : row) : pyval := default (PList (map PStr dflt)) (dget k d).

(** [CommandAllowlistConfig.from_dict] *)
Definition allowlists_from_dict (data : pyval) : outcome exn CommandAllowlistConfig :=
  match data with
  | PNone => build_allowlists (get_commands "repl" DEFAULT_REPL_COMMAND_ALLOWLIST [])
               (get_commands "orchestrator" DEFAULT_ORCHESTRATOR_COMMAND_ALLOWLIST [])
  | PDict d => build_allowlists (get_commands "repl" DEFAULT_REPL_COMMAND_ALLOWLIST d)
                 (get_commands "orchestrator" DEFAULT_ORCHESTRATOR_COMMAND_ALLOWLIST d)
  | _ => Raise (allowlist_error "command_allowlists: expected a YAML mapping")
  end.

Definition PLAIN_TEXT_NOTICE : string := "网关仅支持白名单斜杠命令，普通文本不会被转发。".

Definition backtick : string := one (Ascii.ascii_of_N 96).

(** [_block_reason] *)
Definition block_reason (token : string) : string := backtick +:+ token +:+ backtick +:+ " 非命令白名单，已被 gateway 禁止执行。".

(** [_unsupported_reason] *)
Definition unsupported_reason (display : string) : string := "不支持 " +:+ display +:+ " 执行".

(** [_slash_parts] *)
Definition slash_parts (t : string) : list string :=
  let stripped := strip t in if starts_slash stripped then py_split_max 2 stripped else [].

(** [check_repl_command]: the reason of a rejection, or [None]. *)
Definition check_repl_command (t : string) (allowed : list string) : option string :=
  match slash_parts t with
  | [] => Some PLAIN_TEXT_NOTICE
  | p0 :: _ =>
      let token := lower p0 in
      if String.eqb token "/" then Some PLAIN_TEXT_NOTICE
      else if mem token allowed then None
      else Some (block_reason token)
  end.

(** [check_orchestrator_command]: the reason of a rejection, or [None]. *)
Definition check_orchestrator_command (t : string) (allowed : list string) : option string :=
  match slash_parts t with
  | [] => Some PLAIN_TEXT_NOTICE
  | p0 :: rest =>
      let second := match rest with p1 :: _ => lower p1 | [] => "" end in
      let key := if String.eqb second "" then lower p0 else lower p0 +:+ " " +:+ second in
      if mem key allowed then None else Some (unsupported_reason key)
  end.

(** ** Processing status ([processing_status.py]) *)

Record PendingProcessing := mkPending {
  pp_message_id : string;
  pp_channel : string;
  pp_origin : string;
}.

Definition pending_map : Type := dict string PendingProcessing.

Inductive ProcessingOutcome := SUCCESS_OUTCOME | FAILURE_OUTCOME.

(** [self._max_pending = max(1, int(max_pending))] *)
Definition max_pending_of (n : Z) : nat := Z.to_nat (Z.max 1 n).

(** [move_to_end] of a key that is there. *)
Definition move_to_end (k : string) (d : pending_map) : pending_map :=
  match dget k d with Some v => ddel k d ++ [(k, v)] | None => d end.

(** [_trim] *)
Definition trim (max : nat) (d : pending_map) : pending_map := drop (length d - max) d.

(** The state of the gateway that a dispatch touches. *)
Record IState (W : Type) := mkI {
  i_world : W;
  i_store : Store;
  i_bindings : Policy;
  i_pending : pending_map;
}.
Arguments mkI {W}.
Arguments i_world {W}.
Arguments i_store {W}.
Arguments i_bindings {W}.
Arguments i_pending {W}.

(** What the dispatcher calls: the peer's push and the default handler (each
    when one is registered), which may do anything to the gateway; the adapters
    with processing status and their callbacks; new identifiers and the clock. *)
Record Hosts (W : Type) := mkHosts {
  h_push : option (InboundMessage -> M (IState W) exn bool);
  h_handler : option (InboundMessage -> M (IState W) exn (option AckReceipt));
  h_status_adapter : string -> W -> bool;
  h_on_start : string -> string -> M W exn bool;
  h_on_complete : string -> string -> ProcessingOutcome -> M W exn bool;
  h_new_id : W -> string * W;
  h_tick : W -> Q * W;
}.
Arguments mkHosts {W}.
Arguments h_push {W}.
Arguments h_handler {W}.
Arguments h_status_adapter {W}.
Arguments h_on_start {W}.
Arguments h_on_complete {W}.
Arguments h_new_id {W}.
Arguments h_tick {W}.

Section dispatcher.
Context {W : Type} (H : Hosts W) (O : StoreOps) (al : CommandAllowlistConfig).
(** The limit of the processing-status registry; [None] without a registry. *)
Context (status_limit : option Z).

Local Abbreviation St := (IState W).

Definition set_world (w : W) (s : St) : St := mkI w (i_store s) (i_bindings s) (i_pending s).
Definition set_istore (x : Store) (s : St) : St := mkI (i_world s) x (i_bindings s) (i_pending s).
Definition set_pending (d : pending_map) (s : St) : St := mkI (i_world s) (i_store s) (i_bindings s) d.

(** [start] *)
Definition start (max : nat) (m : InboundMessage) (s : St) : bool * St :=
  let id := im_message_id m in
  if String.eqb id "" || String.eqb (im_channel m) "" then (false, s)
  else if dmem id (i_pending s) then (true, set_pending (move_to_end id (i_pending s)) s)
  else if h_status_adapter H (im_channel m) (i_world s) then
    let s1 := set_pending (trim max (dset id (mkPending id (im_channel m) (im_origin m)) (i_pending s))) s in
    match h_on_start H (im_channel m) id (i_world s1) with
    | (Ret b, w) => (b, set_world w s1)
    | (Raise _, w) => (false, set_world w s1)
    end
  else (false, s).

(** [complete] *)
Definition complete (id : string) (outcome : ProcessingOutcome) (origin : option string) (s : St) : bool * St :=
  match dget id (i_pending s) with
  | None => (false, s)
  | Some entry =>
      if match origin with Some o => negb (String.eqb o (pp_origin entry)) | None => false end then (false, s)
      else if h_status_adapter H (pp_channel entry) (i_world s) then
        match h_on_complete H (pp_channel entry) (pp_message_id entry) outcome (i_world s) with
        | (Ret true, w) => (true, set_pending (ddel (pp_message_id entry) (i_pending s)) (set_world w s))
        | (Ret false, w) => (false, set_world w s)
        | (Raise _, w) => (false, set_world w s)
        end
      else (false, set_pending (ddel (pp_message_id entry) (i_pending s)) s)
  end.

(** ** The dispatcher *)

Definition tick (s : St) : Q * St := let '(t, w) := h_tick H (i_world s) in (t, set_world w s).

Definition im_audit (event : string) (fields : row) (s : St) : St :=
  let '(t, s1) := tick s in
  set_istore (store_audit (so_config O) (so_dumps O) (so_redact O) t event fields (i_store s1)) s1.

Definition OPT_IN_HOST_TYPES : list string := ["repl"; "orchestrator"; "opt_in"].

(** [message.message_id or f"{message.origin}:{message.text}"] *)
Definition dedupe_key (m : InboundMessage) : string :=
  if String.eqb (im_message_id m) "" then im_origin m +:+ ":" +:+ im_text m else im_message_id m.

(** The gates between the route and the hosts: an event of the audit log and
    the reason, or [None]. *)
Definition gate (target : SessionTarget) (m : InboundMessage) : option (string * string) :=
  if negb (starts_slash (strip (im_text m))) then Some ("plain_text_rejected", PLAIN_TEXT_NOTICE)
  else if String.eqb (host_type target) "repl" then
    option_map (pair "repl_command_blocked") (check_repl_command (im_text m) (al_repl al))
  else if String.eqb (host_type target) "orchestrator" then
    option_map (pair "orchestrator_command_blocked")
      (match check_orchestrator_command (im_text m) (al_orchestrator al) with
       | Some r => Some r
       | None => if decide (im_semantic m = Some COMMAND) then None else Some PLAIN_TEXT_NOTICE
       end)
  else None.

(** The fields of the audit entry of a gate. *)
Definition gate_fields (event reason id : string) (m : InboundMessage) : row :=
  if String.eqb event "plain_text_rejected"
  then [("delivery_id", PStr id); ("origin", PStr (im_origin m)); ("message_id", PStr (im_message_id m))]
  else [("delivery_id", PStr id); ("origin", PStr (im_origin m)); ("command", PStr (take_str 64 (im_text m)));
        ("reason", PStr reason)].

(** [_complete_processing] *)
Definition complete_processing (m : InboundMessage) (outcome : ProcessingOutcome) (s : St) : St :=
  match status_limit with
  | None => s
  | Some _ => snd (complete (im_message_id m) outcome (Some (im_origin m)) s)
  end.

(** The default handler. *)
Definition dispatch_default (id : string) (m : InboundMessage) : M St exn AckReceipt := fun s =>
  let accepted s := (Ret (mkAck id ACCEPTED "accepted" false), complete_processing m FAILURE_OUTCOME s) in
  match h_handler H with
  | None => accepted s
  | Some handler =>
      match handler m s with
      | (Raise e, s1) => (Raise e, complete_processing m FAILURE_OUTCOME s1)
      | (Ret None, s1) => accepted s1
      | (Ret (Some receipt), s1) =>
          (Ret receipt,
           complete_processing m (if decide (ack_layer receipt = PROCESSED) then SUCCESS_OUTCOME else FAILURE_OUTCOME) s1)
      end
  end.

(** Deliver to the peer, else to the default handler. *)
Definition deliver (id : string) (target : SessionTarget) (m : InboundMessage) : M St exn AckReceipt := fun s =>
  let s1 := match status_limit with Some n => snd (start (max_pending_of n) m s) | None => s end in
  match h_push H with
  | Some push =>
      if mem (host_type target) OPT_IN_HOST_TYPES then
        match push m s1 with
        | (Ret true, s2) => (Ret (mkAck id ENQUEUED_LAYER "pushed to opt-in peer" false), s2)
        | (Ret false, s2) | (Raise _, s2) => dispatch_default id m s2
        end
      else dispatch_default id m s1
  | None => dispatch_default id m s1
  end.

(** [process] *)
Definition process (m : InboundMessage) : M St exn AckReceipt := fun s =>
  let '(id, w) := h_new_id H (i_world s) in
  let '(now, s1) := tick (set_world w s) in
  let '(later, s1') := tick s1 in
  let '(new, store) := check_and_record (so_config O) now later (dedupe_key m) (Some (im_message_id m)) (i_store s1) in
  if negb new then (Ret (mkAck id ACCEPTED "duplicate; skipped" false), set_istore store s1)
  else
    let s2 := set_istore store s1' in
    let m := match im_semantic m with Some _ => m | None => with_semantic (classify m false false) m end in
    if is_offline (im_origin m) (i_bindings s2) then
      (Ret (mkAck id ACCEPTED "target_offline; rebind or use default session" false),
       im_audit "target_offline" [("delivery_id", PStr id); ("origin", PStr (im_origin m)); ("message_id", PStr (im_message_id m))] s2)
    else
      let target := route (im_origin m) (i_bindings s2) in
      match gate target m with
      | Some (event, reason) =>
          (Ret (mkAck id ACCEPTED reason true), im_audit event (gate_fields event reason id m) s2)
      | None => deliver id target m s2
      end.
End dispatcher.
