(* ===== verification/ImInboundFacts.v ===== *)
(** * Facts about inbound dispatch

    What reaches a host, what becomes of a message whose handler fails, the
    bound of the processing-status registry, and the normal form of the
    allow-lists. *)

From S2P Require Import Prelude Errors Dag StageRunner Regex ModeRouting LocalTrackerFacts ImBinding ImStore ImOutbound ImOutboundFacts ImInbound.

Open Scope string_scope.
Open Scope list_scope.
Open Scope Z_scope.

(** ** Words *)

Lemma str_length_app (a b : string) : String.length (a +:+ b) = (String.length a + String.length b)%nat.
Proof. induction a as [|c a IH]; [done|]. change (S (String.length (a +:+ b)) = S (String.length a + String.length b)). by rewrite IH. Qed.

(** A word of a split: nonempty and without blanks. *)
Fixpoint no_space (s : string) : bool :=
  match s with
  | EmptyString => true
  | String c s' => negb (is_space c) && no_space s'
  end.

Definition is_token (w : string) : Prop := w <> "" /\ no_space w = true.

Lemma take_word_spec s w rest : take_word s = (w, rest) ->
  no_space w = true /\ (String.length rest + String.length w = String.length s)%nat
  /\ ((exists c t, s = String c t /\ is_space c = false) -> w <> "").
Proof.
  revert w rest. induction s as [|c s IH]; intros w rest; simpl.
  - intros [= <- <-]. split; [done|]. split; [done|]. by intros (c & t & ? & _).
  - destruct (is_space c) eqn:E.
    + intros [= <- <-]. split; [done|]. split; [simpl; lia|]. intros (c' & t & [= <- <-] & Hc). congruence.
    + destruct (take_word s) as [w' r'] eqn:Et. intros [= <- <-]. destruct (IH _ _ eq_refl) as (Hn & Hl & _).
      split; [simpl; by rewrite E|]. split; [simpl in *; lia|done].
Qed.

Lemma split_words_tokens fuel s : Forall is_token (split_words fuel None s).
Proof.
  revert s. induction fuel as [|fuel IH]; intros s; [constructor|]. simpl.
  destruct (String.eqb_spec (lstrip s) "") as [|Hne]; [constructor|].
  destruct (take_word (lstrip s)) as [w rest] eqn:E. apply take_word_spec in E as (Hn & _ & Hw).
  constructor; [|apply IH]. split; [|done]. apply Hw. destruct (lstrip_head s) as [?|?]; [done|]. done.
Qed.

Lemma py_split_tokens s : Forall is_token (py_split s).
Proof. apply split_words_tokens. Qed.

Lemma take_word_app w s :
  no_space w = true -> s = "" \/ (exists c t, s = String c t /\ is_space c = true) -> take_word (w +:+ s) = (w, s).
Proof.
  intros Hw Hs. induction w as [|c w IH].
  - change ("" +:+ s) with s. destruct Hs as [->|(c & t & -> & Hc)]; [done|]. simpl. by rewrite Hc.
  - simpl in Hw. apply andb_true_iff in Hw as [Hc%negb_true_iff Hw].
    change (String c w +:+ s) with (String c (w +:+ s)). simpl. by rewrite Hc, IH.
Qed.

Lemma lstrip_token w s : is_token w -> lstrip (w +:+ s) = w +:+ s.
Proof.
  intros [Hne Hw]. destruct w as [|c w]; [done|]. simpl in Hw. apply andb_true_iff in Hw as [Hc%negb_true_iff _].
  change (String c w +:+ s) with (String c (w +:+ s)). simpl. by rewrite Hc.
Qed.

(** The words with a blank between them, each behind a blank. *)
Fixpoint blank_words (ws : list string) : string :=
  match ws with [] => "" | w :: ws' => " " +:+ w +:+ blank_words ws' end.

Lemma concat_words w ws : String.concat " " (w :: ws) = w +:+ blank_words ws.
Proof.
  revert w. induction ws as [|x ws IH]; intros w; simpl.
  - by rewrite append_nil_r.
  - f_equal. f_equal. apply IH.
Qed.

Lemma blank_words_split fuel ws :
  Forall is_token ws -> (String.length (blank_words ws) < fuel)%nat -> split_words fuel None (blank_words ws) = ws.
Proof.
  intros H. revert fuel. induction H as [|w ws Hw Hws IH]; intros fuel Hf.
  - destruct fuel; [lia|done].
  - destruct fuel as [|fuel]; [lia|].
    assert (Hl : lstrip (blank_words (w :: ws)) = w +:+ blank_words ws).
    { change (lstrip (w +:+ blank_words ws) = w +:+ blank_words ws). by apply lstrip_token. }
    cbn [split_words]. rewrite Hl. destruct (String.eqb_spec (w +:+ blank_words ws) "") as [E|_].
    { destruct Hw as [Hne _]. by destruct w. }
    rewrite take_word_app; [|by destruct Hw|destruct ws as [|x ws]; [by left|right; by eexists _, _]].
    f_equal. apply IH. change (blank_words (w :: ws)) with (String space_char (w +:+ blank_words ws)) in Hf.
    simpl in Hf. rewrite str_length_app in Hf. destruct Hw as [Hne _]. destruct w; simpl in *; [done|lia].
Qed.

Lemma py_split_concat ws : Forall is_token ws -> py_split (String.concat " " ws) = ws.
Proof.
  destruct ws as [|w ws]; [done|]. intros [Hw Hws]%Forall_cons. rewrite concat_words. unfold py_split.
  cbn [split_words]. rewrite lstrip_token by done.
  destruct (String.eqb_spec (w +:+ blank_words ws) "") as [E|_].
  { destruct Hw as [Hne _]. by destruct w. }
  rewrite take_word_app; [|by destruct Hw|destruct ws as [|x ws]; [by left|right; by eexists _, _]].
  f_equal. apply blank_words_split; [done|]. rewrite str_length_app. destruct Hw as [Hne _]. destruct w; simpl in *; [done|lia].
Qed.

(** ** Normal form of an allow-list *)

Lemma lower_app a b : lower (a +:+ b) = lower a +:+ lower b.
Proof.
  induction a as [|c a IH]; [done|]. change (String c a +:+ b) with (String c (a +:+ b)). simpl. by rewrite IH.
Qed.

Lemma lower_ascii_idemp c : lower_ascii (lower_ascii c) = lower_ascii c.
Proof. destruct c as [[] [] [] [] [] [] [] []]; by vm_compute. Qed.

Lemma lower_idemp s : lower (lower s) = lower s.
Proof. induction s as [|c s IH]; [done|]. simpl. by rewrite lower_ascii_idemp, IH. Qed.

Definition is_lower (s : string) : Prop := lower s = s.

Lemma is_lower_cons c s : is_lower (String c s) -> is_lower s /\ lower_ascii c = c.
Proof. unfold is_lower. simpl. by intros [= -> ->]. Qed.

Lemma lstrip_lower s : is_lower s -> is_lower (lstrip s).
Proof.
  induction s as [|c s IH]; [done|]. intros H. simpl. destruct (is_space c); [|done]. apply IH. by apply is_lower_cons in H as [? _].
Qed.

Lemma take_word_lower s w rest : is_lower s -> take_word s = (w, rest) -> is_lower w /\ is_lower rest.
Proof.
  revert w rest. induction s as [|c s IH]; intros w rest Hs; simpl; [by intros [= <- <-]|].
  destruct (is_space c); [by intros [= <- <-]|]. destruct (take_word s) as [w' r'].
  apply is_lower_cons in Hs as [Hs Hc]. intros [= <- <-]. destruct (IH w' r' Hs eq_refl) as [H1 H2].
  split; [|done]. unfold is_lower. simpl. by rewrite Hc, H1.
Qed.

Lemma split_words_lower fuel s : is_lower s -> Forall is_lower (split_words fuel None s).
Proof.
  revert s. induction fuel as [|fuel IH]; intros s Hs; [constructor|]. simpl.
  destruct (String.eqb (lstrip s) ""); [constructor|]. destruct (take_word (lstrip s)) as [w rest] eqn:E.
  apply take_word_lower in E as [Hw Hr]; [|by apply lstrip_lower]. constructor; [done|by apply IH].
Qed.

Lemma concat_lower ws : Forall is_lower ws -> is_lower (String.concat " " ws).
Proof.
  destruct ws as [|w ws]; [done|]. intros [Hw Hws]%Forall_cons. rewrite concat_words. unfold is_lower.
  rewrite lower_app, Hw. f_equal. clear -Hws. induction Hws as [|x ws Hx Hws IH]; [done|].
  change (lower (" " +:+ x +:+ blank_words ws) = " " +:+ x +:+ blank_words ws). by rewrite !lower_app, Hx, IH.
Qed.

Lemma rstrip_token w : no_space w = true -> rstrip w = w.
Proof.
  induction w as [|c w IH]; [done|]. simpl. intros [Hc%negb_true_iff Hw]%andb_true_iff. rewrite (IH Hw).
  destruct w; [by rewrite Hc|done].
Qed.

Lemma rstrip_app a w : rstrip w = w -> w <> "" -> rstrip (a +:+ w) = a +:+ w.
Proof.
  intros Hw Hne. induction a as [|c a IH]; [done|]. change (String c a +:+ w) with (String c (a +:+ w)). simpl.
  rewrite IH. destruct (a +:+ w) eqn:E; [|done]. destruct a; [by destruct w|done].
Qed.

Lemma rstrip_words w ws : is_token w -> Forall is_token ws -> rstrip (w +:+ blank_words ws) = w +:+ blank_words ws.
Proof.
  intros Hw Hws. revert w Hw. induction Hws as [|x ws Hx Hws IH]; intros w Hw.
  - change (blank_words []) with "". rewrite append_nil_r. apply rstrip_token. by destruct Hw.
  - change (blank_words (x :: ws)) with (" " +:+ x +:+ blank_words ws). rewrite <- append_assoc.
    apply rstrip_app; [by apply IH|]. destruct Hx as [Hne _]. by destruct x.
Qed.

Lemma strip_words ws : Forall is_token ws -> strip (String.concat " " ws) = String.concat " " ws.
Proof.
  destruct ws as [|w ws]; [done|]. intros [Hw Hws]%Forall_cons. rewrite concat_words. unfold strip.
  rewrite lstrip_token by done. by apply rstrip_words.
Qed.

(** A command as an allow-list keeps it. *)
Definition normal_command (max_parts : nat) (c : string) : Prop :=
  strip c = c /\ lower c = c /\ String.concat " " (py_split c) = c /\ starts_slash c = true
  /\ (0 < length (py_split c) <= max_parts)%nat.

Lemma normalize_items_spec max items acc l :
  normalize_items max items acc = Ret l -> Forall (normal_command max) acc -> NoDup acc ->
  Forall (normal_command max) l /\ NoDup l.
Proof.
  revert acc. induction items as [|v items IH]; intros acc; simpl; [by intros [= ->]|].
  destruct v; try done. set (ws := py_split (lower (strip s))). set (c := String.concat " " ws).
  assert (Hws : Forall is_token ws) by apply py_split_tokens.
  assert (Hc : py_split c = ws) by by apply py_split_concat.
  rewrite Hc. destruct (starts_slash c) eqn:Es; [|done]. simpl.
  destruct (Nat.eqb_spec (length ws) 0) as [|Hz]; [done|]. simpl.
  destruct (Nat.ltb_spec max (length ws)) as [|Hmax]; [done|]. intros Hn Hacc Hnd.
  destruct (mem c acc) eqn:Em; [by apply (IH acc)|]. apply (IH (acc ++ [c])); [done| |].
  - apply Forall_app. split; [done|]. constructor; [|done]. split; [by apply strip_words|].
    split; [apply concat_lower, split_words_lower, lower_idemp|]. rewrite Hc. split; [done|]. split; [done|]. lia.
  - apply NoDup_app. split; [done|]. split; [|apply NoDup_singleton]. intros x Hx ->%list_elem_of_singleton.
    by rewrite (proj2 (mem_true _ _) Hx) in Em.
Qed.

Lemma normalize_normal max l acc :
  Forall (normal_command max) l -> NoDup (acc ++ l) -> normalize_items max (map PStr l) acc = Ret (acc ++ l).
Proof.
  revert acc. induction l as [|c l IH]; intros acc Hl Hnd; simpl; [by rewrite app_nil_r|].
  apply Forall_cons in Hl as [(Hs & Hlow & Hw & Hslash & Hlen) Hl]. rewrite Hs, Hlow, Hw, Hslash. simpl.
  rewrite (proj2 (Nat.eqb_neq _ _)), (proj2 (Nat.ltb_ge _ _)) by lia. simpl.
  destruct (mem c acc) eqn:E.
  { apply mem_true in E. apply NoDup_app in Hnd as (_ & Hnd & _). exfalso. apply (Hnd c E). by left. }
  replace (acc ++ c :: l) with ((acc ++ [c]) ++ l) in * by (by rewrite <- app_assoc). by apply IH.
Qed.

Lemma normalize_value_spec max v l :
  normalize_command_allowlist max v = Ret l -> Forall (normal_command max) l /\ NoDup l.
Proof.
  unfold normalize_command_allowlist. destruct v; try done. intros H. by apply (normalize_items_spec max _ [] l H); constructor.
Qed.

Lemma normalize_again max l :
  Forall (normal_command max) l -> NoDup l -> normalize_command_allowlist max (PList (map PStr l)) = Ret l.
Proof. intros Hl Hnd. by apply (normalize_normal max l []). Qed.

Lemma build_normal r o al :
  build_allowlists r o = Ret al ->
  (Forall (normal_command 1) (al_repl al) /\ NoDup (al_repl al))
  /\ (Forall (normal_command 2) (al_orchestrator al) /\ NoDup (al_orchestrator al)).
Proof.
  unfold build_allowlists. destruct (normalize_command_allowlist 1 r) as [lr|] eqn:Er; [|discriminate].
  destruct (normalize_command_allowlist 2 o) as [lo|] eqn:Eo; [|discriminate]. intros [= <-].
  split; by eapply normalize_value_spec.
Qed.

Lemma allowlists_normal v al :
  allowlists_from_dict v = Ret al ->
  (Forall (normal_command 1) (al_repl al) /\ NoDup (al_repl al))
  /\ (Forall (normal_command 2) (al_orchestrator al) /\ NoDup (al_orchestrator al)).
Proof.
  unfold allowlists_from_dict. destruct v; first [apply build_normal|discriminate].
Qed.

(** ** What is delivered *)

(** The gates of a target let a message pass: it is a slash command; for a REPL
    its first word is on the list; for an orchestrator its first two are and the
    message is a command.  A target of any other type has no list. *)
Definition admitted (al : CommandAllowlistConfig) (target : SessionTarget) (m : InboundMessage) : Prop :=
  starts_slash (strip (im_text m)) = true
  /\ (host_type target = "repl" -> exists w rest, slash_parts (im_text m) = w :: rest /\ lower w ∈ al_repl al)
  /\ (host_type target = "orchestrator" ->
        im_semantic m = Some COMMAND /\ exists w rest, slash_parts (im_text m) = w :: rest
        /\ (lower w ∈ al_orchestrator al
            \/ exists w2 rest', rest = w2 :: rest' /\ lower w +:+ " " +:+ lower w2 ∈ al_orchestrator al)).

Lemma gate_admitted al target m : gate al target m = None -> admitted al target m.
Proof.
  unfold gate. destruct (starts_slash (strip (im_text m))) eqn:Es; [|done]. simpl. intros H.
  split; [done|]. split; intros Ht; rewrite Ht in H; simpl in H.
  - unfold check_repl_command in H. destruct (slash_parts (im_text m)) as [|w rest]; [done|].
    destruct (String.eqb (lower w) "/"); [done|]. destruct (mem (lower w) (al_repl al)) eqn:E; [|done].
    exists w, rest. split; [done|by apply mem_true].
  - destruct (check_orchestrator_command (im_text m) (al_orchestrator al)) eqn:Ec; [done|].
    destruct (decide (im_semantic m = Some COMMAND)) as [Hs|]; [|done]. split; [done|].
    unfold check_orchestrator_command in Ec. destruct (slash_parts (im_text m)) as [|w rest]; [done|].
    exists w, rest. split; [done|]. destruct rest as [|w2 rest']; simpl in Ec.
    + destruct (mem (lower w) (al_orchestrator al)) eqn:E; [|discriminate]. left. by apply mem_true.
    + destruct (String.eqb (lower w2) "").
      * destruct (mem (lower w) (al_orchestrator al)) eqn:E; [|discriminate]. left. by apply mem_true.
      * destruct (mem (lower w +:+ " " +:+ lower w2) (al_orchestrator al)) eqn:E; [|discriminate].
        right. exists w2, rest'. split; [done|by apply mem_true].
Qed.

(** The time at which [process] reads the clock first. *)
Definition checked_at {W} (H : Hosts W) (s : IState W) : Q :=
  fst (h_tick H (snd (h_new_id H (i_world s)))).

Section dispatch.
Context {W : Type} (H : Hosts W) (O : StoreOps) (al : CommandAllowlistConfig) (status_limit : option Z).

(** The same hosts with other handlers. *)
Definition with_handlers (push : option (InboundMessage -> M (IState W) exn bool))
    (handler : option (InboundMessage -> M (IState W) exn (option AckReceipt))) : Hosts W :=
  mkHosts push handler (h_status_adapter H) (h_on_start H) (h_on_complete H) (h_new_id H) (h_tick H).

(** The message as the handlers see it. *)
Definition classified (m : InboundMessage) : InboundMessage :=
  match im_semantic m with Some _ => m | None => with_semantic (classify m false false) m end.

(** The dispatcher kept the message to itself. *)
Definition withheld (m : InboundMessage) (s : IState W) : Prop :=
  exists r, fst (process H O al status_limit m s) = Ret r /\ ack_layer r = ACCEPTED
    /\ forall push handler, process (with_handlers push handler) O al status_limit m s = process H O al status_limit m s.

Lemma process_cases (m : InboundMessage) (s : IState W) :
  withheld m s
  \/ exists id s2, process H O al status_limit m s = deliver H status_limit id (route (im_origin m) (i_bindings s)) (classified m) s2
       /\ i_bindings s2 = i_bindings s /\ is_offline (im_origin m) (i_bindings s) = false
       /\ gate al (route (im_origin m) (i_bindings s)) (classified m) = None
       /\ is_Some (dget (dedupe_key m) (st_dedupe (i_store s2)))
       /\ fst (is_duplicate (so_config O) (checked_at H s) (dedupe_key m) (i_store s)) = false.
Proof.
  unfold withheld, process, checked_at. simpl h_new_id. destruct (h_new_id H (i_world s)) as [id w].
  unfold tick. simpl h_tick. simpl i_world. destruct (h_tick H w) as [now w1]. simpl i_world.
  destruct (h_tick H w1) as [later w2].
  set (s1 := set_world w1 (set_world w s)).
  destruct (check_and_record (so_config O) now later (dedupe_key m) (Some (im_message_id m)) (i_store s1))
    as [new store] eqn:Ec.
  destruct new; simpl negb; cbv iota; [|left; eexists; split; [reflexivity|by split]]. fold (classified m).
  assert (Ho : im_origin (classified m) = im_origin m) by (unfold classified; by destruct (im_semantic m)).
  cbv zeta. rewrite Ho. simpl i_bindings. destruct (is_offline (im_origin m) (i_bindings s)) eqn:Eo; [left; by eexists|].
  destruct (gate al (route (im_origin m) (i_bindings s)) (classified m)) as [[event reason]|] eqn:Eg; [left; by eexists|].
  right. eexists id, _. split; [done|]. split; [done|]. split; [done|]. split; [done|]. simpl.
  unfold check_and_record in Ec. destruct (dmem (dedupe_key m) _) eqn:Ed in Ec; [done|]. injection Ec as <-. simpl.
  rewrite dget_dset_eq. split; [by eexists|exact Ed].
Qed.

(** The peers that a target of this type is pushed to. *)
Definition peer_of (target : SessionTarget) : option (InboundMessage -> M (IState W) exn bool) :=
  if mem (host_type target) ["repl"; "orchestrator"; "opt_in"] then h_push H else None.

(** A delivery either ends with the peer, which took the message, or is left to
    the default handler. *)
Lemma deliver_cases (id : string) (target : SessionTarget) (m : InboundMessage) (s : IState W) :
  exists s1,
    (exists push s2, peer_of target = Some push /\ push m s1 = (Ret true, s2)
       /\ deliver H status_limit id target m s = (Ret (mkAck id ENQUEUED_LAYER "pushed to opt-in peer" false), s2))
    \/ exists s2, deliver H status_limit id target m s = dispatch_default H status_limit id m s2
       /\ match peer_of target with None => s2 = s1 | Some push => fst (push m s1) <> Ret true /\ s2 = snd (push m s1) end.
Proof.
  unfold deliver, peer_of. change ["repl"; "orchestrator"; "opt_in"] with OPT_IN_HOST_TYPES. set (s1 := match status_limit with Some _ => _ | None => _ end). exists s1.
  destruct (mem (host_type target) OPT_IN_HOST_TYPES), (h_push H) as [push|]; [|right; by exists s1..].
  destruct (push m s1) as [[[]|e] s2] eqn:Ep; [left; by exists push, s2|right; by exists s2..].
Qed.
End dispatch.

(** ** Theorems *)

(** C28: an inbound message either stays in the gateway (the receipt says
    accepted, and no peer or handler, whatever it is, has any influence on the
    outcome), or it is no duplicate, the target of its origin is not offline, and
    it is a slash command that is on the list of a REPL target or, as a command,
    on that of an orchestrator; a target of any other type has no list and gets
    every slash command. Such a message is pushed to the peer if the target is one
    of the three peer types and a peer is registered; it goes to the default
    handler, and only then, if there is no such peer or the push fails. *)
Theorem only_admitted_commands_delivered {W} (H : Hosts W) (O : StoreOps) (al : CommandAllowlistConfig)
    (status_limit : option Z) (m : InboundMessage) (s : IState W) :
  let target := route (im_origin m) (i_bindings s) in
  let out := process H O al status_limit m s in
  withheld H O al status_limit m s
  \/ (fst (is_duplicate (so_config O) (checked_at H s) (dedupe_key m) (i_store s)) = false
      /\ is_offline (im_origin m) (i_bindings s) = false /\ admitted al target (classified m)
      /\ exists id s1,
           (exists push s2, peer_of H target = Some push /\ push (classified m) s1 = (Ret true, s2)
              /\ out = (Ret (mkAck id ENQUEUED_LAYER "pushed to opt-in peer" false), s2))
           \/ exists s2, out = dispatch_default H status_limit id (classified m) s2
              /\ match peer_of H target with
                 | None => s2 = s1
                 | Some push => fst (push (classified m) s1) <> Ret true /\ s2 = snd (push (classified m) s1)
                 end).
Proof.
  cbv zeta. destruct (process_cases H O al status_limit m s) as [Hw|(id & s2 & Hp & _ & Ho & Hg & _ & Hd)]; [by left|right].
  split; [done|]. split; [done|]. split; [by apply gate_admitted|]. exists id. rewrite Hp. apply deliver_cases.
Qed.

(** The allow-lists survive the configuration file.  The lists that were
    accepted are written and read back as they are. *)
Theorem allowlists_roundtrip (v : pyval) (al : CommandAllowlistConfig) :
  allowlists_from_dict v = Ret al -> allowlists_from_dict (allowlists_to_dict al) = Ret al.
Proof.
  intros [[Hr Hrn] [Ho Hon]]%allowlists_normal. unfold allowlists_to_dict, allowlists_from_dict, build_allowlists.
  change (get_commands "repl" _ _) with (PList (map PStr (al_repl al))).
  change (get_commands "orchestrator" _ _) with (PList (map PStr (al_orchestrator al))).
  rewrite (normalize_again 1 (al_repl al)), (normalize_again 2 (al_orchestrator al)) by done. by destruct al.
Qed.

Definition written_lists : pyval :=
  PDict [("repl", PList [PStr "/Stop"]); ("orchestrator", PList [PStr "  /Issue   LIST "; PStr "/issue list"; PStr "/pause"])].

Definition accepted_lists : CommandAllowlistConfig := mkAllowlists ["/stop"] ["/issue list"; "/pause"].

Lemma allowlists_roundtrip_witness :
  allowlists_from_dict written_lists = Ret accepted_lists
  /\ allowlists_from_dict (allowlists_to_dict accepted_lists) = Ret accepted_lists.
Proof. split; [by vm_compute|]. apply (allowlists_roundtrip written_lists accepted_lists). by vm_compute. Defined.

(** ** A message whose handler fails *)

(** The handlers leave the index of seen messages alone. *)
Definition keeps_index {W} (H : Hosts W) : Prop :=
  (forall push, h_push H = Some push -> forall m s, st_dedupe (i_store (snd (push m s))) = st_dedupe (i_store s))
  /\ (forall handler, h_handler H = Some handler -> forall m s, st_dedupe (i_store (snd (handler m s))) = st_dedupe (i_store s)).

(** The time under which [process] records the message. *)
Definition recorded_at {W} (H : Hosts W) (s : IState W) : Q :=
  fst (h_tick H (snd (h_tick H (snd (h_new_id H (i_world s)))))).

Section failing.
Context {W : Type} (H : Hosts W) (O : StoreOps) (al : CommandAllowlistConfig) (status_limit : option Z).
Context (Hk : keeps_index H).

Local Abbreviation index s := (st_dedupe (i_store s)).

Lemma start_index max m (s : IState W) : index (snd (start H max m s)) = index s.
Proof.
  unfold start. destruct (_ || _); [done|]. destruct (dmem _ _); [done|]. destruct (h_status_adapter _ _ _); [|done].
  cbv zeta. by destruct (h_on_start H _ _ _) as [[]].
Qed.

Lemma complete_index m outcome (s : IState W) : index (complete_processing H status_limit m outcome s) = index s.
Proof.
  unfold complete_processing, complete. destruct status_limit; [|done].
  destruct (dget (im_message_id m) (i_pending s)) as [e|]; [|done]. destruct (negb _); [done|].
  destruct (h_status_adapter H (pp_channel e) (i_world s)); [|done].
  by destruct (h_on_complete H _ _ _ _) as [[[]|]].
Qed.

Lemma dispatch_default_index id m (s : IState W) : index (snd (dispatch_default H status_limit id m s)) = index s.
Proof.
  unfold dispatch_default. destruct (h_handler H) as [handler|] eqn:E; [|apply complete_index].
  destruct Hk as [_ Hh]. pose proof (Hh handler E m s) as Hs.
  destruct (handler m s) as [[[r|]|e] s1]; simpl in Hs |- *; by rewrite complete_index.
Qed.

Lemma deliver_index id target m (s : IState W) : index (snd (deliver H status_limit id target m s)) = index s.
Proof.
  unfold deliver. set (s1 := match status_limit with Some n => _ | None => s end).
  assert (H1 : index s1 = index s) by (unfold s1; destruct status_limit; [apply start_index|done]).
  destruct (h_push H) as [push|] eqn:E; [|by rewrite dispatch_default_index].
  destruct (mem _ _); [|by rewrite dispatch_default_index]. destruct Hk as [Hp _]. pose proof (Hp push E m s1) as Hs.
  destruct (push m s1) as [[[]|e] s2]; simpl in Hs; [simpl|rewrite dispatch_default_index..]; congruence.
Qed.

(** A message whose handler raised has been recorded. *)
Lemma raise_recorded m (s s' : IState W) e :
  process H O al status_limit m s = (Raise e, s') -> dget (dedupe_key m) (index s') = Some (recorded_at H s).
Proof.
  unfold process, recorded_at, tick. destruct (h_new_id H (i_world s)) as [id w]. simpl i_world.
  destruct (h_tick H w) as [now w1] eqn:E1. simpl i_world. simpl snd. rewrite E1. simpl snd.
  destruct (h_tick H w1) as [later w2]. simpl fst.
  unfold check_and_record. destruct (dmem _ _); simpl negb; cbv iota zeta; [discriminate|].
  match goal with |- (if ?b then _ else _) = _ -> _ => destruct b end; [discriminate|].
  match goal with |- match ?g with Some _ => _ | None => _ end = _ -> _ => destruct g as [[]|] end; [discriminate|].
  intros Hd. match type of Hd with deliver H _ ?i ?t ?x ?z = _ => pose proof (deliver_index i t x z) as Hi end.
  rewrite Hd in Hi. simpl in Hi. rewrite Hi. apply dget_dset_eq.
Qed.
End failing.

(** A message whose handler raised is lost.  It was recorded as processed
    before it was delivered, so when the channel delivers it again within the
    window it is answered as a duplicate, and no handler sees it. *)
Theorem failed_delivery_not_repeated {W} (H : Hosts W) (O : StoreOps) (al : CommandAllowlistConfig)
    (status_limit : option Z) (m : InboundMessage) (s s' : IState W) (e : exn) :
  keeps_index H -> process H O al status_limit m s = (Raise e, s') ->
  (checked_at H s' - inbound_dedupe_ttl (so_config O) <= recorded_at H s)%Q ->
  withheld H O al status_limit m s'
  /\ fst (process H O al status_limit m s')
     = Ret (mkAck (fst (h_new_id H (i_world s'))) ACCEPTED "duplicate; skipped" false).
Proof.
  intros Hk Hp Ht. pose proof (raise_recorded H O al status_limit Hk m s s' e Hp) as Hr.
  assert (Hdup : forall H', h_new_id H' = h_new_id H -> h_tick H' = h_tick H -> exists st,
    process H' O al status_limit m s' =
      (Ret (mkAck (fst (h_new_id H (i_world s'))) ACCEPTED "duplicate; skipped" false), mkI (snd (h_tick H (snd (h_new_id H (i_world s'))))) st
         (i_bindings s') (i_pending s'))
    /\ st = snd (is_duplicate (so_config O) (checked_at H s') (dedupe_key m) (i_store s'))).
  { intros H' Hn Hti. unfold process, tick, checked_at in *. rewrite Hn, Hti.
    destruct (h_new_id H (i_world s')) as [id w]. simpl i_world. simpl snd in *. simpl fst.
    destruct (h_tick H w) as [now w1]. simpl i_world. simpl snd. simpl fst in *. destruct (h_tick H w1) as [later w2].
    unfold check_and_record. unfold dmem. simpl i_store. simpl st_dedupe.
    rewrite (dget_fresh_keys _ _ _ _ Hr Ht). simpl. by eexists. }
  split.
  - destruct (Hdup H eq_refl eq_refl) as (st & Hst & Est). eexists. rewrite Hst. split; [reflexivity|]. split; [done|].
    intros push handler. destruct (Hdup (with_handlers H push handler) eq_refl eq_refl) as (st' & Hst' & Est').
    by rewrite Hst', Est', Est.
  - destruct (Hdup H eq_refl eq_refl) as (st & Hst & _). by rewrite Hst.
Qed.

(** A gateway whose handler raises; the clock counts its readings. *)
Definition raising_hosts : Hosts Z :=
  mkHosts None (Some (fun _ s => (Raise crash, s))) (fun _ _ => true) (fun _ _ w => (Ret true, w))
    (fun _ _ _ w => (Ret true, w)) (fun w => ("d", w)) (fun w => (inject_Z w, w + 1)).

Definition default_lists : CommandAllowlistConfig :=
  mkAllowlists DEFAULT_REPL_COMMAND_ALLOWLIST DEFAULT_ORCHESTRATOR_COMMAND_ALLOWLIST.

Definition status_request : InboundMessage :=
  mkInbound "feishu:dm:a:u1" "/server status" None None None "feishu" "m1" None None [] [] None "feishu" None 0.

Definition fresh_gateway : IState Z := mkI 0 empty_store ImBinding.new_policy [].

Definition after_failure : IState Z :=
  snd (process raising_hosts sample_ops default_lists (Some 8) status_request fresh_gateway).

Lemma failed_delivery_not_repeated_witness :
  fst (process raising_hosts sample_ops default_lists (Some 8) status_request fresh_gateway) = Raise crash
  /\ fst (process raising_hosts sample_ops default_lists (Some 8) status_request after_failure)
     = Ret (mkAck "d" ACCEPTED "duplicate; skipped" false).
Proof.
  split; [by vm_compute|].
  apply (failed_delivery_not_repeated raising_hosts sample_ops default_lists (Some 8) status_request fresh_gateway
           after_failure crash); [|by vm_compute|by vm_compute].
  split; [discriminate|]. intros handler [= <-]. done.
Defined.

(** ** The processing-status registry *)

(** Within its limit, one entry per message, filed under its identifier. *)
Record pending_ok (max : nat) (d : pending_map) : Prop := mkPendingOk {
  po_bound : (length d <= max)%nat;
  po_keys : dict_wf d;
  po_filed : Forall (fun kv => pp_message_id (snd kv) = fst kv /\ fst kv <> "") d;
}.

Section registry.
Context {W : Type} (H : Hosts W) (limit : Z).

Local Abbreviation max := (max_pending_of limit).

(** Calls of the registry in any order, in a world that changes between them. *)
Inductive status_history : IState W -> Prop :=
| sh_new s : i_pending s = [] -> status_history s
| sh_world w s : status_history s -> status_history (set_world w s)
| sh_start m s : status_history s -> status_history (snd (start H max m s))
| sh_complete id outcome origin s : status_history s -> status_history (snd (complete H id outcome origin s)).

Lemma pending_sublist n d d' : pending_ok n d -> sublist d' d -> pending_ok n d'.
Proof.
  intros [Hb Hk Hf] Hs. split.
  - apply sublist_length in Hs. lia.
  - unfold dict_wf in *. by eapply sublist_NoDup, (fmap_sublist fst).
  - apply Forall_forall. intros x Hx. rewrite Forall_forall in Hf. apply Hf.
    eapply elem_of_submseteq; [exact Hx|by apply sublist_submseteq].
Qed.

Lemma ddel_sublist {V} (k : string) (d : dict string V) : sublist (ddel k d) d.
Proof.
  induction d as [|[k' v] d IH]; [constructor|]. simpl. destruct (decide (k = k')); by constructor.
Qed.

Lemma trim_ok n m d : pending_ok m d -> pending_ok n (trim n d).
Proof.
  intros Hd. assert (Hs : pending_ok m (trim n d)) by (eapply pending_sublist; [exact Hd|apply sublist_drop]).
  destruct Hs as [_ Hk Hf]. split; [|done|done]. unfold trim. rewrite length_drop. lia.
Qed.

Lemma insert_ok n d e : pending_ok n d -> pp_message_id e <> "" -> pending_ok (S n) (dset (pp_message_id e) e d).
Proof.
  intros [Hb Hk Hf] He. split.
  - pose proof (dset_length_le (pp_message_id e) e d). lia.
  - by apply dset_wf.
  - apply Forall_forall. intros [k v] Hkv. pose proof (dict_wf_In _ _ _ (dset_wf (pp_message_id e) e d Hk) Hkv) as Hg.
    simpl. destruct (decide (k = pp_message_id e)) as [->|Hne].
    + rewrite dget_dset_eq in Hg. by injection Hg as <-.
    + rewrite dget_dset_ne in Hg by done. apply dget_In in Hg. rewrite Forall_forall in Hf. apply (Hf _ Hg).
Qed.

Lemma move_ok n k d : pending_ok n d -> pending_ok n (move_to_end k d).
Proof.
  intros Hd. unfold move_to_end. destruct (dget k d) as [v|] eqn:E; [|done].
  pose proof (pending_sublist n d _ Hd (ddel_sublist k d)) as [Hb' Hk' Hf'].
  pose proof (ddel_length_lt k d) as Hlt. rewrite E in Hlt. specialize (Hlt ltac:(by eexists)).
  destruct Hd as [Hb Hk Hf]. split.
  - rewrite length_app. simpl. lia.
  - rewrite <- (dset_fresh k v (ddel k d)) by apply dget_ddel_eq. by apply dset_wf.
  - apply Forall_app. split; [done|]. constructor; [|done]. rewrite Forall_forall in Hf. apply (Hf (k, v)). by apply dget_In.
Qed.

Lemma start_ok m (s : IState W) : pending_ok max (i_pending s) -> pending_ok max (i_pending (snd (start H max m s))).
Proof.
  intros Hs. unfold start. destruct (String.eqb_spec (im_message_id m) "") as [|Hid]; [done|]. simpl.
  destruct (String.eqb (im_channel m) ""); [done|]. destruct (dmem _ _); [by apply move_ok|].
  destruct (h_status_adapter H (im_channel m) (i_world s)); [|done]. cbv zeta.
  destruct (h_on_start H _ _ _) as [[]]; simpl; eapply trim_ok;
    by apply (insert_ok max (i_pending s) (mkPending (im_message_id m) (im_channel m) (im_origin m))).
Qed.

Lemma complete_ok id outcome origin (s : IState W) :
  pending_ok max (i_pending s) -> pending_ok max (i_pending (snd (complete H id outcome origin s))).
Proof.
  intros Hs. unfold complete. destruct (dget id (i_pending s)) as [e|]; [|done].
  destruct (match origin with Some _ => _ | None => _ end); [done|].
  destruct (h_status_adapter H _ _); [destruct (h_on_complete H _ _ _ _) as [[[]|]]|]; simpl; try done;
    by eapply pending_sublist, ddel_sublist.
Qed.
End registry.

(** The registry of messages in progress stays within its limit, with one
    entry per message, in any order of starts and completions and whatever the
    adapters answer (an adapter that never completes a message included). *)
Theorem pending_registry_bounded {W} (H : Hosts W) (limit : Z) (s : IState W) :
  status_history H limit s -> pending_ok (max_pending_of limit) (i_pending s).
Proof.
  induction 1 as [s Hs|w s _ IH|m s _ IH|id outcome origin s _ IH].
  - rewrite Hs. split; [simpl; lia|constructor|constructor].
  - done.
  - by apply start_ok.
  - by apply complete_ok.
Qed.

Lemma pending_registry_bounded_witness :
  let message i := with_semantic COMMAND (mkInbound "o" "/x" None None None "" i None None [] [] None "feishu" None 0) in
  let s := snd (start raising_hosts (max_pending_of 1) (message "m2")
             (snd (start raising_hosts (max_pending_of 1) (message "m1") fresh_gateway))) in
  dkeys (i_pending s) = ["m2"] /\ pending_ok (max_pending_of 1) (i_pending s).
Proof.
  cbv zeta. split; [by vm_compute|]. apply (pending_registry_bounded raising_hosts 1).
  apply (sh_start raising_hosts 1), (sh_start raising_hosts 1), sh_new. done.
Defined.
