(* ===== verification/IssueProvider.v ===== *)
(** * Candidates of a poll
    ([src/orchestratord/applications/issue_pr/provider.py])

    [_dispatch_candidates]: which issues a poll registers, which operator
    intents it acts on and which issues it launches, with the intent resolution,
    role check, rate limits, built-in rebase and review follow-up of
    [applications/issue_pr/interpret.py].  The tracker, git, the clarification
    gate and [_launch_issue] are parameters; the registry, the intents and the
    state of the orchestrator are those of the other components.  Audit entries,
    notifications and the comment that reports a rejected retry feed nothing
    back and are left out. *)

From S2P Require Import Prelude Errors Dag StageRunner Intent IssueRegistry RegistryFacts Kernel RetryQueue.

Open Scope string_scope.
Open Scope list_scope.
Open Scope Z_scope.

(** ** Data *)

#[export] Instance Command_eq_dec : EqDecision Command.
Proof. solve_decision. Defined.

(** What is read of an [Issue]; a missing identifier is empty. *)
Record TIssue := mkTIssue {
  ti_id : string;
  ti_identifier : string;
  ti_branch_name : option string;
  ti_base_branch : option string;
  ti_author_login : option string;
  ti_labels : list string;
  ti_depends_on : list string;
}.

Record CommandIntent := mkCommandIntent {
  ci_command : Command;
  ci_author_login : option string;
  ci_comment_id : option string;
}.

(** What is read of a [PullRequestFeedback]. *)
Record Feedback := mkFb {
  fb_id : string;
  fb_source : string;
  fb_body : option string;
  fb_author_login : option string;
  fb_status : option string;
  fb_created_at : option string;
  fb_updated_at : option string;
  fb_url : option string;
}.

Record PRRebaseResult := mkRebase {
  rb_has_conflict : bool;
  rb_conflict_files : list string;
  rb_rebased : bool;
  rb_new_head_sha : option string;
}.

(** The parts of [workflow] that are read. *)
Record PollConfig := mkPollConfig {
  pc_base_branch : option string;
  pc_sequential : bool;
  pc_allow_anyone_to_retry : bool;
  pc_max_retries_per_issue : Z;
  pc_max_rebase_attempts : Z;
  pc_use_force_push : bool;
  pc_fail_open : bool;
  pc_max_failures : Z;
}.

(** The tracker, git and the clock over the world [W]. *)
Record PollOps (W : Type) := mkPollOps {
  po_candidates : M W exn (list TIssue);
  po_label_intent : list string -> M W exn Intent;
  po_command_intent : option (string -> option string -> M W exn (option CommandIntent));
  po_create_comment : string -> text -> M W exn (option string);
  po_update_state : string -> string -> M W exn unit;
  po_feedback : string -> option string -> string -> M W exn (list Feedback);
  po_reply : string -> Feedback -> M W exn unit;
  po_rebase : string -> string -> string -> bool -> M W exn PRRebaseResult;
  po_tick : W -> Tick;
  po_conversation : W -> string;
}.
Arguments mkPollOps {W}.
Arguments po_candidates {W}.
Arguments po_label_intent {W}.
Arguments po_command_intent {W}.
Arguments po_create_comment {W}.
Arguments po_update_state {W}.
Arguments po_feedback {W}.
Arguments po_reply {W}.
Arguments po_rebase {W}.
Arguments po_tick {W}.
Arguments po_conversation {W}.

Record PState (W : Type) := mkP {
  p_world : W;
  p_orch : Orch;
  p_pending_review : list string;
}.
Arguments mkP {W}.
Arguments p_world {W}.
Arguments p_orch {W}.
Arguments p_pending_review {W}.

(** [set.add] and [set.discard] *)
Definition sadd (x : string) (l : list string) : list string := if mem x l then l else l ++ [x].
Definition sdiscard (x : string) (l : list string) : list string := List.filter (fun y => negb (String.eqb x y)) l.

Definition set_completed (l : list string) (o : Orch) : Orch :=
  mkOrch (oc_max_concurrent o) (oc_running o) l (oc_claimed o) (oc_retry_queue o) (oc_retry_attempts o) (oc_registry o).

Section provider.
Context {W : Type} (T : PollOps W) (cfg : PollConfig).
(** The clarification gate, when there is one, and [_launch_issue]. *)
Context (gate : option (TIssue -> M (PState W) exn bool)).
Context (begin_poll : PState W -> PState W).
Context (launch : TIssue -> M (PState W) exn unit).

Local Abbreviation St := (PState W).

Definition reg (s : St) : Registry := oc_registry (p_orch s).
Definition on_orch (f : Orch -> Orch) (s : St) : St := mkP (p_world s) (f (p_orch s)) (p_pending_review s).
Definition ptick (s : St) : Tick := po_tick T (p_world s).

(** A call of the registry *)
Definition on_reg (f : Tick -> Registry -> Registry) (s : St) : St :=
  on_orch (fun o => set_registry (f (ptick s) (oc_registry o)) o) s.

Definition outside {A} (m : M W exn A) : M St exn A := fun s =>
  let (r, w) := m (p_world s) in (r, mkP w (p_orch s) (p_pending_review s)).

(** [try: ... except Exception: default] *)
Definition attempt {A} (dflt : A) (m : M St exn A) (s : St) : A * St :=
  match m s with
  | (Ret a, s1) => (a, s1)
  | (Raise _, s1) => (dflt, s1)
  end.

(** An assignment to fields of a record that is in the registry, and [_save]. *)
Definition assign (id : string) (f : IssueRecord -> IssueRecord) (t : Tick) (g : Registry) : Registry :=
  match IssueRegistry.get id g with
  | Some r => save t (set_records (dset id (f r) (records g)) g)
  | None => g
  end.

Definition with_author (a : option string) (r : IssueRecord) : IssueRecord :=
  let c := clar r in
  set_clar (mkClarInfo (clarification_status c) (question_history c) (open_questions c) (clarification_round c)
              (clarifier_fingerprint c) (clarification_replies c) (clarifier_comment_cursor c) a (local_answer c)
              (local_answer_source c) (first_response_source c) (stale_answers c)) r.

Definition with_cursor (c : string) (r : IssueRecord) : IssueRecord :=
  let x := intents r in
  set_intents (mkIntentInfo (intent x) (retry_count x) (next_retry_at x) (last_command x) (intent_source x) (Some c)) r.

Definition with_last_command (c : string) (r : IssueRecord) : IssueRecord :=
  let x := intents r in
  set_intents (mkIntentInfo (intent x) (retry_count x) (next_retry_at x) (Some c) (intent_source x) (command_cursor x)) r.

Definition with_intent (i : Intent) (source : option string) (r : IssueRecord) : IssueRecord :=
  let x := intents r in
  set_intents (mkIntentInfo i (retry_count x) (next_retry_at x) (last_command x) source (command_cursor x)) r.

(** ** Intents ([interpret.py]) *)

Definition command_value (c : Command) : string :=
  match c with CRetry => "retry" | CFollowup => "follow-up" | CUnblock => "unblock" | CRebase => "rebase" end.

(** [_resolve_command_intent] *)
Definition resolve_command_intent (issue : TIssue) (s : St) : option CommandIntent * St :=
  let id := ti_id issue in
  if String.eqb id "" then (None, s)
  else
    let cursor := match IssueRegistry.get id (reg s) with Some r => command_cursor (intents r) | None => None end in
    match po_command_intent T with
    | None => (None, s)
    | Some fetch => attempt None (outside (fetch id cursor)) s
    end.

(** The intent that the CLI left in the registry. *)
Definition cli_intent (id : string) (g : Registry) : Intent :=
  match IssueRegistry.get id g with
  | Some r => if bool_decide (intent_source (intents r) = Some "cli") then intent (intents r) else INone
  | None => INone
  end.

(** Which source won. *)
Definition winner (label command cli merged : Intent) : option string :=
  if is_intent merged IBlocked then
    if is_intent label IBlocked then Some "label"
    else if is_intent command IBlocked then Some "command"
    else if is_intent cli IBlocked then Some "cli"
    else None
  else if negb (is_intent cli INone) && is_intent merged cli then Some "cli"
  else if negb (is_intent command INone) && is_intent merged command then Some "command"
  else if negb (is_intent label INone) && is_intent merged label then Some "label"
  else None.

Definition command_intent_of (c : option CommandIntent) : Intent :=
  match c with Some c => command_to_intent (ci_command c) | None => INone end.

(** [_resolve_intent] *)
Definition resolve_intent (issue : TIssue) (s : St) : (Intent * option CommandIntent * option string) * St :=
  let '(label, s1) := match ti_labels issue with
                      | [] => (INone, s)
                      | labels => attempt INone (outside (po_label_intent T labels)) s
                      end in
  let '(command, s2) := resolve_command_intent issue s1 in
  let cli := cli_intent (ti_id issue) (reg s2) in
  let merged := merge_intents_with_cli label (command_intent_of command) cli in
  ((merged, command, winner label (command_intent_of command) cli merged), s2).

(** [_is_command_author_eligible] *)
Definition is_command_author_eligible (issue : TIssue) (author : option string) (g : Registry) : bool :=
  if pc_allow_anyone_to_retry cfg then true
  else match str_or author None with
       | None => false
       | Some a =>
           String.eqb a "orchestratord"
           || match IssueRegistry.get (ti_id issue) g with
              | Some r => match str_or (author_login (clar r)) None with
                          | Some x => String.eqb a x
                          | None => false
                          end
              | None => false
              end
       end.

(** [_reject_unauthorized_command] *)
Definition reject_unauthorized_command (issue : TIssue) (c : CommandIntent) (s : St) : St :=
  let '(_, s1) := attempt None (outside (po_create_comment T (ti_id issue)
                    [Lit "## Orchestratord: 仅 issue 作者或 maintainer 可触发 /agent "; Lit (command_value (ci_command c))])) s in
  match str_or (ci_comment_id c) None with
  | Some id => on_reg (assign (ti_id issue) (with_cursor id)) s1
  | None => s1
  end.

(** [_check_retry_rate_limit] with [force=False] *)
Definition check_retry_rate_limit (issue : TIssue) (g : Registry) : bool :=
  match IssueRegistry.get (ti_id issue) g with Some r => retry_count (intents r) | None => 0 end <? pc_max_retries_per_issue cfg.

(** [_post_command_acknowledgement] *)
Definition post_command_acknowledgement (issue : TIssue) (c : Command) (s : St) : St :=
  let '(comment, s1) := attempt None (outside (po_create_comment T (ti_id issue)
                          [Lit "## Orchestratord: 已受理 /agent "; Lit (command_value c)])) s in
  match str_or comment None with
  | Some id => on_reg (assign (ti_id issue) (with_cursor id)) s1
  | None => s1
  end.

(** [_check_rebase_rate_limit] with [force=False] *)
Definition check_rebase_rate_limit (issue : TIssue) (s : St) : bool * St :=
  let current := match IssueRegistry.get (ti_id issue) (reg s) with
                 | Some r => rebase_attempt_count (conflict r) | None => 0 end in
  if current <? pc_max_rebase_attempts cfg
  then (true, on_reg (fun t => increment_rebase_attempt t (ti_id issue)) s) else (false, s).

Definition with_rebase_attempts (n : Z) (r : IssueRecord) : IssueRecord :=
  let x := conflict r in set_conflict (mkConflictInfo (has_conflict x) (conflict_files x) n (last_rebase_attempt_at x)) r.

Definition with_commit_sha (sha : string) (r : IssueRecord) : IssueRecord :=
  let x := sync r in
  set_sync (mkSyncInfo (branch_name x) (Some sha) (pr_number x) (pr_url x) (pr_created_at x) (pr_state x)
              (report_path x) (verification_status x) (verification_output x) (last_hook_error x) (summary_comment_id x)) r.

(** [_process_rebase_intent]; [force] is [None] for the configured default. *)
Definition process_rebase_intent (issue : TIssue) (force : option bool) : M St exn (option PRRebaseResult) := fun s =>
  let id := ti_id issue in
  match IssueRegistry.get id (reg s) with
  | None => (Ret None, s)
  | Some r =>
      match str_or (workspace_path (wspace r)) None, str_or (branch_name (sync r)) None with
      | Some path, Some branch =>
          let base := default "main" (str_or (Some (base_branch (wspace r))) (str_or (pc_base_branch cfg) None)) in
          let use_force := default (pc_use_force_push cfg) force in
          match outside (po_rebase T path branch base use_force) s with
          | (Raise e, s1) => (Raise e, s1)
          | (Ret res, s1) =>
              let s2 :=
                if rb_has_conflict res then
                  let s2 := on_reg (fun t => mark_conflict t id (rb_conflict_files res)) s1 in
                  if use_force then on_reg (assign id (with_rebase_attempts 0)) s2 else s2
                else if rb_rebased res then
                  let s2 := on_reg (fun t => clear_conflict t id) s1 in
                  match str_or (rb_new_head_sha res) None with
                  | Some sha => on_reg (fun t => update t id (with_commit_sha sha)) s2
                  | None => s2
                  end
                else s1 in
              (Ret (Some res), s2)
          end
      | _, _ => (Ret None, s)
      end
  end.

(** ** Review follow-ups of a command *)

(** [_uses_review_feedback_followup] *)
Definition uses_review_feedback_followup (r : option IssueRecord) : bool :=
  match r with
  | Some r => is_intent (intent (intents r)) IFollowup && negb (bool_decide (intent_source (intents r) = Some "chat"))
  | None => false
  end.

(** The [TypeError] of [ReviewFollowup(...)], which is built without its
    required field [prompt]. *)
Definition missing_prompt : exn :=
  mkExn OtherException [Lit "TypeError: ReviewFollowup.__init__() missing 1 required positional argument: 'prompt'"] None.

Fixpoint reply_all (pr : string) (l : list Feedback) (s : St) : St :=
  match l with
  | [] => s
  | f :: l' => reply_all pr l' (snd (attempt tt (outside (po_reply T pr f)) s))
  end.

(** [_launch_followup_with_pending_reviews] *)
Definition launch_followup_with_pending_reviews (issue : TIssue) : M St exn bool := fun s =>
  match IssueRegistry.get (ti_id issue) (reg s) with
  | None => (Ret false, s)
  | Some r =>
      match str_or (pr_number (sync r)) None with
      | None => (Ret false, s)
      | Some pr =>
          match outside (po_feedback T pr (pr_url (sync r)) (issue_id r)) s with
          | (Raise _, s1) => (Ret false, s1)
          | (Ret feedback_, s1) =>
              let abandoned f := feedback_abandoned (issue_id r) (fb_id f) (pc_max_failures cfg) (reg s1) in
              let pending := List.filter (fun f => negb (mem (fb_id f) (processed_feedback_ids (feedback r)))
                                                   && negb (abandoned f)) feedback_ in
              let given_up := List.filter abandoned feedback_ in
              let s2 := match given_up with
                        | [] => s1
                        | _ => on_reg (fun t => mark_feedback_processed t (issue_id r) (map fb_id given_up) None None)
                                 (reply_all pr given_up s1)
                        end in
              match pending with
              | [] => (Ret false, s2)
              | _ => (Raise missing_prompt, s2)
              end
          end
      end
  end.

(** ** The poll ([provider.py]) *)

(** [getattr(issue, "base_branch", None) or workspace.base_branch or "main"] *)
Definition candidate_base_branch (issue : TIssue) : string :=
  default "main" (str_or (ti_base_branch issue) (str_or (pc_base_branch cfg) None)).

(** What a candidate is registered with. *)
Definition candidate_args (issue : TIssue) : RegisterArgs :=
  mkRegisterArgs (ti_branch_name issue)
    (mkWorkspaceInfo (candidate_base_branch issue) None None None None None None) (Some QUEUED) (ti_author_login issue).

(** One candidate of the first loop. *)
Definition pre_register_one (issue : TIssue) (s : St) : St :=
  match IssueRegistry.get (ti_id issue) (reg s) with
  | None => on_reg (fun t => register t (ti_id issue) (ti_identifier issue) (candidate_args issue)
                               (po_conversation T (p_world s))) s
  | Some r =>
      match str_or (ti_author_login issue) None, str_or (author_login (clar r)) None with
      | Some a, None => on_reg (assign (ti_id issue) (with_author (Some a))) s
      | _, _ => s
      end
  end.

Definition pre_register (issues : list TIssue) (s : St) : St :=
  fold_left (fun s i => pre_register_one i s) issues s.

(** [_sync_tracker_issue_state] *)
Definition sync_tracker_issue_state (id state : string) (s : St) : bool * St :=
  if String.eqb id "" then (false, s)
  else match outside (po_update_state T id state) s with
       | (Ret _, s1) => (true, s1)
       | (Raise _, s1) => (false, s1)
       end.

(** [_dependencies_satisfied] *)
Definition dependencies_satisfied (issue : TIssue) (g : Registry) : bool :=
  forallb (fun d => IssueRegistry.is_completed d g || has_pr d g) (List.filter (fun d => negb (String.eqb d "")) (ti_depends_on issue)).

Definition wants_run (i : Intent) : bool := is_intent i IRetry || is_intent i IFollowup.

(** A command was honoured: acknowledge it, note it, and lift a block. *)
Definition honour_command (issue : TIssue) (c : Command) (s : St) : St :=
  let id := ti_id issue in
  let s1 := post_command_acknowledgement issue c s in
  let s2 := on_reg (fun t => update t id (with_last_command ("/agent " +:+ command_value c))) s1 in
  match c, IssueRegistry.get id (reg s2) with
  | CUnblock, Some r =>
      if bool_decide (status r = ABANDONED)
      then on_reg (assign id (fun r => with_intent INone None (set_status PENDING r))) s2 else s2
  | _, _ => s2
  end.

(** [source=(intent_source or ("command" if command is not None else "label"))] *)
Definition mark_source (source : option string) (command : option Command) : option string :=
  Some (default (if is_some command then "command" else "label") (str_or source None)).

Definition mark_the_intent (issue : TIssue) (i : Intent) (source : option string) (command : option Command) : St -> St :=
  on_reg (fun t => mark_intent t (ti_id issue) i (mark_source source command)
                     (option_map (fun c => "/agent " +:+ command_value c) command)).

(** A blocked issue is abandoned. *)
Definition abandon (issue : TIssue) (i : Intent) (source : option string) (command : option Command) (s : St) : St :=
  let id := ti_id issue in
  let s1 := match IssueRegistry.get id (reg s) with
            | None => on_reg (fun t => register t id (ti_identifier issue)
                        (mkRegisterArgs (Some (default "main" (str_or (ti_branch_name issue) None)))
                           (mkWorkspaceInfo "main" None None None None None None) None None)
                        (po_conversation T (p_world s))) s
            | Some _ => s
            end in
  let s2 := mark_the_intent issue i source command s1 in
  let s3 := on_reg (fun t => mark_abandoned t id) s2 in
  let s4 := snd (sync_tracker_issue_state id "abandoned" s3) in
  on_orch (fun o => set_completed (sadd id (oc_completed o)) o) s4.

(** The clarification gate as the poll calls it. *)
Definition gate_lets_through (issue : TIssue) (s : St) : bool * St :=
  match gate with
  | None => (true, s)
  | Some g => attempt (pc_fail_open cfg) (g issue) s
  end.

Definition clear_cli (issue : TIssue) (source : option string) (s : St) : St :=
  if bool_decide (source = Some "cli") then on_reg (fun t => clear_intent t (ti_id issue) false) s else s.

(** The issue is left for another poll, or launched for an intent of a source. *)
Inductive verdict := Skip | Launch (source : option string).

(** The last checks: handled work, dependencies, clarification. *)
Definition launchable (issue : TIssue) (i : Intent) (source : option string) (s : St) : verdict * St :=
  if is_intent i INone && (IssueRegistry.is_terminal (ti_id issue) (reg s) || has_pr (ti_id issue) (reg s)) then (Skip, s)
  else if dependencies_satisfied issue (reg s) then
    let '(b, s1) := gate_lets_through issue s in (if b then Launch source else Skip, s1)
  else (Skip, s).

(** What follows the checks of authority, by intent. *)
Definition act_on_intent (issue : TIssue) (i : Intent) (command : option Command) (source : option string)
    : M St exn verdict := fun s =>
  let go s := let '(v, s1) := launchable issue i source s in (Ret v, s1) in
  match i with
  | IBlocked => (Ret Skip, abandon issue i source command s)
  | IRetry => go (mark_the_intent issue i source command s)
  | IFollowup =>
      let s1 := mark_the_intent issue i source command s in
      if uses_review_feedback_followup (IssueRegistry.get (ti_id issue) (reg s1)) then
        match launch_followup_with_pending_reviews issue s1 with
        | (Raise e, s2) => (Raise e, s2)
        | (Ret _, s2) => (Ret Skip, s2)
        end
      else go s1
  | IRebase =>
      let s1 := mark_the_intent issue i source command s in
      let '(ok, s2) := check_rebase_rate_limit issue s1 in
      if ok then
        match process_rebase_intent issue None s2 with
        | (Raise e, s3) => (Raise e, s3)
        | (Ret _, s3) => (Ret Skip, clear_cli issue source s3)
        end
      else (Ret Skip, s2)
  | INone => go s
  end.

(** The checks of a command's author and of the retry limit. *)
Definition act_with_authority (issue : TIssue) (i : Intent) (cmd : option CommandIntent) (source : option string)
    : M St exn verdict := fun s =>
  match cmd with
  | Some c =>
      if wants_run i && negb (is_command_author_eligible issue (ci_author_login c) (reg s))
      then (Ret Skip, reject_unauthorized_command issue c s)
      else if is_intent i IRetry && negb (check_retry_rate_limit issue (reg s)) then (Ret Skip, s)
      else act_on_intent issue i (Some (ci_command c)) source (honour_command issue (ci_command c) s)
  | None =>
      if is_intent i IRetry && negb (check_retry_rate_limit issue (reg s)) then (Ret Skip, s)
      else act_on_intent issue i None source s
  end.

(** The body of the loop up to the launch. *)
Definition consider (issue : TIssue) : M St exn verdict := fun s =>
  let id := ti_id issue in
  if mem id (oc_running (p_orch s)) then (Ret Skip, s)
  else if mem id (oc_claimed (p_orch s)) then (Ret Skip, s)
  else
    let '((i, cmd, source), s1) := resolve_intent issue s in
    if (mem id (oc_completed (p_orch s1)) || mem id (p_pending_review s1)) && negb (wants_run i) then (Ret Skip, s1)
    else act_with_authority issue i cmd source s1.

(** The second loop: the issues launched, in order. *)
Fixpoint dispatch_loop (slots : Z) (issues : list TIssue) (launched : list TIssue) : M St exn (list TIssue) := fun s =>
  match issues with
  | [] => (Ret launched, s)
  | issue :: issues' =>
      if slots <=? Z.of_nat (length launched) then (Ret launched, s)
      else
        match consider issue s with
        | (Raise e, s1) => (Raise e, s1)
        | (Ret Skip, s1) => dispatch_loop slots issues' launched s1
        | (Ret (Launch source), s1) =>
            let s2 := on_orch (fun o => set_claimed (sadd (ti_id issue) (oc_claimed o)) o) s1 in
            match launch issue s2 with
            | (Raise e, s3) => (Raise e, s3)
            | (Ret _, s3) =>
                if mem (ti_id issue) (oc_running (p_orch s3))
                then dispatch_loop slots issues' (launched ++ [issue]) (clear_cli issue source s3)
                else dispatch_loop slots issues' launched s3
            end
        end
  end.

(** [_dispatch_candidates] *)
Definition dispatch_candidates : M St exn (list TIssue) := fun s =>
  match outside (po_candidates T) s with
  | (Raise _, s1) => (Ret [], s1)
  | (Ret issues, s1) =>
      let slots := oc_max_concurrent (p_orch s1) - Z.of_nat (length (oc_running (p_orch s1))) in
      let s2 := match gate with Some _ => begin_poll s1 | None => s1 end in
      let s3 := pre_register issues s2 in
      if pc_sequential cfg && negb (Nat.eqb (length (oc_running (p_orch s3))) 0) then (Ret [], s3)
      else dispatch_loop slots issues [] s3
  end.
End provider.
