(* ===== verification/IssueProviderFacts.v ===== *)
(** * Facts about the poll

    When an issue is launched, how many are, what becomes of follow-up commands,
    and which commands are not bound to the author. *)

From S2P Require Import Prelude Errors Dag StageRunner Intent IssueRegistry RegistryFacts Kernel RetryQueue IssueProvider.

Open Scope string_scope.
Open Scope list_scope.
Open Scope Z_scope.

(** ** What the poll leaves alone in the registry *)

(** The status after a command: an abandoned issue may be pending again. *)
Definition status_kept (a b : IssueStatus) : Prop := b = a \/ (a = ABANDONED /\ b = PENDING).

(** The identity, the work and the feedback of a record. *)
Definition work (r : IssueRecord) : string * SyncInfo * FeedbackInfo := (issue_id r, sync r, feedback r).

(** The record [id] kept its work, the others are as they were. *)
Record kept (id : string) (g g' : Registry) : Prop := mkKept {
  kept_other : forall d, d <> id -> IssueRegistry.get d g' = IssueRegistry.get d g;
  kept_own : match IssueRegistry.get id g with
             | Some r => exists r', IssueRegistry.get id g' = Some r' /\ work r' = work r /\ status_kept (status r) (status r')
             | None => IssueRegistry.get id g' = None
             end;
}.

#[export] Instance kept_preorder id : PreOrder (kept id).
Proof.
  split.
  - intros g. split; [done|]. destruct (IssueRegistry.get id g) as [r|]; [|done]. exists r. split; [done|]. split; [done|by left].
  - intros g1 g2 g3 [H1 O1] [H2 O2]. split; [intros d Hd; by rewrite H2, H1|].
    destruct (IssueRegistry.get id g1) as [r|].
    + destruct O1 as (r2 & E2 & S2 & K2). rewrite E2 in O2. destruct O2 as (r3 & E3 & S3 & K3).
      exists r3. split; [done|]. split; [congruence|]. unfold status_kept in *. intuition congruence.
    + by rewrite O1 in O2.
Qed.

Lemma kept_has_pr id g g' d : kept id g g' -> has_pr d g' = has_pr d g.
Proof.
  intros [Ho Hown]. unfold has_pr. destruct (decide (d = id)) as [->|Hne]; [|by rewrite Ho].
  destruct (IssueRegistry.get id g) as [r|]; [|by rewrite Hown]. destruct Hown as (r' & -> & [= _ -> _] & _). done.
Qed.

Lemma kept_completed id g g' d : kept id g g' -> IssueRegistry.is_completed d g' = IssueRegistry.is_completed d g.
Proof.
  intros [Ho Hown]. unfold IssueRegistry.is_completed. destruct (decide (d = id)) as [->|Hne]; [|by rewrite Ho].
  destruct (IssueRegistry.get id g) as [r|]; [|by rewrite Hown].
  destruct Hown as (r' & -> & _ & [->|[-> ->]]); [done|]. by rewrite !bool_decide_false.
Qed.

Lemma kept_dependencies id g g' issue : kept id g g' -> dependencies_satisfied issue g' = dependencies_satisfied issue g.
Proof.
  intros H. unfold dependencies_satisfied.
  induction (List.filter _ (ti_depends_on issue)) as [|d l IH]; [done|]. simpl.
  by rewrite (kept_completed id g g' d H), (kept_has_pr id g g' d H), IH.
Qed.

(** A change of a record that keeps its work. *)
Definition mild (f : IssueRecord -> IssueRecord) : Prop :=
  forall r, work (f r) = work r /\ status_kept (status r) (status (f r)).

Lemma kept_dset id g r f :
  IssueRegistry.get id g = Some r -> work (f r) = work r -> status_kept (status r) (status (f r)) ->
  kept id g (set_records (dset id (f r) (records g)) g).
Proof.
  intros Hr Hs Hk. split.
  - intros d Hd. unfold IssueRegistry.get. simpl. by rewrite dget_dset_ne.
  - rewrite Hr. exists (f r). unfold IssueRegistry.get. simpl. by rewrite dget_dset_eq.
Qed.

Lemma reg_get_save t g d : IssueRegistry.get d (save t g) = IssueRegistry.get d g.
Proof. unfold IssueRegistry.get. by rewrite save_records. Qed.

Lemma kept_save id t g g' : kept id g g' -> kept id g (save t g').
Proof. intros [Ho Hown]. split; [intros d Hd|]; rewrite reg_get_save; auto. Qed.

Lemma kept_assign id f t g : mild f -> kept id g (assign id f t g).
Proof.
  intros Hf. unfold assign. destruct (IssueRegistry.get id g) as [r|] eqn:E; [|done].
  apply kept_save. destruct (Hf r). by apply kept_dset.
Qed.

Lemma kept_update id f t g : mild f -> kept id g (update t id f g).
Proof.
  intros Hf. unfold update. destruct (dget id (records g)) as [r|] eqn:E; [|done].
  apply kept_save. destruct (Hf r) as [Hs Hk]. by apply (kept_dset id g r (fun r => touch (wall t) (f r))).
Qed.

Lemma mild_cursor c : mild (with_cursor c).
Proof. intros r. split; [done|by left]. Qed.
Lemma mild_last_command c : mild (with_last_command c).
Proof. intros r. split; [done|by left]. Qed.

#[export] Hint Resolve mild_cursor mild_last_command kept_update kept_assign : py.

(** ** What a step of the poll leaves alone *)

Section steps.
Context {W : Type} (T : PollOps W) (cfg : PollConfig).

Local Abbreviation St := (PState W).

(** The sets of the orchestrator are as they were, and the registry kept the
    work of every issue. *)
Record calm (id : string) (s s' : St) : Prop := mkCalm {
  calm_reg : kept id (reg s) (reg s');
  calm_running : oc_running (p_orch s') = oc_running (p_orch s);
  calm_claimed : oc_claimed (p_orch s') = oc_claimed (p_orch s);
  calm_completed : oc_completed (p_orch s') = oc_completed (p_orch s);
  calm_max : oc_max_concurrent (p_orch s') = oc_max_concurrent (p_orch s);
  calm_review : p_pending_review s' = p_pending_review s;
}.

#[export] Instance calm_preorder id : PreOrder (calm id).
Proof.
  split; [done|]. intros s1 s2 s3 [] []. split; [by etrans|congruence..].
Qed.

Lemma calm_outside {A} id (m : M W exn A) s : calm id s (snd (outside m s)).
Proof. unfold outside. by destruct (m (p_world s)). Qed.

Lemma calm_attempt {A} id (a : A) (m : M St exn A) s : calm id s (snd (m s)) -> calm id s (snd (attempt a m s)).
Proof. unfold attempt. by destruct (m s) as [[]]. Qed.

Lemma calm_on_reg id f s : kept id (reg s) (f (ptick T s) (reg s)) -> calm id s (on_reg T f s).
Proof. by split. Qed.

Hint Resolve calm_outside calm_attempt calm_on_reg : py.

Lemma calm_cursor issue (c : option string) s :
  calm (ti_id issue) s
    match str_or c None with Some x => on_reg T (assign (ti_id issue) (with_cursor x)) s | None => s end.
Proof. destruct (str_or c None); [|done]. apply calm_on_reg. auto with py. Qed.

Lemma resolve_intent_world issue s :
  p_orch (snd (resolve_intent T issue s)) = p_orch s
  /\ p_pending_review (snd (resolve_intent T issue s)) = p_pending_review s.
Proof.
  assert (Hout : forall A (a : A) (m : M W exn A) s,
    p_orch (snd (attempt a (outside m) s)) = p_orch s
    /\ p_pending_review (snd (attempt a (outside m) s)) = p_pending_review s).
  { intros A a m s0. unfold attempt, outside. by destruct (m (p_world s0)) as [[]]. }
  assert (Hcmd : forall s, p_orch (snd (resolve_command_intent T issue s)) = p_orch s
    /\ p_pending_review (snd (resolve_command_intent T issue s)) = p_pending_review s).
  { intros s0. unfold resolve_command_intent. destruct (String.eqb _ _); [done|]. destruct (po_command_intent T); [apply Hout|done]. }
  unfold resolve_intent.
  set (l := match ti_labels issue with [] => (INone, s) | labels => _ end).
  assert (Hl : p_orch (snd l) = p_orch s /\ p_pending_review (snd l) = p_pending_review s)
    by (unfold l; destruct (ti_labels issue); [done|apply Hout]).
  destruct l as [label s1]. simpl in Hl. specialize (Hcmd s1).
  destruct (resolve_command_intent T issue s1) as [cmd s2]. simpl in *. intuition congruence.
Qed.

Lemma calm_mark issue i source command s : calm (ti_id issue) s (mark_the_intent T issue i source command s).
Proof. apply calm_on_reg, kept_update. intros r. split; [done|by left]. Qed.

Lemma calm_honour issue c s : calm (ti_id issue) s (honour_command T issue c s).
Proof.
  unfold honour_command, post_command_acknowledgement.
  destruct (attempt None _ s) as [comment s1] eqn:E.
  assert (H1 : calm (ti_id issue) s s1).
  { change s1 with (snd (comment, s1)). rewrite <- E. auto with py. }
  set (s2 := match str_or comment None with Some _ => _ | None => s1 end).
  assert (H2 : calm (ti_id issue) s s2) by (etrans; [exact H1|apply calm_cursor]).
  set (s3 := on_reg T _ s2).
  assert (H3 : calm (ti_id issue) s s3) by (etrans; [exact H2|apply calm_on_reg; auto with py]).
  destruct c; try exact H3. destruct (IssueRegistry.get (ti_id issue) (reg s3)) as [r|] eqn:Er; [|exact H3].
  destruct (bool_decide (status r = ABANDONED)) eqn:Ea; [|exact H3]. apply bool_decide_eq_true in Ea.
  etrans; [exact H3|]. apply calm_on_reg. unfold assign. rewrite Er. apply kept_save.
  apply (kept_dset (ti_id issue) (reg s3) r (fun r => with_intent INone None (set_status PENDING r))); [done|done|].
  by right.
Qed.

Lemma calm_reject issue c s : calm (ti_id issue) s (reject_unauthorized_command T issue c s).
Proof.
  unfold reject_unauthorized_command. destruct (attempt None _ s) as [x s1] eqn:E.
  etrans; [|apply calm_cursor]. change s1 with (snd (x, s1)). rewrite <- E. auto with py.
Qed.

(** The record exists before exactly when it exists after. *)
Lemma kept_is_Some id g g' : kept id g g' -> is_Some (IssueRegistry.get id g) -> is_Some (IssueRegistry.get id g').
Proof. intros [_ Hown] [r Hr]. rewrite Hr in Hown. destruct Hown as (r' & -> & _). by eexists. Qed.

(** A marked follow-up is one that review feedback handles. *)
Lemma marked_followup issue source command s :
  is_Some (IssueRegistry.get (ti_id issue) (reg s)) -> source <> Some "chat" ->
  uses_review_feedback_followup
    (IssueRegistry.get (ti_id issue) (reg (mark_the_intent T issue IFollowup source command s))) = true.
Proof.
  intros [r Hr] Hsrc. unfold mark_the_intent, reg, on_reg, on_orch. simpl. unfold mark_intent. rewrite update_get, decide_True by done.
  change (oc_registry (p_orch s)) with (reg s). rewrite Hr. unfold uses_review_feedback_followup, mark_source. cbn -[str_or].
  unfold is_intent. rewrite (bool_decide_true (IFollowup = IFollowup)) by done. simpl. apply negb_true_iff, bool_decide_eq_false. intros [= E].
  destruct source as [x|]; simpl in E; [|by destruct command].
  destruct (String.eqb x "") eqn:Ex; simpl in E; [by destruct command|]. congruence.
Qed.

Lemma winner_not_chat l c m x : winner l c m x <> Some "chat".
Proof. unfold winner. repeat case_match; done. Qed.
End steps.

(** ** When an issue is launched *)

Section launching.
Context {W : Type} (T : PollOps W) (cfg : PollConfig) (gate : option (TIssue -> M (PState W) exn bool)).

Local Abbreviation St := (PState W).

(** What a launch of an issue took: [i], [cmd] and [source] are its intent, the
    command behind it and the winning source. *)
Record launch_ok (issue : TIssue) (i : Intent) (cmd : option CommandIntent) (s : St) : Prop := mkLaunchOk {
  lo_idle : ti_id issue ∉ oc_running (p_orch s) /\ ti_id issue ∉ oc_claimed (p_orch s);
  lo_intent : i = INone \/ i = IRetry;
  lo_reopened : ti_id issue ∈ oc_completed (p_orch s) \/ ti_id issue ∈ p_pending_review s -> i = IRetry;
  lo_limit : i = IRetry -> forall r, IssueRegistry.get (ti_id issue) (reg s) = Some r ->
    retry_count (intents r) < pc_max_retries_per_issue cfg;
  lo_author : i = IRetry -> forall c, cmd = Some c ->
    is_command_author_eligible cfg issue (ci_author_login c) (reg s) = true;
  lo_handled : i = INone -> has_pr (ti_id issue) (reg s) = false /\
    forall r, IssueRegistry.get (ti_id issue) (reg s) = Some r -> terminal (status r) = true ->
      status r = ABANDONED /\ exists c, cmd = Some c /\ ci_command c = CUnblock;
  lo_dependencies : dependencies_satisfied issue (reg s) = true;
}.

(** The last checks that a launch passed. *)
Lemma launchable_spec issue i source s src s' :
  launchable cfg gate issue i source s = (Launch src, s') ->
  src = source /\ dependencies_satisfied issue (reg s) = true /\ gate_lets_through cfg gate issue s = (true, s')
  /\ (i = INone -> has_pr (ti_id issue) (reg s) = false /\ IssueRegistry.is_terminal (ti_id issue) (reg s) = false).
Proof.
  unfold launchable. destruct (is_intent i INone && _) eqn:E1; [done|].
  destruct (dependencies_satisfied issue (reg s)) eqn:E2; [|done].
  destruct (gate_lets_through cfg gate issue s) as [[] s1] eqn:E3; [|done]. intros [= <- <-].
  split; [done|]. split; [done|]. split; [done|]. intros ->. unfold is_intent in E1.
  rewrite bool_decide_true in E1 by done. simpl in E1. by apply orb_false_iff in E1 as [-> ->].
Qed.

(** The launch decided for an intent: which intents lead to one, and the state
    in which the last checks were made. *)
Lemma act_on_intent_launch issue i command source s src s' :
  is_Some (IssueRegistry.get (ti_id issue) (reg s)) -> source <> Some "chat" ->
  act_on_intent T cfg gate issue i command source s = (Ret (Launch src), s') ->
  (i = INone \/ i = IRetry) /\ exists s1, calm (ti_id issue) s s1 /\ (i = INone -> s1 = s) /\
    launchable cfg gate issue i source s1 = (Launch src, s').
Proof.
  intros Hr Hsrc. unfold act_on_intent. destruct i.
  - destruct (launchable cfg gate issue INone source s) as [v s1] eqn:E. intros [= -> ->]. split; [by left|]. by exists s.
  - set (s1 := mark_the_intent T issue IRetry source command s).
    destruct (launchable cfg gate issue IRetry source s1) as [v s2] eqn:E. intros [= -> ->]. split; [by right|].
    exists s1. split; [apply calm_mark|]. done.
  - rewrite marked_followup by done. destruct (launch_followup_with_pending_reviews _ _ _ _) as [[]]; discriminate.
  - discriminate.
  - destruct (check_rebase_rate_limit _ _ _ _) as [[] s2]; [|discriminate].
    destruct (process_rebase_intent _ _ _ _ _) as [[]]; discriminate.
Qed.

(** The status behind a launch without an intent. *)
Lemma honoured_terminal issue c s :
  IssueRegistry.is_terminal (ti_id issue) (reg (honour_command T issue c s)) = false ->
  forall r, IssueRegistry.get (ti_id issue) (reg s) = Some r -> terminal (status r) = true ->
  status r = ABANDONED /\ c = CUnblock.
Proof.
  unfold honour_command. set (s1 := on_reg T _ (post_command_acknowledgement T issue c s)).
  assert (H1 : forall r, IssueRegistry.get (ti_id issue) (reg s) = Some r ->
                exists r', IssueRegistry.get (ti_id issue) (reg s1) = Some r' /\ status r' = status r).
  { intros r Hr. unfold s1, post_command_acknowledgement. destruct (attempt None _ s) as [comment s0] eqn:E.
    assert (Hr0 : IssueRegistry.get (ti_id issue) (reg s0) = Some r).
    { change s0 with (snd (comment, s0)). rewrite <- E. unfold attempt, outside, reg.
      by destruct (po_create_comment T _ _ _) as [[]]. }
    assert (Hup : forall s r, IssueRegistry.get (ti_id issue) (reg s) = Some r -> exists r',
      IssueRegistry.get (ti_id issue) (reg (on_reg T (fun t => update t (ti_id issue)
        (with_last_command ("/agent " +:+ command_value c))) s)) = Some r' /\ status r' = status r).
    { intros s2 r2 H2. unfold reg, on_reg, on_orch. simpl. rewrite update_get, decide_True by done.
      change (oc_registry (p_orch s2)) with (reg s2). rewrite H2. simpl. by eexists. }
    destruct (str_or comment None) as [x|]; [|by apply Hup].
    destruct (Hup (on_reg T (assign (ti_id issue) (with_cursor x)) s0) (with_cursor x r)) as (r' & Hr' & Hs'); [|by exists r'].
    unfold reg, on_reg, on_orch, assign. simpl. change (oc_registry (p_orch s0)) with (reg s0). rewrite Hr0, reg_get_save.
    unfold IssueRegistry.get. simpl. by rewrite dget_dset_eq. }
  intros Ht r Hr Hterm. destruct (H1 r Hr) as (r' & Hr' & Hst).
  assert (Hsame : c <> CUnblock \/ status r <> ABANDONED -> False).
  { intros Hc. revert Ht. rewrite Hr'. destruct c; try (unfold IssueRegistry.is_terminal; rewrite Hr', Hst; congruence).
    destruct Hc as [|Hc]; [done|]. rewrite bool_decide_false by congruence.
    unfold IssueRegistry.is_terminal. rewrite Hr', Hst. congruence. }
  destruct (decide (c = CUnblock)) as [->|]; [|exfalso; auto]. destruct (decide (status r = ABANDONED)); [done|exfalso; auto].
Qed.

Lemma act_launch issue i cmd source s src s' :
  is_Some (IssueRegistry.get (ti_id issue) (reg s)) -> source <> Some "chat" ->
  ti_id issue ∉ oc_running (p_orch s) -> ti_id issue ∉ oc_claimed (p_orch s) ->
  (mem (ti_id issue) (oc_completed (p_orch s)) || mem (ti_id issue) (p_pending_review s)) && negb (wants_run i) = false ->
  act_with_authority T cfg gate issue i cmd source s = (Ret (Launch src), s') ->
  launch_ok issue i cmd s /\ src = source.
Proof.
  intros Hr Hsrc Hrun Hcl Hdone Hact.
  set (s0 := match cmd with Some c => honour_command T issue (ci_command c) s | None => s end).
  assert (Hcalm : calm (ti_id issue) s s0) by (unfold s0; destruct cmd; [apply calm_honour|done]).
  assert (Hpass : (i = IRetry -> check_retry_rate_limit cfg issue (reg s) = true)
    /\ (forall c, cmd = Some c -> wants_run i = true -> is_command_author_eligible cfg issue (ci_author_login c) (reg s) = true)
    /\ act_on_intent T cfg gate issue i (option_map ci_command cmd) source s0 = (Ret (Launch src), s')).
  { unfold act_with_authority in Hact. destruct cmd as [c|].
    - destruct (wants_run i && _) eqn:E1; [done|]. destruct (is_intent i IRetry && _) eqn:E2; [done|].
      split; [|split; [|done]].
      + intros ->. unfold is_intent in E2. rewrite bool_decide_true in E2 by done. simpl in E2. by apply negb_false_iff in E2.
      + intros c' [= <-] Hw. rewrite Hw in E1. simpl in E1. by apply negb_false_iff in E1.
    - destruct (is_intent i IRetry && _) eqn:E2; [done|]. split; [|split; [done|done]].
      intros ->. unfold is_intent in E2. rewrite bool_decide_true in E2 by done. simpl in E2. by apply negb_false_iff in E2. }
  destruct Hpass as (Hlim & Hauth & Hgo).
  assert (Hr0 : is_Some (IssueRegistry.get (ti_id issue) (reg s0))) by (eapply kept_is_Some; [apply Hcalm|done]).
  destruct (act_on_intent_launch issue i _ source s0 src s' Hr0 Hsrc Hgo) as (Hi & s1 & Hc1 & Hsame & Hl).
  apply launchable_spec in Hl as (-> & Hdep & _ & Hnone).
  assert (Hk : kept (ti_id issue) (reg s) (reg s1)) by (etrans; [apply Hcalm|apply Hc1]).
  split; [|done]. split.
  - done.
  - done.
  - intros Hm. destruct Hi as [->|]; [exfalso|done]. revert Hdone. rewrite andb_true_r.
    destruct Hm as [Hm|Hm]; rewrite (proj2 (mem_true _ _) Hm), ?orb_true_r; discriminate.
  - intros Ei r Hr'. specialize (Hlim Ei). unfold check_retry_rate_limit in Hlim. rewrite Hr' in Hlim. by apply Z.ltb_lt.
  - intros -> c Hc. by apply Hauth.
  - intros Ei. destruct (Hnone Ei) as [Hpr Hterm]. rewrite (Hsame Ei) in *. split.
    + rewrite <- Hpr. symmetry. by apply (kept_has_pr (ti_id issue)), Hcalm.
    + intros r Hr' Ht. unfold s0 in Hterm. destruct cmd as [c|].
      * destruct (honoured_terminal issue (ci_command c) s Hterm r Hr' Ht). eauto.
      * unfold IssueRegistry.is_terminal in Hterm. rewrite Hr' in Hterm. congruence.
  - rewrite <- Hdep. symmetry. by apply (kept_dependencies (ti_id issue)).
Qed.
End launching.

(** The whole decision to launch. *)
Lemma consider_launch {W} (T : PollOps W) (cfg : PollConfig)
    (gate : option (TIssue -> M (PState W) exn bool)) (issue : TIssue) (s s' : PState W) (src : option string) :
  is_Some (IssueRegistry.get (ti_id issue) (reg s)) ->
  consider T cfg gate issue s = (Ret (Launch src), s') ->
  exists i cmd s1, resolve_intent T issue s = ((i, cmd, src), s1) /\ launch_ok cfg issue i cmd s.
Proof.
  intros Hr. unfold consider. destruct (mem _ _) eqn:Erun; [done|]. destruct (mem _ (oc_claimed _)) eqn:Ecl; [done|].
  pose proof (resolve_intent_world T issue s) as [Ho Hp].
  destruct (resolve_intent T issue s) as [[[i cmd] source] s1] eqn:E. simpl in Ho, Hp.
  assert (Hreg : reg s1 = reg s) by (unfold reg; by rewrite Ho).
  assert (Hsrc : source <> Some "chat").
  { unfold resolve_intent in E. destruct (match ti_labels issue with [] => _ | _ => _ end) as [l sl].
    destruct (resolve_command_intent T issue sl) as [c sc]. injection E as _ _ <- _. apply winner_not_chat. }
  rewrite Ho, Hp. destruct (_ && negb (wants_run i)) eqn:Ed; [done|]. intros Hact.
  apply mem_false in Erun, Ecl. apply act_launch in Hact as [Hok ->].
  - exists i, cmd, s1. split; [done|]. destruct Hok. rewrite ?Ho, ?Hp, ?Hreg in *. by constructor.
  - by rewrite Hreg.
  - done.
  - by rewrite Ho.
  - by rewrite Ho.
  - by rewrite Ho, Hp.
Qed.

(** ** Theorems *)

(** C16: an issue is launched only when it may be.  A poll that decides to launch
    a registered issue found it neither running nor claimed, with all its
    dependencies done; its intent is none or a retry.  Work that was completed
    or is under review is launched only for a retry, which is within the limit
    and, when a comment asked for it, written by someone who may; without an
    intent the issue has no pull request and was not handled before, unless a
    command has just lifted a block. *)
Theorem launched_only_when_eligible {W} (T : PollOps W) (cfg : PollConfig)
    (gate : option (TIssue -> M (PState W) exn bool)) (issue : TIssue) (s s' : PState W) (src : option string) :
  is_Some (IssueRegistry.get (ti_id issue) (reg s)) ->
  consider T cfg gate issue s = (Ret (Launch src), s') ->
  exists i cmd s1, resolve_intent T issue s = ((i, cmd, src), s1) /\ launch_ok cfg issue i cmd s.
Proof. apply consider_launch. Qed.

(** ** Slots *)

Section slots.
Context {W : Type} (T : PollOps W) (cfg : PollConfig) (gate : option (TIssue -> M (PState W) exn bool)).
Context (begin_poll : PState W -> PState W) (launch : TIssue -> M (PState W) exn unit).

Local Abbreviation St := (PState W).

(** Neither the running issues nor their limit changed. *)
Definition same_slots (s s' : St) : Prop :=
  oc_running (p_orch s') = oc_running (p_orch s) /\ oc_max_concurrent (p_orch s') = oc_max_concurrent (p_orch s).

#[export] Instance same_slots_preorder : PreOrder same_slots.
Proof. split; [done|]. intros s1 s2 s3 [] []. split; congruence. Qed.

(** The gate and [_launch_issue] as the slots see them. *)
Record slot_laws : Prop := mkSlotLaws {
  sl_gate : forall g i s, gate = Some g -> same_slots s (snd (g i s));
  sl_begin : forall s, same_slots s (begin_poll s);
  sl_launch : forall i s,
    oc_max_concurrent (p_orch (snd (launch i s))) = oc_max_concurrent (p_orch s) /\
    (oc_running (p_orch (snd (launch i s))) = oc_running (p_orch s)
     \/ oc_running (p_orch (snd (launch i s))) = oc_running (p_orch s) ++ [ti_id i]);
}.
Context (L : slot_laws).

Lemma slots_outside {A} (m : M W exn A) s : same_slots s (snd (outside m s)).
Proof. unfold outside. by destruct (m (p_world s)). Qed.

Lemma slots_attempt {A} (a : A) (m : M St exn A) s : same_slots s (snd (m s)) -> same_slots s (snd (attempt a m s)).
Proof. unfold attempt. by destruct (m s) as [[]]. Qed.

Lemma slots_on_reg f s : same_slots s (on_reg T f s).
Proof. done. Qed.

Lemma slots_reply pr l s : same_slots s (reply_all T pr l s).
Proof.
  revert s. induction l as [|f l IH]; intros s; [done|]. simpl. etrans; [|apply IH]. apply slots_attempt, slots_outside.
Qed.

Lemma slots_followup issue s : same_slots s (snd (launch_followup_with_pending_reviews T cfg issue s)).
Proof.
  unfold launch_followup_with_pending_reviews. destruct (IssueRegistry.get _ _) as [r|]; [|done].
  destruct (str_or _ _) as [pr|]; [|done].
  pose proof (slots_outside (po_feedback T pr (pr_url (sync r)) (issue_id r)) s) as H1.
  destruct (outside _ s) as [[l|e] s1]; [|done]. simpl in H1. cbv zeta.
  set (s2 := match List.filter _ l with [] => s1 | _ => _ end).
  assert (H2 : same_slots s s2).
  { unfold s2. destruct (List.filter _ l); [done|]. etrans; [exact H1|]. etrans; [apply slots_reply|apply slots_on_reg]. }
  clearbody s2. match goal with |- same_slots s (snd (match ?x with _ => _ end)) => destruct x end; exact H2.
Qed.

Lemma slots_rebase issue force s : same_slots s (snd (process_rebase_intent T cfg issue force s)).
Proof.
  unfold process_rebase_intent. destruct (IssueRegistry.get _ _) as [r|]; [|done].
  destruct (str_or _ _) as [path|]; [|done]. destruct (str_or _ _) as [branch|]; [|done]. cbv zeta.
  match goal with |- context [outside ?m s] => pose proof (slots_outside m s) as H1; destruct (outside m s) as [[res|e] s1] end; [|done].
  simpl in H1 |- *. repeat case_match; exact H1.
Qed.

Lemma slots_gate issue s : same_slots s (snd (gate_lets_through cfg gate issue s)).
Proof.
  unfold gate_lets_through. destruct gate as [g|] eqn:E; [|done]. apply slots_attempt. by apply (sl_gate L).
Qed.

Lemma slots_launchable issue i source s : same_slots s (snd (launchable cfg gate issue i source s)).
Proof.
  unfold launchable. destruct (_ && _); [done|]. destruct (dependencies_satisfied _ _); [|done].
  pose proof (slots_gate issue s) as H. by destruct (gate_lets_through cfg gate issue s).
Qed.

Lemma slots_sync id state s : same_slots s (snd (sync_tracker_issue_state T id state s)).
Proof.
  unfold sync_tracker_issue_state. destruct (String.eqb id ""); [done|].
  pose proof (slots_outside (po_update_state T id state) s) as H. by destruct (outside _ s) as [[]].
Qed.

Lemma slots_abandon issue i source command s : same_slots s (abandon T issue i source command s).
Proof.
  unfold abandon. cbv zeta. set (s1 := match IssueRegistry.get _ _ with Some _ => s | None => _ end).
  assert (H1 : same_slots s s1) by (unfold s1; by destruct (IssueRegistry.get _ _)).
  set (s3 := on_reg T _ (mark_the_intent T issue i source command s1)).
  assert (H3 : same_slots s s3) by exact H1.
  pose proof (slots_sync (ti_id issue) "abandoned" s3) as H4.
  destruct (sync_tracker_issue_state T (ti_id issue) "abandoned" s3) as [b s4]. simpl in H4.
  etrans; [exact H3|]. exact H4.
Qed.

Lemma slots_act issue i command source s : same_slots s (snd (act_on_intent T cfg gate issue i command source s)).
Proof.
  assert (Hgo : forall s0, same_slots s s0 ->
    same_slots s (snd (let '(v, s1) := launchable cfg gate issue i source s0 in (Ret (E:=exn) v, s1)))).
  { intros s0 H0. pose proof (slots_launchable issue i source s0) as H. destruct (launchable _ _ _ _ _ s0) as [v s1].
    simpl in *. by etrans. }
  unfold act_on_intent. destruct i.
  - by apply Hgo.
  - by apply Hgo.
  - cbv zeta. set (s1 := mark_the_intent T issue IFollowup source command s).
    destruct (uses_review_feedback_followup _); [|by apply Hgo].
    pose proof (slots_followup issue s1) as H. destruct (launch_followup_with_pending_reviews T cfg issue s1) as [[]]; exact H.
  - apply slots_abandon.
  - cbv zeta. destruct (check_rebase_rate_limit T cfg issue _) as [ok s2] eqn:E.
    assert (H2 : same_slots s s2).
    { revert E. unfold check_rebase_rate_limit. destruct (_ <? _); by intros [= <- <-]. }
    destruct ok; [|exact H2]. pose proof (slots_rebase issue None s2) as H3.
    destruct (process_rebase_intent T cfg issue None s2) as [[res|e] s3]; simpl in H3; [|by etrans].
    unfold clear_cli. simpl. destruct (bool_decide _); by etrans.
Qed.

Lemma calm_slots id s s' : calm id s s' -> same_slots s s'.
Proof. by intros []. Qed.

Lemma slots_consider issue s : same_slots s (snd (consider T cfg gate issue s)).
Proof.
  unfold consider. destruct (mem _ _); [done|]. destruct (mem _ _); [done|].
  pose proof (resolve_intent_world T issue s) as [Ho _].
  destruct (resolve_intent T issue s) as [[[i cmd] source] s1]. simpl in Ho.
  assert (H1 : same_slots s s1) by (unfold same_slots; by rewrite Ho).
  destruct (_ && negb _); [done|]. etrans; [exact H1|]. unfold act_with_authority. destruct cmd as [c|].
  - destruct (_ && _); [apply (calm_slots (ti_id issue)), calm_reject|]. destruct (_ && _); [done|].
    etrans; [|apply slots_act]. apply (calm_slots (ti_id issue)), calm_honour.
  - destruct (_ && _); [done|apply slots_act].
Qed.

Lemma slots_pre_register issues s : same_slots s (pre_register T cfg issues s).
Proof.
  revert s. induction issues as [|i issues IH]; intros s; [done|]. simpl. etrans; [|apply IH].
  unfold pre_register_one. destruct (IssueRegistry.get _ _); [|done]. by repeat case_match.
Qed.

(** How full the slots are once some issues were launched. *)
Definition room (slots : Z) (launched : list TIssue) (s : St) : Prop :=
  Z.of_nat (length (oc_running (p_orch s))) <= oc_max_concurrent (p_orch s) - slots + Z.of_nat (length launched)
  /\ Z.of_nat (length launched) <= Z.max 0 slots.

Lemma dispatch_loop_room slots issues launched s :
  room slots launched s ->
  let r := dispatch_loop T cfg gate launch slots issues launched s in
  (exists l, room slots l (snd r)) /\ match fst r with Ret l => room slots l (snd r) /\ exists k, l = launched ++ k /\ sublist k issues | Raise _ => True end.
Proof.
  revert launched s. induction issues as [|issue issues IH]; intros launched s Hr; cbn [dispatch_loop].
  { split; [by exists launched|]. split; [done|]. exists []. by rewrite app_nil_r. }
  destruct (Z.leb_spec slots (Z.of_nat (length launched))) as [Hle|Hlt].
  { split; [by exists launched|]. split; [done|]. exists []. rewrite app_nil_r. split; [done|apply sublist_nil_l]. }
  pose proof (slots_consider issue s) as Hc. destruct (consider T cfg gate issue s) as [[[|src]|e] s1]; simpl in Hc.
  3: { split; [|done]. exists launched. destruct Hc as [H1 H2]. unfold room in *. simpl. by rewrite H1, H2. }
  - destruct (IH launched s1) as [Ha Hb]; [destruct Hc as [H1 H2]; unfold room in *; by rewrite H1, H2|]. split; [done|].
    destruct (fst _); [|done]. destruct Hb as (Hb & k & -> & Hk). split; [done|]. exists k. split; [done|]. by apply sublist_cons.
  - set (s2 := on_orch _ s1). destruct (sl_launch L issue s2) as [Hm Hrun].
    assert (Hs2 : same_slots s s2) by exact Hc. destruct Hs2 as [H1 H2]. destruct Hr as [Hr1 Hr2].
    destruct (launch issue s2) as [res s3]. cbn [snd] in Hm, Hrun.
    assert (Hone : room slots (launched ++ [issue]) s3).
    { unfold room. rewrite length_app, Hm, H2. simpl. destruct Hrun as [->| ->]; rewrite H1, ?length_app; simpl; lia. }
    destruct res as [[]|e]; [|split; [by eexists|done]].
    destruct (mem (ti_id issue) (oc_running (p_orch s3))) eqn:Ein.
    + destruct (IH (launched ++ [issue]) (clear_cli T issue src s3)) as [Ha Hb].
      { unfold clear_cli. by destruct (bool_decide _). }
      split; [done|]. destruct (fst _); [|done]. destruct Hb as (Hb & k & -> & Hk). split; [done|].
      exists (issue :: k). rewrite <- app_assoc. split; [done|]. by apply sublist_skip.
    + destruct (IH launched s3) as [Ha Hb].
      { unfold room. destruct Hrun as [->|Hrun]; [rewrite Hm, H1, H2; lia|].
        apply mem_false in Ein. destruct Ein. rewrite Hrun. set_solver. }
      split; [done|]. destruct (fst _); [|done]. destruct Hb as (Hb & k & -> & Hk). split; [done|].
      exists k. split; [done|]. by apply sublist_cons.
Qed.
End slots.

(** A poll never exceeds the limit of concurrent agents.  Whatever the
    tracker answers and whatever the gate says, when no more issues run than the
    limit allows before a poll, no more run after it, also when the poll raises;
    the issues launched are candidates of the tracker, each at most as often as
    it is listed, in its order, and no more than there were free slots.  The
    gate leaves the slots alone and a launch adds at most its own issue. *)
Theorem poll_within_limit {W} (T : PollOps W) (cfg : PollConfig) (gate : option (TIssue -> M (PState W) exn bool))
    (begin_poll : PState W -> PState W) (launch : TIssue -> M (PState W) exn unit) (s : PState W) :
  slot_laws gate begin_poll launch ->
  Z.of_nat (length (oc_running (p_orch s))) <= oc_max_concurrent (p_orch s) ->
  let r := dispatch_candidates T cfg gate begin_poll launch s in
  Z.of_nat (length (oc_running (p_orch (snd r)))) <= oc_max_concurrent (p_orch (snd r)) /\
  forall l, fst r = Ret l ->
    Z.of_nat (length l) <= oc_max_concurrent (p_orch s) - Z.of_nat (length (oc_running (p_orch s))) /\
    forall issues w, po_candidates T (p_world s) = (Ret issues, w) -> sublist l issues.
Proof.
  intros L Hs. unfold dispatch_candidates, outside.
  destruct (po_candidates T (p_world s)) as [[issues|e] w]; cbv zeta.
  2: { cbn [fst snd p_orch]. split; [lia|]. intros l [= <-]. split; [simpl; lia|]. done. }
  set (s1 := mkP w (p_orch s) (p_pending_review s)).
  set (s3 := pre_register T cfg issues _). set (slots := _ - _).
  assert (H3 : same_slots s1 s3).
  { etrans; [|apply slots_pre_register]. destruct gate; [apply (sl_begin _ _ _ L)|done]. }
  destruct H3 as [Hrun Hmax]. simpl in Hrun, Hmax.
  assert (Hsl : slots = oc_max_concurrent (p_orch s) - Z.of_nat (length (oc_running (p_orch s)))) by done.
  destruct (pc_sequential cfg && _).
  { cbn [fst snd]. rewrite Hrun, Hmax. split; [lia|]. intros l [= <-]. split; [simpl; lia|]. intros ? ? _. apply sublist_nil_l. }
  destruct (dispatch_loop_room T cfg gate begin_poll launch L slots issues [] s3) as [[l0 [Ha1 Ha2]] Hb].
  { unfold room. rewrite Hrun, Hmax. simpl. lia. }
  destruct (dispatch_loop _ _ _ _ _ _ _ _) as [res s4]. simpl in *. split; [lia|].
  intros l ->. destruct Hb as ([_ Hb] & k & -> & Hk). split; [lia|]. by intros ? ? [= <- <-].
Qed.

(** ** Follow-up commands *)

Lemma kept_abandoned id g g' r fid m :
  kept id g g' -> IssueRegistry.get id g = Some r -> feedback_abandoned id fid m g' = feedback_abandoned id fid m g.
Proof.
  intros [_ Hown] Hr. rewrite Hr in Hown. destruct Hown as (r' & Hr' & [= _ _ Hf] & _).
  unfold feedback_abandoned. by rewrite Hr, Hr', Hf.
Qed.

(** A follow-up with feedback that is still to be handled. *)
Lemma followup_raises {W} (T : PollOps W) cfg issue r pr l f (s : PState W) :
  IssueRegistry.get (ti_id issue) (reg s) = Some r -> issue_id r = ti_id issue ->
  str_or (pr_number (sync r)) None = Some pr ->
  (forall w, fst (po_feedback T pr (pr_url (sync r)) (ti_id issue) w) = Ret l) ->
  f ∈ l -> fb_id f ∉ processed_feedback_ids (feedback r) ->
  feedback_abandoned (ti_id issue) (fb_id f) (pc_max_failures cfg) (reg s) = false ->
  fst (launch_followup_with_pending_reviews T cfg issue s) = Raise missing_prompt.
Proof.
  intros Hr Hid Hpr Hl Hf Hnew Hkeep. unfold launch_followup_with_pending_reviews. rewrite Hr, Hpr, Hid. unfold outside.
  specialize (Hl (p_world s)). destruct (po_feedback T pr _ _ (p_world s)) as [res w]. simpl in Hl. subst res. cbv zeta.
  match goal with |- context [match List.filter ?P l with [] => (Ret false, _) | _ => _ end] =>
    assert (Hin : f ∈ List.filter P l) end.
  { apply list_elem_of_In, filter_In. split; [by apply list_elem_of_In|]. apply andb_true_iff. split.
    - by apply negb_true_iff, mem_false.
    - by apply negb_true_iff. }
  match goal with |- context [match List.filter ?P l with [] => (Ret false, _) | _ => _ end] => destruct (List.filter P l) end.
  - by apply not_elem_of_nil in Hin.
  - done.
Qed.

(** A follow-up with something to do stops the poll.  When an issue with a
    pull request asks for a follow-up, by a label, by the command line or by a
    comment of someone who may, and its review feedback has an entry that is
    neither processed nor given up, then handling it raises [missing_prompt],
    and the poll ends with that error, whatever issues are still to come: none
    of them is considered. *)
Theorem followup_command_raises {W} (T : PollOps W) (cfg : PollConfig)
    (gate : option (TIssue -> M (PState W) exn bool)) (launch : TIssue -> M (PState W) exn unit)
    (issue : TIssue) (rest launched : list TIssue) (slots : Z) (s : PState W)
    (r : IssueRecord) (pr : string) (l : list Feedback) (f : Feedback) cmd src s1 :
  Z.of_nat (length launched) < slots ->
  ti_id issue ∉ oc_running (p_orch s) -> ti_id issue ∉ oc_claimed (p_orch s) ->
  IssueRegistry.get (ti_id issue) (reg s) = Some r -> issue_id r = ti_id issue ->
  str_or (pr_number (sync r)) None = Some pr ->
  resolve_intent T issue s = ((IFollowup, cmd, src), s1) ->
  (forall c, cmd = Some c -> is_command_author_eligible cfg issue (ci_author_login c) (reg s) = true) ->
  (forall w, fst (po_feedback T pr (pr_url (sync r)) (ti_id issue) w) = Ret l) ->
  f ∈ l -> fb_id f ∉ processed_feedback_ids (feedback r) ->
  feedback_abandoned (ti_id issue) (fb_id f) (pc_max_failures cfg) (reg s) = false ->
  fst (dispatch_loop T cfg gate launch slots (issue :: rest) launched s) = Raise missing_prompt.
Proof.
  intros Hslot Hrun Hcl Hr Hid Hpr Hres Hauth Hl Hf Hnew Hkeep.
  cbn [dispatch_loop]. rewrite (proj2 (Z.leb_gt _ _) Hslot). unfold consider.
  rewrite (proj2 (mem_false _ _) Hrun), (proj2 (mem_false _ _) Hcl), Hres.
  pose proof (resolve_intent_world T issue s) as [Ho _]. rewrite Hres in Ho. simpl in Ho.
  assert (Hreg : reg s1 = reg s) by (unfold reg; by rewrite Ho).
  assert (Hsrc : src <> Some "chat").
  { revert Hres. unfold resolve_intent. destruct (match ti_labels issue with [] => _ | _ => _ end) as [? ?].
    destruct (resolve_command_intent T issue _) as [? ?]. intros [= _ _ <- _]. apply winner_not_chat. }
  change (wants_run IFollowup) with true. rewrite andb_false_r.
  assert (Hact : forall s2 command, calm (ti_id issue) s1 s2 ->
    fst (act_on_intent T cfg gate issue IFollowup command src s2) = Raise missing_prompt).
  { intros s2 command Hc. pose proof (calm_mark T issue IFollowup src command s2) as Hm.
    unfold act_on_intent. cbv zeta. set (s3 := mark_the_intent T issue IFollowup src command s2) in *.
    assert (Hk : kept (ti_id issue) (reg s) (reg s3)) by (rewrite <- Hreg; etrans; [apply Hc|apply Hm]).
    unfold s3 at 1. rewrite marked_followup; [| |done].
    2: { eapply kept_is_Some; [apply Hc|]. rewrite Hreg, Hr. by eexists. }
    pose proof (kept_own _ _ _ Hk) as Hown. rewrite Hr in Hown. destruct Hown as (r' & Hr' & [= Hi Hsy Hfb] & _).
    assert (Hraise : fst (launch_followup_with_pending_reviews T cfg issue s3) = Raise missing_prompt).
    { apply (followup_raises T cfg issue r' pr l f); rewrite ?Hsy, ?Hfb; [done|congruence|done|apply Hl|done|done|].
      by rewrite (kept_abandoned (ti_id issue) (reg s) (reg s3) r). }
    destruct (launch_followup_with_pending_reviews T cfg issue s3) as [[|e] s4]; simpl in *; congruence. }
  assert (Hall : fst (act_with_authority T cfg gate issue IFollowup cmd src s1) = Raise missing_prompt).
  { unfold act_with_authority. change (wants_run IFollowup) with true. change (is_intent IFollowup IRetry) with false.
    destruct cmd as [c|]; cbn [andb]; [|by apply Hact].
    rewrite Hreg, (Hauth c) by done. cbn [negb]. apply Hact, calm_honour. }
  destruct (act_with_authority _ _ _ _ _ _ _ s1) as [[v|e] s5]; simpl in Hall |- *; congruence.
Qed.

(** ** A concrete poll *)

Definition poll_issue (id : string) (labels : list string) : TIssue := mkTIssue id "" None None None labels [].

Definition poll_cfg : PollConfig := mkPollConfig None false false 3 3 false true 2.

Definition review_comment : Feedback := mkFb "c9" "comment" (Some "please rename") (Some "ann") None None None None.

(** Three open issues, of which the second one asks for a follow-up by a label. *)
Definition poll_ops : PollOps unit :=
  mkPollOps (fun w => (Ret [poll_issue "1" []; poll_issue "7" ["agent:follow-up"]; poll_issue "8" []], w))
    (fun labels w => (Ret (if mem "agent:follow-up" labels then IFollowup else INone), w))
    (Some (fun _ _ w => (Ret None, w))) (fun _ _ w => (Ret (Some "k1"), w)) (fun _ _ w => (Ret tt, w))
    (fun _ _ _ w => (Ret [review_comment], w)) (fun _ _ w => (Ret tt, w))
    (fun _ _ _ _ w => (Ret (mkRebase false [] true None), w)) (fun _ => tick 20) (fun _ => "conv").

(** A gate that lets everything through, and a launch that succeeds. *)
Definition poll_gate : option (TIssue -> M (PState unit) exn bool) := Some (fun _ s => (Ret true, s)).
Definition poll_launch (i : TIssue) : M (PState unit) exn unit := fun s =>
  (Ret tt, on_orch (fun o => mkOrch (oc_max_concurrent o) (oc_running o ++ [ti_id i]) (oc_completed o) (oc_claimed o)
                      (oc_retry_queue o) (oc_retry_attempts o) (oc_registry o)) s).

Definition poll_state (slots : Z) : PState unit := mkP tt (mkOrch slots ["9"] [] [] [] [] sample_registry) [].

Lemma poll_slot_laws : slot_laws poll_gate id poll_launch.
Proof.
  split; [by intros g i s [= <-]|done|]. intros i s. split; [done|]. by right.
Qed.

Lemma launched_only_when_eligible_witness :
  exists i cmd s1, resolve_intent poll_ops (poll_issue "1" []) (pre_register poll_ops poll_cfg [poll_issue "1" []] (poll_state 2))
    = ((i, cmd, None), s1) /\
  launch_ok poll_cfg (poll_issue "1" []) i cmd (pre_register poll_ops poll_cfg [poll_issue "1" []] (poll_state 2)).
Proof.
  eapply (launched_only_when_eligible poll_ops poll_cfg poll_gate).
  - eexists. vm_compute. reflexivity.
  - vm_compute. reflexivity.
Defined.

Lemma poll_within_limit_witness :
  let r := dispatch_candidates poll_ops poll_cfg poll_gate id poll_launch (poll_state 2) in
  oc_running (p_orch (snd r)) = ["9"; "1"] /\
  Z.of_nat (length (oc_running (p_orch (snd r)))) <= oc_max_concurrent (p_orch (snd r)).
Proof.
  assert (H : Z.of_nat (length (oc_running (p_orch (poll_state 2)))) <= oc_max_concurrent (p_orch (poll_state 2)))
    by (apply Z.leb_le; reflexivity).
  pose proof (poll_within_limit poll_ops poll_cfg poll_gate id poll_launch (poll_state 2) poll_slot_laws H) as [Hle _].
  split; [vm_compute; reflexivity|exact Hle].
Defined.

Lemma followup_command_raises_witness :
  fst (dispatch_loop poll_ops poll_cfg poll_gate poll_launch 5
         [poll_issue "7" ["agent:follow-up"]; poll_issue "8" []] [] (poll_state 5)) = Raise missing_prompt.
Proof.
  eapply (followup_command_raises poll_ops poll_cfg poll_gate poll_launch (poll_issue "7" ["agent:follow-up"])
            [poll_issue "8" []] [] 5 (poll_state 5) _ "12" [review_comment] review_comment None (Some "label")).
  - reflexivity.
  - apply mem_false. reflexivity.
  - apply mem_false. reflexivity.
  - vm_compute. reflexivity.
  - reflexivity.
  - vm_compute. reflexivity.
  - vm_compute. reflexivity.
  - intros c [=].
  - intros w. reflexivity.
  - apply list_elem_of_singleton. reflexivity.
  - apply mem_false. reflexivity.
  - reflexivity.
Defined.
