(* ===== verification/Control.v ===== *)
(** * Operator control commands
    ([src/orchestratord/orchestrator.py],
    [src/orchestratord/applications/issue_pr/commands.py])

    The control files that the command line writes, the commands that come from
    chat, and the handlers of both: retry, follow-up, rebase, review approval and
    rejection, pause, resume, stop and takeover.  They act on the registry, the
    clarification queue, the orchestrator's sets and the running sessions.
    Asynchronous handlers that chat starts are tasks, run later by [run_task].
    Connecting to the chat gateway is a parameter; notifications and the set of
    failed issues, which nothing reads, are left out. *)

From stdpp Require Import sorting.
From S2P Require Import Prelude Errors Dag StageRunner Regex ImInbound ClarQueue Intent IssueRegistry RegistryFacts Kernel RetryQueue IssueProvider.

Open Scope string_scope.
Open Scope list_scope.
Open Scope Z_scope.

(** ** Text *)

Definition split_lines_lf : string -> list string := split_char (Ascii.ascii_of_N 10).

(** [s.partition("=")]: what precedes the sign, and what follows when it occurs. *)
Fixpoint partition_eq (s : string) : string * option string :=
  match s with
  | EmptyString => ("", None)
  | String x s' =>
      if Ascii.eqb x (Ascii.ascii_of_N 61) then ("", Some s')
      else let '(a, b) := partition_eq s' in (String x a, b)
  end.

(** The flags among the tokens of a chat command. *)
Fixpoint flag_loop (tokens : list string) (flags : dict string string) : dict string string :=
  match tokens with
  | [] => flags
  | token :: rest =>
      if String.prefix "--" token && (2 <? String.length token)%nat then
        match partition_eq token with
        | (name, Some value) => flag_loop rest (dset (drop_str 2 name) value flags)
        | (name, None) =>
            match rest with
            | value :: rest' =>
                if String.prefix "--" value then flag_loop rest (dset (drop_str 2 name) "" flags)
                else flag_loop rest' (dset (drop_str 2 name) value flags)
            | [] => dset (drop_str 2 name) "" flags
            end
        end
      else flag_loop rest flags
  end.

(** [_im_command_flags] *)
Definition im_command_flags (payload : string) : dict string string :=
  let tokens := match shlex_split (strip payload) with
                | Some l => l
                | None => py_split payload
                end in
  flag_loop tokens [].

(** ** State *)

(** What the commands read and write of a running session. *)
Record CtlSession := mkCtl {
  cs_session : Session;
  cs_paused : bool;
  cs_pause_reason : string;
  cs_end_summary : string;
  cs_resume_event : bool;
  cs_cancelled : bool;
}.

(** A task that a chat command starts. *)
Inductive ctl_task :=
| TSync (id state : string)
| TFollowup (id text : string)
| TRebase (id extra : string)
| TApprove (id comment : string)
| TReviewRetry (id feedback : string)
| TReviewFollowup (id ids : string).

(** A control file, [None] when it cannot be read. *)
Definition CtlFile : Type := option string.

Record CState (W : Type) := mkC {
  c_poll : PState W;
  c_queue : Queue;
  c_sessions : dict string CtlSession;
  c_files : dict string CtlFile;
  c_tasks : list ctl_task;
  c_hints : list (string * string);
}.
Arguments mkC {W}.
Arguments c_poll {W}.
Arguments c_queue {W}.
Arguments c_sessions {W}.
Arguments c_files {W}.
Arguments c_tasks {W}.
Arguments c_hints {W}.

Record ControlOps (W : Type) := mkControlOps {
  co_issue_state : string -> M W exn (option TIssue);
  co_clock : W -> Clock;
  co_gateway : string -> string -> M W exn unit;
  co_unlink : string -> M W exn unit;
  co_workspace_root : string;
}.
Arguments mkControlOps {W}.
Arguments co_issue_state {W}.
Arguments co_clock {W}.
Arguments co_gateway {W}.
Arguments co_unlink {W}.
Arguments co_workspace_root {W}.

(** [NameError]: [commands.py] imports neither [Issue] nor [PullRequestRef]. *)
Definition name_error (name : string) : exn :=
  mkExn OtherException [Lit "NameError: name '"; Lit name; Lit "' is not defined"] None.

Section control.
Context {W : Type} (T : PollOps W) (C : ControlOps W) (cfg : PollConfig).

Local Abbreviation St := (CState W).

Definition on_poll (f : PState W -> PState W) (s : St) : St :=
  mkC (f (c_poll s)) (c_queue s) (c_sessions s) (c_files s) (c_tasks s) (c_hints s).
Definition on_queue (f : Clock -> Queue -> Queue) (s : St) : St :=
  mkC (c_poll s) (f (co_clock C (p_world (c_poll s))) (c_queue s)) (c_sessions s) (c_files s) (c_tasks s) (c_hints s).
Definition on_session (id : string) (f : CtlSession -> CtlSession) (s : St) : St :=
  match dget id (c_sessions s) with
  | Some x => mkC (c_poll s) (c_queue s) (dset id (f x) (c_sessions s)) (c_files s) (c_tasks s) (c_hints s)
  | None => s
  end.
Definition spawn (t : ctl_task) (s : St) : St :=
  mkC (c_poll s) (c_queue s) (c_sessions s) (c_files s) (c_tasks s ++ [t]) (c_hints s).
Definition creg (s : St) : Registry := reg (c_poll s).
Definition corch (s : St) : Orch := p_orch (c_poll s).

Definition polling {A} (m : M (PState W) exn A) : M St exn A := fun s =>
  let (r, p) := m (c_poll s) in (r, on_poll (fun _ => p) s).

(** [_sync_tracker_issue_state] from a command *)
Definition sync_state (id state : string) (s : St) : bool * St :=
  let '(b, p) := sync_tracker_issue_state T id state (c_poll s) in (b, on_poll (fun _ => p) s).

(** ** Handlers ([commands.py]) *)

(** What makes an issue known to the daemon. *)
Definition is_known (id : string) (s : St) : bool :=
  is_some (IssueRegistry.get id (creg s)) || mem id (oc_running (corch s)) || mem id (p_pending_review (c_poll s))
  || mem id (oc_completed (corch s)) || mem id (oc_claimed (corch s)).

(** The issue leaves the sets that keep a poll from it, and the retry queue. *)
Definition forget (id : string) (p : PState W) : PState W :=
  let o := p_orch p in
  mkP (p_world p)
    (mkOrch (oc_max_concurrent o) (oc_running o) (sdiscard id (oc_completed o)) (sdiscard id (oc_claimed o))
       (List.filter (fun r => negb (String.eqb (rt_dedup_key r) id)) (oc_retry_queue o))
       (oc_retry_attempts o) (oc_registry o))
    (sdiscard id (p_pending_review p)).

Definition drop_attempts (id : string) (p : PState W) : PState W :=
  on_orch (fun o => set_retry_attempts (ddel id (oc_retry_attempts o)) o) p.

Definition set_attempts (n : Z) (r : IssueRecord) : IssueRecord :=
  mkIssueRecord (issue_id r) (issue_identifier r) (schema_version r) (status r) (created_at r) n (conversation r)
    (previous_run_ids r) (sync r) (wspace r) (clar r) (feedback r) (intents r) (conflict r) (run_info r).

(** The record of an issue that is queued again. *)
Definition requeued (i : Intent) (reset_count : bool) (command : option string) (r : IssueRecord) : IssueRecord :=
  let x := intents r in
  let r1 := set_intents
              (mkIntentInfo i (if reset_count then 0 else retry_count x) (next_retry_at x)
                 (match command with Some c => Some c | None => last_command x end) (Some "cli") (command_cursor x))
              (set_status IssueRegistry.PENDING r) in
  if bool_decide (status r = PENDING_REVIEW) then set_attempts (attempt_count r + 1) r1 else r1.

(** [_reset_issue_for_retry] *)
Definition reset_issue_for_retry (id feedback : string) (i : Intent) (reset_count : bool) (command : option string)
    (s : St) : bool * St :=
  if String.eqb id "" then (false, s)
  else if negb (is_known id s) then (false, s)
  else
    let s1 := if String.eqb feedback "" then s
              else on_queue (fun c q => snd (inject_feedback c id ("[Human Review Rejected] " +:+ feedback) q)) s in
    let s2 := on_poll (fun p => drop_attempts id (forget id p)) s1 in
    let command := match command with
                   | Some c => Some c
                   | None => if String.eqb feedback "" then None else Some "/issue review --reject"
                   end in
    (true, on_poll (on_reg T (fun t => update t id (requeued i reset_count command))) s2).

(** [_handle_retry_control] *)
Definition handle_retry_control (id reason : string) (s : St) : St :=
  let '(ok, s1) := reset_issue_for_retry id "" IRetry true (Some ("cli:reset:" +:+ take_str 64 reason)) s in
  if ok then snd (sync_state id "open" s1) else s1.

(** [_handle_review_retry_control] *)
Definition handle_review_retry_control (id feedback : string) (s : St) : St :=
  let '(ok, s1) := reset_issue_for_retry id feedback IFollowup false None s in
  if ok then snd (sync_state id "open" s1) else s1.

(** The record of an issue that chat follows up. *)
Definition followed_up (text : string) (r : IssueRecord) : IssueRecord :=
  let x := intents r in
  set_intents (mkIntentInfo IFollowup (retry_count x) (next_retry_at x)
                 (Some ("chat:followup:" +:+ take_str 64 text)) (Some "chat") (command_cursor x))
    (set_status IssueRegistry.PENDING r).

(** [_handle_followup_control]; [false] keeps the control file. *)
Definition handle_followup_control (id extra : string) (s : St) : bool * St :=
  if String.eqb id "" then (true, s)
  else if negb (is_known id s) then (true, s)
  else if mem id (oc_running (corch s)) then (false, s)
  else
    let s1 := on_poll (forget id) s in
    let s2 := on_poll (on_reg T (fun t => update t id (followed_up extra))) s1 in
    (true, snd (sync_state id "open" s2)).

(** [_handle_review_approve_control] *)
Definition handle_review_approve_control (id comment : string) (s : St) : St :=
  match IssueRegistry.get id (creg s) with
  | None => s
  | Some r =>
      let s1 := on_poll (on_reg T (fun t => mark_completed t id)) s in
      let s2 := on_poll (fun p =>
                  mkP (p_world p)
                    (set_completed (sadd id (oc_completed (p_orch p))) (set_claimed (sdiscard id (oc_claimed (p_orch p))) (p_orch p)))
                    (sdiscard id (p_pending_review p))) s1 in
      let s3 := snd (sync_state id "completed" s2) in
      if negb (String.eqb comment "") && negb (bool_decide (status r = COMPLETED))
      then on_poll (fun p => snd (attempt None (outside (po_create_comment T id [Lit "## Approved"; Lit comment])) p)) s3
      else s3
  end.

(** The [force=] line of a rebase command; the last one counts. *)
Definition rebase_force (extra : string) : bool :=
  fold_left (fun force line =>
    let token := strip line in
    if String.prefix "force=" token then mem (strip (drop_str 6 token)) ["1"; "true"; "yes"] else force)
    (split_lines_lf extra) false.

(** [_handle_rebase_control] *)
Definition handle_rebase_control (id extra : string) : M St exn unit := fun s =>
  if String.eqb id "" then (Ret tt, s)
  else match IssueRegistry.get id (creg s) with
       | None => (Ret tt, s)
       | Some r =>
           if mem id (oc_running (corch s)) then (Ret tt, s)
           else match str_or (pr_number (sync r)) None, str_or (workspace_path (wspace r)) None, str_or (branch_name (sync r)) None with
                | Some _, Some _, Some _ =>
                    match polling (outside (co_issue_state C id)) s with
                    | (Raise e, s1) => (Raise e, s1)
                    | (Ret None, s1) => (Raise (name_error "Issue"), s1)
                    | (Ret (Some issue), s1) =>
                        match polling (process_rebase_intent T cfg issue (Some (rebase_force extra))) s1 with
                        | (Raise e, s2) => (Raise e, s2)
                        | (Ret _, s2) => (Ret tt, s2)
                        end
                    end
                | _, _, _ => (Ret tt, s)
                end
       end.

(** [\[fid.strip() for fid in ids.split(",") if fid.strip()\]] *)
Definition id_list (ids : string) : list string :=
  List.filter (fun x => negb (String.eqb x "")) (map strip (split_char (Ascii.ascii_of_N 44) ids)).

(** [_handle_review_followup_control], which ends at [PullRequestRef]. *)
Definition handle_review_followup_control (id extra : string) : M St exn unit := fun s =>
  if String.eqb id "" then (Ret tt, s)
  else match IssueRegistry.get id (creg s) with
       | None => (Ret tt, s)
       | Some r =>
           if mem id (oc_running (corch s)) then (Ret tt, s)
           else match (if String.eqb extra "" then pending_feedback_ids (feedback r) else id_list extra) with
                | [] => (Ret tt, s)
                | _ => (Raise (name_error "PullRequestRef"), s)
                end
       end.

(** ** Commands of the kernel ([_apply_control_command]) *)

Definition pause_session (reason : string) (x : CtlSession) : CtlSession :=
  mkCtl (cs_session x) true reason (cs_end_summary x) false (cs_cancelled x).
Definition resume_session (x : CtlSession) : CtlSession :=
  mkCtl (cs_session x) false "" (cs_end_summary x) true (cs_cancelled x).

(** A stop or takeover of a running session; its task is cancelled. *)
Definition end_session (reason summary : string) (x : CtlSession) : CtlSession :=
  let y := cs_session x in
  mkCtl (mkSession (ses_id y) (ses_identifier y) (ses_run_id y) (Some reason) "failed")
    (cs_paused x) (cs_pause_reason x) summary true true.

Definition cancel_retry (id : string) (s : St) : bool * St :=
  let '(b, o) := cancel_pending_retry (ptick T (c_poll s)) id (corch s) in
  (b, on_poll (on_orch (fun _ => o)) s).

Definition end_reason_of (cmd : string) : string :=
  if String.eqb cmd "stop" then "operator_stop" else "operator_takeover".

(** The issue was waiting for a retry, which is gone now. *)
Definition end_waiting (cmd id : string) (s : St) : St :=
  let s1 := on_poll (on_reg T (fun t => update_report t id None None None None (Some (end_reason_of cmd))
              (Some ("operator requested " +:+ cmd +:+ " while issue was waiting for retry")))) s in
  let s2 := on_poll (on_orch (fun o => set_retry_attempts (ddel id (oc_retry_attempts o)) (discard_claim id o))) s1 in
  spawn (TSync id "failed") s2.

(** The branch for running sessions. *)
Definition apply_to_running (cmd id extra : string) (s : St) : St :=
  if String.eqb id "" || negb (mem id (oc_running (corch s))) then s
  else if String.eqb cmd "pause" then
    let reason := if String.eqb extra "" then "operator requested pause" else extra in
    on_poll (on_reg T (fun t => mark_paused t id reason)) (on_session id (pause_session reason) s)
  else if String.eqb cmd "resume" then
    on_poll (on_reg T (fun t => mark_resumed t id)) (on_session id resume_session s)
  else if String.eqb cmd "stop" || String.eqb cmd "takeover" then
    snd (cancel_retry id (on_session id (end_session (end_reason_of cmd) ("operator requested " +:+ cmd)) s))
  else s.

(** [_apply_control_command] *)
Definition apply_control_command (cmd id extra : string) (s : St) : St :=
  if String.eqb cmd "retry" then
    let '(ok, s1) := reset_issue_for_retry id extra IRetry false None s in
    if ok then spawn (TSync id "open") s1 else s1
  else if (String.eqb cmd "stop" || String.eqb cmd "takeover") && negb (String.eqb id "") then
    let '(cancelled, s1) := cancel_retry id s in
    if cancelled then end_waiting cmd id s1 else apply_to_running cmd id extra s1
  else apply_to_running cmd id extra s.

(** ** Control files ([_process_control_commands]) *)

Definition ok_then {A} (b : bool) (m : outcome exn A * St) : outcome exn bool * St :=
  match m with (Ret _, s) => (Ret b, s) | (Raise e, s) => (Raise e, s) end.

(** A command of a control file; the answer says whether the file goes. *)
Definition run_command (cmd id extra : string) : M St exn bool := fun s =>
  if String.eqb cmd "review_followup" then ok_then true (handle_review_followup_control id extra s)
  else if String.eqb cmd "rebase" then ok_then true (handle_rebase_control id extra s)
  else if String.eqb cmd "review_approve" then (Ret true, handle_review_approve_control id extra s)
  else if String.eqb cmd "review_retry" then (Ret true, handle_review_retry_control id extra s)
  else if String.eqb cmd "retry" then (Ret true, handle_retry_control id extra s)
  else if String.eqb cmd "followup" then let '(b, s1) := handle_followup_control id extra s in (Ret b, s1)
  else if String.eqb cmd "gateway_connect" || String.eqb cmd "gateway_disconnect" then
    ok_then true (polling (outside (co_gateway C cmd extra)) s)
  else (Ret true, apply_control_command cmd id extra s).

(** The command, the issue and the rest of a control file. *)
Definition parse_control (content : string) : string * string * string :=
  match split_lines_lf (strip content) with
  | [] => ("", "", "")
  | cmd :: rest =>
      (strip cmd, strip (default "" (hd_error rest)),
       strip (String.concat lf (tl rest)))
  end.

(** [control_file.unlink()], whose failure is ignored. *)
Definition unlink (name : string) (s : St) : St :=
  match polling (outside (co_unlink C name)) s with
  | (Ret _, s1) => mkC (c_poll s1) (c_queue s1) (c_sessions s1) (ddel name (c_files s1)) (c_tasks s1) (c_hints s1)
  | (Raise _, s1) => s1
  end.

(** One control file; an error ends the sweep. *)
Definition process_control_file (name : string) : M St exn unit := fun s =>
  match default None (dget name (c_files s)) with
  | None => (Raise (mkExn OtherException [Lit "read_text"] None), s)
  | Some content =>
      let '(cmd, id, extra) := parse_control content in
      match run_command cmd id extra s with
      | (Raise e, s1) => (Raise e, unlink name s1)
      | (Ret b, s1) => (Ret tt, if b then unlink name s1 else s1)
      end
  end.

Fixpoint process_control_files (names : list string) (s : St) : St :=
  match names with
  | [] => s
  | n :: names' =>
      match process_control_file n s with
      | (Ret _, s1) => process_control_files names' s1
      | (Raise _, s1) => s1
      end
  end.

(** [path.name.endswith(".control")] *)
Definition is_control (name : string) : bool :=
  (8 <=? String.length name)%nat && String.eqb (drop_str (String.length name - 8) name) ".control".

Definition control_names (s : St) : list string :=
  List.filter is_control (merge_sort name_le (dkeys (c_files s))).

(** [_process_control_commands] *)
Definition process_control_commands (s : St) : St := process_control_files (control_names s) s.

(** ** Chat commands *)

Definition run_task (t : ctl_task) : M St exn unit := fun s =>
  match t with
  | TSync id state => (Ret tt, snd (sync_state id state s))
  | TFollowup id text => (Ret tt, snd (handle_followup_control id text s))
  | TRebase id extra => handle_rebase_control id extra s
  | TApprove id comment => (Ret tt, handle_review_approve_control id comment s)
  | TReviewRetry id fb => (Ret tt, handle_review_retry_control id fb s)
  | TReviewFollowup id ids => handle_review_followup_control id ids s
  end.

(** [_im_followup_hints_path]: the directory the hints go to. *)
Definition im_followup_hints_path (id : string) (s : St) : string :=
  let ws := if String.eqb id "" then None
            else match IssueRegistry.get id (creg s) with
                 | Some r => str_or (workspace_path (wspace r)) None
                 | None => None
                 end in
  default (co_workspace_root C) ws.

(** [_apply_im_followup] *)
Definition apply_im_followup (id text : string) (s : St) : St :=
  let s1 := mkC (c_poll s) (c_queue s) (c_sessions s) (c_files s) (c_tasks s)
              (c_hints s ++ [(im_followup_hints_path id s, text)]) in
  if String.eqb id "" then s1 else spawn (TFollowup id text) s1.

(** [_im_dismiss_feedback] *)
Definition im_dismiss_feedback (id fid : string) (s : St) : St :=
  match (if String.eqb id "" then None else IssueRegistry.get id (creg s)) with
  | None => s
  | Some r =>
      match (if String.eqb fid "" then pending_feedback_ids (feedback r) else id_list fid) with
      | [] => s
      | ids => on_poll (on_reg T (fun t => mark_feedback_processed t id ids None None)) s
      end
  end.

(** [_apply_im_issue_cli] *)
Definition apply_im_issue_cli (verb id payload : string) (s : St) : St :=
  let verb := lower (strip verb) in
  if String.eqb verb "" then s
  else
    let flags := im_command_flags payload in
    let flag k := default "" (dget k flags) in
    let id := if String.eqb id "" then flag "id" else id in
    if String.eqb verb "retry" then apply_control_command "retry" id (flag "reason") s
    else if String.eqb verb "rebase" then
      spawn (TRebase id ((if dmem "force" flags then "force=1" else "force=0") +:+ lf +:+ flag "reason")) s
    else if String.eqb verb "review" then
      if dmem "approve" flags then spawn (TApprove id (flag "comment")) s
      else if dmem "reject" flags then
        if String.eqb (flag "feedback") "" then s else spawn (TReviewRetry id (flag "feedback")) s
      else s
    else if String.eqb verb "feedback" then
      if dmem "dismiss" flags then im_dismiss_feedback id (flag "feedback-id") s
      else spawn (TReviewFollowup id (flag "feedback-id")) s
    else if String.eqb verb "clarify" then
      if String.eqb (flag "answer") "" then s
      else on_queue (fun c q => snd (resolve c id (flag "answer") "clarification_queue" q)) s
    else s.
End control.
