(* ===== verification/ControlFacts.v ===== *)
(** * Facts about the control commands

    What the next poll makes of a retry, a rejection, a follow-up and an
    approval; what a stop does to retries; and how a sweep accounts for the
    control files. *)

From stdpp Require Import sorting.
From S2P Require Import Prelude Errors Dag StageRunner Regex ImInbound ClarQueue Intent IssueRegistry RegistryFacts Kernel RetryQueue IssueProvider IssueProviderFacts Control.

Open Scope string_scope.
Open Scope list_scope.
Open Scope Z_scope.

(** ** Sets *)

Lemma not_in_sdiscard x l : x ∉ sdiscard x l.
Proof.
  unfold sdiscard. rewrite list_elem_of_In, filter_In. intros [_ H]. by rewrite String.eqb_refl in H.
Qed.

Lemma in_sadd x l : x ∈ sadd x l.
Proof. unfold sadd. destruct (mem x l) eqn:E; [by apply mem_true|set_solver]. Qed.

#[export] Hint Resolve not_in_sdiscard in_sadd : py.

(** ** A tracker that asks for nothing *)

(** The issue has no labels and no command. *)
Record quiet {W} (T : PollOps W) (issue : TIssue) : Prop := mkQuiet {
  qt_labels : ti_labels issue = [];
  qt_command : forall fetch c w, po_command_intent T = Some fetch ->
    fst (fetch (ti_id issue) c w) = Ret None \/ exists e, fst (fetch (ti_id issue) c w) = Raise e;
}.

(** Then the intent is the one that the command line left. *)
Lemma quiet_resolve {W} (T : PollOps W) issue s :
  quiet T issue ->
  let cli := cli_intent (ti_id issue) (reg s) in
  exists s1, resolve_intent T issue s = ((cli, None, if is_intent cli INone then None else Some "cli"), s1)
    /\ p_orch s1 = p_orch s /\ p_pending_review s1 = p_pending_review s.
Proof.
  intros [Hl Hc] cli. pose proof (resolve_intent_world T issue s) as Hw. revert Hw. unfold resolve_intent. rewrite Hl.
  assert (H : fst (resolve_command_intent T issue s) = None /\ reg (snd (resolve_command_intent T issue s)) = reg s).
  { unfold resolve_command_intent. destruct (String.eqb (ti_id issue) ""); [done|].
    destruct (po_command_intent T) as [fetch|] eqn:Ef; [|done]. unfold attempt, outside.
    specialize (Hc fetch (match IssueRegistry.get (ti_id issue) (reg s) with Some r => command_cursor (intents r) | None => None end)
                  (p_world s) eq_refl).
    destruct (fetch _ _ _) as [[c|e] w]; simpl in *; [|done]. destruct Hc as [[= ->]|[e [=]]]. done. }
  destruct (resolve_command_intent T issue s) as [cmd s2]. destruct H as [H1 H2]. simpl in H1, H2. subst cmd. rewrite H2. fold cli.
  simpl. intros [Ho Hp]. exists s2. split; [|done]. by destruct cli.
Qed.

Section handlers.
Context {W : Type} (T : PollOps W) (C : ControlOps W) (cfg : PollConfig).

Local Abbreviation St := (CState W).

(** Only the world changed. *)
Lemma sync_state_same id state (s : St) :
  p_orch (c_poll (snd (sync_state T id state s))) = p_orch (c_poll s) /\
  p_pending_review (c_poll (snd (sync_state T id state s))) = p_pending_review (c_poll s).
Proof.
  unfold sync_state, sync_tracker_issue_state, outside. destruct (String.eqb id ""); [done|].
  by destruct (po_update_state T id state (p_world (c_poll s))) as [[]].
Qed.

(** The issue is out of the sets that keep a poll from it. *)
Record free (id : string) (s : St) : Prop := mkFree {
  fr_completed : id ∉ oc_completed (corch s);
  fr_claimed : id ∉ oc_claimed (corch s);
  fr_review : id ∉ p_pending_review (c_poll s);
  fr_queue : has_entry id (oc_retry_queue (corch s)) = false;
}.

(** What a requeue leaves behind: the record [r'] of the issue, free of the sets. *)
Record requeue_ok (id : string) (r' : IssueRecord) (s s' : St) : Prop := mkRequeueOk {
  rq_own : exists t, IssueRegistry.get id (creg s') = Some (touch t r');
  rq_other : forall d, d <> id -> IssueRegistry.get d (creg s') = IssueRegistry.get d (creg s);
  rq_running : oc_running (corch s') = oc_running (corch s);
  rq_free : free id s';
}.

Lemma is_known_record id r (s : St) : IssueRegistry.get id (creg s) = Some r -> is_known id s = true.
Proof. intros H. unfold is_known. by rewrite H. Qed.

(** Changing the record of an issue that was just freed. *)
Lemma requeue_update id f r (s : St) (drop : PState W -> PState W) :
  IssueRegistry.get id (creg s) = Some r ->
  (forall p, p_pending_review (drop p) = p_pending_review p /\ reg (drop p) = reg p /\
     oc_running (p_orch (drop p)) = oc_running (p_orch p) /\ oc_completed (p_orch (drop p)) = oc_completed (p_orch p) /\
     oc_claimed (p_orch (drop p)) = oc_claimed (p_orch p) /\ oc_retry_queue (p_orch (drop p)) = oc_retry_queue (p_orch p)) ->
  requeue_ok id (f r) s (on_poll (on_reg T (fun t => update t id f)) (on_poll (fun p => drop (forget id p)) s)).
Proof.
  intros Hr Hd. destruct (Hd (forget id (c_poll s))) as (H1 & H2 & H3 & H4 & H5 & H6).
  set (s1 := on_poll (fun p => drop (forget id p)) s).
  assert (Hreg : creg s1 = creg s) by (unfold creg; simpl; by rewrite H2).
  split.
  - exists (wall (ptick T (c_poll s1))). unfold creg, reg, on_reg, on_orch. simpl. rewrite update_get, decide_True by done.
    change (oc_registry (p_orch (drop (forget id (c_poll s))))) with (creg s1). by rewrite Hreg, Hr.
  - intros d Hd'. unfold creg at 1, reg, on_reg, on_orch. simpl. rewrite update_get, decide_False by done.
    change (oc_registry (p_orch (drop (forget id (c_poll s))))) with (creg s1). by rewrite Hreg.
  - exact H3.
  - split.
    + change (id ∉ oc_completed (p_orch (drop (forget id (c_poll s))))). rewrite H4. apply not_in_sdiscard.
    + change (id ∉ oc_claimed (p_orch (drop (forget id (c_poll s))))). rewrite H5. apply not_in_sdiscard.
    + change (id ∉ p_pending_review (drop (forget id (c_poll s)))). rewrite H1. apply not_in_sdiscard.
    + change (has_entry id (oc_retry_queue (p_orch (drop (forget id (c_poll s))))) = false). rewrite H6. apply has_entry_filter.
Qed.

Lemma requeue_sync id r' state (s s' : St) : requeue_ok id r' s s' -> requeue_ok id r' s (snd (sync_state T id state s')).
Proof.
  intros [Ho Hot Hrun [F1 F2 F3 F4]]. destruct (sync_state_same id state s') as [E1 E2].
  split; unfold creg, reg, corch in *; rewrite ?E1; try done. split; unfold corch; by rewrite ?E1, ?E2.
Qed.

Lemma reset_spec id fb i rc command r (s : St) :
  IssueRegistry.get id (creg s) = Some r -> id <> "" ->
  let cmd := match command with Some c => Some c | None => if String.eqb fb "" then None else Some "/issue review --reject" end in
  exists s1, reset_issue_for_retry T C id fb i rc command s = (true, s1) /\ requeue_ok id (requeued i rc cmd r) s s1.
Proof.
  intros Hr Hid cmd. unfold reset_issue_for_retry. rewrite (proj2 (String.eqb_neq _ _) Hid), (is_known_record id r) by done.
  cbn [negb]. eexists. split; [done|]. destruct (String.eqb fb "").
  - by apply (requeue_update id (requeued i rc cmd) r s (drop_attempts id)).
  - pose proof (requeue_update id (requeued i rc cmd) r (on_queue C (fun c q => snd (inject_feedback c id ("[Human Review Rejected] " +:+ fb) q)) s)
      (drop_attempts id) Hr) as H. destruct H as [A B D E]; [done|]. split; done.
Qed.

(** The retry and the rejection of a known issue. *)
Lemma retry_control_spec id reason r (s : St) :
  IssueRegistry.get id (creg s) = Some r -> id <> "" ->
  requeue_ok id (requeued IRetry true (Some ("cli:reset:" +:+ take_str 64 reason)) r) s (handle_retry_control T C id reason s).
Proof.
  intros Hr Hid. unfold handle_retry_control.
  destruct (reset_spec id "" IRetry true (Some ("cli:reset:" +:+ take_str 64 reason)) r s Hr Hid) as (s1 & -> & H).
  by apply requeue_sync.
Qed.

Lemma review_retry_spec id fb r (s : St) :
  IssueRegistry.get id (creg s) = Some r -> id <> "" ->
  exists cmd, requeue_ok id (requeued IFollowup false cmd r) s (handle_review_retry_control T C id fb s).
Proof.
  intros Hr Hid. unfold handle_review_retry_control.
  destruct (reset_spec id fb IFollowup false None r s Hr Hid) as (s1 & -> & H). eexists. by apply requeue_sync.
Qed.

Lemma followup_control_spec id text r (s : St) :
  IssueRegistry.get id (creg s) = Some r -> id <> "" -> id ∉ oc_running (corch s) ->
  exists s1, handle_followup_control T id text s = (true, s1) /\ requeue_ok id (followed_up text r) s s1.
Proof.
  intros Hr Hid Hrun. unfold handle_followup_control. rewrite (proj2 (String.eqb_neq _ _) Hid), (is_known_record id r) by done.
  rewrite (proj2 (mem_false _ _) Hrun). cbn [negb]. eexists. split; [done|].
  apply requeue_sync. by apply (requeue_update id (followed_up text) r s (fun p => p)).
Qed.

Lemma requeued_intents t i rc cmd r :
  intents (touch t (requeued i rc cmd r)) =
  mkIntentInfo i (if rc then 0 else retry_count (intents r)) (next_retry_at (intents r))
    (match cmd with Some c => Some c | None => last_command (intents r) end) (Some "cli") (command_cursor (intents r)).
Proof. unfold requeued. by destruct (bool_decide (status r = PENDING_REVIEW)). Qed.

(** The intent of the command line after a requeue. *)
Lemma requeued_cli id i rc cmd r (s s' : St) :
  requeue_ok id (requeued i rc cmd r) s s' -> cli_intent id (creg s') = i.
Proof.
  intros [[t Hr] _ _ _]. unfold cli_intent. by rewrite Hr, requeued_intents.
Qed.

(** The dependencies of an issue that does not depend on itself. *)
Lemma dependencies_other id g g' issue :
  (forall d, d <> id -> IssueRegistry.get d g' = IssueRegistry.get d g) -> id ∉ ti_depends_on issue ->
  dependencies_satisfied issue g' = dependencies_satisfied issue g.
Proof.
  intros Ho Hn. unfold dependencies_satisfied.
  assert (H : forall d, d ∈ List.filter (fun d => negb (String.eqb d "")) (ti_depends_on issue) -> d <> id).
  { intros d Hd ->. apply list_elem_of_In, filter_In in Hd as [Hd _]. by apply Hn, list_elem_of_In. }
  induction (List.filter _ _) as [|d l IH]; [done|]. simpl. unfold IssueRegistry.is_completed at 1 3, has_pr at 1 3.
  rewrite Ho by (apply H; set_solver). f_equal. apply IH. intros d' Hd'. apply H. set_solver.
Qed.
End handlers.

(** ** The next poll *)

(** After the retry command the next poll decides to launch the issue, with the
    record asking for a retry and the slots as they were. *)
Lemma retry_control_considered {W} (T : PollOps W) (C : ControlOps W) (cfg : PollConfig)
    (gate : option (TIssue -> M (PState W) exn bool)) (issue : TIssue) (r : IssueRecord) (reason : string) (s : CState W) :
  IssueRegistry.get (ti_id issue) (creg s) = Some r -> ti_id issue <> "" -> ti_id issue ∉ oc_running (corch s) ->
  quiet T issue -> 0 < pc_max_retries_per_issue cfg ->
  dependencies_satisfied issue (creg s) = true -> ti_id issue ∉ ti_depends_on issue ->
  (forall p, exists p', gate_lets_through cfg gate issue p = (true, p') /\ p_orch p' = p_orch p) ->
  exists p r', consider T cfg gate issue (c_poll (handle_retry_control T C (ti_id issue) reason s)) = (Ret (Launch (Some "cli")), p) /\
    IssueRegistry.get (ti_id issue) (reg p) = Some r' /\ intent (intents r') = IRetry /\ dependencies_satisfied issue (reg p) = true.
Proof.
  intros Hr Hid Hrun Hq Hmax Hdep Hself Hgate.
  pose proof (retry_control_spec T C (ti_id issue) reason r s Hr Hid) as Hrq.
  pose proof (requeued_cli _ _ _ _ _ _ _ Hrq) as Hcli.
  set (s' := handle_retry_control T C (ti_id issue) reason s) in *. destruct Hrq as [[t Hown] Hother Hrun' [F1 F2 F3 F4]].
  unfold consider. unfold corch in *. rewrite (proj2 (mem_false _ _) F2), Hrun', (proj2 (mem_false _ _) Hrun).
  destruct (quiet_resolve T issue (c_poll s') Hq) as (p1 & Hres & Ho & Hp).
  change (reg (c_poll s')) with (creg s') in Hres. rewrite Hcli in Hres. rewrite Hres.
  change (wants_run IRetry) with true. rewrite andb_false_r. unfold act_with_authority.
  change (is_intent IRetry IRetry) with true. cbn [andb].
  assert (Hreg : reg p1 = creg s') by (unfold creg, reg; by rewrite Ho).
  assert (Hlim : check_retry_rate_limit cfg issue (reg p1) = true).
  { unfold check_retry_rate_limit. rewrite Hreg, Hown, requeued_intents. by apply Z.ltb_lt. }
  rewrite Hlim. cbn [negb]. unfold act_on_intent. cbv zeta.
  change (is_intent IRetry INone) with false. set (p2 := mark_the_intent _ _ _ _ _ _).
  unfold launchable. change (is_intent IRetry INone) with false. cbn [andb].
  assert (Hd2 : dependencies_satisfied issue (reg p2) = true).
  { rewrite <- Hdep. etrans; [apply (kept_dependencies (ti_id issue) (reg p1)); apply calm_mark|].
    rewrite Hreg. by apply (dependencies_other (ti_id issue)). }
  assert (Hr2 : exists r2, IssueRegistry.get (ti_id issue) (reg p2) = Some r2 /\ intent (intents r2) = IRetry).
  { unfold p2, mark_the_intent, reg, on_reg, on_orch. simpl. unfold mark_intent. rewrite update_get, decide_True by done.
    change (oc_registry (p_orch p1)) with (reg p1). rewrite Hreg, Hown. by eexists. }
  rewrite Hd2. destruct (Hgate p2) as (p3 & -> & Ho3). destruct Hr2 as (r2 & Hr2 & Hi2).
  exists p3, r2. split; [done|]. unfold reg in *. by rewrite Ho3.
Qed.

(** A rejected review is never worked on again.  A rejection queues the
    issue with a follow-up of the command line; whatever the tracker, the gate
    and the configuration are, and whatever labels and comments the issue has,
    the next poll does not launch it. *)
Theorem review_rejection_never_launched {W} (T : PollOps W) (C : ControlOps W) (cfg : PollConfig)
    (gate : option (TIssue -> M (PState W) exn bool)) (issue : TIssue) (r : IssueRecord) (fb : string) (s : CState W)
    (src : option string) :
  IssueRegistry.get (ti_id issue) (creg s) = Some r -> ti_id issue <> "" ->
  fst (consider T cfg gate issue (c_poll (handle_review_retry_control T C (ti_id issue) fb s))) <> Ret (Launch src).
Proof.
  intros Hr Hid Hl. destruct (review_retry_spec T C (ti_id issue) fb r s Hr Hid) as [cmd Hrq].
  pose proof (requeued_cli _ _ _ _ _ _ _ Hrq) as Hcli.
  set (s' := handle_review_retry_control T C (ti_id issue) fb s) in *.
  destruct (consider T cfg gate issue (c_poll s')) as [res p'] eqn:E. simpl in Hl. subst res.
  apply consider_launch in E as (i & c & p1 & Hres & Hok).
  - assert (Hi : i <> INone /\ i <> IRetry).
    { pose proof (resolve_intent_world T issue (c_poll s')) as [Ho _]. revert Hres Ho. unfold resolve_intent.
      destruct (match ti_labels issue with [] => _ | _ => _ end) as [label pa].
      destruct (resolve_command_intent T issue pa) as [co pb]. intros [= <- _ _ <-] Ho. simpl in Ho.
      assert (Hc : cli_intent (ti_id issue) (reg pb) = IFollowup)
        by (rewrite <- Hcli; unfold creg, reg; by rewrite Ho).
      rewrite Hc. by destruct label, (command_intent_of co). }
    destruct (lo_intent _ _ _ _ _ Hok); tauto.
  - destruct Hrq as [[t Hown] _ _ _]. change (reg (c_poll s')) with (creg s'). by eexists.
Qed.

(** A follow-up asked for in chat is not launched once there is a pull
    request.  The follow-up of a registered issue that does not run is accepted,
    the issue is reopened and marked, and the next poll that finds neither
    labels nor commands leaves it alone and changes nothing. *)
Theorem chat_followup_not_launched {W} (T : PollOps W) (C : ControlOps W) (cfg : PollConfig)
    (gate : option (TIssue -> M (PState W) exn bool)) (issue : TIssue) (r : IssueRecord) (text : string) (s : CState W) :
  IssueRegistry.get (ti_id issue) (creg s) = Some r -> ti_id issue <> "" -> ti_id issue ∉ oc_running (corch s) ->
  quiet T issue -> is_some (pr_number (sync r)) = true ->
  exists s' r' p', handle_followup_control T (ti_id issue) text s = (true, s') /\
    IssueRegistry.get (ti_id issue) (creg s') = Some r' /\ intent (intents r') = IFollowup /\
    status r' = IssueRegistry.PENDING /\
    consider T cfg gate issue (c_poll s') = (Ret Skip, p') /\ p_orch p' = p_orch (c_poll s').
Proof.
  intros Hr Hid Hrun Hq Hpr.
  destruct (followup_control_spec T (ti_id issue) text r s Hr Hid Hrun) as (s' & Hs' & [[t Hown] Hother Hrun' [F1 F2 F3 F4]]).
  destruct (quiet_resolve T issue (c_poll s') Hq) as (p1 & Hres & Ho & Hp).
  exists s', (touch t (followed_up text r)), p1. split; [done|]. split; [done|]. split; [done|]. split; [done|].
  split; [|done]. unfold consider. unfold corch in *.
  rewrite (proj2 (mem_false _ _) F2), Hrun', (proj2 (mem_false _ _) Hrun).
  assert (Hcli : cli_intent (ti_id issue) (reg (c_poll s')) = INone).
  { unfold cli_intent. change (reg (c_poll s')) with (creg s'). by rewrite Hown. }
  rewrite Hcli in Hres. rewrite Hres, Ho, Hp, (proj2 (mem_false _ _) F1), (proj2 (mem_false _ _) F3).
  cbn [orb andb]. unfold act_with_authority. change (is_intent INone IRetry) with false. cbn [andb].
  unfold act_on_intent, launchable. change (is_intent INone INone) with true.
  assert (Hhas : has_pr (ti_id issue) (reg p1) = true).
  { unfold has_pr. replace (reg p1) with (creg s') by (unfold creg, reg; by rewrite Ho). by rewrite Hown. }
  rewrite Hhas, orb_true_r. done.
Qed.

(** ** Stopping *)

Section stopping.
Context {W : Type} (T : PollOps W) (C : ControlOps W).

Local Abbreviation St := (CState W).

(** No retry of the issue is queued or planned. *)
Definition no_retry (id : string) (s : St) : Prop :=
  has_entry id (oc_retry_queue (corch s)) = false /\ has_plan id (creg s) = false.

Lemma cancel_no_retry id (s : St) : no_retry id (snd (cancel_retry T id s)).
Proof.
  unfold cancel_retry, no_retry. pose proof (cancel_no_entry (ptick T (c_poll s)) id (corch s)) as H1.
  pose proof (cancel_no_plan (ptick T (c_poll s)) id (corch s) id) as H2. rewrite decide_True in H2 by done.
  destruct (cancel_pending_retry _ _ _) as [b o]. done.
Qed.

(** Nothing was waiting: nothing changed. *)
Lemma cancel_nothing id (s : St) : no_retry id s -> fst (cancel_retry T id s) = false /\ corch (snd (cancel_retry T id s)) = corch s.
Proof.
  intros [H1 H2]. unfold cancel_retry, cancel_pending_retry. rewrite H1. change (oc_registry (corch s)) with (creg s). rewrite H2. done.
Qed.

Lemma has_plan_update t id f g x :
  (forall r, next_retry_at (intents (touch (wall t) (f r))) = next_retry_at (intents r)) ->
  has_plan x (update t id f g) = has_plan x g.
Proof.
  intros Hf. unfold has_plan. rewrite update_get. destruct (decide (id = x)) as [<-|]; [|done].
  destruct (IssueRegistry.get id g) as [r|]; [|done]. simpl. by rewrite <- (Hf r).
Qed.

Lemma no_retry_update id f (s : St) :
  (forall t r, next_retry_at (intents (touch (wall t) (f r))) = next_retry_at (intents r)) ->
  no_retry id s -> no_retry id (on_poll (on_reg T (fun t => update t id f)) s).
Proof.
  intros Hf [H1 H2]. split; [exact H1|]. etrans; [|exact H2]. apply has_plan_update. apply Hf.
Qed.

Lemma end_waiting_no_retry cmd id (s : St) : no_retry id s -> no_retry id (end_waiting T cmd id s).
Proof.
  intros H.
  assert (H1 : no_retry id (on_poll (on_reg T (fun t => update_report t id None None None None (Some (end_reason_of cmd))
              (Some ("operator requested " +:+ cmd +:+ " while issue was waiting for retry")))) s)) by (by apply no_retry_update).
  destruct H1 as [Ha Hb]. split; [exact Ha|exact Hb].
Qed.

Lemma ended_session cmd id extra (s : St) x :
  cmd = "stop" \/ cmd = "takeover" -> id <> "" -> id ∈ oc_running (corch s) -> dget id (c_sessions s) = Some x ->
  dget id (c_sessions (apply_to_running T cmd id extra s)) =
  Some (end_session (end_reason_of cmd) ("operator requested " +:+ cmd) x).
Proof.
  intros Hcmd Hid Hrun Hx. unfold apply_to_running. rewrite (proj2 (String.eqb_neq _ _) Hid), (proj2 (mem_true _ _) Hrun).
  assert (Hon : forall f, c_sessions (on_session id f s) = dset id (f x) (c_sessions s)) by (intros f; unfold on_session; by rewrite Hx).
  assert (Hc : forall s0, c_sessions (snd (cancel_retry T id s0)) = c_sessions s0)
    by (intros s0; unfold cancel_retry; by destruct (cancel_pending_retry _ _ _)).
  destruct Hcmd as [-> | ->]; cbn [String.eqb Ascii.eqb Bool.eqb negb orb]; by rewrite Hc, Hon, dget_dset_eq.
Qed.

Lemma apply_to_running_no_retry cmd id extra (s : St) :
  no_retry id s -> no_retry id (apply_to_running T cmd id extra s).
Proof.
  intros H. unfold apply_to_running. destruct (_ || negb _); [done|].
  assert (Hs : forall f, no_retry id (on_session id f s)) by (intros f; unfold on_session; by destruct (dget _ _)).
  destruct (String.eqb cmd "pause").
  { by apply no_retry_update. }
  destruct (String.eqb cmd "resume"); [by apply no_retry_update|].
  destruct (_ || _); [apply cancel_no_retry|done].
Qed.
End stopping.

(** C17: an issue that an operator stopped is not retried.  After a stop or a
    takeover of an issue no retry of it is queued or planned, so neither the
    queue nor a restart brings it back; when no retry was waiting and the issue
    runs, its task is cancelled and its session ends for a reason for which no
    retry is ever scheduled. *)
Theorem stopped_not_retried {W} (T : PollOps W) (C : ControlOps W) (cmd id extra : string) (s : CState W) :
  cmd = "stop" \/ cmd = "takeover" -> id <> "" ->
  let s' := apply_control_command T C cmd id extra s in
  no_retry id s' /\
  forall x, no_retry id s -> id ∈ oc_running (corch s) -> dget id (c_sessions s) = Some x ->
    exists x', dget id (c_sessions s') = Some x' /\ cs_cancelled x' = true /\
      forall acfg t0 t base o, schedule_retry acfg t0 t (cs_session x') base o = (Ret false, discard_claim (ses_id (cs_session x)) o).
Proof.
  intros Hcmd Hid. cbv zeta. unfold apply_control_command.
  assert (Hc : String.eqb cmd "retry" = false /\ (String.eqb cmd "stop" || String.eqb cmd "takeover") = true)
    by (by destruct Hcmd as [-> | ->]).
  destruct Hc as [-> ->]. rewrite (proj2 (String.eqb_neq _ _) Hid). cbn [andb negb].
  pose proof (cancel_no_retry T id s) as Hno. pose proof (cancel_nothing T id s) as Hnot.
  assert (Hses : c_sessions (snd (cancel_retry T id s)) = c_sessions s)
    by (unfold cancel_retry; by destruct (cancel_pending_retry _ _ _)).
  destruct (cancel_retry T id s) as [b s1]. simpl in *. split.
  { destruct b; [by apply end_waiting_no_retry|by apply apply_to_running_no_retry]. }
  intros x Hnone Hrun Hx. destruct (Hnot Hnone) as [-> Ho].
  exists (end_session (end_reason_of cmd) ("operator requested " +:+ cmd) x).
  split; [apply ended_session; congruence|]. split; [done|]. intros. unfold schedule_retry. simpl.
  by destruct Hcmd as [-> | ->].
Qed.

(** An approval completes the issue.  The review of a registered issue is
    approved: its record is completed, the issue is counted as completed and is
    neither claimed nor under review, and the next poll without labels and
    commands leaves it alone, unless the command line still asks for a retry or
    a follow-up. *)
Theorem approval_completes {W} (T : PollOps W) (C : ControlOps W) (cfg : PollConfig)
    (gate : option (TIssue -> M (PState W) exn bool)) (issue : TIssue) (r : IssueRecord) (comment : string) (s : CState W) :
  IssueRegistry.get (ti_id issue) (creg s) = Some r -> quiet T issue ->
  let s' := handle_review_approve_control T (ti_id issue) comment s in
  (exists r', IssueRegistry.get (ti_id issue) (creg s') = Some r' /\ status r' = COMPLETED /\ intents r' = intents r) /\
  ti_id issue ∈ oc_completed (corch s') /\ ti_id issue ∉ oc_claimed (corch s') /\ ti_id issue ∉ p_pending_review (c_poll s') /\
  (wants_run (cli_intent (ti_id issue) (creg s)) = false -> fst (consider T cfg gate issue (c_poll s')) = Ret Skip).
Proof.
  intros Hr Hq. cbv zeta. set (id := ti_id issue) in *.
  set (s' := handle_review_approve_control T id comment s).
  assert (H : exists t, IssueRegistry.get id (creg s') = IssueRegistry.get id (mark_completed t id (creg s)) /\
    oc_completed (corch s') = sadd id (oc_completed (corch s)) /\ oc_claimed (corch s') = sdiscard id (oc_claimed (corch s)) /\
    p_pending_review (c_poll s') = sdiscard id (p_pending_review (c_poll s))).
  { exists (ptick T (c_poll s)). unfold s', handle_review_approve_control. rewrite Hr. cbv zeta.
    set (s2 := on_poll _ (on_poll _ s)).
    destruct (sync_state_same T id "completed" s2) as [E1 E2]. destruct (sync_state T id "completed" s2) as [b s3]. simpl in E1, E2.
    assert (H3 : forall s4 : CState W, p_orch (c_poll s4) = p_orch (c_poll s3) -> p_pending_review (c_poll s4) = p_pending_review (c_poll s3) ->
      IssueRegistry.get id (creg s4) = IssueRegistry.get id (mark_completed (ptick T (c_poll s)) id (creg s)) /\
      oc_completed (corch s4) = sadd id (oc_completed (corch s)) /\ oc_claimed (corch s4) = sdiscard id (oc_claimed (corch s)) /\
      p_pending_review (c_poll s4) = sdiscard id (p_pending_review (c_poll s))).
    { intros s4 F1 F2. unfold creg, reg, corch. rewrite F1, F2, E1, E2. done. }
    destruct (_ && _); [|by apply H3]. apply H3; unfold on_poll, attempt, outside; simpl;
      by destruct (po_create_comment T id _ _) as [[]]. }
  destruct H as (t & Hget & Hcom & Hcl & Hpr).
  assert (Hrec : exists r', IssueRegistry.get id (creg s') = Some r' /\ status r' = COMPLETED /\ intents r' = intents r).
  { rewrite Hget. unfold mark_completed. rewrite update_get, decide_True by done. rewrite Hr. by eexists. }
  split; [done|]. rewrite Hcom, Hcl, Hpr. split; [apply in_sadd|]. split; [apply not_in_sdiscard|]. split; [apply not_in_sdiscard|].
  intros Hw. unfold consider. destruct (mem _ _); [done|]. destruct (mem _ _); [done|].
  destruct (quiet_resolve T issue (c_poll s') Hq) as (p1 & -> & Ho & Hp).
  assert (Hcli : cli_intent (ti_id issue) (reg (c_poll s')) = cli_intent id (creg s)).
  { destruct Hrec as (r' & Hr' & _ & Hi). unfold cli_intent. change (reg (c_poll s')) with (creg s'). fold id. by rewrite Hr', Hr, Hi. }
  rewrite Hcli, Hw. fold id. rewrite Ho. change (p_orch (c_poll s')) with (corch s'). rewrite Hcom.
  by rewrite (proj2 (mem_true id _) (in_sadd id _)).
Qed.

(** ** Control files *)

Section files.
Context {W : Type} (T : PollOps W) (C : ControlOps W) (cfg : PollConfig).

Local Abbreviation St := (CState W).

(** The handlers leave the directory alone. *)
Lemma sync_files id state (s : St) : c_files (snd (sync_state T id state s)) = c_files s.
Proof. unfold sync_state. by destruct (sync_tracker_issue_state _ _ _ _). Qed.

Lemma polling_files {A} (m : M (PState W) exn A) (s : St) : c_files (snd (polling m s)) = c_files s.
Proof. unfold polling. by destruct (m (c_poll s)). Qed.

Lemma reset_files id fb i rc cmd (s : St) : c_files (snd (reset_issue_for_retry T C id fb i rc cmd s)) = c_files s.
Proof. unfold reset_issue_for_retry. destruct (String.eqb id ""); [done|]. destruct (negb _); [done|]. by destruct (String.eqb fb ""). Qed.

Lemma session_files id f (s : St) : c_files (on_session id f s) = c_files s.
Proof. unfold on_session. by destruct (dget _ _). Qed.

Lemma cancel_files id (s : St) : c_files (snd (cancel_retry T id s)) = c_files s.
Proof. unfold cancel_retry. by destruct (cancel_pending_retry _ _ _). Qed.

Lemma running_files cmd id extra (s : St) : c_files (apply_to_running T cmd id extra s) = c_files s.
Proof.
  unfold apply_to_running. destruct (_ || negb _); [done|]. destruct (String.eqb cmd "pause"); [apply session_files|].
  destruct (String.eqb cmd "resume"); [apply session_files|]. destruct (_ || _); [|done].
  by rewrite cancel_files, session_files.
Qed.

Lemma apply_files cmd id extra (s : St) : c_files (apply_control_command T C cmd id extra s) = c_files s.
Proof.
  unfold apply_control_command. destruct (String.eqb cmd "retry").
  { pose proof (reset_files id extra IRetry false None s) as H. by destruct (reset_issue_for_retry _ _ _ _ _ _ _ _) as [[] ?]. }
  destruct (_ && _); [|apply running_files]. pose proof (cancel_files id s) as H. destruct (cancel_retry T id s) as [[] s1]; [done|].
  by rewrite running_files.
Qed.

Lemma approve_files id comment (s : St) : c_files (handle_review_approve_control T id comment s) = c_files s.
Proof.
  unfold handle_review_approve_control. destruct (IssueRegistry.get _ _); [|done]. cbv zeta.
  destruct (_ && _); unfold on_poll at 1; simpl; by rewrite sync_files.
Qed.

Lemma rebase_files id extra (s : St) : c_files (snd (handle_rebase_control T C cfg id extra s)) = c_files s.
Proof.
  unfold handle_rebase_control. destruct (String.eqb id ""); [done|]. destruct (IssueRegistry.get _ _); [|done].
  destruct (mem _ _); [done|]. do 3 (destruct (str_or _ _) as [?x|]; [|done]).
  match goal with |- context [polling ?m s] => pose proof (polling_files m s) as H1; destruct (polling m s) as [res s1] end.
  destruct res as [[issue|]|e]; [|done..]. simpl in H1. pose proof (polling_files (process_rebase_intent T cfg issue (Some (rebase_force extra))) s1) as H2.
  destruct (polling _ s1) as [[] ?]; simpl in *; congruence.
Qed.

Lemma review_followup_files id extra (s : St) : c_files (snd (handle_review_followup_control id extra s)) = c_files s.
Proof.
  unfold handle_review_followup_control. destruct (String.eqb id ""); [done|]. destruct (IssueRegistry.get _ _); [|done].
  destruct (mem _ _); [done|]. by destruct (if String.eqb extra "" then _ else _).
Qed.

Lemma followup_files id extra (s : St) : c_files (snd (handle_followup_control T id extra s)) = c_files s.
Proof.
  unfold handle_followup_control. destruct (String.eqb id ""); [done|]. destruct (negb _); [done|]. destruct (mem _ _); [done|].
  cbv zeta. cbn [snd]. by rewrite sync_files.
Qed.

Lemma ok_then_snd {A} b (m : outcome exn A * St) : snd (ok_then b m) = snd m.
Proof. by destruct m as [[]]. Qed.

Lemma retry_files id fb i rc cmd (s : St) :
  c_files (let '(ok, s1) := reset_issue_for_retry T C id fb i rc cmd s in if ok then snd (sync_state T id "open" s1) else s1) = c_files s.
Proof.
  pose proof (reset_files id fb i rc cmd s) as H. destruct (reset_issue_for_retry _ _ _ _ _ _ _ _) as [[] s1]; [|done].
  by rewrite sync_files.
Qed.

Lemma run_command_files cmd id extra (s : St) : c_files (snd (run_command T C cfg cmd id extra s)) = c_files s.
Proof.
  unfold run_command.
  destruct (String.eqb cmd "review_followup"); [rewrite ok_then_snd; apply review_followup_files|].
  destruct (String.eqb cmd "rebase"); [rewrite ok_then_snd; apply rebase_files|].
  destruct (String.eqb cmd "review_approve"); [apply approve_files|].
  destruct (String.eqb cmd "review_retry"); [apply retry_files|].
  destruct (String.eqb cmd "retry"); [apply retry_files|].
  destruct (String.eqb cmd "followup").
  { pose proof (followup_files id extra s) as H. by destruct (handle_followup_control _ _ _ _). }
  destruct (_ || _); [rewrite ok_then_snd; apply polling_files|apply apply_files].
Qed.

(** A command that keeps its file. *)
Lemma run_command_kept cmd id extra (s s1 : St) :
  run_command T C cfg cmd id extra s = (Ret false, s1) -> cmd = "followup" /\ id ∈ oc_running (corch s) /\ s1 = s.
Proof.
  assert (Hok : forall A (m : outcome exn A * St) s1, ok_then true m <> (Ret false, s1)) by (by intros A [[]]).
  unfold run_command.
  destruct (String.eqb cmd "review_followup"); [by intros ?%Hok|]. destruct (String.eqb cmd "rebase"); [by intros ?%Hok|].
  destruct (String.eqb cmd "review_approve"); [done|]. destruct (String.eqb cmd "review_retry"); [done|].
  destruct (String.eqb cmd "retry"); [done|]. destruct (String.eqb cmd "followup") eqn:E.
  { apply String.eqb_eq in E. unfold handle_followup_control. destruct (String.eqb id ""); [done|]. destruct (negb _); [done|].
    destruct (mem id _) eqn:Em; [|done]. apply mem_true in Em. by intros [= ->]. }
  destruct (_ || _); [by intros ?%Hok|done].
Qed.

(** Files can be removed. *)
Definition removable : Prop := forall n w, fst (co_unlink C n w) = Ret tt.
Context (Hrm : removable).

Lemma unlink_files n (s : St) : c_files (unlink C n s) = ddel n (c_files s).
Proof.
  unfold unlink, polling, outside. pose proof (Hrm n (p_world (c_poll s))) as H.
  destruct (co_unlink C n (p_world (c_poll s))) as [res w]. simpl in H. by subst res.
Qed.

(** What became of one file of a sweep from [s]: the command ran and the file is
    gone, or it waits for the run of its issue. *)
Definition settled (files files' : dict string CtlFile) (n : string) : Prop :=
  dget n files' = None \/
  (dget n files' = dget n files /\ exists content, dget n files = Some (Some content) /\ fst (fst (parse_control content)) = "followup").

(** Why a sweep stopped early: a file could not be read, or a handler raised. *)
Inductive stopped (files : dict string CtlFile) : list string -> list string -> Prop :=
| stopped_never done_ : stopped files done_ []
| stopped_unreadable done_ n rest : default None (dget n files) = None -> stopped files done_ (n :: rest)
| stopped_raise done_ n rest content cmd id extra e s :
    dget n files = Some (Some content) -> parse_control content = (cmd, id, extra) ->
    fst (run_command T C cfg cmd id extra s) = Raise e -> stopped files (done_ ++ [n]) rest.

Record accounted_for (names : list string) (files files' : dict string CtlFile) : Prop := mkAccounted {
  af_split : exists done_ rest, names = done_ ++ rest /\ stopped files done_ rest /\
    Forall (settled files files') done_ /\ Forall (fun n => dget n files' = dget n files) rest;
  af_other : forall n, n ∉ names -> dget n files' = dget n files;
}.

(** One file whose handler did not raise. *)
Lemma process_file_ret n (s s1 : St) :
  process_control_file T C cfg n s = (Ret tt, s1) ->
  settled (c_files s) (c_files s1) n /\ forall n', n' <> n -> dget n' (c_files s1) = dget n' (c_files s).
Proof.
  unfold process_control_file. destruct (dget n (c_files s)) as [[content|]|] eqn:En; simpl; [|done..].
  destruct (parse_control content) as [[cmd id] extra] eqn:Ep. pose proof (run_command_files cmd id extra s) as Hf.
  destruct (run_command T C cfg cmd id extra s) as [[b|e] s2] eqn:Er; [|done]. simpl in Hf. intros [= <-].
  destruct b.
  - rewrite unlink_files, Hf. split; [left; apply dget_ddel_eq|]. intros n' Hn. by apply dget_ddel_ne.
  - apply run_command_kept in Er as (-> & _ & ->). split; [right|done]. split; [done|]. exists content. by rewrite Ep.
Qed.

Lemma process_file_raise n (s s1 : St) e :
  process_control_file T C cfg n s = (Raise e, s1) ->
  (default None (dget n (c_files s)) = None /\ s1 = s) \/
  (exists content cmd id extra, dget n (c_files s) = Some (Some content) /\ parse_control content = (cmd, id, extra) /\
     fst (run_command T C cfg cmd id extra s) = Raise e /\ c_files s1 = ddel n (c_files s)).
Proof.
  unfold process_control_file. destruct (dget n (c_files s)) as [[content|]|] eqn:En; simpl.
  2-3: intros [= _ <-]; by left.
  destruct (parse_control content) as [[cmd id] extra] eqn:Ep. pose proof (run_command_files cmd id extra s) as Hf.
  destruct (run_command T C cfg cmd id extra s) as [[b|e'] s2] eqn:Er; [by destruct b|]. simpl in Hf. intros [= <- <-].
  right. exists content, cmd, id, extra. split; [done|]. split; [done|]. rewrite Er. split; [done|]. by rewrite unlink_files, Hf.
Qed.

Lemma settled_later files files1 files' n :
  dget n files1 = dget n files -> settled files1 files' n -> settled files files' n.
Proof. intros E [H|(H & c & Hc & Hp)]; [by left|right]. split; [congruence|]. exists c. split; [congruence|done]. Qed.

Lemma sweep_accounts names (s : St) :
  NoDup names -> accounted_for names (c_files s) (c_files (process_control_files T C cfg names s)).
Proof.
  revert s. induction names as [|n names IH]; intros s Hnd; simpl.
  { split; [|done]. exists [], []. split; [done|]. by repeat constructor. }
  apply NoDup_cons in Hnd as [Hn Hnd]. destruct (process_control_file T C cfg n s) as [[[]|e] s1] eqn:E.
  - apply process_file_ret in E as [Hset Hoth]. destruct (IH s1 Hnd) as [(done_ & rest & -> & Hstop & Hdone & Hrest) Hother].
    assert (Hsame : forall m, m ∈ done_ ++ rest -> dget m (c_files s1) = dget m (c_files s)).
    { intros m Hm. apply Hoth. by intros ->. }
    split.
    + exists (n :: done_), rest. split; [done|]. split; [|split].
      * inversion Hstop as [d|d m r Hu|d m r content cmd id extra e' sx Hc Hp Hr]; subst; [constructor| |].
        -- constructor. rewrite <- (Hsame m); [done|set_solver].
        -- apply (stopped_raise _ (n :: d) m rest content cmd id extra e' sx); [|done|done]. rewrite <- (Hsame m); [done|set_solver].
      * constructor.
        -- unfold settled in *. by rewrite Hother.
        -- apply Forall_forall. intros m Hm. rewrite Forall_forall in Hdone.
           apply (settled_later _ (c_files s1)); [|by apply Hdone]. apply Hsame. set_solver.
      * apply Forall_forall. intros m Hm. rewrite Forall_forall in Hrest. rewrite Hrest by done. apply Hsame. set_solver.
    + intros m Hm. rewrite Hother by set_solver. apply Hoth. set_solver.
  - apply process_file_raise in E as [[Hu ->]|(content & cmd & id & extra & Hc & Hp & Hr & Hf)].
    + split; [|done]. exists [], (n :: names). split; [done|]. split; [by constructor|]. split; [constructor|]. by apply Forall_forall.
    + split.
      * exists [n], names. split; [done|]. split; [by apply (stopped_raise _ [] n names content cmd id extra e s)|].
        split; [constructor; [left; rewrite Hf; apply dget_ddel_eq|constructor]|].
        apply Forall_forall. intros m Hm. rewrite Hf. apply dget_ddel_ne. by intros ->.
      * intros m Hm. rewrite Hf. apply dget_ddel_ne. set_solver.
Qed.
End files.

(** A sweep accounts for every control file.  The files are handled in the
    order of their names, from the first one on.  Those that were handled are
    gone, apart from follow-ups that wait for the run of their issue; those that
    were not are as they were, and so is every other file.  The sweep stops
    before the end only where a file cannot be read, which stays, or where a
    handler raised, whose file is gone. *)
Theorem control_sweep_accounts {W} (T : PollOps W) (C : ControlOps W) (cfg : PollConfig) (s : CState W) :
  removable C -> dict_wf (c_files s) ->
  accounted_for T C cfg (control_names s) (c_files s) (c_files (process_control_commands T C cfg s)).
Proof.
  intros Hrm Hwf. apply sweep_accounts; [done|]. unfold control_names. apply NoDup_ListNoDup, List.NoDup_filter, NoDup_ListNoDup.
  by rewrite merge_sort_Permutation.
Qed.

(** A control file that cannot be read blocks the commands after it.  When
    the first of the control files is not readable, a sweep does nothing at all:
    the file stays, and the commands behind it never run. *)
Theorem unreadable_control_file_blocks {W} (T : PollOps W) (C : ControlOps W) (cfg : PollConfig) (s : CState W)
    (n : string) (rest : list string) (sweeps : nat) :
  control_names s = n :: rest -> dget n (c_files s) = Some None ->
  Nat.iter sweeps (process_control_commands T C cfg) s = s.
Proof.
  intros Hn Hf. induction sweeps as [|k IH]; [done|]. simpl. rewrite IH.
  unfold process_control_commands. rewrite Hn. simpl. unfold process_control_file. by rewrite Hf.
Qed.

(** ** A concrete daemon *)

Definition ctl_ops : ControlOps unit :=
  mkControlOps (fun id w => (Ret (Some (poll_issue id [])), w)) (fun _ => mkClock 20 Written)
    (fun _ _ w => (Ret tt, w)) (fun _ w => (Ret tt, w)) "/ws".

Definition ctl_session : CtlSession := mkCtl (mkSession "9" "I-9" None None "running") false "" "" true false.

(** Issue 9 runs; a follow-up for it waits behind a file that is not text. *)
Definition ctl_state (files : dict string CtlFile) : CState unit :=
  mkC (poll_state 2) (mkQueue [] (Holds [])) [("9", ctl_session)] files [] [].

Definition some_files : dict string CtlFile :=
  [("b.control", Some ("followup" +:+ lf +:+ "9" +:+ lf +:+ "go on")); ("a.control", Some ("stop" +:+ lf +:+ "9"));
   ("notes.txt", None)].

Lemma quiet_seven : quiet poll_ops (poll_issue "7" []).
Proof. split; [done|]. intros fetch c w [= <-]. by left. Qed.

Lemma review_rejection_never_launched_witness :
  fst (consider poll_ops poll_cfg poll_gate (poll_issue "7" [])
         (c_poll (handle_review_retry_control poll_ops ctl_ops "7" "not yet" (ctl_state [])))) <> Ret (Launch (Some "cli")).
Proof.
  eapply (review_rejection_never_launched poll_ops ctl_ops poll_cfg poll_gate (poll_issue "7" []) _ "not yet" (ctl_state [])).
  - vm_compute. reflexivity.
  - discriminate.
Defined.

Lemma chat_followup_not_launched_witness :
  exists s' r' p', handle_followup_control poll_ops "7" "why?" (ctl_state []) = (true, s') /\
    IssueRegistry.get "7" (creg s') = Some r' /\ intent (intents r') = IFollowup /\ status r' = IssueRegistry.PENDING /\
    consider poll_ops poll_cfg poll_gate (poll_issue "7" []) (c_poll s') = (Ret Skip, p') /\ p_orch p' = p_orch (c_poll s').
Proof.
  eapply (chat_followup_not_launched poll_ops ctl_ops poll_cfg poll_gate (poll_issue "7" []) _ "why?" (ctl_state [])).
  - vm_compute. reflexivity.
  - discriminate.
  - apply mem_false. reflexivity.
  - exact quiet_seven.
  - reflexivity.
Defined.

Lemma stopped_not_retried_witness :
  no_retry "9" (apply_control_command poll_ops ctl_ops "stop" "9" "" (ctl_state [])) /\
  exists x', dget "9" (c_sessions (apply_control_command poll_ops ctl_ops "stop" "9" "" (ctl_state []))) = Some x' /\ cs_cancelled x' = true.
Proof.
  destruct (stopped_not_retried poll_ops ctl_ops "stop" "9" "" (ctl_state [])) as [H1 H2]; [left; reflexivity|discriminate|].
  split; [exact H1|]. destruct (H2 ctl_session) as (x' & Hx & Hc & _).
  - split; reflexivity.
  - apply mem_true. reflexivity.
  - reflexivity.
  - exists x'. split; [exact Hx|exact Hc].
Defined.

Lemma approval_completes_witness :
  "7" ∈ oc_completed (corch (handle_review_approve_control poll_ops "7" "ok" (ctl_state []))).
Proof.
  eapply (proj1 (proj2 (approval_completes poll_ops ctl_ops poll_cfg poll_gate (poll_issue "7" []) _ "ok" (ctl_state []) _ quiet_seven))).
  Unshelve. 2: { vm_compute. reflexivity. }
Defined.

Lemma control_sweep_accounts_witness :
  control_names (ctl_state some_files) = ["a.control"; "b.control"] /\
  accounted_for poll_ops ctl_ops poll_cfg ["a.control"; "b.control"] some_files
    (c_files (process_control_commands poll_ops ctl_ops poll_cfg (ctl_state some_files))).
Proof.
  split; [vm_compute; reflexivity|].
  apply (control_sweep_accounts poll_ops ctl_ops poll_cfg (ctl_state some_files)).
  - intros n w. reflexivity.
  - apply NoDup_ListNoDup. repeat constructor; simpl; intuition discriminate.
Defined.

Lemma unreadable_control_file_blocks_witness :
  let s := ctl_state (("A.control", None) :: some_files) in
  Nat.iter 5 (process_control_commands poll_ops ctl_ops poll_cfg) s = s.
Proof.
  apply (unreadable_control_file_blocks poll_ops ctl_ops poll_cfg (ctl_state (("A.control", None) :: some_files))
           "A.control" ["a.control"; "b.control"] 5).
  - vm_compute. reflexivity.
  - reflexivity.
Defined.
