(* ===== verification/Launch.v ===== *)
(** * Launching an issue
    ([src/orchestratord/applications/issue_pr/lifecycle.py],
    [src/orchestratord/orchestrator.py])

    [_launch_issue] with the three steps that the application contributes:
    [prepare_launch], [decorate_session] and [post_viz_gate], and the reset of a
    retried issue.  The workspace, the tracker and the mode selector are
    parameters.  The fields of the session that only describe the run to its
    prompt, the visualisation journal and the dashboard are left out. *)

From S2P Require Import Prelude Errors Dag StageRunner Intent IssueRegistry RegistryFacts Kernel RetryQueue IssueProvider.

Open Scope string_scope.
Open Scope list_scope.
Open Scope Z_scope.

(** What is read of the issue that the tracker returns before a launch. *)
Record Refreshed := mkRefreshed {
  rf_state : option string;
  rf_branch_name : option string;
  rf_base_branch : option string;
}.

Record LaunchConfig := mkLaunchConfig {
  lc_strategy : string;
  lc_integration_branch : option string;
  lc_root : string;
  lc_active_states : list string;
}.

(** The workspace manager, the tracker and the mode selector; [lw_find_pr] is
    missing when the tracker has no pull requests. *)
Record LaunchOps (W : Type) := mkLaunchOps {
  lw_default_branch : TIssue -> string;
  lw_create : TIssue -> M W exn string;
  lw_head : string -> M W exn (option string);
  lw_close_pr : string -> option string -> M W exn bool;
  lw_refresh : string -> M W exn (option Refreshed);
  lw_find_pr : option (string -> string -> M W exn (option string));
  lw_mode : TIssue -> M W exn string;
}.
Arguments mkLaunchOps {W}.
Arguments lw_default_branch {W}.
Arguments lw_create {W}.
Arguments lw_head {W}.
Arguments lw_close_pr {W}.
Arguments lw_refresh {W}.
Arguments lw_find_pr {W}.
Arguments lw_mode {W}.

(** What [prepare_launch] hands on. *)
Record PreparedRun := mkPrepared {
  pp_workspace : string;
  pp_conversation : option string;
  pp_parent_run : option string;
  pp_base_branch : string;
  pp_start_sha : option string;
  pp_base_sha : option string;
  pp_previous_issue : option string;
  pp_sequence_index : option Z;
}.

(** What is kept of the session that is started. *)
Record LSession := mkLSession {
  ls_issue : TIssue;
  ls_run_kind : string;
  ls_mode : string;
  ls_base_branch : string;
  ls_attempt : Z;
  ls_pull_request : option (string * option string);
  ls_feedback_ids : list string;
  ls_clarification : option string;
  ls_previous_runs : list string;
  ls_previous_error : option string;
}.

Definition with_branch (b : string) (issue : TIssue) : TIssue :=
  mkTIssue (ti_id issue) (ti_identifier issue) (Some b) (ti_base_branch issue) (ti_author_login issue)
    (ti_labels issue) (ti_depends_on issue).

Definition drop_claim {W} (id : string) (s : PState W) : PState W := on_orch (discard_claim id) s.

(** [claimed.discard] and [completed.add] *)
Definition settle {W} (id : string) (s : PState W) : PState W :=
  on_orch (fun o => set_completed (sadd id (oc_completed o)) (discard_claim id o)) s.

Section launch.
Context {W : Type} (T : PollOps W) (L : LaunchOps W) (cfg : PollConfig) (lc : LaunchConfig).

Local Abbreviation St := (PState W).

(** [_prepare_intent_reset] *)
Definition prepare_intent_reset (issue : TIssue) (s : St) : St :=
  let id := ti_id issue in
  if String.eqb id "" then s
  else match IssueRegistry.get id (reg s) with
       | None => s
       | Some r =>
           if is_intent (intent (intents r)) IRetry then
             let s1 := match str_or (pr_number (sync r)) None with
                       | Some pr => snd (attempt false (outside (lw_close_pr L pr (pr_url (sync r)))) s)
                       | None => s
                       end in
             on_reg T (fun t => reset_for_retry t id true false) s1
           else s
       end.

(** The run that the new one continues. *)
Definition parent_run (r : option IssueRecord) : option string :=
  match r with
  | None => None
  | Some r => match str_or (run_id (run_info r)) None with
              | Some x => Some x
              | None => last (previous_run_ids r)
              end
  end.

Definition sequential : bool := String.eqb (lc_strategy lc) "sequential".

(** The place of the run in the chain of a sequential workspace. *)
Definition sequence_of (g : Registry) : option string * option Z :=
  if sequential then
    match latest_sequential_record g with
    | Some p => (Some (issue_id p), Some (default 0 (sequence_index (wspace p)) + 1))
    | None => (None, Some 1)
    end
  else (None, None).

(** What the record is registered with. *)
Definition launch_args (issue : TIssue) (branch path : string) (head : option string) (prev : option string) (ix : option Z)
    : RegisterArgs :=
  mkRegisterArgs
    (Some (match lc_integration_branch lc with
           | Some b => if sequential && negb (String.eqb b "") then b else branch
           | None => branch
           end))
    (mkWorkspaceInfo (candidate_base_branch cfg issue) (Some (lc_strategy lc))
       (Some (if sequential then lc_root lc else path)) (if sequential then head else None) head prev ix)
    None (ti_author_login issue).

(** An explicit retry or follow-up passes the guards for handled work. *)
Definition bypasses (id : string) (s : St) : bool :=
  match IssueRegistry.get id (reg s) with
  | Some r => wants_run (intent (intents r))
  | None => false
  end.

(** What the checks before a launch come to. *)
Inductive guard := Proceed | Gone | Handled.

(** [state is not None and state.strip().lower() in active_states] *)
Definition is_active (x : Refreshed) : bool :=
  match rf_state x with
  | Some st => mem (lower (strip st)) (map (fun a => lower (strip a)) (lc_active_states lc))
  | None => false
  end.

(** The refreshed issue has a branch and the tracker has pull requests. *)
Definition pr_lookup (x : Refreshed) : option (M W exn (option string)) :=
  match str_or (rf_branch_name x) None, lw_find_pr L with
  | Some b, Some find => Some (find b (default "main" (str_or (rf_base_branch x) None)))
  | _, _ => None
  end.

(** The base branch of the run: the look-up of the pull request overwrites the
    one that was registered. *)
Definition run_base (issue : TIssue) (x : option Refreshed) : string :=
  match x with
  | Some x => match pr_lookup x with
              | Some _ => default "main" (str_or (rf_base_branch x) None)
              | None => candidate_base_branch cfg issue
              end
  | None => candidate_base_branch cfg issue
  end.

(** The checks between registration and launch; an exception passes them. *)
Definition launch_guard (issue : TIssue) (s : St) : (guard * option Refreshed) * St :=
  let id := ti_id issue in
  match outside (lw_refresh L id) s with
  | (Raise _, s1) => ((Proceed, None), s1)
  | (Ret None, s1) => ((Gone, None), s1)
  | (Ret (Some x), s1) =>
      if negb (is_active x) then ((Gone, Some x), s1)
      else
        let '(found, s2) :=
          match pr_lookup x with
          | Some find => match outside find s1 with
                         | (Raise e, s2) => (Raise e, s2)
                         | (Ret pr, s2) => (Ret (is_some pr), s2)
                         end
          | None => (Ret false, s1)
          end in
        match found with
        | Raise _ => ((Proceed, Some x), s2)
        | Ret found =>
            if found && negb (bypasses id s2) then ((Handled, Some x), s2)
            else if (has_pr id (reg s2) || IssueRegistry.is_terminal id (reg s2)) && negb (bypasses id s2)
            then ((Handled, Some x), s2)
            else ((Proceed, Some x), s2)
        end
  end.

(** [prepare_launch]; the issue comes back with the branch it was given. *)
Definition prepare_launch (issue0 : TIssue) : M St exn (TIssue * option PreparedRun) := fun s =>
  let id := ti_id issue0 in
  if negb (dependencies_satisfied issue0 (reg s)) then (Ret (issue0, None), drop_claim id s)
  else
    let s1 := prepare_intent_reset issue0 s in
    let issue := match str_or (ti_branch_name issue0) None with
                 | Some _ => issue0
                 | None => with_branch (lw_default_branch L issue0) issue0
                 end in
    let branch := default "" (ti_branch_name issue) in
    match outside (lw_create L issue) s1 with
    | (Raise _, s2) => (Ret (issue, None), drop_claim id s2)
    | (Ret path, s2) =>
        match outside (lw_head L path) s2 with
        | (Raise e, s3) => (Raise e, s3)
        | (Ret head, s3) =>
            let '(prev, ix) := sequence_of (reg s3) in
            let parent := parent_run (IssueRegistry.get id (reg s3)) in
            let s4 := on_reg T (fun t => register t id (ti_identifier issue) (launch_args issue branch path head prev ix)
                                           (po_conversation T (p_world s3))) s3 in
            let conv := match IssueRegistry.get id (reg s4) with Some r => conversation r | None => None end in
            let '((g, x), s5) := launch_guard issue s4 in
            match g with
            | Gone => (Ret (issue, None), drop_claim id s5)
            | Handled => (Ret (issue, None), settle id s5)
            | Proceed =>
                (Ret (issue, Some (mkPrepared path conv parent (run_base issue x) head
                                     (if sequential then head else None) prev ix)), s5)
            end
        end
    end.

(** [decorate_session] *)
Definition decorate_session (issue : TIssue) (p : PreparedRun) (s : St) : LSession * St :=
  let id := ti_id issue in
  let answer := match IssueRegistry.get id (reg s) with Some r => str_or (local_answer (clar r)) None | None => None end in
  let '(mode, s1) := attempt "single" (outside (lw_mode L issue)) s in
  (mkLSession issue "issue" mode (pp_base_branch p) (default 0 (dget id (oc_retry_attempts (p_orch s))) + 1) None []
     answer [] None,
   on_reg T (fun t => update t id (fun r => r)) s1).

(** [_prepare_intent_session] *)
Definition prepare_intent_session (x : LSession) (g : Registry) : LSession :=
  match IssueRegistry.get (ti_id (ls_issue x)) g with
  | Some r =>
      if negb (String.eqb (ti_id (ls_issue x)) "") && is_intent (intent (intents r)) IFollowup then
        mkLSession
          (match str_or (branch_name (sync r)) None with Some b => with_branch b (ls_issue x) | None => ls_issue x end)
          (if bool_decide (last_command (intents r) = Some "/issue review --reject") then "review_retry" else "agent_followup")
          (ls_mode x) (default (ls_base_branch x) (str_or (Some (base_branch (wspace r))) None)) (ls_attempt x)
          (option_map (fun n => (n, pr_url (sync r))) (str_or (pr_number (sync r)) None))
          (pending_feedback_ids (feedback r)) (ls_clarification x) (ls_previous_runs x) (ls_previous_error x)
      else x
  | None => x
  end.

(** The context of the previous runs. *)
Definition with_history (x : LSession) (g : Registry) : LSession :=
  match IssueRegistry.get (ti_id (ls_issue x)) g with
  | Some r =>
      mkLSession (ls_issue x) (ls_run_kind x) (ls_mode x) (ls_base_branch x) (ls_attempt x) (ls_pull_request x)
        (ls_feedback_ids x) (ls_clarification x) (previous_run_ids r)
        (str_or (verification_output (sync r)) (last_hook_error (sync r)))
  | None => x
  end.

(** [post_viz_gate] *)
Definition post_viz_gate (x : LSession) : M St exn (option LSession) := fun s =>
  if uses_review_feedback_followup (IssueRegistry.get (ti_id (ls_issue x)) (reg s)) then
    match launch_followup_with_pending_reviews T cfg (ls_issue x) s with
    | (Raise e, s1) => (Raise e, s1)
    | (Ret _, s1) => (Ret None, s1)
    end
  else (Ret (Some (with_history (prepare_intent_session x (reg s)) (reg s))), s).

(** The running map and the registry take the session. *)
Definition start_running (id : string) (s : St) : St :=
  on_reg T (fun t => mark_running t id)
    (on_orch (fun o => mkOrch (oc_max_concurrent o) (sadd id (oc_running o)) (oc_completed o) (oc_claimed o)
                         (oc_retry_queue o) (oc_retry_attempts o) (oc_registry o)) s).

(** [_launch_issue]: the session it starts, if it starts one. *)
Definition launch_session (issue0 : TIssue) : M St exn (option LSession) := fun s =>
  match prepare_launch issue0 s with
  | (Raise e, s1) => (Raise e, s1)
  | (Ret (_, None), s1) => (Ret None, s1)
  | (Ret (issue, Some p), s1) =>
      let '(x, s2) := decorate_session issue p s1 in
      match post_viz_gate x s2 with
      | (Raise e, s3) => (Raise e, s3)
      | (Ret None, s3) => (Ret None, s3)
      | (Ret (Some x'), s3) => (Ret (Some x'), start_running (ti_id issue) s3)
      end
  end.

Definition launch_issue (issue : TIssue) : M St exn unit := fun s =>
  match launch_session issue s with
  | (Raise e, s1) => (Raise e, s1)
  | (Ret _, s1) => (Ret tt, s1)
  end.
End launch.
