(* ===== verification/LaunchFacts.v ===== *)
(** * Facts about launching

    A launch keeps the slots as the poll expects, gives the claim back when it
    does not run, and brings a retried issue to a running session. *)

From S2P Require Import Prelude Errors Dag StageRunner Regex ImInbound ClarQueue Intent IssueRegistry RegistryFacts Kernel RetryQueue IssueProvider IssueProviderFacts Control ControlFacts Launch.

Open Scope string_scope.
Open Scope list_scope.
Open Scope Z_scope.

Section launch.
Context {W : Type} (T : PollOps W) (L : LaunchOps W) (cfg : PollConfig) (lc : LaunchConfig).

Local Abbreviation St := (PState W).

(** Steps that only ask the world. *)
Definition world_only (s s' : St) : Prop := p_orch s' = p_orch s /\ p_pending_review s' = p_pending_review s.

#[local] Instance world_only_preorder : PreOrder world_only.
Proof. split; [done|]. intros s1 s2 s3 [] []. split; congruence. Qed.

Lemma outside_world {A} (m : M W exn A) (s : St) : world_only s (snd (outside m s)).
Proof. unfold outside. by destruct (m (p_world s)). Qed.

Lemma attempt_world {A} (a : A) (m : M W exn A) (s : St) : world_only s (snd (attempt a (outside m) s)).
Proof. unfold attempt. pose proof (outside_world m s) as H. by destruct (outside m s) as [[]]. Qed.

Lemma guard_world issue (s : St) : world_only s (snd (launch_guard L lc issue s)).
Proof.
  unfold launch_guard. pose proof (outside_world (lw_refresh L (ti_id issue)) s) as H.
  destruct (outside _ s) as [res s1]. simpl in H. destruct res as [[x|]|e]; [|done..].
  destruct (negb _); [done|].
  assert (H2 : world_only s (snd (match pr_lookup L x with
    | Some find => match outside find s1 with (Raise e, s2) => (Raise e, s2) | (Ret pr, s2) => (Ret (is_some pr), s2) end
    | None => (Ret (E:=exn) false, s1) end))).
  { destruct (pr_lookup L x) as [find|]; [|done]. etrans; [exact H|]. pose proof (outside_world find s1) as H3.
    by destruct (outside find s1) as [[]]. }
  destruct (match pr_lookup L x with Some _ => _ | None => _ end) as [found s2]. simpl in H2.
  destruct found as [b|e]; [|done]. repeat case_match; exact H2.
Qed.

Lemma reset_slots issue (s : St) : same_slots s (prepare_intent_reset T L issue s).
Proof.
  unfold prepare_intent_reset. destruct (String.eqb _ _); [done|]. destruct (IssueRegistry.get _ _) as [r|]; [|done].
  destruct (is_intent _ _); [|done]. destruct (str_or _ _) as [pr|]; [|done].
  destruct (attempt_world false (lw_close_pr L pr (pr_url (sync r))) s) as [H _].
  unfold same_slots, on_reg, on_orch. simpl. by rewrite H.
Qed.

Lemma world_slots s s' : world_only s s' -> same_slots s s'.
Proof. intros [H _]. unfold same_slots. by rewrite H. Qed.

Lemma prepare_slots issue (s : St) : same_slots s (snd (prepare_launch T L cfg lc issue s)).
Proof.
  unfold prepare_launch. destruct (negb _); [done|]. cbv zeta.
  set (s1 := prepare_intent_reset T L issue s). assert (H1 : same_slots s s1) by apply reset_slots.
  set (issue' := match str_or (ti_branch_name issue) None with Some _ => _ | None => _ end).
  pose proof (world_slots _ _ (outside_world (lw_create L issue') s1)) as H2.
  destruct (outside (lw_create L issue') s1) as [[path|e] s2]; simpl in H2; [|by etrans].
  pose proof (world_slots _ _ (outside_world (lw_head L path) s2)) as H3.
  destruct (outside (lw_head L path) s2) as [[head|e] s3]; simpl in H3; [|simpl; etrans; [exact H1|by etrans]].
  destruct (sequence_of lc (reg s3)) as [prev ix]. set (s4 := on_reg T _ s3).
  pose proof (world_slots _ _ (guard_world issue' s4)) as H5. destruct (launch_guard L lc issue' s4) as [[g x] s5]. simpl in H5.
  assert (H : same_slots s s5) by (etrans; [exact H1|]; etrans; [exact H2|]; etrans; [exact H3|]; exact H5).
  by destruct g.
Qed.

Lemma decorate_slots issue p (s : St) : same_slots s (snd (decorate_session T L issue p s)).
Proof.
  unfold decorate_session. pose proof (attempt_world "single" (lw_mode L issue) s) as H.
  destruct (attempt "single" _ s) as [mode s1]. by apply world_slots in H.
Qed.

Lemma gate_slots x (s : St) : same_slots s (snd (post_viz_gate T cfg x s)).
Proof.
  unfold post_viz_gate. destruct (uses_review_feedback_followup _); [|done].
  pose proof (slots_followup T cfg (ls_issue x) s) as H. by destruct (launch_followup_with_pending_reviews _ _ _ _) as [[]].
Qed.

(** The session of a launch belongs to its issue. *)
Lemma prepare_id issue (s s' : St) issue' p : prepare_launch T L cfg lc issue s = (Ret (issue', p), s') -> ti_id issue' = ti_id issue.
Proof.
  unfold prepare_launch. destruct (negb _); [by intros [= <- _ _]|]. cbv zeta.
  set (i := match str_or (ti_branch_name issue) None with Some _ => _ | None => _ end).
  assert (Hi : ti_id i = ti_id issue) by (unfold i; by destruct (str_or _ _)). clearbody i.
  destruct (outside _ _) as [[path|e] s2]; [|by intros [= <- _ _]].
  destruct (outside _ _) as [[head|e] s3]; [|done]. destruct (sequence_of lc (reg s3)) as [prev ix].
  destruct (launch_guard _ _ _ _) as [[g x] s5]. by destruct g; intros [= <- _ _].
Qed.

(** The launch as the poll sees the slots. *)
Lemma launch_issue_slots issue (s : St) :
  oc_max_concurrent (p_orch (snd (launch_issue T L cfg lc issue s))) = oc_max_concurrent (p_orch s) /\
  (oc_running (p_orch (snd (launch_issue T L cfg lc issue s))) = oc_running (p_orch s)
   \/ oc_running (p_orch (snd (launch_issue T L cfg lc issue s))) = oc_running (p_orch s) ++ [ti_id issue]).
Proof.
  unfold launch_issue, launch_session. pose proof (prepare_slots issue s) as H1.
  destruct (prepare_launch T L cfg lc issue s) as [res s1] eqn:Ep. simpl in H1.
  destruct res as [[issue' [p|]]|e]; [|destruct H1; auto..].
  apply prepare_id in Ep. pose proof (decorate_slots issue' p s1) as H2. destruct (decorate_session T L issue' p s1) as [x s2].
  simpl in H2. pose proof (gate_slots x s2) as H3. destruct (post_viz_gate T cfg x s2) as [res s3]. simpl in H3.
  assert (H : same_slots s s3) by (etrans; [exact H1|]; by etrans). destruct H as [Hr Hm].
  destruct res as [[x'|]|e]; simpl; [|auto..]. split; [done|]. rewrite Ep, Hr. unfold sadd.
  destruct (mem _ _); auto.
Qed.
End launch.

(** The poll runs against a launch that only adds its own issue. *)
Lemma launch_slot_laws {W} (T : PollOps W) (L : LaunchOps W) cfg lc gate begin_poll :
  (forall g i s, gate = Some g -> same_slots s (snd (g i s))) -> (forall s, same_slots s (begin_poll s)) ->
  slot_laws gate begin_poll (launch_issue T L cfg lc).
Proof. intros Hg Hb. split; [done|done|]. apply launch_issue_slots. Qed.

Lemma get_register t id ident a conv g :
  IssueRegistry.get id (register t id ident a conv g) =
  Some (match IssueRegistry.get id g with
        | Some old => carry_over a old (fresh_record t id ident a (conversation old))
        | None => fresh_record t id ident a (Some conv)
        end).
Proof. unfold register. rewrite reg_get_save. unfold IssueRegistry.get at 1. simpl. by rewrite dget_dset_eq. Qed.

(** ** The retry sweep runs against the modelled launch *)

Section retried.
Context {W : Type} (T : PollOps W) (L : LaunchOps W) (cfg : PollConfig) (lc : LaunchConfig).

Local Abbreviation St := (PState W).

(** What a launch leaves alone besides the slots: the retry queue, what is
    completed, and every plan but its own. *)
Record kept (id : string) (s s' : St) : Prop := mkKept {
  kp_queue : oc_retry_queue (p_orch s') = oc_retry_queue (p_orch s);
  kp_completed : forall x, x ∈ oc_completed (p_orch s) -> x ∈ oc_completed (p_orch s');
  kp_plan : forall x, x <> id -> has_plan x (reg s') = has_plan x (reg s);
  kp_no_plan : has_plan id (reg s) = false -> has_plan id (reg s') = false;
}.

#[local] Instance kept_preorder id : PreOrder (kept id).
Proof.
  split; [by split|]. intros s1 s2 s3 [] []. split; eauto; congruence || (intros x Hx; etrans; eauto).
Qed.

Lemma kept_world id s s' : world_only s s' -> kept id s s'.
Proof. intros [H _]. split; unfold reg; by rewrite H. Qed.

Lemma launch_plan_update t d f g x :
  (forall r, next_retry_at (intents (f r)) = next_retry_at (intents r)) -> has_plan x (update t d f g) = has_plan x g.
Proof.
  intros Hf. unfold has_plan. rewrite update_get. destruct (decide (d = x)) as [<-|]; [|done].
  destruct (IssueRegistry.get d g) as [r|]; [|done]. simpl. by rewrite Hf.
Qed.

Lemma kept_reg id f (s : St) : (forall t g x, has_plan x (f t g) = has_plan x g) -> kept id s (on_reg T f s).
Proof. intros Hf. split; try done; unfold on_reg, on_orch, reg; simpl; intros; by rewrite Hf. Qed.

(** Registration drops the plan of a known record. *)
Lemma register_plan t id ident a conv g x :
  has_plan x (register t id ident a conv g) = if decide (x = id) then false else has_plan x g.
Proof.
  unfold has_plan. destruct (decide (x = id)) as [->|Hx].
  - rewrite get_register. by destruct (IssueRegistry.get id g).
  - unfold register. rewrite reg_get_save. unfold IssueRegistry.get. simpl. by rewrite dget_dset_ne by congruence.
Qed.

Lemma kept_register t id ident a conv (s : St) : kept id s (on_reg T (fun _ => register t id ident a conv) s).
Proof.
  split; try done; unfold on_reg, on_orch, reg; simpl; intros; rewrite register_plan; [by rewrite decide_False|].
  by rewrite decide_True.
Qed.

Lemma kept_orch id f (s : St) :
  (forall o, oc_retry_queue (f o) = oc_retry_queue o /\ oc_registry (f o) = oc_registry o
             /\ forall x, x ∈ oc_completed o -> x ∈ oc_completed (f o)) ->
  kept id s (on_orch f s).
Proof. intros Hf. destruct (Hf (p_orch s)) as (H1 & H2 & H3). split; unfold on_orch, reg; simpl; by rewrite ?H1, ?H2. Qed.

Lemma kept_drop id d (s : St) : kept id s (drop_claim d s).
Proof. by apply kept_orch. Qed.

Lemma keeps_settle id d (s : St) : kept id s (settle d s).
Proof.
  apply kept_orch. intros o. split_and!; [done..|]. intros x Hx. simpl. unfold sadd.
  destruct (mem d _); [done|]. apply elem_of_app. by left.
Qed.

Lemma kept_reset id issue (s : St) : kept id s (prepare_intent_reset T L issue s).
Proof.
  unfold prepare_intent_reset. destruct (String.eqb _ _); [done|]. destruct (IssueRegistry.get _ _) as [r|]; [|done].
  destruct (is_intent _ _); [|done].
  assert (Hr : forall s0 : St, kept id s0 (on_reg T (fun t => reset_for_retry t (ti_id issue) true false) s0)).
  { intros s0. apply kept_reg. intros t g x. unfold reset_for_retry. by rewrite launch_plan_update. }
  destruct (str_or _ _) as [pr|]; [|apply Hr]. etrans; [|apply Hr]. apply kept_world, attempt_world.
Qed.

Lemma kept_prepare issue (s : St) : kept (ti_id issue) s (snd (prepare_launch T L cfg lc issue s)).
Proof.
  unfold prepare_launch. destruct (negb _); [apply kept_drop|]. cbv zeta.
  set (s1 := prepare_intent_reset T L issue s). assert (H1 : kept (ti_id issue) s s1) by apply kept_reset.
  set (issue' := match str_or (ti_branch_name issue) None with Some _ => _ | None => _ end).
  pose proof (kept_world (ti_id issue) _ _ (outside_world (lw_create L issue') s1)) as H2.
  destruct (outside (lw_create L issue') s1) as [[path|e] s2]; simpl in H2;
    [|simpl; etrans; [exact H1|]; etrans; [exact H2|apply kept_drop]].
  pose proof (kept_world (ti_id issue) _ _ (outside_world (lw_head L path) s2)) as H3.
  destruct (outside (lw_head L path) s2) as [[head|e] s3]; simpl in H3; [|simpl; etrans; [exact H1|by etrans]].
  destruct (sequence_of lc (reg s3)) as [prev ix]. set (s4 := on_reg T _ s3).
  assert (H4 : kept (ti_id issue) s3 s4) by apply kept_register.
  pose proof (kept_world (ti_id issue) _ _ (guard_world L lc issue' s4)) as H5.
  destruct (launch_guard L lc issue' s4) as [[g x] s5]. simpl in H5.
  assert (H : kept (ti_id issue) s s5) by (etrans; [exact H1|]; etrans; [exact H2|]; etrans; [exact H3|]; by etrans).
  destruct g; simpl; [done|..]; (etrans; [exact H|]); [apply kept_drop|apply keeps_settle].
Qed.

Lemma kept_decorate id issue p (s : St) : kept id s (snd (decorate_session T L issue p s)).
Proof.
  unfold decorate_session. pose proof (attempt_world "single" (lw_mode L issue) s) as H.
  destruct (attempt "single" _ s) as [mode s1]. simpl. etrans; [apply kept_world, H|].
  apply kept_reg. intros t g x. by rewrite launch_plan_update.
Qed.

Lemma kept_reply id pr l (s : St) : kept id s (reply_all T pr l s).
Proof.
  revert s. induction l as [|f l IH]; intros s; [done|]. simpl. etrans; [|apply IH]. apply kept_world, attempt_world.
Qed.

Lemma keeps_gate id x (s : St) : kept id s (snd (post_viz_gate T cfg x s)).
Proof.
  unfold post_viz_gate. destruct (uses_review_feedback_followup _); [|done].
  unfold launch_followup_with_pending_reviews. destruct (IssueRegistry.get _ _) as [r|]; [|done].
  destruct (str_or _ _) as [pr|]; [|done].
  pose proof (kept_world id _ _ (outside_world (po_feedback T pr (pr_url (sync r)) (issue_id r)) s)) as H1.
  destruct (outside _ s) as [[l|e] s1]; [|done]. simpl in H1. cbv zeta.
  set (s2 := match List.filter _ l with [] => s1 | _ => _ end).
  assert (H2 : kept id s s2).
  { unfold s2. destruct (List.filter _ l); [done|]. etrans; [exact H1|]. etrans; [apply kept_reply|].
    apply kept_reg. intros t g y. unfold mark_feedback_processed. by rewrite launch_plan_update. }
  clearbody s2. destruct (List.filter (fun f => negb _ && negb _) l); exact H2.
Qed.

Lemma kept_launch issue (s : St) : kept (ti_id issue) s (snd (launch_issue T L cfg lc issue s)).
Proof.
  unfold launch_issue, launch_session. pose proof (kept_prepare issue s) as H1.
  destruct (prepare_launch T L cfg lc issue s) as [res s1]. simpl in H1.
  destruct res as [[issue' [p|]]|e]; [|done..].
  pose proof (kept_decorate (ti_id issue) issue' p s1) as H2. destruct (decorate_session T L issue' p s1) as [x s2].
  simpl in H2. pose proof (keeps_gate (ti_id issue) x s2) as H3. destruct (post_viz_gate T cfg x s2) as [res s3]. simpl in H3.
  assert (H : kept (ti_id issue) s s3) by (etrans; [exact H1|]; by etrans).
  destruct res as [[x'|]|e]; simpl; [|done..]. etrans; [exact H|]. unfold start_running.
  etrans; [|apply kept_reg; intros t g y; unfold mark_running; by rewrite launch_plan_update].
  by apply kept_orch.
Qed.

(** The sweep whose launches are the modelled ones; [full] is the rest of what
    the tracker returned for an issue. *)
Definition launching_sweep (now : Q) (ticks : string -> Tick)
    (fetch : string -> W * list string -> fetched * (W * list string)) (active : list string)
    (full : Issue -> TIssue) : Sweep (W * list string) :=
  mkSweep now ticks fetch active (fun issue '((w, pr), o) =>
    let '(res, s) := launch_issue T L cfg lc (full issue) (mkP w o pr) in
    (res, ((p_world s, p_pending_review s), p_orch s))).

(** The modelled launch keeps the promises that the sweep relies on. *)
Lemma launching_laws now ticks fetch active full :
  (forall key w issue w', fetch key w = (FetchFound issue, w') -> iss_id issue = key) ->
  (forall issue, ti_id (full issue) = iss_id issue) ->
  LaunchLaws (launching_sweep now ticks fetch active full).
Proof.
  intros Hf Hid. split; [exact Hf|]. intros issue [[w pr] o]. simpl.
  pose proof (kept_launch (full issue) (mkP w o pr)) as Hk.
  pose proof (launch_issue_slots T L cfg lc (full issue) (mkP w o pr)) as [Hm Hr].
  destruct (launch_issue T L cfg lc (full issue) (mkP w o pr)) as [res s]. simpl in *.
  destruct Hk as [Hq Hc Hp Hn]. rewrite Hid in *. by split.
Qed.
End retried.

(** ** The intent through a launch *)

Section intent.
Context {W : Type} (T : PollOps W) (L : LaunchOps W) (cfg : PollConfig) (lc : LaunchConfig).

Local Abbreviation St := (PState W).

(** The intent and its source, as far as a launch reads them. *)
Definition asked (id : string) (g : Registry) : option (Intent * option string) :=
  (fun r => (intent (intents r), intent_source (intents r))) <$> IssueRegistry.get id g.

Lemma asked_update t id f g d :
  (forall r, intent (intents (f r)) = intent (intents r) /\ intent_source (intents (f r)) = intent_source (intents r)) ->
  asked d (update t id f g) = asked d g.
Proof.
  intros Hf. unfold asked. rewrite update_get. destruct (decide (id = d)) as [<-|]; [|done].
  destruct (IssueRegistry.get id g) as [r|]; [|done]. simpl. destruct (Hf r) as [-> ->]. done.
Qed.

(** A launch registers the issue as pending; work that was finished before is
    not recognised any more by [is_terminal]. *)
Lemma register_not_terminal t id ident a conv g : ra_status a = None -> IssueRegistry.is_terminal id (register t id ident a conv g) = false.
Proof. intros Ha. unfold IssueRegistry.is_terminal. rewrite get_register. destruct (IssueRegistry.get id g); simpl; by rewrite Ha. Qed.

(** What is left to do for the intent of the record. *)
Definition review_followup_asked (o : option (Intent * option string)) : bool :=
  match o with
  | Some (i, src) => is_intent i IFollowup && negb (bool_decide (src = Some "chat"))
  | None => false
  end.

Lemma uses_asked id g : uses_review_feedback_followup (IssueRegistry.get id g) = review_followup_asked (asked id g).
Proof. unfold asked. by destruct (IssueRegistry.get id g). Qed.

Lemma asked_register t id ident a conv g :
  asked id (register t id ident a conv g) = Some (default (INone, None) (asked id g)).
Proof. unfold asked. rewrite get_register. by destruct (IssueRegistry.get id g). Qed.

Lemma asked_reset issue (s : St) : asked (ti_id issue) (reg (prepare_intent_reset T L issue s)) = asked (ti_id issue) (reg s).
Proof.
  unfold prepare_intent_reset. destruct (String.eqb _ _); [done|]. destruct (IssueRegistry.get _ _) as [r|]; [|done].
  destruct (is_intent _ _); [|done].
  set (s1 := match str_or (pr_number (sync r)) None with Some _ => _ | None => s end).
  assert (H1 : reg s1 = reg s).
  { unfold s1. destruct (str_or _ _) as [pr|]; [|done].
    destruct (attempt_world false (lw_close_pr L pr (pr_url (sync r))) s) as [H _]. unfold reg. by rewrite H. }
  rewrite <- H1. unfold reg at 1, on_reg, on_orch. simpl. by apply asked_update.
Qed.

(** After a launch that went on, the record asks what it asked before. *)
Lemma asked_prepare issue (s s' : St) issue' p :
  prepare_launch T L cfg lc issue s = (Ret (issue', Some p), s') ->
  asked (ti_id issue) (reg s') = Some (default (INone, None) (asked (ti_id issue) (reg s))).
Proof.
  unfold prepare_launch. destruct (negb _); [done|]. cbv zeta.
  set (s1 := prepare_intent_reset T L issue s). pose proof (asked_reset issue s) as H1. fold s1 in H1.
  set (i := match str_or (ti_branch_name issue) None with Some _ => _ | None => _ end).
  destruct (outside_world (lw_create L i) s1) as [H2 _]. destruct (outside (lw_create L i) s1) as [[path|e] s2]; [|done].
  destruct (outside_world (lw_head L path) s2) as [H3 _]. destruct (outside (lw_head L path) s2) as [[head|e] s3]; [|done].
  simpl in H2, H3. destruct (sequence_of lc (reg s3)) as [prev ix]. set (s4 := on_reg T _ s3).
  destruct (guard_world L lc i s4) as [H5 _]. destruct (launch_guard L lc i s4) as [[g x] s5]. simpl in H5.
  destruct g; intros [= _ _ <-].
  unfold reg at 1. rewrite H5. unfold s4, on_reg, on_orch. simpl. rewrite asked_register.
  do 2 f_equal. rewrite <- H1. unfold reg. by rewrite H3, H2.
Qed.

(** A launch without a session gives the claim back, unless the issue asks for
    a follow-up of review feedback. *)
Lemma launch_none_claim issue (s s' : St) :
  launch_session T L cfg lc issue s = (Ret None, s') ->
  uses_review_feedback_followup (IssueRegistry.get (ti_id issue) (reg s)) = false ->
  ti_id issue ∉ oc_claimed (p_orch s').
Proof.
  unfold launch_session. intros H Hu. destruct (prepare_launch T L cfg lc issue s) as [res s1] eqn:Ep.
  destruct res as [[issue' [p|]]|e]; [| |done].
  - exfalso. pose proof (prepare_id T L cfg lc _ _ _ _ _ Ep) as Hid. apply asked_prepare in Ep.
    unfold decorate_session in H. destruct (attempt_world "single" (lw_mode L issue') s1) as [Hw _].
    destruct (attempt "single" _ s1) as [mode s2]. simpl in Hw. unfold post_viz_gate in H. cbn [ls_issue] in H.
    rewrite uses_asked in H. rewrite Hid in H.
    assert (Ha : asked (ti_id issue) (reg (on_reg T (fun t => update t (ti_id issue) (fun r => r)) s2)) = asked (ti_id issue) (reg s1)).
    { unfold reg at 1, on_reg, on_orch. simpl. rewrite asked_update by done. unfold reg. by rewrite Hw. }
    rewrite Ha, Ep in H. rewrite uses_asked in Hu. cbn [review_followup_asked] in H.
    destruct (asked (ti_id issue) (reg s)) as [[i src]|]; simpl in Hu, H; [rewrite Hu in H|]; done.
  - injection H as <-. revert Ep. unfold prepare_launch. destruct (negb _).
    { intros [= _ <-]. apply not_in_sdiscard. }
    cbv zeta. destruct (outside _ _) as [[path|e] s2]; [|intros [= _ <-]; apply not_in_sdiscard].
    destruct (outside _ _) as [[head|e] s3]; [|done]. destruct (sequence_of lc (reg s3)) as [prev ix].
    destruct (launch_guard _ _ _ _) as [[g x] s5]. destruct g; intros [= _ <-]; apply not_in_sdiscard.
Qed.
End intent.

(** ** A retry reaches a running session *)

(** The workspace can be made and the tracker does not report the issue as gone. *)
Record ready_world {W} (L : LaunchOps W) (lc : LaunchConfig) (id : string) : Prop := mkReady {
  rw_create : forall i w, exists path, fst (lw_create L i w) = Ret path;
  rw_head : forall p w, exists head, fst (lw_head L p w) = Ret head;
  rw_refresh : forall w, (exists e, fst (lw_refresh L id w) = Raise e) \/
    exists x, fst (lw_refresh L id w) = Ret (Some x) /\ is_active lc x = true;
}.

Section retry.
Context {W : Type} (T : PollOps W) (L : LaunchOps W) (cfg : PollConfig) (lc : LaunchConfig).

Local Abbreviation St := (PState W).

Lemma outside_ret {A} (m : M W exn A) (s : St) a : fst (m (p_world s)) = Ret a -> exists s', outside m s = (Ret a, s') /\ world_only s s'.
Proof. unfold outside. destruct (m (p_world s)) as [res w]. simpl. intros ->. by eexists. Qed.

(** A retry passes the guards whatever pull requests there are. *)
Lemma guard_retry issue (s : St) :
  ready_world L lc (ti_id issue) -> bypasses (ti_id issue) s = true -> fst (fst (launch_guard L lc issue s)) = Proceed.
Proof.
  intros R Hb. unfold launch_guard. pose proof (outside_world (lw_refresh L (ti_id issue)) s) as [H _].
  destruct (rw_refresh _ _ _ R (p_world s)) as [[e He]|(x & Hx & Ha)].
  { revert H. unfold outside. destruct (lw_refresh L (ti_id issue) (p_world s)) as [res w]. simpl in He. by subst res. }
  destruct (outside_ret (lw_refresh L (ti_id issue)) s (Some x) Hx) as (s1 & -> & [H1 _]). rewrite Ha. cbn [negb].
  assert (H2 : p_orch (snd (match pr_lookup L x with
    | Some find => match outside find s1 with (Raise e, s2) => (Raise e, s2) | (Ret pr, s2) => (Ret (is_some pr), s2) end
    | None => (Ret (E:=exn) false, s1) end)) = p_orch s1).
  { destruct (pr_lookup L x) as [find|]; [|done]. destruct (outside_world find s1) as [H3 _]. by destruct (outside find s1) as [[]]. }
  destruct (match pr_lookup L x with Some _ => _ | None => _ end) as [found s2]. simpl in H2.
  assert (Hb2 : bypasses (ti_id issue) s2 = true) by (unfold bypasses, reg in *; by rewrite H2, H1).
  destruct found as [b|e]; [|done]. by rewrite Hb2, !andb_false_r.
Qed.

(** The record of a retried issue after the reset, and after the registration. *)
Lemma reset_record issue (s : St) r :
  ti_id issue <> "" -> IssueRegistry.get (ti_id issue) (reg s) = Some r -> intent (intents r) = IRetry ->
  exists r1, IssueRegistry.get (ti_id issue) (reg (prepare_intent_reset T L issue s)) = Some r1 /\
    intent (intents r1) = IRetry /\ pr_number (sync r1) = None.
Proof.
  intros Hid Hr Hi. unfold prepare_intent_reset. rewrite (proj2 (String.eqb_neq _ _) Hid), Hr, Hi.
  change (is_intent IRetry IRetry) with true. cbv iota.
  set (s1 := match str_or (pr_number (sync r)) None with Some _ => _ | None => s end).
  assert (H1 : reg s1 = reg s).
  { unfold s1. destruct (str_or _ _) as [pr|]; [|done].
    destruct (attempt_world false (lw_close_pr L pr (pr_url (sync r))) s) as [H _]. unfold reg. by rewrite H. }
  eexists. split.
  - unfold reg, on_reg, on_orch. simpl. unfold reset_for_retry. rewrite update_get, decide_True by done.
    change (oc_registry (p_orch s1)) with (reg s1). by rewrite H1, Hr.
  - done.
Qed.

Lemma prepare_retry issue (s : St) r :
  ready_world L lc (ti_id issue) -> ti_id issue <> "" -> dependencies_satisfied issue (reg s) = true ->
  IssueRegistry.get (ti_id issue) (reg s) = Some r -> intent (intents r) = IRetry ->
  exists issue' p s' r', prepare_launch T L cfg lc issue s = (Ret (issue', Some p), s') /\ ti_id issue' = ti_id issue /\
    IssueRegistry.get (ti_id issue) (reg s') = Some r' /\ intent (intents r') = IRetry /\ pr_number (sync r') = None.
Proof.
  intros R Hid Hdep Hr Hi. destruct (reset_record issue s r Hid Hr Hi) as (r1 & Hr1 & Hi1 & Hp1).
  unfold prepare_launch. rewrite Hdep. cbn [negb]. cbv zeta.
  set (s1 := prepare_intent_reset T L issue s) in *.
  set (i := match str_or (ti_branch_name issue) None with Some _ => _ | None => _ end).
  assert (Hii : ti_id i = ti_id issue) by (unfold i; by destruct (str_or _ _)). clearbody i s1.
  destruct (rw_create _ _ _ R i (p_world s1)) as [path Hc].
  destruct (outside_ret (lw_create L i) s1 path Hc) as (s2 & -> & [H2 _]).
  destruct (rw_head _ _ _ R path (p_world s2)) as [head Hh].
  destruct (outside_ret (lw_head L path) s2 head Hh) as (s3 & -> & [H3 _]).
  destruct (sequence_of lc (reg s3)) as [prev ix]. set (args := launch_args cfg lc i _ path head prev ix).
  set (s4 := on_reg T _ s3).
  assert (Hr3 : IssueRegistry.get (ti_id issue) (reg s3) = Some r1) by (unfold reg in *; by rewrite H3, H2).
  assert (Hr4 : exists r4, IssueRegistry.get (ti_id issue) (reg s4) = Some r4 /\ intent (intents r4) = IRetry /\ pr_number (sync r4) = None).
  { unfold s4, reg, on_reg, on_orch. simpl. rewrite get_register. change (oc_registry (p_orch s3)) with (reg s3). rewrite Hr3. by eexists. }
  destruct Hr4 as (r4 & Hr4 & Hi4 & Hp4).
  assert (Hb : bypasses (ti_id i) s4 = true) by (unfold bypasses; by rewrite Hii, Hr4, Hi4).
  rewrite <- Hii in R. pose proof (guard_retry i s4 R Hb) as Hg. destruct (guard_world L lc i s4) as [H5 _].
  destruct (launch_guard L lc i s4) as [[g x] s5]. simpl in Hg, H5. subst g.
  eexists _, _, s5, r4. split; [reflexivity|]. split; [done|]. split; [|done]. unfold reg. by rewrite H5.
Qed.

Lemma launch_retry_runs issue (s : St) r :
  ready_world L lc (ti_id issue) -> ti_id issue <> "" -> dependencies_satisfied issue (reg s) = true ->
  IssueRegistry.get (ti_id issue) (reg s) = Some r -> intent (intents r) = IRetry ->
  exists x s' r', launch_session T L cfg lc issue s = (Ret (Some x), s') /\ ti_id issue ∈ oc_running (p_orch s') /\
    ls_run_kind x = "issue" /\ IssueRegistry.get (ti_id issue) (reg s') = Some r' /\ status r' = RUNNING /\ pr_number (sync r') = None.
Proof.
  intros R Hid Hdep Hr Hi. destruct (prepare_retry issue s r R Hid Hdep Hr Hi) as (issue' & p & s1 & r1 & Hp & Hii & Hr1 & Hi1 & Hn1).
  unfold launch_session. rewrite Hp. unfold decorate_session. destruct (attempt_world "single" (lw_mode L issue') s1) as [Hw _].
  destruct (attempt "single" _ s1) as [mode s2]. simpl in Hw. rewrite Hii.
  set (s3 := on_reg T (fun t => update t (ti_id issue) (fun r => r)) s2).
  assert (Hr3 : exists t, IssueRegistry.get (ti_id issue) (reg s3) = Some (touch t r1)).
  { exists (wall (ptick T s2)). unfold s3, reg, on_reg, on_orch. simpl. rewrite update_get, decide_True by done.
    rewrite Hw. change (oc_registry (p_orch s1)) with (reg s1). by rewrite Hr1. }
  destruct Hr3 as [t Hr3]. unfold post_viz_gate. cbn [ls_issue]. rewrite Hii, Hr3. unfold uses_review_feedback_followup.
  cbn [intents touch set_run intent]. change (intents (touch t r1)) with (intents r1). rewrite Hi1.
  change (is_intent IRetry IFollowup) with false. cbn [andb].
  assert (Hk : ls_run_kind (with_history (prepare_intent_session (mkLSession issue' "issue" mode (pp_base_branch p)
     (default 0 (dget (ti_id issue) (oc_retry_attempts (p_orch s1))) + 1) None []
     (match IssueRegistry.get (ti_id issue) (reg s1) with Some r0 => str_or (local_answer (clar r0)) None | None => None end) [] None)
     (reg s3)) (reg s3)) = "issue").
  { unfold prepare_intent_session. cbn [ls_issue]. rewrite Hii, Hr3. change (intents (touch t r1)) with (intents r1). rewrite Hi1.
    change (is_intent IRetry IFollowup) with false. rewrite andb_false_r. unfold with_history. cbn [ls_issue]. by rewrite Hii, Hr3. }
  assert (Hfin : forall tk, exists r', IssueRegistry.get (ti_id issue) (mark_running tk (ti_id issue) (reg s3)) = Some r' /\
    status r' = RUNNING /\ pr_number (sync r') = None).
  { intros tk. unfold mark_running. rewrite update_get, decide_True, Hr3 by done. by eexists. }
  destruct (Hfin (ptick T s3)) as (r' & Hg & Hs & Hn).
  eexists _, _, r'. split; [reflexivity|]. split; [apply in_sadd|]. split; [exact Hk|]. split; [exact Hg|done].
Qed.
End retry.

(** ** Theorems *)

(** A retry command ends in a running session.  Whatever became of a
    registered issue before, completed, failed or under review, after the retry
    command the next poll that has a free slot, finds neither labels nor comment
    commands for it, its dependencies done and the clarification gate open
    starts a fresh run of it: the issue runs, its record says so and knows no
    pull request any more, whatever pull requests the tracker still shows. *)
Theorem retry_command_runs {W} (T : PollOps W) (C : ControlOps W) (L : LaunchOps W) (cfg : PollConfig) (lc : LaunchConfig)
    (gate : option (TIssue -> M (PState W) exn bool)) (issue : TIssue) (r : IssueRecord) (reason : string) (slots : Z) (s : CState W) :
  IssueRegistry.get (ti_id issue) (creg s) = Some r -> ti_id issue <> "" -> ti_id issue ∉ oc_running (corch s) ->
  quiet T issue -> 0 < pc_max_retries_per_issue cfg -> 0 < slots ->
  dependencies_satisfied issue (creg s) = true -> ti_id issue ∉ ti_depends_on issue ->
  (forall p, exists p', gate_lets_through cfg gate issue p = (true, p') /\ p_orch p' = p_orch p) ->
  ready_world L lc (ti_id issue) ->
  exists p r', dispatch_loop T cfg gate (launch_issue T L cfg lc) slots [issue] [] (c_poll (handle_retry_control T C (ti_id issue) reason s))
      = (Ret [issue], p) /\
    ti_id issue ∈ oc_running (p_orch p) /\ IssueRegistry.get (ti_id issue) (reg p) = Some r' /\
    status r' = RUNNING /\ pr_number (sync r') = None /\ intent (intents r') = INone.
Proof.
  intros Hr Hid Hrun Hq Hmax Hsl Hdep Hself Hgate R.
  destruct (retry_control_considered T C cfg gate issue r reason s Hr Hid Hrun Hq Hmax Hdep Hself Hgate) as (p & r1 & Hc & Hr1 & Hi1 & Hd1).
  cbn [dispatch_loop length]. rewrite (proj2 (Z.leb_gt _ _)) by (simpl; lia). rewrite Hc.
  set (p2 := on_orch _ p).
  destruct (launch_retry_runs T L cfg lc issue p2 r1 R Hid Hd1 Hr1 Hi1) as (x & p3 & r3 & Hl & Hin & _ & Hr3 & Hs3 & Hn3).
  unfold launch_issue. rewrite Hl, (proj2 (mem_true _ _) Hin). cbn [app].
  unfold clear_cli. rewrite bool_decide_true by done. eexists _, _. split; [reflexivity|]. split; [exact Hin|].
  unfold reg, on_reg, on_orch. cbn [p_orch set_registry oc_registry]. unfold clear_intent. rewrite update_get, decide_True by done.
  change (oc_registry (p_orch p3)) with (reg p3). rewrite Hr3. cbn [fmap option_fmap option_map]. split; [reflexivity|].
  split; [exact Hs3|]. split; [exact Hn3|]. done.
Qed.

(** A launch that starts nothing gives the claim back.  Whatever the
    workspace and the tracker do, a launch that returns without a session leaves
    the issue unclaimed, so that later polls consider it again, and no issue
    starts to run; the exception is an issue whose record asks for a follow-up of
    review feedback. *)
Theorem gated_launch_releases_claim {W} (T : PollOps W) (L : LaunchOps W) (cfg : PollConfig) (lc : LaunchConfig)
    (issue : TIssue) (s s' : PState W) :
  launch_session T L cfg lc issue s = (Ret None, s') ->
  uses_review_feedback_followup (IssueRegistry.get (ti_id issue) (reg s)) = false ->
  ti_id issue ∉ oc_claimed (p_orch s') /\ (ti_id issue ∉ oc_running (p_orch s) -> oc_running (p_orch s') = oc_running (p_orch s)).
Proof.
  intros Hl Hu. split; [by apply (launch_none_claim T L cfg lc issue s s')|]. intros Hn.
  revert Hl. unfold launch_session. pose proof (prepare_slots T L cfg lc issue s) as [H1 _].
  destruct (prepare_launch T L cfg lc issue s) as [res s1]. simpl in H1. destruct res as [[issue' [p|]]|e]; [| |done].
  - pose proof (decorate_slots T L issue' p s1) as [H2 _]. destruct (decorate_session T L issue' p s1) as [x s2]. simpl in H2.
    pose proof (gate_slots T cfg x s2) as [H3 _]. destruct (post_viz_gate T cfg x s2) as [[[x'|]|e] s3]; [done| |done].
    simpl in H3. intros [= <-]. congruence.
  - by intros [= <-].
Qed.

(** The configured base branch is lost at the launch.  When the tracker has
    pull requests and gives the issue a branch name, but no base branch of its
    own, a launch without follow-up bases the session on main, whatever base
    branch is configured and registered for the issue. *)
Theorem configured_base_branch_lost {W} (T : PollOps W) (L : LaunchOps W) (cfg : PollConfig) (lc : LaunchConfig)
    (issue : TIssue) (s s' : PState W) (x : LSession) (find : string -> string -> M W exn (option string)) :
  launch_session T L cfg lc issue s = (Ret (Some x), s') -> ls_run_kind x = "issue" ->
  lw_find_pr L = Some find ->
  (forall w, exists rx, fst (lw_refresh L (ti_id issue) w) = Ret (Some rx) /\ str_or (rf_branch_name rx) None <> None /\ rf_base_branch rx = None) ->
  ls_base_branch x = "main".
Proof.
  intros Hl Hk Hfind Href. revert Hl. unfold launch_session.
  assert (Hp : forall i p s1, prepare_launch T L cfg lc issue s = (Ret (i, Some p), s1) -> pp_base_branch p = "main").
  { intros i p s1. unfold prepare_launch. destruct (negb _); [done|]. cbv zeta.
    set (i' := match str_or (ti_branch_name issue) None with Some _ => _ | None => _ end).
    assert (Hi : ti_id i' = ti_id issue) by (unfold i'; by destruct (str_or _ _)). clearbody i'.
    destruct (outside _ _) as [[path|e] s2]; [|done]. destruct (outside _ _) as [[head|e] s3]; [|done].
    destruct (sequence_of lc (reg s3)) as [prev ix]. set (s4 := on_reg T _ s3).
    destruct (Href (p_world s4)) as (rx & Hrx & Hb & Hn). unfold launch_guard. rewrite Hi.
    destruct (outside_ret (lw_refresh L (ti_id issue)) s4 (Some rx) Hrx) as (s5 & -> & _).
    assert (Hbase : run_base L cfg i' (Some rx) = "main").
    { unfold run_base, pr_lookup. destruct (str_or (rf_branch_name rx) None); [|done]. rewrite Hfind, Hn. done. }
    destruct (negb (is_active lc rx)); [done|].
    destruct (match pr_lookup L rx with Some _ => _ | None => _ end) as [[b|e] s6].
    - destruct (b && _); [done|]. destruct (_ && negb _); [done|]. intros [= _ <- _]. exact Hbase.
    - intros [= _ <- _]. exact Hbase. }
  destruct (prepare_launch T L cfg lc issue s) as [[[i [p|]]|e] s1]; [|done..]. specialize (Hp i p s1 eq_refl).
  unfold decorate_session. destruct (attempt "single" _ s1) as [mode s2]. unfold post_viz_gate.
  destruct (uses_review_feedback_followup _); [by destruct (launch_followup_with_pending_reviews _ _ _ _) as [[]]|].
  intros [= <- _]. unfold with_history, prepare_intent_session in *. cbn [ls_issue] in *.
  set (s3 := on_reg T _ s2) in *. destruct (IssueRegistry.get (ti_id i) (reg s3)) as [r|] eqn:Er; cbn [ls_issue] in *; [|by rewrite Er].
  destruct (_ && _).
  - exfalso. revert Hk. destruct (str_or (branch_name (sync r)) None); cbn [ls_issue with_branch ti_id];
      rewrite Er; cbn [ls_run_kind]; by destruct (bool_decide _).
  - cbn [ls_issue] in *. by rewrite Er.
Qed.

(** ** A concrete launch *)

Definition demo_refreshed : Refreshed := mkRefreshed (Some " Open ") (Some "fix-7") None.

(** The tracker that answers [x] and shows the pull request [pr]. *)
Definition demo_launch_ops (x : option Refreshed) (pr : option string) : LaunchOps unit :=
  mkLaunchOps (fun _ => "orchestratord/issue") (fun i w => (Ret ("/ws/" +:+ ti_id i), w)) (fun _ w => (Ret (Some "h0"), w))
    (fun _ _ w => (Ret true, w)) (fun _ w => (Ret x, w)) (Some (fun _ _ w => (Ret pr, w))) (fun _ w => (Ret "single", w)).

Definition demo_lc : LaunchConfig := mkLaunchConfig "isolated" None "/ws" ["open"].
Definition develop_cfg : PollConfig := mkPollConfig (Some "develop") false false 3 3 false true 2.

Lemma retry_command_runs_witness :
  exists p r', dispatch_loop poll_ops poll_cfg poll_gate
      (launch_issue poll_ops (demo_launch_ops (Some demo_refreshed) (Some "12")) poll_cfg demo_lc) 1 [poll_issue "7" []] []
      (c_poll (handle_retry_control poll_ops ctl_ops "7" "again" (ctl_state []))) = (Ret [poll_issue "7" []], p) /\
    "7" ∈ oc_running (p_orch p) /\ IssueRegistry.get "7" (reg p) = Some r' /\
    status r' = RUNNING /\ pr_number (sync r') = None /\ intent (intents r') = INone.
Proof.
  eapply (retry_command_runs poll_ops ctl_ops (demo_launch_ops (Some demo_refreshed) (Some "12")) poll_cfg demo_lc poll_gate
            (poll_issue "7" []) _ "again" 1 (ctl_state [])).
  - vm_compute. reflexivity.
  - discriminate.
  - apply mem_false. reflexivity.
  - exact quiet_seven.
  - reflexivity.
  - reflexivity.
  - reflexivity.
  - apply mem_false. reflexivity.
  - intros p. exists p. split; reflexivity.
  - split.
    + intros i w. exists ("/ws/" +:+ ti_id i). reflexivity.
    + intros p w. exists (Some "h0"). reflexivity.
    + intros w. right. exists demo_refreshed. split; reflexivity.
Defined.

Lemma gated_launch_releases_claim_witness :
  let s := poll_state 2 in
  let r := launch_session poll_ops (demo_launch_ops None None) poll_cfg demo_lc (poll_issue "7" []) s in
  fst r = Ret None /\ "7" ∉ oc_claimed (p_orch (snd r)).
Proof.
  cbv zeta. split; [vm_compute; reflexivity|].
  apply (gated_launch_releases_claim poll_ops (demo_launch_ops None None) poll_cfg demo_lc (poll_issue "7" []) (poll_state 2)).
  - vm_compute. reflexivity.
  - reflexivity.
Defined.

Lemma configured_base_branch_lost_witness :
  exists x s', launch_session poll_ops (demo_launch_ops (Some demo_refreshed) None) develop_cfg demo_lc (poll_issue "1" []) (poll_state 2)
      = (Ret (Some x), s') /\ ls_base_branch x = "main" /\
    (base_branch ∘ wspace) <$> IssueRegistry.get "1" (reg s') = Some "develop".
Proof.
  eexists _, _. split; [vm_compute; reflexivity|]. split; [|reflexivity].
  eapply (configured_base_branch_lost poll_ops (demo_launch_ops (Some demo_refreshed) None) develop_cfg demo_lc (poll_issue "1" []) (poll_state 2)).
  - vm_compute. reflexivity.
  - reflexivity.
  - reflexivity.
  - intros w. exists demo_refreshed. split; [reflexivity|]. split; [discriminate|reflexivity].
Defined.
