(* ===== verification/PrMaintenance.v ===== *)
(** * Upkeep of pull requests between the polls
    ([src/orchestratord/applications/issue_pr/interpret.py])

    The periodic loops of the issue application: the runs that resolve rebase
    conflicts and the check of their result, the scan for conflicts, the closing
    of issues whose pull request was merged, and the escalation of clarifications
    that ran out.  Tracker, git and workspaces are parameters.  Events, audit
    entries and the dashboard feed nothing back and are left out. *)

From S2P Require Import Prelude Errors Dag StageRunner Regex ImInbound Intent IssueRegistry RegistryFacts Kernel RetryQueue IssueProvider.

Open Scope string_scope.
Open Scope list_scope.
Open Scope Z_scope.

(** What is read of a [MergeableStatus]; [ms_payload] is the payload in [raw],
    its state and whether it says that the request was merged. *)
Record MergeableStatus := mkMergeable {
  ms_has_conflicts : bool;
  ms_merged : bool;
  ms_payload : option (option string * bool);
}.

Record ScanConfig := mkScanConfig {
  sc_enabled : bool;
  sc_poll_interval_ms : Z;
  sc_scan_states : list string;
}.

(** Tracker and workspaces; [mo_mergeable] is missing when the tracker does not
    maintain pull requests. *)
Record MaintOps (W : Type) := mkMaintOps {
  mo_mergeable : option (string -> option string -> M W exn (option MergeableStatus));
  mo_issue_state : string -> M W exn (option (TIssue * option string));
  mo_create : TIssue -> M W exn (option string);
  mo_monotonic : W -> Q;
  mo_terminal_states : option (list string);
}.
Arguments mkMaintOps {W}.
Arguments mo_mergeable {W}.
Arguments mo_issue_state {W}.
Arguments mo_create {W}.
Arguments mo_monotonic {W}.
Arguments mo_terminal_states {W}.

Record MState (W : Type) := mkM {
  m_poll : PState W;
  m_scan_last : Q;
  m_close_last : Q;
}.
Arguments mkM {W}.
Arguments m_poll {W}.
Arguments m_scan_last {W}.
Arguments m_close_last {W}.

(** [_extract_pr_state] *)
Definition extract_pr_state (m : MergeableStatus) : string :=
  match ms_payload m with
  | None => ""
  | Some (state, merged) =>
      let st := lower (strip (default "" state)) in
      if String.eqb st "closed" && merged then "merged" else st
  end.

(** [_is_terminal_issue_state] *)
Definition is_terminal_issue_state (terminal : option (list string)) (state : option string) : bool :=
  match state, terminal with
  | Some st, Some l =>
      negb (String.eqb (strip st) "")
      && mem (lower (strip st)) (map (fun x => lower (strip x)) (List.filter (fun x => negb (String.eqb (strip x) "")) l))
  | _, _ => false
  end.

(** [Issue(id=..., identifier=...)] made from a record *)
Definition record_issue (r : IssueRecord) (branch : option string) : TIssue :=
  mkTIssue (issue_id r) (issue_identifier r) branch None None [] [].

Definition with_pr_state (st : string) (r : IssueRecord) : IssueRecord :=
  let x := sync r in
  set_sync (mkSyncInfo (branch_name x) (commit_sha x) (pr_number x) (pr_url x) (pr_created_at x) (Some st)
              (report_path x) (verification_status x) (verification_output x) (last_hook_error x) (summary_comment_id x)) r.

Definition set_wspace (x : WorkspaceInfo) (r : IssueRecord) : IssueRecord :=
  mkIssueRecord (issue_id r) (issue_identifier r) (schema_version r) (status r) (created_at r) (attempt_count r) (conversation r)
    (previous_run_ids r) (sync r) x (clar r) (feedback r) (intents r) (conflict r) (run_info r).

Definition with_workspace (path : string) (r : IssueRecord) : IssueRecord :=
  let x := wspace r in
  set_wspace (mkWorkspaceInfo (base_branch x) (workspace_strategy x) (Some path) (base_commit_sha x) (start_commit_sha x)
                (previous_issue_id x) (sequence_index x)) r.

(** The result of a git command: its output and its exit code. *)
Definition Git : Type := list string -> string * Z.

(** The lines of [git ls-remote]: reference and commit. *)
Definition remote_heads (out : string) : dict string string :=
  fold_left (fun d line => match py_split line with
                           | sha :: ref :: _ => dset ref sha d
                           | _ => d
                           end)
    (splitlines out) [].

(** [_rebase_conflict_resolved] below the repository root; [active] tells whether
    the state directory of an unfinished rebase exists. *)
Definition check_resolved (git : Git) (active : string -> bool) (previous : option string) (base branch : string)
    : option string :=
  let ok args := (snd (git args) =? 0) in
  if negb (String.eqb (strip (fst (git ["diff"; "--name-only"; "--diff-filter=U"]))) "") then None
  else if existsb (fun st => let '(out, rc) := git ["rev-parse"; "--git-path"; st] in
                             negb (rc =? 0) || String.eqb out "" || active out) ["rebase-merge"; "rebase-apply"] then None
  else
    let head := strip (fst (git ["rev-parse"; "HEAD"])) in
    if negb (ok ["rev-parse"; "HEAD"]) || String.eqb head "" then None
    else if bool_decide (str_or previous None = Some head) then None
    else if negb (ok ["rev-parse"; "--abbrev-ref"; "HEAD"])
            || negb (String.eqb (strip (fst (git ["rev-parse"; "--abbrev-ref"; "HEAD"]))) branch) then None
    else
      let remote := ["ls-remote"; "--heads"; "origin"; "refs/heads/" +:+ base; "refs/heads/" +:+ branch] in
      if negb (ok remote) then None
      else
        let heads := remote_heads (fst (git remote)) in
        match str_or (dget ("refs/heads/" +:+ base) heads) None with
        | None => None
        | Some remote_base =>
            if bool_decide (dget ("refs/heads/" +:+ branch) heads = Some head)
               && ok ["merge-base"; "--is-ancestor"; remote_base; head]
            then Some head else None
        end.

Definition rebase_conflict_resolved (root : string -> option string) (git : string -> Git) (active : string -> string -> bool)
    (workspace previous base branch : option string) : option string :=
  match str_or workspace None, str_or base None, str_or branch None with
  | Some ws, Some b, Some br =>
      match str_or (root ws) None with
      | Some repo => check_resolved (git repo) (active repo) previous b br
      | None => None
      end
  | _, _, _ => None
  end.

Section maintenance.
Context {W : Type} (T : PollOps W) (O : MaintOps W) (cfg : PollConfig) (sc : ScanConfig).

Local Abbreviation St := (MState W).

Definition on_mpoll (f : PState W -> PState W) (s : St) : St := mkM (f (m_poll s)) (m_scan_last s) (m_close_last s).
Definition mreg (s : St) : Registry := reg (m_poll s).
Definition morch (s : St) : Orch := p_orch (m_poll s).

Definition mpolling {A} (m : M (PState W) exn A) : M St exn A := fun s =>
  let (r, p) := m (m_poll s) in (r, on_mpoll (fun _ => p) s).

Definition monotonic (s : St) : Q := mo_monotonic O (p_world (m_poll s)).

(** [last_run > 0 and now - last_run < interval] *)
Definition too_soon (last now interval : Q) : bool := qlt 0 last && qlt (now - last) interval.

(** ** The conflict scan *)

(** A record that the scan looks at. *)
Definition scannable (r : IssueRecord) : bool :=
  negb (String.eqb (issue_id r) "") && is_some (str_or (pr_number (sync r)) None) && is_some (str_or (branch_name (sync r)) None)
  && match str_or (pr_state (sync r)) None with Some st => mem st (sc_scan_states sc) | None => true end.

(** The state of the pull request is written back; whether it is still scanned. *)
Definition note_pr_state (id : string) (m : MergeableStatus) (s : St) : bool * St :=
  let remote := extract_pr_state m in
  if String.eqb remote "" then (true, s)
  else
    let s1 := match IssueRegistry.get id (mreg s) with
              | Some r => if bool_decide (pr_state (sync r) = Some remote) then s
                          else on_mpoll (on_reg T (assign id (with_pr_state remote))) s
              | None => s
              end in
    (mem remote (sc_scan_states sc), s1).

(** One record of the scan. *)
Definition scan_one (id : string) : M St exn unit := fun s =>
  match IssueRegistry.get id (mreg s) with
  | None => (Ret tt, s)
  | Some r =>
      if negb (scannable r) then (Ret tt, s)
      else
        let '(ok, p) := check_rebase_rate_limit T cfg (record_issue r None) (m_poll s) in
        let s1 := on_mpoll (fun _ => p) s in
        if negb ok then (Ret tt, s1)
        else match mo_mergeable O with
             | None => (Ret tt, s1)
             | Some fetch =>
                 match mpolling (outside (fetch (default "" (pr_number (sync r))) (pr_url (sync r)))) s1 with
                 | (Raise _, s2) | (Ret None, s2) => (Ret tt, s2)
                 | (Ret (Some m), s2) =>
                     let '(scanned, s3) := note_pr_state id m s2 in
                     if negb scanned || negb (ms_has_conflicts m) then (Ret tt, s3)
                     else match mpolling (outside (mo_issue_state O id)) s3 with
                          | (Raise e, s4) => (Raise e, s4)
                          | (Ret found, s4) =>
                              if match found with Some (_, st) => is_terminal_issue_state (mo_terminal_states O) st | None => false end
                              then (Ret tt, s4)
                              else
                                let issue := match found with Some (i, _) => i | None => record_issue r (branch_name (sync r)) end in
                                match mpolling (process_rebase_intent T cfg issue None) s4 with
                                | (Raise e, s5) => (Raise e, s5)
                                | (Ret _, s5) => (Ret tt, s5)
                                end
                          end
                 end
             end
  end.

Fixpoint scan_all (ids : list string) : M St exn unit := fun s =>
  match ids with
  | [] => (Ret tt, s)
  | id :: ids' => match scan_one id s with
                  | (Ret _, s1) => scan_all ids' s1
                  | (Raise e, s1) => (Raise e, s1)
                  end
  end.

(** [_process_pr_conflict_scan] *)
Definition process_pr_conflict_scan : M St exn unit := fun s =>
  if negb (sc_enabled sc) then (Ret tt, s)
  else if too_soon (m_scan_last s) (monotonic s) (inject_Z (sc_poll_interval_ms sc) / 1000) then (Ret tt, s)
  else scan_all (dkeys (records (mreg s))) (mkM (m_poll s) (monotonic s) (m_close_last s)).

(** ** Merged pull requests *)

Definition close_one (id : string) (s : St) : St :=
  match IssueRegistry.get id (mreg s) with
  | None => s
  | Some r =>
      match str_or (Some (issue_id r)) None, str_or (pr_number (sync r)) None with
      | Some _, Some pr =>
          if bool_decide (status r = SYNCED) || bool_decide (status r = COMPLETED) then
            match mo_mergeable O with
            | None => s
            | Some fetch =>
                match mpolling (outside (fetch pr (pr_url (sync r)))) s with
                | (Ret (Some m), s1) =>
                    if ms_merged m then on_mpoll (fun p => snd (sync_tracker_issue_state T (issue_id r) "completed" p)) s1 else s1
                | (_, s1) => s1
                end
            end
          else s
      | _, _ => s
      end
  end.

(** [_close_merged_pr_issues] *)
Definition close_merged_pr_issues (s : St) : St :=
  if too_soon (m_close_last s) (monotonic s) 60 then s
  else fold_left (fun s id => close_one id s) (dkeys (records (mreg s))) (mkM (m_poll s) (m_scan_last s) (monotonic s)).

(** ** Conflict resolution *)

(** The workspace of a conflict run is recorded when the record has none. *)
Definition ensure_workspace (issue : TIssue) (r : IssueRecord) (s : St) : St :=
  match mpolling (outside (mo_create O issue)) s with
  | (Raise _, s1) => s1
  | (Ret path, s1) =>
      match str_or path (workspace_path (wspace r)), str_or (workspace_path (wspace r)) None with
      | Some p, None => on_mpoll (on_reg T (assign (issue_id r) (with_workspace p))) s1
      | _, _ => s1
      end
  end.

(** One record of [_process_pending_rebase_conflicts]: the issue whose
    resolution is started. *)
Definition conflict_one (id : string) : M St exn (option TIssue) := fun s =>
  match IssueRegistry.get id (mreg s) with
  | None => (Ret None, s)
  | Some r =>
      if String.eqb (issue_id r) "" || mem (issue_id r) (oc_running (morch s)) || mem (issue_id r) (oc_claimed (morch s))
         || negb (has_conflict (conflict r)) then (Ret None, s)
      else
        let '(ok, p) := check_rebase_rate_limit T cfg (record_issue r None) (m_poll s) in
        let s1 := on_mpoll (fun _ => p) s in
        if negb ok then (Ret None, s1)
        else match mpolling (outside (mo_issue_state O (issue_id r))) s1 with
             | (Raise e, s2) => (Raise e, s2)
             | (Ret found, s2) =>
                 let issue := match found with Some (i, _) => i | None => record_issue r (branch_name (sync r)) end in
                 (Ret (Some issue), ensure_workspace issue r s2)
             end
  end.

Fixpoint conflict_loop (slots : Z) (ids : list string) (launched : list TIssue) : M St exn (list TIssue) := fun s =>
  match ids with
  | [] => (Ret launched, s)
  | id :: ids' =>
      if slots <=? Z.of_nat (length launched) then (Ret launched, s)
      else match conflict_one id s with
           | (Raise e, s1) => (Raise e, s1)
           | (Ret None, s1) => conflict_loop slots ids' launched s1
           | (Ret (Some i), s1) => conflict_loop slots ids' (launched ++ [i]) s1
           end
  end.

(** [_process_pending_rebase_conflicts]: the resolutions that are started. *)
Definition process_pending_rebase_conflicts : M St exn (list TIssue) := fun s =>
  let slots := oc_max_concurrent (morch s) - Z.of_nat (length (oc_running (morch s))) in
  if slots <=? 0 then (Ret [], s) else conflict_loop slots (dkeys (records (mreg s))) [] s.

(** [_finalize_rebase_resolution]; git is asked through [resolved]. *)
Definition finalize_rebase_resolution (resolved : option string -> option string -> option string -> option string -> option string)
    (issue : TIssue) (s : St) : St :=
  let id := ti_id issue in
  let r := IssueRegistry.get id (mreg s) in
  let branch := match r with Some r => str_or (branch_name (sync r)) (ti_branch_name issue) | None => ti_branch_name issue end in
  match resolved (match r with Some r => workspace_path (wspace r) | None => None end)
                 (match r with Some r => commit_sha (sync r) | None => None end)
                 (option_map (fun r => base_branch (wspace r)) r) branch with
  | Some head =>
      let s1 := on_mpoll (on_reg T (fun t => clear_conflict t id)) s in
      let s2 := on_mpoll (on_reg T (fun t => update t id (with_commit_sha head))) s1 in
      on_mpoll (on_orch (fun o => set_completed (sadd id (oc_completed o)) o)) s2
  | None => s
  end.

(** ** Escalation *)

(** One issue of the sentinel file, under the policy of the resolver. *)
Definition escalate_one (policy : string) (id : string) (s : St) : St :=
  if mem id (oc_completed (morch s)) || mem id (oc_claimed (morch s)) then s
  else
    let failing := String.eqb policy "mark_failed" || String.eqb policy "notify" in
    let s1 := on_mpoll (on_reg T (fun t => if failing then mark_failed t id else mark_abandoned t id)) s in
    let s2 := on_mpoll (fun p => snd (sync_tracker_issue_state T id (if failing then "failed" else "abandoned") p)) s1 in
    on_mpoll (on_orch (fun o => set_completed (sadd id (oc_completed o)) o)) s2.

(** [_process_escalated_issues] on the ids of the sentinel file, all of which
    leave it. *)
Definition process_escalated_issues (policy : string) (ids : list string) (s : St) : St :=
  fold_left (fun s id => escalate_one policy id s) ids s.
End maintenance.
