(* ===== verification/PrMaintenanceFacts.v ===== *)
(** * Facts about the upkeep of pull requests

    What a conflict scan costs the pull requests it finds in order, when a
    conflict counts as resolved, and how many resolutions a poll starts. *)

From S2P Require Import Prelude Errors Dag StageRunner Regex ImInbound Intent IssueRegistry RegistryFacts Kernel RetryQueue IssueProvider IssueProviderFacts PrMaintenance.

Open Scope string_scope.
Open Scope list_scope.
Open Scope Z_scope.

(** Every record is stored under its own id. *)
Definition keyed (g : Registry) : Prop := forall d r, IssueRegistry.get d g = Some r -> issue_id r = d.

Definition attempts (id : string) (g : Registry) : Z :=
  match IssueRegistry.get id g with Some r => rebase_attempt_count (conflict r) | None => 0 end.

(** The attempts after one more, within a limit. *)
Definition bump (limit n : Z) : Z := if n <? limit then n + 1 else n.

Section scan.
Context {W : Type} (T : PollOps W) (O : MaintOps W) (cfg : PollConfig) (sc : ScanConfig).

Local Abbreviation St := (MState W).

(** Every pull request is reported open and without conflicts. *)
Definition peaceful : Prop :=
  exists fetch, mo_mergeable O = Some fetch /\
  forall pr url w, exists m, fst (fetch pr url w) = Ret (Some m) /\ ms_has_conflicts m = false /\
    (extract_pr_state m = "" \/ extract_pr_state m ∈ sc_scan_states sc).
Context (Hpeace : peaceful).

(** What a scan may change of a registry: the record [id], its attempts by [f]. *)
Record scanned (id : string) (f : Z -> Z) (g g' : Registry) : Prop := mkScanned {
  sd_other : forall d, d <> id -> IssueRegistry.get d g' = IssueRegistry.get d g;
  sd_own : match IssueRegistry.get id g with
           | Some r => exists r', IssueRegistry.get id g' = Some r' /\ issue_id r' = issue_id r /\
               (scannable sc r = true -> scannable sc r' = true) /\
               rebase_attempt_count (conflict r') = f (rebase_attempt_count (conflict r))
           | None => IssueRegistry.get id g' = None
           end;
  sd_wf : dict_wf (records g) -> dict_wf (records g');
}.

Lemma scanned_refl id g : scanned id (fun n => n) g g.
Proof. split; [done| |done]. destruct (IssueRegistry.get id g) as [r|]; [|done]. by exists r. Qed.

Lemma scanned_trans id f1 f2 g1 g2 g3 :
  scanned id f1 g1 g2 -> scanned id f2 g2 g3 -> scanned id (fun n => f2 (f1 n)) g1 g3.
Proof.
  intros [H1 O1 W1] [H2 O2 W2]. split; [intros d Hd; by rewrite H2, H1| |auto].
  destruct (IssueRegistry.get id g1) as [r|].
  - destruct O1 as (r2 & E2 & I2 & S2 & A2). rewrite E2 in O2. destruct O2 as (r3 & E3 & I3 & S3 & A3).
    exists r3. split; [done|]. split; [congruence|]. split; [auto|]. by rewrite A3, A2.
  - by rewrite O1 in O2.
Qed.

Lemma limit_scanned r (p : PState W) :
  IssueRegistry.get (issue_id r) (reg p) = Some r ->
  scanned (issue_id r) (bump (pc_max_rebase_attempts cfg)) (reg p) (reg (snd (check_rebase_rate_limit T cfg (record_issue r None) p))).
Proof.
  intros Hr. unfold check_rebase_rate_limit. cbn [record_issue ti_id]. rewrite Hr.
  destruct (_ <? _) eqn:E.
  - split.
    + intros d Hd. unfold on_reg, on_orch, reg. simpl. unfold increment_rebase_attempt. by rewrite update_get, decide_False.
    + rewrite Hr. unfold on_reg, on_orch, reg. simpl. unfold increment_rebase_attempt. rewrite update_get, decide_True by done.
      change (oc_registry (p_orch p)) with (reg p). rewrite Hr. eexists. split; [reflexivity|]. split; [done|]. split; [done|].
      unfold bump. by rewrite E.
    + apply update_wf.
  - split; [done| |done]. simpl. rewrite Hr. exists r. split; [done|]. split; [done|]. split; [done|]. unfold bump. by rewrite E.
Qed.

Lemma note_scanned id m (s : St) :
  (extract_pr_state m = "" \/ extract_pr_state m ∈ sc_scan_states sc) ->
  scanned id (fun n => n) (mreg s) (mreg (snd (note_pr_state T sc id m s))).
Proof.
  intros Hm. unfold note_pr_state. destruct (String.eqb (extract_pr_state m) "") eqn:E; [apply scanned_refl|]. simpl.
  destruct (IssueRegistry.get id (mreg s)) as [r|] eqn:Er; [|apply scanned_refl].
  destruct (bool_decide _); [apply scanned_refl|]. destruct Hm as [Hm|Hm]; [by rewrite Hm in E|].
  assert (Hg : forall d, IssueRegistry.get d (mreg (on_mpoll (on_reg T (assign id (with_pr_state (extract_pr_state m)))) s)) =
    if decide (id = d) then Some (with_pr_state (extract_pr_state m) r) else IssueRegistry.get d (mreg s)).
  { intros d. unfold mreg, on_mpoll, on_reg, on_orch, reg, assign. simpl. change (oc_registry (p_orch (m_poll s))) with (mreg s).
    rewrite Er, reg_get_save. unfold IssueRegistry.get. simpl. by rewrite dget_dset. }
  split.
  - intros d Hd. by rewrite Hg, decide_False.
  - rewrite Er, Hg, decide_True by done. eexists. split; [reflexivity|]. split; [done|]. split; [|done].
    unfold scannable. cbn [with_pr_state sync set_sync issue_id pr_number branch_name pr_state]. rewrite !andb_true_iff.
    intros [[[H1 H2] H3] _]. repeat split; [done..|]. simpl. rewrite E. by apply mem_true.
  - intros Hwf. unfold mreg, on_mpoll, on_reg, on_orch, reg, assign. simpl. change (oc_registry (p_orch (m_poll s))) with (mreg s).
    rewrite Er, save_records. by apply dset_wf.
Qed.

Lemma mpolling_world {A} (m : M W exn A) (s : St) : mreg (snd (mpolling (outside m) s)) = mreg s.
Proof. unfold mpolling, outside, mreg, reg. by destruct (m (p_world (m_poll s))). Qed.

(** One record of a scan of sound pull requests: it is fine, and one attempt is
    gone. *)
Lemma scan_one_scanned id (s : St) :
  keyed (mreg s) ->
  exists s1, scan_one T O cfg sc id s = (Ret tt, s1) /\
    scanned id (fun n => match IssueRegistry.get id (mreg s) with
                         | Some r => if scannable sc r then bump (pc_max_rebase_attempts cfg) n else n
                         | None => n
                         end) (mreg s) (mreg s1).
Proof.
  intros Hk. unfold scan_one. destruct (IssueRegistry.get id (mreg s)) as [r|] eqn:Er.
  2: { exists s. split; [done|apply scanned_refl]. }
  assert (Hid : issue_id r = id) by (by apply Hk). destruct (scannable sc r) eqn:Es; cbn [negb].
  2: { exists s. split; [done|apply scanned_refl]. }
  assert (Hr : IssueRegistry.get (issue_id r) (reg (m_poll s)) = Some r) by (rewrite Hid; exact Er).
  pose proof (limit_scanned r (m_poll s) Hr) as Hs1. rewrite Hid in Hs1.
  destruct (check_rebase_rate_limit T cfg (record_issue r None) (m_poll s)) as [ok p]. simpl in Hs1.
  set (s1 := on_mpoll (fun _ => p) s). destruct ok; cbn [negb]; [|by exists s1].
  destruct Hpeace as (fetch & Hf & Hm). rewrite Hf.
  destruct (Hm (default "" (pr_number (sync r))) (pr_url (sync r)) (p_world (m_poll s1))) as (m & Hfm & Hno & Hst).
  pose proof (mpolling_world (fetch (default "" (pr_number (sync r))) (pr_url (sync r))) s1) as Hw.
  assert (Hres : fst (mpolling (outside (fetch (default "" (pr_number (sync r))) (pr_url (sync r)))) s1) = Ret (Some m)).
  { unfold mpolling, outside. destruct (fetch _ _ _) as [res w]. simpl in *. exact Hfm. }
  destruct (mpolling _ s1) as [res s2]. simpl in Hres, Hw. subst res.
  pose proof (note_scanned id m s2 Hst) as Hs3. rewrite Hw in Hs3.
  destruct (note_pr_state T sc id m s2) as [b s3]. simpl in Hs3. rewrite Hno, orb_true_r. exists s3. split; [done|].
  apply (scanned_trans id (bump (pc_max_rebase_attempts cfg)) (fun n => n) _ _ _ Hs1 Hs3).
Qed.

Lemma scanned_keyed id f g g' : scanned id f g g' -> keyed g -> keyed g'.
Proof.
  intros [Ho Hown _] Hk d r Hd. destruct (decide (d = id)) as [->|Hne].
  - destruct (IssueRegistry.get id g) as [r0|] eqn:E; [|congruence]. destruct Hown as (r' & E' & Hi & _).
    rewrite E' in Hd. injection Hd as <-. rewrite Hi. by apply Hk.
  - rewrite Ho in Hd by done. by apply Hk.
Qed.

(** What a record is after a scan of the ids [ids]. *)
Lemma scan_all_attempts ids (s : St) id :
  keyed (mreg s) -> NoDup ids ->
  exists s1, scan_all T O cfg sc ids s = (Ret tt, s1) /\ keyed (mreg s1) /\ (dict_wf (records (mreg s)) -> dict_wf (records (mreg s1))) /\
    match IssueRegistry.get id (mreg s) with
    | Some r => exists r', IssueRegistry.get id (mreg s1) = Some r' /\ (scannable sc r = true -> scannable sc r' = true) /\
        rebase_attempt_count (conflict r') =
        (if mem id ids && scannable sc r then bump (pc_max_rebase_attempts cfg) (rebase_attempt_count (conflict r))
         else rebase_attempt_count (conflict r))
    | None => IssueRegistry.get id (mreg s1) = None
    end.
Proof.
  revert s. induction ids as [|d ids IH]; intros s Hk Hnd; simpl.
  { exists s. split; [done|]. split; [done|]. split; [done|]. destruct (IssueRegistry.get id (mreg s)) as [r|]; [|done]. by exists r. }
  apply NoDup_cons in Hnd as [Hd Hnd]. destruct (scan_one_scanned d s Hk) as (s1 & -> & Hs1).
  destruct (IH s1 (scanned_keyed _ _ _ _ Hs1 Hk) Hnd) as (s2 & -> & Hk2 & Hw2 & H2). exists s2. split; [done|]. split; [done|].
  split; [intros Hw; by apply Hw2, Hs1|].
  destruct Hs1 as [Ho Hown Hwf]. destruct (decide (id = d)) as [->|Hne].
  - rewrite (proj2 (mem_false _ _) Hd) in H2. rewrite (proj2 (mem_true d (d :: ids))) by set_solver.
    destruct (IssueRegistry.get d (mreg s)) as [r|].
    + destruct Hown as (r1 & E1 & _ & S1 & A1). rewrite E1 in H2. destruct H2 as (r2 & E2 & S2 & A2).
      exists r2. split; [done|]. split; [auto|]. simpl in A2 |- *. rewrite A2, A1. done.
    + by rewrite Hown in H2.
  - rewrite Ho in H2 by done.
    replace (mem id (d :: ids)) with (mem id ids); [exact H2|]. unfold mem. apply bool_decide_ext. set_solver.
Qed.

(** A scan when one is due. *)
Definition due_scan (s : St) : St := snd (process_pr_conflict_scan T O cfg sc (mkM (m_poll s) 0 (m_close_last s))).

(** One due scan costs a sound pull request one attempt. *)
Lemma due_scan_bumps (s : St) id r :
  sc_enabled sc = true -> keyed (mreg s) -> dict_wf (records (mreg s)) ->
  IssueRegistry.get id (mreg s) = Some r -> scannable sc r = true ->
  keyed (mreg (due_scan s)) /\ dict_wf (records (mreg (due_scan s))) /\
  exists r', IssueRegistry.get id (mreg (due_scan s)) = Some r' /\ scannable sc r' = true /\
    rebase_attempt_count (conflict r') = bump (pc_max_rebase_attempts cfg) (rebase_attempt_count (conflict r)).
Proof.
  intros Hen Hk Hwf Hr Hs. unfold due_scan, process_pr_conflict_scan. rewrite Hen. cbn [negb m_scan_last].
  unfold too_soon. change (qlt 0 0) with false. cbn [andb].
  match goal with |- context [scan_all T O cfg sc ?ids ?st] =>
    destruct (scan_all_attempts ids st id Hk Hwf) as (s1 & -> & Hk1 & Hw1 & H1) end.
  cbn [snd]. split; [done|]. split; [by apply Hw1|].
  unfold mreg in H1, Hr. cbn [m_poll] in H1. rewrite Hr in H1. destruct H1 as (r1 & Hr1 & Hs1 & Ha1). exists r1. split; [done|].
  split; [auto|]. rewrite Ha1, Hs. assert (Hin : mem id (dkeys (records (mreg s))) = true).
  { apply mem_true. unfold IssueRegistry.get in Hr. apply dget_Some_keys. by exists r. }
  unfold mreg in Hin. by rewrite Hin.
Qed.
End scan.

Lemma iter_bump limit n k : n <= limit -> Nat.iter k (bump limit) n = Z.min limit (n + Z.of_nat k).
Proof.
  intros Hn. induction k as [|k IH]; simpl; [lia|]. rewrite IH. unfold bump. destruct (Z.ltb_spec (Z.min limit (n + Z.of_nat k)) limit); lia.
Qed.

(** Scanning for conflicts uses up the rebases of sound pull requests.  While
    the tracker reports every pull request open and without conflicts, each scan
    that is due costs every scanned issue one rebase attempt; after as many scans
    as attempts are left, the issue is refused any rebase, also one that an
    operator asks for by a comment or a label. *)
Theorem conflict_scan_spends_attempts {W} (T : PollOps W) (O : MaintOps W) (cfg : PollConfig) (sc : ScanConfig) (s : MState W)
    (issue : TIssue) (r : IssueRecord) (k : nat) :
  sc_enabled sc = true -> peaceful O sc -> keyed (mreg s) -> dict_wf (records (mreg s)) ->
  IssueRegistry.get (ti_id issue) (mreg s) = Some r -> scannable sc r = true ->
  rebase_attempt_count (conflict r) <= pc_max_rebase_attempts cfg ->
  let s' := Nat.iter k (due_scan T O cfg sc) s in
  attempts (ti_id issue) (mreg s') = Z.min (pc_max_rebase_attempts cfg) (rebase_attempt_count (conflict r) + Z.of_nat k) /\
  (pc_max_rebase_attempts cfg <= rebase_attempt_count (conflict r) + Z.of_nat k ->
   check_rebase_rate_limit T cfg issue (m_poll s') = (false, m_poll s')).
Proof.
  intros Hen Hp Hk Hwf Hr Hs Hn. cbv zeta.
  assert (H : keyed (mreg (Nat.iter k (due_scan T O cfg sc) s)) /\ dict_wf (records (mreg (Nat.iter k (due_scan T O cfg sc) s))) /\
    exists r', IssueRegistry.get (ti_id issue) (mreg (Nat.iter k (due_scan T O cfg sc) s)) = Some r' /\ scannable sc r' = true /\
      rebase_attempt_count (conflict r') = Nat.iter k (bump (pc_max_rebase_attempts cfg)) (rebase_attempt_count (conflict r))).
  { induction k as [|k IH]; [by eauto 10|]. destruct IH as (Hk1 & Hw1 & r1 & Hr1 & Hs1 & Ha1). simpl.
    destruct (due_scan_bumps T O cfg sc Hp _ (ti_id issue) r1 Hen Hk1 Hw1 Hr1 Hs1) as (Hk2 & Hw2 & r2 & Hr2 & Hs2 & Ha2).
    split; [done|]. split; [done|]. exists r2. by rewrite Ha2, Ha1. }
  destruct H as (_ & _ & r' & Hr' & _ & Ha). rewrite iter_bump in Ha by done. split.
  - unfold attempts. by rewrite Hr'.
  - intros Hlim. unfold check_rebase_rate_limit. change (reg (m_poll ?x)) with (mreg x). rewrite Hr', Ha.
    rewrite (proj2 (Z.ltb_ge _ _)) by lia. done.
Qed.

(** ** Resolved conflicts *)

(** What git shows when a rebase is done and pushed. *)
Record rebase_done (git : Git) (previous : option string) (base branch head : string) : Prop := mkDone {
  rd_clean : strip (fst (git ["diff"; "--name-only"; "--diff-filter=U"])) = "";
  rd_moved : head <> "" /\ previous <> Some head;
  rd_branch : strip (fst (git ["rev-parse"; "--abbrev-ref"; "HEAD"])) = branch;
  rd_pushed : exists heads remote_base,
    heads = remote_heads (fst (git ["ls-remote"; "--heads"; "origin"; "refs/heads/" +:+ base; "refs/heads/" +:+ branch])) /\
    dget ("refs/heads/" +:+ branch) heads = Some head /\ dget ("refs/heads/" +:+ base) heads = Some remote_base /\
    snd (git ["merge-base"; "--is-ancestor"; remote_base; head]) = 0;
}.

Lemma str_or_some (o : option string) x : str_or o None = Some x -> o = Some x /\ x <> "".
Proof.
  unfold str_or. destruct o as [y|]; [|done]. destruct (String.eqb_spec y ""); [done|]. by intros [= <-].
Qed.

Lemma check_resolved_done git active previous base branch head :
  check_resolved git active previous base branch = Some head -> rebase_done git previous base branch head.
Proof.
  unfold check_resolved. destruct (negb (String.eqb _ "")) eqn:E1; [done|]. destruct (existsb _ _); [done|].
  set (h := strip (fst (git ["rev-parse"; "HEAD"]))). destruct (_ || String.eqb h "") eqn:E2; [done|].
  destruct (bool_decide (str_or previous None = Some h)) eqn:E3; [done|].
  destruct (_ || negb (String.eqb _ branch)) eqn:E4; [done|]. destruct (negb (snd (git ("ls-remote" :: _)) =? 0)) eqn:E5; [done|].
  set (heads := remote_heads _). destruct (str_or (dget ("refs/heads/" +:+ base) heads) None) as [rb|] eqn:E6; [|done].
  destruct (_ && _) eqn:E7; [|done]. intros [= <-].
  apply negb_false_iff, String.eqb_eq in E1. apply orb_false_iff in E2 as [_ E2]. apply orb_false_iff in E4 as [_ E4].
  apply negb_false_iff, String.eqb_eq in E4. apply andb_true_iff in E7 as [E7 E8]. apply bool_decide_eq_true in E7.
  apply str_or_some in E6 as [E6 _]. apply Z.eqb_eq in E8. apply String.eqb_neq in E2. apply bool_decide_eq_false in E3.
  split; [done| |done|].
  - split; [done|]. intros ->. apply E3. unfold str_or. by rewrite (proj2 (String.eqb_neq _ _) E2).
  - by exists heads, rb.
Qed.

(** A conflict is cleared only when git shows the rebase done and pushed.
    When the end of a resolution run takes the conflict off the record of an
    issue, then no unmerged file is left, the workspace is on the branch of the
    issue at a commit other than the recorded one, the remote branch is at this
    commit, and the remote tip of the base branch is among its ancestors,
    whatever the session reported. *)
Theorem conflict_cleared_only_when_pushed {W} (T : PollOps W) (root : string -> option string) (git : string -> Git)
    (active : string -> string -> bool) (issue : TIssue) (s : MState W) (r r' : IssueRecord) :
  let s' := finalize_rebase_resolution T (rebase_conflict_resolved root git active) issue s in
  IssueRegistry.get (ti_id issue) (mreg s) = Some r -> has_conflict (conflict r) = true ->
  IssueRegistry.get (ti_id issue) (mreg s') = Some r' -> has_conflict (conflict r') = false ->
  exists ws repo branch head, workspace_path (wspace r) = Some ws /\ root ws = Some repo /\
    str_or (branch_name (sync r)) (ti_branch_name issue) = Some branch /\
    rebase_done (git repo) (commit_sha (sync r)) (base_branch (wspace r)) branch head /\
    commit_sha (sync r') = Some head /\ ti_id issue ∈ oc_completed (morch s').
Proof.
  cbv zeta. intros Hr Hc. unfold finalize_rebase_resolution. rewrite Hr. cbn [option_map].
  set (br := str_or (branch_name (sync r)) (ti_branch_name issue)).
  destruct (rebase_conflict_resolved _ _ _ _ _ _ _) as [head|] eqn:E; [|congruence].
  revert E. unfold rebase_conflict_resolved.
  destruct (str_or (workspace_path (wspace r)) None) as [ws|] eqn:Ew; [|done].
  destruct (str_or (Some (base_branch (wspace r))) None) as [b|] eqn:Eb; [|done].
  destruct (str_or br None) as [branch|] eqn:Ebr; [|done]. destruct (str_or (root ws) None) as [repo|] eqn:Er; [|done].
  intros Hd%check_resolved_done Hr' _. apply str_or_some in Ew as [Ew _], Eb as [[= <-] _], Ebr as [Ebr _], Er as [Er _].
  exists ws, repo, branch, head. split; [done|]. split; [done|]. split; [done|]. split; [done|].
  split; [|unfold sadd; simpl; case_match; [by apply mem_true|set_solver]].
  revert Hr'. unfold mreg, on_mpoll, reg, on_reg, on_orch. simpl. rewrite update_get, decide_True by done.
  unfold clear_conflict. rewrite update_get, decide_True by done. change (oc_registry (p_orch (m_poll s))) with (mreg s). rewrite Hr. simpl.
  by intros [= <-].
Qed.

(** ** Concrete instances *)

Definition calm_tracker : MaintOps unit :=
  mkMaintOps (Some (fun _ _ w => (Ret (Some (mkMergeable false false (Some (Some "Open", false)))), w)))
    (fun _ w => (Ret None, w)) (fun _ w => (Ret None, w)) (fun _ => 100%Q) (Some ["closed"]).

Definition scan_cfg : ScanConfig := mkScanConfig true 300000 ["open"].

Definition maint_state (g : Registry) : MState unit := mkM (mkP tt (mkOrch 2 [] [] [] [] [] g) []) 0%Q 0%Q.

Lemma sample_keyed : keyed sample_registry.
Proof.
  intros d r. unfold IssueRegistry.get. let v := eval vm_compute in (records sample_registry) in change (records sample_registry) with v.
  simpl. case_decide; [|done]. subst. by intros [= <-].
Qed.

Lemma conflict_scan_spends_attempts_witness :
  check_rebase_rate_limit poll_ops poll_cfg (poll_issue "7" [])
    (m_poll (Nat.iter 3 (due_scan poll_ops calm_tracker poll_cfg scan_cfg) (maint_state sample_registry)))
  = (false, m_poll (Nat.iter 3 (due_scan poll_ops calm_tracker poll_cfg scan_cfg) (maint_state sample_registry))).
Proof.
  eapply (conflict_scan_spends_attempts poll_ops calm_tracker poll_cfg scan_cfg (maint_state sample_registry) (poll_issue "7" []) _ 3).
  - reflexivity.
  - eexists. split; [reflexivity|]. intros pr url w. eexists. split; [reflexivity|]. split; [reflexivity|]. right. apply mem_true. reflexivity.
  - exact sample_keyed.
  - apply NoDup_ListNoDup. vm_compute. repeat constructor. intros [].
  - vm_compute. reflexivity.
  - reflexivity.
  - vm_compute. discriminate.
  - vm_compute. discriminate.
Defined.

(** A workspace in which the rebase of [fix-7] is done and pushed. *)
Definition pushed_git : Git := fun args =>
  if bool_decide (args = ["rev-parse"; "HEAD"]) then ("new", 0)
  else if bool_decide (args = ["rev-parse"; "--abbrev-ref"; "HEAD"]) then ("fix-7", 0)
  else if bool_decide (hd_error args = Some "rev-parse") then (".git/state", 0)
  else if bool_decide (hd_error args = Some "ls-remote")
  then ("b0 refs/heads/main" +:+ lf +:+ "new refs/heads/fix-7", 0)
  else ("", 0).

Definition conflicted : Registry :=
  assign "7" (with_workspace "/ws/7") (tick 10) (mark_conflict (tick 10) "7" ["a.py"] sample_registry).

Lemma conflict_cleared_only_when_pushed_witness :
  exists ws repo branch head, ws = "/ws/7" /\ repo = "/ws/7" /\ branch = "fix-7" /\
    rebase_done pushed_git (Some "abc") "main" branch head /\ Some head = Some "new".
Proof.
  edestruct (conflict_cleared_only_when_pushed poll_ops (fun p => Some p) (fun _ => pushed_git) (fun _ _ => false)
    (poll_issue "7" []) (maint_state conflicted)) as (ws & repo & branch & head & H1 & H2 & H3 & H4 & H5 & _).
  - vm_compute. reflexivity.
  - reflexivity.
  - vm_compute. reflexivity.
  - reflexivity.
  - exists ws, repo, branch, head. injection H1 as <-. injection H2 as <-. injection H3 as <-.
    split; [reflexivity|]. split; [reflexivity|]. split; [reflexivity|]. split; [exact H4|]. symmetry. exact H5.
Defined.
