(* ===== verification/ReviewFeedback.v ===== *)
(** * Follow-ups of review feedback
    ([src/orchestratord/review_feedback.py],
    [src/orchestratord/applications/issue_pr/interpret.py])

    [ReviewFeedbackService]: which feedback of the open pull requests counts, and
    which follow-ups it makes; [_process_review_feedback] and
    [_launch_review_followup]: what the daemon does with them.  The tracker, the
    workspaces and the compiled body patterns are parameters.  The session that is
    started and its prompt are left out. *)

From S2P Require Import Prelude Errors Dag StageRunner Intent IssueRegistry RegistryFacts Kernel RetryQueue IssueProvider.

Open Scope string_scope.
Open Scope list_scope.
Open Scope Z_scope.

Record FeedbackConfig := mkFeedbackConfig {
  fc_enabled : bool;
  fc_mode : string;
  fc_poll_interval_ms : Z;
  fc_bot_login : option string;
  fc_ignore_authors : list string;
  fc_ignored_sources : list string;
  fc_ignored_commands : list string;
  fc_ignored_bodies : list (string -> bool);
  fc_pending_timeout : Q;
  fc_max_items : Z;
}.

(** Tracker and workspaces; [fo_user] and [fo_feedback] are missing when the
    tracker lacks the capability. *)
Record FeedbackOps (W : Type) := mkFeedbackOps {
  fo_user : option (M W exn (option string));
  fo_feedback : option (string -> option string -> string -> M W exn (list Feedback));
  fo_create : TIssue -> M W exn string;
  fo_head : string -> M W exn (option string);
  fo_monotonic : W -> Q;
}.
Arguments mkFeedbackOps {W}.
Arguments fo_user {W}.
Arguments fo_feedback {W}.
Arguments fo_create {W}.
Arguments fo_head {W}.
Arguments fo_monotonic {W}.

(** The state of a service. *)
Record Service := mkService {
  sv_bot_login : option string;
  sv_resolved : bool;
  sv_explicit : bool;
  sv_last : Q;
}.

(** What is read of a [ReviewFollowup]. *)
Record ReviewFollowup := mkFollowup {
  fu_issue : TIssue;
  fu_feedback : list Feedback;
}.

(** ** Which feedback counts *)

Definition REPLY_MARKER : string := "Handled in the latest orchestratord follow-up commit.".
Definition ORCHESTRATORD_SYSTEM_MARKERS : list string :=
  ["## Orchestratord Run Summary"; "## Orchestratord Automated Change"; "## Orchestratord Follow-up";
   "## Orchestratord PR Review Follow-up Summary"; "<!-- metadata: report_path="].

(** [_is_orchestratord_system_comment] *)
Definition is_orchestratord_system_comment (body : option string) : bool :=
  match str_or body None with
  | Some b => existsb (fun m => contains m b) (REPLY_MARKER :: ORCHESTRATORD_SYSTEM_MARKERS)
  | None => false
  end.

(** [_normalize_command] *)
Definition normalize_command (command : string) : string :=
  let c := lower (strip command) in
  if String.eqb c "" then "" else if String.prefix "/" c then c else "/" +:+ c.

(** [\[A-Za-z0-9\]] and [\[A-Za-z0-9_.-\]] *)
Definition is_alnum (c : Ascii.ascii) : bool :=
  let n := Ascii.N_of_ascii (lower_ascii c) in is_digit c || ((97 <=? n)%N && (n <=? 122)%N).
Definition is_login_char (c : Ascii.ascii) : bool :=
  is_alnum c || mem (Ascii.N_of_ascii c) [95%N; 46%N; 45%N].

(** The rest of a login and the blanks behind it. *)
Fixpoint skip_login (s : string) : option string :=
  match s with
  | EmptyString => None
  | String c s' => if is_login_char c then skip_login s' else if is_space c then Some (lstrip s') else None
  end.

(** [re.sub(r"^@\[A-Za-z0-9\]\[A-Za-z0-9_.-\]*\s+", "", s)] *)
Definition drop_mention (s : string) : string :=
  match s with
  | String a (String b s') =>
      if Ascii.eqb a (Ascii.ascii_of_N 64) && is_alnum b then default s (skip_login s') else s
  | _ => s
  end.

(** [_is_standalone_command] *)
Definition is_standalone_command (body : option string) (commands : list string) : bool :=
  match str_or body None, commands with
  | Some b, _ :: _ => mem (lower (drop_mention (strip b))) commands
  | _, _ => false
  end.

(** [_matches_ignored_body_pattern] *)
Definition matches_ignored_body_pattern (body : option string) (patterns : list (string -> bool)) : bool :=
  match str_or body None with
  | Some b => existsb (fun p => p (strip b)) patterns
  | None => false
  end.

(** The non-blank entries of a configured list, folded. *)
Definition folded (l : list string) : list string :=
  map (fun x => lower (strip x)) (List.filter (fun x => negb (String.eqb (strip x) "")) l).

Section feedback.
Context {W : Type} (T : PollOps W) (F : FeedbackOps W) (cfg : FeedbackConfig).

Local Abbreviation St := (PState W).

(** The authors whose comments do not count. *)
Definition ignored_authors (bot : option string) (explicit : bool) : list string :=
  folded (fc_ignore_authors cfg) ++
  match str_or bot None with Some b => if explicit then [lower (strip b)] else [] | None => [] end.

Definition ignored_commands : list string :=
  List.filter (fun x => negb (String.eqb x "")) (map normalize_command (fc_ignored_commands cfg)).

(** One item of the loop of [_filter_pending]. *)
Definition counts (r : IssueRecord) (bot : option string) (explicit : bool) (f : Feedback) : bool :=
  negb (mem (fb_id f) (processed_feedback_ids (feedback r)) || mem (fb_id f) (pending_feedback_ids (feedback r)))
  && negb (match fb_status f with Some st => mem st ["resolved"; "outdated"] | None => false end)
  && negb (match str_or (fb_author_login f) None with
           | Some a => mem (lower (strip a)) (ignored_authors bot explicit)
           | None => false
           end)
  && negb (is_orchestratord_system_comment (fb_body f))
  && negb (mem (lower (strip (fb_source f))) (folded (fc_ignored_sources cfg)))
  && negb (is_standalone_command (fb_body f) ignored_commands)
  && negb (matches_ignored_body_pattern (fb_body f) (fc_ignored_bodies cfg)).

(** [_filter_pending] *)
Definition filter_pending (r : IssueRecord) (bot : option string) (explicit : bool) (l : list Feedback) : list Feedback :=
  List.filter (counts r bot explicit) l.

(** ** Collecting *)

(** [ReviewFeedbackService(...)] *)
Definition new_service : Service := mkService None false false 0.

(** The login of the bot, asked for once. *)
Definition resolve_bot (v : Service) (s : St) : Service * St :=
  if sv_resolved v then (v, s)
  else match str_or (fc_bot_login cfg) None with
       | Some b => (mkService (Some b) true true (sv_last v), s)
       | None =>
           match fo_user F with
           | Some ask => let '(b, s1) := attempt (sv_bot_login v) (outside ask) s in (mkService b true (sv_explicit v) (sv_last v), s1)
           | None => (mkService (sv_bot_login v) true (sv_explicit v) (sv_last v), s)
           end
       end.

Definition followup_issue (r : IssueRecord) : TIssue :=
  mkTIssue (issue_id r) (issue_identifier r) (branch_name (sync r)) None None [] [].

(** [pending\[:limit\]] *)
Definition take_limit (limit : Z) (l : list Feedback) : list Feedback :=
  if 0 <=? limit then firstn (Z.to_nat limit) l else firstn (length l - Z.to_nat (- limit)) l.

(** [{item.id: item.url for item in selected if item.url}] *)
Definition urls_of (l : list Feedback) : dict string string :=
  fold_left (fun d f => match str_or (fb_url f) None with Some u => dset (fb_id f) u d | None => d end) l [].

(** One record of [collect_followups]. *)
Definition collect_one (v : Service) (id : string) : M St exn (option ReviewFollowup) := fun s =>
  let s1 := on_reg T (fun t g => snd (clear_stale_pending t id (fc_pending_timeout cfg) g)) s in
  match IssueRegistry.get id (reg s1), fo_feedback F with
  | Some r, Some fetch =>
      match outside (fetch (default "" (pr_number (sync r))) (pr_url (sync r)) (issue_id r)) s1 with
      | (Raise e, s2) => (Raise e, s2)
      | (Ret l, s2) =>
          match filter_pending r (sv_bot_login v) (sv_explicit v) l with
          | [] => (Ret None, on_reg T (fun t => mark_feedback_checked t (issue_id r)) s2)
          | pending =>
              let selected := take_limit (fc_max_items cfg) pending in
              match last selected with
              | None => (Raise (mkExn OtherException [Lit "IndexError: list index out of range"] None), s2)
              | Some f =>
                  let cursor := str_or (fb_updated_at f) (str_or (fb_created_at f) (Some (fb_id f))) in
                  let s3 := on_reg T (fun t => mark_feedback_pending t (issue_id r) (map fb_id selected) cursor (urls_of selected)) s2 in
                  (Ret (Some (mkFollowup (followup_issue r) selected)), s3)
              end
          end
      end
  | _, _ => (Ret None, s1)
  end.

Fixpoint collect_loop (v : Service) (slots : Z) (ids : list string) (acc : list ReviewFollowup) : M St exn (list ReviewFollowup) := fun s =>
  match ids with
  | [] => (Ret acc, s)
  | id :: ids' =>
      if slots <=? Z.of_nat (length acc) then (Ret acc, s)
      else match collect_one v id s with
           | (Raise e, s1) => (Raise e, s1)
           | (Ret None, s1) => collect_loop v slots ids' acc s1
           | (Ret (Some f), s1) => collect_loop v slots ids' (acc ++ [f]) s1
           end
  end.

(** [iter_records_with_pr], the keys *)
Definition ids_with_pr (g : Registry) : list string :=
  map fst (List.filter (fun kr => is_some (str_or (pr_number (sync (snd kr))) None) && is_some (str_or (branch_name (sync (snd kr))) None))
             (records g)).

(** [collect_followups] *)
Definition collect_followups (slots : Z) (v : Service) (s : St) : outcome exn (list ReviewFollowup) * Service * St :=
  if (slots <=? 0) || negb (fc_enabled cfg) then (Ret [], v, s)
  else if (0 <? fc_poll_interval_ms cfg) && qlt (fo_monotonic F (p_world s) - sv_last v) (inject_Z (fc_poll_interval_ms cfg) / 1000)
  then (Ret [], v, s)
  else
    let '(v1, s1) := resolve_bot v s in
    match collect_loop v1 slots (ids_with_pr (reg s1)) [] s1 with
    | (Raise e, s2) => (Raise e, v1, s2)
    | (Ret l, s2) => (Ret l, mkService (sv_bot_login v1) (sv_resolved v1) (sv_explicit v1) (fo_monotonic F (p_world s2)), s2)
    end.

(** ** Launching *)

(** [_launch_review_followup] *)
Definition launch_review_followup (fu : ReviewFollowup) : M St exn unit := fun s =>
  let id := ti_id (fu_issue fu) in
  match outside (fo_create F (fu_issue fu)) s with
  | (Raise _, s1) => (Ret tt, on_orch (discard_claim id) s1)
  | (Ret path, s1) =>
      match outside (fo_head F path) s1 with
      | (Raise e, s2) => (Raise e, s2)
      | (Ret _, s2) =>
          let s3 := on_orch (fun o => mkOrch (oc_max_concurrent o) (sadd id (oc_running o)) (oc_completed o) (oc_claimed o)
                                        (oc_retry_queue o) (oc_retry_attempts o) (oc_registry o)) s2 in
          let s4 := on_reg T (fun t => mark_running t id) s3 in
          (Ret tt, on_reg T (fun t => increment_followup_attempt t id) s4)
      end
  end.

(** One follow-up of [_process_review_feedback]. *)
Definition dispatch_followup (fu : ReviewFollowup) : M St exn unit := fun s =>
  let id := ti_id (fu_issue fu) in
  if mem id (oc_running (p_orch s)) || mem id (oc_claimed (p_orch s)) then (Ret tt, s)
  else if negb (String.eqb (fc_mode cfg) "auto") then
    (Ret tt, on_reg T (fun t => mark_feedback_pending t id (map fb_id (fu_feedback fu)) None (urls_of (fu_feedback fu))) s)
  else launch_review_followup fu (on_orch (fun o => set_claimed (sadd id (oc_claimed o)) o) s).

Fixpoint dispatch_followups (l : list ReviewFollowup) : M St exn unit := fun s =>
  match l with
  | [] => (Ret tt, s)
  | fu :: l' => match dispatch_followup fu s with
                | (Ret _, s1) => dispatch_followups l' s1
                | (Raise e, s1) => (Raise e, s1)
                end
  end.

(** [_process_review_feedback]: a service is made for each cycle. *)
Definition process_review_feedback : M St exn unit := fun s =>
  let slots := oc_max_concurrent (p_orch s) - Z.of_nat (length (oc_running (p_orch s))) in
  if negb (fc_enabled cfg) || (slots <=? 0) then (Ret tt, s)
  else match collect_followups slots new_service s with
       | (Raise _, _, s1) => (Ret tt, s1)
       | (Ret l, _, s1) => dispatch_followups l s1
       end.
End feedback.
