(* ===== verification/ReviewFeedbackFacts.v ===== *)
(** * Facts about review follow-ups

    A cycle keeps to the limit of concurrent agents; feedback that was handed out
    is not handed out again while it is pending. *)

From S2P Require Import Prelude Errors Dag StageRunner Intent IssueRegistry RegistryFacts Kernel RetryQueue IssueProvider IssueProviderFacts ReviewFeedback.

Open Scope string_scope.
Open Scope list_scope.
Open Scope Z_scope.

Section facts.
Context {W : Type} (T : PollOps W) (F : FeedbackOps W) (cfg : FeedbackConfig).

Local Abbreviation St := (PState W).

(** ** Slots *)

Lemma slots_clear id (s : St) :
  same_slots s (on_reg T (fun t g => snd (clear_stale_pending t id (fc_pending_timeout cfg) g)) s).
Proof. done. Qed.

Lemma slots_collect_one v id (s : St) : same_slots s (snd (collect_one T F cfg v id s)).
Proof.
  unfold collect_one. cbv zeta. set (s1 := on_reg T _ s). assert (H1 : same_slots s s1) by done. clearbody s1.
  destruct (IssueRegistry.get id (reg s1)) as [r|]; [|done]. destruct (fo_feedback F) as [fetch|]; [|done].
  pose proof (slots_outside (fetch (default "" (pr_number (sync r))) (pr_url (sync r)) (issue_id r)) s1) as H2.
  destruct (outside _ s1) as [res s2]. simpl in H2. assert (H : same_slots s s2) by (by etrans).
  destruct res as [l|e]; [|done]. destruct (filter_pending _ _ _ _ l) as [|x l']; [done|]. by destruct (last _).
Qed.

Lemma slots_collect_loop v slots ids acc (s : St) :
  let r := collect_loop T F cfg v slots ids acc s in
  same_slots s (snd r) /\
  (Z.of_nat (length acc) <= Z.max 0 slots -> forall l, fst r = Ret l -> Z.of_nat (length l) <= Z.max 0 slots).
Proof.
  revert acc s. induction ids as [|id ids IH]; intros acc s; cbn [collect_loop].
  { split; [done|]. by intros ? l [= <-]. }
  destruct (Z.leb_spec slots (Z.of_nat (length acc))); [split; [done|]; by intros ? l [= <-]|].
  pose proof (slots_collect_one v id s) as H1. destruct (collect_one T F cfg v id s) as [res s1]. simpl in H1.
  destruct res as [[fu|]|e].
  - destruct (IH (acc ++ [fu]) s1) as [H2 H3]. split; [by etrans|]. intros Hacc. apply H3. rewrite length_app. simpl. lia.
  - destruct (IH acc s1) as [H2 H3]. split; [by etrans|done].
  - by split.
Qed.

(** What one follow-up adds to the running issues. *)
Lemma dispatch_followup_slots fu (s : St) :
  oc_max_concurrent (p_orch (snd (dispatch_followup T F cfg fu s))) = oc_max_concurrent (p_orch s) /\
  (length (oc_running (p_orch (snd (dispatch_followup T F cfg fu s)))) <= S (length (oc_running (p_orch s))))%nat.
Proof.
  unfold dispatch_followup. destruct (_ || _); [simpl; split; [done|lia]|]. destruct (negb _); [simpl; split; [done|lia]|].
  set (s1 := on_orch _ s). assert (H1 : same_slots s s1) by done. clearbody s1. unfold launch_review_followup.
  pose proof (slots_outside (fo_create F (fu_issue fu)) s1) as H2. destruct (outside _ s1) as [res s2]. simpl in H2.
  assert (H : same_slots s s2) by (by etrans). destruct res as [path|e]; [|destruct H as [H4 H5]; simpl; rewrite H4, H5; split; [done|lia]].
  pose proof (slots_outside (fo_head F path) s2) as H3. destruct (outside _ s2) as [res s3]. simpl in H3.
  assert (H4 : same_slots s s3) by (by etrans). destruct H4 as [Hr Hm]. destruct res as [h|e]; simpl; rewrite ?Hr, ?Hm; [|split; [done|lia]].
  split; [done|]. unfold sadd. destruct (mem _ _); rewrite ?length_app; simpl; lia.
Qed.

Lemma dispatch_followups_slots l (s : St) :
  oc_max_concurrent (p_orch (snd (dispatch_followups T F cfg l s))) = oc_max_concurrent (p_orch s) /\
  (length (oc_running (p_orch (snd (dispatch_followups T F cfg l s)))) <= length (oc_running (p_orch s)) + length l)%nat.
Proof.
  revert s. induction l as [|fu l IH]; intros s; simpl; [split; [done|lia]|].
  destruct (dispatch_followup_slots fu s) as [H1 H2]. destruct (dispatch_followup T F cfg fu s) as [[[]|e] s1]; simpl in *; [|split; [done|lia]].
  destruct (IH s1) as [H3 H4]. split; [congruence|lia].
Qed.

Lemma resolve_bot_slots v (s : St) : same_slots s (snd (resolve_bot F cfg v s)).
Proof.
  unfold resolve_bot. destruct (sv_resolved v); [done|]. destruct (str_or _ _); [done|]. destruct (fo_user F) as [ask|]; [|done].
  pose proof (slots_attempt (sv_bot_login v) (outside ask) s (slots_outside ask s)) as H. by destruct (attempt _ _ s).
Qed.

(** ** Pending feedback *)

Definition pending_of (id : string) (g : Registry) : list string :=
  match IssueRegistry.get id g with Some r => pending_feedback_ids (feedback r) | None => [] end.

Lemma add_pending_all processed urls_in ids pending urls :
  pending ⊆ fst (add_pending processed urls_in ids pending urls) /\
  forall x, x ∈ ids -> x ∉ processed -> x ∈ fst (add_pending processed urls_in ids pending urls).
Proof.
  revert pending urls. induction ids as [|i ids IH]; intros pending urls; simpl; [by split; [|intros x ?%elem_of_nil]|].
  destruct (mem i processed) eqn:E.
  - apply mem_true in E. destruct (IH pending urls) as [H1 H2]. split; [done|]. intros x [->|Hx]%elem_of_cons Hn; [done|auto].
  - destruct (IH (if mem i pending then pending else pending ++ [i])
              (match str_or (dget i urls_in) None with Some u => dset i u urls | None => urls end)) as [H1 H2].
    split; [|intros x [->|Hx]%elem_of_cons Hn; [|auto]].
    + etrans; [|exact H1]. destruct (mem i pending); set_solver.
    + apply H1. destruct (mem i pending) eqn:Em; [by apply mem_true|set_solver].
Qed.

Lemma take_limit_sub limit l x : x ∈ take_limit limit l -> x ∈ l.
Proof.
  assert (H : forall n, x ∈ firstn n l -> x ∈ l) by (intros n Hx; rewrite <- (firstn_skipn n l); set_solver).
  unfold take_limit. destruct (0 <=? limit); apply H.
Qed.

Definition processed_of (id : string) (g : Registry) : list string :=
  match IssueRegistry.get id g with Some r => processed_feedback_ids (feedback r) | None => [] end.

(** The registry once stale feedback is dropped. *)
Definition unstale (id : string) (s : St) : Registry :=
  snd (clear_stale_pending (ptick T s) id (fc_pending_timeout cfg) (reg s)).

Lemma unstale_id id (s : St) r :
  IssueRegistry.get id (unstale id s) = Some r -> exists r0, IssueRegistry.get id (reg s) = Some r0 /\ issue_id r = issue_id r0.
Proof.
  unfold unstale, clear_stale_pending. destruct (IssueRegistry.get id (reg s)) as [r0|] eqn:E; [|simpl; congruence].
  assert (Hsame : IssueRegistry.get id (reg s) = Some r -> exists r1, Some r0 = Some r1 /\ issue_id r = issue_id r1)
    by (rewrite E; intros [= ->]; by exists r).
  destruct (pending_feedback_ids (feedback r0)); [exact Hsame|]. destruct (pending_feedback_since (feedback r0)); [|exact Hsame].
  destruct (qlt _ _); [exact Hsame|]. simpl. rewrite update_get, decide_True, E by done. intros [= <-]. by exists r0.
Qed.

(** What a follow-up of one record is made of. *)
Lemma collect_one_spec v id (s s' : St) fu :
  (forall r, IssueRegistry.get id (reg s) = Some r -> issue_id r = id) ->
  collect_one T F cfg v id s = (Ret (Some fu), s') ->
  ti_id (fu_issue fu) = id /\ forall f, f ∈ fu_feedback fu ->
    fb_id f ∉ pending_of id (unstale id s) /\ fb_id f ∉ processed_of id (unstale id s) /\ fb_id f ∈ pending_of id (reg s').
Proof.
  intros Hkey. unfold collect_one. cbv zeta. set (s1 := on_reg T _ s).
  change (reg s1) with (unstale id s). destruct (IssueRegistry.get id (unstale id s)) as [r|] eqn:Er; [|done].
  assert (Hid : issue_id r = id).
  { destruct (unstale_id id s r Er) as (r0 & H0 & ->). by apply Hkey. }
  destruct (fo_feedback F) as [fetch|]; [|done].
  assert (Hw : forall (m : M W exn (list Feedback)), reg (snd (outside m s1)) = unstale id s).
  { intros m. unfold outside. by destruct (m (p_world s1)). }
  specialize (Hw (fetch (default "" (pr_number (sync r))) (pr_url (sync r)) (issue_id r))).
  destruct (outside _ s1) as [[l|e] s2]; [|done]. simpl in Hw.
  set (pend := filter_pending cfg r (sv_bot_login v) (sv_explicit v) l).
  assert (Hsel : forall f, f ∈ take_limit (fc_max_items cfg) pend -> fb_id f ∉ pending_feedback_ids (feedback r) /\ fb_id f ∉ processed_feedback_ids (feedback r)).
  { intros f Hf%take_limit_sub. apply list_elem_of_In, filter_In in Hf as [_ Hf]. unfold counts in Hf.
    repeat apply andb_true_iff in Hf as [Hf _]. apply negb_true_iff, orb_false_iff in Hf as [H1 H2].
    split; by apply mem_false. }
  destruct pend as [|x pend'] eqn:Ep; [done|]. destruct (last _) as [f0|]; [|done]. intros [= <- <-].
  split; [exact Hid|]. intros f Hf. destruct (Hsel f Hf) as [H1 H2].
  unfold pending_of at 1, processed_of. rewrite Er. split; [done|]. split; [done|].
  unfold pending_of, reg, on_reg, on_orch. simpl. unfold mark_feedback_pending. rewrite Hid, update_get, decide_True by done.
  change (oc_registry (p_orch s2)) with (reg s2). rewrite Hw, Er. cbn [fmap option_fmap option_map].
  match goal with |- context [add_pending ?a ?b ?c ?d ?e] => destruct (add_pending_all a b c d e) as [_ Hall]; destruct (add_pending a b c d e) as [p u] end.
  apply Hall; [|done]. apply list_elem_of_In, in_map, list_elem_of_In. exact Hf.
Qed.
End facts.

(** Review feedback is handed out once.  Two follow-ups are made for one
    issue, at any two times and by any two services; what was pending after the
    first is still pending or processed before the second, and no pending feedback
    has gone stale then.  The follow-ups share no feedback. *)
Theorem feedback_not_handed_twice {W} (T : PollOps W) (F F' : FeedbackOps W) (cfg : FeedbackConfig) (v v' : Service) (id : string)
    (s s1 s2 s3 : PState W) (fu1 fu2 : ReviewFollowup) :
  (forall s0 r, s0 = s \/ s0 = s2 -> IssueRegistry.get id (reg s0) = Some r -> issue_id r = id) ->
  collect_one T F cfg v id s = (Ret (Some fu1), s1) ->
  (forall x, x ∈ pending_of id (reg s1) -> x ∈ pending_of id (reg s2) \/ x ∈ processed_of id (reg s2)) ->
  unstale T cfg id s2 = reg s2 ->
  collect_one T F' cfg v' id s2 = (Ret (Some fu2), s3) ->
  forall f1 f2, f1 ∈ fu_feedback fu1 -> f2 ∈ fu_feedback fu2 -> fb_id f1 <> fb_id f2.
Proof.
  intros Hkey H1 Hkept Hfresh H2 f1 f2 Hf1 Hf2 E.
  apply collect_one_spec in H1 as [_ H1]; [|by eauto]. apply collect_one_spec in H2 as [_ H2]; [|by eauto].
  destruct (H1 f1 Hf1) as (_ & _ & Hp). destruct (H2 f2 Hf2) as (Hn1 & Hn2 & _). rewrite Hfresh in *.
  rewrite E in Hp. destruct (Hkept _ Hp); done.
Qed.

(** A review cycle keeps to the limit.  Whatever the tracker and the
    workspaces do, a cycle starts no more follow-ups than there are free slots:
    when no more issues run than the limit allows before it, no more run after
    it, also when it raises. *)
Theorem review_cycle_within_limit {W} (T : PollOps W) (F : FeedbackOps W) (cfg : FeedbackConfig) (s : PState W) :
  Z.of_nat (length (oc_running (p_orch s))) <= oc_max_concurrent (p_orch s) ->
  let s' := snd (process_review_feedback T F cfg s) in
  Z.of_nat (length (oc_running (p_orch s'))) <= oc_max_concurrent (p_orch s').
Proof.
  intros Hs. cbv zeta. unfold process_review_feedback. set (slots := _ - _). destruct (_ || _) eqn:E; [done|].
  apply orb_false_iff in E as [_ E]. apply Z.leb_gt in E. unfold collect_followups.
  destruct (_ || _); [done|]. destruct (_ && _); [done|].
  pose proof (resolve_bot_slots F cfg (new_service) s) as H1. destruct (resolve_bot F cfg new_service s) as [v1 s1]. simpl in H1.
  destruct (slots_collect_loop T F cfg v1 slots (ids_with_pr (reg s1)) [] s1) as [H2 H3].
  destruct (collect_loop T F cfg v1 slots (ids_with_pr (reg s1)) [] s1) as [res s2]. simpl in H2, H3.
  assert (H : same_slots s s2) by (by etrans). destruct H as [Hr Hm].
  destruct res as [l|e]; simpl; [|by rewrite Hr, Hm].
  destruct (dispatch_followups_slots T F cfg l s2) as [Hm2 Hr2]. specialize (H3 ltac:(lia) l eq_refl).
  rewrite Hm2, Hm. rewrite Hr in Hr2. unfold slots in *. lia.
Qed.

(** ** A concrete cycle *)

Definition fb_cfg : FeedbackConfig :=
  mkFeedbackConfig true "auto" 60000 None ["bot"] [] ["/lgtm"] [] 600 20.

Definition lgtm : Feedback := mkFb "c8" "conversation" (Some "@orchestratord /LGTM ") (Some "ann") None None None None.

Definition fb_ops (l : list Feedback) : FeedbackOps unit :=
  mkFeedbackOps None (Some (fun _ _ _ w => (Ret l, w))) (fun _ w => (Ret "/ws", w)) (fun _ w => (Ret None, w)) (fun _ => 100%Q).

Example mention_dropped : drop_mention "@orchestratord  /lgtm now" = "/lgtm now".
Proof. reflexivity. Qed.

(** The comment counts, the bare command does not. *)
Example only_prose_counts :
  option_map (fun f => map fb_id (fu_feedback f))
    (match fst (collect_one poll_ops (fb_ops [lgtm; review_comment]) fb_cfg new_service "7" (poll_state 2)) with Ret o => o | _ => None end)
  = Some ["c9"].
Proof. vm_compute. reflexivity. Qed.

Lemma sample_own_id r : IssueRegistry.get "7" sample_registry = Some r -> issue_id r = "7".
Proof. vm_compute. by intros [= <-]. Qed.

Definition fb_first : PState unit := snd (collect_one poll_ops (fb_ops [review_comment]) fb_cfg new_service "7" (poll_state 2)).

Lemma fb_first_own_id r : IssueRegistry.get "7" (reg fb_first) = Some r -> issue_id r = "7".
Proof. vm_compute. by intros [= <-]. Qed.

Definition another : Feedback := mkFb "c10" "comment" (Some "and a test") (Some "ann") None None None None.

Lemma feedback_not_handed_twice_witness :
  exists fu2, fst (collect_one poll_ops (fb_ops [review_comment; another]) fb_cfg new_service "7" fb_first) = Ret (Some fu2) /\
    fu_feedback fu2 = [another] /\ forall f, f ∈ fu_feedback fu2 -> fb_id review_comment <> fb_id f.
Proof.
  eexists. split; [vm_compute; reflexivity|]. split; [reflexivity|]. intros f Hf.
  eapply (feedback_not_handed_twice poll_ops (fb_ops [review_comment]) (fb_ops [review_comment; another]) fb_cfg new_service new_service
            "7" (poll_state 2) fb_first fb_first) with (f1 := review_comment).
  - intros s0 r [-> | ->]; [exact (sample_own_id r)|exact (fb_first_own_id r)].
  - vm_compute. reflexivity.
  - intros x Hx. left. exact Hx.
  - vm_compute. reflexivity.
  - vm_compute. reflexivity.
  - apply list_elem_of_singleton. reflexivity.
  - exact Hf.
Defined.

Lemma review_cycle_within_limit_witness :
  let s' := snd (process_review_feedback poll_ops (fb_ops [review_comment]) fb_cfg (poll_state 2)) in
  oc_running (p_orch s') = ["9"; "7"] /\ Z.of_nat (length (oc_running (p_orch s'))) <= oc_max_concurrent (p_orch s').
Proof.
  assert (H : Z.of_nat (length (oc_running (p_orch (poll_state 2)))) <= oc_max_concurrent (p_orch (poll_state 2)))
    by (apply Z.leb_le; reflexivity).
  pose proof (review_cycle_within_limit poll_ops (fb_ops [review_comment]) fb_cfg (poll_state 2) H) as Hle.
  split; [vm_compute; reflexivity|exact Hle].
Defined.
