(* ===== verification/Workspace.v ===== *)
(** * Workspaces
    ([src/orchestratord/workspace.py], [src/orchestratord/workspace_verify.py])

    [WorkspaceManager]: the workspace of an issue is made by [create_for_issue]
    and removed or kept by [cleanup]; at the start of the daemon the workspaces
    that nobody asked to keep are removed.  The file system is a finite map
    from absolute paths to files and directories; there are no symbolic links
    and file contents are text.  Processes (git and the hooks), faults of the
    file system, process ids, the clock and [json] are parameters. *)

From Stdlib Require Import Ascii.
From stdpp Require Import sorting.
From S2P Require Import Prelude Dag StageRunner Checkpoint Intent Regex ClarResolver.

Open Scope string_scope.
Open Scope list_scope.
Open Scope Z_scope.

(** ** Files and processes *)

Abbreviation path := (list string).

Inductive entry :=
| EFile (content : string)
| EDir.

#[export] Instance entry_eq_dec : EqDecision entry.
Proof. solve_decision. Defined.

Definition files : Type := gmap path entry.

Record World (W : Type) := mkWorld { w_fs : files; w_out : W }.
Arguments mkWorld {W}.
Arguments w_fs {W}.
Arguments w_out {W}.

Definition set_fs {W} (fs : files) (w : World W) : World W := mkWorld fs (w_out w).

Inductive command :=
| Argv (args : list string)
| Shell (cmd : string).

(** How a subprocess ends; [PSpawn]: it could not be started. *)
Inductive procres :=
| PExit (code : Z) (output : string)
| PTimeout
| PSpawn.

(** [os.kill(pid, 0)] *)
Inductive killres := KillOk | KillNoProcess | KillNotPermitted | KillOverflow.

Inductive syscall := SMkdir | SUnlink | SOpen | SWrite | SRead | SListdir.

(** What the manifest of a preserved workspace says. *)
Record Manifest := mkManifest {
  mf_issue_id : option string;
  mf_identifier : option string;
  mf_preserved_at : string;
  mf_end_status : option string;
  mf_end_reason : option string;
}.

(** The operating system.  [os_stuck p q]: [rmtree p] cannot remove [q];
    [os_partial p]: what a failed write leaves in [p]. *)
Record OsEnv (W : Type) := mkOsEnv {
  os_exec : command -> path -> Q -> World W -> procres * World W;
  os_fault : syscall -> path -> World W -> bool;
  os_stuck : path -> path -> World W -> bool;
  os_partial : path -> World W -> string;
  os_kill : Z -> World W -> killres;
  os_pid : Z;
  os_now : World W -> string;
  os_json : Manifest -> option string;
}.
Arguments mkOsEnv {W}.
Arguments os_exec {W}.
Arguments os_fault {W}.
Arguments os_stuck {W}.
Arguments os_partial {W}.
Arguments os_kill {W}.
Arguments os_pid {W}.
Arguments os_now {W}.
Arguments os_json {W}.

Inductive werr :=
| WorkspaceHookError (message : string)
| OsError (message : string)
| ValueError (message : string)
| OverflowError.

Definition show_path (p : path) : string := "/" +:+ join "/" p.

(** [parent / name] and [path.parent] of [pathlib], which keeps [..] *)
Definition child (p : path) (name : string) : path :=
  if String.eqb name "." then p else p ++ [name].
Definition parent (p : path) : path := removelast p.

(** The place the operating system finds under a path. *)
Definition resolve_step (acc : path) (name : string) : path :=
  if String.eqb name ".." then removelast acc else acc ++ [name].
Definition resolve (p : path) : path := fold_left resolve_step p [].

Definition at_ (p : path) (fs : files) : option entry := fs !! resolve p.
Definition exists_ (p : path) (fs : files) : bool := is_some (at_ p fs).
Definition dir_at (p : path) (fs : files) : bool := bool_decide (at_ p fs = Some EDir).

(** [q] is [p] or lies below it. *)
Definition under (p q : path) : bool := bool_decide (p `prefix_of` q).

(** ** Configuration *)

Record WorkspaceConfig := mkWorkspaceConfig {
  root : path;
  hooks : dict string string;
  hook_timeout_ms : option Q;
  repo_clone_url : option string;
  upstream_clone_url : option string;
  clone_depth : option Z;
  cfg_checkout_issue_branch : bool;
  git_username : option string;
  git_email : option string;
  git_token : option string;
  gitignore_patterns : list string;
  strategy : string;
  base_branch : option string;
  integration_branch : option string;
  require_clean_start : bool;
  preserve_on_terminal : bool;
  preserve_on_failure : bool;
  preserve_on_abandoned : bool;
  preserve_on_timeout : bool;
  sequential_lock : bool;
}.

Definition set_strategy (s : string) (c : WorkspaceConfig) : WorkspaceConfig :=
  mkWorkspaceConfig (root c) (hooks c) (hook_timeout_ms c) (repo_clone_url c)
    (upstream_clone_url c) (clone_depth c) (cfg_checkout_issue_branch c) (git_username c)
    (git_email c) (git_token c) (gitignore_patterns c) s (base_branch c)
    (integration_branch c) (require_clean_start c) (preserve_on_terminal c)
    (preserve_on_failure c) (preserve_on_abandoned c) (preserve_on_timeout c)
    (sequential_lock c).

(** [__post_init__] *)
Definition post_init (raw : option string) (c : WorkspaceConfig) : outcome werr WorkspaceConfig :=
  let s := lower (strip (default "isolated" (str_or raw (Some "isolated")))) in
  if mem s ["isolated"; "shared"; "sequential"] then Ret (set_strategy s c)
  else Raise (ValueError "workspace.strategy must be one of: isolated, shared, sequential").

(** What is read of an issue. *)
Record WIssue := mkWIssue {
  wi_id : option string;
  wi_identifier : option string;
  wi_branch_name : option string;
}.

Record Workspace := mkWorkspace {
  ws_path : path;
  ws_issue_identifier : string;
  ws_issue_id : option string;
}.

(** ** Names *)

Definition safe_char (c : Ascii.ascii) : bool :=
  let n := Ascii.N_of_ascii c in
  ((97 <=? n)%N && (n <=? 122)%N) || ((65 <=? n)%N && (n <=? 90)%N)
  || ((48 <=? n)%N && (n <=? 57)%N) || mem n [46; 95; 45]%N.

(** A byte that continues a character in UTF-8. *)
Definition continues (c : Ascii.ascii) : bool :=
  let n := Ascii.N_of_ascii c in (128 <=? n)%N && (n <=? 191)%N.

(** [re.sub("[^a-zA-Z0-9._-]", "_", s)] *)
Fixpoint sub_unsafe (s : string) : string :=
  match s with
  | EmptyString => EmptyString
  | String c s' =>
      if safe_char c then String c (sub_unsafe s')
      else if continues c then sub_unsafe s'
      else String "_"%char (sub_unsafe s')
  end.

(** [_safe_identifier], [getattr(issue, "identifier", None) or "issue"] *)
Definition safe_identifier (identifier : string) : string :=
  if String.eqb identifier "" then "issue" else sub_unsafe identifier.
Definition identifier_of (issue : WIssue) : string :=
  default "issue" (str_or (wi_identifier issue) (Some "issue")).
Definition safe_id (issue : WIssue) : string := safe_identifier (identifier_of issue).

(** [s.replace(old, new)] with a non-empty [old]: [skip] counts the characters
    of a match that is being replaced. *)
Fixpoint replace_from (old new : string) (skip : nat) (s : string) : string :=
  match s with
  | EmptyString => EmptyString
  | String c s' =>
      match skip with
      | S k => replace_from old new k s'
      | O =>
          if String.prefix old s then new +:+ replace_from old new (String.length old - 1) s'
          else String c (replace_from old new O s')
      end
  end.
Definition replace (old new s : string) : string := replace_from old new O s.

(** [s.rstrip("/")] *)
Fixpoint rstrip_slash (s : string) : string :=
  match s with
  | EmptyString => EmptyString
  | String c s' =>
      match rstrip_slash s' with
      | EmptyString => if Ascii.eqb c "/"%char then EmptyString else String c EmptyString
      | t => String c t
      end
  end.

(** [int(s)] on text without blanks around it: a sign, digits, single
    underscores between digits. *)
Fixpoint digits_from (acc : Z) (s : string) : option Z :=
  match s with
  | EmptyString => Some acc
  | String c s' =>
      if is_digit c then digits_from (10 * acc + digit_value c) s'
      else if Ascii.eqb c "_"%char then
        match s' with
        | String d s'' =>
            if is_digit d then digits_from (10 * acc + digit_value d) s'' else None
        | EmptyString => None
        end
      else None
  end.
Definition digits (s : string) : option Z :=
  match s with
  | String c s' => if is_digit c then digits_from (digit_value c) s' else None
  | EmptyString => None
  end.
Definition py_int (s : string) : option Z :=
  match s with
  | String "-"%char s' => Z.opp <$> digits s'
  | String "+"%char s' => digits s'
  | _ => digits s
  end.

(** A configured text that is neither missing nor empty. *)
Definition given (o : option string) : option string :=
  match o with Some s => if String.eqb s "" then None else Some s | None => None end.

(** [(a or b or "").strip()], as [None] when it is empty. *)
Definition branch_of (a b : option string) : option string :=
  match str_or a b with Some s => given (Some (strip s)) | None => None end.

(** [_upstream_configured] *)
Definition upstream_configured (c : WorkspaceConfig) : bool :=
  match given (upstream_clone_url c), given (repo_clone_url c) with
  | Some up, Some repo => negb (String.eqb (rstrip_slash up) (rstrip_slash repo))
  | _, _ => false
  end.

(** The URL with the configured credentials. *)
Definition effective_url (c : WorkspaceConfig) (url : string) : string :=
  match given (git_username c), given (git_token c) with
  | Some user, Some token => replace "https://" ("https://" +:+ user +:+ ":" +:+ token +:+ "@") url
  | _, _ => url
  end.

(** [_should_preserve] *)
Definition should_preserve (c : WorkspaceConfig) (end_status end_reason : option string) : bool :=
  let status := lower (default "" end_status) in
  let reason := lower (default "" end_reason) in
  if mem reason ["budget_exhausted"; "timeout"] then preserve_on_timeout c
  else if String.eqb status "abandoned" then preserve_on_abandoned c
  else if mem status ["failed"; "verification_failed"] then preserve_on_failure c
  else preserve_on_terminal c.

(** The names in a directory, without [.] and [..] as [iterdir] gives them. *)
Definition name_below (p q : path) : option string :=
  match last q with
  | Some n => if bool_decide (q = p ++ [n]) && negb (mem n ["."; ".."]) then Some n else None
  | None => None
  end.
Definition names_in (p : path) (fs : files) : list string :=
  omap (fun kv => name_below (resolve p) (fst kv)) (map_to_list fs).

(** [p] and the directories above it, the highest first. *)
Definition lineage (p : path) : list path := map (fun n => take n p) (seq 1 (length p)).

Section manager.
Context {W : Type} (E : OsEnv W) (c : WorkspaceConfig).

Abbreviation St := (World W).
Abbreviation OP A := (M (World W) werr A).

Definition os_error {A} (what : string) (p : path) : OP A := raise (OsError (what +:+ ": " +:+ show_path p)).

(** The call [k] on [p], or the fault the system reports for it. *)
Definition sys {A} (k : syscall) (p : path) (m : OP A) : OP A :=
  fun w => if os_fault E k p w then (Raise (OsError (show_path p)), w) else m w.

Definition put_entry (p : path) (e : entry) (w : St) : St :=
  set_fs (<[resolve p := e]> (w_fs w)) w.

(** [p.mkdir(exist_ok=True)] *)
Definition mkdir (p : path) : OP unit :=
  sys SMkdir p (fun w =>
    match at_ p (w_fs w) with
    | Some EDir => (Ret tt, w)
    | Some (EFile _) => os_error "FileExistsError" p w
    | None =>
        if dir_at (parent p) (w_fs w) then (Ret tt, put_entry p EDir w)
        else os_error "FileNotFoundError" p w
    end).

(** [p.mkdir(parents=True, exist_ok=True)] *)
Fixpoint mkdirs_along (ps : list path) : OP unit :=
  match ps with
  | [] => mret tt
  | p :: ps' =>
      w ← get;
      match at_ p (w_fs w) with
      | Some EDir => mkdirs_along ps'
      | Some (EFile _) => os_error "FileExistsError" p
      | None => sys SMkdir p (modify (put_entry p EDir)) ≫= fun _ => mkdirs_along ps'
      end
  end.
Definition mkdirs (p : path) : OP unit := mkdirs_along (lineage p).

(** [p.unlink(missing_ok=...)] *)
Definition unlink (missing_ok : bool) (p : path) : OP unit :=
  sys SUnlink p (fun w =>
    match at_ p (w_fs w) with
    | Some (EFile _) => (Ret tt, set_fs (delete (resolve p) (w_fs w)) w)
    | Some EDir => os_error "IsADirectoryError" p w
    | None => if missing_ok then (Ret tt, w) else os_error "FileNotFoundError" p w
    end).

(** [p.read_text(encoding="utf-8")] *)
Definition read_text (p : path) : OP string :=
  sys SRead p (fun w =>
    match at_ p (w_fs w) with
    | Some (EFile s) => (Ret s, w)
    | Some EDir => os_error "IsADirectoryError" p w
    | None => os_error "FileNotFoundError" p w
    end).

(** [open(p, "w")] *)
Definition open_w (p : path) : OP unit :=
  sys SOpen p (fun w =>
    match at_ p (w_fs w) with
    | Some EDir => os_error "IsADirectoryError" p w
    | Some (EFile _) => (Ret tt, put_entry p (EFile "") w)
    | None =>
        if dir_at (parent p) (w_fs w) then (Ret tt, put_entry p (EFile "") w)
        else os_error "FileNotFoundError" p w
    end).

(** The write to the open file [p] and its close. *)
Definition write_open (p : path) (s : string) : OP unit := fun w =>
  if os_fault E SWrite p w then os_error "OSError" p (put_entry p (EFile (os_partial E p w)) w)
  else (Ret tt, put_entry p (EFile s) w).

(** [p.write_text(s, encoding="utf-8")] *)
Definition write_text (p : path) (s : string) : OP unit := open_w p;; write_open p s.

(** What [rmtree p] leaves: the files elsewhere, those it cannot remove, and
    the directories that hold such files. *)
Definition kept_by_rmtree (p : path) (w : St) (q : path) : bool :=
  negb (under (resolve p) q)
  || existsb (fun kv => under q (fst kv) && os_stuck E p (fst kv) w) (map_to_list (w_fs w)).
Definition rm_fs (p : path) (w : St) : files :=
  filter (fun kv => kept_by_rmtree p w (fst kv) = true) (w_fs w).

(** [shutil.rmtree(p)] *)
Definition rmtree (p : path) : OP unit := fun w =>
  if negb (dir_at p (w_fs w)) then os_error "NotADirectoryError" p w
  else
    let w' := set_fs (rm_fs p w) w in
    if exists_ p (w_fs w') then os_error "OSError" p w' else (Ret tt, w').

(** [try: m except Exception: pass] *)
Definition swallow (m : OP unit) : OP unit := try_except m (fun _ => mret tt).

(** ** Subprocesses *)

(** [_run_process] *)
Definition run_process (cmd : command) (cwd : path) (timeout : Q) : OP string := fun w =>
  match os_exec E cmd cwd timeout w with
  | (PExit 0 out, w') => (Ret out, w')
  | (PExit code _, w') =>
      (Raise (WorkspaceHookError ("Workspace command failed with exit code " +:+ str_int code)), w')
  | (PTimeout, w') =>
      (Raise (WorkspaceHookError ("Workspace command timed out after "
                                    +:+ str_int (Z.quot (Qnum timeout * 1000) (QDen timeout)) +:+ "ms")), w')
  | (PSpawn, w') => (Raise (OsError "the process cannot be started"), w')
  end.

Definition git (args : list string) (cwd : path) : OP string :=
  run_process (Argv ("git" :: args)) cwd 60.

(** [_try_process] *)
Definition try_process (args : list string) (cwd : path) : OP bool :=
  try_except (run_process (Argv ("git" :: args)) cwd 30 ≫= fun _ => mret true)
    (fun e => match e with WorkspaceHookError _ => mret false | _ => raise e end).

(** [_run_hook] *)
Definition run_hook (cmd : string) (p : path) (hook_name : string) (ignore_fail : bool) : OP unit :=
  let timeout := (default 60000 (hook_timeout_ms c) / 1000)%Q in
  try_except (run_process (Shell cmd) p timeout ≫= fun _ => mret tt)
    (fun e =>
       if ignore_fail then mret tt
       else
         match e with
         | WorkspaceHookError _ => raise e
         | _ => raise (WorkspaceHookError ("Hook " +:+ hook_name +:+ " error"))
         end).

(** A configured hook, when there is one. *)
Definition hook (name : string) (p : path) (ignore_fail : bool) : OP unit :=
  match given (dget name (hooks c)) with
  | Some cmd => run_hook cmd p name ignore_fail
  | None => mret tt
  end.

(** [run_before_run_hook], [run_after_run_hook] *)
Definition run_before_run_hook (ws : Workspace) : OP unit := hook "before_run" (ws_path ws) false.
Definition run_after_run_hook (ws : Workspace) : OP unit := hook "after_run" (ws_path ws) true.

(** ** Branches *)

Definition has_git (p : path) (w : St) : bool := exists_ (child p ".git") (w_fs w).

Definition remote_ref (remote branch : string) : string := "refs/remotes/" +:+ remote +:+ "/" +:+ branch.
Definition fetch (remote branch : string) (p : path) : OP bool :=
  try_process ["fetch"; remote; branch +:+ ":" +:+ remote_ref remote branch] p.
Definition show_ref (remote branch : string) (p : path) : OP bool :=
  try_process ["show-ref"; "--verify"; "--quiet"; remote_ref remote branch] p.

(** [_add_upstream_remote] *)
Definition add_upstream_remote (p : path) : OP unit :=
  match given (upstream_clone_url c) with
  | None => mret tt
  | Some up =>
      if match given (repo_clone_url c) with
         | Some repo => String.eqb (rstrip_slash up) (rstrip_slash repo)
         | None => false
         end
      then mret tt
      else try_process ["remote"; "add"; "upstream"; effective_url c up] p ≫= fun _ => mret tt
  end.

(** [_ensure_git_identity] *)
Definition ensure_git_identity (p : path) : OP unit :=
  (match given (git_username c) with
   | Some user => try_process ["config"; "user.name"; user] p ≫= fun _ => mret tt
   | None => mret tt
   end);;
  match given (git_email c), given (git_username c) with
  | Some email, _ => try_process ["config"; "user.email"; email] p ≫= fun _ => mret tt
  | None, Some user =>
      try_process ["config"; "user.email"; user +:+ "@gitcode.com"] p ≫= fun _ => mret tt
  | None, None => mret tt
  end.

(** [_clone_repository] *)
Definition clone_repository (p : path) : OP unit :=
  match given (repo_clone_url c) with
  | None => raise (WorkspaceHookError "Missing repo_clone_url")
  | Some url =>
      mkdirs (parent p);;
      let depth := match clone_depth c with
                   | Some d => if 0 <? d then ["--depth"; str_int d] else []
                   | None => []
                   end in
      git (["clone"] ++ depth ++ [effective_url c url; show_path p]) (parent p);;
      add_upstream_remote p;;
      ensure_git_identity p
  end.

(** [_sync_base_from_upstream] *)
Definition sync_base_from_upstream (p : path) (base : string) : OP unit :=
  fetch "upstream" base p;;
  found ← show_ref "upstream" base p;
  if (found : bool) then try_process ["merge"; "--ff-only"; "upstream/" +:+ base] p ≫= fun _ => mret tt
  else mret tt.

(** [_checkout_base_branch] *)
Definition checkout_base_branch (p : path) : OP unit :=
  match branch_of (base_branch c) None with
  | None => mret tt
  | Some base =>
      w ← get;
      if negb (has_git p w) then mret tt
      else
        there ← try_process ["checkout"; base] p;
        if (there : bool) then
          if upstream_configured c then sync_base_from_upstream p base else mret tt
        else
          let remote := if upstream_configured c then "upstream" else "origin" in
          fetch remote base p;;
          found ← show_ref remote base p;
          (if (found : bool) then try_process ["checkout"; "-b"; base; remote_ref remote base] p
           else try_process ["checkout"; "-b"; base] p);;
          mret tt
  end.

(** The last two attempts of [_checkout_issue_branch]: from the base branch of
    the upstream repository in a fork, and from the present commit. *)
Definition new_issue_branch (p : path) (branch : string) : OP unit :=
  made ←
    (if upstream_configured c then
       match branch_of (base_branch c) None with
       | Some base =>
           fetch "upstream" base p;;
           try_process ["checkout"; "-b"; branch; "upstream/" +:+ base] p
       | None => mret false
       end
     else mret false);
  if (made : bool) then mret tt
  else try_process ["checkout"; "-b"; branch] p ≫= fun _ => mret tt.

(** [_checkout_issue_branch] *)
Definition checkout_issue_branch (p : path) (issue : WIssue) : OP unit :=
  if negb (cfg_checkout_issue_branch c) then mret tt
  else
    w ← get;
    if negb (has_git p w) then mret tt
    else
      match branch_of (wi_branch_name issue) None with
      | None => mret tt
      | Some branch =>
          there ← try_process ["checkout"; branch] p;
          if (there : bool) then mret tt
          else
            fetch "origin" branch p;;
            found ← show_ref "origin" branch p;
            tracked ←
              (if (found : bool) then
                 try_process ["checkout"; "-b"; branch; "--track"; "origin/" +:+ branch] p
               else mret false);
            if (tracked : bool) then mret tt else new_issue_branch p branch
      end.

(** The base branch under an integration branch that does not exist yet. *)
Definition checkout_base_for_integration (p : path) (base : string) : OP unit :=
  there ← try_process ["checkout"; base] p;
  if (there : bool) then mret tt
  else
    fetch "origin" base p;;
    found ← show_ref "origin" base p;
    made ←
      (if (found : bool) then
         try_process ["checkout"; "-b"; base; "--track"; "origin/" +:+ base] p
       else mret false);
    if (made : bool) then mret tt
    else git ["checkout"; base] p ≫= fun _ => mret tt.

(** [_checkout_integration_branch] *)
Definition checkout_integration_branch (p : path) : OP unit :=
  w ← get;
  if negb (has_git p w) then mret tt
  else
    match branch_of (integration_branch c) (base_branch c) with
    | None => mret tt
    | Some branch =>
        there ← try_process ["checkout"; branch] p;
        if (there : bool) then mret tt
        else
          fetch "origin" branch p;;
          found ← show_ref "origin" branch p;
          tracked ←
            (if (found : bool) then
               try_process ["checkout"; "-b"; branch; "--track"; "origin/" +:+ branch] p
             else mret false);
          if (tracked : bool) then mret tt
          else
            match branch_of (base_branch c) None with
            | Some base =>
                checkout_base_for_integration p base;;
                if String.eqb branch base then mret tt
                else git ["checkout"; "-b"; branch] p ≫= fun _ => mret tt
            | None => git ["checkout"; "-b"; branch] p ≫= fun _ => mret tt
            end
    end.

(** [_ensure_clean_workspace] *)
Definition ensure_clean_workspace (p : path) (reason : string) : OP unit :=
  w ← get;
  if negb (has_git p w) then mret tt
  else
    output ← git ["status"; "--porcelain"] p;
    if String.eqb (strip output) "" then mret tt else raise (WorkspaceHookError reason).

(** [current_head] *)
Definition current_head (p : option path) : OP (option string) :=
  let p := default (root c) p in
  w ← get;
  if negb (has_git p w) then mret None
  else output ← git ["rev-parse"; "HEAD"] p; mret (given (Some (strip output))).

(** ** The lock of the sequential strategy *)

Definition lock_path : path := child (root c) ".orchestratord_workspace.lock".

(** The first line of the lock file that names a process. *)
Fixpoint pid_of_lines (lines : list string) : option string :=
  match lines with
  | [] => None
  | line :: lines' =>
      if String.prefix "pid=" line then
        match given (Some (strip (drop_str 4 line))) with
        | Some pid => Some pid
        | None => pid_of_lines lines'
        end
      else pid_of_lines lines'
  end.

(** [_lock_pid_alive] *)
Definition lock_pid_alive : OP bool := fun w =>
  match read_text lock_path w with
  | (Raise _, w) => (Ret false, w)
  | (Ret content, w) =>
      match pid_of_lines (splitlines content) with
      | None => (Ret false, w)
      | Some pid =>
          match py_int pid with
          | None => (Ret false, w)
          | Some pid =>
              match os_kill E pid w with
              | KillOk => (Ret true, w)
              | KillNoProcess | KillNotPermitted => (Ret false, w)
              | KillOverflow => (Raise OverflowError, w)
              end
          end
      end
  end.

(** [os.open(p, O_CREAT | O_EXCL | O_WRONLY)] *)
Definition open_excl (p : path) : OP unit := fun w =>
  if exists_ p (w_fs w) then
    (Raise (WorkspaceHookError ("Sequential workspace lock already exists: " +:+ show_path p)), w)
  else open_w p w.

Definition lock_content (issue : WIssue) (w : St) : string :=
  join lf ["pid=" +:+ str_int (os_pid E); "issue_id=" +:+ default "" (wi_id issue);
           "issue_identifier=" +:+ identifier_of issue; "timestamp=" +:+ os_now E w; ""].

(** [_acquire_sequential_lock] *)
Definition acquire_sequential_lock (issue : WIssue) : OP unit :=
  if negb (sequential_lock c) then mret tt
  else
    mkdirs (parent lock_path);;
    w ← get;
    (if exists_ lock_path (w_fs w) then
       alive ← lock_pid_alive;
       if (alive : bool) then
         raise (WorkspaceHookError ("Sequential workspace lock already held by live process: "
                                      +:+ show_path lock_path))
       else unlink false lock_path
     else mret tt);;
    open_excl lock_path;;
    w ← get;
    write_open lock_path (lock_content issue w).

(** [_release_sequential_lock] *)
Definition release_sequential_lock : OP unit :=
  if negb (sequential_lock c) then mret tt else unlink true lock_path.

(** ** Making a workspace *)

Definition ends_lf (s : string) : bool :=
  match last (String.list_ascii_of_string s) with Some ch => byte_is 10 ch | None => false end.

(** [_exclude_orchestrator_files]: the text of [.git/info/exclude], when it
    changes *)
Definition excluded (existing : string) : option string :=
  let lines := map strip (splitlines existing) in
  match List.filter (fun p => negb (mem p lines)) (gitignore_patterns c) with
  | [] => None
  | patterns =>
      let suffix := if ends_lf existing || String.eqb existing "" then "" else lf in
      Some (existing +:+ suffix +:+ "# Orchestratord managed" +:+ lf +:+ join lf patterns +:+ lf)
  end.

Definition exclude_path (p : path) : path := child (child (child p ".git") "info") "exclude".

Definition exclude_orchestrator_files (p : path) : OP unit :=
  w ← get;
  if negb (exists_ (exclude_path p) (w_fs w)) then mret tt
  else
    existing ← read_text (exclude_path p);
    match excluded existing with
    | None => mret tt
    | Some text => write_text (exclude_path p) text
    end.

(** [_ensure_workspace] *)
Definition ensure_workspace (p : path) : OP bool :=
  w ← get;
  if dir_at p (w_fs w) then mret false
  else (if exists_ p (w_fs w) then rmtree p else mret tt);; mkdirs p;; mret true.

(** [_prepare_workspace] *)
Definition prepare_workspace (p : path) (issue : WIssue) : OP bool :=
  match given (repo_clone_url c) with
  | None => ensure_workspace p
  | Some _ =>
      w ← get;
      created ←
        (if negb (exists_ p (w_fs w)) then clone_repository p;; mret true
         else if negb (dir_at p (w_fs w)) then unlink true p;; clone_repository p;; mret true
         else if negb (has_git p w) then swallow (rmtree p);; clone_repository p;; mret true
         else mret false);
      checkout_base_branch p;;
      checkout_issue_branch p issue;;
      ensure_git_identity p;;
      mret created
  end.

(** [_prepare_shared_workspace] *)
Definition prepare_shared_workspace (p : path) : OP bool :=
  match given (repo_clone_url c) with
  | None => ensure_workspace p
  | Some url =>
      w ← get;
      if negb (exists_ p (w_fs w)) then clone_repository p;; mret true
      else if negb (dir_at p (w_fs w)) then
        raise (WorkspaceHookError ("Shared workspace path exists and is not a directory: "
                                     +:+ show_path p))
      else if has_git p w then mret false
      else
        git ["init"] p;;
        git ["remote"; "add"; "origin"; effective_url c url] p;;
        add_upstream_remote p;;
        ensure_git_identity p;;
        (match branch_of (integration_branch c) (base_branch c) with
         | Some branch =>
             fetch (if upstream_configured c then "upstream" else "origin") branch p ≫= fun _ => mret tt
         | None => mret tt
         end);;
        mret true
  end.

(** [_prepare_sequential_workspace] *)
Definition prepare_sequential_workspace (p : path) (issue : WIssue) : OP unit :=
  checkout_integration_branch p;;
  (if require_clean_start c then
     ensure_clean_workspace p "sequential workspace must be clean before starting an issue"
   else mret tt);;
  acquire_sequential_lock issue.

(** [_build_path] and the path of a shared workspace *)
Definition build_path (name : string) : path := child (root c) name.
Definition workspace_path (issue : WIssue) : path :=
  if String.eqb (strategy c) "isolated" then build_path (safe_id issue) else root c.

(** [create_for_issue] *)
Definition create_for_issue (issue : WIssue) : OP Workspace :=
  let p := workspace_path issue in
  created ←
    (if String.eqb (strategy c) "isolated" then prepare_workspace p issue
     else
       created ← prepare_shared_workspace p;
       (if String.eqb (strategy c) "sequential" then
          try_except (prepare_sequential_workspace p issue)
            (fun e => release_sequential_lock;; raise e)
        else mret tt);;
       mret created);
  (if (created : bool) then hook "after_create" p false else mret tt);;
  exclude_orchestrator_files p;;
  mret (mkWorkspace p (safe_id issue) (wi_id issue)).

(** ** Keeping or removing a workspace *)

(** The attributes of an issue or record as text; [None] is Python's [None]. *)
Abbreviation attributes := (dict string (option string)).
Definition attr (name : string) (a : attributes) : string :=
  match dget name a with Some (Some s) => s | Some None => "None" | None => "unknown" end.

(** [getattr(a, name, None)] as a condition *)
Definition attr_given (name : string) (a : attributes) : option string :=
  match dget name a with Some (Some s) => given (Some s) | _ => None end.

Record AgentConfig := mkAgentConfig {
  test_command : option string;
  build_command : option string;
  lint_command : option string;
}.

Definition sub_dir (p : path) : path := child p ".orchestrator_workspace".
Definition manifest_path (p : path) : path := child (sub_dir p) ".workspace_preserved.json".

(** The lines that run one of the commands. *)
Definition verify_step (cmd : option string) (what done : string) : list string :=
  match given cmd with
  | Some cmd => ["echo '>>> Running " +:+ what +:+ "...'"; cmd; "echo '" +:+ done +:+ ": OK'"; "echo ''"; ""]
  | None => []
  end.

Definition verify_lines (a : AgentConfig) (r : attributes) : list string :=
  ["#!/usr/bin/env bash"; "# Orchestratord Verify Script"; "#";
   "# This script re-runs the verification commands that were executed";
   "# during the automated issue processing."; "#";
   "# Issue: " +:+ attr "issue_id" r; "# Branch: " +:+ attr "branch_name" r;
   "# Commit: " +:+ attr "commit_sha" r; "# Status: " +:+ attr "status" r; "#";
   "# Usage: ./verify.sh"; "#"; "set -e"; "";
   "echo '=== Orchestratord Verification ==='";
   "echo 'Issue: " +:+ attr "issue_id" r +:+ "'"; "echo 'Branch: " +:+ attr "branch_name" r +:+ "'";
   "echo 'Commit: " +:+ attr "commit_sha" r +:+ "'"; "echo ''"; ""]
  ++ verify_step (build_command a) "build" "Build"
  ++ verify_step (lint_command a) "lint" "Lint"
  ++ verify_step (test_command a) "tests" "Tests"
  ++ ["echo '=== All verification steps passed ==='"].

(** [generate_verify_script] *)
Definition generate_verify_script (p : path) (a : AgentConfig) (r : attributes) : OP unit :=
  if negb (is_some (given (test_command a)) || is_some (given (build_command a))
           || is_some (given (lint_command a))) then mret tt
  else
    mkdir (sub_dir p);;
    swallow (write_text (child (sub_dir p) "verify.sh") (join lf (verify_lines a r))).

(** The entries of the workspace as the readme lists them. *)
Definition readme_items (p : path) (fs : files) : list string :=
  match merge_sort name_le (names_in p fs) with
  | [] => []
  | items =>
      ["### Files and Directories"; ""]
      ++ map (fun n => "- " +:+ (if dir_at (child p n) fs then "📁" else "📄") +:+ " `" +:+ n +:+ "`")
           (List.filter (fun n => negb (String.prefix "." n)) (take 20 items))
      ++ (if (20 <? length items)%nat
          then ["- ... and " +:+ str_int (Z.of_nat (length items) - 20) +:+ " more"] else [])
      ++ [""]
  end.

(** The commands guessed from the files of the workspace. *)
Definition guess_commands (p : path) (fs : files) : string * option string :=
  let has n := exists_ (child p n) fs in
  if has "package.json" then ("npm test", Some "npm run build")
  else if has "Cargo.toml" then ("cargo test", Some "cargo build")
  else if has "go.mod" then ("go test ./...", Some "go build ./...")
  else ("pytest", None).

Definition readme_lines (p : path) (r : attributes) (listed : bool) (fs : files) : list string :=
  let '(test_cmd, build_cmd) := guess_commands p fs in
  ["# Workspace: " +:+ attr "identifier" r; "";
   "This workspace was preserved by orchestratord after automated issue processing."; "";
   "## Issue Information"; ""; "- **Issue ID**: " +:+ attr "issue_id" r;
   "- **Identifier**: " +:+ attr "identifier" r; "- **Status**: " +:+ attr "status" r;
   "- **Branch**: `" +:+ attr "branch_name" r +:+ "`"; "- **Commit**: `" +:+ attr "commit_sha" r +:+ "`"]
  ++ match attr_given "pr_url" r with Some u => ["- **Pull Request**: " +:+ u] | None => [] end
  ++ match attr_given "verification_status" r with Some v => ["- **Verification**: " +:+ v] | None => [] end
  ++ [""; "## Workspace Contents"; "";
      "This directory contains the code changes made by the selected agent backend for this issue."; ""]
  ++ (if listed then readme_items p fs else [])
  ++ ["## Verification"; ""; "To verify the changes manually, run:"; ""; "```bash";
      "./.orchestrator_workspace/verify.sh"; "```"; ""; "Or run individual commands:"; ""]
  ++ match build_cmd with Some b => ["```bash"; "# Build"; b; "```"; ""] | None => [] end
  ++ ["```bash"; "# Test"; test_cmd; "```"; ""; "## Cleanup"; "";
      "To remove this preserved workspace:"; ""; "```bash";
      "orchestratord workspace cleanup --id " +:+ attr "issue_id" r +:+ " --force"; "```"; "";
      "---"; ""; "*Generated by [orchestratord](https://github.com/your-org/orchestratord)*"].

(** [generate_workspace_readme] *)
Definition generate_workspace_readme (p : path) (r : attributes) : OP unit :=
  mkdir (sub_dir p);;
  w ← get;
  let listed := negb (os_fault E SListdir p w) && dir_at p (w_fs w) in
  swallow (write_text (child (sub_dir p) "README.md") (join lf (readme_lines p r listed (w_fs w)))).

(** [_write_preservation_manifest]; [json.dump] writes to the open file. *)
Definition write_preservation_manifest (p : path) (issue : WIssue) (end_status end_reason : option string)
    : OP unit :=
  mkdir (sub_dir p);;
  w ← get;
  let m := mkManifest (wi_id issue) (wi_identifier issue) (os_now E w) end_status end_reason in
  swallow
    (open_w (manifest_path p);;
     match os_json E m with
     | Some text => write_open (manifest_path p) text
     | None => fun w =>
         (Raise (ValueError "not serializable"),
          put_entry (manifest_path p) (EFile (os_partial E (manifest_path p) w)) w)
     end).

(** The part of [cleanup] for a workspace of its own. *)
Definition settle_workspace (p : path) (issue : WIssue) (end_status end_reason : option string)
    (agent_config : option AgentConfig) (r : attributes) : OP unit :=
  if should_preserve c end_status end_reason then
    (match agent_config with
     | Some a => swallow (generate_verify_script p a r)
     | None => mret tt
     end);;
    swallow (generate_workspace_readme p r);;
    write_preservation_manifest p issue end_status end_reason
  else swallow (rmtree p).

(** [cleanup]; [r] are the attributes of [issue_record or issue]. *)
Definition cleanup (issue : WIssue) (end_status end_reason : option string)
    (agent_config : option AgentConfig) (r : attributes) : OP unit :=
  let p := workspace_path issue in
  w ← get;
  (if exists_ p (w_fs w) then
     hook "before_remove" p true;;
     if String.eqb (strategy c) "isolated" then
       settle_workspace p issue end_status end_reason agent_config r
     else mret tt
   else mret tt);;
  if String.eqb (strategy c) "sequential" then release_sequential_lock else mret tt.

(** The loop of [run_terminal_workspace_cleanup]. *)
Fixpoint sweep (names : list string) : OP unit :=
  match names with
  | [] => mret tt
  | n :: names' =>
      w ← get;
      let p := child (root c) n in
      (if dir_at p (w_fs w) && negb (exists_ (manifest_path p) (w_fs w)) then swallow (rmtree p)
       else mret tt);;
      sweep names'
  end.

(** [run_terminal_workspace_cleanup] *)
Definition run_terminal_workspace_cleanup : OP unit :=
  if negb (String.eqb (strategy c) "isolated") then mret tt
  else
    w ← get;
    if negb (exists_ (root c) (w_fs w)) then mret tt
    else if negb (dir_at (root c) (w_fs w)) || os_fault E SListdir (root c) w then
      os_error "OSError" (root c)
    else sweep (names_in (root c) (w_fs w)).
End manager.
