(* ===== verification/WorkspaceFacts.v ===== *)
(** * Workspaces: theorems

    A preserved workspace keeps its files over a restart; the clean-up of one
    issue leaves the workspaces of the others alone; the sequential lock is
    respected by every manager that asks for it, and lost when one is refused;
    the patterns in [.git/info/exclude] are added once. *)

From Stdlib Require Import Ascii DecimalString.
From S2P Require Import Prelude Dag StageRunner Checkpoint Intent Regex ClarResolver Workspace.

Open Scope string_scope.
Open Scope list_scope.
Open Scope Z_scope.

(** ** Paths *)

(** A name of a directory entry. *)
Definition plain (n : string) : Prop := n <> "." /\ n <> "..".

Lemma resolve_child p n : plain n -> resolve (child p n) = resolve p ++ [n].
Proof.
  intros [H1 H2]. unfold child, resolve.
  destruct (String.eqb_spec n "."); [done|].
  rewrite fold_left_app. simpl. unfold resolve_step at 1.
  by destruct (String.eqb_spec n "..").
Qed.

Lemma parent_child p n : plain n -> parent (child p n) = p.
Proof.
  intros [H1 _]. unfold parent, child. destruct (String.eqb_spec n "."); [done|].
  apply removelast_last.
Qed.

Lemma under_refl p : under p p = true.
Proof. by apply bool_decide_eq_true. Qed.

Lemma under_trans p q r : under p q = true -> under q r = true -> under p r = true.
Proof. unfold under. rewrite !bool_decide_eq_true. apply transitivity. Qed.

Lemma under_app p q : under p (p ++ q) = true.
Proof. apply bool_decide_eq_true. by eexists. Qed.

(** Different entries of a directory have nothing below them in common. *)
Lemma under_siblings p n m q :
  n <> m -> under (p ++ [n]) q = true -> under (p ++ [m]) q = false.
Proof.
  intros Hn H. apply bool_decide_eq_true in H as [k ->].
  apply bool_decide_eq_false. intros [k' H].
  rewrite <- !(assoc_L (++)) in H. apply app_inv_head in H. by simplify_eq/=.
Qed.

Lemma under_child p n m k : plain n -> plain m -> n <> m ->
  under (resolve (child p n)) k = true -> under (resolve (child p m)) k = false.
Proof. intros. rewrite !resolve_child in * by done. by eapply under_siblings. Qed.

#[export] Hint Resolve under_refl under_app : py.

(** ** What an operation leaves alone *)

Section frame.
Context {W : Type}.

(** [m] does not change the files at the paths in [P]. *)
Definition leaves {A} (P : path -> Prop) (m : M (World W) werr A) : Prop :=
  forall w q, P q -> w_fs (snd (m w)) !! q = w_fs w !! q.

Lemma leaves_pure {A} P (f : World W -> outcome werr A) : leaves P (fun w => (f w, w)).
Proof. done. Qed.

Lemma leaves_bind {A B} P (m : M (World W) werr A) (f : A -> M (World W) werr B) :
  leaves P m -> (forall a, leaves P (f a)) -> leaves P (m ≫= f).
Proof.
  intros Hm Hf w q Hq. specialize (Hm w q Hq). unfold mbind, M_bind.
  destruct (m w) as [[a|e] w1]; simpl in *; [|done]. by rewrite Hf.
Qed.

Lemma leaves_try {A} P (m : M (World W) werr A) h :
  leaves P m -> (forall e, leaves P (h e)) -> leaves P (try_except m h).
Proof.
  intros Hm Hh w q Hq. specialize (Hm w q Hq). unfold try_except.
  destruct (m w) as [[a|e] w1]; simpl in *; [done|]. by rewrite Hh.
Qed.

Lemma leaves_swallow P (m : M (World W) werr unit) : leaves P m -> leaves P (swallow m).
Proof. intros. by apply leaves_try. Qed.

Lemma leaves_if {A} P (b : bool) (m m' : M (World W) werr A) :
  leaves P m -> leaves P m' -> leaves P (if b then m else m').
Proof. by destruct b. Qed.

Lemma leaves_get_bind {A} P (f : World W -> M (World W) werr A) :
  (forall w, leaves P (f w)) -> leaves P (get ≫= f).
Proof. intros Hf w q Hq. by apply Hf. Qed.
End frame.

#[export] Hint Resolve leaves_pure leaves_bind leaves_try leaves_swallow leaves_if leaves_get_bind : frame.

Section ops.
Context {W : Type} (E : OsEnv W) (c : WorkspaceConfig).

Lemma put_elsewhere p e (w : World W) q : q <> resolve p -> w_fs (put_entry p e w) !! q = w_fs w !! q.
Proof. intros H. by apply lookup_insert_ne, not_eq_sym. Qed.

Lemma leaves_sys {A} P k p (m : M (World W) werr A) : leaves P m -> leaves P (sys E k p m).
Proof. intros Hm w q Hq. unfold sys. destruct (os_fault E k p w); [done|]. by apply Hm. Qed.

Lemma leaves_mkdir P p : (forall q, P q -> q <> resolve p) -> leaves P (mkdir E p).
Proof.
  intros H. apply leaves_sys. intros w q Hq. 
  destruct (at_ p (w_fs w)) as [[]|]; [done|done|]. destruct (dir_at _ _); [|done].
  by apply put_elsewhere, H.
Qed.

Lemma leaves_open P p : (forall q, P q -> q <> resolve p) -> leaves P (open_w E p).
Proof.
  intros H. apply leaves_sys. intros w q Hq.
  destruct (at_ p (w_fs w)) as [[]|]; [by apply put_elsewhere, H|done|]. destruct (dir_at _ _); [|done].
  by apply put_elsewhere, H.
Qed.

Lemma leaves_write_open P p s : (forall q, P q -> q <> resolve p) -> leaves P (write_open E p s).
Proof.
  intros H w q Hq. unfold write_open. destruct (os_fault _ _ _ _); simpl;
  (apply lookup_insert_ne; by apply not_eq_sym, H).
Qed.

Lemma leaves_write_text P p s : (forall q, P q -> q <> resolve p) -> leaves P (write_text E p s).
Proof. intros H. apply leaves_bind; [by apply leaves_open|]. intros _. by apply leaves_write_open. Qed.

Lemma rm_fs_outside p w q :
  under (resolve p) q = false -> rm_fs E p w !! q = w_fs w !! q.
Proof.
  intros H. unfold rm_fs. destruct (w_fs w !! q) as [e|] eqn:He.
  - apply map_lookup_filter_Some. split; [done|]. unfold kept_by_rmtree. simpl. by rewrite H.
  - apply map_lookup_filter_None. by left.
Qed.

Lemma leaves_rmtree P p : (forall q, P q -> under (resolve p) q = false) -> leaves P (rmtree E p).
Proof.
  intros H w q Hq. unfold rmtree. destruct (negb _); [done|].
  destruct (exists_ _ _); simpl; apply rm_fs_outside; by apply H.
Qed.

Lemma leaves_unlink P b p : (forall q, P q -> q <> resolve p) -> leaves P (unlink E b p).
Proof.
  intros H. apply leaves_sys. intros w q Hq.
  destruct (at_ p (w_fs w)) as [[]|]; [|done|by destruct b].
  simpl. apply lookup_delete_ne. by apply not_eq_sym, H.
Qed.
End ops.

Section preserve.
Context {W : Type} (E : OsEnv W) (c : WorkspaceConfig).

Lemma plain_sub : plain ".orchestrator_workspace". Proof. done. Qed.
Lemma plain_manifest : plain ".workspace_preserved.json". Proof. done. Qed.

(** The files the clean-up writes lie in one directory. *)
Lemma inside_sub p n q :
  plain n -> under (resolve (sub_dir p)) q = false -> q <> resolve (child (sub_dir p) n).
Proof. intros Hn H ->. rewrite resolve_child, under_app in H; done. Qed.

Lemma not_sub p q : under (resolve (sub_dir p)) q = false -> q <> resolve (sub_dir p).
Proof. intros H ->. by rewrite under_refl in H. Qed.

Abbreviation off_sub p := (fun q => under (resolve (sub_dir p)) q = false).

Lemma leaves_verify p a r : leaves (off_sub p) (generate_verify_script E p a r).
Proof.
  unfold generate_verify_script. apply leaves_if; [done|].
  apply leaves_bind; [apply leaves_mkdir; intros; by apply not_sub|]. intros _.
  apply leaves_swallow, leaves_write_text. intros q. by apply inside_sub.
Qed.

Lemma leaves_readme p r : leaves (off_sub p) (generate_workspace_readme E p r).
Proof.
  unfold generate_workspace_readme.
  apply leaves_bind; [apply leaves_mkdir; intros; by apply not_sub|]. intros _.
  apply leaves_get_bind. intros w.
  apply leaves_swallow, leaves_write_text. intros q. by apply inside_sub.
Qed.

Lemma leaves_manifest p issue st re : leaves (off_sub p) (write_preservation_manifest E p issue st re).
Proof.
  unfold write_preservation_manifest.
  apply leaves_bind; [apply leaves_mkdir; intros; by apply not_sub|]. intros _.
  apply leaves_get_bind. intros w. apply leaves_swallow, leaves_bind.
  - apply leaves_open. intros q. by apply inside_sub.
  - intros _. destruct (os_json _ _).
    + apply leaves_write_open. intros q. by apply inside_sub.
    + intros w' q Hq. by apply put_elsewhere, inside_sub.
Qed.

Lemma leaves_preserve p issue st re a r :
  should_preserve c st re = true -> leaves (off_sub p) (settle_workspace E c p issue st re a r).
Proof.
  intros Hp. unfold settle_workspace. rewrite Hp. apply leaves_bind.
  - destruct a; [apply leaves_swallow, leaves_verify|done].
  - intros _. apply leaves_bind; [apply leaves_swallow, leaves_readme|].
    intros _. apply leaves_manifest.
Qed.

(** Nothing outside the workspace is touched, whether it is kept or not. *)
Lemma leaves_settle p issue st re a r :
  leaves (fun q => under (resolve p) q = false) (settle_workspace E c p issue st re a r).
Proof.
  destruct (should_preserve c st re) eqn:Hp.
  - intros w q Hq. apply leaves_preserve; [done|].
    apply not_true_is_false. intros H. rewrite (under_trans (resolve p) (resolve (sub_dir p)) q) in Hq; [done| |done].
    unfold sub_dir. rewrite resolve_child by done. apply under_app.
  - unfold settle_workspace. rewrite Hp. by apply leaves_swallow, leaves_rmtree.
Qed.
End preserve.

Section restart.
Context {W : Type} (E : OsEnv W) (c : WorkspaceConfig).

Lemma mkdir_makes p w w' : mkdir E p w = (Ret tt, w') -> dir_at p (w_fs w') = true.
Proof.
  unfold mkdir, sys, dir_at. intros H.
  destruct (os_fault _ _ _ _); [done|]. destruct (at_ p (w_fs w)) as [[]|] eqn:Ha; [done| |].
  - simplify_eq. by apply bool_decide_eq_true.
  - destruct (bool_decide _); [|done]. simplify_eq. apply bool_decide_eq_true.
    unfold at_. simpl. apply lookup_insert_eq.
Qed.

Lemma at_put p e (w : World W) : at_ p (w_fs (put_entry p e w)) = Some e.
Proof. apply (lookup_insert_eq (w_fs w) (resolve p) e). Qed.

Lemma exists_put p e (w : World W) : exists_ p (w_fs (put_entry p e w)) = true.
Proof. unfold exists_. by rewrite at_put. Qed.

Lemma open_exists p w :
  os_fault E SOpen p w = false -> dir_at (parent p) (w_fs w) = true ->
  exists_ p (w_fs (snd (open_w E p w))) = true.
Proof.
  intros Hf Hd. unfold open_w, sys. rewrite Hf. unfold exists_ at 1.
  destruct (at_ p (w_fs w)) as [[]|] eqn:Ha; simpl; rewrite ?Ha; [apply exists_put|done|].
  rewrite Hd. apply exists_put.
Qed.

Lemma manifest_written p issue st re w w' :
  (forall w, os_fault E SOpen (manifest_path p) w = false) ->
  write_preservation_manifest E p issue st re w = (Ret tt, w') ->
  exists_ (manifest_path p) (w_fs w') = true.
Proof.
  intros Hf. unfold write_preservation_manifest. unfold mbind, M_bind at 1.
  destruct (mkdir E (sub_dir p) w) as [[[]|] w1] eqn:Hm; [|done]. apply mkdir_makes in Hm.
  simpl. unfold M_bind, get, swallow, try_except, mret, M_ret.
  pose proof (open_exists (manifest_path p) w1 (Hf w1)) as Ho.
  unfold manifest_path at 1 in Ho. rewrite parent_child in Ho by done. specialize (Ho Hm).
  destruct (open_w E (manifest_path p) w1) as [[[]|] w2]; simpl in *; [|by intros; simplify_eq].
  destruct (os_json _ _); simpl; [|intros; simplify_eq; apply exists_put].
  unfold write_open. destruct (os_fault _ _ _ _); simpl; intros; simplify_eq; apply exists_put.
Qed.

Lemma names_plain p fs : Forall plain (names_in p fs).
Proof.
  apply Forall_forall. intros n Hn. apply list_elem_of_omap in Hn as ([q e] & _ & Hn).
  unfold name_below in Hn. simpl in Hn. destruct (last q); [|done].
  destruct (bool_decide _); [|done]. simpl in Hn.
  destruct (mem s ["."; ".."]) eqn:Hm; [done|]. simplify_eq/=.
  apply bool_decide_eq_false in Hm. split; intros ->; apply Hm; set_solver.
Qed.

(** The sweep at the start of the daemon leaves a workspace with a manifest. *)
Lemma sweep_keeps n names w :
  plain n -> Forall plain names -> exists_ (manifest_path (child (root c) n)) (w_fs w) = true ->
  forall q, under (resolve (child (root c) n)) q = true ->
  w_fs (snd (sweep E c names w)) !! q = w_fs w !! q.
Proof.
  intros Hn Hall. revert w. induction Hall as [|m names Hm Hall IH]; intros w Hw q Hq; [done|].
  simpl. unfold mbind, M_bind, get.
  set (here := dir_at _ _ && _).
  set (step := if here then _ else _).
  assert (Hs : leaves (fun q => under (resolve (child (root c) n)) q = true) (fun w' => step w')
               \/ (m = n /\ here = false)).
  { destruct (decide (m = n)) as [->|Hne].
    - right. split; [done|]. subst here. rewrite Hw. apply andb_false_r.
    - left. unfold step. destruct here; [|done].
      apply leaves_swallow, leaves_rmtree. intros k. by apply under_child. }
  assert (Hs' : forall k, under (resolve (child (root c) n)) k = true ->
                w_fs (snd (step w)) !! k = w_fs w !! k).
  { intros k Hk. destruct Hs as [Hs | [_ Hh]]; [by apply Hs|]. unfold step. by rewrite Hh. }
  destruct (step w) as [[[]|] w1] eqn:Hst; simpl in *; [|by apply Hs'].
  rewrite IH; [by apply Hs'| |done].
  unfold exists_, at_ in *. rewrite Hs'; [done|].
  unfold manifest_path, sub_dir. rewrite !resolve_child by done.
  rewrite <- (assoc_L (++)). apply under_app.
Qed.
End restart.

(** The last step of [cleanup] in the isolated strategy. *)
Lemma cleanup_isolated {W} (E : OsEnv W) c issue st re a r w :
  strategy c = "isolated" -> given (dget "before_remove" (hooks c)) = None ->
  cleanup E c issue st re a r w =
    if exists_ (workspace_path c issue) (w_fs w)
    then settle_workspace E c (workspace_path c issue) issue st re a r w
    else (Ret tt, w).
Proof.
  intros Hs Hh. unfold cleanup, hook. rewrite Hs, Hh. simpl. unfold mbind, M_bind, get. simpl.
  destruct (exists_ _ _); [|done]. simpl.
  by destruct (settle_workspace _ _ _ _ _ _ _ _ _) as [[[]|] w1].
Qed.

(** C26: a workspace that the policy preserves keeps its files, apart from the
    directory of the generated ones, through the clean-up after the run and the
    start of the next daemon, when the manifest can be opened. *)
Theorem preserved_over_restart {W} (E E' : OsEnv W) c issue st re a r w w1 :
  strategy c = "isolated" -> plain (safe_id issue) ->
  given (dget "before_remove" (hooks c)) = None ->
  should_preserve c st re = true ->
  (forall w, os_fault E SOpen (manifest_path (workspace_path c issue)) w = false) ->
  exists_ (workspace_path c issue) (w_fs w) = true ->
  cleanup E c issue st re a r w = (Ret tt, w1) ->
  forall q, under (resolve (workspace_path c issue)) q = true ->
    under (resolve (sub_dir (workspace_path c issue))) q = false ->
    w_fs (snd (run_terminal_workspace_cleanup E' c w1)) !! q = w_fs w !! q.
Proof.
  intros Hs Hn Hh Hp Hf Hw Hc q Hq Hsub.
  rewrite (cleanup_isolated E c) in Hc by done. rewrite Hw in Hc.
  pose proof (leaves_preserve E c (workspace_path c issue) issue st re a r Hp w q Hsub) as Hk.
  rewrite Hc in Hk. rewrite <- Hk. clear Hk. simpl.
  assert (Hm : exists_ (manifest_path (workspace_path c issue)) (w_fs w1) = true).
  { unfold settle_workspace in Hc. rewrite Hp in Hc.
    apply bind_returns in Hc as (_ & wa & _ & Hc). apply bind_returns in Hc as (_ & wb & _ & Hc).
    by eapply manifest_written. }
  unfold run_terminal_workspace_cleanup. rewrite Hs. simpl. unfold mbind, M_bind, get.
  destruct (negb (exists_ (root c) (w_fs w1))); [done|].
  destruct (negb _ || _); [done|].
  unfold workspace_path in *. rewrite Hs in *. simpl in *.
  apply (sweep_keeps E' c (safe_id issue)); [done|apply names_plain|done|done].
Qed.

(** The clean-up of an issue, whatever comes of it, does not change the
    workspace of an issue with another directory name. *)
Theorem cleanup_leaves_others {W} (E : OsEnv W) c a b st re ac r w q :
  strategy c = "isolated" -> plain (safe_id a) -> plain (safe_id b) -> safe_id a <> safe_id b ->
  given (dget "before_remove" (hooks c)) = None ->
  under (resolve (workspace_path c b)) q = true ->
  w_fs (snd (cleanup E c a st re ac r w)) !! q = w_fs w !! q.
Proof.
  intros Hs Ha Hb Hne Hh Hq. rewrite cleanup_isolated by done.
  destruct (exists_ _ _); [|done]. apply leaves_settle.
  unfold workspace_path in *. rewrite Hs in *. simpl in *. by eapply under_child.
Qed.

(** An identifier of two dots is a safe identifier: when its workspace is not
    kept, the directory that holds the workspace root is removed. *)
Theorem dotdot_removes_neighbours {W} (E : OsEnv W) c issue st re ac r w :
  strategy c = "isolated" -> wi_identifier issue = Some ".." ->
  given (dget "before_remove" (hooks c)) = None -> should_preserve c st re = false ->
  (forall p q w, os_stuck E p q w = false) ->
  w_fs w !! removelast (resolve (root c)) = Some EDir ->
  forall q, under (removelast (resolve (root c))) q = true ->
    w_fs (snd (cleanup E c issue st re ac r w)) !! q = None.
Proof.
  intros Hs Hi Hh Hp Hstuck Hd q Hq. rewrite cleanup_isolated by done.
  assert (Hw : workspace_path c issue = root c ++ [".."]).
  { unfold workspace_path. rewrite Hs. unfold safe_id, identifier_of. by rewrite Hi. }
  assert (Hr : resolve (workspace_path c issue) = removelast (resolve (root c))).
  { rewrite Hw. unfold resolve. by rewrite fold_left_app. }
  unfold exists_, at_. rewrite Hr, Hd. simpl. unfold settle_workspace. rewrite Hp.
  unfold swallow, try_except, rmtree, dir_at, at_. rewrite Hr, Hd. simpl.
  assert (Hgone : rm_fs E (workspace_path c issue) w !! q = None).
  { unfold rm_fs. apply map_lookup_filter_None. right. intros e _. simpl. unfold kept_by_rmtree.
    rewrite Hr, Hq. simpl. intros H. apply existsb_exists in H as (kv & _ & H).
    by rewrite Hstuck, andb_false_r in H. }
  by destruct (exists_ _ _).
Qed.

(** ** The lock *)

Fixpoint uint_val (acc : Z) (d : Decimal.uint) : Z :=
  match d with
  | Decimal.Nil => acc
  | Decimal.D0 d => uint_val (10 * acc) d
  | Decimal.D1 d => uint_val (10 * acc + 1) d
  | Decimal.D2 d => uint_val (10 * acc + 2) d
  | Decimal.D3 d => uint_val (10 * acc + 3) d
  | Decimal.D4 d => uint_val (10 * acc + 4) d
  | Decimal.D5 d => uint_val (10 * acc + 5) d
  | Decimal.D6 d => uint_val (10 * acc + 6) d
  | Decimal.D7 d => uint_val (10 * acc + 7) d
  | Decimal.D8 d => uint_val (10 * acc + 8) d
  | Decimal.D9 d => uint_val (10 * acc + 9) d
  end.

Lemma digits_from_uint d acc :
  digits_from acc (NilEmpty.string_of_uint d) = Some (uint_val acc d).
Proof.
  revert acc. induction d as [|d IH|d IH|d IH|d IH|d IH|d IH|d IH|d IH|d IH|d IH]; intros acc;
    cbn [NilEmpty.string_of_uint uint_val digits_from]; [done| ..];
    match goal with |- context [is_digit ?x] => change (is_digit x) with true end;
    rewrite IH; do 2 f_equal; unfold digit_value; simpl; lia.
Qed.

Lemma uint_val_pos d p : uint_val (Zpos p) d = Zpos (Pos.of_uint_acc d p).
Proof.
  revert p. induction d as [|d IH|d IH|d IH|d IH|d IH|d IH|d IH|d IH|d IH|d IH]; intros p;
    cbn [uint_val Pos.of_uint_acc]; [done| ..]; rewrite <- IH; f_equal; lia.
Qed.

Lemma uint_val_0 d : uint_val 0 d = Z.of_uint d.
Proof.
  unfold Z.of_uint. induction d; cbn [uint_val Pos.of_uint]; try done; try apply uint_val_pos.
Qed.

Lemma py_int_uint d : d <> Decimal.Nil -> py_int (NilEmpty.string_of_uint d) = Some (uint_val 0 d).
Proof.
  intros Hd. destruct d as [|d|d|d|d|d|d|d|d|d|d]; [done| ..];
    cbn [NilEmpty.string_of_uint uint_val py_int digits];
    match goal with |- context [is_digit ?x] => change (is_digit x) with true end;
    rewrite digits_from_uint; do 2 f_equal; unfold digit_value; simpl; lia.
Qed.

Lemma str_int_uint z : 0 <= z ->
  exists d, d <> Decimal.Nil /\ str_int z = NilEmpty.string_of_uint d /\ uint_val 0 d = z.
Proof.
  intros Hz. destruct z as [|p|p]; [by exists (Decimal.D0 Decimal.Nil)| |lia].
  pose proof (DecimalPos.Unsigned.to_uint_nonnil p) as Hn. exists (Pos.to_uint p).
  split; [done|]. split.
  - unfold str_int. simpl. unfold NilZero.string_of_uint. by destruct (Pos.to_uint p).
  - rewrite uint_val_0. unfold Z.of_uint. by rewrite DecimalPos.Unsigned.of_to.
Qed.

(** [int(str(z))] *)
Lemma py_int_str z : 0 <= z -> py_int (str_int z) = Some z.
Proof. intros Hz. destruct (str_int_uint z Hz) as (d & Hd & -> & <-). by apply py_int_uint. Qed.

(** Printable ASCII text, and such text without blanks. *)
Fixpoint all_chars (f : Ascii.ascii -> bool) (s : string) : bool :=
  match s with EmptyString => true | String ch s' => f ch && all_chars f s' end.
Definition printable (ch : Ascii.ascii) : bool :=
  let n := Ascii.N_of_ascii ch in (32 <=? n)%N && (n <=? 126)%N.
Definition visible (ch : Ascii.ascii) : bool :=
  let n := Ascii.N_of_ascii ch in (33 <=? n)%N && (n <=? 126)%N.

Lemma all_chars_mono (f g : Ascii.ascii -> bool) s :
  (forall ch, f ch = true -> g ch = true) -> all_chars f s = true -> all_chars g s = true.
Proof. induction s as [|ch s IH]; simpl; [done|]. rewrite !andb_true_iff. naive_solver. Qed.

Lemma all_chars_app f a b : all_chars f (a +:+ b) = all_chars f a && all_chars f b.
Proof. induction a as [|ch a IH]; simpl; [done|]. by rewrite IH, andb_assoc. Qed.

Lemma visible_printable ch : visible ch = true -> printable ch = true.
Proof. unfold visible, printable. rewrite !andb_true_iff, !N.leb_le. lia. Qed.

Lemma uint_visible d : all_chars visible (NilEmpty.string_of_uint d) = true.
Proof. by induction d. Qed.

Lemma str_int_visible z : 0 <= z -> all_chars visible (str_int z) = true.
Proof. intros Hz. destruct (str_int_uint z Hz) as (d & _ & -> & _). apply uint_visible. Qed.

Lemma visible_not_space ch : visible ch = true -> is_space ch = false.
Proof.
  unfold visible, is_space. rewrite andb_true_iff, !N.leb_le. intros H.
  repeat match goal with |- context [(?a <=? ?b)%N] => destruct (N.leb_spec a b) end;
  repeat match goal with |- context [(?a =? ?b)%N] => destruct (N.eqb_spec a b) end; simpl; try done; lia.
Qed.

Lemma rstrip_visible s : all_chars visible s = true -> rstrip s = s.
Proof.
  induction s as [|ch s IH]; simpl; [done|]. rewrite andb_true_iff. intros [Hc Hs].
  rewrite IH by done. apply visible_not_space in Hc. destruct s; [by rewrite Hc|done].
Qed.

Lemma strip_visible s : all_chars visible s = true -> strip s = s.
Proof.
  intros H. unfold strip. replace (lstrip s) with s; [by apply rstrip_visible|].
  destruct s as [|ch s]; [done|]. simpl in *. apply andb_true_iff in H as [H _].
  by rewrite (visible_not_space _ H).
Qed.

Lemma byte_is_eq n ch : byte_is n ch = true -> Ascii.N_of_ascii ch = n.
Proof. apply N.eqb_eq. Qed.

Lemma printable_no_break ch : printable ch = true ->
  is_line_break ch = false /\ byte_is 194 ch = false /\ byte_is 226 ch = false.
Proof.
  unfold printable, is_line_break, byte_is. rewrite andb_true_iff, !N.leb_le. intros [H1 H2].
  repeat match goal with |- context [(?a <=? ?b)%N] => destruct (N.leb_spec a b) end; try lia;
  repeat match goal with |- context [(?a =? ?b)%N] => destruct (N.eqb_spec a b) end; simpl; try lia; done.
Qed.

(** A line of printable text is split off at its line feed. *)
Lemma split_printable s cur :
  all_chars printable s = true -> split_from false cur (s +:+ lf) = [cur +:+ s].
Proof.
  revert cur. induction s as [|ch s IH]; intros cur; simpl all_chars.
  { intros _. simpl. by rewrite append_nil_r. }
  rewrite andb_true_iff. intros [Hc Hs]. destruct (printable_no_break ch Hc) as (H1 & H2 & H3).
  change (String ch s +:+ lf) with (String ch (s +:+ lf)). rewrite split_from_cons. cbv zeta.
  rewrite H1, H2, H3, IH by done. cbn [andb].
  replace ((cur +:+ one ch) +:+ s) with (cur +:+ String ch s) by (by rewrite append_assoc).
  by destruct (s +:+ lf) as [|d [|e r]].
Qed.

Lemma splitlines_line s r :
  all_chars printable s = true -> splitlines (s +:+ lf +:+ r) = s :: splitlines r.
Proof. intros H. unfold splitlines. by rewrite split_from_lf, split_printable. Qed.

Lemma substring_all s : String.substring 0 (String.length s) s = s.
Proof. induction s as [|ch s IH]; simpl; [done|]. by rewrite IH. Qed.

Lemma drop_pid s : drop_str 4 ("pid=" +:+ s) = s.
Proof.
  unfold drop_str. change (String.length ("pid=" +:+ s)) with (4 + String.length s)%nat.
  replace (4 + String.length s - 4)%nat with (String.length s) by lia. apply substring_all.
Qed.

(** A path that holds something is left as it is. *)
Section keeps.
Context {W : Type} (q : path) (x : entry).

Definition keeps {A} (m : M (World W) werr A) : Prop :=
  forall w, w_fs w !! q = Some x -> w_fs (snd (m w)) !! q = Some x.

Lemma holds_ret {A} (a : A) : keeps (mret a).
Proof. by intros w. Qed.

Lemma holds_raise {A} e : keeps (raise e : M (World W) werr A).
Proof. by intros w. Qed.

Lemma holds_bind {A B} (m : M (World W) werr A) (f : A -> M (World W) werr B) :
  keeps m -> (forall a, keeps (f a)) -> keeps (m ≫= f).
Proof.
  intros Hm Hf w Hw. specialize (Hm w Hw). unfold mbind, M_bind.
  destruct (m w) as [[a|e] w1]; simpl in *; [by apply Hf|done].
Qed.

Lemma holds_get {A} (f : World W -> M (World W) werr A) : (forall w, keeps (f w)) -> keeps (get ≫= f).
Proof. intros Hf w Hw. by apply Hf. Qed.

Lemma holds_try {A} (m : M (World W) werr A) h :
  keeps m -> (forall e, keeps (h e)) -> keeps (try_except m h).
Proof.
  intros Hm Hh w Hw. specialize (Hm w Hw). unfold try_except.
  destruct (m w) as [[a|e] w1]; simpl in *; [done|by apply Hh].
Qed.

Context (E : OsEnv W) (c : WorkspaceConfig).
Lemma holds_mkdirs_along ps : keeps (mkdirs_along E ps).
Proof.
  induction ps as [|p ps IH]; [by intros w|]. intros w Hw. simpl. unfold mbind at 1, M_bind at 1, get.
  destruct (at_ p (w_fs w)) as [[]|] eqn:Hp; [done|by apply IH|].
  unfold sys, mbind, M_bind. destruct (os_fault _ _ _ _); [done|]. simpl. apply IH.
  rewrite put_elsewhere; [done|]. intros ->. unfold at_ in Hp. congruence.
Qed.

Lemma holds_mkdirs p : keeps (mkdirs E p).
Proof. apply holds_mkdirs_along. Qed.

Hypothesis exec_keeps : forall cmd cwd t w,
  w_fs w !! q = Some x -> w_fs (snd (os_exec E cmd cwd t w)) !! q = Some x.

Lemma holds_run cmd cwd t : keeps (run_process E cmd cwd t).
Proof.
  intros w Hw. specialize (exec_keeps cmd cwd t w Hw). unfold run_process.
  destruct (os_exec E cmd cwd t w) as [[[| |] out| |] w']; done.
Qed.

Lemma holds_try_process args cwd : keeps (try_process E args cwd).
Proof.
  apply holds_try; [apply holds_bind; [apply holds_run|intros; apply holds_ret]|].
  intros []; first [apply holds_ret | apply holds_raise].
Qed.

Lemma holds_git args cwd : keeps (git E args cwd).
Proof. apply holds_run. Qed.
End keeps.

#[export] Hint Resolve holds_ret holds_raise holds_run holds_mkdirs holds_try_process holds_git : keeps.

(** The bookkeeping of sequences, choices and calls. *)
Ltac keeps :=
  repeat match goal with
    | |- forall _, _ => intro
    | |- keeps _ _ (mbind _ get) => apply holds_get
    | |- keeps _ _ (mbind _ _) => apply holds_bind
    | |- keeps _ _ (if ?b then _ else _) => destruct b
    | |- keeps _ _ (match ?o with Some _ => _ | None => _ end) => destruct o
    | |- keeps _ _ _ => solve [auto 2 with keeps]
    end.

Section holds_git.
Context {W : Type} (q : path) (x : entry) (E : OsEnv W) (c : WorkspaceConfig).
Hypothesis exec_keeps : forall cmd cwd t w,
  w_fs w !! q = Some x -> w_fs (snd (os_exec E cmd cwd t w)) !! q = Some x.

Lemma holds_checkout_integration p : keeps q x (checkout_integration_branch E c p).
Proof.
  unfold checkout_integration_branch, checkout_base_for_integration, fetch, show_ref. keeps.
Qed.

Lemma holds_clean p reason : keeps q x (ensure_clean_workspace E p reason).
Proof. unfold ensure_clean_workspace. keeps. Qed.

Lemma holds_ensure p : keeps q x (ensure_workspace E p).
Proof.
  unfold ensure_workspace. intros w Hw. unfold mbind, M_bind, get. simpl.
  destruct (dir_at p (w_fs w)) eqn:Hd; [done|]. destruct (exists_ p (w_fs w)).
  - unfold rmtree. by rewrite Hd.
  - unfold mret, M_ret. pose proof (holds_mkdirs q x E p w Hw) as Hk.
    by destruct (mkdirs E p w) as [[[]|] w1].
Qed.

Lemma holds_shared p : keeps q x (prepare_shared_workspace E c p).
Proof.
  unfold prepare_shared_workspace. destruct (given (repo_clone_url c)); [|apply holds_ensure].
  unfold clone_repository, add_upstream_remote, ensure_git_identity, fetch. keeps.
Qed.
End holds_git.

Section lock.
Context {W : Type} (E : OsEnv W) (c : WorkspaceConfig).

Lemma lock_names_owner issue w :
  0 <= os_pid E ->
  pid_of_lines (splitlines (lock_content E issue w)) = Some (str_int (os_pid E)).
Proof.
  intros Hp. unfold lock_content. cbn [join].
  pose proof (str_int_visible _ Hp) as Hv.
  rewrite splitlines_line.
  - cbn [pid_of_lines].
    replace (String.prefix "pid=" ("pid=" +:+ str_int (os_pid E))) with true
      by (simpl; by destruct (str_int (os_pid E))).
    rewrite drop_pid, strip_visible by done. unfold given.
    destruct (String.eqb_spec (str_int (os_pid E)) ""); [|done].
    pose proof (py_int_str _ Hp) as Hi. by rewrite e in Hi.
  - rewrite all_chars_app. by rewrite (all_chars_mono visible printable _ visible_printable Hv).
Qed.

Lemma acquire_writes issue w w' :
  sequential_lock c = true -> acquire_sequential_lock E c issue w = (Ret tt, w') ->
  exists w0, at_ (lock_path c) (w_fs w') = Some (EFile (lock_content E issue w0)).
Proof.
  intros Hl. unfold acquire_sequential_lock. rewrite Hl. change (negb true) with false. cbv iota. intros H.
  apply bind_returns in H as (_ & w1 & _ & H). apply bind_returns in H as (w2 & w3 & _ & H).
  apply bind_returns in H as (_ & w4 & _ & H). apply bind_returns in H as (_ & w5 & _ & H).
  apply bind_returns in H as (w6 & w7 & _ & H). exists w6.
  unfold write_open in H. destruct (os_fault _ _ _ _); simplify_eq. apply at_put.
Qed.

Lemma lock_seen_alive w content pid s :
  os_fault E SRead (lock_path c) w = false -> os_kill E pid w = KillOk ->
  at_ (lock_path c) (w_fs w) = Some (EFile content) ->
  pid_of_lines (splitlines content) = Some s -> py_int s = Some pid ->
  lock_pid_alive E c w = (Ret true, w).
Proof.
  intros Hf Hk Ha Hs Hi. unfold lock_pid_alive, read_text, sys. by rewrite Hf, Ha, Hs, Hi, Hk.
Qed.

(** Who finds the lock of a live process is refused, and leaves it. *)
Lemma acquire_refused issue w content pid s :
  sequential_lock c = true ->
  (forall w, os_fault E SRead (lock_path c) w = false) -> (forall w, os_kill E pid w = KillOk) ->
  at_ (lock_path c) (w_fs w) = Some (EFile content) ->
  pid_of_lines (splitlines content) = Some s -> py_int s = Some pid ->
  exists e w', acquire_sequential_lock E c issue w = (Raise e, w')
    /\ at_ (lock_path c) (w_fs w') = Some (EFile content).
Proof.
  intros Hl Hf Hk Ha Hs Hi. unfold acquire_sequential_lock. rewrite Hl. change (negb true) with false. cbv iota.
  unfold mbind, M_bind. cbv beta.
  pose proof (holds_mkdirs (resolve (lock_path c)) (EFile content) E (parent (lock_path c)) w Ha) as Hm.
  destruct (mkdirs E (parent (lock_path c)) w) as [[[]|e] w1]; simpl in Hm;
    [|exists e, w1; split; [done|exact Hm]].
  unfold get. cbv beta iota.
  replace (exists_ (lock_path c) (w_fs w1)) with true by (unfold exists_, at_; by rewrite Hm).
  rewrite (lock_seen_alive w1 content pid s) by done.
  eexists _, w1. split; [done|exact Hm].
Qed.
End lock.

(** A manager that got the lock keeps every other out: while its process lives
    and nobody removes the lock file, each further request is refused and leaves
    the file as it is. *)
Theorem sequential_lock_excludes {W} (E1 E2 : OsEnv W) c i1 i2 w w1 w2 :
  sequential_lock c = true -> 0 <= os_pid E1 ->
  acquire_sequential_lock E1 c i1 w = (Ret tt, w1) ->
  at_ (lock_path c) (w_fs w2) = at_ (lock_path c) (w_fs w1) ->
  (forall w, os_kill E2 (os_pid E1) w = KillOk) ->
  (forall w, os_fault E2 SRead (lock_path c) w = false) ->
  exists e w3, acquire_sequential_lock E2 c i2 w2 = (Raise e, w3)
    /\ at_ (lock_path c) (w_fs w3) = at_ (lock_path c) (w_fs w1).
Proof.
  intros Hl Hp Ha Hsame Hk Hf. destruct (acquire_writes E1 c i1 w w1 Hl Ha) as [w0 Hw]. rewrite Hw in *.
  apply (acquire_refused E2 c i2 w2 _ (os_pid E1) (str_int (os_pid E1))); try done.
  - by apply lock_names_owner.
  - by apply py_int_str.
Qed.

(** The refusal does not stay without effect: a manager that cannot have the
    workspace because a live process holds the lock removes that lock, so that
    nothing stops its next attempt. *)
Theorem refused_create_frees_lock {W} (E : OsEnv W) c issue w w1 created content pid s :
  strategy c = "sequential" -> sequential_lock c = true ->
  (forall cmd cwd t w, w_fs (snd (os_exec E cmd cwd t w)) !! resolve (lock_path c) = w_fs w !! resolve (lock_path c)) ->
  (forall k w, os_fault E k (lock_path c) w = false) -> (forall w, os_kill E pid w = KillOk) ->
  at_ (lock_path c) (w_fs w) = Some (EFile content) ->
  pid_of_lines (splitlines content) = Some s -> py_int s = Some pid ->
  prepare_shared_workspace E c (root c) w = (Ret created, w1) ->
  exists e w2, create_for_issue E c issue w = (Raise e, w2) /\ at_ (lock_path c) (w_fs w2) = None.
Proof.
  intros Hst Hl Hx Hf Hk Ha Hs Hi Hsh.
  set (q := resolve (lock_path c)) in *. set (x := EFile content) in *.
  assert (Hex : forall cmd cwd t w, w_fs w !! q = Some x -> w_fs (snd (os_exec E cmd cwd t w)) !! q = Some x)
    by (intros; by rewrite Hx).
  pose proof (holds_shared q x E c Hex (root c) w Ha) as H1. rewrite Hsh in H1. simpl in H1.
  assert (Hseq : exists e w2, prepare_sequential_workspace E c (root c) issue w1 = (Raise e, w2)
                              /\ w_fs w2 !! q = Some x).
  { unfold prepare_sequential_workspace, mbind, M_bind. cbv beta.
    pose proof (holds_checkout_integration q x E c Hex (root c) w1 H1) as H2.
    destruct (checkout_integration_branch E c (root c) w1) as [[[]|e] w2]; [|by exists e, w2].
    simpl in H2. set (m := if require_clean_start c then _ else _).
    assert (Hm : keeps q x m) by (unfold m; destruct (require_clean_start c); [by apply holds_clean|apply holds_ret]).
    specialize (Hm w2 H2). destruct (m w2) as [[[]|e] w3]; [|by exists e, w3]. simpl in Hm.
    by eapply acquire_refused. }
  destruct Hseq as (e & w2 & Hseq & H2).
  unfold create_for_issue, workspace_path. rewrite Hst. simpl. unfold mbind, M_bind. cbv beta.
  rewrite Hsh. unfold try_except. rewrite Hseq.
  unfold release_sequential_lock. rewrite Hl. simpl. unfold unlink, sys. rewrite Hf.
  change (at_ (lock_path c) (w_fs w2)) with (w_fs w2 !! q). rewrite H2. unfold x. eexists _, _. split; [done|]. 
  apply (lookup_delete_eq (w_fs w2) q).
Qed.

(** ** Excluded files *)

(** A line feed at the end of a text takes no line away. *)
Lemma split_lf_incl n s cur l :
  (String.length s <= n)%nat -> l ∈ split_from false cur s -> l ∈ split_from false cur (s +:+ lf).
Proof.
  revert s cur. induction n as [|n IH]; intros s cur Hn.
  { destruct s; [|simpl in Hn; lia]. simpl. destruct (String.eqb cur ""); set_solver. }
  destruct s as [|c s]; [simpl; destruct (String.eqb cur ""); set_solver|]. simpl in Hn.
  assert (H1 := fun cur => IH s cur ltac:(lia)).
  change (String c s +:+ lf) with (String c (s +:+ lf)).
  rewrite !split_from_cons. cbv zeta.
  destruct s as [|d s].
  - specialize (H1 (cur +:+ one c)). change ("" +:+ lf) with (String (Ascii.ascii_of_N 10) "") in *.
    cbv iota. change (byte_is 133 (Ascii.ascii_of_N 10)) with false. rewrite andb_false_r.
    destruct (is_line_break c); [|done]. destruct (_ && _); set_solver.
  - assert (H2 := fun cur => IH s cur ltac:(simpl in Hn; lia)).
    change (String d s +:+ lf) with (String d (s +:+ lf)) in *. cbv iota.
    destruct (is_line_break c).
    + destruct (byte_is 13 c && byte_is 10 d); rewrite !elem_of_cons; naive_solver.
    + destruct (byte_is 194 c && byte_is 133 d); [rewrite !elem_of_cons; naive_solver|].
      destruct s as [|e s].
      * specialize (H1 (cur +:+ one c)). change ("" +:+ lf) with (String (Ascii.ascii_of_N 10) "") in *.
        cbv iota. change (byte_is 168 (Ascii.ascii_of_N 10) || byte_is 169 (Ascii.ascii_of_N 10)) with false.
        by rewrite andb_false_r.
      * assert (H3 := fun cur => IH s cur ltac:(simpl in Hn; lia)).
        change (String e s +:+ lf) with (String e (s +:+ lf)) in *. cbv iota.
        destruct (byte_is 226 c && byte_is 128 d && _); [rewrite !elem_of_cons; naive_solver|apply H1].
Qed.

Lemma splitlines_incl s l : l ∈ splitlines s -> l ∈ splitlines (s +:+ lf).
Proof. by apply (split_lf_incl (String.length s)). Qed.

Lemma splitlines_joined ps r :
  Forall (fun p => all_chars printable p = true) ps -> ps <> [] ->
  splitlines (join lf ps +:+ lf +:+ r) = ps ++ splitlines r.
Proof.
  intros H. induction H as [|p ps Hp Hps IH]; [done|]. intros _. destruct ps as [|p' ps].
  - simpl join. by rewrite splitlines_line.
  - change (join lf (p :: p' :: ps)) with (p +:+ lf +:+ join lf (p' :: ps)).
    rewrite !append_assoc, splitlines_line by done. simpl app. f_equal. by apply IH.
Qed.

Lemma ends_lf_split s : ends_lf s = true -> exists s', s = s' +:+ lf.
Proof.
  unfold ends_lf. intros H. destruct (last (String.list_ascii_of_string s)) as [ch|] eqn:Hl; [|done].
  apply byte_is_eq in H. assert (ch = Ascii.ascii_of_N 10) as -> by (by rewrite <- H, ascii_N_embedding).
  apply last_Some in Hl as [l Hl]. exists (String.string_of_list_ascii l).
  rewrite <- (String.string_of_list_ascii_of_string s), Hl.
  clear. induction l as [|ch l IH]; [done|]. exact (f_equal (String ch) IH).
Qed.

(** The text before the added block is made of whole lines, and none is lost. *)
Lemma excluded_lines existing block l :
  let suffix := if ends_lf existing || String.eqb existing "" then "" else lf in
  l ∈ splitlines existing \/ l ∈ splitlines block ->
  l ∈ splitlines (existing +:+ suffix +:+ block).
Proof.
  simpl. destruct (ends_lf existing) eqn:He; simpl.
  - destruct (ends_lf_split _ He) as [s ->]. unfold splitlines.
    change ("" +:+ block) with block. rewrite append_assoc, split_from_lf. set_solver.
  - destruct (String.eqb_spec existing "") as [->|_].
    + change ("" +:+ "" +:+ block) with block. set_solver.
    + unfold splitlines. rewrite split_from_lf. intros [H|H]; apply elem_of_app; [left|by right].
      by apply splitlines_incl.
Qed.

Lemma filter_none {A} (f : A -> bool) (l : list A) :
  (forall x, x ∈ l -> f x = false) -> List.filter f l = [].
Proof.
  induction l as [|x l IH]; intros H; [done|]. simpl. rewrite (H x) by set_solver. apply IH. set_solver.
Qed.

(** The patterns are added once: when each is one printable line without
    blanks around it, the file that was written needs no further change. *)
Theorem exclude_idempotent c existing text :
  Forall (fun p => all_chars printable p = true /\ strip p = p) (gitignore_patterns c) ->
  excluded c existing = Some text -> excluded c text = None.
Proof.
  intros Hp. unfold excluded.
  set (missing := List.filter _ (gitignore_patterns c)). destruct missing as [|p ps] eqn:Hm; [done|].
  rewrite <- Hm. intros H.
  set (block := "# Orchestratord managed" +:+ lf +:+ join lf missing +:+ lf) in *.
  assert (Ht : text = existing +:+ (if ends_lf existing || String.eqb existing "" then "" else lf) +:+ block).
  { by injection H as <-. }
  assert (Hin : forall x, x ∈ gitignore_patterns c -> x ∈ map strip (splitlines text)).
  { intros x Hx. pose proof (proj1 (Forall_forall _ _) Hp x Hx) as [Hx1 Hx2].
    assert (Hor : x ∈ map strip (splitlines existing) \/ x ∈ missing).
    { destruct (mem x (map strip (splitlines existing))) eqn:Hmem; [left; by apply bool_decide_eq_true in Hmem|].
      right. apply list_elem_of_In, filter_In. split; [by apply list_elem_of_In|]. by rewrite Hmem. }
    apply list_elem_of_fmap. destruct Hor as [Hor|Hor].
    - apply list_elem_of_fmap in Hor as (l & -> & Hl). exists l. split; [done|]. rewrite Ht.
      apply excluded_lines. by left.
    - exists x. split; [done|]. rewrite Ht. apply excluded_lines. right. unfold block.
      rewrite splitlines_line by done. apply elem_of_cons. right.
      rewrite <- (append_nil_r (join lf missing +:+ lf)), append_assoc, splitlines_joined.
      + by rewrite app_nil_r.
      + apply Forall_forall. intros y Hy. apply list_elem_of_In, filter_In in Hy as [Hy _].
        by apply (proj1 (Forall_forall _ _) Hp y), list_elem_of_In.
      + by rewrite Hm. }
  rewrite (filter_none _ (gitignore_patterns c)); [done|].
  intros x Hx. apply negb_false_iff, bool_decide_eq_true. by apply Hin.
Qed.

(** ** Examples *)

Definition quiet : OsEnv unit :=
  mkOsEnv (fun _ _ _ w => (PExit 0 "", w)) (fun _ _ _ => false) (fun _ _ _ => false) (fun _ _ => "")
    (fun _ _ => KillOk) 7 (fun _ => "0") (fun _ => Some "{}").

Definition demo_config (strategy : string) (keep : bool) : WorkspaceConfig :=
  mkWorkspaceConfig ["srv"; "ws"] [] None None None (Some 1) true None None None
    [".orchestratord_workspace.lock"] strategy None None true keep keep keep keep true.

Definition issue_named (id : string) : WIssue := mkWIssue (Some id) (Some id) None.

Definition demo_world : World unit :=
  mkWorld (<[["srv"] := EDir]> (<[["srv"; "ws"] := EDir]> (<[["srv"; "ws"; "A-1"] := EDir]>
    (<[["srv"; "ws"; "A-1"; "f"] := EFile "x"]> (<[["srv"; "ws"; "A-2"] := EDir]>
    (<[["srv"; "other"] := EFile "y"]> ∅)))))) tt.

Lemma preserved_over_restart_witness :
  let w1 := snd (cleanup quiet (demo_config "isolated" true) (issue_named "A-1") (Some "failed") None None [] demo_world) in
  let w2 := snd (run_terminal_workspace_cleanup quiet (demo_config "isolated" true) w1) in
  w_fs w2 !! ["srv"; "ws"; "A-1"; "f"] = Some (EFile "x") /\ w_fs w2 !! ["srv"; "ws"; "A-2"] = None.
Proof.
  split; [|by vm_compute].
  apply (preserved_over_restart quiet quiet (demo_config "isolated" true) (issue_named "A-1")
           (Some "failed") None None [] demo_world);
    first [done | vm_compute; reflexivity | by vm_compute].
Defined.

Lemma cleanup_leaves_others_witness :
  w_fs (snd (cleanup quiet (demo_config "isolated" false) (issue_named "A-2") None None None [] demo_world))
    !! ["srv"; "ws"; "A-1"; "f"] = Some (EFile "x").
Proof.
  apply (cleanup_leaves_others quiet (demo_config "isolated" false) (issue_named "A-2") (issue_named "A-1")
           None None None [] demo_world ["srv"; "ws"; "A-1"; "f"]); by vm_compute.
Defined.

Lemma dotdot_removes_neighbours_witness :
  w_fs (snd (cleanup quiet (demo_config "isolated" false) (issue_named "..") None None None [] demo_world))
    !! ["srv"; "other"] = None.
Proof.
  apply (dotdot_removes_neighbours quiet (demo_config "isolated" false) (issue_named "..")
           None None None [] demo_world); by vm_compute.
Defined.

Definition locked_world : World unit :=
  snd (acquire_sequential_lock quiet (demo_config "sequential" true) (issue_named "A-1") demo_world).

Lemma sequential_lock_excludes_witness :
  exists e w, acquire_sequential_lock quiet (demo_config "sequential" true) (issue_named "A-2") locked_world
              = (Raise e, w).
Proof.
  destruct (sequential_lock_excludes quiet quiet (demo_config "sequential" true) (issue_named "A-1")
              (issue_named "A-2") demo_world locked_world locked_world) as (e & w & H & _);
    [done|done|vm_compute; reflexivity|done|done|done|by exists e, w].
Defined.

(** The second attempt gets the workspace although the first owner lives. *)
Lemma refused_create_frees_lock_witness :
  let c := demo_config "sequential" true in
  exists e w ws, create_for_issue quiet c (issue_named "A-2") locked_world = (Raise e, w)
    /\ at_ (lock_path c) (w_fs w) = None
    /\ fst (create_for_issue quiet c (issue_named "A-2") w) = Ret ws.
Proof.
  cbv zeta.
  destruct (refused_create_frees_lock quiet (demo_config "sequential" true) (issue_named "A-2")
              locked_world locked_world false (lock_content quiet (issue_named "A-1") demo_world) 7 "7")
    as (e & w & H & Hn); [done|done|done|done|done|vm_compute; reflexivity|vm_compute; reflexivity|done|vm_compute; reflexivity|].
  assert (Hw : w = snd (create_for_issue quiet (demo_config "sequential" true) (issue_named "A-2") locked_world))
    by (by rewrite H).
  eexists e, w, _. split; [done|]. split; [done|]. rewrite Hw. vm_compute. reflexivity.
Defined.

Lemma exclude_idempotent_witness :
  exists text, excluded (demo_config "isolated" true) "*.pyc" = Some text
    /\ excluded (demo_config "isolated" true) text = None.
Proof.
  eexists. split; [by vm_compute|].
  apply (exclude_idempotent (demo_config "isolated" true) "*.pyc"); [|by vm_compute].
  by repeat constructor.
Defined.
