(* ===== verification/GitSync.v ===== *)
(** * Git sync
    ([src/orchestratord/git/sync.py], [src/orchestratord/git/utils.py],
    [src/orchestratord/kernel/git_probe.py])

    After a run [sync] commits what the agent changed, verifies it, pushes the
    branch and opens the pull request; [rebase_for_pr] brings the branch of an
    open pull request up to date.  git, the shell and the tracker are
    parameters that answer each call from a world of their own; the model keeps
    the list of the calls that were made, with the exit status of git and the
    shell.  The texts of pull requests, reports and summary comments are
    parameters as well. *)

From Stdlib Require Import Ascii.
From stdpp Require Import sorting.
From S2P Require Import Prelude Dag StageRunner Checkpoint Intent Regex ClarResolver Workspace.

Open Scope string_scope.
Open Scope list_scope.
Open Scope Z_scope.

(** ** Data *)

Record PullRequestRef := mkPr {
  pr_number : option string;
  pr_url : option string;
  pr_title : option string;
  pr_head_ref : option string;
}.

Record SyncIssue := mkSyncIssue {
  si_id : option string;
  si_identifier : option string;
  si_title : option string;
  si_branch_name : option string;
}.

Record SyncConfig := mkSyncConfig {
  sy_branch_prefix : option string;
  sy_patterns : list string;
  sy_test_command : option string;
  sy_build_command : option string;
  sy_lint_command : option string;
  sy_timeout_ms : Z;
  sy_regression_guard : bool;
  sy_fallback_test_command : string;
  sy_allowed_changed_files : list string;
  sy_review_required : bool;
  sy_pre_commit : option string;
  sy_pre_push : option string;
  sy_post_sync : option string;
  sy_hook_timeout_ms : Z;
  sy_git_username : option string;
  sy_git_email : option string;
  sy_upstream_url : option string;
  sy_fork_url : option string;
  sy_local_tracker : bool;
}.

(** What [sync] reads and writes of the session. *)
Record SyncSession := mkSyncSession {
  ss_workspace : string;
  ss_issue : SyncIssue;
  ss_pull_request : option PullRequestRef;
  ss_strategy : string;
  ss_base_branch : option string;
  ss_integration_branch : option string;
  ss_start_sha : option string;
  ss_feedback_body : option string;
  ss_feedback_ids : list string;
  ss_repro_command : option string;
  ss_run_id : option string;
  ss_verification_status : option string;
  ss_verification_output : option string;
  ss_pre_commit_output : option string;
  ss_post_sync_output : option string;
  ss_summary_comment_id : option string;
  ss_report_path : option string;
}.

Definition set_verified (status output : string) (s : SyncSession) : SyncSession :=
  mkSyncSession (ss_workspace s) (ss_issue s) (ss_pull_request s) (ss_strategy s) (ss_base_branch s)
    (ss_integration_branch s) (ss_start_sha s) (ss_feedback_body s) (ss_feedback_ids s)
    (ss_repro_command s) (ss_run_id s) (Some status) (Some output) (ss_pre_commit_output s)
    (ss_post_sync_output s) (ss_summary_comment_id s) (ss_report_path s).
Definition set_pre_commit_output (o : string) (s : SyncSession) : SyncSession :=
  mkSyncSession (ss_workspace s) (ss_issue s) (ss_pull_request s) (ss_strategy s) (ss_base_branch s)
    (ss_integration_branch s) (ss_start_sha s) (ss_feedback_body s) (ss_feedback_ids s)
    (ss_repro_command s) (ss_run_id s) (ss_verification_status s) (ss_verification_output s) (Some o)
    (ss_post_sync_output s) (ss_summary_comment_id s) (ss_report_path s).
Definition set_post_sync_output (o : string) (s : SyncSession) : SyncSession :=
  mkSyncSession (ss_workspace s) (ss_issue s) (ss_pull_request s) (ss_strategy s) (ss_base_branch s)
    (ss_integration_branch s) (ss_start_sha s) (ss_feedback_body s) (ss_feedback_ids s)
    (ss_repro_command s) (ss_run_id s) (ss_verification_status s) (ss_verification_output s)
    (ss_pre_commit_output s) (Some o) (ss_summary_comment_id s) (ss_report_path s).
Definition set_summary_comment (o : string) (s : SyncSession) : SyncSession :=
  mkSyncSession (ss_workspace s) (ss_issue s) (ss_pull_request s) (ss_strategy s) (ss_base_branch s)
    (ss_integration_branch s) (ss_start_sha s) (ss_feedback_body s) (ss_feedback_ids s)
    (ss_repro_command s) (ss_run_id s) (ss_verification_status s) (ss_verification_output s)
    (ss_pre_commit_output s) (ss_post_sync_output s) (Some o) (ss_report_path s).
Definition set_report_path (o : string) (s : SyncSession) : SyncSession :=
  mkSyncSession (ss_workspace s) (ss_issue s) (ss_pull_request s) (ss_strategy s) (ss_base_branch s)
    (ss_integration_branch s) (ss_start_sha s) (ss_feedback_body s) (ss_feedback_ids s)
    (ss_repro_command s) (ss_run_id s) (ss_verification_status s) (ss_verification_output s)
    (ss_pre_commit_output s) (ss_post_sync_output s) (ss_summary_comment_id s) (Some o).

Record GitSyncResult := mkSyncResult {
  sr_branch_name : string;
  sr_base_branch : string;
  sr_commit_sha : option string;
  sr_pull_request : option PullRequestRef;
  sr_committed : bool;
  sr_pushed : bool;
  sr_has_conflict : bool;
  sr_conflict_files : list string;
  sr_pending_review : bool;
  sr_end_reason : option string;
}.

Inductive gexn :=
| GitSyncError (message : string)
| VerificationFailed (message output : string)
| HookFailed (hook_name message output : string)
| PostCommit (cause : gexn) (result : GitSyncResult)
| OtherError (message : string).

(** [except (VerificationFailed, HookFailedError)] *)
Definition is_gate_error (e : gexn) : bool :=
  match e with VerificationFailed _ _ | HookFailed _ _ _ => true | _ => false end.

(** ** The outside *)

Record GitOut := mkGitOut { go_out : string; go_err : string; go_rc : Z }.

Inductive shellres :=
| ShTimeout
| ShDone (rc : Z) (output : string).

(** The answer of [list_pull_requests]; [LTypeError] stands for a tracker
    without the filter ([TypeError], [AttributeError]). *)
Inductive listres :=
| LOk (l : list PullRequestRef)
| LTypeError
| LError.

(** A call, with the exit status of a process. *)
Inductive gcall :=
| CGit (args : list string) (dir : string) (rc : Z)
| CShell (cmd dir : string) (res : shellres)
| CEnsurePr (head base : string)
| CUpdatePr
| CFindPr (head base : string)
| CListPrs (head : option string)
| CUpdateComment (id : string)
| CCreateComment.

(** [ge_git] is [git args] run in a directory; a missing executable and a
    timeout are an exit status of 1.  [ge_test_dir]: [None] when there is no such
    directory, else whether it holds test files.  The tracker operations that
    are missing are capabilities it does not have. *)
Record GitEnv (W : Type) := mkGitEnv {
  ge_git : list string -> string -> W -> GitOut * W;
  ge_shell : string -> string -> Z -> W -> shellres * W;
  ge_mkdtemp : W -> string * W;
  ge_is_file : string -> string -> W -> bool;
  ge_test_dir : string -> string -> W -> option bool;
  ge_python : string -> option string;
  ge_exclude : string -> W -> option string;
  ge_write_exclude : string -> string -> W -> bool * W;
  ge_ensure_pr : option (SyncIssue -> string -> string -> M W gexn (option PullRequestRef));
  ge_update_pr : option (PullRequestRef -> M W gexn (option PullRequestRef));
  ge_find_pr : string -> string -> M W gexn (option PullRequestRef);
  ge_list_prs : option string -> W -> listres * W;
  ge_update_comment : string -> string -> M W gexn bool;
  ge_create_comment : string -> M W gexn (option string);
  ge_report : SyncSession -> option string -> option PullRequestRef -> M W gexn string;
}.
Arguments mkGitEnv {W}.
Arguments ge_git {W}.
Arguments ge_shell {W}.
Arguments ge_mkdtemp {W}.
Arguments ge_is_file {W}.
Arguments ge_test_dir {W}.
Arguments ge_python {W}.
Arguments ge_exclude {W}.
Arguments ge_write_exclude {W}.
Arguments ge_ensure_pr {W}.
Arguments ge_update_pr {W}.
Arguments ge_find_pr {W}.
Arguments ge_list_prs {W}.
Arguments ge_update_comment {W}.
Arguments ge_create_comment {W}.
Arguments ge_report {W}.

Record GState (W : Type) := mkGState { gs_w : W; gs_log : list gcall; gs_ses : SyncSession }.
Arguments mkGState {W}.
Arguments gs_w {W}.
Arguments gs_log {W}.
Arguments gs_ses {W}.

(** ** Texts *)

(** [_tail]: the last 4000 characters *)
Definition OUTPUT_TAIL_CHARS : nat := 4000.
Definition tail (output : string) : string :=
  if (String.length output <=? OUTPUT_TAIL_CHARS)%nat then output
  else "…(truncated)…" +:+ lf +:+ drop_str (String.length output - OUTPUT_TAIL_CHARS) output.

(** [_fork_mode] *)
Definition fork_mode (c : SyncConfig) : bool :=
  match given (sy_upstream_url c), given (sy_fork_url c) with
  | Some up, Some fork => negb (String.eqb (rstrip_slash up) (rstrip_slash fork))
  | _, _ => false
  end.

(** What precedes the last [ch] and what follows it. *)
Fixpoint rsplit (ch : Ascii.ascii) (s : string) : option (string * string) :=
  match s with
  | EmptyString => None
  | String d s' =>
      match rsplit ch s' with
      | Some (a, b) => Some (String d a, b)
      | None => if Ascii.eqb ch d then Some ("", s') else None
      end
  end.
(** What follows the first [ch]. *)
Fixpoint after_first (ch : Ascii.ascii) (s : string) : option string :=
  match s with
  | EmptyString => None
  | String d s' => if Ascii.eqb ch d then Some s' else after_first ch s'
  end.

(** [([^/]+?)(?:\.git)?$] on a name: the name without the ending. *)
Definition without_git (name : string) : string :=
  let n := String.length name in
  if (4 <? n)%nat && String.eqb (drop_str (n - 4) name) ".git" then take_str (n - 4) name else name.

(** [_extract_owner_repo_from_url]: the last two names of the path; in front of
    them a slash, or the first colon where there is no slash. *)
Definition extract_owner_repo_from_url (url : string) : option string :=
  match rsplit "/"%char (rstrip_slash url) with
  | Some (front, repo) =>
      if String.eqb repo "" then None
      else
        let owner := match rsplit "/"%char front with
                     | Some (_, name) => Some name
                     | None => after_first ":"%char front
                     end in
        match given owner with
        | Some owner => Some (owner +:+ "/" +:+ without_git repo)
        | None => None
        end
  | None => None
  end.

(** [re.sub("[^a-z0-9._/-]+", "-", s)]; [inside]: the last character was
    replaced. *)
Definition slug_char (ch : Ascii.ascii) : bool :=
  let n := Ascii.N_of_ascii ch in
  ((97 <=? n)%N && (n <=? 122)%N) || ((45 <=? n)%N && (n <=? 57)%N) || (n =? 95)%N.
Fixpoint slug_runs (inside : bool) (s : string) : string :=
  match s with
  | EmptyString => EmptyString
  | String ch s' =>
      if slug_char ch then String ch (slug_runs false s')
      else if inside then slug_runs true s' else String "-"%char (slug_runs true s')
  end.
(** [re.sub("-{2,}", "-", s)] *)
Fixpoint collapse_dashes (after_dash : bool) (s : string) : string :=
  match s with
  | EmptyString => EmptyString
  | String ch s' =>
      if Ascii.eqb ch "-"%char
      then if after_dash then collapse_dashes true s' else String ch (collapse_dashes true s')
      else String ch (collapse_dashes false s')
  end.
(** [s.lstrip(ch)], [s.rstrip(ch)] *)
Fixpoint lstrip_char (c : Ascii.ascii) (s : string) : string :=
  match s with
  | EmptyString => EmptyString
  | String ch s' => if Ascii.eqb ch c then lstrip_char c s' else s
  end.
Fixpoint rstrip_char (c : Ascii.ascii) (s : string) : string :=
  match s with
  | EmptyString => EmptyString
  | String ch s' =>
      match rstrip_char c s' with
      | EmptyString => if Ascii.eqb ch c then EmptyString else String ch EmptyString
      | t => String ch t
      end
  end.

(** [_slugify] *)
Definition slugify (value : string) : string :=
  let text := collapse_dashes false (slug_runs false (lower (strip value))) in
  default "issue-update" (given (Some (rstrip_char "-"%char (lstrip_char "-"%char text)))).

(** [_default_branch_name] *)
Definition default_branch_name (c : SyncConfig) (i : SyncIssue) : string :=
  let identifier := default "issue" (or_else (given (si_identifier i)) (given (si_id i))) in
  let title := default "update" (given (si_title i)) in
  default "orchestratord" (given (sy_branch_prefix c)) +:+ "/"
    +:+ take_str 48 (slugify (identifier +:+ "-" +:+ title)).

(** [_normalize_head_ref] *)
Definition normalize_head_ref (value : string) : string :=
  match rsplit ":"%char value with Some (_, name) => name | None => value end.

(** [_merge_pr_ref] *)
Definition merge_pr_ref (updated existing : PullRequestRef) : PullRequestRef :=
  mkPr (or_else (given (pr_number updated)) (pr_number existing))
    (or_else (given (pr_url updated)) (pr_url existing))
    (or_else (given (pr_title updated)) (pr_title existing)) None.

(** [not pr_ref.number or not pr_ref.url] *)
Definition incomplete (p : PullRequestRef) : bool :=
  negb (is_some (given (pr_number p))) || negb (is_some (given (pr_url p))).

(** The lines about the review that a follow-up adds to a commit message; the
    references have no [id], so a missing number gives none. *)
Definition review_lines (pr : option PullRequestRef) (ids : list string) (body : option string) : list string :=
  match pr with
  | Some p => match given (pr_number p) with Some n => ["review-pr: #" +:+ n] | None => [] end
  | None => []
  end
  ++ map (fun fid => "review-id: " +:+ fid) ids
  ++ match given (Some (strip (default "" body))) with
     | Some b => ["review-body: " +:+ b]
     | None => []
     end.

(** [_build_commit_message] *)
Definition build_commit_message (s : SyncSession) (followup : bool) : string :=
  let i := ss_issue s in
  let identifier := lstrip_char "#"%char (strip (default "issue" (given (si_identifier i)))) in
  let title :=
    match given (ss_feedback_body s) with
    | Some body => if followup then take_str 72 (strip body)
                   else strip (default "automated update" (given (si_title i)))
    | None => strip (default "automated update" (given (si_title i)))
    end in
  let message := (if followup then "fix" else "feat") +:+ ": " +:+ identifier +:+ " " +:+ title in
  if followup then
    match review_lines (ss_pull_request s) (ss_feedback_ids s) (ss_feedback_body s) with
    | [] => take_str 1024 message
    | ls => take_str 1024 (join lf ([message; ""] ++ ls))
    end
  else take_str 72 message.

(** [_append_ignore_patterns]: the text appended to the file *)
Definition ignore_block (c : SyncConfig) (existing : option string) : option string :=
  let known := map strip (List.filter (fun l => negb (String.eqb (strip l) "") && negb (String.prefix "#" l))
                            (splitlines (default "" existing))) in
  match List.filter (fun p => negb (mem p known)) (sy_patterns c) with
  | [] => None
  | ps =>
      Some ((if String.eqb (default "" existing) "" then "" else lf)
            +:+ "# Orchestratord managed — do not edit manually" +:+ lf
            +:+ foldr (fun p r => p +:+ lf +:+ r) "" ps)
  end.

(** [_is_non_fast_forward] *)
Definition is_non_fast_forward (stderr : string) : bool :=
  contains "non-fast-forward" (lower stderr) || contains "fetch first" (lower stderr)
  || contains "Updates were rejected" stderr || contains "shallow update" (lower stderr)
  || contains "deny updating a hidden branch" (lower stderr).

(** The lines of [get_file_status]: the paths of the changed files.  The text
    is stripped before it is split, so that a blank first column of the first
    line is lost and its path is cut too far. *)
Fixpoint split_lf (cur s : string) : list string :=
  match s with
  | EmptyString => [cur]
  | String ch s' => if byte_is 10 ch then cur :: split_lf "" s' else split_lf (cur +:+ one ch) s'
  end.
Definition status_paths (out : string) : list string :=
  if String.eqb (strip out) "" then []
  else map (fun l => strip (drop_str 3 l))
         (List.filter (fun l => (3 <=? String.length l)%nat) (split_lf "" (strip out))).

(** [{f.strip() for f in out.strip().splitlines() if f.strip()}] *)
Definition listed_files (out : string) : list string :=
  List.filter (fun f => negb (String.eqb f "")) (map strip (splitlines (strip out))).

Definition ORCHESTRATOR_ARTIFACTS : list string :=
  [".orchestrator_control"; ".orchestrator_workspace"; ".reports"; ".operator_hints.md";
   ".orchestratord_issue_registry.json"; ".orchestratord_clarification_queue.json";
   ".orchestratord_workspace.lock"; ".event_streams"; ".run_control"; "daemon.pid"; "analysis.md";
   "changes_summary.md"; "verification_report.md"].
Definition WORKFLOW_ARTIFACT_PATTERNS : list string :=
  ["ANALYSE_REPORT"; "ANALYSIS_REPORT"; "CHANGE_SUMMARY"; "WORKFLOW_REPORT"; "STAGE_REPORT"].

(** [Path(path).stem] and [upper] *)
Definition path_stem (path : string) : string :=
  let name := match rsplit "/"%char path with Some (_, n) => n | None => path end in
  match rsplit "."%char name with
  | Some (a, b) => if String.eqb a "" || String.eqb b "" then name else a
  | None => name
  end.
Definition upper_char (ch : Ascii.ascii) : Ascii.ascii :=
  let n := Ascii.N_of_ascii ch in
  if (97 <=? n)%N && (n <=? 122)%N then Ascii.ascii_of_N (n - 32) else ch.
Fixpoint upper (s : string) : string :=
  match s with EmptyString => EmptyString | String ch s' => String (upper_char ch) (upper s') end.

(** Whether [_unstage_orchestrator_artifacts] takes a file out. *)
Definition is_artifact (path : string) : bool :=
  existsb (fun a => String.eqb path a || String.prefix (a +:+ "/") path) ORCHESTRATOR_ARTIFACTS
  || existsb (fun p => contains p (upper (path_stem path))) WORKFLOW_ARTIFACT_PATTERNS.

(** [fnmatch.fnmatch] on POSIX: [*], [?] and [[...]], with every other
    character for itself. *)
Fixpoint class_mem (body : string) (ch : Ascii.ascii) : bool :=
  match body with
  | EmptyString => false
  | String a rest =>
      match rest with
      | String d (String b rest') =>
          if Ascii.eqb d "-"%char then
            ((Ascii.N_of_ascii a <=? Ascii.N_of_ascii ch)%N && (Ascii.N_of_ascii ch <=? Ascii.N_of_ascii b)%N)
            || class_mem rest' ch
          else Ascii.eqb a ch || class_mem rest ch
      | _ => Ascii.eqb a ch || class_mem rest ch
      end
  end.
Fixpoint until_bracket (s : string) : option (string * string) :=
  match s with
  | EmptyString => None
  | String ch s' =>
      if Ascii.eqb ch "]"%char then Some ("", s')
      else match until_bracket s' with Some (a, b) => Some (String ch a, b) | None => None end
  end.
(** The class behind an opening bracket: negated, its body, what follows. *)
Definition split_class (p : string) : option (bool * string * string) :=
  let '(neg, p1) := match p with
                    | String ch p' => if Ascii.eqb ch "!"%char then (true, p') else (false, p)
                    | EmptyString => (false, p)
                    end in
  match p1 with
  | String ch p2 =>
      if Ascii.eqb ch "]"%char then
        match until_bracket p2 with Some (a, b) => Some (neg, String ch a, b) | None => None end
      else match until_bracket p1 with Some (a, b) => Some (neg, a, b) | None => None end
  | EmptyString => None
  end.

(** What follows the first character, which may take several bytes. *)
Fixpoint skip_continuation (s : string) : string :=
  match s with String ch s' => if continues ch then skip_continuation s' else s | EmptyString => s end.

Fixpoint glob (fuel : nat) (pat s : string) : bool :=
  match fuel with
  | O => false
  | S k =>
      match pat with
      | EmptyString => String.eqb s ""
      | String p pat' =>
          if Ascii.eqb p "*"%char then
            (fix star (s : string) : bool :=
               glob k pat' s || match s with String _ s' => star s' | EmptyString => false end) s
          else
            match s with
            | EmptyString => false
            | String ch s' =>
                let literal := Ascii.eqb p ch && glob k pat' s' in
                if Ascii.eqb p "?"%char then glob k pat' (skip_continuation s')
                else if Ascii.eqb p "["%char then
                  match split_class pat' with
                  | Some (neg, body, rest) => xorb neg (class_mem body ch) && glob k rest s'
                  | None => literal
                  end
                else literal
            end
      end
  end.
Definition fnmatch (s pat : string) : bool := glob (S (String.length pat)) pat s.

(** [_PYTEST_FAILURE_RE.findall]; [bol]: at the beginning of a line. *)
Fixpoint span_visible (s : string) : string * string :=
  match s with
  | EmptyString => ("", "")
  | String ch s' => if is_space ch then ("", s)
                    else let '(a, b) := span_visible s' in (String ch a, b)
  end.
Definition failure_at (s : string) : option (string * string) :=
  let behind := if String.prefix "FAILED" s then Some (drop_str 6 s)
                else if String.prefix "ERROR" s then Some (drop_str 5 s) else None in
  match behind with
  | Some (String ch r) =>
      if is_space ch then
        let '(tok, rest) := span_visible (lstrip r) in
        if String.eqb tok "" then None else Some (tok, rest)
      else None
  | _ => None
  end.
Fixpoint failures_from (fuel : nat) (bol : bool) (s : string) : list string :=
  match fuel with
  | O => []
  | S k =>
      match s with
      | EmptyString => []
      | String ch s' =>
          match if bol then failure_at s else None with
          | Some (tok, rest) => tok :: failures_from k false rest
          | None => failures_from k (byte_is 10 ch) s'
          end
      end
  end.
Definition pytest_failures (output : string) : list string :=
  failures_from (String.length output) true output.

(** [_looks_like_missing_runner] *)
Definition looks_like_missing_runner (rc : Z) (output : string) : bool :=
  mem rc [5; 127] || contains "no module named pytest" (lower output)
  || contains "not recognized as" (lower output).

Definition ENV_FAILURE_MARKERS : list string :=
  ["command not found"; "ModuleNotFoundError"; "ImportError"; "No such file or directory";
   "is not installed"; "Executable "].
Definition environment_gap (output : string) : bool :=
  existsb (fun m => contains m output) ENV_FAILURE_MARKERS.

(** ** git and the shell *)

Section sync.
Context {W : Type} (E : GitEnv W) (c : SyncConfig).
Abbreviation OP A := (M (GState W) gexn A).

Definition log (x : gcall) (s : GState W) : GState W := mkGState (gs_w s) (gs_log s ++ [x]) (gs_ses s).
Definition with_w (w : W) (s : GState W) : GState W := mkGState w (gs_log s) (gs_ses s).
Definition on_ses (f : SyncSession -> SyncSession) : OP unit :=
  modify (fun s => mkGState (gs_w s) (gs_log s) (f (gs_ses s))).
Definition ses : OP SyncSession := gets gs_ses.

(** [run_git] *)
Definition run_git (args : list string) (dir : string) : OP GitOut := fun s =>
  let '(o, w) := ge_git E args dir (gs_w s) in (Ret o, log (CGit args dir (go_rc o)) (with_w w s)).

Definition err_or_out (o : GitOut) : string := if String.eqb (go_err o) "" then go_out o else go_err o.

(** [_run_git_output], [_run_git_checked] *)
Definition run_git_output (args : list string) (dir : string) : OP string :=
  o ← run_git args dir; mret (if go_rc o =? 0 then strip (go_out o) else "").
Definition run_git_checked (args : list string) (dir : string) : OP string :=
  o ← run_git args dir;
  if go_rc o =? 0 then mret (strip (go_out o))
  else raise (GitSyncError ("git " +:+ join " " args +:+ " failed: " +:+ err_or_out o)).

(** [get_repo_root], [get_current_branch], [get_default_branch], [get_file_status] *)
Definition get_repo_root (p : string) : OP (option string) :=
  o ← run_git ["rev-parse"; "--show-toplevel"] p;
  mret (if go_rc o =? 0 then given (Some (strip (go_out o))) else None).
Definition get_current_branch (p : string) : OP (option string) :=
  o ← run_git ["rev-parse"; "--abbrev-ref"; "HEAD"] p;
  let b := strip (go_out o) in
  mret (if (go_rc o =? 0) && negb (mem b [""; "HEAD"]) then Some b else None).
Fixpoint first_verified (candidates : list string) (p : string) : OP string :=
  match candidates with
  | [] => mret "main"
  | b :: rest =>
      o ← run_git ["rev-parse"; "--verify"; b] p;
      if go_rc o =? 0 then mret b else first_verified rest p
  end.
Definition get_default_branch (p : string) : OP string :=
  o ← run_git ["rev-parse"; "--abbrev-ref"; "origin/HEAD"] p;
  let b := strip (go_out o) in
  if (go_rc o =? 0) && negb (String.eqb b "") then mret (default b (after_first "/"%char b))
  else first_verified ["main"; "master"] p.
Definition get_file_status (p : string) : OP (list string) :=
  o ← run_git ["status"; "--porcelain"] p;
  mret (if go_rc o =? 0 then status_paths (go_out o) else []).

(** [_status_snapshot] *)
Definition status_snapshot (p : string) : OP string :=
  paths ← get_file_status p; mret (join lf (merge_sort name_le paths)).

(** [_run_shell_result], [_run_shell] *)
Definition run_shell_result (cmd dir : string) (timeout_ms : Z) : OP (Z * string) := fun s =>
  let '(r, w) := ge_shell E cmd dir timeout_ms (gs_w s) in
  let s := log (CShell cmd dir r) (with_w w s) in
  match r with
  | ShDone rc output => (Ret (rc, output), s)
  | ShTimeout =>
      (Raise (VerificationFailed ("command timed out after " +:+ str_int timeout_ms +:+ "ms: " +:+ cmd) ""), s)
  end.
Definition run_shell (cmd dir : string) (timeout_ms : Z) : OP string :=
  '(rc, output) ← run_shell_result cmd dir timeout_ms;
  if rc =? 0 then mret output
  else if environment_gap output then mret output
  else raise (VerificationFailed ("command failed with exit code " +:+ str_int rc +:+ ": " +:+ cmd) output).

(** [try: m except VerificationFailed as exc: raise f(exc.output)] *)
Definition recast {A} (f : string -> gexn) (m : OP A) : OP A :=
  try_except m (fun e => match e with VerificationFailed _ output => raise (f output) | _ => raise e end).

(** [_detect_conflicts] *)
Definition detect_conflicts (dir : string) : OP (list string) :=
  o ← run_git ["diff"; "--name-only"; "--diff-filter=U"] dir; mret (listed_files (go_out o)).

(** ** Verification *)

(** [f"## {label}\n{output}".strip()] *)
Definition section_text (label output : string) : string := strip ("## " +:+ label +:+ lf +:+ output).

(** The configured commands, in order; the outputs so far. *)
Fixpoint run_configured (dir : string) (steps : list (string * option string)) (outputs : list string)
    : OP (list string) :=
  match steps with
  | [] => mret outputs
  | (label, cmd) :: steps' =>
      match given cmd with
      | None => run_configured dir steps' outputs
      | Some cmd =>
          output ← recast (VerificationFailed (label +:+ " verification failed"))
                     (run_shell cmd dir (sy_timeout_ms c));
          run_configured dir steps' (outputs ++ [section_text label output])
      end
  end.

(** [_detect_fallback_test_command] *)
Definition detect_fallback_test_command (root : string) (w : W) : string :=
  if negb (String.eqb (sy_fallback_test_command c) "") then sy_fallback_test_command c
  else
    let in_dir d := default false (ge_test_dir E root d w) in
    if ge_is_file E root "pytest.ini" w || in_dir "tests" || in_dir "test" then
      let quote := one (Ascii.ascii_of_N 34) in
      quote +:+ default "python3" (given (ge_python E root)) +:+ quote
        +:+ " -m pytest -q --color=no -p no:cacheprovider"
    else "".

(** [tempfile.mkdtemp] *)
Definition mkdtemp : OP string := fun s =>
  let '(tmp, w) := ge_mkdtemp E (gs_w s) in (Ret tmp, with_w w s).

(** [_baseline_failures]; [None]: no baseline *)
Definition baseline_failures (root cmd : string) : OP (option (list string)) :=
  x ← ses;
  match given (ss_start_sha x) with
  | None => mret None
  | Some start_sha =>
      tmp ← mkdtemp;
      o ← run_git ["worktree"; "add"; "--detach"; tmp; start_sha] root;
      if negb (go_rc o =? 0) then mret None
      else
        r ← try_except
              ('(rc, output) ← run_shell_result cmd tmp (sy_timeout_ms c);
               mret (Some (if rc =? 0 then [] else pytest_failures output)))
              (fun e => match e with VerificationFailed _ _ => mret None | _ => raise e end);
        run_git ["worktree"; "remove"; "--force"; tmp] root;;
        mret r
  end.

(** [after - baseline] *)
Definition net_new (after baseline : list string) : list string :=
  List.filter (fun f => negb (mem f baseline)) after.

(** [_run_regression_guard] *)
Definition run_regression_guard (root : string) : OP (string * string) :=
  s ← get;
  let cmd := detect_fallback_test_command root (gs_w s) in
  if String.eqb cmd "" then
    mret ("skipped_no_tests", "no test suite detected — verification did not run")
  else
    '(rc, output) ← run_shell_result cmd root (sy_timeout_ms c);
    let shown := "$ " +:+ cmd +:+ lf +:+ tail output in
    if rc =? 0 then mret ("passed", shown)
    else if looks_like_missing_runner rc output then
      mret ("skipped_no_tests",
            "test runner unavailable (rc=" +:+ str_int rc +:+ ") — verification did not run")
    else
      let after := remove_dups (pytest_failures output) in
      baseline ← baseline_failures root cmd;
      match baseline, after with
      | Some baseline, _ :: _ =>
          match merge_sort name_le (net_new after baseline) with
          | [] =>
              mret ("passed_preexisting_failures",
                    "$ " +:+ cmd +:+ lf +:+ str_int (Z.of_nat (length after))
                    +:+ " failing test(s), all of which already fail at the session start commit — no regression introduced."
                    +:+ lf +:+ tail output)
          | new =>
              raise (VerificationFailed
                ("regression guard: " +:+ str_int (Z.of_nat (length new))
                   +:+ " net-new failing test(s) introduced by this change")
                ("$ " +:+ cmd +:+ lf +:+ lf +:+ "Net-new failures:" +:+ lf
                   +:+ join lf (map (fun i => "- " +:+ i) (take 50 new)) +:+ lf +:+ lf +:+ tail output))
          end
      | _, _ =>
          raise (VerificationFailed
            ("regression guard: test suite failed (rc=" +:+ str_int rc
               +:+ ") and no baseline was available for comparison") shown)
      end.

(** The part of the gate that runs the reproduction of the bug. *)
Definition verify_repro (root : string) (status : string) (outputs : list string)
    : OP (string * list string) :=
  x ← ses;
  match given (ss_repro_command x) with
  | None => mret (status, outputs)
  | Some cmd =>
      output ← recast
        (VerificationFailed "repro verification failed: the reproduction command still exits non-zero after the fix")
        (run_shell cmd root (sy_timeout_ms c));
      mret (if String.eqb status "skipped_no_tests" then "passed" else status,
            outputs ++ [strip ("## repro" +:+ lf +:+ "$ " +:+ cmd +:+ lf +:+ output)])
  end.

(** A hook that must not change the workspace. *)
Definition run_clean_hook (name cmd root : string) : OP string :=
  before ← status_snapshot root;
  output ← recast (HookFailed name (name +:+ " hook failed")) (run_shell cmd root (sy_hook_timeout_ms c));
  after ← status_snapshot root;
  if String.eqb after before then mret output
  else raise (HookFailed name (name +:+ " hook modified the workspace") output).

(** [_run_pre_push_verification_checks] *)
Definition run_pre_push_verification (root : string) : OP unit :=
  outputs ← run_configured root [("test", sy_test_command c); ("build", sy_build_command c);
                                 ("lint", sy_lint_command c)] [];
  '(status, outputs) ←
    (if negb (is_some (given (sy_test_command c))) && sy_regression_guard c then
       '(status, note) ← run_regression_guard root;
       mret (status, if String.eqb note "" then outputs
                     else outputs ++ [section_text "regression_guard" note])
     else mret ("passed", outputs));
  '(status, outputs) ← verify_repro root status outputs;
  outputs ←
    match given (sy_pre_push c) with
    | None => mret outputs
    | Some cmd => output ← run_clean_hook "pre_push" cmd root;
                  mret (outputs ++ [section_text "pre_push" output])
    end;
  on_ses (set_verified status (join (lf +:+ lf) outputs)).

(** [_run_post_sync_hook] *)
Definition run_post_sync_hook (root : string) : OP unit :=
  match given (sy_post_sync c) with
  | None => mret tt
  | Some cmd => output ← run_clean_hook "post_sync" cmd root; on_ses (set_post_sync_output output)
  end.

(** [_run_pre_commit_hook] *)
Definition run_pre_commit_hook (root : string) : OP unit :=
  match given (sy_pre_commit c) with
  | None => mret tt
  | Some cmd =>
      output ← run_shell cmd root (sy_hook_timeout_ms c);
      paths ← get_file_status root;
      x ← ses;
      (match paths with
       | _ :: _ =>
           if String.eqb (ss_strategy x) "sequential" then mret tt
           else run_git_checked ["add"; "-A"] root;;
                run_git_checked ["commit"; "--amend"; "--no-edit"] root;; mret tt
       | [] => mret tt
       end);;
      on_ses (set_pre_commit_output output)
  end.

(** ** Pushing *)

(** [_git_rebase_abort] *)
Definition git_rebase_abort (root : string) : OP unit := run_git ["rebase"; "--abort"] root;; mret tt.

(** [(pushed, has_conflict, conflict_files)] *)
Abbreviation pushres := ((bool * bool * list string)%type).

(** [_push_directly] *)
Definition push_directly (root branch : string) : OP pushres :=
  try_except (run_git_checked ["fetch"; "origin"; branch] root) (fun _ => mret "");;
  try_except (run_git_checked ["push"; "origin"; branch] root;; mret (true, false, []))
    (fun _ => mret (false, false, [])).

(** [_push_with_recovery] *)
Definition push_with_recovery (root branch : string) : OP pushres :=
  o ← run_git ["push"; "-u"; "origin"; branch] root;
  if go_rc o =? 0 then mret (true, false, [])
  else if negb (is_non_fast_forward (go_err o)) then
    raise (GitSyncError ("git push failed: " +:+ err_or_out o))
  else
    run_git_checked ["fetch"; "origin"] root;;
    git_rebase_abort root;;
    o ← run_git ["rebase"; "origin/" +:+ branch] root;
    if go_rc o =? 0 then
      run_git_checked ["push"; "-u"; "origin"; branch] root;; mret (true, false, [])
    else if contains "fatal: invalid upstream" (go_err o)
            || contains "couldn't find remote ref" (go_err o) then
      run_git_checked ["push"; "-u"; "origin"; branch; "--force"] root;; mret (true, false, [])
    else
      files ← detect_conflicts root;
      match files with
      | _ :: _ => mret (false, true, files)
      | [] => git_rebase_abort root;; raise (GitSyncError ("git rebase failed: " +:+ err_or_out o))
      end.

(** ** Committing *)

(** [_ensure_work_branch] *)
Definition ensure_work_branch (root base : string) : OP string :=
  current ← get_current_branch root;
  x ← ses;
  let branch := default (default_branch_name c (ss_issue x)) (given (si_branch_name (ss_issue x))) in
  let stay := match current with
              | Some b => if String.eqb b branch || (negb (String.eqb b "HEAD") && negb (String.eqb b base))
                          then Some b else None
              | None => None
              end in
  match stay with
  | Some b => mret b
  | None =>
    o ← run_git ["checkout"; branch] root;
    if go_rc o =? 0 then mret branch
    else
      remote ← run_git_output ["rev-parse"; "--verify"; "refs/remotes/origin/" +:+ branch] root;
      o ← (if negb (String.eqb remote "") then run_git ["checkout"; "--track"; "origin/" +:+ branch] root
           else if fork_mode c then run_git ["checkout"; "-b"; branch; "upstream/" +:+ base] root
           else run_git ["checkout"; "-b"; branch] root);
      if go_rc o =? 0 then mret branch
      else raise (GitSyncError ("Failed to checkout work branch " +:+ branch +:+ ": " +:+ err_or_out o))
  end.

(** [_ensure_commit_identity] *)
Definition ensure_commit_identity (root : string) : OP unit :=
  let email := match given (sy_git_email c), given (sy_git_username c) with
               | Some e, _ => e
               | None, Some u => u +:+ "@gitcode.com"
               | None, None => "orchestratord-bot@local.invalid"
               end in
  run_git_checked ["config"; "user.email"; email] root;;
  run_git_checked ["config"; "user.name"; default "Orchestratord Bot" (given (sy_git_username c))] root;;
  mret tt.

(** [git reset -- files] for the staged files that [bad] names. *)
Definition unstage (bad : string -> bool) (root : string) : OP unit :=
  o ← run_git ["diff"; "--cached"; "--name-only"] root;
  if negb (go_rc o =? 0) then mret tt
  else
    match List.filter bad (listed_files (go_out o)) with
    | [] => mret tt
    | files => run_git_checked (["reset"; "--"] ++ files) root;; mret tt
    end.

(** [_unstage_orchestrator_artifacts], [_apply_file_whitelist] *)
Definition unstage_orchestrator_artifacts (root : string) : OP unit := unstage is_artifact root.
Definition allowed (f : string) : bool := existsb (fnmatch f) (sy_allowed_changed_files c).
Definition apply_file_whitelist (root : string) : OP unit :=
  match sy_allowed_changed_files c with
  | [] => mret tt
  | _ => unstage (fun f => negb (allowed f)) root
  end.

(** [_has_staged_changes] *)
Definition has_staged_changes (root : string) : OP bool :=
  o ← run_git ["diff"; "--cached"; "--quiet"] root; mret (negb (go_rc o =? 0)).

(** [_ensure_review_metadata] *)
Definition ensure_review_metadata (root : string) (pr : PullRequestRef) : OP unit :=
  msg ← run_git_output ["log"; "-1"; "--format=%B"] root;
  if contains "review-pr:" msg then mret tt
  else
    x ← ses;
    let lines := [strip msg; ""; "review-pr: #" +:+ default "" (given (pr_number pr))]
                 ++ review_lines None (ss_feedback_ids x) (ss_feedback_body x) in
    run_git_checked ["commit"; "--amend"; "-m"; join lf lines] root;; mret tt.

Definition head_sha (root : string) : OP string := run_git_output ["rev-parse"; "HEAD"] root.

(** [_post_commit_error] *)
Definition pending (committed : bool) : bool := (sy_local_tracker c || sy_review_required c) && committed.
Definition post_commit_error (cause : gexn) (branch base : string) (sha : option string)
    (committed : bool) (push : pushres) (pr : option PullRequestRef) : gexn :=
  let '(pushed, conflict, files) := push in
  PostCommit cause (mkSyncResult branch base sha pr committed pushed conflict files (pending committed) None).

(** [try: m except (VerificationFailed, HookFailedError) as exc: raise h(exc)] *)
Definition on_gate_error {A} (m : OP A) (h : gexn -> OP A) : OP A :=
  try_except m (fun e => if is_gate_error e then h e else raise e).

Definition not_pushed : pushres := (false, false, []).

(** Who made the commit of a run with changes. *)
Record Committed := mkCommitted {
  cm_sha : option string;
  cm_committed : bool;
  cm_run_commit : bool;
}.

(** Staging, and the commit of the orchestrator or the recognition of the
    commit of the agent. *)
Definition commit_changes (root : string) (sequential : bool) : OP Committed :=
  ensure_commit_identity root;;
  (if sequential then run_pre_commit_hook root else mret tt);;
  run_git_checked ["add"; "-A"] root;;
  unstage_orchestrator_artifacts root;;
  apply_file_whitelist root;;
  staged ← has_staged_changes root;
  x ← ses;
  if (staged : bool) then
    let message := build_commit_message x (is_some (ss_pull_request x)) in
    run_git_checked ["commit"; "-m"; message] root;;
    sha ← head_sha root;
    mret (mkCommitted (Some sha) true false)
  else
    sha ← head_sha root;
    match given (ss_start_sha x) with
    | Some start =>
        if String.eqb sha start then mret (mkCommitted None false false)
        else
          match ss_pull_request x with
          | None => mret (mkCommitted (Some sha) false true)
          | Some pr =>
              ensure_review_metadata root pr;;
              sha ← head_sha root;
              mret (mkCommitted (Some sha) false true)
          end
    | None => mret (mkCommitted None false false)
    end.

(** The end of a run whose gate failed: only a commit of this run is taken
    back. *)
Definition take_back {A} (root branch base : string) (m : Committed) (sha : option string) (e : gexn)
    : OP A :=
  x ← ses;
  if cm_committed m && negb (cm_run_commit m) then
    try_except (run_git_checked ["reset"; "--mixed"; "HEAD~1"] root)
      (fun e => match e with GitSyncError _ => mret "" | _ => raise e end);;
    raise (post_commit_error e branch base sha false not_pushed (ss_pull_request x))
  else raise (post_commit_error e branch base sha (cm_committed m) not_pushed (ss_pull_request x)).

(** The branch of [sync] for a workspace with changes. *)
Definition sync_changed (root branch base : string) (sequential no_push : bool)
    : OP (option string * bool * bool * pushres) :=
  m ← commit_changes root sequential;
  sha ←
    (if sequential then mret (cm_sha m)
     else
       on_gate_error (run_pre_commit_hook root) (take_back root branch base m (cm_sha m));;
       sha ← head_sha root; mret (Some sha));
  on_gate_error (run_pre_push_verification root) (take_back root branch base m sha);;
  push ← (if (no_push : bool) then mret not_pushed else push_with_recovery root branch);
  mret (sha, cm_committed m, cm_run_commit m, push).

(** The branch for a clean workspace: the agent may have committed. *)
Definition sync_unchanged (root branch base : string) (no_push : bool)
    : OP (option string * bool * bool * pushres) :=
  sha ← head_sha root;
  x ← ses;
  let has_run_commit := match given (ss_start_sha x) with
                        | Some start => negb (String.eqb sha start)
                        | None => false
                        end in
  on_gate_error (run_pre_push_verification root)
    (fun e => raise (post_commit_error e branch base (Some sha) has_run_commit not_pushed (ss_pull_request x)));;
  push ←
    (if String.eqb branch "" || no_push then mret not_pushed
     else if is_some (ss_pull_request x) then push_directly root branch
     else push_with_recovery root branch);
  mret (if has_run_commit then Some sha else None, false, has_run_commit, push).

(** ** The pull request *)

(** A call of the tracker. *)
Definition call {A} (x : gcall) (m : M W gexn A) : OP A := fun s =>
  let '(r, w) := m (gs_w s) in (r, log x (with_w w s)).

Definition list_prs (head : option string) : OP listres := fun s =>
  let '(r, w) := ge_list_prs E head (gs_w s) in (Ret r, log (CListPrs head) (with_w w s)).

(** The open pull requests, [None] when the tracker cannot list them. *)
Definition open_prs (head : string) : OP (option (list PullRequestRef)) :=
  r ← list_prs (Some head);
  match r with
  | LOk l => mret (Some l)
  | LError => mret None
  | LTypeError => r ← list_prs None; mret (match r with LOk l => Some l | _ => None end)
  end.

Definition same_head (head : string) (p : PullRequestRef) : bool :=
  String.eqb (normalize_head_ref (default "" (given (pr_head_ref p)))) (normalize_head_ref head).

(** [_find_pr_fallback], with the attempts left *)
Fixpoint find_pr_fallback (attempts : nat) (pr : PullRequestRef) (head base : string) : OP PullRequestRef :=
  match attempts with
  | O => mret pr
  | S k =>
      found ← try_except (call (CFindPr head base) (ge_find_pr E head base)) (fun _ => mret None);
      match default false ((fun f => is_some (given (pr_number f)) || is_some (given (pr_url f))) <$> found),
            found with
      | true, Some f => mret (merge_pr_ref f pr)
      | _, _ =>
          prs ← open_prs head;
          match prs with
          | None => mret pr
          | Some prs =>
              match List.find (same_head head) prs with
              | Some candidate => mret candidate
              | None => find_pr_fallback k pr head base
              end
          end
      end
  end.

Definition PR_ATTEMPTS : nat := 15.
Definition completed_pr (pr : PullRequestRef) (head base : string) : OP PullRequestRef :=
  if incomplete pr then find_pr_fallback PR_ATTEMPTS pr head base else mret pr.

(** The head of the pull request: in a fork with owner and repository. *)
Definition head_ref (branch : string) : string :=
  match fork_mode c, given (sy_fork_url c) with
  | true, Some url =>
      match extract_owner_repo_from_url url with
      | Some name => name +:+ ":" +:+ branch
      | None => branch
      end
  | _, _ => branch
  end.

(** The creation of the pull request, when there is none and something to
    review was pushed. *)
Definition ensure_pr (branch base : string) (no_push reviewable : bool) : OP (option PullRequestRef) :=
  x ← ses;
  match ss_pull_request x with
  | Some pr => mret (Some pr)
  | None =>
      if negb (String.eqb branch base) && negb no_push && reviewable then
        match ge_ensure_pr E with
        | None => mret None
        | Some create =>
            pr ← call (CEnsurePr (head_ref branch) base) (create (ss_issue x) (head_ref branch) base);
            match pr with
            | Some pr => pr ← completed_pr pr (head_ref branch) base; mret (Some pr)
            | None => mret None
            end
        end
      else mret None
  end.

(** [report_writer.write] and [session.report_path = ...] *)
Definition written_report (x : SyncSession) (sha : option string) (pr : option PullRequestRef) : OP string :=
  fun s =>
    match ge_report E x sha pr (gs_w s) with
    | (Ret p, w) => (Ret p, mkGState w (gs_log s) (set_report_path p (gs_ses s)))
    | (Raise e, w) => (Raise e, with_w w s)
    end.

(** [_write_report]: the path of the report *)
Definition write_report (sha : option string) (pr : option PullRequestRef) : OP (option string) :=
  x ← ses;
  match given (ss_run_id x) with
  | None => mret None
  | Some _ => p ← written_report x sha pr; mret (Some p)
  end.

(** The pull request of a new run gets its title and body. *)
Definition update_pr (branch base : string) (no_push : bool) (sha : option string)
    (pr : option PullRequestRef) : OP (option PullRequestRef) :=
  x ← ses;
  match pr, ss_pull_request x, ge_update_pr E with
  | Some p, None, Some update =>
      if no_push then mret pr
      else
        updated ← call CUpdatePr (update p);
        match updated with
        | None => mret pr
        | Some u =>
            p ← completed_pr (merge_pr_ref u p) branch base;
            write_report sha (Some p);;
            mret (Some p)
        end
  | _, _, _ => mret pr
  end.

(** [_update_summary_comment] *)
Definition update_summary_comment : OP unit :=
  x ← ses;
  match given (si_id (ss_issue x)) with
  | None => mret tt
  | Some id =>
      updated ←
        match given (ss_summary_comment_id x) with
        | Some cid => call (CUpdateComment cid) (ge_update_comment E id cid)
        | None => mret false
        end;
      if (updated : bool) then mret tt
      else
        created ← call CCreateComment (ge_create_comment E id);
        match given created with Some cid => on_ses (set_summary_comment cid) | None => mret tt end
  end.

(** [_sync_git_exclude] *)
Definition sync_git_exclude (root : string) : OP unit := fun s =>
  let existing := ge_exclude E root (gs_w s) in
  match ignore_block c existing with
  | None => (Ret tt, s)
  | Some block =>
      match ge_write_exclude E root (default "" existing +:+ block) (gs_w s) with
      | (true, w) => (Ret tt, with_w w s)
      | (false, w) => (Raise (OtherError "the exclude file cannot be written"), with_w w s)
      end
  end.

(** What follows the push: the pull request, the report, the hook, the comment
    and the result. *)
Definition publish (root branch base : string) (no_push : bool)
    (done : option string * bool * bool * pushres) : OP GitSyncResult :=
  let '(sha, committed, has_run_commit, push) := done in
  let reviewable := committed || has_run_commit in
  pr ← ensure_pr branch base no_push reviewable;
  write_report sha pr;;
  pr ← update_pr branch base no_push sha pr;
  on_gate_error (run_post_sync_hook root)
    (fun e => if reviewable then raise (post_commit_error e branch base sha reviewable push pr)
              else raise e);;
  (if reviewable || is_some pr then update_summary_comment else mret tt);;
  let '(pushed, conflict, files) := push in
  mret (mkSyncResult branch base sha pr reviewable pushed conflict files (pending reviewable)
          (if negb reviewable && negb (is_some pr) then Some "empty_branch_no_commits" else None)).

(** [sync] *)
Definition sync (followup_mode : bool) : OP (option GitSyncResult) :=
  x ← ses;
  if followup_mode && negb (is_some (ss_pull_request x)) then
    raise (GitSyncError "GitSyncService.sync(mode='followup') requires session.pull_request to be set; orchestrator should populate it from the IssueRegistry record")
  else
    root ← get_repo_root (ss_workspace x);
    match root with
    | None => mret None
    | Some root =>
        let sequential := String.eqb (ss_strategy x) "sequential" in
        let no_push := sy_local_tracker c || sequential in
        sync_git_exclude root;;
        base ← match given (ss_base_branch x) with
               | Some b => mret b
               | None => get_default_branch root
               end;
        branch ←
          (if sequential then
             match given (ss_integration_branch x) with
             | Some b => mret b
             | None => b ← get_current_branch root; mret (default base b)
             end
           else ensure_work_branch root base);
        changed ← get_file_status root;
        r ← match changed with
            | _ :: _ => sync_changed root branch base sequential no_push
            | [] => sync_unchanged root branch base no_push
            end;
        result ← publish root branch base no_push r;
        mret (Some result)
    end.

(** ** Rebasing the branch of a pull request *)

Record PRRebase := mkPRRebase {
  pb_rebased : bool;
  pb_has_conflict : bool;
  pb_conflict_files : list string;
  pb_new_head_sha : option string;
  pb_pushed : bool;
  pb_push_method : string;
  pb_workspace_clean : bool;
}.

(** The result when nothing was rebased. *)
Definition no_rebase (clean : bool) : PRRebase := mkPRRebase false false [] None false "none" clean.

(** [stdout.strip().split()] *)
Fixpoint words_from (cur s : string) : list string :=
  match s with
  | EmptyString => if String.eqb cur "" then [] else [cur]
  | String ch s' =>
      if is_space ch then if String.eqb cur "" then words_from "" s' else cur :: words_from "" s'
      else words_from (cur +:+ one ch) s'
  end.

(** [_ahead_behind] *)
Definition ahead_behind (root branch base : string) : OP (Z * Z) :=
  o ← run_git ["rev-list"; "--left-right"; "--count"; branch +:+ "..." +:+ base] root;
  mret (if negb (go_rc o =? 0) then (0, 0)
        else match words_from "" (go_out o) with
             | [a; b] => match py_int a, py_int b with Some a, Some b => (a, b) | _, _ => (0, 0) end
             | _ => (0, 0)
             end).

Definition head_if_known (root : string) : OP (option string) :=
  o ← run_git ["rev-parse"; "HEAD"] root; mret (if go_rc o =? 0 then Some (strip (go_out o)) else None).

(** The push of the rebased branch: its exit status and its method. *)
Definition push_rebased (root branch : string) (force : bool) : OP (Z * string) :=
  o ← run_git ["rev-parse"; "origin/" +:+ branch] root;
  let remote_sha := if go_rc o =? 0 then strip (go_out o) else "" in
  if force then
    o ← run_git ["push"; "--force"; "origin"; branch] root; mret (go_rc o, "force")
  else if negb (String.eqb remote_sha "") then
    o ← run_git ["push"; "--force-with-lease=" +:+ branch +:+ ":" +:+ remote_sha; "origin"; branch] root;
    mret (go_rc o, "force_with_lease")
  else o ← run_git ["push"; "-u"; "origin"; branch] root; mret (go_rc o, "none").

(** [rebase_for_pr] *)
Definition rebase_for_pr (root branch base : string) (force : bool) : OP PRRebase :=
  git_rebase_abort root;;
  current ← get_current_branch root;
  (if bool_decide (current = Some branch) then mret tt
   else
     o ← run_git ["checkout"; branch] root;
     if go_rc o =? 0 then mret tt
     else raise (GitSyncError ("git checkout " +:+ branch +:+ " failed: " +:+ err_or_out o)));;
  git_rebase_abort root;;
  o ← run_git ["fetch"; "--prune"; "origin"; base +:+ ":" +:+ base] root;
  if negb (go_rc o =? 0) then mret (no_rebase true)
  else
    '(_, behind) ← ahead_behind root branch ("origin/" +:+ base);
    if behind =? 0 then
      head ← head_if_known root; mret (mkPRRebase true false [] head false "none" true)
    else
      o ← run_git ["rebase"; "origin/" +:+ base] root;
      if negb (go_rc o =? 0) then
        files ← detect_conflicts root;
        match files with
        | _ :: _ => mret (mkPRRebase false true files None false "none" false)
        | [] => git_rebase_abort root;; mret (no_rebase true)
        end
      else
        '(rc, method) ← push_rebased root branch force;
        if rc =? 0 then
          head ← head_if_known root; mret (mkPRRebase true false [] head true method true)
        else
          o ← run_git ["reset"; "--hard"; "origin/" +:+ branch] root;
          mret (no_rebase (go_rc o =? 0)).
End sync.
