(* ===== verification/GitSyncFacts.v ===== *)
(** * Git sync: theorems

    A run whose tests fail is not published; what the result says of pushes and
    pull requests is what happened; the regression guard lets a red suite pass
    only when the baseline is as red; a rebase pushes only what was rebased. *)

From stdpp Require Import sorting.
From S2P Require Import Prelude Dag StageRunner Checkpoint Intent Regex ClarResolver Workspace GitSync.

Open Scope string_scope.
Open Scope list_scope.
Open Scope Z_scope.

(** ** The calls of an operation *)

Section calls.
Context {W : Type} (P : gcall -> Prop).

(** Every call that [m] makes satisfies [P]; the pull request of the session
    stays. *)
Definition logs {A} (m : M (GState W) gexn A) : Prop :=
  forall s, (exists l, gs_log (snd (m s)) = gs_log s ++ l /\ Forall P l)
    /\ ss_pull_request (gs_ses (snd (m s))) = ss_pull_request (gs_ses s).

(** [m] does so and raises. *)
Definition stops {A} (m : M (GState W) gexn A) : Prop :=
  logs m /\ forall s, exists e, fst (m s) = Raise e.

Lemma logs_ret {A} (a : A) : logs (mret a).
Proof. intros s. split; [|done]. exists []. by rewrite app_nil_r. Qed.

Lemma logs_raise {A} e : logs (raise e : M (GState W) gexn A).
Proof. intros s. split; [|done]. exists []. by rewrite app_nil_r. Qed.

Lemma logs_ses : logs (ses : M (GState W) gexn SyncSession).
Proof. intros s. split; [|done]. exists []. by rewrite app_nil_r. Qed.

Lemma logs_get : logs (get : M (GState W) gexn (GState W)).
Proof. intros s. split; [|done]. exists []. by rewrite app_nil_r. Qed.

Lemma logs_then {A B} (m : M (GState W) gexn A) (f : M (GState W) gexn B) s :
  logs m -> logs f ->
  (exists l, gs_log (snd (f (snd (m s)))) = gs_log s ++ l /\ Forall P l)
    /\ ss_pull_request (gs_ses (snd (f (snd (m s))))) = ss_pull_request (gs_ses s).
Proof.
  intros Hm Hf. destruct (Hm s) as [(l1 & H1 & P1) Q1]. destruct (Hf (snd (m s))) as [(l2 & H2 & P2) Q2].
  split; [|by rewrite Q2]. exists (l1 ++ l2). split; [by rewrite H2, H1, (assoc_L (++))|].
  by apply Forall_app.
Qed.

Lemma logs_bind {A B} (m : M (GState W) gexn A) (f : A -> M (GState W) gexn B) :
  logs m -> (forall a, logs (f a)) -> logs (m ≫= f).
Proof.
  intros Hm Hf s. pose proof (Hm s) as Hs. unfold mbind, M_bind.
  destruct (m s) as [[a|e] s1] eqn:Hms; [|done].
  pose proof (logs_then m (f a) s Hm (Hf a)) as H. by rewrite Hms in H.
Qed.

Lemma logs_try {A} (m : M (GState W) gexn A) h :
  logs m -> (forall e, logs (h e)) -> logs (try_except m h).
Proof.
  intros Hm Hh s. pose proof (Hm s) as Hs. unfold try_except.
  destruct (m s) as [[a|e] s1] eqn:Hms; [done|].
  pose proof (logs_then m (h e) s Hm (Hh e)) as H. by rewrite Hms in H.
Qed.

Lemma stops_raise {A} e : stops (raise e : M (GState W) gexn A).
Proof. split; [apply logs_raise|]. by eexists. Qed.

Lemma stops_first {A B} (m : M (GState W) gexn A) (f : A -> M (GState W) gexn B) :
  stops m -> stops (m ≫= f).
Proof.
  intros [Hm He]. split; intros s; destruct (He s) as [e Hs]; pose proof (Hm s) as Hl;
    unfold mbind, M_bind; destruct (m s) as [[a|e'] s1]; simplify_eq/=; [done|by eexists].
Qed.

Lemma stops_bind {A B} (m : M (GState W) gexn A) (f : A -> M (GState W) gexn B) :
  logs m -> (forall a, stops (f a)) -> stops (m ≫= f).
Proof.
  intros Hm Hf. split; [apply logs_bind; [done|]; intros a; apply Hf|].
  intros s. unfold mbind, M_bind. destruct (m s) as [[a|e] s1]; [apply Hf|by eexists].
Qed.

Lemma stops_try {A} (m : M (GState W) gexn A) h :
  stops m -> (forall e, stops (h e)) -> stops (try_except m h).
Proof.
  intros [Hm He] Hh. split; [apply logs_try; [done|]; intros e; apply Hh|].
  intros s. destruct (He s) as [e Hs]. unfold try_except.
  destruct (m s) as [[a|e'] s1]; simplify_eq/=. apply Hh.
Qed.
End calls.

#[export] Hint Resolve logs_ret logs_raise logs_ses logs_get stops_raise : logs.

(** The bookkeeping of sequences, choices and calls. *)
Ltac logs :=
  repeat match goal with
    | |- forall _, _ => intro
    | |- logs _ (mbind _ _) => apply logs_bind
    | |- logs _ (try_except _ _) => apply logs_try
    | |- logs _ (let '(_, _) := ?p in _) => destruct p
    | |- logs _ (if ?b then _ else _) => destruct b
    | |- logs _ (match ?o with _ => _ end) => destruct o
    | |- logs _ _ => solve [auto 3 with logs]
    end.

Section basic.
Context {W : Type} (P : gcall -> Prop) (E : GitEnv W) (c : SyncConfig).

Lemma logs_log x w (s : GState W) :
  P x -> (exists l, gs_log (log x (with_w w s)) = gs_log s ++ l /\ Forall P l)
    /\ ss_pull_request (gs_ses (log x (with_w w s))) = ss_pull_request (gs_ses s).
Proof. intros H. split; [|done]. exists [x]. split; [done|]. by repeat constructor. Qed.

Lemma logs_run_git args dir : (forall rc, P (CGit args dir rc)) -> logs P (run_git E args dir).
Proof.
  intros H s. unfold run_git. destruct (ge_git E args dir (gs_w s)) as [o w]. by apply logs_log.
Qed.

Lemma logs_shell cmd dir t : (forall r, P (CShell cmd dir r)) -> logs P (run_shell_result E cmd dir t).
Proof.
  intros H s. unfold run_shell_result. destruct (ge_shell E cmd dir t (gs_w s)) as [r w].
  destruct r; by apply logs_log.
Qed.

Lemma logs_call {A} x (m : M W gexn A) : P x -> logs P (call x m).
Proof. intros H s. unfold call. destruct (m (gs_w s)) as [r w]. by apply logs_log. Qed.

Lemma logs_list_prs head : P (CListPrs head) -> logs P (list_prs E head).
Proof. intros H s. unfold list_prs. destruct (ge_list_prs _ _ _) as [r w]. by apply logs_log. Qed.

Lemma logs_mkdtemp : logs P (mkdtemp E).
Proof.
  intros s. unfold mkdtemp. destruct (ge_mkdtemp E (gs_w s)) as [t w]. split; [|done].
  exists []. by rewrite app_nil_r.
Qed.

Lemma logs_on_ses f :
  (forall x, ss_pull_request (f x) = ss_pull_request x) -> logs P (on_ses f : M (GState W) gexn unit).
Proof. intros H s. split; [|apply H]. exists []. by rewrite app_nil_r. Qed.
End basic.

(** ** The operations that publish nothing *)

Definition is_push (args : list string) : bool :=
  match args with a :: _ => String.eqb a "push" | [] => false end.

(** The calls that stay on this machine. *)
Definition unpublished (x : gcall) : Prop :=
  match x with
  | CGit args _ _ => is_push args = false
  | CShell _ _ _ => True
  | _ => False
  end.

Section local.
Context {W : Type} (P : gcall -> Prop) (E : GitEnv W) (c : SyncConfig).
Hypothesis HP : forall x, unpublished x -> P x.

Lemma local_git args dir : is_push args = false -> logs P (run_git E args dir).
Proof. intros H. apply logs_run_git. intros rc. by apply HP. Qed.

Lemma local_shell cmd dir t : logs P (run_shell_result E cmd dir t).
Proof. apply logs_shell. intros r. by apply HP. Qed.

Lemma local_output args dir : is_push args = false -> logs P (run_git_output E args dir).
Proof. intros H. unfold run_git_output. logs. by apply local_git. Qed.

Lemma local_checked args dir : is_push args = false -> logs P (run_git_checked E args dir).
Proof. intros H. unfold run_git_checked. logs. by apply local_git. Qed.

Lemma local_run_shell cmd dir t : logs P (run_shell E cmd dir t).
Proof. unfold run_shell. apply logs_bind; [apply local_shell|]. logs. Qed.

Lemma local_recast {A} f (m : M (GState W) gexn A) : logs P m -> logs P (recast f m).
Proof. intros H. unfold recast. logs. Qed.

Lemma local_status dir : logs P (get_file_status E dir).
Proof. unfold get_file_status. logs. by apply local_git. Qed.

Lemma local_current dir : logs P (get_current_branch E dir).
Proof. unfold get_current_branch. logs. by apply local_git. Qed.

Lemma local_head dir : logs P (head_sha E dir).
Proof. by apply local_output. Qed.

Lemma local_root dir : logs P (get_repo_root E dir).
Proof. unfold get_repo_root. logs. by apply local_git. Qed.

Lemma local_default dir : logs P (get_default_branch E dir).
Proof. unfold get_default_branch, first_verified. logs; by apply local_git. Qed.

Lemma local_snapshot dir : logs P (status_snapshot E dir).
Proof. unfold status_snapshot. logs. apply local_status. Qed.

Hint Resolve logs_mkdtemp local_git local_shell local_output local_checked local_run_shell local_recast
  local_status local_current local_head local_root local_default local_snapshot : logs.

Lemma local_configured dir steps outputs : logs P (run_configured E c dir steps outputs).
Proof.
  revert outputs. induction steps as [|[label cmd] steps IH]; intros outputs; simpl; logs.
Qed.

Lemma local_baseline root cmd : logs P (baseline_failures E c root cmd).
Proof. unfold baseline_failures. logs. Qed.

Lemma local_guard root : logs P (run_regression_guard E c root).
Proof. pose proof (local_baseline root). unfold run_regression_guard. logs. Qed.

Lemma local_repro root st outs : logs P (verify_repro E c root st outs).
Proof. unfold verify_repro. logs. Qed.

Lemma local_clean_hook name cmd root : logs P (run_clean_hook E c name cmd root).
Proof. unfold run_clean_hook. logs. Qed.

Lemma local_verified st out : logs P (on_ses (set_verified st out) : M (GState W) gexn unit).
Proof. by apply logs_on_ses. Qed.

Lemma local_pre_commit_out o : logs P (on_ses (set_pre_commit_output o) : M (GState W) gexn unit).
Proof. by apply logs_on_ses. Qed.

Lemma local_post_sync_out o : logs P (on_ses (set_post_sync_output o) : M (GState W) gexn unit).
Proof. by apply logs_on_ses. Qed.

Hint Resolve local_configured local_baseline local_guard local_repro local_clean_hook local_verified
  local_pre_commit_out local_post_sync_out : logs.

Lemma local_gate root : logs P (run_pre_push_verification E c root).
Proof. unfold run_pre_push_verification. logs. Qed.

Lemma local_post_sync root : logs P (run_post_sync_hook E c root).
Proof. unfold run_post_sync_hook. logs. Qed.

Lemma local_pre_commit root : logs P (run_pre_commit_hook E c root).
Proof. unfold run_pre_commit_hook. logs. Qed.

Lemma local_exclude root : logs P (sync_git_exclude E c root).
Proof.
  intros s. unfold sync_git_exclude. destruct (ignore_block _ _); [|split; [exists []; by rewrite app_nil_r|done]].
  destruct (ge_write_exclude _ _ _ _) as [[] w]; (split; [exists []; by rewrite app_nil_r|done]).
Qed.

Lemma local_work_branch root base : logs P (ensure_work_branch E c root base).
Proof. unfold ensure_work_branch. logs. Qed.

Lemma local_unstage bad root : logs P (unstage E bad root).
Proof. unfold unstage. logs. Qed.

Hint Resolve local_pre_commit local_unstage : logs.

Lemma local_commit root seq : logs P (commit_changes E c root seq).
Proof.
  unfold commit_changes, ensure_commit_identity, unstage_orchestrator_artifacts, apply_file_whitelist,
    has_staged_changes, ensure_review_metadata. logs.
Qed.

Lemma local_take_back {A} root branch base m sha e :
  stops P (take_back E c root branch base m sha e : M (GState W) gexn A).
Proof.
  unfold take_back. apply stops_bind; [apply logs_ses|]. intros x. destruct (_ && _).
  - apply stops_bind; [logs|]. intros _. apply stops_raise.
  - apply stops_raise.
Qed.
End local.

(** ** Failing tests *)

(** The output names one of the six signs of an incomplete environment. *)
Definition excused (output : string) : bool :=
  existsb (fun sign => contains sign output)
    ["command not found"; "ModuleNotFoundError"; "ImportError"; "No such file or directory"; "is not installed"; "Executable "].

(** A run of a command that failed: it timed out, or ended with another code than
    0 and no sign of an incomplete environment. *)
Definition failed (r : shellres) : Prop :=
  match r with
  | ShTimeout => True
  | ShDone rc output => rc <> 0 /\ excused output = false
  end.

Section failing.
Context {W : Type} (E : GitEnv W) (c : SyncConfig) (cmd : string).
Hypothesis Hcmd : given (sy_test_command c) = Some cmd.
Hypothesis Hfail : forall dir w, failed (fst (ge_shell E cmd dir (sy_timeout_ms c) w)).

Lemma shell_stops dir : stops unpublished (run_shell E cmd dir (sy_timeout_ms c)).
Proof.
  split; [by apply local_run_shell|]. intros s. specialize (Hfail dir (gs_w s)).
  unfold run_shell, run_shell_result, mbind, M_bind. simpl.
  destruct (ge_shell E cmd dir (sy_timeout_ms c) (gs_w s)) as [[|rc output] w]; [by eexists|].
  destruct Hfail as [Hrc Hgap]. change (environment_gap output = false) in Hgap. simpl.
  destruct (Z.eqb_spec rc 0); [done|]. rewrite Hgap. by eexists.
Qed.

Lemma gate_stops root : stops unpublished (run_pre_push_verification E c root).
Proof.
  unfold run_pre_push_verification. apply stops_first. simpl. rewrite Hcmd.
  apply stops_first, stops_try; [apply shell_stops|]. intros []; apply stops_raise.
Qed.

Lemma gated_stops {A} root (h : gexn -> M (GState W) gexn unit) (f : unit -> M (GState W) gexn A) :
  (forall e, stops unpublished (h e)) ->
  stops unpublished (on_gate_error (run_pre_push_verification E c root) h ≫= f).
Proof.
  intros Hh. apply stops_first, stops_try; [apply gate_stops|]. intros e.
  destruct (is_gate_error e); [apply Hh|apply stops_raise].
Qed.

Lemma changed_stops root branch base seq no_push :
  stops unpublished (sync_changed E c root branch base seq no_push).
Proof.
  unfold sync_changed. apply stops_bind; [by apply local_commit|]. intros m.
  apply stops_bind.
  - destruct seq; [logs|]. apply logs_bind.
    + apply logs_try; [by apply local_pre_commit|]. intros e.
      destruct (is_gate_error e); [by apply local_take_back|logs].
    + intros _. apply logs_bind; [by apply local_head|]. logs.
  - intros sha. apply gated_stops. intros e. by apply local_take_back.
Qed.

Lemma unchanged_stops root branch base no_push :
  stops unpublished (sync_unchanged E c root branch base no_push).
Proof.
  unfold sync_unchanged. apply stops_bind; [by apply local_head|]. intros sha.
  apply stops_bind; [logs|]. intros x. apply gated_stops. intros e. apply stops_raise.
Qed.
End failing.

(** It publishes nothing, and it raises or finds no repository. *)
Definition quits {W A} (m : M (GState W) gexn (option A)) : Prop :=
  logs unpublished m /\ forall s, fst (m s) = Ret None \/ exists e, fst (m s) = Raise e.

Lemma quits_stops {W A} (m : M (GState W) gexn (option A)) : stops unpublished m -> quits m.
Proof. intros [Hm He]. split; [done|]. intros s. by right. Qed.

Lemma quits_bind {W A B} (m : M (GState W) gexn A) (f : A -> M (GState W) gexn (option B)) :
  logs unpublished m -> (forall a, quits (f a)) -> quits (m ≫= f).
Proof.
  intros Hm Hf. split; [apply logs_bind; [done|]; intros a; apply Hf|].
  intros s. unfold mbind, M_bind. destruct (m s) as [[a|e] s1]; [apply Hf|right; by eexists].
Qed.

Lemma failing_tests_quit {W} (E : GitEnv W) c cmd followup :
  given (sy_test_command c) = Some cmd ->
  (forall dir w, failed (fst (ge_shell E cmd dir (sy_timeout_ms c) w))) ->
  quits (sync E c followup).
Proof.
  intros Hcmd Hfail.
  unfold sync. apply quits_bind; [logs|]. intros x. destruct (_ && _); [apply quits_stops, stops_raise|].
  apply quits_bind; [by apply local_root|]. intros [root|]; [|split; [logs|by left]].
  apply quits_bind; [by apply local_exclude|]. intros _.
  apply quits_bind; [destruct (given (ss_base_branch x)); [logs|by apply local_default]|]. intros base.
  apply quits_bind.
  { destruct (String.eqb (ss_strategy x) "sequential"); [|by apply local_work_branch].
    destruct (given (ss_integration_branch x)); [logs|]. apply logs_bind; [by apply local_current|logs]. }
  intros branch. apply quits_bind; [by apply local_status|]. intros changed.
  apply quits_stops, stops_first.
  destruct changed; [by eapply unchanged_stops|by eapply changed_stops].
Qed.

(** A run whose configured tests fail, or time out, is never published: the
    sync raises, unless there is no repository, and it neither pushes nor calls
    the tracker. *)
Theorem failing_tests_never_published {W} (E : GitEnv W) c cmd followup s :
  given (sy_test_command c) = Some cmd ->
  (forall dir w, failed (fst (ge_shell E cmd dir (sy_timeout_ms c) w))) ->
  (fst (sync E c followup s) = Ret None \/ exists e, fst (sync E c followup s) = Raise e)
  /\ exists l, gs_log (snd (sync E c followup s)) = gs_log s ++ l /\ Forall unpublished l.
Proof.
  intros Hcmd Hfail. destruct (failing_tests_quit E c cmd followup Hcmd Hfail) as [Hl Hq].
  split; [apply Hq|apply Hl].
Qed.

(** ** What the result says *)

Lemma anything (x : gcall) : unpublished x -> True.
Proof. done. Qed.

Section result.
Context {W : Type} (E : GitEnv W) (c : SyncConfig).
Abbreviation any := (fun _ : gcall => True).

Lemma any_git args dir : logs any (run_git E args dir).
Proof. by apply logs_run_git. Qed.

Lemma any_checked args dir : logs any (run_git_checked E args dir).
Proof. unfold run_git_checked. logs. apply any_git. Qed.

Lemma any_fallback n pr head base : logs any (find_pr_fallback E n pr head base).
Proof.
  induction n as [|n IH]; simpl; [logs|]. apply logs_bind; [apply logs_try; [by apply logs_call|logs]|].
  assert (Ho : forall h, logs any (list_prs E h)) by (intros; by apply logs_list_prs).
  intros found. unfold open_prs. logs.
Qed.

Lemma any_completed pr head base : logs any (completed_pr E pr head base).
Proof. unfold completed_pr. destruct (incomplete pr); [apply any_fallback|logs]. Qed.

Lemma any_report sha pr : logs any (write_report E sha pr).
Proof.
  unfold write_report. apply logs_bind; [logs|]. intros x. destruct (given (ss_run_id x)); [|logs].
  apply logs_bind; [|logs]. intros st. unfold written_report.
  destruct (ge_report _ _ _ _ _) as [[p|e] w]; (split; [exists []; by rewrite app_nil_r|done]).
Qed.

Lemma any_ensure_pr branch base np rv : logs any (ensure_pr E c branch base np rv).
Proof.
  unfold ensure_pr. apply logs_bind; [logs|]. intros x. destruct (ss_pull_request x); [logs|].
  destruct (_ && _); [|logs]. destruct (ge_ensure_pr E); [|logs].
  apply logs_bind; [by apply logs_call|]. intros [pr|]; [|logs].
  apply logs_bind; [apply any_completed|logs].
Qed.

Lemma any_update_pr branch base np sha pr : logs any (update_pr E branch base np sha pr).
Proof.
  unfold update_pr. apply logs_bind; [logs|]. intros x.
  destruct pr as [p|], (ss_pull_request x), (ge_update_pr E); try solve [logs].
  destruct np; [logs|]. apply logs_bind; [by apply logs_call|]. intros [u|]; [|logs].
  apply logs_bind; [apply any_completed|]. intros p'. apply logs_bind; [apply any_report|logs].
Qed.

Lemma any_summary : logs any (update_summary_comment E).
Proof.
  unfold update_summary_comment. apply logs_bind; [logs|]. intros x. destruct (given _); [|logs].
  apply logs_bind; [destruct (given _); [by apply logs_call|logs]|]. intros []; [logs|].
  apply logs_bind; [by apply logs_call|]. intros cid. destruct (given cid); [by apply logs_on_ses|logs].
Qed.
End result.

(** A push that git accepted. *)
Definition good_push (x : gcall) : Prop :=
  match x with CGit args _ rc => is_push args = true /\ rc = 0 | _ => False end.

Section pushes.
Context {W : Type} (E : GitEnv W) (c : SyncConfig).
Abbreviation any := (fun _ : gcall => True).

Definition grew (s s' : GState W) : Prop := exists l, gs_log s' = gs_log s ++ l.
Definition pushed_between (s s' : GState W) : Prop :=
  exists l, gs_log s' = gs_log s ++ l /\ Exists good_push l.

Lemma grew_refl s : grew s s.
Proof. exists []. by rewrite app_nil_r. Qed.

Lemma grew_trans s s1 s2 : grew s s1 -> grew s1 s2 -> grew s s2.
Proof. intros [l1 H1] [l2 H2]. exists (l1 ++ l2). by rewrite H2, H1, (assoc_L (++)). Qed.

Lemma pushed_later s s1 s2 : pushed_between s s1 -> grew s1 s2 -> pushed_between s s2.
Proof.
  intros (l1 & H1 & He) [l2 H2]. exists (l1 ++ l2). rewrite H2, H1, (assoc_L (++)). split; [done|].
  apply Exists_app. by left.
Qed.

Lemma pushed_before s s1 s2 : grew s s1 -> pushed_between s1 s2 -> pushed_between s s2.
Proof.
  intros [l1 H1] (l2 & H2 & He). exists (l1 ++ l2). rewrite H2, H1, (assoc_L (++)). split; [done|].
  apply Exists_app. by right.
Qed.

Lemma logs_grew {A} (m : M (GState W) gexn A) s r s' : logs any m -> m s = (r, s') -> grew s s'.
Proof. intros Hm H. destruct (Hm s) as [(l & Hl & _) _]. rewrite H in Hl. by exists l. Qed.

Lemma logs_keeps_pr {A} (m : M (GState W) gexn A) s r s' :
  logs any m -> m s = (r, s') -> ss_pull_request (gs_ses s') = ss_pull_request (gs_ses s).
Proof. intros Hm H. destruct (Hm s) as [_ Hp]. by rewrite H in Hp. Qed.

Lemma git_push_ok args dir s o s' :
  is_push args = true -> run_git E args dir s = (Ret o, s') -> go_rc o = 0 -> pushed_between s s'.
Proof.
  intros Hp H Hrc. unfold run_git in H. destruct (ge_git E args dir (gs_w s)) as [o' w]. simplify_eq/=.
  eexists. split; [done|]. by repeat constructor.
Qed.

Lemma checked_push_ok args dir s a s' :
  is_push args = true -> run_git_checked E args dir s = (Ret a, s') -> pushed_between s s'.
Proof.
  intros Hp H. unfold run_git_checked in H. apply bind_returns in H as (o & s1 & H1 & H).
  destruct (Z.eqb_spec (go_rc o) 0); [|done]. unfold mret, M_ret in H. simplify_eq. by eapply git_push_ok.
Qed.

(** What a push reports: a success was one, a conflict has files and no push. *)
Definition push_report (r : bool * bool * list string) (s s' : GState W) : Prop :=
  let '(pushed, conflict, files) := r in
  (pushed = true -> pushed_between s s') /\ (conflict = true -> pushed = false /\ files <> []).

Lemma recovery_reports root branch s r s' :
  push_with_recovery E root branch s = (Ret r, s') -> push_report r s s'.
Proof.
  unfold push_with_recovery. intros H. apply bind_returns in H as (o & s1 & H1 & H).
  destruct (Z.eqb_spec (go_rc o) 0).
  { unfold mret, M_ret in H. simplify_eq. split; [|done]. intros _. eapply git_push_ok; [|exact H1|done]. done. }
  destruct (negb _); [done|].
  assert (G1 : grew s s1) by (eapply logs_grew; [|exact H1]; apply any_git).
  apply bind_returns in H as (? & s2 & H2 & H). apply bind_returns in H as (? & s3 & H3 & H).
  apply bind_returns in H as (o' & s4 & H4 & H).
  assert (G : grew s s4).
  { eapply grew_trans; [exact G1|]. eapply grew_trans; [eapply logs_grew; [|exact H2]; apply any_checked|].
    eapply grew_trans; [eapply logs_grew; [|exact H3]; unfold git_rebase_abort; logs; apply any_git|].
    eapply logs_grew; [|exact H4]; apply any_git. }
  destruct (go_rc o' =? 0); [|destruct (_ || _)].
  1,2: apply bind_returns in H as (? & s5 & H5 & H); unfold mret, M_ret in H; simplify_eq;
    split; [|done]; intros _; eapply pushed_before; [exact G|]; (eapply checked_push_ok; [|exact H5]; done).
  apply bind_returns in H as (files & s5 & H5 & H). destruct files as [|f files].
  - apply bind_returns in H as (? & ? & _ & H). done.
  - unfold mret, M_ret in H. by simplify_eq.
Qed.

Lemma directly_reports root branch s r s' :
  push_directly E root branch s = (Ret r, s') -> push_report r s s'.
Proof.
  unfold push_directly. intros H. apply bind_returns in H as (? & s1 & H1 & H).
  assert (G1 : grew s s1)
    by (eapply logs_grew; [|exact H1]; apply logs_try; [apply any_checked|logs]).
  unfold try_except in H.
  destruct ((run_git_checked E ["push"; "origin"; branch] root ≫= (fun _ => mret (true, false, []))) s1)
    as [[r1|e] s2] eqn:H2.
  - apply bind_returns in H2 as (? & s3 & H3 & H2). unfold mret, M_ret in H2. simplify_eq.
    split; [|done]. intros _. eapply pushed_before; [exact G1|]. eapply checked_push_ok; [|exact H3]. done.
  - unfold mret, M_ret in H. by simplify_eq.
Qed.
End pushes.

Section sync_result.
Context {W : Type} (E : GitEnv W) (c : SyncConfig).
Abbreviation any := (fun _ : gcall => True).

Lemma report_before r (s s1 s2 : GState W) : grew s s1 -> push_report r s1 s2 -> push_report r s s2.
Proof.
  destruct r as [[p cf] fs]. intros G [H1 H2]. split; [|done]. intros Hp.
  eapply pushed_before; [exact G|]. by apply H1.
Qed.

Lemma report_later r (s s1 s2 : GState W) : push_report r s s1 -> grew s1 s2 -> push_report r s s2.
Proof.
  destruct r as [[p cf] fs]. intros [H1 H2] G. split; [|done]. intros Hp.
  eapply pushed_later; [by apply H1|exact G].
Qed.

Lemma report_none (s s' : GState W) : push_report not_pushed s s'.
Proof. done. Qed.

Lemma changed_reports root branch base seq np s sha cm run push s' :
  sync_changed E c root branch base seq np s = (Ret (sha, cm, run, push), s') -> push_report push s s'.
Proof.
  unfold sync_changed. intros H. apply bind_returns in H as (m & s1 & H1 & H).
  apply bind_returns in H as (sha' & s2 & H2 & H). apply bind_returns in H as (? & s3 & H3 & H).
  apply bind_returns in H as (push' & s4 & H4 & H). unfold mret, M_ret in H. simplify_eq.
  assert (G : grew s s3).
  { eapply grew_trans; [eapply logs_grew; [|exact H1]; by apply local_commit|].
    eapply grew_trans; [eapply logs_grew; [|exact H2]|eapply logs_grew; [|exact H3]].
    - destruct seq; [logs|]. apply logs_bind.
      + apply logs_try; [by apply local_pre_commit|]. intros e.
        destruct (is_gate_error e); [by apply local_take_back|logs].
      + intros _. apply logs_bind; [by apply local_head|]. logs.
    - apply logs_try; [by apply local_gate|]. intros e.
      destruct (is_gate_error e); [by apply local_take_back|logs]. }
  eapply report_before; [exact G|]. destruct np; [unfold mret, M_ret in H4; by simplify_eq|].
  by eapply recovery_reports.
Qed.

Lemma unchanged_reports root branch base np s sha cm run push s' :
  sync_unchanged E c root branch base np s = (Ret (sha, cm, run, push), s') -> push_report push s s'.
Proof.
  unfold sync_unchanged. intros H. apply bind_returns in H as (sha' & s1 & H1 & H).
  apply bind_returns in H as (x & s2 & H2 & H). apply bind_returns in H as (? & s3 & H3 & H).
  apply bind_returns in H as (push' & s4 & H4 & H). unfold mret, M_ret in H. simplify_eq.
  assert (G : grew s s3).
  { eapply grew_trans; [eapply logs_grew; [|exact H1]; by apply local_head|].
    eapply grew_trans; [eapply logs_grew; [|exact H2]; logs|eapply logs_grew; [|exact H3]].
    apply logs_try; [by apply local_gate|]. intros e. destruct (is_gate_error e); logs. }
  eapply report_before; [exact G|]. destruct (String.eqb branch "" || np).
  { unfold mret, M_ret in H4. by simplify_eq. }
  destruct (is_some _); [by eapply directly_reports|by eapply recovery_reports].
Qed.

(** A pull request that the session did not have belongs to something to review. *)
Lemma ensure_pr_reason branch base np rv s pr s' :
  ensure_pr E c branch base np rv s = (Ret (Some pr), s') ->
  ss_pull_request (gs_ses s) <> None \/ (branch <> base /\ np = false /\ rv = true).
Proof.
  unfold ensure_pr. intros H. apply bind_returns in H as (x & s1 & H1 & H).
  unfold ses, gets in H1. simplify_eq. destruct (ss_pull_request (gs_ses s1)) eqn:Hp; [by left|right].
  destruct (String.eqb_spec branch base); [done|]. destruct np, rv; try done.
Qed.

Lemma update_pr_same branch base np sha pr s pr' s' :
  update_pr E branch base np sha pr s = (Ret pr', s') -> is_some pr' = is_some pr.
Proof.
  unfold update_pr. intros H. apply bind_returns in H as (x & s1 & _ & H).
  destruct pr as [p|], (ss_pull_request x), (ge_update_pr E) as [u|]; unfold mret, M_ret in H;
    try solve [by simplify_eq].
  destruct np; [by simplify_eq|]. apply bind_returns in H as ([v|] & s2 & _ & H); [|by simplify_eq].
  apply bind_returns in H as (? & s3 & _ & H). apply bind_returns in H as (? & s4 & _ & H).
  by simplify_eq.
Qed.

Lemma publish_grew root branch base np done_ s r s' :
  publish E c root branch base np done_ s = (Ret r, s') -> grew s s'.
Proof.
  apply logs_grew. unfold publish. destruct done_ as [[[sha cm] run] push].
  apply logs_bind; [apply any_ensure_pr|]. intros pr. apply logs_bind; [apply any_report|]. intros _.
  apply logs_bind; [apply any_update_pr|]. intros pr'. apply logs_bind.
  - apply logs_try; [by apply local_post_sync|]. logs.
  - intros _. apply logs_bind; [destruct (_ || _); [apply any_summary|logs]|].
    intros _. destruct push as [[p cf] fs]. logs.
Qed.

Lemma publish_result root branch base np sha cm run push s r s' :
  publish E c root branch base np (sha, cm, run, push) s = (Ret r, s') ->
  sr_branch_name r = branch /\ sr_base_branch r = base /\ sr_committed r = cm || run
  /\ (sr_pushed r, sr_has_conflict r, sr_conflict_files r) = push
  /\ (sr_pull_request r <> None ->
      ss_pull_request (gs_ses s) <> None \/ (branch <> base /\ np = false /\ sr_committed r = true))
  /\ (sr_end_reason r = None <-> sr_committed r = true \/ sr_pull_request r <> None).
Proof.
  unfold publish. intros H. apply bind_returns in H as (pr & s1 & H1 & H).
  apply bind_returns in H as (? & s2 & _ & H). apply bind_returns in H as (pr' & s3 & H3 & H).
  apply bind_returns in H as (? & s4 & _ & H). apply bind_returns in H as (? & s5 & _ & H).
  destruct push as [[p cf] fs]. unfold mret, M_ret in H. simplify_eq. simpl.
  apply update_pr_same in H3. split_and!; try done.
  - intros Hpr. destruct pr as [pr|]; [by eapply ensure_pr_reason|]. by destruct pr'.
  - destruct (cm || run), pr'; simpl; naive_solver.
Qed.
End sync_result.

(** The calls grew, and the pull request of the session stayed. *)
Definition linked {W} (s s' : GState W) : Prop :=
  grew s s' /\ ss_pull_request (gs_ses s') = ss_pull_request (gs_ses s).

Lemma linked_trans {W} (s s1 s2 : GState W) : linked s s1 -> linked s1 s2 -> linked s s2.
Proof. intros [G1 P1] [G2 P2]. split; [by eapply grew_trans|congruence]. Qed.

Lemma logs_linked {W A} (m : M (GState W) gexn A) s r s' :
  m s = (r, s') -> logs (fun _ => True) m -> linked s s'.
Proof. intros H Hm. split; [by eapply logs_grew|by eapply logs_keeps_pr]. Qed.

Section any_push.
Context {W : Type} (E : GitEnv W) (c : SyncConfig).
Abbreviation any := (fun _ : gcall => True).

Lemma any_recovery root branch : logs any (push_with_recovery E root branch).
Proof.
  pose proof (any_git E). pose proof (any_checked E).
  unfold push_with_recovery, git_rebase_abort, detect_conflicts. logs.
Qed.

Lemma any_directly root branch : logs any (push_directly E root branch).
Proof. pose proof (any_checked E). unfold push_directly. logs. Qed.

Lemma any_changed root branch base seq np : logs any (sync_changed E c root branch base seq np).
Proof.
  unfold sync_changed, on_gate_error.
  assert (Ht : forall A m sha e, logs any (take_back E c root branch base m sha e : M (GState W) gexn A))
    by (intros; by apply local_take_back).
  assert (forall seq, logs any (commit_changes E c root seq)) by (intros; by apply local_commit).
  assert (logs any (head_sha E root)) by (by apply local_head).
  assert (logs any (run_pre_commit_hook E c root)) by (by apply local_pre_commit).
  assert (logs any (run_pre_push_verification E c root)) by (by apply local_gate).
  pose proof any_recovery. logs.
Qed.

Lemma any_unchanged root branch base np : logs any (sync_unchanged E c root branch base np).
Proof.
  unfold sync_unchanged, on_gate_error.
  assert (logs any (head_sha E root)) by (by apply local_head).
  assert (logs any (run_pre_push_verification E c root)) by (by apply local_gate).
  pose proof any_recovery. pose proof any_directly. logs.
Qed.
End any_push.

(** C24: what [sync] returns is what happened: it was pushed only if git accepted a
    push, a conflict has files and was not pushed, a pull request that the
    session did not have belongs to a commit on a branch of its own, and the
    result is marked as empty exactly when there is neither commit nor pull
    request. *)
Theorem sync_result_sound {W} (E : GitEnv W) c followup s r s' :
  sync E c followup s = (Ret (Some r), s') ->
  (sr_pushed r = true -> pushed_between s s')
  /\ (sr_has_conflict r = true -> sr_pushed r = false /\ sr_conflict_files r <> [])
  /\ (sr_pull_request r <> None ->
      ss_pull_request (gs_ses s) <> None
      \/ (sr_committed r = true /\ sr_branch_name r <> sr_base_branch r
          /\ sy_local_tracker c = false /\ ss_strategy (gs_ses s) <> "sequential"))
  /\ (sr_end_reason r = None <-> sr_committed r = true \/ sr_pull_request r <> None).
Proof.
  unfold sync. intros H. apply bind_returns in H as (x & s1 & H1 & H).
  unfold ses, gets in H1. simplify_eq. destruct (_ && _); [done|].
  apply bind_returns in H as ([root|] & s2 & H2 & H); [|done].
  apply bind_returns in H as (? & s3 & H3 & H). apply bind_returns in H as (base & s4 & H4 & H).
  apply bind_returns in H as (branch & s5 & H5 & H). apply bind_returns in H as (changed & s6 & H6 & H).
  apply bind_returns in H as ([[[sha cm] run] push] & s7 & H7 & H).
  apply bind_returns in H as (r' & s8 & H8 & H). unfold mret, M_ret in H. simplify_eq.
  assert (L : linked s1 s6).
  { eapply linked_trans; [apply (logs_linked _ _ _ _ H2); by apply local_root|].
    eapply linked_trans; [apply (logs_linked _ _ _ _ H3); by apply local_exclude|].
    eapply linked_trans.
    { apply (logs_linked _ _ _ _ H4). destruct (given (ss_base_branch _)); [logs|by apply local_default]. }
    eapply linked_trans; [|apply (logs_linked _ _ _ _ H6); by apply local_status].
    apply (logs_linked _ _ _ _ H5). destruct (String.eqb (ss_strategy _) "sequential"); [|by apply local_work_branch].
    destruct (given (ss_integration_branch _)); [logs|]. apply logs_bind; [by apply local_current|logs]. }
  assert (L7 : linked s1 s7).
  { eapply linked_trans; [exact L|]. apply (logs_linked _ _ _ _ H7).
    destruct changed; [apply any_unchanged|apply any_changed]. }
  assert (R : push_report push s1 s').
  { eapply report_later; [|by eapply publish_grew]. eapply report_before; [apply L|].
    destruct changed; [by eapply unchanged_reports|by eapply changed_reports]. }
  destruct (publish_result _ _ _ _ _ _ _ _ _ _ _ _ _ H8) as (Hb & Hba & _ & Hpush & Hpr & Hend).
  subst push. destruct R as [R1 R2]. split_and!; try done.
  intros Hsome. destruct (Hpr Hsome) as [Ho|(Hne & Hnp & Hc)].
  - left. by rewrite <- (proj2 L7).
  - right. apply orb_false_iff in Hnp as [Hl Hs]. split_and!; [done|congruence|done|].
    by apply String.eqb_neq.
Qed.

(** ** The regression guard *)

Section guard.
Context {W : Type} (E : GitEnv W) (c : SyncConfig).

Definition new_call (x : gcall) (s s' : GState W) : Prop :=
  exists l, gs_log s' = gs_log s ++ l /\ x ∈ l.

Lemma new_call_before x s s1 s2 : grew s s1 -> new_call x s1 s2 -> new_call x s s2.
Proof.
  intros [l1 H1] (l & H2 & Hx). exists (l1 ++ l). rewrite H2, H1, (assoc_L (++)). split; [done|set_solver].
Qed.

(** The calls that [s'] has over [s], in their order *)
Definition called (l : list gcall) (s s' : GState W) : Prop := gs_log s' = gs_log s ++ l.

Lemma called_then l1 l2 s s1 s2 : called l1 s s1 -> called l2 s1 s2 -> called (l1 ++ l2) s s2.
Proof. unfold called. intros H1 H2. by rewrite H2, H1, (assoc_L (++)). Qed.

Lemma shell_returns cmd dir t s rc out s' :
  run_shell_result E cmd dir t s = (Ret (rc, out), s') ->
  called [CShell cmd dir (ShDone rc out)] s s' /\ gs_ses s' = gs_ses s.
Proof.
  unfold run_shell_result. destruct (ge_shell E cmd dir t (gs_w s)) as [[|rc' out'] w]; [done|].
  by intros [= <- <- <-].
Qed.

Lemma git_returns args dir s o s' : run_git E args dir s = (Ret o, s') -> called [CGit args dir (go_rc o)] s s'.
Proof. unfold run_git. destruct (ge_git E args dir (gs_w s)) as [o' w]. by intros [= <- <-]. Qed.

(** A baseline is the failures of a run of the suite in a new worktree of the
    start commit, which is removed again. *)
Lemma baseline_run root cmd s b s' :
  baseline_failures E c root cmd s = (Ret (Some b), s') ->
  exists sha tmp rc out rc', given (ss_start_sha (gs_ses s)) = Some sha
    /\ called [CGit ["worktree"; "add"; "--detach"; tmp; sha] root 0; CShell cmd tmp (ShDone rc out);
               CGit ["worktree"; "remove"; "--force"; tmp] root rc'] s s'
    /\ b = if rc =? 0 then [] else pytest_failures out.
Proof.
  unfold baseline_failures. intros H. apply bind_returns in H as (x & s1 & H1 & H).
  unfold ses, gets in H1. injection H1 as <- <-. destruct (given _) as [sha|]; [|done].
  apply bind_returns in H as (tmp & s2 & H2 & H). apply bind_returns in H as (o & s3 & H3 & H).
  destruct (Z.eqb_spec (go_rc o) 0) as [Ho|]; [|done]. simpl in H. apply bind_returns in H as (r & s4 & H4 & H).
  apply bind_returns in H as (o5 & s5 & H5 & H). unfold mret, M_ret in H. injection H as -> <-.
  assert (L2 : called [] s s2).
  { unfold mkdtemp in H2. destruct (ge_mkdtemp E _) as [d w]. injection H2 as _ <-. unfold called. by rewrite app_nil_r. }
  apply git_returns in H3, H5. rewrite Ho in H3. unfold try_except in H4.
  destruct ((run_shell_result E cmd tmp (sy_timeout_ms c) ≫= _) s3) as [[r|e] s6] eqn:H6.
  - injection H4 as -> <-. apply bind_returns in H6 as ([rc out] & s7 & H7 & H6). unfold mret, M_ret in H6.
    injection H6 as <- <-. apply shell_returns in H7 as [H7 _].
    exists sha, tmp, rc, out, (go_rc o5). split; [done|]. split; [|done].
    exact (called_then _ _ _ _ _ (called_then _ _ _ _ _ (called_then _ _ _ _ _ L2 H3) H7) H5).
  - destruct e; unfold mret, M_ret in H4; discriminate H4.
Qed.

Lemma net_new_nil after baseline f : net_new after baseline = [] -> f ∈ after -> f ∈ baseline.
Proof.
  unfold net_new. intros H Hf. destruct (mem f baseline) eqn:Hm; [by apply bool_decide_eq_true in Hm|].
  assert (Hin : In f (List.filter (fun f => negb (mem f baseline)) after)).
  { apply filter_In. split; [by apply list_elem_of_In|]. by rewrite Hm. }
  by rewrite H in Hin.
Qed.

Lemma sorted_nil (l : list string) : merge_sort name_le l = [] -> l = [].
Proof.
  intros H. pose proof (merge_sort_Permutation name_le l) as Hp. rewrite H in Hp.
  by apply Permutation_nil_l in Hp.
Qed.
End guard.

(** C25: what the regression guard reports when it lets a change pass is borne out
    by the calls it made. "passed": the tests were run in the repository and ended
    with 0. "passed_preexisting_failures": they failed, a worktree of the commit
    the run started from was added, the same tests were run there and failed too,
    the worktree was removed, and every test named as failing (at least one is) is
    named as failing there too. "skipped_no_tests": there is no command, or its
    one run shows a missing test runner. *)
Theorem guard_sound {W} (E : GitEnv W) c root s status note s' :
  run_regression_guard E c root s = (Ret (status, note), s') ->
  let cmd := detect_fallback_test_command E c root (gs_w s) in
  (status = "passed" /\ exists out, called [CShell cmd root (ShDone 0 out)] s s')
  \/ (status = "passed_preexisting_failures"
      /\ exists sha rc out tmp rc0 out0 rc',
          given (ss_start_sha (gs_ses s)) = Some sha
          /\ called [CShell cmd root (ShDone rc out);
                     CGit ["worktree"; "add"; "--detach"; tmp; sha] root 0; CShell cmd tmp (ShDone rc0 out0);
                     CGit ["worktree"; "remove"; "--force"; tmp] root rc'] s s'
          /\ pytest_failures out <> []
          /\ forall f, f ∈ pytest_failures out -> rc0 <> 0 /\ f ∈ pytest_failures out0)
  \/ (status = "skipped_no_tests"
      /\ (cmd = "" \/ exists rc out, called [CShell cmd root (ShDone rc out)] s s'
                                     /\ looks_like_missing_runner rc out = true)).
Proof.
  unfold run_regression_guard. intros H. apply bind_returns in H as (x & s1 & H1 & H).
  unfold get in H1. injection H1 as <- <-. cbv zeta in *.
  destruct (String.eqb_spec (detect_fallback_test_command E c root (gs_w s)) "") as [Hc|Hc].
  { unfold mret, M_ret in H. simplify_eq. right; right. by auto. }
  apply bind_returns in H as ([rc out] & s2 & H2 & H). apply shell_returns in H2 as [N2 Hses].
  destruct (Z.eqb_spec rc 0) as [->|Hrc].
  { unfold mret, M_ret in H. simplify_eq. left. by eauto. }
  destruct (looks_like_missing_runner rc out) eqn:Hm.
  { unfold mret, M_ret in H. simplify_eq. right; right. split; [done|]. right. by eauto. }
  apply bind_returns in H as (b & s3 & H3 & H). destruct b as [b|]; [|done].
  destruct (remove_dups (pytest_failures out)) as [|f fs] eqn:Hf; [done|].
  destruct (merge_sort name_le _) eqn:Hs; [|done]. unfold mret, M_ret in H. injection H as <- <- <-.
  right; left. split; [done|]. destruct (baseline_run _ _ _ _ _ _ _ H3) as (sha & tmp & rc0 & out0 & rc' & Hsha & N3 & ->).
  rewrite Hses in Hsha. exists sha, rc, out, tmp, rc0, out0, rc'. split_and!.
  - done.
  - exact (called_then _ _ _ _ _ N2 N3).
  - intros He. by rewrite He in Hf.
  - intros g Hg. apply elem_of_remove_dups in Hg. rewrite Hf in Hg.
    apply sorted_nil in Hs. apply (net_new_nil _ _ g Hs) in Hg.
    destruct (Z.eqb_spec rc0 0); [by apply elem_of_nil in Hg|done].
Qed.

(** A failing test command whose output mentions a missing module, file or
    tool passes the gate: the session is marked as passed. *)
Theorem environment_gap_passes {W} (E : GitEnv W) c root cmd rc out w s :
  given (sy_test_command c) = Some cmd -> given (sy_build_command c) = None ->
  given (sy_lint_command c) = None -> given (sy_pre_push c) = None ->
  given (ss_repro_command (gs_ses s)) = None ->
  ge_shell E cmd root (sy_timeout_ms c) (gs_w s) = (ShDone rc out, w) ->
  rc <> 0 -> contains "ImportError" out = true ->
  exists s', run_pre_push_verification E c root s = (Ret tt, s')
    /\ ss_verification_status (gs_ses s') = Some "passed".
Proof.
  intros Ht Hb Hl Hp Hr Hs Hrc Hout.
  assert (Hgap : environment_gap out = true).
  { unfold environment_gap, ENV_FAILURE_MARKERS. simpl. rewrite Hout. by rewrite !orb_true_r. }
  unfold run_pre_push_verification. simpl. rewrite Ht, Hb, Hl, Hp.
  unfold mbind, M_bind, recast, try_except, run_shell, run_shell_result, mbind, M_bind. rewrite Hs. simpl.
  destruct (Z.eqb_spec rc 0); [done|]. rewrite Hgap. simpl.
  unfold verify_repro, mbind, M_bind, ses, gets. simpl. rewrite Hr. simpl. by eexists.
Qed.

(** ** Rebasing *)

(** A push that overwrites whatever the remote has. *)
Definition plain_force (x : gcall) : Prop :=
  match x with CGit args _ _ => exists rest, args = "push" :: "--force" :: rest | _ => False end.
Definition some_push (x : gcall) : Prop :=
  match x with CGit args _ _ => is_push args = true | _ => False end.

Section rebase.
Context {W : Type} (E : GitEnv W) (c : SyncConfig).

(** Up to the push nothing is pushed. *)
Lemma push_rebased_calls root branch force s rc method s' :
  push_rebased E root branch force s = (Ret (rc, method), s') ->
  exists rc1 args, gs_log s' = gs_log s ++ [CGit ["rev-parse"; "origin/" +:+ branch] root rc1;
                                            CGit ("push" :: args) root rc]
    /\ (force = false -> hd "" args <> "--force").
Proof.
  unfold push_rebased. intros H. apply bind_returns in H as (o & s1 & H1 & H).
  unfold run_git in H1. destruct (ge_git E _ _ _) as [o1 w1] in H1. simplify_eq.
  destruct force; [|destruct (negb _)]; apply bind_returns in H as (o2 & s2 & H2 & H);
    unfold mret, M_ret in H; simplify_eq; unfold run_git in H2;
    destruct (ge_git E _ _ _) as [o3 w3] in H2; simplify_eq/=;
    rewrite <- (assoc_L (++)); simpl; eexists _, _; (split; [done|]); done.
Qed.

Definition not_some_push (x : gcall) : Prop := ~ some_push x.

Lemma quiet_git args dir : is_push args = false -> logs not_some_push (run_git E args dir).
Proof. intros H. apply logs_run_git. unfold not_some_push. simpl. by rewrite H. Qed.

Lemma quiet_abort dir : logs not_some_push (git_rebase_abort E dir).
Proof. unfold git_rebase_abort. logs. by apply quiet_git. Qed.

Lemma quiet_ahead dir a b : logs not_some_push (ahead_behind E dir a b).
Proof. unfold ahead_behind. logs. by apply quiet_git. Qed.

Lemma quiet_head dir : logs not_some_push (head_if_known E dir).
Proof. unfold head_if_known. logs. by apply quiet_git. Qed.

Lemma quiet_conflicts dir : logs not_some_push (detect_conflicts E dir).
Proof. unfold detect_conflicts. logs. by apply quiet_git. Qed.

Lemma quiet_current dir : logs not_some_push (get_current_branch E dir).
Proof. unfold get_current_branch. logs. by apply quiet_git. Qed.

Definition quietly (s s' : GState W) : Prop :=
  exists l, gs_log s' = gs_log s ++ l /\ Forall not_some_push l.

Lemma quietly_of {A} (m : M (GState W) gexn A) s r s' : m s = (r, s') -> logs not_some_push m -> quietly s s'.
Proof. intros H Hm. destruct (Hm s) as [Hl _]. by rewrite H in Hl. Qed.

Lemma quietly_trans s s1 s2 : quietly s s1 -> quietly s1 s2 -> quietly s s2.
Proof.
  intros (l1 & H1 & F1) (l2 & H2 & F2). exists (l1 ++ l2). rewrite H2, H1, (assoc_L (++)).
  split; [done|]. by apply Forall_app.
Qed.

(** What is claimed of a result and the calls that led to it. *)
Definition rebase_claim (root base : string) (force : bool) (r : PRRebase) (l : list gcall) : Prop :=
  (pb_pushed r = true ->
   CGit ["rebase"; "origin/" +:+ base] root 0 ∈ l /\ exists args, CGit ("push" :: args) root 0 ∈ l)
  /\ (pb_has_conflict r = true -> pb_conflict_files r <> [] /\ Forall (fun x => ~ some_push x) l)
  /\ (force = false -> Forall (fun x => ~ plain_force x) l).

Lemma not_forced x : not_some_push x -> ~ plain_force x.
Proof. intros Hx Hf. destruct x; try done. destruct Hf as [rest ->]. by apply Hx. Qed.

Lemma quiet_claim root base force r s s' :
  quietly s s' -> pb_pushed r = false -> (pb_has_conflict r = true -> pb_conflict_files r <> []) ->
  exists l, gs_log s' = gs_log s ++ l /\ rebase_claim root base force r l.
Proof.
  intros (l & Hl & Hq) Hp Hc. exists l. split; [done|]. split_and!; [by rewrite Hp|by auto|].
  intros _. eapply Forall_impl; [exact Hq|]. apply not_forced.
Qed.

(** The pushing end of a rebase. *)
Lemma pushed_claim root branch base force s rc method s' :
  push_rebased E root branch force s = (Ret (rc, method), s') ->
  forall s0 r s2, quietly s0 s -> new_call (CGit ["rebase"; "origin/" +:+ base] root 0) s0 s ->
  quietly s' s2 -> (pb_pushed r = true -> rc = 0) -> pb_has_conflict r = false ->
  exists l, gs_log s2 = gs_log s0 ++ l /\ rebase_claim root base force r l.
Proof.
  intros H s0 r s2 (l0 & Hl0 & Q0) (l0' & Hl0' & Hin) (l2 & Hl2 & Q2) Hrc Hc.
  assert (l0' = l0) as -> by (rewrite Hl0 in Hl0'; by apply app_inv_head in Hl0').
  apply push_rebased_calls in H as (rc1 & args & Hl & Hf).
  exists (l0 ++ [CGit ["rev-parse"; "origin/" +:+ branch] root rc1; CGit ("push" :: args) root rc] ++ l2).
  split; [rewrite Hl2, Hl, Hl0, <- !app_assoc; reflexivity|]. split_and!.
  - intros Hp. rewrite <- (Hrc Hp). split; [set_solver|]. exists args. set_solver.
  - by rewrite Hc.
  - intros Hff. rewrite !Forall_app. split_and!.
    + eapply Forall_impl; [exact Q0|]. apply not_forced.
    + repeat constructor; intros [rest Hr]; simplify_eq/=. by apply Hf.
    + eapply Forall_impl; [exact Q2|]. apply not_forced.
Qed.

End rebase.

(** A rebase of a pull request that reports a push has rebased onto the base
    branch and pushed, both with success; one that reports conflicts names them
    and pushed nothing; and without the operator's request no push overwrites
    the remote branch unconditionally. *)
Theorem rebase_pushes_rebased {W} (E : GitEnv W) root branch base force s r s' :
  rebase_for_pr E root branch base force s = (Ret r, s') ->
  exists l, gs_log s' = gs_log s ++ l
    /\ (pb_pushed r = true ->
        CGit ["rebase"; "origin/" +:+ base] root 0 ∈ l /\ exists args, CGit ("push" :: args) root 0 ∈ l)
    /\ (pb_has_conflict r = true -> pb_conflict_files r <> [] /\ Forall (fun x => ~ some_push x) l)
    /\ (force = false -> Forall (fun x => ~ plain_force x) l).
Proof.
  unfold rebase_for_pr. intros H.
  apply bind_returns in H as (? & s1 & H1 & H). apply bind_returns in H as (cur & s2 & H2 & H).
  apply bind_returns in H as (? & s3 & H3 & H). apply bind_returns in H as (? & s4 & H4 & H).
  apply bind_returns in H as (o & s5 & H5 & H).
  assert (Q : quietly s s5).
  { eapply quietly_trans; [apply (quietly_of _ _ _ _ H1), quiet_abort|].
    eapply quietly_trans; [apply (quietly_of _ _ _ _ H2), quiet_current|].
    eapply quietly_trans; [apply (quietly_of _ _ _ _ H3)|].
    { destruct (bool_decide _); [logs|]. logs. by apply quiet_git. }
    eapply quietly_trans; [apply (quietly_of _ _ _ _ H4), quiet_abort|].
    apply (quietly_of _ _ _ _ H5). by apply quiet_git. }
  clear H1 H2 H3 H4 H5. destruct (negb (go_rc o =? 0)).
  { unfold mret, M_ret in H. simplify_eq. by apply quiet_claim. }
  apply bind_returns in H as ([ah behind] & s6 & H6 & H).
  pose proof (quietly_trans _ _ _ Q (quietly_of _ _ _ _ H6 (quiet_ahead _ _ _ _))) as Q6.
  destruct (behind =? 0).
  { apply bind_returns in H as (hd & s7 & H7 & H). unfold mret, M_ret in H. simplify_eq.
    apply quiet_claim; [|done|done]. eapply quietly_trans; [exact Q6|].
    apply (quietly_of _ _ _ _ H7), quiet_head. }
  apply bind_returns in H as (o2 & s7 & H7 & H).
  assert (Q7 : quietly s6 s7) by (apply (quietly_of _ _ _ _ H7); by apply quiet_git).
  pose proof (quietly_trans _ _ _ Q6 Q7) as Q07.
  destruct (Z.eqb_spec (go_rc o2) 0) as [Hrc|_]; simpl in H.
  - assert (N : new_call (CGit ["rebase"; "origin/" +:+ base] root 0) s s7).
    { destruct Q6 as (l6 & Hl6 & _). eapply new_call_before; [by exists l6|].
      unfold run_git in H7. destruct (ge_git E _ _ _) as [o3 w3] in H7. simplify_eq.
      exists [CGit ["rebase"; "origin/" +:+ base] root (go_rc o2)]. rewrite Hrc. split; [done|set_solver]. }
    apply bind_returns in H as ([rc method] & s8 & H8 & H). destruct (Z.eqb_spec rc 0) as [->|].
    + apply bind_returns in H as (hd & s9 & H9 & H). unfold mret, M_ret in H. simplify_eq.
      eapply (pushed_claim _ _ _ _ _ _ _ _ _ H8); [done|done| |done|done].
      apply (quietly_of _ _ _ _ H9), quiet_head.
    + apply bind_returns in H as (o4 & s9 & H9 & H). unfold mret, M_ret in H. simplify_eq.
      eapply (pushed_claim _ _ _ _ _ _ _ _ _ H8); [done|done| |done|done].
      apply (quietly_of _ _ _ _ H9). by apply quiet_git.
  - apply bind_returns in H as (files & s8 & H8 & H).
    pose proof (quietly_trans _ _ _ Q07 (quietly_of _ _ _ _ H8 (quiet_conflicts _ _))) as Q8.
    destruct files as [|f fs]; [|unfold mret, M_ret in H; simplify_eq; by apply quiet_claim].
    apply bind_returns in H as (? & s9 & H9 & H). unfold mret, M_ret in H. simplify_eq.
    apply quiet_claim; [|done|done]. eapply quietly_trans; [exact Q8|].
    apply (quietly_of _ _ _ _ H9), quiet_abort.
Qed.

(** ** Examples *)

Definition demo_git (args : list string) : GitOut :=
  let said out := mkGitOut out "" 0 in
  match args with
  | "rev-parse" :: "--show-toplevel" :: _ => said "/repo"
  | "rev-parse" :: "--abbrev-ref" :: "HEAD" :: _ => said "work"
  | "rev-parse" :: "HEAD" :: _ => said "sha2"
  | "rev-parse" :: _ => said "sha1"
  | "status" :: _ => said "?? a.py"
  | "diff" :: "--cached" :: "--quiet" :: _ => mkGitOut "" "" 1
  | "rev-list" :: _ => said "1 2"
  | _ => said ""
  end.

(** Every command ends with [r]. *)
Definition demo_env (r : shellres) : GitEnv unit :=
  mkGitEnv (fun args _ w => (demo_git args, w)) (fun _ _ _ w => (r, w)) (fun w => ("/tmp/x", w))
    (fun _ _ _ => false) (fun _ _ _ => None) (fun _ => None) (fun _ _ => None) (fun _ _ w => (true, w))
    (Some (fun _ _ _ w => (Ret (Some (mkPr (Some "1") (Some "u") None None)), w))) None
    (fun _ _ w => (Ret None, w)) (fun _ w => (LOk [], w)) (fun _ _ w => (Ret true, w))
    (fun _ w => (Ret None, w)) (fun _ _ _ w => (Ret "r.md", w)).

Definition demo_sync_config (test : option string) : SyncConfig :=
  mkSyncConfig None [] test None None 1000 true "pytest" [] false None None None 1000 None None None None false.

Definition demo_sync_session : SyncSession :=
  mkSyncSession "/repo" (mkSyncIssue (Some "7") (Some "#7") (Some "Fix") (Some "work")) None "isolated"
    (Some "main") None (Some "sha1") None [] None (Some "run") None None None None None None.

Definition demo_start : GState unit := mkGState tt [] demo_sync_session.

Lemma failing_tests_never_published_witness :
  Forall unpublished (gs_log (snd (sync (demo_env (ShDone 1 "boom")) (demo_sync_config (Some "make test")) false demo_start)))
  /\ exists e, fst (sync (demo_env (ShDone 1 "boom")) (demo_sync_config (Some "make test")) false demo_start) = Raise e.
Proof.
  destruct (failing_tests_never_published (demo_env (ShDone 1 "boom")) (demo_sync_config (Some "make test"))
              "make test" false demo_start) as [_ (l & Hl & Hf)]; [done|by vm_compute|].
  split; [by rewrite Hl|]. eexists. vm_compute. reflexivity.
Defined.

Lemma sync_result_sound_witness :
  exists r s', sync (demo_env (ShDone 0 "ok")) (demo_sync_config (Some "make test")) false demo_start = (Ret (Some r), s')
    /\ pushed_between demo_start s' /\ sr_committed r = true /\ sr_pull_request r <> None.
Proof.
  destruct (sync (demo_env (ShDone 0 "ok")) (demo_sync_config (Some "make test")) false demo_start)
    as [[[r|]|e] s'] eqn:H; vm_compute in H; try done.
  exists r, s'. split; [done|].
  destruct (sync_result_sound (demo_env (ShDone 0 "ok")) (demo_sync_config (Some "make test")) false demo_start r s')
    as (Hp & _ & Hpr & _); [vm_compute; exact H|].
  simplify_eq. split; [by apply Hp|done].
Defined.

Lemma guard_sound_witness :
  exists s', fst (run_regression_guard (demo_env (ShDone 1 "FAILED t.py::a")) (demo_sync_config None) "/repo" demo_start)
    = Ret s' /\ fst s' = "passed_preexisting_failures".
Proof.
  destruct (run_regression_guard (demo_env (ShDone 1 "FAILED t.py::a")) (demo_sync_config None) "/repo" demo_start)
    as [[[st note]|e] s'] eqn:H; [|by vm_compute in H].
  exists (st, note). split; [done|].
  destruct (guard_sound _ _ _ _ _ _ _ H) as [[Hs _]|[[Hs _]|[Hs _]]]; [by vm_compute in H; simplify_eq|done|by vm_compute in H; simplify_eq].
Defined.

Lemma environment_gap_passes_witness :
  exists s', run_pre_push_verification (demo_env (ShDone 1 "E   ImportError: no name f")) (demo_sync_config (Some "make test"))
               "/repo" demo_start = (Ret tt, s')
    /\ ss_verification_status (gs_ses s') = Some "passed".
Proof.
  by apply (environment_gap_passes (demo_env (ShDone 1 "E   ImportError: no name f"))
              (demo_sync_config (Some "make test")) "/repo" "make test" 1 "E   ImportError: no name f" tt demo_start).
Defined.

Lemma rebase_pushes_rebased_witness :
  exists r s' l, rebase_for_pr (demo_env (ShDone 0 "")) "/repo" "work" "main" false demo_start = (Ret r, s')
    /\ gs_log s' = l /\ pb_pushed r = true /\ Forall (fun x => ~ plain_force x) l.
Proof.
  destruct (rebase_for_pr (demo_env (ShDone 0 "")) "/repo" "work" "main" false demo_start) as [[r|e] s'] eqn:H;
    [|by vm_compute in H].
  destruct (rebase_pushes_rebased _ _ _ _ _ _ _ _ H) as (l & Hl & _ & _ & Hf).
  exists r, s', l. split; [done|]. split; [done|]. split; [by vm_compute in H; simplify_eq|by apply Hf].
Defined.
