(* ===== verification/ConfigSchema.v ===== *)
(** * Configuration
    ([src/orchestratord/config/schema.py], [src/orchestratord/config/runtime.py],
    [src/orchestratord/tracker_kinds.py])

    [WorkflowConfig.from_dict]: the parsed front matter of the workflow file
    becomes the configuration.  A mapping has text keys; values that the loader
    passes on as they are stay [pyval].  The environment, [expanduser], [str] and
    [float] of a value are parameters. *)

From Stdlib Require Import Ascii.
From S2P Require Import Prelude Errors Dag StageRunner Checkpoint Regex ClarModel Workspace.

Open Scope string_scope.
Open Scope list_scope.
Open Scope Z_scope.

Inductive cerr :=
| CValueError (message : string)
| CTypeError (message : string)
| CAttributeError (what : string)
| COverflowError
| TrackerConfigError (message : string).

Abbreviation section := (dict string pyval).

(** ** Cleaning *)

(** [_normalize_keys]: keys in lower case, except below a key [env]; of two
    keys that become one the later wins, at the place of the first. *)
Fixpoint normalize_keys (inside_env : bool) (v : pyval) : pyval :=
  match v with
  | PDict d =>
      PDict ((fix go (d : list (string * pyval)) (out : list (string * pyval)) :=
                match d with
                | [] => out
                | (k, v) :: d' =>
                    let key := if inside_env then k else lower k in
                    go d' (dset key (normalize_keys (inside_env || String.eqb key "env") v) out)
                end) d [])
  | PList l => PList (map (normalize_keys inside_env) l)
  | _ => v
  end.

Definition is_empty {A} (l : list A) : bool := match l with [] => true | _ => false end.

Definition is_none (v : pyval) : bool := match v with PNone => true | _ => false end.

(** [_drop_nil_values] *)
Fixpoint drop_nil_values (v : pyval) : pyval :=
  match v with
  | PDict d =>
      PDict ((fix go (d : list (string * pyval)) :=
                match d with
                | [] => []
                | (k, v) :: d' =>
                    let cleaned := drop_nil_values v in
                    if is_none cleaned then go d' else (k, cleaned) :: go d'
                end) d)
  | PList l => PList (map drop_nil_values l)
  | _ => v
  end.

Definition KERNEL_SECTION_KEYS : list string :=
  ["polling"; "worker"; "sandbox"; "modes"; "observability"; "server"].
Definition APPLICATION_SECTION_KEYS : list string :=
  ["tracker"; "workspace"; "agent"; "hooks"; "review_feedback"; "rules"; "telemetry"; "pr_template";
   "pr_conflict_scan"; "clarifier"].

(** A mapping under a key, [or {}]; anything else that is not falsy raises. *)
Definition mapping_or_empty (what : string) (v : option pyval) : outcome cerr section :=
  match v with
  | None => Ret []
  | Some v =>
      if negb (truthy v) then Ret []
      else match v with PDict d => Ret d | _ => Raise (CTypeError what) end
  end.

(** [_lift_dual_format_sections] *)
Definition lift_dual_format_sections (raw : section) : outcome cerr section :=
  match dget "applications" raw with
  | None => Ret raw
  | Some (PDict applications) =>
      kernel ← mapping_or_empty "kernel: must be a mapping" (dget "kernel" raw);
      issue_pr ← mapping_or_empty "applications.issue_pr: must be a mapping" (dget "issue_pr" applications);
      let lifted :=
        List.filter (fun kv => mem (fst kv) KERNEL_SECTION_KEYS) kernel
        ++ List.filter (fun kv => mem (fst kv) APPLICATION_SECTION_KEYS) issue_pr in
      let flat := List.filter (fun kv => negb (mem (fst kv) ["kernel"; "applications"])) raw in
      Ret (fold_left (fun acc kv => dset (fst kv) (snd kv) acc) lifted flat)
  | Some _ => Raise (CTypeError "applications: must be a mapping of application name -> settings")
  end.

(** ** Trackers ([tracker_kinds.py]) *)

Definition SUPPORTED_TRACKERS : list string := ["linear"; "github"; "gitee"; "gitcode"; "local"].

Record TrackerKindInfo := mkKindInfo {
  ki_kind : string;
  ki_label : string;
  ki_default_endpoint : string;
  ki_default_clone_base_url : option string;
  ki_api_key_env_vars : list string;
  ki_owner_env_vars : list string;
  ki_repo_env_vars : list string;
  ki_assignee_env_vars : list string;
  ki_requires_project_slug : bool;
  ki_requires_repository : bool;
}.

(** The entry of a repository host; its variables begin with its name. *)
Definition host_info (kind label endpoint base var : string) : TrackerKindInfo :=
  mkKindInfo kind label endpoint (Some base) [var +:+ "_TOKEN"; var +:+ "_API_KEY"]
    [var +:+ "_OWNER"; "TRACKER_OWNER"] [var +:+ "_REPO"; "TRACKER_REPO"]
    [var +:+ "_ASSIGNEE"; "TRACKER_ASSIGNEE"] false true.

Definition TRACKER_KIND_INFO : dict string TrackerKindInfo :=
  [("linear", mkKindInfo "linear" "Linear" "https://api.linear.app/graphql" None ["LINEAR_API_KEY"] [] []
      ["LINEAR_ASSIGNEE"] true false);
   ("github", host_info "github" "GitHub" "https://api.github.com" "https://github.com" "GITHUB");
   ("gitee", host_info "gitee" "Gitee" "https://gitee.com/api/v5" "https://gitee.com" "GITEE");
   ("gitcode", host_info "gitcode" "GitCode" "https://api.gitcode.com/api/v5" "https://gitcode.com" "GITCODE");
   ("local", mkKindInfo "local" "Local" "" None [] [] [] [] false false)].

(** [normalize_tracker_kind] of a string *)
Definition normalize_tracker_kind (kind : option string) : outcome cerr string :=
  let normalized := lower (strip (default "linear" (given kind))) in
  if mem normalized SUPPORTED_TRACKERS then Ret normalized
  else Raise (TrackerConfigError "Unsupported tracker kind").

(** [tracker_kind_info] *)
Definition tracker_kind_info (kind : option string) : outcome cerr TrackerKindInfo :=
  normalized ← normalize_tracker_kind kind;
  match dget normalized TRACKER_KIND_INFO with
  | Some info => Ret info
  | None => Raise (TrackerConfigError "Unsupported tracker kind")
  end.

(** [default_active_states_for_kind], [default_terminal_states_for_kind] of a
    normalized kind *)
Definition default_active_states (kind : string) : list string :=
  if String.eqb kind "linear" then ["Todo"; "In Progress"]
  else if String.eqb kind "local" then ["open"; "ready"] else ["open"].
Definition default_terminal_states (kind : string) : list string :=
  if String.eqb kind "linear" then ["Closed"; "Cancelled"; "Canceled"; "Duplicate"; "Done"]
  else if String.eqb kind "local" then ["completed"; "closed"; "cancelled"; "failed"; "abandoned"]
  else ["closed"].

Record TrackerConfig := mkTrackerConfig {
  tc_kind : string;
  tc_endpoint : string;
  tc_api_key : option string;
  tc_project_slug : option pyval;
  tc_owner : option string;
  tc_repo : option string;
  tc_clone_url : option string;
  tc_assignee : option string;
  tc_branch_prefix : option string;
  tc_issues_path : option string;
  tc_active_states : list string;
  tc_terminal_states : list string;
  tc_skip_labels : list string;
  tc_require_any_labels : list string;
  tc_title_prefixes : list string;
  tc_title_prefix_match : string;
}.

(** [validate_tracker_config] *)
Definition validate_tracker_config (t : TrackerConfig) : outcome cerr unit :=
  info ← tracker_kind_info (Some (tc_kind t));
  let missing what := Raise (TrackerConfigError (ki_label info +:+ what)) in
  if String.eqb (ki_kind info) "local" then
    if is_some (given (tc_issues_path t)) then Ret tt else missing " issues path not configured"
  else if negb (is_some (given (tc_api_key t))) then missing " API key not configured"
  else if ki_requires_project_slug info && negb (default false (truthy <$> tc_project_slug t)) then
    missing " project slug not configured"
  else if ki_requires_repository info
          && negb (is_some (given (tc_owner t)) && is_some (given (tc_repo t))) then
    missing " repository not configured"
  else Ret tt.

(** [repository_clone_url_for_tracker] *)
Definition repository_clone_url_for_tracker (t : TrackerConfig) : outcome cerr (option string) :=
  match given (tc_clone_url t) with
  | Some url => Ret (Some url)
  | None =>
      info ← tracker_kind_info (Some (tc_kind t));
      Ret (match given (ki_default_clone_base_url info), given (tc_owner t), given (tc_repo t) with
           | Some base, Some owner, Some repo =>
               if ki_requires_repository info
               then Some (base +:+ "/" +:+ owner +:+ "/" +:+ repo +:+ ".git") else None
           | _, _, _ => None
           end)
  end.

(** ** The sections *)

Record WorkspaceSettings := mkWorkspaceSettings {
  wc_root : string;
  wc_hooks : pyval;
  wc_repo_clone_url : option string;
  wc_upstream_clone_url : option string;
  wc_clone_depth : pyval;
  wc_checkout_issue_branch : pyval;
  wc_git_username : option string;
  wc_git_email : option string;
  wc_git_token : option string;
  wc_gitignore_patterns : list string;
  wc_strategy : string;
  wc_base_branch : option string;
  wc_integration_branch : option string;
  wc_require_clean_start : bool;
  wc_require_clean_between_issues : bool;
  wc_preserve_on_terminal : bool;
  wc_preserve_on_failure : bool;
  wc_preserve_on_abandoned : bool;
  wc_preserve_on_timeout : bool;
  wc_sequential_lock : bool;
  wc_python_executable : string;
  wc_python_auto_detect : bool;
  wc_python_detect_files : list string;
}.

Record VerificationConfig := mkVerificationConfig {
  vc_timeout_ms : pyval;
  vc_regression_guard : bool;
  vc_fallback_test_command : string;
}.

Record ReproFirstConfig := mkReproFirst {
  rp_enabled : bool;
  rp_timeout_ms : Z;
  rp_command_timeout_ms : Z;
  rp_labels : list string;
}.

Record ProviderConfig := mkProvider {
  pv_api : option string;
  pv_base_url : option string;
  pv_api_key : option string;
  pv_models : list pyval;
  pv_model_overrides : dict string (dict string pyval);
  pv_headers : dict string string;
  pv_default_context_window : option Z;
  pv_default_max_tokens : option Z;
  pv_display_name : option string;
}.

Record AgentSettings := mkAgentSettings {
  ag_max_concurrent_agents : pyval;
  ag_max_turns : pyval;
  ag_max_retry_backoff_ms : pyval;
  ag_max_retry_attempts : pyval;
  ag_max_turns_retry_delay_ms : pyval;
  ag_by_state : dict string Z;
  ag_provider : string;
  ag_permission_mode : string;
  ag_audit_log : string;
  ag_test_command : string;
  ag_build_command : string;
  ag_lint_command : string;
  ag_verification : VerificationConfig;
  ag_repro_first : ReproFirstConfig;
  ag_max_retries_per_issue : pyval;
  ag_allow_anyone_to_retry : bool;
  ag_rate_limit_base_delay_ms : pyval;
  ag_rate_limit_max_backoff_ms : pyval;
  ag_rate_limit_exponential_factor : Q;
  ag_rate_limit_max_retries : pyval;
  ag_delay_between_requests_ms : pyval;
  ag_run_timeout_ms : pyval;
  ag_stall_timeout_ms : pyval;
  ag_first_turn_timeout_ms : pyval;
  ag_stall_warn_ms : pyval;
  ag_allowed_changed_files : list string;
  ag_review_required : bool;
  ag_auto_approve : bool;
  ag_coordinator_mode : bool;
  ag_phases : list string;
  ag_fallback_to_phase_step : bool;
  ag_max_no_op_turns : Z;
  ag_loop_detection_window : Z;
  ag_loop_detection_threshold : Z;
  ag_max_tools_per_turn : Z;
  ag_model : option string;
  ag_model_aliases : dict string string;
  ag_base_url : option string;
  ag_api_key : option string;
  ag_cordis : option string;
  ag_runtime_bin : option string;
  ag_python_executable : string;
  ag_stage_overrides : dict string (dict string string);
  ag_providers : dict string ProviderConfig;
  ag_env : dict string string;
  ag_clarification_enabled : bool;
  ag_clarification_timeout_local : Q;
  ag_clarification_timeout_author : Q;
  ag_max_questions_per_issue : Z;
  ag_clarification_operator_priority : bool;
  ag_clarification_grace_ms : Q;
  ag_clarification_escalation : string;
}.

Record SandboxSettings := mkSandbox {
  sb_command : pyval;
  sb_approval_policy : pyval;
  sb_thread_sandbox : pyval;
  sb_turn_sandbox_policy : option pyval;
  sb_turn_timeout_ms : pyval;
  sb_read_timeout_ms : pyval;
  sb_stall_timeout_ms : pyval;
}.

Record HooksSettings := mkHooks {
  hk_after_create : option string;
  hk_before_run : option string;
  hk_after_run : option string;
  hk_before_remove : option string;
  hk_pre_commit : option string;
  hk_pre_push : option string;
  hk_post_sync : option string;
  hk_timeout_ms : pyval;
}.

Record FeedbackSettings := mkFeedbackSettings {
  fs_enabled : bool;
  fs_mode : string;
  fs_poll_interval_ms : pyval;
  fs_max_items : pyval;
  fs_include_ci_failures : bool;
  fs_reply_to_comments : bool;
  fs_ignore_authors : list string;
  fs_ignored_commands : list string;
  fs_ignored_sources : list string;
  fs_ignored_patterns : list string;
  fs_bot_login : option string;
  fs_max_log_chars : pyval;
  fs_max_attempts : pyval;
  fs_pending_timeout : pyval;
}.

Record ModesConfig := mkModes {
  md_enabled : list string;
  md_default : string;
  md_router_kind : string;
  md_router_model : string;
  md_router_endpoint : string;
  md_router_api_key_env : string;
  md_router_timeout_seconds : Q;
  md_router_min_confidence : Q;
  md_pipeline_stages : list string;
  md_pipeline_max_retries : Z;
  md_pipeline_stage_models : dict string string;
  md_pipeline_stage_max_turns : dict string Z;
  md_pipeline_stage_specs : dict string (string * dict string pyval);
  md_pipeline_handoff : string;
  md_debate_proposers : list string;
  md_debate_judge_model : option string;
  md_debate_proposer_models : dict string string;
  md_debate_isolation : string;
  md_debate_parallel : bool;
  md_debate_judge_mode : string;
  md_swarm_max_subtasks : Z;
  md_swarm_max_parallel : Z;
  md_swarm_max_waves : Z;
}.

Record RulesConfig := mkRules {
  ru_enabled : bool; ru_path : string; ru_max_rules : Z; ru_min_confidence : string }.

Record ExperienceConfig := mkExperience {
  ex_enabled : bool; ex_distill : Z; ex_learnings : Z; ex_window : Z; ex_allowlist : list string }.

(** [backfill_days]: [None] stands for ["all"]. *)
Record TelemetryConfig := mkTelemetry {
  te_reporting_enabled : bool;
  te_report_owner : string;
  te_report_repo : string;
  te_issue_title : string;
  te_api_key : string;
  te_env_label : string;
  te_backfill_days : option Z;
}.

Record ScanSettings := mkScanSettings {
  cs_enabled : bool;
  cs_poll_interval_ms : pyval;
  cs_max_attempts : pyval;
  cs_max_prs : pyval;
  cs_use_force_push : bool;
  cs_bot_login : option string;
  cs_scan_states : list string;
}.

Record ClarifierSettings := mkClarifier {
  cr_enabled : bool;
  cr_block_on_unclear : bool;
  cr_author_first : bool;
  cr_max_questions : Z;
  cr_max_rounds : Z;
  cr_min_confidence : Q;
  cr_max_input_tokens : Z;
  cr_max_output_tokens : Z;
  cr_fail_open : bool;
  cr_cache_enabled : bool;
  cr_max_analyses_per_poll : Z;
  cr_workspace_focus_enabled : bool;
  cr_remote_label : string;
}.

Record WorkflowConfig := mkWorkflowConfig {
  wf_tracker : TrackerConfig;
  wf_polling_interval_ms : pyval;
  wf_workspace : WorkspaceSettings;
  wf_ssh_hosts : pyval;
  wf_max_per_host : option pyval;
  wf_agent : AgentSettings;
  wf_sandbox : SandboxSettings;
  wf_hooks : HooksSettings;
  wf_review_feedback : FeedbackSettings;
  wf_rules : RulesConfig;
  wf_experience : ExperienceConfig;
  wf_telemetry : TelemetryConfig;
  wf_dashboard_enabled : pyval;
  wf_refresh_ms : pyval;
  wf_render_interval_ms : pyval;
  wf_server_port : option pyval;
  wf_server_host : pyval;
  wf_modes : ModesConfig;
  wf_pr_template : string * string;
  wf_pr_conflict_scan : ScanSettings;
  wf_clarifier : ClarifierSettings;
}.

(** ** Reading values *)

Section load.
Context (X : Text) (environ : string -> option string) (expanduser : string -> string).

Abbreviation R A := (outcome cerr A).

(** [v.get] needs a mapping. *)
Definition as_mapping (v : option pyval) : R section :=
  match v with
  | None => Ret []
  | Some (PDict d) => Ret d
  | Some _ => Raise (CAttributeError "get")
  end.
(** [v or {}] as a mapping *)
Definition mapping_or (v : option pyval) : R section :=
  match v with
  | Some v => if truthy v then as_mapping (Some v) else Ret []
  | None => Ret []
  end.

Definition get_or (k : string) (dflt : pyval) (s : section) : pyval := default dflt (dget k s).
Definition bool_or (k : string) (dflt : bool) (s : section) : bool :=
  match dget k s with Some v => truthy v | None => dflt end.
(** [str(s.get(k, dflt)).strip()] *)
Definition text_or (k dflt : string) (s : section) : string := strip (py_str X (get_or k (PStr dflt) s)).

(** [int(v)] *)
Definition to_int (v : pyval) : R Z :=
  match v with
  | PInt z => Ret z
  | PBool b => Ret (if b then 1 else 0)
  | PFloat q => Ret (Z.quot (Qnum q) (QDen q))
  | PStr s => match py_int (strip s) with Some z => Ret z | None => Raise (CValueError "invalid literal for int()") end
  | _ => Raise (CTypeError "int() argument")
  end.
Definition int_or (k : string) (dflt : Z) (s : section) : R Z := to_int (get_or k (PInt dflt) s).

(** [float(v)] *)
Definition to_float_r (v : pyval) : R Q :=
  match to_float X v, v with
  | inr q, _ => Ret q
  | inl true, _ => Raise COverflowError
  | inl false, PStr _ => Raise (CValueError "could not convert string to float")
  | inl false, _ => Raise (CTypeError "float() argument")
  end.
Definition float_or (k : string) (dflt : Q) (s : section) : R Q := to_float_r (get_or k (PFloat dflt) s).

(** [try: m except (TypeError, ValueError): dflt] *)
Definition or_default {A} (dflt : A) (m : R A) : R A :=
  match m with
  | Raise (CTypeError _) | Raise (CValueError _) => Ret dflt
  | _ => m
  end.

(** [^[A-Za-z_][A-Za-z0-9_]*$], which also allows a line feed at the end *)
Definition name_start (ch : ascii) : bool :=
  let n := N_of_ascii ch in
  ((65 <=? n)%N && (n <=? 90)%N) || ((97 <=? n)%N && (n <=? 122)%N) || (n =? 95)%N.
Fixpoint name_rest (s : string) : bool :=
  match s with
  | EmptyString => true
  | String ch s' =>
      if name_start ch || is_digit ch then name_rest s' else byte_is 10 ch && String.eqb s' ""
  end.
Definition is_env_name (s : string) : bool :=
  match s with String ch s' => name_start ch && name_rest s' | EmptyString => false end.

(** [_resolve_env_value] *)
Definition resolve_env_text (s : string) : option string :=
  match s with
  | String ch name =>
      if Ascii.eqb ch "$"%char && is_env_name name then given (environ name) else Some s
  | EmptyString => Some s
  end.
Definition resolve_env_value (v : option pyval) : R (option string) :=
  match v with
  | None => Ret None
  | Some (PStr s) => Ret (resolve_env_text s)
  | Some _ => Raise (CAttributeError "startswith")
  end.
Definition env_of (k : string) (s : section) : R (option string) := resolve_env_value (dget k s).

(** [_resolve_first_env] *)
Fixpoint resolve_first_env (names : list string) : option string :=
  match names with
  | [] => None
  | n :: names' => match given (environ n) with Some v => Some v | None => resolve_first_env names' end
  end.

(** [_expand_path] *)
Definition expand_path (v : option pyval) (fallback : string) : R string :=
  match v with
  | None => Ret fallback
  | Some v =>
      if negb (truthy v) then Ret fallback
      else
        resolved ← resolve_env_value (Some v);
        Ret (match given resolved with Some p => expanduser p | None => fallback end)
  end.

(** [_normalize_string_list] *)
Definition normalize_string_list (v : option pyval) (dflt : list string) : list string :=
  match v with
  | Some (PStr s) => match given (Some (strip s)) with Some t => [t] | None => [] end
  | Some (PList l) => List.filter (fun t => negb (String.eqb t "")) (map (fun i => strip (py_str X i)) l)
  | _ => dflt
  end.
Definition list_of (k : string) (dflt : list string) (s : section) : list string :=
  normalize_string_list (dget k s) dflt.

(** A value of a fixed set, or the default: [str(v or dflt).strip().lower()] *)
Definition choice (allowed : list string) (dflt : string) (v : option pyval) : string :=
  let s := match v with Some v => if truthy v then lower (strip (py_str X v)) else dflt | None => dflt end in
  if mem s allowed then s else dflt.
(** [str(s.get(k, dflt)).strip().lower()], or the default when unknown *)
Definition choice_or (allowed : list string) (dflt k : string) (s : section) : string :=
  let t := lower (text_or k dflt s) in if mem t allowed then t else dflt.

(** [_normalize_workspace_strategy] *)
Definition normalize_workspace_strategy (v : option pyval) : R string :=
  let s := match v with
           | Some v => if truthy v then lower (strip (py_str X v)) else "isolated"
           | None => "isolated"
           end in
  if mem s ["isolated"; "shared"; "sequential"] then Ret s
  else Raise (CValueError "workspace.strategy must be one of: isolated, shared, sequential").

(** [_normalize_state_limits] *)
Definition state_limit (v : pyval) : option Z :=
  match v with
  | PInt z => if 0 <? z then Some z else None
  | PBool true => Some 1
  | _ => None
  end.
Definition normalize_state_limits (v : option pyval) : R (dict string Z) :=
  limits ← mapping_or v;
  Ret (fold_left (fun out kv =>
         let key := lower (strip (fst kv)) in
         match state_limit (snd kv) with
         | Some z => if String.eqb key "" then out else dset key z out
         | None => out
         end) limits []).

(** [_normalize_model_map], [_normalize_int_map] *)
Definition normalize_model_map (v : option pyval) : dict string string :=
  match v with
  | Some (PDict d) =>
      fold_left (fun out kv =>
        let val := if is_none (snd kv) then "" else strip (py_str X (snd kv)) in
        match given (Some (strip (fst kv))), given (Some val) with
        | Some key, Some val => dset key val out
        | _, _ => out
        end) d []
  | _ => []
  end.
Definition normalize_int_map (v : option pyval) (min_value : Z) : dict string Z :=
  match v with
  | Some (PDict d) =>
      fold_left (fun out kv =>
        match given (Some (strip (fst kv))), to_int (snd kv) with
        | Some key, Ret z => if z <? min_value then out else dset key z out
        | _, _ => out
        end) d []
  | _ => []
  end.

(** [_normalize_stage_specs]: kind and configuration of the stages *)
Definition normalize_stage_specs (v : option pyval) : dict string (string * dict string pyval) :=
  match v with
  | Some (PDict d) =>
      fold_left (fun out kv =>
        match snd kv with
        | PDict spec =>
            let kind := lower (text_or "kind" "agent" spec) in
            if mem kind ["agent"; "debate"; "coordinator"] then
              dset (strip (fst kv)) (kind, match dget "config" spec with Some (PDict c) => c | _ => [] end) out
            else out
        | _ => out
        end) d []
  | _ => []
  end.

(** [_resolve_orchestrator_permission_mode] *)
Definition CANONICAL_MODES : dict string string :=
  [("acceptedits", "acceptEdits"); ("bypasspermissions", "bypassPermissions"); ("default", "default");
   ("dontask", "dontAsk"); ("plan", "plan")].
Definition resolve_permission_mode (v : option pyval) (is_orchestrator : bool) : string :=
  let raw := match v with Some v => if truthy v then strip (py_str X v) else "dontAsk" | None => "dontAsk" end in
  let normalized := default raw (dget (lower raw) CANONICAL_MODES) in
  if is_orchestrator && String.eqb normalized "dontAsk" then "bypassPermissions" else normalized.

(** [_resolve_audit_log] *)
Definition resolve_audit_log (v : option pyval) : string := choice ["none"; "minimal"; "full"] "minimal" v.

(** [_parse_backfill_days]; [None] for ["all"] *)
Definition parse_backfill_days (v : pyval) : R (option Z) :=
  let days := z ← to_int v;
              if z <? 1 then Raise (CValueError "telemetry.backfill_days must be >= 1 or 'all'") else Ret (Some z) in
  match v with
  | PStr s => if String.eqb (lower (strip s)) "all" then Ret None else days
  | _ => days
  end.

(** [os.path.join(os.environ.get("TMPDIR", "/tmp"), "orchestratord_workspaces")] *)
Definition ends_with_slash (s : string) : bool :=
  match last (String.list_ascii_of_string s) with Some ch => Ascii.eqb ch "/"%char | None => true end.
Definition default_tmp_workspace : string :=
  let base := default "/tmp" (environ "TMPDIR") in
  if ends_with_slash base then base +:+ "orchestratord_workspaces"
  else base +:+ "/orchestratord_workspaces".

(** [(str(v).strip() or None) if v else None] *)
Definition text_if (k : string) (s : section) : option string :=
  match dget k s with
  | Some v => if truthy v then given (Some (strip (py_str X v))) else None
  | None => None
  end.
(** [str(s.get(k, "") or "")] *)
Definition text_of (k : string) (s : section) : string :=
  match dget k s with Some v => if truthy v then py_str X v else "" | None => "" end.
(** [str(s.get(k, dflt)).strip() or dflt] *)
Definition text_or_else (k dflt : string) (s : section) : string :=
  default dflt (given (Some (text_or k dflt s))).
(** [_resolve_env_value(s.get(k)) or None], [... or ""] *)
Definition env_if (k : string) (s : section) : R (option string) :=
  v ← env_of k s; Ret (given v).
Definition env_or (k dflt : string) (s : section) : R string :=
  v ← env_of k s; Ret (default dflt (given v)).

(** [{str(k): str(v) for k, v in d.items() if v is not None}] *)
Definition text_map (d : section) : dict string string :=
  fold_left (fun out kv => if is_none (snd kv) then out else dset (fst kv) (py_str X (snd kv)) out) d [].

(** ** Sections *)

(** A route of [_parse_providers_config] *)
Definition positive_int (v : option pyval) : option Z :=
  match v with Some (PInt z) => if z <=? 0 then None else Some z | _ => None end.
Definition parse_provider (route_raw : section) : ProviderConfig :=
  mkProvider
    (match dget "api" route_raw with
     | Some v => if truthy v then Some (strip (py_str X v)) else None
     | None => None
     end)
    (text_if "base_url" route_raw)
    (text_if "api_key" route_raw)
    (match dget "models" route_raw with Some (PList l) => l | _ => [] end)
    (match dget "model_overrides" route_raw with
     | Some (PDict d) =>
         fold_left (fun out kv => match snd kv with PDict o => dset (fst kv) o out | _ => out end) d []
     | _ => []
     end)
    (match dget "headers" route_raw with Some (PDict d) => text_map d | _ => [] end)
    (positive_int (dget "default_context_window" route_raw))
    (positive_int (dget "default_max_tokens" route_raw))
    (text_if "display_name" route_raw).

(** [_parse_providers_config] *)
Definition parse_providers_config (v : option pyval) : dict string ProviderConfig :=
  match v with
  | Some (PDict d) =>
      fold_left (fun out kv =>
        match given (Some (strip (fst kv))), snd kv with
        | Some route, PDict route_raw => dset route (parse_provider route_raw) out
        | _, _ => out
        end) d []
  | _ => []
  end.

(** [_parse_repro_first_config] *)
Definition positive_or (k : string) (dflt : Z) (s : section) : R Z :=
  z ← or_default dflt (int_or k dflt s);
  Ret (if 0 <? z then z else dflt).
Definition parse_repro_first_config (v : option pyval) : R ReproFirstConfig :=
  match v with
  | Some (PDict raw) =>
      timeout ← positive_or "timeout_ms" 900000 raw;
      command ← positive_or "command_timeout_ms" 300000 raw;
      Ret (mkReproFirst (bool_or "enabled" false raw) timeout command (list_of "labels" [] raw))
  | _ => Ret (mkReproFirst false 900000 300000 [])
  end.

(** [max(0.0, min(1.0, q))], [max(1.0, q)] *)
Definition unit_clamp (q : Q) : Q :=
  let m := if negb (Qle_bool 1 q) then q else 1%Q in if negb (Qle_bool m 0) then m else 0%Q.
Definition at_least_one (q : Q) : Q := if negb (Qle_bool q 1) then q else 1%Q.
Definition int_max (low : Z) (k : string) (dflt : Z) (s : section) : R Z :=
  z ← int_or k dflt s; Ret (Z.max low z).

(** [_normalize_debate_isolation], [_normalize_debate_judge_mode],
    [_normalize_title_prefix_match] *)
Definition normalize_debate_isolation (v : option pyval) : string :=
  choice ["reset"; "worktree"; "none"] "reset" v.
Definition normalize_debate_judge_mode (v : option pyval) : string :=
  choice ["pick"; "synthesize"] "pick" v.
Definition normalize_title_prefix_match (v : option pyval) : string := choice ["any"; "all"] "any" v.

(** [int(pipeline_raw.get("max_retries_per_stage", 1) or 0)] *)
Definition stage_retries (s : section) : R Z :=
  let v := get_or "max_retries_per_stage" (PInt 1) s in
  z ← (if truthy v then to_int v else Ret 0);
  Ret (Z.max 0 z).

(** [_parse_modes_config] *)
Definition parse_modes_config (raw : section) : R ModesConfig :=
  router_raw ← mapping_or (dget "router" raw);
  let router_kind := choice_or ["none"; "heuristic"; "llm"] "none" "kind" router_raw in
  min_conf ← or_default (1 # 2)%Q (float_or "min_confidence" (1 # 2)%Q router_raw);
  router_timeout ← or_default 15%Q (float_or "timeout_seconds" 15%Q router_raw);
  pipeline_raw ← mapping_or (dget "pipeline" raw);
  let handoff := choice_or ["prompt"; "mailbox"] "prompt" "handoff" pipeline_raw in
  retries ← stage_retries pipeline_raw;
  debate_raw ← mapping_or (dget "debate" raw);
  swarm_raw ← mapping_or (dget "swarm" raw);
  subtasks ← int_max 1 "max_subtasks" 8 swarm_raw;
  parallel ← int_max 1 "max_parallel" 3 swarm_raw;
  waves ← int_max 1 "max_waves" 6 swarm_raw;
  Ret (mkModes
    (list_of "enabled" ["single"] raw)
    (default "single" (given (Some (lower (text_or "default" "single" raw)))))
    router_kind
    (text_or_else "model" "deepseek-v4-flash" router_raw)
    (text_or_else "endpoint" "https://api.deepseek.com/chat/completions" router_raw)
    (text_or_else "api_key_env" "DEEPSEEK_API_KEY" router_raw)
    (at_least_one router_timeout)
    (unit_clamp min_conf)
    (list_of "stages" ["analyzer"; "implementer"; "tester"] pipeline_raw)
    retries
    (normalize_model_map (dget "stage_models" pipeline_raw))
    (normalize_int_map (dget "stage_max_turns" pipeline_raw) 1)
    (normalize_stage_specs (dget "stage_specs" pipeline_raw))
    handoff
    (list_of "proposers" ["proposer_a"; "proposer_b"] debate_raw)
    (match dget "judge_model" debate_raw with
     | Some v => if truthy v then Some (strip (py_str X v)) else None
     | None => None
     end)
    (normalize_model_map (dget "proposer_models" debate_raw))
    (normalize_debate_isolation (dget "isolation" debate_raw))
    (bool_or "parallel" false debate_raw)
    (normalize_debate_judge_mode (dget "judge_mode" debate_raw))
    subtasks parallel waves).

(** The argument of [normalize_tracker_kind]: [(kind or "linear").strip()] *)
Definition kind_text (v : option pyval) : R (option string) :=
  match v with
  | None => Ret None
  | Some (PStr s) => Ret (Some s)
  | Some v => if truthy v then Raise (CAttributeError "strip") else Ret None
  end.

(** The tracker section of [from_dict] *)
Definition env_or_first (k : string) (names : list string) (s : section) : R (option string) :=
  v ← env_of k s;
  Ret (match given v with Some t => Some t | None => resolve_first_env names end).
Definition first_of (a b : option pyval) : option pyval := match a with Some v => Some v | None => b end.
Definition parse_tracker (raw : section) : R TrackerConfig :=
  k ← kind_text (dget "kind" raw);
  kind ← normalize_tracker_kind k;
  info ← tracker_kind_info (Some kind);
  endpoint ← env_or "endpoint" (ki_default_endpoint info) raw;
  api_key ← env_or_first "api_key" (ki_api_key_env_vars info) raw;
  owner ← env_or_first "owner" (ki_owner_env_vars info) raw;
  repo ← env_or_first "repo" (ki_repo_env_vars info) raw;
  clone_url ← env_of "clone_url" raw;
  assignee ← env_or_first "assignee" (ki_assignee_env_vars info) raw;
  branch_prefix ← env_of "branch_prefix" raw;
  issues_path ← expand_path (dget "issues_path" raw) "";
  Ret (mkTrackerConfig kind endpoint api_key (dget "project_slug" raw) owner repo clone_url assignee
    branch_prefix (given (Some issues_path))
    (list_of "active_states" (default_active_states kind) raw)
    (list_of "terminal_states" (default_terminal_states kind) raw)
    (list_of "skip_labels" [] raw)
    (list_of "require_any_labels" [] raw)
    (list_of "title_prefixes" [] raw)
    (normalize_title_prefix_match
       (first_of (dget "title_prefix_match" raw)
          (first_of (dget "title_prefix_match_mode" raw) (dget "title_prefix_mode" raw))))).

(** The workspace section of [from_dict] *)
Definition GITIGNORE_DEFAULT : list string :=
  [".orchestrator_control"; ".operator_hints.md"; ".reports"; ".sessions"; "*.pyc"; "__pycache__";
   "*.egg-info"; ".pytest_cache"; ".mypy_cache"; ".ruff_cache"; "*.log"].
Definition parse_workspace (raw : section) : R WorkspaceSettings :=
  root ← expand_path (dget "root" raw) default_tmp_workspace;
  strategy ← normalize_workspace_strategy (dget "strategy" raw);
  repo_clone_url ← env_of "repo_clone_url" raw;
  upstream ← env_of "upstream_clone_url" raw;
  username ← env_of "git_username" raw;
  email ← env_of "git_email" raw;
  token ← env_of "git_token" raw;
  base_branch ← env_of "base_branch" raw;
  integration ← env_of "integration_branch" raw;
  Ret (mkWorkspaceSettings root (get_or "hooks" (PDict []) raw) repo_clone_url upstream
    (get_or "clone_depth" (PInt 1) raw) (get_or "checkout_issue_branch" (PBool true) raw)
    username email (given token)
    (list_of "gitignore_patterns" GITIGNORE_DEFAULT raw)
    strategy base_branch integration
    (bool_or "require_clean_start" true raw)
    (bool_or "require_clean_between_issues" true raw)
    (bool_or "preserve_on_terminal" true raw)
    (bool_or "preserve_on_failure" true raw)
    (bool_or "preserve_on_abandoned" true raw)
    (bool_or "preserve_on_timeout" true raw)
    (bool_or "sequential_lock" true raw)
    "" true [".python-version"; "pyvenv.cfg"; ".venv/pyvenv.cfg"; "Pipfile"; "environment.yml"]).

(** The stage overrides of [from_dict]: [agent.stages] *)
Definition stage_override (cfg : section) : R (dict string string) :=
  provider ← env_if "provider" cfg;
  model ← env_if "model" cfg;
  Ret (match provider with Some p => [("provider", p)] | None => [] end
       ++ match model with Some m => [("model", m)] | None => [] end).
Fixpoint stage_overrides (stages : section) (out : dict string (dict string string)) :
  R (dict string (dict string string)) :=
  match stages with
  | [] => Ret out
  | (name, PDict cfg) :: stages' =>
      o ← stage_override cfg;
      stage_overrides stages' (if is_empty o then out else dset name o out)
  | _ :: stages' => stage_overrides stages' out
  end.

(** [VerificationConfig] of [from_dict] *)
Definition parse_verification (raw : section) : R VerificationConfig :=
  command ← env_or "fallback_test_command" "" raw;
  Ret (mkVerificationConfig (get_or "timeout_ms" (PInt 600000) raw) (bool_or "regression_guard" true raw)
         command).

(** The agent section of [from_dict] *)
Definition parse_agent (is_orchestrator : bool) (raw : section) : R AgentSettings :=
  stages_raw ← mapping_or (dget "stages" raw);
  overrides ← stage_overrides stages_raw [];
  by_state ← normalize_state_limits (dget "max_concurrent_agents_by_state" raw);
  test_command ← env_or "test_command" "" raw;
  build_command ← env_or "build_command" "" raw;
  lint_command ← env_or "lint_command" "" raw;
  verification_raw ← as_mapping (dget "verification" raw);
  verification ← parse_verification verification_raw;
  repro_first ← parse_repro_first_config (dget "repro_first" raw);
  factor ← float_or "rate_limit_exponential_factor" 2 raw;
  no_op ← int_or "max_no_op_turns" 3 raw;
  window ← int_or "loop_detection_window" 5 raw;
  threshold ← int_or "loop_detection_threshold" 3 raw;
  tools ← int_or "max_tools_per_turn" 50 raw;
  model ← env_if "model" raw;
  base_url ← env_if "base_url" raw;
  api_key ← env_if "api_key" raw;
  cordis ← env_if "cordis" raw;
  runtime_bin ← env_if "runtime_bin" raw;
  env ← mapping_or (dget "env" raw);
  timeout_local ← to_float_r (get_or "clarification_timeout_local" (PInt 1800) raw);
  timeout_author ← to_float_r (get_or "clarification_timeout_author" (PInt 259200) raw);
  questions ← int_or "max_questions_per_issue" 3 raw;
  grace ← to_float_r (get_or "clarification_simultaneous_grace_ms" (PInt 5000) raw);
  Ret (mkAgentSettings
    (get_or "max_concurrent_agents" (PInt 10) raw)
    (get_or "max_turns" (PInt 600) raw)
    (get_or "max_retry_backoff_ms" (PInt 300000) raw)
    (get_or "max_retry_attempts" (PInt 5) raw)
    (get_or "max_turns_retry_delay_ms" (PInt 30000) raw)
    by_state
    (strip (text_of "provider" raw))
    (resolve_permission_mode (dget "permission_mode" raw) is_orchestrator)
    (resolve_audit_log (dget "audit_log" raw))
    test_command build_command lint_command verification repro_first
    (get_or "max_retries_per_issue" (PInt 3) raw)
    (bool_or "allow_anyone_to_retry" false raw)
    (get_or "rate_limit_base_delay_ms" (PInt 30000) raw)
    (get_or "rate_limit_max_backoff_ms" (PInt 600000) raw)
    factor
    (get_or "rate_limit_max_retries" (PInt 40) raw)
    (get_or "delay_between_requests_ms" (PInt 2000) raw)
    (get_or "run_timeout_ms" (PInt 1800000) raw)
    (get_or "stall_timeout_ms" (PInt 300000) raw)
    (get_or "first_turn_timeout_ms" (PInt 0) raw)
    (get_or "stall_warn_ms" (PInt 30000) raw)
    (list_of "allowed_changed_files" [] raw)
    (bool_or "review_required" false raw)
    (bool_or "auto_approve" false raw)
    (bool_or "coordinator_mode" false raw)
    (list_of "phases" [] raw)
    (bool_or "fallback_to_phase_step" false raw)
    no_op window threshold tools
    model
    (normalize_model_map (dget "model_aliases" raw))
    base_url api_key cordis runtime_bin
    (strip (text_of "python_executable" raw))
    overrides
    (parse_providers_config (dget "providers" raw))
    (text_map env)
    (bool_or "clarification_enabled" true raw)
    timeout_local timeout_author questions
    (bool_or "clarification_operator_priority" true raw)
    grace
    (py_str X (get_or "clarification_escalation" (PStr "skip") raw))).

(** [v == 1] *)
Definition is_one (v : pyval) : bool :=
  match v with
  | PInt z => z =? 1
  | PBool b => b
  | PFloat q => Qeq_bool q 1
  | _ => false
  end.

(** The checks of the sequential strategy *)
Definition check_sequential (ws : WorkspaceSettings) (ag : AgentSettings) : R unit :=
  if String.eqb (wc_strategy ws) "sequential" then
    if negb (is_one (ag_max_concurrent_agents ag)) then
      Raise (CValueError "workspace.strategy=sequential requires agent.max_concurrent_agents=1")
    else if existsb (fun kv => 1 <? snd kv) (ag_by_state ag) then
      Raise (CValueError
        "workspace.strategy=sequential requires all agent.max_concurrent_agents_by_state values to be <= 1")
    else Ret tt
  else Ret tt.

Definition parse_sandbox (raw : section) : SandboxSettings :=
  mkSandbox
    (get_or "command" (PStr "") raw)
    (get_or "approval_policy" (PStr "never") raw)
    (get_or "thread_sandbox" (PStr "workspace-write") raw)
    (dget "turn_sandbox_policy" raw)
    (get_or "turn_timeout_ms" (PInt 3600000) raw)
    (get_or "read_timeout_ms" (PInt 5000) raw)
    (get_or "stall_timeout_ms" (PInt 300000) raw).

Definition parse_hooks (raw : section) : R HooksSettings :=
  after_create ← env_of "after_create" raw;
  before_run ← env_of "before_run" raw;
  after_run ← env_of "after_run" raw;
  before_remove ← env_of "before_remove" raw;
  pre_commit ← env_of "pre_commit" raw;
  pre_push ← env_of "pre_push" raw;
  post_sync ← env_of "post_sync" raw;
  Ret (mkHooks after_create before_run after_run before_remove pre_commit pre_push post_sync
         (get_or "timeout_ms" (PInt 60000) raw)).

Definition parse_rules (raw : section) : R RulesConfig :=
  max_rules ← int_or "max_rules" 20 raw;
  Ret (mkRules (bool_or "enabled" false raw) (text_or "path" "" raw) max_rules
         (lower (text_or "min_confidence" "low" raw))).

Definition parse_experience (raw : section) : R ExperienceConfig :=
  distill ← int_or "friction_threshold_distill" 60 raw;
  learnings ← int_or "friction_threshold_learnings" 40 raw;
  window ← int_or "percentile_window" 20 raw;
  Ret (mkExperience (bool_or "enabled" false raw) distill learnings window
         (list_of "privacy_allowlist" [] raw)).

Definition parse_telemetry (raw : section) : R TelemetryConfig :=
  days ← parse_backfill_days (get_or "backfill_days" (PInt 1) raw);
  Ret (mkTelemetry (bool_or "reporting_enabled" false raw) (text_or "report_owner" "" raw)
         (text_or "report_repo" "" raw) (text_or "issue_title" "Orchestratord Telemetry" raw)
         (text_or "api_key" "" raw) (text_or "env_label" "" raw) days).

Definition parse_review_feedback (raw : section) : R FeedbackSettings :=
  bot_login ← env_of "bot_login" raw;
  Ret (mkFeedbackSettings
    (bool_or "enabled" false raw)
    (default "manual" (given (Some (lower (text_or "mode" "manual" raw)))))
    (get_or "poll_interval_ms" (PInt 60000) raw)
    (get_or "max_feedback_items_per_run" (PInt 20) raw)
    (bool_or "include_ci_failures" true raw)
    (bool_or "reply_to_comments" true raw)
    (list_of "ignore_authors" [] raw)
    (list_of "ignored_comment_commands" [] raw)
    (list_of "ignored_feedback_sources" [] raw)
    (list_of "ignored_body_patterns" [] raw)
    bot_login
    (get_or "max_log_chars_per_check" (PInt 12000) raw)
    (get_or "max_followup_attempts_per_pr" (PInt 5) raw)
    (get_or "pending_feedback_timeout_seconds" (PInt 600) raw)).

Definition parse_pr_template (v : option pyval) : string * string :=
  let raw := match v with Some (PDict d) => d | _ => [] end in
  (strip (text_of "title" raw), text_of "body" raw).

Definition parse_conflict_scan (raw : section) : R ScanSettings :=
  bot_login ← env_of "bot_login" raw;
  Ret (mkScanSettings (bool_or "enabled" false raw)
         (get_or "poll_interval_ms" (PInt 300000) raw)
         (get_or "max_rebase_attempts_per_issue" (PInt 3) raw)
         (get_or "max_prs_per_scan" (PInt 25) raw)
         (bool_or "use_force_push" false raw)
         bot_login
         (list_of "scan_states" ["open"] raw)).

Definition parse_clarifier (raw : section) : R ClarifierSettings :=
  max_questions ← int_max 1 "max_questions" 3 raw;
  max_rounds ← int_max 1 "max_rounds" 2 raw;
  min_confidence ← float_or "min_confidence" (7 # 10)%Q raw;
  max_input ← int_max 256 "max_input_tokens" 6000 raw;
  max_output ← int_max 128 "max_output_tokens" 800 raw;
  analyses ← int_max 1 "max_analyses_per_poll" 4 raw;
  Ret (mkClarifier (bool_or "enabled" false raw) (bool_or "block_on_unclear" true raw)
         (bool_or "author_first" true raw) max_questions max_rounds (unit_clamp min_confidence)
         max_input max_output (bool_or "fail_open" true raw) (bool_or "cache_enabled" true raw)
         analyses false "").

(** The part of [from_dict] after the layout is flat *)
Definition from_flat (raw : section) : R WorkflowConfig :=
  tracker_raw ← as_mapping (dget "tracker" raw);
  tracker ← parse_tracker tracker_raw;
  workspace_raw ← as_mapping (dget "workspace" raw);
  workspace ← parse_workspace workspace_raw;
  agent_raw ← as_mapping (dget "agent" raw);
  agent ← parse_agent (negb (is_empty tracker_raw)) agent_raw;
  _ ← check_sequential workspace agent;
  sandbox_raw ← (if default false (truthy <$> dget "sandbox" raw) then as_mapping (dget "sandbox" raw)
                 else mapping_or (dget "codex" raw));
  hooks_raw ← as_mapping (dget "hooks" raw);
  hooks ← parse_hooks hooks_raw;
  polling_raw ← as_mapping (dget "polling" raw);
  worker_raw ← as_mapping (dget "worker" raw);
  rules_raw ← as_mapping (dget "rules" raw);
  rules ← parse_rules rules_raw;
  experience_raw ← mapping_or (dget "experience" raw);
  experience ← parse_experience experience_raw;
  telemetry_raw ← as_mapping (dget "telemetry" raw);
  telemetry ← parse_telemetry telemetry_raw;
  review_feedback_raw ← as_mapping (dget "review_feedback" raw);
  review_feedback ← parse_review_feedback review_feedback_raw;
  observability_raw ← as_mapping (dget "observability" raw);
  server_raw ← as_mapping (dget "server" raw);
  modes_raw ← mapping_or (dget "modes" raw);
  modes ← parse_modes_config modes_raw;
  scan_raw ← as_mapping (dget "pr_conflict_scan" raw);
  scan ← parse_conflict_scan scan_raw;
  clarifier_raw ← mapping_or (dget "clarifier" raw);
  clarifier ← parse_clarifier clarifier_raw;
  Ret (mkWorkflowConfig tracker
    (get_or "interval_ms" (PInt 30000) polling_raw)
    workspace
    (get_or "ssh_hosts" (PList []) worker_raw)
    (dget "max_concurrent_agents_per_host" worker_raw)
    agent (parse_sandbox sandbox_raw) hooks review_feedback rules experience telemetry
    (get_or "dashboard_enabled" (PBool true) observability_raw)
    (get_or "refresh_ms" (PInt 1000) observability_raw)
    (get_or "render_interval_ms" (PInt 16) observability_raw)
    (dget "port" server_raw)
    (get_or "host" (PStr "127.0.0.1") server_raw)
    modes (parse_pr_template (dget "pr_template" raw)) scan clarifier).

(** [WorkflowConfig.from_dict] *)
Definition from_dict (raw : section) : R WorkflowConfig :=
  match normalize_keys false (drop_nil_values (PDict raw)) with
  | PDict d => flat ← lift_dual_format_sections d; from_flat flat
  | _ => Raise (CAttributeError "get")
  end.

(** [WorkflowConfig.resolve_turn_sandbox_policy] *)
Definition resolve_turn_sandbox_policy (c : WorkflowConfig) (workspace_path : option string) : pyval :=
  let dflt :=
    let root := default (wc_root (wf_workspace c)) (given workspace_path) in
    PDict [("type", PStr "workspaceWrite"); ("writableRoots", PList [PStr root]);
           ("readOnlyAccess", PDict [("type", PStr "fullAccess")]);
           ("networkAccess", PBool false); ("excludeTmpdirEnvVar", PBool false);
           ("excludeSlashTmp", PBool false)] in
  match sb_turn_sandbox_policy (wf_sandbox c) with
  | Some p => if truthy p then p else dflt
  | None => dflt
  end.

(** ** Peer settings ([PeerConfig.from_env]) *)

Record PeerConfig := mkPeerConfig {
  pc_listen : string;
  pc_redis_url : string;
  pc_trust_list : list string;
  pc_auto_schedule : bool;
  pc_max_turns : Z;
  pc_connect : Q;
  pc_hello : Q;
  pc_rps : Q;
  pc_burst : Z;
  pc_dedup_window : Q;
  pc_token_grace : Q;
}.

(** [_f] *)
Definition env_float (name : string) (dflt : Q) : Q :=
  match resolve_first_env [name] with
  | Some raw => default dflt (parse_float X raw)
  | None => dflt
  end.
Definition peer_from_env : PeerConfig :=
  mkPeerConfig
    (default "127.0.0.1:9001" (environ "ORCHESTRATORD_PEER_LISTEN"))
    (default "redis://localhost:6379/0" (environ "ORCHESTRATORD_REDIS_URL"))
    (List.filter (fun t => negb (String.eqb t ""))
       (map strip (split_char ","%char (default "" (environ "ORCHESTRATORD_PEER_TRUST")))))
    (bool_decide (environ "ORCHESTRATORD_PEER_AUTO_SCHEDULE" = Some "1"))
    (let q := env_float "ORCHESTRATORD_MAX_CONCURRENT_PEER_TURNS" 4 in Z.quot (Qnum q) (QDen q))
    (env_float "ORCHESTRATORD_PEER_CONNECT_TIMEOUT" 10)
    (env_float "ORCHESTRATORD_PEER_HELLO_TIMEOUT" 30)
    (env_float "ORCHESTRATORD_PEER_RATE_RPS" 100)
    (let q := env_float "ORCHESTRATORD_PEER_RATE_BURST" 200 in Z.quot (Qnum q) (QDen q))
    (env_float "ORCHESTRATORD_PEER_DEDUP_WINDOW" 30)
    (env_float "ORCHESTRATORD_PEER_TOKEN_GRACE_SECONDS" 300).
End load.

(** ** Permissions ([permission_mode_to_triple]) *)

Record permission_triple := mkTriple {
  pt_interactive : bool; pt_default_decision : string; pt_audit_log : string }.

Definition MODE_TRIPLES : dict string permission_triple :=
  [("default", mkTriple true "ask" "minimal"); ("plan", mkTriple true "ask" "minimal");
   ("acceptEdits", mkTriple true "allow" "minimal"); ("bypassPermissions", mkTriple false "allow" "minimal");
   ("dontAsk", mkTriple false "deny" "minimal"); ("auto", mkTriple false "allow" "minimal");
   ("bubble", mkTriple true "ask" "minimal")].

Definition permission_mode_to_triple (permission_mode : string) (interactive : option bool)
  (default_decision audit_log : option string) : permission_triple :=
  let mode := if String.eqb permission_mode "" then "default" else strip permission_mode in
  let defaults := default (mkTriple true "ask" "minimal") (dget mode MODE_TRIPLES) in
  let decision := default (pt_default_decision defaults) default_decision in
  mkTriple (default (pt_interactive defaults) interactive)
    (if mem decision ["allow"; "deny"; "ask"] then decision else pt_default_decision defaults)
    (default (pt_audit_log defaults) audit_log).
