(* ===== verification/ConfigFacts.v ===== *)
(** * Configuration: theorems
    ([src/orchestratord/config/schema.py])

    What a configuration that loads satisfies, the equivalence of the two
    layouts of the workflow file, and the sections that no layout reads. *)

From S2P Require Import Prelude Errors Dag StageRunner Checkpoint Regex ClarModel Workspace ConfigSchema.

Open Scope string_scope.
Open Scope list_scope.
Open Scope Z_scope.

(** ** Loading that returns *)

Lemma bind_is_ret {E A B} (m : outcome E A) (f : A -> outcome E B) b :
  (m ≫= f) = Ret b -> exists a, m = Ret a /\ f a = Ret b.
Proof. destruct m as [a|e]; [|done]. intros H. by exists a. Qed.

(** Opens every step of a computation that returns. *)
Ltac returned :=
  repeat match goal with
  | H : (_ ≫= _) = Ret _ |- _ =>
      let a := fresh "a" in let Ha := fresh "Ha" in
      apply bind_is_ret in H as (a & Ha & H)
  | H : Ret _ = Ret _ |- _ => injection H as H
  end; subst.

Lemma choice_in X allowed dflt v : dflt ∈ allowed -> choice X allowed dflt v ∈ allowed.
Proof. unfold choice. intros Hd. destruct (mem _ allowed) eqn:E; [|done]. by apply mem_true in E. Qed.
Lemma choice_or_in X allowed dflt k s : dflt ∈ allowed -> choice_or X allowed dflt k s ∈ allowed.
Proof. unfold choice_or. intros Hd. destruct (mem _ allowed) eqn:E; [|done]. by apply mem_true in E. Qed.

Lemma unit_clamp_range q : (0 <= unit_clamp q <= 1)%Q.
Proof.
  unfold unit_clamp. destruct (Qle_bool 1 q) eqn:E1; simpl.
  - split; discriminate.
  - destruct (Qle_bool q 0) eqn:E0; simpl; [split; discriminate|].
    assert (~ (1 <= q)%Q) by (intros H; apply Qle_bool_iff in H; congruence).
    assert (~ (q <= 0)%Q) by (intros H'; apply Qle_bool_iff in H'; congruence). lra.
Qed.
Lemma at_least_one_range q : (1 <= at_least_one q)%Q.
Proof.
  unfold at_least_one. destruct (Qle_bool q 1) eqn:E; simpl; [discriminate|].
  assert (~ (q <= 1)%Q) by (intros H; apply Qle_bool_iff in H; congruence). lra.
Qed.

Lemma int_max_ge low k dflt s z : int_max low k dflt s = Ret z -> low <= z.
Proof. unfold int_max. intros H. returned. lia. Qed.
Lemma positive_or_pos k dflt s z : 0 < dflt -> positive_or k dflt s = Ret z -> 0 < z.
Proof. unfold positive_or. intros Hd H. returned. case_match; [by apply Z.ltb_lt|done]. Qed.

(** A fold that only ever stores values with a property *)
Lemma fold_dict_forall {A V} (P : V -> Prop) (f : dict string V -> A -> dict string V) (l : list A) d :
  (forall d a, Forall P (dvals d) -> Forall P (dvals (f d a))) ->
  Forall P (dvals d) -> Forall P (dvals (fold_left f l d)).
Proof. intros Hf. revert d. induction l as [|a l IH]; intros d Hd; simpl; [done|]. by apply IH, Hf. Qed.
Lemma dvals_dset {V} (P : V -> Prop) k v (d : dict string V) :
  P v -> Forall P (dvals d) -> Forall P (dvals (dset k v d)).
Proof.
  intros Hv. induction d as [|[k' v'] d IH]; simpl; intros H; [by repeat constructor|].
  inversion H; subst. case_decide; simpl; constructor; auto.
Qed.

Lemma state_limits_pos v d : normalize_state_limits v = Ret d -> Forall (fun z => 0 < z) (dvals d).
Proof.
  unfold normalize_state_limits. intros H. returned. apply fold_dict_forall; [|constructor].
  intros d [k w] Hd. destruct (state_limit _) as [z|] eqn:Hz; [|done].
  destruct (String.eqb _ _); [done|]. apply dvals_dset; [|done]. cbn in Hz.
  destruct w as [|[]|z'| | | | | |]; simpl in Hz; simplify_eq; try lia.
  destruct (0 <? z') eqn:E; simplify_eq. lia.
Qed.
Lemma int_map_ge v low : Forall (fun z => low <= z) (dvals (normalize_int_map v low)).
Proof.
  unfold normalize_int_map. destruct v as [[]|]; try constructor.
  apply fold_dict_forall; [|constructor]. intros dd [k w] Hd.
  destruct (given _); [|done]. destruct (to_int _) as [z|]; [|done].
  destruct (z <? low) eqn:E; [done|]. apply dvals_dset; [lia|done].
Qed.

Lemma workspace_strategy_known X v s :
  normalize_workspace_strategy X v = Ret s -> s ∈ ["isolated"; "shared"; "sequential"].
Proof. unfold normalize_workspace_strategy. intros H. case_match eqn:E; simplify_eq. by apply mem_true in E. Qed.
Lemma tracker_kind_known k s : normalize_tracker_kind k = Ret s -> s ∈ SUPPORTED_TRACKERS.
Proof. unfold normalize_tracker_kind. intros H. case_match eqn:E; simplify_eq. by apply mem_true in E. Qed.
Lemma backfill_days_pos v z : parse_backfill_days v = Ret (Some z) -> 1 <= z.
Proof.
  assert (Hd : (z0 ← to_int v; if z0 <? 1 then Raise (CValueError "telemetry.backfill_days must be >= 1 or 'all'")
                else Ret (Some z0)) = Ret (Some z) -> 1 <= z).
  { intros H. returned. case_match eqn:E; simplify_eq. lia. }
  unfold parse_backfill_days. destruct v; auto. by case_match.
Qed.

(** ** What a loaded configuration satisfies *)

Record modes_in_bounds (m : ModesConfig) : Prop := {
  mb_router_kind : md_router_kind m ∈ ["none"; "heuristic"; "llm"];
  mb_timeout : (1 <= md_router_timeout_seconds m)%Q;
  mb_confidence : (0 <= md_router_min_confidence m <= 1)%Q;
  mb_retries : 0 <= md_pipeline_max_retries m;
  mb_stage_turns : Forall (fun z => 1 <= z) (dvals (md_pipeline_stage_max_turns m));
  mb_handoff : md_pipeline_handoff m ∈ ["prompt"; "mailbox"];
  mb_isolation : md_debate_isolation m ∈ ["reset"; "worktree"; "none"];
  mb_judge_mode : md_debate_judge_mode m ∈ ["pick"; "synthesize"];
  mb_swarm : 1 <= md_swarm_max_subtasks m /\ 1 <= md_swarm_max_parallel m /\ 1 <= md_swarm_max_waves m;
}.

Record clarifier_in_bounds (c : ClarifierSettings) : Prop := {
  kb_questions : 1 <= cr_max_questions c;
  kb_rounds : 1 <= cr_max_rounds c;
  kb_confidence : (0 <= cr_min_confidence c <= 1)%Q;
  kb_input : 256 <= cr_max_input_tokens c;
  kb_output : 128 <= cr_max_output_tokens c;
  kb_analyses : 1 <= cr_max_analyses_per_poll c;
}.

Record in_bounds (c : WorkflowConfig) : Prop := {
  cb_kind : tc_kind (wf_tracker c) ∈ SUPPORTED_TRACKERS;
  cb_title_match : tc_title_prefix_match (wf_tracker c) ∈ ["any"; "all"];
  cb_strategy : wc_strategy (wf_workspace c) ∈ ["isolated"; "shared"; "sequential"];
  cb_audit : ag_audit_log (wf_agent c) ∈ ["none"; "minimal"; "full"];
  cb_repro : 0 < rp_timeout_ms (ag_repro_first (wf_agent c))
             /\ 0 < rp_command_timeout_ms (ag_repro_first (wf_agent c));
  cb_state_limits : Forall (fun z => 0 < z) (dvals (ag_by_state (wf_agent c)));
  cb_sequential : wc_strategy (wf_workspace c) = "sequential" ->
    is_one (ag_max_concurrent_agents (wf_agent c)) = true
    /\ Forall (fun z => z = 1) (dvals (ag_by_state (wf_agent c)));
  cb_backfill : forall z, te_backfill_days (wf_telemetry c) = Some z -> 1 <= z;
  cb_modes : modes_in_bounds (wf_modes c);
  cb_clarifier : clarifier_in_bounds (wf_clarifier c);
}.

Lemma modes_config_bounds X raw m : parse_modes_config X raw = Ret m -> modes_in_bounds m.
Proof.
  unfold parse_modes_config, stage_retries. intros H. returned. constructor; cbn.
  - apply choice_or_in. set_solver.
  - apply at_least_one_range.
  - apply unit_clamp_range.
  - lia.
  - apply int_map_ge.
  - apply choice_or_in. set_solver.
  - apply choice_in. set_solver.
  - apply choice_in. set_solver.
  - repeat split; by eapply int_max_ge.
Qed.
Lemma clarifier_bounds X raw c : parse_clarifier X raw = Ret c -> clarifier_in_bounds c.
Proof.
  unfold parse_clarifier. intros H. returned.
  constructor; cbn; first [by eapply int_max_ge | apply unit_clamp_range].
Qed.
Lemma repro_first_bounds X v r :
  parse_repro_first_config X v = Ret r -> 0 < rp_timeout_ms r /\ 0 < rp_command_timeout_ms r.
Proof.
  unfold parse_repro_first_config. intros H. destruct v as [[]|]; returned; cbn; try lia.
  split; eapply positive_or_pos; [|done| |done]; lia.
Qed.
Lemma tracker_bounds X env expand raw t :
  parse_tracker X env expand raw = Ret t ->
  tc_kind t ∈ SUPPORTED_TRACKERS /\ tc_title_prefix_match t ∈ ["any"; "all"].
Proof.
  unfold parse_tracker. intros H. returned. cbn. split; [by eapply tracker_kind_known|].
  apply choice_in. set_solver.
Qed.
Lemma workspace_bounds X env expand raw w :
  parse_workspace X env expand raw = Ret w -> wc_strategy w ∈ ["isolated"; "shared"; "sequential"].
Proof. unfold parse_workspace. intros H. returned. by eapply workspace_strategy_known. Qed.
Lemma agent_bounds X env o raw a :
  parse_agent X env o raw = Ret a ->
  ag_audit_log a ∈ ["none"; "minimal"; "full"]
  /\ (0 < rp_timeout_ms (ag_repro_first a) /\ 0 < rp_command_timeout_ms (ag_repro_first a))
  /\ Forall (fun z => 0 < z) (dvals (ag_by_state a)).
Proof.
  unfold parse_agent. intros H. returned. cbn. split_and!.
  - apply choice_in. set_solver.
  - by eapply repro_first_bounds.
  - by eapply repro_first_bounds.
  - by eapply state_limits_pos.
Qed.
Lemma sequential_checked w a u :
  check_sequential w a = Ret u -> Forall (fun z => 0 < z) (dvals (ag_by_state a)) ->
  wc_strategy w = "sequential" ->
  is_one (ag_max_concurrent_agents a) = true /\ Forall (fun z => z = 1) (dvals (ag_by_state a)).
Proof.
  unfold check_sequential. intros H Hpos Hs. rewrite Hs in H. cbn in H. destruct (is_one _); [|done].
  destruct (existsb _ _) eqn:E; [done|]. split; [done|]. rewrite !Forall_forall in *.
  intros z Hz. specialize (Hpos z Hz). unfold dvals in Hz. apply list_elem_of_fmap in Hz as ([k z'] & -> & Hin).
  cut (~ 1 < z'); [cbn in *; lia|]. intros Hlt.
  enough (existsb (fun kv : string * Z => 1 <? snd kv) (ag_by_state a) = true) by congruence.
  apply existsb_exists. exists (k, z'). split; [by apply list_elem_of_In|]. cbn. by apply Z.ltb_lt.
Qed.
Lemma telemetry_bounds X raw t z :
  parse_telemetry X raw = Ret t -> te_backfill_days t = Some z -> 1 <= z.
Proof. unfold parse_telemetry. intros H. returned. cbn. intros ->. by eapply backfill_days_pos. Qed.

(** C37: a configuration that loads is within the bounds that the rest of the
    daemon relies on, whatever the file says: the tracker kind, the strategy,
    the audit level and the kinds of the modes are known ones, confidences lie
    in the unit interval, timeouts, limits, retries and token budgets are at
    least their minimum, and a sequential workspace runs one agent, in every
    state. *)
Theorem loaded_config_in_bounds X env expand raw c :
  from_dict X env expand raw = Ret c -> in_bounds c.
Proof.
  unfold from_dict. intros H. destruct (normalize_keys _ _); try done.
  apply bind_is_ret in H as (flat & _ & H). unfold from_flat in H. returned.
  match goal with H : parse_agent _ _ _ _ = Ret _ |- _ => apply agent_bounds in H as (? & ? & ?) end.
  constructor; cbn; try done.
  - by eapply tracker_bounds.
  - by eapply tracker_bounds.
  - by eapply workspace_bounds.
  - intros ?. by eapply sequential_checked.
  - intros z. by eapply telemetry_bounds.
  - by eapply modes_config_bounds.
  - by eapply clarifier_bounds.
Qed.

(** ** The two layouts *)

(** Entries by key *)
Definition keep (p : string -> bool) (d : section) : section := List.filter (fun kv => p (fst kv)) d.

Lemma dget_keep p k d : dget k (keep p d) = if p k then dget k d else None.
Proof.
  unfold keep. induction d as [|[k' v] d IH]; simpl; [by destruct (p k)|].
  destruct (p k') eqn:Hp; simpl; case_decide; subst; rewrite ?Hp; auto.
  rewrite Hp in IH. done.
Qed.
Lemma dkeys_keep p k d : k ∈ dkeys (keep p d) <-> p k = true /\ k ∈ dkeys d.
Proof.
  rewrite <- !dget_Some_keys, dget_keep. destruct (p k); [naive_solver|].
  split; [by intros [??]|by intros [? _]].
Qed.
Lemma keep_wf p d : dict_wf d -> dict_wf (keep p d).
Proof.
  unfold dict_wf, keep. induction d as [|[k v] d IH]; simpl; [constructor|].
  intros H. apply NoDup_cons in H as [Hk H]. destruct (p k); simpl; [|auto].
  apply NoDup_cons. split; [|auto]. intros Hin. apply Hk. by apply (dkeys_keep p k d) in Hin as [_ ?].
Qed.
Lemma keep_keep p q d : (forall k, q k = true -> p k = true) -> keep p (keep q d) = keep q d.
Proof.
  intros H. unfold keep. induction d as [|[k v] d IH]; simpl; [done|].
  destruct (q k) eqn:Hq; simpl; [|done]. by rewrite (H k Hq), IH.
Qed.
Lemma keep_app p d e : keep p (d ++ e) = keep p d ++ keep p e.
Proof. unfold keep. induction d as [|[k v] d IH]; simpl; [done|]. destruct (p k); simpl; by rewrite IH. Qed.

Lemma dget_app k (d e : section) :
  dget k (d ++ e) = match dget k d with Some v => Some v | None => dget k e end.
Proof. induction d as [|[k' v] d IH]; simpl; [done|]. by case_decide. Qed.

Definition special (k : string) : bool := mem k ["kernel"; "applications"].
Definition kernel_key (k : string) : bool := mem k KERNEL_SECTION_KEYS.
Definition application_key (k : string) : bool := mem k APPLICATION_SECTION_KEYS.



Lemma mapping_or_empty_dict what d : mapping_or_empty what (Some (PDict d)) = Ret d.
Proof. by destruct d. Qed.


Lemma lift_applications raw apps kernel issue_pr :
  dget "applications" raw = Some (PDict apps) ->
  mapping_or_empty "kernel: must be a mapping" (dget "kernel" raw) = Ret kernel ->
  dget "issue_pr" apps = Some (PDict issue_pr) ->
  lift_dual_format_sections raw
  = Ret (fold_left (fun acc kv => dset (fst kv) (snd kv) acc)
           (keep kernel_key kernel ++ keep application_key issue_pr)
           (keep (fun k => negb (special k)) raw)).
Proof.
  intros Ha Hk Hi. unfold lift_dual_format_sections. by rewrite Ha, Hk, Hi, mapping_or_empty_dict.
Qed.



(** [from_flat] reads its sections by name. *)
Lemma from_flat_ext X env expand d e :
  (forall k, special k = false -> dget k d = dget k e) -> from_flat X env expand d = from_flat X env expand e.
Proof. intros H. unfold from_flat. by rewrite !H. Qed.

(** ** Cleaning commutes with the layout *)

Definition drop_items (d : section) : section :=
  omap (fun kv => let c := drop_nil_values (snd kv) in if is_none c then None else Some (fst kv, c)) d.
Definition norm_items (d : section) : section :=
  map (fun kv => (fst kv, normalize_keys (String.eqb (fst kv) "env") (snd kv))) d.
Definition clean_items (d : section) : section := norm_items (drop_items d).

Lemma drop_items_cons k v d :
  drop_items ((k, v) :: d)
  = if is_none (drop_nil_values v) then drop_items d else (k, drop_nil_values v) :: drop_items d.
Proof. unfold drop_items. simpl. by destruct (is_none _). Qed.
Lemma drop_nil_dict d : drop_nil_values (PDict d) = PDict (drop_items d).
Proof.
  simpl. f_equal. induction d as [|[k v] d IH]; simpl; [done|].
  unfold drop_items in *. simpl. destruct (is_none _); simpl; by rewrite IH.
Qed.
Lemma drop_items_keys k d : k ∈ dkeys (drop_items d) -> k ∈ dkeys d.
Proof.
  unfold drop_items. induction d as [|[k' v] d IH]; simpl; [done|].
  destruct (is_none _); simpl; rewrite ?elem_of_cons; naive_solver.
Qed.
Lemma drop_items_wf d : dict_wf d -> dict_wf (drop_items d).
Proof.
  unfold dict_wf. induction d as [|[k v] d IH]; simpl; [done|]. intros H. apply NoDup_cons in H as [Hk H].
  unfold drop_items in *. simpl. destruct (is_none _); simpl; [auto|].
  apply NoDup_cons. split; [|auto]. intros Hin. apply Hk. by apply drop_items_keys.
Qed.

(** Keys in lower case, one entry each *)
Definition plain_keys (d : section) : Prop := dict_wf d /\ Forall (fun k => lower k = k) (dkeys d).

Lemma normalize_dict d : plain_keys d -> normalize_keys false (PDict d) = PDict (norm_items d).
Proof.
  intros [Hwf Hl]. simpl. f_equal. change (norm_items d) with ([] ++ norm_items d).
  assert (Hf : forall k, k ∈ dkeys d -> k ∉ dkeys (@nil (string * pyval))) by set_solver.
  revert Hf. generalize (@nil (string * pyval)) as out. unfold dict_wf in Hwf.
  induction d as [|[k v] d IH]; intros out Hf; simpl; [by rewrite app_nil_r|].
  apply NoDup_cons in Hwf as [Hk Hwf]. inversion Hl as [|? ? Hlk Hl']; subst.
  simpl in Hlk. rewrite Hlk, dset_fresh by (apply dget_None_keys, Hf; set_solver).
  rewrite IH; [|done..|]. { by rewrite <- app_assoc. }
  intros x Hx. unfold dkeys. rewrite map_app. intros Hin. apply elem_of_app in Hin as [Hin|Hin].
  - by apply (Hf x); [set_solver|].
  - simpl in Hin. set_solver.
Qed.
Lemma keep_drop p d : drop_items (keep p d) = keep p (drop_items d).
Proof.
  unfold keep. induction d as [|[k v] d IH]; [done|]. rewrite drop_items_cons. simpl.
  destruct (p k) eqn:Hp; rewrite ?drop_items_cons; destruct (is_none _); simpl; rewrite ?Hp; by rewrite IH.
Qed.
Lemma keep_norm p d : norm_items (keep p d) = keep p (norm_items d).
Proof.
  unfold keep, norm_items. induction d as [|[k v] d IH]; simpl; [done|].
  destruct (p k) eqn:Hp; simpl; by rewrite IH.
Qed.
Lemma keep_plain p d : plain_keys d -> plain_keys (keep p d).
Proof.
  intros [Hwf Hl]. split; [by apply keep_wf|]. rewrite Forall_forall in *.
  intros k Hk. apply Hl. by apply (dkeys_keep p) in Hk as [_ ?].
Qed.
Lemma drop_plain d : plain_keys d -> plain_keys (drop_items d).
Proof.
  intros [Hwf Hl]. split; [by apply drop_items_wf|]. rewrite Forall_forall in *.
  intros k Hk. by apply Hl, drop_items_keys.
Qed.

Lemma drop_items_app d e : drop_items (d ++ e) = drop_items d ++ drop_items e.
Proof. apply omap_app. Qed.
Lemma clean_keep p d : clean_items (keep p d) = keep p (clean_items d).
Proof. unfold clean_items. by rewrite keep_drop, keep_norm. Qed.
Lemma clean_dict d :
  plain_keys d -> normalize_keys false (drop_nil_values (PDict d)) = PDict (clean_items d).
Proof. intros H. rewrite drop_nil_dict. by apply normalize_dict, drop_plain. Qed.

Lemma plain_app d e : plain_keys d -> plain_keys e -> (forall k, k ∈ dkeys d -> k ∉ dkeys e) -> plain_keys (d ++ e).
Proof.
  unfold plain_keys, dict_wf, dkeys. rewrite map_app. intros [??] [??] ?.
  split; [by apply NoDup_app|by apply Forall_app].
Qed.




(** ** Sections that a layout does not read *)

(** Without [applications:] the settings below [kernel:] are not read. *)
Theorem kernel_alone_ignored X env expand d :
  plain_keys d -> "applications" ∉ dkeys d ->
  from_dict X env expand d = from_dict X env expand (keep (fun k => negb (special k)) d).
Proof.
  intros Hp Ha. unfold from_dict. rewrite !clean_dict by (try apply keep_plain; done). rewrite clean_keep.
  unfold lift_dual_format_sections.
  assert (Hc : dget "applications" (clean_items d) = None).
  { apply dget_None_keys. unfold clean_items, norm_items, dkeys. rewrite map_map. cbn.
    intros Hin. by apply Ha, drop_items_keys. }
  rewrite dget_keep, Hc. cbn. apply from_flat_ext. intros k Hk. rewrite dget_keep. by rewrite Hk.
Qed.

(** Settings with an application section *)
Definition nested (top issue_pr : section) : section :=
  top ++ [("applications", PDict [("issue_pr", PDict issue_pr)])].

Section nested.
Context (top : section) (Ht : plain_keys top) (Hs : forall k, special k = true -> k ∉ dkeys top).

Lemma nested_plain A : plain_keys (nested top A).
Proof.
  apply plain_app; [done| |].
  - split; [|by repeat constructor]. unfold dict_wf. simpl. by repeat constructor; set_solver.
  - intros k Hk Hk'. apply (Hs k); [|done]. simpl in Hk'. apply mem_true. set_solver.
Qed.
Lemma clean_nested A :
  plain_keys A ->
  clean_items (nested top A) = clean_items top ++ [("applications", PDict [("issue_pr", PDict (clean_items A))])].
Proof.
  intros HA. unfold nested, clean_items. rewrite drop_items_app. unfold norm_items at 1. rewrite map_app. f_equal.
  rewrite drop_items_cons.
  change (drop_nil_values (PDict [("issue_pr", PDict A)])) with (PDict [("issue_pr", drop_nil_values (PDict A))]).
  rewrite drop_nil_dict. cbn [is_none map fst snd].
  change (normalize_keys ("applications" =? "env")%string (PDict [("issue_pr", PDict (drop_items A))]))
    with (PDict [("issue_pr", normalize_keys false (PDict (drop_items A)))]).
  by rewrite normalize_dict by by apply drop_plain.
Qed.
Lemma clean_fresh k : special k = true -> dget k (clean_items top) = None.
Proof.
  intros Hk. apply dget_None_keys. unfold clean_items, norm_items, dkeys. rewrite map_map. cbn.
  intros Hin. apply (Hs k); [done|]. by apply drop_items_keys.
Qed.

(** Below [applications.issue_pr:] only the listed sections are read; any
    other, such as [experience:], which the flat layout reads, is dropped
    without an error. *)
Theorem nested_section_ignored X env expand issue_pr :
  plain_keys issue_pr ->
  from_dict X env expand (nested top issue_pr) = from_dict X env expand (nested top (keep application_key issue_pr))
  /\ application_key "experience" = false.
Proof.
  intros Hi. split; [|reflexivity]. unfold from_dict.
  rewrite !clean_dict by apply nested_plain. rewrite !clean_nested by (try apply keep_plain; done).
  rewrite clean_keep.
  assert (Hl : forall A, lift_dual_format_sections
                 (clean_items top ++ [("applications", PDict [("issue_pr", PDict A)])])
               = Ret (fold_left (fun acc kv => dset (fst kv) (snd kv) acc) (keep application_key A)
                        (keep (fun k => negb (special k)) (clean_items top)))).
  { intros A. rewrite (lift_applications _ [("issue_pr", PDict A)] [] A).
    - by rewrite keep_app, app_nil_r.
    - by rewrite dget_app, clean_fresh.
    - by rewrite dget_app, clean_fresh.
    - reflexivity. }
  by rewrite !Hl, keep_keep.
Qed.
End nested.

(** ** Witnesses *)

Definition no_text : Text := mkText (fun _ => "?") (fun _ => None) (fun _ => None) (fun _ => "{}").
Definition no_env (name : string) : option string := None.

(** A sequential workspace on a local tracker, with values out of range *)
Definition sample : section :=
  [("tracker", PDict [("kind", PStr " Local "); ("issues_path", PStr "/issues"); ("Title_Prefix_Mode", PStr "ALL")]);
   ("workspace", PDict [("strategy", PStr "Sequential"); ("root", PNone)]);
   ("agent", PDict [("max_concurrent_agents", PInt 1); ("env", PDict [("PATH", PStr "/bin")]);
                    ("max_concurrent_agents_by_state", PDict [("Open", PInt 1); ("ready", PInt 0)])]);
   ("modes", PDict [("router", PDict [("kind", PStr "oracle"); ("min_confidence", PInt 7)]);
                    ("swarm", PDict [("max_waves", PInt 0)])]);
   ("clarifier", PDict [("max_rounds", PStr "-3")]);
   ("experience", PDict [("enabled", PBool true)])].

Lemma loaded_config_in_bounds_witness :
  match from_dict no_text no_env (fun p => p) sample with
  | Ret c => in_bounds c /\ wc_strategy (wf_workspace c) = "sequential" /\ cr_max_rounds (wf_clarifier c) = 1
             /\ ag_permission_mode (wf_agent c) = "bypassPermissions" /\ ag_env (wf_agent c) = [("PATH", "/bin")]
             /\ tc_title_prefix_match (wf_tracker c) = "all" /\ md_swarm_max_waves (wf_modes c) = 1
  | Raise _ => False
  end.
Proof.
  destruct (from_dict no_text no_env (fun p => p) sample) as [c|e] eqn:E.
  - split; [exact (loaded_config_in_bounds _ _ _ _ _ E)|].
    vm_compute in E. injection E as <-. repeat split.
  - vm_compute in E. discriminate E.
Defined.

Lemma sample_plain : plain_keys sample.
Proof.
  split; [|by repeat constructor]. unfold dict_wf. cbn. repeat (apply NoDup_cons; split; [set_solver|]). constructor.
Qed.


Lemma nested_section_ignored_witness :
  from_dict no_text no_env (fun p => p) (nested [] sample)
  = from_dict no_text no_env (fun p => p) (nested [] (keep application_key sample))
  /\ (exists c, from_dict no_text no_env (fun p => p) (nested [] sample) = Ret c
      /\ ex_enabled (wf_experience c) = false).
Proof.
  split.
  - apply nested_section_ignored; [|intros k _; cbn; set_solver|exact sample_plain].
    split; [constructor|constructor].
  - eexists. split; [vm_compute; reflexivity|reflexivity].
Defined.
