(* ===== verification/Premise.v ===== *)
(** * Premise and reproduction of an issue
    ([src/orchestratord/premise_check.py], [src/orchestratord/repro_gate.py])

    The paths that an issue names and that the workspace does not have, the
    agent's declaration that it cannot proceed, and the gate that asks for an
    executable reproduction before a fix.  The file system and the shell are
    parameters.  The fixed texts of the prompts are not modelled. *)

From Stdlib Require Import Ascii.
From S2P Require Import Prelude Dag StageRunner Checkpoint Intent Regex ClarResolver ClarModel Workspace GitSync.

Open Scope string_scope.
Open Scope list_scope.
Open Scope Z_scope.

(** ** References to files *)

Definition SOURCE_EXTENSIONS : list string :=
  ["py"; "pyi"; "js"; "jsx"; "ts"; "tsx"; "mjs"; "cjs"; "go"; "rs"; "java"; "kt"; "rb"; "php"; "c"; "h"; "cc";
   "cpp"; "hpp"; "cs"; "swift"; "scala"; "sh"; "bash"; "ps1"; "sql"; "html"; "css"; "scss"; "vue"; "svelte";
   "yaml"; "yml"; "toml"; "ini"; "cfg"; "json"; "md"].
Definition MAX_REFERENCES : nat := 20.
Definition DETAILS_MAX_CHARS : nat := 2000.
Definition MAX_CHECKED_ITEMS : nat := 10.

(** [[A-Za-z0-9_.\-]] *)
Definition path_char (c : Ascii.ascii) : bool :=
  let n := Ascii.N_of_ascii c in
  ((65 <=? n)%N && (n <=? 90)%N) || ((97 <=? n)%N && (n <=? 122)%N) || ((48 <=? n)%N && (n <=? 57)%N)
  || (n =? 95)%N || (n =? 46)%N || (n =? 45)%N.
Definition separator (c : Ascii.ascii) : bool := byte_is 47 c || byte_is 92 c.

(** [_PATH_TOKEN_RE]; [fuel]: the length of the text *)
Definition path_token (fuel : nat) : rx :=
  let name := rx_plus fuel (rx_class path_char) in
  rx_seq (rx_opt (rx_plus fuel (rx_seq name (rx_class separator))))
    (rx_seq name (rx_seq (rx_exact ".") (rx_seq (rx_choice (map rx_exact SOURCE_EXTENSIONS)) rx_boundary))).

(** [re.sub(r"\w+://\S+", " ", line)] *)
Definition url (fuel : nat) : rx :=
  rx_seq (rx_plus fuel (rx_class is_word))
    (rx_seq (rx_exact "://") (rx_plus fuel (rx_class (fun c => negb (is_space c))))).
Fixpoint blank_urls (fuel : nat) (p : pos) : string :=
  match fuel with
  | O => snd p
  | S fuel' =>
      match url (String.length (snd p)) p with
      | e :: _ => " " +:+ blank_urls fuel' e
      | [] =>
          match snd p with
          | EmptyString => ""
          | String c s' => String c (blank_urls fuel' (Some c, s'))
          end
      end
  end.
Definition without_urls (line : string) : string := blank_urls (S (String.length line)) (None, line).

(** [replace("\\", "/").strip(".,;:")] *)
Fixpoint forward_slashes (s : string) : string :=
  match s with
  | EmptyString => EmptyString
  | String c s' => String (if byte_is 92 c then "/"%char else c) (forward_slashes s')
  end.
Definition punctuation (c : Ascii.ascii) : bool := byte_is 46 c || byte_is 44 c || byte_is 59 c || byte_is 58 c.
Fixpoint lstrip_if (f : Ascii.ascii -> bool) (s : string) : string :=
  match s with
  | EmptyString => EmptyString
  | String c s' => if f c then lstrip_if f s' else s
  end.
Fixpoint rstrip_if (f : Ascii.ascii -> bool) (s : string) : string :=
  match s with
  | EmptyString => EmptyString
  | String c s' =>
      match rstrip_if f s' with
      | EmptyString => if f c then EmptyString else String c EmptyString
      | t => String c t
      end
  end.
Definition clean_token (t : string) : string := rstrip_if punctuation (lstrip_if punctuation (forward_slashes t)).

(** [re.fullmatch(r"[\d.]+", token)] of a token that is not empty *)
Fixpoint numeric (s : string) : bool :=
  match s with
  | EmptyString => true
  | String c s' => (is_digit c || byte_is 46 c) && numeric s'
  end.
Definition skipped (t : string) : bool :=
  String.eqb t "" || contains "*" t || contains "?" t || numeric t.

(** The tokens of a text in order *)
Definition line_tokens (line : string) : list string :=
  let l := without_urls line in
  map clean_token (findall (S (String.length l)) (fun p => [p]) (path_token (String.length l)) (fun p => [p]) (None, l)).
Fixpoint collect (tokens seen : list string) : list string :=
  match tokens with
  | [] => seen
  | t :: tokens' =>
      if skipped t || mem t seen then collect tokens' seen
      else
        let seen := seen ++ [t] in
        if (MAX_REFERENCES <=? length seen)%nat then seen else collect tokens' seen
  end.

(** [extract_referenced_paths] *)
Definition extract_referenced_paths (text : string) : list string :=
  collect (flat_map line_tokens (splitlines text)) [].

(** ** Missing files *)

(** [Path(rel).parts] of a relative path, [Path(rel).name] *)
Definition path_parts (rel : string) : list string :=
  List.filter (fun p => negb (String.eqb p "" || String.eqb p ".")) (split_char "/"%char rel).
Definition path_name (rel : string) : string := default "" (last (path_parts rel)).

Inductive fileres :=
| FAbsent
| FError
| FText (s : string).

(** [fv_exists]: [None] is an [OSError]; [fv_rglob]: the parts of the hits that
    the walk gives before it ends or fails. *)
Record FileView := mkFileView {
  fv_exists : string -> option bool;
  fv_rglob : string -> list (list string);
}.

(** [_basename_exists] *)
Definition basename_exists (F : FileView) (name : string) : bool :=
  negb (String.eqb name "") && existsb (fun parts => negb (mem ".git" parts)) (fv_rglob F name).

(** [find_missing_paths] *)
Definition escapes (rel : string) : bool := String.prefix "~" rel || mem ".." (path_parts rel).
Definition is_missing (F : FileView) (candidate : string) : bool :=
  let rel := lstrip_if (byte_is 47) candidate in
  if escapes rel then false
  else match fv_exists F rel with
       | None => false
       | Some true => false
       | Some false => negb (basename_exists F (path_name rel))
       end.
Definition find_missing_paths (F : FileView) (paths : list string) : list string :=
  List.filter (is_missing F) paths.

(** [_CREATION_LINE_RE], [_line_requests_creation] *)
Definition CREATION_WORDS : list string :=
  ["create"; "creates"; "created"; "implement"; "add"; "adds"; "added"; "write"; "writes"; "generate"; "produce";
   "build"; "scaffold"; "new file"; "from scratch"; "创建"; "新建"; "实现"; "编写"; "生成"; "新增"; "从零"].
Definition line_requests_creation (line : string) : bool :=
  is_some (rx_search (bounded (rx_choice (map rx_word CREATION_WORDS))) None line).

(** [check_issue_premise] *)
Definition issue_text (title description : option string) : string :=
  join lf (omap given [title; description]).
Definition claimed_in (text path : string) : bool :=
  existsb (fun line => contains path line && negb (line_requests_creation line)) (splitlines text).
Definition check_issue_premise (workspace : option FileView) (title description : option string) : list string :=
  match workspace with
  | None => []
  | Some F =>
      let text := issue_text title description in
      List.filter (claimed_in text) (find_missing_paths F (extract_referenced_paths text))
  end.

(** ** Honest exit *)

Section exit.
Context (X : Text).

(** [read_cannot_proceed]: the declaration of the agent, if there is one *)
Definition cannot_proceed (f : fileres) : option (dict string pyval) :=
  match f with
  | FAbsent | FError => None
  | FText raw =>
      Some (match json_loads X raw with
            | None => [("reason", PStr "cannot_proceed"); ("details", PStr (take_str DETAILS_MAX_CHARS (strip raw)))]
            | Some (PDict payload) =>
                match dget "reason" payload with
                | Some _ => payload
                | None => payload ++ [("reason", PStr "cannot_proceed")]
                end
            | Some v =>
                [("reason", PStr "cannot_proceed"); ("details", PStr (take_str DETAILS_MAX_CHARS (py_str X v)))]
            end)
  end.

Definition field_text (k dflt : string) (d : dict string pyval) : string :=
  match dget k d with Some v => py_str X v | None => dflt end.
Definition listed_items (k : string) (d : dict string pyval) (header : list string) : list string :=
  match dget k d with
  | Some (PList (x :: l)) => header ++ map (fun i => "- " +:+ py_str X i) (take MAX_CHECKED_ITEMS (x :: l))
  | _ => []
  end.

(** [format_cannot_proceed_comment] *)
Definition issue_name (i : SyncIssue) : string :=
  match given (si_identifier i) with Some n => n | None => default "None" (si_id i) end.
Definition format_cannot_proceed_comment (i : SyncIssue) (payload : dict string pyval) : string :=
  let details := strip (field_text "details" "" payload) in
  join lf
    ([rstrip ("## Orchestratord could not proceed with " +:+ issue_name i); "";
      "**Reason**: `" +:+ field_text "reason" "cannot_proceed" payload +:+ "`"]
     ++ (if String.eqb details "" then [] else [""; details])
     ++ listed_items "checked" payload [""; "**Checked**:"]
     ++ [""; "_No merge request was opened. If the premise is actually valid, please correct the issue description (file paths, reproduction steps) and re-trigger with the `agent:retry` label._"]).

(** ** The reproduction gate *)

Record ReproGateResult := mkReproResult {
  rg_verdict : string;
  rg_command : option string;
  rg_output : string;
  rg_payload : option (dict string pyval);
}.
Definition verdict_only (v : string) : ReproGateResult := mkReproResult v None "" None.
(** [proceed] *)
Definition proceed (r : ReproGateResult) : bool := String.eqb (rg_verdict r) "reproduced".

Definition REPRO_TAIL_CHARS : nat := 3000.

(** [_run_shell]: exit status and output; a timeout is the status 124. *)
Definition shell_answer (timeout_ms : Z) (r : shellres) : Z * string :=
  match r with
  | ShTimeout => (124, "repro command timed out after " +:+ str_int timeout_ms +:+ "ms")
  | ShDone rc output =>
      (rc, if (REPRO_TAIL_CHARS <? String.length output)%nat
           then "…(truncated)…" +:+ lf +:+ drop_str (String.length output - REPRO_TAIL_CHARS) output
           else output)
  end.

(** The first line of the command file that is not empty or a comment. *)
Definition is_command (line : string) : bool :=
  negb (String.eqb (strip line) "") && negb (String.prefix "#" (strip line)).
Definition command_line (text : string) : option string :=
  given (strip <$> List.find is_command (splitlines (strip text))).

(** The report of an agent that could not reproduce *)
Definition report_payload (f : fileres) : dict string pyval :=
  match f with
  | FText raw =>
      match json_loads X raw with
      | Some (PDict d) => d
      | Some v => [("reason", PStr (py_str X v))]
      | None => [("reason", PStr "not reproducible (unparseable report)")]
      end
  | _ => [("reason", PStr "not reproducible (unparseable report)")]
  end.

(** [marker]: the report that the issue is not reproducible; [command]: the
    command file.  [FError]: the file is there and cannot be read. *)
Definition evaluate_repro_gate {W} (marker command : fileres) (shell : string -> W -> shellres * W)
    (timeout_ms : Z) (w : W) : ReproGateResult * W :=
  match marker with
  | FAbsent =>
      match command with
      | FText text =>
          match command_line text with
          | None => (verdict_only "missing", w)
          | Some cmd =>
              let (r, w') := shell cmd w in
              let (rc, output) := shell_answer timeout_ms r in
              (mkReproResult (if rc =? 0 then "not_demonstrated" else "reproduced") (Some cmd) output None, w')
          end
      | _ => (verdict_only "missing", w)
      end
  | _ => (mkReproResult "not_reproducible" None "" (Some (report_payload marker)), w)
  end.

(** [append_repro_hint]: the section for the hints of the operator *)
Definition repro_hint (command : string) : string :=
  join lf
    [""; ""; "## Reproduction established"; "A reproduction command is in place and currently FAILS:"; "";
     "```"; command; "```"; ""; "Run it from the repository root at any time. Your fix is only";
     "complete when this command exits 0; it is re-run automatically";
     "before push and will block the MR while it still fails."; ""].

(** [format_repro_gate_comment] *)
Definition format_repro_gate_comment (i : SyncIssue) (r : ReproGateResult) : string :=
  let payload := default [] (rg_payload r) in
  let reason := strip (field_text "reason" "" payload) in
  let body :=
    if String.eqb (rg_verdict r) "not_reproducible" then
      (if String.eqb reason "" then [] else ["**Reason**: " +:+ reason; ""])
      ++ match listed_items "attempts" payload ["**Attempted**:"] with [] => [] | l => l ++ [""] end
    else if String.eqb (rg_verdict r) "not_demonstrated" then
      ["The reproduction stage produced a check, but it exits 0 — the";
       "described failure could not be demonstrated:"; "";
       strip (join lf ["```"; default "None" (rg_command r); rg_output r; "```"]); ""]
    else
      ["The reproduction stage did not produce an executable check for"; "the described behavior."; ""] in
  join lf
    ([rstrip ("## Orchestratord could not reproduce " +:+ issue_name i); ""] ++ body
     ++ ["_No fix was attempted and no merge request was opened: a fix for an unobserved bug cannot be verified. If the problem is real, please add concrete reproduction steps (exact commands, inputs, expected vs actual output) and re-trigger with the `agent:retry` label._"]).
End exit.

(** ** Theorems *)

Lemma collect_bound tokens seen :
  (length seen < MAX_REFERENCES)%nat -> NoDup seen ->
  (length (collect tokens seen) <= MAX_REFERENCES)%nat /\ NoDup (collect tokens seen).
Proof.
  revert seen. induction tokens as [|t tokens IH]; intros seen Hl Hn; [split; [simpl; lia|done]|]. cbn [collect].
  destruct (skipped t || mem t seen) eqn:Hs; [by apply IH|].
  apply orb_false_elim in Hs as [_ Hm]. apply mem_false in Hm.
  assert (Hn' : NoDup (seen ++ [t])).
  { apply NoDup_app. split_and!; [done| |apply NoDup_singleton]. set_solver. }
  destruct (Nat.leb_spec MAX_REFERENCES (length (seen ++ [t]))) as [H|H]; [|by apply IH].
  split; [|done]. rewrite length_app in *. simpl in *. lia.
Qed.

(** A path that the premise check reports is one of at most twenty that the
    issue names, is not in the workspace, has no namesake outside [.git], and is
    claimed on a line that does not ask to create something. *)
Theorem premise_reports_absent F title description p :
  let text := issue_text title description in
  let rel := lstrip_if (byte_is 47) p in
  p ∈ check_issue_premise (Some F) title description ->
  p ∈ extract_referenced_paths text
  /\ (length (extract_referenced_paths text) <= MAX_REFERENCES)%nat
  /\ fv_exists F rel = Some false
  /\ (forall hit, path_name rel <> "" -> hit ∈ fv_rglob F (path_name rel) -> ".git" ∈ hit)
  /\ exists line, line ∈ splitlines text /\ contains p line = true /\ line_requests_creation line = false.
Proof.
  simpl. unfold find_missing_paths. intros H. rewrite list_elem_of_In, !filter_In, <- list_elem_of_In in H. destruct H as [[Hin Hm] Hc].
  split; [done|]. split; [apply collect_bound; [unfold MAX_REFERENCES; simpl; lia|constructor]|].
  unfold is_missing in Hm. destruct (escapes _); [done|].
  destruct (fv_exists F _) as [[]|]; [done| |done]. split; [done|]. split.
  - intros hit Hn Hhit. apply negb_true_iff in Hm. unfold basename_exists in Hm.
    rewrite (proj2 (String.eqb_neq _ _) Hn) in Hm. simpl in Hm.
    destruct (mem ".git" hit) eqn:E; [by apply mem_true in E|]. exfalso.
    enough (Ht : existsb (fun parts => negb (mem ".git" parts)) (fv_rglob F (path_name (lstrip_if (byte_is 47) p))) = true)
      by congruence.
    apply existsb_exists. exists hit. split; [by apply list_elem_of_In|]. by rewrite E.
  - unfold claimed_in in Hc. apply existsb_exists in Hc as (line & Hl & Hb). apply andb_true_iff in Hb as [Hb1 Hb2].
    exists line. split; [by apply list_elem_of_In|]. split; [done|]. by apply negb_true_iff.
Qed.

(** The gate opens exactly when the agent left no report that it failed to
    reproduce, and the command that it left did not end with 0: a timeout of
    the command opens it as well. *)
Theorem repro_gate_opens X {W} marker command (shell : string -> W -> shellres * W) timeout_ms w :
  proceed (fst (evaluate_repro_gate X marker command shell timeout_ms w)) = true
  <-> marker = FAbsent
      /\ exists text cmd, command = FText text /\ command_line text = Some cmd
                          /\ forall out, fst (shell cmd w) <> ShDone 0 out.
Proof.
  unfold evaluate_repro_gate. destruct marker; simpl; [|split; [done|intros [H _]; discriminate H]..].
  destruct command as [| |text]; simpl; [split; [done|intros (_ & ? & ? & H & _); discriminate H]..|].
  destruct (command_line text) as [cmd|] eqn:Hc; simpl.
  2:{ split; [done|]. intros (_ & t & c & H & Hc' & _). by simplify_eq. }
  destruct (shell cmd w) as [r w'] eqn:Hs. destruct (shell_answer timeout_ms r) as [rc out] eqn:Ha. simpl.
  split.
  - intros Hp. split; [done|]. exists text, cmd. split; [done|]. split; [done|]. intros o Ho. rewrite Hs in Ho.
    simpl in Ho. subst r. unfold shell_answer in Ha. by simplify_eq.
  - intros (_ & t & c & Ht & Hc' & Hn). simplify_eq. rewrite Hs in Hn. simpl in Hn.
    destruct (Z.eqb_spec rc 0) as [->|Hrc]; [|done]. exfalso. unfold shell_answer in Ha.
    destruct r as [|rc' o]; simplify_eq. by apply (Hn o).
Qed.
