(* ===== verification/IssueRun.v ===== *)
(** * The run of an issue
    ([src/orchestratord/applications/issue_pr/runner.py],
    [src/orchestratord/applications/issue_pr/repro.py],
    [_complete_read_only_chat_followup] of
    [src/orchestratord/applications/issue_pr/interpret.py])

    [run_issue_body] from the hook before the run to the release of the claim:
    the reproduction gate, the agent, the honest exit, the check for changes,
    the git sync, the review gate, the salvage of an interrupted run, the
    handlers of every exception, and the final block with the interpretation of
    the end of the run.  Git sync, the registry and the interpretation are those
    of the other components.  The agent, the hooks, the files and comments of the
    workspace and the feedback replies are parameters, each of which may fail or be
    cancelled, and so may every call of the tracker; the calls of git sync are not
    cancelled in their midst.  The semaphore and the writes to the dashboards are
    left out. *)

From S2P Require Import Prelude Errors Dag StageRunner Checkpoint Intent Regex ClarResolver ClarModel Workspace GitSync IssueRegistry RegistryFacts Kernel RetryQueue Interpret IssueProvider ConfigSchema Premise.

Open Scope string_scope.
Open Scope list_scope.
Open Scope Z_scope.

(** ** Data *)

(** The fields of the session, besides those that git sync reads. *)
Record RunSes := mkRunSes {
  u_id : string;
  u_identifier : string;
  u_labels : list string;
  u_status : string;
  u_end_reason : option string;
  u_end_summary : string;
  u_last_hook_error : option string;
  u_detail : option string;
  u_kind : string;
  u_prompt : option string;
  u_dirty : option bool;
}.

Definition set_end (status : string) (reason : option string) (summary : string) (u : RunSes) : RunSes :=
  mkRunSes (u_id u) (u_identifier u) (u_labels u) status reason summary (u_last_hook_error u) (u_detail u)
    (u_kind u) (u_prompt u) (u_dirty u).
Definition set_run_status (status : string) (u : RunSes) : RunSes := set_end status (u_end_reason u) (u_end_summary u) u.
Definition set_kind (kind : string) (prompt : option string) (u : RunSes) : RunSes :=
  mkRunSes (u_id u) (u_identifier u) (u_labels u) (u_status u) (u_end_reason u) (u_end_summary u)
    (u_last_hook_error u) (u_detail u) kind prompt (u_dirty u).
Definition set_hook_error (e : option string) (u : RunSes) : RunSes :=
  mkRunSes (u_id u) (u_identifier u) (u_labels u) (u_status u) (u_end_reason u) (u_end_summary u) e (u_detail u)
    (u_kind u) (u_prompt u) (u_dirty u).
Definition set_detail (d : string) (u : RunSes) : RunSes :=
  mkRunSes (u_id u) (u_identifier u) (u_labels u) (u_status u) (u_end_reason u) (u_end_summary u)
    (u_last_hook_error u) (Some d) (u_kind u) (u_prompt u) (u_dirty u).
Definition set_dirty (b : bool) (u : RunSes) : RunSes :=
  mkRunSes (u_id u) (u_identifier u) (u_labels u) (u_status u) (u_end_reason u) (u_end_summary u)
    (u_last_hook_error u) (u_detail u) (u_kind u) (u_prompt u) (Some b).

(** The two fields that a verification writes *)
Definition set_verification (status output : option string) (s : SyncSession) : SyncSession :=
  mkSyncSession (ss_workspace s) (ss_issue s) (ss_pull_request s) (ss_strategy s) (ss_base_branch s)
    (ss_integration_branch s) (ss_start_sha s) (ss_feedback_body s) (ss_feedback_ids s)
    (ss_repro_command s) (ss_run_id s) status output (ss_pre_commit_output s)
    (ss_post_sync_output s) (ss_summary_comment_id s) (ss_report_path s).
Definition set_repro (cmd run : option string) (s : SyncSession) : SyncSession :=
  mkSyncSession (ss_workspace s) (ss_issue s) (ss_pull_request s) (ss_strategy s) (ss_base_branch s)
    (ss_integration_branch s) (ss_start_sha s) (ss_feedback_body s) (ss_feedback_ids s)
    cmd run (ss_verification_status s) (ss_verification_output s) (ss_pre_commit_output s)
    (ss_post_sync_output s) (ss_summary_comment_id s) (ss_report_path s).

Inductive rexn :=
| RGit (e : gexn)
| RTimeout
| RCancelled
| ROther (cls text : string).

(** What a pass of the agent leaves in the session, whether it returns or
    raises. *)
Record AgentReport := mkAgentReport {
  ap_status : string;
  ap_end_reason : option string;
  ap_end_summary : string;
  ap_run_id : option string;
}.
Definition agent_call (W : Type) : Type := RunSes -> W -> (AgentReport * outcome rexn unit) * W.

(** What a run meets outside.  [ru_interrupted]: the wait for git in the handler
    of a timeout is cancelled. *)
Record RunEnv (W : Type) := mkRunEnv {
  ru_before : M W rexn unit;
  ru_after : M W rexn unit;
  ru_workflow : option (agent_call W);
  ru_runner : agent_call W;
  ru_repro : agent_call W;
  ru_file : string -> W -> fileres;
  ru_shell : string -> Z -> W -> shellres * W;
  ru_hint : string -> W -> W;
  ru_comment : string -> string -> M W rexn unit;
  ru_reply : M W rexn unit;
  ru_summary : GitSyncResult -> M W rexn unit;
  ru_rules : GitSyncResult -> M W rexn unit;
  ru_consume_feedback : string -> W -> W;
  ru_cleanup : string -> option string -> M W rexn unit;
  ru_interrupted : W -> bool;
  ru_shutdown : W -> bool;
  ru_diagnostics : W -> Diagnostics;
}.
Arguments mkRunEnv {W}.
Arguments ru_before {W}.
Arguments ru_after {W}.
Arguments ru_workflow {W}.
Arguments ru_runner {W}.
Arguments ru_repro {W}.
Arguments ru_file {W}.
Arguments ru_shell {W}.
Arguments ru_hint {W}.
Arguments ru_comment {W}.
Arguments ru_reply {W}.
Arguments ru_summary {W}.
Arguments ru_rules {W}.
Arguments ru_consume_feedback {W}.
Arguments ru_cleanup {W}.
Arguments ru_interrupted {W}.
Arguments ru_shutdown {W}.
Arguments ru_diagnostics {W}.

(** [bc_journal]: the visualisation journal was opened; [bc_kernel]: the host
    has a kernel. *)
Record BodyConfig := mkBodyConfig {
  bc_run : RunConfig;
  bc_sync : SyncConfig;
  bc_repro : ReproFirstConfig;
  bc_auto_approve : bool;
  bc_run_timeout_ms : Z;
  bc_journal : bool;
  bc_kernel : bool;
}.

Record RunState (W : Type) := mkRunState {
  x_host : Host;
  x_failed : list string;
  x_git : GState W;
  x_ses : RunSes;
  x_outcomes : dict string Outcome;
  x_clock : nat;
}.
Arguments mkRunState {W}.
Arguments x_host {W}.
Arguments x_failed {W}.
Arguments x_git {W}.
Arguments x_ses {W}.
Arguments x_outcomes {W}.
Arguments x_clock {W}.

Section state.
Context {W : Type}.
Local Abbreviation RS := (RunState W).
Local Abbreviation OP A := (M RS rexn A).

Definition with_host (h : Host) (x : RS) : RS := mkRunState h (x_failed x) (x_git x) (x_ses x) (x_outcomes x) (x_clock x).
Definition with_git (g : GState W) (x : RS) : RS := mkRunState (x_host x) (x_failed x) g (x_ses x) (x_outcomes x) (x_clock x).
Definition with_ses (u : RunSes) (x : RS) : RS := mkRunState (x_host x) (x_failed x) (x_git x) u (x_outcomes x) (x_clock x).

Definition on_host (f : Host -> Host) : OP unit := modify (fun x => with_host (f (x_host x)) x).
Definition on_ses (f : RunSes -> RunSes) : OP unit := modify (fun x => with_ses (f (x_ses x)) x).
Definition on_sync (f : SyncSession -> SyncSession) : OP unit :=
  modify (fun x => with_git (mkGState (gs_w (x_git x)) (gs_log (x_git x)) (f (gs_ses (x_git x)))) x).
Definition ses : OP RunSes := gets x_ses.
Definition sync_ses : OP SyncSession := gets (fun x => gs_ses (x_git x)).

(** A call outside, or of git *)
Definition world {A} (m : M W rexn A) : OP A := fun x =>
  let g := x_git x in
  let (r, w) := m (gs_w g) in (r, with_git (mkGState w (gs_log g) (gs_ses g)) x).
Definition look {A} (f : W -> A) : OP A := gets (fun x => f (gs_w (x_git x))).
Definition in_git {A} (m : M (GState W) gexn A) : OP A := fun x =>
  let (r, g) := m (x_git x) in
  (match r with Ret a => Ret a | Raise e => Raise (RGit e) end, with_git g x).

(** [try: m except Exception: pass]; a cancellation goes through. *)
Definition swallow_errors (m : OP unit) : OP unit :=
  try_except m (fun e => match e with RCancelled => raise RCancelled | _ => mret tt end).

(** [try: m finally: fin] *)
Definition finally (m fin : OP unit) : OP unit := fun x =>
  let (r, x1) := m x in
  match fin x1 with
  | (Raise e, x2) => (Raise e, x2)
  | (Ret _, x2) => (r, x2)
  end.

(** The rest of a procedure that has not returned *)
Definition unless (returned : bool) (m : OP unit) : OP unit := if returned then mret tt else m.

(** The session as the interpretation reads it *)
Definition core (x : RS) : RunSession :=
  let u := x_ses x in let s := gs_ses (x_git x) in
  mkRunSession (mkSession (u_id u) (u_identifier u) (ss_run_id s) (u_end_reason u) (u_status u)) (u_end_summary u)
    (ss_verification_status s) (ss_verification_output s) (u_last_hook_error u) (u_detail u).
End state.

Definition drop_running (id : string) (o : Orch) : Orch :=
  mkOrch (oc_max_concurrent o) (List.filter (fun y => negb (String.eqb id y)) (oc_running o)) (oc_completed o)
    (oc_claimed o) (oc_retry_queue o) (oc_retry_attempts o) (oc_registry o).
Definition hold_for_review (id : string) (h : Host) : Host :=
  mkHost (h_orch h) (sadd id (h_pending_review h)) (h_tracker h) (h_events h) (h_calls h).

(** [record.last_followup_commit_sha = sha; registry._save()] *)
Definition record_followup_sha (sha : string) (t : Tick) (id : string) (g : Registry) : Registry :=
  match IssueRegistry.get id g with
  | None => g
  | Some r =>
      let f := feedback r in
      save t (set_records
        (dset id (set_feedback
           (mkFeedbackInfo (processed_feedback_ids f) (pending_feedback_ids f) (pending_feedback_urls f)
              (pending_feedback_since f) (feedback_cursor f) (followup_attempt_count f)
              (feedback_failure_counts f) (Some sha) (last_feedback_checked_at f)) r) (records g)) g)
  end.

(** ** The body *)

Section body.
Context {W : Type} (X : Text) (E : GitEnv W) (R : RunEnv W) (c : BodyConfig).
Context (ticks : nat -> Tick) (tracker : Tracker).

Local Abbreviation RS := (RunState W).
Local Abbreviation OP A := (M RS rexn A).

(** A call of the registry *)
Definition reg (f : Tick -> string -> Registry -> Registry) : OP unit :=
  modify (fun x =>
    mkRunState (on_registry (f (ticks (x_clock x)) (u_id (x_ses x))) (x_host x)) (x_failed x) (x_git x) (x_ses x)
      (x_outcomes x) (S (x_clock x))).

(** [_sync_tracker_issue_state], [_emit_im_event] *)
Definition lift_exn (e : iexn) : rexn :=
  match e with ICancelled => RCancelled | IRaised _ => ROther "Exception" "" end.
Definition tell_tracker (state : string) : OP unit := fun x =>
  let (r, h) := sync_tracker tracker (u_id (x_ses x)) state (x_host x) in
  (match r with Ret _ => Ret tt | Raise e => Raise (lift_exn e) end, with_host h x).
Definition event (kind : string) : OP unit := u ← ses; on_host (emit (u_id u) kind).

Definition try_comment (body : string) : OP unit :=
  u ← ses; swallow_errors (world (ru_comment R (u_id u) body)).

(** [_state.completed.add], [_state.failed.add] *)
Definition add_failed : OP unit :=
  modify (fun x =>
    let id := u_id (x_ses x) in
    mkRunState (add_completed id (x_host x)) (sadd id (x_failed x)) (x_git x) (x_ses x) (x_outcomes x) (x_clock x)).

(** A pass of the agent: what it wrote stays when it raises. *)
Definition store_report (a : AgentReport) (x : RS) : RS :=
  let g := x_git x in
  with_ses (set_end (ap_status a) (ap_end_reason a) (ap_end_summary a) (x_ses x))
    (with_git (mkGState (gs_w g) (gs_log g) (set_repro (ss_repro_command (gs_ses g)) (ap_run_id a) (gs_ses g))) x).
Definition run_agent (call : agent_call W) : OP unit := fun x =>
  let '((a, r), w) := call (x_ses x) (gs_w (x_git x)) in
  let g := x_git x in
  (r, store_report a (with_git (mkGState w (gs_log g) (gs_ses g)) x)).

(** *** The reproduction gate *)

(** [repro_gate_applies] *)
Definition repro_gate_applies (u : RunSes) : bool :=
  let config := bc_repro c in
  let folded := map (fun l => lower (strip l)) in
  if negb (rp_enabled config) || negb (String.eqb (u_kind u) "issue") then false
  else match rp_labels config with
       | [] => true
       | labels => existsb (fun l => mem l (folded labels)) (folded (u_labels u))
       end.

Definition NOT_REPRODUCIBLE_FILE : string := ".orchestrator_control/repro/not_reproducible.json".
Definition REPRO_COMMAND_FILE : string := ".orchestrator_control/repro/repro_command.txt".
Definition CANNOT_PROCEED_MARKER : string := ".orchestrator_control/cannot_proceed.json".

(** The verdict on what the agent left in the workspace *)
Definition evaluate : OP ReproGateResult :=
  world (fun w =>
    let t := rp_command_timeout_ms (bc_repro c) in
    let (r, w') := evaluate_repro_gate X (ru_file R NOT_REPRODUCIBLE_FILE w) (ru_file R REPRO_COMMAND_FILE w)
                     (fun cmd => ru_shell R cmd t) t w in
    (Ret r, w')).

(** Whether the pass timed out; other exceptions go through. *)
Definition repro_pass : OP bool :=
  try_except (run_agent (ru_repro R);; mret false)
    (fun e => match e with RTimeout => mret true | _ => raise e end).

(** The gate opens: a clean session for the fix *)
Definition open_gate (cmd : string) : OP unit :=
  on_sync (fun s => set_repro (Some cmd) None s);;
  world (fun w => (Ret tt, ru_hint R cmd w));;
  on_ses (fun u => set_kind "issue" None (set_end "running" None "" u)).

(** The gate closes *)
Definition close_gate (verdict : string) (r : ReproGateResult) : OP unit :=
  on_ses (set_end "failed" (Some "not_reproducible") ("repro gate closed: " +:+ verdict));;
  reg (fun t id => mark_failed_with_reason t id ("not_reproducible (" +:+ verdict
         +:+ "): the described behavior could not be demonstrated; no fix attempted, no PR created."));;
  s ← sync_ses;
  try_comment (format_repro_gate_comment X (ss_issue s) r);;
  tell_tracker "failed";;
  add_failed.

Definition closing_verdict (timed_out : bool) (r : ReproGateResult) : string :=
  if timed_out then "repro_stage_timeout" else rg_verdict r.
Definition settle_gate (timed_out : bool) (r : ReproGateResult) : OP bool :=
  match rg_command r with
  | Some cmd =>
      if proceed r then open_gate cmd;; mret true
      else close_gate (closing_verdict timed_out r) r;; mret false
  | None => close_gate (closing_verdict timed_out r) r;; mret false
  end.

(** [run_repro_gate] *)
Definition verdict (timed_out : bool) : OP ReproGateResult :=
  if timed_out then mret (verdict_only "missing") else evaluate.
Definition run_repro_gate (prompt : string) : OP bool :=
  on_ses (set_kind "repro" (Some prompt));;
  timed_out ← repro_pass;
  r ← verdict timed_out;
  settle_gate timed_out r.

(** *** The end of the agent's work *)

(** The agent declared that it cannot proceed. *)
Definition premise_not_met (payload : dict string pyval) : OP unit :=
  let reason := field_text X "reason" "cannot_proceed" payload in
  on_ses (set_end "failed" (Some "premise_not_met") (take_str 500 (field_text X "details" "" payload)));;
  reg (fun t id => mark_failed_with_reason t id ("premise_not_met (" +:+ reason
         +:+ "): agent declared the issue cannot honestly be completed; no PR created."));;
  s ← sync_ses;
  try_comment (format_cannot_proceed_comment X (ss_issue s) payload);;
  tell_tracker "failed";;
  add_failed.

(** Whether the workspace has changes; when git cannot answer, it does. *)
Definition head_moved (root start : string) : OP bool :=
  o ← in_git (run_git E ["rev-parse"; "HEAD"] root);
  let head := strip (go_out o) in
  mret ((go_rc o =? 0) && negb (String.eqb head "") && negb (String.eqb head start)).
Definition has_changes : OP bool :=
  s ← sync_ses;
  try_except
    (root ← in_git (get_repo_root E (ss_workspace s));
     match root with
     | None => mret true
     | Some root =>
         files ← in_git (get_file_status E root);
         match files, given (ss_start_sha s) with
         | _ :: _, _ => mret true
         | [], Some start => head_moved root start
         | [], None => mret false
         end
     end)
    (fun e => match e with RCancelled => raise RCancelled | _ => mret true end).

(** [registry.update_report] with the fields of the session *)
Definition report_session : OP unit :=
  u ← ses; s ← sync_ses;
  reg (fun t id => update_report t id (ss_report_path s) (ss_verification_status s) (ss_verification_output s)
                     (ss_summary_comment_id s) (u_end_reason u) (Some (u_end_summary u))).

(** [_complete_read_only_chat_followup] *)
Definition complete_read_only_followup : OP unit :=
  report_session;;
  reg increment_followup_attempt;;
  reg mark_pending_review;;
  u ← ses;
  on_host (hold_for_review (u_id u));;
  tell_tracker "pending_review".

Definition FOLLOWUP_KINDS : list string := ["agent_followup"; "review_followup"; "review_retry"].
Definition followup_sync (u : RunSes) : bool := mem (u_kind u) FOLLOWUP_KINDS && negb (sy_local_tracker (bc_sync c)).

(** [registry.mark_synced] with the result *)
Definition record_synced (r : GitSyncResult) : OP unit :=
  reg (fun t id => mark_synced t id (Some (sr_branch_name r)) (sr_commit_sha r)
                     (sr_pull_request r ≫= GitSync.pr_number) (sr_pull_request r ≫= GitSync.pr_url)).

(** What a sync that gave a result leaves in the registry *)
Definition record_followup (u : RunSes) (r : GitSyncResult) : OP unit :=
  reg increment_followup_attempt;;
  match given (sr_commit_sha r) with
  | None => mret tt
  | Some sha =>
      reg (record_followup_sha sha);;
      if String.eqb (u_kind u) "review_retry" then world (fun w => (Ret tt, ru_consume_feedback R (u_id u) w))
      else mret tt
  end.
Definition record_result (u : RunSes) (r : GitSyncResult) : OP unit :=
  if String.eqb (u_kind u) "review_followup" then
    s ← sync_ses;
    reg (fun t id => mark_feedback_processed t id (ss_feedback_ids s) (sr_commit_sha r) None);;
    world (ru_reply R);; world (ru_summary R r);; world (ru_rules R r)
  else if mem (u_kind u) ["agent_followup"; "review_retry"] then record_followup u r
  else record_synced r.

(** The event about the pull request *)
Definition announce_pr (u : RunSes) (r : GitSyncResult) : OP unit :=
  match given (sr_pull_request r ≫= GitSync.pr_url) with
  | Some _ => event (if mem (u_kind u) FOLLOWUP_KINDS then "pr.updated" else "pr.opened")
  | None => mret tt
  end.

(** The review gate: [true] when the run ends here. *)
Definition review_gate (r : GitSyncResult) : OP bool :=
  if sr_pending_review r && negb (bc_auto_approve c) then
    reg mark_pending_review;;
    tell_tracker "pending_review";;
    event "pr.pending_review_gate";;
    u ← ses;
    on_host (hold_for_review (u_id u));;
    mret true
  else mret false.

(** The salvage of a run that ended early but was committed *)
Definition budget_exhausted (reason : option string) : bool :=
  let r := default "" reason in String.eqb r "max_turns" || String.prefix "exit_code=" r.
Definition salvage (r : option GitSyncResult) : OP unit :=
  u ← ses;
  match r ≫= (fun r => (fun sha => (r, sha)) <$> given (sr_commit_sha r)) with
  | Some (r, sha) =>
      if negb (String.eqb (u_status u) "completed") && negb (budget_exhausted (u_end_reason u)) then
        let reason := "salvaged_after_" +:+ u_status u in
        let summary := "agent terminated with status=" +:+ u_status u +:+ "; git_sync salvaged commit "
                       +:+ take_str 12 sha +:+ " on branch " +:+ sr_branch_name r in
        on_ses (set_end "completed" (Some reason) summary);;
        reg (fun t id => update_report t id None None None None (Some reason) (Some summary))
      else mret tt
  | None => mret tt
  end.

(** [interpret_sync_result] on the session: [true] when it ended the run *)
Definition store_core (s : RunSession) (x : RS) : RS :=
  let g := x_git x in
  with_ses (set_hook_error (rs_last_hook_error s)
              (set_end (run_status s) (ses_end_reason (rs_session s)) (rs_end_summary s) (x_ses x)))
    (with_git (mkGState (gs_w g) (gs_log g)
       (set_verification (rs_verification_status s) (rs_verification_output s) (gs_ses g))) x).
Definition classify_sync (r : option GitSyncResult) : OP bool := fun x =>
  let (b, s) := interpret_sync_result (r ≫= sr_end_reason) (core x) in
  (Ret b, if b then store_core s x else x).

(** The part from git sync on *)
Definition after_sync (r : option GitSyncResult) : OP unit :=
  ended ← classify_sync r;
  unless ended
    match r with
    | None => salvage None
    | Some res =>
        report_session;;
        u ← ses;
        record_result u res;;
        announce_pr u res;;
        held ← review_gate res;
        unless held (salvage r)
    end.
Definition sync_phase : OP unit :=
  u ← ses;
  r ← in_git (GitSync.sync E (bc_sync c) (followup_sync u));
  after_sync r.

Definition SYNCED_STATUSES : list string :=
  ["completed"; "stagnation"; "read_only_loop"; "loop_detected"; "max_turns_exceeded"].
Definition NOOP_REASONS : list string := ["noop_completed"; "already_completed"; "task_complete"].

(** A run that says it completed and changed nothing: a chat follow-up ends
    here ([true]), any other run has failed. *)
Definition without_changes (changed : bool) (u : RunSes) : OP bool :=
  if changed then mret false
  else if String.eqb (u_kind u) "agent_followup" then complete_read_only_followup;; mret true
  else
    on_ses (set_end "failed" (Some "no_changes_produced")
              "Agent reported completed but workspace has no file changes");; mret false.
Definition check_changes : OP bool :=
  u ← ses;
  if String.eqb (u_status u) "completed"
     && negb (default false ((fun r => mem r NOOP_REASONS) <$> u_end_reason u)) then
    changed ← has_changes; without_changes changed u
  else mret false.

(** What follows the agent's work *)
Definition after_agent : OP unit :=
  u ← ses;
  if mem (u_status u) SYNCED_STATUSES then
    marker ← look (ru_file R CANNOT_PROCEED_MARKER);
    match cannot_proceed X marker with
    | Some payload => premise_not_met payload
    | None => ended ← check_changes; unless ended sync_phase
    end
  else mret tt.

(** The workflow engine runs the issue when there is one, except for a review
    follow-up. *)
Definition agent_pass : OP unit :=
  u ← ses;
  match ru_workflow R with
  | Some workflow =>
      if String.eqb (u_kind u) "review_followup" then run_agent (ru_runner R) else run_agent workflow
  | None => run_agent (ru_runner R)
  end.

(** The inner [try] *)
Definition work (repro_prompt : string) : OP unit :=
  finally
    (u ← ses;
     opened ← (if repro_gate_applies u then run_repro_gate repro_prompt else mret true);
     unless (negb opened) (agent_pass;; after_agent))
    (world (ru_after R)).

(** *** Exceptions *)

(** [str(exc)], and the class that stands for an empty text *)
Definition gexn_text (e : gexn) : string :=
  match e with
  | GitSyncError m | OtherError m | VerificationFailed m _ | HookFailed _ m _ => m
  | PostCommit cause _ =>
      match cause with
      | GitSyncError m | OtherError m | VerificationFailed m _ | HookFailed _ m _ => m
      | PostCommit _ _ => ""
      end
  end.
Definition exc_text (e : rexn) : string :=
  match e with
  | RGit g => gexn_text g
  | ROther _ text => text
  | RTimeout | RCancelled => ""
  end.
Definition exc_class (e : rexn) : string :=
  match e with
  | RGit (GitSyncError _) => "GitSyncError"
  | RGit _ => "Exception"
  | ROther cls _ => cls
  | RTimeout => "TimeoutError"
  | RCancelled => "CancelledError"
  end.
(** [_operator_failure_detail] *)
Definition operator_failure_detail (e : rexn) : string :=
  default (exc_class e) (given (Some (join " " (words_from "" (exc_text e))))).

(** [cause.output], [cause.hook_name] *)
Definition cause_output (e : gexn) : string :=
  match e with VerificationFailed _ out | HookFailed _ _ out => out | _ => "" end.
Definition cause_hook (e : gexn) : option string :=
  match e with HookFailed name _ _ => given (Some name) | _ => None end.

(** The status of a run that failed its verification *)
Definition fail_verification (output : string) : OP unit :=
  on_ses (set_run_status "verification_failed");;
  on_sync (set_verification (Some "failed") (Some output)).

(** [except GitSyncPostCommitError] *)
Definition on_post_commit (cause : gexn) (r : GitSyncResult) : OP unit :=
  report_session;;
  u ← ses;
  (if mem (u_kind u) ["agent_followup"; "review_retry"] then
     match given (sr_commit_sha r) with Some sha => reg (record_followup_sha sha) | None => mret tt end
   else if String.eqb (u_kind u) "review_followup" then mret tt
   else record_synced r);;
  fail_verification (cause_output cause);;
  match cause_hook cause with
  | Some _ => on_ses (set_hook_error (Some (gexn_text cause)))
  | None => mret tt
  end;;
  event "post_commit_failed".

(** [except VerificationFailed], [except HookFailedError] *)
Definition on_verification_failed (output : string) : OP unit :=
  fail_verification output;;
  u ← ses; s ← sync_ses;
  (if String.eqb (u_kind u) "review_followup"
   then reg (fun t id => increment_feedback_failure t id (ss_feedback_ids s)) else mret tt);;
  event "verification.failed".
Definition on_hook_failed (message output : string) : OP unit :=
  fail_verification output;;
  on_ses (set_hook_error (Some message));;
  event "verification.failed".

(** [except asyncio.TimeoutError] *)
Definition on_timeout : OP unit :=
  s ← sync_ses;
  files ← in_git (get_file_status E (ss_workspace s));
  interrupted ← look (ru_interrupted R);
  if interrupted : bool then raise RCancelled else
  on_ses (set_dirty (match files with [] => false | _ => true end));;
  on_ses (set_run_status "agent_timeout");;
  on_sync (set_verification (Some "failed")
    (Some ("Agent run exceeded configured timeout (" +:+ str_int (bc_run_timeout_ms c) +:+ "ms)")));;
  event "issue.failed".

(** [workspace.cleanup] with its errors logged *)
Definition cleanup_workspace : OP unit :=
  u ← ses; swallow_errors (world (ru_cleanup R (u_status u) (u_end_reason u))).

(** [except asyncio.CancelledError] *)
Definition on_shutdown : OP unit :=
  on_ses (set_end "released" (Some "shutdown_released") "daemon shutdown interrupted the run; issue requeued");;
  on_sync (set_verification None None);;
  reg mark_pending;;
  tell_tracker "open".
Definition on_operator_stop : OP unit :=
  on_ses (set_end "cancelled" (Some "operator_stopped") "cancelled by operator");;
  on_sync (set_verification (Some "cancelled") (Some "Operator requested stop"));;
  cleanup_workspace.
Definition on_cancelled (shutdown : bool) : OP unit := if shutdown then on_shutdown else on_operator_stop.

(** [except Exception] *)
Definition on_error (ran_agent : bool) (e : rexn) : OP unit :=
  let detail := operator_failure_detail e in
  let status := if ran_agent then "failed" else "before_run_failed" in
  on_ses (set_end status (Some status) detail);;
  on_sync (set_verification (Some "failed") (Some detail));;
  on_ses (fun u => set_detail detail (set_hook_error (Some detail) u)).

Definition handle (ran_agent : bool) (e : rexn) : OP unit :=
  match e with
  | RGit (PostCommit cause r) => on_post_commit cause r
  | RGit (VerificationFailed _ output) => on_verification_failed output
  | RGit (HookFailed _ message output) => on_hook_failed message output
  | RTimeout => on_timeout
  | RCancelled => shutdown ← look (ru_shutdown R); on_cancelled shutdown
  | _ => on_error ran_agent e
  end.

(** *** The final block *)

Definition update_diagnostics : OP unit :=
  u ← ses; s ← sync_ses; d ← look (ru_diagnostics R);
  reg (fun t id => update_run_diagnostics t id
    (mkDiagnostics (ss_run_id s) (dg_debug_log_path d) (dg_turn_count d) (dg_tool_count d) (dg_last_event d)
       (dg_last_tool d) (dg_output_len d) (dg_timeout_deadline_at d) (u_dirty u) (dg_cost_usd d) (dg_token_usage d)
       (dg_started_at d) (dg_completed_at d) (dg_duration_ms d) (dg_backend d) (dg_model d)
       (u_end_reason u) (Some (u_end_summary u)) (dg_pause_reason d))).

(** The five registry calls of an interpretation take the next ticks. *)
Definition ticks_from (n : nat) : Ticks :=
  mkTicks (ticks n) (ticks (n + 1)%nat) (ticks (n + 2)%nat) (ticks (n + 3)%nat) (ticks (n + 4)%nat).

(** [interpret] and [kernel.consume_outcome] *)
Definition settle_outcome : OP unit := fun x =>
  let (r, h) := interpret (bc_run c) (ticks_from (x_clock x)) tracker (core x) (x_host x) in
  let x' outcomes := mkRunState h (x_failed x) (x_git x) (x_ses x) outcomes (x_clock x + 5)%nat in
  match r with
  | Raise e => (Raise (lift_exn e), x' (x_outcomes x))
  | Ret o => (Ret tt, x' (if bc_kernel c then dset (u_id (x_ses x)) o (x_outcomes x) else x_outcomes x))
  end.

Definition release_claim : OP unit :=
  u ← ses; on_host (fun h => set_orch (discard_claim (u_id u) (h_orch h)) h).

(** The [finally] of the body; the interpretation stands in the branch of the
    journal. *)
Definition final : OP unit :=
  update_diagnostics;;
  reg (fun t _ => flush t);;
  u ← ses;
  on_host (fun h => set_orch (drop_running (u_id u) (h_orch h)) h);;
  (if bc_journal c then settle_outcome else mret tt);;
  cleanup_workspace;;
  release_claim.

(** The outer [try] *)
Definition attempted (repro_prompt : string) : OP unit := fun x =>
  match world (ru_before R) x with
  | (Raise e, x1) => handle false e x1
  | (Ret _, x1) => try_except (work repro_prompt) (handle true) x1
  end.

(** [run_issue_body] *)
Definition run_issue_body (repro_prompt : string) : OP unit := finally (attempted repro_prompt) final.
End body.
