(* ===== verification/IssueRunFacts.v ===== *)
(** * The run of an issue: theorems

    Every run that ends frees its slot and its claim; a run behind a closed
    reproduction gate, and a run whose tests fail, publish nothing; what happens
    to a run without the journal, and to an issue whose agent declined. *)

From S2P Require Import Prelude Errors Dag StageRunner Checkpoint Intent Regex ClarResolver ClarModel Workspace GitSync GitSyncFacts IssueRegistry RegistryFacts Kernel RetryQueue Interpret IssueProvider ConfigSchema Premise IssueRun.

Open Scope string_scope.
Open Scope list_scope.
Open Scope Z_scope.

(** ** What the body leaves alone *)

(** The issue, the slots and claims, the retry queue and the kernel's outcomes *)
Record frame {W} (x x' : RunState W) : Prop := mkFrame {
  fr_id : u_id (x_ses x') = u_id (x_ses x);
  fr_running : oc_running (h_orch (x_host x')) = oc_running (h_orch (x_host x));
  fr_claimed : oc_claimed (h_orch (x_host x')) = oc_claimed (h_orch (x_host x));
  fr_queue : oc_retry_queue (h_orch (x_host x')) = oc_retry_queue (h_orch (x_host x));
  fr_attempts : oc_retry_attempts (h_orch (x_host x')) = oc_retry_attempts (h_orch (x_host x));
  fr_outcomes : x_outcomes x' = x_outcomes x;
}.

Lemma frame_refl {W} (x : RunState W) : frame x x.
Proof. by constructor. Qed.
Lemma frame_trans {W} (x y z : RunState W) : frame x y -> frame y z -> frame x z.
Proof. intros [] []. constructor; congruence. Qed.

(** [m] takes every state to one that [T] allows. *)
Definition within {W A} (T : relation (RunState W)) (m : M (RunState W) rexn A) : Prop := forall x, T x (snd (m x)).
Abbreviation frames := (within frame).
(** The outcome is a value, or the cancellation [e], for which [Q] is the cause. *)
Definition ended {Ex A} (e : Ex) (Q : Prop) (r : outcome Ex A) : Prop := (exists a, r = Ret a) \/ r = Raise e /\ Q.
(** [m] returns, or is cancelled because of [Q]. *)
Definition ends {W A} (Q : Prop) (m : M (RunState W) rexn A) : Prop := forall x, ended RCancelled Q (fst (m x)).

#[local] Instance frame_preorder {W} : PreOrder (@frame W).
Proof. split; [exact frame_refl|exact frame_trans]. Qed.

Section within.
Context {W : Type} (T : relation (RunState W)) `{!PreOrder T}.
Local Abbreviation OP A := (M (RunState W) rexn A).

Lemma within_ret {A} (a : A) : within T (mret a : OP A).
Proof. intros x. reflexivity. Qed.
Lemma within_raise {A} e : within T (raise e : OP A).
Proof. intros x. reflexivity. Qed.
Lemma within_ses : within T (ses : OP RunSes).
Proof. intros x. reflexivity. Qed.
Lemma within_sync_ses : within T (sync_ses : OP SyncSession).
Proof. intros x. reflexivity. Qed.
Lemma within_look {A} (f : W -> A) : within T (look f : OP A).
Proof. intros x. reflexivity. Qed.
Lemma within_bind {A B} (m : OP A) (f : A -> OP B) : within T m -> (forall a, within T (f a)) -> within T (m ≫= f).
Proof.
  intros Hm Hf x. unfold mbind, M_bind. specialize (Hm x). destruct (m x) as [[a|e] x1]; simpl in *; [|done].
  etransitivity; [exact Hm|apply Hf].
Qed.
Lemma within_try {A} (m : OP A) h : within T m -> (forall e, within T (h e)) -> within T (try_except m h).
Proof.
  intros Hm Hh x. unfold try_except. specialize (Hm x). destruct (m x) as [[a|e] x1]; simpl in *; [done|].
  etransitivity; [exact Hm|apply Hh].
Qed.
Lemma within_finally (m fin : OP unit) : within T m -> within T fin -> within T (finally m fin).
Proof.
  intros Hm Hf x. unfold finally. specialize (Hm x). destruct (m x) as [r x1]; simpl in *. specialize (Hf x1).
  destruct (fin x1) as [[?|e] x2]; simpl in *; by etransitivity.
Qed.
End within.

Create HintDb within.
#[local] Hint Resolve within_ret within_raise within_ses within_sync_ses within_look frame_preorder : within.

Section frames.
Context {W : Type}.
Local Abbreviation OP A := (M (RunState W) rexn A).

Lemma frames_on_ses f : (forall u, u_id (f u) = u_id u) -> frames (on_ses f : OP unit).
Proof. intros H x. constructor; simpl; auto. Qed.
Lemma frames_on_sync f : frames (on_sync f : OP unit).
Proof. intros x. by constructor. Qed.
Lemma frames_on_host f : (forall h, h_orch (f h) = h_orch h) -> frames (on_host f : OP unit).
Proof. intros H x. constructor; simpl; rewrite ?H; done. Qed.
Lemma frames_world {A} (m : M W rexn A) : frames (world m : OP A).
Proof. intros x. unfold world. destruct (m _) as [r w]. by constructor. Qed.
Lemma frames_in_git {A} (m : M (GState W) gexn A) : frames (in_git m : OP A).
Proof. intros x. unfold in_git. destruct (m _) as [r g]. by constructor. Qed.
Lemma frames_run_agent call : frames (run_agent call : OP unit).
Proof. intros x. unfold run_agent. destruct (call _ _) as [[a r] w]. by constructor. Qed.
Lemma frames_reg ticks f : frames (reg ticks f : OP unit).
Proof. intros x. by constructor. Qed.
Lemma frames_classify r : frames (classify_sync r : OP bool).
Proof.
  intros x. unfold classify_sync. destruct (interpret_sync_result _ _) as [[] s]; simpl; [|apply frame_refl].
  by constructor.
Qed.
End frames.

#[local] Hint Resolve frames_on_sync frames_world frames_in_git frames_run_agent frames_reg frames_classify : within.

(** Opens the structure of an operation. *)
Ltac within_step :=
  match goal with
  | |- within _ (_ ≫= _) => apply within_bind; [auto with within|..|intros ?]
  | |- within _ (try_except _ _) => apply within_try; [auto with within|..|intros ?]
  | |- within _ (finally _ _) => apply within_finally; [auto with within|..]
  | |- within _ (swallow_errors _) => unfold swallow_errors
  | |- within _ (unless _ _) => unfold unless
  | |- within frame (on_ses _) => apply frames_on_ses; intros; reflexivity
  | |- within frame (on_host _) => apply frames_on_host; intros; reflexivity
  | |- within _ (match ?d with _ => _ end) => destruct d
  | |- within _ _ => solve [auto with within]
  end.
Ltac within := repeat within_step.

Section body.
Context {W : Type} (X : Text) (E : GitEnv W) (R : RunEnv W) (c : BodyConfig).
Context (ticks : nat -> Tick) (tracker : Tracker).

Lemma frames_tell state : frames (tell_tracker tracker state : M (RunState W) rexn unit).
Proof.
  intros x. unfold tell_tracker. pose proof (sync_tracker_orch tracker (u_id (x_ses x)) state (x_host x)) as H.
  destruct (sync_tracker tracker _ _ _) as [r h]. simpl in *. constructor; simpl; by rewrite ?H.
Qed.
Lemma frames_event kind : frames (event kind : M (RunState W) rexn unit).
Proof. unfold event. within. Qed.
Lemma frames_add_failed : frames (add_failed : M (RunState W) rexn unit).
Proof. intros x. by constructor. Qed.
Lemma frames_comment body : frames (try_comment R body).
Proof. unfold try_comment. within. Qed.
Lemma frames_report : frames (report_session ticks : M (RunState W) rexn unit).
Proof. unfold report_session. within. Qed.
#[local] Hint Resolve frames_tell frames_event frames_add_failed frames_comment frames_report : within.

Lemma frames_repro prompt : frames (run_repro_gate X R c ticks tracker prompt).
Proof.
  unfold run_repro_gate, repro_pass, verdict, settle_gate, evaluate, open_gate, close_gate. within.
Qed.
Lemma frames_premise payload : frames (premise_not_met X R ticks tracker payload).
Proof. unfold premise_not_met. within. Qed.
Lemma frames_changes : frames (check_changes E ticks tracker).
Proof.
  unfold check_changes, without_changes, has_changes, head_moved, complete_read_only_followup. within.
Qed.
Lemma frames_after_sync r : frames (after_sync R c ticks tracker r).
Proof.
  unfold after_sync, record_result, record_followup, record_synced, announce_pr, review_gate, salvage. within.
Qed.
#[local] Hint Resolve frames_repro frames_premise frames_changes frames_after_sync : within.

Lemma frames_work prompt : frames (work X E R c ticks tracker prompt).
Proof. unfold work, agent_pass, after_agent, sync_phase. within. Qed.
Lemma frames_handle ran e : frames (handle E R c ticks tracker ran e).
Proof.
  unfold handle, on_post_commit, on_verification_failed, on_hook_failed, on_timeout, on_cancelled, on_shutdown,
    on_operator_stop, on_error, fail_verification, record_synced, cleanup_workspace. within.
Qed.

Lemma frames_attempted prompt : frames (attempted X E R c ticks tracker prompt).
Proof.
  intros x. unfold attempted. pose proof (frames_world (ru_before R) x) as Hw.
  destruct (world (ru_before R) x) as [[?|e] x1]; simpl in Hw.
  - eapply frame_trans; [exact Hw|]. apply (within_try frame (work X E R c ticks tracker prompt)).
    + apply frames_work.
    + intros e. apply frames_handle.
  - eapply frame_trans; [exact Hw|apply frames_handle].
Qed.
End body.

(** ** Returning *)

Section ends.
Context {W : Type} (Q : Prop).
Local Abbreviation OP A := (M (RunState W) rexn A).

Lemma ends_ret {A} (a : A) : ends Q (mret a : OP A).
Proof. intros x. left. by exists a. Qed.
Lemma ends_bind {A B} (m : OP A) (f : A -> OP B) : ends Q m -> (forall a, ends Q (f a)) -> ends Q (m ≫= f).
Proof.
  intros Hm Hf x. unfold mbind, M_bind. destruct (Hm x) as [[a Ha]|[He HQ]];
    destruct (m x) as [r x1]; simpl in *; subst r; [apply Hf|by right].
Qed.
Lemma ends_modify f : ends Q (modify f : OP unit).
Proof. intros x. left. by exists tt. Qed.
Lemma ends_gets {A} (f : RunState W -> A) : ends Q (gets f : OP A).
Proof. intros x. left. by eexists. Qed.
Lemma ends_reg ticks f : ends Q (reg ticks f : OP unit).
Proof. apply ends_modify. Qed.
Lemma ends_status E p : ends Q (in_git (get_file_status E p) : OP (list string)).
Proof.
  intros x. left. unfold in_git, get_file_status, run_git, mbind, M_bind. destruct (ge_git _ _ _ _) as [o w]. by eexists.
Qed.
End ends.

Create HintDb ends.
#[local] Hint Resolve ends_ret ends_modify ends_gets ends_reg ends_status : ends.
#[local] Hint Unfold on_ses on_sync on_host ses sync_ses look : ends.

Ltac ends :=
  repeat match goal with
  | |- ends _ (_ ≫= _) => apply ends_bind; [|intros ?]
  | |- ends _ (match ?d with _ => _ end) => destruct d
  | |- ends _ _ => solve [autounfold with ends; auto with ends]
  end.

(** A cancellation that reaches the run while it ends: a call of the tracker, the
    wait for git in the handler of a timeout, or the clean-up of the workspace. *)
Definition tracker_interrupted (tracker : Tracker) : Prop :=
  (exists n id state b, tr_update tracker n id state = Interrupted b) \/ (exists n id b, tr_comment tracker n id = Interrupted b).
Definition interrupted {W} (R : RunEnv W) (tracker : Tracker) : Prop :=
  tracker_interrupted tracker \/ (exists w, ru_interrupted R w = true)
  \/ exists status reason w, fst (ru_cleanup R status reason w) = Raise RCancelled.

Lemma sync_tracker_ends tracker id state h : ended ICancelled (tracker_interrupted tracker) (fst (sync_tracker tracker id state h)).
Proof.
  unfold sync_tracker. destruct (String.eqb id ""); [left; by eexists|].
  destruct (tr_update tracker (h_calls h) id state) as [| |b] eqn:E; [left; by eexists..|].
  right. split; [done|]. left. eauto.
Qed.

Section handlers.
Context {W : Type} (X : Text) (E : GitEnv W) (R : RunEnv W) (c : BodyConfig).
Context (ticks : nat -> Tick) (tracker : Tracker).

Lemma ends_tell state : ends (interrupted R tracker) (tell_tracker tracker state : M (RunState W) rexn unit).
Proof.
  intros x. unfold tell_tracker. pose proof (sync_tracker_ends tracker (u_id (x_ses x)) state (x_host x)) as H.
  destruct (sync_tracker tracker _ _ _) as [r h]. simpl in *.
  destruct H as [[a ->]|[-> HQ]]; [left; by eexists|right]. split; [done|by left].
Qed.
Lemma ends_cleanup : ends (interrupted R tracker) (cleanup_workspace R : M (RunState W) rexn unit).
Proof.
  unfold cleanup_workspace. ends. intros x. unfold swallow_errors, try_except, world.
  destruct (ru_cleanup R _ _ _) as [[?|e] w] eqn:Ec; simpl in *; [left; by eexists|].
  destruct e; [left; by eexists..|right|left; by eexists]. split; [done|]. right. right. do 3 eexists. by rewrite Ec.
Qed.
Lemma ends_on_timeout : ends (interrupted R tracker) (on_timeout E R c).
Proof.
  unfold on_timeout, event. do 2 (apply ends_bind; [ends|intros ?]). intros x. unfold mbind at 1, M_bind at 1.
  cbn [look gets]. destruct (ru_interrupted R (gs_w (x_git x))) eqn:Ei; [right; split; [done|]; right; left; eauto|].
  revert x Ei. enough (H : ends (interrupted R tracker)
    (on_ses (set_dirty (match a0 with [] => false | _ => true end));;
     on_ses (set_run_status "agent_timeout");;
     on_sync (set_verification (Some "failed")
       (Some ("Agent run exceeded configured timeout (" +:+ str_int (bc_run_timeout_ms c) +:+ "ms)")));;
     event "issue.failed" : M (RunState W) rexn unit)) by (intros x _; apply H). unfold event. ends.
Qed.
#[local] Hint Resolve ends_tell ends_cleanup ends_on_timeout : ends.

Lemma ends_handle ran e : ends (interrupted R tracker) (handle E R c ticks tracker ran e).
Proof.
  unfold handle, on_post_commit, on_verification_failed, on_hook_failed, on_cancelled, on_shutdown,
    on_operator_stop, on_error, fail_verification, record_synced, report_session, event. ends.
Qed.

Lemma ends_attempted prompt : ends (interrupted R tracker) (attempted X E R c ticks tracker prompt).
Proof.
  intros x. unfold attempted. destruct (world (ru_before R) x) as [[?|e] x1]; [|apply ends_handle].
  unfold try_except. destruct (work _ _ _ _ _ _ _ x1) as [[?|e] x2]; [left; by eexists|apply ends_handle].
Qed.

Lemma frames_cleanup : frames (cleanup_workspace R : M (RunState W) rexn unit).
Proof. unfold cleanup_workspace. within. Qed.
End handlers.

(** ** The interpretation *)

Lemma schedule_running cfg t0 t s base o : oc_running (snd (schedule_retry cfg t0 t s base o)) = oc_running o.
Proof. unfold schedule_retry. by repeat case_match. Qed.
Lemma host_schedule_running cfg tk tracker s base h :
  oc_running (h_orch (snd (host_schedule_retry cfg tk tracker s base h))) = oc_running (h_orch h).
Proof.
  unfold host_schedule_retry. pose proof (schedule_running (rc_agent cfg) (tk_run tk) (tk_retry tk) s base (h_orch h)) as H.
  destruct (schedule_retry _ _ _ _ _ _) as [[b|e] o]; simpl in *; [|done]. destruct (retries_exhausted _ _ _); [|done].
  unfold mbind, M_bind. pose proof (sync_tracker_orch tracker (ses_id s) "abandoned" (set_orch o h)) as Ho.
  destruct (sync_tracker _ _ _ _) as [[?|e] h1]; simpl in *; by rewrite Ho.
Qed.
Lemma sync_running {A} tracker id state (a : A) h :
  oc_running (h_orch (snd ((sync_tracker tracker id state;; mret a) h))) = oc_running (h_orch h).
Proof.
  unfold mbind, M_bind. pose proof (sync_tracker_orch tracker id state h) as Ho.
  destruct (sync_tracker _ _ _ _) as [[?|e] h1]; simpl in *; by rewrite Ho.
Qed.
Lemma retry_or_close_running cfg tk tracker s base state reason h :
  oc_running (h_orch (snd (retry_or_close cfg tk tracker s base state reason h))) = oc_running (h_orch h).
Proof.
  unfold retry_or_close. unfold mbind at 1, M_bind at 1. pose proof (host_schedule_running cfg tk tracker s base h) as H.
  destruct (host_schedule_retry _ _ _ _ _ _) as [[[]|e] h']; simpl in *; [done| |done]. by rewrite sync_running.
Qed.
Lemma ending_running cfg tk tracker s h :
  oc_running (h_orch (snd (ending cfg tk tracker s h))) = oc_running (h_orch h).
Proof.
  unfold ending. cbv zeta. repeat case_match; rewrite ?retry_or_close_running, ?sync_running; done.
Qed.
Lemma interpret_running cfg tk tracker s h :
  oc_running (h_orch (snd (interpret cfg tk tracker s h))) = oc_running (h_orch h).
Proof.
  unfold interpret, mbind, M_bind. pose proof (ending_running cfg tk tracker s h) as H.
  destruct (ending _ _ _ _ _) as [[o|e] h1]; simpl in *; [|done]. destruct (summarize_keeps tracker s h1) as [Ho _].
  destruct (summarize _ _ _) as [[?|e] h2]; simpl in *; by rewrite Ho.
Qed.

(** With attempts that are not negative the interpretation answers, unless a call
    of the tracker is cancelled. *)
Lemma sync_ends {A} tracker id state (a : A) h :
  ended ICancelled (tracker_interrupted tracker) (fst ((sync_tracker tracker id state;; mret a) h)).
Proof.
  unfold mbind, M_bind. pose proof (sync_tracker_ends tracker id state h) as H.
  destruct (sync_tracker _ _ _ _) as [r h1]; simpl in *. destruct H as [[? ->]|[-> H]]; [left; by eexists|by right].
Qed.
Lemma retry_or_close_ends cfg tk tracker s base state reason h :
  0 <= default 0 (dget (ses_id s) (oc_retry_attempts (h_orch h))) ->
  ended ICancelled (tracker_interrupted tracker) (fst (retry_or_close cfg tk tracker s base state reason h)).
Proof.
  intros H. unfold retry_or_close. unfold mbind at 1, M_bind at 1.
  assert (Hs : ended ICancelled (tracker_interrupted tracker) (fst (host_schedule_retry cfg tk tracker s base h))).
  { unfold host_schedule_retry, schedule_retry. destruct (non_retryable _); simpl.
    - destruct (retries_exhausted _ _ _); [apply sync_ends|left; by eexists].
    - destruct (negb (max_retry_attempts (rc_agent cfg) =? 0) && _); simpl.
      + destruct (retries_exhausted _ _ _); [apply sync_ends|left; by eexists].
      + unfold compute_retry_delay.
        destruct (Z.ltb_spec (default 0 (dget (ses_id s) (oc_retry_attempts (h_orch h))) + 1) 1); [lia|]. simpl.
        destruct (retries_exhausted _ _ _); [apply sync_ends|left; by eexists]. }
  destruct (host_schedule_retry cfg tk tracker s base h) as [r h1]. simpl in Hs.
  destruct Hs as [[[] ->]|[-> Hs]]; [left; by eexists|apply sync_ends|by right].
Qed.
Lemma ending_ends cfg tk tracker s h :
  0 <= default 0 (dget (run_issue s) (oc_retry_attempts (h_orch h))) ->
  ended ICancelled (tracker_interrupted tracker) (fst (ending cfg tk tracker s h)).
Proof.
  intros H. unfold ending. cbv zeta.
  repeat case_match; first [by apply retry_or_close_ends|apply sync_ends|left; by eexists].
Qed.
Lemma interpret_ends cfg tk tracker s h :
  0 <= default 0 (dget (run_issue s) (oc_retry_attempts (h_orch h))) ->
  ended ICancelled (tracker_interrupted tracker) (fst (interpret cfg tk tracker s h)).
Proof.
  intros H%(ending_ends cfg tk tracker s h). unfold interpret, mbind, M_bind.
  destruct (ending _ _ _ _ _) as [r h1]. simpl in H. destruct H as [[o ->]|[-> H]]; [|by right].
  unfold summarize, update_issue_summary. destruct (_ || _); [left; by eexists|].
  destruct (tr_comment tracker _ _) eqn:E; [left; by eexists..|]. right. split; [done|]. right. eauto.
Qed.

(** ** The end of every run *)

Lemma filter_out id (l : list string) : id ∉ List.filter (fun y => negb (String.eqb id y)) l.
Proof.
  intros H. apply list_elem_of_In, filter_In in H as [_ H]. by rewrite String.eqb_refl in H.
Qed.

Section final.
Context {W : Type} (X : Text) (E : GitEnv W) (R : RunEnv W) (c : BodyConfig).
Context (ticks : nat -> Tick) (tracker : Tracker).

(** The part of the final block after the diagnostics *)
Definition close_run : M (RunState W) rexn unit :=
  u ← ses;
  on_host (fun h => set_orch (drop_running (u_id u) (h_orch h)) h);;
  (if bc_journal c then settle_outcome c ticks tracker else mret tt);;
  cleanup_workspace R;;
  release_claim.

Lemma final_split (x : RunState W) :
  exists x1, final R c ticks tracker x = close_run x1 /\ frame x x1 /\ x_ses x1 = x_ses x
    /\ h_tracker (x_host x1) = h_tracker (x_host x) /\ h_pending_review (x_host x1) = h_pending_review (x_host x).
Proof. eexists. split; [reflexivity|]. split; [by constructor|done]. Qed.

(** The interpretation, where it happens *)
Lemma settle_keeps (x : RunState W) r x' :
  settle_outcome c ticks tracker x = (r, x') ->
  x_ses x' = x_ses x /\ oc_running (h_orch (x_host x')) = oc_running (h_orch (x_host x)).
Proof.
  unfold settle_outcome. pose proof (interpret_running (bc_run c) (ticks_from ticks (x_clock x)) tracker (core x) (x_host x)) as H.
  destruct (interpret _ _ _ _ _) as [[o|e] h]; simpl in *; intros [= <- <-]; done.
Qed.
Lemma settle_ends (x : RunState W) :
  0 <= default 0 (dget (u_id (x_ses x)) (oc_retry_attempts (h_orch (x_host x)))) ->
  ended RCancelled (tracker_interrupted tracker) (fst (settle_outcome c ticks tracker x)).
Proof.
  intros H. unfold settle_outcome.
  pose proof (interpret_ends (bc_run c) (ticks_from ticks (x_clock x)) tracker (core x) (x_host x) H) as Ho.
  destruct (interpret _ _ _ _ _) as [r h]; simpl in *. destruct Ho as [[o ->]|[-> Hi]]; [left; by eexists|by right].
Qed.

(** The queue, the attempts and the outcomes *)
Definition verdicts (x : RunState W) : list RetryItem * dict string Z * dict string Outcome :=
  (oc_retry_queue (h_orch (x_host x)), oc_retry_attempts (h_orch (x_host x)), x_outcomes x).

Lemma frame_verdicts x x' : frame x x' -> verdicts x' = verdicts x.
Proof. intros [_ _ _ Hq Ha Ho]. unfold verdicts. congruence. Qed.
Lemma close_run_silent (x : RunState W) : bc_journal c = false -> verdicts (snd (close_run x)) = verdicts x.
Proof.
  intros Hj. unfold close_run. rewrite Hj.
  set (x1 := with_host (set_orch (drop_running (u_id (x_ses x)) (h_orch (x_host x))) (x_host x)) x).
  change (verdicts (snd ((cleanup_workspace R;; release_claim) x1)) = verdicts x1).
  unfold mbind at 1, M_bind at 1. pose proof (frame_verdicts _ _ (frames_cleanup R x1)) as F.
  destruct (cleanup_workspace R x1) as [[?|e] x3]; simpl in *; done.
Qed.

Lemma close_run_frees (x : RunState W) :
  0 <= default 0 (dget (u_id (x_ses x)) (oc_retry_attempts (h_orch (x_host x)))) ->
  exists r x', close_run x = (r, x') /\ u_id (x_ses x) ∉ oc_running (h_orch (x_host x'))
    /\ (r = Ret tt /\ u_id (x_ses x) ∉ oc_claimed (h_orch (x_host x'))
        \/ r = Raise RCancelled /\ interrupted R tracker).
Proof.
  intros Ha. unfold close_run. set (u := x_ses x).
  set (x1 := with_host (set_orch (drop_running (u_id u) (h_orch (x_host x))) (x_host x)) x).
  assert (Hout : u_id u ∉ oc_running (h_orch (x_host x1))) by apply filter_out.
  unfold mbind at 1, M_bind at 1. cbn [ses gets]. unfold mbind at 1, M_bind at 1. cbn [on_host modify].
  fold u. fold x1. unfold mbind at 1, M_bind at 1.
  assert (Hm : ended RCancelled (tracker_interrupted tracker) (fst ((if bc_journal c then settle_outcome c ticks tracker else mret tt) x1))
             /\ x_ses (snd ((if bc_journal c then settle_outcome c ticks tracker else mret tt) x1)) = u
             /\ oc_running (h_orch (x_host (snd ((if bc_journal c then settle_outcome c ticks tracker else mret tt) x1))))
                = oc_running (h_orch (x_host x1))).
  { destruct (bc_journal c); [|split; [left; by eexists|done]]. split; [by apply settle_ends|].
    destruct (settle_outcome c ticks tracker x1) as [r x2] eqn:Es. by apply settle_keeps in Es. }
  destruct ((if bc_journal c then settle_outcome c ticks tracker else mret tt) x1) as [r2 x2]. simpl in Hm. destruct Hm as ([[[] ->]|[-> Hi]] & Hu & Hr).
  2: { do 2 eexists. split; [reflexivity|]. rewrite Hr. split; [done|]. right. split; [done|]. by left. }
  pose proof (ends_cleanup R tracker x2) as Hc. pose proof (frames_cleanup R x2) as [Fi Fr _ _ _ _].
  unfold mbind at 1, M_bind at 1. destruct (cleanup_workspace R x2) as [r3 x3]. simpl in Hc, Fi, Fr.
  destruct Hc as [[[] ->]|[-> Hi]]; do 2 eexists; (split; [reflexivity|]); simpl; rewrite Fr, Hr; (split; [done|]).
  - left. split; [done|]. rewrite Fi, Hu. apply filter_out.
  - by right.
Qed.
End final.

(** C21: the body of a run always comes to an end with the slot of the issue free,
    whatever hooks, agents, git, the tracker and the clean-up do. It returns with
    the claim freed too, or it is cancelled, and that only if a call of the
    tracker, the wait for git in the timeout handler or the clean-up of the
    workspace was; then the claim is freed unless it was the final block itself
    that was cancelled. The recorded number of attempts is taken not to be
    negative, and the git calls of the sync not to be cancelled half way. *)
Theorem run_frees_slot {W} X E (R : RunEnv W) c ticks tracker prompt x :
  0 <= default 0 (dget (u_id (x_ses x)) (oc_retry_attempts (h_orch (x_host x)))) ->
  exists r x', run_issue_body X E R c ticks tracker prompt x = (r, x')
    /\ u_id (x_ses x) ∉ oc_running (h_orch (x_host x'))
    /\ (r = Ret tt /\ u_id (x_ses x) ∉ oc_claimed (h_orch (x_host x'))
        \/ r = Raise RCancelled /\ interrupted R tracker
           /\ (u_id (x_ses x) ∉ oc_claimed (h_orch (x_host x'))
               \/ fst (final R c ticks tracker (snd (attempted X E R c ticks tracker prompt x))) = Raise RCancelled)).
Proof.
  intros Ha. unfold run_issue_body, finally.
  pose proof (ends_attempted X E R c ticks tracker prompt x) as He.
  pose proof (frames_attempted X E R c ticks tracker prompt x) as F.
  destruct (attempted X E R c ticks tracker prompt x) as [r x1]. simpl in He, F |- *.
  destruct (final_split R c ticks tracker x1) as (x2 & -> & F2 & _). pose proof (frame_trans _ _ _ F F2) as [Fi _ _ _ Fa _].
  destruct (close_run_frees R c ticks tracker x2) as (r3 & x3 & -> & H1 & H2); [by rewrite Fi, Fa|].
  rewrite Fi in *. destruct H2 as [[-> H2]|[-> H2]].
  - do 2 eexists. split; [reflexivity|]. split; [done|].
    destruct He as [[[] ->]|[-> Hi]]; [by left|right]. split; [done|]. split; [done|]. by left.
  - do 2 eexists. split; [reflexivity|]. split; [done|]. right. split; [done|]. split; [done|]. by right.
Qed.

(** Without the visualisation journal the end of a run is never
    interpreted: no retry is queued, no attempt is counted and the kernel hears
    of no outcome, however the run ended. *)
Theorem no_journal_no_verdict {W} X E (R : RunEnv W) c ticks tracker prompt x :
  bc_journal c = false -> verdicts (snd (run_issue_body X E R c ticks tracker prompt x)) = verdicts x.
Proof.
  intros Hj. unfold run_issue_body, finally.
  pose proof (frames_attempted X E R c ticks tracker prompt x) as F.
  destruct (attempted X E R c ticks tracker prompt x) as [r x1]. simpl in F.
  destruct (final_split R c ticks tracker x1) as (x2 & Hf & F2 & _).
  rewrite <- (frame_verdicts _ _ (frame_trans _ _ _ F F2)), <- (close_run_silent R c ticks tracker x2 Hj), <- Hf.
  by destruct (final R c ticks tracker x1) as [[?|e] x3].
Qed.

(** ** Publishing *)

(** Only calls that publish nothing were made. *)
Definition unseen {W} (x x' : RunState W) : Prop :=
  exists l, gs_log (x_git x') = gs_log (x_git x) ++ l /\ Forall unpublished l.

#[local] Instance unseen_preorder {W} : PreOrder (@unseen W).
Proof.
  split.
  - intros x. exists []. by rewrite app_nil_r.
  - intros x y z (l1 & H1 & P1) (l2 & H2 & P2). exists (l1 ++ l2). rewrite H2, H1, (assoc_L (++)).
    split; [done|]. by apply Forall_app.
Qed.
#[local] Hint Resolve unseen_preorder : within.

Section unseen.
Context {W : Type}.
Local Abbreviation OP A := (M (RunState W) rexn A).

Lemma same_log (x x' : RunState W) : gs_log (x_git x') = gs_log (x_git x) -> unseen x x'.
Proof. intros H. exists []. by rewrite app_nil_r. Qed.
Lemma unseen_on_ses f : within unseen (on_ses f : OP unit).
Proof. intros x. by apply same_log. Qed.
Lemma unseen_on_sync f : within unseen (on_sync f : OP unit).
Proof. intros x. by apply same_log. Qed.
Lemma unseen_on_host f : within unseen (on_host f : OP unit).
Proof. intros x. by apply same_log. Qed.
Lemma unseen_world {A} (m : M W rexn A) : within unseen (world m : OP A).
Proof. intros x. unfold world. destruct (m _) as [r w]. by apply same_log. Qed.
Lemma unseen_tell tracker state : within unseen (tell_tracker tracker state : OP unit).
Proof. intros x. unfold tell_tracker. destruct (sync_tracker _ _ _ _) as [r h]. by apply same_log. Qed.
Lemma unseen_run_agent call : within unseen (run_agent call : OP unit).
Proof. intros x. unfold run_agent. destruct (call _ _) as [[a r] w]. by apply same_log. Qed.
Lemma unseen_reg ticks f : within unseen (reg ticks f : OP unit).
Proof. intros x. by apply same_log. Qed.
Lemma unseen_add_failed : within unseen (add_failed : OP unit).
Proof. intros x. by apply same_log. Qed.
Lemma unseen_classify r : within unseen (classify_sync r : OP bool).
Proof. intros x. unfold classify_sync. destruct (interpret_sync_result _ _) as [[] s]; by apply same_log. Qed.
Lemma unseen_settle c ticks tracker : within unseen (settle_outcome c ticks tracker : OP unit).
Proof. intros x. unfold settle_outcome. destruct (interpret _ _ _ _ _) as [[o|e] h]; by apply same_log. Qed.
Lemma unseen_in_git {A} (m : M (GState W) gexn A) : logs unpublished m -> within unseen (in_git m : OP A).
Proof.
  intros H x. unfold in_git. destruct (H (x_git x)) as [(l & Hl & P) _]. destruct (m (x_git x)) as [r g].
  by exists l.
Qed.
End unseen.

#[local] Hint Resolve unseen_on_ses unseen_on_sync unseen_on_host unseen_world unseen_tell unseen_run_agent unseen_reg
  unseen_add_failed unseen_classify unseen_settle unseen_in_git local_status local_root : within.

Section publishing.
Context {W : Type} (X : Text) (E : GitEnv W) (R : RunEnv W) (c : BodyConfig).
Context (ticks : nat -> Tick) (tracker : Tracker).

Lemma unseen_repro prompt : within unseen (run_repro_gate X R c ticks tracker prompt).
Proof.
  unfold run_repro_gate, repro_pass, verdict, settle_gate, evaluate, open_gate, close_gate, try_comment.
  within.
Qed.
Lemma unseen_handle ran e : within unseen (handle E R c ticks tracker ran e).
Proof.
  unfold handle, on_post_commit, on_verification_failed, on_hook_failed, on_timeout, on_cancelled, on_shutdown,
    on_operator_stop, on_error, fail_verification, record_synced, cleanup_workspace, report_session, event.
  within.
Qed.
Lemma unseen_final : within unseen (final R c ticks tracker : M (RunState W) rexn unit).
Proof. unfold final, update_diagnostics, cleanup_workspace, release_claim. within. Qed.
Lemma unseen_changes : within unseen (check_changes E ticks tracker).
Proof.
  unfold check_changes, without_changes, has_changes, head_moved, complete_read_only_followup, report_session.
  within. apply unseen_in_git. by apply local_git.
Qed.
Lemma unseen_after_sync r : within unseen (after_sync R c ticks tracker r).
Proof.
  unfold after_sync, record_result, record_followup, record_synced, announce_pr, review_gate, salvage, report_session,
    event. within.
Qed.
Lemma unseen_premise payload : within unseen (premise_not_met X R ticks tracker payload).
Proof. unfold premise_not_met, try_comment. within. Qed.

(** A run publishes nothing when its work does not. *)
Lemma unseen_run prompt x :
  (forall x1, x_ses x1 = x_ses x -> gs_w (x_git x1) = snd (ru_before R (gs_w (x_git x))) ->
     unseen x1 (snd (work X E R c ticks tracker prompt x1))) ->
  unseen x (snd (run_issue_body X E R c ticks tracker prompt x)).
Proof.
  intros Hw.
  assert (Ha : unseen x (snd (attempted X E R c ticks tracker prompt x))).
  { unfold attempted. pose proof (unseen_world (ru_before R) x) as Hb.
    destruct (world (ru_before R) x) as [[?|e] x1] eqn:Ex; simpl in Hb.
    - etransitivity; [exact Hb|].
      assert (Hs : x_ses x1 = x_ses x /\ gs_w (x_git x1) = snd (ru_before R (gs_w (x_git x)))).
      { unfold world in Ex. destruct (ru_before R _) as [r w]. by injection Ex as _ <-. }
      destruct Hs as [Hs Hw1]. specialize (Hw x1 Hs Hw1). unfold try_except. destruct (work X E R c ticks tracker prompt x1) as [[?|e] x2]; simpl in *; [done|].
      etransitivity; [exact Hw|apply unseen_handle].
    - etransitivity; [exact Hb|apply unseen_handle]. }
  unfold run_issue_body, finally. destruct (attempted X E R c ticks tracker prompt x) as [r x1]. simpl in Ha.
  etransitivity; [exact Ha|]. pose proof (unseen_final x1) as Hf.
  by destruct (final R c ticks tracker x1) as [[?|e] x2].
Qed.
End publishing.

(** C22: a run whose configured test command fails wherever it is run publishes
    nothing from its first hook to the release of its claim: neither the sync nor
    any handler pushes or calls the tracker about a pull request. To fail is to
    time out, or to end with another code than 0 and none of the six signs of an
    incomplete environment (such as ImportError) in the output; with such a sign
    the code lets failing tests pass. *)
Theorem failing_tests_run_unpublished {W} X (E : GitEnv W) R c ticks tracker prompt cmd x :
  given (sy_test_command (bc_sync c)) = Some cmd ->
  (forall dir w, failed (fst (ge_shell E cmd dir (sy_timeout_ms (bc_sync c)) w))) ->
  unseen x (snd (run_issue_body X E R c ticks tracker prompt x)).
Proof.
  intros Hcmd Hfail. apply unseen_run. intros x1 _ _. revert x1.
  change (within unseen (work X E R c ticks tracker prompt)). unfold work, agent_pass, after_agent, sync_phase.
  pose proof (unseen_repro X R c ticks tracker prompt). pose proof (unseen_premise X R ticks tracker).
  pose proof (unseen_changes E ticks tracker). pose proof (unseen_after_sync R c ticks tracker).
  assert (Hs : forall f, within unseen (in_git (GitSync.sync E (bc_sync c) f) : M (RunState W) rexn _)).
  { intros f. apply unseen_in_git. by apply (failing_tests_quit E (bc_sync c) cmd f). }
  within.
Qed.

(** What the reproduction pass left in [w] shows no failure: the agent reports
    that there is nothing to reproduce, or there is no command, or the command
    ends with 0 in time. *)
Definition undemonstrated {W} (R : RunEnv W) c (w : W) : Prop :=
  ru_file R NOT_REPRODUCIBLE_FILE w <> FAbsent
  \/ (forall text, ru_file R REPRO_COMMAND_FILE w <> FText text)
  \/ exists text, ru_file R REPRO_COMMAND_FILE w = FText text
       /\ (command_line text = None
           \/ exists cmd out, command_line text = Some cmd
                /\ fst (ru_shell R cmd (rp_command_timeout_ms (bc_repro c)) w) = ShDone 0 out).

Lemma undemonstrated_verdict {W} X (R : RunEnv W) c w :
  undemonstrated R c w ->
  proceed (fst (evaluate_repro_gate X (ru_file R NOT_REPRODUCIBLE_FILE w) (ru_file R REPRO_COMMAND_FILE w)
    (fun cmd => ru_shell R cmd (rp_command_timeout_ms (bc_repro c))) (rp_command_timeout_ms (bc_repro c)) w)) = false.
Proof.
  intros Hu. apply not_true_iff_false. intros (Hm & text & cmd & Ht & Hc & Hs)%repro_gate_opens.
  destruct Hu as [H|[H|(text' & Ht' & H)]]; [done|by apply (H text)|]. rewrite Ht in Ht'. injection Ht' as <-.
  destruct H as [H|(cmd' & out & Hc' & H)]; [congruence|]. apply (Hs out). congruence.
Qed.

(** The world in which the gate is evaluated: after the hook before the run and
    the reproduction pass. *)
Definition after_repro {W} (R : RunEnv W) (prompt : string) (u : RunSes) (w : W) : W :=
  snd (ru_repro R (set_kind "repro" (Some prompt) u) w).

Lemma settle_gate_closed {W} X (R : RunEnv W) ticks tracker timed_out r x :
  proceed r = false -> fst (settle_gate X R ticks tracker timed_out r x) <> Ret true.
Proof.
  intros Hp. unfold settle_gate. rewrite Hp. unfold mbind at 1 2, M_bind.
  destruct (rg_command r); destruct (close_gate _ _ _ _ _ _ x) as [[?|e] x1]; simpl; congruence.
Qed.

Lemma repro_gate_closed {W} X (R : RunEnv W) c ticks tracker prompt x :
  undemonstrated R c (after_repro R prompt (x_ses x) (gs_w (x_git x))) ->
  fst (run_repro_gate X R c ticks tracker prompt x) <> Ret true.
Proof.
  intros Hu%(undemonstrated_verdict X). unfold run_repro_gate, mbind, M_bind. cbn [on_ses modify].
  unfold repro_pass, try_except, run_agent, mbind, M_bind. cbn [x_ses x_git with_ses].
  unfold after_repro in Hu. destruct (ru_repro R _ _) as [[a r] w]. cbn [snd] in Hu.
  destruct r as [[]|[]]; [|done|by apply settle_gate_closed|done..].
  cbn [mret M_ret verdict]. unfold evaluate, world. cbn [gs_w x_git store_report with_ses with_git].
  destruct (evaluate_repro_gate _ _ _ _ _ _) as [r w']. simpl in *. by apply settle_gate_closed.
Qed.

Lemma finally_ext {W} (m m' fin : M (RunState W) rexn unit) x : m x = m' x -> finally m fin x = finally m' fin x.
Proof. intros H. unfold finally. by rewrite H. Qed.

(** Behind a closed gate there is no work. *)
Lemma work_closed {W} X (E : GitEnv W) R c ticks tracker prompt x :
  repro_gate_applies c (x_ses x) = true -> undemonstrated R c (after_repro R prompt (x_ses x) (gs_w (x_git x))) ->
  work X E R c ticks tracker prompt x
  = finally (run_repro_gate X R c ticks tracker prompt;; mret tt) (world (ru_after R)) x.
Proof.
  intros Ha Hu. unfold work. apply finally_ext. unfold mbind at 1, M_bind at 1. cbn [ses gets]. rewrite Ha.
  pose proof (repro_gate_closed X R c ticks tracker prompt x Hu) as H. unfold mbind, M_bind.
  destruct (run_repro_gate X R c ticks tracker prompt x) as [[[]|e] x1]; done.
Qed.

(** The same outside with another agent for the fix *)
Definition with_agent {W} (workflow : option (agent_call W)) (runner : agent_call W) (R : RunEnv W) : RunEnv W :=
  mkRunEnv (ru_before R) (ru_after R) workflow runner (ru_repro R) (ru_file R) (ru_shell R) (ru_hint R) (ru_comment R)
    (ru_reply R) (ru_summary R) (ru_rules R) (ru_consume_feedback R) (ru_cleanup R) (ru_interrupted R) (ru_shutdown R)
    (ru_diagnostics R).

(** C23: when the reproduction gate applies and the reproduction pass has left
    nothing that shows a failure (it reports that nothing can be reproduced, or
    leaves no command, or one that ends with 0 in time), the run publishes nothing
    and the agents that would write the fix have no influence on it: with any
    others it does the same. A command that times out counts as a demonstration
    and is not covered. *)
Theorem closed_gate_no_fix {W} X (E : GitEnv W) R c ticks tracker prompt x workflow runner :
  repro_gate_applies c (x_ses x) = true ->
  undemonstrated R c (after_repro R prompt (x_ses x) (snd (ru_before R (gs_w (x_git x))))) ->
  unseen x (snd (run_issue_body X E R c ticks tracker prompt x))
  /\ run_issue_body X E (with_agent workflow runner R) c ticks tracker prompt x
     = run_issue_body X E R c ticks tracker prompt x.
Proof.
  intros Ha Hu. split.
  - apply unseen_run. intros x1 Hs Hw. rewrite work_closed by (rewrite ?Hs, ?Hw; done).
    apply within_finally; [apply _| |apply unseen_world].
    apply within_bind; [apply _|apply unseen_repro|]. intros _. apply within_ret, _.
  - unfold run_issue_body. apply finally_ext. unfold attempted.
    change (ru_before (with_agent workflow runner R)) with (ru_before R).
    destruct (world (ru_before R) x) as [[?|e] x1] eqn:Ex; [|done].
    assert (Hs : x_ses x1 = x_ses x /\ gs_w (x_git x1) = snd (ru_before R (gs_w (x_git x)))).
    { unfold world in Ex. destruct (ru_before R _) as [r w]. by injection Ex as _ <-. }
    destruct Hs as [Hs Hw]. unfold try_except. rewrite !work_closed by (rewrite ?Hs, ?Hw; done). done.
Qed.

(** ** An agent that declines *)

Section declined.
Context {W : Type} (X : Text) (E : GitEnv W) (R : RunEnv W) (c : BodyConfig).
Context (ticks : nat -> Tick) (tracker : Tracker).
Hypothesis comments_kept : forall id body w, fst (ru_comment R id body w) <> Raise RCancelled.
Hypothesis accepted : forall n id, tr_update tracker n id "failed" = Accepted.

Lemma comment_returns body x : exists g, try_comment R body x = (Ret tt, with_git g x).
Proof.
  unfold try_comment, swallow_errors, try_except, world, mbind, M_bind. cbn [ses gets].
  pose proof (comments_kept (u_id (x_ses x)) body (gs_w (x_git x))) as H.
  destruct (ru_comment R _ _ _) as [[[]|e] w]; simpl in *; [by eexists|]. destruct e; [by eexists..|done|by eexists].
Qed.

(** The session and the tracker after the exit of the agent *)
Definition gave_up (x x' : RunState W) : Prop :=
  u_id (x_ses x') = u_id (x_ses x) /\ u_status (x_ses x') = "failed"
  /\ u_end_reason (x_ses x') = Some "premise_not_met"
  /\ h_pending_review (x_host x') = h_pending_review (x_host x)
  /\ dget (u_id (x_ses x)) (h_tracker (x_host x')) = Some "failed".

Lemma premise_gives_up payload x :
  u_id (x_ses x) <> "" ->
  exists x', premise_not_met X R ticks tracker payload x = (Ret tt, x') /\ gave_up x x'.
Proof.
  intros Hid. unfold premise_not_met, mbind, M_bind. cbn [on_ses modify reg sync_ses gets].
  match goal with |- context [try_comment R ?b ?y] => destruct (comment_returns b y) as [g ->] end.
  unfold tell_tracker, sync_tracker. cbn. rewrite (proj2 (String.eqb_neq _ _) Hid), accepted.
  eexists. split; [reflexivity|]. unfold gave_up. cbn. split_and!; try done. apply dget_dset_eq.
Qed.

Hypothesis no_workflow : ru_workflow R = None.
Hypothesis before_ok : forall w, fst (ru_before R w) = Ret tt.
Hypothesis after_ok : forall w, fst (ru_after R w) = Ret tt.
Hypothesis declines : forall u w,
  snd (fst (ru_runner R u w)) = Ret tt /\ ap_status (fst (fst (ru_runner R u w))) ∈ SYNCED_STATUSES.
Variable raw : string.
Hypothesis marker : forall w, ru_file R CANNOT_PROCEED_MARKER w = FText raw.

Lemma after_agent_declined x :
  u_id (x_ses x) <> "" -> u_status (x_ses x) ∈ SYNCED_STATUSES ->
  exists x', after_agent X E R c ticks tracker x = (Ret tt, x') /\ gave_up x x'.
Proof.
  intros Hid Hst. unfold after_agent, mbind, M_bind. cbn [ses gets]. rewrite (proj2 (mem_true _ _) Hst). cbn [look gets].
  rewrite marker. by apply premise_gives_up.
Qed.

Lemma work_declined prompt x :
  u_id (x_ses x) <> "" -> repro_gate_applies c (x_ses x) = false ->
  exists x', work X E R c ticks tracker prompt x = (Ret tt, x') /\ gave_up x x'.
Proof.
  intros Hid Hg. unfold work, finally, agent_pass. rewrite no_workflow. unfold mbind, M_bind. cbn [ses gets]. rewrite Hg.
  cbn [mret M_ret unless negb]. unfold run_agent at 1. destruct (declines (x_ses x) (gs_w (x_git x))) as [Hr Hs].
  destruct (ru_runner R _ _) as [[a r] w]. simpl in Hr, Hs. subst r.
  match goal with |- context [after_agent X E R c ticks tracker ?y] => destruct (after_agent_declined y) as (x1 & -> & Hup) end;
    [done|done|].
  unfold world. specialize (after_ok (gs_w (x_git x1))). destruct (ru_after R _) as [r w']. simpl in after_ok. subst r.
  eexists. split; [reflexivity|]. exact Hup.
Qed.

Lemma attempted_declined prompt x :
  u_id (x_ses x) <> "" -> repro_gate_applies c (x_ses x) = false ->
  exists x', attempted X E R c ticks tracker prompt x = (Ret tt, x') /\ gave_up x x'.
Proof.
  intros Hid Hg. unfold attempted, world. specialize (before_ok (gs_w (x_git x))).
  destruct (ru_before R _) as [r w]. simpl in before_ok. subst r. unfold try_except.
  match goal with |- context [work X E R c ticks tracker prompt ?y] =>
    destruct (work_declined prompt y) as (x1 & -> & Hup) end; [done|done|].
  by exists x1.
Qed.

(** The interpretation of such a session asks for a retry. *)
Lemma retry_scheduled cfg tk s base state reason h :
  non_retryable (ses_end_reason s) = false -> retries_exhausted cfg s (h_orch h) = false ->
  0 <= default 0 (dget (ses_id s) (oc_retry_attempts (h_orch h))) ->
  exists o h' item, retry_or_close cfg tk tracker s base state reason h = (Ret o, h')
    /\ oc_retry_queue (h_orch h') = oc_retry_queue (h_orch h) ++ [item] /\ rt_dedup_key item = ses_id s
    /\ h_tracker h' = h_tracker h.
Proof.
  intros Hn Hx Ha. unfold retry_or_close, host_schedule_retry, schedule_retry, mbind, M_bind. rewrite Hx.
  unfold retries_exhausted in Hx. rewrite Hn in *. simpl in Hx. rewrite Hx. unfold compute_retry_delay.
  destruct (Z.ltb_spec (default 0 (dget (ses_id s) (oc_retry_attempts (h_orch h))) + 1) 1); [lia|].
  do 3 eexists. split; [reflexivity|]. done.
Qed.

Lemma settle_declined (x : RunState W) :
  u_status (x_ses x) = "failed" -> u_end_reason (x_ses x) = Some "premise_not_met" ->
  u_id (x_ses x) ∉ h_pending_review (x_host x) ->
  retries_exhausted (bc_run c) (rs_session (core x)) (h_orch (x_host x)) = false ->
  0 <= default 0 (dget (u_id (x_ses x)) (oc_retry_attempts (h_orch (x_host x)))) ->
  exists r (x' : RunState W) item, settle_outcome c ticks tracker x = (r, x') /\ x_ses x' = x_ses x
    /\ oc_retry_queue (h_orch (x_host x')) = oc_retry_queue (h_orch (x_host x)) ++ [item]
    /\ rt_dedup_key item = u_id (x_ses x) /\ h_tracker (x_host x') = h_tracker (x_host x).
Proof.
  intros Hst Hre Hp Hx Ha. unfold settle_outcome.
  assert (Hr : retries_after (run_status (core x)) = true) by (unfold run_status; simpl; by rewrite Hst).
  destruct (ending_retry_path (bc_run c) (ticks_from ticks (x_clock x)) tracker (core x) (x_host x) Hp Hr)
    as (base & state & reason & h0 & He & _ & [Hq Ht] & Hat & _). unfold interpret, mbind, M_bind. rewrite He.
  destruct (retry_scheduled (bc_run c) (ticks_from ticks (x_clock x)) (rs_session (core x)) base state reason h0)
    as (o & h' & item & -> & Hq' & Hk & Ht').
  - simpl. by rewrite Hre.
  - unfold retries_exhausted in *. by rewrite Hat.
  - by rewrite Hat.
  - destruct (summarize_keeps tracker (core x) h') as [Hso Hst']. destruct (summarize tracker (core x) h') as [[?|e] h2];
      simpl in Hso, Hst'; do 3 eexists; (split; [reflexivity|]); cbn; rewrite Hso, Hst'.
    all: split; [done|]; split; [by rewrite Hq', Hq|]; split; [exact Hk|]; by rewrite Ht', Ht.
Qed.
End declined.

Lemma cleanup_host {W} (R : RunEnv W) x : x_host (snd (cleanup_workspace R x)) = x_host x.
Proof.
  unfold cleanup_workspace, mbind, M_bind. cbn [ses gets]. unfold swallow_errors, try_except, world.
  destruct (ru_cleanup R _ _ _) as [[?|e] w]; simpl; [done|]. by destruct e.
Qed.

Lemma close_run_declined {W} (R : RunEnv W) c ticks tracker (x : RunState W) :
  bc_journal c = true ->
  u_status (x_ses x) = "failed" -> u_end_reason (x_ses x) = Some "premise_not_met" ->
  u_id (x_ses x) ∉ h_pending_review (x_host x) ->
  retries_exhausted (bc_run c) (rs_session (core x)) (h_orch (x_host x)) = false ->
  0 <= default 0 (dget (u_id (x_ses x)) (oc_retry_attempts (h_orch (x_host x)))) ->
  exists item,
    h_tracker (x_host (snd (close_run R c ticks tracker x))) = h_tracker (x_host x)
    /\ oc_retry_queue (h_orch (x_host (snd (close_run R c ticks tracker x)))) = oc_retry_queue (h_orch (x_host x)) ++ [item]
    /\ rt_dedup_key item = u_id (x_ses x).
Proof.
  intros Hj Hst Hre Hp Hx Ha. unfold close_run. rewrite Hj.
  set (x1 := with_host (set_orch (drop_running (u_id (x_ses x)) (h_orch (x_host x))) (x_host x)) x).
  destruct (settle_declined c ticks tracker x1) as (r3 & x3 & item & E3 & _ & Hq3 & Hk3 & Ht3); [done..|].
  exists item. unfold mbind at 1 5, M_bind at 1 5. cbn [ses gets]. unfold mbind at 1 4, M_bind at 1 4. cbn [on_host modify].
  fold x1. unfold mbind at 1 3, M_bind at 1 3. rewrite E3. destruct r3 as [?|e3]; [|simpl; rewrite Ht3; eauto]. unfold mbind, M_bind.
  pose proof (cleanup_host R x3) as Hh.
  destruct (cleanup_workspace R x3) as [[?|e] x4]; simpl in *; rewrite Hh; simpl; rewrite Ht3; eauto.
Qed.

(** C35: an agent that declares that the issue cannot honestly be completed is
    asked again: the run tells the tracker that the issue has failed, and then
    queues a retry of it, since the reason is not one of those that end an issue.
    This is shown for a run with the journal on and without a workflow engine or a
    reproduction gate that applies, of an issue that has an id and no review
    pending and attempts left below the limit, whose hooks succeed, whose agent
    returns with a status that is synced, whose comments are not cancelled, and
    whose tracker accepts the state. *)
Theorem declined_issue_retried {W} X (E : GitEnv W) R c ticks tracker prompt raw x :
  (forall id body w, fst (ru_comment R id body w) <> Raise RCancelled) ->
  (forall n id, tr_update tracker n id "failed" = Accepted) -> ru_workflow R = None ->
  (forall w, fst (ru_before R w) = Ret tt) -> (forall w, fst (ru_after R w) = Ret tt) ->
  (forall u w, snd (fst (ru_runner R u w)) = Ret tt /\ ap_status (fst (fst (ru_runner R u w))) ∈ SYNCED_STATUSES) ->
  (forall w, ru_file R CANNOT_PROCEED_MARKER w = FText raw) ->
  bc_journal c = true -> repro_gate_applies c (x_ses x) = false -> u_id (x_ses x) <> "" ->
  u_id (x_ses x) ∉ h_pending_review (x_host x) ->
  0 <= default 0 (dget (u_id (x_ses x)) (oc_retry_attempts (h_orch (x_host x))))
    < max_retry_attempts (rc_agent (bc_run c)) ->
  let x' := snd (run_issue_body X E R c ticks tracker prompt x) in
  dget (u_id (x_ses x)) (h_tracker (x_host x')) = Some "failed"
  /\ exists item, oc_retry_queue (h_orch (x_host x')) = oc_retry_queue (h_orch (x_host x)) ++ [item]
                  /\ rt_dedup_key item = u_id (x_ses x).
Proof.
  intros Hc Hacc Hwf Hb Haf Hd Hm Hj Hg Hid Hp [Ha Hmax]. simpl. unfold run_issue_body, finally.
  pose proof (frames_attempted X E R c ticks tracker prompt x) as F.
  destruct (attempted_declined X E R c ticks tracker Hc Hacc Hwf Hb Haf Hd raw Hm prompt x Hid Hg)
    as (x1 & Hx1 & Hu & Hst & Hre & Hpr & Ht). rewrite Hx1 in *. simpl in F.
  destruct (final_split R c ticks tracker x1) as (x2 & -> & F2 & Hs2 & Ht2 & Hp2).
  pose proof (frame_trans _ _ _ F F2) as [_ _ _ Fq Fa _].
  destruct (close_run_declined R c ticks tracker x2 Hj) as (item & Ht3 & Hq3 & Hk3).
  { by rewrite Hs2. } { by rewrite Hs2. } { by rewrite Hs2, Hp2, Hpr, Hu. }
  { unfold retries_exhausted. simpl. rewrite Hs2, Fa, Hu. apply andb_false_intro2, Z.ltb_ge. lia. }
  { by rewrite Hs2, Fa, Hu. }
  rewrite Hs2, Hu in Hk3. rewrite Ht2 in Ht3. rewrite Fq in Hq3.
  destruct (close_run R c ticks tracker x2) as [[?|e] x4]; simpl in *; rewrite Ht3; eauto.
Qed.

(** ** Witnesses *)

Definition run_text : Text := mkText (fun _ => "?") (fun _ => None) (fun _ => None) (fun _ => "{}").

(** An agent that ends with [status], files as [file] says, a shell that answers
    [r]; hooks, comments and replies succeed, the clean-up fails. *)
Definition demo_run_env (status : string) (file : string -> fileres) (r : shellres) : RunEnv unit :=
  let call : agent_call unit := fun u w => ((mkAgentReport status None "" (Some "run-2"), Ret tt), w) in
  let ok : M unit rexn unit := mret tt in
  mkRunEnv ok ok None call call (fun p _ => file p) (fun _ _ w => (r, w)) (fun _ w => w) (fun _ _ => ok) ok
    (fun _ => ok) (fun _ => ok) (fun _ w => w) (fun _ _ => raise (ROther "OSError" "busy")) (fun _ => false) (fun _ => false)
    (fun _ => mkDiagnostics None None None None None None None None None None None None None None None None None None None).

Definition demo_body_config (test : option string) (repro journal : bool) : BodyConfig :=
  mkBodyConfig (mkRunConfig (mkAgentConfig 2 300000) 60000 300000) (demo_sync_config test)
    (mkReproFirst repro 900000 300000 ["Bug"]) false 1800000 journal true.

Definition demo_run_state : RunState unit :=
  mkRunState (sample_host 0) [] demo_start
    (mkRunSes "7" "I-7" ["bug"] "running" None "" None None "issue" None None) [] 0.

Definition demo_ticks (n : nat) : Tick := tick (inject_Z (Z.of_nat n + 100)).

Definition no_files (p : string) : fileres := FAbsent.

(** The tests fail: the run returns, the issue is marked and retried. *)
Definition failing_run : outcome rexn unit * RunState unit :=
  run_issue_body run_text (demo_env (ShDone 1 "boom")) (demo_run_env "completed" no_files (ShDone 1 ""))
    (demo_body_config (Some "make test") false true) demo_ticks agreeing "" demo_run_state.

Lemma run_frees_slot_witness :
  exists x', failing_run = (Ret tt, x') /\ oc_running (h_orch (x_host x')) = []
    /\ u_id (x_ses demo_run_state) ∉ oc_claimed (h_orch (x_host x')).
Proof.
  destruct (run_frees_slot run_text (demo_env (ShDone 1 "boom")) (demo_run_env "completed" no_files (ShDone 1 ""))
              (demo_body_config (Some "make test") false true) demo_ticks agreeing "" demo_run_state)
    as (r & x' & H & _ & [[Hr Hc]|(_ & [[(n & id & st & b & Hi)|(n & id & b & Hi)]|[[w Hi]|(st & re & w & Hi)]] & _)]);
    [by vm_compute| |discriminate Hi..].
  exists x'. unfold failing_run. rewrite H, Hr. split; [done|]. split; [|exact Hc].
  assert (Hx : x' = snd failing_run) by (unfold failing_run; by rewrite H). rewrite Hx. vm_compute. reflexivity.
Defined.

(** A stop that arrives while the final block posts the summary of a failed run:
    the slot is free and a retry is queued, but the claim stays and the workspace
    is not cleaned up. *)
Example interrupted_end_keeps_claim :
  let tracker := mkTracker (fun _ _ _ => Accepted) (fun _ _ => Interrupted false) in
  let '(r, x') := run_issue_body run_text (demo_env (ShDone 0 "")) (demo_run_env "failed" no_files (ShDone 0 ""))
                    (demo_body_config None false true) demo_ticks tracker "" demo_run_state in
  r = Raise RCancelled /\ oc_running (h_orch (x_host x')) = [] /\ oc_claimed (h_orch (x_host x')) = ["7"]
  /\ length (oc_retry_queue (h_orch (x_host x'))) = 1%nat.
Proof. vm_compute. repeat split. Qed.

Lemma failing_tests_run_unpublished_witness :
  unseen demo_run_state (snd failing_run)
  /\ status <$> IssueRegistry.get "7" (oc_registry (h_orch (x_host (snd failing_run)))) = Some VERIFICATION_FAILED
  /\ length (oc_retry_queue (h_orch (x_host (snd failing_run)))) = 1%nat.
Proof.
  split; [|split; vm_compute; reflexivity].
  apply (failing_tests_run_unpublished run_text (demo_env (ShDone 1 "boom"))
           (demo_run_env "completed" no_files (ShDone 1 "")) (demo_body_config (Some "make test") false true)
           demo_ticks agreeing "" "make test" demo_run_state); [done|by vm_compute].
Defined.

(** A command that ends with 0 demonstrates nothing. *)
Definition repro_files (p : string) : fileres :=
  if String.eqb p REPRO_COMMAND_FILE then FText "pytest -k bug" else FAbsent.

Lemma closed_gate_no_fix_witness :
  let R := demo_run_env "completed" repro_files (ShDone 0 "1 passed") in
  let run R := run_issue_body run_text (demo_env (ShDone 0 "ok")) R (demo_body_config None true true) demo_ticks agreeing ""
                 demo_run_state in
  run (with_agent None (fun u w => ((mkAgentReport "stagnation" None "" None, Raise RTimeout), w)) R) = run R
  /\ u_end_summary (x_ses (snd (run R))) = "repro gate closed: not_demonstrated".
Proof.
  intros R run. split; [|vm_compute; reflexivity].
  apply (closed_gate_no_fix run_text (demo_env (ShDone 0 "ok")) R (demo_body_config None true true) demo_ticks agreeing ""
           demo_run_state); [by vm_compute|]. right. right. exists "pytest -k bug". split; [reflexivity|]. right.
  exists "pytest -k bug", "1 passed". split; vm_compute; reflexivity.
Defined.

(** Without the journal the failed run stays open. *)
Lemma no_journal_no_verdict_witness :
  let x' := snd (run_issue_body run_text (demo_env (ShDone 1 "boom")) (demo_run_env "completed" no_files (ShDone 1 ""))
                   (demo_body_config (Some "make test") false false) demo_ticks agreeing "" demo_run_state) in
  verdicts x' = verdicts demo_run_state
  /\ u_status (x_ses x') = "verification_failed"
  /\ status <$> IssueRegistry.get "7" (oc_registry (h_orch (x_host x')))
     = status <$> IssueRegistry.get "7" sample_registry.
Proof.
  intros x'. split; [|split; vm_compute; reflexivity].
  apply (no_journal_no_verdict run_text (demo_env (ShDone 1 "boom")) (demo_run_env "completed" no_files (ShDone 1 ""))
           (demo_body_config (Some "make test") false false) demo_ticks agreeing "" demo_run_state). reflexivity.
Defined.

Definition declining_files (p : string) : fileres :=
  if String.eqb p CANNOT_PROCEED_MARKER then FText "no such file" else FAbsent.

Lemma declined_issue_retried_witness :
  let x' := snd (run_issue_body run_text (demo_env (ShDone 0 "ok"))
                   (demo_run_env "completed" declining_files (ShDone 0 "")) (demo_body_config None false true)
                   demo_ticks agreeing "" demo_run_state) in
  dget "7" (h_tracker (x_host x')) = Some "failed" /\ length (oc_retry_queue (h_orch (x_host x'))) = 1%nat.
Proof.
  intros x'. split; [|vm_compute; reflexivity].
  apply (declined_issue_retried run_text (demo_env (ShDone 0 "ok"))
           (demo_run_env "completed" declining_files (ShDone 0 "")) (demo_body_config None false true)
           demo_ticks agreeing "" "no such file" demo_run_state); try done.
  - intros u w. split; [done|]. apply mem_true. reflexivity.
  - apply mem_false. reflexivity.
Defined.
