(* ===== verification/PeerTrust.v ===== *)
(** * Trust between peers
    ([src/orchestratord/peer/registry.py], [src/orchestratord/api/deps.py],
    [src/orchestratord/api/routers/peer.py],
    [src/orchestratord/peer/topic_registry.py])

    The registry of peers, the handshake that accepts them, their tokens and the
    rotation of these, the authentication of a request with its rate limit, and
    what an authenticated peer may read and write.  The two tables are lists of
    rows; row ids come from a counter.  The hash of a token and the secrets that
    are drawn for new ones are parameters. *)

From Stdlib Require Import Ascii.
From S2P Require Import Prelude Dag StageRunner Intent Checkpoint Workspace PeerDispatch.

Open Scope string_scope.
Open Scope list_scope.
Open Scope Z_scope.

(** ** Rows *)

Record Peer := mkPeer {
  tp_id : nat;
  tp_workspace : string;
  tp_orch_id : string;
  tp_name : string;
  tp_url : string;
  tp_remote_workspace : option string;
  tp_status : string;
  tp_client_kind : string;
  tp_token : option nat;
  tp_capabilities : list string;
  tp_card : option pyval;
  tp_created_at : Q;
  tp_accepted_at : option Q;
}.

Record AuthToken := mkAuthToken {
  kt_id : nat;
  kt_workspace : string;
  kt_name : string;
  kt_hash : string;
  kt_scopes : list string;
  kt_expires_at : option Q;
}.

(** A chat session, its messages, the audit log *)
Record ChatSession := mkChatSession {
  cs_workspace : string;
  cs_status : string;
  cs_mode : string;
}.
Record Message := mkMessage {
  ms_session : string;
  ms_workspace : string;
  ms_seq : Z;
  ms_role : string;
  ms_author : string;
  ms_content : string;
}.
Record AuditEntry := mkAuditEntry {
  au_workspace : string;
  au_actor : string;
  au_action : string;
  au_target : string;
  au_call : option string;
  au_out_of_order : option bool;
}.
Record Chats := mkChats {
  ch_sessions : dict string ChatSession;
  ch_messages : list Message;
  ch_audit : list AuditEntry;
  ch_inbox : list (string * string);
}.

Record Db := mkDb {
  db_peers : list Peer;
  db_tokens : list AuthToken;
  db_chats : Chats;
  db_next : nat;
}.

Definition set_peers (l : list Peer) (d : Db) : Db := mkDb l (db_tokens d) (db_chats d) (db_next d).
Definition set_tokens (l : list AuthToken) (d : Db) : Db := mkDb (db_peers d) l (db_chats d) (db_next d).
Definition set_chats (c : Chats) (d : Db) : Db := mkDb (db_peers d) (db_tokens d) c (db_next d).
Definition bump (d : Db) : Db := mkDb (db_peers d) (db_tokens d) (db_chats d) (S (db_next d)).

(** [inbox.add], [MessageRepository.append], [audit_log.add], [sessions.add] *)
Definition add_inbox (ws title : string) (c : Chats) : Chats :=
  mkChats (ch_sessions c) (ch_messages c) (ch_audit c) (ch_inbox c ++ [(ws, title)]).
Definition next_seq (session : string) (l : list Message) : Z :=
  fold_left (fun n m => if String.eqb (ms_session m) session then Z.max n (ms_seq m) else n) l (-1) + 1.
Definition append_message (session ws role author content : string) (c : Chats) : Chats :=
  mkChats (ch_sessions c)
    (ch_messages c ++ [mkMessage session ws (next_seq session (ch_messages c)) role author content])
    (ch_audit c) (ch_inbox c).
Definition add_audit (a : AuditEntry) (c : Chats) : Chats :=
  mkChats (ch_sessions c) (ch_messages c) (ch_audit c ++ [a]) (ch_inbox c).
Definition add_session (id : string) (s : ChatSession) (c : Chats) : Chats :=
  mkChats (dset id s (ch_sessions c)) (ch_messages c) (ch_audit c) (ch_inbox c).

Inductive herr :=
| Http (status : Z) (detail : string)
| RetryAfter (seconds : Z)
| HValueError (message : string)
| HRuntimeError (message : string).

Definition STATUS_PENDING : string := "pending".
Definition STATUS_ACCEPTED : string := "accepted".
Definition CLIENT_KIND_V1_SUNSET : string := "v1_sunset".
Definition CLIENT_KIND_V2 : string := "v2".

(** ** The registry *)

(** [get_peer], [get_peer_by_token_id], [list_peers] *)
Definition has_key (ws orch : string) (p : Peer) : bool :=
  String.eqb (tp_workspace p) ws && String.eqb (tp_orch_id p) orch.
Definition get_peer (ws orch : string) (d : Db) : option Peer := List.find (has_key ws orch) (db_peers d).
Definition get_peer_by_token_id (token : nat) (orch : string) (d : Db) : option Peer :=
  List.find (fun p => bool_decide (tp_token p = Some token) && String.eqb (tp_orch_id p) orch) (db_peers d).
Definition by_token_hash (h : string) (d : Db) : option AuthToken :=
  List.find (fun t => String.eqb (kt_hash t) h) (db_tokens d).
Definition get_token (id : nat) (d : Db) : option AuthToken :=
  List.find (fun t => Nat.eqb (kt_id t) id) (db_tokens d).

(** An object that is changed and flushed *)
Definition put_peer (p : Peer) (d : Db) : Db :=
  set_peers (map (fun q => if Nat.eqb (tp_id q) (tp_id p) then p else q) (db_peers d)) d.
Definition put_token (t : AuthToken) (d : Db) : Db :=
  set_tokens (map (fun u => if Nat.eqb (kt_id u) (kt_id t) then t else u) (db_tokens d)) d.

Record Invite := mkInvite {
  iv_orch_id : string;
  iv_name : string;
  iv_url : string;
  iv_workspace : string;
  iv_capabilities : list string;
  iv_card : option pyval;
  iv_v2 : bool;
}.

Definition refresh (i : Invite) (remote : option string) (p : Peer) : Peer :=
  mkPeer (tp_id p) (tp_workspace p) (tp_orch_id p) (iv_name i) (iv_url i) remote (tp_status p) (tp_client_kind p)
    (tp_token p) (iv_capabilities i) (iv_card i) (tp_created_at p) (tp_accepted_at p).
Definition fresh_peer (i : Invite) (remote : option string) (kind : option string) (now : Q) (id : nat) : Peer :=
  mkPeer id (iv_workspace i) (iv_orch_id i) (iv_name i) (iv_url i) remote STATUS_PENDING
    (default CLIENT_KIND_V1_SUNSET kind) None (iv_capabilities i) (iv_card i) now None.

(** [upsert_peer]; [rival]: what other transactions commit between the read and
    the insertion *)
Fixpoint upsert_loop (n : nat) (rival : nat -> Db -> Db) (i : Invite) (remote kind : option string) (now : Q) (d : Db)
    : outcome herr Peer * Db :=
  match n with
  | O => (Raise (HRuntimeError "upsert_peer lost the uq_peers_workspace_orch race twice"), d)
  | S n' =>
      match get_peer (iv_workspace i) (iv_orch_id i) d with
      | Some p => let p' := refresh i remote p in (Ret p', put_peer p' d)
      | None =>
          let d := rival n d in
          match get_peer (iv_workspace i) (iv_orch_id i) d with
          | Some _ => upsert_loop n' rival i remote kind now d
          | None =>
              let p := fresh_peer i remote kind now (db_next d) in
              (Ret p, set_peers (db_peers d ++ [p]) (bump d))
          end
      end
  end.
Definition upsert_peer (rival : nat -> Db -> Db) (i : Invite) (remote kind : option string) (now : Q) (d : Db) :
    outcome herr Peer * Db :=
  upsert_loop 2 rival i remote kind now d.

(** [set_peer_status] *)
Definition with_status (status : string) (now : Q) (p : Peer) : Peer :=
  mkPeer (tp_id p) (tp_workspace p) (tp_orch_id p) (tp_name p) (tp_url p) (tp_remote_workspace p) status
    (tp_client_kind p) (tp_token p) (tp_capabilities p) (tp_card p) (tp_created_at p)
    (if String.eqb status STATUS_ACCEPTED then Some now else tp_accepted_at p).
Definition with_token (token : nat) (p : Peer) : Peer :=
  mkPeer (tp_id p) (tp_workspace p) (tp_orch_id p) (tp_name p) (tp_url p) (tp_remote_workspace p) (tp_status p)
    (tp_client_kind p) (Some token) (tp_capabilities p) (tp_card p) (tp_created_at p) (tp_accepted_at p).
Definition expiring (at_ : Q) (t : AuthToken) : AuthToken :=
  mkAuthToken (kt_id t) (kt_workspace t) (kt_name t) (kt_hash t) (kt_scopes t) (Some at_).

(** [remove_peer]: the row goes, its tokens stay. *)
Definition remove_peer (ws orch : string) (d : Db) : bool * Db :=
  (existsb (has_key ws orch) (db_peers d),
   set_peers (List.filter (fun p => negb (has_key ws orch p)) (db_peers d)) d).

Section tokens.
Context (hash : string -> string) (secret : nat -> string).

(** A new row of [auth_tokens] for a peer; the secret that goes with its id *)
Definition peer_token (id : nat) (p : Peer) : AuthToken :=
  mkAuthToken id (tp_workspace p) ("peer:" +:+ tp_orch_id p) (hash (secret id)) ["peer.*"] None.
Definition issue (p : Peer) (d : Db) : string * nat * Db :=
  let id := db_next d in
  (secret id, id, bump (set_tokens (db_tokens d ++ [peer_token id p]) d)).

(** [rotate_peer_token] *)
Definition expire_old (p : Peer) (now grace : Q) (d : Db) : option Q * Db :=
  match tp_token p ≫= (fun id => get_token id d) with
  | Some t => if qle 0 grace then (Some (now + grace)%Q, put_token (expiring (now + grace)%Q t) d) else (None, d)
  | None => (None, d)
  end.
Definition rotate_peer_token (p : Peer) (now grace : Q) (d : Db) : outcome herr (string * option Q) * Db :=
  if negb (String.eqb (tp_status p) STATUS_ACCEPTED) then (Raise (HValueError "peer is not accepted"), d)
  else
    let (old, d) := expire_old p now grace d in
    let '(plaintext, id, d) := issue p d in
    (Ret (plaintext, old), put_peer (with_token id p) d).

(** ** The handshake *)

(** Link a new token to the row and accept it. *)
Definition grant (now : Q) (p : Peer) (d : Db) : string * Db :=
  let '(plaintext, id, d) := issue p d in
  (plaintext, put_peer (with_status STATUS_ACCEPTED now (with_token id p)) d).

(** The answer of the invitation: the token, when the caller is trusted *)
Definition post_invite (rival : nat -> Db -> Db) (trust : list string) (i : Invite) (now : Q) (d : Db) :
    outcome herr (option string) * Db :=
  match upsert_peer rival i None (if iv_v2 i then Some CLIENT_KIND_V2 else None) now d with
  | (Raise e, d) => (Raise e, d)
  | (Ret p, d) =>
      if mem (iv_orch_id i) trust then let (plaintext, d) := grant now p d in (Ret (Some plaintext), d)
      else (Ret None, set_chats (add_inbox (iv_workspace i)
              ("Peer " +:+ iv_name i +:+ " (" +:+ iv_orch_id i +:+ ") requests access") (db_chats d)) d)
  end.

Definition peer_by_id (id : nat) (d : Db) : option Peer := List.find (fun p => Nat.eqb (tp_id p) id) (db_peers d).
Definition post_invite_accept (id : nat) (now : Q) (d : Db) : outcome herr string * Db :=
  match peer_by_id id d with
  | None => (Raise (Http 404 "peer invite not found"), d)
  | Some p => let (plaintext, d) := grant now p d in (Ret plaintext, d)
  end.
Definition post_invite_reject (id : nat) (d : Db) : outcome herr unit * Db :=
  match peer_by_id id d with
  | None => (Raise (Http 404 "peer invite not found"), d)
  | Some p => (Ret tt, set_peers (List.filter (fun q => negb (Nat.eqb (tp_id q) id)) (db_peers d)) d)
  end.
Definition delete_peer (ws orch : string) (d : Db) : outcome herr unit * Db :=
  let (removed, d') := remove_peer ws orch d in
  if removed then (Ret tt, d') else (Raise (Http 404 "peer not found"), d').
Definition post_rotate_peer_token (ws orch : string) (now grace : Q) (d : Db) : outcome herr (string * option Q) * Db :=
  match get_peer ws orch d with
  | Some p =>
      if String.eqb (tp_status p) STATUS_ACCEPTED then rotate_peer_token p now grace d
      else (Raise (Http 404 "accepted peer not found"), d)
  | None => (Raise (Http 404 "accepted peer not found"), d)
  end.
End tokens.

(** ** The rate limit ([TokenBucket]) *)

Record Bucket := mkBucket {
  bk_rps : Q;
  bk_burst : Q;
  bk_tokens : dict nat Q;
  bk_updated : dict nat Q;
}.
Definition new_bucket (rps : Q) (burst : Z) : Bucket :=
  mkBucket (if qle rps (1 # 1000) then 1 # 1000 else rps)%Q (inject_Z (Z.max burst 1)) [] [].

(** [try_acquire]: [None] when a token was taken *)
Definition available (key : nat) (now : Q) (b : Bucket) : Q :=
  qmin (bk_burst b)
    (default (bk_burst b) (dget key (bk_tokens b))
     + (now - default now (dget key (bk_updated b))) * bk_rps b)%Q.
Definition try_acquire (key : nat) (now : Q) (b : Bucket) : option Q * Bucket :=
  let current := available key now b in
  let updated := dset key now (bk_updated b) in
  if qle 1 current then
    (None, mkBucket (bk_rps b) (bk_burst b) (dset key (current - 1)%Q (bk_tokens b)) updated)
  else
    (Some ((1 - current) / bk_rps b)%Q, mkBucket (bk_rps b) (bk_burst b) (dset key current (bk_tokens b)) updated).

(** ** Authentication *)

Record Request := mkRequest {
  rq_orch : string;
  rq_authorization : string;
  rq_method : string;
  rq_path : string;
}.

Definition is_expired (expires_at : option Q) (now : Q) : bool :=
  match expires_at with Some e => qle e now | None => false end.

(** [s.endswith(t)] *)
Definition ends_with (t s : string) : bool :=
  String.eqb (drop_str (String.length s - String.length t) s) t.
Definition limited (r : Request) : bool :=
  String.eqb (rq_method r) "POST" && (ends_with "/invoke" (rq_path r) || ends_with "/sessions" (rq_path r)).

(** The bearer token of a header *)
Definition bearer (header : string) : option string :=
  if String.prefix "Bearer " header then given (Some (strip (drop_str 7 header))) else None.

Definition ceil (q : Q) : Z := - ((- Qnum q) / QDen q).

Section auth.
Context (hash : string -> string).

(** The row that a token and a claimed identity stand for *)
Definition peer_of_token (t : AuthToken) (orch : string) (d : Db) : option Peer :=
  match get_peer_by_token_id (kt_id t) orch d with
  | Some p => Some p
  | None => if String.eqb (kt_name t) ("peer:" +:+ orch) then get_peer (kt_workspace t) orch d else None
  end.
Definition accepted (p : option Peer) : option Peer :=
  match p with Some p => if String.eqb (tp_status p) STATUS_ACCEPTED then Some p else None | None => None end.

Definition authenticate (orch plaintext : string) (now : Q) (d : Db) : outcome herr Peer :=
  match by_token_hash (hash plaintext) d with
  | None => Raise (Http 401 "invalid or expired peer token")
  | Some t =>
      if is_expired (kt_expires_at t) now then Raise (Http 401 "invalid or expired peer token")
      else if negb (existsb (String.prefix "peer.") (kt_scopes t)) then Raise (Http 403 "token lacks peer.* scope")
      else match accepted (peer_of_token t orch d) with
           | Some p => Ret p
           | None => Raise (Http 401 "peer is not accepted")
           end
  end.

(** [require_auth]: the operator's token; none is asked of public paths or when
    authentication is off *)
Definition PUBLIC_PATHS : list string :=
  ["/api/health"; "/ws"; "/openapi.json"; "/docs"; "/redoc"; "/docs/oauth2-redirect"].
Definition require_auth (enabled : bool) (r : Request) (now : Q) (d : Db) : outcome herr (option AuthToken) :=
  if negb enabled then Ret None
  else if mem (rq_path r) PUBLIC_PATHS || String.eqb (rq_path r) "/api/auth/verify" then Ret None
  else match bearer (rq_authorization r) with
       | None => Raise (Http 401 "missing bearer token")
       | Some plaintext =>
           match by_token_hash (hash plaintext) d with
           | Some t =>
               if is_expired (kt_expires_at t) now then Raise (Http 401 "invalid or expired token") else Ret (Some t)
           | None => Raise (Http 401 "invalid or expired token")
           end
       end.

(** [require_peer_auth] *)
Definition require_peer_auth (r : Request) (now mono : Q) (d : Db) (b : Bucket) : outcome herr Peer * Bucket :=
  let orch := strip (rq_orch r) in
  match bearer (rq_authorization r) with
  | None => (Raise (Http 401 "peer identity or token missing"), b)
  | Some plaintext =>
      if String.eqb orch "" then (Raise (Http 401 "peer identity or token missing"), b)
      else match authenticate orch plaintext now d with
           | Raise e => (Raise e, b)
           | Ret p =>
               if limited r then
                 let (wait, b) := try_acquire (tp_id p) mono b in
                 (match wait with Some s => Raise (RetryAfter (ceil s)) | None => Ret p end, b)
               else (Ret p, b)
           end
  end.
End auth.

(** ** What a peer may do *)

(** [_peer_invoke_message]: the number of the message *)
Definition peer_invoke_message (p : Peer) (session role content : string) (call : option string) (out_of_order : bool)
    (d : Db) : outcome herr Z * Db :=
  match dget session (ch_sessions (db_chats d)) with
  | None => (Raise (Http 404 "session not found"), d)
  | Some s =>
      if String.eqb (cs_workspace s) (tp_workspace p) then
        (Ret (next_seq session (ch_messages (db_chats d))),
         set_chats
           (add_audit (mkAuditEntry (cs_workspace s) (tp_orch_id p) "peer.invoke.message" session call (Some out_of_order))
              (append_message session (cs_workspace s) role (tp_orch_id p) content (db_chats d))) d)
      else (Raise (Http 403 "peer is not trusted in that workspace"), d)
  end.

(** [post_peer_session]; [session], [call]: the ids of the session and of the call *)
Definition post_peer_session (p : Peer) (session ws prompt call : string) (d : Db) : outcome herr unit * Db :=
  if String.eqb ws (tp_workspace p) then
    (Ret tt,
     set_chats
       (add_audit (mkAuditEntry ws (tp_orch_id p) "peer.session.create" session (Some call) None)
          (append_message session ws "user" (tp_orch_id p) prompt
             (add_session session (mkChatSession ws "pending" "single") (db_chats d)))) d)
  else (Raise (Http 403 "peer is not trusted in that workspace"), d).

Definition session_row (kv : string * ChatSession) : pyval :=
  PDict [("id", PStr (fst kv)); ("status", PStr (cs_status (snd kv))); ("mode", PStr (cs_mode (snd kv)))].

(** The read-only method of [post_peer_invoke]: the sessions of a workspace.
    [orch]: the name in the path of the request *)
Definition post_peer_invoke_list (cfg : PeerConfig) (p : Peer) (orch msg_id ws : string) (now : Q) (db : Db) (d : Dispatcher)
    : outcome herr (bool * pyval) * Dispatcher :=
  let (hit, d) := cached_result now (orch, msg_id) d in
  if negb (is_none hit) then (Ret (true, hit), d)
  else if negb (String.eqb ws (tp_workspace p)) then (Raise (Http 403 "peer is not trusted in that workspace"), d)
  else
    let result := PList (map session_row
                     (List.filter (fun kv => String.eqb (cs_workspace (snd kv)) ws) (ch_sessions (db_chats db)))) in
    (Ret (false, result), PeerDispatch.remember_result cfg now (orch, msg_id) result d).

(** [topic_registry] *)
Definition topics : Type := dict string (list string).
Definition is_peer_topic (t : string) : bool := String.prefix "peer." t.
Definition get_peer_topics (orch : string) (r : topics) : list string := default [] (dget orch r).
Definition add_peer_topic (orch t : string) (r : topics) : topics :=
  if is_peer_topic t then
    let l := get_peer_topics orch r in dset orch (if mem t l then l else l ++ [t]) r
  else r.
Definition remove_peer_topic (orch t : string) (r : topics) : topics :=
  match dget orch r with
  | Some l => dset orch (List.filter (fun u => negb (String.eqb u t)) l) r
  | None => r
  end.
Definition clear_peer_topics (orch : string) (r : topics) : topics := ddel orch r.

(** The topics that [get_peer_events] subscribes to *)
Definition get_peer_events (p : Peer) (orch query : string) (r : topics) : outcome herr (list string) :=
  if negb (String.eqb orch (tp_orch_id p)) then Raise (Http 403 "peer may only stream its own event topics")
  else
    let wanted := List.filter is_peer_topic (map strip (split_char ","%char query)) in
    match wanted, get_peer_topics orch r with
    | _ :: _, _ => Ret wanted
    | [], _ :: _ => Ret (get_peer_topics orch r)
    | [], [] => Raise (Http 422 "no peer.* topics requested and none registered via frame SUBSCRIBE")
    end.
