(* ===== verification/PeerTrustFacts.v ===== *)
(** * Trust between peers: theorems

    Who is authenticated, what a rotation does to the old token, what removal
    takes away and what a new acceptance gives back, and the bound of the rate
    limit. *)

From S2P Require Import Prelude Dag StageRunner Intent Checkpoint Workspace PeerDispatch PeerTrust.

Open Scope string_scope.
Open Scope list_scope.
Open Scope Z_scope.

(** ** Rows that are unique *)

Lemma find_absent {A} (test : A -> bool) (l : list A) :
  (forall y, y ∈ l -> test y = false) -> List.find test l = None.
Proof.
  intros H. induction l as [|y l IH]; [done|]. simpl. rewrite (H y) by set_solver. apply IH. set_solver.
Qed.
Lemma find_is {A} (test : A -> bool) l x : List.find test l = Some x -> x ∈ l /\ test x = true.
Proof. intros H. apply find_some in H as [H1 H2]. split; [by apply list_elem_of_In|done]. Qed.

Section find.
Context {A B : Type} `{EqDecision B} (f : A -> B).

Lemma find_unique (test : A -> bool) (x : A) (l : list A) :
  NoDup (map f l) -> x ∈ l -> test x = true -> (forall y, y ∈ l -> test y = true -> f y = f x) ->
  List.find test l = Some x.
Proof.
  intros Hn Hx Ht Hu. induction l as [|y l IH]; [by apply elem_of_nil in Hx|]. simpl in *.
  apply NoDup_cons in Hn as [Hy Hn]. destruct (test y) eqn:Ey.
  - assert (E : f y = f x) by (apply Hu; [set_solver|done]). apply elem_of_cons in Hx as [->|Hx]; [done|].
    exfalso. apply Hy. rewrite E. by apply list_elem_of_fmap_2.
  - apply elem_of_cons in Hx as [->|Hx]; [congruence|]. apply IH; [done|done|]. intros z Hz. apply Hu. set_solver.
Qed.
(** Replacing a row by one with the same [f] *)
Lemma map_replace (test : A -> bool) x l :
  (forall y, y ∈ l -> test y = true -> f y = f x) ->
  map f (map (fun y => if test y then x else y) l) = map f l.
Proof.
  induction l as [|y l IH]; intros H; [done|]. simpl. f_equal; [|apply IH; set_solver].
  destruct (test y) eqn:E; [|done]. symmetry. apply H; [set_solver|done].
Qed.
Lemma map_filter_NoDup (test : A -> bool) l : NoDup (map f l) -> NoDup (map f (List.filter test l)).
Proof.
  induction l as [|y l IH]; intros H; [constructor|]. simpl in *. apply NoDup_cons in H as [Hy H].
  destruct (test y); [|auto]. simpl. apply NoDup_cons. split; [|auto]. intros Hin. apply Hy.
  apply list_elem_of_fmap in Hin as (z & -> & Hz). apply list_elem_of_In, filter_In in Hz as [Hz _].
  apply list_elem_of_fmap_2. by apply list_elem_of_In.
Qed.
End find.

Definition key_of (p : Peer) : string * string := (tp_workspace p, tp_orch_id p).

Lemma has_key_true ws orch p : has_key ws orch p = true <-> key_of p = (ws, orch).
Proof.
  unfold has_key, key_of. rewrite andb_true_iff, !String.eqb_eq. split; [intros [-> ->]|intros [= -> ->]]; done.
Qed.

(** What every table of the registry satisfies *)
Record db_ok (hash : string -> string) (secret : nat -> string) (d : Db) : Prop := mkDbOk {
  ok_ids : NoDup (map tp_id (db_peers d));
  ok_keys : NoDup (map key_of (db_peers d));
  ok_token_ids : NoDup (map kt_id (db_tokens d));
  ok_hashes : NoDup (map kt_hash (db_tokens d));
  ok_peer_next : Forall (fun p => (tp_id p < db_next d)%nat) (db_peers d);
  ok_token_next : Forall (fun t => (kt_id t < db_next d)%nat) (db_tokens d);
  ok_fresh : forall n, (db_next d <= n)%nat -> hash (secret n) ∉ map kt_hash (db_tokens d);
  ok_linked : forall p id, p ∈ db_peers d -> tp_token p = Some id ->
    exists t, t ∈ db_tokens d /\ kt_id t = id /\ kt_workspace t = tp_workspace p
              /\ kt_name t = "peer:" +:+ tp_orch_id p;
  ok_granted : forall p, p ∈ db_peers d -> tp_status p = STATUS_ACCEPTED -> tp_token p <> None;
}.

(** ** Who is authenticated *)

Lemma peer_of_token_row t orch d p :
  peer_of_token t orch d = Some p ->
  p ∈ db_peers d /\ tp_orch_id p = orch
  /\ (tp_token p = Some (kt_id t) \/ (kt_name t = "peer:" +:+ tp_orch_id p /\ kt_workspace t = tp_workspace p)).
Proof.
  unfold peer_of_token. destruct (get_peer_by_token_id _ _ _) as [q|] eqn:E.
  - intros [= ->]. apply find_is in E as [E1 E2]. apply andb_true_iff in E2 as [E2 E3].
    apply bool_decide_eq_true in E2. apply String.eqb_eq in E3. auto.
  - destruct (String.eqb_spec (kt_name t) ("peer:" +:+ orch)) as [Hn|]; [|done].
    intros [E1 E2]%find_is. apply has_key_true in E2. injection E2 as E2 E3. rewrite E3. auto 6.
Qed.

(** The steps of an authentication that succeeds *)
Lemma authenticated_steps hash r now mono d b p b' :
  require_peer_auth hash r now mono d b = (Ret p, b') ->
  exists plaintext t, strip (rq_orch r) <> "" /\ bearer (rq_authorization r) = Some plaintext
    /\ by_token_hash (hash plaintext) d = Some t /\ is_expired (kt_expires_at t) now = false
    /\ existsb (String.prefix "peer.") (kt_scopes t) = true
    /\ peer_of_token t (strip (rq_orch r)) d = Some p /\ tp_status p = STATUS_ACCEPTED.
Proof.
  unfold require_peer_auth. destruct (bearer (rq_authorization r)) as [plaintext|]; [|done].
  destruct (String.eqb_spec (strip (rq_orch r)) "") as [|Hne]; [done|].
  destruct (authenticate hash (strip (rq_orch r)) plaintext now d) as [q|e] eqn:Ha; [|done].
  intros H. assert (q = p) as ->.
  { destruct (limited r); [|by injection H]. destruct (try_acquire (tp_id q) mono b) as [[s|] b1]; [done|]. by injection H. }
  unfold authenticate in Ha. destruct (by_token_hash (hash plaintext) d) as [t|] eqn:Ht; [|done].
  destruct (is_expired (kt_expires_at t) now) eqn:Hx; [done|].
  destruct (existsb (String.prefix "peer.") (kt_scopes t)) eqn:Hs; [|done]. simpl in Ha. unfold accepted in Ha.
  destruct (peer_of_token t (strip (rq_orch r)) d) as [q|] eqn:Hq; [|done].
  destruct (String.eqb_spec (tp_status q) STATUS_ACCEPTED) as [Hst|]; [|done]. injection Ha as ->.
  by exists plaintext, t.
Qed.
Lemma authenticated_row hash r now mono d b p b' :
  require_peer_auth hash r now mono d b = (Ret p, b') -> p ∈ db_peers d.
Proof.
  intros (plaintext & t & _ & _ & _ & _ & _ & H & _)%authenticated_steps. by apply peer_of_token_row in H as [? _].
Qed.

(** A request that is let in carries the secret of a live token with a peer
    scope, and the identity it claims is that of an accepted peer: the one the
    token is bound to, or the one of the token's workspace that the token was
    issued for. *)
Theorem authenticated_is_accepted hash r now mono d b p b' :
  require_peer_auth hash r now mono d b = (Ret p, b') ->
  p ∈ db_peers d /\ tp_status p = STATUS_ACCEPTED /\ tp_orch_id p = strip (rq_orch r) /\ tp_orch_id p <> ""
  /\ exists t plaintext, t ∈ db_tokens d /\ bearer (rq_authorization r) = Some plaintext
      /\ kt_hash t = hash plaintext /\ is_expired (kt_expires_at t) now = false
      /\ (exists scope, scope ∈ kt_scopes t /\ String.prefix "peer." scope = true)
      /\ (tp_token p = Some (kt_id t)
          \/ (kt_name t = "peer:" +:+ tp_orch_id p /\ kt_workspace t = tp_workspace p)).
Proof.
  intros (plaintext & t & Hne & Hb & Ht & Hx & Hs & Hq & Hst)%authenticated_steps.
  apply peer_of_token_row in Hq as (H1 & H2 & H3). apply find_is in Ht as [Hin Hh]. apply String.eqb_eq in Hh.
  split; [done|]. split; [done|]. split; [done|]. split; [congruence|].
  exists t, plaintext. split; [done|]. split; [done|]. split; [done|]. split; [done|]. split; [|done].
  apply existsb_exists in Hs as (scope & Hs1 & Hs2). exists scope. split; [by apply list_elem_of_In|done].
Qed.

(** ** The invariant of the tables *)

Lemma nodup_inj {A B} (f : A -> B) (l : list A) x y :
  NoDup (map f l) -> x ∈ l -> y ∈ l -> f x = f y -> x = y.
Proof.
  induction l as [|z l IH]; intros Hn Hx Hy E; [by apply elem_of_nil in Hx|]. simpl in Hn.
  apply NoDup_cons in Hn as [Hz Hn]. apply elem_of_cons in Hx as [->|Hx]; apply elem_of_cons in Hy as [->|Hy]; try done.
  - exfalso. apply Hz. rewrite E. by apply list_elem_of_fmap_2.
  - exfalso. apply Hz. rewrite <- E. by apply list_elem_of_fmap_2.
  - by apply IH.
Qed.

Section invariant.
Context (hash : string -> string) (secret : nat -> string).
Hypothesis no_collisions : forall m n, hash (secret m) = hash (secret n) -> m = n.

Abbreviation ok := (db_ok hash secret).

(** A link that the tables justify *)
Definition linked (d : Db) (p : Peer) : Prop :=
  forall id, tp_token p = Some id ->
  exists t, t ∈ db_tokens d /\ kt_id t = id /\ kt_workspace t = tp_workspace p /\ kt_name t = "peer:" +:+ tp_orch_id p.

Lemma elem_of_put p d y : y ∈ db_peers (put_peer p d) -> y = p \/ y ∈ db_peers d.
Proof.
  simpl. intros H. apply list_elem_of_fmap in H as (z & -> & Hz). destruct (Nat.eqb _ _); auto.
Qed.

Lemma ok_put_peer p p' d :
  ok d -> p ∈ db_peers d -> tp_id p' = tp_id p -> key_of p' = key_of p -> linked d p' ->
  (tp_status p' = STATUS_ACCEPTED -> tp_token p' <> None) -> ok (put_peer p' d).
Proof.
  intros [Hi Hk Hti Hh Hpn Htn Hf Hl Hg] Hp Hid Hkey Hlink Hgr.
  assert (Hsame : forall y, y ∈ db_peers d -> Nat.eqb (tp_id y) (tp_id p') = true -> y = p).
  { intros y Hy E%Nat.eqb_eq. apply (nodup_inj tp_id (db_peers d)); [done..|congruence]. }
  constructor; cbn [put_peer set_peers db_peers db_tokens db_next]; try done.
  - rewrite map_replace; [done|]. intros y Hy E. by rewrite (Hsame y Hy E).
  - rewrite map_replace; [done|]. intros y Hy E. by rewrite (Hsame y Hy E).
  - rewrite Forall_forall in Hpn. rewrite Forall_forall. intros y Hy. apply elem_of_put in Hy as [->|Hy]; [|auto]. rewrite Hid. auto.
  - intros y id Hy. apply elem_of_put in Hy as [->|Hy]; [apply Hlink|by apply Hl].
  - intros y Hy. apply elem_of_put in Hy as [->|Hy]; [apply Hgr|by apply Hg].
Qed.

Lemma ok_issue p d plaintext id d' :
  ok d -> issue hash secret p d = (plaintext, id, d') ->
  ok d' /\ db_peers d' = db_peers d /\ plaintext = secret id /\ peer_token hash secret id p ∈ db_tokens d'
  /\ (forall t, t ∈ db_tokens d -> t ∈ db_tokens d') /\ id = db_next d /\ db_tokens d' = db_tokens d ++ [peer_token hash secret id p].
Proof.
  intros [Hi Hk Hti Hh Hpn Htn Hf Hl Hg] [= <- <- <-]. cbn. split_and!; [|done|done|set_solver|set_solver|done|done].
  rewrite Forall_forall in Hpn. rewrite Forall_forall in Htn. constructor; cbn; try done.
  - rewrite map_app. apply NoDup_app. split_and!; [done| |apply NoDup_singleton].
    intros x Hx Hx'. apply list_elem_of_fmap in Hx as (t & -> & Ht). apply list_elem_of_singleton in Hx'.
    specialize (Htn _ Ht). simpl in Hx'. lia.
  - rewrite map_app. apply NoDup_app. split_and!; [done| |apply NoDup_singleton].
    intros x Hx Hx'. apply list_elem_of_singleton in Hx'. subst x. by apply (Hf (db_next d)).
  - rewrite Forall_forall. intros q Hq. specialize (Hpn _ Hq). lia.
  - rewrite Forall_forall. intros t Ht. apply elem_of_app in Ht as [Ht|Ht]; [specialize (Htn _ Ht); lia|].
    apply list_elem_of_singleton in Ht as ->. simpl. lia.
  - intros n Hn. rewrite map_app, elem_of_app. intros [Hin|Hin]; [by apply (Hf n); [lia|]|].
    apply list_elem_of_singleton in Hin. apply no_collisions in Hin. lia.
  - intros q id Hq E. destruct (Hl q id Hq E) as (t & Ht & Hrest). exists t. split; [set_solver|done].
Qed.

Lemma ok_expire t at_ d : ok d -> t ∈ db_tokens d -> ok (put_token (expiring at_ t) d).
Proof.
  intros [Hi Hk Hti Hh Hpn Htn Hf Hl Hg] Ht.
  assert (Hsame : forall y, y ∈ db_tokens d -> Nat.eqb (kt_id y) (kt_id (expiring at_ t)) = true -> y = t).
  { intros y Hy E%Nat.eqb_eq. apply (nodup_inj kt_id (db_tokens d)); done. }
  assert (Hhash : map kt_hash (db_tokens (put_token (expiring at_ t) d)) = map kt_hash (db_tokens d)).
  { apply map_replace. intros y Hy E. by rewrite (Hsame y Hy E). }
  constructor; cbn [put_token set_tokens db_peers db_tokens db_next] in *; rewrite ?Hhash; try done.
  - rewrite map_replace; [done|]. intros y Hy E. by rewrite (Hsame y Hy E).
  - rewrite Forall_forall in Htn. rewrite Forall_forall. intros y Hy. apply list_elem_of_fmap in Hy as (z & -> & Hz).
    destruct (Nat.eqb _ _); [apply (Htn t Ht)|by apply Htn].
  - intros p id Hp E. destruct (Hl p id Hp E) as (t0 & Ht0 & H1 & H2 & H3).
    exists (if Nat.eqb (kt_id t0) (kt_id (expiring at_ t)) then expiring at_ t else t0). split.
    + by apply (list_elem_of_fmap_2 (fun u => if Nat.eqb (kt_id u) (kt_id (expiring at_ t)) then expiring at_ t else u)).
    + destruct (Nat.eqb _ _) eqn:E'; [|done]. by rewrite (Hsame _ Ht0 E') in *.
Qed.

Lemma ok_filter test d : ok d -> ok (set_peers (List.filter test (db_peers d)) d).
Proof.
  intros [Hi Hk Hti Hh Hpn Htn Hf Hl Hg].
  assert (Hsub : forall y, y ∈ List.filter test (db_peers d) -> y ∈ db_peers d).
  { intros y Hy. apply list_elem_of_In, filter_In in Hy as [Hy _]. by apply list_elem_of_In. }
  constructor; cbn; try done.
  - by apply map_filter_NoDup.
  - by apply map_filter_NoDup.
  - rewrite Forall_forall in Hpn. rewrite Forall_forall. auto.
  - intros p id Hp. apply Hl. auto.
  - intros p Hp. apply Hg. auto.
Qed.

Lemma ok_add i remote kind now d :
  ok d -> get_peer (iv_workspace i) (iv_orch_id i) d = None ->
  ok (set_peers (db_peers d ++ [fresh_peer i remote kind now (db_next d)]) (bump d)).
Proof.
  intros [Hi Hk Hti Hh Hpn Htn Hf Hl Hg] Hnone. rewrite Forall_forall in Hpn. rewrite Forall_forall in Htn. constructor; cbn; try done.
  - rewrite map_app. apply NoDup_app. split_and!; [done| |apply NoDup_singleton].
    intros x Hx Hx'. apply list_elem_of_fmap in Hx as (q & -> & Hq). apply list_elem_of_singleton in Hx'.
    specialize (Hpn _ Hq). simpl in Hx'. lia.
  - rewrite map_app. apply NoDup_app. split_and!; [done| |apply NoDup_singleton].
    intros x Hx Hx'. apply list_elem_of_fmap in Hx as (q & -> & Hq). apply list_elem_of_singleton in Hx'.
    unfold get_peer in Hnone. pose proof (find_none _ _ Hnone q (proj1 (list_elem_of_In _ _) Hq)) as Hn.
    assert (has_key (iv_workspace i) (iv_orch_id i) q = true) by (apply has_key_true; exact Hx'). congruence.
  - rewrite Forall_forall. intros q Hq. apply elem_of_app in Hq as [Hq|Hq]; [specialize (Hpn _ Hq); lia|].
    apply list_elem_of_singleton in Hq as ->. simpl. lia.
  - rewrite Forall_forall. intros t Ht. specialize (Htn _ Ht). lia.
  - intros n Hn. apply Hf. lia.
  - intros q id Hq E. apply elem_of_app in Hq as [Hq|Hq]; [by apply Hl|]. apply list_elem_of_singleton in Hq as ->. done.
  - intros q Hq. apply elem_of_app in Hq as [Hq|Hq]; [by apply Hg|]. apply list_elem_of_singleton in Hq as ->. done.
Qed.

Lemma ok_grant now p d plaintext d' :
  ok d -> p ∈ db_peers d -> grant hash secret now p d = (plaintext, d') -> ok d'.
Proof.
  intros Hok Hp. unfold grant. destruct (issue hash secret p d) as [[pl id] d1] eqn:E. intros [= <- <-].
  destruct (ok_issue p d pl id d1 Hok E) as (Hok1 & Hpe & _ & Ht & _). rewrite <- Hpe in Hp.
  apply (ok_put_peer p); try done. intros i [= <-]. by exists (peer_token hash secret id p).
Qed.

Lemma ok_rotate p now grace d r d' :
  ok d -> p ∈ db_peers d -> rotate_peer_token hash secret p now grace d = (r, d') -> ok d'.
Proof.
  intros Hok Hp. unfold rotate_peer_token. destruct (String.eqb _ _); cbn [negb]; [|by intros [= <- <-]].
  destruct (expire_old p now grace d) as [old d1] eqn:Eo.
  assert (H1 : ok d1 /\ db_peers d1 = db_peers d).
  { unfold expire_old in Eo. destruct (tp_token p ≫= _) as [t|] eqn:Et; [|by injection Eo as <- <-].
    destruct (qle 0 grace); [|by injection Eo as <- <-]. injection Eo as <- <-. split; [|done].
    apply ok_expire; [done|]. destruct (tp_token p) as [id|]; [|done]. simpl in Et. by apply find_is in Et as [? _]. }
  destruct H1 as [Hok1 Hp1]. destruct (issue hash secret p d1) as [[pl id] d2] eqn:Ei. intros [= <- <-].
  destruct (ok_issue p d1 pl id d2 Hok1 Ei) as (Hok2 & Hpe & _ & Ht & _).
  apply (ok_put_peer p); try done; [by rewrite Hpe, Hp1|]. intros i [= <-]. by exists (peer_token hash secret id p).
Qed.
End invariant.

(** ** Histories *)

Inductive tcall :=
| TInvite (trust : list string) (i : Invite)
| TAccept (id : nat)
| TReject (id : nat)
| TDelete (ws orch : string)
| TRotate (ws orch : string) (grace : Q)
| TSelfRotate (r : Request) (grace : Q)
| TMessage (p : Peer) (session role content : string) (call : option string) (out_of_order : bool)
| TSession (p : Peer) (session ws prompt call : string).

Section history.
Context (hash : string -> string) (secret : nat -> string).

(** One request at a time *)
Definition serve (now : Q) (call : tcall) (d : Db) : Db :=
  match call with
  | TInvite trust i => snd (post_invite hash secret (fun _ d => d) trust i now d)
  | TAccept id => snd (post_invite_accept hash secret id now d)
  | TReject id => snd (post_invite_reject id d)
  | TDelete ws orch => snd (delete_peer ws orch d)
  | TRotate ws orch grace => snd (post_rotate_peer_token hash secret ws orch now grace d)
  | TSelfRotate r grace =>
      match require_peer_auth hash r now 0 d (new_bucket 100 200) with
      | (Ret p, _) => snd (rotate_peer_token hash secret p now grace d)
      | (Raise _, _) => d
      end
  | TMessage p session role content call late => snd (peer_invoke_message p session role content call late d)
  | TSession p session ws prompt call => snd (post_peer_session p session ws prompt call d)
  end.

Hypothesis no_collisions : forall m n, hash (secret m) = hash (secret n) -> m = n.

Lemma upsert_ok i remote kind now d :
  db_ok hash secret d ->
  exists p d', upsert_peer (fun _ d => d) i remote kind now d = (Ret p, d') /\ db_ok hash secret d' /\ p ∈ db_peers d'
    /\ db_tokens d' = db_tokens d /\ key_of p = (iv_workspace i, iv_orch_id i).
Proof.
  intros Hok. unfold upsert_peer, upsert_loop. destruct (get_peer (iv_workspace i) (iv_orch_id i) d) as [p|] eqn:Hg.
  - apply find_is in Hg as [Hp Hk]. apply has_key_true in Hk. exists (refresh i remote p), (put_peer (refresh i remote p) d).
    split; [done|]. split.
    + apply (ok_put_peer hash secret p); try done.
      * intros id E. by apply (ok_linked _ _ _ Hok p).
      * by apply (ok_granted _ _ _ Hok p).
    + split; [|done]. cbn. apply list_elem_of_fmap. exists p. split; [|done]. cbn. by rewrite Nat.eqb_refl.
  - do 2 eexists. split; [reflexivity|]. split; [by apply ok_add|]. split; [cbn; set_solver|done].
Qed.

Lemma same_tables d c : db_ok hash secret d -> db_ok hash secret (set_chats c d).
Proof. intros []. by constructor. Qed.

(** The invariant holds in every history. *)
Lemma serve_ok now call d : db_ok hash secret d -> db_ok hash secret (serve now call d).
Proof.
  intros Hok. destruct call; cbn [serve].
  - unfold post_invite. destruct (upsert_ok i None (if iv_v2 i then Some CLIENT_KIND_V2 else None) now d Hok)
      as (p & d' & -> & Hok' & Hp & _).
    destruct (mem _ _); [|by apply same_tables]. destruct (grant hash secret now p d') as [pl d2] eqn:E.
    by apply (ok_grant hash secret no_collisions now p d' pl).
  - unfold post_invite_accept. destruct (peer_by_id id d) as [p|] eqn:Hp; [|done]. apply find_is in Hp as [Hp _].
    destruct (grant hash secret now p d) as [pl d2] eqn:E. by apply (ok_grant hash secret no_collisions now p d pl).
  - unfold post_invite_reject. destruct (peer_by_id id d); [by apply ok_filter|done].
  - unfold delete_peer, remove_peer. destruct (existsb _ _); by apply ok_filter.
  - unfold post_rotate_peer_token. destruct (get_peer ws orch d) as [p|] eqn:Hp; [|done]. apply find_is in Hp as [Hp _].
    destruct (String.eqb _ _); [|done]. destruct (rotate_peer_token hash secret p now grace d) as [x d2] eqn:E.
    by apply (ok_rotate hash secret no_collisions p now grace d x).
  - destruct (require_peer_auth hash r now 0 d (new_bucket 100 200)) as [[p|e] b'] eqn:Ha; [|done].
    destruct (rotate_peer_token hash secret p now grace d) as [x d2] eqn:E.
    apply (ok_rotate hash secret no_collisions p now grace d x); [done| |done].
    by apply authenticated_row in Ha.
  - unfold peer_invoke_message. destruct (dget _ _); [|done]. destruct (String.eqb _ _); [by apply same_tables|done].
  - unfold post_peer_session. destruct (String.eqb _ _); [by apply same_tables|done].
Qed.
End history.

(** ** Tokens over time *)

Section time.
Context (hash : string -> string) (secret : nat -> string).
Hypothesis no_collisions : forall m n, hash (secret m) = hash (secret n) -> m = n.

Abbreviation ok := (db_ok hash secret).

Lemma lookup_hash d t : ok d -> t ∈ db_tokens d -> by_token_hash (kt_hash t) d = Some t.
Proof.
  intros Hok Ht. apply (find_unique kt_hash); [apply Hok|done|apply String.eqb_refl|].
  intros y _ E. by apply String.eqb_eq in E.
Qed.
Lemma lookup_key d p : ok d -> p ∈ db_peers d -> get_peer (tp_workspace p) (tp_orch_id p) d = Some p.
Proof.
  intros Hok Hp. apply (find_unique key_of); [apply Hok|done|by apply has_key_true|].
  intros y _ E. by apply has_key_true.
Qed.

(** A live peer token of the workspace authenticates the accepted peer it names. *)
Lemma token_authenticates d t p plaintext now :
  ok d -> t ∈ db_tokens d -> p ∈ db_peers d -> kt_hash t = hash plaintext ->
  is_expired (kt_expires_at t) now = false -> kt_scopes t = ["peer.*"] -> tp_status p = STATUS_ACCEPTED ->
  kt_name t = "peer:" +:+ tp_orch_id p -> kt_workspace t = tp_workspace p ->
  authenticate hash (tp_orch_id p) plaintext now d = Ret p.
Proof.
  intros Hok Ht Hp Hh Hx Hsc Hst Hn Hw. unfold authenticate.
  rewrite <- Hh, (lookup_hash d t), Hx, Hsc by done. simpl.
  assert (Hr : peer_of_token t (tp_orch_id p) d = Some p).
  { unfold peer_of_token. destruct (get_peer_by_token_id (kt_id t) (tp_orch_id p) d) as [q|] eqn:E.
    - apply find_is in E as [Hq E]. apply andb_true_iff in E as [E1 E2]. apply bool_decide_eq_true in E1.
      apply String.eqb_eq in E2. destruct (ok_linked _ _ _ Hok q _ Hq E1) as (t' & Ht' & Hid & Hw' & _).
      assert (t' = t) as -> by (by apply (nodup_inj kt_id (db_tokens d)); [apply Hok|..]).
      f_equal. apply (nodup_inj key_of (db_peers d)); [apply Hok|done|done|]. unfold key_of. congruence.
    - rewrite Hn, String.eqb_refl, Hw. by apply lookup_key. }
  rewrite Hr. unfold accepted. by rewrite Hst.
Qed.

(** C39: a rotation gives the peer a token that authenticates it from then on,
    and lets the old one authenticate it exactly until the grace has passed. *)
Theorem rotation_grace d p old t plaintext now grace :
  ok d -> p ∈ db_peers d -> tp_status p = STATUS_ACCEPTED -> tp_token p = Some old ->
  t ∈ db_tokens d -> kt_id t = old -> kt_scopes t = ["peer.*"] -> kt_hash t = hash plaintext -> (0 <= grace)%Q ->
  exists new id d', rotate_peer_token hash secret p now grace d = (Ret (new, Some (now + grace)%Q), d')
    /\ forall later,
       authenticate hash (tp_orch_id p) new later d' = Ret (with_token id p)
       /\ authenticate hash (tp_orch_id p) plaintext later d'
          = if qle (now + grace) later then Raise (Http 401 "invalid or expired peer token") else Ret (with_token id p).
Proof.
  intros Hok Hp Hst Htok Ht Hold Hsc Hh Hg.
  destruct (ok_linked _ _ _ Hok p old Hp Htok) as (t' & Ht' & Hid & Hw & Hn).
  assert (t' = t) as -> by (apply (nodup_inj kt_id (db_tokens d)); [apply Hok|done|done|congruence]).
  assert (Hget : get_token old d = Some t).
  { apply (find_unique kt_id); [apply Hok|done|by apply Nat.eqb_eq|]. intros y _ E. apply Nat.eqb_eq in E. congruence. }
  destruct (rotate_peer_token hash secret p now grace d) as [r d'] eqn:Er.
  pose proof (ok_rotate hash secret no_collisions p now grace d r d' Hok Hp Er) as Hok'.
  unfold rotate_peer_token, expire_old, issue in Er. rewrite Hst, Htok in Er. cbn [mbind option_bind negb String.eqb] in Er.
  rewrite Hget, (proj2 (qle_true 0 grace) Hg) in Er. cbn in Er. injection Er as <- <-.
  exists (secret (db_next d)), (db_next d). eexists. split; [reflexivity|].
  match type of Hok' with db_ok _ _ ?x => set (dn := x) in * end. intros later.
  assert (Hp' : with_token (db_next d) p ∈ db_peers dn).
  { unfold dn. cbn. apply list_elem_of_fmap. exists p. by rewrite Nat.eqb_refl. }
  split.
  - apply (token_authenticates dn (peer_token hash secret (db_next d) p) (with_token (db_next d) p)); try done.
    cbn. set_solver.
  - assert (Hold' : expiring (now + grace)%Q t ∈ db_tokens dn).
    { unfold dn. cbn. apply elem_of_app. left. apply list_elem_of_fmap. exists t. by rewrite Nat.eqb_refl. }
    destruct (qle (now + grace) later) eqn:El.
    + unfold authenticate. rewrite <- Hh.
      rewrite (lookup_hash dn (expiring (now + grace)%Q t) Hok' Hold' : by_token_hash (kt_hash t) dn = _).
      cbn. by rewrite El.
    + by apply (token_authenticates dn (expiring (now + grace)%Q t) (with_token (db_next d) p)).
Qed.

(** ** Removal *)

Lemma authenticate_row orch plaintext now d p :
  authenticate hash orch plaintext now d = Ret p -> p ∈ db_peers d /\ tp_orch_id p = orch.
Proof.
  unfold authenticate. destruct (by_token_hash _ _) as [t|]; [|done]. destruct (is_expired _ _); [done|].
  destruct (negb _); [done|]. unfold accepted. destruct (peer_of_token t orch d) as [q|] eqn:Hq; [|done].
  destruct (String.eqb _ _); [|done]. intros [= ->]. by apply peer_of_token_row in Hq as (? & ? & _).
Qed.

Lemma removed_absent ws orch d p : p ∈ db_peers (remove_peer ws orch d).2 -> key_of p <> (ws, orch).
Proof.
  cbn. intros Hp Hk. apply list_elem_of_In, filter_In in Hp as [_ Hn]. apply has_key_true in Hk. by rewrite Hk in Hn.
Qed.

(** Once a peer is removed from a workspace no token, old or new, lets anyone
    in under its name there. *)
Theorem removed_peer_locked_out ws orch d plaintext now p :
  authenticate hash orch plaintext now (snd (remove_peer ws orch d)) = Ret p -> tp_workspace p <> ws.
Proof.
  intros [Hp Ho]%authenticate_row Hw. apply removed_absent in Hp. apply Hp. unfold key_of. congruence.
Qed.

(** A removed peer that is invited again is a new row of its own. *)
Lemma invited_again ws orch d i now :
  iv_workspace i = ws -> iv_orch_id i = orch ->
  let d1 := snd (remove_peer ws orch d) in
  snd (post_invite hash secret (fun _ d => d) [] i now d1)
  = mkDb (db_peers d1 ++ [fresh_peer i None (if iv_v2 i then Some CLIENT_KIND_V2 else None) now (db_next d)])
      (db_tokens d)
      (add_inbox (iv_workspace i) ("Peer " +:+ iv_name i +:+ " (" +:+ iv_orch_id i +:+ ") requests access") (db_chats d))
      (S (db_next d)).
Proof.
  intros Hw Ho d1. unfold post_invite, upsert_peer, upsert_loop.
  assert (Hnone : get_peer (iv_workspace i) (iv_orch_id i) d1 = None).
  { apply find_absent. intros y Hy. destruct (has_key _ _ y) eqn:E; [|done]. apply has_key_true in E.
    by apply removed_absent in Hy; rewrite Hw, Ho in E. }
  by rewrite Hnone.
Qed.

(** C40: removing a peer does not revoke its token: when the same peer is invited
    and accepted again, under a new token, the one it had before works again. *)
Theorem revoked_token_revives d p id t plaintext i t1 t2 later :
  ok d -> p ∈ db_peers d -> tp_token p = Some id -> t ∈ db_tokens d -> kt_id t = id ->
  kt_hash t = hash plaintext -> kt_expires_at t = None -> kt_scopes t = ["peer.*"] ->
  iv_workspace i = tp_workspace p -> iv_orch_id i = tp_orch_id p ->
  let d1 := serve hash secret t1 (TDelete (tp_workspace p) (tp_orch_id p)) d in
  let d2 := serve hash secret t1 (TInvite [] i) d1 in
  let d3 := serve hash secret t2 (TAccept (db_next d)) d2 in
  exists q, authenticate hash (tp_orch_id p) plaintext later d3 = Ret q
    /\ key_of q = key_of p /\ tp_token q <> Some id.
Proof.
  intros Hok Hp Htok Ht Hid Hh Hx Hsc Hw Ho d1 d2 d3.
  destruct (ok_linked _ _ _ Hok p id Hp Htok) as (t' & Ht' & Hid' & Htw & Htn).
  assert (t' = t) as -> by (apply (nodup_inj kt_id (db_tokens d)); [apply Hok|done|done|congruence]).
  assert (Hok3 : ok d3) by (by apply serve_ok, serve_ok, serve_ok).
  assert (E1 : d1 = snd (remove_peer (tp_workspace p) (tp_orch_id p) d)).
  { unfold d1. cbn [serve]. unfold delete_peer. by destruct (remove_peer _ _ _) as [[] ?]. }
  set (row := fresh_peer i None (if iv_v2 i then Some CLIENT_KIND_V2 else None) t1 (db_next d)).
  assert (E2 : db_peers d2 = db_peers d1 ++ [row] /\ db_tokens d2 = db_tokens d /\ db_next d2 = S (db_next d)).
  { unfold d2. cbn [serve]. by rewrite E1, invited_again. }
  destruct E2 as (Epe & Eto & Ene).
  assert (Hrow : peer_by_id (db_next d) d2 = Some row).
  { apply (find_unique tp_id); [by apply (ok_ids hash secret d2), serve_ok, serve_ok|rewrite Epe; set_solver|apply Nat.eqb_refl|].
    intros y _ E. by apply Nat.eqb_eq in E. }
  assert (E3 : d3 = put_peer (with_status STATUS_ACCEPTED t2 (with_token (S (db_next d)) row))
                     (bump (set_tokens (db_tokens d ++ [peer_token hash secret (S (db_next d)) row]) d2))).
  { unfold d3. cbn [serve]. unfold post_invite_accept. rewrite Hrow. unfold grant, issue. by rewrite Ene, Eto. }
  clearbody d3 d2 d1. set (q := with_status STATUS_ACCEPTED t2 (with_token (S (db_next d)) row)) in *.
  exists q. assert (Hq : key_of q = key_of p) by (unfold key_of, q; cbn; congruence).
  assert (Hqo : tp_orch_id p = tp_orch_id q) by (unfold key_of in Hq; congruence). rewrite Hqo.
  split; [|split; [done|]].
  - apply (token_authenticates d3 t); try done.
    + rewrite E3. cbn. set_solver.
    + rewrite E3. cbn. apply list_elem_of_fmap. exists row. rewrite Epe. split; [by rewrite Nat.eqb_refl|set_solver].
    + by rewrite Hx.
    + by rewrite Htn, Hqo.
    + unfold key_of in Hq. congruence.
  - cbn. intros [= E]. pose proof (ok_token_next _ _ _ Hok) as Hn. rewrite Forall_forall in Hn. specialize (Hn t Ht). lia.
Qed.
End time.

(** ** The rate limit *)

(** The calls of all peers, each with the peer's id and the clock *)
Fixpoint run_bucket (calls : list (nat * Q)) (b : Bucket) : Bucket :=
  match calls with
  | [] => b
  | (k, t) :: calls => run_bucket calls (snd (try_acquire k t b))
  end.
(** How many of one peer's calls are let through *)
Fixpoint grants (key : nat) (calls : list (nat * Q)) (b : Bucket) : nat :=
  match calls with
  | [] => O
  | (k, t) :: calls =>
      let (wait, b) := try_acquire k t b in
      ((if Nat.eqb k key then match wait with None => 1 | Some _ => 0 end else 0) + grants key calls b)%nat
  end.
(** The clock does not go back, from [first] to [last]. *)
Fixpoint in_order (first : Q) (calls : list (nat * Q)) (last : Q) : Prop :=
  match calls with
  | [] => (first <= last)%Q
  | (_, t) :: calls => (first <= t)%Q /\ in_order t calls last
  end.

Record bucket_ok (now : Q) (b : Bucket) : Prop := mkBucketOk {
  bo_rps : (0 < bk_rps b)%Q;
  bo_burst : (1 <= bk_burst b)%Q;
  bo_tokens : forall k c, dget k (bk_tokens b) = Some c -> (0 <= c)%Q;
  bo_updated : forall k u, dget k (bk_updated b) = Some u -> (u <= now)%Q;
}.

Lemma in_order_le first calls last : in_order first calls last -> (first <= last)%Q.
Proof.
  revert first. induction calls as [|[k t] calls IH]; intros first; simpl; [done|].
  intros [H1 H2%IH]. lra.
Qed.
Lemma new_bucket_ok rps burst now : bucket_ok now (new_bucket rps burst).
Proof.
  constructor; cbn; [..|done|done].
  - destruct (qle rps (1 # 1000)) eqn:E; qsimp; lra.
  - change 1%Q with (inject_Z 1). rewrite <- Zle_Qle. lia.
Qed.
Lemma bucket_ok_later now now' b : (now <= now')%Q -> bucket_ok now b -> bucket_ok now' b.
Proof. intros H []. constructor; try done. intros k u Hu. specialize (bo_updated0 k u Hu). lra. Qed.

Lemma available_grows key t t' b :
  (0 < bk_rps b)%Q -> (t <= t')%Q -> (available key t' b <= available key t b + bk_rps b * (t' - t))%Q.
Proof.
  intros Hr Ht. unfold available. set (B := bk_burst b). set (x := default B (dget key (bk_tokens b))).
  assert (0 <= bk_rps b * (t' - t))%Q by nra.
  destruct (dget key (bk_updated b)) as [u|]; cbn [default from_option].
  all: match goal with |- (qmin ?a ?p <= qmin ?a ?q + _)%Q =>
         pose proof (qmin_le_l a p); pose proof (qmin_le_r a p); unfold qmin at 2;
         destruct (Qle_bool a q) eqn:E; [lra|]; nra end.
Qed.
Lemma available_nonneg key t b : bucket_ok t b -> (0 <= available key t b)%Q.
Proof.
  intros [Hr Hb Hc Hu]. unfold available, qmin. destruct (Qle_bool _ _); [lra|].
  assert (0 <= default (bk_burst b) (dget key (bk_tokens b)))%Q.
  { destruct (dget key (bk_tokens b)) eqn:E; simpl; [by apply (Hc key)|lra]. }
  destruct (dget key (bk_updated b)) as [u|] eqn:E; simpl; [|lra].
  specialize (Hu _ _ E). assert (0 <= (t - u) * bk_rps b)%Q by nra. lra.
Qed.
Lemma available_other key k t t' b :
  k <> key -> available key t' (snd (try_acquire k t b)) = available key t' b.
Proof.
  intros Hk. unfold try_acquire, available. destruct (qle 1 _); cbn; by rewrite !dget_dset_ne by done.
Qed.
(** What a call leaves at the same instant *)
Lemma available_own key t b :
  (available key t (snd (try_acquire key t b))
   <= available key t b - match fst (try_acquire key t b) with None => 1 | Some _ => 0 end)%Q.
Proof.
  unfold try_acquire. set (c := available key t b). destruct (qle 1 c) eqn:E; cbn [fst snd]; unfold available; cbn;
    rewrite !dget_dset_eq; cbn; (eapply Qle_trans; [apply qmin_le_r|lra]).
Qed.
Lemma try_acquire_ok key t b : bucket_ok t b -> bucket_ok t (snd (try_acquire key t b)).
Proof.
  intros Hok. pose proof (available_nonneg key t b Hok) as Ha. destruct Hok as [Hr Hb Hc Hu].
  unfold try_acquire. destruct (qle 1 (available key t b)) eqn:E; qsimp.
  all: constructor; cbn; [done|done|..]; intros k c; rewrite dget_dset; case_decide; try (intros [= <-]; lra); eauto.
Qed.
Lemma run_bucket_ok first calls last b :
  in_order first calls last -> bucket_ok first b -> bucket_ok last (run_bucket calls b).
Proof.
  revert first b. induction calls as [|[k t] calls IH]; intros first b; simpl; [apply bucket_ok_later|].
  intros [H1 H2] Hok. apply (IH t); [done|]. apply try_acquire_ok. by apply (bucket_ok_later first).
Qed.
Lemma run_bucket_rate calls b : bk_rps (run_bucket calls b) = bk_rps b /\ bk_burst (run_bucket calls b) = bk_burst b.
Proof.
  revert b. induction calls as [|[k t] calls IH]; intros b; simpl; [done|].
  destruct (IH (snd (try_acquire k t b))) as [-> ->]. unfold try_acquire. by destruct (qle 1 _).
Qed.

Lemma grants_bounded key first calls last b :
  in_order first calls last -> bucket_ok first b ->
  (inject_Z (Z.of_nat (grants key calls b)) <= available key first b + bk_rps b * (last - first))%Q.
Proof.
  revert first b. induction calls as [|[k t] calls IH]; intros first b; simpl.
  - intros H Hok. pose proof (available_nonneg key first b Hok). destruct Hok. change (inject_Z (Z.of_nat 0)) with 0%Q. nra.
  - intros [H1 H2] Hok. pose proof (bucket_ok_later first t b H1 Hok) as Hok1.
    pose proof (try_acquire_ok k t b Hok1) as Hok'. specialize (IH t (snd (try_acquire k t b)) H2 Hok').
    pose proof (available_grows key first t b (bo_rps _ _ Hok) H1) as Hg.
    assert (Er : bk_rps (snd (try_acquire k t b)) = bk_rps b) by (unfold try_acquire; by destruct (qle 1 _)).
    rewrite Er in IH. pose proof (available_own key t b) as Ho. pose proof (available_other key k t t b) as Hot.
    destruct (try_acquire k t b) as [wait b'] eqn:E. cbn [snd fst] in *. rewrite Nat2Z.inj_add, inject_Z_plus.
    destruct (Nat.eqb_spec k key) as [->|Hk].
    + rewrite E in Ho. cbn [snd fst] in Ho. destruct wait; [change (inject_Z (Z.of_nat 0)) with 0%Q|change (inject_Z (Z.of_nat 1)) with 1%Q]. all: lra.
    + rewrite (Hot Hk) in IH. change (inject_Z (Z.of_nat 0)) with 0%Q. lra.
Qed.

(** However the requests of the peers interleave, in any stretch of time at
    most [burst] of one peer's requests are let through, plus the rate times the
    length of the stretch. *)
Theorem rate_limited rps burst key begin before first window last :
  in_order begin before first -> in_order first window last ->
  let b := run_bucket before (new_bucket rps burst) in
  (inject_Z (Z.of_nat (grants key window b))
   <= inject_Z (Z.max burst 1) + qmax (1 # 1000) rps * (last - first))%Q.
Proof.
  intros Hb Hw b. pose proof (run_bucket_ok begin before first _ Hb (new_bucket_ok rps burst begin)) as Hok.
  pose proof (grants_bounded key first window last b Hw Hok) as H.
  destruct (run_bucket_rate before (new_bucket rps burst)) as [Er Eb]. fold b in Er, Eb. rewrite Er in H.
  assert (Ha : (available key first b <= inject_Z (Z.max burst 1))%Q) by (unfold available; rewrite Eb; apply qmin_le_l).
  assert (Hr : (bk_rps (new_bucket rps burst) <= qmax (1 # 1000) rps)%Q).
  { cbn. pose proof (qmax_le_l (1 # 1000) rps). pose proof (qmax_le_r (1 # 1000) rps). by destruct (qle rps _). }
  apply in_order_le in Hw. nra.
Qed.

(** ** Answers that are remembered *)

(** The list of sessions is remembered under the name in the path and the
    message id, and looked up before the workspace is compared: within the
    window any authenticated peer that repeats them is given the sessions of a
    workspace in which it is not trusted. *)
Theorem listing_crosses_workspaces cfg p q orch msg now later db d :
  tp_workspace q <> tp_workspace p -> fst (cached_result now (orch, msg) d) = PNone ->
  (now <= later)%Q -> (later < now + pc_dedup_window_seconds cfg)%Q ->
  exists result d' d'', post_peer_invoke_list cfg p orch msg (tp_workspace p) now db d = (Ret (false, result), d')
    /\ post_peer_invoke_list cfg q orch msg (tp_workspace p) later db d' = (Ret (true, result), d'').
Proof.
  intros Hne Hmiss Hnow Hlater. unfold post_peer_invoke_list at 1.
  destruct (cached_result now (orch, msg) d) as [hit d1]. cbn in Hmiss. subst hit. cbn [is_none negb].
  rewrite String.eqb_refl. cbn [negb]. do 3 eexists. split; [reflexivity|].
  unfold post_peer_invoke_list, cached_result. rewrite remember_result_stored by lra.
  rewrite (proj2 (qle_false _ _) Hlater). done.
Qed.

(** A name on the allow-list is enough: an invitation needs no credentials, and
    its answer is a token that works, whoever sends it. *)
Theorem invitation_grants_stranger hash secret trust i now later d :
  (forall m n, hash (secret m) = hash (secret n) -> m = n) -> db_ok hash secret d -> mem (iv_orch_id i) trust = true ->
  exists plaintext d', post_invite hash secret (fun _ d => d) trust i now d = (Ret (Some plaintext), d')
    /\ exists p, authenticate hash (iv_orch_id i) plaintext later d' = Ret p /\ tp_workspace p = iv_workspace i.
Proof.
  intros Hinj Hok Hm. unfold post_invite.
  destruct (upsert_ok hash secret Hinj i None (if iv_v2 i then Some CLIENT_KIND_V2 else None) now d Hok)
    as (p & d1 & -> & Hok1 & Hp & _ & Hk). rewrite Hm.
  destruct (grant hash secret now p d1) as [plaintext d2] eqn:Eg. do 2 eexists. split; [reflexivity|].
  pose proof (ok_grant hash secret Hinj now p d1 plaintext d2 Hok1 Hp Eg) as Hok2.
  unfold grant, issue in Eg. injection Eg as <- <-.
  set (q := with_status STATUS_ACCEPTED now (with_token (db_next d1) p)) in *.
  unfold key_of in Hk. injection Hk as Hw Ho. exists q. split; [|done].
  rewrite <- Ho. change (tp_orch_id p) with (tp_orch_id q).
  apply (token_authenticates hash secret _ (peer_token hash secret (db_next d1) p)); try done.
  - cbn. set_solver.
  - cbn. apply list_elem_of_fmap. exists p. by rewrite Nat.eqb_refl.
Qed.

(** ** Witnesses *)

(** Secrets of growing length, kept as they are *)
Fixpoint stars (n : nat) : string := match n with O => "" | S n => "*" +:+ stars n end.
Definition plain (s : string) : string := s.

Lemma stars_inj m n : plain (stars m) = plain (stars n) -> m = n.
Proof.
  unfold plain. revert n. induction m as [|m IH]; intros [|n]; simpl; try done. intros [= H]. f_equal. by apply IH.
Qed.

Definition no_rows : Db := mkDb [] [] (mkChats [] [] [] []) 0.
Definition invitation (ws : string) : Invite := mkInvite "orch-b" "B" "https://b" ws ["sessions"] None true.
Definition one_peer : Db := serve plain stars 0 (TInvite ["orch-b"] (invitation "w")) no_rows.
Definition peer_b : Peer :=
  mkPeer 0 "w" "orch-b" "B" "https://b" None STATUS_ACCEPTED CLIENT_KIND_V2 (Some 1%nat) ["sessions"] None 0 (Some 0%Q).
Definition token_b : AuthToken := mkAuthToken 1 "w" "peer:orch-b" "*" ["peer.*"] None.

Lemma no_rows_ok : db_ok plain stars no_rows.
Proof. constructor; try (by constructor); try (intros; set_solver). Defined.
Lemma one_peer_ok : db_ok plain stars one_peer.
Proof. apply serve_ok; [apply stars_inj|apply no_rows_ok]. Defined.

Lemma authenticated_is_accepted_witness :
  exists p, p ∈ db_peers one_peer /\ tp_orch_id p = "orch-b".
Proof.
  exists peer_b.
  pose proof (authenticated_is_accepted plain (mkRequest "orch-b" "Bearer *" "POST" "/api/peers/orch-b/invoke")
                5 5 one_peer (new_bucket 100 200) peer_b) as H.
  edestruct H as (H1 & _ & H2 & _); [vm_compute; reflexivity|]. split; [exact H1|exact H2].
Defined.

Lemma rotation_grace_witness :
  exists new id d', rotate_peer_token plain stars peer_b 10 60 one_peer = (Ret (new, Some (10 + 60)%Q), d')
    /\ authenticate plain "orch-b" new 1000 d' = Ret (with_token id peer_b)
    /\ authenticate plain "orch-b" "*" 1000 d' = Raise (Http 401 "invalid or expired peer token").
Proof.
  destruct (rotation_grace plain stars stars_inj one_peer peer_b 1 token_b "*" 10 60 one_peer_ok)
    as (new & id & d' & H & Hl); try reflexivity; try (vm_compute; congruence).
  - apply list_elem_of_In. left. reflexivity.
  - apply list_elem_of_In. left. reflexivity.
  - destruct (Hl 1000%Q) as [H1 H2]. exists new, id, d'. split; [exact H|]. split; [exact H1|]. exact H2.
Defined.

Lemma removed_peer_locked_out_witness :
  tp_workspace peer_b <> "v".
Proof.
  apply (removed_peer_locked_out plain "v" "orch-b" one_peer "*" 5 peer_b). vm_compute. reflexivity.
Defined.

Lemma revoked_token_revives_witness :
  exists q, authenticate plain "orch-b" "*" 50
    (serve plain stars 30 (TAccept 2) (serve plain stars 20 (TInvite [] (invitation "w"))
       (serve plain stars 20 (TDelete "w" "orch-b") one_peer))) = Ret q
    /\ key_of q = key_of peer_b /\ tp_token q <> Some 1%nat.
Proof.
  apply (revoked_token_revives plain stars stars_inj one_peer peer_b 1 token_b "*" (invitation "w") 20 30 50 one_peer_ok);
    try reflexivity; apply list_elem_of_In; left; reflexivity.
Defined.

Lemma rate_limited_witness :
  (inject_Z (Z.of_nat (grants 7 [(7%nat, 1%Q); (8%nat, 1%Q); (7%nat, 1%Q); (7%nat, 2%Q)]
     (run_bucket [(7%nat, 0%Q)] (new_bucket 1 1))))
   <= inject_Z (Z.max 1 1) + qmax (1 # 1000) 1 * (2 - 0))%Q.
Proof.
  apply (rate_limited 1 1 7 0 [(7%nat, 0%Q)] 0 [(7%nat, 1%Q); (8%nat, 1%Q); (7%nat, 1%Q); (7%nat, 2%Q)] 2);
    cbn; repeat split; lra.
Defined.

Lemma listing_crosses_workspaces_witness :
  exists cfg d result d' d'',
    post_peer_invoke_list cfg peer_b "orch-b" "m" "w" 0 one_peer d = (Ret (false, result), d')
    /\ post_peer_invoke_list cfg (refresh (invitation "v") None (fresh_peer (invitation "v") None None 0 3)) "orch-b" "m" "w"
         1 one_peer d' = (Ret (true, result), d'').
Proof.
  exists (mkPeerConfig true 8 60 false), new_dispatcher.
  apply (listing_crosses_workspaces (mkPeerConfig true 8 60 false) peer_b
           (refresh (invitation "v") None (fresh_peer (invitation "v") None None 0 3)) "orch-b" "m" 0 1 one_peer new_dispatcher);
    [vm_compute; congruence|reflexivity|lra|cbn; lra].
Defined.
