(* ===== verification/BackendRun.v ===== *)
(** * The run of an agent
    ([src/orchestratord/backend_runner.py], [src/orchestratord/runner_utils.py],
    [src/orchestratord/spi/backend.py], [src/orchestratord/cost/estimator.py])

    [BackendRunner] drives one session of an agent backend: the task and its
    limits, the specification of the session, the checks before the start, the
    loop over the events of the backend with its timeouts, guards and operator
    commands, and the end of the run.  The backend, the clock, git, the tracker
    and the operator are the inputs of the loop, one [Beat] per iteration; the
    end of the list of beats is the end of the event stream. *)

From S2P Require Import Prelude Dag StageRunner Approval Checkpoint.

Open Scope string_scope.
Open Scope list_scope.
Open Scope Z_scope.

(** ** Events *)

(** [EventEnvelope]: the kind with the fields of the payload that are read *)
Inductive Envelope :=
| EvText (text : string)
| EvTextDelta (text delta : string)
| EvToolCall (name call_id : string)
| EvToolResult (call_id : string) (failed : bool)
| EvApproval (request_id tool_name name : string)
| EvTurn (turn : Z)
| EvComplete (session_id : string) (reason : option string) (usage : dict string pyval) (cost : option (option Q))
| EvError (message code : option string)
| EvOther (kind : string).

Definition kind_value (e : Envelope) : string :=
  match e with
  | EvText _ => "text"
  | EvTextDelta _ _ => "text_delta"
  | EvToolCall _ _ => "tool_call"
  | EvToolResult _ _ => "tool_result"
  | EvApproval _ _ _ => "approval_request"
  | EvTurn _ => "turn_complete"
  | EvComplete _ _ _ _ => "session_complete"
  | EvError _ _ => "error"
  | EvOther k => k
  end.

(** A command of the operator; [ok]: the backend's own pause or resume succeeds *)
Inductive Command :=
| CPause (ok : bool)
| CResume (ok : bool) (prompt : option string)
| CStop
| CTakeover
| CInject (text : string)
| CFollowup (text : string)
| CDetach
| CFlush.

(** ** The session *)

Inductive Frame :=
| FRunInput (content : string) (resume : option string)
| FEvent (kind : string)
| FPaused
| FResumed
| FControlError (command : string)
| FRunEnded (status reason summary : string).

(** What is asked of the backend and of the surroundings, in order *)
Inductive Op := OpCreate | OpProbe | OpSocket | OpExpose | OpRetire | OpClose | OpSocketStop.

(** How the run stands *)
Record Verdict := mkVerdict {
  ve_status : string;
  ve_reason : option string;
  ve_summary : string;
  ve_detail : string;
}.
(** What the backend has reported *)
Record Progress := mkProgress {
  pg_output : string;
  pg_turns : Z;
  pg_tools : Z;
  pg_cost : Q;
  pg_usage : dict string Z;
  pg_session : string;
  pg_event : string;
  pg_tool : string;
}.
(** The operator's side; [ct_hints]: the file of hints *)
Record Control := mkControl {
  ct_paused : bool;
  ct_pause_reason : string;
  ct_followups : list string;
  ct_override : option string;
  ct_hints : option string;
}.
(** What the run has done *)
Record Trace := mkTrace {
  tr_frames : list Frame;
  tr_sent : list string;
  tr_approved : list (string * bool);
  tr_ops : list Op;
}.

(** [RunSession] *)
Record Ses := mkSes {
  se_verdict : Verdict;
  se_progress : Progress;
  se_control : Control;
  se_trace : Trace;
}.

Definition new_session : Ses :=
  mkSes (mkVerdict "running" None "" "") (mkProgress "" 0 0 0 [] "" "" "") (mkControl false "" [] None None)
    (mkTrace [] [] [] []).

Definition upd_verdict (f : Verdict -> Verdict) (s : Ses) : Ses :=
  mkSes (f (se_verdict s)) (se_progress s) (se_control s) (se_trace s).
Definition upd_progress (f : Progress -> Progress) (s : Ses) : Ses :=
  mkSes (se_verdict s) (f (se_progress s)) (se_control s) (se_trace s).
Definition upd_control (f : Control -> Control) (s : Ses) : Ses :=
  mkSes (se_verdict s) (se_progress s) (f (se_control s)) (se_trace s).
Definition upd_trace (f : Trace -> Trace) (s : Ses) : Ses :=
  mkSes (se_verdict s) (se_progress s) (se_control s) (f (se_trace s)).

Abbreviation status s := (ve_status (se_verdict s)).
Abbreviation end_reason s := (ve_reason (se_verdict s)).

Definition set_status (v : string) : Ses -> Ses := upd_verdict (fun x => mkVerdict v (ve_reason x) (ve_summary x) (ve_detail x)).
Definition set_reason (v : string) : Ses -> Ses := upd_verdict (fun x => mkVerdict (ve_status x) (Some v) (ve_summary x) (ve_detail x)).
Definition set_summary (v : string) : Ses -> Ses := upd_verdict (fun x => mkVerdict (ve_status x) (ve_reason x) v (ve_detail x)).
Definition set_detail (v : string) : Ses -> Ses := upd_verdict (fun x => mkVerdict (ve_status x) (ve_reason x) (ve_summary x) v).
(** [session.session_end_reason = ...; session.status = ...] *)
Definition end_with (reason st : string) (s : Ses) : Ses := set_status st (set_reason reason s).

Definition set_pause (p : bool) (reason : string) : Ses -> Ses :=
  upd_control (fun c => mkControl p reason (ct_followups c) (ct_override c) (ct_hints c)).
Definition set_followups (l : list string) : Ses -> Ses :=
  upd_control (fun c => mkControl (ct_paused c) (ct_pause_reason c) l (ct_override c) (ct_hints c)).
Definition set_hints (h : option string) : Ses -> Ses :=
  upd_control (fun c => mkControl (ct_paused c) (ct_pause_reason c) (ct_followups c) (ct_override c) h).
Definition set_override (o : option string) : Ses -> Ses :=
  upd_control (fun c => mkControl (ct_paused c) (ct_pause_reason c) (ct_followups c) o (ct_hints c)).

Definition frame (f : Frame) : Ses -> Ses :=
  upd_trace (fun t => mkTrace (tr_frames t ++ [f]) (tr_sent t) (tr_approved t) (tr_ops t)).
Definition log_sent (m : string) : Ses -> Ses :=
  upd_trace (fun t => mkTrace (tr_frames t) (tr_sent t ++ [m]) (tr_approved t) (tr_ops t)).
Definition log_approved (id : string) (v : bool) : Ses -> Ses :=
  upd_trace (fun t => mkTrace (tr_frames t) (tr_sent t) (tr_approved t ++ [(id, v)]) (tr_ops t)).
Definition op (o : Op) : Ses -> Ses :=
  upd_trace (fun t => mkTrace (tr_frames t) (tr_sent t) (tr_approved t) (tr_ops t ++ [o])).

Definition set_turns (z : Z) : Ses -> Ses :=
  upd_progress (fun p => mkProgress (pg_output p) z (pg_tools p) (pg_cost p) (pg_usage p) (pg_session p) (pg_event p) (pg_tool p)).
Definition set_cost (q : Q) : Ses -> Ses :=
  upd_progress (fun p => mkProgress (pg_output p) (pg_turns p) (pg_tools p) q (pg_usage p) (pg_session p) (pg_event p) (pg_tool p)).
Definition set_usage (u : dict string Z) : Ses -> Ses :=
  upd_progress (fun p => mkProgress (pg_output p) (pg_turns p) (pg_tools p) (pg_cost p) u (pg_session p) (pg_event p) (pg_tool p)).
Definition add_output (t : string) : Ses -> Ses :=
  upd_progress (fun p => mkProgress (pg_output p +:+ t) (pg_turns p) (pg_tools p) (pg_cost p) (pg_usage p) (pg_session p) (pg_event p) (pg_tool p)).
Definition count_tool : Ses -> Ses :=
  upd_progress (fun p => mkProgress (pg_output p) (pg_turns p) (pg_tools p + 1) (pg_cost p) (pg_usage p) (pg_session p) (pg_event p) (pg_tool p)).
Definition set_backend_session (id : string) : Ses -> Ses :=
  upd_progress (fun p => mkProgress (pg_output p) (pg_turns p) (pg_tools p) (pg_cost p) (pg_usage p) id (pg_event p) (pg_tool p)).
Definition set_last (e : Envelope) : Ses -> Ses :=
  upd_progress (fun p => mkProgress (pg_output p) (pg_turns p) (pg_tools p) (pg_cost p) (pg_usage p) (pg_session p) (kind_value e)
    (match e with EvToolCall name _ => name | _ => pg_tool p end)).

(** [bool(x)] of an optional string *)
Definition truthy_str (o : option string) : bool :=
  match o with Some s => negb (String.eqb s "") | None => false end.

(** ** Operator commands *)

(** [content.count(needle)] *)
Fixpoint count_sub (needle : string) (skip : nat) (s : string) : Z :=
  match s with
  | EmptyString => 0
  | String _ s' =>
      match skip with
      | S k => count_sub needle k s'
      | O => if String.prefix needle s then 1 + count_sub needle (String.length needle - 1) s' else count_sub needle 0 s'
      end
  end.
Definition separator : string := "--------------------------------------------------".
Definition nl : string := String (Ascii.ascii_of_nat 10) "".

(** [_write_operator_hint]; [stamp]: the formatted time *)
Definition write_operator_hint (stamp hint : string) (s : Ses) : Ses :=
  if String.eqb hint "" then s
  else
    let content := default "" (ct_hints (se_control s)) in
    if is_some (ct_hints (se_control s)) && contains (strip hint) content then s
    else
      let n := count_sub "--- Operator Hint #" 0 content + 1 in
      set_hints (Some (content +:+ "--- Operator Hint #" +:+ str_int n +:+ " (injected at " +:+ stamp +:+ ") ---" +:+ nl
                         +:+ hint +:+ nl +:+ separator +:+ nl)) s.

(** What is fixed for a run *)
Record Timeouts := mkTimeouts {
  to_total : Q;
  to_handshake : Q;
  to_first_turn : Q;
  to_inactivity : Q;
  to_idle : Q;
}.
Record Pricing := mkPricing {
  pr_models : dict string (Q * Q);
  pr_default : option (Q * Q);
}.
Record Cfg := mkCfg {
  rc_timeouts : Timeouts;
  rc_socket : bool;
  rc_pausable : bool;
  rc_policy : ApprovalPolicy;
  rc_tracker : option (list string);
  rc_issue_id : string;
  rc_requested : string;
  rc_actual : string;
  rc_pricing : Pricing;
}.

(** [_drain_control_commands] for one command behind [_drain_backend_controls]:
    whether to stop, and the session *)
Definition queue_followup (stamp text : string) (s : Ses) : Ses :=
  write_operator_hint stamp text (set_followups (ct_followups (se_control s) ++ [text]) s).
Definition apply_command (cfg : Cfg) (stamp : string) (c : Command) (s : Ses) : bool * Ses :=
  match c with
  | CPause ok =>
      if rc_pausable cfg && ok then (false, frame FPaused (set_pause true "operator_interrupt" s))
      else (false, frame (FControlError "pause") s)
  | CResume ok prompt =>
      if rc_pausable cfg && ok then
        (false, frame FResumed (set_pause false "" (if truthy_str prompt then set_override prompt s else s)))
      else (false, frame (FControlError "resume") s)
  | CStop =>
      (true, set_summary "operator sent stop via control socket" (end_with "operator_stop" "failed" (set_pause false "" s)))
  | CTakeover =>
      (true, set_summary "operator requested takeover via control socket" (end_with "operator_takeover" "failed" s))
  | CInject text | CFollowup text => (false, queue_followup stamp text s)
  | CDetach | CFlush => (false, s)
  end.
Fixpoint drain (cfg : Cfg) (stamp : string) (cs : list Command) (s : Ses) : bool * Ses :=
  match cs with
  | [] => (false, s)
  | c :: cs =>
      match apply_command cfg stamp c s with
      | (true, s) => (true, s)
      | (false, s) => drain cfg stamp cs s
      end
  end.
(** [_drain_backend_controls]: nothing is read without a socket. *)
Definition drain_backend_controls (cfg : Cfg) (stamp : string) (cs : list Command) (s : Ses) : bool * Ses :=
  if rc_socket cfg then drain cfg stamp cs s else (false, s).

(** [_handle_pause_gate]: the commands found at each poll; [None]: still waiting *)
Fixpoint pause_gate (cfg : Cfg) (stamp : string) (polls : list (list Command)) (s : Ses) : option (bool * Ses) :=
  if ct_paused (se_control s) then
    match polls with
    | [] => None
    | cs :: polls =>
        match drain_backend_controls cfg stamp cs s with
        | (true, s) => Some (true, s)
        | (false, s) => pause_gate cfg stamp polls s
        end
    end
  else Some (false, s).

(** ** Usage and cost *)

Definition CAMEL_TO_SNAKE : dict string string :=
  [("inputTokens", "input"); ("outputTokens", "output"); ("reasoningTokens", "reasoning");
   ("cacheReadTokens", "cache_read"); ("cacheWriteTokens", "cache_write"); ("totalTokens", "total")].
(** [int(value)] of a number *)
Definition number (v : pyval) : option Z :=
  match v with
  | PInt z => Some z
  | PBool b => Some (if b then 1 else 0)
  | PFloat q => Some (Z.quot (Qnum q) (QDen q))
  | _ => None
  end.
Definition add_to (key : string) (z : Z) (d : dict string Z) : dict string Z := dset key (default 0 (dget key d) + z) d.
Definition canonical (key : string) : string := default key (dget key CAMEL_TO_SNAKE).

(** [_normalize_token_usage] *)
Definition normalize_token_usage (usage : dict string pyval) : dict string Z :=
  fold_left (fun acc kv => match number (snd kv) with Some z => add_to (canonical (fst kv)) z acc | None => acc end) usage [].
Definition merge_usage (usage : dict string pyval) (total : dict string Z) : dict string Z :=
  fold_left (fun acc kv => add_to (fst kv) (snd kv) acc) (normalize_token_usage usage) total.

(** The entry with the longest key that is a prefix; the first of equal length *)
Definition longest_prefix {A} (model : string) (table : dict string A) : option A :=
  snd <$> fold_left (fun best kv =>
     if String.prefix (fst kv) model
        && match best with Some (n, _) => Nat.ltb n (String.length (fst kv)) | None => true end
     then Some (String.length (fst kv), snd kv) else best) table None.
(** [resolve_model_alias] *)
Definition resolve_model_alias (model : string) (aliases : dict string string) : string :=
  if String.eqb model "" then model
  else match dget model aliases with
       | Some a => a
       | None => default model (longest_prefix model aliases)
       end.
(** [_rate_for], [estimate_cost_usd] *)
Definition rate_for (model : string) (p : Pricing) (allow_default : bool) : option (Q * Q) :=
  match dget model (pr_models p) with
  | Some r => Some r
  | None =>
      match longest_prefix model (pr_models p) with
      | Some r => Some r
      | None => if allow_default then pr_default p else None
      end
  end.
Definition estimate_cost_usd (model : string) (tokens_in tokens_out : Z) (p : Pricing) (allow_default : bool) : option Q :=
  r ← rate_for model p allow_default;
  Some ((inject_Z tokens_in * fst r + inject_Z tokens_out * snd r) / inject_Z 1000000)%Q.

(** [_resolve_cost] *)
Definition tokens (key key' : string) (u : dict string Z) : Z := default (default 0 (dget key' u)) (dget key u).
Definition resolve_cost (cfg : Cfg) (s : Ses) : Ses :=
  if String.eqb (rc_actual cfg) "" || String.eqb (rc_actual cfg) (rc_requested cfg) then s
  else
    let u := pg_usage (se_progress s) in
    let i := tokens "input" "input_tokens" u in
    let o := tokens "output" "output_tokens" u in
    if (i =? 0) && (o =? 0) then s
    else match estimate_cost_usd (rc_actual cfg) i o (rc_pricing cfg) false with
         | Some q => set_cost q s
         | None => s
         end.

(** ** The state of the loop *)

(** The guards against runs that produce nothing *)
Record Guard := mkGuard {
  gd_noop : Z;
  gd_streak : Z;
  gd_calls : bool;
  gd_modifying : bool;
}.
(** The clocks of the timeouts *)
Record Watch := mkWatch {
  wa_run_start : Q;
  wa_last_event : Q;
  wa_paused : Q;
  wa_handshake : bool;
  wa_first_turn : bool;
}.
Record Complete := mkComplete {
  co_reason : string;
  co_cost : option (option Q);
}.
Record Loop := mkLoop {
  lp_guard : Guard;
  lp_watch : Watch;
  lp_error : option string;
  lp_followup : bool;
  lp_complete : option Complete;
}.

Definition set_guard (g : Guard) (l : Loop) : Loop := mkLoop g (lp_watch l) (lp_error l) (lp_followup l) (lp_complete l).
Definition set_watch (w : Watch) (l : Loop) : Loop := mkLoop (lp_guard l) w (lp_error l) (lp_followup l) (lp_complete l).
Definition set_error (e : option string) (l : Loop) : Loop := mkLoop (lp_guard l) (lp_watch l) e (lp_followup l) (lp_complete l).
Definition set_followup (b : bool) (l : Loop) : Loop := mkLoop (lp_guard l) (lp_watch l) (lp_error l) b (lp_complete l).
Definition set_complete (c : option Complete) (l : Loop) : Loop := mkLoop (lp_guard l) (lp_watch l) (lp_error l) (lp_followup l) c.

Definition new_loop (start : Q) : Loop :=
  mkLoop (mkGuard 0 0 false false) (mkWatch start start 0 false false) None false None.

Inductive Exn := Cancelled | Failed (text : string).

(** The answer of [tracker.fetch_issue_states_by_ids]; [None]: the call raises.
    [Some None]: the issue is not in it *)
Definition answer : Type := option (option (option string)).

(** One iteration: the event or a tick, the commands found before it, during a
    pause and after it, the readings of the clock, of git and of the tracker *)
Record Beat := mkBeat {
  b_raise : option Exn;
  b_event : option Envelope;
  b_before : list Command;
  b_polls : list (list Command);
  b_paused_for : Q;
  b_stamp : string;
  b_files : option (list (string * string));
  b_dirty : option (list (string * string));
  b_approve : option Exn;
  b_send : bool;
  b_states : answer;
  b_now : Q;
  b_after : list Command;
}.

(** What an iteration leads to: the next one; out of the loop; an exception; a
    pause that has not ended *)
Inductive stepped :=
| Next (s : Ses) (l : Loop)
| Quit (s : Ses) (l : Loop)
| Throw (e : Exn) (s : Ses)
| Hold (s : Ses).

(** Handling of the event itself: on to the watchdog, or one of these *)
Inductive handled :=
| Fall (s : Ses) (l : Loop)
| Skip (s : Ses) (l : Loop)
| Leave (s : Ses) (l : Loop)
| Fault (e : Exn) (s : Ses).

Definition NOOP_DETECTION_MAX_TURNS : Z := 5.
Definition READ_ONLY_SOFT_HINT_TURNS : Z := 3.
Definition READ_ONLY_STRONG_HINT_TURNS : Z := 6.
Definition MAX_READ_ONLY_TURNS : Z := 8.
Definition MODIFYING_TOOL_NAMES : list string :=
  ["Write"; "Edit"; "FileWrite"; "FileWriteTool"; "FileEdit"; "FileEditTool"; "WriteTool"; "EditTool"].

Definition touched (st : string) : bool := negb (mem st ["unmodified"; "ignored"]).

(** [_check_file_changes] *)
Definition check_file_changes (current : option (list (string * string))) (last_snapshot : option (dict string string)) : bool :=
  match current with
  | None => true
  | Some l =>
      match last_snapshot with
      | None => existsb (fun ps => touched (snd ps)) l
      | Some last => existsb (fun ps => negb (bool_decide (dget (fst ps) last = Some (snd ps)))) l
      end
  end.

(** [_should_continue] *)
Definition should_continue (issue_id : string) (active_states : list string) (a : answer) : bool :=
  if String.eqb issue_id "" then true
  else match a with
       | None => true
       | Some None => true
       | Some (Some st) =>
           match active_states with
           | [] => true
           | _ =>
               match st with
               | None => true
               | Some st => if String.eqb st "" then true else mem (lower (strip st)) (map (fun x => lower (strip x)) active_states)
               end
           end
       end.

(** ** The handlers of the events *)

Definition success_reason (reason : string) : bool := mem reason ["success"; "turn_complete"].
(** An earlier error is not erased by a successful terminal frame. *)
Definition effective_reason (error : option string) (reason : string) : string :=
  if truthy_str error && success_reason reason then "backend_error" else reason.

Definition streak_text (n : Z) : string :=
  "You have spent " +:+ str_int n +:+ " consecutive turns only reading/exploring without changing any files. "
  +:+ "If you understand the task, START WRITING now: modify files (Write/Edit) or run commands (Bash) to produce actual changes.".

(** The streak after a turn *)
Definition turn_streak (turns : Z) (dirty : option (list (string * string))) (g : Guard) : Z :=
  if (1 <? turns) && gd_calls g && negb (gd_modifying g) then
    if match dirty with Some l => existsb (fun ps => touched (snd ps)) l | None => false end then 0 else gd_streak g + 1
  else 0.

Definition followup_prompt (l : list string) : string :=
  "[Operator follow-up]" +:+ nl +:+ String.concat nl (map (fun m => "- " +:+ m) l).
(** Queued messages are delivered at the end of a turn. *)
Definition deliver_followups (send : bool) (s : Ses) (l : Loop) : Ses * Loop :=
  match ct_followups (se_control s) with
  | [] => (s, l)
  | ms => if send then (set_followups [] (log_sent (followup_prompt ms) s), set_followup true l) else (s, l)
  end.

Definition on_turn (cfg : Cfg) (b : Beat) (turn : Z) (s : Ses) (l : Loop) : handled :=
  let s := set_turns (Z.max (pg_turns (se_progress s) + 1) turn) s in
  let g := lp_guard l in
  let noop := if check_file_changes (b_files b) None then 0 else gd_noop g + 1 in
  let streak := turn_streak (pg_turns (se_progress s)) (b_dirty b) g in
  if NOOP_DETECTION_MAX_TURNS <=? noop then
    Leave (end_with "noop_detected" "completed" s) (set_guard (mkGuard noop (gd_streak g) (gd_calls g) (gd_modifying g)) l)
  else
    let s := if (streak =? READ_ONLY_SOFT_HINT_TURNS) || (streak =? READ_ONLY_STRONG_HINT_TURNS)
             then write_operator_hint (b_stamp b) (streak_text streak) s else s in
    if MAX_READ_ONLY_TURNS <=? streak then
      Leave (end_with "read_only_loop" "failed"
               (set_summary (str_int streak +:+ " consecutive turns with only read-only tool calls and no code changes") s))
            (set_guard (mkGuard noop streak (gd_calls g) (gd_modifying g)) l)
    else
      let (s, l) := deliver_followups (b_send b) s (set_guard (mkGuard noop streak false false) l) in
      match rc_tracker cfg with
      | Some active =>
          if should_continue (rc_issue_id cfg) active (b_states b) then Fall s l else Leave (set_status "completed" s) l
      | None => Fall s l
      end.

(** The end of a session by a terminal frame *)
Definition settle (cfg : Cfg) (c : Complete) (s : Ses) : Ses :=
  let s := end_with (co_reason c) (if success_reason (co_reason c) then "completed" else "failed") s in
  let s := match co_cost c with Some (Some q) => set_cost q s | _ => s end in
  frame (FEvent "session_complete") (resolve_cost cfg s).

Definition on_complete (cfg : Cfg) (reason : option string) (usage : dict string pyval) (cost : option (option Q))
    (s : Ses) (l : Loop) : handled :=
  let c := mkComplete (effective_reason (lp_error l) (default "success" reason)) cost in
  let s := match usage with [] => s | _ => set_usage (merge_usage usage (pg_usage (se_progress s))) s end in
  if lp_followup l then Skip s (set_complete (Some c) (set_followup false l))
  else Leave (settle cfg c s) (set_complete None l).

Definition on_error (message code : option string) (s : Ses) (l : Loop) : handled :=
  let m := default "unknown error" message in
  Fall (set_detail (default "backend_error" code +:+ ": " +:+ m) (set_summary m (end_with "backend_error" "failed" s)))
       (set_error (Some m) l).

(** [_handle_approval_request_envelope] *)
Definition on_approval (cfg : Cfg) (b : Beat) (request tool name : string) (s : Ses) (l : Loop) : handled :=
  if String.eqb request "" then Fall s l
  else
    let tool := if String.eqb tool "" then name else tool in
    match b_approve b with
    | Some e => Fault e s
    | None => Fall (log_approved request (fst (evaluate (rc_policy cfg) (mkToolCallEvent tool None None))) s) l
    end.

Definition handle (cfg : Cfg) (b : Beat) (e : Envelope) (s : Ses) (l : Loop) : handled :=
  let g := lp_guard l in
  match e with
  | EvText t => Fall (add_output t s) l
  | EvTextDelta t d => Fall (add_output (if String.eqb t "" then d else t) s) l
  | EvToolCall name _ =>
      Fall (count_tool s)
        (set_guard (mkGuard (gd_noop g) (gd_streak g) true (gd_modifying g || mem name MODIFYING_TOOL_NAMES)) l)
  | EvApproval request tool name => on_approval cfg b request tool name s l
  | EvToolResult _ _ =>
      Fall s (set_guard (mkGuard (gd_noop g) (if gd_calls g && negb (gd_modifying g) then gd_streak g + 1 else 0)
                           (gd_calls g) (gd_modifying g)) l)
  | EvTurn turn => on_turn cfg b turn s l
  | EvComplete _ reason usage cost => on_complete cfg reason usage cost s l
  | EvError m c => on_error m c s l
  | EvOther _ => Fall s l
  end.

(** ** The watchdog *)

Definition is_turn (e : option Envelope) : bool := match e with Some (EvTurn _) => true | _ => false end.
Definition mark (b : Beat) (w : Watch) : Watch :=
  mkWatch (wa_run_start w) (if is_some (b_event b) then b_now b else wa_last_event w) (wa_paused w)
    (wa_handshake w || is_some (b_event b)) (wa_first_turn w || is_turn (b_event b)).

(** The timeout that has passed, if any *)
Definition expired (t : Timeouts) (now : Q) (w : Watch) : option string :=
  let elapsed := (now - wa_run_start w)%Q in
  let gap := (now - wa_last_event w)%Q in
  if negb (wa_handshake w) && qle (to_handshake t) elapsed then Some "handshake_timeout"
  else if wa_handshake w && negb (wa_first_turn w) && qle (to_first_turn t) gap then Some "first_turn_timeout"
  else if wa_handshake w && qle (to_inactivity t) gap then Some "inactivity_timeout"
  else if qle (to_total t) elapsed then Some "total_timeout"
  else if qle (to_idle t) gap then Some "idle_watchdog_timeout"
  else None.

Definition watchdog (cfg : Cfg) (b : Beat) (s : Ses) (l : Loop) : stepped :=
  let w := mark b (lp_watch l) in
  let l := set_watch w l in
  match expired (rc_timeouts cfg) (b_now b) w with
  | Some reason => Quit (end_with reason "failed" s) l
  | None =>
      let s := match b_event b with Some e => frame (FEvent (kind_value e)) s | None => s end in
      match drain_backend_controls cfg (b_stamp b) (b_after b) s with
      | (true, s) => Quit (set_status "failed" s) l
      | (false, s) => Next s l
      end
  end.

(** ** The loop *)

Definition shift (q : Q) (w : Watch) : Watch :=
  mkWatch (wa_run_start w + q) (wa_last_event w + q) (wa_paused w + q) (wa_handshake w) (wa_first_turn w).

Definition note_event (e : Envelope) (s : Ses) : Ses :=
  let s := match e with
           | EvComplete id _ _ _ => if String.eqb id "" then s else set_backend_session id s
           | _ => s
           end in
  set_last e s.

Definition dispatch (cfg : Cfg) (b : Beat) (s : Ses) (l : Loop) : stepped :=
  match b_event b with
  | None => watchdog cfg b s l
  | Some e =>
      match handle cfg b e (note_event e s) l with
      | Fall s l => watchdog cfg b s l
      | Skip s l => Next s l
      | Leave s l => Quit s l
      | Fault e s => Throw e s
      end
  end.

Definition step (cfg : Cfg) (b : Beat) (s : Ses) (l : Loop) : stepped :=
  match b_raise b with
  | Some e => Throw e s
  | None =>
      match drain_backend_controls cfg (b_stamp b) (b_before b) s with
      | (true, s) => Quit (set_status "failed" s) l
      | (false, s) =>
          if ct_paused (se_control s) then
            match pause_gate cfg (b_stamp b) (b_polls b) s with
            | None => Hold s
            | Some (stop, s) =>
                let l := set_watch (shift (b_paused_for b) (lp_watch l)) l in
                if stop then Quit (set_status "failed" s) l else dispatch cfg b s l
            end
          else dispatch cfg b s l
      end
  end.

Fixpoint loop (cfg : Cfg) (beats : list Beat) (s : Ses) (l : Loop) : stepped :=
  match beats with
  | [] => Quit s l
  | b :: beats =>
      match step cfg b s l with
      | Next s l => loop cfg beats s l
      | r => r
      end
  end.

(** After the loop: a frame that was taken for an intermediate one is settled. *)
Definition epilogue (cfg : Cfg) (s : Ses) (l : Loop) : Ses :=
  match lp_complete l with
  | Some c => settle cfg (mkComplete (effective_reason (lp_error l) (co_reason c)) (co_cost c)) s
  | None => s
  end.

(** [_process_events]; [None]: the run is paused *)
Definition process_events (cfg : Cfg) (start : Q) (beats : list Beat) (s : Ses) : option (option Exn * Ses) :=
  match loop cfg beats s (new_loop start) with
  | Next s l | Quit s l => Some (None, epilogue cfg s l)
  | Throw e s => Some (Some e, s)
  | Hold _ => None
  end.

(** ** The specification of a session *)

Record AgentCfg := mkAgentCfg {
  ac_run_timeout_ms : Z;
  ac_stall_timeout_ms : Z;
  ac_first_turn_timeout_ms : Z;
  ac_max_turns : Z;
  ac_model : string;
  ac_aliases : dict string string;
  ac_tools_allow : list string;
}.

(** [SessionSpec]: the timeouts with their deprecated aliases, and what the run sets *)
Record SessionSpec := mkSpec {
  sp_timeout : option Q;
  sp_stall_timeout : option Q;
  sp_total : option Q;
  sp_handshake : option Q;
  sp_first_turn : option Q;
  sp_inactivity : option Q;
  sp_idle : option Q;
  sp_resume : option string;
  sp_max_turns : Z;
  sp_tools_allow : option (list string);
}.

Definition above (total : Q) (v : option Q) : bool := match v with Some q => qlt total q | None => false end.

(** [SessionSpec.__post_init__] *)
Definition post_init (s : SessionSpec) : outcome string SessionSpec :=
  let total := or_else (sp_total s) (sp_timeout s) in
  let inactivity := or_else (sp_inactivity s) (sp_stall_timeout s) in
  let s := mkSpec (sp_timeout s) (sp_stall_timeout s) total (sp_handshake s) (sp_first_turn s) inactivity (sp_idle s)
             (sp_resume s) (sp_max_turns s) (sp_tools_allow s) in
  match total with
  | None => Ret s
  | Some t =>
      if above t (sp_handshake s) || above t (sp_first_turn s) || above t inactivity then
        Raise "ValueError: sub-timeout exceeds total_timeout_s - the run watchdog must envelop every phase"
      else if match sp_idle s with Some i => qlt i t | None => false end then
        Raise "ValueError: idle_watchdog_timeout_s must be >= total_timeout_s"
      else Ret s
  end.

(** [_resolve_timeouts] *)
Definition resolve_timeouts (s : SessionSpec) : Timeouts :=
  let total := default 1800%Q (sp_total s) in
  mkTimeouts total (default 30%Q (sp_handshake s)) (default 120%Q (sp_first_turn s)) (default 300%Q (sp_inactivity s))
    (default total (sp_idle s)).

Definition seconds (ms : Z) : Q := (inject_Z ms / 1000)%Q.

(** [_build_session_spec]: the configuration of the runner is [a], that of the
    workflow is an argument that is not read. *)
Definition allow_skills (l : list string) : option (list string) :=
  match l with [] => None | _ => Some (if mem "load_skill" l then l else l ++ ["load_skill"]) end.
Definition build_session_spec (a workflow : AgentCfg) (resume : option string) : outcome string SessionSpec :=
  let total := seconds (ac_run_timeout_ms a) in
  post_init (mkSpec None None (Some total) None
    (if 0 <? ac_first_turn_timeout_ms a then Some (seconds (ac_first_turn_timeout_ms a)) else None)
    (Some (seconds (ac_stall_timeout_ms a))) (Some total) resume (ac_max_turns a) (allow_skills (ac_tools_allow a))).

(** ** The run *)

Inductive probed := PrAbsent | PrResumed | PrRejected | PrUndetectable | PrRaises | PrCancelled.
(** A step that is best effort: it works, fails quietly, or is cancelled *)
Inductive attempt := AtWorks | AtFails | AtCancelled.

(** The awaits of the clean-up: the registry of live sessions, the row of the
    session, the backend, the socket *)
Record Cleanup := mkCleanup {
  cl_unregister : attempt;
  cl_row : attempt;
  cl_close : attempt;
  cl_stop : attempt;
}.

(** The backend and the surroundings of one run; [en_log]: the directory of the
    tool log cannot be made *)
Record Env := mkEnv {
  en_log : option string;
  en_prompt : outcome string (string * string);
  en_preflight : option string;
  en_create : option string;
  en_probe : probed;
  en_socket : attempt;
  en_expose : attempt;
  en_send : option Exn;
  en_start : Q;
  en_beats : list Beat;
  en_cleanup : Cleanup;
}.

(** Everything that [Cfg] has apart from what the specification gives *)
Record Runner := mkRunner {
  rn_agent : AgentCfg;
  rn_backend : string;
  rn_pausable : bool;
  rn_policy : ApprovalPolicy;
  rn_tracker : option (list string);
  rn_issue_id : string;
  rn_pricing : Pricing;
}.
Definition run_cfg (r : Runner) (spec : SessionSpec) (socket : bool) : Cfg :=
  mkCfg (resolve_timeouts spec) socket (rn_pausable r) (rn_policy r) (rn_tracker r) (rn_issue_id r) (ac_model (rn_agent r))
    (resolve_model_alias (ac_model (rn_agent r)) (ac_aliases (rn_agent r))) (rn_pricing r).

(** [_retire_live_session], [spi_session.close], [control_socket.stop]: failures
    are logged, a cancellation is not caught and ends the clean-up. *)
Definition cancels (a : attempt) : option Exn := match a with AtCancelled => Some Cancelled | _ => None end.
Definition retire_live_session (c : Cleanup) (exposed : bool) (s : Ses) : option Exn * Ses :=
  if exposed then
    match cl_unregister c with
    | AtWorks => (cancels (cl_row c), op OpRetire s)
    | AtFails => (cancels (cl_row c), s)
    | AtCancelled => (Some Cancelled, s)
    end
  else (None, s).
Definition close_session (c : Cleanup) (s : Ses) : option Exn * Ses := (cancels (cl_close c), op OpClose s).
Definition stop_socket (c : Cleanup) (socket : bool) (s : Ses) : option Exn * Ses :=
  if socket then (cancels (cl_stop c), op OpSocketStop s) else (None, s).

(** The [finally] of [_run_with_backend]; what it raises replaces [e]. *)
Definition cleanup (c : Cleanup) (socket exposed : bool) (e : option Exn) (s : Ses) : option Exn * Ses :=
  match retire_live_session c exposed s with
  | (Some x, s) => (Some x, s)
  | (None, s) =>
      match close_session c s with
      | (Some x, s) => (Some x, s)
      | (None, s) =>
          match stop_socket c socket s with
          | (Some x, s) => (Some x, s)
          | (None, s) => (e, s)
          end
      end
  end.

(** The part of [_run_with_backend] behind the cleanup; [None]: paused *)
Definition drive (r : Runner) (env : Env) (spec : SessionSpec) (prompt : string) (socket exposed : bool) (s : Ses)
    : option (option Exn * Ses) :=
  let s := frame (FRunInput prompt (sp_resume spec)) s in
  match en_send env with
  | Some e => Some (cleanup (en_cleanup env) socket exposed (Some e) s)
  | None =>
      match process_events (run_cfg r spec socket) (en_start env) (en_beats env) (log_sent prompt s) with
      | Some (e, s) => Some (cleanup (en_cleanup env) socket exposed e s)
      | None => None
      end
  end.

Definition expose (r : Runner) (env : Env) (spec : SessionSpec) (prompt : string) (socket : bool) (s : Ses)
    : option (option Exn * Ses) :=
  match en_expose env with
  | AtCancelled => Some (Some Cancelled, s)
  | AtWorks => drive r env spec prompt socket true (op OpExpose s)
  | AtFails => drive r env spec prompt socket false s
  end.

Definition open_socket (r : Runner) (env : Env) (spec : SessionSpec) (prompt : string) (s : Ses) : option (option Exn * Ses) :=
  match en_socket env with
  | AtCancelled => Some (Some Cancelled, s)
  | AtWorks => expose r env spec prompt true (op OpSocket s)
  | AtFails => expose r env spec prompt false s
  end.

(** [_probe_resume_or_log] and the branch on it; [None]: go on *)
Definition refused (env : Env) (spec : SessionSpec) : option probed :=
  if truthy_str (sp_resume spec) then Some (en_probe env) else None.

(** [_run_with_backend] *)
Definition run_with_backend (r : Runner) (env : Env) (spec : SessionSpec) (prompt : string) (s : Ses)
    : option (option Exn * Ses) :=
  match en_preflight env with
  | Some m => Some (None, set_summary ("backend preflight failed: " +:+ m) (end_with "preflight_failed" "failed" s))
  | None =>
      match en_create env with
      | Some m => Some (Some (Failed m), s)
      | None =>
          let s := op OpCreate s in
          match refused env spec with
          | Some PrRejected =>
              Some (close_session (en_cleanup env) (set_summary ("Resume target session " +:+ default "" (sp_resume spec)
                                        +:+ " was explicitly rejected by " +:+ rn_backend r)
                            (end_with "resume_rejected" "failed" (op OpProbe s))))
          | Some PrCancelled => Some (Some Cancelled, op OpProbe s)
          | Some PrAbsent | None => open_socket r env spec prompt s
          | Some _ => open_socket r env spec prompt (op OpProbe s)
          end
      end
  end.

(** [_build_prompt]: [en_prompt] is what [PromptBuilder] renders. *)
Definition build_prompt (env : Env) (s : Ses) : outcome string (string * string) :=
  match ct_override (se_control s) with
  | Some o => if String.eqb o "" then en_prompt env else Ret ("", o)
  | None => en_prompt env
  end.
Definition run_attempt (r : Runner) (env : Env) (workflow : AgentCfg) (resume : option string) (s : Ses)
    : option (option Exn * Ses) :=
  match build_prompt env s with
  | Raise m => Some (Some (Failed m), s)
  | Ret (system, user) =>
      match build_session_spec (rn_agent r) workflow resume with
      | Raise m => Some (Some (Failed m), s)
      | Ret spec => run_with_backend r env spec user s
      end
  end.

Definition or_reason (reason : string) (s : Ses) : Ses := if truthy_str (end_reason s) then s else set_reason reason s.
Definition or_summary (m : string) (s : Ses) : Ses := if String.eqb (ve_summary (se_verdict s)) "" then set_summary m s else s.

(** [run]: what it raises, and the session.  [run_id]: the id that the caller
    gave.  The directory of the tool log is made before the [try] whose [finally]
    writes the last record. *)
Definition run_ended (s : Ses) : Ses :=
  frame (FRunEnded (status s) (default (status s) (str_or (end_reason s) None)) (ve_summary (se_verdict s))) s.
Definition run (r : Runner) (env : Env) (workflow : AgentCfg) (run_id : option string) (s : Ses)
    : option (option Exn * Ses) :=
  match en_log env with
  | Some m => Some (Some (Failed m), s)
  | None =>
      match run_attempt r env workflow run_id s with
      | None => None
      | Some (None, s) => Some (None, run_ended s)
      | Some (Some Cancelled, s) => Some (Some Cancelled, run_ended (or_reason "cancelled" (set_status "failed" s)))
      | Some (Some (Failed m), s) =>
          Some (None, run_ended (or_summary m (or_reason "backend_error" (set_status "failed" s))))
      end
  end.

(** ** Tasks *)

Record AgentTask := mkTask {
  tk_id : string;
  tk_max_turns : option Z;
  tk_timeout_seconds : option Q;
  tk_prompt_override : option string;
}.
Record TaskResult := mkTaskResult {
  rs_status : string;
  rs_outcome_code : option string;
  rs_output : string;
  rs_turns : Z;
  rs_tools : Z;
  rs_run_id : string;
  rs_cost : Q;
  rs_error : option string;
}.

(** The copy of the configuration that [run_task] gives to [run] as its workflow *)
Definition task_agent (t : AgentTask) (a : AgentCfg) : AgentCfg :=
  mkAgentCfg (match tk_timeout_seconds t with Some q => Z.quot (Qnum q * 1000) (QDen q) | None => ac_run_timeout_ms a end)
    (ac_stall_timeout_ms a) (ac_first_turn_timeout_ms a) (default (ac_max_turns a) (tk_max_turns t)) (ac_model a)
    (ac_aliases a) (ac_tools_allow a).

Definition task_result (run_id : string) (s : Ses) : TaskResult :=
  mkTaskResult (default "completed" (str_or (Some (status s)) None)) (str_or (end_reason s) None) (pg_output (se_progress s))
    (pg_turns (se_progress s)) (pg_tools (se_progress s)) run_id (pg_cost (se_progress s))
    (if String.eqb (status s) "failed" then str_or (Some (ve_summary (se_verdict s))) (end_reason s) else None).

(** [run_task]: [suffix] is the random part of the run id.  The workflow with the
    limits of the task is handed to [run]. *)
Definition task_run_id (t : AgentTask) (suffix : string) : string := tk_id t +:+ "-" +:+ suffix.
Definition run_task (r : Runner) (env : Env) (t : AgentTask) (suffix : string) : option (outcome Exn TaskResult * Ses) :=
  let id := task_run_id t suffix in
  let s := set_override (tk_prompt_override t) new_session in
  '(raised, s) ← run r env (task_agent t (rn_agent r)) (Some id) s;
  Some (match raised with Some e => Raise e | None => Ret (task_result id s) end, s).
