(* ===== verification/BackendRunFacts.v ===== *)
(** * The run of an agent: theorems

    A silent backend cannot hold a run, a run is reported as completed only for
    the reasons the code names, its end is recorded once and its resources are
    given back, and the places where the outcome is not the intended one. *)

From S2P Require Import Prelude Dag StageRunner Approval Checkpoint BackendRun.

Open Scope string_scope.
Open Scope list_scope.
Open Scope Z_scope.

(** ** What the pieces leave alone *)

(** The loop state after beats none of which ended it *)
Fixpoint after (cfg : Cfg) (beats : list Beat) (s : Ses) (l : Loop) : option (Ses * Loop) :=
  match beats with
  | [] => Some (s, l)
  | b :: beats => match step cfg b s l with Next s l => after cfg beats s l | _ => None end
  end.

Lemma loop_after cfg pre post s l s' l' :
  after cfg pre s l = Some (s', l') -> loop cfg (pre ++ post) s l = loop cfg post s' l'.
Proof.
  revert s l. induction pre as [|b pre IH]; intros s l; simpl; [by intros [= -> ->]|].
  destruct (step cfg b s l); [apply IH|done..].
Qed.

(** Commands never complete a run. *)
Lemma hint_verdict stamp hint s : se_verdict (write_operator_hint stamp hint s) = se_verdict s.
Proof. unfold write_operator_hint. destruct (String.eqb hint ""); [done|]. by destruct (_ && _). Qed.

Definition open (s : Ses) : Prop := status s <> "completed".

Lemma apply_command_open cfg stamp c s : open s -> open (snd (apply_command cfg stamp c s)).
Proof.
  unfold open. destruct c; cbn [apply_command]; try done; try (destruct (rc_pausable cfg && ok); cbn [snd]).
  - done.
  - done.
  - by destruct (truthy_str prompt).
  - done.
  - intros H. cbn [snd]. unfold queue_followup. by rewrite hint_verdict.
  - intros H. cbn [snd]. unfold queue_followup. by rewrite hint_verdict.
Qed.
Lemma drain_open cfg stamp cs s : open s -> open (snd (drain cfg stamp cs s)).
Proof.
  revert s. induction cs as [|c cs IH]; intros s H; simpl; [done|].
  pose proof (apply_command_open cfg stamp c s H) as H'. destruct (apply_command cfg stamp c s) as [[] s']; [done|auto].
Qed.
Lemma drain_controls_open cfg stamp cs s : open s -> open (snd (drain_backend_controls cfg stamp cs s)).
Proof. unfold drain_backend_controls. destruct (rc_socket cfg); [apply drain_open|done]. Qed.
Lemma pause_gate_open cfg stamp polls s stop s' :
  open s -> pause_gate cfg stamp polls s = Some (stop, s') -> open s'.
Proof.
  revert s. induction polls as [|cs polls IH]; intros s H; simpl; destruct (ct_paused (se_control s)); try done.
  - by intros [= <- <-].
  - pose proof (drain_controls_open cfg stamp cs s H) as H'.
    destruct (drain_backend_controls cfg stamp cs s) as [[] s1]; [by intros [= <- <-]|by apply IH].
  - by intros [= <- <-].
Qed.

(** ** When a run is completed *)

(** The backend reports an error; reports success; the tracker has closed the
    issue; the end of a turn, and one at which git shows no change *)
Definition errs (b : Beat) : Prop := exists m c, b_event b = Some (EvError m c).
Definition succeeds (b : Beat) : Prop :=
  exists id r u c, b_event b = Some (EvComplete id r u c) /\ success_reason (default "success" r) = true.
Definition closed (cfg : Cfg) (b : Beat) : Prop :=
  exists active, rc_tracker cfg = Some active /\ should_continue (rc_issue_id cfg) active (b_states b) = false.
Definition unchanged (b : Beat) : Prop := check_file_changes (b_files b) None = false.
(** An error says something. *)
Definition named (b : Beat) : Prop := forall m c, b_event b = Some (EvError m c) -> m <> Some "".

(** The last turns, as many as are counted, changed nothing. *)
Definition idle_turns (n : Z) (P : list Beat) : Prop :=
  exists before last, List.filter (fun b => is_turn (b_event b)) P = before ++ last
    /\ Z.of_nat (length last) = n /\ Forall unchanged last.

(** The event of an iteration is looked at: it is reached, past the operator's
    commands and a pause. *)
Definition reached (cfg : Cfg) (b : Beat) (s : Ses) : bool :=
  match b_raise b with
  | Some _ => false
  | None =>
      match drain_backend_controls cfg (b_stamp b) (b_before b) s with
      | (true, _) => false
      | (false, s) =>
          if ct_paused (se_control s) then
            match pause_gate cfg (b_stamp b) (b_polls b) s with Some (false, _) => true | _ => false end
          else true
      end
  end.
(** The part of the stream that the loop looked at *)
Fixpoint read (cfg : Cfg) (beats : list Beat) (s : Ses) (l : Loop) : list Beat :=
  match beats with
  | [] => []
  | b :: beats =>
      (if reached cfg b s then [b] else [])
      ++ match step cfg b s l with Next s l => read cfg beats s l | _ => [] end
  end.

Record tracked (P : list Beat) (l : Loop) : Prop := mkTracked {
  tk_error : lp_error l = None -> forall b, b ∈ P -> ~ errs b;
  tk_named : forall m, lp_error l = Some m -> m <> "";
  tk_frame : forall c, lp_complete l = Some c -> success_reason (co_reason c) = true -> exists b, b ∈ P /\ succeeds b;
  tk_noop : idle_turns (gd_noop (lp_guard l)) P;
}.
Definition accounted (cfg : Cfg) (P : list Beat) (s : Ses) (l : Loop) : Prop :=
  lp_complete l = None -> status s = "completed" ->
  (end_reason s = Some "noop_detected" /\ exists n, NOOP_DETECTION_MAX_TURNS <= n /\ idle_turns n P)
  \/ (exists b, b ∈ P /\ closed cfg b)
  \/ (lp_error l = None /\ exists b, b ∈ P /\ succeeds b).

Lemma idle_turns_other n P b : is_turn (b_event b) = false -> idle_turns n P -> idle_turns n (P ++ [b]).
Proof. intros Hb (x & y & H & Hn). exists x, y. rewrite List.filter_app. simpl. by rewrite Hb, app_nil_r. Qed.
Lemma idle_turns_turn P b n :
  is_turn (b_event b) = true -> idle_turns n P ->
  idle_turns (if check_file_changes (b_files b) None then 0 else n + 1) (P ++ [b]).
Proof.
  intros Hb (x & y & H & Hn & Hf). unfold idle_turns. rewrite List.filter_app. simpl. rewrite Hb.
  destruct (check_file_changes (b_files b) None) eqn:Ec.
  - by exists (List.filter (fun b => is_turn (b_event b)) P ++ [b]), []; rewrite app_nil_r.
  - exists x, (y ++ [b]). rewrite H, <- app_assoc. split; [done|]. rewrite length_app. simpl. split; [lia|].
    apply Forall_app. by split; [|constructor].
Qed.

Lemma open_accounted cfg P s l : open s -> accounted cfg P s l.
Proof. by intros H _ E. Qed.
Lemma tracked_more P b l l' :
  tracked P l -> ~ errs b -> lp_error l' = lp_error l -> lp_complete l' = lp_complete l ->
  idle_turns (gd_noop (lp_guard l')) (P ++ [b]) -> tracked (P ++ [b]) l'.
Proof.
  intros [H1 H2 H3 _] Hn He Hc H4. constructor; rewrite ?He, ?Hc.
  - intros E b' [Hb|Hb]%elem_of_app; [by apply H1|]. by apply list_elem_of_singleton in Hb as ->.
  - done.
  - intros c E Hs. destruct (H3 c E Hs) as (b' & Hb & Hs'). exists b'. split; [set_solver|done].
  - exact H4.
Qed.
Lemma effective_success error reason :
  success_reason (effective_reason error reason) = true -> success_reason reason = true /\ truthy_str error = false.
Proof.
  unfold effective_reason. destruct (truthy_str error) eqn:E; [|done]. destruct (success_reason reason) eqn:Er; [done|].
  simpl. congruence.
Qed.
Lemma no_error l P : tracked P l -> truthy_str (lp_error l) = false -> lp_error l = None.
Proof.
  intros [_ Hn _ _]. destruct (lp_error l) as [m|] eqn:E; [|done]. simpl. intros H%negb_false_iff%String.eqb_eq.
  by destruct (Hn m eq_refl).
Qed.

Lemma cost_status cfg s : status (resolve_cost cfg s) = status s.
Proof.
  unfold resolve_cost. destruct (_ || _); [done|]. destruct (_ && _); [done|]. by destruct (estimate_cost_usd _ _ _ _ _).
Qed.
Lemma settle_status cfg c s :
  status (settle cfg c s) = if success_reason (co_reason c) then "completed" else "failed".
Proof.
  unfold settle. cbn [frame upd_trace se_verdict]. rewrite cost_status. by destruct (co_cost c) as [[]|].
Qed.

Lemma on_complete_tracked cfg P b id r u c s l :
  b_event b = Some (EvComplete id r u c) -> tracked P l -> open s ->
  match on_complete cfg r u c s l with
  | Skip s' l' => tracked (P ++ [b]) l' /\ open s'
  | Leave s' l' => tracked (P ++ [b]) l' /\ accounted cfg (P ++ [b]) s' l'
  | _ => False
  end.
Proof.
  intros Hb Hl Ho. assert (Hn : ~ errs b) by (intros (m & c' & E); congruence).
  assert (Hi : idle_turns (gd_noop (lp_guard l)) (P ++ [b])) by (apply idle_turns_other; [by rewrite Hb|by apply Hl]).
  unfold on_complete. destruct (lp_followup l).
  - split; [|by destruct u]. destruct (tracked_more P b l l Hl Hn eq_refl eq_refl Hi) as [H1 H2 H3 H4].
    constructor; cbn; [done|done| |done]. intros c' [= <-]. cbn. intros [Hs _]%effective_success. exists b.
    split; [set_solver|]. by exists id, r, u, c.
  - split.
    + destruct (tracked_more P b l l Hl Hn eq_refl eq_refl Hi) as [H1 H2 H3 H4]. by constructor.
    + intros _. rewrite settle_status. cbn [co_reason]. destruct (success_reason _) eqn:Es; [|done]. intros _. right. right.
      apply effective_success in Es as [Es He]. split; [by apply (no_error l P)|]. exists b.
      split; [set_solver|]. by exists id, r, u, c.
Qed.

Lemma on_turn_tracked cfg P b turn s l :
  b_event b = Some (EvTurn turn) -> tracked P l -> open s ->
  match on_turn cfg b turn s l with
  | Fall s' l' => tracked (P ++ [b]) l' /\ open s'
  | Leave s' l' => tracked (P ++ [b]) l' /\ accounted cfg (P ++ [b]) s' l'
  | _ => False
  end.
Proof.
  intros Hb Hl Ho. assert (Hn : ~ errs b) by (intros (m & c' & E); congruence).
  pose proof (fun l' => tracked_more P b l l' Hl Hn) as Ht. unfold on_turn.
  assert (Hi := idle_turns_turn P b _ (eq_trans (f_equal is_turn Hb) eq_refl) (tk_noop _ _ Hl)).
  set (noop := if check_file_changes (b_files b) None then 0 else _) in *.
  set (s1 := set_turns _ s). destruct (Z.leb_spec NOOP_DETECTION_MAX_TURNS noop) as [Hle|Hle].
  { split; [by apply Ht|]. intros _ _. left. split; [done|]. by exists noop. }
  set (s2 := if _ || _ then _ else _).
  assert (Ho2 : open s2) by (unfold s2, open; destruct (_ || _); rewrite ?hint_verdict; exact Ho).
  destruct (_ <=? _). { split; [by apply Ht|]. by apply open_accounted. }
  destruct (deliver_followups (b_send b) s2 _) as [s3 l3] eqn:Ed.
  assert (H3 : open s3 /\ lp_error l3 = lp_error l /\ lp_complete l3 = lp_complete l /\ gd_noop (lp_guard l3) = noop).
  { unfold deliver_followups in Ed. destruct (ct_followups (se_control s2)); [by injection Ed as <- <-|].
    destruct (b_send b); by injection Ed as <- <-. }
  destruct H3 as (Ho3 & He3 & Hc3 & Hn3). rewrite <- Hn3 in Hi. destruct (rc_tracker cfg) as [active|] eqn:Er; [|by split; [apply Ht|]].
  destruct (should_continue _ _ _) eqn:Es; [by split; [apply Ht|]|].
  split; [by apply Ht|]. intros _ _. right. left. exists b. split; [set_solver|]. by exists active.
Qed.

Lemma handle_tracked cfg P b e s l :
  b_event b = Some e -> named b -> tracked P l -> open s ->
  match handle cfg b e s l with
  | Fall s' l' | Skip s' l' => tracked (P ++ [b]) l' /\ open s'
  | Leave s' l' => tracked (P ++ [b]) l' /\ accounted cfg (P ++ [b]) s' l'
  | Fault _ _ => True
  end.
Proof.
  intros Hb Hnm Hl Ho.
  assert (Hplain : forall l', (forall m c, e <> EvError m c) -> is_turn (Some e) = false -> lp_error l' = lp_error l ->
            lp_complete l' = lp_complete l -> gd_noop (lp_guard l') = gd_noop (lp_guard l) -> tracked (P ++ [b]) l').
  { intros l' Hne Ht He Hc Hg. apply (tracked_more P b l l' Hl); [|done|done|].
    - intros (m & c & E). rewrite Hb in E. injection E as ->. by apply (Hne m c).
    - rewrite Hg. apply idle_turns_other; [by rewrite Hb|by apply Hl]. }
  destruct e as [t|t d|name call|call failed|req tool name|turn|id r u c|m c|k]; cbn [handle].
  - split; [by apply Hplain|done].
  - split; [by apply Hplain|done].
  - split; [by apply Hplain|done].
  - split; [by apply Hplain|done].
  - unfold on_approval. destruct (String.eqb req ""); [split; [by apply Hplain|done]|]. destruct (b_approve b); [done|].
    split; [by apply Hplain|done].
  - pose proof (on_turn_tracked cfg P b turn s l Hb Hl Ho) as H. by destruct (on_turn cfg b turn s l).
  - pose proof (on_complete_tracked cfg P b id r u c s l Hb Hl Ho) as H. by destruct (on_complete cfg r u c s l).
  - unfold on_error. split; [|done]. destruct Hl as [H1 H2 H3 H4].
    constructor; cbn; [done| | |apply idle_turns_other; [by rewrite Hb|exact H4]].
    + intros m' [= <-]. specialize (Hnm m c Hb). destruct m as [m|]; simpl; congruence.
    + intros c' E Hs. destruct (H3 c' E Hs) as (b' & Hb' & Hs'). exists b'. split; [set_solver|done].
  - split; [by apply Hplain|done].
Qed.

(** What one iteration keeps *)
Definition step_post (cfg : Cfg) (P : list Beat) (r : stepped) : Prop :=
  match r with
  | Next s l => tracked P l /\ open s
  | Quit s l => tracked P l /\ accounted cfg P s l
  | _ => True
  end.

Lemma watchdog_tracked cfg P b s l : tracked P l -> open s -> step_post cfg P (watchdog cfg b s l).
Proof.
  intros [H1 H2 H3 H4] Ho. unfold watchdog. assert (Hl : tracked P (set_watch (mark b (lp_watch l)) l)) by done.
  destruct (expired _ _ _); [split; [done|by apply open_accounted]|].
  set (s1 := match b_event b with Some e => _ | None => s end).
  assert (Ho1 : open s1) by (unfold s1; by destruct (b_event b)).
  pose proof (drain_controls_open cfg (b_stamp b) (b_after b) s1 Ho1) as Hd.
  destruct (drain_backend_controls _ _ _ s1) as [[] s2]; by split.
Qed.

Lemma dispatch_tracked cfg P b s l : named b -> tracked P l -> open s -> step_post cfg (P ++ [b]) (dispatch cfg b s l).
Proof.
  intros Hnm Hl Ho. unfold dispatch. destruct (b_event b) as [e|] eqn:Hb.
  - assert (Ho' : open (note_event e s)).
    { unfold note_event, open. destruct e; try exact Ho. destruct (String.eqb session_id ""); exact Ho. }
    pose proof (handle_tracked cfg P b e _ l Hb Hnm Hl Ho') as H.
    destruct (handle cfg b e (note_event e s) l) as [s1 l1|s1 l1|s1 l1|e1 s1]; [|exact H|exact H|done].
    destruct H. by apply watchdog_tracked.
  - apply watchdog_tracked; [|done]. apply tracked_more with l; try done.
    + intros (m & c & E). congruence.
    + apply idle_turns_other; [by rewrite Hb|by apply Hl].
Qed.

(** One iteration, over the part that is looked at *)
Definition looked (cfg : Cfg) (P : list Beat) (b : Beat) (s : Ses) : list Beat := P ++ (if reached cfg b s then [b] else []).

Lemma step_tracked cfg P b s l :
  (reached cfg b s = true -> named b) -> tracked P l -> open s -> step_post cfg (looked cfg P b s) (step cfg b s l).
Proof.
  intros Hnm Hl Ho. unfold looked, reached, step in *. destruct (b_raise b); [done|].
  pose proof (drain_controls_open cfg (b_stamp b) (b_before b) s Ho) as Hd.
  assert (Hquit : forall s1 l1, lp_error l1 = lp_error l -> lp_complete l1 = lp_complete l -> lp_guard l1 = lp_guard l ->
            step_post cfg (P ++ []) (Quit (set_status "failed" s1) l1)).
  { intros s1 l1 He Hc Hg. rewrite app_nil_r. split; [|by apply open_accounted]. destruct Hl as [H1 H2 H3 H4].
    constructor; rewrite ?He, ?Hc, ?Hg; done. }
  destruct (drain_backend_controls _ _ _ s) as [[] s1]; cbn [snd] in Hd; [by apply Hquit|].
  destruct (ct_paused (se_control s1)); [|apply dispatch_tracked; auto].
  destruct (pause_gate cfg (b_stamp b) (b_polls b) s1) as [[[] s2]|] eqn:Eg; [by apply Hquit| |done].
  pose proof (pause_gate_open _ _ _ _ _ _ Hd Eg) as Ho2. apply dispatch_tracked; [auto| |done].
  destruct Hl. by constructor.
Qed.

(** The loop *)
Lemma loop_tracked cfg beats P s l :
  Forall named (read cfg beats s l) -> tracked P l -> open s ->
  step_post cfg (P ++ read cfg beats s l)
    (match loop cfg beats s l with Next s' l' => Quit s' l' | r => r end).
Proof.
  revert P s l. induction beats as [|b beats IH]; intros P s l Hnm Hl Ho; cbn [read loop] in *.
  - rewrite app_nil_r. split; [done|by apply open_accounted].
  - apply Forall_app in Hnm as [Hb Hnm]. pose proof (step_tracked cfg P b s l) as H. unfold looked in H.
    rewrite (assoc_L (++)).
    assert (Hr : reached cfg b s = true -> named b).
    { intros E. rewrite E in Hb. by apply Forall_cons in Hb as [? _]. }
    specialize (H Hr Hl Ho). destruct (step cfg b s l) as [s1 l1|s1 l1|e s1|s1]; [|by rewrite app_nil_r|done|done].
    destruct H as [H1 H2]. by apply IH.
Qed.

(** C19: a session that was not completed and is completed when the event loop
    returns has a cause in what the loop read of the stream: a success frame, and
    no error anywhere in what was read; or at least as many turns in a row as the
    no-op detection asks for, the last ones, without a change in git; or a closed
    issue. The errors in what was read are taken to carry a message: one with an
    empty message is not counted by the code. *)
Theorem completed_only_for_cause cfg start beats s s' :
  let seen := read cfg beats s (new_loop start) in
  Forall named seen -> open s -> process_events cfg start beats s = Some (None, s') -> status s' = "completed" ->
  ((forall b, b ∈ seen -> ~ errs b) /\ exists b, b ∈ seen /\ succeeds b)
  \/ (end_reason s' = Some "noop_detected" /\ exists n, NOOP_DETECTION_MAX_TURNS <= n /\ idle_turns n seen)
  \/ exists b, b ∈ seen /\ closed cfg b.
Proof.
  intros seen Hnm Ho Hp Hc.
  assert (H0 : tracked [] (new_loop start)) by (constructor; [set_solver|done|done|by exists [], []]).
  pose proof (loop_tracked cfg beats [] s (new_loop start) Hnm H0 Ho) as H. unfold process_events in Hp. fold seen in H.
  assert (Hend : exists s1 l1, tracked seen l1 /\ accounted cfg seen s1 l1 /\ s' = epilogue cfg s1 l1).
  { destruct (loop cfg beats s (new_loop start)) as [s1 l1|s1 l1|e s1|s1]; [..|done|done];
      injection Hp as <-; destruct H; by exists s1, l1. }
  destruct Hend as (s1 & l1 & Ht & Hacc & ->). unfold epilogue in *. destruct (lp_complete l1) as [c|] eqn:Ec.
  - rewrite settle_status in Hc. destruct (success_reason _) eqn:Es; [|done].
    apply effective_success in Es as [Es He]. left. split.
    + by apply (tk_error _ _ Ht), (no_error l1 seen).
    + by apply (tk_frame _ _ Ht c).
  - destruct (Hacc Ec Hc) as [H1|[H1|[H1 H2]]]; auto. left. split; [by apply (tk_error _ _ Ht)|done].
Qed.

(** ** Silence *)

(** A tick without an event and without commands *)
Definition quiet (b : Beat) : Prop :=
  b_raise b = None /\ b_event b = None /\ b_before b = [] /\ b_after b = [].

Definition TIMEOUT_REASONS : list string :=
  ["handshake_timeout"; "first_turn_timeout"; "inactivity_timeout"; "total_timeout"; "idle_watchdog_timeout"].

Lemma expired_reason t now w r : expired t now w = Some r -> r ∈ TIMEOUT_REASONS.
Proof. unfold expired, TIMEOUT_REASONS. repeat case_match; intros [= <-]; set_solver. Qed.

Lemma quiet_step cfg b s l :
  quiet b -> ct_paused (se_control s) = false ->
  step cfg b s l = match expired (rc_timeouts cfg) (b_now b) (lp_watch l) with
                   | Some r => Quit (end_with r "failed" s) l
                   | None => Next s l
                   end.
Proof.
  intros (Hr & He & Hb & Ha) Hp. unfold step. rewrite Hr, Hb.
  assert (Hd : forall s, drain_backend_controls cfg (b_stamp b) [] s = (false, s)).
  { intros s1. unfold drain_backend_controls. by destruct (rc_socket cfg). }
  rewrite Hd, Hp. unfold dispatch. rewrite He. unfold watchdog.
  assert (Hm : mark b (lp_watch l) = lp_watch l).
  { unfold mark. rewrite He. simpl. destruct (lp_watch l). cbn. by rewrite !orb_false_r. }
  rewrite Hm. assert (Hl : set_watch (lp_watch l) l = l) by (by destruct l). rewrite Hl.
  destruct (expired _ _ _); [done|]. by rewrite He, Ha, Hd.
Qed.

(** The limit that silence runs into *)
Definition silence_limit (t : Timeouts) (w : Watch) : Q :=
  if wa_handshake w then (wa_last_event w + to_inactivity t)%Q else (wa_run_start w + to_handshake t)%Q.

Lemma silence_expires t now w : (silence_limit t w <= now)%Q -> expired t now w <> None.
Proof.
  unfold silence_limit, expired. destruct (wa_handshake w); simpl; intros H.
  - rewrite (proj2 (qle_true (to_inactivity t) (now - wa_last_event w))) by lra. repeat case_match; done.
  - rewrite (proj2 (qle_true (to_handshake t) (now - wa_run_start w))) by lra. done.
Qed.

Lemma quiet_loop cfg qs post s l :
  Forall quiet qs -> ct_paused (se_control s) = false ->
  (exists b, b ∈ qs /\ (silence_limit (rc_timeouts cfg) (lp_watch l) <= b_now b)%Q) ->
  exists r, r ∈ TIMEOUT_REASONS /\ loop cfg (qs ++ post) s l = Quit (end_with r "failed" s) l.
Proof.
  intros Hq Hp (b & Hb & Hlim). induction qs as [|b0 qs IH]; [by apply elem_of_nil in Hb|].
  apply Forall_cons in Hq as [Hq0 Hq]. cbn [app loop]. rewrite quiet_step by done.
  destruct (expired _ _ _) as [r|] eqn:E.
  - exists r. split; [by apply expired_reason in E|done].
  - apply IH; [done|]. apply elem_of_cons in Hb as [->|Hb]; [|done]. by apply silence_expires in Hlim.
Qed.

Lemma cost_verdict cfg s : se_verdict (resolve_cost cfg s) = se_verdict s.
Proof.
  unfold resolve_cost. destruct (_ || _); [done|]. destruct (_ && _); [done|]. by destruct (estimate_cost_usd _ _ _ _ _).
Qed.
Lemma settle_reason cfg c s : end_reason (settle cfg c s) = Some (co_reason c).
Proof. unfold settle. cbn [frame upd_trace se_verdict]. rewrite cost_verdict. by destruct (co_cost c) as [[]|]. Qed.

(** C18: a run that is not paused and falls silent (ticks with neither events nor
    commands) past the inactivity limit, or past the handshake limit before its
    first event, ends there, whatever came before and would come later. If no
    terminal frame was put aside before, it has failed with one of the five
    timeout reasons; if one was, the run is reported with the reason of that
    frame, or of the error seen, and so as completed when that reason is a
    success. *)
Theorem silence_ends_run cfg start pre qs post s0 s l :
  after cfg pre s0 (new_loop start) = Some (s, l) -> ct_paused (se_control s) = false ->
  Forall quiet qs -> (exists b, b ∈ qs /\ (silence_limit (rc_timeouts cfg) (lp_watch l) <= b_now b)%Q) ->
  exists s' r, process_events cfg start (pre ++ qs ++ post) s0 = Some (None, s') /\ end_reason s' = Some r
    /\ match lp_complete l with
       | None => status s' = "failed" /\ r ∈ TIMEOUT_REASONS
       | Some c => r = effective_reason (lp_error l) (co_reason c)
                   /\ status s' = if success_reason r then "completed" else "failed"
       end.
Proof.
  intros Ha Hp Hq Hlim. unfold process_events. rewrite (loop_after _ _ _ _ _ _ _ Ha).
  destruct (quiet_loop cfg qs post s l Hq Hp Hlim) as (r & Hr & ->). unfold epilogue.
  destruct (lp_complete l) as [c|].
  - do 2 eexists. split; [done|]. split; [apply settle_reason|]. split; [done|]. by rewrite settle_status.
  - exists (end_with r "failed" s), r. done.
Qed.

(** ** A frame that is put aside *)

(** Only an error changes the error of the loop, only a terminal frame the one
    that is put aside. *)
Definition plain (b : Beat) : Prop := ~ errs b /\ forall id r u c, b_event b <> Some (EvComplete id r u c).

Lemma turn_remembers cfg b turn s l :
  match on_turn cfg b turn s l with
  | Fall _ l' | Skip _ l' | Leave _ l' => lp_error l' = lp_error l /\ lp_complete l' = lp_complete l
  | Fault _ _ => True
  end.
Proof.
  unfold on_turn. destruct (_ <=? _); [done|]. destruct (_ <=? _); [done|].
  destruct (deliver_followups _ _ _) as [s1 l1] eqn:E.
  assert (H : lp_error l1 = lp_error l /\ lp_complete l1 = lp_complete l).
  { unfold deliver_followups in E. destruct (ct_followups _); [by injection E as <- <-|].
    destruct (b_send b); by injection E as <- <-. }
  destruct (rc_tracker cfg); [|done]. by destruct (should_continue _ _ _).
Qed.
Lemma handle_remembers cfg b e s l :
  b_event b = Some e -> ~ errs b ->
  match handle cfg b e s l with
  | Fall _ l' | Skip _ l' | Leave _ l' =>
      lp_error l' = lp_error l /\ ((forall id r u c, e <> EvComplete id r u c) -> lp_complete l' = lp_complete l)
  | Fault _ _ => True
  end.
Proof.
  intros Hb He. destruct e as [t|t d|name call|call failed|req tool name|turn|id r u c|m c|k]; cbn [handle]; try done.
  - unfold on_approval. destruct (String.eqb _ _); [done|]. by destruct (b_approve b).
  - pose proof (turn_remembers cfg b turn s l) as H. destruct (on_turn cfg b turn s l); try done; by destruct H.
  - unfold on_complete. destruct (lp_followup l); (split; [done|]); intros H; by destruct (H id r u c).
  - destruct He. by exists m, c.
Qed.
Lemma step_remembers cfg b s l s' l' :
  step cfg b s l = Next s' l' -> ~ errs b ->
  lp_error l' = lp_error l /\ (plain b -> lp_complete l' = lp_complete l).
Proof.
  intros H He.
  assert (Hd : forall s1 l1, dispatch cfg b s1 l1 = Next s' l' ->
    lp_error l' = lp_error l1 /\ (plain b -> lp_complete l' = lp_complete l1)).
  { intros s1 l1. assert (Hw : forall s2 l2, watchdog cfg b s2 l2 = Next s' l' ->
      lp_error l' = lp_error l2 /\ lp_complete l' = lp_complete l2).
    { intros s2 l2. unfold watchdog. destruct (expired _ _ _); [done|].
      destruct (drain_backend_controls _ _ _ _) as [[] s3]; [done|]. by intros [= <- <-]. }
    unfold dispatch. destruct (b_event b) as [e|] eqn:Eb; [|intros Hx; by destruct (Hw _ _ Hx)].
    pose proof (handle_remembers cfg b e (note_event e s1) l1 Eb He) as Hh.
    destruct (handle cfg b e (note_event e s1) l1) as [s2 l2|s2 l2|s2 l2|x s2]; try done.
    - intros Hx. destruct (Hw _ _ Hx) as [-> ->]. destruct Hh as [Hh1 Hh2]. split; [done|]. intros [_ Hpl].
      apply Hh2. intros id r u c ->. by apply (Hpl id r u c).
    - intros [= <- <-]. destruct Hh as [Hh1 Hh2]. split; [done|]. intros [_ Hpl].
      apply Hh2. intros id r u c ->. by apply (Hpl id r u c). }
  unfold step in H. destruct (b_raise b); [done|]. destruct (drain_backend_controls _ _ _ s) as [[] s1]; [done|].
  destruct (ct_paused (se_control s1)); [|by apply (Hd s1 l)].
  destruct (pause_gate _ _ _ _) as [[[] s2]|]; [done| |done]. apply (Hd _ _ H).
Qed.
Lemma after_remembers cfg beats s l s' l' :
  after cfg beats s l = Some (s', l') -> (forall b, b ∈ beats -> ~ errs b) ->
  lp_error l' = lp_error l /\ (Forall plain beats -> lp_complete l' = lp_complete l).
Proof.
  revert s l. induction beats as [|b beats IH]; intros s l; simpl; [by intros [= <- <-]|].
  destruct (step cfg b s l) as [s1 l1| | |] eqn:E; try done. intros Ha He.
  destruct (step_remembers _ _ _ _ _ _ E) as [H1 H2]; [apply He; set_solver|].
  destruct (IH s1 l1 Ha) as [H3 H4]; [intros x Hx; apply He; set_solver|].
  split; [congruence|]. intros [Hb Hbs]%Forall_cons. rewrite H4, H2; done.
Qed.

(** An iteration without commands, outside a pause *)
Definition undisputed (b : Beat) : Prop := b_raise b = None /\ b_before b = [].
Lemma undisputed_step cfg b s l :
  undisputed b -> ct_paused (se_control s) = false -> step cfg b s l = dispatch cfg b s l.
Proof.
  intros [Hr Hb] Hp. unfold step. rewrite Hr, Hb. unfold drain_backend_controls.
  destruct (rc_socket cfg); simpl; by rewrite Hp.
Qed.

(** The end of a turn delivers what the operator has queued. *)
Lemma turn_delivers cfg b n s l s' l' :
  undisputed b -> ct_paused (se_control s) = false -> ct_followups (se_control s) <> [] ->
  b_event b = Some (EvTurn n) -> b_send b = true -> step cfg b s l = Next s' l' -> lp_followup l' = true.
Proof.
  intros Hu Hp Hf He Hs. rewrite undisputed_step by done. unfold dispatch. rewrite He. cbn [handle note_event]. unfold on_turn.
  destruct (_ <=? _); [done|]. set (s2 := if _ || _ then _ else _).
  assert (Hf2 : ct_followups (se_control s2) = ct_followups (se_control s)).
  { unfold s2. destruct (_ || _); [|done]. unfold write_operator_hint. destruct (String.eqb _ _); [done|]. by destruct (_ && _). }
  destruct (_ <=? _); [done|]. unfold deliver_followups. rewrite Hf2, Hs. destruct (ct_followups (se_control s)); [done|].
  assert (Hw : forall s3 l3, lp_followup l3 = true -> watchdog cfg b s3 l3 = Next s' l' -> lp_followup l' = true).
  { intros s3 l3 H3. unfold watchdog. destruct (expired _ _ _); [done|].
    destruct (drain_backend_controls _ _ _ _) as [[] s4]; [done|]. by intros [= <- <-]. }
  destruct (rc_tracker cfg); [destruct (should_continue _ _ _)|]; try done; intros Hx; (eapply Hw; [|exact Hx]); done.
Qed.

(** C36: a stop after the work was reported done is reported as success. On a run
    with a control socket, when a follow-up that the operator queued is delivered
    at the end of a turn, the next event is a success frame (which is put aside,
    since the follow-up is still to be worked on), then come any events but errors
    and terminal frames, and then the operator stops the run (no other command
    comes with those two events): the run is completed, with the reason of that
    frame, although the follow-up was never done. No error may have come before
    either. *)
Theorem stop_reported_as_success cfg start pre turn n frame mid stop post s0 s1 l1 s2 l2 id reason usage cost s3 l3 s4 l4 :
  rc_socket cfg = true -> (forall b, b ∈ pre ++ turn :: mid -> ~ errs b) ->
  after cfg pre s0 (new_loop start) = Some (s1, l1) -> ct_followups (se_control s1) <> [] ->
  undisputed turn -> ct_paused (se_control s1) = false -> b_event turn = Some (EvTurn n) -> b_send turn = true ->
  step cfg turn s1 l1 = Next s2 l2 ->
  undisputed frame -> ct_paused (se_control s2) = false ->
  b_event frame = Some (EvComplete id (Some reason) usage cost) -> success_reason reason = true ->
  step cfg frame s2 l2 = Next s3 l3 ->
  Forall plain mid -> after cfg mid s3 l3 = Some (s4, l4) ->
  b_raise stop = None -> b_before stop = [CStop] ->
  exists s', process_events cfg start (pre ++ turn :: frame :: mid ++ stop :: post) s0 = Some (None, s')
    /\ status s' = "completed" /\ end_reason s' = Some reason.
Proof.
  intros Hsock Herr Hpre Hq Ht Hp1 Het Hsend Hst Hf Hp2 Hef Hok Hsf Hpl Hmid Hr Hb.
  destruct (after_remembers _ _ _ _ _ _ Hpre) as [He1 _]; [intros x Hx; apply Herr; set_solver|].
  destruct (step_remembers _ _ _ _ _ _ Hst) as [He2 _]; [apply Herr; set_solver|].
  assert (Hfl : lp_followup l2 = true) by exact (turn_delivers cfg turn n s1 l1 s2 l2 Ht Hp1 Hq Het Hsend Hst).
  pose proof Hsf as Hsf'. rewrite undisputed_step in Hsf' by done. unfold dispatch in Hsf'. rewrite Hef in Hsf'.
  cbn [handle] in Hsf'. unfold on_complete in Hsf'. rewrite Hfl in Hsf'. injection Hsf' as _ Hl3.
  destruct (after_remembers _ _ _ _ _ _ Hmid) as [He4 Hc4]; [intros x Hx; apply Herr; set_solver|].
  specialize (Hc4 Hpl). rewrite <- Hl3 in He4, Hc4. cbn in He4, Hc4. rewrite He2, He1 in He4, Hc4. cbn in He4, Hc4.
  unfold process_events. rewrite (loop_after _ _ _ _ _ _ _ Hpre). cbn [loop]. rewrite Hst, Hsf.
  rewrite (loop_after _ _ _ _ _ _ _ Hmid). cbn [loop].
  unfold step. rewrite Hr, Hb. unfold drain_backend_controls. rewrite Hsock. cbn [drain apply_command].
  eexists. split; [reflexivity|]. unfold epilogue. rewrite Hc4, He4. rewrite settle_status, settle_reason.
  cbn [co_reason effective_reason truthy_str andb]. by rewrite Hok.
Qed.

(** ** Time *)

(** The clock of the run is its start and the pauses. *)
Definition clock_ok (start : Q) (l : Loop) : Prop :=
  (wa_run_start (lp_watch l) == start + wa_paused (lp_watch l))%Q.

Lemma handle_watch cfg b e s l :
  match handle cfg b e s l with
  | Fall _ l' | Skip _ l' | Leave _ l' => lp_watch l' = lp_watch l
  | Fault _ _ => True
  end.
Proof.
  destruct e; cbn [handle]; try done.
  - unfold on_approval. destruct (String.eqb _ _); [done|]. by destruct (b_approve b).
  - unfold on_turn. destruct (_ <=? _); [done|]. destruct (_ <=? _); [done|].
    destruct (deliver_followups _ _ _) as [s1 l1] eqn:E.
    assert (H : lp_watch l1 = lp_watch l).
    { unfold deliver_followups in E. destruct (ct_followups _); [by injection E as <- <-|].
      destruct (b_send b); by injection E as <- <-. }
    destruct (rc_tracker cfg); [|done]. by destruct (should_continue _ _ _).
  - unfold on_complete. by destruct (lp_followup l).
Qed.

Definition is_complete (b : Beat) : bool := match b_event b with Some (EvComplete _ _ _ _) => true | _ => false end.

Lemma handle_skips cfg b e s l s' l' : b_event b = Some e -> handle cfg b e s l = Skip s' l' -> is_complete b = true.
Proof.
  unfold is_complete. intros -> H. destruct e; try done; cbn [handle] in H.
  - unfold on_approval in H. destruct (String.eqb _ _); [done|]. by destruct (b_approve b).
  - unfold on_turn in H. destruct (_ <=? _); [done|]. destruct (_ <=? _); [done|].
    destruct (deliver_followups _ _ _). destruct (rc_tracker cfg); [|done]. by destruct (should_continue _ _ _).
Qed.

Lemma dispatch_clock cfg start b s l s' l' :
  clock_ok start l -> dispatch cfg b s l = Next s' l' ->
  clock_ok start l' /\ (is_complete b = false -> expired (rc_timeouts cfg) (b_now b) (lp_watch l') = None).
Proof.
  intros Hk. assert (Hw : forall s1 l1, lp_watch l1 = lp_watch l -> watchdog cfg b s1 l1 = Next s' l' ->
    clock_ok start l' /\ expired (rc_timeouts cfg) (b_now b) (lp_watch l') = None).
  { intros s1 l1 E1. unfold watchdog. destruct (expired _ _ _) eqn:E; [done|].
    destruct (drain_backend_controls _ _ _ _) as [[] s2]; [done|]. intros [= <- <-].
    split; [|exact E]. unfold clock_ok. cbn. rewrite E1. exact Hk. }
  unfold dispatch. destruct (b_event b) as [e|] eqn:Hb; [|intros H; destruct (Hw _ _ eq_refl H); auto].
  pose proof (handle_watch cfg b e (note_event e s) l) as Hh.
  destruct (handle cfg b e (note_event e s) l) as [s1 l1|s1 l1|s1 l1|x s1] eqn:Eh; try done.
  - intros H. destruct (Hw _ _ Hh H). auto.
  - intros [= <- <-]. apply handle_skips in Eh; [|done]. split; [unfold clock_ok; by rewrite Hh|congruence].
Qed.
Lemma step_clock cfg start b s l s' l' :
  clock_ok start l -> step cfg b s l = Next s' l' ->
  clock_ok start l' /\ (is_complete b = false -> expired (rc_timeouts cfg) (b_now b) (lp_watch l') = None).
Proof.
  intros Hk. unfold step. destruct (b_raise b); [done|].
  destruct (drain_backend_controls _ _ _ s) as [[] s1]; [done|].
  destruct (ct_paused (se_control s1)); [|by apply dispatch_clock].
  destruct (pause_gate _ _ _ _) as [[[] s2]|]; [done| |done]. apply dispatch_clock.
  unfold clock_ok in *. cbn. rewrite Hk. ring.
Qed.
Lemma after_clock cfg start beats s l s' l' :
  clock_ok start l -> after cfg beats s l = Some (s', l') -> clock_ok start l'.
Proof.
  revert s l. induction beats as [|b beats IH]; intros s l Hk; simpl; [by intros [= <- <-]|].
  destruct (step cfg b s l) as [s1 l1| | |] eqn:E; try done. apply IH. by apply (step_clock cfg start b s l s1 l1) in E as [? _].
Qed.
Lemma after_snoc cfg beats b s l s' l' :
  after cfg (beats ++ [b]) s l = Some (s', l') ->
  exists s1 l1, after cfg beats s l = Some (s1, l1) /\ step cfg b s1 l1 = Next s' l'.
Proof.
  revert s l. induction beats as [|b0 beats IH]; intros s l; simpl.
  - destruct (step cfg b s l) eqn:E; try done. intros [= <- <-]. by exists s, l.
  - destruct (step cfg b0 s l); try done. apply IH.
Qed.

(** A run that goes on is within its limits: after an iteration that is not
    the terminal frame of a turn with a follow-up, the time since the start,
    without the pauses, is below the total timeout, and the silence below the
    inactivity timeout once the backend has answered. *)
Theorem running_within_limits cfg start beats b s0 s l :
  after cfg (beats ++ [b]) s0 (new_loop start) = Some (s, l) -> is_complete b = false ->
  (b_now b - start - wa_paused (lp_watch l) < to_total (rc_timeouts cfg))%Q
  /\ (wa_handshake (lp_watch l) = true -> b_now b - wa_last_event (lp_watch l) < to_inactivity (rc_timeouts cfg))%Q
  /\ (wa_handshake (lp_watch l) = false -> b_now b - start - wa_paused (lp_watch l) < to_handshake (rc_timeouts cfg))%Q.
Proof.
  intros Ha Hn. destruct (after_snoc _ _ _ _ _ _ _ Ha) as (s1 & l1 & H1 & Hs).
  assert (H0 : clock_ok start (new_loop start)) by (unfold clock_ok; cbn; lra).
  pose proof (after_clock _ _ _ _ _ _ _ H0 H1) as Hk1. destruct (step_clock _ _ _ _ _ _ _ Hk1 Hs) as [Hk He].
  specialize (He Hn). unfold clock_ok in Hk. unfold expired in He.
  destruct (wa_handshake (lp_watch l)); simpl in He.
  - destruct (_ && _); [done|]. destruct (qle (to_inactivity _) _) eqn:E2; [done|].
    destruct (qle (to_total _) _) eqn:E3; [done|]. qsimp. split; [lra|]. split; [intros _; lra|done].
  - destruct (qle (to_handshake _) _) eqn:E2; [done|].
    destruct (qle (to_total _) _) eqn:E3; [done|]. qsimp. split; [lra|]. split; [done|intros _; lra].
Qed.

(** ** The end of a run *)

Definition is_ended (f : Frame) : bool := match f with FRunEnded _ _ _ => true | _ => false end.
(** The operations on the backend, and the terminal records of the run *)
Definition kept (s : Ses) : list Op * list Frame := (tr_ops (se_trace s), List.filter is_ended (tr_frames (se_trace s))).

Lemma kept_frame f s : is_ended f = false -> kept (frame f s) = kept s.
Proof. intros H. unfold kept. cbn. rewrite List.filter_app. simpl. by rewrite H, app_nil_r. Qed.
Lemma kept_hint stamp h s : kept (write_operator_hint stamp h s) = kept s.
Proof. unfold write_operator_hint. destruct (String.eqb h ""); [done|]. by destruct (_ && _). Qed.
Lemma kept_command cfg stamp c s : kept (snd (apply_command cfg stamp c s)) = kept s.
Proof.
  destruct c; cbn [apply_command]; try done; try (destruct (rc_pausable cfg && ok); cbn [snd]; rewrite kept_frame by done).
  - done.
  - done.
  - by destruct (truthy_str prompt).
  - done.
  - cbn [snd]. unfold queue_followup. by rewrite kept_hint.
  - cbn [snd]. unfold queue_followup. by rewrite kept_hint.
Qed.
Lemma kept_drain cfg stamp cs s : kept (snd (drain_backend_controls cfg stamp cs s)) = kept s.
Proof.
  unfold drain_backend_controls. destruct (rc_socket cfg); [|done]. revert s.
  induction cs as [|c cs IH]; intros s; simpl; [done|]. pose proof (kept_command cfg stamp c s) as H.
  destruct (apply_command cfg stamp c s) as [[] s']; simpl in *; [done|]. by rewrite IH.
Qed.
Lemma kept_gate cfg stamp polls s stop s' : pause_gate cfg stamp polls s = Some (stop, s') -> kept s' = kept s.
Proof.
  revert s. induction polls as [|cs polls IH]; intros s; simpl; destruct (ct_paused (se_control s)); try done.
  - by intros [= <- <-].
  - pose proof (kept_drain cfg stamp cs s) as H. destruct (drain_backend_controls cfg stamp cs s) as [[] s1]; simpl in H.
    + by intros [= <- <-].
    + intros H'. rewrite <- H. by apply IH.
  - by intros [= <- <-].
Qed.
Lemma kept_settle cfg c s : kept (settle cfg c s) = kept s.
Proof.
  unfold settle. rewrite kept_frame by done. unfold resolve_cost.
  assert (H : forall x, kept (match co_cost c with Some (Some q) => set_cost q x | _ => x end) = kept x) by (intros x; by destruct (co_cost c) as [[]|]).
  destruct (_ || _); [by rewrite H|]. destruct (_ && _); [by rewrite H|]. destruct (estimate_cost_usd _ _ _ _ _); [|by rewrite H].
  exact (H _).
Qed.
Lemma kept_handle cfg b e s l :
  match handle cfg b e s l with
  | Fall s' _ | Skip s' _ | Leave s' _ | Fault _ s' => kept s' = kept s
  end.
Proof.
  destruct e; cbn [handle]; try done.
  - unfold on_approval. destruct (String.eqb _ _); [done|]. by destruct (b_approve b).
  - unfold on_turn. destruct (_ <=? _); [done|]. set (s2 := if _ || _ then _ else _).
    assert (H2 : kept s2 = kept s) by (unfold s2; destruct (_ || _); [by rewrite kept_hint|done]).
    destruct (_ <=? _); [exact H2|]. destruct (deliver_followups _ s2 _) as [s3 l3] eqn:E.
    assert (H3 : kept s3 = kept s2).
    { unfold deliver_followups in E. destruct (ct_followups _); [by injection E as <- <-|].
      destruct (b_send b); by injection E as <- <-. }
    rewrite <- H2, <- H3. destruct (rc_tracker cfg); [|done]. by destruct (should_continue _ _ _).
  - unfold on_complete. destruct (lp_followup l); [by destruct usage|]. rewrite kept_settle. by destruct usage.
Qed.

Definition kept_by (r : stepped) (s : Ses) : Prop :=
  match r with Next s' _ | Quit s' _ | Throw _ s' | Hold s' => kept s' = kept s end.

Lemma kept_watchdog cfg b s l : kept_by (watchdog cfg b s l) s.
Proof.
  unfold watchdog. destruct (expired _ _ _); [done|]. set (s1 := match b_event b with Some _ => _ | None => s end).
  assert (H1 : kept s1 = kept s) by (unfold s1; destruct (b_event b); [by apply kept_frame|done]).
  pose proof (kept_drain cfg (b_stamp b) (b_after b) s1) as H.
  destruct (drain_backend_controls _ _ _ s1) as [[] s2]; simpl in *; [exact (eq_trans H H1)|congruence].
Qed.
Lemma kept_dispatch cfg b s l : kept_by (dispatch cfg b s l) s.
Proof.
  unfold dispatch. destruct (b_event b) as [e|] eqn:Hb; [|apply kept_watchdog].
  assert (Hn : kept (note_event e s) = kept s).
  { unfold note_event. destruct e; try done. by destruct (String.eqb session_id ""). }
  pose proof (kept_handle cfg b e (note_event e s) l) as H. rewrite Hn in H.
  destruct (handle cfg b e (note_event e s) l) as [s1 l1|s1 l1|s1 l1|x s1]; try done.
  pose proof (kept_watchdog cfg b s1 l1) as H1. unfold kept_by in *. destruct (watchdog cfg b s1 l1); congruence.
Qed.
Lemma kept_step cfg b s l : kept_by (step cfg b s l) s.
Proof.
  unfold step. destruct (b_raise b); [done|]. pose proof (kept_drain cfg (b_stamp b) (b_before b) s) as H.
  destruct (drain_backend_controls _ _ _ s) as [[] s1]; cbn [snd] in H; [exact H|].
  assert (Hd : forall s2 l2, kept s2 = kept s -> kept_by (dispatch cfg b s2 l2) s).
  { intros s2 l2 E. pose proof (kept_dispatch cfg b s2 l2) as Hk. unfold kept_by in *.
    destruct (dispatch cfg b s2 l2); congruence. }
  destruct (ct_paused (se_control s1)); [|by apply Hd].
  destruct (pause_gate _ _ _ _) as [[[] s2]|] eqn:Eg; [| |exact H]; apply kept_gate in Eg.
  - cbn. unfold kept in *. cbn. congruence.
  - apply Hd. congruence.
Qed.
Lemma kept_loop cfg beats s l : kept_by (loop cfg beats s l) s.
Proof.
  revert s l. induction beats as [|b beats IH]; intros s l; simpl; [done|].
  pose proof (kept_step cfg b s l) as H. destruct (step cfg b s l) as [s1 l1| | |]; try done.
  specialize (IH s1 l1). unfold kept_by in *. destruct (loop cfg beats s1 l1); congruence.
Qed.
Lemma kept_process cfg start beats s e s' : process_events cfg start beats s = Some (e, s') -> kept s' = kept s.
Proof.
  unfold process_events. pose proof (kept_loop cfg beats s (new_loop start)) as H.
  destruct (loop cfg beats s (new_loop start)) as [s1 l1|s1 l1|x s1|s1]; try done; intros [= <- <-]; try done.
  all: unfold epilogue; destruct (lp_complete l1); [by rewrite kept_settle|done].
Qed.

(** The operations of a run in order: the session is created, closed again at the
    end, and what was opened in between is given back.  [retired]: the registry of
    live sessions lets go of the entry. *)
Definition balanced (retired : bool) (l : list Op) : Prop :=
  l = [] \/ exists probe socket exposed,
    l = [OpCreate] ++ (if probe : bool then [OpProbe] else []) ++ (if socket : bool then [OpSocket] else [])
        ++ (if exposed : bool then [OpExpose] ++ (if retired then [OpRetire] else []) else []) ++ [OpClose]
        ++ (if socket : bool then [OpSocketStop] else []).
(** No cancellation arrives between the creation of the session and the loop, or
    in the clean-up before the socket is stopped. *)
Definition undisturbed (env : Env) : Prop :=
  en_probe env <> PrCancelled /\ en_socket env <> AtCancelled /\ en_expose env <> AtCancelled
  /\ cl_unregister (en_cleanup env) <> AtCancelled /\ cl_row (en_cleanup env) <> AtCancelled
  /\ cl_close (en_cleanup env) <> AtCancelled.
Definition works (a : attempt) : bool := match a with AtWorks => true | _ => false end.

Lemma kept_op o s : kept (op o s) = (fst (kept s) ++ [o], snd (kept s)).
Proof. done. Qed.
Lemma cancels_not a : a <> AtCancelled -> cancels a = None.
Proof. by destruct a. Qed.

(** The clean-up never writes a record of the end; undisturbed it does all of
    its work. *)
Lemma cleanup_kept c socket exposed e s :
  snd (kept (snd (cleanup c socket exposed e s))) = snd (kept s)
  /\ (cl_unregister c <> AtCancelled -> cl_row c <> AtCancelled -> cl_close c <> AtCancelled ->
      fst (kept (snd (cleanup c socket exposed e s)))
      = fst (kept s) ++ (if exposed && works (cl_unregister c) then [OpRetire] else []) ++ [OpClose]
        ++ (if socket then [OpSocketStop] else [])).
Proof.
  unfold cleanup, retire_live_session, close_session, stop_socket. split.
  - destruct exposed, (cl_unregister c), (cl_row c), (cl_close c), socket, (cl_stop c); simpl; by rewrite ?kept_op.
  - intros H1 H2%cancels_not H3%cancels_not. rewrite H2, H3.
    destruct exposed, (cl_unregister c), socket, (cl_stop c); try done; simpl; rewrite ?kept_op; cbn [fst snd];
      by rewrite <- ?app_assoc.
Qed.
Lemma drive_kept r env spec prompt socket exposed s e s' :
  drive r env spec prompt socket exposed s = Some (e, s') ->
  snd (kept s') = snd (kept s)
  /\ (undisturbed env ->
      fst (kept s') = fst (kept s) ++ (if exposed && works (cl_unregister (en_cleanup env)) then [OpRetire] else []) ++ [OpClose]
                      ++ (if socket then [OpSocketStop] else [])).
Proof.
  assert (Hc : forall x e0, kept x = kept s -> Some (cleanup (en_cleanup env) socket exposed e0 x) = Some (e, s') ->
    snd (kept s') = snd (kept s)
    /\ (undisturbed env ->
        fst (kept s') = fst (kept s) ++ (if exposed && works (cl_unregister (en_cleanup env)) then [OpRetire] else []) ++ [OpClose]
                        ++ (if socket then [OpSocketStop] else []))).
  { intros x e0 <- H. destruct (cleanup_kept (en_cleanup env) socket exposed e0 x) as [H1 H2].
    destruct (cleanup _ _ _ _ x) as [e1 s1]. injection H as _ <-. split; [exact H1|].
    intros (_ & _ & _ & U1 & U2 & U3). by apply H2. }
  unfold drive. set (s1 := BackendRun.frame _ s). assert (H1 : kept s1 = kept s) by (by apply kept_frame).
  destruct (en_send env); [by apply Hc|].
  destruct (process_events _ _ _ _) as [[x s2]|] eqn:Ep; [|done]. apply Hc.
  apply kept_process in Ep. rewrite Ep. exact H1.
Qed.

(** What a part of the run that began with nothing on record leaves *)
Definition settled_ops (env : Env) (s : Ses) : Prop :=
  snd (kept s) = [] /\ (undisturbed env -> balanced (works (cl_unregister (en_cleanup env))) (fst (kept s))).

Lemma failed_kept x m n : kept (set_summary m (end_with n "failed" x)) = kept x.
Proof. done. Qed.
Lemma backend_balanced r env spec prompt s e s' :
  kept s = ([], []) -> run_with_backend r env spec prompt s = Some (e, s') -> settled_ops env s'.
Proof.
  intros Hk. unfold run_with_backend.
  destruct (en_preflight env). { intros [= <- <-]. split; rewrite failed_kept, Hk; [done|]. intros _. by left. }
  destruct (en_create env). { intros [= <- <-]. split; rewrite Hk; [done|]. intros _. by left. }
  assert (Hopen : forall probe x, kept x = ([OpCreate] ++ (if probe : bool then [OpProbe] else []), []) ->
    open_socket r env spec prompt x = Some (e, s') -> settled_ops env s').
  { intros probe x Hx. unfold open_socket, expose.
    destruct (en_socket env) eqn:Es; [| |intros [= <- <-]; unfold settled_ops; rewrite Hx; split; [done|]; by intros (_ & ? & _)];
      (destruct (en_expose env) eqn:Ee; [| |intros [= <- <-]; unfold settled_ops; rewrite ?kept_op, Hx; split; [done|];
        by intros (_ & _ & ? & _)]);
      intros Hd; apply drive_kept in Hd as [H1 H2]; unfold settled_ops; rewrite ?kept_op, Hx in *; (split; [exact H1|]);
      intros Hu; rewrite (H2 Hu); right; cbn [fst snd].
    - exists probe, true, true. destruct probe, (works _); done.
    - exists probe, true, false. destruct probe; done.
    - exists probe, false, true. destruct probe, (works _); done.
    - exists probe, false, false. destruct probe; done. }
  destruct (refused env spec) as [[]|] eqn:Er.
  - by apply (Hopen false); rewrite kept_op, Hk.
  - by apply (Hopen true); rewrite !kept_op, Hk.
  - intros [= _ <-]. unfold settled_ops. rewrite kept_op, failed_kept, !kept_op, Hk. split; [done|]. intros _. right.
    by exists true, false, false.
  - by apply (Hopen true); rewrite !kept_op, Hk.
  - by apply (Hopen true); rewrite !kept_op, Hk.
  - intros [= _ <-]. unfold settled_ops. rewrite !kept_op, Hk. split; [done|]. intros (Hp & _).
    unfold refused in Er. destruct (truthy_str _); [|done]. by injection Er as Er.
  - by apply (Hopen false); rewrite kept_op, Hk.
Qed.

(** C20: a run whose tool-event log cannot be opened raises that failure before
    anything was begun, and leaves no record of an end. Any other run that ends,
    by returning or raising, cancellation included, has written exactly one record
    of its end, the last, with the status of the session. If moreover no
    cancellation arrives between the creation of the backend session and the event
    loop, nor in the clean-up up to and including the closing of the session, then
    what was opened was given back in order: the session is closed, the control
    socket stopped, and the live session retired when its registry lets go of it.
    *)
Theorem run_settles_accounts r env workflow run_id raised s' :
  run r env workflow run_id new_session = Some (raised, s') ->
  match en_log env with
  | Some m => raised = Some (Failed m) /\ s' = new_session
  | None =>
      (exists frames reason summary, tr_frames (se_trace s') = frames ++ [FRunEnded (status s') reason summary]
         /\ Forall (fun f => is_ended f = false) frames)
      /\ (undisturbed env -> balanced (works (cl_unregister (en_cleanup env))) (tr_ops (se_trace s')))
  end.
Proof.
  unfold run. destruct (en_log env) as [m|]; [by intros [= <- <-]|]. intros Hr.
  assert (H : exists s1, s' = run_ended s1 /\ settled_ops env s1).
  { destruct (run_attempt r env workflow run_id new_session) as [[e s1]|] eqn:Ea; [|done].
    assert (Hb : settled_ops env s1).
    { unfold run_attempt in Ea. destruct (build_prompt env new_session) as [[sys user]|m]; [|injection Ea as <- <-; by split; [|left]].
      destruct (build_session_spec _ _ _) as [spec|m]; [|injection Ea as <- <-; by split; [|left]].
      by apply (backend_balanced r env spec user new_session e s1). }
    destruct e as [[|m]|]; injection Hr as <- <-; eexists; (split; [reflexivity|]); [..|done].
    - unfold or_reason. by destruct (truthy_str _).
    - unfold or_summary, or_reason. destruct (truthy_str _), (String.eqb _ _); done. }
  destruct H as (s1 & -> & Hn & Hb). split; [|exact Hb]. do 3 eexists. split; [reflexivity|].
  apply Forall_forall. intros f Hf. destruct (is_ended f) eqn:E; [|done].
  assert (Hin : f ∈ List.filter is_ended (tr_frames (se_trace s1))) by (apply list_elem_of_In, filter_In; split; [by apply list_elem_of_In|done]).
  cbn in Hn. rewrite Hn in Hin. by apply elem_of_nil in Hin.
Qed.

(** ** Where the outcome is not the intended one *)

Lemma event_marks cfg b s l s' l' :
  step cfg b s l = Next s' l' -> is_some (b_event b) = true -> is_complete b = false ->
  wa_handshake (lp_watch l') = true /\ wa_last_event (lp_watch l') = b_now b.
Proof.
  intros H He Hn.
  assert (Hd : forall s1 l1, dispatch cfg b s1 l1 = Next s' l' -> wa_handshake (lp_watch l') = true /\ wa_last_event (lp_watch l') = b_now b).
  { intros s1 l1. assert (Hw : forall s2 l2, watchdog cfg b s2 l2 = Next s' l' -> wa_handshake (lp_watch l') = true /\ wa_last_event (lp_watch l') = b_now b).
    { intros s2 l2. unfold watchdog. destruct (expired _ _ _); [done|]. destruct (drain_backend_controls _ _ _ _) as [[] s3]; [done|].
      intros [= <- <-]. cbn. by rewrite He, orb_true_r. }
    unfold dispatch. destruct (b_event b) as [e|] eqn:Eb; [|done].
    destruct (handle cfg b e (note_event e s1) l1) as [s2 l2|s2 l2|s2 l2|x s2] eqn:Eh; try done; [apply Hw|].
    apply handle_skips in Eh; [congruence|done]. }
  unfold step in H. destruct (b_raise b); [done|]. destruct (drain_backend_controls _ _ _ s) as [[] s1]; [done|].
  destruct (ct_paused (se_control s1)); [|by apply (Hd s1 l)].
  destruct (pause_gate _ _ _ _) as [[[] s2]|]; [done| |done]. eapply Hd, H.
Qed.

(** The configuration says that a stall timeout of 0 disables it; a run with it
    does not survive its first event. *)
Theorem zero_stall_ends_run a workflow resume spec cfg start pre b s0 s l :
  ac_stall_timeout_ms a = 0 -> build_session_spec a workflow resume = Ret spec ->
  rc_timeouts cfg = resolve_timeouts spec ->
  after cfg (pre ++ [b]) s0 (new_loop start) = Some (s, l) -> is_some (b_event b) = true -> is_complete b = true.
Proof.
  intros Ha Hs Hc Haf He. destruct (is_complete b) eqn:Hn; [done|]. exfalso.
  assert (Hi : (to_inactivity (rc_timeouts cfg) == 0)%Q).
  { rewrite Hc. unfold build_session_spec, post_init in Hs. cbn in Hs. rewrite Ha in Hs.
    destruct (_ || _); [done|]. destruct (qlt _ _); [done|]. by injection Hs as <-. }
  destruct (after_snoc _ _ _ _ _ _ _ Haf) as (s1 & l1 & H1 & Hst).
  assert (H0 : clock_ok start (new_loop start)) by (unfold clock_ok; cbn; lra).
  destruct (step_clock cfg start b s1 l1 s l (after_clock _ _ _ _ _ _ _ H0 H1) Hst) as [_ Hx]. specialize (Hx Hn).
  destruct (event_marks cfg b s1 l1 s l Hst He Hn) as [Hh Hl]. unfold expired in Hx. rewrite Hh, Hl in Hx. simpl in Hx.
  destruct (_ && _); [done|]. rewrite (proj2 (qle_true (to_inactivity (rc_timeouts cfg)) (b_now b - b_now b))) in Hx by lra. done.
Qed.

(** The limits of a task reach a workflow that nothing reads. *)
Theorem task_limits_ignored r env t max_turns timeout suffix :
  run_task r env (mkTask (tk_id t) max_turns timeout (tk_prompt_override t)) suffix = run_task r env t suffix.
Proof. done. Qed.

(** A task is run under an id that was just made, and [run] takes every id it is
    given for that of a session to resume: a backend that refuses to resume what
    it does not know fails every task before it is sent anything. *)
Theorem fresh_task_resumed r env t suffix prompt spec :
  tk_id t <> "" -> build_prompt env (set_override (tk_prompt_override t) new_session) = Ret prompt ->
  build_session_spec (rn_agent r) (task_agent t (rn_agent r)) (Some (task_run_id t suffix)) = Ret spec ->
  en_log env = None -> en_preflight env = None -> en_create env = None -> en_probe env = PrRejected ->
  cl_close (en_cleanup env) <> AtCancelled ->
  exists result s, run_task r env t suffix = Some (Ret result, s)
    /\ rs_status result = "failed" /\ rs_outcome_code result = Some "resume_rejected" /\ tr_sent (se_trace s) = [].
Proof.
  intros Hid Hp Hs Hlog Hpre Hcr Hpr Hcl%cancels_not. unfold run_task, run, run_attempt. rewrite Hlog, Hp, Hs. destruct prompt as [sys user].
  unfold run_with_backend. rewrite Hpre, Hcr. unfold refused. rewrite Hpr.
  assert (Hres : sp_resume spec = Some (task_run_id t suffix)).
  { unfold build_session_spec, post_init in Hs. cbn in Hs. destruct (_ || _); [done|]. destruct (qlt _ _); [done|]. by injection Hs as <-. }
  rewrite Hres. assert (Ht : truthy_str (Some (task_run_id t suffix)) = true).
  { unfold task_run_id. simpl. destruct (tk_id t); [done|]. done. }
  rewrite Ht. unfold close_session. rewrite Hcl. do 2 eexists. split; [reflexivity|]. done.
Qed.

(** ** Examples and witnesses *)

Definition ex_agent : AgentCfg := mkAgentCfg 1800000 300000 0 50 "model" [] [].
Definition ex_runner : Runner := mkRunner ex_agent "backend" true AskApprovalPolicy None "7" (mkPricing [] None).
Definition ex_cfg : Cfg :=
  mkCfg (mkTimeouts 1800 30 120 300 1800) true true AskApprovalPolicy None "7" "model" "model" (mkPricing [] None).
(** An iteration at a time, in a workspace with the given files *)
Definition beat (files : list (string * string)) (e : option Envelope) (now : Q) : Beat :=
  mkBeat None e [] [] 0 "t" (Some files) (Some files) None true None now [].
Definition beat_with (cs : list Command) (e : option Envelope) (now : Q) : Beat :=
  mkBeat None e cs [] 0 "t" (Some [("a.py", "M")]) (Some [("a.py", "M")]) None true None now [].
Definition tidy : Cleanup := mkCleanup AtWorks AtWorks AtWorks AtWorks.
Definition ex_env (beats : list Beat) : Env :=
  mkEnv None (Ret ("", "Fix it")) None None PrResumed AtWorks AtWorks None 0 beats tidy.

(** A stream that ends without a terminal frame leaves the run running, and that
    is the status of the result. *)
Example stream_end_left_running :
  (fun x => match fst x with Ret t => rs_status t | Raise _ => "" end)
    <$> run_task ex_runner (ex_env []) (mkTask "stage-01" None None None) "ab12cd34"
  = Some "running".
Proof. vm_compute. reflexivity. Qed.

(** One turn with seven looks at files is ended as eight consecutive turns. *)
Definition looking : list Beat :=
  [beat [] (Some (EvTurn 1)) 1; beat [] (Some (EvToolCall "Read" "c1")) 2]
  ++ replicate 7 (beat [] (Some (EvToolResult "c1" false)) 3) ++ [beat [] (Some (EvTurn 2)) 4].
Example one_turn_read_only_loop :
  (fun x => (pg_turns (se_progress (snd x)), status (snd x), end_reason (snd x)))
    <$> process_events ex_cfg 0 looking new_session
  = Some (2, "failed", Some "read_only_loop").
Proof. vm_compute. reflexivity. Qed.

(** Turns whose work is committed leave a clean workspace and are taken for turns
    without work. *)
Example committed_work_is_noop :
  (fun x => (status (snd x), end_reason (snd x)))
    <$> process_events ex_cfg 0
          (mjoin (replicate 5 [beat [] (Some (EvToolCall "Edit" "c")) 1; beat [] (Some (EvTurn 0)) 2])) new_session
  = Some ("completed", Some "noop_detected").
Proof. vm_compute. reflexivity. Qed.

(** A cancellation while the session is being set up leaves it open, and so does
    one that arrives while its entry is taken back at the end, with the socket. *)
Example cancelled_setup_leaks :
  (fun x => (fst x, tr_ops (se_trace (snd x))))
    <$> run ex_runner (mkEnv None (Ret ("", "Fix it")) None None PrCancelled AtWorks AtWorks None 0 [] tidy) ex_agent
          (Some "r") new_session
  = Some (Some Cancelled, [OpCreate; OpProbe]).
Proof. vm_compute. reflexivity. Qed.
Example cancelled_cleanup_leaks :
  (fun x => (fst x, tr_ops (se_trace (snd x))))
    <$> run ex_runner (mkEnv None (Ret ("", "Fix it")) None None PrAbsent AtWorks AtWorks None 0 []
                         (mkCleanup AtWorks AtCancelled AtWorks AtWorks)) ex_agent None new_session
  = Some (Some Cancelled, [OpCreate; OpSocket; OpExpose; OpRetire]).
Proof. vm_compute. reflexivity. Qed.

Definition finished : list Beat := [beat [] (Some (EvText "done")) 1; beat [] (Some (EvComplete "" None [] None)) 2].
Lemma completed_only_for_cause_witness :
  let seen := read ex_cfg finished new_session (new_loop 0) in
  length seen = 2%nat
  /\ (((forall b, b ∈ seen -> ~ errs b) /\ exists b, b ∈ seen /\ succeeds b)
      \/ (Some "success" = Some "noop_detected" /\ exists n, NOOP_DETECTION_MAX_TURNS <= n /\ idle_turns n seen)
      \/ exists b, b ∈ seen /\ closed ex_cfg b).
Proof.
  intros seen. split; [vm_compute; reflexivity|].
  destruct (process_events ex_cfg 0 finished new_session) as [[e s']|] eqn:E; [|vm_compute in E; discriminate].
  assert (He : e = None /\ end_reason s' = Some "success" /\ status s' = "completed").
  { vm_compute in E. injection E as <- <-. repeat split. }
  destruct He as (-> & Hr & Hs).
  assert (Hn : Forall named seen).
  { assert (Hf : seen = finished) by (vm_compute; reflexivity). rewrite Hf.
    repeat constructor; intros m c Hb; discriminate Hb. }
  pose proof (completed_only_for_cause ex_cfg 0 finished new_session s' Hn ltac:(intros Hb; discriminate Hb) E Hs) as H.
  rewrite Hr in H. exact H.
Defined.

Lemma silence_ends_run_witness :
  exists s' r, process_events ex_cfg 0 ([beat [] (Some (EvText "hm")) 1] ++ [beat [] None 200; beat [] None 400] ++ []) new_session = Some (None, s')
    /\ end_reason s' = Some r /\ status s' = "failed" /\ r ∈ TIMEOUT_REASONS.
Proof.
  destruct (after ex_cfg [beat [] (Some (EvText "hm")) 1] new_session (new_loop 0)) as [[s l]|] eqn:E; [|vm_compute in E; discriminate].
  assert (Hl : lp_complete l = None) by (vm_compute in E; injection E as <- <-; reflexivity).
  pose proof (silence_ends_run ex_cfg 0 _ [beat [] None 200; beat [] None 400] [] new_session s l E) as H.
  rewrite Hl in H. apply H; clear H.
  - vm_compute in E. injection E as <- <-. reflexivity.
  - repeat constructor.
  - exists (beat [] None 400). split; [apply list_elem_of_In; right; left; reflexivity|].
    vm_compute in E. injection E as <- <-. vm_compute. discriminate.
Defined.

(** A follow-up, the end of the turn that delivers it, the frame of that turn *)
Definition asked_more : list Beat := [beat_with [CFollowup "also fix the test"] (Some (EvText "hm")) 1].
Definition turn_end : Beat := beat_with [] (Some (EvTurn 1)) 2.
Definition turn_frame : Beat := beat_with [] (Some (EvComplete "" (Some "turn_complete") [] None)) 3.
Definition followed_up : list Beat := asked_more ++ [turn_end; turn_frame].
Lemma stop_reported_as_success_witness :
  exists s', process_events ex_cfg 0 (asked_more ++ turn_end :: turn_frame :: [beat_with [] (Some (EvText "on it")) 4]
               ++ beat_with [CStop] None 5 :: []) new_session = Some (None, s')
    /\ status s' = "completed" /\ end_reason s' = Some "turn_complete".
Proof.
  destruct (after ex_cfg asked_more new_session (new_loop 0)) as [[s1 l1]|] eqn:E1; [|vm_compute in E1; discriminate].
  destruct (step ex_cfg turn_end s1 l1) as [s2 l2| | |] eqn:E2; vm_compute in E1; injection E1 as <- <-;
    try (vm_compute in E2; discriminate E2).
  destruct (step ex_cfg turn_frame s2 l2) as [s3 l3| | |] eqn:E3; pose proof E2 as E2'; vm_compute in E2';
    injection E2' as <- <-; try (vm_compute in E3; discriminate E3).
  destruct (after ex_cfg [beat_with [] (Some (EvText "on it")) 4] s3 l3) as [[s4 l4]|] eqn:E4; pose proof E3 as E3';
    vm_compute in E3'; injection E3' as <- <-; [|vm_compute in E4; discriminate E4].
  eapply (stop_reported_as_success ex_cfg 0 asked_more turn_end 1 turn_frame [beat_with [] (Some (EvText "on it")) 4]
           (beat_with [CStop] None 5) [] new_session _ _ _ _ "" "turn_complete" [] None _ _ _ _).
  - reflexivity.
  - intros b Hb. repeat (apply elem_of_cons in Hb as [->|Hb]; [by intros (m & c & H)|]). by apply elem_of_nil in Hb.
  - vm_compute. reflexivity.
  - discriminate.
  - by split.
  - reflexivity.
  - reflexivity.
  - reflexivity.
  - exact E2.
  - by split.
  - reflexivity.
  - reflexivity.
  - reflexivity.
  - exact E3.
  - repeat constructor; [by intros (m & c & H)|discriminate].
  - exact E4.
  - reflexivity.
  - reflexivity.
Defined.

Lemma running_within_limits_witness :
  exists l, ((1 - 0 - wa_paused (lp_watch l) < 1800)%Q).
Proof.
  destruct (after ex_cfg ([] ++ [beat [] (Some (EvText "hm")) 1]) new_session (new_loop 0)) as [[s l]|] eqn:E; [|vm_compute in E; discriminate].
  exists l. apply (running_within_limits ex_cfg 0 [] (beat [] (Some (EvText "hm")) 1) new_session s l E eq_refl).
Defined.

Lemma run_settles_accounts_witness :
  exists s', run ex_runner (ex_env followed_up) ex_agent None new_session = Some (None, s')
    /\ balanced true (tr_ops (se_trace s')).
Proof.
  destruct (run ex_runner (ex_env followed_up) ex_agent None new_session) as [[c s']|] eqn:E; [|vm_compute in E; discriminate].
  exists s'. assert (c = None) as -> by (vm_compute in E; injection E as <- _; reflexivity). split; [reflexivity|].
  apply (run_settles_accounts ex_runner (ex_env followed_up) ex_agent None None s' E). repeat split; discriminate.
Defined.
