(* ===== verification/Validators.v ===== *)
(** * Validators and the gate handler
    ([src/orchestratord/workflow_engine/validators/], [gate_handler.py])

    The built-in validators of a stage contract, the command validator, the
    judge with its fallback, and [GateHandler].  They act on an abstract world;
    [builtin_validator] is the registry that [StageRunner] takes as a parameter.
    Path resolution, [re], [json], [jsonschema], subprocesses and the language
    model are the fields of [Outside]. *)

From Stdlib Require Import Ascii.
From S2P Require Import Prelude Errors WorkflowState Decision Dag StageRunner Intent Regex.

Open Scope string_scope.
Open Scope list_scope.
Open Scope Z_scope.

(** What a path leads to; [size]: of the directory entry, [decodes]: the bytes are UTF-8 *)
Inductive node :=
| Missing
| Directory (size : Z)
| Bytes (content : string) (decodes : bool).

Inductive schema_result := SchemaValid | SchemaViolation (m : string) | SchemaNotInstalled | SchemaError (m : string).
Inductive command_result := CmdDone (code : Z) | CmdTimeout | CmdNotFound | CmdRaises (m : string).
Inductive conversion := Converted (q : Q) | ConvValueError | ConvTypeError.

Record Outside (W : Type) := mkOutside {
  o_node : string -> W -> node;
  o_findall : string -> string -> outcome string nat;
  o_loads : string -> option pyval;
  o_schema : pyval -> pyval -> schema_result;
  o_run : bool -> string -> string -> Z -> dict string pyval -> W -> command_result * W;
  o_absolute : string -> bool;
  o_float : pyval -> conversion;
  o_int : pyval -> option Z;
  o_str : pyval -> string;
  o_judge : option (string -> Z -> Q -> W -> outcome exn string * W);
  o_enqueue : option (Z -> string -> W -> outcome exn unit * W);
}.
Arguments mkOutside {W}.
Arguments o_node {W}.
Arguments o_findall {W}.
Arguments o_loads {W}.
Arguments o_schema {W}.
Arguments o_run {W}.
Arguments o_absolute {W}.
Arguments o_float {W}.
Arguments o_int {W}.
Arguments o_str {W}.
Arguments o_judge {W}.
Arguments o_enqueue {W}.

Definition type_error (m : string) : exn := mkExn OtherException [Lit m] None.

(** Keyword arguments: a path, a number, a number or [None] *)
Definition path_arg (spec : validator_spec) : outcome exn string :=
  match dget "path" spec with
  | None => Ret ""
  | Some (PStr s) => Ret s
  | Some _ => Raise (type_error "expected str, bytes or os.PathLike object")
  end.
Definition number_of (v : pyval) : outcome exn Q :=
  match v with
  | PInt z => Ret (inject_Z z)
  | PFloat q => Ret q
  | PBool b => Ret (if b then 1%Q else 0%Q)
  | _ => Raise (type_error "'<' not supported")
  end.
Definition number_arg (k : string) (dflt : Z) (spec : validator_spec) : outcome exn Q :=
  match dget k spec with None => Ret (inject_Z dflt) | Some v => number_of v end.
Definition limit_arg (k : string) (spec : validator_spec) : outcome exn (option Q) :=
  match dget k spec with
  | None | Some PNone => Ret None
  | Some v => match number_of v with Ret q => Ret (Some q) | Raise e => Raise e end
  end.

Definition verdict (passed : bool) (t : string) (m : text) : ValidationResult := mkValidationResult passed t m.

Section validators.
Context {W : Type} (X : Outside W).

Abbreviation V := (outcome exn ValidationResult).

(** [_validate_file_exists] *)
Definition validate_file_exists (spec : validator_spec) (w : W) : V :=
  path ← path_arg spec;
  match o_node X path w with
  | Missing => Ret (verdict false "file_exists" [Lit path; Lit " not found"])
  | _ => Ret (verdict true "file_exists" [Lit path; Lit " exists"])
  end.

Definition node_size (n : node) : option Z :=
  match n with Missing => None | Directory z => Some z | Bytes s _ => Some (Z.of_nat (String.length s)) end.

(** [lo <= n <= hi], as two tests with a message each *)
Definition within (t path unit_ tail : string) (n : Z) (lo : Q) (hi : option Q) : ValidationResult :=
  if qlt (inject_Z n) lo then verdict false t [Lit path; Lit ": "; FInt n; Lit unit_; Lit " < min "; FNum lo; Lit tail]
  else match hi with
       | Some h =>
           if qlt h (inject_Z n) then verdict false t [Lit path; Lit ": "; FInt n; Lit unit_; Lit " > max "; FNum h; Lit tail]
           else verdict true t [Lit path; Lit ": "; FInt n; Lit unit_]
       | None => verdict true t [Lit path; Lit ": "; FInt n; Lit unit_]
       end.

(** [_validate_file_size] *)
Definition validate_file_size (spec : validator_spec) (w : W) : V :=
  path ← path_arg spec;
  match node_size (o_node X path w) with
  | None => Ret (verdict false "file_size" [Lit path; Lit " not found"])
  | Some n =>
      lo ← number_arg "min_bytes" 0 spec;
      hi ← limit_arg "max_bytes" spec;
      Ret (within "file_size" path " bytes" " bytes" n lo hi)
  end.

(** [read_text(encoding="utf-8")]: [None] when there is no file *)
Definition read_text (path : string) (w : W) : outcome exn (option string) :=
  match o_node X path w with
  | Missing => Ret None
  | Directory _ => Raise (type_error "Is a directory")
  | Bytes s true => Ret (Some s)
  | Bytes _ false => Raise (type_error "'utf-8' codec can't decode")
  end.

(** [_validate_regex] *)
Definition pattern_arg (spec : validator_spec) : outcome exn string :=
  match dget "pattern" spec with
  | None => Ret ""
  | Some (PStr s) => Ret s
  | Some _ => Raise (type_error "first argument must be string or compiled pattern")
  end.
Definition validate_regex (spec : validator_spec) (w : W) : V :=
  path ← path_arg spec;
  match read_text path w with
  | Ret None => Ret (verdict false "regex" [Lit path; Lit " not found"])
  | Raise e => Ret (verdict false "regex" (Lit "Read error: " :: exn_msg e))
  | Ret (Some content) =>
      pattern ← pattern_arg spec;
      match o_findall X pattern content with
      | Raise m => Ret (verdict false "regex" [Lit "Invalid pattern: "; Lit m])
      | Ret n =>
          min_matches ← number_arg "min_matches" 1 spec;
          Ret (verdict (negb (qlt (inject_Z (Z.of_nat n)) min_matches)) "regex"
                 [Lit "Pattern '"; Lit pattern; Lit "' matched "; FInt (Z.of_nat n); Lit " times"])
      end
  end.

(** [_validate_line_count] *)
Definition validate_line_count (spec : validator_spec) (w : W) : V :=
  path ← path_arg spec;
  content ← read_text path w;
  match content with
  | None => Ret (verdict false "line_count" [Lit path; Lit " not found"])
  | Some s =>
      lo ← number_arg "min_lines" 1 spec;
      hi ← limit_arg "max_lines" spec;
      Ret (within "line_count" path " lines" "" (Z.of_nat (length (splitlines s))) lo hi)
  end.

(** [_validate_json_schema] *)
Definition validate_json_schema (spec : validator_spec) (w : W) : V :=
  path ← path_arg spec;
  content ← read_text path w;
  match content with
  | None => Ret (verdict false "json_schema" [Lit path; Lit " not found"])
  | Some s =>
      match o_loads X s with
      | None => Ret (verdict false "json_schema" [Lit "Invalid JSON"])
      | Some data =>
          match dget "schema" spec with
          | None | Some PNone => Ret (verdict true "json_schema" [Lit "No schema provided, assumed valid"])
          | Some schema =>
              match o_schema X data schema with
              | SchemaValid => Ret (verdict true "json_schema" [Lit "JSON schema valid"])
              | SchemaViolation m => Ret (verdict false "json_schema" [Lit "Schema violation: "; Lit m])
              | SchemaNotInstalled => Ret (verdict false "json_schema" [Lit "jsonschema library not installed"])
              | SchemaError m => Raise (type_error m)
              end
          end
      end
  end.

(** [validate_custom] *)
Definition get_text (k dflt : string) (spec : validator_spec) : string :=
  match dget k spec with Some (PStr s) => s | _ => dflt end.
Definition command_dir (workspace_dir : string) (spec : validator_spec) : string :=
  let cwd := get_text "cwd" (if String.eqb workspace_dir "" then "." else workspace_dir) spec in
  if negb (o_absolute X cwd) && negb (String.eqb workspace_dir "") then workspace_dir +:+ "/" +:+ cwd else cwd.
Definition validate_custom (workspace_dir : string) (spec : validator_spec) (w : W) : V * W :=
  let command := get_text "command" "" spec in
  if String.eqb command "" then (Ret (verdict false "custom" [Lit "custom: no command specified"]), w)
  else
    match o_int X (default (PInt 60) (dget "timeout" spec)), dget "env" spec with
    | None, _ => (Raise (type_error "invalid literal for int()"), w)
    | Some timeout, (None | Some (PDict _)) =>
        let env := match dget "env" spec with Some (PDict d) => d | _ => [] end in
        let shell := truthy (default (PBool false) (dget "shell" spec)) in
        let (r, w) := o_run X shell command (command_dir workspace_dir spec) timeout env w in
        (Ret match r with
             | CmdTimeout => verdict false "custom" [Lit "custom: command timed out after "; FInt timeout; Lit "s"]
             | CmdNotFound => verdict false "custom" [Lit "custom: command not found: "; Lit command]
             | CmdRaises m => verdict false "custom" [Lit "custom: command execution failed: "; Lit m]
             | CmdDone code =>
                 if code =? 0 then verdict true "custom" [Lit (get_text "pass_message" "Command succeeded" spec)]
                 else verdict false "custom" [Lit (get_text "fail_message" "Command failed" spec);
                                              Lit " (exit code: "; FInt code; Lit ")"]
             end, w)
    | Some _, Some _ => (Raise (type_error "object has no attribute 'items'"), w)
    end.

(** *** The judge *)

Record JudgeConfig := mkJudgeConfig {
  jc_threshold : Q;
  jc_rubric : string;
  jc_max_tokens : Z;
  jc_temperature : Q;
}.
Definition float_arg (k : string) (dflt : Q) (spec : validator_spec) : outcome exn Q :=
  match o_float X (default (PFloat dflt) (dget k spec)) with
  | Converted q => Ret q
  | _ => Raise (type_error "could not convert to float")
  end.
(** [LLMJudgeConfig.from_spec] *)
Definition judge_config (spec : validator_spec) : outcome exn JudgeConfig :=
  threshold ← float_arg "threshold" (7 # 10) spec;
  max_tokens ← match o_int X (default (PInt 256) (dget "max_tokens" spec)) with
               | Some z => Ret z
               | None => Raise (type_error "invalid literal for int()")
               end;
  temperature ← float_arg "temperature" 0 spec;
  Ret (mkJudgeConfig threshold (o_str X (default (PStr "") (dget "rubric" spec))) max_tokens temperature).

(** The run of characters up to the next brace, and what follows *)
Fixpoint until_brace (s : string) : string * string :=
  match s with
  | EmptyString => ("", "")
  | String c s' =>
      if Ascii.eqb c "{"%char || Ascii.eqb c "}"%char then ("", s)
      else let (a, b) := until_brace s' in (String c a, b)
  end.
Definition quote : string := String (Ascii.ascii_of_nat 34) "".
(** [re.search(r'\{[^{}]*"score"[^{}]*\}', response)] *)
Fixpoint find_json (s : string) : option string :=
  match s with
  | EmptyString => None
  | String c s' =>
      let (body, rest) := until_brace s' in
      if Ascii.eqb c "{"%char && contains (quote +:+ "score" +:+ quote) body && String.prefix "}" rest
      then Some ("{" +:+ body +:+ "}")
      else find_json s'
  end.

Definition clamp (q : Q) : Q := qmax 0 (qmin 1 q).
(** The score in the text, out of 1 or out of 100 *)
Definition score_in_text (response : string) : Q * string :=
  let excerpt := take_str 200 response in
  match search_score response with
  | Some q => if qle 0 q && qle q 1 then (q, excerpt) else if qle 0 q && qle q 100 then ((q / 100)%Q, excerpt) else (0%Q, excerpt)
  | None => (0%Q, excerpt)
  end.
(** [_parse_llm_response] *)
Definition parse_llm_response (response : string) : outcome exn (Q * string) :=
  match find_json response with
  | None => Ret (score_in_text response)
  | Some block =>
      match o_loads X block with
      | Some (PDict d) =>
          match o_float X (default (PFloat 0) (dget "score" d)) with
          | Converted q => Ret (clamp q, o_str X (default (PStr "") (dget "reasoning" d)))
          | ConvValueError => Ret (score_in_text response)
          | ConvTypeError => Raise (type_error "float() argument must be a string or a real number")
          end
      | _ => Ret (score_in_text response)
      end
  end.

Definition DEFAULT_RUBRIC : string :=
  "Evaluate the following output on a scale of 0.0 to 1.0. Consider completeness, correctness, clarity, and adherence to requirements. Respond with a JSON object with score and reasoning".
Definition judge_prompt (content : string) (c : JudgeConfig) : string :=
  (if String.eqb (jc_rubric c) "" then DEFAULT_RUBRIC else jc_rubric c)
  +:+ "Output to evaluate:" +:+ take_str 3000 content +:+ "Respond ONLY with valid JSON".

Definition TECH_KEYWORDS : list string :=
  ["implementation"; "design"; "test"; "result"; "output"; "summary"; "conclusion"; "analysis"; "data"; "config"].
(** One of the characters followed by white space *)
Fixpoint marked (marks : list ascii) (s : string) : bool :=
  match s with
  | String c (String d _ as s') => (existsb (Ascii.eqb c) marks && is_space d) || marked marks s'
  | _ => false
  end.
Definition points (b : bool) (q : Q) : Q := if b then q else 0%Q.
(** [_fallback_scoring] *)
Definition fallback_scoring (content : string) : Q :=
  let found := length (List.filter (fun k => contains k (lower content)) TECH_KEYWORDS) in
  qmin 1 (points (negb (String.eqb (strip content) "")) (3 # 10)
          + points (100 <? Z.of_nat (String.length content)) (2 # 10)
          + points (marked ["#"%char] content) (1 # 10)
          + points (contains "```" content) (1 # 10)
          + points (marked ["-"%char; "*"%char] content) (1 # 10)
          + qmin (inject_Z (Z.of_nat found) * (5 # 100)) (2 # 10))%Q.

(** The score of a text: the judge's, or the heuristic one when there is no judge,
    when it fails, or when it gives 0 without a reason *)
Definition judged (content : string) (c : JudgeConfig) (w : W) : Q * string * W :=
  match o_judge X with
  | None => (0%Q, "", w)
  | Some ask =>
      match ask (judge_prompt content c) (jc_max_tokens c) (jc_temperature c) w with
      | (Ret response, w) =>
          match parse_llm_response response with
          | Ret (q, reasoning) => (q, reasoning, w)
          | Raise _ => (fallback_scoring content, "", w)
          end
      | (Raise _, w) => (fallback_scoring content, "", w)
      end
  end.
Definition final_score (content : string) (c : JudgeConfig) (w : W) : Q * W :=
  let '(score, reasoning, w) := judged content c w in
  (if Qeq_bool score 0 && String.eqb reasoning "" then fallback_scoring content else score, w).

(** [validate_llm_judge] *)
Definition judge_failed (m : text) : ValidationResult := verdict false "llm_judge" (Lit "llm_judge: " :: m).
Definition judge_content (content : string) (c : JudgeConfig) (w : W) : ValidationResult * W :=
  if String.eqb (strip content) "" then (judge_failed [Lit "file is empty"], w)
  else
    let (score, w) := final_score content c w in
    (verdict (qle (jc_threshold c) score) "llm_judge"
       [Lit "llm_judge: score="; FNum score; Lit " threshold="; FNum (jc_threshold c)], w).
Definition validate_llm_judge (spec : validator_spec) (w : W) : V * W :=
  match judge_config spec with
  | Raise e => (Raise e, w)
  | Ret c =>
      match default (PStr "") (dget "path" spec) with
      | PStr path =>
          if String.eqb path "" then (Ret (judge_failed [Lit "no path specified"]), w)
          else match o_node X path w, read_text path w with
               | Missing, _ => (Ret (judge_failed [Lit "file not found: "; Lit path]), w)
               | _, Ret (Some content) => let (r, w) := judge_content content c w in (Ret r, w)
               | _, _ => (Ret (judge_failed [Lit "failed to read file"]), w)
               end
      | v => if truthy v then (Raise (type_error "expected str, bytes or os.PathLike object"), w)
             else (Ret (judge_failed [Lit "no path specified"]), w)
      end
  end.

(** *** The registry *)

Definition pure (f : validator_spec -> W -> V) : validator_fn W := fun spec w => (f spec w, w).
(** [ContractValidator.__init__], [_register_builtins] *)
Definition builtin_validator (workspace_dir : string) : ContractValidator W :=
  mkContractValidator
    [("file_exists", pure validate_file_exists); ("file_size", pure validate_file_size); ("regex", pure validate_regex);
     ("line_count", pure validate_line_count); ("json_schema", pure validate_json_schema)]
    (validate_custom workspace_dir) validate_llm_judge.
(** [register] *)
Definition register (name : string) (f : validator_fn W) (cv : ContractValidator W) : ContractValidator W :=
  mkContractValidator (dset name f (cv_validators cv)) (cv_custom cv) (cv_llm_judge cv).

(** ** The gate handler *)

Inductive GateMode := Manual | Auto | Threshold.
Definition gate_mode_of (s : string) : outcome exn GateMode :=
  if String.eqb s "" then Ret Manual
  else if String.eqb s "manual" then Ret Manual
  else if String.eqb s "auto" then Ret Auto
  else if String.eqb s "threshold" then Ret Threshold
  else Raise (type_error "is not a valid GateMode").

Record GateResult := mkGateResult {
  gr_approved : bool;
  gr_mode : GateMode;
  gr_reason : text;
  gr_score : option Q;
  gr_status : option StageStatus;
  gr_error : option (list text);
}.

(** [_process_manual] *)
Definition process_manual (workflow : string) (stage : StageNode) (w : W) : GateResult * W :=
  let w := match o_enqueue X with Some enqueue => snd (enqueue (sn_id stage) workflow w) | None => w end in
  (mkGateResult false Manual [Lit "GATE stage "; FInt (sn_id stage); Lit " awaiting manual approval"] None
     (Some GATE_PENDING) None, w).
(** [_process_auto] *)
Definition process_auto (cv : ContractValidator W) (stage : StageNode) : M W exn GateResult :=
  match sn_validators stage with
  | [] => mret (mkGateResult true Auto [Lit "No validators configured, auto-approved"] None None None)
  | specs =>
      results ← validate_all cv specs;
      let all_passed := forallb v_passed results in
      mret (mkGateResult all_passed Auto
              (if all_passed then [Lit "All validators passed"] else [Lit "Failed: "; FRepr (failure_messages results)]) None
              (Some (if all_passed then GATE_APPROVED else GATE_REJECTED))
              (if all_passed then None else Some (failure_messages results)))
  end.
(** [_extract_score_from_result]; [error]: the error of the stage's result *)
Definition score_of_result (error : option string) : Q :=
  match error with
  | Some e => if String.eqb e "" then 0%Q else default 0%Q (search_score e)
  | None => 0%Q
  end.
(** [_process_threshold] *)
Definition process_threshold (stage : StageNode) (error : option string) : GateResult :=
  let score := score_of_result error in
  let ok := qle (sn_gate_threshold stage) score in
  mkGateResult ok Threshold [Lit "Score "; FNum score] (Some score) (Some (if ok then GATE_APPROVED else GATE_REJECTED)) None.
(** [process] *)
Definition process (cv : ContractValidator W) (workflow : string) (stage : StageNode) (error : option string)
    : M W exn GateResult :=
  fun w =>
    match gate_mode_of (sn_gate_mode stage) with
    | Raise e => (Raise e, w)
    | Ret Auto => process_auto cv stage w
    | Ret Threshold => (Ret (process_threshold stage error), w)
    | Ret Manual => let (r, w) := process_manual workflow stage w in (Ret r, w)
    end.
(** [approve_manual], [reject_manual] *)
Definition approve_manual (stage_id : Z) : Z * StageStatus * option string := (stage_id, GATE_APPROVED, None).
Definition reject_manual (stage_id : Z) (reason : string) : Z * StageStatus * option string :=
  (stage_id, GATE_REJECTED, Some (if String.eqb reason "" then "Manually rejected" else reason)).
End validators.

(** * Theorems *)

Section facts.
Context {W : Type} (X : Outside W).

(** ** What the built-in validators demand of the files *)

Definition in_range (n : Z) (lo : Q) (hi : option Q) : Prop :=
  (lo <= inject_Z n)%Q /\ match hi with Some h => (inject_Z n <= h)%Q | None => True end.

Inductive meets (w : W) (spec : validator_spec) : Prop :=
| MeetsExists path :
    get_str "type" spec = "file_exists" -> path_arg (ddel "type" spec) = Ret path -> o_node X path w <> Missing ->
    meets w spec
| MeetsSize path n lo hi :
    get_str "type" spec = "file_size" -> path_arg (ddel "type" spec) = Ret path -> node_size (o_node X path w) = Some n ->
    number_arg "min_bytes" 0 (ddel "type" spec) = Ret lo -> limit_arg "max_bytes" (ddel "type" spec) = Ret hi ->
    in_range n lo hi -> meets w spec
| MeetsRegex path content pattern n least :
    get_str "type" spec = "regex" -> path_arg (ddel "type" spec) = Ret path -> o_node X path w = Bytes content true ->
    pattern_arg (ddel "type" spec) = Ret pattern -> o_findall X pattern content = Ret n ->
    number_arg "min_matches" 1 (ddel "type" spec) = Ret least -> (least <= inject_Z (Z.of_nat n))%Q -> meets w spec
| MeetsLines path content lo hi :
    get_str "type" spec = "line_count" -> path_arg (ddel "type" spec) = Ret path -> o_node X path w = Bytes content true ->
    number_arg "min_lines" 1 (ddel "type" spec) = Ret lo -> limit_arg "max_lines" (ddel "type" spec) = Ret hi ->
    in_range (Z.of_nat (length (splitlines content))) lo hi -> meets w spec
| MeetsJson path content data :
    get_str "type" spec = "json_schema" -> path_arg (ddel "type" spec) = Ret path -> o_node X path w = Bytes content true ->
    o_loads X content = Some data ->
    match dget "schema" (ddel "type" spec) with
    | None | Some PNone => True
    | Some schema => o_schema X data schema = SchemaValid
    end -> meets w spec.

Definition BUILTIN_TYPES : list string := ["file_exists"; "file_size"; "regex"; "line_count"; "json_schema"].

Definition passes (m : outcome exn ValidationResult) : Prop := exists r, m = Ret r /\ v_passed r = true.

Lemma within_passes t path u tl n lo hi : v_passed (within t path u tl n lo hi) = true <-> in_range n lo hi.
Proof.
  unfold within, in_range. destruct (qlt (inject_Z n) lo) eqn:E1; qsimp; simpl; [split; [done|intros [? _]; lra]|].
  destruct hi as [h|]; [|simpl; tauto]. destruct (qlt h (inject_Z n)) eqn:E2; qsimp; simpl; [split; [done|intros [_ ?]; lra]|tauto].
Qed.

Lemma read_text_ret path w c :
  read_text X path w = Ret c ->
  match c with Some s => o_node X path w = Bytes s true | None => o_node X path w = Missing end.
Proof. unfold read_text. destruct (o_node X path w) as [| |s []]; intros [= <-]; done. Qed.

Lemma passes_raise e : ~ passes (Raise e).
Proof. by intros (r & ? & _). Qed.
Lemma passes_ret r : passes (Ret r) <-> v_passed r = true.
Proof. split; [by intros (r' & [= ->] & H)|by exists r]. Qed.

Lemma exists_passes w spec :
  get_str "type" spec = "file_exists" -> passes (validate_file_exists X (ddel "type" spec) w) <-> meets w spec.
Proof.
  intros Ht. unfold validate_file_exists. split.
  - destruct (path_arg _) as [path|e] eqn:Hp; cbn; [|by intros ?%passes_raise].
    destruct (o_node X path w) eqn:Hn; rewrite passes_ret; cbn; try done; intros _; apply (MeetsExists w spec path); congruence.
  - intros Hm. inversion Hm as [path ? Hp Hn|?????? |???????|??????|????]; try congruence. rewrite Hp. cbn.
    destruct (o_node X path w); try done; by apply passes_ret.
Qed.
Lemma size_passes w spec :
  get_str "type" spec = "file_size" -> passes (validate_file_size X (ddel "type" spec) w) <-> meets w spec.
Proof.
  intros Ht. unfold validate_file_size. split.
  - destruct (path_arg _) as [path|e] eqn:Hp; cbn; [|by intros ?%passes_raise].
    destruct (node_size (o_node X path w)) as [n|] eqn:Hn; [|by rewrite passes_ret].
    destruct (number_arg _ _ _) as [lo|e] eqn:Hlo; cbn; [|by intros ?%passes_raise].
    destruct (limit_arg _ _) as [hi|e] eqn:Hhi; cbn; [|by intros ?%passes_raise].
    rewrite passes_ret, within_passes. by apply (MeetsSize w spec path n lo hi).
  - intros Hm. inversion Hm as [|path n lo hi ? Hp Hn Hlo Hhi Hr| | |]; try congruence.
    rewrite Hp. cbn. rewrite Hn, Hlo. cbn. rewrite Hhi. cbn. by apply passes_ret, within_passes.
Qed.
Lemma regex_passes w spec :
  get_str "type" spec = "regex" -> passes (validate_regex X (ddel "type" spec) w) <-> meets w spec.
Proof.
  intros Ht. unfold validate_regex. split.
  - destruct (path_arg _) as [path|e] eqn:Hp; cbn; [|by intros ?%passes_raise].
    destruct (read_text X path w) as [[content|]|e] eqn:Hr; [|by rewrite passes_ret|by rewrite passes_ret].
    apply read_text_ret in Hr. destruct (pattern_arg _) as [pattern|e] eqn:Hpa; cbn; [|by intros ?%passes_raise].
    destruct (o_findall X pattern content) as [n|m] eqn:Hf; [|by rewrite passes_ret].
    destruct (number_arg _ _ _) as [least|e] eqn:Hl; cbn; [|by intros ?%passes_raise].
    rewrite passes_ret. cbn. intros Hq%negb_true_iff. qsimp. by apply (MeetsRegex w spec path content pattern n least).
  - intros Hm. inversion Hm as [| |path content pattern n least ? Hp Hn Hpa Hf Hl Hle| |]; try congruence.
    rewrite Hp. cbn. unfold read_text. rewrite Hn, Hpa. cbn. rewrite Hf, Hl. cbn. apply passes_ret. cbn.
    apply negb_true_iff. by qsimp.
Qed.
Lemma lines_passes w spec :
  get_str "type" spec = "line_count" -> passes (validate_line_count X (ddel "type" spec) w) <-> meets w spec.
Proof.
  intros Ht. unfold validate_line_count. split.
  - destruct (path_arg _) as [path|e] eqn:Hp; cbn; [|by intros ?%passes_raise].
    destruct (read_text X path w) as [[content|]|e] eqn:Hr; cbn; [|by rewrite passes_ret|by intros ?%passes_raise].
    apply read_text_ret in Hr.
    destruct (number_arg _ _ _) as [lo|e] eqn:Hlo; cbn; [|by intros ?%passes_raise].
    destruct (limit_arg _ _) as [hi|e] eqn:Hhi; cbn; [|by intros ?%passes_raise].
    rewrite passes_ret, within_passes. by apply (MeetsLines w spec path content lo hi).
  - intros Hm. inversion Hm as [| | |path content lo hi ? Hp Hn Hlo Hhi Hr|]; try congruence.
    rewrite Hp. cbn. unfold read_text. rewrite Hn. cbn. rewrite Hlo. cbn. rewrite Hhi. cbn. by apply passes_ret, within_passes.
Qed.
Lemma json_passes w spec :
  get_str "type" spec = "json_schema" -> passes (validate_json_schema X (ddel "type" spec) w) <-> meets w spec.
Proof.
  intros Ht. unfold validate_json_schema. split.
  - destruct (path_arg _) as [path|e] eqn:Hp; cbn; [|by intros ?%passes_raise].
    destruct (read_text X path w) as [[content|]|e] eqn:Hr; cbn; [|by rewrite passes_ret|by intros ?%passes_raise].
    apply read_text_ret in Hr. destruct (o_loads X content) as [data|] eqn:Hl; [|by rewrite passes_ret].
    intros H. apply (MeetsJson w spec path content data); [done..|].
    destruct (dget "schema" _) as [sc|]; [|done].
    destruct sc; try done; (destruct (o_schema _ _ _); [done|by apply passes_ret in H..|by apply passes_raise in H]).
  - intros Hm. inversion Hm as [| | | |path content data ? Hp Hn Hl Hs]; try congruence.
    rewrite Hp. cbn. unfold read_text. rewrite Hn. cbn. rewrite Hl. destruct (dget "schema" _) as [sc|]; [|by apply passes_ret].
    destruct sc; try (rewrite Hs); by apply passes_ret.
Qed.

(** A built-in validator never raises out of [validate], leaves the world alone,
    and passes exactly on what it demands. *)
Lemma validate_builtin dir w spec :
  get_str "type" spec ∈ BUILTIN_TYPES ->
  exists r, validate (builtin_validator X dir) spec w = (Ret r, w) /\ (v_passed r = true <-> meets w spec).
Proof.
  intros Ht.
  assert (Hcase : forall t f, get_str "type" spec = t -> (passes (f (ddel "type" spec) w) <-> meets w spec) ->
            exists r, try_except (pure f (ddel "type" spec))
                        (fun e => mret (mkValidationResult false t ([Lit "Validator error: "] ++ exn_msg e))) w = (Ret r, w)
                      /\ (v_passed r = true <-> meets w spec)).
  { intros t f _ Hf. unfold try_except, pure. destruct (f (ddel "type" spec) w) as [r|e].
    - exists r. split; [done|]. by rewrite <- Hf, passes_ret.
    - eexists. split; [reflexivity|]. rewrite <- Hf. cbn. split; [done|by intros ?%passes_raise]. }
  unfold validate. unfold BUILTIN_TYPES in Ht. repeat (apply elem_of_cons in Ht as [Ht|Ht]); [..|by apply elem_of_nil in Ht];
    rewrite Ht; cbn -[try_except pure].
  - apply (Hcase "file_exists"); [done|by apply exists_passes].
  - apply (Hcase "file_size"); [done|by apply size_passes].
  - apply (Hcase "regex"); [done|by apply regex_passes].
  - apply (Hcase "line_count"); [done|by apply lines_passes].
  - apply (Hcase "json_schema"); [done|by apply json_passes].
Qed.

Lemma validate_all_builtin dir w specs :
  Forall (fun spec => get_str "type" spec ∈ BUILTIN_TYPES) specs ->
  exists rs, validate_all (builtin_validator X dir) specs w = (Ret rs, w)
    /\ (forallb v_passed rs = true <-> Forall (meets w) specs).
Proof.
  induction specs as [|spec specs IH]; intros Hf; [by exists []|].
  apply Forall_cons in Hf as [Ht Hf]. destruct (validate_builtin dir w spec Ht) as (r & Hr & Hm).
  destruct (IH Hf) as (rs & Hrs & Hms). exists (r :: rs). split.
  - cbn [validate_all]. unfold mbind, M_bind. by rewrite Hr, Hrs.
  - cbn. by rewrite andb_true_iff, Hm, Hms, Forall_cons.
Qed.

(** An automatic gate over built-in validators always decides, changes nothing,
    and approves exactly when the files meet every one of them. *)
Theorem auto_gate_checks_files (sv : Services W) dir stage w :
  validator sv = builtin_validator X dir ->
  Forall (fun spec => get_str "type" spec ∈ BUILTIN_TYPES) (sn_validators stage) ->
  exists r, run_auto_gate sv stage w = (Ret r, w)
    /\ (g_approved r = true <-> Forall (meets w) (sn_validators stage)).
Proof.
  intros Hsv Hf. unfold run_auto_gate. rewrite Hsv. destruct (validate_all_builtin dir w _ Hf) as (rs & Hrs & Hm).
  destruct (sn_validators stage) as [|spec specs] eqn:E; [eexists; split; [reflexivity|done]|].
  unfold mbind, M_bind. rewrite Hrs. eexists. split; [reflexivity|]. cbn. exact Hm.
Qed.

(** Without a path, or with a misspelt one, the validator looks at the working
    directory, which exists. *)
Theorem unnamed_file_exists w spec :
  dget "path" spec = None -> o_node X "" w <> Missing -> passes (validate_file_exists X spec w).
Proof.
  intros Hp Hn. unfold validate_file_exists, path_arg. rewrite Hp. cbn. destruct (o_node X "" w); try done; by apply passes_ret.
Qed.

(** ** The judge *)

Lemma clamp_unit q : (0 <= clamp q <= 1)%Q.
Proof. unfold clamp. pose proof (qmax_le_l 0 (qmin 1 q)). pose proof (qmin_le_l 1 q). split; [done|]. unfold qmax. destruct (Qle_bool _ _); lra. Qed.
Lemma points_nonneg b q : (0 <= q)%Q -> (0 <= points b q)%Q.
Proof. by destruct b. Qed.
Lemma qmin_nonneg x y : (0 <= x)%Q -> (0 <= y)%Q -> (0 <= qmin x y)%Q.
Proof. unfold qmin. by destruct (Qle_bool x y). Qed.
Lemma fallback_unit content : (0 <= fallback_scoring content <= 1)%Q.
Proof.
  unfold fallback_scoring. split; [|apply qmin_le_l].
  apply qmin_nonneg; [lra|].
  pose proof (points_nonneg (negb (String.eqb (strip content) "")) (3 # 10) ltac:(lra)).
  pose proof (points_nonneg (100 <? Z.of_nat (String.length content)) (2 # 10) ltac:(lra)).
  pose proof (points_nonneg (marked ["#"%char] content) (1 # 10) ltac:(lra)).
  pose proof (points_nonneg (contains "```" content) (1 # 10) ltac:(lra)).
  pose proof (points_nonneg (marked ["-"%char; "*"%char] content) (1 # 10) ltac:(lra)).
  set (n := length _). assert (0 <= inject_Z (Z.of_nat n))%Q by (change 0%Q with (inject_Z 0); rewrite <- Zle_Qle; lia).
  assert (0 <= qmin (inject_Z (Z.of_nat n) * (5 # 100)) (2 # 10))%Q by (unfold qmin; destruct (Qle_bool _ _); lra). lra.
Qed.
Lemma score_in_text_unit s : (0 <= fst (score_in_text s) <= 1)%Q.
Proof.
  unfold score_in_text. destruct (search_score s) as [q|]; [|cbn; lra].
  destruct (qle 0 q && qle q 1) eqn:E; [apply andb_true_iff in E as [E1 E2]; qsimp; cbn; lra|].
  destruct (qle 0 q && qle q 100) eqn:E'; [|cbn; lra]. apply andb_true_iff in E' as [E1 E2]. qsimp. cbn.
  split; [apply Qle_shift_div_l; lra|apply Qle_shift_div_r; lra].
Qed.
Lemma parsed_unit response q r : parse_llm_response X response = Ret (q, r) -> (0 <= q <= 1)%Q.
Proof.
  pose proof (score_in_text_unit response) as Hs.
  unfold parse_llm_response. destruct (find_json response) as [block|]; [|by intros [= E]; rewrite E in Hs].
  destruct (o_loads X block) as [[]|]; try (by intros [= E]; rewrite E in Hs).
  destruct (o_float X _) as [x| |]; [intros [= <- <-]; apply clamp_unit|by intros [= E]; rewrite E in Hs|done].
Qed.

(** Whatever the judge answers, the score that decides is in the unit interval. *)
Theorem judge_score_in_unit content c w : (0 <= fst (final_score X content c w) <= 1)%Q.
Proof.
  unfold final_score. destruct (judged X content c w) as [[score reasoning] w'] eqn:E. cbn.
  destruct (_ && _); [apply fallback_unit|]. unfold judged in E. destruct (o_judge X) as [ask|]; [|injection E as <- <- <-; lra].
  destruct (ask _ _ _ w) as [[response|e] w1]; [|injection E as <- <- <-; apply fallback_unit].
  destruct (parse_llm_response X response) as [[q r]|e] eqn:Ep; [|injection E as <- <- <-; apply fallback_unit].
  injection E as <- <- <-. by apply parsed_unit in Ep.
Qed.

(** A judge that gives 0 without a reason is overruled by the length and the form
    of the text. *)
Theorem zero_score_overruled content c w ask response w' :
  o_judge X = Some ask -> ask (judge_prompt content c) (jc_max_tokens c) (jc_temperature c) w = (Ret response, w') ->
  parse_llm_response X response = Ret (0%Q, "") -> fst (final_score X content c w) = fallback_scoring content.
Proof. intros Ho Ha Hp. unfold final_score, judged. by rewrite Ho, Ha, Hp. Qed.

(** ** The gate handler *)

(** The score of a threshold gate is read from the error of the stage: a stage
    without an error has the score 0 and no positive threshold approves it. *)
Theorem threshold_rejects_success stage :
  (0 < sn_gate_threshold stage)%Q -> gr_approved (process_threshold stage None) = false.
Proof. intros H. unfold process_threshold. cbn. by qsimp. Qed.

(** The two gates agree: the handler and the runner approve the same stages. *)
Theorem gate_handler_agrees (sv : Services W) stage w :
  sn_validators stage <> [] ->
  (fun r => gr_approved r) <$> match fst (process_auto (validator sv) stage w) with Ret r => Some r | Raise _ => None end
  = g_approved <$> match fst (run_auto_gate sv stage w) with Ret r => Some r | Raise _ => None end.
Proof.
  intros Hne. unfold process_auto, run_auto_gate. destruct (sn_validators stage) as [|spec specs]; [done|].
  unfold mbind, M_bind. by destruct (validate_all (validator sv) (spec :: specs) w) as [[rs|e] w'].
Qed.
End facts.
