(* ===== verification/IssueCli.v ===== *)
(** * The issue commands ([src/orchestratord/commands/issue.py],
    [commands/service.py], [commands/models.py])

    The operator's commands on one issue: stop, pause, resume, inject, review,
    feedback, rebase and retry, with the delivery they share (in the daemon,
    over the control socket of the run, or by a control file) and the file of
    operator hints.  A command runs inside the daemon ([cm_attached]) on its
    registry, or in a process of its own on a copy loaded from the registry
    file; both are kept in the daemon's state, whose [disk] is that file and
    whose [c_files] is the control directory.  The workspace root is resolved
    and is the daemon's.  Sockets, files, the terminal, the tracker and the
    clock are operations over the world; what the commands print is left out. *)

From S2P Require Import Prelude Errors Dag StageRunner Checkpoint Regex ClarResolver ImInbound Intent IssueRegistry Kernel RetryQueue IssueProvider Control.

Open Scope string_scope.
Open Scope list_scope.
Open Scope Z_scope.

(** ** Arguments *)

Record Args := mkArgs {
  a_id : option string;
  a_yes : bool;
  a_no_wait : bool;
  a_reason : option string;
  a_hint : option string;
  a_hint_flag : option string;
  a_list_hints : bool;
  a_remove_hint : option Z;
  a_approve : bool;
  a_reject : bool;
  a_feedback : option string;
  a_comment : option string;
  a_list_feedback : bool;
  a_dismiss : bool;
  a_feedback_ids : list string;
  a_force : bool;
  a_operator : option string;
  a_mode : option string;
  a_max_retries : option Z;
  a_stop_first : bool;
}.

(** A text is given and not empty. *)
Definition given (o : option string) : option string := str_or o None.

(** [x or ""] *)
Definition or_empty (o : option string) : string := default "" o.

(** ** The world *)

(** What a client reads from the control socket, at a time after it connected:
    a line with the value it decodes to, or the end of the stream. *)
Inductive Read :=
| RLine (at_ : Q) (event : option pyval)
| RClosed (at_ : Q).

(** [update_issue_state] returned, or raised [FileNotFoundError]. *)
Inductive state_answer :=
| StateUpdated
| StateNotFound.

Record CliTracker (W : Type) := mkCliTracker {
  ct_update_state : string -> string -> M W exn state_answer;
  ct_label : option (bool -> string -> string -> M W exn bool);
}.
Arguments mkCliTracker {W}.
Arguments ct_update_state {W}.
Arguments ct_label {W}.

(** An entry of the workspace root: its name, whether it is a directory, and the
    [issue_id] of its [.metadata] when that file is there and decodes. *)
Record DirEntry := mkDirEntry {
  de_name : string;
  de_is_dir : bool;
  de_metadata : option pyval;
}.

Record CmdOps (W : Type) := mkCmdOps {
  cm_attached : bool;
  cm_ready : bool;
  cm_root : string;
  cm_budget : option Q;
  cm_exists : string -> W -> bool;
  cm_entries : string -> W -> list DirEntry;
  cm_connect : string -> string -> string -> M W exn (list Read);
  cm_confirm : string -> M W exn (option string);
  cm_mkdir : M W exn unit;
  cm_write : string -> M W exn unit;
  cm_tracker : option (CliTracker W);
  cm_user : string;
  cm_iso : W -> string;
  cm_wall : W -> Q;
  cm_strptime : string -> option Q;
  cm_strftime : Q -> string;
  cm_os_error : exn -> bool;
  cm_value_error : exn -> bool;
}.
Arguments mkCmdOps {W}.
Arguments cm_attached {W}.
Arguments cm_ready {W}.
Arguments cm_root {W}.
Arguments cm_budget {W}.
Arguments cm_exists {W}.
Arguments cm_entries {W}.
Arguments cm_connect {W}.
Arguments cm_confirm {W}.
Arguments cm_mkdir {W}.
Arguments cm_write {W}.
Arguments cm_tracker {W}.
Arguments cm_user {W}.
Arguments cm_iso {W}.
Arguments cm_wall {W}.
Arguments cm_strptime {W}.
Arguments cm_strftime {W}.
Arguments cm_os_error {W}.
Arguments cm_value_error {W}.

(** The daemon with its files, the hint files, the commands written to a socket
    with its path, the audit log, and the time since the command began. *)
Record KState (W : Type) := mkK {
  k_daemon : CState W;
  k_hints : dict string string;
  k_sent : list (string * string * string);
  k_audit : list (dict string pyval);
  k_now : Q;
}.
Arguments mkK {W}.
Arguments k_daemon {W}.
Arguments k_hints {W}.
Arguments k_sent {W}.
Arguments k_audit {W}.
Arguments k_now {W}.

(** An exception that [except Exception] sees, or the cancellation of the
    command, which it does not. *)
Inductive cexn :=
| Exn (e : exn)
| Cancelled.

(** ** Hints *)

Definition HINT_PREFIX : string := "--- Operator Hint #".

Fixpoint dashes (n : nat) : string :=
  match n with
  | O => EmptyString
  | S n => String (Ascii.ascii_of_nat 45) (dashes n)
  end.

Definition separator : string := dashes 50.

(** [line.startswith(p)], [s.removesuffix(p)] *)
Definition remove_suffix (p s : string) : string :=
  let n := (String.length s - String.length p)%nat in
  if (String.length p <=? String.length s)%nat && String.eqb (drop_str n s) p then take_str n s else s.

(** [s.split(sep)[1]]: what is between the first two occurrences of [sep]. *)
Fixpoint before (sep s : string) : string :=
  if String.prefix sep s then EmptyString
  else match s with
       | EmptyString => EmptyString
       | String c s' => String c (before sep s')
       end.

Fixpoint second_part (sep s : string) : option string :=
  if String.prefix sep s then Some (before sep (drop_str (String.length sep) s))
  else match s with
       | EmptyString => None
       | String _ s' => second_part sep s'
       end.

(** The lines of a hint: up to the separator, which is dropped with what
    precedes it. *)
Fixpoint hint_body (lines : list string) : list string * list string :=
  match lines with
  | [] => ([], [])
  | l :: rest =>
      if String.prefix (dashes 45) (strip l) then ([], rest)
      else let '(body, rest') := hint_body rest in (l :: body, rest')
  end.

(** ** Operations *)

Section cli.
Context {W : Type} (T : PollOps W) (C : ControlOps W) (O : CmdOps W).

Local Abbreviation K := (KState W).

Definition world (s : K) : W := p_world (c_poll (k_daemon s)).
Definition ktick (s : K) : Tick := ptick T (c_poll (k_daemon s)).
Definition dreg (s : K) : Registry := creg (k_daemon s).

Definition on_daemon (f : CState W -> CState W) (s : K) : K :=
  mkK (f (k_daemon s)) (k_hints s) (k_sent s) (k_audit s) (k_now s).
Definition set_time (t : Q) (s : K) : K := mkK (k_daemon s) (k_hints s) (k_sent s) (k_audit s) t.
Definition sent (x : string * string * string) (s : K) : K :=
  mkK (k_daemon s) (k_hints s) (k_sent s ++ [x]) (k_audit s) (k_now s).
Definition set_hint_file (p content : string) (s : K) : K :=
  mkK (k_daemon s) (dset p content (k_hints s)) (k_sent s) (k_audit s) (k_now s).
Definition audited (x : dict string pyval) (s : K) : K :=
  mkK (k_daemon s) (k_hints s) (k_sent s) (k_audit s ++ [x]) (k_now s).
Definition set_file (name content : string) : K -> K :=
  on_daemon (fun d => mkC (c_poll d) (c_queue d) (c_sessions d) (dset name (Some content) (c_files d)) (c_tasks d) (c_hints d)).
Definition set_daemon_registry (g : Registry) : K -> K :=
  on_daemon (on_poll (IssueProvider.on_orch (set_registry g))).

(** A call of the world. *)
Definition io {A} (m : M W exn A) : M K cexn A := fun s =>
  let (r, w) := m (world s) in
  let s1 := on_daemon (on_poll (fun p => mkP w (p_orch p) (p_pending_review p))) s in
  match r with Ret a => (Ret a, s1) | Raise e => (Raise (Exn e), s1) end.

(** [try: m except Exception: h] *)
Definition catching {A} (m : M K cexn A) (h : M K cexn A) : M K cexn A := fun s =>
  match m s with
  | (Raise (Exn _), s1) => h s1
  | r => r
  end.

(** ** The registry of a command ([CommandContext.registry]) *)

(** The daemon's, or a new one loaded from the file. *)
Definition open_registry : M K cexn Registry := fun s =>
  if cm_attached O then (Ret (dreg s), s)
  else match IssueRegistry.load (mkRegistry [] (disk (dreg s)) 0 false (min_interval (dreg s))) with
       | Ret g => (Ret g, s)
       | Raise e => (Raise (Exn e), s)
       end.

(** A mutation of it: the daemon's own, or a copy of which the daemon sees the
    file only. *)
Definition store (g : Registry) (s : K) : K :=
  if cm_attached O then set_daemon_registry g s
  else let d := dreg s in
       set_daemon_registry (mkRegistry (records d) (disk g) (last_save d) (pending_save d) (min_interval d)) s.

(** The registry object as it is now. *)
Definition current (g : Registry) (s : K) : Registry := if cm_attached O then dreg s else g.

Definition mutate (f : Tick -> Registry -> Registry) (g : Registry) : M K cexn Registry := fun s =>
  let g' := f (ktick s) (current g s) in (Ret g', store g' s).

(** [registry_path.exists()] *)
Definition registry_exists (s : K) : bool := is_some (disk (dreg s)).

(** ** Delivery *)

Definition sock_path (r : IssueRecord) : option string :=
  match given (run_id (run_info r)), given (workspace_path (wspace r)) with
  | Some run, Some ws => Some (ws +:+ "/.run_control/" +:+ run +:+ ".sock")
  | _, _ => None
  end.

(** The socket of the issue's run, when its file is there. *)
Definition live_socket (id : string) : M K cexn (option string) :=
  s ← Prelude.get;
  if negb (registry_exists s) then mret None
  else
    g ← open_registry;
    mret (match get_by_issue_ref id g ≫= sock_path with
          | Some p => if cm_exists O p (world s) then Some p else None
          | None => None
          end).

(** [_resolve_sock_path] *)
Definition resolve_sock_path (id : string) : M K cexn (option string) := catching (live_socket id) (mret None).

(** Connect and write one command. *)
Definition send (path cmd payload : string) : M K cexn (list Read) :=
  reads ← io (cm_connect O path cmd payload);
  modify (sent (path, cmd, payload)) ;;
  mret reads.

(** Waiting until [until]: the budget of the command may end first. *)
Definition wait_until (until : Q) : M K cexn unit := fun s =>
  match cm_budget O with
  | Some b => if qle b until then (Raise Cancelled, set_time b s) else (Ret tt, set_time until s)
  | None => (Ret tt, set_time until s)
  end.

(** The lines of [_send_and_wait]; [start] is the time of the connection, and a
    silent stream is an exhausted list. *)
Fixpoint await_event (start timeout : Q) (expected : string) (reads : list Read) : M K cexn (option pyval) :=
  s ← Prelude.get;
  if qle (timeout - (k_now s - start)) 0 then mret None
  else
    match reads with
    | [] => wait_until (start + timeout) ;; mret None
    | RClosed t :: _ =>
        if qle (start + timeout) (start + t) then wait_until (start + timeout) ;; mret None
        else wait_until (qmax (k_now s) (start + t)) ;; mret None
    | RLine t event :: rest =>
        if qle (start + timeout) (start + t) then wait_until (start + timeout) ;; mret None
        else
          wait_until (qmax (k_now s) (start + t)) ;;
          match event with
          | None => await_event start timeout expected rest
          | Some (PDict d) =>
              match dget "type" d with
              | Some (PStr x) =>
                  if String.eqb x expected then mret (Some (default (PDict []) (dget "data" d)))
                  else await_event start timeout expected rest
              | _ => await_event start timeout expected rest
              end
          | Some _ => raise (Exn (mkExn OtherException [Lit "object has no attribute 'get'"] None))
          end
    end.

(** [_send_and_wait] *)
Definition send_and_wait (path cmd payload expected : string) (timeout : Q) : M K cexn (option pyval) :=
  reads ← send path cmd payload;
  start ← gets k_now;
  await_event start timeout expected reads.

Definition socket_command (cmd : string) : bool := mem cmd ["pause"; "resume"; "stop"].

(** [_control_path() / f"{cmd}_{issue_id}.control"]: a slash names a directory
    that is not there. *)
Definition control_name (cmd id : string) : string := cmd +:+ "_" +:+ id +:+ ".control".
Definition has_slash (s : string) : bool := existsb (Ascii.eqb (Ascii.ascii_of_nat 47)) (String.list_ascii_of_string s).

Definition control_payload (cmd id extra : string) : string := cmd +:+ lf +:+ id +:+ lf +:+ extra +:+ lf.

(** The control file: a failure to write it is the exit code 1. *)
Definition write_control_file (cmd id extra : string) : M K cexn Z :=
  io (cm_mkdir O) ;;
  catching
    ((if has_slash (control_name cmd id) then raise (Exn (mkExn OtherException [Lit "No such file or directory"] None))
      else io (cm_write O (control_name cmd id))) ;;
     modify (set_file (control_name cmd id) (control_payload cmd id extra)) ;;
     mret 0)
    (mret 1).

(** [_write_control] *)
Definition write_control (cmd id extra : string) : M K cexn Z :=
  if cm_attached O && socket_command cmd then
    s ← Prelude.get;
    let target := default id (issue_id <$> get_by_issue_ref id (dreg s)) in
    if negb (mem target (oc_running (corch (k_daemon s)))) then mret 1
    else modify (on_daemon (apply_control_command T C cmd target extra)) ;; mret 0
  else
    done ← (if socket_command cmd
            then catching
                   (p ← live_socket id;
                    match p with
                    | Some path => send path cmd extra ;; mret true
                    | None => mret false
                    end)
                   (mret false)
            else mret false);
    if (done : bool) then mret 0 else write_control_file cmd id extra.

(** ** Stop, pause, resume *)

(** A question to the operator; no answer counts as no. *)
Definition confirmed (prompt : string) : M K cexn bool :=
  raw ← io (cm_confirm O prompt);
  mret (match raw with
        | Some x => mem (lower (strip x)) ["y"; "yes"]
        | None => false
        end).

(** The status that the registry knows; a registry that cannot be read is none. *)
Definition known_status (id : string) : M K cexn (option IssueStatus) :=
  s ← Prelude.get;
  if negb (registry_exists s) then mret None
  else catching (g ← open_registry; mret (status <$> get_by_issue_ref id g)) (mret None).

(** [_run_stop] *)
Definition run_stop (a : Args) : M K cexn Z :=
  match given (a_id a) with
  | None => mret 2
  | Some id =>
      st ← known_status id;
      go ← (match st with
            | Some st => if bool_decide (st = RUNNING) || a_yes a then mret true
                         else confirmed "  Write control file anyway? [y/N]: "
            | None => if a_yes a then mret true else confirmed "  Write stop control file anyway? [y/N]: "
            end);
      if negb go then mret 0
      else
        go ← (if a_yes a then mret true else confirmed ("Stop agent for issue " +:+ id +:+ "? [y/N]: "));
        if negb go then mret 0
        else
          p ← resolve_sock_path id;
          match p with
          | Some path =>
              if a_no_wait a then write_control "stop" id ""
              else send_and_wait path "stop" "" "SessionComplete" 10 ;; mret 0
          | None => write_control "stop" id ""
          end
  end.

(** [_run_pause] *)
Definition run_pause (a : Args) : M K cexn Z :=
  match given (a_id a) with
  | None => mret 2
  | Some id =>
      let reason := default "operator requested pause" (given (a_reason a)) in
      p ← resolve_sock_path id;
      match p with
      | Some path =>
          if a_no_wait a then write_control "pause" id reason
          else send_and_wait path "pause" reason "Paused" 30 ;; mret 0
      | None => write_control "pause" id reason
      end
  end.

(** [_run_resume] *)
Definition run_resume (a : Args) : M K cexn Z :=
  match given (a_id a) with
  | None => mret 2
  | Some id =>
      p ← resolve_sock_path id;
      match p with
      | Some path =>
          if a_no_wait a then write_control "resume" id ""
          else send_and_wait path "resume" "" "Resumed" 5 ;; mret 0
      | None => write_control "resume" id ""
      end
  end.

(** ** Hints *)

(** The workspace of an issue ([_resolve_issue_workspace_path]): its record's,
    or the first directory whose metadata names the issue or whose name contains
    the reference. *)
Definition record_workspace (id : string) : M K cexn (option string) :=
  s ← Prelude.get;
  if negb (registry_exists s) then mret None
  else
    g ← open_registry;
    mret (r ← get_by_issue_ref id g;
          let root := default (cm_root O) (given (workspace_path (wspace r))) in
          let candidates := (if String.eqb (issue_identifier r) "" then [] else [root +:+ "/" +:+ issue_identifier r]) ++ [root] in
          find (fun p => cm_exists O p (world s)) candidates).

Definition names_issue (id : string) (e : DirEntry) : bool :=
  de_is_dir e
  && (match de_metadata e with Some (PStr x) => String.eqb x id | _ => false end
      || contains id (de_name e)).

Definition resolve_issue_workspace_path (id : string) : M K cexn (option string) :=
  p ← catching (record_workspace id) (mret None);
  match p with
  | Some _ => mret p
  | None =>
      s ← Prelude.get;
      if negb (cm_exists O (cm_root O) (world s)) then mret None
      else mret ((fun e => cm_root O +:+ "/" +:+ de_name e) <$> find (names_issue id) (cm_entries O (cm_root O) (world s)))
  end.

(** The time in a header; the present when there is none. *)
Definition header_time (now : Q) (line : string) : Q :=
  match second_part "(injected at " line with
  | Some x => default now (cm_strptime O (remove_suffix ") ---" x))
  | None => now
  end.

(** The lines of a hints file; [fuel]: a hint takes its header and its body. *)
Fixpoint parse_lines (fuel : nat) (now : Q) (lines : list string) : list (Q * string) :=
  match fuel, lines with
  | S fuel, l :: rest =>
      if String.prefix HINT_PREFIX (strip l) then
        let '(body, rest') := hint_body rest in
        let hint := strip (String.concat lf body) in
        (if String.eqb hint "" then [] else [(header_time now (strip l), hint)]) ++ parse_lines fuel now rest'
      else parse_lines fuel now rest
  | _, _ => []
  end.

(** [_parse_hints_file] *)
Definition parse_hints (now : Q) (content : string) : list (Q * string) :=
  let lines := split_lines_lf content in parse_lines (length lines) now lines.

Definition hints_of (path : string) (s : K) : list (Q * string) :=
  match dget path (k_hints s) with
  | Some content => parse_hints (cm_wall O (world s)) content
  | None => []
  end.

Definition hint_block (n : Z) (stamp hint : string) : string :=
  HINT_PREFIX +:+ str_int n +:+ " (injected at " +:+ stamp +:+ ") ---" +:+ lf +:+ hint +:+ lf +:+ separator +:+ lf.

(** [_inject_hint] *)
Definition inject_hint (path hint : string) : M K cexn Z :=
  s ← Prelude.get;
  let hints := hints_of path s in
  if existsb (fun h => String.eqb (strip (snd h)) (strip hint)) hints then mret 0
  else
    let block := hint_block (Z.of_nat (length hints) + 1) (cm_strftime O (cm_wall O (world s))) hint in
    catching
      (io (cm_write O path) ;;
       modify (fun s => set_hint_file path (default "" (dget path (k_hints s)) +:+ block) s) ;;
       mret 0)
      (mret 1).

(** The file rebuilt from its hints, numbered anew. *)
Fixpoint render_hints (n : Z) (hints : list (Q * string)) : string :=
  match hints with
  | [] => ""
  | (ts, hint) :: rest => hint_block n (cm_strftime O ts) hint +:+ render_hints (n + 1) rest
  end.

(** [_remove_hint] *)
Definition remove_hint (path : string) (num : Z) : M K cexn Z :=
  s ← Prelude.get;
  let hints := hints_of path s in
  if (num <? 1) || (Z.of_nat (length hints) <? num) then mret 1
  else
    io (cm_write O path) ;;
    modify (set_hint_file path (render_hints 1 (delete (Z.to_nat (num - 1)) hints))) ;;
    mret 0.

(** [try: m except (ConnectionRefusedError, FileNotFoundError, OSError): h] *)
Definition on_os_error {A} (m h : M K cexn A) : M K cexn A := fun s =>
  match m s with
  | (Raise (Exn e), s1) => if cm_os_error O e then h s1 else (Raise (Exn e), s1)
  | r => r
  end.

(** [_do_inject]: pause, inject, resume. *)
Definition do_inject (path file hint : string) : M K cexn Z :=
  paused ← on_os_error (send_and_wait path "pause" "" "Paused" 30 ;; mret true) (mret false);
  if negb paused then inject_hint file hint
  else
    injected ← on_os_error (send_and_wait path "inject" hint "InjectDelivered" 30 ;; mret true) (mret false);
    if negb injected then inject_hint file hint
    else on_os_error (send_and_wait path "resume" "" "Resumed" 30 ;; mret ()) (mret ()) ;; mret 0.

(** [_try_socket_inject] *)
Definition try_socket_inject (id hint : string) : M K cexn bool :=
  catching
    (p ← live_socket id;
     match p with
     | Some path => send path "inject" hint ;; mret true
     | None => mret false
     end)
    (mret false).

(** [_run_inject] *)
Definition run_inject (a : Args) : M K cexn Z :=
  match given (a_id a) with
  | None => mret 2
  | Some id =>
      ws ← resolve_issue_workspace_path id;
      match ws with
      | None => mret 1
      | Some ws =>
          let file := ws +:+ "/.operator_hints.md" in
          match given (a_hint a), given (a_hint_flag a) with
          | Some _, Some _ => mret 2
          | h, f =>
              let hint := or_else f h in
              if a_list_hints a then mret 0
              else match a_remove_hint a, hint with
                   | Some n, _ => remove_hint file n
                   | None, None => mret 0
                   | None, Some hint =>
                       p ← resolve_sock_path id;
                       match p with
                       | Some path =>
                           if a_no_wait a then
                             ok ← try_socket_inject id hint;
                             if (ok : bool) then mret 0 else inject_hint file hint
                           else do_inject path file hint
                       | None => inject_hint file hint
                       end
                   end
          end
      end
  end.

(** ** Review and feedback *)

(** A record that a rejection may send back although it is not in review. *)
Definition recoverable_completion (r : IssueRecord) : bool :=
  let reason := or_empty (session_end_reason (run_info r)) in
  bool_decide (status r = COMPLETED)
  && (bool_decide (verification_status (sync r) = Some "failed")
      || is_some (given (last_hook_error (sync r)))
      || String.eqb reason "empty_branch_no_commits"
      || String.prefix "salvaged_after_" reason).

Definition retry_already_queued (r : IssueRecord) : bool :=
  (mem (status r) [IssueRegistry.PENDING; FAILED; VERIFICATION_FAILED] || recoverable_completion r)
  && (bool_decide (intent (intents r) = IRetry) || bool_decide (intent (intents r) = IFollowup)
      || is_some (given (commit_sha (sync r))) || is_some (given (pr_number (sync r)))
      || is_some (given (pr_url (sync r))) || recoverable_completion r).

Definition reviewable (a : Args) (r : IssueRecord) : bool :=
  bool_decide (status r = PENDING_REVIEW)
  || (a_reject a && retry_already_queued r)
  || (a_approve a && bool_decide (status r = COMPLETED)).

(** [_run_review] *)
Definition run_review (a : Args) : M K cexn Z :=
  match given (a_id a) with
  | None => mret 2
  | Some id =>
      s ← Prelude.get;
      if negb (registry_exists s) then mret 1
      else
        g ← open_registry;
        match IssueRegistry.get id g with
        | None => mret 1
        | Some r =>
            if negb (a_approve a) && negb (a_reject a) then mret 2
            else if negb (reviewable a r) then mret 1
            else if a_reject a then
              match given (a_feedback a) with
              | None => mret 2
              | Some fb => write_control "review_retry" id fb
              end
            else write_control "review_approve" id (or_empty (a_comment a))
        end
  end.

(** [_run_feedback] *)
Definition run_feedback (a : Args) : M K cexn Z :=
  match given (a_id a) with
  | None => mret 2
  | Some id =>
      s ← Prelude.get;
      if negb (registry_exists s) then mret 1
      else
        g ← open_registry;
        match IssueRegistry.get id g with
        | None => mret 1
        | Some r =>
            if negb (a_list_feedback a) && negb (a_approve a) && negb (a_dismiss a) then mret 2
            else if a_list_feedback a then mret 0
            else
              match (match a_feedback_ids a with [] => pending_feedback_ids (feedback r) | l => l end) with
              | [] => mret 0
              | targets =>
                  if a_dismiss a then mutate (fun t => mark_feedback_processed t id targets None None) g ;; mret 0
                  else write_control "review_followup" id (String.concat "," targets)
              end
        end
  end.

(** ** Rebase and retry *)

Definition operator (a : Args) : string := default (cm_user O) (given (a_operator a)).

(** [_append_audit_log]; a failure to write is a warning. *)
Definition append_audit_log (id mode reason : string) (a : Args) (extra : dict string pyval) : M K cexn unit :=
  s ← Prelude.get;
  let base := [("ts", PFloat (cm_wall O (world s))); ("ts_iso", PStr (cm_iso O (world s)));
               ("operator", PStr (operator a)); ("issue_id", PStr id); ("mode", PStr mode); ("reason", PStr reason);
               ("force", PBool (a_force a)); ("priority", PStr (if a_force a then "high" else "normal"))] in
  let payload := fold_left (fun d kv => dset (fst kv) (snd kv) d) extra base in
  catching (io (cm_write O "audit.jsonl") ;; modify (audited payload)) (mret ()).

(** [_mirror_intent_label] *)
Definition mirror_intent_label (remove : bool) (id label : string) : M K cexn bool :=
  match cm_tracker O ≫= ct_label with
  | None => mret false
  | Some call => catching (io (call remove id label)) (mret false)
  end.

(** [registry.register(issue_id, issue_identifier)] *)
Definition bare_register : RegisterArgs :=
  mkRegisterArgs None (mkWorkspaceInfo "main" None None None None None None) None None.

(** The record of a reference, registered under it when there is none. *)
Definition record_or_register (id : string) (g : Registry) : M K cexn (Registry * string) :=
  s ← Prelude.get;
  let g := current g s in
  match get_by_issue_ref id g with
  | Some r => mret (g, issue_id r)
  | None =>
      g' ← mutate (fun t => register t id id bare_register (po_conversation T (world s))) g;
      mret (g', id)
  end.

Definition opt_value (o : option string) : pyval := match o with Some s => PStr s | None => PNone end.

(** [_run_rebase] *)
Definition run_rebase (a : Args) : M K cexn Z :=
  match given (a_id a) with
  | None => mret 2
  | Some id =>
      let reason := or_empty (a_reason a) in
      s ← Prelude.get;
      if negb (registry_exists s) then mret 1
      else
        g ← open_registry;
        gi ← record_or_register id g;
        match IssueRegistry.get (snd gi) (fst gi) with
        | None => raise (Exn (mkExn OtherException [Lit "AssertionError"] None))
        | Some r =>
            match given (pr_number (sync r)), given (workspace_path (wspace r)), given (branch_name (sync r)) with
            | Some pr, Some _, Some branch =>
                mutate (fun t => mark_intent t (snd gi) IRebase (Some "cli")
                                   (Some ("cli:rebase:" +:+ take_str 64 reason))) (fst gi) ;;
                (match cm_tracker O with Some _ => mirror_intent_label false id "agent:rebase" | None => mret false end) ;;
                append_audit_log id "rebase" reason a
                  [("issue_identifier", PStr (issue_identifier r)); ("event", PStr "rebase_requested");
                   ("priority", PStr (if a_force a then "high" else "normal"));
                   ("push_method", PStr (if a_force a then "force" else "force-with-lease"));
                   ("rebase_attempt_count", PInt (rebase_attempt_count (conflict r)));
                   ("max_rebase_attempts_per_issue", PInt 3); ("pr_number", PStr pr);
                   ("branch_name", PStr branch); ("base_branch", PStr (base_branch (wspace r)))] ;;
                write_control "rebase" (snd gi) ((if a_force a then "force=1" else "force=0") +:+ lf +:+ reason)
            | _, _, _ => mret 4
            end
        end
  end.

(** [--stop-first] *)
Definition stop_before_retry (id : string) (r : option IssueRecord) (a : Args) : M K cexn unit :=
  match r with
  | Some r =>
      if a_stop_first a && bool_decide (status r = RUNNING) then
        p ← resolve_sock_path id;
        match p with
        | Some path => send_and_wait path "stop" "" "SessionComplete" 10 ;; mret ()
        | None => write_control "stop" id "" ;; mret ()
        end
      else mret ()
  | None => mret ()
  end.

(** Reopening on the tracker, whose failure is a warning. *)
Definition reopen (id rid : string) : M K cexn unit :=
  match cm_tracker O with
  | None => mret ()
  | Some tr =>
      catching
        (x ← io (ct_update_state tr id "open");
         match x with
         | StateUpdated => mret ()
         | StateNotFound =>
             if String.eqb rid id then raise (Exn (mkExn OtherException [Lit "FileNotFoundError"] None))
             else io (ct_update_state tr rid "open") ;; mret ()
         end)
        (mret ())
  end.

(** The three modes; the registry they leave and the exit code. *)
Definition retry_reset (id rid reason : string) (g : Registry) : M K cexn (Registry * Z) :=
  g1 ← mutate (fun t => mark_intent t rid IRetry (Some "cli") (Some ("cli:reset:" +:+ take_str 64 reason))) g;
  g2 ← mutate (fun t => reset_for_retry t rid true true) g1;
  reopen id rid ;;
  mirror_intent_label false id "agent:retry" ;;
  rc ← write_control "retry" rid reason;
  mret (g2, rc).

Definition retry_followup (id rid reason : string) (g : Registry) : M K cexn (Registry * Z) :=
  g1 ← mutate (fun t => mark_intent t rid IFollowup (Some "cli") (Some ("cli:followup:" +:+ take_str 64 reason))) g;
  mirror_intent_label false id "agent:follow-up" ;;
  (if String.eqb reason "" then mret 0
   else
     let ws := default (cm_root O) (r ← IssueRegistry.get rid g; given (workspace_path (wspace r))) in
     inject_hint (ws +:+ "/.operator_hints.md") reason) ;;
  rc ← write_control "followup" rid reason;
  mret (g1, rc).

Definition retry_unblock (id rid : string) (g : Registry) : M K cexn (Registry * Z) :=
  g1 ← mutate (fun t => unblock t rid) g;
  mirror_intent_label true id "agent:blocked" ;;
  mret (g1, 0).

(** [_run_retry] *)
Definition run_retry (a : Args) : M K cexn Z :=
  match given (a_id a) with
  | None => mret 2
  | Some id =>
      match a_mode a with
      | None => mret 2
      | Some mode =>
          if negb (mem mode ["reset"; "followup"; "unblock"]) then mret 2
          else
            let reason := or_empty (a_reason a) in
            s ← Prelude.get;
            if negb (registry_exists s) then mret 1
            else
              g ← open_registry;
              stop_before_retry id (get_by_issue_ref id g) a ;;
              gi ← record_or_register id g;
              res ← (if String.eqb mode "reset" then retry_reset id (snd gi) reason (fst gi)
                     else if String.eqb mode "followup" then retry_followup id (snd gi) reason (fst gi)
                     else retry_unblock id (snd gi) (fst gi));
              append_audit_log id mode reason a
                [("issue_identifier", PStr (default "" (issue_identifier <$> IssueRegistry.get (snd gi) (fst res))));
                 ("event", PStr (if String.eqb mode "reset" then "retry" else mode));
                 ("priority", PStr (if a_force a then "high" else "normal"));
                 ("retry_count", PInt (default 0 ((fun r => retry_count (intents r)) <$> IssueRegistry.get (snd gi) (fst res))));
                 ("max_retries_per_issue", PInt (match a_max_retries a with Some 0 | None => 3 | Some n => n end));
                 ("rate_limited", PBool false)] ;;
              mret (snd res)
      end
  end.

(** ** The service ([OrchestratorCommandService.execute]) *)

Inductive action := AStop | APause | AResume | AInject | AReview | AFeedback | ARebase | ARetry.

Definition run_action (x : action) (a : Args) : M K cexn Z :=
  match x with
  | AStop => run_stop a
  | APause => run_pause a
  | AResume => run_resume a
  | AInject => run_inject a
  | AReview => run_review a
  | AFeedback => run_feedback a
  | ARebase => run_rebase a
  | ARetry => run_retry a
  end.

(** The exit code; [None] when an exception reaches the caller. *)
Definition execute (x : action) (a : Args) (s : K) : option Z * K :=
  if negb (cm_ready O) then (Some 1, s)
  else match run_action x a (set_time 0 s) with
  | (Ret code, s1) => (Some code, s1)
  | (Raise Cancelled, s1) => (Some 124, s1)
  | (Raise (Exn e), s1) => (if cm_os_error O e || cm_value_error O e then Some 1 else None, s1)
  end.
End cli.
