(* ===== verification/IssueCliFacts.v ===== *)
(** * Facts about the issue commands

    A control file says to the daemon what the command meant; the hints file
    lists what was injected; a command in a process of its own leaves the
    daemon's memory alone, so that what it only writes to the registry file is
    lost; a retry reaches the daemon; stopping needs consent; an injection may
    leave the agent paused. *)

From S2P Require Import Prelude Errors Dag StageRunner Checkpoint Regex ClarResolver ImInbound ImInboundFacts Intent IssueRegistry RegistryFacts Kernel RetryQueue IssueProvider IssueProviderFacts Control ControlFacts IssueCli.

Open Scope string_scope.
Open Scope list_scope.
Open Scope Z_scope.

(** ** Text *)

Lemma rstrip_tail a b : rstrip (a +:+ b) = match rstrip b with EmptyString => rstrip a | t => a +:+ t end.
Proof.
  induction a as [|c a IH]; [change ("" +:+ b) with b; by destruct (rstrip b)|].
  change (rstrip (String c (a +:+ b)) = match rstrip b with EmptyString => rstrip (String c a) | t => String c a +:+ t end).
  cbn [rstrip]. rewrite IH. destruct (rstrip b) as [|d t] eqn:E; [done|].
  change (String c a +:+ String d t) with (String c (a +:+ String d t)).
  destruct (a +:+ String d t) eqn:F; [by destruct a|done].
Qed.

Lemma lstrip_rstrip s : lstrip (rstrip s) = rstrip (lstrip s).
Proof.
  induction s as [|c s IH]; [done|]. cbn [rstrip lstrip]. destruct (is_space c) eqn:Ec.
  - destruct (rstrip s) as [|d t] eqn:E; [by rewrite <- IH|]. cbn [lstrip]. by rewrite Ec, <- IH.
  - cbn [rstrip]. destruct (rstrip s); cbn [lstrip]; by rewrite Ec.
Qed.

Lemma strip_rstrip s : strip (rstrip s) = strip s.
Proof. unfold strip. by rewrite lstrip_rstrip, rstrip_idemp. Qed.

Lemma strip_token w : is_token w -> strip w = w.
Proof. intros H. unfold strip. destruct H as [Hn Hs]. rewrite <- (append_nil_r w), lstrip_token by done. rewrite append_nil_r. by apply rstrip_token. Qed.

Lemma rstrip_lf s : rstrip (s +:+ lf) = rstrip s.
Proof. by rewrite rstrip_tail. Qed.

Definition no_lf (s : string) : bool := negb (existsb (Ascii.eqb (Ascii.ascii_of_N 10)) (String.list_ascii_of_string s)).

Lemma split_no_lf a b : no_lf a = true -> split_lines_lf (a +:+ lf +:+ b) = a :: split_lines_lf b.
Proof.
  unfold no_lf, split_lines_lf. induction a as [|c a IH]; [done|].
  cbn [String.list_ascii_of_string existsb]. rewrite negb_orb, andb_true_iff. intros [Hc Ha].
  change (String c a +:+ lf +:+ b) with (String c (a +:+ lf +:+ b)). cbn [split_char].
  rewrite Ascii.eqb_sym, (proj1 (negb_true_iff _) Hc), (IH Ha). done.
Qed.

Lemma split_whole a : no_lf a = true -> split_lines_lf a = [a].
Proof.
  unfold no_lf, split_lines_lf. induction a as [|c a IH]; [done|].
  cbn [String.list_ascii_of_string existsb]. rewrite negb_orb, andb_true_iff. intros [Hc Ha].
  cbn [split_char]. rewrite Ascii.eqb_sym, (proj1 (negb_true_iff _) Hc), (IH Ha). done.
Qed.

Lemma split_not_nil s : split_lines_lf s <> [].
Proof. unfold split_lines_lf. induction s as [|c s IH]; [done|]. cbn [split_char]. destruct (Ascii.eqb _ _); [done|]. by destruct (split_char _ s). Qed.

Lemma concat_split s : String.concat lf (split_lines_lf s) = s.
Proof.
  induction s as [|c s IH]; [done|]. pose proof (split_not_nil s) as Hn. unfold split_lines_lf in *. cbn [split_char].
  destruct (Ascii.eqb_spec c (Ascii.ascii_of_N 10)) as [->|].
  - destruct (split_char _ s) as [|w ws]; [done|]. cbn [String.concat] in *. by rewrite IH.
  - destruct (split_char _ s) as [|w ws]; [done|]. destruct ws; cbn [String.concat] in *; rewrite <- IH; done.
Qed.

Lemma token_no_lf w : no_space w = true -> no_lf w = true.
Proof.
  unfold no_lf. induction w as [|c w IH]; [done|]. cbn [no_space String.list_ascii_of_string existsb].
  rewrite andb_true_iff. intros [Hc Hw]. rewrite negb_orb, (IH Hw), andb_true_r, negb_true_iff.
  apply Ascii.eqb_neq. intros <-. done.
Qed.

(** A control file says what the command wrote: the daemon reads back the
    command, the issue and the text without its surrounding blanks. *)
Theorem control_file_roundtrip cmd id extra :
  is_token cmd -> is_token id -> parse_control (control_payload cmd id extra) = (cmd, id, strip extra).
Proof.
  intros Hc Hi. pose proof Hc as [Hc1 Hc2]. pose proof Hi as [Hi1 Hi2]. unfold parse_control, control_payload.
  unfold strip at 1. rewrite lstrip_token by done. rewrite <- !append_assoc, rstrip_lf, rstrip_tail, !append_assoc.
  destruct (rstrip extra) as [|x t] eqn:E.
  - replace (cmd +:+ lf +:+ id +:+ lf) with ((cmd +:+ lf +:+ id) +:+ lf) by by rewrite !append_assoc.
    rewrite rstrip_lf, rstrip_tail. rewrite (rstrip_tail lf id), rstrip_token by done.
    destruct id as [|y id]; [done|].
    change (match lf +:+ String y id with EmptyString => rstrip cmd | String a0 s => cmd +:+ String a0 s end)
      with (cmd +:+ lf +:+ String y id).
    rewrite split_no_lf by by apply token_no_lf. rewrite split_whole by by apply token_no_lf.
    cbn [tl hd_error default]. rewrite !strip_token by done. rewrite <- (strip_rstrip extra), E. done.
  - rewrite !append_assoc. rewrite split_no_lf by by apply token_no_lf. rewrite split_no_lf by by apply token_no_lf.
    cbn [tl hd_error default]. rewrite concat_split, !strip_token by done. rewrite <- E, strip_rstrip. done.
Qed.

Create HintDb cli discriminated.

(** ** What a command leaves alone *)

Section frame.
Context {W : Type} (T : PollOps W) (C : ControlOps W) (O : CmdOps W).
Local Abbreviation K := (KState W).

(** Whatever its outcome, the command relates the states before and after. *)
Definition respects (R : K -> K -> Prop) {A} (m : M K cexn A) : Prop := forall s, R s (snd (m s)).

Context (R : K -> K -> Prop) `{!PreOrder R}.

Lemma respects_ret {A} (a : A) : respects R (mret a).
Proof. intros s. reflexivity. Qed.
Lemma respects_raise {A} e : respects R (raise e : M K cexn A).
Proof. intros s. reflexivity. Qed.
Lemma respects_get : respects R Prelude.get.
Proof. intros s. reflexivity. Qed.
Lemma respects_gets {A} (f : K -> A) : respects R (gets f).
Proof. intros s. reflexivity. Qed.
Lemma respects_open : respects R (open_registry O).
Proof. intros s. unfold open_registry. destruct (cm_attached O); [done|]. by destruct (IssueRegistry.load _). Qed.
Lemma respects_modify f : (forall s, R s (f s)) -> respects R (modify f).
Proof. intros H s. apply H. Qed.
Lemma respects_bind {A B} (m : M K cexn A) (f : A -> M K cexn B) :
  respects R m -> (forall a, respects R (f a)) -> respects R (m ≫= f).
Proof.
  intros Hm Hf s. specialize (Hm s). unfold mbind, M_bind. destruct (m s) as [[a|e] s1]; [|done].
  etrans; [exact Hm|]. apply Hf.
Qed.
Lemma respects_catching {A} (m h : M K cexn A) : respects R m -> respects R h -> respects R (catching m h).
Proof.
  intros Hm Hh s. specialize (Hm s). unfold catching. destruct (m s) as [[a|[e|]] s1]; [done| |done].
  etrans; [exact Hm|]. apply Hh.
Qed.
Lemma respects_os_error {A} (m h : M K cexn A) : respects R m -> respects R h -> respects R (on_os_error O m h).
Proof.
  intros Hm Hh s. specialize (Hm s). unfold on_os_error. destruct (m s) as [[a|[e|]] s1]; [done| |done].
  destruct (cm_os_error O e); [|done]. etrans; [exact Hm|]. apply Hh.
Qed.

(** Follow the shape of a command. *)
Ltac walk :=
  repeat
    match goal with
    | |- respects R (mret _) => apply respects_ret
    | |- respects R (raise _) => apply respects_raise
    | |- respects R Prelude.get => apply respects_get
    | |- respects R (gets _) => apply respects_gets
    | |- respects R (open_registry _) => apply respects_open
    | |- respects R (on_os_error _ _ _) => apply respects_os_error
    | |- respects R (catching _ _) => apply respects_catching
    | |- respects R (mbind _ _) => apply respects_bind; [|intros ?]
    | |- respects R (let x := _ in _) => cbv zeta
    | |- respects R (match ?x with _ => _ end) => destruct x
    | |- respects R _ => solve [auto with cli]
    end.

#[local] Hint Resolve respects_modify : cli.

(** What the world does, time, and what goes over a socket. *)
Hypothesis Hio : forall A (m : M W exn A), respects R (io m).
Hypothesis Htime : forall t s, R s (set_time t s).
Hypothesis Hsent : forall x s, R s (sent x s).

Lemma live_socket_respects id : respects R (live_socket O id).
Proof. unfold live_socket. walk. Qed.
#[local] Hint Resolve live_socket_respects : cli.
Lemma resolve_sock_respects id : respects R (resolve_sock_path O id).
Proof. unfold resolve_sock_path. walk. Qed.
#[local] Hint Resolve resolve_sock_respects : cli.
Lemma send_respects p c x : respects R (send O p c x).
Proof. unfold send. walk. Qed.
#[local] Hint Resolve send_respects : cli.
Lemma wait_until_respects q : respects R (wait_until O q).
Proof. intros s. unfold wait_until. destruct (cm_budget O); [destruct (qle _ _)|]; apply Htime. Qed.
#[local] Hint Resolve wait_until_respects : cli.
Lemma await_respects start timeout e reads : respects R (await_event O start timeout e reads).
Proof. induction reads as [|r reads IH]; cbn [await_event]; walk. Qed.
#[local] Hint Resolve await_respects : cli.
Lemma exchange_respects p c x e t : respects R (send_and_wait O p c x e t).
Proof. unfold send_and_wait. walk. Qed.
#[local] Hint Resolve exchange_respects : cli.
Lemma confirmed_respects x : respects R (confirmed O x).
Proof. unfold confirmed. walk. Qed.
#[local] Hint Resolve confirmed_respects : cli.
Lemma known_status_respects id : respects R (known_status O id).
Proof. unfold known_status. walk. Qed.
#[local] Hint Resolve known_status_respects : cli.
Lemma mirror_respects r id l : respects R (mirror_intent_label O r id l).
Proof. unfold mirror_intent_label. walk. Qed.
#[local] Hint Resolve mirror_respects : cli.
Lemma reopen_respects id rid : respects R (reopen O id rid).
Proof. unfold reopen. walk. Qed.
#[local] Hint Resolve reopen_respects : cli.

(** The audit log and the registry of a command. *)
Hypothesis Haudit : forall x s, R s (audited x s).
Lemma audit_respects id mode reason a extra : respects R (append_audit_log O id mode reason a extra).
Proof. unfold append_audit_log. walk. Qed.
#[local] Hint Resolve audit_respects : cli.

Hypothesis Hstore : forall g s, R s (store O g s).
Lemma mutate_respects f g : respects R (mutate T O f g).
Proof. intros s. apply Hstore. Qed.
#[local] Hint Resolve mutate_respects : cli.
Lemma register_respects id g : respects R (record_or_register T O id g).
Proof. unfold record_or_register. walk. Qed.
#[local] Hint Resolve register_respects : cli.
Lemma unblock_respects id rid g : respects R (retry_unblock T O id rid g).
Proof. unfold retry_unblock. walk. Qed.
#[local] Hint Resolve unblock_respects : cli.

(** The two commands that only edit the registry. *)
Lemma retry_unblock_respects a :
  a_mode a = Some "unblock" -> a_stop_first a = false -> respects R (run_retry T C O a).
Proof.
  intros Hm Hs. unfold run_retry, stop_before_retry. rewrite Hm, Hs.
  change (negb (mem "unblock" ["reset"; "followup"; "unblock"])) with false.
  change (String.eqb "unblock" "reset") with false. change (String.eqb "unblock" "followup") with false. cbn [andb]. walk.
Qed.
Lemma dismiss_respects a : a_dismiss a = true -> respects R (run_feedback T C O a).
Proof. intros Hd. unfold run_feedback. rewrite Hd. walk. Qed.

(** Hints, control files, and delivery outside the daemon. *)
Hypothesis Hhint : forall p c s, R s (set_hint_file p c s).
Lemma inject_hint_respects p h : respects R (inject_hint O p h).
Proof. unfold inject_hint. walk. Qed.
#[local] Hint Resolve inject_hint_respects : cli.
Lemma remove_hint_respects p n : respects R (remove_hint O p n).
Proof. unfold remove_hint. walk. Qed.
#[local] Hint Resolve remove_hint_respects : cli.

Hypothesis Hfile : forall n c s, R s (set_file n c s).
Hypothesis Hdetached : cm_attached O = false.
Lemma control_file_respects c id x : respects R (write_control_file O c id x).
Proof. unfold write_control_file. walk. Qed.
#[local] Hint Resolve control_file_respects : cli.
Lemma write_control_respects c id x : respects R (write_control T C O c id x).
Proof. unfold write_control. rewrite Hdetached. cbn [andb]. walk. Qed.
#[local] Hint Resolve write_control_respects : cli.

Lemma stop_respects a : respects R (run_stop T C O a).
Proof. unfold run_stop. walk. Qed.
#[local] Hint Resolve stop_respects : cli.
Lemma pause_respects a : respects R (run_pause T C O a).
Proof. unfold run_pause. walk. Qed.
#[local] Hint Resolve pause_respects : cli.
Lemma resume_respects a : respects R (run_resume T C O a).
Proof. unfold run_resume. walk. Qed.
#[local] Hint Resolve resume_respects : cli.
Lemma workspace_respects id : respects R (resolve_issue_workspace_path O id).
Proof. unfold resolve_issue_workspace_path, record_workspace. walk. Qed.
#[local] Hint Resolve workspace_respects : cli.
Lemma inject_respects a : respects R (run_inject O a).
Proof. unfold run_inject, do_inject, try_socket_inject. walk. Qed.
#[local] Hint Resolve inject_respects : cli.
Lemma review_respects a : respects R (run_review T C O a).
Proof. unfold run_review. walk. Qed.
#[local] Hint Resolve review_respects : cli.
Lemma feedback_respects a : respects R (run_feedback T C O a).
Proof. unfold run_feedback. walk. Qed.
#[local] Hint Resolve feedback_respects : cli.
Lemma rebase_respects a : respects R (run_rebase T C O a).
Proof. unfold run_rebase. walk. Qed.
#[local] Hint Resolve rebase_respects : cli.
Lemma retry_respects a : respects R (run_retry T C O a).
Proof. unfold run_retry, stop_before_retry, retry_reset, retry_followup. walk. Qed.
#[local] Hint Resolve retry_respects : cli.

Lemma execute_respects x a s : R s (snd (execute T C O x a s)).
Proof.
  unfold execute. destruct (cm_ready O); [|done]. cbn [negb].
  assert (H : respects R (run_action T C O x a)).
  { destruct x; [apply stop_respects|apply pause_respects|apply resume_respects|apply inject_respects
    |apply review_respects|apply feedback_respects|apply rebase_respects|apply retry_respects]. }
  specialize (H (set_time 0 s)). destruct (run_action _ _ _ _ _ _) as [[c|[e|]] s1]; (etrans; [apply Htime|exact H]).
Qed.
End frame.

(** ** Commands in a process of their own *)

Section detached.
Context {W : Type} (T : PollOps W) (C : ControlOps W) (O : CmdOps W).
Local Abbreviation K := (KState W).

Definition same_on {B} (f : K -> B) (s s' : K) : Prop := f s' = f s.

#[global] Instance same_on_preorder {B} (f : K -> B) : PreOrder (same_on f).
Proof. split; [done|]. intros x y z Hxy Hyz. unfold same_on in *. by rewrite Hyz. Qed.

(** What the daemon has in memory. *)
Definition memory (s : K) :=
  let d := k_daemon s in
  let o := corch d in
  (records (dreg s), (oc_running o, oc_completed o, oc_claimed o), (oc_retry_queue o, oc_retry_attempts o),
   p_pending_review (c_poll d), (c_queue d, c_sessions d, c_tasks d)).

Definition control_files (s : K) : dict string CtlFile := c_files (k_daemon s).

Lemma io_memory A (m : M W exn A) : respects (same_on memory) (io m).
Proof. intros s. unfold io. destruct (m (world s)) as [[a|e] w]; done. Qed.

Lemma io_files A (m : M W exn A) : respects (same_on control_files) (io m).
Proof. intros s. unfold io. destruct (m (world s)) as [[a|e] w]; done. Qed.

Lemma store_memory g s : cm_attached O = false -> same_on memory s (store O g s).
Proof. intros H. unfold store. by rewrite H. Qed.

Lemma store_files g s : same_on control_files s (store O g s).
Proof. unfold store. by destruct (cm_attached O). Qed.

Lemma detached_memory x a s : cm_attached O = false -> memory (snd (execute T C O x a s)) = memory s.
Proof.
  intros H. apply (execute_respects T C O (same_on memory)); try done; [apply io_memory|].
  intros g s'. by apply store_memory.
Qed.

(** The two commands leave no control file behind. *)
Definition edits_only (x : action) (a : Args) : Prop :=
  (x = ARetry /\ a_mode a = Some "unblock" /\ a_stop_first a = false) \/ (x = AFeedback /\ a_dismiss a = true).

Lemma edits_only_files x a s : edits_only x a -> control_files (snd (execute T C O x a s)) = control_files s.
Proof.
  intros Hx. assert (H : respects (same_on control_files) (run_action T C O x a)).
  { destruct Hx as [(-> & Hm & Hs)|(-> & Hd)]; [apply (retry_unblock_respects T C O _)|apply (dismiss_respects T C O _)]; try done;
      try apply io_files; apply store_files. }
  unfold execute. destruct (cm_ready O); [|done]. specialize (H (set_time 0 s)).
  by destruct (run_action _ _ _ _ _ _) as [[c|[e|]] s1].
Qed.
End detached.

(** An issue that is unblocked, or whose feedback is dismissed, by a command
    outside the daemon stays as it was for the daemon: its memory does not
    change, no control file tells it, and its next save writes the old records
    over the file that the command edited. *)
Theorem detached_edit_lost {W} (T : PollOps W) (C : ControlOps W) (O : CmdOps W) x a s code s' t :
  cm_attached O = false -> edits_only x a -> execute T C O x a s = (Some code, s') -> io_ok t = true ->
  memory s' = memory s /\ control_files s' = control_files s
  /\ disk (IssueRegistry.save t (dreg s')) = Some (records (dreg s)).
Proof.
  intros Hd Hx He Ht. pose proof (detached_memory T C O x a s Hd) as Hm. pose proof (edits_only_files T C O x a s Hx) as Hf.
  rewrite He in Hm, Hf. split; [done|]. split; [done|]. unfold IssueRegistry.save. rewrite Ht. simpl.
  f_equal. by injection Hm.
Qed.

(** ** Delivery *)

Section delivery.
Context {W : Type} (T : PollOps W) (C : ControlOps W) (O : CmdOps W).
Local Abbreviation K := (KState W).

Lemma io_ret {A} (m : M W exn A) a (s s' : K) :
  io m s = (Ret a, s') -> k_sent s' = k_sent s /\ c_files (k_daemon s') = c_files (k_daemon s).
Proof. unfold io. destruct (m (world s)) as [[x|e] w]; intros [= <- <-]; done. Qed.

Lemma catching_ret {A} (m h : M K cexn A) a (s s' : K) :
  catching m h s = (Ret a, s') -> m s = (Ret a, s') \/ exists e s1, m s = (Raise (Exn e), s1) /\ h s1 = (Ret a, s').
Proof. unfold catching. destruct (m s) as [[x|[e|]] s1]; [by left| |by left]. intros H. right. eauto. Qed.

Lemma control_file_ret c id x (s s' : K) :
  write_control_file O c id x s = (Ret 0, s') ->
  dget (control_name c id) (c_files (k_daemon s')) = Some (Some (control_payload c id x)).
Proof.
  intros (u & s1 & _ & H)%bind_returns. apply catching_ret in H as [H|(e & s2 & _ & [=])].
  apply bind_returns in H as (u2 & s2 & _ & H). apply bind_returns in H as (u3 & s3 & [= <- <-] & [= <-]).
  apply dget_dset_eq.
Qed.
End delivery.

(** A command that reports success was delivered: the daemon applied it, or it
    was written to the run's control socket, or the control directory holds a
    file with it. *)
Theorem delivered {W} (T : PollOps W) (C : ControlOps W) (O : CmdOps W) c id x (s s' : KState W) :
  write_control T C O c id x s = (Ret 0, s') ->
  (cm_attached O = true
   /\ exists target, target ∈ oc_running (corch (k_daemon s))
      /\ k_daemon s' = apply_control_command T C c target x (k_daemon s))
  \/ (exists p, (p, c, x) ∈ k_sent s')
  \/ dget (control_name c id) (c_files (k_daemon s')) = Some (Some (control_payload c id x)).
Proof.
  unfold write_control. destruct (cm_attached O && socket_command c) eqn:E.
  - apply andb_true_iff in E as [Ha _]. intros (s0 & s1 & [= <- <-] & H)%bind_returns.
    destruct (mem _ _) eqn:Em; [|done]. cbn [negb] in H. apply bind_returns in H as (u & s2 & [= <- <-] & [= <-]).
    left. split; [done|]. eexists. split; [by apply mem_true|]. done.
  - intros (b & s1 & Hs & H)%bind_returns. destruct b; [|right; right; by eapply control_file_ret].
    injection H as <-. right. left. destruct (socket_command c); [|done].
    apply catching_ret in Hs as [Hs|(e & s2 & _ & [=])]. apply bind_returns in Hs as (p & s2 & _ & Hs).
    destruct p as [p|]; [|done]. apply bind_returns in Hs as (rs & s3 & Hp & [= <-]).
    apply bind_returns in Hp as (rs' & s4 & _ & Hp). apply bind_returns in Hp as (u & s5 & [= <- <-] & [= <- <-]).
    exists p. simpl. set_solver.
Qed.

(** ** A retry *)

Section retry.
Context {W : Type} (T : PollOps W) (C : ControlOps W) (O : CmdOps W) (cfg : PollConfig).
Local Abbreviation K := (KState W).

Lemma audit_files id mode reason a extra (s : K) :
  c_files (k_daemon (snd (append_audit_log O id mode reason a extra s))) = c_files (k_daemon s).
Proof. apply (audit_respects O (same_on control_files)); [apply io_files|done]. Qed.

(** What a detached reset leaves in the control directory. *)
Lemma reset_file a id g r (s s' : K) :
  cm_attached O = false -> given (a_id a) = Some id -> a_mode a = Some "reset" ->
  fst (open_registry O s) = Ret g -> get_by_issue_ref id g = Some r -> run_retry T C O a s = (Ret 0, s') ->
  dget (control_name "retry" (issue_id r)) (c_files (k_daemon s'))
  = Some (Some (control_payload "retry" (issue_id r) (or_empty (a_reason a)))).
Proof.
  intros Hd Hid Hm Hg Hr. unfold run_retry. rewrite Hid, Hm.
  change (negb (mem "reset" ["reset"; "followup"; "unblock"])) with false. cbv zeta iota.
  intros (s0 & s1 & [= <- <-] & H)%bind_returns. destruct (registry_exists s); [|done]. cbn [negb] in H.
  apply bind_returns in H as (g' & s2 & Hopen & H).
  assert (g' = g) as -> by (rewrite Hopen in Hg; by injection Hg).
  apply bind_returns in H as (u & s3 & _ & H). apply bind_returns in H as ([g2 rid] & s4 & Hreg & H).
  apply bind_returns in Hreg as (s5 & s6 & [= <- <-] & Hreg). unfold current in Hreg. rewrite Hd, Hr in Hreg.
  injection Hreg as <- <- <-. change (String.eqb "reset" "reset") with true in H. cbn [fst snd] in H.
  apply bind_returns in H as ([g3 rc] & s7 & Hreset & H). cbn [fst snd] in H.
  apply bind_returns in H as (u2 & s8 & Haudit & [= -> <-]).
  match type of Haudit with append_audit_log _ _ _ _ _ ?extra _ = _ =>
    pose proof (audit_files id "reset" (or_empty (a_reason a)) a extra s7) as Hf end.
  rewrite Haudit in Hf. cbn [snd] in Hf.
  rewrite Hf. unfold retry_reset in Hreset. apply bind_returns in Hreset as (x1 & y1 & _ & Hreset).
  apply bind_returns in Hreset as (x2 & y2 & _ & Hreset). apply bind_returns in Hreset as (x3 & y3 & _ & Hreset).
  apply bind_returns in Hreset as (x4 & y4 & _ & Hreset). apply bind_returns in Hreset as (x5 & y5 & Hw & [= -> -> <-]).
  unfold write_control in Hw. rewrite Hd in Hw. cbn [andb] in Hw. change (socket_command "retry") with false in Hw.
  apply bind_returns in Hw as (b & y6 & [= <- <-] & Hw). by eapply control_file_ret.
Qed.

(** A retry file that the daemon processes. *)
Lemma retry_file_processed rid reason r (d : CState W) :
  is_token rid -> IssueRegistry.get rid (creg d) = Some r ->
  dget (control_name "retry" rid) (c_files d) = Some (Some (control_payload "retry" rid reason)) ->
  exists d', process_control_file T C cfg (control_name "retry" rid) d = (Ret tt, d')
    /\ corch d' = corch (handle_retry_control T C rid (strip reason) d).
Proof.
  intros Hid Hr Hf. unfold process_control_file. rewrite Hf.
  set (content := control_payload _ _ _). cbn. subst content.
  rewrite control_file_roundtrip by (try done; by split). unfold run_command.
  change (String.eqb "retry" "review_followup") with false. change (String.eqb "retry" "rebase") with false.
  change (String.eqb "retry" "review_approve") with false. change (String.eqb "retry" "review_retry") with false.
  change (String.eqb "retry" "retry") with true. cbv iota.
  eexists. split; [reflexivity|]. set (d1 := handle_retry_control _ _ _ _ _). unfold unlink, polling, outside.
  by destruct (co_unlink C _ _) as [[u|e] w].
Qed.
End retry.

(** A reset that reports success outside the daemon reaches it: the daemon
    finds the control file, resets its own record of the issue with the reason
    given, and takes the issue out of the sets that keep a poll from it. *)
Theorem retry_reaches_daemon {W} (T : PollOps W) (C : ControlOps W) (O : CmdOps W) (cfg : PollConfig) a id g r r0 s s' :
  cm_attached O = false -> given (a_id a) = Some id -> a_mode a = Some "reset" ->
  fst (open_registry O s) = Ret g -> get_by_issue_ref id g = Some r -> is_token (issue_id r) ->
  IssueRegistry.get (issue_id r) (dreg s) = Some r0 -> execute T C O ARetry a s = (Some 0, s') ->
  let reason := strip (or_empty (a_reason a)) in
  exists d t, process_control_file T C cfg (control_name "retry" (issue_id r)) (k_daemon s') = (Ret tt, d)
    /\ IssueRegistry.get (issue_id r) (creg d)
       = Some (touch t (requeued IRetry true (Some ("cli:reset:" +:+ take_str 64 reason)) r0))
    /\ issue_id r ∉ oc_completed (corch d) /\ issue_id r ∉ oc_claimed (corch d).
Proof.
  intros Hd Hid Hm Hg Hr Htok Hr0 He reason. pose proof (detached_memory T C O ARetry a s Hd) as Hmem. rewrite He in Hmem.
  unfold execute in He. destruct (cm_ready O); [|done]. cbn [negb run_action] in He.
  destruct (run_retry T C O a (set_time 0 s)) as [[c|[e|]] s1] eqn:Hrun; [|by destruct (_ || _)|done].
  injection He as -> <-. assert (Hg' : fst (open_registry O (set_time 0 s)) = Ret g).
  { rewrite <- Hg. unfold open_registry. rewrite Hd. change (dreg (set_time 0 s)) with (dreg s). by destruct (IssueRegistry.load _). }
  pose proof (reset_file T C O a id g r _ _ Hd Hid Hm Hg' Hr Hrun) as Hfile.
  assert (Hr1 : IssueRegistry.get (issue_id r) (creg (k_daemon s1)) = Some r0).
  { rewrite <- Hr0. unfold IssueRegistry.get. f_equal. by injection Hmem. }
  destruct (retry_file_processed T C cfg _ _ _ _ Htok Hr1 Hfile) as (d & Hd' & Ho).
  destruct (retry_control_spec T C (issue_id r) reason r0 (k_daemon s1) Hr1 (proj1 Htok)) as [[t Hown] _ _ Hfree].
  exists d, t. split; [done|]. assert (Hcreg : creg d = creg (handle_retry_control T C (issue_id r) reason (k_daemon s1))).
  { unfold creg, reg. unfold corch in Ho. by rewrite Ho. }
  rewrite Hcreg, Ho. split; [done|]. destruct Hfree as [H1 H2 H3 H4]. done.
Qed.

(** ** Stopping needs consent *)

Section consent.
Context {W : Type} (T : PollOps W) (C : ControlOps W) (O : CmdOps W).
Local Abbreviation K := (KState W).

(** The operator never answers yes. *)
Definition never_agrees : Prop :=
  forall p w, match fst (cm_confirm O p w) with
              | Ret (Some x) => mem (lower (strip x)) ["y"; "yes"] = false
              | _ => True
              end.

(** Everything but the world and the clock. *)
Definition effects (s : K) := (memory s, control_files s, k_hints s, k_sent s, k_audit s).

Lemma io_effects A (m : M W exn A) : respects (same_on effects) (io m).
Proof. intros s. unfold io. destruct (m (world s)) as [[a|e] w]; done. Qed.

Lemma not_confirmed p (s : K) b s' : never_agrees -> confirmed O p s = (Ret b, s') -> b = false.
Proof.
  intros Hn (x & s1 & Hx & [= <- <-])%bind_returns. unfold io in Hx. specialize (Hn p (world s)).
  destruct (cm_confirm O p (world s)) as [[y|e] w]; [|done]. injection Hx as -> <-. cbn [fst] in Hn. by destruct x.
Qed.

(** A sequence whose first part ends the command when it says no. *)
Lemma ask_effects {A} p (k : bool -> M K cexn A) :
  never_agrees -> respects (same_on effects) (k false) -> respects (same_on effects) (confirmed O p ≫= k).
Proof.
  intros Hn Hk s. pose proof (confirmed_respects O (same_on effects) io_effects p s) as Hc.
  unfold mbind, M_bind. destruct (confirmed O p s) as [[b|e] s1] eqn:E; [|done].
  apply not_confirmed in E as ->; [|done]. etrans; [exact Hc|apply Hk].
Qed.
End consent.

(** Without [--yes], and with an operator who does not answer yes, a stop has no
    effect: nothing is sent, no file is written, the daemon is as it was. *)
Theorem stop_needs_consent {W} (T : PollOps W) (C : ControlOps W) (O : CmdOps W) a (s : KState W) :
  a_yes a = false -> never_agrees O -> effects (snd (execute T C O AStop a s)) = effects s.
Proof.
  intros Hy Hn. unfold execute. destruct (cm_ready O); [|done]. cbn [negb run_action].
  assert (H : respects (same_on effects) (run_stop T C O a)).
  { unfold run_stop. rewrite Hy. destruct (given (a_id a)) as [id|]; [|intros ?; reflexivity].
    apply (respects_bind _); [apply (known_status_respects O _)|]. intros st.
    destruct st as [st|]; [destruct (bool_decide (st = RUNNING))|]; cbn [orb].
    - apply (ask_effects O _ _ Hn). intros ?. reflexivity.
    - apply (ask_effects O _ _ Hn). intros ?. reflexivity.
    - apply (ask_effects O _ _ Hn). intros ?. reflexivity. }
  specialize (H (set_time 0 s)). by destruct (run_stop _ _ _ _ _) as [[c|[e|]] s1].
Qed.

(** ** Injection *)

Section injection.
Context {W : Type} (O : CmdOps W).
Local Abbreviation K := (KState W).

(** Every connection succeeds, and nothing is ever read from it. *)
Definition silent (w0 : W -> W) : Prop := forall p c x w, cm_connect O p c x w = (Ret [], w0 w).

Lemma silent_send w0 p c x (s : K) :
  silent w0 -> exists s1, send O p c x s = (Ret [], s1) /\ k_sent s1 = k_sent s ++ [(p, c, x)] /\ k_now s1 = k_now s.
Proof. intros Hs. unfold send, io, mbind, M_bind. rewrite Hs. eexists. by split. Qed.

(** An exchange with a silent agent: its time passes, unless the budget ends. *)
Lemma silent_exchange w0 p c x e t (s : K) :
  silent w0 -> (0 < t)%Q ->
  exists s1, k_sent s1 = k_sent s ++ [(p, c, x)]
    /\ match cm_budget O with
       | Some b => if qle b (k_now s + t) then send_and_wait O p c x e t s = (Raise Cancelled, s1)
                   else send_and_wait O p c x e t s = (Ret None, s1) /\ k_now s1 = (k_now s + t)%Q
       | None => send_and_wait O p c x e t s = (Ret None, s1) /\ k_now s1 = (k_now s + t)%Q
       end.
Proof.
  intros Hs Ht. destruct (silent_send w0 p c x s Hs) as (s1 & H1 & H2 & H3).
  assert (H : send_and_wait O p c x e t s = (wait_until O (k_now s + t) ≫= fun _ => mret None) s1).
  { unfold send_and_wait, mbind, M_bind. rewrite H1. unfold gets. rewrite H3. cbn [await_event].
    unfold mbind, M_bind, Prelude.get. rewrite H3.
    destruct (qle (t - (k_now s - k_now s)) 0) eqn:E; [qsimp; lra|]. done. }
  rewrite H. unfold mbind, M_bind, wait_until. destruct (cm_budget O) as [b|]; [destruct (qle b (k_now s + t))|].
  - exists (set_time b s1). by split.
  - exists (set_time (k_now s + t) s1). by split.
  - exists (set_time (k_now s + t) s1). by split.
Qed.
End injection.

(** Under the gateway's budget of a minute, a hint for an agent that answers
    nothing leaves the agent paused: the pause and the hint are sent, the command
    is cut off before the resume, and the exit code is that of a timeout. *)
Theorem inject_leaves_paused {W} (O : CmdOps W) w0 path file hint (s : KState W) :
  silent O w0 -> cm_budget O = Some 60%Q -> k_now s = 0%Q ->
  exists s', do_inject O path file hint s = (Raise Cancelled, s')
    /\ k_sent s' = k_sent s ++ [(path, "pause", ""); (path, "inject", hint)].
Proof.
  intros Hs Hb Hn. unfold do_inject.
  destruct (silent_exchange O w0 path "pause" "" "Paused" 30 s Hs) as (s1 & H1 & H2); [done|].
  rewrite Hb, Hn in H2. change (qle 60 (0 + 30)%Q) with false in H2. destruct H2 as [H2 H2'].
  destruct (silent_exchange O w0 path "inject" hint "InjectDelivered" 30 s1 Hs) as (s2 & H3 & H4); [done|].
  rewrite Hb, H2' in H4. change (qle 60 (0 + 30 + 30)%Q) with true in H4.
  exists s2. split; [|by rewrite H3, H1, <- app_assoc].
  unfold on_os_error, mbind, M_bind. rewrite H2. cbn. by rewrite H4.
Qed.

(** With no budget, an injection over a socket that can be connected to always
    ends with the agent told to resume, whether it answers or not. *)
Theorem inject_resumes {W} (O : CmdOps W) w0 path file hint (s : KState W) :
  silent O w0 -> cm_budget O = None ->
  exists s', do_inject O path file hint s = (Ret 0, s')
    /\ k_sent s' = k_sent s ++ [(path, "pause", ""); (path, "inject", hint); (path, "resume", "")].
Proof.
  intros Hs Hb. unfold do_inject.
  destruct (silent_exchange O w0 path "pause" "" "Paused" 30 s Hs) as (s1 & H1 & H2); [done|].
  destruct (silent_exchange O w0 path "inject" hint "InjectDelivered" 30 s1 Hs) as (s2 & H3 & H4); [done|].
  destruct (silent_exchange O w0 path "resume" "" "Resumed" 30 s2 Hs) as (s3 & H5 & H6); [done|].
  rewrite Hb in H2, H4, H6. destruct H2 as [H2 _], H4 as [H4 _], H6 as [H6 _].
  exists s3. split; [|by rewrite H5, H3, H1, <- !app_assoc].
  unfold on_os_error, mbind, M_bind. rewrite H2. cbn. rewrite H4. cbn. by rewrite H6.
Qed.

(** A pause that waits for its confirmation fails on the socket of a dead run:
    the exit code is 1 and no control file is written, although the issue's
    delivery has one to fall back on. *)
Theorem stale_socket_not_paused {W} (T : PollOps W) (C : ControlOps W) (O : CmdOps W) a id path (s : KState W) :
  given (a_id a) = Some id -> a_no_wait a = false -> cm_ready O = true ->
  fst (resolve_sock_path O id (set_time 0 s)) = Ret (Some path) ->
  (forall p c x w, exists e, fst (cm_connect O p c x w) = Raise e /\ cm_os_error O e = true) ->
  exists s', execute T C O APause a s = (Some 1, s') /\ effects s' = effects s.
Proof.
  intros Hid Hw Hr Hp Hc. unfold execute, run_action, run_pause. rewrite Hr, Hid, Hw. cbn [negb].
  pose proof (resolve_sock_respects O (same_on effects) id (set_time 0 s)) as He.
  unfold mbind at 1, M_bind at 1. destruct (resolve_sock_path O id (set_time 0 s)) as [[x|e] s1]; [|done].
  injection Hp as ->. cbn [snd] in He. unfold mbind, M_bind, send_and_wait, send, io.
  destruct (Hc path "pause" (default "operator requested pause" (given (a_reason a))) (world s1)) as (e & Hx & Ho).
  unfold mbind, M_bind. destruct (cm_connect O path "pause" _ (world s1)) as [r w]. cbn [fst] in Hx. subst r. rewrite Ho.
  eexists. split; [done|]. exact He.
Qed.

(** ** The hints file *)

Lemma prefix_self p s : String.prefix p (p +:+ s) = true.
Proof. induction p as [|c p IH]; [by destruct s|]. change (String c p +:+ s) with (String c (p +:+ s)). cbn. by destruct (Ascii.ascii_dec c c). Qed.

Lemma no_lf_app a b : no_lf (a +:+ b) = no_lf a && no_lf b.
Proof.
  unfold no_lf. induction a as [|c a IH]; [done|]. change (String c a +:+ b) with (String c (a +:+ b)).
  cbn [String.list_ascii_of_string existsb]. rewrite !negb_orb, IH. by rewrite andb_assoc.
Qed.

Lemma no_lf_uint d : no_lf (DecimalString.NilEmpty.string_of_uint d) = true.
Proof. induction d; cbn; unfold no_lf in *; cbn; try done; by rewrite <- IHd. Qed.

Lemma no_lf_int z : no_lf (str_int z) = true.
Proof.
  unfold str_int, DecimalString.NilZero.string_of_int, DecimalString.NilZero.string_of_uint.
  destruct (Z.to_int z) as [u|u]; destruct u; try done; apply no_lf_uint.
Qed.

Lemma split_app a b : split_lines_lf (a +:+ lf +:+ b) = split_lines_lf a ++ split_lines_lf b.
Proof.
  unfold split_lines_lf. induction a as [|c a IH]; [done|]. change (String c a +:+ lf +:+ b) with (String c (a +:+ lf +:+ b)).
  cbn [split_char]. rewrite IH. destruct (Ascii.eqb _ _); [done|].
  pose proof (split_not_nil a) as Hn. unfold split_lines_lf in Hn. by destruct (split_char _ a).
Qed.

(** A hint that the file keeps as it is: without blanks around it, not empty, and
    without a line that looks like the separator. *)
Definition clean (h : string) : Prop :=
  strip h = h /\ h <> "" /\ Forall (fun l => String.prefix (dashes 45) (strip l) = false) (split_lines_lf h).

(** The blocks of a file: number, time and text. *)
Fixpoint blocks (bs : list (Z * string * string)) : string :=
  match bs with
  | [] => ""
  | (n, stamp, h) :: bs => hint_block n stamp h +:+ blocks bs
  end.

Definition block_ok (b : Z * string * string) : Prop := no_lf (snd (fst b)) = true /\ clean (snd b).

Lemma blocks_app bs bs' : blocks (bs ++ bs') = blocks bs +:+ blocks bs'.
Proof. induction bs as [|[[n st] h] bs IH]; [done|]. cbn [app blocks]. by rewrite IH, append_assoc. Qed.

Lemma body_clean ls rest :
  Forall (fun l => String.prefix (dashes 45) (strip l) = false) ls -> hint_body (ls ++ separator :: rest) = (ls, rest).
Proof. intros H. induction H as [|l ls Hl H IH]; [done|]. cbn [app hint_body]. by rewrite Hl, IH. Qed.

Definition header (n : Z) (stamp : string) : string := HINT_PREFIX +:+ str_int n +:+ " (injected at " +:+ stamp +:+ ") ---".

Lemma header_no_lf n stamp : no_lf stamp = true -> no_lf (header n stamp) = true.
Proof. intros H. unfold header. rewrite !no_lf_app, no_lf_int, H. done. Qed.

Lemma header_stripped n stamp : String.prefix HINT_PREFIX (strip (header n stamp)) = true.
Proof.
  unfold header. rewrite <- !append_assoc. unfold strip.
  assert (Hl : forall x, lstrip (HINT_PREFIX +:+ x) = HINT_PREFIX +:+ x) by done.
  rewrite !append_assoc, Hl, <- !append_assoc, rstrip_tail.
  change (rstrip ") ---") with ") ---". cbv iota. rewrite !append_assoc. apply prefix_self.
Qed.

Lemma block_lines n st h rest :
  no_lf st = true ->
  split_lines_lf (hint_block n st h +:+ rest) = header n st :: split_lines_lf h ++ separator :: split_lines_lf rest.
Proof.
  intros H. assert (E : hint_block n st h +:+ rest = header n st +:+ lf +:+ h +:+ lf +:+ separator +:+ lf +:+ rest).
  { unfold hint_block, header. by rewrite !append_assoc. }
  rewrite E, (split_no_lf (header n st)) by by apply header_no_lf. rewrite (split_app h).
  by rewrite (split_no_lf separator).
Qed.

Section hints.
Context {W : Type} (O : CmdOps W).
Local Abbreviation K := (KState W).

Lemma parse_blocks fuel now bs :
  Forall block_ok bs -> (length (split_lines_lf (blocks bs)) <= fuel)%nat ->
  map snd (parse_lines O fuel now (split_lines_lf (blocks bs))) = map snd bs.
Proof.
  intros H. revert fuel. induction H as [|[[n st] h] bs [Hst (Hs & Hne & Hl)] H IH]; intros fuel Hf.
  - destruct fuel as [|[|fuel]]; done.
  - cbn [blocks fst snd] in *. rewrite block_lines in * by done. destruct fuel as [|fuel]; [cbn in Hf; lia|]. cbn [parse_lines].
    rewrite header_stripped, body_clean, concat_split, Hs by done.
    destruct (String.eqb_spec h "") as [|_]; [done|]. cbn [app map snd]. f_equal. apply IH.
    cbn [length] in Hf. rewrite length_app in Hf. cbn [length] in Hf. lia.
Qed.

Definition texts (path : string) (s : K) : list string := map snd (hints_of O path s).

(** The file of the path is made of such blocks, with these texts. *)
Definition hints_file (path : string) (s : K) (ts : list string) : Prop :=
  exists bs, Forall block_ok bs /\ default "" (dget path (k_hints s)) = blocks bs /\ map snd bs = ts.

Lemma hints_file_texts path s ts : hints_file path s ts -> texts path s = ts.
Proof.
  intros (bs & Hok & Hb & <-). unfold texts, hints_of. destruct (dget path (k_hints s)) as [c|]; simpl in Hb.
  - subst c. unfold parse_hints. by apply parse_blocks.
  - destruct bs as [|[[n st] h] bs]; [done|]. exfalso. by destruct (blocks bs).
Qed.

Lemma hints_file_all_clean path (s : K) ts h : hints_file path s ts -> h ∈ ts -> clean h.
Proof.
  intros (bs & Hok & _ & <-) (b & -> & Hb)%list_elem_of_fmap. rewrite Forall_forall in Hok. by destruct (Hok b Hb).
Qed.

Lemma hints_file_clean path (s : K) ts h : hints_file path s ts -> h ∈ ts -> strip h = h.
Proof. intros Hf Hh. by destruct (hints_file_all_clean path s ts h Hf Hh). Qed.

Lemma io_hints {A} (m : M W exn A) a (s s' : K) : io m s = (Ret a, s') -> k_hints s' = k_hints s.
Proof. unfold io. destruct (m (world s)) as [[x|e] w]; intros [= <- <-]; done. Qed.

Lemma render_blocks n hints : exists bs, render_hints O n hints = blocks bs /\ map snd bs = map snd hints
  /\ Forall (fun b => exists q, snd (fst b) = cm_strftime O q) bs.
Proof.
  revert n. induction hints as [|[q h] hints IH]; intros n; [by exists []|].
  destruct (IH (n + 1)) as (bs & Hb & Hs & Hf). exists ((n, cm_strftime O q, h) :: bs). cbn. rewrite Hb, Hs.
  split; [done|]. split; [done|]. constructor; [by exists q|done].
Qed.
End hints.

(** The hints file lists what was injected: a clean hint is added at the end of
    the list, or was in it already and the file stays as it is. *)
Theorem injected_listed {W} (O : CmdOps W) path hint ts (s s' : KState W) :
  (forall q, no_lf (cm_strftime O q) = true) -> hints_file path s ts -> clean hint ->
  inject_hint O path hint s = (Ret 0, s') ->
  (hint ∈ ts /\ s' = s) \/ (hints_file path s' (ts ++ [hint]) /\ texts O path s' = ts ++ [hint]).
Proof.
  intros Hst Hf Hc. pose proof (hints_file_texts O _ _ _ Hf) as Ht. unfold inject_hint.
  intros (s0 & s1 & [= <- <-] & H)%bind_returns. destruct (existsb _ _) eqn:E.
  - injection H as <-. left. split; [|done]. apply existsb_exists in E as ([q h] & Hin & Heq%String.eqb_eq).
    assert (Hin' : h ∈ ts) by (rewrite <- Ht; apply list_elem_of_fmap; exists (q, h); by rewrite list_elem_of_In).
    cbn [snd] in Heq. rewrite (hints_file_clean _ _ _ _ Hf Hin'), (proj1 Hc) in Heq. by subst h.
  - right. apply catching_ret in H as [H|(e & s2 & _ & [=])]. apply bind_returns in H as (u & s2 & Hio & H).
    apply bind_returns in H as (u2 & s3 & [= <- <-] & [= <-]). apply io_hints in Hio.
    assert (Hf' : hints_file path (set_hint_file path (default "" (dget path (k_hints s2)) +:+ hint_block
        (Z.of_nat (length (hints_of O path s)) + 1) (cm_strftime O (cm_wall O (world s))) hint) s2) (ts ++ [hint])).
    { destruct Hf as (bs & Hok & Hb & <-). eexists (bs ++ [(_, _, hint)]). split; [|split].
      - apply Forall_app. split; [done|]. constructor; [|done]. split; [apply Hst|done].
      - cbn. rewrite dget_dset_eq, blocks_app, Hio, Hb. cbn. by rewrite append_nil_r.
      - by rewrite map_app. }
    split; [exact Hf'|]. by apply hints_file_texts.
Qed.

(** Removing a hint by its number leaves the others, in their order. *)
Theorem removed_unlisted {W} (O : CmdOps W) path n ts (s s' : KState W) :
  (forall q, no_lf (cm_strftime O q) = true) -> hints_file path s ts ->
  remove_hint O path n s = (Ret 0, s') ->
  1 <= n <= Z.of_nat (length ts) /\ texts O path s' = delete (Z.to_nat (n - 1)) ts
  /\ hints_file path s' (delete (Z.to_nat (n - 1)) ts).
Proof.
  intros Hst Hf. pose proof (hints_file_texts O _ _ _ Hf) as Ht. unfold remove_hint.
  intros (s0 & s1 & [= <- <-] & H)%bind_returns. destruct (_ || _) eqn:E; [done|].
  apply orb_false_iff in E as [E1%Z.ltb_ge E2%Z.ltb_ge].
  assert (Hl : length (hints_of O path s) = length ts) by (rewrite <- Ht; symmetry; apply length_map).
  apply bind_returns in H as (u & s2 & Hio & H). apply bind_returns in H as (u2 & s3 & [= <- <-] & [= <-]).
  destruct (render_blocks O 1 (delete (Z.to_nat (n - 1)) (hints_of O path s))) as (bs & Hb & Hs & Hq).
  assert (Hd : map snd (delete (Z.to_nat (n - 1)) (hints_of O path s)) = delete (Z.to_nat (n - 1)) ts).
  { rewrite <- Ht. apply list_fmap_delete. }
  assert (Hf' : hints_file path (set_hint_file path (render_hints O 1 (delete (Z.to_nat (n - 1)) (hints_of O path s))) s2)
                  (delete (Z.to_nat (n - 1)) ts)).
  { exists bs. split; [|split; [|by rewrite Hs]]; [|cbn; by rewrite dget_dset_eq].
    apply Forall_forall. intros b Hbin. split.
    - rewrite Forall_forall in Hq. destruct (Hq b Hbin) as [q ->]. apply Hst.
    - apply (hints_file_all_clean path s ts); [done|]. assert (Hm : snd b ∈ delete (Z.to_nat (n - 1)) ts).
      { rewrite <- Hd, <- Hs. by apply list_elem_of_fmap_2. }
      by eapply list_elem_of_delete_inv. }
  split; [lia|]. split; [by apply hints_file_texts|exact Hf'].
Qed.

(** ** Witnesses *)

Definition args (id : string) : Args :=
  mkArgs (Some id) false false None None None false None false false None None false false [] false None None None false.
Definition with_mode (mode : string) (a : Args) : Args :=
  mkArgs (a_id a) (a_yes a) (a_no_wait a) (Some "flaky test") None None false None false false None None false false [] false None
    (Some mode) None false.
Definition with_hint (h : string) (a : Args) : Args :=
  mkArgs (a_id a) (a_yes a) (a_no_wait a) None (Some h) None false None false false None None false false [] false None None None false.

(** An operator who declines; every path exists; [conn] is what a connection does. *)
Definition cli_ops (attached : bool) (budget : option Q) (conn : outcome exn (list Read)) : CmdOps unit :=
  mkCmdOps attached true "/ws" budget (fun _ _ => true)
    (fun _ _ => [mkDirEntry "PROJ-17" true None; mkDirEntry "PROJ-1" true (Some (PStr "1"))])
    (fun _ _ _ w => (conn, w)) (fun _ w => (Ret (Some "n"), w)) (fun w => (Ret tt, w)) (fun _ w => (Ret tt, w))
    None "op" (fun _ => "2026-01-01") (fun _ => 0%Q) (fun _ => None) (fun _ => "2026-01-01 00:00:00")
    (fun _ => true) (fun _ => false).

(** Issue 7 is abandoned, and issue 9 runs as run r9; the registry is saved. *)
Definition running_record (r : IssueRecord) : IssueRecord :=
  set_run (mkRunInfo (Some "r9") None 0 0 None None 0 None None 0 (PDict []) None None None None None None "" "" 0)
    (set_status RUNNING r).
Definition cli_tick : Tick := mkTick 5 5 true.
Definition cli_registry : Registry :=
  let g := creg (ctl_state []) in
  let g := register cli_tick "9" "I-9" (mkRegisterArgs None (mkWorkspaceInfo "main" None (Some "/ws/9") None None None None) None None) "c" g in
  let g := update cli_tick "9" running_record g in
  IssueRegistry.save cli_tick (update cli_tick "7" (set_status ABANDONED) g).
Definition cli_state : KState unit :=
  set_daemon_registry cli_registry (mkK (ctl_state []) [] [] [] 0).

Lemma control_file_roundtrip_witness :
  parse_control (control_payload "rebase" "7" ("force=1" +:+ lf +:+ "old base ")) = ("rebase", "7", "force=1" +:+ lf +:+ "old base").
Proof. apply (control_file_roundtrip "rebase" "7" ("force=1" +:+ lf +:+ "old base ")); split; done. Defined.

(** The command reports success and the file says pending, but the daemon writes
    the abandoned record back. *)
Lemma detached_edit_lost_witness :
  let s' := snd (execute poll_ops ctl_ops (cli_ops false None (Ret [])) ARetry (with_mode "unblock" (args "7")) cli_state) in
  fst (execute poll_ops ctl_ops (cli_ops false None (Ret [])) ARetry (with_mode "unblock" (args "7")) cli_state) = Some 0
  /\ (status <$> (disk (dreg s') ≫= dget "7")) = Some IssueRegistry.PENDING
  /\ (status <$> (disk (IssueRegistry.save cli_tick (dreg s')) ≫= dget "7")) = Some ABANDONED.
Proof.
  split; [vm_compute; reflexivity|]. split; [vm_compute; reflexivity|].
  destruct (detached_edit_lost poll_ops ctl_ops (cli_ops false None (Ret [])) ARetry (with_mode "unblock" (args "7")) cli_state 0
    (snd (execute poll_ops ctl_ops (cli_ops false None (Ret [])) ARetry (with_mode "unblock" (args "7")) cli_state)) cli_tick)
    as (_ & _ & H); [reflexivity|left; done|vm_compute; reflexivity|reflexivity|].
  rewrite H. vm_compute. reflexivity.
Defined.

Lemma delivered_witness :
  let s' := snd (write_control poll_ops ctl_ops (cli_ops false None (Ret [])) "retry" "7" "why" cli_state) in
  dget (control_name "retry" "7") (c_files (k_daemon s')) = Some (Some (control_payload "retry" "7" "why")).
Proof.
  destruct (delivered poll_ops ctl_ops (cli_ops false None (Ret [])) "retry" "7" "why" cli_state
    (snd (write_control poll_ops ctl_ops (cli_ops false None (Ret [])) "retry" "7" "why" cli_state)))
    as [[H _]|[[p H]|H]]; [vm_compute; reflexivity|discriminate| |exact H].
  apply list_elem_of_In in H. vm_compute in H. destruct H.
Defined.

Definition seven : IssueRecord :=
  default (fresh_record cli_tick "" "" bare_register None) (IssueRegistry.get "7" cli_registry).
Definition cli_loaded : Registry :=
  match fst (open_registry (cli_ops false None (Ret [])) cli_state) with Ret g => g | _ => cli_registry end.

Lemma retry_reaches_daemon_witness :
  let s' := snd (execute poll_ops ctl_ops (cli_ops false None (Ret [])) ARetry (with_mode "reset" (args "I-7")) cli_state) in
  exists d, process_control_file poll_ops ctl_ops poll_cfg (control_name "retry" "7") (k_daemon s') = (Ret tt, d)
    /\ "7" ∉ oc_completed (corch d).
Proof.
  destruct (retry_reaches_daemon poll_ops ctl_ops (cli_ops false None (Ret [])) poll_cfg (with_mode "reset" (args "I-7")) "I-7"
    cli_loaded (loaded seven) seven cli_state
    (snd (execute poll_ops ctl_ops (cli_ops false None (Ret [])) ARetry (with_mode "reset" (args "I-7")) cli_state)))
    as (d & t & H1 & _ & H2 & _); [reflexivity|reflexivity|reflexivity|vm_compute; reflexivity|vm_compute; reflexivity
    |split; [discriminate|vm_compute; reflexivity]|vm_compute; reflexivity|vm_compute; reflexivity|].
  exists d. split; [exact H1|exact H2].
Defined.

Lemma stop_needs_consent_witness :
  effects (snd (execute poll_ops ctl_ops (cli_ops false None (Ret [])) AStop (args "9") cli_state)) = effects cli_state.
Proof.
  apply (stop_needs_consent poll_ops ctl_ops (cli_ops false None (Ret [])) (args "9") cli_state); [reflexivity|].
  intros p w. reflexivity.
Defined.

(** Through the service of the gateway, for the run of issue 9. *)
Lemma inject_leaves_paused_witness :
  fst (execute poll_ops ctl_ops (cli_ops true (Some 60%Q) (Ret [])) AInject (with_hint "stop that" (args "9")) cli_state) = Some 124
  /\ k_sent (snd (execute poll_ops ctl_ops (cli_ops true (Some 60%Q) (Ret [])) AInject (with_hint "stop that" (args "9")) cli_state))
     = [("/ws/9/.run_control/r9.sock", "pause", ""); ("/ws/9/.run_control/r9.sock", "inject", "stop that")]
  /\ exists s', do_inject (cli_ops true (Some 60%Q) (Ret [])) "s" "f" "h" cli_state = (Raise Cancelled, s')
       /\ k_sent s' = [("s", "pause", ""); ("s", "inject", "h")].
Proof.
  split; [vm_compute; reflexivity|]. split; [vm_compute; reflexivity|].
  apply (inject_leaves_paused (cli_ops true (Some 60%Q) (Ret [])) id "s" "f" "h" cli_state); [intros p c x w|..]; reflexivity.
Defined.

Lemma inject_resumes_witness :
  exists s', do_inject (cli_ops false None (Ret [])) "s" "f" "h" cli_state = (Ret 0, s')
    /\ k_sent s' = [("s", "pause", ""); ("s", "inject", "h"); ("s", "resume", "")].
Proof. apply (inject_resumes (cli_ops false None (Ret [])) id "s" "f" "h" cli_state); [intros p c x w|]; reflexivity. Defined.

Definition refused : outcome exn (list Read) := Raise (mkExn OtherException [Lit "Connection refused"] None).

(** The same pause without waiting leaves its control file. *)
Lemma stale_socket_not_paused_witness :
  (exists s', execute poll_ops ctl_ops (cli_ops false None refused) APause (args "9") cli_state = (Some 1, s')
     /\ effects s' = effects cli_state)
  /\ dkeys (control_files (snd (write_control poll_ops ctl_ops (cli_ops false None refused) "pause" "9" "" cli_state)))
     = ["pause_9.control"].
Proof.
  split; [|vm_compute; reflexivity].
  apply (stale_socket_not_paused poll_ops ctl_ops (cli_ops false None refused) (args "9") "9" "/ws/9/.run_control/r9.sock" cli_state);
    try (vm_compute; reflexivity).
  intros p c x w. eexists. split; reflexivity.
Defined.

Definition hinted : KState unit :=
  set_hint_file "f" (blocks [(1, "2026-01-01 00:00:00", "use tabs"); (2, "2026-01-01 00:00:00", "no mocks" +:+ lf +:+ "please")]) cli_state.

Lemma hinted_file : hints_file "f" hinted ["use tabs"; "no mocks" +:+ lf +:+ "please"].
Proof.
  exists [(1, "2026-01-01 00:00:00", "use tabs"); (2, "2026-01-01 00:00:00", "no mocks" +:+ lf +:+ "please")].
  split; [|split; reflexivity]. repeat constructor; try discriminate; vm_compute; reflexivity.
Qed.

Lemma injected_listed_witness :
  texts (cli_ops false None (Ret [])) "f" (snd (inject_hint (cli_ops false None (Ret [])) "f" "be brief" hinted))
  = ["use tabs"; "no mocks" +:+ lf +:+ "please"; "be brief"].
Proof.
  destruct (injected_listed (cli_ops false None (Ret [])) "f" "be brief" ["use tabs"; "no mocks" +:+ lf +:+ "please"] hinted
    (snd (inject_hint (cli_ops false None (Ret [])) "f" "be brief" hinted))) as [[H _]|[_ H]].
  - intros q. reflexivity.
  - exact hinted_file.
  - split; [reflexivity|]. split; [discriminate|]. repeat constructor.
  - vm_compute. reflexivity.
  - apply list_elem_of_In in H. simpl in H. destruct H as [H|[H|H]]; [discriminate H|discriminate H|destruct H].
  - exact H.
Defined.

Lemma removed_unlisted_witness :
  texts (cli_ops false None (Ret [])) "f" (snd (remove_hint (cli_ops false None (Ret [])) "f" 1 hinted))
  = ["no mocks" +:+ lf +:+ "please"].
Proof.
  destruct (removed_unlisted (cli_ops false None (Ret [])) "f" 1 ["use tabs"; "no mocks" +:+ lf +:+ "please"] hinted
    (snd (remove_hint (cli_ops false None (Ret [])) "f" 1 hinted))) as (_ & H & _).
  - intros q. reflexivity.
  - exact hinted_file.
  - vm_compute. reflexivity.
  - exact H.
Defined.

(** A hint for issue 1, which the registry does not know, goes to the directory of
    issue 17: the first name that contains the reference. *)
Example hint_for_another_issue :
  fst (resolve_issue_workspace_path (cli_ops false None (Ret [])) "1" cli_state) = Ret (Some "/ws/PROJ-17").
Proof. vm_compute. reflexivity. Qed.
