(* ===== verification/EventTailer.v ===== *)
(** * Tailing the files of a run ([src/orchestratord/event_tailer.py],
    [transcript_compat.py])

    The dashboard follows two files of each active run, the audit of tool calls
    and the transcript: each poll reads the rows after the offset of the last
    one and puts the events they stand for into a bounded queue, which the
    dashboard drains and coalesces.  The chat reads a transcript as a whole and
    normalises what older releases wrote.

    A file is its content; [json.loads], [json.dumps] and [str] are parameters.
    The time of ingestion, which only orders the stream, is left out.  Rows are
    separated by line feeds. *)

From S2P Require Import Control IssueCliFacts Prelude Errors Dag StageRunner Regex ClarResolver ImInbound ImInboundFacts Intent PeerFrame.

Open Scope string_scope.
Open Scope list_scope.
Open Scope Z_scope.

Definition MAX_QUEUE_SIZE : nat := Z.to_nat 1000.
Definition MAX_RESULT_CONTENT_CHARS : nat := Z.to_nat 500.
Definition CODEX_TOOL_ITEM_TYPES : list string := ["command_execution"; "file_change"; "mcp_tool_call"; "web_search"].

(** A value as a dictionary key; lists and dictionaries are not hashable. *)
Inductive key :=
| KNone
| KBool (b : bool)
| KInt (z : Z)
| KFloat (q : Q)
| KStr (s : string).

#[export] Instance Q_eq_dec : EqDecision Q.
Proof. solve_decision. Defined.
#[export] Instance key_eq_dec : EqDecision key.
Proof. solve_decision. Defined.

Definition key_of (v : pyval) : option key :=
  match v with
  | PNone => Some KNone
  | PBool b => Some (KBool b)
  | PInt z => Some (KInt z)
  | PFloat q => Some (KFloat q)
  | PStr s => Some (KStr s)
  | _ => None
  end.

Definition type_error : exn := mkExn OtherException [Lit "unhashable type"] None.
Definition no_get : exn := mkExn OtherException [Lit "object has no attribute 'get'"] None.

(** [a or b] on values, [d.get(k, v)], [v in (None, "")] *)
Definition vor (a b : pyval) : pyval := if truthy a then a else b.
Definition pget_or (k : string) (dflt : pyval) (d : dict string pyval) : pyval := default dflt (dget k d).
Definition blank_value (v : pyval) : bool := match v with PNone | PStr EmptyString => true | _ => false end.
Definition is_str (x : string) (v : pyval) : bool := match v with PStr s => String.eqb s x | _ => false end.
Definition str_in (l : list string) (v : pyval) : bool := match v with PStr s => mem s l | _ => false end.
Definition as_dict (v : pyval) : option (dict string pyval) := match v with PDict d => Some d | _ => None end.

(** [{k: d\[k\] for k in keys if k in d}] *)
Definition pick (keys : list string) (d : dict string pyval) : dict string pyval :=
  omap (fun k => (fun v => (k, v)) <$> dget k d) keys.

(** The horizontal ellipsis, in UTF-8. *)
Definition ellipsis : string :=
  String (Ascii.ascii_of_nat 226) (String (Ascii.ascii_of_nat 128) (String (Ascii.ascii_of_nat 166) "")).

(** [_truncate_content] of a text *)
Definition truncate (n : nat) (s : string) : string :=
  if (n <? String.length s)%nat then take_str n s +:+ ellipsis else s.

(** An event of the queue. *)
Record Event := mkEvent {
  ev_type : string;
  ev_issue : string;
  ev_run : string;
  ev_data : dict string pyval;
  ev_source_ts : option pyval;
}.

(** A file of a run in its two places, [None] when it is not there. *)
Record Files := mkFiles {
  fl_events : option string;
  fl_events_fallback : option string;
  fl_transcript : option string;
  fl_transcript_fallback : option string;
}.

(** A tailer, with the queue it shares. *)
Record Tailer := mkTailer {
  tl_run : string;
  tl_issue : string;
  tl_events_offset : nat;
  tl_transcript_offset : nat;
  tl_seen : bool;
  tl_names : dict key pyval;
  tl_buffer : string;
  tl_buffer_ts : pyval;
  tl_started : list string;
  tl_queue : list Event;
}.

Definition new_tailer (run issue : string) (q : list Event) : Tailer :=
  mkTailer run issue 0 0 false [] "" PNone [] q.

Definition set_queue (q : list Event) (t : Tailer) : Tailer :=
  mkTailer (tl_run t) (tl_issue t) (tl_events_offset t) (tl_transcript_offset t) (tl_seen t) (tl_names t)
    (tl_buffer t) (tl_buffer_ts t) (tl_started t) q.
Definition set_seen (t : Tailer) : Tailer :=
  mkTailer (tl_run t) (tl_issue t) (tl_events_offset t) (tl_transcript_offset t) true (tl_names t)
    (tl_buffer t) (tl_buffer_ts t) (tl_started t) (tl_queue t).
Definition set_events_offset (n : nat) (t : Tailer) : Tailer :=
  mkTailer (tl_run t) (tl_issue t) n (tl_transcript_offset t) (tl_seen t) (tl_names t)
    (tl_buffer t) (tl_buffer_ts t) (tl_started t) (tl_queue t).
Definition set_transcript_offset (n : nat) (t : Tailer) : Tailer :=
  mkTailer (tl_run t) (tl_issue t) (tl_events_offset t) n (tl_seen t) (tl_names t)
    (tl_buffer t) (tl_buffer_ts t) (tl_started t) (tl_queue t).
Definition set_name (k : key) (v : pyval) (t : Tailer) : Tailer :=
  mkTailer (tl_run t) (tl_issue t) (tl_events_offset t) (tl_transcript_offset t) (tl_seen t) (dset k v (tl_names t))
    (tl_buffer t) (tl_buffer_ts t) (tl_started t) (tl_queue t).
Definition set_buffer (b : string) (ts : pyval) (t : Tailer) : Tailer :=
  mkTailer (tl_run t) (tl_issue t) (tl_events_offset t) (tl_transcript_offset t) (tl_seen t) (tl_names t)
    b ts (tl_started t) (tl_queue t).
Definition add_started (id : string) (t : Tailer) : Tailer :=
  mkTailer (tl_run t) (tl_issue t) (tl_events_offset t) (tl_transcript_offset t) (tl_seen t) (tl_names t)
    (tl_buffer t) (tl_buffer_ts t) (if mem id (tl_started t) then tl_started t else tl_started t ++ [id]) (tl_queue t).

Section tail.
Context (json_loads : string -> option pyval) (json_dumps : pyval -> string) (py_str : pyval -> string).

Local Abbreviation T := (M Tailer exn).

(** ** Text of content blocks *)

Definition flatten_item (v : pyval) : string :=
  match v with
  | PDict d => py_str (pget_or "text" (pget_or "content" (PStr "") d) d)
  | _ => py_str v
  end.

(** [_flatten_content] *)
Definition flatten_content (v : pyval) : string :=
  match v with
  | PNone => ""
  | PStr s => s
  | PList l => String.concat lf (map flatten_item l)
  | _ => json_dumps v
  end.

Definition truncate_content (v : pyval) : string := truncate MAX_RESULT_CONTENT_CHARS (flatten_content v).

(** [_history_text], [_text]: the text when there is nothing but text. *)
Fixpoint text_blocks (l : list pyval) : option string :=
  match l with
  | [] => Some ""
  | PDict d :: l' =>
      if is_str "text" (pget "type" d) then (fun x => py_str (pget_or "text" (PStr "") d) +:+ x) <$> text_blocks l' else None
  | _ :: _ => None
  end.

Definition history_text (v : pyval) : option string :=
  match v with
  | PStr s => Some s
  | PList l => text_blocks l
  | _ => None
  end.

(** ** Events *)

(** [_emit_event]: a full queue drops the event. *)
Definition emit_event (type : string) (data : dict string pyval) : T unit := fun t =>
  let ts := pget "ts" data in
  let e := mkEvent type (tl_issue t) (tl_run t) data (if blank_value ts then None else Some ts) in
  (Ret tt, if (length (tl_queue t) <? MAX_QUEUE_SIZE)%nat then set_queue (tl_queue t ++ [e]) t else t).

(** A row of the audit file. *)
Definition events_row (v : pyval) : T unit :=
  modify set_seen ;;
  match v with
  | PDict d =>
      emit_event "tool_call"
        [("tool", pget_or "tool" (PStr "?") d); ("tool_use_id", pget "tool_use_id" d); ("approved", pget "approved" d);
         ("turn", pget_or "turn" (PInt 0) d); ("deny_reason", pget "deny_reason" d); ("params", pget "params" d);
         ("ts", pget_or "ts" (PStr "") d)]
  | _ => raise no_get
  end.

Definition entry_ts (entry : dict string pyval) : pyval := vor (pget "timestamp" entry) (pget "ts" entry).

Definition text_fields (s : string) : dict string pyval :=
  [("content", PStr (truncate MAX_RESULT_CONTENT_CHARS s)); ("content_truncated", PBool (MAX_RESULT_CONTENT_CHARS <? String.length s)%nat);
   ("content_char_count", PInt (Z.of_nat (String.length s)))].

(** [_emit_agent_text] *)
Definition emit_agent_text (text : string) (ts : pyval) : T unit :=
  if String.eqb (strip text) "" then mret ()
  else emit_event "agent_text" (text_fields text ++ [("ts", ts)]).

(** [_emit_codex_tool_call] *)
Definition emit_codex_tool_call (id : string) (name params ts : pyval) : T unit :=
  modify (add_started id) ;;
  emit_event "tool_call"
    [("tool", name); ("approved", PBool true); ("turn", PInt 0); ("deny_reason", PNone); ("tool_use_id", PStr id);
     ("params", params); ("ts", ts)].

(** [_codex_tool_identity] *)
Definition codex_tool_identity (item : dict string pyval) : pyval * pyval :=
  let type := pget "type" item in
  if is_str "command_execution" type then (PStr "Command", PDict [("command", vor (pget "command" item) (PStr ""))])
  else if is_str "file_change" type then (PStr "File change", vor (pget "changes" item) (PList []))
  else if is_str "web_search" type then (PStr "Web search", PDict [("query", vor (pget "query" item) (PStr ""))])
  else (PStr (py_str (vor (pget "name" item) (PStr "MCP tool"))), vor (pget "arguments" item) (PDict [])).

(** [_is_codex_wire_event] *)
Definition is_codex_wire_event (d : dict string pyval) : bool :=
  match pget "type" d with
  | PStr s => String.prefix "thread." s || String.prefix "turn." s || String.prefix "item." s || String.eqb s "error"
  | _ => false
  end.

Definition result_fields (name : pyval) (is_error : bool) (id : pyval) (s : string) : dict string pyval :=
  [("tool", name); ("is_error", PBool is_error); ("tool_use_id", id);
   ("result_content", PStr (truncate MAX_RESULT_CONTENT_CHARS s));
   ("content_truncated", PBool (MAX_RESULT_CONTENT_CHARS <? String.length s)%nat);
   ("content_char_count", PInt (Z.of_nat (String.length s)))].

(** The end of a tool's item. *)
Definition codex_completed (id : string) (name params ts : pyval) (item : dict string pyval) : T unit :=
  t ← Prelude.get;
  (if negb (mem id (tl_started t)) && negb (tl_seen t) then emit_codex_tool_call id name params ts else mret ()) ;;
  let output := pget "aggregated_output" item in
  let output := if blank_value output then vor (vor (pget "result" item) (pget "status" item)) (PStr "completed") else output in
  let failed := is_str "failed" (pget "status" item) || match pget "exit_code" item with PInt z => negb (z =? 0) | _ => false end in
  emit_event "tool_result" (result_fields name failed (PStr id) (flatten_content output) ++ [("ts", ts)]).

(** [_process_codex_wire_event] *)
Definition process_codex_wire_event (event : dict string pyval) (ts : pyval) : T unit :=
  let type := pget "type" event in
  if is_str "turn.completed" type then
    match pick ["usage"; "duration_ms"; "total_cost_usd"] event with
    | [] => mret ()
    | metrics => emit_event "run_metrics" (dset "ts" ts metrics)
    end
  else
    match vor (pget "item" event) (PDict []) with
    | PDict item =>
        let item_type := pget "type" item in
        if is_str "item.completed" type && is_str "agent_message" item_type
        then emit_agent_text (py_str (vor (pget "text" item) (PStr ""))) ts
        else
          match item_type with
          | PList _ | PDict _ => raise type_error
          | _ =>
              if negb (str_in CODEX_TOOL_ITEM_TYPES item_type) then mret ()
              else
                let id := py_str (vor (pget "id" item) (PStr "")) in
                if String.eqb id "" then mret ()
                else
                  let '(name, params) := codex_tool_identity item in
                  modify (set_name (KStr id) name) ;;
                  if is_str "item.started" type then
                    t ← Prelude.get;
                    if tl_seen t then modify (add_started id) else emit_codex_tool_call id name params ts
                  else if negb (is_str "item.completed" type) then mret ()
                  else codex_completed id name params ts item
          end
    | _ => mret ()
    end.

(** [_process_codex_wire_line] *)
Definition process_codex_wire_line (line : string) (ts : pyval) : T unit :=
  let value := strip line in
  if String.eqb value "" then mret ()
  else match json_loads value with
       | None => emit_agent_text value ts
       | Some (PDict d) => if is_codex_wire_event d then process_codex_wire_event d ts else emit_agent_text value ts
       | Some _ => raise no_get
       end.

(** The complete lines of the buffer; [rest] is what follows the last one. *)
Fixpoint wire_lines (lines : list string) (source_ts : pyval) : T unit :=
  match lines with
  | [] => mret ()
  | [rest] => modify (fun t => set_buffer rest (tl_buffer_ts t) t)
  | line :: rest =>
      t ← Prelude.get;
      let rest_text := String.concat lf rest in
      modify (set_buffer rest_text (tl_buffer_ts t)) ;;
      process_codex_wire_line line (tl_buffer_ts t) ;;
      modify (fun t => set_buffer rest_text (if String.eqb rest_text "" then PNone else source_ts) t) ;;
      wire_lines rest source_ts
  end.

Definition feed_buffer (text : string) (source_ts : pyval) : T unit :=
  t ← Prelude.get;
  wire_lines (split_char (Ascii.ascii_of_N 10) (tl_buffer t +:+ text)) source_ts.

(** [_consume_codex_wire_text] *)
Definition consume_codex_wire_text (text : string) (source_ts : pyval) : T bool :=
  t ← Prelude.get;
  if String.eqb (tl_buffer t) "" then
    let stripped := lstrip text in
    match json_loads stripped with
    | Some (PDict d) =>
        if is_codex_wire_event d then process_codex_wire_event d source_ts ;; mret true
        else if negb (String.prefix ("{" +:+ String (Ascii.ascii_of_nat 34) "type" +:+ String (Ascii.ascii_of_nat 34) "") stripped) then mret false
        else modify (set_buffer "" source_ts) ;; feed_buffer text source_ts ;; mret true
    | _ =>
        if negb (String.prefix ("{" +:+ String (Ascii.ascii_of_nat 34) "type" +:+ String (Ascii.ascii_of_nat 34) "") stripped) then mret false
        else modify (set_buffer "" source_ts) ;; feed_buffer text source_ts ;; mret true
    end
  else feed_buffer text source_ts ;; mret true.

(** ** Rows of the transcript *)

(** A block of an assistant's message. *)
Definition assistant_block (entry : dict string pyval) (v : pyval) : T unit :=
  match v with
  | PDict block =>
      let type := pget "type" block in
      if is_str "tool_use" type then
        let name := pget_or "name" (PStr "?") block in
        let id := pget "id" block in
        (if truthy id then match key_of id with Some k => modify (set_name k name) | None => raise type_error end else mret ()) ;;
        t ← Prelude.get;
        if tl_seen t then mret ()
        else emit_event "tool_call"
               [("tool", name); ("approved", PBool true); ("turn", pget_or "turn" (pget_or "turn" (PInt 0) entry) block);
                ("deny_reason", PNone); ("tool_use_id", id); ("params", pget "input" block); ("ts", entry_ts entry)]
      else if is_str "text" type then
        match pget_or "text" (PStr "") block with
        | PStr text =>
            if String.eqb (strip text) "" then mret ()
            else
              let ts := entry_ts entry in
              consumed ← (if truthy (pget "type" entry) then mret false else consume_codex_wire_text text ts);
              if (consumed : bool) then mret ()
              else emit_event "agent_text"
                     (text_fields text ++ [("turn", pget_or "turn" (PInt 0) entry);
                        ("timestamp_quality", pget "timestamp_quality" entry); ("ts", ts)])
        | v => if truthy v then raise (mkExn OtherException [Lit "object has no attribute 'strip'"] None) else mret ()
        end
      else mret ()
  | _ => mret ()
  end.

Fixpoint each {A} (f : A -> T unit) (l : list A) : T unit :=
  match l with [] => mret () | x :: l' => f x ;; each f l' end.

Definition blocks_of (v : pyval) : list pyval := match v with PList l => l | _ => [] end.

(** [_process_assistant_message] *)
Definition process_assistant_message (entry : dict string pyval) : T unit :=
  each (assistant_block entry) (blocks_of (pget "content" entry)).

(** [self._tool_name_map.get(tool_use_id or "", tool_use_id or "?")] *)
Definition tool_name (id : pyval) (t : Tailer) : outcome exn pyval :=
  match key_of (vor id (PStr "")) with
  | Some k => Ret (default (vor id (PStr "?")) (dget k (tl_names t)))
  | None => Raise type_error
  end.

Definition user_block (entry : dict string pyval) (v : pyval) : T unit :=
  match v with
  | PDict block =>
      if is_str "tool_result" (pget "type" block) then
        t ← Prelude.get;
        match tool_name (pget "tool_use_id" block) t with
        | Raise e => raise e
        | Ret name =>
            emit_event "tool_result"
              (result_fields name (truthy (pget "is_error" block)) (pget "tool_use_id" block) (flatten_content (pget "content" block))
               ++ [("turn", pget_or "turn" (pget_or "turn" (PInt 0) entry) block);
                   ("timestamp_quality", pget "timestamp_quality" entry); ("ts", entry_ts entry)])
        end
      else mret ()
  | _ => mret ()
  end.

(** [_process_user_message] *)
Definition process_user_message (entry : dict string pyval) : T unit :=
  let content := pget "content" entry in
  (match history_text content with
   | Some text =>
       if String.eqb text "" then mret ()
       else emit_event (if is_str "RunInput" (pget "type" entry) then "run_input" else "operator_input")
              [("content", PStr text); ("origin", pget_or "origin" (PStr "operator") entry);
               ("system_prompt", pget_or "system_prompt" (PStr "") entry); ("delivery", pget_or "delivery" (PStr "recorded") entry);
               ("ts", entry_ts entry)]
   | None => mret ()
   end) ;;
  each (user_block entry) (blocks_of content).

(** [_process_system_message] *)
Definition process_system_message (entry : dict string pyval) : T unit :=
  match pget "type" entry, as_dict (pget "data" entry) with
  | PStr type, data =>
      if negb (mem type ["SessionComplete"; "RunEnded"; "Error"]) then mret ()
      else
        match data with
        | None => mret ()
        | Some data =>
            if mem type ["RunEnded"; "Error"] then
              emit_event (if String.eqb type "RunEnded" then "run_ended" else "run_error")
                (dset "content" (vor (vor (pget "summary" data) (pget "message" data)) (pget_or "reason" (PStr "") data))
                   (dset "ts" (entry_ts entry) data))
            else
              let metrics := pick ["usage"; "duration_ms"; "total_cost_usd"; "reason"; "turn"] data in
              if existsb (fun k => dmem k metrics) ["usage"; "duration_ms"; "total_cost_usd"]
              then emit_event "run_metrics" (dset "ts" (entry_ts entry) metrics)
              else mret ()
        end
  | PList _, _ | PDict _, _ => raise type_error
  | _, _ => mret ()
  end.

(** A row of the transcript. *)
Definition transcript_row (v : pyval) : T unit :=
  match v with
  | PDict entry =>
      let role := pget "role" entry in
      (if is_str "assistant" role then process_assistant_message entry
       else if is_str "user" role then process_user_message entry
       else if is_str "system" role then process_system_message entry
       else mret ()) ;;
      if (match pget "schema_version" entry with PInt z => z =? 2 | PFloat q => Qeq_bool q 2 | _ => false end)
         && (is_str "unknown" (pget "kind" entry) || truthy (pget "raw" entry))
      then emit_event "raw_event"
             [("kind", pget_or "kind" (PStr "unknown") entry); ("raw", pget_or "raw" (PDict []) entry);
              ("content", vor (vor (pget "thinking" entry) (pget "text" entry)) (PStr "")); ("stage_id", pget "stage_id" entry);
              ("branch_id", pget "branch_id" entry); ("conversation_id", pget "conversation_id" entry); ("ts", entry_ts entry)]
      else mret ()
  | _ => raise no_get
  end.

(** ** Reading a file from an offset *)

(** The rows of a text: blank lines and lines that do not decode are skipped. *)
Definition row_of (line : string) : option pyval :=
  let line := strip line in if String.eqb line "" then None else json_loads line.

Definition rows (text : string) : list pyval := omap row_of (split_char (Ascii.ascii_of_N 10) text).

(** Seek, the rows to the end of the file, and [tell]. *)
Definition tail_file (row : pyval -> T unit) (offset : Tailer -> nat) (set_offset : nat -> Tailer -> Tailer)
    (content : string) : T unit :=
  t ← Prelude.get;
  each row (rows (drop_str (offset t) content)) ;;
  modify (set_offset (Nat.max (offset t) (String.length content))).

(** [_tail_events_ndjson], with [_resolve_events_path] *)
Definition tail_events_ndjson (f : Files) : T unit :=
  match or_else (fl_events f) (fl_events_fallback f) with
  | None => mret ()
  | Some content => tail_file events_row tl_events_offset set_events_offset content
  end.

(** [_tail_transcript] *)
Definition tail_transcript (f : Files) : T unit :=
  match or_else (fl_transcript f) (fl_transcript_fallback f) with
  | None => mret ()
  | Some content => tail_file transcript_row tl_transcript_offset set_transcript_offset content
  end.

Definition tail_both (f : Files) : T unit := tail_events_ndjson f ;; tail_transcript f.

(** An iteration of [_tail_loop]: an error is logged. *)
Definition poll (f : Files) (t : Tailer) : Tailer := snd (tail_both f t).

(** ** Coalescing ([_coalesce_agent_text_events]) *)

(** [int(v or 0)]; counts are ints. *)
Definition count_of (v : pyval) : Z := match v with PInt z => z | PBool true => 1 | _ => 0 end.

(** [str(v or "")] *)
Definition text_or_empty (v : pyval) : string := py_str (vor v (PStr "")).

(** The data of an event with that of a later fragment. *)
Definition combine (a b : dict string pyval) : dict string pyval :=
  let combined := text_or_empty (pget "content" a) +:+ text_or_empty (pget "content" b) in
  let total := count_of (pget "content_char_count" a) + count_of (pget "content_char_count" b) in
  dset "content_truncated"
    (PBool (truthy (pget "content_truncated" a) || truthy (pget "content_truncated" b)
            || (Z.of_nat MAX_RESULT_CONTENT_CHARS <? total)))
    (dset "content_char_count" (PInt total)
       (dset "content" (PStr (truncate MAX_RESULT_CONTENT_CHARS combined)) a)).

Definition set_data (d : dict string pyval) (e : Event) : Event :=
  mkEvent (ev_type e) (ev_issue e) (ev_run e) d (ev_source_ts e).

(** The key of a message's fragments; [None] for an event that stands alone. *)
Definition fragment_key (e : Event) : option (outcome exn (string * string * key * key)) :=
  if negb (String.eqb (ev_type e) "agent_text") then None
  else match ev_source_ts e with
       | None => None
       | Some ts =>
           Some (match key_of ts, key_of (pget "turn" (ev_data e)) with
                 | Some a, Some b => Ret (ev_run e, ev_issue e, a, b)
                 | _, _ => Raise type_error
                 end)
       end.

Fixpoint coalesce_from (events : list Event) (out : list Event) (pos : dict (string * string * key * key) nat)
    : outcome exn (list Event) :=
  match events with
  | [] => Ret out
  | e :: rest =>
      match fragment_key e with
      | None => coalesce_from rest (out ++ [e]) pos
      | Some (Raise x) => Raise x
      | Some (Ret k) =>
          match dget k pos with
          | None => coalesce_from rest (out ++ [e]) (dset k (length out) pos)
          | Some i => coalesce_from rest (alter (fun p => set_data (combine (ev_data p) (ev_data e)) p) i out) pos
          end
      end
  end.

Definition coalesce (events : list Event) : outcome exn (list Event) := coalesce_from events [] [].

(** ** The manager *)

Record Manager := mkManager {
  m_tailers : dict string Tailer;
  m_queue : list Event;
}.

(** [sync_active_run_ids]: tailers of runs that are gone stop, new runs get one. *)
Definition sync_active_run_ids (active : dict string string) (m : Manager) : Manager :=
  let kept := List.filter (fun kv => dmem (fst kv) active) (m_tailers m) in
  mkManager
    (fold_left (fun ts kv => if negb (String.eqb (fst kv) "") && negb (dmem (fst kv) ts)
                             then dset (fst kv) (new_tailer (fst kv) (snd kv) []) ts else ts) active kept)
    (m_queue m).

(** An iteration of a run's tailer over the shared queue. *)
Definition poll_run (run : string) (f : Files) (m : Manager) : Manager :=
  match dget run (m_tailers m) with
  | None => m
  | Some t =>
      let t' := poll f (set_queue (m_queue m) t) in
      mkManager (dset run (set_queue [] t') (m_tailers m)) (tl_queue t')
  end.

(** [drain_events] *)
Definition drain_events (m : Manager) : outcome exn (list Event) * Manager :=
  (coalesce (m_queue m), mkManager (m_tailers m) []).

(** [load_historical] *)
Definition load_historical (run issue : string) (f : Files) (m : Manager) : outcome exn unit * Manager :=
  let '(r, t) := tail_both f (new_tailer run issue (m_queue m)) in
  (r, mkManager (m_tailers m) (tl_queue t)).

(** [stop_all] *)
Definition stop_all (m : Manager) : Manager := mkManager [] (m_queue m).

(** ** History *)

Local Abbreviation msg := (dict string pyval).

(** Equal scalars; times and types are. *)
Definition same_value (a b : pyval) : bool :=
  match key_of a, key_of b with
  | Some x, Some y => bool_decide (x = y)
  | _, _ => false
  end.

(** The last message of the list and the ones before it. *)
Fixpoint unsnoc {A} (l : list A) : option (list A * A) :=
  match l with
  | [] => None
  | x :: l' => match unsnoc l' with Some (p, y) => Some (x :: p, y) | None => Some ([], x) end
  end.

(** [_append_history_message] *)
Definition append_history_message (messages : list msg) (message : msg) : list msg :=
  match unsnoc messages with
  | None => [message]
  | Some (front, previous) =>
      if is_str "RunEnded" (pget "type" message) && is_str "SessionComplete" (pget "type" previous) then front ++ [message]
      else if is_str "assistant" (pget "role" message) && negb (blank_value (pget "ts" message))
              && is_str "assistant" (pget "role" previous) && same_value (pget "ts" previous) (pget "ts" message)
              && same_value (pget "type" previous) (pget "type" message)
      then match history_text (pget "content" previous), history_text (pget "content" message) with
           | Some a, Some b =>
               front ++ [dset "content" (PList [PDict [("type", PStr "text"); ("text", PStr (a +:+ b))]]) previous]
           | _, _ => messages ++ [message]
           end
      else messages ++ [message]
  end.

(** [str(result)\[:500\]] *)
Definition str_500 (v : pyval) : string := take_str 500 (py_str v).

(** [_frame_to_history_entry] *)
Definition frame_to_history_entry (frame : dict string pyval) : outcome exn msg :=
  let ts := pget_or "ts" (PStr "") frame in
  match pget_or "type" (PStr "") frame, vor (pget_or "data" (PDict []) frame) (PDict []) with
  | PStr type, PDict data =>
      Ret (if String.eqb type "TextDelta" then
             [("role", PStr "assistant"); ("type", PStr "TextDelta"); ("content", pget_or "content" (PStr "") data); ("ts", ts)]
           else if String.eqb type "ToolCallEvent" then
             [("role", PStr "assistant");
              ("content", PList [PDict [("type", PStr "tool_use"); ("name", pget_or "tool_name" (PStr "?") data);
                                        ("id", pget_or "tool_use_id" (PStr "") data); ("input", pget_or "params" (PDict []) data)]]);
              ("ts", ts)]
           else if String.eqb type "ToolResultEvent" then
             let result := vor (pget_or "result" (PDict []) data) (PDict []) in
             let inner := as_dict result in
             let output := match inner with
                           | Some d => let o := pget_or "output" (PStr "") d in if truthy o then o else PStr (str_500 result)
                           | None => PStr (str_500 result)
                           end in
             let failed := match inner with Some d => truthy (pget "is_error" d) | None => false end in
             let code := match inner with Some d => pget "exit_code" d | None => PNone end in
             [("role", PStr "tool");
              ("content", PList [PDict [("type", PStr "tool_result"); ("tool_use_id", pget_or "tool_use_id" (PStr "") data);
                                        ("content", output); ("is_error", PBool (truthy (pget "is_error" data) || failed));
                                        ("exit_code", pget_or "exit_code" code data)]]);
              ("ts", ts)]
           else if String.eqb type "TurnComplete" then
             [("role", PStr "system"); ("content", PStr ("Turn " +:+ py_str (pget_or "turn" (PStr "?") data) +:+ " complete")); ("ts", ts)]
           else if mem type ["SessionComplete"; "RunEnded"] then
             [("role", PStr "system"); ("type", PStr type); ("content", PStr ("Run ended: " +:+ py_str (pget_or "reason" (PStr "?") data)));
              ("ts", ts); ("reason", pget "reason" data); ("status", pget "status" data)]
           else if String.eqb type "Error" then
             [("role", PStr "system"); ("type", PStr "Error"); ("content", pget_or "message" (PStr "Backend error") data); ("ts", ts)]
           else [("role", PStr "system"); ("content", PStr ""); ("ts", ts)])
  | PStr type, _ =>
      if mem type ["TextDelta"; "ToolCallEvent"; "ToolResultEvent"; "TurnComplete"; "SessionComplete"; "RunEnded"; "Error"]
      then Raise no_get
      else Ret [("role", PStr "system"); ("content", PStr ""); ("ts", ts)]
  | PList _, _ | PDict _, _ => Raise type_error
  | _, _ => Ret [("role", PStr "system"); ("content", PStr ""); ("ts", ts)]
  end.

(** A row of the transcript in the history; [x in entry] of a row that is not an
    object looks into a list or a text, and fails on the rest. *)
Definition history_row (messages : list msg) (v : pyval) : outcome exn (list msg) :=
  match v with
  | PDict entry =>
      if dmem "role" entry then
        if str_in ["SessionComplete"; "RunEnded"; "Error"] (pget "type" entry)
        then m ← frame_to_history_entry entry; Ret (append_history_message messages m)
        else
          match pget "type" entry with
          | PList _ | PDict _ => Raise type_error
          | _ =>
              let base := [("role", pget_or "role" (PStr "unknown") entry); ("content", pget_or "content" (PStr "") entry);
                           ("ts", pget_or "ts" (PStr "") entry)] in
              Ret (append_history_message messages
                     (base ++ pick ["type"; "origin"; "system_prompt"; "delivery"; "backend"; "resume_session_id"] entry))
          end
      else if dmem "type" entry then m ← frame_to_history_entry entry; Ret (append_history_message messages m)
      else Ret messages
  | PStr s => if contains "role" s || contains "type" s then Raise no_get else Ret messages
  | PList l => if existsb (fun x => is_str "role" x || is_str "type" x) l then Raise no_get else Ret messages
  | _ => Raise (mkExn OtherException [Lit "argument is not iterable"] None)
  end.

Fixpoint history_rows (messages : list msg) (l : list pyval) : outcome exn (list msg) :=
  match l with
  | [] => Ret messages
  | v :: l' => m ← history_row messages v; history_rows m l'
  end.

(** ** Legacy transcripts ([transcript_compat.py]) *)

(** [_text(message) or ""] *)
Definition message_text (m : msg) : option string := history_text (pget "content" m).
Definition text_of (m : msg) : string := default "" (message_text m).

Definition is_legacy_candidate (m : msg) : bool :=
  is_str "assistant" (pget "role" m) && negb (truthy (pget "type" m)) && is_some (message_text m).

Definition recognized (event : option (dict string pyval)) : bool :=
  match event with
  | None | Some [] => false
  | Some e =>
      match pget "type" e with
      | PStr kind =>
          mem kind ["thread.started"; "turn.started"; "turn.completed"; "turn.failed"; "error"]
          || (mem kind ["item.started"; "item.updated"; "item.completed"]
              && match pget "item" e with
                 | PDict item => str_in ["agent_message"; "command_execution"; "file_change"; "mcp_tool_call"; "web_search"; "todo_list"] (pget "type" item)
                 | _ => false
                 end)
      | _ => false
      end
  end.

Definition wire_event (line : string) : option (dict string pyval) := json_loads line ≫= as_dict.

Record Decode := mkDecode {
  dc_offset : nat;
  dc_index : nat;
  dc_boundary : nat;
  dc_tools : list string;
  dc_result : list msg;
}.

(** [while offset >= boundary and message_index < len(messages) - 1] *)
Fixpoint advance (fuel : nat) (messages : list msg) (d : Decode) : Decode :=
  match fuel with
  | O => d
  | S fuel =>
      if (dc_boundary d <=? dc_offset d)%nat && (dc_index d <? length messages - 1)%nat then
        let i := S (dc_index d) in
        advance fuel messages
          (mkDecode (dc_offset d) i (dc_boundary d + String.length (default "" (text_of <$> messages !! i))) (dc_tools d) (dc_result d))
      else d
  end.

(** [emit] *)
Definition put_message (role : string) (content ts : pyval) (metadata : msg) (d : Decode) : Decode :=
  let metadata := match content with
                  | PStr _ => if String.eqb role "assistant" && negb (dmem "type" metadata) then metadata ++ [("type", PStr "TextDelta")] else metadata
                  | _ => metadata
                  end in
  mkDecode (dc_offset d) (dc_index d) (dc_boundary d) (dc_tools d)
    (dc_result d ++ [[("role", PStr role); ("content", content); ("ts", ts)] ++ metadata]).

Definition middle_dot : string := String (Ascii.ascii_of_nat 194) (String (Ascii.ascii_of_nat 183) "").

Definition nat_str (n : nat) : string := py_str (PInt (Z.of_nat n)).

(** A tool's item. *)
Definition legacy_tool (kind : string) (item : dict string pyval) (ts : pyval) (d : Decode) : Decode :=
  let call_id := py_str (vor (pget "id" item) (PStr ("legacy-tool-" +:+ nat_str (length (dc_tools d))))) in
  let '(name, arguments) :=
    match pget "type" item with
    | PStr t => if String.eqb t "command_execution" then (PStr "Command", pget_or "command" (PStr "") item)
                else if String.eqb t "file_change" then (PStr "File change", pget_or "changes" (PList []) item)
                else if String.eqb t "mcp_tool_call" then (vor (pget "name" item) (PStr "MCP tool"), pget_or "arguments" (PDict []) item)
                else (PStr "Web search", pget_or "query" (PStr "") item)
    | _ => (PNone, PNone)
    end in
  let d1 := if mem call_id (dc_tools d) then d
            else let d' := put_message "assistant"
                             (PList [PDict [("type", PStr "tool_use"); ("id", PStr call_id); ("name", name); ("input", arguments)]]) ts [] d in
                 mkDecode (dc_offset d') (dc_index d') (dc_boundary d') (dc_tools d' ++ [call_id]) (dc_result d') in
  if String.eqb kind "item.completed" then
    let code := pget "exit_code" item in
    let failed := is_str "failed" (pget "status" item)
                  || match code with PInt z => negb (z =? 0) | PBool b => b | _ => false end in
    put_message "tool"
      (PList [PDict [("type", PStr "tool_result"); ("tool_use_id", PStr call_id);
                     ("content", pget_or "aggregated_output" (pget_or "result" (pget_or "status" (PStr "completed") item) item) item);
                     ("is_error", PBool failed); ("exit_code", code)]]) ts [] d1
  else d1.

(** The messages of a recognised event. *)
Definition legacy_event (event : dict string pyval) (ts : pyval) (d : Decode) : Decode :=
  match pget "type" event with
  | PStr kind =>
      let item := match vor (pget "item" event) (PDict []) with PDict i => i | _ => [] end in
      let type := pget "type" item in
      if mem kind ["error"; "turn.failed"] then
        let error := vor (vor (pget "error" event) (pget "message" event)) (PStr "The agent reported an error.") in
        let error := match error with PDict e => vor (pget "message" e) (PStr (json_dumps error)) | _ => error end in
        put_message "system" (PStr (py_str error)) ts [("type", PStr "Error")] d
      else if String.eqb kind "item.completed" && is_str "agent_message" type then
        put_message "assistant" (PStr (py_str (vor (pget "text" item) (PStr "")))) ts [] d
      else if mem kind ["item.updated"; "item.completed"] && is_str "todo_list" type then
        match vor (pget "items" item) (PList []) with
        | PList (t :: todos) =>
            let l := t :: todos in
            let completed := length (List.filter (fun x => match x with PDict e => truthy (pget "completed" e) | _ => false end) l) in
            put_message "system"
              (PStr ("Plan progress " +:+ middle_dot +:+ " " +:+ nat_str completed +:+ "/" +:+ nat_str (length l) +:+ " complete")) ts [] d
        | _ => d
        end
      else if mem kind ["item.started"; "item.completed"] && str_in CODEX_TOOL_ITEM_TYPES type then legacy_tool kind item ts d
      else d
  | _ => d
  end.

Definition decode_line (messages : list msg) (line : string) (d : Decode) : Decode :=
  let d := advance (length messages) messages d in
  let ts := match messages !! dc_index d with Some m => pget_or "ts" (PStr "") m | None => PStr "" end in
  let d := mkDecode (dc_offset d + String.length line) (dc_index d) (dc_boundary d) (dc_tools d) (dc_result d) in
  let event := wire_event line in
  if negb (recognized event) then
    if String.eqb (strip line) "" then d else put_message "assistant" (PStr line) ts [] d
  else legacy_event (default [] event) ts d.

(** [_decode_legacy_codex]; [None]: the messages themselves. *)
Definition decode_legacy_codex (minimum : nat) (messages : list msg) : option (list msg) :=
  let lines := splitlines_keep (String.concat "" (map text_of messages)) in
  if (length (List.filter (fun l => recognized (wire_event l)) lines) <? minimum)%nat then None
  else
    Some (dc_result (fold_left (fun d l => decode_line messages l d) lines
                       (mkDecode 0 0 (String.length (default "" (text_of <$> messages !! 0%nat))) [] []))).

(** The candidates before the next other message. *)
Definition flush (is_wire : bool) (chunk : list msg) : list msg :=
  match chunk with
  | [] => []
  | _ => if is_wire then default chunk (decode_legacy_codex 1 chunk) else chunk
  end.

Fixpoint normalize_from (is_wire : bool) (chunk messages : list msg) : list msg :=
  match messages with
  | [] => flush is_wire chunk
  | m :: rest =>
      if is_legacy_candidate m then normalize_from is_wire (chunk ++ [m]) rest
      else flush is_wire chunk ++ m :: normalize_from is_wire [] rest
  end.

(** [normalize_legacy_history] *)
Definition normalize_legacy_history (messages : list msg) : list msg :=
  let candidates := List.filter is_legacy_candidate messages in
  let is_wire := negb (Nat.eqb (length candidates) 0) && is_some (decode_legacy_codex 2 candidates) in
  normalize_from is_wire [] messages.

(** [read_history_direct] *)
Definition read_history_direct (f : Files) : outcome exn (list msg) :=
  match or_else (fl_transcript f) (fl_transcript_fallback f) with
  | None => Ret []
  | Some content => m ← history_rows [] (rows content); Ret (normalize_legacy_history m)
  end.

(** ** The full result of a tool ([read_tool_result]) *)

(** The name that an assistant's message gives to the call. *)
Definition note_name (id : string) (name : pyval) (content : list pyval) : pyval :=
  fold_left (fun n v => match v with
                        | PDict b => if is_str "tool_use" (pget "type" b) && is_str id (pget "id" b) then pget "name" b else n
                        | _ => n
                        end) content name.

Definition result_block (id : string) (v : pyval) : option (dict string pyval) :=
  match v with
  | PDict b => if is_str "tool_result" (pget "type" b) && is_str id (pget "tool_use_id" b) then Some b else None
  | _ => None
  end.

Fixpoint find_result (id : string) (name : pyval) (l : list pyval) : outcome exn (option msg) :=
  match l with
  | [] => Ret None
  | PDict entry :: rest =>
      match pget "content" entry with
      | PList content =>
          if is_str "assistant" (pget "role" entry) then find_result id (note_name id name content) rest
          else if is_str "user" (pget "role" entry) then
            match omap (result_block id) content with
            | b :: _ =>
                Ret (Some [("tool_name", vor name (PStr id)); ("is_error", PBool (truthy (pget "is_error" b)));
                           ("content", PStr (truncate_content (pget "content" b))); ("full_content", pget "content" b);
                           ("ts", pget_or "ts" (PStr "") entry)])
            | [] => find_result id name rest
            end
          else find_result id name rest
      | _ => find_result id name rest
      end
  | _ :: _ => Raise no_get
  end.

Definition read_tool_result (id : string) (f : Files) : outcome exn (option msg) :=
  match or_else (fl_transcript f) (fl_transcript_fallback f) with
  | None => Ret None
  | Some content => find_result id PNone (rows content)
  end.
End tail.

(** ** What tailing keeps

    Following a file in any number of polls gives what one reading of it gives;
    the queue stays bounded and keeps its order; tool calls are not counted
    twice once the audit file has been seen; fragments of a message add up.
    A row that is read half written is lost, and a row that is not an object
    stops the tailer for good. *)

Create HintDb tail discriminated.

Section facts.
Context (json_loads : string -> option pyval) (json_dumps : pyval -> string) (py_str : pyval -> string).

Local Abbreviation T := (M Tailer exn).
Local Abbreviation rows := (EventTailer.rows json_loads).
Local Abbreviation row_of := (EventTailer.row_of json_loads).
Local Abbreviation transcript_row := (EventTailer.transcript_row json_loads json_dumps py_str).

(** ** What a step keeps *)

Definition keeps (R : Tailer -> Tailer -> Prop) {A} (m : T A) : Prop := forall t, R t (snd (m t)).

Section keeps.
Context (R : Tailer -> Tailer -> Prop) `{!PreOrder R}.

Lemma tail_keeps_ret {A} (a : A) : keeps R (mret a).
Proof. intros t. reflexivity. Qed.
Lemma tail_keeps_raise {A} e : keeps R (raise e : T A).
Proof. intros t. reflexivity. Qed.
Lemma tail_keeps_modify f : (forall t, R t (f t)) -> keeps R (modify f).
Proof. intros H t. apply H. Qed.
Lemma tail_keeps_bind {A B} (m : T A) (f : A -> T B) : keeps R m -> (forall a, keeps R (f a)) -> keeps R (m ≫= f).
Proof.
  intros Hm Hf t. specialize (Hm t). unfold mbind, M_bind. destruct (m t) as [[a|e] t1]; [|done].
  etrans; [exact Hm|]. apply Hf.
Qed.
(** What is read is the state at that moment. *)
Lemma tail_keeps_get {B} (f : Tailer -> T B) : (forall t, R t (snd (f t t))) -> keeps R (Prelude.get ≫= f).
Proof. intros H t. apply H. Qed.
Lemma tail_keeps_get_any {B} (f : Tailer -> T B) : (forall t, keeps R (f t)) -> keeps R (Prelude.get ≫= f).
Proof. intros H. apply tail_keeps_get. intros t. apply H. Qed.
Lemma tail_keeps_each {A} (f : A -> T unit) l : (forall a, keeps R (f a)) -> keeps R (each f l).
Proof. intros H. induction l as [|a l IH]; [apply tail_keeps_ret|]. by apply tail_keeps_bind. Qed.
End keeps.

(** A rule for what depends on whether the audit file was seen, if there is one. *)
Ltac solve_seen := fail.

Ltac keep :=
  repeat
    match goal with
    | |- PreOrder _ => apply _
    | |- keeps _ (mret _) => apply (tail_keeps_ret _)
    | |- keeps _ (raise _) => apply (tail_keeps_raise _)
    | |- keeps _ (mbind (fun t => if tl_seen t then _ else _) Prelude.get) => solve_seen
    | |- keeps _ (mbind _ Prelude.get) => apply (tail_keeps_get_any _); intros ?
    | |- keeps _ (mbind _ _) => apply (tail_keeps_bind _); [|intros ?]
    | |- keeps _ (each _ _) => apply (tail_keeps_each _); intros ?
    | |- keeps _ (let x := _ in _) => cbv zeta
    | |- keeps _ (match ?x with _ => _ end) => destruct x
    | |- keeps _ _ => solve [auto with tail]
    end.

(** ** The queue *)

Definition bounded (t : Tailer) : Prop := (length (tl_queue t) <= MAX_QUEUE_SIZE)%nat.

(** Events are added at the end of a queue that stays within its size. *)
Definition grows (t t' : Tailer) : Prop := exists l, tl_queue t' = tl_queue t ++ l /\ (bounded t -> bounded t').

#[global] Instance grows_preorder : PreOrder grows.
Proof.
  split.
  - intros t. exists []. by rewrite app_nil_r.
  - intros a b c (l & H1 & H2) (l' & H3 & H4). exists (l ++ l'). rewrite H3, H1, app_assoc. split; [done|auto].
Qed.

Lemma same_queue_grows t t' : tl_queue t' = tl_queue t -> grows t t'.
Proof. intros H. exists []. unfold bounded. rewrite app_nil_r, H. done. Qed.

Lemma emit_grows type data : keeps grows (emit_event type data).
Proof.
  intros t. unfold emit_event. cbn [snd]. destruct (Nat.ltb_spec (length (tl_queue t)) MAX_QUEUE_SIZE) as [Hl|]; [|reflexivity].
  eexists. split; [reflexivity|]. intros _. unfold bounded. simpl. rewrite length_app. simpl. lia.
Qed.

Section grow.
#[local] Hint Resolve emit_grows tail_keeps_modify same_queue_grows : tail.
#[local] Hint Extern 1 (tl_queue _ = tl_queue _) => reflexivity : tail.

Lemma codex_event_grows e ts : keeps grows (process_codex_wire_event json_dumps py_str e ts).
Proof. unfold process_codex_wire_event, codex_completed, emit_codex_tool_call, emit_agent_text. keep. Qed.
#[local] Hint Resolve codex_event_grows : tail.

Lemma codex_line_grows l ts : keeps grows (process_codex_wire_line json_loads json_dumps py_str l ts).
Proof. unfold process_codex_wire_line, emit_agent_text. keep. Qed.
#[local] Hint Resolve codex_line_grows : tail.

Lemma wire_lines_grows ls ts : keeps grows (wire_lines json_loads json_dumps py_str ls ts).
Proof.
  induction ls as [|l ls IH]; [apply tail_keeps_ret; apply _|]. cbn [wire_lines]. destruct ls; [apply tail_keeps_modify; intros t; by apply same_queue_grows|].
  keep; try done. all: apply tail_keeps_modify; intros t; by apply same_queue_grows.
Qed.
#[local] Hint Resolve wire_lines_grows : tail.

Lemma consume_grows x ts : keeps grows (consume_codex_wire_text json_loads json_dumps py_str x ts).
Proof. unfold consume_codex_wire_text, feed_buffer. keep. Qed.
#[local] Hint Resolve consume_grows : tail.

Lemma transcript_row_grows v : keeps grows (transcript_row v).
Proof.
  unfold EventTailer.transcript_row, process_assistant_message, assistant_block, process_user_message, user_block, process_system_message.
  keep.
Qed.
#[local] Hint Resolve transcript_row_grows : tail.

Lemma events_row_grows v : keeps grows (events_row v).
Proof. unfold events_row. keep. Qed.
#[local] Hint Resolve events_row_grows : tail.

Lemma tail_both_grows f : keeps grows (tail_both json_loads json_dumps py_str f).
Proof. unfold tail_both, tail_events_ndjson, tail_transcript, tail_file. keep. Qed.
End grow.

(** ** The manager *)

(** What happens to a manager over time. *)
Inductive manager_step : Manager -> Manager -> Prop :=
| MSync active m : manager_step m (sync_active_run_ids active m)
| MPoll run f m : manager_step m (poll_run json_loads json_dumps py_str run f m)
| MDrain m : manager_step m (snd (drain_events py_str m))
| MLoad run issue f m : manager_step m (snd (load_historical json_loads json_dumps py_str run issue f m))
| MStop m : manager_step m (stop_all m).

Lemma poll_run_queue run f m :
  exists l, m_queue (poll_run json_loads json_dumps py_str run f m) = m_queue m ++ l
    /\ ((length (m_queue m) <= MAX_QUEUE_SIZE)%nat -> (length (m_queue (poll_run json_loads json_dumps py_str run f m)) <= MAX_QUEUE_SIZE)%nat).
Proof.
  unfold poll_run. destruct (dget run (m_tailers m)) as [t|]; [|exists []; by rewrite app_nil_r].
  destruct (tail_both_grows f (set_queue (m_queue m) t)) as (l & H1 & H2). exists l. split; [exact H1|exact H2].
Qed.

Lemma manager_step_bounded m m' :
  manager_step m m' -> (length (m_queue m) <= MAX_QUEUE_SIZE)%nat -> (length (m_queue m') <= MAX_QUEUE_SIZE)%nat.
Proof.
  intros [active m0|run f m0|m0|run issue f m0|m0] Hb; [exact Hb| | |  |exact Hb].
  - destruct (poll_run_queue run f m0) as (l & _ & H). by apply H.
  - unfold MAX_QUEUE_SIZE. simpl. lia.
  - unfold load_historical. destruct (tail_both_grows f (new_tailer run issue (m_queue m0))) as (l & _ & H).
    destruct (tail_both _ _ _ f _) as [r t]. by apply H.
Qed.

(** ** Offsets *)

(** A step that does the same whatever an offset is, and leaves it. *)
Definition commutes (so : nat -> Tailer -> Tailer) {A} (m : T A) : Prop :=
  forall n t, m (so n t) = let '(r, t') := m t in (r, so n t').

(** The offset is a field of its own. *)
Class OffsetField (so : nat -> Tailer -> Tailer) (off : Tailer -> nat) := {
  of_queue q n t : set_queue q (so n t) = so n (set_queue q t);
  of_seen n t : set_seen (so n t) = so n (set_seen t);
  of_name k v n t : set_name k v (so n t) = so n (set_name k v t);
  of_buffer b x n t : set_buffer b x (so n t) = so n (set_buffer b x t);
  of_started id n t : add_started id (so n t) = so n (add_started id t);
  of_fields n t : (tl_run (so n t), tl_issue (so n t), tl_seen (so n t), tl_names (so n t), tl_buffer (so n t), tl_buffer_ts (so n t),
                   tl_started (so n t), tl_queue (so n t))
                  = (tl_run t, tl_issue t, tl_seen t, tl_names t, tl_buffer t, tl_buffer_ts t, tl_started t, tl_queue t);
  of_get n t : off (so n t) = n;
  of_put n n' t : so n (so n' t) = so n t;
  of_same t : so (off t) t = t;
  of_off_queue q t : off (set_queue q t) = off t;
  of_off_seen t : off (set_seen t) = off t;
}.

#[global] Instance events_field : OffsetField set_events_offset tl_events_offset.
Proof. split; try done. by intros []. Qed.
#[global] Instance transcript_field : OffsetField set_transcript_offset tl_transcript_offset.
Proof. split; try done. by intros []. Qed.

Section commute.
Context (so : nat -> Tailer -> Tailer) (off : Tailer -> nat) `{!OffsetField so off}.

Lemma commutes_ret {A} (a : A) : commutes so (mret a).
Proof. done. Qed.
Lemma commutes_raise {A} e : commutes so (raise e : T A).
Proof. done. Qed.
Lemma commutes_modify f : (forall n t, f (so n t) = so n (f t)) -> commutes so (modify f).
Proof. intros H n t. unfold modify. by rewrite H. Qed.
Lemma commutes_bind {A B} (m : T A) (f : A -> T B) : commutes so m -> (forall a, commutes so (f a)) -> commutes so (m ≫= f).
Proof.
  intros Hm Hf n t. unfold mbind, M_bind. rewrite Hm. destruct (m t) as [[a|e] t1]; [|done]. apply Hf.
Qed.
Lemma commutes_get {B} (f : Tailer -> T B) :
  (forall n t, f (so n t) = f t) -> (forall t, commutes so (f t)) -> commutes so (Prelude.get ≫= f).
Proof. intros Hs Hf n t. unfold mbind, M_bind, Prelude.get. rewrite Hs. apply Hf. Qed.
Lemma commutes_each {A} (f : A -> T unit) l : (forall a, commutes so (f a)) -> commutes so (each f l).
Proof. intros H. induction l as [|a l IH]; [done|]. by apply commutes_bind. Qed.

Ltac fields := intros; match goal with |- context [so ?n ?t] => generalize (of_fields n t) end; intros [= E1 E2 E3 E4 E5 E6 E7 E8]; cbv beta zeta; rewrite ?E1, ?E2, ?E3, ?E4, ?E5, ?E6, ?E7, ?E8; reflexivity.

Ltac commute :=
  repeat
    match goal with
    | |- commutes _ (mret _) => apply commutes_ret
    | |- commutes _ (raise _) => apply commutes_raise
    | |- commutes _ (mbind _ Prelude.get) => apply commutes_get; [fields|intros ?]
    | |- commutes _ (mbind _ _) => apply commutes_bind; [|intros ?]
    | |- commutes _ (each _ _) => apply commutes_each; intros ?
    | |- commutes _ (modify _) =>
        apply commutes_modify; intros; first [apply of_seen|apply of_name|apply of_buffer|apply of_started|idtac]
    | |- commutes _ (let x := _ in _) => cbv zeta
    | |- commutes _ (match ?x with _ => _ end) => destruct x
    | |- commutes _ _ => solve [auto with tail]
    end.

Lemma emit_commutes type data : commutes so (emit_event type data).
Proof.
  intros n t. unfold emit_event. generalize (of_fields n t). intros [= -> -> _ _ _ _ _ ->].
  destruct (_ <? _)%nat; [|done]. by rewrite of_queue.
Qed.
#[local] Hint Resolve emit_commutes : tail.

Lemma codex_event_commutes e ts : commutes so (process_codex_wire_event json_dumps py_str e ts).
Proof. unfold process_codex_wire_event, codex_completed, emit_codex_tool_call, emit_agent_text. commute. Qed.
#[local] Hint Resolve codex_event_commutes : tail.

Lemma codex_line_commutes l ts : commutes so (process_codex_wire_line json_loads json_dumps py_str l ts).
Proof. unfold process_codex_wire_line, emit_agent_text. commute. Qed.
#[local] Hint Resolve codex_line_commutes : tail.

Lemma buffer_commutes b (x : Tailer -> pyval) :
  (forall n t, x (so n t) = x t) -> commutes so (modify (fun t => set_buffer b (x t) t)).
Proof. intros H. apply commutes_modify. intros n t. by rewrite H, of_buffer. Qed.

Lemma wire_lines_commutes ls ts : commutes so (wire_lines json_loads json_dumps py_str ls ts).
Proof.
  induction ls as [|l ls IH]; [apply commutes_ret|]. cbn [wire_lines].
  destruct ls as [|l' ls]; [apply buffer_commutes; fields|].
  apply commutes_get; [fields|]. intros t. cbv zeta. apply commutes_bind; [apply commutes_modify; intros; apply of_buffer|].
  intros _. apply commutes_bind; [apply codex_line_commutes|]. intros _.
  apply commutes_bind; [|intros _; exact IH]. apply commutes_modify. intros. apply of_buffer.
Qed.
#[local] Hint Resolve wire_lines_commutes : tail.

Lemma consume_commutes x ts : commutes so (consume_codex_wire_text json_loads json_dumps py_str x ts).
Proof. unfold consume_codex_wire_text, feed_buffer. commute. Qed.
#[local] Hint Resolve consume_commutes : tail.

Lemma transcript_row_commutes v : commutes so (transcript_row v).
Proof.
  unfold EventTailer.transcript_row, process_assistant_message, assistant_block, process_user_message, user_block, tool_name, process_system_message.
  commute.
Qed.

Lemma events_row_commutes v : commutes so (events_row v).
Proof. unfold events_row. commute. Qed.
End commute.

(** ** Reading in steps *)

Lemma each_app {A} (f : A -> T unit) l l' : forall t, each f (l ++ l') t = (each f l ≫= fun _ => each f l') t.
Proof.
  induction l as [|a l IH]; intros t; [done|]. cbn [app each]. unfold mbind, M_bind in *.
  destruct (f a t) as [[u|e] t1]; [|done]. apply IH.
Qed.

Lemma drop_str_app c d : drop_str (String.length c) (c +:+ d) = d.
Proof.
  unfold drop_str. rewrite str_length_app. replace (_ + _ - _)%nat with (String.length d) by lia.
  induction c as [|x c IH]; [|exact IH]. change ("" +:+ d) with d. induction d as [|y d IHd]; [done|].
  change (String y (String.substring 0 (String.length d) d) = String y d). by f_equal.
Qed.

Lemma drop_none c : drop_str 0 c = c.
Proof. apply (drop_str_app "" c). Qed.

(** A text that ends where a row ends. *)
Definition whole (c : string) : Prop := c = "" \/ exists c0, c = c0 +:+ lf.

Lemma rows_app c d : whole c -> rows (c +:+ d) = rows c ++ rows d.
Proof.
  intros [->|[c0 ->]]; [done|]. unfold EventTailer.rows. rewrite append_assoc.
  pose proof (split_app c0 d) as H1. pose proof (split_app c0 "") as H2. unfold split_lines_lf in *. rewrite append_nil_r in H2.
  rewrite H1, H2, !omap_app. simpl. by rewrite app_nil_r.
Qed.

(** A poll from an offset that is not behind the file. *)
Lemma tail_file_eq (row : pyval -> T unit) off so c t :
  (off t <= String.length c)%nat ->
  tail_file json_loads row off so c t
  = (each row (rows (drop_str (off t) c)) ≫= fun _ => modify (so (String.length c))) t.
Proof.
  intros Hle. unfold tail_file. unfold mbind at 1, M_bind at 1. unfold Prelude.get at 1.
  by replace (Nat.max (off t) (String.length c)) with (String.length c) by lia.
Qed.

Section steps.
Context (row : pyval -> T unit) (off : Tailer -> nat) (so : nat -> Tailer -> Tailer) `{!OffsetField so off}.
Hypothesis row_commutes : forall v, commutes so (row v).

Lemma each_commutes l : commutes so (each row l).
Proof. by apply commutes_each. Qed.

(** Rows read at one poll and rows read at the next. *)
Lemma tail_twice c d t t1 t' :
  off t = 0%nat -> tail_file json_loads row off so c t = (Ret tt, t1) -> each row (rows c ++ rows d) t = (Ret tt, t') ->
  tail_file json_loads row off so (c +:+ d) t1 = (Ret tt, so (String.length (c +:+ d)) t').
Proof.
  intros H0 H1 H2. rewrite tail_file_eq in H1 by lia. rewrite H0, drop_none in H1. rewrite each_app in H2.
  unfold mbind, M_bind in *. destruct (each row (rows c) t) as [[u|e] t2]; [|done]. injection H1 as <-.
  rewrite tail_file_eq; [|rewrite of_get, str_length_app; lia]. rewrite of_get, drop_str_app.
  unfold mbind, M_bind. rewrite each_commutes, H2. unfold modify. by rewrite of_put.
Qed.

(** The whole file at once. *)
Lemma tail_once c t t' :
  off t = 0%nat -> tail_file json_loads row off so c t = (Ret tt, t') ->
  exists t2, each row (rows c) t = (Ret tt, t2) /\ t' = so (String.length c) t2.
Proof.
  intros H0 H. rewrite tail_file_eq in H by lia. rewrite H0, drop_none in H. unfold mbind, M_bind in H.
  destruct (each row (rows c) t) as [[[]|e] t2]; [|done]. injection H as <-. eauto.
Qed.

(** Polls at growing contents, each ending where a row ends. *)
Fixpoint polls (c : string) (ds : list string) (t : Tailer) : Tailer :=
  match ds with
  | [] => t
  | d :: ds => polls (c +:+ d) ds (snd (tail_file json_loads row off so (c +:+ d) t))
  end.

Lemma polls_once ds : forall c t0 t t',
  off t0 = 0%nat -> whole c -> Forall whole ds ->
  (exists t2, each row (rows c) t0 = (Ret tt, t2) /\ t = so (String.length c) t2) ->
  each row (rows (c +:+ String.concat "" ds)) t0 = (Ret tt, t') ->
  polls c ds t = so (String.length (c +:+ String.concat "" ds)) t'.
Proof.
  induction ds as [|d ds IH]; intros c t0 t t' H0 Hc Hds (t2 & H2 & ->) H'.
  - change (String.concat "" []) with "" in *. rewrite append_nil_r in *. rewrite H2 in H'. by injection H' as <-.
  - apply Forall_cons in Hds as [Hd Hds]. cbn [polls].
    assert (Hcat : String.concat "" (d :: ds) = d +:+ String.concat "" ds).
    { destruct ds; [by rewrite append_nil_r|done]. }
    rewrite Hcat, <- append_assoc in *.
    assert (Hcd : whole (c +:+ d)).
    { destruct Hd as [->|[d0 ->]]; [by rewrite append_nil_r|]. right. exists (c +:+ d0). by rewrite append_assoc. }
    assert (H1 : tail_file json_loads row off so c t0 = (Ret tt, so (String.length c) t2)).
    { rewrite tail_file_eq by lia. rewrite H0, drop_none. unfold mbind, M_bind. by rewrite H2. }
    assert (exists t3, each row (rows (c +:+ d)) t0 = (Ret tt, t3)) as [t3 H3].
    { rewrite (rows_app (c +:+ d)) in H' by done. rewrite each_app in H'. unfold mbind, M_bind in H'.
      destruct (each row (rows (c +:+ d)) t0) as [[[]|e] t3]; [eauto|done]. }
    pose proof H3 as H3'. rewrite rows_app in H3' by done.
    rewrite (tail_twice c d t0 _ _ H0 H1 H3'). cbn [snd]. apply (IH _ t0); eauto.
Qed.
End steps.

(** ** The audit file *)

(** The event of a row. *)
Definition audit_event (run issue : string) (d : dict string pyval) : Event :=
  let ts := pget_or "ts" (PStr "") d in
  mkEvent "tool_call" issue run
    [("tool", pget_or "tool" (PStr "?") d); ("tool_use_id", pget "tool_use_id" d); ("approved", pget "approved" d);
     ("turn", pget_or "turn" (PInt 0) d); ("deny_reason", pget "deny_reason" d); ("params", pget "params" d); ("ts", ts)]
    (if blank_value ts then None else Some ts).

(** Everything about a tailer but its queue and whether it has seen a row. *)
Definition place (t : Tailer) := (tl_run t, tl_issue t, tl_events_offset t, tl_transcript_offset t).

Lemma events_row_dict d t :
  exists t', events_row (PDict d) t = (Ret tt, t') /\ place t' = place t
    /\ tl_queue t' = if (length (tl_queue t) <? MAX_QUEUE_SIZE)%nat
                     then tl_queue t ++ [audit_event (tl_run t) (tl_issue t) d] else tl_queue t.
Proof.
  eexists. split; [reflexivity|]. unfold emit_event. cbn [snd]. simpl (tl_queue (set_seen t)).
  destruct (_ <? _)%nat; done.
Qed.

Lemma events_rows_dicts ds : forall t, bounded t ->
  exists t', each events_row (map PDict ds) t = (Ret tt, t') /\ place t' = place t /\ bounded t'
    /\ tl_queue t' = take MAX_QUEUE_SIZE (tl_queue t ++ map (audit_event (tl_run t) (tl_issue t)) ds).
Proof.
  induction ds as [|d ds IH]; intros t Hb.
  - exists t. rewrite app_nil_r, take_ge by done. done.
  - destruct (events_row_dict d t) as (t1 & H1 & Hp & Hq). pose proof Hp as [= Hrun Hissue _ _].
    assert (Hb1 : bounded t1).
    { unfold bounded in *. rewrite Hq. destruct (Nat.ltb_spec (length (tl_queue t)) MAX_QUEUE_SIZE); [|done].
      rewrite length_app. simpl. lia. }
    destruct (IH t1 Hb1) as (t2 & H2 & Hp2 & Hb2 & Hq2). exists t2. split.
    { cbn [map each]. unfold mbind, M_bind. by rewrite H1. }
    split; [congruence|]. split; [done|]. rewrite Hq2, Hrun, Hissue, Hq. cbn [map].
    destruct (Nat.ltb_spec (length (tl_queue t)) MAX_QUEUE_SIZE) as [|Hge]; [by rewrite <- app_assoc|].
    by rewrite !take_app_le by done.
Qed.

Definition is_object (v : pyval) : Prop := exists d, v = PDict d.

Lemma each_poison ds v post t :
  ~ is_object v -> bounded t ->
  exists e t', each events_row (map PDict ds ++ v :: post) t = (Raise e, t') /\ place t' = place t /\ bounded t'
    /\ tl_queue t' = take MAX_QUEUE_SIZE (tl_queue t ++ map (audit_event (tl_run t) (tl_issue t)) ds).
Proof.
  intros Hv Hb. destruct (events_rows_dicts ds t Hb) as (t1 & H1 & Hp & Hb1 & Hq).
  exists no_get, (set_seen t1). rewrite each_app. unfold mbind, M_bind. rewrite H1. split; [|done].
  cbn [each]. unfold mbind, M_bind, events_row. destruct v; try reflexivity. exfalso. apply Hv. by eexists.
Qed.

(** ** Tool calls of the transcript *)

(** Once a row of the audit file was seen, nothing new is a tool call. *)
Definition no_new_calls (t t' : Tailer) : Prop :=
  tl_seen t = true ->
  tl_seen t' = true /\ exists l, tl_queue t' = tl_queue t ++ l /\ Forall (fun e => ev_type e <> "tool_call") l.

#[global] Instance no_new_calls_preorder : PreOrder no_new_calls.
Proof.
  split.
  - intros t H. split; [done|]. exists []. by rewrite app_nil_r.
  - intros a b c H1 H2 Ha. destruct (H1 Ha) as (Hb & l & Hl & Hf). destruct (H2 Hb) as (Hc & l' & Hl' & Hf').
    split; [done|]. exists (l ++ l'). rewrite Hl', Hl, app_assoc. split; [done|]. by apply Forall_app.
Qed.

Lemma quiet_no_calls t t' : tl_seen t' = tl_seen t -> tl_queue t' = tl_queue t -> no_new_calls t t'.
Proof. intros Hs Hq H. rewrite Hs, Hq. split; [done|]. exists []. by rewrite app_nil_r. Qed.

Lemma emit_no_calls type data : type <> "tool_call" -> keeps no_new_calls (emit_event type data).
Proof.
  intros Ht t H. unfold emit_event. cbn [snd]. destruct (_ <? _)%nat; [|split; [done|]; exists []; by rewrite app_nil_r].
  split; [done|]. eexists. split; [reflexivity|]. by repeat constructor.
Qed.

(** A tool call that is emitted only when the audit file is silent. *)
Lemma unless_seen_no_calls (a m : T unit) :
  keeps no_new_calls a -> keeps no_new_calls (t ← Prelude.get; if tl_seen t then a else m).
Proof. intros Ha t H. unfold mbind, M_bind, Prelude.get. rewrite H. by apply Ha. Qed.

Section calls.
#[local] Hint Resolve tail_keeps_modify quiet_no_calls : tail.
#[local] Hint Extern 1 (tl_queue _ = tl_queue _) => reflexivity : tail.
#[local] Hint Extern 1 (tl_seen _ = tl_seen _) => reflexivity : tail.
Ltac solve_seen ::= apply unless_seen_no_calls.
#[local] Hint Extern 1 (keeps no_new_calls (emit_event _ _)) =>
  apply emit_no_calls; repeat match goal with |- (if ?b then _ else _) <> _ => destruct b end; discriminate : tail.

Lemma completed_no_calls id name params ts item : keeps no_new_calls (codex_completed json_dumps py_str id name params ts item).
Proof.
  unfold codex_completed. apply (tail_keeps_get _). intros t. destruct (tl_seen t) eqn:E; [|intros H; congruence].
  rewrite andb_false_r. cbv zeta.
  match goal with |- no_new_calls ?t (snd (?m ?t)) => cut (keeps no_new_calls m); [intros H; apply H|] end. keep.
Qed.
#[local] Hint Resolve completed_no_calls : tail.

Lemma codex_event_no_calls e ts : keeps no_new_calls (process_codex_wire_event json_dumps py_str e ts).
Proof. unfold process_codex_wire_event, emit_agent_text. keep. Qed.
#[local] Hint Resolve codex_event_no_calls : tail.

Lemma codex_line_no_calls l ts : keeps no_new_calls (process_codex_wire_line json_loads json_dumps py_str l ts).
Proof. unfold process_codex_wire_line, emit_agent_text. keep. Qed.
#[local] Hint Resolve codex_line_no_calls : tail.

Lemma wire_lines_no_calls ls ts : keeps no_new_calls (wire_lines json_loads json_dumps py_str ls ts).
Proof.
  induction ls as [|l ls IH]; [apply tail_keeps_ret; apply _|]. cbn [wire_lines].
  destruct ls; [apply tail_keeps_modify; intros t; by apply quiet_no_calls|].
  keep; try done. all: apply tail_keeps_modify; intros t; by apply quiet_no_calls.
Qed.
#[local] Hint Resolve wire_lines_no_calls : tail.

Lemma consume_no_calls x ts : keeps no_new_calls (consume_codex_wire_text json_loads json_dumps py_str x ts).
Proof. unfold consume_codex_wire_text, feed_buffer. keep. Qed.
#[local] Hint Resolve consume_no_calls : tail.

Lemma transcript_row_no_calls v : keeps no_new_calls (transcript_row v).
Proof.
  unfold EventTailer.transcript_row, process_assistant_message, assistant_block, process_user_message, user_block, process_system_message.
  keep.
Qed.
End calls.

(** ** Fragments *)

Hypothesis str_of_str : forall s, py_str (PStr s) = s.

Lemma take_str_app_le n a b : (n <= String.length a)%nat -> take_str n (a +:+ b) = take_str n a.
Proof.
  unfold take_str. revert n. induction a as [|c a IH]; intros n Hn; [simpl in Hn; assert (n = 0)%nat as -> by lia; by destruct b|].
  destruct n as [|n]; [done|]. change (String c a +:+ b) with (String c (a +:+ b)). cbn. f_equal. apply IH. simpl in Hn. lia.
Qed.

Lemma take_str_exact n s : (n <= String.length s)%nat -> String.length (take_str n s) = n.
Proof.
  unfold take_str. revert n. induction s as [|c s IH]; intros n Hn; [simpl in Hn; by destruct n; [|lia]|].
  destruct n as [|n]; [done|]. cbn. f_equal. apply IH. simpl in Hn. lia.
Qed.

Lemma take_str_over n a b : (String.length a <= n)%nat -> take_str n (a +:+ b) = a +:+ take_str (n - String.length a) b.
Proof.
  unfold take_str. revert n. induction a as [|c a IH]; intros n Hn; [by rewrite Nat.sub_0_r|].
  destruct n as [|n]; [simpl in Hn; lia|]. change (String c a +:+ b) with (String c (a +:+ b)). cbn.
  change (String c a +:+ ?x) with (String c (a +:+ x)). f_equal. apply IH. simpl in Hn. lia.
Qed.

Lemma take_str_take k n s : (k <= n)%nat -> take_str k (take_str n s) = take_str k s.
Proof.
  unfold take_str. revert k n. induction s as [|c s IH]; intros k n Hk; [by destruct n, k|].
  destruct n as [|n]; [assert (k = 0)%nat as -> by lia; done|]. destruct k as [|k]; [done|]. cbn. f_equal. apply IH. lia.
Qed.

(** A display text of a prefix followed by a display text of the rest is cut like
    the whole text. *)
Lemma truncate_app n a b : truncate n (truncate n a +:+ truncate n b) = truncate n (a +:+ b).
Proof.
  unfold truncate at 2. destruct (Nat.ltb_spec n (String.length a)) as [Ha|Ha].
  - unfold truncate. rewrite append_assoc. rewrite take_str_app_le by (rewrite take_str_exact; lia).
    rewrite !str_length_app, take_str_exact by lia.
    destruct (Nat.ltb_spec n (n + (String.length ellipsis + String.length (if (n <? String.length b)%nat then take_str n b +:+ ellipsis else b)))) as [_|H];
      [|simpl in H; lia].
    destruct (Nat.ltb_spec n (String.length a + String.length b)) as [_|]; [|lia].
    rewrite (take_str_app_le n a b) by lia. f_equal. apply take_str_take. lia.
  - unfold truncate at 2. destruct (Nat.ltb_spec n (String.length b)) as [Hb|Hb]; [|done].
    unfold truncate. rewrite !str_length_app, take_str_exact by lia.
    destruct (Nat.ltb_spec n (String.length a + (n + String.length ellipsis))) as [_|H]; [|simpl in H; lia].
    destruct (Nat.ltb_spec n (String.length a + String.length b)) as [_|]; [|lia].
    replace (take_str n (a +:+ take_str n b +:+ ellipsis)) with (take_str n (a +:+ b)); [done|].
    rewrite !(take_str_over n a) by done. f_equal. rewrite take_str_app_le by (rewrite take_str_exact; lia).
    symmetry. apply take_str_take. lia.
Qed.

(** The data of two fragments of a message is that of their concatenation. *)
Lemma combine_fields a b x y :
  combine py_str (text_fields a ++ x) (text_fields b ++ y) = text_fields (a +:+ b) ++ x.
Proof.
  assert (Hv : forall z, text_or_empty py_str (PStr z) = z).
  { intros z. unfold text_or_empty, vor. cbn [truthy]. destruct (String.eqb_spec z "") as [->|]; apply str_of_str. }
  assert (Hset : forall c f n, dset "content_truncated" f (dset "content_char_count" n (dset "content" c (text_fields a ++ x)))
                               = [("content", c); ("content_truncated", f); ("content_char_count", n)] ++ x) by done.
  unfold combine. rewrite Hset.
  assert (Hc : forall z w, pget "content" (text_fields z ++ w) = PStr (truncate MAX_RESULT_CONTENT_CHARS z)) by done.
  assert (Hf : forall z w, pget "content_truncated" (text_fields z ++ w) = PBool (MAX_RESULT_CONTENT_CHARS <? String.length z)%nat) by done.
  assert (Hn : forall z w, pget "content_char_count" (text_fields z ++ w) = PInt (Z.of_nat (String.length z))) by done.
  rewrite !Hc, !Hf, !Hn, !Hv, truncate_app. cbn [truthy count_of]. unfold text_fields.
  rewrite str_length_app, Nat2Z.inj_add.
  replace ((MAX_RESULT_CONTENT_CHARS <? String.length a)%nat || (MAX_RESULT_CONTENT_CHARS <? String.length b)%nat
           || (Z.of_nat MAX_RESULT_CONTENT_CHARS <? Z.of_nat (String.length a) + Z.of_nat (String.length b)))
    with (MAX_RESULT_CONTENT_CHARS <? String.length a + String.length b)%nat; [done|].
  generalize MAX_RESULT_CONTENT_CHARS. intros k.
  destruct (Nat.ltb_spec k (String.length a)), (Nat.ltb_spec k (String.length b)),
    (Nat.ltb_spec k (String.length a + String.length b)),
    (Z.ltb_spec (Z.of_nat k) (Z.of_nat (String.length a) + Z.of_nat (String.length b))); simpl; lia.
Qed.

(** A fragment of a message's text. *)
Definition text_event (run issue : string) (ts turn : pyval) (s : string) : Event :=
  mkEvent "agent_text" issue run (text_fields s ++ [("turn", turn); ("ts", ts)]) (Some ts).

Lemma combine_texts run issue ts turn a b :
  set_data (combine py_str (ev_data (text_event run issue ts turn a)) (ev_data (text_event run issue ts turn b)))
    (text_event run issue ts turn a) = text_event run issue ts turn (a +:+ b).
Proof. unfold set_data, text_event. cbn [ev_type ev_issue ev_run ev_data ev_source_ts]. by rewrite combine_fields. Qed.

Lemma coalesce_texts run issue ts turn k1 k2 ss : forall s,
  key_of ts = Some k1 -> key_of turn = Some k2 ->
  coalesce_from py_str (map (text_event run issue ts turn) ss) [text_event run issue ts turn s] [((run, issue, k1, k2), 0%nat)]
  = Ret [text_event run issue ts turn (fold_left (fun a b => a +:+ b) ss s)].
Proof.
  induction ss as [|b ss IH]; intros s H1 H2; [done|]. cbn [map coalesce_from fold_left].
  assert (Hk : fragment_key (text_event run issue ts turn b) = Some (Ret (run, issue, k1, k2))).
  { unfold fragment_key, text_event. cbn [ev_type ev_source_ts ev_run ev_issue ev_data].
    change (pget "turn" (text_fields b ++ [("turn", turn); ("ts", ts)])) with turn. by rewrite H1, H2. }
  rewrite Hk. cbn [dget]. rewrite decide_True by done. rewrite <- IH by done.
  cbn [alter list_alter]. by rewrite combine_texts.
Qed.

(** ** History *)

Lemma normalize_plain chunk messages :
  normalize_from json_loads json_dumps py_str false chunk messages = chunk ++ messages.
Proof.
  assert (Hf : forall c, flush json_loads json_dumps py_str false c = c) by by intros [].
  revert chunk. induction messages as [|m ms IH]; intros chunk; cbn [normalize_from]; [by rewrite Hf, app_nil_r|].
  destruct (is_legacy_candidate _ m); [by rewrite IH, <- app_assoc|]. by rewrite Hf, IH.
Qed.

Definition all_text (ms : list (dict string pyval)) : string := String.concat "" (map (text_of py_str) ms).

Lemma concat_snoc l (x : string) : String.concat "" (l ++ [x]) = String.concat "" l +:+ x.
Proof.
  induction l as [|y l IH]; [done|]. destruct l as [|z l]; [done|].
  change (y +:+ "" +:+ String.concat "" ((z :: l) ++ [x]) = (y +:+ "" +:+ String.concat "" (z :: l)) +:+ x).
  by rewrite IH, !append_assoc.
Qed.

Lemma all_text_snoc ms m : all_text (ms ++ [m]) = all_text ms +:+ text_of py_str m.
Proof. unfold all_text. rewrite map_app. apply concat_snoc. Qed.

Lemma unsnoc_some {A} (l p : list A) x : unsnoc l = Some (p, x) -> l = p ++ [x].
Proof.
  revert p x. induction l as [|a l IH]; intros p x; [done|]. cbn [unsnoc].
  destruct (unsnoc l) as [[q y]|] eqn:E; intros [= <- <-].
  - by rewrite (IH _ _ eq_refl).
  - destruct l as [|b l]; [done|]. cbn in E. by destruct (unsnoc l) as [[]|].
Qed.

(** Coalescing keeps the text, except that the end of a run replaces the end of its session. *)
Lemma append_history_text messages m :
  is_str "RunEnded" (pget "type" m) = false ->
  all_text (append_history_message py_str messages m) = all_text messages +:+ text_of py_str m.
Proof.
  intros Hm. unfold append_history_message. destruct (unsnoc messages) as [[front previous]|] eqn:E.
  2: { destruct messages as [|x ms]; [done|]. cbn in E. by destruct (unsnoc ms) as [[]|]. }
  apply unsnoc_some in E as ->. rewrite Hm. cbn [andb]. destruct (_ && _); [|by rewrite all_text_snoc].
  destruct (history_text py_str (pget "content" previous)) as [a|] eqn:Ea; [|by rewrite all_text_snoc].
  destruct (history_text py_str (pget "content" m)) as [b|] eqn:Eb; [|by rewrite all_text_snoc].
  rewrite !all_text_snoc, append_assoc. f_equal. unfold text_of, message_text. rewrite Ea, Eb.
  unfold pget. rewrite dget_dset_eq.
  change (py_str (PStr (a +:+ b)) +:+ "" = a +:+ b). by rewrite str_of_str, append_nil_r.
Qed.
End facts.

(** In every history of a manager (runs come and go, tailers poll, the dashboard
    drains, old sessions are loaded) the queue holds at most a thousand events. *)
Theorem queue_bounded json_loads json_dumps py_str m :
  rtc (manager_step json_loads json_dumps py_str) (mkManager [] []) m -> (length (m_queue m) <= MAX_QUEUE_SIZE)%nat.
Proof.
  intros H. assert (H0 : (length (m_queue (mkManager [] [])) <= MAX_QUEUE_SIZE)%nat) by (simpl; lia).
  revert H0. induction H as [m|m1 m2 m3 Hs _ IH]; [done|]. intros H0. apply IH. by eapply manager_step_bounded.
Qed.

(** Following a file in any number of polls, each at the end of a row, leaves the
    tailer and the queue as one reading of the whole file would, for the audit file
    and for the transcript. *)
Theorem tail_incremental json_loads json_dumps py_str ds t t' :
  Forall whole ds -> let c := String.concat "" ds in
  (tl_events_offset t = 0%nat -> tail_file json_loads events_row tl_events_offset set_events_offset c t = (Ret tt, t') ->
   polls json_loads events_row tl_events_offset set_events_offset "" ds t = t')
  /\ (tl_transcript_offset t = 0%nat ->
      tail_file json_loads (transcript_row json_loads json_dumps py_str) tl_transcript_offset set_transcript_offset c t = (Ret tt, t') ->
      polls json_loads (transcript_row json_loads json_dumps py_str) tl_transcript_offset set_transcript_offset "" ds t = t').
Proof.
  intros Hds c. split; intros H0 H; pose proof H as (t2 & H2 & ->)%tail_once; try done; try apply _.
  - apply (polls_once json_loads events_row tl_events_offset set_events_offset) with (t0 := t); try done; [|by left|].
    + intros v. eapply events_row_commutes. apply events_field.
    + exists t. split; [done|]. destruct t; simpl in H0 |- *. by subst.
  - apply (polls_once json_loads (transcript_row json_loads json_dumps py_str) tl_transcript_offset set_transcript_offset) with (t0 := t);
      try done; [|by left|].
    + intros v. eapply transcript_row_commutes. apply transcript_field.
    + exists t. split; [done|]. destruct t; simpl in H0 |- *. by subst.
Qed.

(** A row that a poll finds half written is lost: its two halves do not decode,
    the offset passes the first, and the tailer ends as if the row were not there. *)
Theorem torn_row_lost json_loads json_dumps py_str c a b d t t1 t' :
  whole c -> no_lf a = true -> no_lf b = true -> row_of json_loads a = None -> row_of json_loads b = None ->
  tl_transcript_offset t = 0%nat ->
  let tail := tail_file json_loads (transcript_row json_loads json_dumps py_str) tl_transcript_offset set_transcript_offset in
  tail (c +:+ a) t = (Ret tt, t1) ->
  each (transcript_row json_loads json_dumps py_str) (rows json_loads c ++ rows json_loads d) t = (Ret tt, t') ->
  tail (c +:+ a +:+ b +:+ lf +:+ d) t1
  = (Ret tt, set_transcript_offset (String.length (c +:+ a +:+ b +:+ lf +:+ d)) t').
Proof.
  intros Hc Ha Hb Ra Rb H0 tail H1 H2.
  assert (Hlines : forall x y, no_lf x = true -> row_of json_loads x = None -> rows json_loads (x +:+ lf +:+ y) = rows json_loads y).
  { intros x y Hx Hr. pose proof (split_no_lf x y Hx) as E. unfold split_lines_lf in E. unfold rows. rewrite E. simpl. by rewrite Hr. }
  assert (Hra : rows json_loads a = []).
  { pose proof (split_whole a Ha) as E. unfold split_lines_lf in E. unfold rows. rewrite E. simpl. by rewrite Ra. }
  rewrite <- (append_assoc c a). unfold tail. eapply tail_twice; try done; try apply _.
  - intros v. eapply transcript_row_commutes. apply _.
  - rewrite rows_app, Hra, app_nil_r, Hlines by done. done.
Qed.

(** A row of the audit file that is not an object stops the tailer: however often
    it polls, it stays before that row, delivers the rows ahead of it again each
    time, and never comes to the transcript. *)
Theorem poison_row_stalls json_loads json_dumps py_str f content ds v post t n :
  or_else (fl_events f) (fl_events_fallback f) = Some content ->
  rows json_loads (drop_str (tl_events_offset t) content) = map PDict ds ++ v :: post -> ~ is_object v ->
  bounded t -> let t' := Nat.iter n (poll json_loads json_dumps py_str f) t in
  tl_events_offset t' = tl_events_offset t /\ tl_transcript_offset t' = tl_transcript_offset t
  /\ tl_queue (poll json_loads json_dumps py_str f (set_queue [] t')) = take MAX_QUEUE_SIZE (map (audit_event (tl_run t) (tl_issue t)) ds).
Proof.
  intros Hc Hr Hv Hb t'.
  assert (Hpoll : forall x, place x = place t -> bounded x ->
    place (poll json_loads json_dumps py_str f x) = place t /\ bounded (poll json_loads json_dumps py_str f x)
    /\ tl_queue (poll json_loads json_dumps py_str f x) = take MAX_QUEUE_SIZE (tl_queue x ++ map (audit_event (tl_run t) (tl_issue t)) ds)).
  { intros x Hp Hx. destruct (each_poison ds v post x Hv Hx) as (e & x1 & H1 & Hp1 & Hb1 & Hq1).
    pose proof Hp as [= E1 E2 E3 E4]. unfold poll, tail_both, tail_events_ndjson, tail_file. rewrite Hc.
    unfold mbind, M_bind, Prelude.get. rewrite E3, Hr, H1. cbn [snd]. rewrite Hp1, Hq1, E1, E2. done. }
  assert (H : place t' = place t /\ bounded t').
  { unfold t'. clear t'. induction n as [|n [IH1 IH2]]; [done|]. cbn [Nat.iter].
    destruct (Hpoll _ IH1 IH2) as (? & ? & _). done. }
  destruct H as [Hp Hb']. pose proof Hp as [= E1 E2 E3 E4]. split; [done|]. split; [done|].
  destruct (Hpoll (set_queue [] t')) as (_ & _ & Hq); [done|unfold bounded; simpl; lia|]. by rewrite Hq.
Qed.

(** Once the audit file has shown a row, the transcript adds no tool calls to the
    queue: a call is not counted twice. *)
Theorem calls_not_counted_twice json_loads json_dumps py_str f t :
  tl_seen t = true ->
  exists l, tl_queue (snd (tail_transcript json_loads json_dumps py_str f t)) = tl_queue t ++ l
    /\ Forall (fun e => ev_type e <> "tool_call") l.
Proof.
  intros H. assert (Hk : keeps no_new_calls (tail_transcript json_loads json_dumps py_str f)).
  { unfold tail_transcript, tail_file. destruct (or_else _ _); [|apply tail_keeps_ret; apply _].
    apply tail_keeps_get_any. intros t0. apply tail_keeps_bind; [apply _| |intros []; apply tail_keeps_modify; intros ?; by apply quiet_no_calls].
    apply tail_keeps_each; [apply _|]. intros v. apply transcript_row_no_calls. }
  by destruct (Hk t H) as [_ ?].
Qed.

(** The fragments of one message drain as one event, whose text is the display form
    of the whole message and whose count is its length. *)
Theorem fragments_add_up py_str run issue ts turn k1 k2 s ss :
  (forall x, py_str (PStr x) = x) -> key_of ts = Some k1 -> key_of turn = Some k2 ->
  coalesce py_str (map (text_event run issue ts turn) (s :: ss))
  = Ret [text_event run issue ts turn (fold_left (fun a b => a +:+ b) ss s)].
Proof.
  intros Hs H1 H2. unfold coalesce. cbn [map coalesce_from].
  assert (Hk : fragment_key (text_event run issue ts turn s) = Some (Ret (run, issue, k1, k2))).
  { unfold fragment_key, text_event. cbn [ev_type ev_source_ts ev_run ev_issue ev_data].
    change (pget "turn" (text_fields s ++ [("turn", turn); ("ts", ts)])) with turn. by rewrite H1, H2. }
  rewrite Hk. cbn [dget]. by apply coalesce_texts.
Qed.

(** A history without two records of the old wire format is shown as it was written. *)
Theorem plain_history_unchanged json_loads json_dumps py_str messages :
  (length (List.filter (fun l => recognized (wire_event json_loads l))
     (splitlines_keep (String.concat "" (map (text_of py_str) (List.filter (is_legacy_candidate py_str) messages))))) < 2)%nat ->
  normalize_legacy_history json_loads json_dumps py_str messages = messages.
Proof.
  intros H. unfold normalize_legacy_history, decode_legacy_codex. cbv zeta.
  apply Nat.ltb_lt in H. rewrite H. cbn [is_some]. rewrite andb_false_r. apply normalize_plain.
Qed.

(** ** Witnesses *)

(** A decoder of a few rows. *)
Definition say_row : pyval :=
  PDict [("role", PStr "assistant"); ("type", PStr "Message");
         ("content", PList [PDict [("type", PStr "text"); ("text", PStr "hello")];
                            PDict [("type", PStr "tool_use"); ("name", PStr "Bash"); ("id", PStr "c1")]])].
Definition toy_loads (s : string) : option pyval :=
  if String.eqb s "call" then Some (PDict [("tool", PStr "Bash"); ("ts", PStr "t1")])
  else if String.eqb s "say" then Some say_row
  else if String.eqb s "17" then Some (PInt 17)
  else None.
Definition toy_dumps (v : pyval) : string := "json".
Definition toy_str (v : pyval) : string := match v with PStr s => s | _ => "value" end.

Definition say_line : string := "say" +:+ lf.
Definition fresh : Tailer := new_tailer "r1" "7" [].

Lemma say_whole : whole say_line.
Proof. right. by exists "say". Qed.

Lemma queue_bounded_witness :
  (length (m_queue (poll_run toy_loads toy_dumps toy_str "r1" (mkFiles (Some ("call" +:+ lf)) None None None)
             (sync_active_run_ids [("r1", "7")] (mkManager [] [])))) <= MAX_QUEUE_SIZE)%nat.
Proof.
  apply (queue_bounded toy_loads toy_dumps toy_str). eapply rtc_l; [apply (MSync _ _ _ [("r1", "7")])|].
  eapply rtc_l; [apply (MPoll _ _ _ "r1" (mkFiles (Some ("call" +:+ lf)) None None None))|]. apply rtc_refl.
Defined.

Lemma tail_incremental_witness :
  let tail := tail_file toy_loads (transcript_row toy_loads toy_dumps toy_str) tl_transcript_offset set_transcript_offset in
  polls toy_loads (transcript_row toy_loads toy_dumps toy_str) tl_transcript_offset set_transcript_offset "" [say_line; say_line] fresh
  = snd (tail (say_line +:+ say_line) fresh).
Proof.
  apply (tail_incremental toy_loads toy_dumps toy_str [say_line; say_line] fresh
           (snd (tail_file toy_loads (transcript_row toy_loads toy_dumps toy_str) tl_transcript_offset set_transcript_offset
                   (say_line +:+ say_line) fresh))).
  - constructor; [exact say_whole|]. constructor; [exact say_whole|constructor].
  - reflexivity.
  - vm_compute. reflexivity.
Defined.

(** Two events of the one whole row; a single reading of the file has four. *)
Lemma torn_row_lost_witness :
  let tail := tail_file toy_loads (transcript_row toy_loads toy_dumps toy_str) tl_transcript_offset set_transcript_offset in
  length (tl_queue (snd (tail (say_line +:+ "sa" +:+ "y" +:+ lf) (snd (tail (say_line +:+ "sa") fresh))))) = 2%nat
  /\ length (tl_queue (snd (tail (say_line +:+ say_line) fresh))) = 4%nat.
Proof.
  split; [|vm_compute; reflexivity].
  pose proof (torn_row_lost toy_loads toy_dumps toy_str say_line "sa" "y" "" fresh
    (snd (tail_file toy_loads (transcript_row toy_loads toy_dumps toy_str) tl_transcript_offset set_transcript_offset (say_line +:+ "sa") fresh))
    (snd (each (transcript_row toy_loads toy_dumps toy_str) [say_row] fresh))
    say_whole eq_refl eq_refl eq_refl eq_refl eq_refl) as H.
  cbv zeta in H. rewrite append_nil_r in H. rewrite H; [vm_compute; reflexivity|vm_compute; reflexivity|vm_compute; reflexivity].
Defined.

Definition poisoned : Files := mkFiles (Some ("call" +:+ lf +:+ "17" +:+ lf +:+ "call" +:+ lf)) None (Some say_line) None.

Lemma poison_row_stalls_witness :
  let t' := Nat.iter 3 (poll toy_loads toy_dumps toy_str poisoned) fresh in
  tl_events_offset t' = 0%nat /\ tl_transcript_offset t' = 0%nat /\ length (tl_queue t') = 3%nat.
Proof.
  destruct (poison_row_stalls toy_loads toy_dumps toy_str poisoned ("call" +:+ lf +:+ "17" +:+ lf +:+ "call" +:+ lf)
    [[("tool", PStr "Bash"); ("ts", PStr "t1")]] (PInt 17) [PDict [("tool", PStr "Bash"); ("ts", PStr "t1")]] fresh 3) as (H1 & H2 & _).
  - reflexivity.
  - vm_compute. reflexivity.
  - intros [d H]. discriminate H.
  - unfold bounded, MAX_QUEUE_SIZE. simpl. lia.
  - split; [exact H1|]. split; [exact H2|]. vm_compute. reflexivity.
Defined.

Lemma calls_not_counted_twice_witness :
  exists l, tl_queue (snd (tail_transcript toy_loads toy_dumps toy_str poisoned (set_seen fresh))) = [] ++ l
    /\ Forall (fun e => ev_type e <> "tool_call") l.
Proof. apply (calls_not_counted_twice toy_loads toy_dumps toy_str poisoned (set_seen fresh)). reflexivity. Defined.

Lemma fragments_add_up_witness :
  coalesce toy_str (map (text_event "r1" "7" (PStr "t1") (PInt 1)) ["Hel"; "lo "; "world"])
  = Ret [text_event "r1" "7" (PStr "t1") (PInt 1) "Hello world"].
Proof.
  apply (fragments_add_up toy_str "r1" "7" (PStr "t1") (PInt 1) (KStr "t1") (KInt 1) "Hel" ["lo "; "world"]); [intros x|..]; reflexivity.
Defined.

Lemma plain_history_unchanged_witness :
  normalize_legacy_history toy_loads toy_dumps toy_str [[("role", PStr "assistant"); ("content", PStr "call")]]
  = [[("role", PStr "assistant"); ("content", PStr "call")]].
Proof.
  apply (plain_history_unchanged toy_loads toy_dumps toy_str [[("role", PStr "assistant"); ("content", PStr "call")]]).
  vm_compute. lia.
Defined.

(** A file that appears in its first place after its second was read is entered at
    the offset of the other: its rows up to there are never read. *)
Example other_file_same_offset :
  let second := mkFiles None (Some ("call" +:+ lf +:+ "call" +:+ lf)) None None in
  let first := mkFiles (Some ("call" +:+ lf +:+ "call" +:+ lf)) (Some ("call" +:+ lf +:+ "call" +:+ lf)) None None in
  tl_queue (poll toy_loads toy_dumps toy_str first (set_queue [] (poll toy_loads toy_dumps toy_str second fresh))) = [].
Proof. vm_compute. reflexivity. Qed.

(** The transcript may be ahead of the audit file: the call of a row that both have
    is then counted twice. *)
Example call_counted_twice :
  let before := mkFiles None None (Some say_line) None in
  let after := mkFiles (Some ("call" +:+ lf)) None (Some say_line) None in
  map ev_type (tl_queue (poll toy_loads toy_dumps toy_str after (poll toy_loads toy_dumps toy_str before fresh)))
  = ["agent_text"; "tool_call"; "tool_call"].
Proof. vm_compute. reflexivity. Qed.
