(* ===== verification/Startup.v ===== *)
(** * The daemon: start, poll cycle, loop

    What a daemon does around the dispatch of work: [_kernel_start] of
    [src/orchestratord/orchestrator.py] with the recovery of records a crash
    left running, of retries and of the sets held in memory; the reload of the
    title filter when the workflow file changes; [_dispatch_runtime_once] and
    [_run_runtime] of [kernel/kernel.py].  The recovery works on the registry of
    [IssueRegistry] and the queue of [RetryQueue], the reload on the
    configuration of [ConfigSchema] and the candidates of [LocalTracker].  What a
    cycle calls (control commands, the queue, the provider) is a record of
    operations on an abstract world; hooks, dashboard and telemetry are outcomes
    or nothing. *)

From S2P Require Import Prelude Errors Dag StageRunner Regex IssueRegistry RegistryFacts Kernel RetryQueue LocalTracker ConfigSchema ConfigFacts.

Open Scope string_scope.
Open Scope list_scope.
Open Scope Z_scope.

(** ** Start *)

Definition stale_reason : string := "Recovered stale running issue on orchestrator startup".

(** The ticks of the two registry writes for one record. *)
Record Ticks := mkTicks {
  tk_mark : Tick;
  tk_plan : Tick;
}.

(** The body of [_recover_stale_running_records] for one record. *)
Definition recover_stale_one (cfg : AgentConfig) (t : Ticks) (id : string) (g : Registry)
    : outcome exn Registry :=
  let g := mark_failed_with_reason (tk_mark t) id stale_reason g in
  match IssueRegistry.get id g with
  | None => Ret g
  | Some _ =>
      delay_ms ← compute_retry_delay 1 FAILURE_RETRY_BASE_MS (max_retry_backoff_ms cfg);
      Ret (persist_retry_plan (tk_plan t) id 1 (wall (tk_plan t) + seconds delay_ms)%Q g)
  end.

Fixpoint recover_stale_all (cfg : AgentConfig) (ticks : string -> Ticks) (ids : list string) (g : Registry)
    : outcome exn Registry :=
  match ids with
  | [] => Ret g
  | id :: ids' => g ← recover_stale_one cfg (ticks id) id g; recover_stale_all cfg ticks ids' g
  end.

(** [_recover_stale_running_records]: the list is taken before the first change. *)
Definition recover_stale_running_records (cfg : AgentConfig) (ticks : string -> Ticks) (g : Registry)
    : outcome exn Registry :=
  recover_stale_all cfg ticks (map issue_id (running_records g)) g.

(** [_recovery_status_sets] *)
Definition recovery_status_sets : dict string (list IssueStatus) :=
  [("pending_review", [PENDING_REVIEW]); ("completed", [COMPLETED])].

(** [set.add] *)
Definition set_add (x : string) (l : list string) : list string := if mem x l then l else x :: l.

(** One set of [_recover_persistent_states]. *)
Definition recovered_set (statuses : list IssueStatus) (g : Registry) (target : list string) : list string :=
  fold_left (fun target s => fold_left (fun target r => set_add (issue_id r) target) (records_by_status s g) target)
    statuses target.

(** The sets of [OrchestratorState] that outlive a cycle: [RetryQueue] holds
    [completed]; [pending_review] is kept beside it. *)
Record Daemon := mkDaemon {
  dm_orch : Orch;
  dm_pending_review : list string;
}.

Definition set_completed (l : list string) (o : Orch) : Orch :=
  mkOrch (oc_max_concurrent o) (oc_running o) l (oc_claimed o) (oc_retry_queue o) (oc_retry_attempts o)
    (oc_registry o).

Definition statuses_of (name : string) : list IssueStatus := default [] (dget name recovery_status_sets).

(** [_recover_persistent_states] *)
Definition recover_persistent_states (d : Daemon) : Daemon :=
  let g := oc_registry (dm_orch d) in
  let d := mkDaemon (dm_orch d) (recovered_set (statuses_of "pending_review") g (dm_pending_review d)) in
  mkDaemon (set_completed (recovered_set (statuses_of "completed") g (oc_completed (dm_orch d))) (dm_orch d))
    (dm_pending_review d).

(** What a start meets outside: the host's hook, if there is one, the sweep of
    old workspaces, the clocks. *)
Record Boot := mkBoot {
  bt_hook : option (outcome exn unit);
  bt_cleanup : outcome exn unit;
  bt_ticks : string -> Ticks;
  bt_now : Q;
  bt_clock : string -> Q;
}.

(** [_kernel_start] *)
Definition kernel_start (cfg : AgentConfig) (b : Boot) (d : Daemon) : outcome exn Daemon :=
  _ ← default (Ret tt) (bt_hook b);
  _ ← bt_cleanup b;
  g ← recover_stale_running_records cfg (bt_ticks b) (oc_registry (dm_orch d));
  let o := recover_pending_retries (bt_now b) (bt_clock b) (set_registry g (dm_orch d)) in
  Ret (recover_persistent_states (mkDaemon o (dm_pending_review d))).

(** The daemon before its start: nothing but the registry it loaded. *)
Definition new_daemon (max : Z) (g : Registry) : Daemon := mkDaemon (restarted max g) [].

(** ** The title filter *)

(** What [configure_title_prefix_filter] leaves in a tracker. *)
Record TitleFilter := mkTitleFilter {
  tf_prefixes : list string;
  tf_match : string;
}.

(** [normalize_title_prefixes] on strings *)
Definition normalize_title_prefixes (l : list string) : list string :=
  List.filter (fun p => negb (String.eqb p "")) (map strip l).

(** [normalize_title_prefix_match] on a string *)
Definition normalize_match (v : string) : string :=
  let mode := lower (strip (if String.eqb v "" then "any" else v)) in
  if mem mode ["any"; "all"] then mode else "any".

(** [configure_title_prefix_filter] *)
Definition configure_title_prefix_filter (prefixes : list string) (match_ : string) : TitleFilter :=
  mkTitleFilter (normalize_title_prefixes prefixes) (normalize_match match_).

(** The two assignments to [self.workflow.tracker]. *)
Definition set_title_filter (prefixes : list string) (match_ : string) (c : WorkflowConfig) : WorkflowConfig :=
  let t := wf_tracker c in
  mkWorkflowConfig
    (mkTrackerConfig (tc_kind t) (tc_endpoint t) (tc_api_key t) (tc_project_slug t) (tc_owner t) (tc_repo t)
       (tc_clone_url t) (tc_assignee t) (tc_branch_prefix t) (tc_issues_path t) (tc_active_states t)
       (tc_terminal_states t) (tc_skip_labels t) (tc_require_any_labels t) prefixes match_)
    (wf_polling_interval_ms c) (wf_workspace c) (wf_ssh_hosts c) (wf_max_per_host c) (wf_agent c)
    (wf_sandbox c) (wf_hooks c) (wf_review_feedback c) (wf_rules c) (wf_experience c) (wf_telemetry c)
    (wf_dashboard_enabled c) (wf_refresh_ms c) (wf_render_interval_ms c) (wf_server_port c)
    (wf_server_host c) (wf_modes c) (wf_pr_template c) (wf_pr_conflict_scan c) (wf_clarifier c).

(** The configuration in force, the tracker's filter (a tracker may have none to
    configure) and [_dynamic_tracker_config_mtime_ns]. *)
Record Settings := mkSettings {
  st_workflow : WorkflowConfig;
  st_filter : option TitleFilter;
  st_mtime : option Z;
}.

(** [__init__]: the time of the file is read when the daemon is built. *)
Definition new_settings (c : WorkflowConfig) (filters : bool) (mtime_ns : option Z) : Settings :=
  mkSettings c
    (if filters
     then Some (configure_title_prefix_filter (tc_title_prefixes (wf_tracker c)) (tc_title_prefix_match (wf_tracker c)))
     else None)
    mtime_ns.

(** [_refresh_dynamic_title_prefix_filter], with the time of the file and what
    loading it gives *)
Definition refresh_title_prefix_filter (mtime_ns : option Z) (loaded : outcome cerr WorkflowConfig)
    (s : Settings) : Settings :=
  match mtime_ns with
  | None => s
  | Some _ =>
      if bool_decide (mtime_ns = st_mtime s) then s
      else
        let s := mkSettings (st_workflow s) (st_filter s) mtime_ns in
        match loaded with
        | Raise _ => s
        | Ret refreshed =>
            if negb (String.eqb (tc_kind (wf_tracker refreshed)) (tc_kind (wf_tracker (st_workflow s)))) then s
            else
              match st_filter s with
              | None => s
              | Some _ =>
                  let prefixes := tc_title_prefixes (wf_tracker refreshed) in
                  let match_ := tc_title_prefix_match (wf_tracker refreshed) in
                  mkSettings (set_title_filter prefixes match_ (st_workflow s))
                    (Some (configure_title_prefix_filter prefixes match_)) mtime_ns
              end
        end
  end.

(** The candidates a cycle then sees in a local tracker. *)
Definition candidates (Y : Yaml) (X : ClarModel.Text) (s : Settings) (t : Tracker) : list LocalIssue :=
  let f := default (mkTitleFilter [] "any") (st_filter s) in
  fetch_candidate_issues Y X (tc_active_states (wf_tracker (st_workflow s))) (tf_prefixes f) (tf_match f) t.

(** ** One cycle *)

(** An exception, or the cancellation of the task, which no [except Exception]
    catches. *)
Inductive raised :=
| Failed (e : exn)
| Cancelled.

Inductive phase :=
| OnPollStart
| RefreshFilter
| ControlCommands
| TickBeforeRetry
| RetryQueuePhase
| TickAfterRetry
| ProviderPoll
| OnPollEnd
| BroadcastStatus.

#[export] Instance phase_eq_dec : EqDecision phase.
Proof. solve_decision. Defined.

Section cycle.
Context {W : Type}.

(** What the runtime does in each phase. *)
Record Runtime := mkRuntime {
  ru_phase : phase -> M W raised unit;
}.

Record Cycle := mkCycle {
  cy_world : W;
  cy_in_progress : bool;
  cy_log : list phase;
}.

(** [try: m finally: fin] *)
Definition guarded {S A} (m : M S raised A) (fin : M S raised unit) : M S raised A :=
  fun s =>
    let '(r, s) := m s in
    match fin s with
    | (Ret _, s) => (r, s)
    | (Raise e, s) => (Raise e, s)
    end.

Context (ru : Runtime).

Definition do_phase (p : phase) : M Cycle raised unit :=
  fun c =>
    let '(r, w) := ru_phase ru p (cy_world c) in
    (r, mkCycle w (cy_in_progress c) (cy_log c ++ [p])).

Definition set_in_progress (b : bool) : M Cycle raised unit :=
  modify (fun c => mkCycle (cy_world c) b (cy_log c)).

Fixpoint do_phases (ps : list phase) : M Cycle raised unit :=
  match ps with
  | [] => mret tt
  | p :: ps' => _ ← do_phase p; do_phases ps'
  end.

(** The body of the [try], in its historical order. *)
Definition cycle_phases : list phase :=
  [RefreshFilter; ControlCommands; TickBeforeRetry; RetryQueuePhase; TickAfterRetry; ProviderPoll].

(** [_dispatch_runtime_once] *)
Definition dispatch_runtime_once : M Cycle raised unit :=
  _ ← do_phase OnPollStart;
  _ ← set_in_progress true;
  guarded (do_phases cycle_phases)
    (_ ← set_in_progress false; _ ← do_phase OnPollEnd; do_phase BroadcastStatus).
End cycle.
Arguments Runtime : clear implicits.
Arguments Cycle : clear implicits.

(** ** The loop *)

Inductive loop_event :=
| HeartbeatStarted
| CycleRun
| AgentsCancelled
| ErrorRecorded (e : exn)
| Finished (exit_status : Z).

Section loop.
Context {W : Type}.

(** What the loop calls; [lp_wait] is the wait for the shutdown event under the
    poll interval, which only a cancellation interrupts. *)
Record Loop := mkLoop {
  lp_start : M W raised unit;
  lp_notify : M W raised unit;
  lp_cycle : M W raised unit;
  lp_wait : M W raised unit;
  lp_cancel_all : M W raised unit;
  lp_shutdown : W -> bool;
}.

Definition LS : Type := W * list loop_event.
Definition call (m : M W raised unit) : M LS raised unit :=
  fun s => let '(r, w) := m (fst s) in (r, (w, snd s)).
Definition note (e : loop_event) : M LS raised unit := modify (fun s => (fst s, snd s ++ [e])).

Context (lp : Loop).

(** [while not shutdown]; [None] is fuel that ran out. *)
Fixpoint poll_loop (fuel : nat) (s : LS) : option (outcome raised unit * LS) :=
  if lp_shutdown lp (fst s) then Some (Ret tt, s)
  else
    match fuel with
    | O => None
    | S fuel =>
        match (_ ← note CycleRun; _ ← call (lp_cycle lp); call (lp_wait lp)) s with
        | (Ret _, s) => poll_loop fuel s
        | (Raise e, s) => Some (Raise e, s)
        end
    end.

(** The [except] and [finally] clauses, which swallow their own failures. *)
Definition settle (r : outcome raised unit) (s : LS) : outcome raised unit * LS :=
  match r with
  | Ret _ => (r, (fst s, snd s ++ [Finished 0]))
  | Raise (Failed e) => (r, (fst s, snd s ++ [ErrorRecorded e; Finished 1]))
  | Raise Cancelled => (r, (fst s, snd s ++ [Finished 0]))
  end.

(** [_run_runtime] *)
Definition run_runtime (fuel : nat) (s : LS) : option (outcome raised unit * LS) :=
  match (_ ← call (lp_start lp); _ ← note HeartbeatStarted; call (lp_notify lp)) s with
  | (Raise e, s) => Some (Raise e, s)
  | (Ret _, s) =>
      match poll_loop fuel s with
      | None => None
      | Some (Raise e, s) => Some (settle (Raise e) s)
      | Some (Ret _, s) =>
          let '(r, s) := (_ ← note AgentsCancelled; call (lp_cancel_all lp)) s in Some (settle r s)
      end
  end.
End loop.
Arguments Loop : clear implicits.
Arguments LS : clear implicits.

(** ** Recovery *)

(** Each record is filed under its own id. *)
Definition filed (g : Registry) : Prop := forall id r, IssueRegistry.get id g = Some r -> issue_id r = id.

Definition registry_ok (g : Registry) : Prop := dict_wf (records g) /\ filed g.

(** The record a crash left running, as the start leaves it. *)
Definition stale_record (cfg : AgentConfig) (t : Ticks) (r : IssueRecord) : IssueRecord :=
  let r := touch (wall (tk_mark t))
             (set_attempts (attempt_count r + 1)
                (set_sync (with_verification (Some "failed") (Some stale_reason) (Some stale_reason) (sync r))
                   (set_status FAILED r))) in
  let i := intents r in
  touch (wall (tk_plan t))
    (set_intents
       (mkIntentInfo (intent i) 1
          (Some (wall (tk_plan t) + seconds (Z.min FAILURE_RETRY_BASE_MS (max_retry_backoff_ms cfg)))%Q)
          (last_command i) (intent_source i) (command_cursor i)) r).

Lemma first_delay cfg : compute_retry_delay 1 FAILURE_RETRY_BASE_MS (max_retry_backoff_ms cfg)
  = Ret (Z.min FAILURE_RETRY_BASE_MS (max_retry_backoff_ms cfg)).
Proof. rewrite compute_retry_delay_pow by lia. done. Qed.

Lemma stale_one_spec cfg t id g :
  exists g', recover_stale_one cfg t id g = Ret g' /\
    (dict_wf (records g) -> dict_wf (records g')) /\
    (forall x, IssueRegistry.get x g' =
       if decide (id = x) then stale_record cfg t <$> IssueRegistry.get id g else IssueRegistry.get x g).
Proof.
  unfold recover_stale_one. rewrite first_delay. unfold mark_failed_with_reason, persist_retry_plan.
  rewrite update_get, decide_True by done. destruct (IssueRegistry.get id g) as [r|] eqn:E; cbn [fmap option_fmap option_map].
  - eexists. split; [reflexivity|]. split; [intros H; by do 2 apply update_wf|].
    intros x. rewrite update_get, !update_get. rewrite (decide_True (P := id = id)) by done. rewrite E.
    by destruct (decide (id = x)).
  - eexists. split; [reflexivity|]. split; [apply update_wf|].
    intros x. rewrite update_get, E. by destruct (decide (id = x)).
Qed.

Lemma stale_all_spec cfg ticks ids g :
  NoDup ids ->
  exists g', recover_stale_all cfg ticks ids g = Ret g' /\
    (dict_wf (records g) -> dict_wf (records g')) /\
    (forall x, IssueRegistry.get x g' =
       if decide (x ∈ ids) then stale_record cfg (ticks x) <$> IssueRegistry.get x g else IssueRegistry.get x g).
Proof.
  revert g. induction ids as [|id ids IH]; intros g Hnd.
  - exists g. done.
  - apply NoDup_cons in Hnd as [Hni Hnd]. destruct (stale_one_spec cfg (ticks id) id g) as (g1 & E1 & Hw1 & Hg1).
    destruct (IH g1 Hnd) as (g2 & E2 & Hw2 & Hg2). exists g2. simpl. rewrite E1. cbn [mbind outcome_bind].
    split; [done|]. split; [auto|]. intros x. rewrite Hg2, Hg1.
    destruct (decide (id = x)) as [<-|Hne].
    + rewrite decide_False by done. by rewrite decide_True by set_solver.
    + destruct (decide (x ∈ ids)); [by rewrite decide_True by set_solver|by rewrite decide_False by set_solver].
Qed.

Lemma dvals_get r g : registry_ok g -> r ∈ dvals (records g) <-> IssueRegistry.get (issue_id r) g = Some r.
Proof.
  intros [Hw Hf]. unfold dvals, IssueRegistry.get in *. split.
  - intros ([k v] & -> & Hin)%list_elem_of_fmap. simpl. pose proof (dict_wf_In _ _ _ Hw Hin) as Hg.
    by rewrite (Hf _ _ Hg).
  - intros H%dget_In. apply list_elem_of_fmap. by exists (issue_id r, r).
Qed.

Lemma by_status_get s r g :
  registry_ok g -> r ∈ records_by_status s g <-> IssueRegistry.get (issue_id r) g = Some r /\ status r = s.
Proof.
  intros H. unfold records_by_status. rewrite list_elem_of_In, filter_In, <- list_elem_of_In, bool_decide_eq_true.
  by rewrite dvals_get.
Qed.

Lemma ids_NoDup (p : IssueRecord -> bool) g : registry_ok g -> NoDup (map issue_id (List.filter p (dvals (records g)))).
Proof.
  intros [Hw Hf]. unfold dict_wf, filed, IssueRegistry.get, dvals in *. set (d := records g) in *.
  assert (Hk : Forall (fun kv => issue_id (snd kv) = fst kv) d).
  { apply Forall_forall. intros [k v] Hin. simpl. by apply Hf, dict_wf_In. }
  clear Hf. clearbody d. induction d as [|[k v] d IH]; simpl; [constructor|].
  apply NoDup_cons in Hw as [Hni Hw]. apply Forall_cons in Hk as [Hk1 Hk]. simpl in Hk1.
  destruct (p v); [|auto]. simpl. constructor; [|auto]. rewrite Hk1. intros (r & Hr & Hin)%list_elem_of_fmap.
  apply Hni. apply list_elem_of_In, filter_In in Hin as [Hin _]. apply list_elem_of_In, list_elem_of_fmap in Hin as ([k' v'] & -> & Hin).
  apply list_elem_of_fmap. exists (k', v'). split; [|done]. simpl in *. rewrite Hr.
  rewrite Forall_forall in Hk. apply (Hk _ Hin).
Qed.

Lemma stale_running_spec cfg ticks g :
  registry_ok g ->
  exists g', recover_stale_running_records cfg ticks g = Ret g' /\ registry_ok g' /\
    forall x, IssueRegistry.get x g' =
      (fun r => if bool_decide (status r = RUNNING) then stale_record cfg (ticks x) r else r)
        <$> IssueRegistry.get x g.
Proof.
  intros Hg. destruct (stale_all_spec cfg ticks (map issue_id (running_records g)) g) as (g' & E & Hw & Hget).
  { by apply ids_NoDup. }
  assert (Hx : forall x, IssueRegistry.get x g' =
      (fun r => if bool_decide (status r = RUNNING) then stale_record cfg (ticks x) r else r)
        <$> IssueRegistry.get x g).
  { intros x. rewrite Hget. destruct (IssueRegistry.get x g) as [r|] eqn:Er; [|by destruct (decide _)].
    pose proof (proj2 Hg _ _ Er) as Hid. simpl. destruct (decide (x ∈ _)) as [Hin|Hni].
    - apply list_elem_of_fmap in Hin as (r' & Hr' & Hin). apply by_status_get in Hin as [Hr1 Hst]; [|done].
      rewrite <- Hr', Er in Hr1. injection Hr1 as <-. by rewrite bool_decide_eq_true_2.
    - destruct (bool_decide_reflect (status r = RUNNING)) as [Hst|]; [|done]. exfalso. apply Hni.
      apply list_elem_of_fmap. exists r. split; [done|]. apply by_status_get; [done|]. by rewrite Hid. }
  exists g'. split; [done|]. split; [|done]. split; [by apply Hw, Hg|].
  intros x r. rewrite Hx. destruct (IssueRegistry.get x g) as [r0|] eqn:Er; [|done]. intros [= <-].
  pose proof (proj2 Hg _ _ Er). by destruct (bool_decide _).
Qed.

Lemma set_add_In x y l : y ∈ set_add x l <-> y = x \/ y ∈ l.
Proof.
  unfold set_add. destruct (mem x l) eqn:E; [|set_solver]. apply mem_true in E. set_solver.
Qed.

Lemma recovered_one_set x l target :
  x ∈ fold_left (fun target r => set_add (issue_id r) target) l target <-> x ∈ target \/ x ∈ map issue_id l.
Proof.
  revert target. induction l as [|r l IH]; intros target; simpl; [set_solver|].
  rewrite IH, set_add_In. set_solver.
Qed.

(** The set that comes back is the set of the records with the status. *)
Lemma recovered_set_spec s g x :
  registry_ok g ->
  x ∈ recovered_set [s] g [] <-> exists r, IssueRegistry.get x g = Some r /\ status r = s.
Proof.
  intros Hg. unfold recovered_set. simpl. rewrite recovered_one_set. split.
  - intros [H|(r & -> & Hin)%list_elem_of_fmap]; [set_solver|]. exists r. by apply by_status_get.
  - intros (r & Hr & Hs). right. apply list_elem_of_fmap. exists r. pose proof (proj2 Hg _ _ Hr) as Hid.
    split; [done|]. apply by_status_get; [done|]. by rewrite Hid.
Qed.

Lemma recover_one_other now clock l o x :
  x ∉ map issue_id l -> dget x (oc_retry_attempts (fold_left (recover_one now clock) l o)) = dget x (oc_retry_attempts o).
Proof.
  revert o. induction l as [|r l IH]; intros o Hx; simpl; [done|]. rewrite IH by set_solver. simpl.
  rewrite dget_dset_ne; [done|]. simpl in Hx. set_solver.
Qed.

Lemma recover_attempts now clock l o r :
  NoDup (map issue_id l) -> r ∈ l ->
  dget (issue_id r) (oc_retry_attempts (fold_left (recover_one now clock) l o))
  = Some (rt_attempt (recovered_item now clock r)).
Proof.
  revert o. induction l as [|r0 l IH]; intros o Hnd Hin; [set_solver|]. simpl in *.
  apply NoDup_cons in Hnd as [Hni Hnd]. apply elem_of_cons in Hin as [->|Hin]; [|by apply IH].
  rewrite recover_one_other by done. simpl. by rewrite dget_dset_eq.
Qed.

Lemma recover_rest now clock l o :
  let o' := fold_left (recover_one now clock) l o in
  oc_registry o' = oc_registry o /\ oc_completed o' = oc_completed o /\ oc_running o' = oc_running o /\
  oc_max_concurrent o' = oc_max_concurrent o.
Proof. revert o. induction l as [|r l IH]; intros o; simpl; [done|]. apply (IH (recover_one now clock o r)). Qed.

(** A recovered retry has an entry exactly when the record has a plan. *)
Lemma recovered_entry now clock max g id r :
  registry_ok g -> IssueRegistry.get id g = Some r ->
  has_entry id (oc_retry_queue (recover_pending_retries now clock (restarted max g)))
  = is_some (next_retry_at (intents r)).
Proof.
  intros Hg Hr. rewrite recover_pending_queue. apply eq_true_iff_eq. rewrite has_entry_In. split.
  - intros (it & (r' & -> & Hin)%list_elem_of_fmap & Hid). simpl in Hid. unfold pending_retry_records in Hin.
    apply list_elem_of_In, filter_In in Hin as [Hin Hp]. apply list_elem_of_In, dvals_get in Hin; [|done].
    rewrite Hid, Hr in Hin. by injection Hin as ->.
  - intros Hp. exists (recovered_item now clock r). split; [|apply (proj2 Hg _ _ Hr)].
    apply list_elem_of_fmap. exists r. split; [done|]. apply (pending_record id); [done|].
    destruct (next_retry_at (intents r)); [by eexists|done].
Qed.

(** The attempts of a recovered retry are those of its plan. *)
Lemma recovered_attempt now clock max g id r :
  registry_ok g -> IssueRegistry.get id g = Some r -> is_Some (next_retry_at (intents r)) ->
  attempts_of id (recover_pending_retries now clock (restarted max g)) = rt_attempt (recovered_item now clock r).
Proof.
  intros Hg Hr Hp. pose proof (proj2 Hg _ _ Hr) as Hid. unfold attempts_of, recover_pending_retries.
  rewrite <- Hid. rewrite (recover_attempts _ _ _ _ r); [done|by apply ids_NoDup|]. by apply (pending_record id).
Qed.

(** The recovery makes and unmakes no status but these two. *)
Lemma settled_status cfg ticks g g' :
  (forall x, IssueRegistry.get x g' =
     (fun r => if bool_decide (status r = RUNNING) then stale_record cfg (ticks x) r else r)
       <$> IssueRegistry.get x g) ->
  forall id s, s <> RUNNING -> s <> FAILED ->
  (exists r, IssueRegistry.get id g' = Some r /\ status r = s)
  <-> (exists r, IssueRegistry.get id g = Some r /\ status r = s).
Proof.
  intros Hx id s H1 H2. rewrite Hx. destruct (IssueRegistry.get id g) as [r|]; [|by split; intros (? & ? & _)].
  cbn. destruct (bool_decide_reflect (status r = RUNNING)) as [Hs|]; [|done].
  split; intros (r' & [= <-] & Hs'); exfalso; [by apply H2|congruence].
Qed.

Lemma kernel_start_returns cfg b max g :
  registry_ok g -> default (Ret tt) (bt_hook b) = Ret tt -> bt_cleanup b = Ret tt ->
  exists g' d, kernel_start cfg b (new_daemon max g) = Ret d /\ registry_ok g' /\
    (forall x, IssueRegistry.get x g' =
      (fun r => if bool_decide (status r = RUNNING) then stale_record cfg (bt_ticks b x) r else r)
        <$> IssueRegistry.get x g) /\
    let o := recover_pending_retries (bt_now b) (bt_clock b) (restarted max g') in
    oc_registry (dm_orch d) = g' /\ oc_retry_queue (dm_orch d) = oc_retry_queue o /\
    oc_retry_attempts (dm_orch d) = oc_retry_attempts o /\
    oc_completed (dm_orch d) = recovered_set [COMPLETED] g' [] /\
    dm_pending_review d = recovered_set [PENDING_REVIEW] g' [].
Proof.
  intros Hg Hh Hc. destruct (stale_running_spec cfg (bt_ticks b) g Hg) as (g' & E & Hg' & Hx).
  exists g'. unfold kernel_start. rewrite Hh, Hc. cbn [mbind outcome_bind]. cbn [new_daemon dm_orch restarted oc_registry].
  rewrite E. cbn [mbind outcome_bind]. eexists. split; [reflexivity|]. split; [done|]. split; [done|].
  pose proof (recover_rest (bt_now b) (bt_clock b) (pending_retry_records g') (restarted max g')) as (H1 & H2 & _).
  unfold recover_pending_retries, recover_persistent_states in *. cbn in H1, H2 |- *.
  unfold set_registry in *. cbn in *. unfold restarted in *. rewrite H1, H2. done.
Qed.

(** ** The title filter *)

(** The tracker filters by what the configuration says. *)
Definition filter_agrees (s : Settings) : Prop :=
  forall f, st_filter s = Some f ->
    f = configure_title_prefix_filter (tc_title_prefixes (wf_tracker (st_workflow s)))
          (tc_title_prefix_match (wf_tracker (st_workflow s))).

(** A history of cycles, each with the time of the file and what it loads as. *)
Definition refreshes (l : list (option Z * outcome cerr WorkflowConfig)) (s : Settings) : Settings :=
  fold_left (fun s x => refresh_title_prefix_filter (fst x) (snd x) s) l s.

(** The four ways a reload can end. *)
Lemma refresh_cases m loaded s :
  refresh_title_prefix_filter m loaded s = s \/
  refresh_title_prefix_filter m loaded s = mkSettings (st_workflow s) (st_filter s) m \/
  exists c, loaded = Ret c /\ tc_kind (wf_tracker c) = tc_kind (wf_tracker (st_workflow s)) /\
    is_Some (st_filter s) /\
    refresh_title_prefix_filter m loaded s =
      let p := tc_title_prefixes (wf_tracker c) in
      let k := tc_title_prefix_match (wf_tracker c) in
      mkSettings (set_title_filter p k (st_workflow s)) (Some (configure_title_prefix_filter p k)) m.
Proof.
  unfold refresh_title_prefix_filter. destruct m as [m|]; [|by left]. destruct (bool_decide _); [by left|].
  destruct loaded as [c|]; [|by right; left]. cbn [st_workflow st_filter].
  destruct (String.eqb_spec (tc_kind (wf_tracker c)) (tc_kind (wf_tracker (st_workflow s)))) as [Hk|]; [|by right; left].
  cbn [negb]. destruct (st_filter s) as [f|]; [|by right; left]. right. right. by exists c.
Qed.

Lemma set_title_bounds p k c : k ∈ ["any"; "all"] -> in_bounds c -> in_bounds (set_title_filter p k c).
Proof. intros Hk []. constructor; done. Qed.

Lemma refresh_keeps m loaded s :
  (forall c, loaded = Ret c -> in_bounds c) ->
  in_bounds (st_workflow s) /\ filter_agrees s ->
  let s' := refresh_title_prefix_filter m loaded s in
  in_bounds (st_workflow s') /\ filter_agrees s' /\
  set_title_filter [] "any" (st_workflow s') = set_title_filter [] "any" (st_workflow s).
Proof.
  intros Hl [Hb Hf] s'. unfold s'.
  destruct (refresh_cases m loaded s) as [->|[->|(c & -> & _ & _ & ->)]]; [done|done|]. cbn. split; [|split; [|done]].
  - apply set_title_bounds; [|done]. apply (Hl c eq_refl).
  - by intros f [= <-].
Qed.

(** ** Cycles *)

Section cycle_facts.
Context {W : Type} (ru : Runtime W).

Lemma do_phases_log ps c r c' :
  do_phases ru ps c = (r, c') ->
  cy_in_progress c' = cy_in_progress c /\
  exists k, cy_log c' = cy_log c ++ take k ps /\ (r = Ret tt -> take k ps = ps).
Proof.
  revert c. induction ps as [|p ps IH]; intros c; simpl.
  - intros [= <- <-]. split; [done|]. exists 0%nat. by rewrite app_nil_r.
  - unfold mbind, M_bind, do_phase. destruct (ru_phase ru p (cy_world c)) as [[[]|e] w].
    + intros H. destruct (IH _ H) as (Hp & k & Hl & Hr). split; [done|]. exists (S k). simpl.
      cbn in Hl. rewrite Hl, <- app_assoc. split; [done|]. intros Hx. by rewrite (Hr Hx).
    + intros [= <- <-]. split; [done|]. exists 1%nat. done.
Qed.

(** What a cycle's closing does. *)
Lemma closing_log c r c' :
  (_ ← set_in_progress false; _ ← do_phase ru OnPollEnd; do_phase ru BroadcastStatus) c = (r, c') ->
  cy_in_progress c' = false /\
  (cy_log c' = cy_log c ++ [OnPollEnd; BroadcastStatus] \/
   cy_log c' = cy_log c ++ [OnPollEnd] /\ r <> Ret tt).
Proof.
  unfold mbind, M_bind, set_in_progress, modify, do_phase. cbn [cy_world cy_log cy_in_progress].
  destruct (ru_phase ru OnPollEnd (cy_world c)) as [[[]|e] w].
  - cbn [cy_world cy_log cy_in_progress]. destruct (ru_phase ru BroadcastStatus w) as [r1 w1].
    intros [= <- <-]. split; [done|]. left. cbn. by rewrite <- app_assoc.
  - intros [= <- <-]. split; [done|]. by right.
Qed.
End cycle_facts.

(** ** The loop *)

Section loop_facts.
Context {W : Type} (lp : Loop W).

Definition is_finished (e : loop_event) : bool := match e with Finished _ => true | _ => false end.

(** The loop only runs cycles. *)
Lemma poll_loop_log fuel s r s' :
  poll_loop lp fuel s = Some (r, s') ->
  exists n, snd s' = snd s ++ repeat CycleRun n /\ (r = Ret tt -> lp_shutdown lp (fst s') = true).
Proof.
  revert s. induction fuel as [|fuel IH]; intros s; simpl; destruct (lp_shutdown lp (fst s)) eqn:Es; try done.
  1, 2: intros [= <- <-]; exists 0%nat; by rewrite app_nil_r.
  unfold mbind, M_bind, note, modify, call. cbn [fst snd].
  destruct (lp_cycle lp (fst s)) as [[[]|e] w]; cbn [fst snd].
  - destruct (lp_wait lp w) as [[[]|e] w1]; cbn [fst snd].
    + intros H. destruct (IH _ H) as (n & Hn & Hr). exists (S n). cbn in Hn. by rewrite Hn, <- app_assoc.
    + intros [= <- <-]. by exists 1%nat.
  - intros [= <- <-]. by exists 1%nat.
Qed.

Lemma loop_fuel_enough m s :
  (forall w, lp_shutdown lp w = false -> exists w1 w2, lp_cycle lp w = (Ret tt, w1) /\ lp_wait lp w1 = (Ret tt, w2)
     /\ (lp_shutdown lp w2 = true \/ (m w2 < m w)%nat)) ->
  exists s', poll_loop lp (S (m (fst s))) s = Some (Ret tt, s').
Proof.
  intros Hstep. remember (S (m (fst s))) as fuel eqn:Hf. assert (Hle : (m (fst s) < fuel)%nat) by lia. clear Hf.
  revert s Hle. induction fuel as [|fuel IH]; intros s Hle; [lia|]. simpl.
  destruct (lp_shutdown lp (fst s)) eqn:Es; [by eexists|].
  destruct (Hstep _ Es) as (w1 & w2 & E1 & E2 & Hd).
  unfold mbind, M_bind, note, modify, call. cbn [fst snd]. rewrite E1. cbn [fst snd]. rewrite E2.
  destruct Hd as [Hd|Hd]; [|apply IH; cbn; lia].
  destruct fuel; simpl; rewrite Hd; by eexists.
Qed.
End loop_facts.

(** ** Theorems *)

(** C11: a start after a crash leaves no record running.  Each record that was
    running is failed and has a retry queued as attempt one; every other record is
    unchanged and has a retry queued exactly when one was planned; no issue is
    queued twice; and the sets that keep an issue from being launched again are
    exactly the issues that the registry holds as completed and as pending
    review. *)
Theorem startup_recovers (cfg : AgentConfig) (b : Boot) (max : Z) (g : Registry) :
  registry_ok g -> default (Ret tt) (bt_hook b) = Ret tt -> bt_cleanup b = Ret tt ->
  exists d, kernel_start cfg b (new_daemon max g) = Ret d /\
    let o := dm_orch d in
    let has r := is_some (next_retry_at (intents r)) in
    running_records (oc_registry o) = [] /\
    (forall id r, IssueRegistry.get id g = Some r ->
       if bool_decide (status r = RUNNING) then
         IssueRegistry.get id (oc_registry o) = Some (stale_record cfg (bt_ticks b id) r) /\
         has_entry id (oc_retry_queue o) = true /\ attempts_of id o = 1
       else
         IssueRegistry.get id (oc_registry o) = Some r /\ has_entry id (oc_retry_queue o) = has r) /\
    NoDup (map rt_dedup_key (oc_retry_queue o)) /\
    (forall id, id ∈ oc_completed o <-> exists r, IssueRegistry.get id g = Some r /\ status r = COMPLETED) /\
    (forall id, id ∈ dm_pending_review d <-> exists r, IssueRegistry.get id g = Some r /\ status r = PENDING_REVIEW).
Proof.
  intros Hg Hh Hc. destruct (kernel_start_returns cfg b max g Hg Hh Hc) as (g' & d & E & Hg' & Hx & Ho).
  cbv zeta in Ho. destruct Ho as (Hr & Hq & Ha & Hcomp & Hpr).
  pose proof (settled_status cfg (bt_ticks b) g g' Hx) as Hst.
  exists d. split; [done|]. cbv zeta. rewrite Hr, Hq, Hcomp, Hpr. split; [|split; [|split; [|split]]].
  - apply elem_of_nil_inv. intros r Hin%by_status_get; [|done]. destruct Hin as [Hin Hs]. rewrite Hx in Hin.
    destruct (IssueRegistry.get (issue_id r) g) as [r0|]; [|done]. cbn in Hin.
    destruct (bool_decide_reflect (status r0 = RUNNING)) as [H|H]; injection Hin as Hin;
      rewrite <- Hin in Hs; [done|by apply H].
  - intros id r Er. pose proof (Hx id) as Hid. rewrite Er in Hid. cbn in Hid.
    destruct (bool_decide (status r = RUNNING)); (split; [done|]).
    + split; [by rewrite (recovered_entry _ _ _ _ _ _ Hg' Hid)|]. unfold attempts_of. rewrite Ha.
      apply (recovered_attempt _ _ _ _ _ _ Hg' Hid). by eexists.
    + by rewrite (recovered_entry _ _ _ _ _ _ Hg' Hid).
  - rewrite recover_pending_queue, map_map. cbn. by apply ids_NoDup.
  - intros id. rewrite recovered_set_spec by done. by apply Hst.
  - intros id. rewrite recovered_set_spec by done. by apply Hst.
Qed.

(** A daemon that crashed in the fifth attempt at one issue, with another one
    completed. *)
Definition crash_history : list (Tick * reg_call) :=
  [(tick 1, CallRegister "7" "I-7" sample_args "c"); (tick 2, CallPersistRetryPlan "7" 4 3);
   (tick 3, CallClearRetryPlan "7"); (tick 3, CallRunning "7");
   (tick 3, CallRegister "8" "I-8" sample_args "c"); (tick 4, CallCompleted "8")].

Definition crashed : Registry := exec_calls crash_history empty_registry.

Definition quiet_boot : Boot :=
  mkBoot None (Ret tt) (fun _ => mkTicks (tick 100) (tick 101)) 102 (fun _ => 103%Q).

Lemma crashed_ok : registry_ok crashed.
Proof.
  split; [vm_compute; repeat constructor; set_solver|]. intros id r. unfold IssueRegistry.get.
  intros H%dget_In. vm_compute in H. apply elem_of_cons in H as [[= -> ->]|H]; [done|].
  by apply list_elem_of_singleton in H as [= -> ->].
Qed.

Lemma startup_recovers_witness :
  exists d, kernel_start demo_cfg quiet_boot (new_daemon 2 crashed) = Ret d /\
    running_records (oc_registry (dm_orch d)) = [] /\ ("8" ∈ oc_completed (dm_orch d)).
Proof.
  destruct (startup_recovers demo_cfg quiet_boot 2 crashed crashed_ok eq_refl eq_refl)
    as (d & E & Hrun & _ & _ & Hcomp & _).
  exists d. split; [exact E|]. split; [exact Hrun|]. apply Hcomp. eexists. split; vm_compute; reflexivity.
Defined.

(** A crash forgets the attempts: whatever an issue had used up, the first
    failure after the restart is granted another retry. *)
Theorem crash_forgets_attempts (cfg : AgentConfig) (b : Boot) (max : Z) (g : Registry) (id : string)
    (r : IssueRecord) (t0 t : Tick) (s : Session) (base : option Z) :
  registry_ok g -> default (Ret tt) (bt_hook b) = Ret tt -> bt_cleanup b = Ret tt ->
  IssueRegistry.get id g = Some r -> status r = RUNNING ->
  max_retry_attempts cfg = 0 \/ 2 <= max_retry_attempts cfg ->
  ses_id s = id -> non_retryable (ses_end_reason s) = false ->
  exists d, kernel_start cfg b (new_daemon max g) = Ret d /\
    fst (schedule_retry cfg t0 t s base (dm_orch d)) = Ret true.
Proof.
  intros Hg Hh Hc Hr Hs Hmax Hid Hnr. destruct (kernel_start_returns cfg b max g Hg Hh Hc) as (g' & d & E & Hg' & Hx & Ho).
  destruct Ho as (_ & _ & Ha & _). exists d. split; [done|].
  assert (Hat : attempts_of (ses_id s) (dm_orch d) = 1).
  { unfold attempts_of. rewrite Ha, Hid. specialize (Hx id). rewrite Hr in Hx. cbn in Hx.
    rewrite bool_decide_eq_true_2 in Hx by done. apply (recovered_attempt _ _ _ _ _ _ Hg' Hx). by eexists. }
  rewrite schedule_retry_granted; [done|rewrite Hat; lia|done|]. rewrite Hat. unfold over_limit.
  destruct (Z.eqb_spec (max_retry_attempts cfg) 0); [done|]. simpl. apply Z.ltb_ge. lia.
Qed.

(** The fifth attempt was past the limit of two already. *)
Example crash_forgets_attempts_here :
  (fun r => retry_count (intents r)) <$> IssueRegistry.get "7" crashed = Some 4 /\ max_retry_attempts demo_cfg = 2 /\
  match kernel_start demo_cfg quiet_boot (new_daemon 2 crashed) with
  | Ret d => fst (schedule_retry demo_cfg (tick 110) (tick 110) failed_session None (dm_orch d)) = Ret true
  | Raise _ => False
  end.
Proof. vm_compute. repeat split; reflexivity. Qed.

(** However the workflow file changes under a daemon, the configuration in force
    stays within its bounds, the tracker filters by what it says, and nothing else
    of it moves. *)
Theorem reload_keeps_settings (l : list (option Z * outcome cerr WorkflowConfig)) (s : Settings) :
  Forall (fun x => forall c, snd x = Ret c -> in_bounds c) l ->
  in_bounds (st_workflow s) -> filter_agrees s ->
  in_bounds (st_workflow (refreshes l s)) /\ filter_agrees (refreshes l s) /\
  set_title_filter [] "any" (st_workflow (refreshes l s)) = set_title_filter [] "any" (st_workflow s).
Proof.
  intros Hl. revert s. induction Hl as [|[m loaded] l Hx Hl IH]; intros s Hb Hf; [done|]. cbn [refreshes fold_left fst snd].
  destruct (refresh_keeps m loaded s Hx (conj Hb Hf)) as (Hb' & Hf' & He). rewrite <- He. by apply IH.
Qed.

(** A saved edit of the filter is in force from the next cycle on, whatever the
    cycles after it load while the file stays as it is. *)
Theorem edit_takes_effect (m : Z) (c : WorkflowConfig) (l : list (outcome cerr WorkflowConfig)) (s : Settings) :
  st_mtime s <> Some m -> is_Some (st_filter s) ->
  tc_kind (wf_tracker c) = tc_kind (wf_tracker (st_workflow s)) ->
  let s' := refreshes ((Some m, Ret c) :: map (fun x => (Some m, x)) l) s in
  st_filter s' = Some (configure_title_prefix_filter (tc_title_prefixes (wf_tracker c)) (tc_title_prefix_match (wf_tracker c)))
  /\ tc_title_prefixes (wf_tracker (st_workflow s')) = tc_title_prefixes (wf_tracker c).
Proof.
  intros Hm [f Hf] Hk s'. unfold s', refreshes. cbn [fold_left fst snd].
  set (s1 := refresh_title_prefix_filter (Some m) (Ret c) s).
  assert (H1 : s1 = mkSettings (set_title_filter (tc_title_prefixes (wf_tracker c)) (tc_title_prefix_match (wf_tracker c)) (st_workflow s))
                (Some (configure_title_prefix_filter (tc_title_prefixes (wf_tracker c)) (tc_title_prefix_match (wf_tracker c)))) (Some m)).
  { unfold s1, refresh_title_prefix_filter. rewrite bool_decide_eq_false_2 by congruence. cbn [st_workflow st_filter].
    rewrite Hk, String.eqb_refl, Hf. done. }
  assert (Hl : fold_left (fun s x => refresh_title_prefix_filter (fst x) (snd x) s) (map (fun x => (Some m, x)) l) s1 = s1).
  { clearbody s1. subst s1. induction l as [|x l IH]; [done|]. cbn [map fold_left fst snd].
    unfold refresh_title_prefix_filter at 2. rewrite bool_decide_eq_true_2 by done. exact IH. }
  rewrite Hl, H1. done.
Qed.

Lemma insert_candidate_In x y l : y ∈ insert_candidate x l <-> y = x \/ y ∈ l.
Proof.
  induction l as [|z l IH]; simpl; [set_solver|]. destruct (candidate_le x z); [set_solver|].
  rewrite !elem_of_cons, IH. tauto.
Qed.

(** While the filter agrees with the configuration, a poll of a local tracker
    offers exactly the open issues whose titles the configured prefixes match. *)
Theorem candidates_configured (Y : Yaml) (X : ClarModel.Text) (s : Settings) (t : Tracker) (i : LocalIssue) :
  filter_agrees s -> is_Some (st_filter s) ->
  i ∈ candidates Y X s t <->
  i ∈ map (fun d => doc_issue (snd d)) (load_documents Y X t) /\
  mem (normalize_state (default "open" (li_state i)))
    (normalize_states (tc_active_states (wf_tracker (st_workflow s)))) = true /\
  matches_title_prefixes (li_title i)
    (normalize_title_prefixes (tc_title_prefixes (wf_tracker (st_workflow s))))
    (normalize_match (tc_title_prefix_match (wf_tracker (st_workflow s)))) = true.
Proof.
  intros Ha [f Hf]. unfold candidates. rewrite Hf. cbn [default]. rewrite (Ha f Hf). cbn [configure_title_prefix_filter tf_prefixes tf_match].
  unfold fetch_candidate_issues.
  assert (Hin : forall l, i ∈ foldr insert_candidate [] l <-> i ∈ l).
  { induction l as [|x l IH]; simpl; [done|]. by rewrite insert_candidate_In, IH, elem_of_cons. }
  rewrite Hin, list_elem_of_In, filter_In, andb_true_iff, <- list_elem_of_In. done.
Qed.

(** An edit saved between the loading of the file and the building of the daemon
    is never seen: the daemon remembers the time of the edited file. *)
Theorem early_edit_missed (c : WorkflowConfig) (filters : bool) (m : Z) (l : list (outcome cerr WorkflowConfig)) :
  refreshes (map (fun x => (Some m, x)) l) (new_settings c filters (Some m)) = new_settings c filters (Some m).
Proof.
  induction l as [|x l IH]; [done|]. cbn [map refreshes fold_left fst snd].
  unfold refresh_title_prefix_filter at 2. rewrite bool_decide_eq_true_2 by done. exact IH.
Qed.

(** Every cycle runs its phases in the one order and stops at the first that
    fails; a cycle that returns ran them all; on every path the poll is marked as
    over. *)
Theorem cycle_in_order {W} (ru : Runtime W) (c c' : Cycle W) (r : outcome raised unit) :
  dispatch_runtime_once ru c = (r, c') ->
  (fst (ru_phase ru OnPollStart (cy_world c)) = Ret tt -> cy_in_progress c' = false) /\
  exists k j, cy_log c' = cy_log c ++ OnPollStart :: take k cycle_phases ++ take j [OnPollEnd; BroadcastStatus] /\
    (r = Ret tt -> take k cycle_phases = cycle_phases /\ take j [OnPollEnd; BroadcastStatus] = [OnPollEnd; BroadcastStatus]) /\
    (fst (ru_phase ru OnPollStart (cy_world c)) = Ret tt -> j <> 0%nat).
Proof.
  unfold dispatch_runtime_once. unfold mbind at 1, M_bind at 1, do_phase at 1.
  destruct (ru_phase ru OnPollStart (cy_world c)) as [[[]|e] w] eqn:E0.
  2:{ intros [= <- <-]. split; [done|]. exists 0%nat, 0%nat. done. }
  unfold mbind at 1, M_bind at 1, set_in_progress at 1, modify, guarded. cbn [cy_world cy_log].
  destruct (do_phases ru cycle_phases _) as [r1 c1] eqn:E1. apply do_phases_log in E1 as (_ & k & Hk & Hr1).
  match goal with |- context [match ?m c1 with _ => _ end] => destruct (m c1) as [r2 c2] eqn:E2 end. apply closing_log in E2 as (Hp & Hl).
  intros H. assert (Hc : c' = c2 /\ (r = Ret tt -> r1 = Ret tt /\ r2 = Ret tt)).
  { destruct r2 as [[]|]; by injection H as <- <-. }
  destruct Hc as [-> Hr]. split; [done|]. cbn in Hk. exists k.
  destruct Hl as [Hl|[Hl Hn]]; [exists 2%nat|exists 1%nat]; rewrite Hl, Hk, <- !app_assoc; (split; [done|]).
  - split; [|done]. intros [Hx _]%Hr. split; [by apply Hr1|done].
  - split; [|done]. intros [_ Hx]%Hr. by destruct Hn.
Qed.

(** The loop ends whenever the shutdown does come: as many cycles are enough as
    the shutdown is away. *)
Theorem loop_returns {W} (lp : Loop W) (away : W -> nat) (w w1 w2 : W) :
  lp_start lp w = (Ret tt, w1) -> lp_notify lp w1 = (Ret tt, w2) ->
  (forall w, fst (lp_cancel_all lp w) = Ret tt) ->
  (forall w, lp_shutdown lp w = false -> exists w1 w2, lp_cycle lp w = (Ret tt, w1) /\ lp_wait lp w1 = (Ret tt, w2)
     /\ (lp_shutdown lp w2 = true \/ (away w2 < away w)%nat)) ->
  exists n w', run_runtime lp (S (away w2)) (w, []) =
    Some (Ret tt, (w', HeartbeatStarted :: repeat CycleRun n ++ [AgentsCancelled; Finished 0])).
Proof.
  intros E1 E2 Hca Hstep. destruct (loop_fuel_enough lp away (w2, [HeartbeatStarted]) Hstep) as [[w3 l] E3].
  destruct (poll_loop_log lp _ _ _ _ E3) as (n & Hn & _). cbn in Hn. exists n, (snd (lp_cancel_all lp w3)).
  unfold run_runtime. unfold mbind at 1 2, M_bind at 1 2, call, note, modify. cbn [fst snd]. rewrite E1. cbn [fst snd]. rewrite E2.
  cbn [fst snd app] in *. rewrite E3. unfold mbind, M_bind. cbn [fst snd]. specialize (Hca w3).
  destruct (lp_cancel_all lp w3) as [r w4]. cbn in Hca. subst r l. cbn. by rewrite <- app_assoc.
Qed.

(** Once the daemon is up, every end of the loop is reported exactly once: with
    status one for an error of a cycle, with status zero for a shutdown and for a
    cancellation; the agents are cancelled only after a shutdown. *)
Theorem end_reported_once {W} (lp : Loop W) (fuel : nat) (w w1 w2 w' : W) (r : outcome raised unit) (l : list loop_event) :
  lp_start lp w = (Ret tt, w1) -> lp_notify lp w1 = (Ret tt, w2) ->
  run_runtime lp fuel (w, []) = Some (r, (w', l)) ->
  List.filter is_finished l = [Finished (match r with Raise (Failed _) => 1 | _ => 0 end)] /\
  (AgentsCancelled ∈ l <-> exists w3, lp_shutdown lp w3 = true /\ exists s, poll_loop lp fuel (w2, [HeartbeatStarted]) = Some (Ret tt, (w3, s))).
Proof.
  intros E1 E2. unfold run_runtime. unfold mbind at 1 2, M_bind at 1 2, call, note, modify. cbn [fst snd].
  rewrite E1. cbn [fst snd]. rewrite E2. cbn [fst snd app].
  assert (Hrep : forall n, List.filter is_finished (repeat CycleRun n) = []) by (induction n; done).
  assert (Hno : forall n, AgentsCancelled ∉ repeat CycleRun n).
  { intros n Hin%list_elem_of_In%repeat_spec. done. }
  destruct (poll_loop lp fuel (w2, [HeartbeatStarted])) as [[r0 [w3 l0]]|] eqn:E3; [|done].
  destruct (poll_loop_log lp _ _ _ _ E3) as (n & Hn & Hsh). cbn in Hn, Hsh. subst l0.
  destruct r0 as [[]|e].
  - unfold mbind, M_bind. cbn [fst snd]. destruct (lp_cancel_all lp w3) as [[[]|[e|]] w4]; cbn; intros [= <- <- <-];
      rewrite <- ?app_assoc; cbn [List.filter is_finished]; rewrite !List.filter_app, Hrep; cbn; (split; [done|]); (split; [intros _; exists w3; split; [by apply Hsh|by eexists]|set_solver]).
  - destruct e as [e|]; cbn; intros [= <- <- <-]; cbn [List.filter is_finished]; rewrite !List.filter_app, Hrep; cbn; (split; [done|]);
      (split; [intros H; exfalso; specialize (Hno n); set_solver|by intros (? & _ & ? & ?)]).
Qed.
