(* ===== verification/RulesLearner.v ===== *)
(** * Learning rules from reviews ([src/orchestratord/rules_learner.py])

    The rules an agent reports after a review are extracted, merged into the
    rules file, scored, pruned and written; [_apply_review_rules] of
    [applications/issue_pr/interpret.py] does this once per commit.  What the
    regular expressions of the extraction match, the similarity of two texts and
    the age of a timestamp are parameters.  A rule is the record of the keys the
    code gives it; the file is its first line and the rules it decodes to. *)

From Stdlib Require Import Permutation Sorted Qfield.
From S2P Require Import Prelude Errors Dag StageRunner Regex.

Open Scope string_scope.
Open Scope list_scope.
Open Scope Z_scope.

Inductive rerr :=
| IndexError
| AttributeError
| OSError.

Abbreviation R A := (outcome rerr A).

(** ** Rules *)

(** The value of ["_conflict_with_idx"]. *)
Inductive ConflictIdx :=
| OneIdx (i : Z)
| ManyIdx (l : list Z).

Record Rule := mkRule {
  r_id : option Z;
  r_category : string;
  r_summary : string;
  r_body : string;
  r_source : string;
  r_support : option Z;
  r_confidence : option string;
  r_created_at : string;
  r_updated_at : string;
  r_conflict_with : list Z;
  r_last_applied : string;
  r_conflict_idx : option ConflictIdx;
}.

Definition with_id (n : Z) (r : Rule) : Rule :=
  mkRule (Some n) (r_category r) (r_summary r) (r_body r) (r_source r) (r_support r) (r_confidence r)
    (r_created_at r) (r_updated_at r) (r_conflict_with r) (r_last_applied r) (r_conflict_idx r).
Definition with_source (s : string) (r : Rule) : Rule :=
  mkRule (r_id r) (r_category r) (r_summary r) (r_body r) s (r_support r) (r_confidence r)
    (r_created_at r) (r_updated_at r) (r_conflict_with r) (r_last_applied r) (r_conflict_idx r).
Definition with_updated (now : string) (r : Rule) : Rule :=
  mkRule (r_id r) (r_category r) (r_summary r) (r_body r) (r_source r) (r_support r) (r_confidence r)
    (r_created_at r) now (r_conflict_with r) (r_last_applied r) (r_conflict_idx r).
Definition with_support (n : Z) (r : Rule) : Rule :=
  mkRule (r_id r) (r_category r) (r_summary r) (r_body r) (r_source r) (Some n) (r_confidence r)
    (r_created_at r) (r_updated_at r) (r_conflict_with r) (r_last_applied r) (r_conflict_idx r).
Definition with_conflict_idx (x : option ConflictIdx) (r : Rule) : Rule :=
  mkRule (r_id r) (r_category r) (r_summary r) (r_body r) (r_source r) (r_support r) (r_confidence r)
    (r_created_at r) (r_updated_at r) (r_conflict_with r) (r_last_applied r) x.
Definition with_conflicts (l : list Z) (r : Rule) : Rule :=
  mkRule (r_id r) (r_category r) (r_summary r) (r_body r) (r_source r) (r_support r) (r_confidence r)
    (r_created_at r) (r_updated_at r) l (r_last_applied r) (r_conflict_idx r).

(** [r.get("support_count", 1)] *)
Definition support_of (r : Rule) : Z := default 1 (r_support r).

(** ** Extraction *)

Definition RULE_CATEGORIES : list string :=
  ["naming"; "error_handling"; "testing"; "import_style"; "code_style"; "type_annotation"; "architecture";
   "boilerplate"; "security"; "performance"; "other"].

Definition CATEGORY_KEYWORDS : list (string * list string) :=
  [("error_handling", ["except"; "exception"; "error"; "raise"; "try"; "catch"; "异常"]);
   ("testing", ["test"; "pytest"; "assert"; "fixture"; "mock"; "测试"]);
   ("import_style", ["import"; "导入"; "排序"]);
   ("type_annotation", ["type"; "annotation"; "typing"; "mypy"; "类型"]);
   ("naming", ["name"; "naming"; "variable"; "function"; "class"; "命名"]);
   ("architecture", ["layer"; "module"; "depend"; "分层"; "依赖"; "架构"]);
   ("boilerplate", ["license"; "header"; "docstring"; "doc"; "注释"; "版权"]);
   ("security", ["security"; "auth"; "token"; "secret"; "安全"; "密钥"]);
   ("performance", ["perf"; "performance"; "speed"; "cache"; "性能"; "缓存"]);
   ("code_style", ["quote"; "引号"; "双引号"; "单引号"; "indent"; "缩进"; "space"; "空格"; "format"; "格式";
                   "style"; "风格"; "bracket"; "括号"])].

(** [_infer_category] *)
Definition infer_category (text : string) : string :=
  let lowered := lower text in
  match List.find (fun ck => existsb (fun kw => contains (lower kw) lowered) (snd ck)) CATEGORY_KEYWORDS with
  | Some (category, _) => category
  | None => "other"
  end.

(** A match of one of the two item expressions: its span and groups (the strict
    expression has no title). *)
Record Item := mkItem {
  it_start : nat;
  it_end : nat;
  it_category : option string;
  it_title : option string;
  it_summary : string;
  it_body : option string;
}.

(** [summary.split(":", 1)] *)
Fixpoint split_colon (s : string) : string * option string :=
  match s with
  | EmptyString => ("", None)
  | String c s' =>
      if Ascii.eqb c (Ascii.ascii_of_nat 58) then ("", Some s')
      else let (a, b) := split_colon s' in (String c a, b)
  end.

(** [if not body and ":" in summary] *)
Definition split_body (summary body : string) : string * string :=
  match (if String.eqb body "" then split_colon summary else (summary, None)) with
  | (a, Some b) => (strip a, strip b)
  | (_, None) => (summary, body)
  end.

Definition new_rule (now category summary body : string) : Rule :=
  mkRule None category summary body "" (Some 1) (Some "medium") now now [] now None.

Definition strict_rule (now : string) (m : Item) : Rule :=
  let (summary, body) := split_body (strip (it_summary m)) (strip (default "" (it_body m))) in
  new_rule now (strip (default "" (it_category m))) summary body.

Definition in_strict_span (spans : list (nat * nat)) (pos : nat) : bool :=
  existsb (fun se => (fst se <=? pos)%nat && (pos <? snd se)%nat) spans.

(** The em dash of the source. *)
Definition em_dash : string := "—".

Definition loose_rule (now : string) (m : Item) : option Rule :=
  let category := strip (default "" (it_category m)) in
  let bold_title := strip (default "" (it_title m)) in
  let summary := strip (it_summary m) in
  let body := strip (default "" (it_body m)) in
  if String.eqb summary "" then None
  else
    let summary := if negb (String.eqb bold_title "") && String.eqb category ""
                   then bold_title +:+ " " +:+ em_dash +:+ " " +:+ summary else summary in
    let (summary, body) := split_body summary body in
    let category := if String.eqb category "" || negb (mem category RULE_CATEGORIES)
                    then infer_category (summary +:+ " " +:+ body) else category in
    Some (new_rule now category summary body).

(** The three expressions. *)
Record Patterns := mkPatterns {
  rules_section : string -> option string;
  strict_items : string -> list Item;
  loose_items : string -> list Item;
}.

(** [RuleEngine.extract] *)
Definition extract (P : Patterns) (now reply : string) : list Rule :=
  match rules_section P reply with
  | None => []
  | Some sec =>
      let sec := strip sec in
      let strict := strict_items P sec in
      let spans := map (fun m => (it_start m, it_end m)) strict in
      map (strict_rule now) strict
      ++ omap (fun m => if in_strict_span spans (it_start m) then None else loose_rule now m) (loose_items P sec)
  end.

(** ** Judging *)

Inductive Action :=
| Duplicate
| Merge
| Conflict
| New.

Record JudgeResult := mkJudge {
  j_action : Action;
  j_target : option Z;
}.

Definition DUP_THRESHOLD : Q := 85 # 100.
Definition MERGE_THRESHOLD : Q := 55 # 100.

Section judge.
(** [SequenceMatcher(a, b).ratio()] *)
Context (ratio : string -> string -> Q).

(** The loop over [existing], from index [i]. *)
Fixpoint best_match (cand : string) (i : Z) (existing : list Rule) (best : Q * option (Z * Rule))
    : Q * option (Z * Rule) :=
  match existing with
  | [] => best
  | ex :: rest =>
      let r := ratio (lower cand) (lower (strip (r_summary ex))) in
      best_match cand (i + 1) rest (if Qle_bool r (fst best) then best else (r, Some (i, ex)))
  end.

Definition judge_one (existing : list Rule) (cand : Rule) : JudgeResult :=
  let summary := strip (r_summary cand) in
  if String.eqb summary "" then mkJudge New None
  else
    match best_match summary 0 existing (0%Q, None) with
    | (_, None) => mkJudge New None
    | (best, Some (i, ex)) =>
        if Qle_bool DUP_THRESHOLD best then mkJudge Duplicate (Some i)
        else if Qle_bool MERGE_THRESHOLD best then
          mkJudge (if String.eqb (strip (r_category cand)) (strip (r_category ex)) then Merge else Conflict) (Some i)
        else mkJudge New None
    end.

(** [BatchedLLMJudge.judge] *)
Definition judge (candidates existing : list Rule) : list JudgeResult :=
  match existing with
  | [] => map (fun _ => mkJudge New None) candidates
  | _ => map (judge_one existing) candidates
  end.
End judge.

(** ** Merging *)

Definition key_of (r : Rule) : string := lower (strip (r_summary r)).

(** [existing_map], by the place in [merged] its values live at: a later rule of
    the same key replaces an earlier one. *)
Fixpoint index_from (i : nat) (rules : list Rule) (m : dict string nat) : dict string nat :=
  match rules with
  | [] => m
  | r :: rest => index_from (S i) rest (if String.eqb (key_of r) "" then m else dset (key_of r) i m)
  end.

Definition existing_map (rules : list Rule) : dict string nat := index_from 0 rules [].

Definition bump (now : string) (r : Rule) : Rule := with_updated now (with_support (support_of r + 1) r).

(** The loop of the exact deduplication: what is left keeps its index. *)
Fixpoint exact_dedup (now : string) (m : dict string nat) (oi : nat) (candidates merged : list Rule)
    : list Rule * list (nat * Rule) :=
  match candidates with
  | [] => (merged, [])
  | c :: rest =>
      match (if String.eqb (key_of c) "" then None else dget (key_of c) m) with
      | Some i => exact_dedup now m (S oi) rest (alter (bump now) i merged)
      | None => let (merged, remaining) := exact_dedup now m (S oi) rest merged in (merged, (oi, c) :: remaining)
      end
  end.

Definition longer (a b : string) : string := if (String.length b <=? String.length a)%nat then a else b.
Definition or_str (a b : string) : string := if String.eqb a "" then b else a.

(** [conf_order.get(confidence, default)] *)
Definition conf_level (d : Z) (c : string) : Z :=
  if String.eqb c "low" then 0 else if String.eqb c "medium" then 1 else if String.eqb c "high" then 2 else d.

(** [support_count or 1] *)
Definition support_or_one (r : Rule) : Z :=
  match r_support r with Some n => if n =? 0 then 1 else n | None => 1 end.

(** [list(set(l))], in one of its orders *)
Fixpoint distinct (l : list Z) : list Z :=
  match l with
  | [] => []
  | x :: l' => if bool_decide (x ∈ l') then distinct l' else x :: distinct l'
  end.

(** [_merge_two_rules]: the result has neither an id nor conflict marks. *)
Definition merge_two_rules (now : string) (a b : Rule) : Rule :=
  let body_a := strip (r_body a) in
  let body_b := strip (r_body b) in
  let cat_a := strip (r_category a) in
  let cat_b := strip (r_category b) in
  let source_a := strip (r_source a) in
  let source_b := strip (r_source b) in
  let level r := conf_level 1 (default "medium" (r_confidence r)) in
  let top := Z.max (level a) (level b) in
  let created_a := or_str (r_created_at a) now in
  let created_b := or_str (r_created_at b) now in
  mkRule None
    (if negb (String.eqb cat_a "") && negb (String.eqb cat_b "") && negb (String.eqb cat_a cat_b) then "multi"
     else or_str cat_a (or_str cat_b "other"))
    (longer (strip (r_summary a)) (strip (r_summary b)))
    (if negb (String.eqb body_a "") && negb (String.eqb body_b "") then longer body_a body_b
     else or_str body_a body_b)
    (if String.eqb source_b "" || contains source_b source_a then source_a
     else if String.eqb source_a "" then source_b else source_a +:+ "; " +:+ source_b)
    (Some (support_or_one a + support_or_one b))
    (Some (if 2 <=? top then "high" else if 1 <=? top then "medium" else "low"))
    (if String.leb created_a created_b then created_a else created_b)
    now (distinct (r_conflict_with a ++ r_conflict_with b)) now None.

(** An index as Python reads it: a negative one counts from the end. *)
Definition py_index {A} (l : list A) (i : Z) : option nat :=
  let n := Z.of_nat (length l) in
  if (0 <=? i) && (i <? n) then Some (Z.to_nat i)
  else if (i <? 0) && (- n <=? i) then Some (Z.to_nat (n + i)) else None.

(** [merged[i] = f(merged[i])] *)
Definition at_index {A} (l : list A) (i : Z) (f : A -> R A) : R (list A) :=
  match py_index l i with
  | None => Raise IndexError
  | Some n =>
      match l !! n with
      | None => Raise IndexError
      | Some x => y ← f x; Ret (<[n := y]> l)
      end
  end.

(** [c["id"] = next_id; c["updated_at"] = now; merged.append(c)] *)
Definition append_new (now : string) (c : Rule) (s : list Rule * Z) : list Rule * Z :=
  (fst s ++ [with_updated now (with_id (snd s) c)], snd s + 1).

(** [setdefault("_conflict_with_idx", []).append(n)] *)
Definition mark_conflict (n : Z) (r : Rule) : R Rule :=
  match r_conflict_idx r with
  | None => Ret (with_conflict_idx (Some (ManyIdx [n])) r)
  | Some (ManyIdx l) => Ret (with_conflict_idx (Some (ManyIdx (l ++ [n]))) r)
  | Some (OneIdx _) => Raise AttributeError
  end.

Definition apply_one (now : string) (jr : option JudgeResult) (c : Rule) (s : list Rule * Z) : R (list Rule * Z) :=
  let fresh := Ret (append_new now c s) in
  let merged := fst s in
  let n := Z.of_nat (length merged) in
  match jr with
  | None => fresh
  | Some (mkJudge New _) | Some (mkJudge _ None) => fresh
  | Some (mkJudge Duplicate (Some t)) =>
      if t <? n then merged ← at_index merged t (fun r => Ret (bump now r)); Ret (merged, snd s) else fresh
  | Some (mkJudge Merge (Some t)) =>
      if t <? n then merged ← at_index merged t (fun r => Ret (merge_two_rules now r c)); Ret (merged, snd s) else fresh
  | Some (mkJudge Conflict (Some t)) =>
      if t <? n then
        merged ← at_index merged t (mark_conflict n);
        Ret (merged ++ [with_updated now (with_conflict_idx (Some (OneIdx t)) c)], snd s)
      else fresh
  end.

(** The loop of [_apply_judge_results] *)
Fixpoint apply_each (now : string) (results : list JudgeResult) (remaining : list (nat * Rule))
    (s : list Rule * Z) : R (list Rule * Z) :=
  match remaining with
  | [] => Ret s
  | (oi, c) :: rest => s ← apply_one now (results !! oi) c s; apply_each now results rest s
  end.

(** [_apply_judge_results] *)
Definition apply_judge_results (now : string) (merged : list Rule) (remaining : list (nat * Rule))
    (results : list JudgeResult) : R (list Rule) :=
  s ← apply_each now results remaining (merged, Z.of_nat (length merged) + 1); Ret (fst s).

(** [_deduplicate_and_merge] *)
Definition deduplicate_and_merge (now : string) (candidates existing : list Rule)
    (results : option (list JudgeResult)) : R (list Rule) :=
  let (merged, remaining) := exact_dedup now (existing_map existing) 0 candidates existing in
  match remaining, results with
  | [], _ => Ret merged
  | _, Some results => apply_judge_results now merged remaining results
  | _, None => Ret (fst (fold_left (fun s oc => append_new now (snd oc) s) remaining (merged, Z.of_nat (length merged) + 1)))
  end.

(** ** Scores and pruning *)

Section score.
(** The days since a timestamp, unless it cannot be read. *)
Context (days_since : string -> option Q).

Definition confidence_weight (c : option string) : Q :=
  match c with
  | Some c => if String.eqb c "high" then 9 # 10 else if String.eqb c "low" then 5 # 10 else 7 # 10
  | None => 7 # 10
  end.

Definition recency (created_at : string) : Q :=
  let days := if String.eqb created_at "" then 999%Q else default 999%Q (days_since created_at) in
  qmax 0 (1 - days / 90).

(** [RuleEngine.score] *)
Definition score (r : Rule) : Q :=
  ((30 # 100) * (inject_Z (Z.min (support_of r) 5) / 5)
   + (25 # 100) * (if (20 <? String.length (strip (r_body r)))%nat then 1 else 3 # 10)
   + (10 # 100) * recency (r_created_at r)
   + (15 # 100) * confidence_weight (r_confidence r)
   + (20 # 100) * confidence_weight (r_confidence r))%Q.

(** The stable sort by falling score. *)
Fixpoint insert_scored (x : Rule) (l : list Rule) : list Rule :=
  match l with
  | [] => [x]
  | y :: l' => if Qle_bool (score y) (score x) then x :: l else y :: insert_scored x l'
  end.
Definition by_score (l : list Rule) : list Rule := foldr insert_scored [] l.

(** [RuleEngine.prune] *)
Definition prune (rules : list Rule) (max_rules : Z) : list Rule :=
  if (max_rules <=? 0) || (Z.of_nat (length rules) <=? max_rules) then rules
  else take (Z.to_nat max_rules) (by_score rules).

(** ** The file *)

Definition MARKER : string := "# workflow.rules.yaml — 由 orchestratord 自动管理".

(** The first line, and the version and rules the text decodes to, unless it is
    not a mapping or not YAML. *)
Record RulesFile := mkRulesFile {
  rf_first : string;
  rf_doc : option (Z * list Rule);
}.

(** Which of the accesses succeed. *)
Record Access := mkAccess {
  ac_first : bool;
  ac_load : bool;
  ac_create : bool;
  ac_save : bool;
}.

(** [RuleStore.is_user_managed] *)
Definition is_user_managed (a : Access) (f : option RulesFile) : bool :=
  match f with
  | None => false
  | Some f => ac_first a && negb (contains MARKER (rf_first f))
  end.

(** [RuleStore.load] *)
Definition load (a : Access) (f : option RulesFile) : Z * list Rule :=
  match f with
  | Some f => if ac_load a then default (1, []) (rf_doc f) else (1, [])
  | None => (1, [])
  end.

(** [RuleStore.save]: the file is replaced or left alone. *)
Definition save (ok : bool) (version : Z) (rules : list Rule) (f : option RulesFile) : R unit * option RulesFile :=
  if ok then (Ret tt, Some (mkRulesFile MARKER (Some (version, rules)))) else (Raise OSError, f).

(** [RuleStore.ensure_file] *)
Definition ensure_file (a : Access) (f : option RulesFile) : R unit * option RulesFile :=
  match f with
  | Some _ => (Ret tt, f)
  | None => save (ac_create a) 1 [] f
  end.

(** [for i, r in enumerate(merged, start=1): r["id"] = i] *)
Definition renumber (rules : list Rule) : list Rule := imap (fun i r => with_id (Z.of_nat i + 1) r) rules.

Definition id_at (rules : list Rule) (i : Z) : R Z :=
  match py_index rules i with Some n => Ret (Z.of_nat n + 1) | None => Raise IndexError end.

(** The conflict marks of one rule, from places to ids. *)
Definition backfill_one (rules : list Rule) (r : Rule) : R Rule :=
  match r_conflict_idx r with
  | None => Ret r
  | Some idx =>
      let l := match idx with ManyIdx l => l | OneIdx i => [i] end in
      ids ← map_outcome (id_at rules) l; Ret (with_conflict_idx None (with_conflicts ids r))
  end.

Definition backfill (rules : list Rule) : R (list Rule) := map_outcome (backfill_one rules) rules.

(** [if min_confidence: ...] *)
Definition confident (min_confidence : string) (rules : list Rule) : list Rule :=
  if String.eqb min_confidence "" then rules
  else List.filter (fun r => conf_level 0 min_confidence <=? conf_level 0 (default "low" (r_confidence r))) rules.

(** What a call of [apply] is given beside the reply. *)
Record Settings := mkSettings {
  se_max_rules : Z;
  se_min_confidence : string;
  se_source : string;
}.

(** [RuleEngine.apply] *)
Definition apply (P : Patterns) (now : string) (a : Access) (se : Settings) (reply : string) (f : option RulesFile)
    : R Z * option RulesFile :=
  match extract P now reply with
  | [] => (Ret 0, f)
  | candidates =>
      let candidates := if String.eqb (se_source se) "" then candidates else map (with_source (se_source se)) candidates in
      if is_user_managed a f then (Ret 0, f)
      else
        match ensure_file a f with
        | (Raise e, f) => (Raise e, f)
        | (Ret _, f) =>
            let (version, existing) := load a f in
            match (merged ← deduplicate_and_merge now candidates existing None; backfill (renumber merged)) with
            | Raise e => (Raise e, f)
            | Ret merged =>
                let rules := confident (se_min_confidence se) (prune merged (se_max_rules se)) in
                match save (ac_save a) version rules f with
                | (Ret _, f) => (Ret (Z.of_nat (length candidates)), f)
                | (Raise e, f) => (Raise e, f)
                end
            end
        end
  end.

(** ** Once per commit *)

(** The rules file and the commits of [ExtractTracker], whose file is absent or
    unreadable as [None]. *)
Record Learned := mkLearned {
  le_rules : option RulesFile;
  le_commits : option (list string);
}.

(** What [_apply_review_rules] reads of the session. *)
Record Review := mkReview {
  rv_commit : option string;
  rv_output : string;
  rv_feedback : string;
}.

(** [_apply_review_rules], for an enabled rules file: every exception ends it. *)
Definition apply_review_rules (P : Patterns) (now : string) (a : Access) (tracker_ok : bool) (se : Settings)
    (v : Review) (s : Learned) : Learned :=
  match rv_commit v with
  | None => s
  | Some sha =>
      if String.eqb sha "" then s
      else
        let processed := default [] (le_commits s) in
        if mem sha processed then s
        else
          let reply := if contains "## Extracted Rules" (rv_output v) then rv_output v else rv_feedback v in
          if String.eqb reply "" then s
          else
            match apply P now a se reply (le_rules s) with
            | (Raise _, f) => mkLearned f (le_commits s)
            | (Ret count, f) =>
                mkLearned f (if (0 <? count) && tracker_ok then Some (sha :: processed) else le_commits s)
            end
  end.
End score.

(** ** What the pipeline keeps

    Merging neither loses nor invents support, whatever the judge answers; the
    judge's own answers never make the merge fail; pruning keeps the best; a file
    of the user's is not touched; a review counts once, as long as the record of
    it can be written. *)

(** ** Support *)

Definition total (l : list Rule) : Z := foldr (fun r n => support_of r + n) 0 l.

(** Rules as the pipeline writes them. *)
Definition supported (l : list Rule) : Prop := Forall (fun r => 1 <= support_of r) l.

(** Candidates as the extraction makes them. *)
Definition single (r : Rule) : Prop := r_support r = Some 1.

Lemma total_app l l' : total (l ++ l') = total l + total l'.
Proof. induction l as [|r l IH]; simpl; [done|]. rewrite IH. lia. Qed.

Lemma total_insert l n x y : l !! n = Some x -> total (<[n := y]> l) = total l - support_of x + support_of y.
Proof.
  revert n. induction l as [|r l IH]; intros [|n] H; simpl in *; try done.
  - injection H as ->. lia.
  - rewrite (IH n H). lia.
Qed.

Lemma supported_insert l n y : supported l -> 1 <= support_of y -> supported (<[n := y]> l).
Proof. intros Hl Hy. by apply Forall_insert. Qed.

Lemma support_bump now r : support_of (bump now r) = support_of r + 1.
Proof. done. Qed.

Lemma support_or_one_pos r : 1 <= support_of r -> support_or_one r = support_of r.
Proof.
  unfold support_of, support_or_one. destruct (r_support r) as [n|]; simpl; [|done].
  destruct (Z.eqb_spec n 0); lia.
Qed.

Lemma at_index_spec {A} (l l' : list A) i f :
  at_index l i f = Ret l' -> exists n x y, l !! n = Some x /\ f x = Ret y /\ l' = <[n := y]> l.
Proof.
  unfold at_index. destruct (py_index l i) as [n|]; [|done]. destruct (l !! n) as [x|] eqn:E; [|done].
  cbn [mbind outcome_bind]. destruct (f x) as [y|] eqn:Ef; [|done]. intros [= <-]. by exists n, x, y.
Qed.

Lemma alter_insert_at {A} (f : A -> A) (l : list A) n x : l !! n = Some x -> alter f n l = <[n := f x]> l.
Proof.
  revert n. induction l as [|y l IH]; intros [|n] H; simpl in *; try done; [by injection H as ->|].
  change (y :: alter f n l = y :: <[n := f x]> l). by rewrite (IH n H).
Qed.

(** ** Exact deduplication *)

(** The map points into the list. *)
Definition points_into (m : dict string nat) (n : nat) : Prop := forall k i, dget k m = Some i -> (i < n)%nat.

Lemma index_from_points i rules m n :
  (i + length rules <= n)%nat -> points_into m n -> points_into (index_from i rules m) n.
Proof.
  revert i m. induction rules as [|r rules IH]; intros i m Hn Hm; simpl in *; [done|].
  apply IH; [lia|]. destruct (String.eqb _ _); [done|]. intros k j. rewrite dget_dset.
  destruct (decide _); [intros [= <-]; lia|apply Hm].
Qed.

Lemma existing_map_points rules : points_into (existing_map rules) (length rules).
Proof. apply index_from_points; [simpl; lia|done]. Qed.

Lemma exact_dedup_spec now m oi candidates merged merged' remaining :
  exact_dedup now m oi candidates merged = (merged', remaining) ->
  points_into m (length merged) ->
  length merged' = length merged /\
  total merged' + Z.of_nat (length remaining) = total merged + Z.of_nat (length candidates) /\
  (supported merged -> supported merged') /\
  (forall P, Forall P candidates -> Forall P (map snd remaining)) /\
  map r_conflict_idx merged' = map r_conflict_idx merged.
Proof.
  revert oi merged merged' remaining. induction candidates as [|c candidates IH]; intros oi merged merged' remaining; simpl.
  { intros [= <- <-] _. by repeat split. }
  destruct (if String.eqb (key_of c) "" then None else dget (key_of c) m) as [i|] eqn:E; intros H Hm.
  - assert (Hi : (i < length merged)%nat) by (destruct (String.eqb _ _); [done|]; by apply (Hm (key_of c))).
    apply lookup_lt_is_Some in Hi as [r Hr].
    assert (Ha : alter (bump now) i merged = <[i := bump now r]> merged) by (by apply alter_insert_at).
    rewrite Ha in H. destruct (IH _ _ _ _ H) as (H1 & H2 & H3 & H4 & H5). { by rewrite length_insert. }
    rewrite length_insert in H1. rewrite (total_insert _ _ _ _ Hr), support_bump in H2.
    split; [done|]. split; [lia|]. split; [|split].
    + intros Hs. apply H3, supported_insert; [done|]. rewrite support_bump. pose proof (Forall_lookup_1 _ _ _ _ Hs Hr) as Hx. simpl in Hx. lia.
    + intros P HP. apply H4. by inversion HP.
    + rewrite H5. apply list_eq. intros j. rewrite !list_lookup_fmap. destruct (decide (i = j)) as [<-|Hne].
      * rewrite list_lookup_insert_eq by (by eapply lookup_lt_Some). by rewrite Hr.
      * by rewrite list_lookup_insert_ne.
  - destruct (exact_dedup now m (S oi) candidates merged) as [m1 r1] eqn:E1. injection H as <- <-.
    destruct (IH _ _ _ _ E1 Hm) as (H1 & H2 & H3 & H4 & H5). split; [done|]. simpl. split; [lia|]. split; [done|].
    split; [|done]. intros P HP. apply Forall_cons in HP as [? ?]. constructor; auto.
Qed.

(** ** Judged merging *)

Lemma support_merge now a b :
  1 <= support_of a -> 1 <= support_of b -> support_of (merge_two_rules now a b) = support_of a + support_of b.
Proof. intros Ha Hb. cbn. by rewrite !support_or_one_pos. Qed.

Lemma support_mark n r r' : mark_conflict n r = Ret r' -> support_of r' = support_of r.
Proof. unfold mark_conflict. destruct (r_conflict_idx r) as [[]|]; by intros [= <-]. Qed.

Lemma apply_one_total now jr c s s' :
  apply_one now jr c s = Ret s' -> single c -> supported (fst s) ->
  total (fst s') = total (fst s) + 1 /\ supported (fst s').
Proof.
  intros H Hc Hs. assert (Hc1 : support_of c = 1) by (unfold support_of; by rewrite Hc).
  assert (Hone : forall r, support_of r = 1 -> total (fst s ++ [r]) = total (fst s) + 1 /\ supported (fst s ++ [r])).
  { intros r Hr. rewrite total_app. simpl. split; [lia|]. apply Forall_app. split; [done|]. constructor; [lia|constructor]. }
  assert (Hfresh : Ret (append_new now c s) = Ret (E := rerr) s' -> total (fst s') = total (fst s) + 1 /\ supported (fst s')).
  { intros [= <-]. by apply Hone. }
  unfold apply_one in H. destruct jr as [[[] [t|]]|]; auto; destruct (t <? _); auto.
  - destruct (at_index (fst s) t _) as [m|] eqn:E; [|done]. injection H as <-.
    apply at_index_spec in E as (n & x & y & Hx & [= <-] & ->). cbn [fst]. rewrite (total_insert _ _ _ _ Hx), support_bump.
    pose proof (Forall_lookup_1 _ _ _ _ Hs Hx) as Hp. simpl in Hp. split; [lia|]. apply supported_insert; [done|]. rewrite support_bump. lia.
  - destruct (at_index (fst s) t _) as [m|] eqn:E; [|done]. injection H as <-.
    apply at_index_spec in E as (n & x & y & Hx & [= <-] & ->). pose proof (Forall_lookup_1 _ _ _ _ Hs Hx) as Hp. simpl in Hp.
    cbn [fst]. rewrite (total_insert _ _ _ _ Hx), support_merge by lia. split; [lia|].
    apply supported_insert; [done|]. rewrite support_merge; lia.
  - destruct (at_index (fst s) t _) as [m|] eqn:E; [|done]. injection H as <-.
    apply at_index_spec in E as (n & x & y & Hx & Hm & ->). apply support_mark in Hm. cbn [fst].
    pose proof (Forall_lookup_1 _ _ _ _ Hs Hx) as Hp. simpl in Hp.
    rewrite total_app, (total_insert _ _ _ _ Hx), Hm. cbn. fold (support_of c). rewrite Hc1. split; [lia|].
    apply Forall_app. split; [apply supported_insert; [done|lia]|]. constructor; [|constructor]. cbn. fold (support_of c). lia.
Qed.

Lemma apply_each_total now results remaining s s' :
  apply_each now results remaining s = Ret s' -> Forall single (map snd remaining) -> supported (fst s) ->
  total (fst s') = total (fst s) + Z.of_nat (length remaining) /\ supported (fst s').
Proof.
  revert s. induction remaining as [|[oi c] remaining IH]; intros s; simpl.
  { intros [= <-] _ Hs. split; [lia|done]. }
  destruct (apply_one now (results !! oi) c s) as [s1|] eqn:E; [|done]. cbn [mbind outcome_bind].
  intros H [Hc Hr]%Forall_cons Hs. destruct (apply_one_total _ _ _ _ _ E Hc Hs) as [H1 H2].
  destruct (IH _ H Hr H2) as [H3 H4]. split; [lia|done].
Qed.

(** Without a judge everything is new, which is what an absent answer means too. *)
Lemma fold_append_each now remaining s :
  apply_each now [] remaining s = Ret (fold_left (fun s oc => append_new now (snd oc) s) remaining s).
Proof. revert s. induction remaining as [|[oi c] remaining IH]; intros s; simpl; [done|]. apply IH. Qed.

Lemma dedup_as_each now candidates existing results merged remaining :
  exact_dedup now (existing_map existing) 0 candidates existing = (merged, remaining) ->
  deduplicate_and_merge now candidates existing results
  = (s ← apply_each now (default [] results) remaining (merged, Z.of_nat (length merged) + 1); Ret (fst s)).
Proof.
  intros E. unfold deduplicate_and_merge. rewrite E. destruct remaining as [|oc remaining]; [done|].
  destruct results as [results|]; [done|]. cbn [default]. by rewrite fold_append_each.
Qed.

(** ** The judge *)

Section judge_facts.
Context (ratio : string -> string -> Q).

Definition similarity (cand : string) (ex : Rule) : Q := ratio (lower cand) (lower (strip (r_summary ex))).

(** The best match is at least as similar as every rule, and the one found. *)
Lemma best_match_spec cand i existing best b o :
  best_match ratio cand i existing best = (b, o) ->
  (fst best <= b)%Q /\ (forall ex, ex ∈ existing -> (similarity cand ex <= b)%Q) /\
  ((b, o) = best \/ exists n ex, o = Some (i + Z.of_nat n, ex) /\ existing !! n = Some ex /\ b = similarity cand ex).
Proof.
  revert i best. induction existing as [|ex existing IH]; intros i best; simpl.
  { intros ->. split; [apply Qle_refl|]. split; [set_solver|by left]. }
  fold (similarity cand ex). intros H. apply IH in H as (H1 & H2 & H3).
  assert (Hb : (fst best <= b)%Q /\ (similarity cand ex <= b)%Q).
  { destruct (Qle_bool (similarity cand ex) (fst best)) eqn:E.
    - apply Qle_bool_iff in E. split; [done|]. by eapply Qle_trans.
    - apply qle_false in E. cbn in H1. split; [|done]. apply Qlt_le_weak in E. by eapply Qle_trans. }
  split; [apply Hb|]. split; [intros x [->|Hx]%elem_of_cons; [apply Hb|auto]|].
  destruct H3 as [H3|(n & x & -> & Hn & ->)].
  - destruct (Qle_bool _ _); [by left|]. right. exists 0%nat, ex. injection H3 as -> ->.
    split; [|done]. do 2 f_equal. lia.
  - right. exists (S n), x. split; [|done]. do 2 f_equal. lia.
Qed.

(** A judgement names a rule of the list, or none. *)
Definition in_range (n : nat) (jr : JudgeResult) : Prop :=
  match jr with
  | mkJudge New _ => True
  | mkJudge _ None => False
  | mkJudge _ (Some t) => 0 <= t < Z.of_nat n
  end.

Lemma judge_one_range existing cand : in_range (length existing) (judge_one ratio existing cand).
Proof.
  unfold judge_one. destruct (String.eqb _ ""); [done|].
  destruct (best_match ratio (strip (r_summary cand)) 0 existing (0%Q, None)) as [b [[i ex]|]] eqn:E; [|done].
  apply best_match_spec in E as (_ & _ & [[=]|(n & x & [= -> ->] & Hn & _)]). apply lookup_lt_Some in Hn.
  destruct (Qle_bool _ _); [cbn; lia|]. destruct (Qle_bool _ _); [|done]. destruct (String.eqb _ _); cbn; lia.
Qed.

Lemma judge_range candidates existing : Forall (in_range (length existing)) (judge ratio candidates existing).
Proof.
  unfold judge. destruct existing as [|ex existing]; apply Forall_forall; intros jr (c & -> & _)%list_elem_of_fmap; [done|].
  apply judge_one_range.
Qed.
End judge_facts.

(** ** Conflict marks *)

Definition idx_list (x : ConflictIdx) : list Z := match x with OneIdx i => [i] | ManyIdx l => l end.

(** Every mark is below a bound, and no rule of the first [n] holds a mark that
    cannot grow. *)
Record marks_ok (n : nat) (b : Z) (l : list Rule) : Prop := {
  mo_length : (n <= length l)%nat;
  mo_old : forall i r t, (i < n)%nat -> l !! i = Some r -> r_conflict_idx r <> Some (OneIdx t);
  mo_range : forall r x, r ∈ l -> r_conflict_idx r = Some x -> Forall (fun i => 0 <= i < b) (idx_list x);
}.

Lemma marks_mono n b b' l : b <= b' -> marks_ok n b l -> marks_ok n b' l.
Proof.
  intros Hb [H1 H2 H3]. constructor; [done|done|]. intros r x Hr Hx. eapply Forall_impl; [by eapply H3|]. simpl. lia.
Qed.

Lemma marks_app n b l c :
  marks_ok n b l -> (forall x, r_conflict_idx c = Some x -> Forall (fun i => 0 <= i < b) (idx_list x)) ->
  marks_ok n b (l ++ [c]).
Proof.
  intros [H1 H2 H3] Hc. constructor.
  - rewrite length_app. simpl. lia.
  - intros i r t Hi. rewrite lookup_app_l by lia. by apply H2.
  - intros r x [Hr|Hr%list_elem_of_singleton]%elem_of_app Hx; [by eapply H3|]. subst r. by apply Hc.
Qed.

Lemma marks_insert n b l i y :
  marks_ok n b l -> (forall t, r_conflict_idx y <> Some (OneIdx t)) ->
  (forall x, r_conflict_idx y = Some x -> Forall (fun i => 0 <= i < b) (idx_list x)) ->
  marks_ok n b (<[i := y]> l).
Proof.
  intros [H1 H2 H3] Hy1 Hy2. constructor.
  - by rewrite length_insert.
  - intros j r t Hj Hr. apply list_lookup_insert_Some in Hr as [(_ & <- & _)|[_ Hr]]; [apply Hy1|by eapply H2].
  - intros r x [j Hr]%list_elem_of_lookup Hx.
    apply list_lookup_insert_Some in Hr as [(_ & <- & _)|[_ Hr]]; [by apply Hy2|].
    eapply H3; [by eapply list_elem_of_lookup_2|done].
Qed.

(** A place from the front is found. *)
Lemma at_index_front {A} (l : list A) t x f :
  0 <= t < Z.of_nat (length l) -> l !! Z.to_nat t = Some x ->
  at_index l t f = (y ← f x; Ret (<[Z.to_nat t := y]> l)).
Proof.
  intros Ht Hx. unfold at_index, py_index. destruct (Z.leb_spec 0 t); [|lia]. destruct (Z.ltb_spec t (Z.of_nat (length l))); [|lia].
  simpl. by rewrite Hx.
Qed.

Lemma mark_conflict_ok n b l t r :
  marks_ok n b l -> (t < n)%nat -> l !! t = Some r -> 0 <= b ->
  exists r', mark_conflict b r = Ret r' /\ (forall t, r_conflict_idx r' <> Some (OneIdx t)) /\
    (forall x, r_conflict_idx r' = Some x -> Forall (fun i => 0 <= i < b + 1) (idx_list x)).
Proof.
  intros [H1 H2 H3] Ht Hr Hb. unfold mark_conflict. destruct (r_conflict_idx r) as [[i|js]|] eqn:E.
  - by destruct (H2 _ _ i Ht Hr).
  - eexists. split; [done|]. split; [done|]. intros x [= <-]. apply Forall_app. split; [|constructor; [lia|constructor]].
    eapply Forall_impl; [apply (H3 r _ (list_elem_of_lookup_2 _ _ _ Hr) E)|]. simpl. lia.
  - eexists. split; [done|]. split; [done|]. intros x [= <-]. constructor; [lia|constructor].
Qed.

Definition marked_ok (n : nat) (l : list Rule) : Prop := marks_ok n (Z.of_nat (length l)) l.

Lemma marked_app n l c : marked_ok n l -> r_conflict_idx c = None -> marked_ok n (l ++ [c]).
Proof.
  intros H Hc. apply marks_app; [|intros x Hx; congruence]. eapply marks_mono; [|exact H]. rewrite length_app. lia.
Qed.

(** A judgement that names one of the first [n] rules is carried out. *)
Lemma apply_one_ok now n jr c s :
  marked_ok n (fst s) -> (forall x, jr = Some x -> in_range n x) -> r_conflict_idx c = None ->
  exists s', apply_one now jr c s = Ret s' /\ marked_ok n (fst s').
Proof.
  intros Hs Hj Hc. pose proof (mo_length _ _ _ Hs) as Hn.
  assert (Hfresh : exists s', Ret (append_new now c s) = Ret (E := rerr) s' /\ marked_ok n (fst s')).
  { eexists. split; [done|]. by apply marked_app. }
  unfold apply_one. destruct jr as [[a [t|]]|]; [|by destruct a|done].
  specialize (Hj _ eq_refl). destruct a; [| | |done]; cbn in Hj.
  all: destruct (Z.ltb_spec t (Z.of_nat (length (fst s)))); [|lia].
  all: destruct (lookup_lt_is_Some_2 (fst s) (Z.to_nat t)) as [x Hx]; [lia|].
  all: assert (Ht : 0 <= t < Z.of_nat (length (fst s))) by lia.
  all: assert (Htn : (Z.to_nat t < n)%nat) by lia.
  all: rewrite (at_index_front _ _ _ _ Ht Hx).
  - eexists. split; [done|]. unfold marked_ok. cbn [fst]. rewrite length_insert. apply marks_insert; [done| |].
    + intros t'. change (r_conflict_idx x <> Some (OneIdx t')). exact (mo_old _ _ _ Hs _ _ t' Htn Hx).
    + intros y. change (r_conflict_idx x = Some y -> Forall (fun i => 0 <= i < Z.of_nat (length (fst s))) (idx_list y)).
      apply (mo_range _ _ _ Hs). by eapply list_elem_of_lookup_2.
  - eexists. split; [done|]. unfold marked_ok. cbn [fst]. rewrite length_insert. by apply marks_insert.
  - destruct (mark_conflict_ok n _ _ (Z.to_nat t) x Hs Htn Hx (Nat2Z.is_nonneg _)) as (x' & -> & Hx1 & Hx2).
    eexists. split; [done|]. unfold marked_ok. cbn [fst]. rewrite length_app, length_insert. cbn [length].
    replace (Z.of_nat (length (fst s) + 1)) with (Z.of_nat (length (fst s)) + 1) by lia.
    apply marks_app; [apply marks_insert; [|done|done]|].
    + eapply marks_mono; [|exact Hs]. lia.
    + intros y [= <-]. constructor; [lia|constructor].
Qed.

Lemma apply_each_ok now n results remaining s :
  marked_ok n (fst s) -> Forall (in_range n) results -> Forall (fun c => r_conflict_idx c = None) (map snd remaining) ->
  exists s', apply_each now results remaining s = Ret s' /\ marked_ok n (fst s').
Proof.
  intros Hs Hr. revert s Hs. induction remaining as [|[oi c] remaining IH]; intros s Hs Hc; simpl; [by exists s|].
  apply Forall_cons in Hc as [Hc1 Hc]. destruct (apply_one_ok now n (results !! oi) c s Hs) as (s1 & -> & Hs1); [|done|].
  { intros x Hx. by eapply Forall_lookup_1. }
  by apply IH.
Qed.

Lemma map_outcome_total {E A B} (f : A -> outcome E B) l :
  (forall a, a ∈ l -> exists b, f a = Ret b) -> exists l', map_outcome f l = Ret l'.
Proof.
  induction l as [|a l IH]; intros H; simpl; [by eexists|]. destruct (H a) as [b ->]; [set_solver|]. cbn [mbind outcome_bind].
  destruct IH as [l' ->]; [set_solver|]. by eexists.
Qed.

(** Marks in range are all translated. *)
Lemma backfill_ok l : (forall r x, r ∈ l -> r_conflict_idx r = Some x -> Forall (fun i => 0 <= i < Z.of_nat (length l)) (idx_list x)) ->
  exists l', backfill l = Ret l'.
Proof.
  intros H. apply map_outcome_total. intros r Hr. unfold backfill_one. destruct (r_conflict_idx r) as [x|] eqn:E; [|by eexists].
  destruct (map_outcome_total (id_at l) (idx_list x)) as [ids Hids].
  { intros i Hi. pose proof (H r x Hr E) as Hx. rewrite Forall_forall in Hx. specialize (Hx i Hi). unfold id_at, py_index.
    destruct (Z.leb_spec 0 i); [|lia]. destruct (Z.ltb_spec i (Z.of_nat (length l))); [|lia]. by eexists. }
  unfold idx_list in Hids. destruct x; rewrite Hids; by eexists.
Qed.

Lemma renumber_In l r : r ∈ renumber l -> exists n r0, r0 ∈ l /\ r = with_id n r0.
Proof.
  unfold renumber. intros [i Hi]%list_elem_of_lookup. rewrite list_lookup_imap in Hi.
  destruct (l !! i) as [r0|] eqn:E; [|done]. injection Hi as <-. exists (Z.of_nat i + 1), r0.
  split; [by eapply list_elem_of_lookup_2|done].
Qed.

(** ** Scores *)

Section score_facts.
Context (days_since : string -> option Q).

Lemma by_score_perm l : Permutation (by_score days_since l) l.
Proof.
  induction l as [|x l IH]; simpl; [done|]. rewrite <- IH at 2. generalize (by_score days_since l). clear.
  intros l. induction l as [|y l IH]; simpl; [done|]. destruct (Qle_bool _ _); [done|]. rewrite IH. constructor.
Qed.

Definition falling (a b : Rule) : Prop := (score days_since b <= score days_since a)%Q.

Lemma by_score_sorted l : StronglySorted falling (by_score days_since l).
Proof.
  assert (Hins : forall x l, StronglySorted falling l -> StronglySorted falling (insert_scored days_since x l)).
  { clear l. intros x l H. induction H as [|y l Hl IH Hy]; simpl; [repeat constructor|].
    destruct (Qle_bool (score days_since y) (score days_since x)) eqn:E.
    - apply Qle_bool_iff in E. constructor; [by constructor|]. constructor; [done|].
      eapply List.Forall_impl; [|exact Hy]. intros z Hz. unfold falling in *. by eapply Qle_trans.
    - apply qle_false in E. constructor; [done|]. apply List.Forall_forall. intros z Hz.
      assert (Hz' : z = x \/ List.In z l).
      { clear -Hz. induction l as [|w l IH]; simpl in *; [intuition|]. destruct (Qle_bool _ _); simpl in Hz; intuition. }
      destruct Hz' as [->|Hz']; [by apply Qlt_le_weak|]. rewrite List.Forall_forall in Hy. auto. }
  induction l as [|x l IH]; simpl; [constructor|]. by apply Hins.
Qed.

Lemma sorted_split n l k d :
  StronglySorted falling l -> k ∈ take n l -> d ∈ drop n l -> (score days_since d <= score days_since k)%Q.
Proof.
  intros H. revert n. induction H as [|x l Hl IH Hx]; intros [|n] Hk Hd; simpl in *; [set_solver..|].
  apply elem_of_cons in Hk as [->|Hk]; [|by eapply IH].
  rewrite List.Forall_forall in Hx. apply Hx, list_elem_of_In.
  rewrite <- (take_drop n l). apply elem_of_app. by right.
Qed.

Lemma weight_unit c : (1 # 2 <= confidence_weight c <= 9 # 10)%Q.
Proof. unfold confidence_weight. destruct c as [c|]; [|lra]. repeat destruct (String.eqb _ _); lra. Qed.

Lemma recency_unit created :
  (forall d, days_since created = Some d -> (0 <= d)%Q) -> (0 <= recency days_since created <= 1)%Q.
Proof.
  intros H. unfold recency.
  assert (Hd : (0 <= (if String.eqb created "" then 999 else default 999 (days_since created)))%Q).
  { destruct (String.eqb created ""); [lra|]. destruct (days_since created) as [d|]; cbn; [by apply H|lra]. }
  revert Hd. generalize (if String.eqb created "" then 999%Q else default 999%Q (days_since created)). intros d Hd.
  split; [apply qmax_le_l|]. unfold qmax, Qdiv. change (/ 90)%Q with (1 # 90)%Q. destruct (Qle_bool _ _); lra.
Qed.

Lemma support_unit n : 0 <= n -> (0 <= inject_Z (Z.min n 5) / 5 <= 1)%Q.
Proof.
  intros Hn. assert (Hz : (0 <= inject_Z (Z.min n 5))%Q /\ (inject_Z (Z.min n 5) <= inject_Z 5)%Q).
  { split; [change 0%Q with (inject_Z 0)|]; rewrite <- Zle_Qle; lia. }
  revert Hz. generalize (inject_Z (Z.min n 5)). change (inject_Z 5) with 5%Q. intros q Hq. unfold Qdiv. change (/ 5)%Q with (1 # 5)%Q. lra.
Qed.

Lemma confident_level m l r : r ∈ confident m l -> m = "" \/ conf_level 0 m <= conf_level 0 (default "low" (r_confidence r)).
Proof.
  unfold confident. destruct (String.eqb_spec m ""); [by left|]. intros [_ H]%list_elem_of_In%filter_In. right. by apply Z.leb_le.
Qed.

Lemma confident_length m l : (length (confident m l) <= length l)%nat.
Proof. unfold confident. destruct (String.eqb _ _); [done|]. apply List.filter_length_le. Qed.
End score_facts.

(** ** Keys *)

Lemma index_from_has i rules m r :
  r ∈ rules -> key_of r <> "" -> is_Some (dget (key_of r) (index_from i rules m)).
Proof.
  assert (Hkeep : forall rules i m k, is_Some (dget k m) -> is_Some (dget k (index_from i rules m))).
  { clear. induction rules as [|x rules IH]; intros i m k Hk; simpl; [done|]. apply IH.
    destruct (String.eqb _ _); [done|]. rewrite dget_dset. destruct (decide _); [by eexists|done]. }
  revert i m. induction rules as [|x rules IH]; intros i m Hr Hk; [set_solver|]. simpl.
  apply elem_of_cons in Hr as [<-|Hr]; [|by apply IH]. apply Hkeep.
  destruct (String.eqb_spec (key_of r) ""); [done|]. rewrite dget_dset_eq. by eexists.
Qed.

Lemma index_from_key i rules m k j :
  dget k (index_from i rules m) = Some j -> is_Some (dget k m) \/ exists r, r ∈ rules /\ key_of r = k.
Proof.
  revert i m. induction rules as [|x rules IH]; intros i m H; simpl in *; [left; by eexists|].
  apply IH in H as [H|(r & Hr & Hk)]; [|right; exists r; set_solver].
  destruct (String.eqb _ _); [by left|]. rewrite dget_dset in H. destruct (decide _) as [<-|]; [|by left].
  right. exists x. set_solver.
Qed.

(** The summaries survive, and every candidate is counted or left over. *)
Lemma exact_dedup_keys now m oi candidates merged merged' remaining :
  exact_dedup now m oi candidates merged = (merged', remaining) ->
  map r_summary merged' = map r_summary merged /\
  (forall c, c ∈ candidates -> is_Some (dget (key_of c) m) \/ c ∈ map snd remaining) /\
  ((forall c, c ∈ candidates -> key_of c <> "" /\ is_Some (dget (key_of c) m)) -> remaining = []).
Proof.
  revert oi merged merged' remaining. induction candidates as [|c candidates IH]; intros oi merged merged' remaining; simpl.
  { intros [= <- <-]. split; [done|]. split; [set_solver|done]. }
  destruct (if String.eqb (key_of c) "" then None else dget (key_of c) m) as [i|] eqn:E; intros H.
  - apply IH in H as (H1 & H2 & H3). split; [|split].
    + rewrite H1. clear. revert i. induction merged as [|r merged IH]; intros [|i]; simpl; [done..|]. f_equal. apply IH.
    + intros x [->|Hx]%elem_of_cons; [|by apply H2]. left. destruct (String.eqb _ _); [done|]. by eexists.
    + intros Hall. apply H3. intros x Hx. apply Hall. set_solver.
  - destruct (exact_dedup now m (S oi) candidates merged) as [m1 r1] eqn:E1. injection H as <- <-.
    apply IH in E1 as (H1 & H2 & H3). split; [done|]. split.
    + intros x [->|Hx]%elem_of_cons; [right; simpl; set_solver|]. destruct (H2 x Hx); [by left|right; simpl; set_solver].
    + intros Hall. destruct (Hall c) as [Hk [j Hj]]; [set_solver|]. destruct (String.eqb_spec (key_of c) ""); [done|]. congruence.
Qed.

Lemma appended_summaries now (remaining : list (nat * Rule)) s :
  map r_summary (fst (fold_left (fun s oc => append_new now (snd oc) s) remaining s))
  = map r_summary (fst s) ++ map r_summary (map snd remaining).
Proof.
  revert s. induction remaining as [|[oi c] remaining IH]; intros s; simpl; [by rewrite app_nil_r|].
  rewrite IH. cbn. rewrite map_app, <- app_assoc. done.
Qed.

Lemma dedup_new_summaries now candidates existing m :
  deduplicate_and_merge now candidates existing None = Ret m ->
  exists merged remaining, exact_dedup now (existing_map existing) 0 candidates existing = (merged, remaining) /\
    map r_summary m = map r_summary existing ++ map r_summary (map snd remaining).
Proof.
  destruct (exact_dedup now (existing_map existing) 0 candidates existing) as [merged remaining] eqn:E.
  rewrite (dedup_as_each _ _ _ _ _ _ E). cbn [default]. rewrite fold_append_each. cbn [mbind outcome_bind]. intros [= <-].
  exists merged, remaining. split; [done|]. rewrite appended_summaries. cbn [fst].
  by destruct (exact_dedup_keys _ _ _ _ _ _ _ E) as (-> & _).
Qed.

Lemma map_key_split l : map key_of l = map (fun s => lower (strip s)) (map r_summary l).
Proof. by rewrite map_map. Qed.

Lemma prune_length days_since rules max_rules :
  0 < max_rules -> Z.of_nat (length (prune days_since rules max_rules)) <= max_rules.
Proof.
  intros Hm. unfold prune. destruct (Z.leb_spec max_rules 0); [lia|]. simpl.
  destruct (Z.leb_spec (Z.of_nat (length rules)) max_rules); [done|]. rewrite length_take. lia.
Qed.

Lemma apply_core (days_since : string -> option Q) (P : Patterns) (now : string) (a : Access) (se : Settings)
    (reply : string) (f f' : option RulesFile) (r : outcome rerr Z) :
  apply days_since P now a se reply f = (r, f') ->
  (is_user_managed a f = true -> r = Ret 0 /\ f' = f) /\
  match r with
  | Raise _ => f' = f \/ f = None /\ f' = Some (mkRulesFile MARKER (Some (1, [])))
  | Ret n =>
      n = 0 /\ f' = f \/
      0 < n /\ n = Z.of_nat (length (extract P now reply)) /\
      exists version rules, f' = Some (mkRulesFile MARKER (Some (version, rules))) /\
        (0 < se_max_rules se -> Z.of_nat (length rules) <= se_max_rules se) /\
        (forall x, x ∈ rules -> se_min_confidence se = "" \/
           conf_level 0 (se_min_confidence se) <= conf_level 0 (default "low" (r_confidence x)))
  end.
Proof.
  unfold apply. destruct (extract P now reply) as [|c cs] eqn:Ec; [intros [= <- <-]; split; [done|by left]|].
  set (cands := if String.eqb (se_source se) "" then c :: cs else map (with_source (se_source se)) (c :: cs)).
  assert (Hlen : length cands = length (c :: cs)) by (unfold cands; destruct (String.eqb _ _); by rewrite ?length_map).
  destruct (is_user_managed a f) eqn:Eu; [intros [= <- <-]; split; [done|by left]|].
  destruct (ensure_file a f) as [[[]|e] f1] eqn:Ef.
  2:{ intros [= <- <-]. split; [done|]. left. revert Ef. unfold ensure_file, save. destruct f; [done|]. destruct (ac_create a); [done|]. by intros [= _ <-]. }
  assert (Hf1 : f1 = f \/ f = None /\ f1 = Some (mkRulesFile MARKER (Some (1, [])))).
  { revert Ef. unfold ensure_file, save. destruct f; [intros [= <-]; by left|]. destruct (ac_create a); [|done]. intros [= <-]. by right. }
  destruct (load a f1) as [version existing]. destruct (deduplicate_and_merge now cands existing None ≫= _) as [merged|e].
  2:{ by intros [= <- <-]. }
  unfold save. destruct (ac_save a); [|by intros [= <- <-]].
  intros [= <- <-]. split; [done|]. right. rewrite Hlen. split; [cbn; lia|]. split; [done|]. eexists _, _. split; [reflexivity|]. split.
  - intros Hmax. pose proof (confident_length (se_min_confidence se) (prune days_since merged (se_max_rules se))) as Hcl.
    pose proof (prune_length days_since merged _ Hmax). lia.
  - intros x. apply confident_level.
Qed.

(** ** Theorems *)

(** Whatever the judge answers, a merge that returns loses no support and invents
    none: every candidate adds one to the total, as a rule of its own, as another
    vote for a rule or merged into one. *)
Theorem support_conserved (now : string) (candidates existing merged : list Rule) (results : option (list JudgeResult)) :
  deduplicate_and_merge now candidates existing results = Ret merged ->
  Forall single candidates -> supported existing ->
  total merged = total existing + Z.of_nat (length candidates) /\ supported merged.
Proof.
  intros H Hc Hs. destruct (exact_dedup now (existing_map existing) 0 candidates existing) as [m remaining] eqn:E.
  rewrite (dedup_as_each _ _ _ _ _ _ E) in H.
  destruct (exact_dedup_spec _ _ _ _ _ _ _ E (existing_map_points existing)) as (_ & Ht & Hs' & Hp & _).
  destruct (apply_each now _ remaining _) as [s|] eqn:E2; [|done]. injection H as <-.
  destruct (apply_each_total _ _ _ _ _ E2 (Hp _ Hc) (Hs' Hs)) as [H1 H2]. cbn [fst] in H1. split; [lia|done].
Qed.

(** The judgements of the similarity judge can always be carried out: the merge
    returns, and so does the translation of its conflict marks into ids. *)
Theorem judged_merge_returns (ratio : string -> string -> Q) (now : string) (candidates existing : list Rule) :
  Forall (fun r => r_conflict_idx r = None) candidates -> Forall (fun r => r_conflict_idx r = None) existing ->
  exists merged rules,
    deduplicate_and_merge now candidates existing (Some (judge ratio candidates existing)) = Ret merged /\
    backfill (renumber merged) = Ret rules.
Proof.
  intros Hc He. destruct (exact_dedup now (existing_map existing) 0 candidates existing) as [m remaining] eqn:E.
  destruct (exact_dedup_spec _ _ _ _ _ _ _ E (existing_map_points existing)) as (Hl & _ & _ & Hp & Hi).
  assert (Hnone : forall r, r ∈ m -> r_conflict_idx r = None).
  { intros r Hr. apply (list_elem_of_fmap_2 r_conflict_idx) in Hr. change (r_conflict_idx <$> m) with (map r_conflict_idx m) in Hr. rewrite Hi in Hr.
    apply list_elem_of_fmap in Hr as (r0 & -> & Hr0). rewrite Forall_forall in He. by apply He. }
  assert (Hm : marked_ok (length existing) m).
  { constructor; [lia| |]; [intros i r t _ Hr%list_elem_of_lookup_2|intros r x Hr]; rewrite (Hnone r Hr); done. }
  destruct (apply_each_ok now (length existing) (judge ratio candidates existing) remaining
              (m, Z.of_nat (length m) + 1) Hm (judge_range ratio candidates existing) (Hp _ Hc)) as (s & Es & Hok).
  destruct (backfill_ok (renumber (fst s))) as [rules Hr].
  { intros r x Hr Hx. apply renumber_In in Hr as (n & r0 & Hr0 & ->). unfold renumber. rewrite length_imap.
    by apply (mo_range _ _ _ Hok r0). }
  exists (fst s), rules. split; [|done]. rewrite (dedup_as_each _ _ _ _ _ _ E). cbv [default from_option]. cbn. by rewrite Es.
Qed.

(** Reading the same reply again adds no rule. *)
Theorem reapply_adds_nothing (now now' : string) (candidates existing m m' : list Rule) :
  Forall (fun c => key_of c <> "") candidates ->
  deduplicate_and_merge now candidates existing None = Ret m ->
  deduplicate_and_merge now' candidates m None = Ret m' ->
  map r_summary m' = map r_summary m.
Proof.
  intros Hk H1 H2. apply dedup_new_summaries in H1 as (m1 & rem1 & E1 & Hm). apply dedup_new_summaries in H2 as (m2 & rem2 & E2 & ->).
  destruct (exact_dedup_keys _ _ _ _ _ _ _ E2) as (_ & _ & Hnil). rewrite Hnil; [by rewrite app_nil_r|].
  intros c Hc. rewrite Forall_forall in Hk. split; [by apply Hk|].
  assert (Hin : key_of c ∈ map key_of m).
  { rewrite map_key_split, Hm, map_app, <- !map_key_split. apply elem_of_app.
    destruct (exact_dedup_keys _ _ _ _ _ _ _ E1) as (_ & Hall & _). destruct (Hall c Hc) as [[i Hi]|Hr].
    - apply index_from_key in Hi as [[? [=]]|(r & Hr & <-)]. left. apply list_elem_of_fmap. by exists r.
    - right. apply list_elem_of_fmap. by exists c. }
  apply list_elem_of_fmap in Hin as (r & Hrk & Hr). rewrite Hrk. apply index_from_has; [done|]. rewrite <- Hrk. by apply Hk.
Qed.

(** Pruning keeps as many rules as it may, and none that scores below a rule it
    drops. *)
Theorem prune_keeps_best (days_since : string -> option Q) (rules : list Rule) (max_rules : Z) :
  0 < max_rules ->
  exists dropped, Permutation rules (prune days_since rules max_rules ++ dropped) /\
    Z.of_nat (length (prune days_since rules max_rules)) = Z.min max_rules (Z.of_nat (length rules)) /\
    (forall k d, k ∈ prune days_since rules max_rules -> d ∈ dropped -> (score days_since d <= score days_since k)%Q).
Proof.
  intros Hm. unfold prune. destruct (Z.leb_spec max_rules 0); [lia|]. simpl.
  destruct (Z.leb_spec (Z.of_nat (length rules)) max_rules).
  - exists []. rewrite app_nil_r. split; [done|]. split; [lia|set_solver].
  - exists (drop (Z.to_nat max_rules) (by_score days_since rules)). rewrite take_drop. split; [symmetry; apply by_score_perm|].
    rewrite length_take, (Permutation_length (by_score_perm days_since rules)). split; [lia|].
    intros k d. apply sorted_split, by_score_sorted.
Qed.

(** A score is in the unit interval, for a rule that was not created in the
    future. *)
Theorem score_unit (days_since : string -> option Q) (r : Rule) :
  0 <= support_of r -> (forall d, days_since (r_created_at r) = Some d -> (0 <= d)%Q) ->
  (0 <= score days_since r <= 1)%Q.
Proof.
  intros Hs Hd. unfold score. pose proof (support_unit _ Hs). pose proof (recency_unit _ _ Hd).
  pose proof (weight_unit (r_confidence r)). destruct (20 <? _)%nat; lra.
Qed.

(** What [apply] leaves.  A file of the user's stays as it is and nothing counts
    as extracted.  A call that counts candidates leaves a file of the daemon's,
    with at most the rules it may hold, none below the confidence asked for.  A
    call that fails leaves the file, or an empty one where there was none. *)
Theorem apply_outcomes (days_since : string -> option Q) (P : Patterns) (now : string) (a : Access) (se : Settings)
    (reply : string) (f f' : option RulesFile) (r : outcome rerr Z) :
  apply days_since P now a se reply f = (r, f') ->
  (is_user_managed a f = true -> r = Ret 0 /\ f' = f) /\
  match r with
  | Raise _ => f' = f \/ f = None /\ f' = Some (mkRulesFile MARKER (Some (1, [])))
  | Ret n =>
      n = 0 /\ f' = f \/
      n = Z.of_nat (length (extract P now reply)) /\
      exists version rules, f' = Some (mkRulesFile MARKER (Some (version, rules))) /\
        (0 < se_max_rules se -> Z.of_nat (length rules) <= se_max_rules se) /\
        (forall x, x ∈ rules -> se_min_confidence se = "" \/
           conf_level 0 (se_min_confidence se) <= conf_level 0 (default "low" (r_confidence x)))
  end.
Proof.
  intros H. apply apply_core in H as [Hu H]. split; [done|]. destruct r as [n|]; [|done].
  destruct H as [H|[_ H]]; [by left|by right].
Qed.

(** One review, one vote: a run that changed the rules and could record the
    commit is the last for this commit. *)
Theorem review_counts_once (days_since : string -> option Q) (P : Patterns) (se : Settings) (v v' : Review)
    (now now' : string) (a a' : Access) (ok' : bool) (s : Learned) (sha : string) :
  rv_commit v = Some sha -> rv_commit v' = Some sha ->
  let s1 := apply_review_rules days_since P now a true se v s in
  (exists rules version, le_rules s1 = Some (mkRulesFile MARKER (Some (version, rules))) /\ rules <> [] /\ le_rules s1 <> le_rules s) ->
  apply_review_rules days_since P now' a' ok' se v' s1 = s1.
Proof.
  intros Hv Hv' s1 (rules & version & Hr & Hne & Hch).
  assert (Hin : mem sha (default [] (le_commits s1)) = true).
  { unfold s1, apply_review_rules in *. rewrite Hv in *. destruct (String.eqb sha ""); [done|].
    destruct (mem sha (default [] (le_commits s))) eqn:Em; [done|].
    set (reply := if contains _ _ then rv_output v else rv_feedback v) in *. destruct (String.eqb reply ""); [done|].
    destruct (apply days_since P now a se reply (le_rules s)) as [[n|e] f] eqn:Ea; cbn in Hr, Hch;
      apply apply_core in Ea as [_ Ea].
    - destruct Ea as [[-> ->]|[Hn _]]; [done|]. destruct (Z.ltb_spec 0 n); [|lia]. apply mem_true. cbn. left.
    - destruct Ea as [->|[_ ->]]; [done|]. congruence. }
  unfold apply_review_rules at 1. rewrite Hv', Hin. by destruct (String.eqb sha "").
Qed.

(** ** Examples *)

Definition plain_rule (summary : string) : Rule :=
  mkRule None "naming" summary "" "" (Some 1) (Some "medium") "t" "t" [] "t" None.

(** Two rules of one batch with the same summary are both kept. *)
Example batch_duplicates_kept :
  map r_summary <$> (match deduplicate_and_merge "t" [plain_rule "Use snake case"; plain_rule "Use snake case"] [] None with
                     | Ret m => Some m | Raise _ => None end) = Some ["Use snake case"; "Use snake case"].
Proof. vm_compute. reflexivity. Qed.

(** A rule from the future scores above one. *)
Example future_rule_above_one :
  (1 < score (fun _ => Some (-90)%Q)
         (mkRule None "naming" "s" "a body longer than twenty characters" "" (Some 5%Z) (Some "high") "later" "t" [] "t" None))%Q.
Proof. vm_compute. reflexivity. Qed.

(** A second judgement that names a rule already marked as a conflict with an
    earlier one breaks the merge. *)
Example conflict_with_candidate_breaks :
  deduplicate_and_merge "t" [plain_rule "a"; plain_rule "b"] [plain_rule "c"]
    (Some [mkJudge Conflict (Some 0); mkJudge Conflict (Some 1)]) = Raise AttributeError.
Proof. vm_compute. reflexivity. Qed.

(** A merge into a rule drops the rule's half of a conflict; the other half
    stays. *)
Example merge_drops_conflict :
  match (m ← deduplicate_and_merge "t" [plain_rule "a"; plain_rule "b"] [plain_rule "c"]
               (Some [mkJudge Conflict (Some 0); mkJudge Merge (Some 0)]); backfill (renumber m)) with
  | Ret rules => map (fun r => (r_id r, r_conflict_with r)) rules = [(Some 1, []); (Some 2, [1])]
  | Raise _ => False
  end.
Proof. vm_compute. reflexivity. Qed.

(** The extraction of the examples: one rule. *)
Definition one_rule : Patterns :=
  mkPatterns (fun s => if contains "## Extracted Rules" s then Some "- [naming] Use snake case" else None)
    (fun _ => [mkItem 0 25 (Some "naming") None "Use snake case" None]) (fun _ => []).

Definition all_well : Access := mkAccess true true true true.
Definition keep_twenty : Settings := mkSettings 20 "" "".
Definition review : Review := mkReview (Some "abc") "## Extracted Rules" "".

(** What a file holds: its rules' summaries with their support. *)
Definition held (f : option RulesFile) : list (string * Z) :=
  match f with
  | Some (mkRulesFile _ (Some (_, rules))) => map (fun r => (r_summary r, support_of r)) rules
  | _ => []
  end.

Definition learned : Learned := apply_review_rules (fun _ => None) one_rule "t" all_well true keep_twenty review (mkLearned None None).

Lemma support_conserved_witness :
  exists m, deduplicate_and_merge "t" [plain_rule "a"; plain_rule "b"] [plain_rule "A"; plain_rule "c"]
              (Some [mkJudge New None; mkJudge Merge (Some 1)]) = Ret m /\ total m = 4.
Proof.
  eexists. split; [vm_compute; reflexivity|].
  match goal with
  | |- total ?m = _ =>
      destruct (support_conserved "t" [plain_rule "a"; plain_rule "b"] [plain_rule "A"; plain_rule "c"] m
                  (Some [mkJudge New None; mkJudge Merge (Some 1)])) as [Ht _]
  end; [reflexivity|repeat constructor|repeat constructor; done|exact Ht].
Defined.

Lemma review_counts_once_witness :
  held (le_rules learned) = [("Use snake case", 1)] /\
  apply_review_rules (fun _ => None) one_rule "u" all_well true keep_twenty review learned = learned.
Proof.
  split; [vm_compute; reflexivity|].
  apply (review_counts_once (fun _ => None) one_rule keep_twenty review review "t" "u" all_well all_well true (mkLearned None None) "abc");
    try reflexivity. eexists _, _. split; [vm_compute; reflexivity|]. split; [done|]. vm_compute. discriminate.
Defined.

(** When the record of the commit cannot be written, the review votes again. *)
Example review_counts_twice :
  let go ok s := apply_review_rules (fun _ => None) one_rule "t" all_well ok keep_twenty review s in
  held (le_rules (go true (go false (mkLearned None None)))) = [("Use snake case", 2)].
Proof. vm_compute. reflexivity. Qed.

(** A file of the daemon's that cannot be read at the moment is replaced: what it
    held is gone. *)
Example unreadable_file_replaced :
  held (le_rules learned) = [("Use snake case", 1)] /\
  held (snd (apply (fun _ => None)
          (mkPatterns (rules_section one_rule) (fun _ => [mkItem 0 9 (Some "naming") None "Other" None]) (loose_items one_rule))
          "t" (mkAccess true false true true) keep_twenty "## Extracted Rules" (le_rules learned))) = [("Other", 1)].
Proof. vm_compute. split; reflexivity. Qed.

(** Pruning goes by the score before the confidence filter: a confident rule that
    is pruned is not made up for when the filter drops one that was kept. *)
Example filter_after_prune :
  let sure := mkRule None "naming" "sure" "" "" (Some 1) (Some "high") "" "t" [] "t" None in
  let popular := mkRule None "naming" "popular" "" "" (Some 5) (Some "low") "" "t" [] "t" None in
  confident "high" (prune (fun _ => None) [sure; popular] 1) = [] /\
  map r_summary (prune (fun _ => None) (confident "high" [sure; popular]) 1) = ["sure"].
Proof. vm_compute. split; reflexivity. Qed.
