(* ===== verification/WorkspaceLocator.v ===== *)
(** * Finding the workspace ([src/orchestratord/workspace_locator.py])

    Where the command line looks for the workspace of a daemon, the metadata file
    by which a daemon is found, and the way a daemon tells from it that its
    predecessor crashed ([__init__] of [orchestrator.py], [kernel/telemetry.py]).
    A path is the text [str] gives; what the file system answers (existence,
    [resolve], [parent], reading) and YAML are parameters. *)

From S2P Require Import Prelude Errors Dag StageRunner Regex ClarResolver.

Open Scope string_scope.
Open Scope list_scope.
Open Scope Z_scope.

(** ** The name of a workspace's directory *)

Definition slash : Ascii.ascii := Ascii.ascii_of_N 47.
Definition backslash : Ascii.ascii := Ascii.ascii_of_N 92.
Definition dash : Ascii.ascii := Ascii.ascii_of_N 45.

(** [.replace("/", "-").replace("\\", "-")] *)
Fixpoint dashed (s : string) : string :=
  match s with
  | EmptyString => EmptyString
  | String c s' => String (if Ascii.eqb c slash || Ascii.eqb c backslash then dash else c) (dashed s')
  end.

Definition meaningful (p : string) : bool :=
  negb (String.eqb p "") && negb (mem p ["tmp"; ".orchestratord"; "~"]).

Definition parts (path : string) : list string := List.filter meaningful (split_char dash (dashed (strip path))).

(** [parts[-3:]] *)
Definition last_three (l : list string) : list string := drop (length l - 3) l.

(** [_slug_from_workspace] *)
Definition slug_from_workspace (path : string) : string :=
  match parts path with
  | [] => "default"
  | ps => join "-" (last_three ps)
  end.

(** ** Metadata *)

Record Meta := mkMeta {
  me_workspace : string;
  me_pid : option Z;
  me_started_at : option Q;
  me_project : string;
  me_workflow : option string;
}.

(** A metadata file: its time, and what it decodes to. *)
Record MetaFile := mkMetaFile {
  mf_mtime : Q;
  mf_data : option Meta;
}.

(** The metadata directory: the file of each slug that has one. *)
Abbreviation Store := (dict string MetaFile).

(** What the file system and the environment answer. *)
Record Host := mkHost {
  ho_exists : string -> bool;
  ho_resolve : string -> string;
  ho_expand : string -> string;
  ho_parent : string -> string;
  ho_read : string -> option string;
  ho_env : option string;
  ho_cwd : string;
  ho_base : string;
}.

Definition REGISTRY_FILE : string := ".orchestratord_issue_registry.json".

(** [a / b] *)
Definition path_join (a b : string) : string := a +:+ "/" +:+ b.

(** The lines between the fence on the first line and the next one. *)
Fixpoint until_fence (lines : list string) : option (list string) :=
  match lines with
  | [] => None
  | l :: lines' => if String.eqb (strip l) "---" then Some [] else cons l <$> until_fence lines'
  end.

Definition front_matter (content : string) : option string :=
  if String.prefix "---" content
  then join nl <$> until_fence (List.tl (splitlines content))
  else None.

Section yaml.
(** [yaml.safe_load], [None] when it raises, and [str] of a value. *)
Context (safe_load : string -> option pyval) (py_str : pyval -> string).

Definition header_of (h : Host) (path : string) : option (list (string * pyval)) :=
  content ← ho_read h path; raw ← front_matter content;
  match safe_load raw with Some (PDict d) => Some d | _ => None end.

(** [d.get(key, {})], as a mapping; anything else has no [get]. *)
Definition section_of (key : string) (d : list (string * pyval)) : option (list (string * pyval)) :=
  match dget key d with
  | None => Some []
  | Some (PDict s) => Some s
  | Some _ => None
  end.

(** [_parse_workspace_from_workflow] *)
Definition parse_workspace_from_workflow (h : Host) (path : string) : option string :=
  d ← header_of h path; s ← section_of "workspace" d;
  match dget "root" s with
  | Some (PStr root) => if String.eqb root "" then None else Some (ho_expand h root)
  | _ => None
  end.

(** The project slug [write_orchestrator_metadata] reads off the workflow. *)
Definition project_of (h : Host) (path : string) : option string :=
  d ← header_of h path; s ← section_of "tracker" d;
  match dget "owner" s, dget "repo" s with
  | Some owner, Some repo =>
      if truthy owner && truthy repo then Some (py_str owner +:+ "-" +:+ py_str repo) else None
  | _, _ => None
  end.

Definition given (o : option string) : option string :=
  match o with Some s => if String.eqb s "" then None else Some s | None => None end.

(** [write_orchestrator_metadata], at [now] by process [pid] *)
Definition write_orchestrator_metadata (h : Host) (root : string) (workflow : option string)
    (started_at : option Q) (pid : Z) (now : Q) (st : Store) : Store :=
  let ws := ho_resolve h root in
  let slug := slug_from_workspace ws in
  let project := match given workflow with Some p => project_of h p | None => None end in
  dset slug
    (mkMetaFile now (Some (mkMeta ws (Some pid) (Some (default now started_at)) (default slug project) (given workflow)))) st.

(** [read_orchestrator_metadata] *)
Definition read_orchestrator_metadata (root : string) (st : Store) : option Meta :=
  f ← dget (slug_from_workspace root) st; mf_data f.

(** [clear_orchestrator_metadata] *)
Definition clear_orchestrator_metadata (root : string) (st : Store) : Store :=
  ddel (slug_from_workspace root) st.

(** The stable sort by falling time, of which the first is used. *)
Fixpoint latest_of (best : MetaFile) (fs : list MetaFile) : MetaFile :=
  match fs with
  | [] => best
  | f :: fs' => latest_of (if qlt (mf_mtime best) (mf_mtime f) then f else best) fs'
  end.

(** [_find_latest_metadata] *)
Definition find_latest_metadata (st : Store) : option MetaFile :=
  match dvals st with
  | [] => None
  | f :: fs => Some (latest_of f fs)
  end.

Inductive lerr := BadMetadata.

(** [get_workspace_root] *)
Definition get_workspace_root (h : Host) (st : Store) (workspace_arg workflow_path : option string)
    : outcome lerr (option string) :=
  let explicit :=
    p ← given workspace_arg;
    let path := ho_resolve h (ho_expand h p) in
    if ho_exists h path || ho_exists h (ho_parent h path) then Some path else None in
  match explicit with
  | Some path => Ret (Some path)
  | None =>
      match given (ho_env h) with
      | Some p => Ret (Some (ho_resolve h (ho_expand h p)))
      | None =>
          match p ← given workflow_path; parse_workspace_from_workflow h p with
          | Some ws => Ret (Some ws)
          | None =>
              match find_latest_metadata st with
              | Some f => match mf_data f with Some m => Ret (Some (me_workspace m)) | None => Raise BadMetadata end
              | None =>
                  if ho_exists h (path_join (ho_cwd h) REGISTRY_FILE) then Ret (Some (ho_cwd h))
                  else
                    let default_ws := path_join (ho_base h) "workspace" in
                    Ret (if ho_exists h default_ws then Some default_ws else None)
              end
          end
      end
  end.

(** [resolve_for_cli] *)
Definition resolve_for_cli (h : Host) (st : Store) (workspace_arg workflow_arg : option string)
    : outcome lerr (option (string * string)) :=
  match get_workspace_root h st workspace_arg workflow_arg with
  | Ret root => Ret (option_map (fun r => (r, path_join r REGISTRY_FILE)) root)
  | Raise e => Raise e
  end.

(** [find_existing_registry] *)
Definition find_existing_registry (h : Host) (root : string) : option string :=
  let candidate := path_join root REGISTRY_FILE in
  if ho_exists h candidate then Some candidate else None.

(** [list_orchestrator_projects] *)
Definition list_orchestrator_projects (st : Store) : list Meta := omap mf_data (dvals st).

(** [get_live_projects]: [alive pid] is whether [os.kill(pid, 0)] succeeds. *)
Definition get_live_projects (alive : Z -> bool) (projects : list Meta) : list Meta :=
  List.filter (fun m => match me_pid m with Some pid => alive pid | None => false end) projects.

(** ** The life of a daemon's metadata *)

(** [__init__]: what is found of the previous daemon, before this one writes
    its own. *)
Definition previous_unclean_exit (root : string) (pid : Z) (st : Store) : option Meta :=
  m ← read_orchestrator_metadata root st;
  match me_pid m with
  | Some p => if p =? pid then None else Some m
  | None => None
  end.

(** Start, and [shutdown_cleanup]. *)
Definition daemon_starts (h : Host) (root : string) (workflow : option string) (pid : Z) (now : Q) (st : Store)
    : option Meta * Store :=
  (previous_unclean_exit root pid st, write_orchestrator_metadata h root workflow (Some now) pid now st).

Definition daemon_stops (root : string) (st : Store) : Store := clear_orchestrator_metadata root st.
End yaml.

(** ** Slugs *)

Fixpoint no_sep (s : string) : bool :=
  match s with
  | EmptyString => true
  | String c s' => negb (Ascii.eqb c slash || Ascii.eqb c backslash) && no_sep s'
  end.

Lemma no_sep_app a b : no_sep (a +:+ b) = no_sep a && no_sep b.
Proof. induction a as [|c a IH]; simpl; [done|]. by rewrite IH, andb_assoc. Qed.

Lemma dashed_no_sep s : no_sep (dashed s) = true.
Proof.
  induction s as [|c s IH]; simpl; [done|]. rewrite IH, andb_true_r.
  destruct (Ascii.eqb c slash || Ascii.eqb c backslash) eqn:E; [done|]. by rewrite E.
Qed.

Lemma split_no_sep d s : no_sep s = true -> Forall (fun w => no_sep w = true) (split_char d s).
Proof.
  induction s as [|c s IH]; simpl; [by repeat constructor|]. intros [Hc Hs]%andb_true_iff.
  specialize (IH Hs). destruct (Ascii.eqb c d); [by constructor|].
  destruct (split_char d s) as [|w ws]; [repeat constructor; simpl; by rewrite Hc|].
  apply Forall_cons in IH as [? ?]. constructor; [|done]. simpl. by apply andb_true_iff.
Qed.

Lemma join_no_sep sep l : no_sep sep = true -> Forall (fun w => no_sep w = true) l -> no_sep (join sep l) = true.
Proof.
  intros Hsep H. induction H as [|w l Hw Hl IH]; simpl; [done|]. destruct l; [done|]. by rewrite !no_sep_app, Hw, Hsep, IH.
Qed.

Lemma parts_clean p : Forall (fun w => no_sep w = true /\ w <> "") (parts p).
Proof.
  unfold parts. pose proof (split_no_sep dash _ (dashed_no_sep (strip p))) as H. rewrite Forall_forall in H.
  apply Forall_forall. intros w [Hin Hm]%list_elem_of_In%filter_In. apply list_elem_of_In in Hin. split; [by apply H|].
  unfold meaningful in Hm. destruct (String.eqb_spec w ""); [done|done].
Qed.

Lemma latest_of_spec best fs :
  let f := latest_of best fs in (f = best \/ f ∈ fs) /\ (mf_mtime best <= mf_mtime f)%Q /\
  forall g, g ∈ fs -> (mf_mtime g <= mf_mtime f)%Q.
Proof.
  revert best. induction fs as [|g fs IH]; intros best; simpl; [split; [by left|split; [apply Qle_refl|set_solver]]|].
  destruct (IH (if qlt (mf_mtime best) (mf_mtime g) then g else best)) as (H1 & H2 & H3).
  assert (Hb : (mf_mtime best <= mf_mtime (if qlt (mf_mtime best) (mf_mtime g) then g else best))%Q /\
               (mf_mtime g <= mf_mtime (if qlt (mf_mtime best) (mf_mtime g) then g else best))%Q).
  { destruct (qlt _ _) eqn:E; [apply qlt_true in E|apply qlt_false in E]; split; try apply Qle_refl; [by apply Qlt_le_weak|done]. }
  destruct Hb as [Hb Hg]. split; [|split].
  - destruct H1 as [H1|H1]; [|right; set_solver]. rewrite H1. destruct (qlt _ _); [right; set_solver|by left].
  - by eapply Qle_trans.
  - intros x [->|Hx]%elem_of_cons; [by eapply Qle_trans|auto].
Qed.

(** ** Theorems *)

Section locator.
Context (safe_load : string -> option pyval) (py_str : pyval -> string).

(** The directory of a workspace's metadata is one step below the metadata
    directory: its name is not empty and holds no separator. *)
Theorem slug_is_a_name (path : string) : slug_from_workspace path <> "" /\ no_sep (slug_from_workspace path) = true.
Proof.
  unfold slug_from_workspace. pose proof (parts_clean path) as H. destruct (parts path) as [|w ws] eqn:E; [done|].
  assert (Hl : Forall (fun w => no_sep w = true /\ w <> "") (last_three (w :: ws))) by (by apply Forall_drop).
  assert (Hn : last_three (w :: ws) <> []).
  { unfold last_three. intros Hx. apply (f_equal length) in Hx. rewrite length_drop in Hx. simpl in Hx. lia. }
  split.
  - destruct (last_three (w :: ws)) as [|x l]; [done|]. apply Forall_cons in Hl as [[_ Hx] _]. simpl.
    destruct l; [done|]. by destruct x.
  - apply join_no_sep; [done|]. eapply Forall_impl; [exact Hl|]. by intros x [].
Qed.

(** Only the last three parts of a path tell workspaces apart. *)
Theorem slug_collides (p q : string) (l l' : list string) (a b c : string) :
  parts p = l ++ [a; b; c] -> parts q = l' ++ [a; b; c] -> slug_from_workspace p = slug_from_workspace q.
Proof.
  intros Hp Hq.
  assert (H : forall l, last_three (l ++ [a; b; c]) = [a; b; c]).
  { intros x. unfold last_three. rewrite length_app. simpl. replace (length x + 3 - 3)%nat with (length x) by lia. apply drop_app_length. }
  assert (Hs : forall r x, parts r = x ++ [a; b; c] -> slug_from_workspace r = join "-" [a; b; c]).
  { intros r x Hr. unfold slug_from_workspace. rewrite Hr. destruct x as [|w x]; [done|].
    change (join "-" (last_three ((w :: x) ++ [a; b; c])) = join "-" [a; b; c]). by rewrite H. }
  by rewrite (Hs p l Hp), (Hs q l' Hq).
Qed.

(** A daemon that did not shut down is found by the next one of its workspace,
    one that did is not; what other slugs hold does not matter. *)
Theorem crash_detected (h : Host) (root : string) (wf wf' : option string) (pid pid' : Z) (now now' : Q) (st : Store)
    (stopped : bool) :
  slug_from_workspace (ho_resolve h root) = slug_from_workspace root -> dict_wf st -> pid' <> pid ->
  let st1 := snd (daemon_starts safe_load py_str h root wf pid now st) in
  let st2 := if stopped then daemon_stops root st1 else st1 in
  me_pid <$> fst (daemon_starts safe_load py_str h root wf' pid' now' st2) = if stopped then None else Some (Some pid).
Proof.
  intros Hs Hw Hp st1 st2. unfold st2, st1, daemon_starts, daemon_stops, previous_unclean_exit, read_orchestrator_metadata,
    clear_orchestrator_metadata, write_orchestrator_metadata. cbn [fst snd]. rewrite Hs. destruct stopped.
  - by rewrite dget_ddel_eq.
  - rewrite dget_dset_eq. cbn. destruct (Z.eqb_spec pid pid'); [congruence|done].
Qed.

(** Two workspaces of one slug: the start of a daemon in the second takes the
    first's running daemon for a crashed one and replaces its metadata, and its
    stop leaves no trace of the first. *)
Theorem shared_slug_confused (h : Host) (r1 r2 : string) (wf : option string) (pid1 pid2 : Z) (t1 t2 : Q) (st : Store) :
  slug_from_workspace (ho_resolve h r1) = slug_from_workspace r1 ->
  slug_from_workspace (ho_resolve h r2) = slug_from_workspace r2 ->
  slug_from_workspace r1 = slug_from_workspace r2 -> pid1 <> pid2 ->
  let st1 := snd (daemon_starts safe_load py_str h r1 wf pid1 t1 st) in
  let (crashed, st2) := daemon_starts safe_load py_str h r2 wf pid2 t2 st1 in
  me_workspace <$> crashed = Some (ho_resolve h r1) /\
  me_workspace <$> read_orchestrator_metadata r1 st2 = Some (ho_resolve h r2) /\
  read_orchestrator_metadata r1 (daemon_stops r2 st2) = None.
Proof.
  intros H1 H2 H12 Hp. unfold daemon_starts, previous_unclean_exit, read_orchestrator_metadata, daemon_stops,
    clear_orchestrator_metadata, write_orchestrator_metadata. cbn [fst snd]. rewrite H1, H2, H12, !dget_dset_eq. cbn.
  destruct (Z.eqb_spec pid1 pid2); [done|]. split; [done|]. split; [done|]. by rewrite dget_ddel_eq.
Qed.

(** A root that [resolve] changes, a relative one say, is written under one name
    and looked for under another: no crash of its daemon is noticed, and a
    shutdown leaves the metadata behind. *)
Theorem relative_root_lost (h : Host) (root : string) (wf : option string) (pid pid' : Z) (t t' : Q) (st : Store) :
  slug_from_workspace (ho_resolve h root) <> slug_from_workspace root ->
  dget (slug_from_workspace root) st = None ->
  let st1 := snd (daemon_starts safe_load py_str h root wf pid t st) in
  fst (daemon_starts safe_load py_str h root wf pid' t' st1) = None /\
  is_Some (dget (slug_from_workspace (ho_resolve h root)) (daemon_stops root st1)).
Proof.
  intros Hne Hn. unfold daemon_starts, previous_unclean_exit, read_orchestrator_metadata, daemon_stops,
    clear_orchestrator_metadata, write_orchestrator_metadata. cbn [fst snd].
  rewrite dget_dset_ne by done. rewrite Hn. split; [done|].
  rewrite dget_ddel_ne by done. rewrite dget_dset_eq. by eexists.
Qed.

(** A path given with the command, if it or its parent exists, is the workspace,
    whatever else there is; the next in line is the environment. *)
Theorem explicit_wins (h : Host) (st : Store) (p : string) (wf : option string) :
  p <> "" ->
  let path := ho_resolve h (ho_expand h p) in
  ho_exists h path || ho_exists h (ho_parent h path) = true ->
  get_workspace_root safe_load h st (Some p) wf = Ret (Some path).
Proof.
  intros Hp path H. unfold get_workspace_root, given. apply String.eqb_neq in Hp. rewrite Hp. cbn. fold path. by rewrite H.
Qed.

(** A path of which neither it nor its parent exists is not returned for a new
    workspace but passed over. *)
Theorem missing_path_ignored (h : Host) (st : Store) (p : string) (wf : option string) :
  let path := ho_resolve h (ho_expand h p) in
  ho_exists h path = false -> ho_exists h (ho_parent h path) = false ->
  get_workspace_root safe_load h st (Some p) wf = get_workspace_root safe_load h st None wf.
Proof.
  intros path H1 H2. unfold get_workspace_root. cbn [given]. destruct (String.eqb p ""); [done|]. cbn. fold path. by rewrite H1, H2.
Qed.

(** Without a path, an environment or a workflow that names one, the workspace is
    that of the daemon whose metadata was written last. *)
Theorem latest_daemon_found (h : Host) (st : Store) (wf : option string) (r : outcome lerr (option string)) :
  ho_env h = None -> (p ← given wf; parse_workspace_from_workflow safe_load h p) = None -> st <> [] ->
  get_workspace_root safe_load h st None wf = r ->
  exists f, f ∈ dvals st /\ (forall g, g ∈ dvals st -> (mf_mtime g <= mf_mtime f)%Q) /\
    r = match mf_data f with Some m => Ret (Some (me_workspace m)) | None => Raise BadMetadata end.
Proof.
  intros He Hwf Hst <-. unfold get_workspace_root. cbn [given mbind option_bind]. rewrite He. cbn [given]. rewrite Hwf.
  unfold find_latest_metadata. destruct st as [|[k f] st]; [done|]. cbn.
  destruct (latest_of_spec f (map snd st)) as (H1 & H2 & H3). exists (latest_of f (map snd st)). split; [|split].
  - destruct H1 as [->|H1]; [set_solver|]. unfold dvals. by right.
  - intros g [->|Hg]%elem_of_cons; [done|]. by apply H3.
  - by destruct (mf_data _).
Qed.

(** The projects listed as live are those whose process answers, in the order of
    the directory. *)
Theorem live_projects_answer (alive : Z -> bool) (st : Store) (m : Meta) :
  m ∈ get_live_projects alive (list_orchestrator_projects st) <->
  (exists f, f ∈ dvals st /\ mf_data f = Some m) /\ exists pid, me_pid m = Some pid /\ alive pid = true.
Proof.
  unfold get_live_projects, list_orchestrator_projects. rewrite list_elem_of_In, filter_In, <- list_elem_of_In, list_elem_of_omap.
  split; intros [Hl Hp]; (split; [done|]).
  - destruct (me_pid m) as [pid|]; [by exists pid|done].
  - by destruct Hp as (pid & -> & Hp).
Qed.
End locator.

Example slugs_of_two_teams :
  slug_from_workspace "/home/alice/team/app/ws" = "team-app-ws" /\
  slug_from_workspace "/srv/bob/team/app/ws" = "team-app-ws" /\
  slug_from_workspace "./ws" = ".-ws" /\ slug_from_workspace "/" = "default".
Proof. vm_compute. repeat split; reflexivity. Qed.
