(* ===== verification/ControlSocket.v ===== *)
(** * The control socket of a run ([src/orchestratord/control_socket.py])

    A run listens on a local socket: clients send commands, one JSON object per
    line, and are sent the events of the run.  The model is a transition system
    whose steps are the stretches between two awaits, so a broadcast can be
    interrupted by clients that come and go.  JSON, [str], the user of a peer and
    the order in which Python iterates a set are inputs. *)

From S2P Require Import Prelude Errors Dag StageRunner Regex.

Open Scope string_scope.
Open Scope list_scope.
Open Scope Z_scope.

(** ** Commands and peers *)

Record ControlCommand := mkCommand {
  cc_cmd : pyval;
  cc_payload : string;
}.

(** What the transport of a connection shows: no socket, one that is not a Unix
    socket, or the user [SO_PEERCRED] names, [None] when it names none. *)
Inductive Peer :=
| NoSocket
| OtherFamily
| UnixPeer (uid : option Z).

(** [_peer_authorized], for a daemon run by [me] *)
Definition peer_authorized (me : Z) (p : Peer) : bool :=
  match p with
  | NoSocket | OtherFamily => true
  | UnixPeer (Some uid) => uid =? me
  | UnixPeer None => false
  end.

Section socket.
(** [json.loads] of a decoded line, [None] when it cannot be decoded or parsed,
    and [str]. *)
Context (json_loads : string -> option pyval) (py_str : pyval -> string) (me : Z).

(** What the read loop makes of a line. *)
Definition command_of (line : string) : option ControlCommand :=
  match json_loads line with
  | Some (PDict d) =>
      cmd ← dget "cmd" d;
      Some (mkCommand cmd (py_str (default (PStr "") (dget "payload" d))))
  | _ => None
  end.

(** ** The socket *)

(** A call of [send_event].  While it waits for its first look at the clients
    ([sleep(0)]); while it waits for one client to drain, with the size the set
    had, the clients already written to, those the iteration still holds, and the
    dead; after its return; after the exception of an iteration whose set
    changed size. *)
Inductive Sending :=
| Yielded (line : string)
| Draining (line : string) (size : nat) (seen : list nat) (current : nat) (rest dead : list nat)
| Sent
| Broken.

Record Socket := mkSocket {
  so_clients : list nat;
  so_readers : list nat;
  so_queue : list ControlCommand;
  so_sends : list Sending;
  so_stopped : bool;
  so_written : list (nat * string);
  so_polled : list ControlCommand;
  so_closed : list nat;
}.

Definition new_socket : Socket := mkSocket [] [] [] [] false [] [] [].

Definition set_clients (l : list nat) (s : Socket) : Socket :=
  mkSocket l (so_readers s) (so_queue s) (so_sends s) (so_stopped s) (so_written s) (so_polled s) (so_closed s).
Definition set_sends (l : list Sending) (s : Socket) : Socket :=
  mkSocket (so_clients s) (so_readers s) (so_queue s) l (so_stopped s) (so_written s) (so_polled s) (so_closed s).
Definition set_readers (l : list nat) (s : Socket) : Socket :=
  mkSocket (so_clients s) l (so_queue s) (so_sends s) (so_stopped s) (so_written s) (so_polled s) (so_closed s).
Definition write (w : nat) (line : string) (s : Socket) : Socket :=
  mkSocket (so_clients s) (so_readers s) (so_queue s) (so_sends s) (so_stopped s) (so_written s ++ [(w, line)]) (so_polled s) (so_closed s).
Definition close (w : nat) (s : Socket) : Socket :=
  mkSocket (so_clients s) (so_readers s) (so_queue s) (so_sends s) (so_stopped s) (so_written s) (so_polled s) (so_closed s ++ [w]).

(** [self._clients.discard(w)] *)
Definition discard (w : nat) (s : Socket) : Socket :=
  set_clients (List.filter (fun x => negb (Nat.eqb x w)) (so_clients s)) s.

(** Steps of the world: a client connects; one of its lines is read, too long a
    line, or the end; a consumer takes the next command; a broadcast starts, with
    the order of the set, looks again after yielding, or goes on after a client
    drained or failed, with the order of what the iteration has left; the socket
    stops. *)
Inductive event :=
| Connect (w : nat) (p : Peer)
| Line (w : nat) (line : string)
| LineTooLong (w : nat)
| Ended (w : nat)
| Poll
| Send (line : string) (order : list nat)
| Resume (i : nat) (order : list nat)
| Drained (i : nat) (ok : bool) (rest : list nat)
| Stop.

(** [_on_client_connected] *)
Definition on_client_connected (w : nat) (p : Peer) (s : Socket) : Socket :=
  if peer_authorized me p then set_readers (so_readers s ++ [w]) (set_clients (so_clients s ++ [w]) s) else close w s.

(** The end of a read loop, whatever ends it: a client dropped by a broadcast has
    one that is still to end. *)
Definition end_read_loop (w : nat) (s : Socket) : Socket :=
  close w (discard w (set_readers (List.filter (fun x => negb (Nat.eqb x w)) (so_readers s)) s)).

(** One line of [_read_loop] *)
Definition read_line (line : string) (s : Socket) : Socket :=
  match command_of line with
  | Some c => mkSocket (so_clients s) (so_readers s) (so_queue s ++ [c]) (so_sends s) (so_stopped s) (so_written s) (so_polled s) (so_closed s)
  | None => s
  end.

(** One turn of [poll_commands] *)
Definition poll_commands (s : Socket) : Socket :=
  if so_stopped s then s
  else
    match so_queue s with
    | [] => s
    | c :: q => mkSocket (so_clients s) (so_readers s) q (so_sends s) (so_stopped s) (so_written s) (so_polled s ++ [c]) (so_closed s)
    end.

(** The loop over the clients begins. *)
Definition begin_loop (line : string) (order : list nat) (s : Socket) : Sending * Socket :=
  match order with
  | [] => (Sent, s)
  | w :: rest => (Draining line (length (so_clients s)) [] w rest [], write w line s)
  end.

(** [for w in dead: ...] *)
Definition drop_dead (dead : list nat) (s : Socket) : Socket :=
  fold_left (fun s w => close w (discard w s)) dead s.

(** After [drain]: the next client, unless the set changed size. *)
Definition go_on (line : string) (size : nat) (seen : list nat) (w : nat) (rest dead : list nat) (s : Socket)
    : Sending * Socket :=
  if negb (Nat.eqb (length (so_clients s)) size) then (Broken, s)
  else
    match rest with
    | [] => (Sent, drop_dead dead s)
    | x :: rest => (Draining line size (seen ++ [w]) x rest dead, write x line s)
    end.

(** [set] keeps at [i] what became of the call. *)
Definition update_send (i : nat) (r : Sending * Socket) : Socket :=
  set_sends (<[i := fst r]> (so_sends (snd r))) (snd r).

(** [stop]: the clients are closed and forgotten, the read loops
    cancelled. *)
Definition stop (s : Socket) : Socket :=
  let s := fold_left (fun s w => close w s) (so_clients s) s in
  mkSocket [] [] (so_queue s) (so_sends s) true (so_written s) (so_polled s) (so_closed s).

(** The order of an iteration: each member once. *)
Definition is_order (order members : list nat) : bool :=
  bool_decide (NoDup order) && bool_decide (length order = length members) && forallb (fun w => bool_decide (w ∈ members)) order.

(** What an iteration can have left: the members it held that are still there,
    and perhaps some that came, none it has already been at. *)
Definition may_rest (rest old seen members : list nat) : bool :=
  bool_decide (NoDup rest) && forallb (fun w => bool_decide (w ∈ members /\ w ∉ seen)) rest
  && forallb (fun w => bool_decide (w ∈ members -> w ∈ rest)) old.

(** One step; [None] when the event cannot happen. *)
Definition step (e : event) (s : Socket) : option Socket :=
  match e with
  | Connect w p => if bool_decide (w ∈ so_readers s) || bool_decide (w ∈ so_closed s) || so_stopped s then None
                   else Some (on_client_connected w p s)
  | Line w line => if bool_decide (w ∈ so_readers s) then Some (read_line line s) else None
  | LineTooLong w | Ended w => if bool_decide (w ∈ so_readers s) then Some (end_read_loop w s) else None
  | Poll => Some (poll_commands s)
  | Send line order =>
      match so_clients s with
      | [] => Some (set_sends (so_sends s ++ [Yielded line]) s)
      | _ => if is_order order (so_clients s)
             then let r := begin_loop line order s in Some (set_sends (so_sends (snd r) ++ [fst r]) (snd r)) else None
      end
  | Resume i order =>
      match so_sends s !! i with
      | Some (Yielded line) => if is_order order (so_clients s) then Some (update_send i (begin_loop line order s)) else None
      | _ => None
      end
  | Drained i ok rest =>
      match so_sends s !! i with
      | Some (Draining line size seen w old dead) =>
          if may_rest rest old (seen ++ [w]) (so_clients s)
          then Some (update_send i (go_on line size seen w rest (if ok then dead else dead ++ [w]) s)) else None
      | _ => None
      end
  | Stop => Some (stop s)
  end.

Fixpoint run (es : list event) (s : Socket) : option Socket :=
  match es with
  | [] => Some s
  | e :: es' => s ← step e s; run es' s
  end.

(** ** What a step leaves alone *)

Lemma drop_dead_same dead s :
  let s' := drop_dead dead s in
  so_readers s' = so_readers s /\ so_queue s' = so_queue s /\ so_polled s' = so_polled s /\
  so_written s' = so_written s /\ so_sends s' = so_sends s /\ so_stopped s' = so_stopped s.
Proof. revert s. induction dead as [|w dead IH]; intros s; simpl; [done|]. apply (IH (close w (discard w s))). Qed.

Lemma drop_dead_clients dead s w : w ∈ so_clients (drop_dead dead s) <-> w ∈ so_clients s /\ w ∉ dead.
Proof.
  revert s. induction dead as [|d dead IH]; intros s; simpl; [set_solver|]. rewrite IH. cbn.
  rewrite list_elem_of_In, filter_In, <- list_elem_of_In, negb_true_iff, Nat.eqb_neq. set_solver.
Qed.

Lemma close_all_same l s :
  let s' := fold_left (fun s w => close w s) l s in
  so_queue s' = so_queue s /\ so_polled s' = so_polled s /\ so_written s' = so_written s /\ so_sends s' = so_sends s.
Proof. revert s. induction l as [|w l IH]; intros s; simpl; [done|]. apply (IH (close w s)). Qed.

Lemma begin_readers line order s : so_readers (snd (begin_loop line order s)) = so_readers s.
Proof. by destruct order. Qed.
Lemma begin_queue line order s : so_queue (snd (begin_loop line order s)) = so_queue s.
Proof. by destruct order. Qed.
Lemma begin_polled line order s : so_polled (snd (begin_loop line order s)) = so_polled s.
Proof. by destruct order. Qed.
Lemma begin_stopped line order s : so_stopped (snd (begin_loop line order s)) = so_stopped s.
Proof. by destruct order. Qed.
Lemma begin_clients line order s : so_clients (snd (begin_loop line order s)) = so_clients s.
Proof. by destruct order. Qed.

Lemma go_on_same line size seen w rest dead s :
  let s' := snd (go_on line size seen w rest dead s) in
  so_readers s' = so_readers s /\ so_queue s' = so_queue s /\ so_polled s' = so_polled s /\ so_stopped s' = so_stopped s.
Proof.
  unfold go_on. destruct (negb _); [done|]. destruct rest; [|done]. cbn [snd]. by destruct (drop_dead_same dead s) as (? & ? & ? & ? & ? & ?).
Qed.
Lemma go_on_readers line size seen w rest dead s : so_readers (snd (go_on line size seen w rest dead s)) = so_readers s.
Proof. apply go_on_same. Qed.
Lemma go_on_queue line size seen w rest dead s : so_queue (snd (go_on line size seen w rest dead s)) = so_queue s.
Proof. apply go_on_same. Qed.
Lemma go_on_polled line size seen w rest dead s : so_polled (snd (go_on line size seen w rest dead s)) = so_polled s.
Proof. apply go_on_same. Qed.
Lemma go_on_stopped line size seen w rest dead s : so_stopped (snd (go_on line size seen w rest dead s)) = so_stopped s.
Proof. apply go_on_same. Qed.
Lemma close_all_queue l s : so_queue (fold_left (fun s w => close w s) l s) = so_queue s.
Proof. apply close_all_same. Qed.
Lemma close_all_polled l s : so_polled (fold_left (fun s w => close w s) l s) = so_polled s.
Proof. apply close_all_same. Qed.
#[local] Hint Rewrite begin_readers begin_queue begin_polled begin_stopped begin_clients go_on_readers go_on_queue go_on_polled go_on_stopped close_all_queue close_all_polled : sock.

(** The cases of a step, with what its parts leave alone rewritten. *)
Ltac step_cases H :=
  match type of H with step ?e _ = Some _ => destruct e; simpl in H end;
  repeat match type of H with
  | (if ?b then _ else _) = Some _ => destruct b eqn:?; try discriminate H
  | match ?x with _ => _ end = Some _ => destruct x eqn:?; try discriminate H
  end;
  injection H as <-;
  unfold update_send, on_client_connected, read_line, poll_commands, stop in *;
  repeat match goal with
  | |- context [if peer_authorized ?a ?b then _ else _] => destruct (peer_authorized a b) eqn:?
  | |- context [match command_of ?l with _ => _ end] => destruct (command_of l) eqn:?
  | |- context [if so_stopped ?s then _ else _] => destruct (so_stopped s) eqn:?
  | |- context [match so_queue ?s with _ => _ end] => destruct (so_queue s) eqn:?
  end;
  cbn [so_clients so_readers so_queue so_sends so_stopped so_written so_polled so_closed set_clients set_readers set_sends
       close discard write end_read_loop fst] in *;
  autorewrite with sock in *.

(** The command a step accepts, if any. *)
Definition accepted (e : event) : list ControlCommand :=
  match e with Line _ line => match command_of line with Some c => [c] | None => [] end | _ => [] end.

Lemma step_commands e s s' :
  step e s = Some s' -> so_polled s' ++ so_queue s' = (so_polled s ++ so_queue s) ++ accepted e.
Proof.
  intros H. step_cases H; unfold accepted; rewrite ?app_nil_r, <- ?app_assoc; try done.
  all: match goal with
       | Hc : command_of _ = _ |- _ => by rewrite Hc, ?app_nil_r
       | Hq : so_queue _ = [] |- _ => by rewrite Hq, app_nil_r
       end.
Qed.

(** Who reads: the authorized, from their connection on. *)
Lemma step_readers e s s' w :
  step e s = Some s' -> w ∈ so_readers s' ->
  w ∈ so_readers s \/ exists p, e = Connect w p /\ peer_authorized me p = true.
Proof.
  intros H. step_cases H; intros Hw; try (by left).
  all: first [apply elem_of_app in Hw as [Hw|Hw%list_elem_of_singleton]; [by left|subst; right; by eexists]
             |left; apply list_elem_of_In, filter_In in Hw as [Hw _]; by apply list_elem_of_In
             |set_solver].
Qed.

Lemma run_app es es' s : run (es ++ es') s = (run es s ≫= run es').
Proof. revert s. induction es as [|e es IH]; intros s; simpl; [done|]. destruct (step e s); simpl; [apply IH|done]. Qed.

(** ** Clients *)

Record clients_ok (s : Socket) : Prop := {
  ck_once : NoDup (so_clients s);
  ck_read : forall w, w ∈ so_clients s -> w ∈ so_readers s;
}.

Lemma filter_ne_In w (l : list nat) x : x ∈ List.filter (fun y => negb (Nat.eqb y w)) l <-> x ∈ l /\ x <> w.
Proof. by rewrite list_elem_of_In, filter_In, <- list_elem_of_In, negb_true_iff, Nat.eqb_neq. Qed.

Lemma clients_ok_same s s' :
  so_clients s' = so_clients s -> so_readers s' = so_readers s -> clients_ok s -> clients_ok s'.
Proof. intros Hc Hr [H1 H2]. constructor; by rewrite ?Hc, ?Hr. Qed.

Lemma clients_ok_discard w s : clients_ok s -> clients_ok (close w (discard w s)).
Proof.
  intros [H1 H2]. constructor; cbn; [by apply List.NoDup_filter, NoDup_ListNoDup || apply NoDup_ListNoDup, List.NoDup_filter, NoDup_ListNoDup|].
  intros x [Hx _]%filter_ne_In. auto.
Qed.

Lemma clients_ok_drop dead s : clients_ok s -> clients_ok (drop_dead dead s).
Proof. revert s. induction dead as [|w dead IH]; intros s H; simpl; [done|]. by apply IH, clients_ok_discard. Qed.

Lemma go_on_clients line size seen w rest dead s : clients_ok s -> clients_ok (snd (go_on line size seen w rest dead s)).
Proof.
  intros H. unfold go_on. destruct (negb _); [done|]. destruct rest; [by apply clients_ok_drop|]. by apply (clients_ok_same s).
Qed.

Lemma step_clients_ok e s s' : step e s = Some s' -> clients_ok s -> clients_ok s'.
Proof.
  destruct e as [v p|v line|v|v| |line order|i order|i ok rest|]; simpl; intros H Hs.
  1: destruct (bool_decide_reflect (v ∈ so_readers s)) as [|Hv]; [done|]; destruct (_ || _); [done|]; injection H as <-.
  1: unfold on_client_connected; destruct (peer_authorized me p); [|by apply (clients_ok_same s)]; destruct Hs as [H1 H2].
  1: constructor; cbn; [|set_solver]; apply NoDup_app; split; [done|]; split; [|apply NoDup_singleton].
  1: by intros x Hx ->%list_elem_of_singleton; apply Hv, H2.
  1: destruct (bool_decide _); [|done]; injection H as <-; unfold read_line; destruct (command_of line); by apply (clients_ok_same s).
  1, 2: destruct (bool_decide _); [|done]; injection H as <-; destruct Hs as [H1 H2]; constructor; cbn;
    [apply NoDup_ListNoDup, List.NoDup_filter, NoDup_ListNoDup, H1
    |intros x [Hx Hn]%filter_ne_In; apply filter_ne_In; auto].
  - injection H as <-. unfold poll_commands. destruct (so_stopped s); [done|]. destruct (so_queue s); [done|]. by apply (clients_ok_same s).
  - destruct (so_clients s) eqn:Ec; [injection H as <-; by apply (clients_ok_same s)|]. destruct (is_order _ _); [|done].
    injection H as <-. apply (clients_ok_same s); cbn; autorewrite with sock; done.
  - destruct (so_sends s !! i) as [[]|]; try done. destruct (is_order _ _); [|done]. injection H as <-.
    apply (clients_ok_same s); cbn; autorewrite with sock; done.
  - destruct (so_sends s !! i) as [[]|]; try done. destruct (may_rest _ _ _ _); [|done]. injection H as <-.
    eapply clients_ok_same; [..|by apply go_on_clients]; done.
  - injection H as <-. constructor; cbn; [constructor|set_solver].
Qed.

Lemma run_clients_ok es s s' : run es s = Some s' -> clients_ok s -> clients_ok s'.
Proof.
  revert s. induction es as [|e es IH]; intros s; simpl; [by intros [= <-]|].
  destruct (step e s) as [s1|] eqn:E; [|done]. intros H Hs. apply (IH s1 H). by apply (step_clients_ok e s).
Qed.

(** ** An undisturbed broadcast *)

(** Nothing but the broadcast itself, lines and polls. *)
Definition quiet (i : nat) (e : event) : Prop :=
  match e with
  | Line _ _ | Poll => True
  | Drained j _ _ => j = i
  | _ => False
  end.

Definition drains (es : list event) : nat := length (List.filter (fun e => match e with Drained _ _ _ => true | _ => false end) es).

Lemma is_order_perm order members : NoDup members -> is_order order members = true -> Permutation order members.
Proof.
  unfold is_order. rewrite !andb_true_iff, !bool_decide_eq_true, forallb_forall. intros Hm [[Hn Hl] Hin].
  apply NoDup_Permutation_bis; [by apply NoDup_ListNoDup|lia|]. intros w Hw. specialize (Hin w Hw). apply bool_decide_eq_true in Hin.
  by apply list_elem_of_In.
Qed.

(** What the broadcast has done and has left is the set it started with. *)
Definition going (line : string) (cs : list nat) (w0 : list (nat * string)) (i : nat) (s : Socket) (n : nat) : Prop :=
  so_clients s = cs /\
  exists seen w rest dead, so_sends s !! i = Some (Draining line (length cs) seen w rest dead) /\
    Permutation (seen ++ w :: rest) cs /\ so_written s = w0 ++ map (fun x => (x, line)) (seen ++ [w]) /\ n = length seen.

Definition over (line : string) (cs : list nat) (w0 : list (nat * string)) (i : nat) (s : Socket) (n : nat) : Prop :=
  so_sends s !! i = Some Sent /\ n = length cs /\
  exists l, Permutation l cs /\ so_written s = w0 ++ map (fun x => (x, line)) l.

Lemma may_rest_perm rest old seen cs :
  Permutation (seen ++ old) cs -> NoDup cs -> may_rest rest old seen cs = true -> Permutation (seen ++ rest) cs.
Proof.
  intros Hp Hn. unfold may_rest. rewrite !andb_true_iff, bool_decide_eq_true, !forallb_forall. intros [[Hr Hin] Hold].
  rewrite <- Hp. apply Permutation_app_head. apply NoDup_Permutation; [done| |].
  { rewrite <- Hp in Hn. by apply NoDup_app in Hn as (_ & _ & ?). }
  intros x. split; intros Hx.
  - specialize (Hin x (proj1 (list_elem_of_In _ _) Hx)). apply bool_decide_eq_true in Hin as [Hc Hs].
    rewrite <- Hp in Hc. apply elem_of_app in Hc as [Hc|Hc]; [done|exact Hc].
  - specialize (Hold x (proj1 (list_elem_of_In _ _) Hx)). apply bool_decide_eq_true in Hold. apply Hold. rewrite <- Hp.
    apply elem_of_app. by right.
Qed.

Lemma going_step line cs w0 i s n e s' :
  NoDup cs -> quiet i e -> going line cs w0 i s n -> step e s = Some s' ->
  let n' := (match e with Drained _ _ _ => S n | _ => n end) in
  going line cs w0 i s' n' \/ over line cs w0 i s' n'.
Proof.
  intros Hn Hq (Hc & seen & w & rest & dead & Hs & Hp & Hw & ->). destruct e as [v p|v l|v|v| |l order|j order|j ok rest'|]; try done; simpl.
  - destruct (bool_decide _); [|done]. intros [= <-]. left. unfold read_line.
    destruct (command_of l); split; try done; exists seen, w, rest, dead; done.
  - intros [= <-]. left. unfold poll_commands. destruct (so_stopped s); [|destruct (so_queue s)]; (split; [done|]); exists seen, w, rest, dead; done.
  - cbn in Hq. subst j. rewrite Hs. destruct (may_rest rest' rest (seen ++ [w]) (so_clients s)) eqn:Em; [|done]. intros [= <-].
    assert (Hi : (i < length (so_sends s))%nat) by (by eapply lookup_lt_Some).
    rewrite Hc in Em. apply may_rest_perm in Em; [|by rewrite <- app_assoc|done].
    unfold go_on. rewrite Hc, Nat.eqb_refl. cbn [negb]. destruct rest' as [|x rest'].
    + right. unfold update_send. cbn [fst snd]. rewrite app_nil_r in Em.
      destruct (drop_dead_same (if ok then dead else dead ++ [w]) s) as (_ & _ & _ & Hwr & Hse & _). split; [|split].
      * cbn. rewrite Hse. by apply list_lookup_insert_eq.
      * rewrite <- (Permutation_length Em), length_app. simpl. lia.
      * exists (seen ++ [w]). split; [done|]. cbn. by rewrite Hwr, Hw.
    + left. unfold update_send. cbn [fst snd]. split; [done|]. exists (seen ++ [w]), x, rest', (if ok then dead else dead ++ [w]).
      split; [cbn; by apply list_lookup_insert_eq|]. split; [done|]. split; [|rewrite length_app; simpl; lia].
      cbn. rewrite Hw, !map_app, <- !app_assoc. done.
Qed.

Lemma over_step line cs w0 i s n e s' :
  quiet i e -> over line cs w0 i s n -> step e s = Some s' ->
  over line cs w0 i s' (match e with Drained _ _ _ => S n | _ => n end).
Proof.
  intros Hq (Hs & Hn & l & Hp & Hw). destruct e as [v p|v x|v|v| |x order|j order|j ok rest'|]; try done; simpl.
  - destruct (bool_decide _); [|done]. intros [= <-]. unfold read_line. destruct (command_of x); (split; [done|split; [done|by exists l]]).
  - intros [= <-]. unfold poll_commands. destruct (so_stopped s); [|destruct (so_queue s)]; (split; [done|split; [done|by exists l]]).
  - cbn in Hq. subst j. by rewrite Hs.
Qed.

Lemma quiet_run line cs w0 i es s n s' :
  NoDup cs -> Forall (quiet i) es -> going line cs w0 i s n \/ over line cs w0 i s n -> run es s = Some s' ->
  going line cs w0 i s' (n + drains es) \/ over line cs w0 i s' (n + drains es).
Proof.
  intros Hn Hq. revert s n. induction Hq as [|e es He Hq IH]; intros s n H; simpl.
  { intros [= <-]. by rewrite Nat.add_0_r. }
  destruct (step e s) as [s1|] eqn:E; [|done]. intros Hr.
  replace (n + drains (e :: es))%nat with ((match e with Drained _ _ _ => S n | _ => n end) + drains es)%nat
    by (unfold drains; destruct e; simpl; lia).
  apply (IH s1); [|done]. destruct H as [H|H]; [by eapply going_step|right; by eapply over_step].
Qed.

Lemma step_stopped e s s' : step e s = Some s' -> so_stopped s' = so_stopped s || (match e with Stop => true | _ => false end).
Proof.
  intros H. step_cases H; by rewrite ?orb_false_r, ?orb_true_r.
Qed.

(** Only a poll hands a command out, and not of a stopped socket. *)
Lemma stopped_polls e s s' : so_stopped s = true -> step e s = Some s' -> so_polled s' = so_polled s.
Proof.
  intros Hst H. step_cases H; congruence.
Qed.

(** ** Theorems *)

(** A line is only read from a client that connected and was authorized; on a
    Unix socket, from a process of the daemon's own user. *)
Theorem only_authorized_command (es : list event) (s s' : Socket) (w : nat) (line : string) :
  run es new_socket = Some s -> step (Line w line) s = Some s' ->
  exists p, Connect w p ∈ es /\ peer_authorized me p = true.
Proof.
  intros Hr Hl. assert (Hw : w ∈ so_readers s).
  { simpl in Hl. by destruct (bool_decide_reflect (w ∈ so_readers s)). }
  clear Hl s'. revert s Hr Hw. induction es as [|e es IH] using rev_ind; intros s Hr Hw.
  { simpl in Hr. injection Hr as <-. set_solver. }
  rewrite run_app in Hr. destruct (run es new_socket) as [s0|] eqn:E; [|done]. cbn in Hr.
  destruct (step e s0) as [s1|] eqn:Es; [|done]. injection Hr as <-.
  destruct (step_readers _ _ _ _ Es Hw) as [Hw0|(p & -> & Hp)].
  - destruct (IH s0 eq_refl Hw0) as (p & Hin & Hp). exists p. set_solver.
  - exists p. set_solver.
Qed.

(** Commands reach the run in the order they were read, and none is lost: what was
    polled and what waits is what the lines gave, in order. *)
Theorem commands_in_order (es : list event) (s : Socket) :
  run es new_socket = Some s -> so_polled s ++ so_queue s = concat (map accepted es).
Proof.
  revert s. induction es as [|e es IH] using rev_ind; intros s Hr; [simpl in Hr; by injection Hr as <-|].
  rewrite run_app in Hr. destruct (run es new_socket) as [s0|] eqn:E; [|done]. cbn in Hr.
  destruct (step e s0) as [s1|] eqn:Es; [|done]. injection Hr as <-.
  rewrite (step_commands _ _ _ Es), (IH s0 eq_refl), map_app, concat_app. simpl. by rewrite app_nil_r.
Qed.

(** A broadcast during which no client comes or goes writes the frame once to
    every client, and is over when each of them has drained or failed. *)
Theorem quiet_broadcast_reaches_all (es0 es : list event) (s s' : Socket) (line : string) (order : list nat) :
  run es0 new_socket = Some s -> so_clients s <> [] ->
  Forall (quiet (length (so_sends s))) es ->
  run (Send line order :: es) s = Some s' ->
  (drains es <= length (so_clients s))%nat /\
  match so_sends s' !! length (so_sends s) with
  | Some Sent =>
      drains es = length (so_clients s) /\
      exists l, Permutation l (so_clients s) /\ so_written s' = so_written s ++ map (fun w => (w, line)) l
  | Some (Draining _ _ _ _ _ _) => (drains es < length (so_clients s))%nat
  | _ => False
  end.
Proof.
  intros H0 Hne Hq Hr. assert (Hok : clients_ok s).
  { apply (run_clients_ok _ _ _ H0). constructor; cbn; [constructor|set_solver]. }
  simpl in Hr. destruct (so_clients s) as [|c cs] eqn:Ec; [done|]. destruct (is_order order (c :: cs)) eqn:Eo; [|done].
  pose proof (ck_once _ Hok) as Hn. rewrite Ec in Hn. apply is_order_perm in Eo; [|done].
  destruct order as [|w rest]; [by apply Permutation_nil_cons in Eo|]. cbn in Hr.
  eapply (quiet_run line (c :: cs) (so_written s) (length (so_sends s)) es _ 0) in Hr; [|done|done|].
  2:{ left. split; [done|]. exists [], w, rest, []. rewrite Ec. cbn. split; [by apply list_lookup_middle|]. done. }
  simpl (0 + _)%nat in Hr. destruct Hr as [(Hc & seen & v & r & dead & Hs & Hp & Hw & Hd)|(Hs & Hd & l & Hp & Hw)]; rewrite Hs.
  - rewrite Hd. apply Permutation_length in Hp. rewrite length_app in Hp. simpl in *. lia.
  - rewrite Hd. split; [done|]. split; [done|]. by exists l.
Qed.

(** A broadcast is broken off when the number of clients changed while one of them
    was draining: the clients that are left get no frame, and the dead stay. *)
Theorem disturbed_broadcast_breaks (i : nat) (ok : bool) (line : string) (size : nat) (seen rest rest' dead : list nat)
    (w : nat) (s s' : Socket) :
  so_sends s !! i = Some (Draining line size seen w rest dead) -> length (so_clients s) <> size ->
  step (Drained i ok rest') s = Some s' ->
  so_sends s' !! i = Some Broken /\ so_written s' = so_written s /\ so_clients s' = so_clients s.
Proof.
  intros Hs Hne. simpl. rewrite Hs. destruct (may_rest _ _ _ _); [|done]. intros [= <-]. unfold go_on.
  apply Nat.eqb_neq in Hne. rewrite Hne. cbn. split; [|done]. apply list_lookup_insert_eq. by eapply lookup_lt_Some.
Qed.

(** After a stop there are no clients and none come, and no command is handed
    out. *)
Theorem stop_is_final (es : list event) (s s' : Socket) :
  run (Stop :: es) s = Some s' -> so_stopped s' = true /\ so_readers s' = [] /\ so_clients s' = [] /\ so_polled s' = so_polled s.
Proof.
  simpl. assert (H0 : so_stopped (stop s) = true /\ clients_ok (stop s) /\ so_readers (stop s) = [] /\ so_polled (stop s) = so_polled s).
  { unfold stop. cbn. destruct (close_all_same (so_clients s) s) as (_ & H & _). split; [done|]. split; [|done].
    constructor; cbn; [constructor|set_solver]. }
  revert H0. generalize (stop s). induction es as [|e es IH]; intros s0 (H1 & H2 & H3 & H4); simpl.
  { intros [= <-]. split; [done|]. split; [done|]. split; [|done]. apply elem_of_nil_inv. intros w Hw. apply (ck_read _ H2) in Hw. rewrite H3 in Hw. set_solver. }
  destruct (step e s0) as [s1|] eqn:E; [|done]. cbn. apply IH. split; [|split; [by apply (step_clients_ok e s0)|split]].
  - by rewrite (step_stopped _ _ _ E), H1.
  - apply elem_of_nil_inv. intros w Hw. destruct (step_readers _ _ _ _ E Hw) as [Hw0|(p & -> & _)]; [rewrite H3 in Hw0; set_solver|].
    simpl in E. by rewrite H1, orb_true_r in E.
  - rewrite <- H4. by apply (stopped_polls e).
Qed.
End socket.

(** A client that connects while another drains keeps the others from getting the
    frame. *)
Example late_client_breaks_broadcast :
  let go := run (fun _ => None) (fun _ => "") 0 in
  match go [Connect 1 NoSocket; Connect 2 NoSocket; Send "e" [1%nat; 2%nat]; Connect 3 NoSocket; Drained 0 true [2%nat; 3%nat]] new_socket with
  | Some s => so_sends s = [Broken] /\ so_written s = [(1%nat, "e")] /\ so_clients s = [1; 2; 3]%nat
  | None => False
  end.
Proof. vm_compute. repeat split; reflexivity. Qed.

Lemma quiet_broadcast_reaches_all_witness :
  let go := run (fun _ => None) (fun _ => "") 0 in
  exists s s', go [Connect 1 NoSocket; Connect 2 (UnixPeer (Some 0))] new_socket = Some s /\
    go [Send "e" [2%nat; 1%nat]; Drained 0 true [1%nat]; Drained 0 false []] s = Some s' /\ so_clients s' = [2%nat] /\
    (2 <= length (so_clients s))%nat.
Proof.
  intros go. eexists _, _. split; [vm_compute; reflexivity|]. split; [vm_compute; reflexivity|]. split; [reflexivity|].
  refine (proj1 (quiet_broadcast_reaches_all (fun _ => None) (fun _ => "") 0 [Connect 1 NoSocket; Connect 2 (UnixPeer (Some 0))]
            [Drained 0 true [1%nat]; Drained 0 false []] _ _ "e" [2%nat; 1%nat] _ _ _ _));
    [reflexivity|discriminate|repeat constructor|vm_compute; reflexivity].
Defined.
