(* ===== verification/RunReadModel.v ===== *)
(** * What the dashboard shows of the runs ([src/orchestratord/run_read_model.py])

    The registry, the reports of the runs and the observed events are joined into
    one view per issue, with its execution figures, the quality of its times and
    what it asks of the operator.  Records, reports and events are the JSON values
    they are read as; files, [str], the reading of numbers and dates and the
    conversation store are parameters.  Keys of a view that are only copied are in
    [iv_fields]. *)

From Stdlib Require Import Permutation Sorted.
From S2P Require Import Prelude Errors Dag StageRunner Regex.

Open Scope string_scope.
Open Scope list_scope.
Open Scope Z_scope.

Abbreviation section := (list (string * pyval)).

Inductive verr := AttributeError | ValueError.
Abbreviation R A := (outcome verr A).

(** ** Values *)

(** [d.get(k)] and [d.get(k, v)] *)
Definition get (k : string) (d : section) : pyval := default PNone (dget k d).
Definition get_or (k : string) (v : pyval) (d : section) : pyval := default v (dget k d).
(** [a or b] *)
Definition por (a b : pyval) : pyval := if truthy a then a else b.
Definition is_str (s : string) (v : pyval) : bool := match v with PStr x => String.eqb x s | _ => false end.

Definition trunc (q : Q) : Z := Z.quot (Qnum q) (Zpos (Qden q)).

Definition ISSUE_STATUSES : list string :=
  ["queued"; "pending"; "running"; "paused"; "synced"; "pending_review"; "completed"; "failed"; "abandoned";
   "verification_failed"; "stopped"].
Definition ACTIVE_STATUSES : list string := ["queued"; "pending"; "running"; "paused"; "synced"; "pending_review"].
Definition TERMINAL_STATUSES : list string := ["completed"; "failed"; "abandoned"; "verification_failed"; "stopped"].

(** [_status] *)
Definition status_of (v : pyval) : string :=
  match v with
  | PStr s => let n := lower (strip s) in if mem n ISSUE_STATUSES then n else "pending"
  | _ => "pending"
  end.

Section model.
(** [str], [float] and [int] of a text, [datetime.fromisoformat]; reading a JSON
    object ([_read_json]: an empty one for anything else), whether a file is
    there; the path operations; the run's entry in its conversation's manifest,
    an empty one when there is none or the store fails. *)
Context (py_str : pyval -> string) (float_str : string -> option Q) (int_str : string -> option Z)
  (from_iso : string -> option Q) (read_json : string -> section) (is_file : string -> bool)
  (as_json stem : string -> string) (short : string -> string)
  (manifest_run : string -> string -> section) (sessions_dir : string).

(** [_number] *)
Definition number (v : pyval) (d : Q) : Q :=
  match v with
  | PInt z => inject_Z z
  | PFloat q => q
  | PBool b => if b then 1%Q else 0%Q
  | PStr s => default d (float_str s)
  | _ => d
  end.

(** [_parse_timestamp] *)
Definition parse_timestamp (v : pyval) : option Q :=
  match v with
  | PInt z => Some (inject_Z z)
  | PFloat q => Some q
  | PStr s => if String.eqb (strip s) "" then None else match float_str s with Some q => Some q | None => from_iso s end
  | _ => None
  end.

(** [int(v or 0)] *)
Definition int_or_zero (v : pyval) : R Z :=
  if negb (truthy v) then Ret 0
  else
    match v with
    | PInt z => Ret z
    | PFloat q => Ret (trunc q)
    | PBool b => Ret (if b then 1 else 0)
    | PStr s => match int_str s with Some z => Ret z | None => Raise ValueError end
    | _ => Raise ValueError
    end.

(** [str(v or "")] *)
Definition str_or_empty (v : pyval) : string := if truthy v then py_str v else "".

(** [a / b] *)
Definition slash (a b : string) : string := a +:+ "/" +:+ b.

(** ** Reports *)

Fixpoint first_report (candidates : list string) : section :=
  match candidates with
  | [] => []
  | c :: cs => match read_json c with [] => first_report cs | r => r end
  end.

(** [_read_report] *)
Definition read_report (record : section) (run_id : string) : section :=
  if String.eqb run_id "" then []
  else
    let workspace := str_or_empty (get "workspace_path" record) in
    let recorded := str_or_empty (get "report_path" record) in
    first_report
      ((if String.eqb workspace "" then [] else [slash (slash workspace ".reports") (run_id +:+ ".json")])
       ++ (if String.eqb recorded "" then []
           else if String.eqb (stem (as_json recorded)) run_id then [as_json recorded] else [])).

(** [_issue_title] *)
Definition issue_title (record report : section) : string :=
  let title := por (get "issue_title" report) (get "issue_title" record) in
  if truthy title then py_str title
  else
    let recorded := str_or_empty (get "report_path" record) in
    if String.eqb recorded "" then "" else str_or_empty (get "issue_title" (read_json (as_json recorded))).

(** ** Execution *)

Record Execution := mkExecution {
  ex_turn_count : Z;
  ex_tool_count : Z;
  ex_output_chars : Z;
  ex_token_usage : pyval;
  ex_cost_usd : Q;
  ex_duration_ms : option Q;
  ex_window_ms : option Q;
  ex_fields : section;
}.

Definition event_type (o : section) (t : string) : bool := is_str t (get "event_type" o).

(** [metrics.update(data)] over the metric events *)
Definition metrics_of (observations : list section) : section :=
  fold_left
    (fun m o =>
       if event_type o "run_metrics" || event_type o "run_ended"
       then match get "data" o with PDict d => fold_left (fun m kv => dset (fst kv) (snd kv) m) d m | _ => m end
       else m)
    observations [].

Definition as_usage (v : pyval) : pyval := match v with PDict _ => v | _ => PDict [] end.

Definition turn_of (o : section) : option Z :=
  match get "data" o with
  | PDict d =>
      match get "turn" d with
      | PInt z => if 0 <? z then Some z else None
      | PFloat q => if qlt 0 q then Some (trunc q) else None
      | _ => None
      end
  | _ => None
  end.

Definition count_if {A} (p : A -> bool) (l : list A) : Z := Z.of_nat (length (List.filter p l)).

(** [max(0.0, (updated - created) * 1000) if created and updated else None] *)
Definition window_ms (created_at updated_at : Q) : option Q :=
  if Qeq_bool created_at 0 || Qeq_bool updated_at 0 then None else Some (qmax 0 ((updated_at - created_at) * 1000))%Q.

(** [_execution] *)
Definition execution (record report : section) (observations : list section) (created_at updated_at : Q) : R Execution :=
  let metrics := metrics_of observations in
  let usage := por (get "run_token_usage" record) (por (get "token_usage" report) (PDict [])) in
  let usage := match get "usage" metrics with PDict [] => usage | PDict d => PDict d | _ => usage end in
  let turns := foldr Z.max 0 (omap turn_of observations) in
  let cost := number (get_or "total_cost_usd"
                        (get_or "run_cost_usd" (get_or "cost_usd" (PFloat 0) report) record) metrics) 0 in
  let duration := number (get_or "duration_ms" (get_or "duration_ms" (get "run_duration_ms" record) report) metrics) (-1) in
  rt ← int_or_zero (get "run_turn_count" record);
  pt ← int_or_zero (get "turn_count" report);
  rl ← int_or_zero (get "run_tool_count" record);
  pl ← int_or_zero (get "tool_count" report);
  ro ← int_or_zero (get "run_output_len" record);
  let either k k' := por (get k report) (get k' record) in
  let text k k' := por (get k report) (por (get k' record) (PStr "")) in
  Ret (mkExecution (Z.max (Z.max rt pt) turns) (Z.max (Z.max rl pl) (count_if (fun o => event_type o "tool_call") observations))
         ro (as_usage usage) cost (if qle 0 duration then Some duration else None) (window_ms created_at updated_at)
         [("started_at", either "started_at" "run_started_at"); ("completed_at", either "completed_at" "run_completed_at");
          ("backend", text "backend" "run_backend"); ("backend_session_id", text "backend_session_id" "backend_session_id");
          ("runtime", text "runtime" "run_runtime"); ("model", text "model" "run_model");
          ("workspace_dirty", get "run_workspace_dirty" record); ("timeout_deadline_at", get "run_timeout_deadline_at" record);
          ("changed_files", por (get "changed_files" report) (PList [])); ("diff_stats", por (get "diff_stats" report) (PDict []))]).

(** ** Quality *)

Record Quality := mkQuality {
  qu_timing : string;
  qu_span_ms : option Q;
  qu_window_ms : option Q;
  qu_visible : Z;
  qu_truncated : Z;
}.

Definition max_of (x : Q) (l : list Q) : Q := fold_left qmax l x.
Definition min_of (x : Q) (l : list Q) : Q := fold_left qmin l x.

Definition span_ms (times : list Q) : option Q :=
  match times with
  | x :: (_ :: _) as l => Some ((max_of x l - min_of x l) * 1000)%Q
  | _ => None
  end.

Definition data_of (o : section) : section := match get "data" o with PDict d => d | _ => [] end.

(** [_data_quality] *)
Definition data_quality (observations : list section) (created_at updated_at : Q) : Quality :=
  let times := omap (fun o => parse_timestamp (get "source_ts" o)) observations in
  let span := span_ms times in
  let window := window_ms created_at updated_at in
  let timing :=
    match observations with
    | [] => "unavailable"
    | _ =>
        if (length times <? length observations)%nat then "partial"
        else if (length times <? 2)%nat then "sparse"
        else if existsb (fun o => is_str "arrival" (get "timestamp_quality" (data_of o))) observations then "arrival_timed"
        else
          match window, span with
          | Some w, Some s =>
              if qle 5000 w && qlt s (qmax 1000 (w * (5 # 100))) then "batch_captured" else "source_timed"
          | _, _ => "source_timed"
          end
    end in
  mkQuality timing span window (Z.of_nat (length observations))
    (count_if (fun o => truthy (get "content_truncated" (data_of o))) observations).

(** ** Attention *)

Record Attention := mkAttention {
  at_reason : string;
  at_action : string;
  at_label : string;
  at_tone : string;
}.

Definition at_required (a : Attention) : bool := negb (String.eqb (at_action a) "").

Definition nothing_asked : Attention := mkAttention "" "" "" "".

(** [_attention] *)
Definition attention (status : string) (record : section) (idle_seconds : Z) : Attention :=
  let stopped := is_str "operator_stop" (get "session_end_reason" record) in
  if truthy (get "has_conflict" record) then mkAttention "Git conflict" "inspect_conflict" "Inspect conflict" "bad"
  else if truthy (get "pause_reason" record) then
    mkAttention (py_str (get "pause_reason" record)) "resume_or_stop" "Resume or stop" "warn"
  else if truthy (get "clarification_status" record) then
    mkAttention ("Clarification: " +:+ py_str (get "clarification_status" record)) "answer_clarification"
      "Answer clarification" "warn"
  else if String.eqb status "pending_review" then
    mkAttention "Human review required" "review_run" "Review evidence" "warn"
  else if String.eqb status "verification_failed" then
    mkAttention "Verification failed" "inspect_verification" "Inspect failure" "bad"
  else if mem status ["failed"; "abandoned"; "stopped"] then
    mkAttention
      (if stopped then "Stopped by operator"
       else py_str (por (get "session_end_summary" record) (por (get "session_end_reason" record) (PStr "Execution stopped"))))
      "inspect_run" "Inspect run" (if stopped then "warn" else "bad")
  else if mem status ACTIVE_STATUSES && (300 <? idle_seconds) then
    mkAttention "No registry update for more than 5 minutes" "inspect_stall" "Inspect activity" "warn"
  else nothing_asked.

(** ** One issue *)

(** [_agent_state] *)
Definition agent_state (status : string) (report record : section) : string :=
  if is_str "operator_stop" (get "session_end_reason" record) then "stopped"
  else if String.eqb status "paused" || (mem status ACTIVE_STATUSES && truthy (get "pause_reason" record)) then "paused"
  else if truthy (get "status" report) then py_str (get "status" report)
  else if negb (truthy (get "run_id" record)) then "not_started"
  else if String.eqb status "running" then "running"
  else if String.eqb status "failed" then "failed"
  else if String.eqb status "abandoned" then "stopped"
  else if mem status ["synced"; "pending_review"; "completed"; "verification_failed"] then "completed"
  else status.

Record IssueView := mkIssueView {
  iv_issue_id : string;
  iv_status : string;
  iv_created_at : Q;
  iv_updated_at : Q;
  iv_age_seconds : Z;
  iv_idle_seconds : Z;
  iv_attempt_count : Z;
  iv_retry_count : Z;
  iv_pr_number : pyval;
  iv_title : string;
  iv_report_path : string;
  iv_transcript_path : string;
  iv_execution : Execution;
  iv_quality : Quality;
  iv_attention : Attention;
  iv_agent_state : string;
  iv_verification_state : pyval;
  iv_fields : section;
}.

(** The data of the last [run_ended] event. *)
Definition terminal_data (observations : list section) : R section :=
  match List.find (fun o => event_type o "run_ended") (rev observations) with
  | None => Ret []
  | Some o => match por (get "data" o) (PDict []) with PDict d => Ret d | _ => Raise AttributeError end
  end.

(** The record with what ended its session. *)
Definition enriched (record report terminal : section) : section :=
  dset "session_end_summary"
    (por (get "summary" terminal) (por (get "session_end_summary" record) (get "session_end_summary" report)))
    (dset "session_end_reason"
       (por (get "reason" terminal) (por (get "session_end_reason" record) (get "session_end_reason" report))) record).

(** The status shown. *)
Definition shown_status (record : section) : string :=
  let status := status_of (get "status" record) in
  if is_str "operator_stop" (get "session_end_reason" record) && negb (mem status ACTIVE_STATUSES) then "stopped" else status.

(** [max(0, int(now - t)) if t else 0] *)
Definition seconds_since (now t : Q) : Z := if Qeq_bool t 0 then 0 else Z.max 0 (trunc (now - t)%Q).

(** The execution figures a conversation's manifest supplies. *)
Definition supplied (run_metadata : section) (fields : section) : section :=
  fold_left
    (fun fields k =>
       if truthy (get k fields) then fields
       else match get k run_metadata with PNone => fields | v => dset k v fields end)
    ["backend"; "backend_session_id"] fields.

(** [_issue_view] *)
Definition issue_view (issue_id : string) (record report : section) (observations : list section) (now : Q)
    : R IssueView :=
  terminal ← terminal_data observations;
  let record := enriched record report terminal in
  let status := shown_status record in
  let record := if mem status TERMINAL_STATUSES then dset "pause_reason" (PStr "") record else record in
  let created_at := number (get "created_at" record) 0 in
  let updated_at := number (get "updated_at" record) 0 in
  let workspace := str_or_empty (get "workspace_path" record) in
  let run_id := str_or_empty (get "run_id" record) in
  ex ← execution record report observations created_at updated_at;
  let conversation := por (get "conversation_id" record) (if String.eqb run_id "" then PNone else PStr run_id) in
  let meta := if truthy conversation && negb (String.eqb run_id "") then manifest_run (py_str conversation) run_id else [] in
  let fields := supplied meta (ex_fields ex) in
  let ex := mkExecution (ex_turn_count ex) (ex_tool_count ex) (ex_output_chars ex) (ex_token_usage ex) (ex_cost_usd ex)
              (ex_duration_ms ex) (ex_window_ms ex) fields in
  let started := number (get "started_at" fields) 0 in
  let completed := number (get "completed_at" fields) 0 in
  let quality := data_quality observations (if Qeq_bool started 0 then created_at else started)
                   (if Qeq_bool completed 0 then updated_at else completed) in
  let idle := seconds_since now updated_at in
  let vs := get "verification_status" record in
  let recorded := str_or_empty (get "report_path" record) in
  let candidate := slash (slash workspace ".reports") (run_id +:+ ".json") in
  let report_path :=
    if String.eqb run_id "" || negb (String.eqb (stem recorded) run_id)
    then (if negb (String.eqb run_id "") && is_file candidate then candidate else "") else recorded in
  let transcript := slash (slash sessions_dir run_id) "transcript.jsonl" in
  attempts ← int_or_zero (get "attempt_count" record);
  retries ← int_or_zero (get "retry_count" record);
  Ret (mkIssueView issue_id status created_at updated_at (seconds_since now created_at) idle attempts retries
         (get "pr_number" record) (issue_title record report) report_path
         (if negb (String.eqb run_id "") && is_file transcript then transcript else "")
         ex quality (attention status record idle) (agent_state status report record)
         (por vs (PStr (if String.eqb status "verification_failed" then "failed" else "not_run")))
         [("identifier", por (get "issue_identifier" record) (PStr issue_id)); ("workspace_short", PStr (short workspace));
          ("base_branch", por (get "base_branch" record) (PStr "main")); ("intent", por (get "intent" record) (PStr "none"));
          ("conversation_id", conversation);
          ("parent_run_id", por (get "parent_run_id" record) (get "parent_run_id" meta));
          ("stage_id", por (get "stage_id" record) (get "stage_id" meta));
          ("branch_id", por (get "branch_id" record) (get "branch_id" meta));
          ("session_end_reason", por (get "session_end_reason" record) (por (get "session_end_reason" report) (PStr "")));
          ("session_end_summary", por (get "session_end_summary" record) (por (get "session_end_summary" report) (PStr "")))]).

(** ** The whole *)

Record ReadModel := mkReadModel {
  rm_issues : list IssueView;
  rm_by_status : dict string Z;
  rm_total : Z;
  rm_active : Z;
  rm_terminal : Z;
  rm_prs : Z;
  rm_attention : Z;
}.

Definition active (v : IssueView) : bool := mem (iv_status v) ACTIVE_STATUSES.

(** The order of the list: active issues first, then by falling time. *)
Definition view_le (a b : IssueView) : bool :=
  match active a, active b with
  | true, false => true
  | false, true => false
  | _, _ => trunc (iv_updated_at b) <=? trunc (iv_updated_at a)
  end.

Fixpoint insert_view (x : IssueView) (l : list IssueView) : list IssueView :=
  match l with
  | [] => [x]
  | y :: l' => if view_le x y then x :: l else y :: insert_view x l'
  end.
Definition sort_views (l : list IssueView) : list IssueView := foldr insert_view [] l.

Definition count_status (s : string) (m : dict string Z) : dict string Z := dset s (default 0 (dget s m) + 1) m.

(** The records of the registry, each with the status it is counted under. *)
Definition records_of (registry : section) : list (string * section) :=
  omap (fun kv => match snd kv with PDict r => Some (fst kv, r) | _ => None end) registry.

Definition view_of (observed : string -> list section) (now : Q) (kr : string * section) : R IssueView :=
  let run_id := str_or_empty (get "run_id" (snd kr)) in
  issue_view (fst kr) (snd kr) (read_report (snd kr) run_id) (if String.eqb run_id "" then [] else observed run_id) now.

(** [RunReadModel.read] *)
Definition read (registry : section) (observed : string -> list section) (now : Q) : R ReadModel :=
  issues ← map_outcome (view_of observed now) (records_of registry);
  let by_status := fold_left (fun m kr => count_status (status_of (get "status" (snd kr))) m) (records_of registry)
                     (map (fun s => (s, 0)) ISSUE_STATUSES) in
  let issues := sort_views issues in
  Ret (mkReadModel issues by_status (Z.of_nat (length issues)) (count_if active issues)
         (count_if (fun v => mem (iv_status v) TERMINAL_STATUSES) issues)
         (count_if (fun v => truthy (iv_pr_number v)) issues)
         (count_if (fun v => at_required (iv_attention v)) issues)).
End model.

(** ** Views *)

Lemma status_known v : mem (status_of v) ISSUE_STATUSES = true.
Proof. destruct v; try done. simpl. destruct (mem (lower (strip s)) ISSUE_STATUSES) eqn:E; [exact E|done]. Qed.

(** Every status is active or terminal, and not both. *)
Lemma status_split s : mem s ISSUE_STATUSES = true -> mem s TERMINAL_STATUSES = negb (mem s ACTIVE_STATUSES).
Proof.
  rewrite mem_true. intros H. repeat (apply elem_of_cons in H as [->|H]; [done|]). set_solver.
Qed.

Lemma shown_known record : mem (shown_status record) ISSUE_STATUSES = true.
Proof. unfold shown_status. destruct (_ && _); [done|apply status_known]. Qed.

Section view_facts.
Context (py_str : pyval -> string) (float_str : string -> option Q) (int_str : string -> option Z)
  (from_iso : string -> option Q) (read_json : string -> section) (is_file : string -> bool)
  (as_json stem : string -> string) (short : string -> string)
  (manifest_run : string -> string -> section) (sessions_dir : string).

Abbreviation view := (issue_view py_str float_str int_str from_iso read_json is_file as_json stem short manifest_run sessions_dir).
Abbreviation exec := (execution float_str int_str).

(** The record a view is made from. *)
Definition shown_record (record report terminal : section) : section :=
  let record := enriched record report terminal in
  if mem (shown_status record) TERMINAL_STATUSES then dset "pause_reason" (PStr "") record else record.

Lemma issue_view_spec issue_id record report observations now v :
  view issue_id record report observations now = Ret v ->
  exists terminal, terminal_data observations = Ret terminal /\
    let shown := shown_record record report terminal in
    iv_status v = shown_status (enriched record report terminal) /\
    iv_attention v = attention py_str (iv_status v) shown (iv_idle_seconds v) /\
    iv_agent_state v = agent_state py_str (iv_status v) report shown /\
    iv_pr_number v = get "pr_number" shown /\
    exists ex, exec shown report observations (iv_created_at v) (iv_updated_at v) = Ret ex /\
      ex_turn_count (iv_execution v) = ex_turn_count ex /\ ex_tool_count (iv_execution v) = ex_tool_count ex.
Proof.
  unfold issue_view. destruct (terminal_data observations) as [terminal|]; [|done]. cbn [mbind outcome_bind].
  fold (shown_record record report terminal). set (shown := shown_record record report terminal).
  destruct (exec shown report observations _ _) as [ex|] eqn:E; [|done]. cbn [mbind outcome_bind].
  destruct (int_or_zero int_str (get "attempt_count" shown)) as [n|]; [|done]. cbn [mbind outcome_bind].
  destruct (int_or_zero int_str (get "retry_count" shown)) as [k|]; [|done]. cbn [mbind outcome_bind].
  intros [= <-]. exists terminal. split; [done|]. cbn -[shown]. repeat (split; [done|]). by exists ex.
Qed.

(** ** Sorting *)

Lemma sort_views_perm l : Permutation (sort_views l) l.
Proof.
  induction l as [|x l IH]; simpl; [done|]. rewrite <- IH at 2. generalize (sort_views l). clear.
  intros l. induction l as [|y l IH]; simpl; [done|]. destruct (view_le x y); [done|]. rewrite IH. constructor.
Qed.

Lemma view_le_total a b : view_le a b = false -> view_le b a = true.
Proof.
  unfold view_le. destruct (active a), (active b); try done; rewrite Z.leb_gt, Z.leb_le; lia.
Qed.

Lemma view_le_trans a b c : view_le a b = true -> view_le b c = true -> view_le a c = true.
Proof.
  unfold view_le. destruct (active a), (active b), (active c); try done; rewrite !Z.leb_le; lia.
Qed.

Definition in_order (a b : IssueView) : Prop := view_le a b = true.

Lemma sort_views_sorted l : StronglySorted in_order (sort_views l).
Proof.
  induction l as [|x l IH]; simpl; [constructor|]. revert IH. generalize (sort_views l). clear l. intros l H.
  induction H as [|y l Hl IH Hy]; simpl; [repeat constructor|]. destruct (view_le x y) eqn:E.
  - constructor; [by constructor|]. constructor; [done|]. eapply List.Forall_impl; [|exact Hy].
    intros z Hz. by apply (view_le_trans x y z).
  - constructor; [done|]. apply List.Forall_forall. intros z Hz.
    assert (Hz' : x = z \/ List.In z l).
    { clear -Hz. induction l as [|w l IH]; simpl in *; [intuition|]. destruct (view_le x w); simpl in Hz; intuition. }
    destruct Hz' as [<-|Hz']; [by apply view_le_total|]. rewrite List.Forall_forall in Hy. by apply Hy.
Qed.

(** ** Counting *)

Definition sum_counts (m : dict string Z) : Z := foldr (fun kv n => snd kv + n) 0 m.

Lemma sum_count_status s m : is_Some (dget s m) -> sum_counts (count_status s m) = sum_counts m + 1.
Proof.
  unfold count_status. intros [n Hn]. rewrite Hn. change (default 0 (Some n)) with n. revert Hn. induction m as [|[k v] m IH]; simpl; [done|].
  destruct (decide (s = k)) as [->|Hne].
  - intros [= ->]. simpl. lia.
  - intros Hn. simpl. rewrite (IH Hn). lia.
Qed.

Lemma count_status_keys s x m : is_Some (dget x m) -> is_Some (dget x (count_status s m)).
Proof. intros H. unfold count_status. rewrite dget_dset. destruct (decide _); [by eexists|done]. Qed.

Lemma sum_fold_counts {A} (f : A -> string) l m :
  (forall a, is_Some (dget (f a) m)) ->
  sum_counts (fold_left (fun m a => count_status (f a) m) l m) = sum_counts m + Z.of_nat (length l).
Proof.
  revert m. induction l as [|a l IH]; intros m Hm; simpl; [lia|]. rewrite IH.
  - rewrite sum_count_status by apply Hm. lia.
  - intros x. apply count_status_keys, Hm.
Qed.

Lemma known_counted s : mem s ISSUE_STATUSES = true -> is_Some (dget s (map (fun s => (s, 0)) ISSUE_STATUSES)).
Proof. rewrite mem_true. intros H. repeat (apply elem_of_cons in H as [->|H]; [by eexists|]). set_solver. Qed.

Lemma count_split {A} (p q : A -> bool) l : (forall a, a ∈ l -> q a = negb (p a)) -> count_if p l + count_if q l = Z.of_nat (length l).
Proof.
  unfold count_if. induction l as [|a l IH]; intros H; simpl; [done|]. rewrite (H a) by set_solver.
  specialize (IH ltac:(set_solver)). destruct (p a); simpl; lia.
Qed.

Lemma map_outcome_In {E A B} (f : A -> outcome E B) l l' b :
  map_outcome f l = Ret l' -> b ∈ l' -> exists a, a ∈ l /\ f a = Ret b.
Proof.
  revert l'. induction l as [|a l IH]; intros l'; simpl; [intros [= <-]; set_solver|].
  destruct (f a) as [y|] eqn:Ef; [|done]. cbn. destruct (map_outcome f l) as [ys|]; [|done]. intros [= <-].
  intros [->|Hb]%elem_of_cons; [exists a; set_solver|]. destruct (IH ys eq_refl Hb) as (x & Hx & Hfx). exists x. set_solver.
Qed.

Lemma map_outcome_all {E A B} (f : A -> outcome E B) l l' :
  map_outcome f l = Ret l' -> forall a, a ∈ l -> exists b, f a = Ret b.
Proof.
  revert l'. induction l as [|x l IH]; intros l'; simpl; [set_solver|].
  destruct (f x) as [y|] eqn:Ef; [|done]. cbn. destruct (map_outcome f l) as [ys|]; [|done]. intros _ a [->|Ha]%elem_of_cons; [by exists y|].
  by apply (IH ys).
Qed.

Lemma map_outcome_count {E A B} (f : A -> outcome E B) l l' : map_outcome f l = Ret l' -> length l' = length l.
Proof.
  revert l'. induction l as [|a l IH]; intros l'; simpl; [by intros [= <-]|].
  destruct (f a) as [y|]; [|done]. cbn. destruct (map_outcome f l) as [ys|]; [|done]. intros [= <-]. simpl. f_equal. by apply IH.
Qed.

(** ** Figures *)

Lemma max_of_ge x l : (x <= max_of x l)%Q /\ forall y, y ∈ l -> (y <= max_of x l)%Q.
Proof.
  unfold max_of. revert x. induction l as [|z l IH]; intros x; simpl; [split; [apply Qle_refl|set_solver]|].
  destruct (IH (qmax x z)) as [H1 H2]. pose proof (qmax_le_l x z). pose proof (qmax_le_r x z).
  split; [by eapply Qle_trans|]. intros y [->|Hy]%elem_of_cons; [by eapply Qle_trans|auto].
Qed.

Lemma min_of_le x l : (min_of x l <= x)%Q.
Proof.
  unfold min_of. revert x. induction l as [|z l IH]; intros x; simpl; [apply Qle_refl|].
  eapply Qle_trans; [apply IH|apply qmin_le_l].
Qed.

Lemma foldr_max_ge (l : list Z) : 0 <= foldr Z.max 0 l /\ forall x, x ∈ l -> x <= foldr Z.max 0 l.
Proof.
  induction l as [|y l [IH1 IH2]]; simpl; [split; [lia|set_solver]|]. split; [lia|].
  intros x [->|Hx]%elem_of_cons; [lia|]. specialize (IH2 x Hx). lia.
Qed.

(** The counts of an execution are the largest of their three sources. *)
Lemma execution_counts record report observations c u ex :
  exec record report observations c u = Ret ex ->
  exists rt pt rl pl, int_or_zero int_str (get "run_turn_count" record) = Ret rt /\ int_or_zero int_str (get "turn_count" report) = Ret pt /\
    int_or_zero int_str (get "run_tool_count" record) = Ret rl /\ int_or_zero int_str (get "tool_count" report) = Ret pl /\
    ex_turn_count ex = Z.max (Z.max rt pt) (foldr Z.max 0 (omap turn_of observations)) /\
    ex_tool_count ex = Z.max (Z.max rl pl) (count_if (fun o => event_type o "tool_call") observations).
Proof.
  unfold execution. destruct (int_or_zero int_str (get "run_turn_count" record)) as [rt|]; [|done]. cbn [mbind outcome_bind].
  destruct (int_or_zero int_str (get "turn_count" report)) as [pt|]; [|done]. cbn [mbind outcome_bind].
  destruct (int_or_zero int_str (get "run_tool_count" record)) as [rl|]; [|done]. cbn [mbind outcome_bind].
  destruct (int_or_zero int_str (get "tool_count" report)) as [pl|]; [|done]. cbn [mbind outcome_bind].
  destruct (int_or_zero int_str (get "run_output_len" record)) as [ro|]; [|done]. cbn [mbind outcome_bind].
  intros [= <-]. exists rt, pt, rl, pl. done.
Qed.

Lemma shown_record_keeps k record report terminal :
  k <> "pause_reason" -> get k (shown_record record report terminal) = get k (enriched record report terminal).
Proof. intros Hk. unfold shown_record, get. destruct (mem _ _); [|done]. by rewrite dget_dset_ne. Qed.

Lemma enriched_keeps k record report terminal :
  k <> "session_end_reason" -> k <> "session_end_summary" -> get k (enriched record report terminal) = get k record.
Proof. intros H1 H2. unfold enriched, get. by rewrite !dget_dset_ne. Qed.

Lemma terminal_pause record report terminal :
  mem (shown_status (enriched record report terminal)) TERMINAL_STATUSES = true ->
  get "pause_reason" (shown_record record report terminal) = PStr "".
Proof. intros H. unfold shown_record, get. rewrite H, dget_dset_eq. done. Qed.

(** ** Theorems *)

Abbreviation read_model := (read py_str float_str int_str from_iso read_json is_file as_json stem short manifest_run sessions_dir).

(** The totals add up: every record of the registry is one issue, each is active
    or terminal and not both, and the counts by status sum to all of them.  Active
    issues come first, and among equals the one updated last. *)
Theorem totals_add_up (registry : section) (observed : string -> list section) (now : Q) (m : ReadModel) :
  read_model registry observed now = Ret m ->
  rm_total m = rm_active m + rm_terminal m /\
  rm_total m = sum_counts (rm_by_status m) /\
  rm_total m = Z.of_nat (length (records_of registry)) /\
  StronglySorted in_order (rm_issues m).
Proof.
  unfold read. destruct (map_outcome _ (records_of registry)) as [views|] eqn:E; [|done]. cbn [mbind outcome_bind].
  intros [= <-]. cbn [rm_total rm_active rm_terminal rm_by_status rm_issues].
  rewrite (Permutation_length (sort_views_perm views)). pose proof (map_outcome_count _ _ _ E) as Hl. split; [|split; [|split]].
  - symmetry. rewrite <- (Permutation_length (sort_views_perm views)). apply count_split. intros v Hv. unfold active.
    rewrite (sort_views_perm views) in Hv. destruct (map_outcome_In _ _ _ _ E Hv) as (kr & _ & Hkr).
    apply issue_view_spec in Hkr as (t & _ & Hs & _). rewrite Hs. apply status_split, shown_known.
  - rewrite sum_fold_counts; [|intros a; apply known_counted, status_known]. rewrite Hl. reflexivity.
  - by rewrite Hl.
  - apply sort_views_sorted.
Qed.

(** The turns and tool calls shown are at least those of every source: the
    record, the report and the events seen. *)
Theorem figures_cover_sources (issue_id : string) (record report : section) (observations : list section) (now : Q) (v : IssueView) :
  view issue_id record report observations now = Ret v ->
  (forall n, int_or_zero int_str (get "turn_count" report) = Ret n -> n <= ex_turn_count (iv_execution v)) /\
  (forall n, int_or_zero int_str (get "tool_count" report) = Ret n -> n <= ex_tool_count (iv_execution v)) /\
  (forall o t, o ∈ observations -> turn_of o = Some t -> t <= ex_turn_count (iv_execution v)) /\
  count_if (fun o => event_type o "tool_call") observations <= ex_tool_count (iv_execution v).
Proof.
  intros H. apply issue_view_spec in H as (t & _ & _ & _ & _ & _ & ex & He & -> & ->).
  apply execution_counts in He as (rt & pt & rl & pl & _ & -> & _ & -> & -> & ->).
  split; [intros n [= <-]; lia|]. split; [intros n [= <-]; lia|]. split; [|lia].
  intros o x Ho Hx. destruct (foldr_max_ge (omap turn_of observations)) as [_ Hm].
  specialize (Hm x). rewrite list_elem_of_omap in Hm. specialize (Hm (ex_intro _ o (conj Ho Hx))). lia.
Qed.

(** An issue that is over is never shown as waiting for a resume. *)
Theorem over_not_paused (issue_id : string) (record report : section) (observations : list section) (now : Q) (v : IssueView) :
  view issue_id record report observations now = Ret v ->
  mem (iv_status v) TERMINAL_STATUSES = true -> at_action (iv_attention v) <> "resume_or_stop".
Proof.
  intros H Ht. apply issue_view_spec in H as (t & _ & Hs & Ha & _). rewrite Hs in Ht. rewrite Ha. unfold attention.
  rewrite (terminal_pause _ _ _ Ht). change (truthy (PStr "")) with false. cbv zeta.
  repeat match goal with |- context [at_action (if ?b then _ else _)] => destruct b end; done.
Qed.

(** Every issue that waits for a person or went wrong asks for attention, and so
    does an active one without news for more than five minutes. *)
Theorem attention_is_asked (issue_id : string) (record report : section) (observations : list section) (now : Q) (v : IssueView) :
  view issue_id record report observations now = Ret v ->
  mem (iv_status v) ["pending_review"; "verification_failed"; "failed"; "abandoned"; "stopped"] = true \/
  mem (iv_status v) ACTIVE_STATUSES = true /\ 300 < iv_idle_seconds v ->
  at_required (iv_attention v) = true.
Proof.
  intros H Hs. apply issue_view_spec in H as (t & _ & _ & -> & _). revert Hs. generalize (iv_status v). intros st Hs.
  unfold attention. repeat match goal with |- context [if ?b then mkAttention _ _ _ _ else _] => destruct b eqn:?; [done|] end.
  exfalso. destruct Hs as [Hs|[Hs Hi]].
  - apply mem_true in Hs. repeat (apply elem_of_cons in Hs as [->|Hs]; [done|]). set_solver.
  - apply Z.ltb_lt in Hi. by rewrite Hs, Hi in *.
Qed.

(** The time the events span is not negative. *)
Theorem span_not_negative (times : list Q) (s : Q) : span_ms times = Some s -> (0 <= s)%Q.
Proof.
  assert (H : forall x l, (0 <= (max_of x l - min_of x l) * 1000)%Q).
  { intros x l. pose proof (proj1 (max_of_ge x l)). pose proof (min_of_le x l). lra. }
  destruct times as [|x [|y l]]; [done|done|]. intros Hs. injection Hs as <-. apply (H x (x :: y :: l)) || apply (H x (y :: l)).
Qed.

(** One record that cannot be shown keeps every issue from being shown. *)
Theorem bad_record_hides_all (registry : section) (observed : string -> list section) (now : Q) (id : string) (record : section) :
  (id, record) ∈ records_of registry ->
  int_or_zero int_str (get "attempt_count" record) = Raise ValueError ->
  exists e, read_model registry observed now = Raise e.
Proof.
  intros Hin Hbad. unfold read. destruct (map_outcome _ (records_of registry)) as [views|e] eqn:E; [|by exists e].
  exfalso. destruct (map_outcome_all _ _ _ E _ Hin) as [v Hv]. unfold view_of in Hv. cbn [fst snd] in Hv.
  unfold issue_view in Hv. destruct (terminal_data _) as [t|]; [|done]. cbn [mbind outcome_bind] in Hv.
  fold (shown_record record (read_report py_str read_json as_json stem record (str_or_empty py_str (get "run_id" record))) t) in Hv.
  destruct (exec _ _ _ _ _) as [ex|]; [|done]. cbn [mbind outcome_bind] in Hv.
  rewrite (shown_record_keeps "attempt_count"), (enriched_keeps "attempt_count"), Hbad in Hv by done. done.
Qed.
End view_facts.

Definition demo_read (registry : section) (now : Q) : outcome verr ReadModel :=
  read (fun v => match v with PStr s => s | _ => "?" end) (fun _ => None) (fun _ => None) (fun _ => None) (fun _ => [])
    (fun _ => false) (fun p => p) (fun p => p) (fun p => p) (fun _ _ => []) "sessions" registry (fun _ => []) now.

(** A failed issue whose session an operator stopped is shown as stopped and
    counted as failed. *)
Example stopped_counted_as_failed :
  match demo_read [("7", PDict [("status", PStr "failed"); ("session_end_reason", PStr "operator_stop")])] 0 with
  | Ret m => map iv_status (rm_issues m) = ["stopped"] /\ dget "stopped" (rm_by_status m) = Some 0 /\
             dget "failed" (rm_by_status m) = Some 1
  | Raise _ => False
  end.
Proof. vm_compute. repeat split; reflexivity. Qed.

(** A clarification that was resolved still asks for an answer. *)
Example resolved_clarification_asks :
  match demo_read [("7", PDict [("status", PStr "running"); ("clarification_status", PStr "resolved")])] 0 with
  | Ret m => map (fun v => at_action (iv_attention v)) (rm_issues m) = ["answer_clarification"] /\ rm_attention m = 1
  | Raise _ => False
  end.
Proof. vm_compute. split; reflexivity. Qed.
